(* ===== verification/_CoqProject ===== *)
-Q . S2P
Prelude.v
Words.v
Strings.v
Text.v
ALU.v
Memory.v
ISA.v
Binary.v
Interrupts.v
Protocol.v
Serial.v
Devices.v
DeviceTypes.v
CPUState.v
Trace.v
CPU.v
CPUExec.v
CPUStep.v
CPUFrames.v
CPUInv.v
CPUProtect.v
CPURun.v
CPUEquiv.v
Image.v
Process.v
ProcTable.v
Scheduler.v
Dispatcher.v
Preemption.v
Lifecycle.v
ZeroFS.v
Syscalls.v
SyscallLaws.v
Assembler.v
AssemblerLaws.v
Listing.v
CPUShape.v
Runner.v
Verifier.v
VerifierLaws.v
RunnerLog.v
RunnerLaws.v
RunnerVerified.v
TraceDetail.v
DebugCondition.v
DebugSymbols.v
DebugSession.v
DebugLaws.v
WatchLaws.v
MultiDebugSession.v
MultiDebugLaws.v
Json.v
TraceJson.v
TraceJsonDiff.v
JsonGrammar.v
JsonText.v
TraceDocument.v
TraceJsonLaws.v
DebugSnapshotJson.v
SnapshotLaws.v
DebugInspector.v
Console.v
DebugConsole.v
MultiProcessDebugConsole.v
ConsoleLaws.v
StudioBackends.v
Disk.v
ExampleFiles.v
BioOSRunner.v
Showcase.v
DiskLaws.v
ShowcaseLaws.v
ShowcaseRun.v
CommandLine.v
Commands.v
CommandLaws.v
