(* ===== verification/Prelude.v ===== *)
(** * Zero-CPU: a verification library

    Zero-CPU ([src/] of the repository) is an emulator of a small protected
    computer: a 64-bit CPU with User and Kernel modes, 4096 bytes of memory,
    vectored interrupts, memory-mapped devices, an instruction encoder, a binary
    program format, and, above it, a kernel with processes and a file system.
    This library translates the C++ of the machine into Rocq functions and
    proves what makes the machine correct.

    ** Parts and files

    - [Prelude] (this file): exceptions, the two monads, the program logic, and
      tactics.  [outcome A] is a call that returns or throws; [M St A] is code
      over a mutable state that may throw, where what was written before the
      throw stays written, as in C++.  [hoare] and [safe] are its triples;
      [safe_go] follows the code with the hint databases [safe] and
      [safe_default].
    - [Words]: integers of a width as [Z] with the wrap-around written out
      ([u8], [u64], [i64]; [is_u8], ... are their ranges), little- and big-endian
      loops.
    - [ALU]: [src/core/ALU.cpp], [src/core/Flags.cpp] and the flag helpers of
      [src/core/CPU.cpp].
    - [Memory]: [src/core/Memory.cpp] and [include/zero_cpu/core/MemoryMap.hpp].
      Memory is a list of bytes.
    - [ISA]: [src/core/RegisterFile.cpp] and [src/isa/]: opcodes, operands as a
      tagged union, the 24-byte encoder and decoder.
    - [Binary]: [src/binary/]: writer, reader and loader of [.zbin] programs.
    - [Interrupts]: [src/core/InterruptController.cpp], [src/core/TimerDevice.cpp].
    - [Devices]: [src/core/MMIOBus.cpp], the debug output, the hardware bridge
      and its mock bus.  Objects the C++ shares through [std::shared_ptr] live in
      a store, the [World], and are named by references, so that two owners of a
      controller see the same object.
    - [DeviceTypes]: the type invariant of the store.
    - [CPUState]: [src/core/CPUState.cpp], [src/core/PrivilegeLevel.cpp].
    - [Trace]: [src/trace/TraceLogger.cpp] and the observations an event of
      [src/trace/TraceEvent.cpp] is made of.
    - [CPU]: the members of [include/zero_cpu/core/CPU.hpp] and the operations of
      [src/core/CPU.cpp] instructions are made of: loading, protection checks,
      stacks, interrupt frames.  The state of the whole is a [Machine]: the CPU,
      the [World], and the host's software interrupt handler.  The abstract class
      [SoftwareInterruptHandler] is a type class.
    - [CPUExec]: interrupts, host calls and the binary engine of
      [src/core/CPU.cpp], one definition per [case] of the opcode switch.
    - [CPUStep]: the interpreted engine, [CPU::step] and [CPU::run].
    - [CPUFrames], [CPUInv], [CPUProtect], [CPURun], [CPUEquiv]: the theorems on
      the CPU.
    - [Strings]: [std::string] as a list of characters: [find], [substr],
      splitting, the order of keys.
    - [Image]: [src/kernel/ExecutableMetadata.cpp], [ProcessImage.cpp] and
      [ProcessImageLoader.cpp]: from the bytes of an executable to the initial
      memory and context of a process.
    - [Process]: [src/kernel/ProcessState.cpp], [ProcessContext.cpp],
      [ProcessAddressSpace.cpp] and [ProcessControlBlock.cpp].
    - [ProcTable]: [src/kernel/ProcessTable.cpp], and the life of a process as a
      step relation.
    - [Scheduler]: [src/kernel/RoundRobinScheduler.cpp].
    - [Dispatcher]: [src/kernel/ProcessDispatcher.cpp] and the loading paths of
      the CPU it uses.  The state is a [Kernel]: the CPU and the process table.
    - [Preemption]: [src/kernel/TimerPreemptiveScheduler.cpp].
    - [Lifecycle]: [src/kernel/ProcessLifecycleManager.cpp].
    - [ZeroFS]: [src/system/ZeroFS.cpp], a flat map from normalised paths to
      nodes, and its specification, a tree of directories.
    - [Syscalls], [SyscallLaws]: [src/kernel/ProtectedSyscallDispatcher.cpp] and
      the services behind it ([ProtectedFilesystemService.cpp] among them), as an
      instance of [CPU.SoftwareInterruptHandler]; and what they promise.
    - [Text]: the C++ library on text: character classes, streams, numbers.
    - [Assembler], [AssemblerLaws], [Listing]: [src/assembler/Assembler.cpp], what
      an assembled program is, and how listings assemble back.
    - [Protocol]: [src/hardware/HardwareProtocol.cpp].
    - [Serial]: [src/hardware/SerialHardwareBus.cpp] and [MockSerialTransport.cpp],
      and the hardware bus as an interface with laws.
    - [CPUShape]: what one CPU step does to the trace and to the sizes of the
      machine, for any host that keeps them ([CPUShape.QuietHandler]).
    - [Runner]: [src/system/MultiProcessRunner.cpp]: executables to processes, the
      loop of lifecycle steps with its records, and the summaries.
    - [Verifier], [VerifierLaws]: [src/system/MultiProcessInvariantVerifier.cpp],
      and what a consistent result is.
    - [RunnerLog], [RunnerLaws], [RunnerVerified]: the invariant that
      ties the records of a run to the machine, that a lifecycle step keeps it,
      that a loop of them ends with a consistent result, and the theorems on runs.
    - [TraceDetail]: the rest of [src/trace/TraceEvent.cpp]: what a
      trace event shows of its instruction, and its texts.
    - [DebugCondition]: [src/debug/DebugCondition.cpp].
    - [DebugSymbols]: [src/debug/DebugSymbols.cpp].
    - [DebugSession], [DebugLaws], [WatchLaws]: [src/debug/DebugSession.cpp], what
      stops a session and in which order, and what its watchpoints see.
    - [MultiDebugSession], [MultiDebugLaws]: [src/debug/MultiProcessDebugSession.cpp],
      the debugger of several processes, over the same system a run uses.
    - [Json]: numbers, strings and fields of JSON as the writers write them.
      [TraceJson]: [src/trace/TraceJsonWriter.cpp] and
      [src/system/MultiProcessTraceJsonWriter.cpp]; [TraceJsonDiff]: the parser and
      the comparison of [src/trace/TraceJsonDiff.cpp].  [JsonGrammar] is the grammar
      the parser reads, [JsonText] relates written texts to it, [TraceDocument] and
      [TraceJsonLaws] say which documents the writers write.
    - [DebugSnapshotJson], [SnapshotLaws]: [src/debug/DebugSnapshotJson.cpp].
    - [DebugInspector]: [src/debug/DebugInspector.cpp].
    - [Console], [DebugConsole], [MultiProcessDebugConsole], [ConsoleLaws]: the
      command loop and the commands of [src/debug/DebugConsole.cpp] and
      [MultiProcessDebugConsole.cpp].
    - [StudioBackends]: [src/studio/].
    - [Disk], [DiskLaws]: the files of the host as an interface, and the functions of
      all parts that open them.
    - [BioOSRunner]: [src/system/BioOSRunner.cpp].  [Showcase],
      [ShowcaseLaws], [ShowcaseRun]:
      [src/system/EndToEndShowcase.cpp].  [ExampleFiles] holds the files of the
      repository they read: sources of [examples/] and a golden trace of [tests/].
    - [CommandLine], [Commands], [CommandLaws]: [tools/zero_cli.cpp]: options,
      commands on one program, commands on several, [main].

    How the parts meet: the assembler makes binary programs, which [Binary] writes
    and reads; [Image] turns them into process images, [ProcTable] into
    processes; [Dispatcher] and [Preemption] put processes on the CPU and take
    them off; the CPU calls the host through [SoftwareInterruptHandler], where
    [Syscalls] answers with ZeroFS behind it.  [Runner] drives all of them, and
    [Verifier] judges what it recorded.  [DebugSession] drives the CPU for one
    image, with the symbols [DebugSymbols] makes of an assembled program, and
    finds watched accesses in the details of the trace; [MultiDebugSession] drives
    what [Runner] drives, step by step.  The consoles and the Studio back ends sit on
    the sessions, the JSON writers on sessions and results.  [BioOSRunner], [Showcase]
    and [Commands] compose all of it over the files of a [Disk].

    A C++ function [f] or method [C::f] is the definition [f] or [C_f]; a [const]
    method is a function of its object, any other method returns the new object
    or runs in a monad over it.  [throw] is [throw], [try]/[catch] is
    [try_catch].  [size_t] and [uint64_t] are the same type (a 64-bit platform).

    ** What the theorems show

    - Protection: a step in User mode is confined and raises its privilege only
      through the vector table ([CPUProtect.user_step_confined]); what User mode
      forbids has no effect but the error ([CPURun.user_violations_fault]).
    - The machine as a whole: it stays well typed
      ([CPUInv.machine_stays_well_typed]); [run] terminates and iterates [step]
      ([CPURun.run_iterates_step]); interrupts are delivered before the next
      instruction ([CPURun.interrupt_delivery]); frames, calls and pushes are
      undone by their counterparts ([CPUFrames]); the two engines agree on every
      instruction that does not transfer control ([CPUEquiv.engines_agree]).
    - Processes: a process that is preempted and dispatched again finds itself
      unchanged ([Dispatcher.preempted_process_resumes],
      [Process.context_switch_roundtrip]); selection is fair
      ([Scheduler.round_robin_fair]); the table keeps its invariant and never
      forgets a process ([ProcTable]); the timer preempts once per request
      ([Preemption.timer_preemption]) and stopped processes end with their final
      state ([Lifecycle.lifecycle_step_correct]).
    - System calls: confined to result registers and user data, well typed, and
      without effect but a status on bad arguments
      ([SyscallLaws.system_call_contract]), so that the theorems on the CPU hold
      with them as the host handler.
    - Whole runs: every result of the multi-process runner, whatever the
      executables do, passes the invariant verifier
      ([RunnerVerified.run_results_verify]); the verifier decides a declarative
      notion of consistency ([VerifierLaws.verify_decides_consistent]); and one
      way a fault escapes its process
      ([RunnerVerified.fault_in_system_call_abandons_run]).
    - Systems as shipped: the BIO-OS runner is the CPU's own run with devices
      attached ([BioOSRunner.bio_os_runs_the_cpu]), and the BIO-OS of the repository
      boots ([BioOSRunner.bio_os_boots]); the showcase always records a run that
      verifies ([ShowcaseLaws.showcase_runs_verify]), and on the sources of the
      repository it writes the golden trace of the repository, byte for byte
      ([ShowcaseRun.showcase_reproduces_golden_trace]), which compares the whole
      model with the program.
    - The tool: [main] always returns an exit code and most commands leave the files
      alone ([CommandLaws.main_exit_codes]); [assemble] never fails its read-backs
      ([CommandLaws.assemble_succeeds]); what the exit code of [run-processes] means
      ([CommandLaws.run_processes_exit_code]) and that its options are read as
      written ([CommandLaws.run_processes_options_read]).
    - ZeroFS: the flat map refines a tree ([ZeroFS.refines_tree]); a written file
      reads back through system calls ([SyscallLaws.filesystem_write_then_read]).
    - Formats: the reader accepts exactly what the writer writes, the loader
      places exactly what fits ([Binary], [Image]); encoding and decoding of
      instructions agree and lose nothing ([ISA]); assembled programs are well
      formed, become binary programs exactly when they should, and their
      listings assemble back ([AssemblerLaws], [Listing]); what the tools write to
      files is read back ([DiskLaws.assembled_file_roundtrip]).
    - JSON: the parser accepts exactly its grammar ([JsonGrammar]); traces and
      snapshots are read back as the documents of what was traced
      ([TraceJsonLaws.written_run_is_read], [SnapshotLaws.debug_snapshots_are_read]);
      the comparison decides equality of the compared parts
      ([TraceJsonLaws.compareText_decides]).
    - Hardware: both ends of the text protocol understand each other
      ([Protocol.protocol_roundtrip]), and a serial bus cannot be told from the
      mock bus ([Serial.serial_bus_refines_registers]).
    - Debugging: the three ways to run a session refine one specification, an
      ordered list of causes tried behind every CPU step
      ([DebugLaws.run_control_correct]); no sequence of calls breaks a session
      ([DebugLaws.session_invariant]); a STORE to a watched byte stops it
      ([WatchLaws.store_watchpoint_stops]), other accesses do not
      ([WatchLaws.watchpoints_miss_other_accesses]); symbols name the addresses a
      program is loaded at ([DebugSymbols.assembled_symbols_correct]), and
      symbols and conditions survive their texts.
    - Debugging several processes never leaves the run of the same executables
      ([MultiDebugLaws.debugging_keeps_the_run]); nothing typed into a console breaks
      its session ([ConsoleLaws.typed_input_keeps_sessions]), and a console run is the
      transcript of its lines ([ConsoleLaws.consoles_transcribe]); disassembly shows
      the program ([DebugInspector.disassembly_shows_program]).
    - Trace details exist for every event of the binary engine; the return
      address they show of a CALL is its lowest byte
      ([TraceDetail.trace_return_address_is_low_byte]).
    - Components: memory accesses ([Memory]), the ALU and the branch conditions
      ([ALU]), the interrupt queue and the timer ([Interrupts]), address routing
      ([Devices]), the differences a trace records ([Trace]).

    ** Interfaces

    [ALU.LongDouble] is the number of significand bits of [long double], which
    C++ leaves open.  [CPU.SoftwareInterruptHandler] is the host handler;
    [CPUInv.WellTypedHandler] and [CPUProtect.ConfinedHandler] are the laws the
    theorems on the CPU need from it; [CPUFrames.no_handler] and the dispatcher
    of [SyscallLaws] are instances.  [Syscalls.ProtectedRuntimeService] is the
    interface of the services, [SyscallLaws.TrustedService] its laws;
    [Serial.HardwareBus] with [Serial.HardwareBusLaws] that of the hardware buses.
    [CPUShape.QuietHandler] is what the runner's records need from the host.
    [Disk.HostDisk] is the file system of the host, [Disk.KeepingDisk] a disk that
    keeps what is written, with a map from paths to bytes as an instance;
    [Console.HostFiles] says which snapshot files can be written.
    [CommandLine.HashOrder] is the order of an unordered map, which C++ leaves open.

    ** Bounds and fuel

    [run_loop] recurs on the step limit that [CPU::run] takes as its argument.
    The loops over path components of [ZeroFS] are bounded by the length of the
    path, the loops that take labels off a line by the length of the line; that
    the bounds are enough is proved ([ZeroFS.normalizePath_correct],
    [AssemblerLaws.statement_unlabelled]).  The runner's loop
    recurs on the lifecycle steps left, its draining of the timer's requests on
    the length of the queue and one more, the verifier's timeline on the number
    of lifecycle steps.  The loops of a debugging session recur on the step limit
    they are called with, a console on the length of its input and one more,
    disassembly on the instructions that fit in the code section, the BIO-OS on its
    step limit, and [run-binary] on the thousand and one steps its own counter
    allows.  All other loops are structural.

    ** Not modelled

    Running out of memory ([std::bad_alloc]).  Files of the host that fail while they
    are read, and paths of systems other than POSIX ones.  The serial port of the
    host, which is operating-system I/O: elsewhere than on Windows opening one only
    throws.  The Studio window, [studio/zero_studio.cpp], which is Win32 controls,
    drawing and messages over the back ends that are modelled.  The self-tests of
    [tools/zero_cli.cpp], which call the other parts on fixed inputs and print what
    they see.  [src/main.cpp] and [src/core/UInt320.cpp] are empty. *)

From Stdlib Require Export ZArith Lia Bool Ascii.
From stdpp Require Export base option list numbers strings pretty gmap.
#[global] Set Default Goal Selector "!".

(** ** Exceptions

    The error codes of [include/zero_cpu/system/ZeroFS.hpp], and the C++
    exception classes the sources throw, with their [what()] text. *)

Inductive ZeroFSError := InvalidPath | NotFound | AlreadyExists | NotDirectory | IsDirectory | InvalidOffset.

#[export] Instance ZeroFSError_eq_dec : EqDecision ZeroFSError.
Proof. solve_decision. Defined.

Inductive exn :=
  | RuntimeError (msg : string)
  | OutOfRange (msg : string)
  | LogicError (msg : string)
  | LengthError (msg : string)
  | InvalidArgument (msg : string)
  | ZeroFSException (error : ZeroFSError) (msg : string).

Definition what (e : exn) : string :=
  match e with
  | RuntimeError m | OutOfRange m | LogicError m | LengthError m | InvalidArgument m | ZeroFSException _ m => m
  end.

#[export] Instance exn_eq_dec : EqDecision exn.
Proof. solve_decision. Defined.

(** The outcome of a call: it returns a value or throws. *)
Inductive outcome (A : Type) :=
  | Ret (a : A)
  | Throw (e : exn).
Arguments Ret {A} a.
Arguments Throw {A} e.

#[export] Instance outcome_eq_dec {A} `{EqDecision A} : EqDecision (outcome A).
Proof. solve_decision. Defined.

(** [M St A]: code over a mutable state [St] that may throw.  As in C++, what
    was written before the throw stays written. *)
Definition M (St A : Type) : Type := St -> outcome A * St.

(** Does a pointer or an optional value hold something? *)
Definition is_some {A} (o : option A) : bool := match o with Some _ => true | None => false end.

(** ** The two monads: fallible values and stateful code *)

Class MonadThrow (T : Type -> Type) := throw : forall {A : Type}, exn -> T A.

#[export] Instance outcome_ret : MRet outcome := fun A a => Ret a.
#[export] Instance outcome_bind : MBind outcome := fun A B f m =>
  match m with Ret a => f a | Throw e => Throw e end.
#[export] Instance outcome_fmap : FMap outcome := fun A B f m =>
  match m with Ret a => Ret (f a) | Throw e => Throw e end.
#[export] Instance outcome_throw : MonadThrow outcome := fun A e => Throw e.

#[export] Instance M_ret {St} : MRet (M St) := fun A a s => (Ret a, s).
#[export] Instance M_bind {St} : MBind (M St) := fun A B f m s =>
  match m s with
  | (Ret a, s') => f a s'
  | (Throw e, s') => (Throw e, s')
  end.
#[export] Instance M_fmap {St} : FMap (M St) := fun A B f m s =>
  match m s with
  | (Ret a, s') => (Ret (f a), s')
  | (Throw e, s') => (Throw e, s')
  end.
#[export] Instance M_throw {St} : MonadThrow (M St) := fun A e s => (Throw e, s).

(** [if (c) throw e;] *)
Definition throw_if {T} `{MRet T, MonadThrow T} (c : bool) (e : exn) : T unit :=
  if c then throw e else mret tt.

(** Reading and writing the state, and running fallible pure code in it. *)
Definition get {St} : M St St := fun s => (Ret s, s).
Definition gets {St A} (f : St -> A) : M St A := fun s => (Ret (f s), s).
Definition modify {St} (f : St -> St) : M St unit := fun s => (Ret tt, f s).
Definition lift {St A} (o : outcome A) : M St A := fun s => (o, s).

(** [try { m } catch (const std::exception& ex) { h(ex) }] *)
Definition try_catch {St A} (m : M St A) (h : exn -> M St A) : M St A := fun s =>
  match m s with
  | (Ret a, s') => (Ret a, s')
  | (Throw e, s') => h e s'
  end.

(** Run code on a component of the state. *)
Definition zoom {St T A} (view : St -> T) (put : T -> St -> St) (m : M T A) : M St A :=
  fun s => let '(o, t) := m (view s) in (o, put t s).

(** Update a component by a fallible function: on a throw it is unchanged. *)
Definition update {St T} (view : St -> T) (put : T -> St -> St) (f : T -> outcome T) : M St unit :=
  fun s => match f (view s) with
           | Ret t => (Ret tt, put t s)
           | Throw e => (Throw e, s)
           end.

(** [T copy = x; m(copy); x = std::move(copy);]: on a throw [x] is unchanged. *)
Definition staged {St A} (m : M St A) : M St A := fun s =>
  match m s with
  | (Ret a, s') => (Ret a, s')
  | (Throw e, _) => (Throw e, s)
  end.

(** The state and the value a run ends with. *)
Definition final {St A} (m : M St A) (s : St) : St := (m s).2.
Definition answer {St A} (m : M St A) (s : St) : outcome A := (m s).1.

Lemma bind_run {St A B} (m : M St A) (f : A -> M St B) s :
  (m ≫= f) s = match m s with
               | (Ret a, s') => f a s'
               | (Throw e, s') => (Throw e, s')
               end.
Proof. reflexivity. Qed.

Lemma bind_Ret {A B} (a : A) (f : A -> outcome B) : (Ret a ≫= f) = f a.
Proof. reflexivity. Qed.

Lemma bind_ret_inv {A B} (m : outcome A) (f : A -> outcome B) b :
  m ≫= f = Ret b -> exists a, m = Ret a /\ f a = Ret b.
Proof. destruct m; simpl; intros H; [eauto | discriminate]. Qed.

Lemma M_bind_ret_inv {St A B} (m : M St A) (f : A -> M St B) s b s' :
  (m ≫= f) s = (Ret b, s') ->
  exists a s1, m s = (Ret a, s1) /\ f a s1 = (Ret b, s').
Proof.
  rewrite bind_run. destruct (m s) as [[a|e] s1]; intros H; [eauto | discriminate].
Qed.

Lemma M_throw_if_ret_inv {St} (c : bool) (e : exn) (s : St) u s' :
  throw_if (T := M St) c e s = (Ret u, s') -> c = false /\ s' = s.
Proof. destruct c; cbn; intros H; [discriminate | injection H as <- <-; auto]. Qed.

Lemma M_lift_ret_inv {St A} (o : outcome A) (s : St) a s' : lift o s = (Ret a, s') -> o = Ret a /\ s' = s.
Proof. unfold lift. destruct o; intros H; [injection H as <- <-; auto | discriminate]. Qed.

Lemma throw_if_ret_inv c e : throw_if (T := outcome) c e = Ret tt <-> c = false.
Proof. destruct c; simpl; split; intros H; discriminate || reflexivity. Qed.

Lemma throw_if_bind_inv {A} c e (f : unit -> outcome A) a :
  throw_if (T := outcome) c e ≫= f = Ret a <-> c = false /\ f tt = Ret a.
Proof. destruct c; simpl; split; [discriminate | intros [? _]; discriminate | auto | intros [_ ?]; assumption]. Qed.

Lemma unit_bind_inv {A} (m : outcome unit) (f : unit -> outcome A) a :
  m ≫= f = Ret a <-> m = Ret tt /\ f tt = Ret a.
Proof. destruct m as [[]|]; simpl; split; [auto | intros [_ ?]; assumption | discriminate | intros [? _]; discriminate]. Qed.

Lemma staged_throw {St A} (m : M St A) s e s' : staged m s = (Throw e, s') -> s' = s.
Proof. unfold staged. destruct (m s) as [[a|x] s1]; congruence. Qed.

(** Left identity and associativity, to flatten sequences of statements. *)
Lemma M_bind_assoc {St A B C} (m : M St A) (f : A -> M St B) (g : B -> M St C) s :
  ((m ≫= f) ≫= g) s = (m ≫= (fun a => f a ≫= g)) s.
Proof. rewrite !bind_run. destruct (m s) as [[a|e] s1]; reflexivity. Qed.

(** ** Program logic

    [hoare P m Q E]: from a state in [P], [m] returns in [Q] or throws in [E]. *)
Definition hoare {St A} (P : St -> Prop) (m : M St A)
    (Q : A -> St -> Prop) (E : exn -> St -> Prop) : Prop :=
  forall s, P s -> match m s with
                   | (Ret a, s') => Q a s'
                   | (Throw e, s') => E e s'
                   end.

Lemma hoare_bind {St A B} (P : St -> Prop) (m : M St A) (f : A -> M St B) R Q E :
  hoare P m R E -> (forall a, hoare (R a) (f a) Q E) -> hoare P (m ≫= f) Q E.
Proof.
  intros Hm Hf s Hs. rewrite bind_run. specialize (Hm s Hs).
  destruct (m s) as [[a|e] s1]; [exact (Hf a s1 Hm) | exact Hm].
Qed.

Lemma hoare_conseq {St A} (P P' : St -> Prop) (m : M St A) (Q Q' : A -> St -> Prop) (E E' : exn -> St -> Prop) :
  hoare P m Q E -> (forall s, P' s -> P s) -> (forall a s, Q a s -> Q' a s) ->
  (forall e s, E e s -> E' e s) -> hoare P' m Q' E'.
Proof.
  intros Hm HP HQ HE s Hs. specialize (Hm s (HP s Hs)). destruct (m s) as [[a|e] s1]; auto.
Qed.

Lemma hoare_ret {St A} (P : St -> Prop) (a : A) (Q : A -> St -> Prop) E :
  (forall s, P s -> Q a s) -> hoare P (mret a) Q E.
Proof. intros HQ s Hs. exact (HQ s Hs). Qed.

Lemma hoare_try {St A} (P : St -> Prop) (m : M St A) (h : exn -> M St A) Q E E' :
  hoare P m Q E -> (forall e, hoare (E e) (h e) Q E') -> hoare P (try_catch m h) Q E'.
Proof.
  intros Hm Hh s Hs. unfold try_catch. specialize (Hm s Hs).
  destruct (m s) as [[a|e] s1]; [exact Hm | exact (Hh e s1 Hm)].
Qed.

Lemma hoare_pure {St A} (P : St -> Prop) (F : Prop) (m : M St A) Q E :
  (F -> hoare P m Q E) -> hoare (fun s => F /\ P s) m Q E.
Proof. intros Hm s [HF Hs]. exact (Hm HF s Hs). Qed.

(** [safe I m Q]: every run of [m] keeps the invariant [I], whether it returns
    or throws, and the value it returns is in [Q]. *)
Definition safe {St A} (I : St -> Prop) (m : M St A) (Q : A -> Prop) : Prop :=
  hoare I m (fun a s => Q a /\ I s) (fun _ s => I s).

Section safe_rules.
Context {St : Type} (I : St -> Prop).

Lemma safe_bind {A B} (m : M St A) (f : A -> M St B) Q R :
  safe I m Q -> (forall a, Q a -> safe I (f a) R) -> safe I (m ≫= f) R.
Proof.
  intros Hm Hf s Hs. rewrite bind_run. specialize (Hm s Hs).
  destruct (m s) as [[a|e] s1]; [|exact Hm]. destruct Hm as [Ha Hs1]. exact (Hf a Ha s1 Hs1).
Qed.

Lemma safe_conseq {A} (m : M St A) (Q R : A -> Prop) :
  safe I m Q -> (forall a, Q a -> R a) -> safe I m R.
Proof.
  intros Hm HQ s Hs. specialize (Hm s Hs). destruct (m s) as [[a|e] s1]; [|exact Hm].
  destruct Hm. auto.
Qed.

Lemma safe_ret {A} (a : A) (Q : A -> Prop) : Q a -> safe I (mret a) Q.
Proof. intros Ha s Hs. split; assumption. Qed.

Lemma safe_throw {A} (e : exn) (Q : A -> Prop) : safe I (throw e) Q.
Proof. intros s Hs. exact Hs. Qed.

Lemma safe_throw_if (c : bool) (e : exn) : safe I (throw_if c e) (fun _ => c = false).
Proof. destruct c; intros s Hs; [exact Hs | split; [reflexivity | exact Hs]]. Qed.

Lemma safe_lift {A} (o : outcome A) (Q : A -> Prop) :
  (forall a, o = Ret a -> Q a) -> safe I (lift o) Q.
Proof. intros HQ s Hs. unfold lift. destruct o; [split; [apply HQ; reflexivity | exact Hs] | exact Hs]. Qed.

Lemma safe_gets {A} (f : St -> A) (Q : A -> Prop) : (forall s, I s -> Q (f s)) -> safe I (gets f) Q.
Proof. intros HQ s Hs. split; [apply HQ, Hs | exact Hs]. Qed.

Lemma safe_get : safe I get I.
Proof. intros s Hs. split; exact Hs. Qed.

Lemma safe_modify (f : St -> St) : (forall s, I s -> I (f s)) -> safe I (modify f) (fun _ => True).
Proof. intros Hf s Hs. split; [exact Logic.I | apply Hf, Hs]. Qed.

Lemma safe_try {A} (m : M St A) (h : exn -> M St A) Q :
  safe I m Q -> (forall e, safe I (h e) Q) -> safe I (try_catch m h) Q.
Proof.
  intros Hm Hh s Hs. specialize (Hm s Hs). unfold try_catch.
  destruct (m s) as [[a|e] s1]; [exact Hm | exact (Hh e s1 Hm)].
Qed.

Lemma safe_throw_if_any (c : bool) (e : exn) : safe I (throw_if c e) (fun _ => True).
Proof. eapply safe_conseq; [apply safe_throw_if | auto]. Qed.

(** A safe statement in a triple. *)
Lemma safe_hoare_bind {A B} (m : M St A) (f : A -> M St B) Q R (E : exn -> St -> Prop) :
  safe I m Q -> (forall e s, I s -> E e s) -> (forall a, Q a -> hoare I (f a) R E) -> hoare I (m ≫= f) R E.
Proof.
  intros Hm HE Hf s Hs. rewrite bind_run. specialize (Hm s Hs).
  destruct (m s) as [[a|e] s1]; [destruct Hm as [Ha Hs1]; exact (Hf a Ha s1 Hs1) | apply HE, Hm].
Qed.

Lemma safe_hoare {A} (m : M St A) Q (R : A -> St -> Prop) (E : exn -> St -> Prop) :
  safe I m Q -> (forall a s, Q a -> I s -> R a s) -> (forall e s, I s -> E e s) -> hoare I m R E.
Proof.
  intros Hm HR HE s Hs. specialize (Hm s Hs). destruct (m s) as [[a|e] s1]; [|auto].
  destruct Hm. auto.
Qed.

(** What a safe run says of its end. *)
Lemma safe_final {A} (m : M St A) Q s : safe I m Q -> I s -> I (m s).2.
Proof. intros Hm Hs. specialize (Hm s Hs). destruct (m s) as [[a|e] s1]; [apply Hm | exact Hm]. Qed.

Lemma safe_returns {A} (m : M St A) Q s a s' : safe I m Q -> I s -> m s = (Ret a, s') -> Q a /\ I s'.
Proof. intros Hm Hs E. specialize (Hm s Hs). rewrite E in Hm. exact Hm. Qed.

End safe_rules.

(** Code on a component whose invariant is part of the whole's. *)
Lemma safe_zoom {St T A} (I : St -> Prop) (J : T -> Prop) (view : St -> T) put (m : M T A) Q :
  safe J m Q -> (forall s, I s -> J (view s)) -> (forall s t, I s -> J t -> I (put t s)) ->
  safe I (zoom view put m) Q.
Proof.
  intros Hm Hv Hp s Hs. unfold zoom. specialize (Hm (view s) (Hv s Hs)).
  destruct (m (view s)) as [[a|e] t]; [destruct Hm; split; auto | auto].
Qed.

Lemma safe_update {St T} (I : St -> Prop) (view : St -> T) put f :
  (forall s t, I s -> f (view s) = Ret t -> I (put t s)) ->
  safe I (update view put f) (fun _ => True).
Proof.
  intros Hf s Hs. unfold update. destruct (f (view s)) eqn:E; [|exact Hs].
  split; [exact Logic.I | eapply Hf; eauto].
Qed.

(** [sure I m Q]: the same for code that always returns. *)
Definition sure {St A} (I : St -> Prop) (m : M St A) (Q : A -> Prop) : Prop :=
  hoare I m (fun a s => Q a /\ I s) (fun _ _ => False).

Section sure_rules.
Context {St : Type} (I : St -> Prop).

Lemma sure_bind {A B} (m : M St A) (f : A -> M St B) Q R :
  sure I m Q -> (forall a, Q a -> sure I (f a) R) -> sure I (m ≫= f) R.
Proof.
  intros Hm Hf s Hs. rewrite bind_run. specialize (Hm s Hs).
  destruct (m s) as [[a|e] s1]; [|destruct Hm]. destruct Hm as [Ha Hs1]. exact (Hf a Ha s1 Hs1).
Qed.

Lemma sure_ret {A} (a : A) (Q : A -> Prop) : Q a -> sure I (mret a) Q.
Proof. intros Ha s Hs. split; assumption. Qed.

Lemma sure_conseq {A} (m : M St A) (Q R : A -> Prop) : sure I m Q -> (forall a, Q a -> R a) -> sure I m R.
Proof.
  intros Hm HQ s Hs. specialize (Hm s Hs). destruct (m s) as [[a|e] s1]; [|exact Hm].
  destruct Hm. auto.
Qed.

Lemma sure_try {A} (m : M St A) (h : exn -> M St A) Q :
  safe I m Q -> (forall e, sure I (h e) Q) -> sure I (try_catch m h) Q.
Proof.
  intros Hm Hh s Hs. specialize (Hm s Hs). unfold try_catch.
  destruct (m s) as [[a|e] s1]; [exact Hm | exact (Hh e s1 Hm)].
Qed.

Lemma sure_gets {A} (f : St -> A) (Q : A -> Prop) : (forall s, I s -> Q (f s)) -> sure I (gets f) Q.
Proof. intros HQ s Hs. split; [apply HQ, Hs | exact Hs]. Qed.

Lemma sure_safe {A} (m : M St A) Q : sure I m Q -> safe I m Q.
Proof. intros Hm s Hs. specialize (Hm s Hs). destruct (m s) as [[a|e] s1]; [exact Hm | destruct Hm]. Qed.

Lemma sure_run {A} (m : M St A) Q s : sure I m Q -> I s -> exists a s', m s = (Ret a, s') /\ Q a /\ I s'.
Proof. intros Hm Hs. specialize (Hm s Hs). destruct (m s) as [[a|e] s1]; [eauto | destruct Hm]. Qed.

End sure_rules.

Create HintDb safe.
#[export] Hint Resolve safe_throw safe_throw_if safe_get : safe.
Create HintDb safe_default.
#[export] Hint Resolve safe_throw_if_any : safe_default.

(** Prove [safe] goals by following the code: the first statement of a bind is
    looked up in the hint database [safe], then in [safe_default] (what can be
    said of any statement of its form), branches are explored, and the
    conditions of returns are left. *)
Ltac safe_step :=
  lazymatch goal with
  | |- safe _ (mbind _ (match ?x with _ => _ end)) _ =>
      eapply (safe_bind _ _ _ (fun _ => True)); [destruct x eqn:? | intros ? _]
  | |- safe _ (mbind _ _) _ =>
      eapply safe_bind; [first [solve [eauto with safe nocore] | solve [eauto with safe_default nocore]] | intros ? ?]
  | |- safe _ (mret _) _ => apply safe_ret; try exact Logic.I
  | |- safe _ (throw _) _ => apply safe_throw
  | |- safe _ (match ?x with _ => _ end) _ => destruct x eqn:?
  | |- safe _ (let _ := _ in _) _ => cbv zeta
  | |- safe _ _ _ => first [solve [eauto with safe nocore] | solve [eauto with safe_default nocore]]
  end.
Ltac safe_go := repeat safe_step.

(** ** Tactics shared by the library *)

(** Case analysis on the matches of a hypothesis about a run, discarding the
    branches that contradict it. *)
Ltac split_run H :=
  repeat (simplify_eq/=;
    match type of H with
    | context [match ?x with _ => _ end] =>
        lazymatch x with
        | context [match _ with _ => _ end] => fail
        | _ => let E := fresh "E" in destruct x eqn:E; try discriminate H
        end
    end).

(** Case analysis on the innermost match of the goal. *)
Ltac split_goal :=
  match goal with
  | |- context [match ?x with _ => _ end] =>
      lazymatch x with
      | context [match _ with _ => _ end] => fail
      | _ => let E := fresh "E" in destruct x eqn:E
      end
  end.

(** Turn boolean tests on integers in the context into propositions. *)
Ltac bool_facts :=
  repeat match goal with
  | H : (_ && _) = true |- _ => apply andb_true_iff in H as [? ?]
  | H : (_ || _) = false |- _ => apply orb_false_iff in H as [? ?]
  | H : negb _ = true |- _ => apply negb_true_iff in H
  | H : negb _ = false |- _ => apply negb_false_iff in H
  | H : (_ <? _)%Z = true |- _ => apply Z.ltb_lt in H
  | H : (_ <? _)%Z = false |- _ => apply Z.ltb_ge in H
  | H : (_ <=? _)%Z = true |- _ => apply Z.leb_le in H
  | H : (_ <=? _)%Z = false |- _ => apply Z.leb_gt in H
  | H : (_ =? _)%Z = true |- _ => apply Z.eqb_eq in H
  | H : (_ =? _)%Z = false |- _ => apply Z.eqb_neq in H
  | H : (_ >? _)%Z = true |- _ => rewrite Z.gtb_ltb in H; apply Z.ltb_lt in H
  | H : (_ >? _)%Z = false |- _ => rewrite Z.gtb_ltb in H; apply Z.ltb_ge in H
  | H : (_ >=? _)%Z = true |- _ => rewrite Z.geb_leb in H; apply Z.leb_le in H
  | H : (_ >=? _)%Z = false |- _ => rewrite Z.geb_leb in H; apply Z.leb_gt in H
  end.

(** [bool_facts] with the tests of [bool_decide]. *)
Ltac facts :=
  bool_facts;
  repeat match goal with
  | H : bool_decide _ = true |- _ => apply bool_decide_eq_true in H
  | H : bool_decide _ = false |- _ => apply bool_decide_eq_false in H
  end; bool_facts.

(** The same on a goal that is a boolean test. *)
Ltac bool_goal :=
  rewrite ?orb_false_iff, ?andb_true_iff, ?negb_true_iff, ?negb_false_iff, ?bool_decide_eq_true, ?bool_decide_eq_false,
    ?Z.gtb_ltb, ?Z.geb_leb, ?Z.eqb_eq, ?Z.eqb_neq, ?Z.ltb_ge, ?Z.ltb_lt, ?Z.leb_gt, ?Z.leb_le.
