(* ===== verification/Words.v ===== *)
(** * Machine integers and byte strings

    The fixed-width integer types of the sources as [Z] with their wrap-around
    written out ([std::uint8_t], [std::uint32_t], [std::uint64_t] and
    [std::size_t], [std::int64_t]), and the little- and big-endian byte loops
    shared by memory, the instruction codec and the binary format. *)

From S2P Require Import Prelude.
Open Scope Z_scope.

(** ** Widths *)

Definition u8 (x : Z) : Z := x mod 2 ^ 8.
Definition u32 (x : Z) : Z := x mod 2 ^ 32.
Definition u64 (x : Z) : Z := x mod 2 ^ 64.

(** [static_cast<std::int64_t>] and [std::memcpy] of an unsigned 64-bit word. *)
Definition i64 (x : Z) : Z :=
  let r := u64 x in if r <? 2 ^ 63 then r else r - 2 ^ 64.

Definition INT64_MAX : Z := 2 ^ 63 - 1.
Definition INT64_MIN : Z := - 2 ^ 63.
Definition UINT64_MAX : Z := 2 ^ 64 - 1.
Definition UINT32_MAX : Z := 2 ^ 32 - 1.

Definition is_u8 (x : Z) : Prop := 0 <= x < 2 ^ 8.
Definition is_u32 (x : Z) : Prop := 0 <= x < 2 ^ 32.
Definition is_u64 (x : Z) : Prop := 0 <= x < 2 ^ 64.
Definition is_i64 (x : Z) : Prop := - 2 ^ 63 <= x < 2 ^ 63.

#[export] Instance is_u8_dec x : Decision (is_u8 x).
Proof. unfold is_u8. apply _. Defined.
#[export] Instance is_u32_dec x : Decision (is_u32 x).
Proof. unfold is_u32. apply _. Defined.
#[export] Instance is_u64_dec x : Decision (is_u64 x).
Proof. unfold is_u64. apply _. Defined.
#[export] Instance is_i64_dec x : Decision (is_i64 x).
Proof. unfold is_i64. apply _. Defined.

Create HintDb words.
Create Rewrite HintDb words_rw.

(** Unfold the width predicates and constants, then decide by arithmetic. *)
Ltac words :=
  unfold is_u8, is_u32, is_u64, is_i64, INT64_MAX, INT64_MIN, UINT64_MAX, UINT32_MAX in *; lia.

Lemma u8_range x : is_u8 (u8 x).
Proof. apply Z.mod_pos_bound. lia. Qed.
Lemma u32_range x : is_u32 (u32 x).
Proof. apply Z.mod_pos_bound. lia. Qed.
Lemma u64_range x : is_u64 (u64 x).
Proof. apply Z.mod_pos_bound. lia. Qed.

Lemma u8_small x : is_u8 x -> u8 x = x.
Proof. apply Z.mod_small. Qed.
Lemma u32_small x : is_u32 x -> u32 x = x.
Proof. apply Z.mod_small. Qed.
Lemma u64_small x : is_u64 x -> u64 x = x.
Proof. apply Z.mod_small. Qed.

Lemma i64_range x : is_i64 (i64 x).
Proof.
  unfold i64. pose proof (u64_range x) as H.
  destruct (Z.ltb_spec (u64 x) (2 ^ 63)); words.
Qed.

Lemma i64_small x : is_i64 x -> i64 x = x.
Proof.
  intros H. unfold i64, u64. destruct (decide (0 <= x)).
  - rewrite Z.mod_small by words. destruct (Z.ltb_spec x (2 ^ 63)); words.
  - replace (x mod 2 ^ 64) with (x + 2 ^ 64).
    + destruct (Z.ltb_spec (x + 2 ^ 64) (2 ^ 63)); words.
    + apply Z.mod_unique with (-1); words.
Qed.

(** A signed word and its unsigned reinterpretation determine each other. *)
Lemma i64_u64 x : is_i64 x -> i64 (u64 x) = x.
Proof.
  intros H. rewrite <- (i64_small x H) at 2. unfold i64.
  rewrite (u64_small (u64 x)) by apply u64_range. reflexivity.
Qed.

Lemma u64_i64 x : is_u64 x -> u64 (i64 x) = x.
Proof.
  intros H. unfold i64. rewrite (u64_small x H).
  destruct (Z.ltb_spec x (2 ^ 63)) as [Hlt|Hge].
  - apply u64_small. words.
  - unfold u64. symmetry. apply Z.mod_unique with (-1); words.
Qed.

(** [i64 x] is the representative of [x] modulo [2^64] in the signed range. *)
Lemma i64_mod x : exists k, i64 x = x + k * 2 ^ 64.
Proof.
  unfold i64, u64. pose proof (Z.div_mod x (2 ^ 64)) as H.
  destruct (Z.ltb_spec (x mod 2 ^ 64) (2 ^ 63)).
  - exists (- (x / 2 ^ 64)). lia.
  - exists (- (x / 2 ^ 64) - 1). lia.
Qed.

#[export] Hint Resolve u8_range u32_range u64_range i64_range : words.
#[export] Hint Rewrite u8_small u32_small u64_small i64_small
  using (solve [auto with words | words]) : words_rw.

(** ** Byte loops

    [value |= byte(i) << (8 * i)] for [i] in [0, width): the little-endian read. *)
Definition le_loop (width : nat) (byte : nat -> Z) : Z :=
  foldl (fun value i => Z.lor value (Z.shiftl (byte i) (8 * Z.of_nat i))) 0 (seq 0 width).

(** [value <<= 8; value |= byte(i)]: the big-endian read. *)
Definition be_loop (width : nat) (wrap : Z -> Z) (byte : nat -> Z) : Z :=
  foldl (fun value i => Z.lor (wrap (Z.shiftl value 8)) (byte i)) 0 (seq 0 width).

(** [static_cast<std::uint8_t>((value >> shift) & 0xFF)] *)
Definition byte_at (value shift : Z) : Z := u8 (Z.land (Z.shiftr value shift) 255).

Lemma byte_at_range v k : is_u8 (byte_at v k).
Proof. apply u8_range. Qed.
#[export] Hint Resolve byte_at_range : words.

Lemma byte_at_div v k : 0 <= k -> byte_at v k = (v / 2 ^ k) mod 2 ^ 8.
Proof.
  intros Hk. unfold byte_at, u8. change 255 with (Z.ones 8).
  rewrite Z.land_ones, Z.shiftr_div_pow2 by lia. apply Z.mod_small.
  apply Z.mod_pos_bound. lia.
Qed.

Lemma lor_disjoint_add v b k :
  0 <= v < 2 ^ k -> 0 <= k -> 0 <= b -> Z.lor v (Z.shiftl b k) = v + b * 2 ^ k.
Proof.
  intros Hv Hk Hb. rewrite Z.shiftl_mul_pow2 by lia. symmetry.
  rewrite Z.add_nocarry_lxor; [rewrite Z.lxor_lor; [reflexivity|] |].
  all: apply Z.bits_inj'; intros i Hi; rewrite Z.land_spec, Z.bits_0;
    destruct (decide (i < k)).
  1,3: rewrite Z.mul_pow2_bits_low by lia; apply andb_false_r.
  all: rewrite <- (Z.mod_small v (2 ^ k)), Z.mod_pow2_bits_high by lia; reflexivity.
Qed.

(** The loop as a recursive sum, least significant byte first. *)
Lemma le_loop_S n byte :
  le_loop (S n) byte = Z.lor (le_loop n byte) (Z.shiftl (byte n) (8 * Z.of_nat n)).
Proof.
  unfold le_loop. rewrite seq_S, foldl_app. reflexivity.
Qed.

Lemma le_loop_step n byte :
  (forall i, (i < n)%nat -> is_u8 (byte i)) ->
  0 <= le_loop n byte < 2 ^ (8 * Z.of_nat n) /\
  (0 <= byte n -> le_loop (S n) byte = le_loop n byte + byte n * 2 ^ (8 * Z.of_nat n)).
Proof.
  induction n as [|n IH]; intros Hb.
  - split; [cbn; lia |]. intros H. rewrite le_loop_S. apply lor_disjoint_add; cbn; lia.
  - destruct IH as [Hr Hs]; [auto with lia|].
    assert (Hn : is_u8 (byte n)) by auto with lia.
    assert (Hr' : 0 <= le_loop (S n) byte < 2 ^ (8 * Z.of_nat (S n))).
    { rewrite Hs by words. replace (8 * Z.of_nat (S n)) with (8 + 8 * Z.of_nat n) by lia.
      rewrite Z.pow_add_r by lia. unfold is_u8 in Hn. nia. }
    split; [exact Hr'|]. intros H. rewrite le_loop_S. apply lor_disjoint_add; lia.
Qed.

Lemma le_loop_range n byte :
  (forall i, (i < n)%nat -> is_u8 (byte i)) -> 0 <= le_loop n byte < 2 ^ (8 * Z.of_nat n).
Proof. intros H. apply le_loop_step, H. Qed.

Lemma le_loop_ext n f g : (forall i, (i < n)%nat -> f i = g i) -> le_loop n f = le_loop n g.
Proof.
  induction n as [|n IH]; intros H; [reflexivity|].
  rewrite !le_loop_S, IH, H by auto with lia. reflexivity.
Qed.

(** Reading back the bytes of a value gives the value (modulo the width). *)
Lemma le_loop_byte_at n v :
  le_loop n (fun i => byte_at v (8 * Z.of_nat i)) = v mod 2 ^ (8 * Z.of_nat n).
Proof.
  induction n as [|n IH].
  - cbn. rewrite Z.mod_1_r. reflexivity.
  - destruct (le_loop_step n (fun i => byte_at v (8 * Z.of_nat i))) as [_ Hs];
      [auto with words|]. rewrite Hs, IH by (apply byte_at_range).
    rewrite byte_at_div by lia.
    replace (8 * Z.of_nat (S n)) with (8 * Z.of_nat n + 8) by lia.
    rewrite Z.pow_add_r by lia. rewrite Z.rem_mul_r by lia. lia.
Qed.

(** The bytes of the value read are the bytes it was read from. *)
Lemma byte_at_le_loop n byte i :
  (forall i, (i < n)%nat -> is_u8 (byte i)) -> (i < n)%nat ->
  byte_at (le_loop n byte) (8 * Z.of_nat i) = byte i.
Proof.
  intros Hb Hi. rewrite byte_at_div by lia. induction n as [|n IH]; [lia|].
  destruct (le_loop_step n byte) as [Hr Hs]; [auto with lia|].
  assert (Hn : is_u8 (byte n)) by auto with lia.
  rewrite Hs by words. destruct (decide (i = n)) as [->|Hne].
  - rewrite Z.div_add by lia. rewrite Z.div_small by lia. rewrite Z.add_0_l.
    apply Z.mod_small. exact Hn.
  - replace (8 * Z.of_nat n) with (8 * Z.of_nat i + (8 + 8 * Z.of_nat (n - i - 1))) by lia.
    rewrite !Z.pow_add_r by lia.
    replace (byte n * (2 ^ (8 * Z.of_nat i) * (2 ^ 8 * 2 ^ (8 * Z.of_nat (n - i - 1)))))
      with (byte n * 2 ^ (8 * Z.of_nat (n - i - 1)) * 2 ^ 8 * 2 ^ (8 * Z.of_nat i)) by ring.
    rewrite Z.div_add by lia. rewrite Z.mod_add by lia. apply IH; auto with lia.
Qed.

(** Peeling the least significant byte off the little-endian loop. *)
Lemma le_loop_peel n byte :
  (forall i, (i <= n)%nat -> is_u8 (byte i)) ->
  le_loop (S n) byte = byte 0%nat + le_loop n (fun i => byte (S i)) * 2 ^ 8.
Proof.
  induction n as [|n IH]; intros Hb.
  - rewrite le_loop_S. unfold le_loop. cbn [seq foldl].
    change (8 * Z.of_nat 0) with 0. rewrite Z.shiftl_0_r, Z.lor_0_l. lia.
  - destruct (le_loop_step (S n) byte) as [_ ->]; [auto with lia| |apply Hb; lia].
    rewrite IH by auto with lia.
    destruct (le_loop_step n (fun i => byte (S i))) as [_ ->];
      [intros i Hi; apply Hb; lia | | apply Hb; lia].
    replace (8 * Z.of_nat (S n)) with (8 * Z.of_nat n + 8) by lia.
    rewrite Z.pow_add_r by lia. ring.
Qed.

(** The big-endian loop reads the bytes in the opposite order. *)
Lemma be_loop_le_loop n wrap byte :
  (forall i, (i < n)%nat -> is_u8 (byte i)) ->
  (forall x, 0 <= x < 2 ^ (8 * Z.of_nat n) -> wrap x = x) ->
  be_loop n wrap byte = le_loop n (fun i => byte (n - 1 - i)%nat).
Proof.
  revert byte. induction n as [|n IH]; intros byte Hb Hw; [reflexivity|].
  unfold be_loop. rewrite seq_S, foldl_app. cbn [foldl]. rewrite Nat.add_0_l.
  change (foldl _ 0 (seq 0 n)) with (be_loop n wrap byte).
  assert (Hpow : 2 ^ (8 * Z.of_nat (S n)) = 2 ^ 8 * 2 ^ (8 * Z.of_nat n)).
  { rewrite <- Z.pow_add_r by lia. f_equal. lia. }
  assert (Hbe : be_loop n wrap byte = le_loop n (fun i => byte (n - 1 - i)%nat)).
  { apply IH; [auto with lia|]. intros x Hx. apply Hw. lia. }
  rewrite Hbe.
  assert (Hr : 0 <= le_loop n (fun i => byte (n - 1 - i)%nat) < 2 ^ (8 * Z.of_nat n)).
  { apply le_loop_range. intros i Hi. apply Hb. lia. }
  rewrite Z.shiftl_mul_pow2, Hw by lia.
  assert (Hn : is_u8 (byte n)) by auto with lia. unfold is_u8 in Hn.
  rewrite Z.lor_comm, <- Z.shiftl_mul_pow2 by lia.
  rewrite lor_disjoint_add by lia.
  rewrite (le_loop_peel n (fun i => byte (S n - 1 - i)%nat)).
  - replace (S n - 1 - 0)%nat with n by lia. do 2 f_equal.
    apply le_loop_ext. intros i Hi. f_equal. lia.
  - intros i Hi. apply Hb. lia.
Qed.

(** ** Lists of bytes *)

Definition byte_list (l : list Z) : Prop := Forall is_u8 l.

(** [v[i]] on a vector already known to be long enough. *)
Definition at_ (l : list Z) (i : nat) : Z := default 0 (l !! i).

Lemma at_u8 l i : byte_list l -> is_u8 (at_ l i).
Proof.
  intros H. unfold at_. destruct (l !! i) eqn:E; simpl.
  - eapply Forall_lookup_1; eauto.
  - unfold is_u8. lia.
Qed.
#[export] Hint Resolve at_u8 : words.

Lemma at_app_l l1 l2 i : (i < length l1)%nat -> at_ (l1 ++ l2) i = at_ l1 i.
Proof. intros H. unfold at_. rewrite lookup_app_l by lia. reflexivity. Qed.

Lemma at_lookup l i x : l !! i = Some x -> at_ l i = x.
Proof. unfold at_. intros ->. reflexivity. Qed.

Lemma list_eq_at l k :
  length l = length k -> (forall i, (i < length l)%nat -> at_ l i = at_ k i) -> l = k.
Proof.
  intros Hlen H. apply list_eq. intros i. unfold at_ in H.
  destruct (decide (i < length l)%nat) as [Hi|Hi].
  - specialize (H i Hi). destruct (lookup_lt_is_Some_2 l i Hi) as [x Hx].
    destruct (lookup_lt_is_Some_2 k i) as [y Hy]; [lia|].
    rewrite Hx, Hy in *. simpl in H. congruence.
  - rewrite (lookup_ge_None_2 l i), (lookup_ge_None_2 k i) by lia. reflexivity.
Qed.
