(* ===== verification/Strings.v ===== *)
(** * Strings: [std::string] as the sources use it

    A [std::string] is a [string] of bytes.  The members of [std::string] that
    take positions are written on the list of its characters, where positions
    are list positions; [npos] is [None].  The lemmas relate searching for a
    separator, splitting at it and joining with it. *)

From S2P Require Import Prelude.
From stdpp Require Import sorting.

Abbreviation chars := String.list_ascii_of_string.
Abbreviation of_chars := String.string_of_list_ascii.

Lemma chars_of_chars l : chars (of_chars l) = l.
Proof. apply String.list_ascii_of_string_of_list_ascii. Qed.
Lemma of_chars_chars s : of_chars (chars s) = s.
Proof. apply String.string_of_list_ascii_of_string. Qed.
Lemma of_chars_app l k : of_chars (l ++ k) = of_chars l +:+ of_chars k.
Proof. induction l as [|c l IH]; [reflexivity|]. simpl. rewrite IH. reflexivity. Qed.
Lemma chars_app s t : chars (s +:+ t) = chars s ++ chars t.
Proof. induction s as [|c s IH]; [reflexivity|]. simpl. rewrite IH. reflexivity. Qed.

#[export] Instance chars_inj : Inj (=) (=) chars.
Proof. intros s t E. rewrite <- (of_chars_chars s), <- (of_chars_chars t), E. reflexivity. Qed.
#[export] Instance of_chars_inj : Inj (=) (=) of_chars.
Proof. intros l k E. rewrite <- (chars_of_chars l), <- (chars_of_chars k), E. reflexivity. Qed.

(** ** Searching: [find], [find_last_of] and [substr] *)

Fixpoint index_of (c : ascii) (l : list ascii) : option nat :=
  match l with
  | [] => None
  | x :: l => if decide (x = c) then Some 0%nat else S <$> index_of c l
  end.

(** [s.find(c, pos)] *)
Definition find_from (c : ascii) (l : list ascii) (pos : nat) : option nat :=
  (fun n => (pos + n)%nat) <$> index_of c (drop pos l).

(** [s.find_last_of(c)] *)
Fixpoint find_last (c : ascii) (l : list ascii) : option nat :=
  match l with
  | [] => None
  | x :: l => match find_last c l with
              | Some n => Some (S n)
              | None => if decide (x = c) then Some 0%nat else None
              end
  end.

(** [s.substr(pos, count)], where [pos] is not beyond the end. *)
Definition substr (pos count : nat) (l : list ascii) : list ascii := take count (drop pos l).

(** ** Splitting at a separator *)

Fixpoint split_on (c : ascii) (l : list ascii) : list (list ascii) :=
  match l with
  | [] => [[]]
  | x :: l => if decide (x = c) then [] :: split_on c l
              else match split_on c l with
                   | w :: ws => (x :: w) :: ws
                   | [] => [[x]]
                   end
  end.

Lemma index_of_None c l : index_of c l = None <-> c ∉ l.
Proof.
  induction l as [|x l IH]; cbn; [split; [intros _ H; inversion H | reflexivity]|].
  rewrite not_elem_of_cons. destruct (decide (x = c)) as [->|Hx].
  - split; [discriminate | intros [H _]; contradiction].
  - rewrite fmap_None, IH. split; [intros Hc; split; [congruence | exact Hc] | intros [_ Hc]; exact Hc].
Qed.

Lemma index_of_Some c l n :
  index_of c l = Some n -> (n < length l)%nat /\ l = take n l ++ c :: drop (S n) l /\ c ∉ take n l.
Proof.
  revert n. induction l as [|x l IH]; intros n H; cbn in H; [discriminate|].
  destruct (decide (x = c)) as [->|Hx].
  - injection H as <-. split; [cbn; lia|]. split; [reflexivity | intros E; inversion E].
  - destruct (index_of c l) as [k|] eqn:E; [|discriminate]. injection H as <-.
    destruct (IH k eq_refl) as (Hl & Hs & Hc). cbn. split; [lia|]. split; [f_equal; exact Hs|].
    apply not_elem_of_cons. split; [congruence | exact Hc].
Qed.

Lemma index_of_app c l k : c ∉ l -> index_of c (l ++ c :: k) = Some (length l).
Proof.
  induction l as [|x l IH]; cbn; intros H; [rewrite decide_True by reflexivity; reflexivity|].
  apply not_elem_of_cons in H as [Hx Hl]. rewrite decide_False by congruence. rewrite (IH Hl). reflexivity.
Qed.

Lemma find_last_None c l : c ∉ l -> find_last c l = None.
Proof.
  induction l as [|x l IH]; cbn; intros H; [reflexivity|]. apply not_elem_of_cons in H as [Hx Hl].
  rewrite (IH Hl), decide_False by congruence. reflexivity.
Qed.

Lemma find_last_app c l k : c ∉ k -> find_last c (l ++ c :: k) = Some (length l).
Proof.
  intros Hk. induction l as [|x l IH]; cbn.
  - rewrite (find_last_None _ _ Hk), decide_True by reflexivity. reflexivity.
  - rewrite IH. reflexivity.
Qed.

Lemma split_on_none c l : c ∉ l -> split_on c l = [l].
Proof.
  induction l as [|x l IH]; cbn; intros H; [reflexivity|]. apply not_elem_of_cons in H as [Hx Hl].
  rewrite decide_False by congruence. rewrite (IH Hl). reflexivity.
Qed.

Lemma split_on_app c l k : c ∉ l -> split_on c (l ++ c :: k) = l :: split_on c k.
Proof.
  induction l as [|x l IH]; cbn; intros H; [rewrite decide_True by reflexivity; reflexivity|].
  apply not_elem_of_cons in H as [Hx Hl]. rewrite decide_False by congruence. rewrite (IH Hl). reflexivity.
Qed.

Lemma split_on_pieces c l w : w ∈ split_on c l -> c ∉ w.
Proof.
  revert w. induction l as [|x l IH]; intros w; cbn.
  - rewrite list_elem_of_singleton. intros -> H. inversion H.
  - destruct (decide (x = c)) as [->|Hx].
    + rewrite elem_of_cons. intros [->|H]; [intros E; inversion E | exact (IH w H)].
    + destruct (split_on c l) as [|v ws]; rewrite ?list_elem_of_singleton, ?elem_of_cons.
      * intros ->. rewrite list_elem_of_singleton. congruence.
      * intros [->|H]; [|apply IH; constructor 2; exact H].
        apply not_elem_of_cons. split; [congruence | apply IH; constructor 1].
Qed.

(** The characters of the pieces are characters of the text. *)
Lemma split_on_chars c l w x : w ∈ split_on c l -> x ∈ w -> x ∈ l.
Proof.
  revert w. induction l as [|y l IH]; intros w; cbn.
  - rewrite list_elem_of_singleton. intros -> H. inversion H.
  - destruct (decide (y = c)) as [->|Hy].
    + rewrite elem_of_cons. intros [->|H] Hx; [inversion Hx | constructor 2; exact (IH w H Hx)].
    + destruct (split_on c l) as [|v ws]; rewrite ?list_elem_of_singleton, ?elem_of_cons.
      * intros ->. rewrite list_elem_of_singleton. intros ->. left. reflexivity.
      * intros [->|H] Hx; [apply elem_of_cons in Hx as [->|Hx]; [left; reflexivity | right; apply (IH v); [left | exact Hx]]
                          | right; apply (IH w); [right; exact H | exact Hx]].
Qed.

(** ** The order of strings

    [operator<] of [std::string] compares bytes, and [std::sort] sorts by it. *)

Definition string_le (s t : string) : Prop := String.leb s t = true.

#[export] Instance string_le_dec : RelDecision string_le.
Proof. intros s t. unfold string_le. apply _. Defined.

#[export] Instance string_le_antisymm : AntiSymm (=) string_le.
Proof. intros s t. apply String.leb_antisym. Qed.

#[export] Instance string_le_total : Total string_le.
Proof. intros s t. apply String.leb_total. Qed.

#[export] Instance string_le_trans : Transitive string_le.
Proof.
  unfold string_le, String.leb. intros s. induction s as [|a s IH]; intros [|b t] [|c u]; cbn; try solve [intros; discriminate || reflexivity].
  unfold Ascii.compare. destruct (N.compare_spec (Ascii.N_of_ascii a) (Ascii.N_of_ascii b)) as [Eab|Lab|Lab]; [| |discriminate];
    destruct (N.compare_spec (Ascii.N_of_ascii b) (Ascii.N_of_ascii c)) as [Ebc|Lbc|Lbc]; try discriminate.
  - rewrite Eab, Ebc, N.compare_refl. apply IH.
  - intros _ _. rewrite Eab. rewrite (proj2 (N.compare_lt_iff _ _) Lbc). reflexivity.
  - intros _ _. rewrite <- Ebc. rewrite (proj2 (N.compare_lt_iff _ _) Lab). reflexivity.
  - intros _ _. rewrite (proj2 (N.compare_lt_iff _ _)) by (etransitivity; eassumption). reflexivity.
Qed.

(** Sorting forgets the order it starts from. *)
Lemma sort_permutation l k : l ≡ₚ k -> merge_sort string_le l = merge_sort string_le k.
Proof.
  intros H. apply (StronglySorted_unique string_le); [apply (StronglySorted_merge_sort _ _)..|].
  rewrite !merge_sort_Permutation. exact H.
Qed.
