(* ===== verification/Text.v ===== *)
(** * The C++ library on text

    The functions of the standard library the sources use on text, in the C
    locale: the character classes, [operator>>] into a string, [std::getline],
    [std::stoll] and [std::stoull]; and that numbers are read back as
    [std::to_string] prints them ([pretty]). *)

From S2P Require Import Prelude Words.
Open Scope Z_scope.
#[local] Arguments String.append : simpl nomatch.

(** ** Definitions *)

Definition in_class (lo hi : nat) (ch : ascii) : bool :=
  let n := nat_of_ascii ch in (lo <=? n)%nat && (n <=? hi)%nat.

(** [std::isspace], [isalpha], [isalnum] and [tolower] in the C locale. *)
Definition isspace (ch : ascii) : bool := in_class 9 13 ch || in_class 32 32 ch.
Definition isdigit (ch : ascii) : bool := in_class 48 57 ch.
Definition isalpha (ch : ascii) : bool := in_class 65 90 ch || in_class 97 122 ch.
Definition isalnum (ch : ascii) : bool := isalpha ch || isdigit ch.
Definition tolower (ch : ascii) : ascii :=
  if in_class 65 90 ch then ascii_of_nat (nat_of_ascii ch + 32) else ch.

Definition newline : ascii := "010".
Definition quote : ascii := "034".

Definition empty (s : string) : bool := match s with EmptyString => true | _ => false end.
Definition front_is (ch : ascii) (s : string) : bool :=
  match s with EmptyString => false | String c _ => bool_decide (c = ch) end.

(** The text before the first character of a class, and from it on. *)
Fixpoint span (p : ascii -> bool) (s : string) : string * string :=
  match s with
  | EmptyString => (EmptyString, EmptyString)
  | String c rest =>
      if p c then let '(before, after) := span p rest in (String c before, after)
      else (EmptyString, s)
  end.

(** [input >> word]: skips white space and takes the characters up to the next;
    the word, and what is left of the stream. *)
Definition next_word (input : string) : string * string :=
  span (fun c => negb (isspace c)) (span isspace input).2.

(** [std::getline(input, line)] on what is left. *)
Definition rest_of_line (input : string) : string := (span (fun c => negb (bool_decide (c = newline))) input).1.

(** The digits of a number in a base, and how many there are. *)
Definition digit_value (ch : ascii) : Z :=
  let n := Z.of_nat (nat_of_ascii ch) in
  if isdigit ch then n - 48
  else if in_class 97 122 ch then n - 87
  else if in_class 65 90 ch then n - 55
  else 36.

Fixpoint read_digits (base : Z) (s : string) (value : Z) (count : nat) : Z * nat :=
  match s with
  | EmptyString => (value, count)
  | String c rest =>
      if digit_value c <? base then read_digits base rest (value * base + digit_value c) (S count)
      else (value, count)
  end.

(** The magnitude [std::stoll] reads in base 10, and in base 0, which looks at the
    prefix. *)
Definition read_decimal (s : string) : Z * nat := read_digits 10 s 0 0.

Definition read_magnitude (s : string) : Z * nat :=
  match s with
  | String "0" (String x (String h rest)) =>
      if bool_decide (tolower x = "x"%char) && (digit_value h <? 16)
      then let '(value, count) := read_digits 16 (String h rest) 0 0 in (value, (2 + count)%nat)
      else read_digits 8 s 0 0
  | String "0" _ => read_digits 8 s 0 0
  | _ => read_digits 10 s 0 0
  end.

(** White space, a sign and digits: the sign, the magnitude, and the number of
    characters taken. *)
Definition scan_integer (read : string -> Z * nat) (text : string) : option (bool * Z * nat) :=
  let '(spaces, body) := span isspace text in
  let '(negative, digits, signs) :=
    match body with
    | String "-" rest => (true, rest, 1%nat)
    | String "+" rest => (false, rest, 1%nat)
    | _ => (false, body, 0%nat)
    end in
  let '(magnitude, count) := read digits in
  if (count =? 0)%nat then None else Some (negative, magnitude, (String.length spaces + signs + count)%nat).

(** [std::stoll(text, &parsed, base)] and [std::stoull]: the value and [parsed].
    [stoull] takes a minus sign and negates modulo 2^64. *)
Definition stoll (read : string -> Z * nat) (text : string) : outcome (Z * nat) :=
  match scan_integer read text with
  | None => throw (InvalidArgument "stoll")
  | Some (negative, magnitude, parsed) =>
      let value := if negative then - magnitude else magnitude in
      if (value <? - 2 ^ 63) || (value >? 2 ^ 63 - 1) then throw (OutOfRange "stoll") else mret (value, parsed)
  end.

Definition stoull (read : string -> Z * nat) (text : string) : outcome (Z * nat) :=
  match scan_integer read text with
  | None => throw (InvalidArgument "stoull")
  | Some (negative, magnitude, parsed) =>
      if magnitude >? UINT64_MAX then throw (OutOfRange "stoull")
      else mret (if negative then u64 (- magnitude) else magnitude, parsed)
  end.

(** Every character is of the class. *)
Fixpoint all_chars (p : ascii -> bool) (s : string) : bool :=
  match s with EmptyString => true | String c rest => p c && all_chars p rest end.

Definition nonspace (ch : ascii) : bool := negb (isspace ch).

(** ** Lemmas: characters and words *)

(** A property of single characters, by trying them all. *)
Ltac by_char := let ch := fresh in intros ch; destruct ch as [[] [] [] [] [] [] [] []]; vm_compute; (congruence || (intros _; repeat split; congruence)).

Lemma all_chars_app p s t : all_chars p (s +:+ t) = all_chars p s && all_chars p t.
Proof. induction s as [|c s IH]; cbn; [reflexivity|]. rewrite IH, andb_assoc. reflexivity. Qed.

Lemma all_chars_impl (p q : ascii -> bool) s :
  (forall ch, p ch = true -> q ch = true) -> all_chars p s = true -> all_chars q s = true.
Proof. intros Hpq. induction s as [|c s IH]; cbn; [auto|]. rewrite !andb_true_iff. intros [Hc Hs]. auto. Qed.

Lemma append_nil s : s +:+ EmptyString = s.
Proof. induction s as [|c s IH]; cbn; congruence. Qed.

Lemma append_assoc a b c : a +:+ (b +:+ c) = (a +:+ b) +:+ c.
Proof. induction a as [|x a IH]; cbn; congruence. Qed.

Lemma string_length_app s t : String.length (s +:+ t) = (String.length s + String.length t)%nat.
Proof. induction s as [|c s IH]; cbn; [|rewrite IH]; reflexivity. Qed.

Lemma get_last s c : String.get (String.length s) (s +:+ String c EmptyString) = Some c.
Proof. induction s as [|d s IH]; [reflexivity | exact IH]. Qed.

Lemma substring_prefix s t : String.substring 0 (String.length s) (s +:+ t) = s.
Proof. induction s as [|c s IH]; cbn; [destruct t; reflexivity | rewrite IH; reflexivity]. Qed.

Lemma span_append p s rest : all_chars p s = true -> span p (s +:+ rest) = (s +:+ (span p rest).1, (span p rest).2).
Proof.
  intros Hs. induction s as [|c s IH]; cbn; [destruct (span p rest); reflexivity|].
  cbn in Hs. apply andb_true_iff in Hs as [-> Hs]. rewrite (IH Hs). reflexivity.
Qed.

Lemma span_all p s : all_chars p s = true -> span p s = (s, EmptyString).
Proof. intros Hs. rewrite <- (append_nil s) at 1. rewrite span_append by exact Hs. cbn. rewrite append_nil. reflexivity. Qed.

Lemma next_word_first c t : isspace c = false ->
  next_word (String c t) = span nonspace (String c t).
Proof. intros Hc. unfold next_word. cbn [span]. rewrite Hc. reflexivity. Qed.

Lemma next_word_space w rest : all_chars nonspace w = true -> w <> EmptyString ->
  next_word (w +:+ String " " rest) = (w, String " " rest).
Proof.
  intros Hw Hne. destruct w as [|c t]; [contradiction Hne; reflexivity|]. cbn in Hw. pose proof Hw as Hc.
  apply andb_true_iff in Hc as [Hc _]. unfold nonspace at 1 in Hc. apply negb_true_iff in Hc. cbn [String.append].
  rewrite next_word_first by exact Hc. change (String c (t +:+ String " " rest)) with (String c t +:+ String " " rest).
  rewrite span_append by exact Hw. cbn [span fst snd nonspace isspace]. change (nonspace " ") with false. cbn.
  rewrite append_nil. reflexivity.
Qed.

Lemma next_word_whole w : all_chars nonspace w = true -> next_word w = (w, EmptyString).
Proof.
  intros Hw. destruct w as [|c t]; [reflexivity|]. pose proof Hw as Hc. cbn in Hc.
  apply andb_true_iff in Hc as [Hc _]. unfold nonspace at 1 in Hc. apply negb_true_iff in Hc.
  rewrite next_word_first by exact Hc. apply span_all, Hw.
Qed.

(** ** Lemmas: printed numbers *)

Lemma digit_char_value (d : N) : (d < 10)%N ->
  digit_value (pretty_N_char d) = Z.of_N d /\ isdigit (pretty_N_char d) = true /\
  (pretty_N_char d = "0"%char -> d = 0%N).
Proof.
  intros Hd. assert (Hc : d = 0%N \/ d = 1%N \/ d = 2%N \/ d = 3%N \/ d = 4%N \/ d = 5%N \/ d = 6%N \/ d = 7%N \/ d = 8%N \/ d = 9%N) by lia.
  repeat destruct Hc as [->|Hc]; [..|subst d]; (split; [reflexivity | split; [reflexivity | discriminate || reflexivity]]).
Qed.

(** Reading the digits of [x] in front of [s]. *)
Lemma read_pretty_go (x : N) : forall s, exists k,
  String.length (pretty_N_go x s) = (k + String.length s)%nat /\
  (all_chars isdigit s = true -> all_chars isdigit (pretty_N_go x s) = true) /\
  forall v c, read_digits 10 (pretty_N_go x s) v c = read_digits 10 s (v * 10 ^ Z.of_nat k + Z.of_N x) (c + k).
Proof.
  induction (N.lt_wf_0 x) as [x _ IH]; intros s. destruct (decide (x = 0)%N) as [->|Hx].
  - exists 0%nat. rewrite pretty_N_go_0. split; [reflexivity|]. split; [auto|]. intros v c. f_equal; lia.
  - rewrite pretty_N_go_step by lia. assert (Hlt : (x `div` 10 < x)%N) by (apply N.div_lt; lia).
    assert (Hm : (x `mod` 10 < 10)%N) by (apply N.mod_lt; lia).
    destruct (digit_char_value _ Hm) as (Hv & Hd & _).
    destruct (IH _ Hlt (String (pretty_N_char (x `mod` 10)) s)) as (k & Hlen & Hall & Hread). exists (S k).
    split; [rewrite Hlen; cbn; lia|]. split; [intros Hs; apply Hall; cbn; rewrite Hd, Hs; reflexivity|].
    intros v c. rewrite Hread. cbn [read_digits]. rewrite Hv. rewrite (proj2 (Z.ltb_lt _ _)) by lia.
    f_equal; [|lia]. rewrite Nat2Z.inj_succ, Z.pow_succ_r by lia.
    pose proof (N.div_mod x 10) as Hdm. rewrite N2Z.inj_mod, N2Z.inj_div.
    pose proof (Z.div_mod (Z.of_N x) (Z.of_N 10)). lia.
Qed.

(** The first digit is not a zero, so the number is not read in another base. *)
Lemma pretty_go_first (x : N) : (0 < x)%N -> forall s,
  exists ch t, pretty_N_go x s = String ch t /\ isdigit ch = true /\ ch <> "0"%char.
Proof.
  induction (N.lt_wf_0 x) as [x _ IH]; intros Hx s. rewrite pretty_N_go_step by lia.
  destruct (decide (x < 10)%N) as [Hs|Hs].
  - rewrite N.div_small, pretty_N_go_0, N.mod_small by lia. destruct (digit_char_value x Hs) as (_ & Hd & H0).
    eexists _, _. split; [reflexivity|]. split; [exact Hd|]. intros E. apply H0 in E. lia.
  - apply IH; [apply N.div_lt; lia | apply N.div_str_pos; lia].
Qed.

(** A digit is neither white space nor a sign. *)
Lemma digit_start ch : isdigit ch = true -> isspace ch = false /\
  forall rest, match String ch rest with String "-" r => (true, r, 1%nat) | String "+" r => (false, r, 1%nat)
               | _ => (false, String ch rest, 0%nat) end = (false, String ch rest, 0%nat).
Proof. revert ch. by_char. Qed.

Lemma read_magnitude_decimal ch t : ch <> "0"%char -> read_magnitude (String ch t) = read_digits 10 (String ch t) 0 0.
Proof.
  intros Hne. destruct ch as [[] [] [] [] [] [] [] []]; try reflexivity. contradiction Hne; reflexivity.
Qed.

(** A reader that agrees with the decimal one on printed numbers. *)
Class DecimalReader (read : string -> Z * nat) := {
  reads_zero : read "0"%string = (0, 1%nat);
  reads_decimal ch t : ch <> "0"%char -> read (String ch t) = read_digits 10 (String ch t) 0 0;
}.

#[export] Instance read_decimal_reader : DecimalReader read_decimal.
Proof. split; reflexivity. Qed.

#[export] Instance read_magnitude_reader : DecimalReader read_magnitude.
Proof. split; [reflexivity | exact read_magnitude_decimal]. Qed.

Section reader.
Context (read : string -> Z * nat) `{!DecimalReader read}.

Lemma read_pretty (x : N) :
  read (pretty x) = (Z.of_N x, String.length (pretty x)) /\ all_chars isdigit (pretty x) = true /\
  pretty x <> EmptyString.
Proof.
  unfold pretty, pretty_N. destruct (decide (x = 0)%N) as [->|Hx]; [rewrite reads_zero; repeat split; discriminate|].
  destruct (pretty_go_first x ltac:(lia) EmptyString) as (ch & t & E & Hd & Hne).
  destruct (read_pretty_go x EmptyString) as (k & Hlen & Hall & Hread).
  split; [|split; [exact (Hall eq_refl) | rewrite E; discriminate]].
  rewrite E, reads_decimal, <- E, Hread, Hlen by exact Hne. cbn. f_equal; lia.
Qed.

Lemma scan_pretty (z : Z) :
  scan_integer read (pretty z) = Some (z <? 0, Z.abs z, String.length (pretty z)).
Proof.
  assert (Hpos : forall x : N, scan_integer read (pretty x) = Some (false, Z.of_N x, String.length (pretty x))).
  { intros x. destruct (read_pretty x) as (Hr & Hd & Hne). unfold scan_integer.
    destruct (pretty x) as [|ch t]; [contradiction Hne; reflexivity|]. cbn in Hd. apply andb_true_iff in Hd as [Hc _].
    destruct (digit_start ch Hc) as [Hsp Hsign]. cbn [span]. rewrite Hsp, Hsign, Hr. reflexivity. }
  destruct z as [|x|x].
  - exact (Hpos 0%N).
  - exact (Hpos (Npos x)).
  - destruct (read_pretty (Npos x)) as (Hr & _ & Hne).
    change (pretty (Zneg x)) with (String "-" (pretty (Npos x))). unfold scan_integer.
    change (span isspace (String "-" (pretty (Npos x)))) with (EmptyString, String "-" (pretty (Npos x))).
    cbv beta iota. rewrite Hr. destruct (pretty (Npos x)) as [|ch t]; [contradiction Hne; reflexivity | reflexivity].
Qed.

Lemma stoll_pretty z : is_i64 z -> stoll read (pretty z) = Ret (z, String.length (pretty z)).
Proof.
  intros Hz. unfold stoll. rewrite scan_pretty. cbv zeta.
  replace (if z <? 0 then - Z.abs z else Z.abs z) with z by (destruct (z <? 0) eqn:E; facts; lia).
  rewrite (proj2 (orb_false_iff _ _)); [reflexivity|]. split; bool_goal; words.
Qed.

Lemma stoull_pretty z : is_u64 z -> stoull read (pretty z) = Ret (z, String.length (pretty z)).
Proof.
  intros Hz. unfold stoull. rewrite scan_pretty. replace (z <? 0) with false by (symmetry; bool_goal; words).
  rewrite Z.abs_eq by words. replace (z >? UINT64_MAX) with false by (symmetry; bool_goal; words). reflexivity.
Qed.

End reader.

(** ** Lemmas: ranges of the numbers read *)

Lemma stoll_range read text v n : stoll read text = Ret (v, n) -> is_i64 v.
Proof.
  unfold stoll. destruct (scan_integer read text) as [[[negative magnitude] parsed]|]; [|discriminate]. cbv zeta.
  destruct (_ || _) eqn:E; [discriminate|]. intros [= <- <-]. facts. unfold is_i64. lia.
Qed.

Lemma digit_value_nonneg c : 0 <= digit_value c.
Proof.
  unfold digit_value, isdigit, in_class. repeat case_match; bool_facts; try lia.
  all: rewrite ?andb_true_iff, ?Nat.leb_le in *; lia.
Qed.

Lemma read_digits_nonneg base s : forall v n, 0 <= base -> 0 <= v -> 0 <= (read_digits base s v n).1.
Proof.
  induction s as [|c s IH]; intros v n Hb Hv; cbn; [exact Hv|]. pose proof (digit_value_nonneg c).
  destruct (_ <? _); [apply IH; nia | exact Hv].
Qed.

Lemma stoull_range text v n : stoull read_decimal text = Ret (v, n) -> is_u64 v.
Proof.
  unfold stoull, scan_integer. destruct (span isspace text) as [spaces body].
  destruct (match body with String "-" _ => _ | _ => _ end) as [[negative digits] signs].
  pose proof (read_digits_nonneg 10 digits 0 0) as Hm. unfold read_decimal.
  destruct (read_digits 10 digits 0 0) as [magnitude count]. destruct (count =? 0)%nat; [discriminate|].
  destruct (magnitude >? UINT64_MAX) eqn:E; [discriminate|]. intros [= <- <-]. facts. cbn in Hm.
  destruct negative; [apply u64_range | words].
Qed.
