(* ===== verification/ALU.v ===== *)
(** * The arithmetic-logic unit and the FLAGS register

    Models [src/core/ALU.cpp] (the [ALU] class) and [src/core/Flags.cpp] (the
    [Flags] class), with the flag helpers at the top of [src/core/CPU.cpp].
    The main results: [ADD], [SUB] and [MUL] compute the wrapped result with
    carry and overflow exactly as their unsigned and signed meaning says, and
    the flags of [CMP] decide the signed order tested by [JG] and [JL]. *)

From S2P Require Import Prelude Words.
Open Scope Z_scope.

(** ** Flags *)

(** [class Flags]: the bits of the 32-bit FLAGS register. *)
Definition CF : Z := Z.shiftl 1 0.
Definition ZF : Z := Z.shiftl 1 6.
Definition SF : Z := Z.shiftl 1 7.
Definition OF : Z := Z.shiftl 1 11.

Definition Flags_test (bits mask : Z) : bool := negb (Z.land bits mask =? 0).

Definition Flags_set (bits mask : Z) (value : bool) : Z :=
  if value then Z.lor bits mask else Z.land bits (u32 (Z.lnot mask)).

Definition Flags_carry (f : Z) : bool := Flags_test f CF.
Definition Flags_zero (f : Z) : bool := Flags_test f ZF.
Definition Flags_sign (f : Z) : bool := Flags_test f SF.
Definition Flags_overflow (f : Z) : bool := Flags_test f OF.

Definition Flags_setCarry (value : bool) (f : Z) : Z := Flags_set f CF value.
Definition Flags_setZero (value : bool) (f : Z) : Z := Flags_set f ZF value.
Definition Flags_setSign (value : bool) (f : Z) : Z := Flags_set f SF value.
Definition Flags_setOverflow (value : bool) (f : Z) : Z := Flags_set f OF value.

Definition Flags_updateZeroAndSign (result : Z) (f : Z) : Z :=
  Flags_setSign (result <? 0) (Flags_setZero (result =? 0) f).

(** ** The ALU *)

Record ALUResult := {
  res_value : Z;
  res_zero : bool;
  res_sign : bool;
  res_carry : bool;
  res_overflow : bool;
}.

Definition wrapU64ToI64 (value : Z) : Z := i64 value.

Definition ALU_makeResult (value : Z) (carry overflow : bool) : ALUResult :=
  {| res_value := value; res_zero := value =? 0; res_sign := value <? 0;
     res_carry := carry; res_overflow := overflow |}.

Definition addSignedOverflow (lhs rhs : Z) : bool :=
  ((rhs >? 0) && (lhs >? INT64_MAX - rhs)) || ((rhs <? 0) && (lhs <? INT64_MIN - rhs)).

Definition subSignedOverflow (lhs rhs : Z) : bool :=
  if rhs >? 0 then lhs <? INT64_MIN + rhs
  else if rhs <? 0 then lhs >? INT64_MAX + rhs
  else false.

(** [long double] is implementation-defined: [ld_digits] is the number of bits
    of its significand (64 for the x87 format of GCC on x86, 53 for MSVC, where
    [long double] is [double]). *)
Class LongDouble := ld_digits : Z.

(** Rounding an integer to [p] significant bits, to nearest, ties to even. *)
Definition round_abs (p x : Z) : Z :=
  if x <? 2 ^ p then x
  else
    let e := Z.log2 x - p + 1 in
    let q := x / 2 ^ e in
    let r := x mod 2 ^ e in
    let half := 2 ^ (e - 1) in
    let up := (half <? r) || ((r =? half) && Z.odd q) in
    (if up then q + 1 else q) * 2 ^ e.

Definition to_long_double `{LongDouble} (x : Z) : Z :=
  if x <? 0 then - round_abs ld_digits (- x) else round_abs ld_digits x.

Definition mulSignedOverflow `{LongDouble} (lhs rhs : Z) : bool :=
  if (lhs =? 0) || (rhs =? 0) then false
  else if (lhs =? -1) && (rhs =? INT64_MIN) then true
  else if (rhs =? -1) && (lhs =? INT64_MIN) then true
  else
    let result := to_long_double (to_long_double lhs * to_long_double rhs) in
    (result >? to_long_double INT64_MAX) || (result <? to_long_double INT64_MIN).

Definition ALU_add (lhs rhs : Z) : ALUResult :=
  let lhs_u := u64 lhs in
  let rhs_u := u64 rhs in
  let result_u := u64 (lhs_u + rhs_u) in
  let value := wrapU64ToI64 result_u in
  ALU_makeResult value (result_u <? lhs_u) (addSignedOverflow lhs rhs).

Definition ALU_sub (lhs rhs : Z) : ALUResult :=
  let lhs_u := u64 lhs in
  let rhs_u := u64 rhs in
  let result_u := u64 (lhs_u - rhs_u) in
  let value := wrapU64ToI64 result_u in
  ALU_makeResult value (lhs_u <? rhs_u) (subSignedOverflow lhs rhs).

Definition ALU_mul `{LongDouble} (lhs rhs : Z) : ALUResult :=
  let lhs_u := u64 lhs in
  let rhs_u := u64 rhs in
  let result_u := u64 (lhs_u * rhs_u) in
  let value := wrapU64ToI64 result_u in
  let overflow := mulSignedOverflow lhs rhs in
  ALU_makeResult value overflow overflow.

Definition ALU_div (lhs rhs : Z) : outcome ALUResult :=
  if rhs =? 0 then throw (RuntimeError "ALU division by zero")
  else if (lhs =? INT64_MIN) && (rhs =? -1)
  then throw (RuntimeError "ALU signed division overflow")
  else mret (ALU_makeResult (Z.quot lhs rhs) false false).

Definition ALU_bitAnd (lhs rhs : Z) : ALUResult := ALU_makeResult (Z.land lhs rhs) false false.
Definition ALU_bitOr (lhs rhs : Z) : ALUResult := ALU_makeResult (Z.lor lhs rhs) false false.
Definition ALU_bitXor (lhs rhs : Z) : ALUResult := ALU_makeResult (Z.lxor lhs rhs) false false.
Definition ALU_bitNot (value : Z) : ALUResult := ALU_makeResult (Z.lnot value) false false.
Definition ALU_compare (lhs rhs : Z) : ALUResult := ALU_sub lhs rhs.
Definition ALU_test (lhs rhs : Z) : ALUResult := ALU_bitAnd lhs rhs.

(** ** Flag helpers of [CPU.cpp] *)

Definition applyALUResultToFlags (flags : Z) (result : ALUResult) : Z :=
  Flags_setOverflow (res_overflow result)
    (Flags_setCarry (res_carry result)
      (Flags_setSign (res_sign result) (Flags_setZero (res_zero result) flags))).

Definition packFlags (flags : Z) : Z :=
  let value := 0 in
  let value := if Flags_zero flags then Z.lor value (Z.shiftl 1 0) else value in
  let value := if Flags_sign flags then Z.lor value (Z.shiftl 1 1) else value in
  let value := if Flags_carry flags then Z.lor value (Z.shiftl 1 2) else value in
  if Flags_overflow flags then Z.lor value (Z.shiftl 1 3) else value.

Definition restoreFlags (flags value : Z) : Z :=
  let bit k := negb (Z.land value (Z.shiftl 1 k) =? 0) in
  Flags_setOverflow (bit 3) (Flags_setCarry (bit 2) (Flags_setSign (bit 1) (Flags_setZero (bit 0) flags))).

Definition signedLessThanFromFlags (flags : Z) : bool :=
  negb (eqb (Flags_sign flags) (Flags_overflow flags)).

Definition signedGreaterThanFromFlags (flags : Z) : bool :=
  negb (Flags_zero flags) && eqb (Flags_sign flags) (Flags_overflow flags).

(** ** Lemmas on FLAGS *)

Lemma land_pow2 x k : 0 <= k -> negb (Z.land x (Z.shiftl 1 k) =? 0) = Z.testbit x k.
Proof.
  intros Hk. rewrite Z.shiftl_1_l.
  assert (Hl : Z.land x (2 ^ k) = if Z.testbit x k then 2 ^ k else 0).
  { apply Z.bits_inj'. intros i Hi. rewrite Z.land_spec, Z.pow2_bits_eqb by lia.
    destruct (Z.eqb_spec k i) as [->|Hne].
    - rewrite andb_true_r. destruct (Z.testbit x i) eqn:E; [|rewrite Z.bits_0; reflexivity].
      rewrite Z.pow2_bits_true by lia. reflexivity.
    - rewrite andb_false_r. destruct (Z.testbit x k); [|rewrite Z.bits_0; reflexivity].
      rewrite Z.pow2_bits_false by lia. reflexivity. }
  rewrite Hl. destruct (Z.testbit x k); [|reflexivity].
  pose proof (Z.pow_pos_nonneg 2 k). apply negb_true_iff, Z.eqb_neq. lia.
Qed.

(** Setting one bit and testing another. *)
Lemma Flags_test_set f j k b :
  0 <= j < 32 -> 0 <= k < 32 ->
  Flags_test (Flags_set f (Z.shiftl 1 j) b) (Z.shiftl 1 k) =
  if decide (j = k) then b else Flags_test f (Z.shiftl 1 k).
Proof.
  intros Hj Hk. unfold Flags_test. rewrite !land_pow2 by lia. unfold Flags_set. rewrite Z.shiftl_1_l.
  destruct b.
  - rewrite Z.lor_spec, Z.pow2_bits_eqb by lia. destruct (decide (j = k)) as [->|Hne].
    + rewrite Z.eqb_refl. apply orb_true_r.
    + rewrite (proj2 (Z.eqb_neq j k)) by lia. apply orb_false_r.
  - unfold u32. rewrite Z.land_spec, Z.mod_pow2_bits_low, Z.lnot_spec, Z.pow2_bits_eqb by lia.
    destruct (decide (j = k)) as [->|Hne].
    + rewrite Z.eqb_refl. apply andb_false_r.
    + rewrite (proj2 (Z.eqb_neq j k)) by lia. apply andb_true_r.
Qed.

Create Rewrite HintDb flags.

Section flag_bits.
Variables (f : Z) (b : bool).
Ltac bit := unfold Flags_carry, Flags_zero, Flags_sign, Flags_overflow, Flags_setCarry,
  Flags_setZero, Flags_setSign, Flags_setOverflow, CF, ZF, SF, OF;
  rewrite Flags_test_set by lia; reflexivity.

Lemma carry_setCarry : Flags_carry (Flags_setCarry b f) = b. Proof. bit. Qed.
Lemma carry_setZero : Flags_carry (Flags_setZero b f) = Flags_carry f. Proof. bit. Qed.
Lemma carry_setSign : Flags_carry (Flags_setSign b f) = Flags_carry f. Proof. bit. Qed.
Lemma carry_setOverflow : Flags_carry (Flags_setOverflow b f) = Flags_carry f. Proof. bit. Qed.
Lemma zero_setCarry : Flags_zero (Flags_setCarry b f) = Flags_zero f. Proof. bit. Qed.
Lemma zero_setZero : Flags_zero (Flags_setZero b f) = b. Proof. bit. Qed.
Lemma zero_setSign : Flags_zero (Flags_setSign b f) = Flags_zero f. Proof. bit. Qed.
Lemma zero_setOverflow : Flags_zero (Flags_setOverflow b f) = Flags_zero f. Proof. bit. Qed.
Lemma sign_setCarry : Flags_sign (Flags_setCarry b f) = Flags_sign f. Proof. bit. Qed.
Lemma sign_setZero : Flags_sign (Flags_setZero b f) = Flags_sign f. Proof. bit. Qed.
Lemma sign_setSign : Flags_sign (Flags_setSign b f) = b. Proof. bit. Qed.
Lemma sign_setOverflow : Flags_sign (Flags_setOverflow b f) = Flags_sign f. Proof. bit. Qed.
Lemma overflow_setCarry : Flags_overflow (Flags_setCarry b f) = Flags_overflow f. Proof. bit. Qed.
Lemma overflow_setZero : Flags_overflow (Flags_setZero b f) = Flags_overflow f. Proof. bit. Qed.
Lemma overflow_setSign : Flags_overflow (Flags_setSign b f) = Flags_overflow f. Proof. bit. Qed.
Lemma overflow_setOverflow : Flags_overflow (Flags_setOverflow b f) = b. Proof. bit. Qed.
End flag_bits.

#[export] Hint Rewrite carry_setCarry carry_setZero carry_setSign carry_setOverflow
  zero_setCarry zero_setZero zero_setSign zero_setOverflow
  sign_setCarry sign_setZero sign_setSign sign_setOverflow
  overflow_setCarry overflow_setZero overflow_setSign overflow_setOverflow : flags.

(** The four flags after an ALU operation are those of its result. *)
Lemma apply_flags f r :
  Flags_zero (applyALUResultToFlags f r) = res_zero r /\
  Flags_sign (applyALUResultToFlags f r) = res_sign r /\
  Flags_carry (applyALUResultToFlags f r) = res_carry r /\
  Flags_overflow (applyALUResultToFlags f r) = res_overflow r.
Proof. unfold applyALUResultToFlags. autorewrite with flags. auto. Qed.

(** [packFlags] and [restoreFlags] transfer the four flags. *)
Lemma restore_pack g f :
  Flags_zero (restoreFlags g (packFlags f)) = Flags_zero f /\
  Flags_sign (restoreFlags g (packFlags f)) = Flags_sign f /\
  Flags_carry (restoreFlags g (packFlags f)) = Flags_carry f /\
  Flags_overflow (restoreFlags g (packFlags f)) = Flags_overflow f.
Proof.
  unfold restoreFlags. autorewrite with flags. unfold packFlags.
  destruct (Flags_zero f), (Flags_sign f), (Flags_carry f), (Flags_overflow f); auto.
Qed.

Lemma Flags_set_same f k :
  0 <= k < 32 -> is_u32 f -> Flags_set f (Z.shiftl 1 k) (Flags_test f (Z.shiftl 1 k)) = f.
Proof.
  intros Hk Hf. unfold Flags_test. rewrite land_pow2 by lia. unfold Flags_set.
  rewrite Z.shiftl_1_l. apply Z.bits_inj'. intros i Hi.
  assert (Hhi : 32 <= i -> Z.testbit f i = false).
  { intros H. rewrite <- (Z.mod_small f (2 ^ 32)) by exact Hf. apply Z.mod_pow2_bits_high. lia. }
  destruct (Z.testbit f k) eqn:E.
  - rewrite Z.lor_spec, Z.pow2_bits_eqb by lia.
    destruct (Z.eqb_spec k i) as [->|]; [rewrite E; reflexivity | apply orb_false_r].
  - unfold u32. rewrite Z.land_spec. destruct (decide (i < 32)).
    + rewrite Z.mod_pow2_bits_low, Z.lnot_spec, Z.pow2_bits_eqb by lia.
      destruct (Z.eqb_spec k i) as [->|]; [rewrite E; reflexivity | apply andb_true_r].
    + rewrite Hhi by lia. reflexivity.
Qed.

(** Saving FLAGS in a frame and restoring them over the same register gives
    the register back, bits outside the four flags included. *)
Lemma restoreFlags_packFlags f : is_u32 f -> restoreFlags f (packFlags f) = f.
Proof.
  intros Hf. unfold restoreFlags.
  assert (Hz : negb (Z.land (packFlags f) (Z.shiftl 1 0) =? 0) = Flags_zero f).
  { unfold packFlags. destruct (Flags_zero f), (Flags_sign f), (Flags_carry f), (Flags_overflow f); reflexivity. }
  assert (Hs : negb (Z.land (packFlags f) (Z.shiftl 1 1) =? 0) = Flags_sign f).
  { unfold packFlags. destruct (Flags_zero f), (Flags_sign f), (Flags_carry f), (Flags_overflow f); reflexivity. }
  assert (Hc : negb (Z.land (packFlags f) (Z.shiftl 1 2) =? 0) = Flags_carry f).
  { unfold packFlags. destruct (Flags_zero f), (Flags_sign f), (Flags_carry f), (Flags_overflow f); reflexivity. }
  assert (Ho : negb (Z.land (packFlags f) (Z.shiftl 1 3) =? 0) = Flags_overflow f).
  { unfold packFlags. destruct (Flags_zero f), (Flags_sign f), (Flags_carry f), (Flags_overflow f); reflexivity. }
  rewrite Hz, Hs, Hc, Ho.
  unfold Flags_setZero, Flags_setSign, Flags_setCarry, Flags_setOverflow,
    Flags_zero, Flags_sign, Flags_carry, Flags_overflow, ZF, SF, CF, OF.
  rewrite !Flags_set_same by (lia || exact Hf). reflexivity.
Qed.

Lemma packFlags_range f : is_i64 (packFlags f).
Proof.
  unfold packFlags. destruct (Flags_zero f), (Flags_sign f), (Flags_carry f), (Flags_overflow f);
    vm_compute; intuition discriminate.
Qed.

Lemma Flags_set_range f k b : 0 <= k < 32 -> is_u32 f -> is_u32 (Flags_set f (Z.shiftl 1 k) b).
Proof.
  intros Hk Hf.
  assert (Hbits : forall i, 32 <= i -> Z.testbit (Flags_set f (Z.shiftl 1 k) b) i = false).
  { intros i Hi.
    assert (Hhi : Z.testbit f i = false).
    { rewrite <- (Z.mod_small f (2 ^ 32)) by exact Hf. apply Z.mod_pow2_bits_high. lia. }
    unfold Flags_set. rewrite Z.shiftl_1_l. destruct b.
    - rewrite Z.lor_spec, Hhi, Z.pow2_bits_false by lia. reflexivity.
    - rewrite Z.land_spec, Hhi. reflexivity. }
  replace (Flags_set f (Z.shiftl 1 k) b) with (u32 (Flags_set f (Z.shiftl 1 k) b)).
  - apply u32_range.
  - apply Z.bits_inj'. intros i Hi. unfold u32. destruct (decide (i < 32)).
    + apply Z.mod_pow2_bits_low. lia.
    + rewrite Z.mod_pow2_bits_high, Hbits by lia. reflexivity.
Qed.

(** ** Arithmetic *)

Lemma i64_add_u64 lhs rhs : i64 (u64 (u64 lhs + u64 rhs)) = i64 (lhs + rhs).
Proof. unfold i64, u64. rewrite Z.mod_mod, <- Zplus_mod by lia. reflexivity. Qed.

Lemma i64_sub_u64 lhs rhs : i64 (u64 (u64 lhs - u64 rhs)) = i64 (lhs - rhs).
Proof. unfold i64, u64. rewrite Z.mod_mod, <- Zminus_mod by lia. reflexivity. Qed.

Lemma i64_mul_u64 lhs rhs : i64 (u64 (u64 lhs * u64 rhs)) = i64 (lhs * rhs).
Proof. unfold i64, u64. rewrite Z.mod_mod, <- Zmult_mod by lia. reflexivity. Qed.

(** The signed reading of a word, as a choice between two representatives. *)
Lemma u64_signed x : is_i64 x -> u64 x = if x <? 0 then x + 2 ^ 64 else x.
Proof.
  intros H. destruct (Z.ltb_spec x 0).
  - unfold u64. symmetry. apply Z.mod_unique with (-1); words.
  - apply u64_small. words.
Qed.

Lemma i64_near x : - 2 ^ 64 <= x < 2 ^ 64 ->
  i64 x = if x <? - 2 ^ 63 then x + 2 ^ 64 else if x <? 2 ^ 63 then x else x - 2 ^ 64.
Proof.
  intros H. destruct (Z.ltb_spec x (- 2 ^ 63)); [|destruct (Z.ltb_spec x (2 ^ 63))].
  - rewrite <- (i64_small (x + 2 ^ 64)) by words. unfold i64, u64.
    rewrite <- (Z.mod_add x 1) by lia. rewrite Z.mul_1_l. reflexivity.
  - apply i64_small. words.
  - rewrite <- (i64_small (x - 2 ^ 64)) by words. unfold i64, u64.
    rewrite <- (Z.mod_add x (-1)) by lia. repeat f_equal; lia.
Qed.

Lemma addSignedOverflow_spec lhs rhs : is_i64 lhs -> is_i64 rhs ->
  addSignedOverflow lhs rhs = negb (bool_decide (is_i64 (lhs + rhs))).
Proof.
  intros Hl Hr. unfold addSignedOverflow. case_bool_decide as H; simpl.
  - apply orb_false_iff. split; apply andb_false_iff; words.
  - apply orb_true_iff. rewrite !andb_true_iff. words.
Qed.

Lemma subSignedOverflow_spec lhs rhs : is_i64 lhs -> is_i64 rhs ->
  subSignedOverflow lhs rhs = negb (bool_decide (is_i64 (lhs - rhs))).
Proof.
  intros Hl Hr. unfold subSignedOverflow.
  destruct (rhs >? 0) eqn:E1; [|destruct (rhs <? 0) eqn:E2]; bool_facts;
    case_bool_decide; simpl; words.
Qed.

(** ** Properties *)

(** After [CMP lhs, rhs] the flags decide the order of the two operands as
    signed 64-bit integers, for every pair of operands, also where the
    subtraction overflows: [JL] is taken iff [lhs < rhs], [JG] iff
    [lhs > rhs], [JE] iff they are equal. *)
Theorem compare_decides_signed_order (flags lhs rhs : Z)
    (Hl : is_i64 lhs) (Hr : is_i64 rhs) :
  let after := applyALUResultToFlags flags (ALU_compare lhs rhs) in
  signedLessThanFromFlags after = (lhs <? rhs) /\
  signedGreaterThanFromFlags after = (rhs <? lhs) /\
  Flags_zero after = (lhs =? rhs).
Proof.
  intros after. subst after.
  unfold signedLessThanFromFlags, signedGreaterThanFromFlags.
  destruct (apply_flags flags (ALU_compare lhs rhs)) as (-> & -> & _ & ->).
  unfold ALU_compare, ALU_sub, ALU_makeResult, wrapU64ToI64; cbn [res_zero res_sign res_overflow].
  rewrite i64_sub_u64, subSignedOverflow_spec, i64_near by words.
  destruct (Z.ltb_spec lhs rhs), (Z.ltb_spec rhs lhs), (Z.eqb_spec lhs rhs); try lia;
    case_bool_decide as Hov;
    destruct (Z.ltb_spec (lhs - rhs) (- 2 ^ 63)); try words;
    destruct (Z.ltb_spec (lhs - rhs) (2 ^ 63)); try words.
  all: repeat match goal with
       | |- context [?x =? 0] => destruct (Z.eqb_spec x 0); try words
       | |- context [?x <? 0] => destruct (Z.ltb_spec x 0); try words
       end; cbn; auto.
Qed.

Example compare_decides_signed_order_witness :
  is_i64 INT64_MIN /\ is_i64 1 /\
  signedLessThanFromFlags (applyALUResultToFlags 0 (ALU_compare INT64_MIN 1)) = true.
Proof.
  split; [words|]. split; [words|].
  destruct (compare_decides_signed_order 0 INT64_MIN 1) as (-> & _); [words | words | reflexivity].
Defined.

(** [ADD] and [SUB] compute the sum and the difference modulo [2^64] in the
    signed range; the overflow flag is set exactly when the exact result is not
    a 64-bit signed integer (so without it the result is exact), the carry flag
    exactly on an unsigned carry or borrow, and zero and sign are those of the
    result. *)
Theorem ALU_add_sub_correct (lhs rhs : Z) (Hl : is_i64 lhs) (Hr : is_i64 rhs) :
  (let r := ALU_add lhs rhs in
   is_i64 (res_value r) /\ (res_value r - (lhs + rhs)) mod 2 ^ 64 = 0 /\
   res_overflow r = negb (bool_decide (is_i64 (lhs + rhs))) /\
   (res_overflow r = false -> res_value r = lhs + rhs) /\
   res_carry r = (2 ^ 64 <=? u64 lhs + u64 rhs) /\
   res_zero r = (res_value r =? 0) /\ res_sign r = (res_value r <? 0)) /\
  (let r := ALU_sub lhs rhs in
   is_i64 (res_value r) /\ (res_value r - (lhs - rhs)) mod 2 ^ 64 = 0 /\
   res_overflow r = negb (bool_decide (is_i64 (lhs - rhs))) /\
   (res_overflow r = false -> res_value r = lhs - rhs) /\
   res_carry r = (u64 lhs <? u64 rhs) /\
   res_zero r = (res_value r =? 0) /\ res_sign r = (res_value r <? 0)).
Proof.
  assert (Hmod : forall x, (i64 x - x) mod 2 ^ 64 = 0).
  { intros x. destruct (i64_mod x) as [k ->].
    replace (x + k * 2 ^ 64 - x) with (k * 2 ^ 64) by lia. apply Z.mod_mul. lia. }
  split; cbn zeta; unfold ALU_add, ALU_sub, ALU_makeResult, wrapU64ToI64;
    cbn [res_value res_overflow res_carry res_zero res_sign];
    rewrite ?i64_add_u64, ?i64_sub_u64, ?addSignedOverflow_spec, ?subSignedOverflow_spec by assumption;
    repeat split; auto with words.
  - apply i64_range.
  - apply i64_range.
  - case_bool_decide; [intros _; apply i64_small; assumption | discriminate].
  - pose proof (u64_range lhs) as Ha. pose proof (u64_range rhs) as Hb.
    destruct (Z.leb_spec (2 ^ 64) (u64 lhs + u64 rhs)) as [H|H]; bool_facts.
    + apply Z.ltb_lt. unfold u64 at 1.
      replace ((u64 lhs + u64 rhs) mod 2 ^ 64) with (u64 lhs + u64 rhs - 2 ^ 64).
      * words.
      * apply Z.mod_unique with 1; words.
    + apply Z.ltb_ge. rewrite (u64_small (u64 lhs + u64 rhs)) by words. words.
  - apply i64_range.
  - apply i64_range.
  - case_bool_decide; [intros _; apply i64_small; assumption | discriminate].
Qed.

Example ALU_add_sub_correct_witness :
  is_i64 INT64_MAX /\ is_i64 1 /\ res_overflow (ALU_add INT64_MAX 1) = true.
Proof.
  split; [words|]. split; [words|].
  destruct (ALU_add_sub_correct INT64_MAX 1) as [(_ & _ & -> & _) _]; [words | words | reflexivity].
Defined.

(** Rounding to [p] digits never goes below a power of two it started above. *)
Lemma round_abs_ge p x : 0 < p -> 2 ^ p <= x -> 2 ^ p <= round_abs p x.
Proof.
  intros Hp Hx. unfold round_abs. rewrite (proj2 (Z.ltb_ge _ _) Hx). cbv zeta.
  assert (Hpos : 0 < x) by (pose proof (Z.pow_pos_nonneg 2 p); lia).
  assert (Hlog : p <= Z.log2 x) by (apply Z.log2_le_pow2; lia).
  set (e := Z.log2 x - p + 1). assert (He : 0 < 2 ^ e) by (apply Z.pow_pos_nonneg; lia).
  assert (Hq : 2 ^ (p - 1) <= x / 2 ^ e).
  { apply Z.div_le_lower_bound; [lia|]. rewrite <- Z.pow_add_r by lia.
    replace (e + (p - 1)) with (Z.log2 x) by lia. apply Z.log2_spec, Hpos. }
  assert (Hmul : 2 ^ p <= x / 2 ^ e * 2 ^ e).
  { apply Z.le_trans with (2 ^ (p - 1) * 2 ^ e); [|apply Z.mul_le_mono_nonneg_r; lia].
    rewrite <- Z.pow_add_r by lia. apply Z.pow_le_mono_r; lia. }
  destruct (_ || _); nia.
Qed.

Lemma to_long_double_exact `{LongDouble} x :
  64 <= ld_digits -> - 2 ^ 64 < x < 2 ^ 64 -> to_long_double x = x.
Proof.
  intros Hd Hx. unfold to_long_double, round_abs.
  assert (Hp : 2 ^ 64 <= 2 ^ ld_digits) by (apply Z.pow_le_mono_r; lia).
  destruct (Z.ltb_spec x 0).
  - rewrite (proj2 (Z.ltb_lt (- x) _)) by lia. lia.
  - rewrite (proj2 (Z.ltb_lt x _)) by lia. reflexivity.
Qed.

(** Comparing a rounded value with a bound below [2^64] is exact. *)
Lemma to_long_double_compare `{LongDouble} x :
  64 <= ld_digits ->
  (to_long_double x >? INT64_MAX) || (to_long_double x <? INT64_MIN)
  = negb (bool_decide (is_i64 x)).
Proof.
  intros Hd. assert (Hp : 2 ^ 64 <= 2 ^ ld_digits) by (apply Z.pow_le_mono_r; lia).
  rewrite Z.gtb_ltb. unfold to_long_double.
  destruct (decide (- 2 ^ ld_digits < x < 2 ^ ld_digits)) as [Hin|Hout].
  - unfold round_abs. destruct (Z.ltb_spec x 0).
    + rewrite (proj2 (Z.ltb_lt (- x) _)) by lia. case_bool_decide; simpl; words.
    + rewrite (proj2 (Z.ltb_lt x _)) by lia. case_bool_decide; simpl; words.
  - rewrite bool_decide_eq_false_2 by words. destruct (Z.ltb_spec x 0).
    + pose proof (round_abs_ge ld_digits (- x)). simpl. words.
    + pose proof (round_abs_ge ld_digits x). simpl. words.
Qed.

(** Where [long double] carries at least 64 significant bits, [MUL] computes
    the product modulo [2^64] in the signed range and sets carry and overflow
    exactly when the exact product is not a 64-bit signed integer; without
    overflow the result is the exact product. *)
Theorem ALU_mul_correct `{LongDouble} (lhs rhs : Z)
    (Hd : 64 <= ld_digits) (Hl : is_i64 lhs) (Hr : is_i64 rhs) :
  let r := ALU_mul lhs rhs in
  res_value r = i64 (lhs * rhs) /\
  res_overflow r = negb (bool_decide (is_i64 (lhs * rhs))) /\
  res_carry r = res_overflow r /\
  (res_overflow r = false -> res_value r = lhs * rhs).
Proof.
  intros r. subst r. unfold ALU_mul, ALU_makeResult, wrapU64ToI64;
    cbn [res_value res_overflow res_carry].
  assert (Hov : mulSignedOverflow lhs rhs = negb (bool_decide (is_i64 (lhs * rhs)))).
  { unfold mulSignedOverflow.
    destruct ((lhs =? 0) || (rhs =? 0)) eqn:E0;
      [|destruct ((lhs =? -1) && (rhs =? INT64_MIN)) eqn:E1;
      [|destruct ((rhs =? -1) && (lhs =? INT64_MIN)) eqn:E2]].
    - rewrite bool_decide_eq_true_2; [reflexivity|].
      apply orb_true_iff in E0 as [E0|E0]; bool_facts; subst; rewrite ?Z.mul_0_r; words.
    - bool_facts. subst. rewrite bool_decide_eq_false_2 by words. reflexivity.
    - bool_facts. subst. rewrite bool_decide_eq_false_2 by words. reflexivity.
    - rewrite !(to_long_double_exact lhs), !(to_long_double_exact rhs),
        (to_long_double_exact INT64_MAX), (to_long_double_exact INT64_MIN) by words.
      apply to_long_double_compare, Hd. }
  rewrite i64_mul_u64, Hov. repeat split.
  intros Hn. apply i64_small. case_bool_decide; [assumption | discriminate].
Qed.

Example ALU_mul_correct_witness :
  64 <= 64 /\ is_i64 (2 ^ 62) /\ is_i64 2 /\
  res_overflow (@ALU_mul 64 (2 ^ 62) 2) = true.
Proof.
  split; [lia|]. split; [words|]. split; [words|].
  destruct (@ALU_mul_correct 64 (2 ^ 62) 2) as (_ & -> & _);
    [unfold ld_digits; lia | words | words | reflexivity].
Defined.


(** ** Results are words *)

Lemma i64_shiftr x : is_i64 x <-> Z.shiftr x 63 = 0 \/ Z.shiftr x 63 = -1.
Proof.
  rewrite Z.shiftr_div_pow2 by lia. unfold is_i64.
  pose proof (Z.div_mod x (2 ^ 63)). pose proof (Z.mod_pos_bound x (2 ^ 63)). lia.
Qed.

Lemma i64_land a b : is_i64 a -> is_i64 b -> is_i64 (Z.land a b).
Proof. rewrite !i64_shiftr, Z.shiftr_land. intros [-> | ->] [-> | ->]; auto. Qed.

Lemma i64_lor a b : is_i64 a -> is_i64 b -> is_i64 (Z.lor a b).
Proof. rewrite !i64_shiftr, Z.shiftr_lor. intros [-> | ->] [-> | ->]; auto. Qed.

Lemma i64_lxor a b : is_i64 a -> is_i64 b -> is_i64 (Z.lxor a b).
Proof. rewrite !i64_shiftr, Z.shiftr_lxor. intros [-> | ->] [-> | ->]; auto. Qed.

Lemma i64_lnot a : is_i64 a -> is_i64 (Z.lnot a).
Proof. unfold Z.lnot. words. Qed.

Lemma i64_quot a b : is_i64 a -> is_i64 b -> b <> 0 -> ~ (a = INT64_MIN /\ b = -1) -> is_i64 (Z.quot a b).
Proof.
  intros Ha Hb Hz Hov. destruct (decide (Z.abs b = 1)) as [H1|H1].
  - assert (b = 1 \/ b = -1) as [-> | ->] by lia; [rewrite Z.quot_1_r; exact Ha|].
    change (-1) with (- (1)). rewrite Z.quot_opp_r, Z.quot_1_r by lia. words.
  - pose proof (Z.quot_abs a b Hz) as Hq. rewrite Z.quot_div_nonneg in Hq by lia.
    assert (Z.abs a / Z.abs b <= 2 ^ 62) by (apply Z.div_le_upper_bound; unfold is_i64 in *; lia).
    words.
Qed.

(** Every operation on words returns a word. *)
Section results.
Context {LD : LongDouble} (lhs rhs : Z) (Hl : is_i64 lhs) (Hr : is_i64 rhs).

Lemma ALU_add_word : is_i64 (res_value (ALU_add lhs rhs)).
Proof. apply i64_range. Qed.
Lemma ALU_sub_word : is_i64 (res_value (ALU_sub lhs rhs)).
Proof. apply i64_range. Qed.
Lemma ALU_mul_word : is_i64 (res_value (ALU_mul lhs rhs)).
Proof. apply i64_range. Qed.
Lemma ALU_div_word r : ALU_div lhs rhs = Ret r -> is_i64 (res_value r).
Proof.
  unfold ALU_div. destruct (rhs =? 0) eqn:E0; [discriminate|].
  destruct (_ && _) eqn:E1; [discriminate|]. intros [= <-]. bool_facts.
  apply i64_quot; auto. intros [-> ->]. discriminate E1.
Qed.
Lemma ALU_bitAnd_word : is_i64 (res_value (ALU_bitAnd lhs rhs)).
Proof. apply i64_land; assumption. Qed.
Lemma ALU_bitOr_word : is_i64 (res_value (ALU_bitOr lhs rhs)).
Proof. apply i64_lor; assumption. Qed.
Lemma ALU_bitXor_word : is_i64 (res_value (ALU_bitXor lhs rhs)).
Proof. apply i64_lxor; assumption. Qed.
Lemma ALU_bitNot_word : is_i64 (res_value (ALU_bitNot lhs)).
Proof. apply i64_lnot, Hl. Qed.
End results.

(** The flags register keeps its 32 bits. *)
Lemma updateZeroAndSign_range v f : is_u32 f -> is_u32 (Flags_updateZeroAndSign v f).
Proof.
  intros Hf. unfold Flags_updateZeroAndSign, Flags_setSign, Flags_setZero, SF, ZF.
  apply Flags_set_range, Flags_set_range; lia || assumption.
Qed.

Lemma applyALUResult_range r f : is_u32 f -> is_u32 (applyALUResultToFlags f r).
Proof.
  intros Hf. unfold applyALUResultToFlags, Flags_setSign, Flags_setZero, Flags_setCarry,
    Flags_setOverflow, SF, ZF, CF, OF.
  do 4 (apply Flags_set_range; [lia|]). exact Hf.
Qed.

Lemma restoreFlags_range v f : is_u32 f -> is_u32 (restoreFlags f v).
Proof.
  intros Hf. unfold restoreFlags, Flags_setSign, Flags_setZero, Flags_setCarry,
    Flags_setOverflow, SF, ZF, CF, OF.
  do 4 (apply Flags_set_range; [lia|]). exact Hf.
Qed.
