(* ===== verification/Memory.v ===== *)
(** * Byte-addressed memory and the memory map

    Models [src/core/Memory.cpp] (class [Memory], a [std::vector<std::uint8_t>]
    with bounds-checked accessors of several widths and both byte orders) and
    [include/zero_cpu/core/MemoryMap.hpp] (the address constants and range
    predicates that delimit User data, User stack and Kernel stack). *)

From S2P Require Import Prelude Words.
Open Scope Z_scope.

(** ** The memory map *)

Definition kLowMemoryBase : Z := 0.
Definition kLowMemorySize : Z := 512.
Definition kUserDataBase : Z := kLowMemoryBase.
Definition kUserDataSize : Z := kLowMemorySize.
Definition kUserDataEndExclusive : Z := kUserDataBase + kUserDataSize.
Definition kBinaryCodeBase : Z := 512.
Definition kDefaultStackBase : Z := 2048.
Definition kBioOSStackBase : Z := 4000.
Definition kDefaultMemorySize : Z := 4096.
Definition kUserStackBase : Z := kDefaultStackBase.
Definition kUserStackEndExclusive : Z := kBioOSStackBase.
Definition kKernelStackBase : Z := kBioOSStackBase.
Definition kKernelStackEndExclusive : Z := kDefaultMemorySize.
Definition kHardwareBase : Z := 61952.
Definition kHardwareSize : Z := 48.
Definition kHardwareRegisterWidth : Z := 8.

Definition isUserDataRange (address count : Z) : bool :=
  if address <? kUserDataBase then false
  else if address >? kUserDataEndExclusive then false
  else count <=? kUserDataEndExclusive - address.

Definition isUserStackPointer (value : Z) : bool :=
  (value >=? kUserStackBase) && (value <=? kUserStackEndExclusive).

Definition isKernelStackPointer (value : Z) : bool :=
  (value >=? kKernelStackBase) && (value <=? kKernelStackEndExclusive).

(** ** Memory *)

Inductive Endianness := Little | Big.
#[export] Instance Endianness_eq_dec : EqDecision Endianness.
Proof. solve_decision. Defined.

Abbreviation Memory := (list Z).

Definition new_memory (size : Z) : Memory := replicate (Z.to_nat size) 0.

Definition Memory_size (m : Memory) : Z := Z.of_nat (length m).

Definition Memory_reset (m : Memory) : Memory := (fun _ => 0) <$> m.

Definition Memory_checkRange (m : Memory) (address count : Z) : outcome unit :=
  if address >? Memory_size m then throw (OutOfRange "Memory address out of range")
  else if count >? Memory_size m - address then throw (OutOfRange "Memory access out of range")
  else mret tt.

(** [bytes_[address + i] = byte(i)] for [i] in [0, width). *)
Definition store_loop (m : Memory) (address width : nat) (byte : nat -> Z) : Memory :=
  foldl (fun bytes i => <[(address + i)%nat := byte i]> bytes) m (seq 0 width).

Definition Memory_readU8 (m : Memory) (address : Z) : outcome Z :=
  _ ← Memory_checkRange m address 1;
  mret (at_ m (Z.to_nat address)).

Definition Memory_writeU8 (m : Memory) (address value : Z) : outcome Memory :=
  _ ← Memory_checkRange m address 1;
  mret (<[Z.to_nat address := value]> m).

Definition Memory_readU32 (m : Memory) (address : Z) (endian : Endianness) : outcome Z :=
  _ ← Memory_checkRange m address 4;
  let byte i := at_ m (Z.to_nat address + i) in
  mret match endian with
       | Little => le_loop 4 byte
       | Big => be_loop 4 u32 byte
       end.

Definition Memory_writeU32 (m : Memory) (address value : Z) (endian : Endianness) : outcome Memory :=
  _ ← Memory_checkRange m address 4;
  mret match endian with
       | Little => store_loop m (Z.to_nat address) 4 (fun i => byte_at value (8 * Z.of_nat i))
       | Big => store_loop m (Z.to_nat address) 4 (fun i => byte_at value (8 * (3 - Z.of_nat i)))
       end.

Definition Memory_readU64 (m : Memory) (address : Z) (endian : Endianness) : outcome Z :=
  _ ← Memory_checkRange m address 8;
  let byte i := at_ m (Z.to_nat address + i) in
  mret match endian with
       | Little => le_loop 8 byte
       | Big => be_loop 8 u64 byte
       end.

Definition Memory_writeU64 (m : Memory) (address value : Z) (endian : Endianness) : outcome Memory :=
  _ ← Memory_checkRange m address 8;
  mret match endian with
       | Little => store_loop m (Z.to_nat address) 8 (fun i => byte_at value (8 * Z.of_nat i))
       | Big => store_loop m (Z.to_nat address) 8 (fun i => byte_at value (8 * (7 - Z.of_nat i)))
       end.

Definition Memory_readI64 (m : Memory) (address : Z) (endian : Endianness) : outcome Z :=
  i64 <$> Memory_readU64 m address endian.

Definition Memory_writeI64 (m : Memory) (address value : Z) (endian : Endianness) : outcome Memory :=
  Memory_writeU64 m address (u64 value) endian.

Definition Memory_readBytes (m : Memory) (address count : Z) : outcome (list Z) :=
  _ ← Memory_checkRange m address count;
  mret (take (Z.to_nat count) (drop (Z.to_nat address) m)).

Definition Memory_writeBytes (m : Memory) (address : Z) (values : list Z) : outcome Memory :=
  _ ← Memory_checkRange m address (Z.of_nat (length values));
  mret (store_loop m (Z.to_nat address) (length values) (at_ values)).

Definition Memory_read (m : Memory) (address : Z) : outcome Z := Memory_readI64 m address Little.

Definition Memory_write (m : Memory) (address value : Z) : outcome Memory :=
  Memory_writeI64 m address value Little.

(** ** Lemmas *)

(** The accesses of [count] bytes at [address] that stay inside memory. *)
Definition in_range (m : Memory) (address count : Z) : Prop :=
  0 <= address /\ address + count <= Memory_size m.

#[export] Instance in_range_dec m a n : Decision (in_range m a n).
Proof. unfold in_range. apply _. Defined.

Lemma checkRange_ok m a n : in_range m a n -> 0 <= n -> Memory_checkRange m a n = Ret tt.
Proof.
  intros [Ha Hn] Hpos. unfold Memory_checkRange. rewrite !Z.gtb_ltb.
  rewrite (proj2 (Z.ltb_ge _ _)) by lia. rewrite (proj2 (Z.ltb_ge _ _)) by lia. reflexivity.
Qed.

Lemma checkRange_inv m a n u : 0 <= a -> Memory_checkRange m a n = Ret u -> in_range m a n.
Proof.
  unfold Memory_checkRange, in_range. intros Ha H.
  destruct (a >? Memory_size m) eqn:E1; [discriminate|].
  destruct (n >? Memory_size m - a) eqn:E2; [discriminate|]. bool_facts. lia.
Qed.

Lemma checkRange_fail m a n :
  0 <= a -> Memory_size m < a + n -> exists e, Memory_checkRange m a n = Throw e.
Proof.
  intros Ha Hn. unfold Memory_checkRange.
  destruct (a >? Memory_size m) eqn:E1; [eexists; reflexivity|].
  destruct (n >? Memory_size m - a) eqn:E2; [eexists; reflexivity|]. bool_facts. lia.
Qed.

Lemma store_loop_S m a n f :
  store_loop m a (S n) f = <[(a + n)%nat := f n]> (store_loop m a n f).
Proof. unfold store_loop. rewrite seq_S, foldl_app. reflexivity. Qed.

Lemma store_loop_length m a n f : length (store_loop m a n f) = length m.
Proof.
  induction n as [|n IH]; [reflexivity|]. rewrite store_loop_S, length_insert. exact IH.
Qed.

Lemma store_loop_size m a n f : Memory_size (store_loop m a n f) = Memory_size m.
Proof. unfold Memory_size. rewrite store_loop_length. reflexivity. Qed.

Lemma store_loop_lookup_out m a n f j :
  (j < a \/ a + n <= j)%nat -> store_loop m a n f !! j = m !! j.
Proof.
  intros Hj. induction n as [|n IH]; [reflexivity|].
  rewrite store_loop_S, list_lookup_insert_ne by lia. apply IH. lia.
Qed.

Lemma store_loop_lookup_in m a n f i :
  (i < n)%nat -> (a + n <= length m)%nat -> store_loop m a n f !! (a + i)%nat = Some (f i).
Proof.
  intros Hi Hlen. induction n as [|n IH]; [lia|]. rewrite store_loop_S.
  destruct (decide (i = n)) as [->|Hne].
  - apply list_lookup_insert_eq. rewrite store_loop_length. lia.
  - rewrite list_lookup_insert_ne by lia. apply IH; lia.
Qed.

Lemma store_loop_bytes m a n f :
  byte_list m -> (forall i, (i < n)%nat -> is_u8 (f i)) -> byte_list (store_loop m a n f).
Proof.
  intros Hm Hf. induction n as [|n IH]; [exact Hm|]. rewrite store_loop_S.
  apply Forall_insert; [|apply Hf; lia]. apply IH. intros i Hi. apply Hf. lia.
Qed.

Lemma at_store_out m a n f j :
  (j < a \/ a + n <= j)%nat -> at_ (store_loop m a n f) j = at_ m j.
Proof. intros H. unfold at_. rewrite store_loop_lookup_out by exact H. reflexivity. Qed.

Lemma at_store_in m a n f i :
  (i < n)%nat -> (a + n <= length m)%nat -> at_ (store_loop m a n f) (a + i) = f i.
Proof. intros Hi Hl. apply at_lookup, store_loop_lookup_in; assumption. Qed.

(** The loop only depends on the bytes it stores. *)
Lemma store_loop_ext m a n f g :
  (forall i, (i < n)%nat -> f i = g i) -> store_loop m a n f = store_loop m a n g.
Proof.
  intros H. induction n as [|n IH]; [reflexivity|].
  rewrite !store_loop_S, IH, H by auto with lia. reflexivity.
Qed.

Lemma size_nonneg m : 0 <= Memory_size m.
Proof. unfold Memory_size. lia. Qed.
#[export] Hint Resolve size_nonneg : words.

(** The two 64-bit byte orders read what they wrote. *)
Lemma readU64_store m a v e m' :
  Memory_writeU64 m a v e = Ret m' -> 0 <= a -> is_u64 v -> Memory_readU64 m' a e = Ret v.
Proof.
  intros H Ha Hv. apply bind_ret_inv in H as ([] & Hc & H). injection H as H.
  apply checkRange_inv in Hc as Hr; [|exact Ha].
  assert (Hlen : (Z.to_nat a + 8 <= length m)%nat) by (unfold in_range, Memory_size in Hr; lia).
  assert (Hsz : Memory_size m' = Memory_size m) by (destruct e; subst; apply store_loop_size).
  unfold Memory_readU64. rewrite checkRange_ok, bind_Ret by (unfold in_range in *; lia). cbv zeta. f_equal.
  destruct e; subst m'.
  - erewrite le_loop_ext; [rewrite le_loop_byte_at; apply Z.mod_small, Hv|].
    intros i Hi. apply (at_store_in m _ 8 _ i); lia.
  - rewrite be_loop_le_loop.
    + erewrite le_loop_ext; [rewrite le_loop_byte_at; apply Z.mod_small, Hv|].
      intros i Hi. cbv beta. rewrite (at_store_in m _ 8 _ (8 - 1 - i)) by lia.
      f_equal. lia.
    + intros i Hi. rewrite (at_store_in m _ 8 _ i) by lia. apply byte_at_range.
    + intros x Hx. apply u64_small. exact Hx.
Qed.

Lemma writeU64_frame m a v e m' j :
  Memory_writeU64 m a v e = Ret m' -> 0 <= a -> 0 <= j -> j < a \/ a + 8 <= j ->
  m' !! Z.to_nat j = m !! Z.to_nat j.
Proof.
  intros H Ha Hj0 Hj. apply bind_ret_inv in H as ([] & Hc & H). injection H as H.
  destruct e; subst m'; apply store_loop_lookup_out; lia.
Qed.

Lemma writeU64_size m a v e m' : Memory_writeU64 m a v e = Ret m' -> length m' = length m.
Proof.
  intros H. apply bind_ret_inv in H as ([] & Hc & H). injection H as H.
  destruct e; subst m'; apply store_loop_length.
Qed.

Lemma writeU64_bytes m a v e m' :
  Memory_writeU64 m a v e = Ret m' -> byte_list m -> byte_list m'.
Proof.
  intros H Hm. apply bind_ret_inv in H as ([] & Hc & H). injection H as H.
  destruct e; subst m'; apply store_loop_bytes; auto with words.
Qed.

(** A 64-bit access succeeds exactly inside memory. *)
Lemma writeU64_total m a v e : in_range m a 8 -> exists m', Memory_writeU64 m a v e = Ret m'.
Proof.
  intros H. unfold Memory_writeU64. rewrite checkRange_ok by (exact H || lia).
  eexists. reflexivity.
Qed.

Lemma readU64_total m a e : in_range m a 8 -> exists v, Memory_readU64 m a e = Ret v.
Proof. intros H. unfold Memory_readU64. rewrite checkRange_ok by (exact H || lia). eexists. reflexivity. Qed.

Lemma readU64_range m a e v :
  byte_list m -> Memory_readU64 m a e = Ret v -> is_u64 v.
Proof.
  intros Hm H. apply bind_ret_inv in H as ([] & Hc & H). injection H as H.
  destruct e; subst v.
  - apply (le_loop_range 8). intros i Hi. apply at_u8, Hm.
  - rewrite be_loop_le_loop.
    + apply (le_loop_range 8). intros i Hi. apply at_u8, Hm.
    + intros i Hi. apply at_u8, Hm.
    + intros x Hx. apply u64_small, Hx.
Qed.

(** Reads only depend on the eight bytes they cover. *)
Lemma readU64_ext m m' a e :
  length m = length m' -> 0 <= a ->
  (forall j, a <= j < a + 8 -> m !! Z.to_nat j = m' !! Z.to_nat j) ->
  Memory_readU64 m a e = Memory_readU64 m' a e.
Proof.
  intros Hlen Ha Hj. unfold Memory_readU64, Memory_checkRange, Memory_size. rewrite Hlen.
  destruct (_ >? _); [reflexivity|]. destruct (_ >? _); [reflexivity|].
  rewrite !bind_Ret. cbv zeta. f_equal.
  assert (Hat : forall i, (i < 8)%nat -> at_ m (Z.to_nat a + i) = at_ m' (Z.to_nat a + i)).
  { intros i Hi. unfold at_. specialize (Hj (a + Z.of_nat i)).
    rewrite Z2Nat.inj_add, Nat2Z.id in Hj by lia. rewrite Hj by lia. reflexivity. }
  destruct e; [apply le_loop_ext, Hat|]. unfold be_loop.
  cbn [seq foldl]. rewrite !Hat by lia. reflexivity.
Qed.

(** An access outside memory throws, and reads and writes agree on it. *)
Lemma access_fail m a e v :
  0 <= a -> ~ in_range m a 8 ->
  exists msg, Memory_writeU64 m a v e = Throw (OutOfRange msg) /\
              Memory_readU64 m a e = Throw (OutOfRange msg).
Proof.
  intros Ha Hn. unfold Memory_writeU64, Memory_readU64, Memory_checkRange.
  destruct (a >? _) eqn:E1; [eexists; split; reflexivity|].
  destruct (8 >? _) eqn:E2; [eexists; split; reflexivity|].
  exfalso. bool_facts. apply Hn. unfold in_range. lia.
Qed.

(** ** Byte ranges *)

Lemma writeBytes_run m a l :
  in_range m a (Z.of_nat (length l)) ->
  Memory_writeBytes m a l = Ret (store_loop m (Z.to_nat a) (length l) (at_ l)).
Proof. intros H. unfold Memory_writeBytes. rewrite checkRange_ok by (exact H || lia). reflexivity. Qed.

Lemma writeBytes_frame m a l m' j :
  Memory_writeBytes m a l = Ret m' -> (j < Z.to_nat a \/ Z.to_nat a + length l <= j)%nat ->
  m' !! j = m !! j.
Proof.
  intros H Hj. apply bind_ret_inv in H as ([] & _ & H). injection H as <-.
  apply store_loop_lookup_out. lia.
Qed.

Lemma writeBytes_length m a l m' : Memory_writeBytes m a l = Ret m' -> length m' = length m.
Proof.
  intros H. apply bind_ret_inv in H as ([] & _ & H). injection H as <-. apply store_loop_length.
Qed.

Lemma writeBytes_bytes m a l m' :
  byte_list m -> byte_list l -> Memory_writeBytes m a l = Ret m' -> byte_list m'.
Proof.
  intros Hm Hl H. apply bind_ret_inv in H as ([] & _ & H). injection H as <-.
  apply store_loop_bytes; auto with words.
Qed.

Lemma writeBytes_lookup m a l m' i :
  0 <= a -> Memory_writeBytes m a l = Ret m' -> (i < length l)%nat ->
  m' !! (Z.to_nat a + i)%nat = l !! i.
Proof.
  intros Ha H Hi. apply bind_ret_inv in H as ([] & Hc & H). injection H as <-.
  apply checkRange_inv in Hc; [|exact Ha]. unfold in_range, Memory_size in Hc.
  rewrite store_loop_lookup_in by lia.
  destruct (lookup_lt_is_Some_2 l i Hi) as [x Hx]. rewrite Hx.
  f_equal. apply at_lookup, Hx.
Qed.

Lemma readBytes_ok m a l :
  in_range m a (Z.of_nat (length l)) ->
  (forall i, (i < length l)%nat -> m !! (Z.to_nat a + i)%nat = l !! i) ->
  Memory_readBytes m a (Z.of_nat (length l)) = Ret l.
Proof.
  intros Hr Hl. unfold Memory_readBytes. rewrite checkRange_ok, bind_Ret by (exact Hr || lia).
  unfold mret, outcome_ret. f_equal. rewrite Nat2Z.id.
  unfold in_range, Memory_size in Hr. apply list_eq. intros i.
  destruct (decide (i < length l)%nat) as [Hi|Hi].
  - rewrite lookup_take_lt, lookup_drop by lia. apply Hl; assumption.
  - rewrite lookup_take_ge, lookup_ge_None_2 by lia. reflexivity.
Qed.

Lemma readBytes_inv m a n l :
  0 <= a -> Memory_readBytes m a n = Ret l ->
  in_range m a n /\ l = take (Z.to_nat n) (drop (Z.to_nat a) m).
Proof.
  intros Ha H. apply bind_ret_inv in H as ([] & Hc & H). injection H as <-.
  split; [eapply checkRange_inv; eauto | reflexivity].
Qed.

Lemma readBytes_writeBytes m a l m' :
  0 <= a -> Memory_writeBytes m a l = Ret m' ->
  Memory_readBytes m' a (Z.of_nat (length l)) = Ret l.
Proof.
  intros Ha H. apply readBytes_ok; [|intros i Hi; eapply writeBytes_lookup; eassumption].
  unfold in_range, Memory_size. rewrite (writeBytes_length _ _ _ _ H).
  apply bind_ret_inv in H as ([] & Hc & _). eapply checkRange_inv in Hc; [exact Hc | exact Ha].
Qed.

(** ** Property *)

(** A 64-bit signed store, in either byte order, succeeds exactly when its
    eight bytes lie in memory; the load at the same address then gives the
    stored value back, the size is kept and no other byte changes.  Outside
    memory both the store and the load throw the same [std::out_of_range],
    including for addresses so large that [address + 8] wraps. *)
Theorem Memory_store_load (m : Memory) (address value : Z) (endian : Endianness)
    (Ha : is_u64 address) (Hv : is_i64 value) :
  (in_range m address 8 <->
   exists m', Memory_writeI64 m address value endian = Ret m') /\
  (forall m', Memory_writeI64 m address value endian = Ret m' ->
     Memory_readI64 m' address endian = Ret value /\
     Memory_size m' = Memory_size m /\
     (byte_list m -> byte_list m') /\
     forall j, 0 <= j -> j < address \/ address + 8 <= j ->
               m' !! Z.to_nat j = m !! Z.to_nat j) /\
  (~ in_range m address 8 ->
     exists msg, Memory_writeI64 m address value endian = Throw (OutOfRange msg) /\
                 Memory_readI64 m address endian = Throw (OutOfRange msg)).
Proof.
  assert (Ha0 : 0 <= address) by words. unfold Memory_writeI64, Memory_readI64.
  split; [|split].
  - split; [apply writeU64_total|]. intros [m' H].
    destruct (decide (in_range m address 8)) as [Hin|Hout]; [exact Hin|].
    destruct (access_fail m address endian (u64 value)) as (msg & Hw & _); congruence.
  - intros m' H. split; [|split; [|split]].
    + erewrite readU64_store; [|exact H|exact Ha0|apply u64_range].
      cbn. rewrite i64_u64 by exact Hv. reflexivity.
    + unfold Memory_size. erewrite writeU64_size; [reflexivity|exact H].
    + eapply writeU64_bytes, H.
    + intros j Hj Hout. eapply writeU64_frame; eauto.
  - intros Hout. destruct (access_fail m address endian (u64 value)) as (msg & -> & ->);
      [exact Ha0 | exact Hout |]. exists msg. split; reflexivity.
Qed.

Example Memory_store_load_witness :
  is_u64 16 /\ is_i64 (-2) /\
  (m' ← Memory_writeI64 (new_memory 32) 16 (-2) Big; Memory_readI64 m' 16 Big) = Ret (-2).
Proof.
  assert (Ha : is_u64 16) by words. assert (Hv : is_i64 (-2)) by words.
  destruct (Memory_store_load (new_memory 32) 16 (-2) Big Ha Hv) as (_ & Hload & _).
  split; [exact Ha|]. split; [exact Hv|].
  destruct (Memory_writeI64 (new_memory 32) 16 (-2) Big) as [m'|e] eqn:E.
  - apply (Hload m' eq_refl).
  - vm_compute in E. discriminate E.
Defined.

(** ** Words: the 64-bit accesses the CPU makes *)

Lemma read_write_same m a v m' :
  0 <= a -> is_i64 v -> Memory_write m a v = Ret m' -> Memory_read m' a = Ret v.
Proof.
  intros Ha Hv H. unfold Memory_read, Memory_readI64.
  rewrite (readU64_store m a (u64 v) Little m' H Ha (u64_range v)). cbn. rewrite i64_u64 by exact Hv.
  reflexivity.
Qed.

Lemma read_write_other m a v m' b :
  0 <= a -> 0 <= b -> b + 8 <= a \/ a + 8 <= b -> Memory_write m a v = Ret m' ->
  Memory_read m' b = Memory_read m b.
Proof.
  intros Ha Hb Hdis H. unfold Memory_read, Memory_readI64. f_equal.
  apply readU64_ext; [exact (writeU64_size m a (u64 v) Little m' H) | exact Hb |].
  intros j Hj. apply (writeU64_frame m a (u64 v) Little m' j H); lia.
Qed.

Lemma write_total m a v : in_range m a 8 -> exists m', Memory_write m a v = Ret m'.
Proof. apply writeU64_total. Qed.

Lemma write_inv m a v m' :
  0 <= a -> Memory_write m a v = Ret m' ->
  in_range m a 8 /\ length m' = length m /\
  (forall j, 0 <= j -> j < a \/ a + 8 <= j -> m' !! Z.to_nat j = m !! Z.to_nat j).
Proof.
  intros Ha H. split; [|split; [exact (writeU64_size m a (u64 v) Little m' H)|]].
  - destruct (decide (in_range m a 8)) as [Hin|Hout]; [exact Hin|].
    destruct (access_fail m a Little (u64 v) Ha Hout) as (msg & Hw & _).
    unfold Memory_write, Memory_writeI64 in H. congruence.
  - intros j Hj Hd. apply (writeU64_frame m a (u64 v) Little m' j H Ha Hj Hd).
Qed.

Lemma write_bytes m a v m' : Memory_write m a v = Ret m' -> byte_list m -> byte_list m'.
Proof. apply writeU64_bytes. Qed.

Lemma read_range m a v : Memory_read m a = Ret v -> is_i64 v.
Proof.
  unfold Memory_read, Memory_readI64. destruct (Memory_readU64 m a Little); cbn; [|discriminate].
  intros [= <-]. apply i64_range.
Qed.

(** Four consecutive words, as an interrupt frame stores them. *)
Definition write_frame (m : Memory) (base a b c d : Z) : outcome Memory :=
  m ← Memory_write m base a;
  m ← Memory_write m (base + 8) b;
  m ← Memory_write m (base + 16) c;
  Memory_write m (base + 24) d.

Lemma write_frame_spec m base a b c d m' :
  0 <= base -> is_i64 a -> is_i64 b -> is_i64 c -> is_i64 d -> write_frame m base a b c d = Ret m' ->
  Memory_read m' base = Ret a /\ Memory_read m' (base + 8) = Ret b /\
  Memory_read m' (base + 16) = Ret c /\ Memory_read m' (base + 24) = Ret d /\
  length m' = length m /\ (byte_list m -> byte_list m') /\
  (forall j, 0 <= j -> j < base \/ base + 32 <= j -> m' !! Z.to_nat j = m !! Z.to_nat j).
Proof.
  intros Hb Ha Hb' Hc Hd H. unfold write_frame in H.
  apply bind_ret_inv in H as (m1 & H1 & H). apply bind_ret_inv in H as (m2 & H2 & H).
  apply bind_ret_inv in H as (m3 & H3 & H4).
  destruct (write_inv _ _ _ _ Hb H1) as (_ & L1 & F1).
  destruct (write_inv _ (base + 8) _ _ ltac:(lia) H2) as (_ & L2 & F2).
  destruct (write_inv _ (base + 16) _ _ ltac:(lia) H3) as (_ & L3 & F3).
  destruct (write_inv _ (base + 24) _ _ ltac:(lia) H4) as (_ & L4 & F4).
  split; [|split; [|split; [|split; [|split; [congruence|split]]]]].
  - rewrite (read_write_other m3 (base + 24) d m' base) by (exact H4 || lia).
    rewrite (read_write_other m2 (base + 16) c m3 base) by (exact H3 || lia).
    rewrite (read_write_other m1 (base + 8) b m2 base) by (exact H2 || lia).
    eapply read_write_same; eauto.
  - rewrite (read_write_other m3 (base + 24) d m' (base + 8)) by (exact H4 || lia).
    rewrite (read_write_other m2 (base + 16) c m3 (base + 8)) by (exact H3 || lia).
    eapply read_write_same; [lia | | exact H2]. exact Hb'.
  - rewrite (read_write_other m3 (base + 24) d m' (base + 16)) by (exact H4 || lia).
    eapply read_write_same; [lia | | exact H3]. exact Hc.
  - eapply read_write_same; [lia | | exact H4]. exact Hd.
  - eauto using write_bytes.
  - intros j Hj Hout. rewrite F4, F3, F2, F1 by lia. reflexivity.
Qed.

Lemma write_frame_total m base a b c d :
  in_range m base 32 -> exists m', write_frame m base a b c d = Ret m'.
Proof.
  intros [H0 H1]. unfold write_frame, in_range, Memory_size in *.
  destruct (write_total m base a) as [m1 E1]; [unfold in_range, Memory_size; lia|]. rewrite E1, bind_Ret.
  apply write_inv in E1 as (_ & L1 & _); [|lia].
  destruct (write_total m1 (base + 8) b) as [m2 E2]; [unfold in_range, Memory_size; lia|].
  rewrite E2, bind_Ret. apply write_inv in E2 as (_ & L2 & _); [|lia].
  destruct (write_total m2 (base + 16) c) as [m3 E3]; [unfold in_range, Memory_size; lia|].
  rewrite E3, bind_Ret. apply write_inv in E3 as (_ & L3 & _); [|lia].
  apply write_total. unfold in_range, Memory_size. lia.
Qed.
