(* ===== verification/ISA.v ===== *)
(** * Instruction set: registers, operands, encoding and decoding

    Models [src/isa/Opcode.cpp], [src/isa/Operand.cpp], [src/isa/Instruction.cpp],
    [src/isa/InstructionEncoder.cpp], [src/isa/InstructionDecoder.cpp] and
    [src/core/RegisterFile.cpp].  The main results: decoding an encoded
    instruction gives the operand types and payloads its operands stand for,
    encoding fails exactly on an invalid opcode, an invalid register or an
    undefined label, and no two byte sequences decode to the same instruction. *)

From S2P Require Import Prelude Words Memory.
Open Scope Z_scope.

(** ** Registers *)

Inductive RegisterName := R0 | R1 | R2 | R3 | R4 | R5 | R6 | R7 | Count.

#[export] Instance RegisterName_eq_dec : EqDecision RegisterName.
Proof. solve_decision. Defined.

(** [static_cast<std::size_t>(reg)] *)
Definition register_raw (reg : RegisterName) : nat :=
  match reg with
  | R0 => 0 | R1 => 1 | R2 => 2 | R3 => 3 | R4 => 4 | R5 => 5 | R6 => 6 | R7 => 7 | Count => 8
  end%nat.

Definition kRegisterCount : nat := register_raw Count.

Definition RegisterFile_isValidIndex (index : nat) : bool := (index <? kRegisterCount)%nat.

Definition RegisterFile_toIndex (reg : RegisterName) : outcome nat :=
  let index := register_raw reg in
  if negb (RegisterFile_isValidIndex index) then throw (OutOfRange "Register index out of range")
  else mret index.

Definition RegisterFile_reset : list Z := replicate kRegisterCount 0.

(** [std::array::at] throws on a bad index. *)
Definition RegisterFile_get (registers : list Z) (reg : RegisterName) : outcome Z :=
  index ← RegisterFile_toIndex reg;
  match registers !! index with
  | Some value => mret value
  | None => throw (OutOfRange "array::at")
  end.

Definition RegisterFile_set (registers : list Z) (reg : RegisterName) (value : Z) : outcome (list Z) :=
  index ← RegisterFile_toIndex reg;
  if (index <? length registers)%nat then mret (<[index := value]> registers)
  else throw (OutOfRange "array::at").

Definition registerNameToString (reg : RegisterName) : outcome string :=
  match reg with
  | R0 => mret "R0" | R1 => mret "R1" | R2 => mret "R2" | R3 => mret "R3"
  | R4 => mret "R4" | R5 => mret "R5" | R6 => mret "R6" | R7 => mret "R7"
  | Count => throw (OutOfRange "Invalid register name")
  end.

(** ** Opcodes *)

Inductive Opcode :=
  | MOV | LOAD | STORE | ADD | SUB | MUL | DIV | AND | OR | XOR | NOT | CMP | TEST
  | JMP | JE | JNE | JG | JL | PUSH | POP | CALL | RET | IRET | EI | DI | INT | NOP | HALT
  | Invalid.

#[export] Instance Opcode_eq_dec : EqDecision Opcode.
Proof. solve_decision. Defined.

Definition opcodeToString (opcode : Opcode) : string :=
  match opcode with
  | MOV => "MOV" | LOAD => "LOAD" | STORE => "STORE"
  | ADD => "ADD" | SUB => "SUB" | MUL => "MUL" | DIV => "DIV"
  | AND => "AND" | OR => "OR" | XOR => "XOR" | NOT => "NOT"
  | CMP => "CMP" | TEST => "TEST"
  | JMP => "JMP" | JE => "JE" | JNE => "JNE" | JG => "JG" | JL => "JL"
  | PUSH => "PUSH" | POP => "POP"
  | CALL => "CALL" | RET => "RET" | IRET => "IRET" | EI => "EI" | DI => "DI" | INT => "INT"
  | NOP => "NOP" | HALT => "HALT"
  | Invalid => "INVALID"
  end.

(** [std::toupper] in the C locale. *)
Definition toupper (ch : ascii) : ascii :=
  let n := nat_of_ascii ch in
  if (97 <=? n)%nat && (n <=? 122)%nat then ascii_of_nat (n - 32) else ch.

Fixpoint toUpper (text : string) : string :=
  match text with
  | EmptyString => EmptyString
  | String ch rest => String (toupper ch) (toUpper rest)
  end.

Definition opcode_table : list (string * Opcode) :=
  [("MOV", MOV); ("LOAD", LOAD); ("STORE", STORE);
   ("ADD", ADD); ("SUB", SUB); ("MUL", MUL); ("DIV", DIV);
   ("AND", AND); ("OR", OR); ("XOR", XOR); ("NOT", NOT);
   ("CMP", CMP); ("TEST", TEST);
   ("JMP", JMP); ("JE", JE); ("JNE", JNE); ("JG", JG); ("JL", JL);
   ("PUSH", PUSH); ("POP", POP);
   ("CALL", CALL); ("RET", RET); ("IRET", IRET); ("EI", EI); ("DI", DI); ("INT", INT);
   ("NOP", NOP); ("HALT", HALT)].

Definition opcodeFromString (text : string) : Opcode :=
  let upper := toUpper text in
  match (list_to_map opcode_table : gmap string Opcode) !! upper with
  | None => Invalid
  | Some opcode => opcode
  end.

Definition isValidOpcode (opcode : Opcode) : bool := negb (bool_decide (opcode = Invalid)).
Definition isDataMovementOpcode (opcode : Opcode) : bool :=
  match opcode with MOV | LOAD | STORE => true | _ => false end.
Definition isArithmeticOpcode (opcode : Opcode) : bool :=
  match opcode with ADD | SUB | MUL | DIV => true | _ => false end.
Definition isLogicalOpcode (opcode : Opcode) : bool :=
  match opcode with AND | OR | XOR | NOT => true | _ => false end.
Definition isComparisonOpcode (opcode : Opcode) : bool :=
  match opcode with CMP | TEST => true | _ => false end.
Definition isBranchOpcode (opcode : Opcode) : bool :=
  match opcode with JMP | JE | JNE | JG | JL => true | _ => false end.
Definition isStackOpcode (opcode : Opcode) : bool :=
  match opcode with PUSH | POP => true | _ => false end.
Definition isFunctionCallOpcode (opcode : Opcode) : bool :=
  match opcode with CALL | RET | IRET | INT => true | _ => false end.
Definition isControlOpcode (opcode : Opcode) : bool :=
  match opcode with EI | DI | NOP | HALT => true | _ => false end.

(** ** Operands and instructions *)

Inductive OperandType :=
  | OT_Register | OT_Immediate | OT_MemoryAddress | OT_RegisterIndirectAddress | OT_Label | OT_None.

#[export] Instance OperandType_eq_dec : EqDecision OperandType.
Proof. solve_decision. Defined.

(** An [Operand] is built by its static factories only; each sets the tag and
    the one field the tag gives access to. *)
Inductive Operand :=
  | registerOperand (reg : RegisterName)
  | immediate (value : Z)
  | memoryAddress (address : Z)
  | registerIndirectAddress (reg : RegisterName)
  | label (name : string)
  | none.

#[export] Instance Operand_eq_dec : EqDecision Operand.
Proof. solve_decision. Defined.

Definition Operand_type (o : Operand) : OperandType :=
  match o with
  | registerOperand _ => OT_Register
  | immediate _ => OT_Immediate
  | memoryAddress _ => OT_MemoryAddress
  | registerIndirectAddress _ => OT_RegisterIndirectAddress
  | label _ => OT_Label
  | none => OT_None
  end.

Definition operandTypeToString (type : OperandType) : string :=
  match type with
  | OT_Register => "Register" | OT_Immediate => "Immediate"
  | OT_MemoryAddress => "MemoryAddress"
  | OT_RegisterIndirectAddress => "RegisterIndirectAddress"
  | OT_Label => "Label" | OT_None => "None"
  end.

Definition Operand_isRegister (o : Operand) : bool := bool_decide (Operand_type o = OT_Register).
Definition Operand_isImmediate (o : Operand) : bool := bool_decide (Operand_type o = OT_Immediate).
Definition Operand_isMemoryAddress (o : Operand) : bool :=
  bool_decide (Operand_type o = OT_MemoryAddress).
Definition Operand_isRegisterIndirectAddress (o : Operand) : bool :=
  bool_decide (Operand_type o = OT_RegisterIndirectAddress).
Definition Operand_isLabel (o : Operand) : bool := bool_decide (Operand_type o = OT_Label).
Definition Operand_isNone (o : Operand) : bool := bool_decide (Operand_type o = OT_None).

(** The exception of [ensureType]. *)
Definition ensureType_error (o : Operand) (expected : OperandType) : exn :=
  LogicError ("Invalid operand access: expected " +:+ operandTypeToString expected
              +:+ ", got " +:+ operandTypeToString (Operand_type o)).

Definition Operand_asRegister (o : Operand) : outcome RegisterName :=
  match o with registerOperand reg => mret reg | _ => throw (ensureType_error o OT_Register) end.
Definition Operand_asImmediate (o : Operand) : outcome Z :=
  match o with immediate value => mret value | _ => throw (ensureType_error o OT_Immediate) end.
Definition Operand_asMemoryAddress (o : Operand) : outcome Z :=
  match o with
  | memoryAddress address => mret address
  | _ => throw (ensureType_error o OT_MemoryAddress)
  end.
Definition Operand_asRegisterIndirectBase (o : Operand) : outcome RegisterName :=
  match o with
  | registerIndirectAddress reg => mret reg
  | _ => throw (ensureType_error o OT_RegisterIndirectAddress)
  end.
Definition Operand_asLabel (o : Operand) : outcome string :=
  match o with label name => mret name | _ => throw (ensureType_error o OT_Label) end.

Definition Operand_toString (o : Operand) : outcome string :=
  match o with
  | registerOperand reg => registerNameToString reg
  | immediate value => mret (pretty value)
  | memoryAddress address => mret ("[" +:+ pretty address +:+ "]")
  | registerIndirectAddress reg =>
      text ← registerNameToString reg; mret ("[" +:+ text +:+ "]")
  | label name => mret name
  | none => mret "<none>"
  end.

Record Instruction := { opcode : Opcode; dst : Operand; src : Operand }.

#[export] Instance Instruction_eq_dec : EqDecision Instruction.
Proof. solve_decision. Defined.

Definition Instruction_hasDestination (i : Instruction) : bool := negb (Operand_isNone (dst i)).
Definition Instruction_hasSource (i : Instruction) : bool := negb (Operand_isNone (src i)).

Definition Instruction_toString (i : Instruction) : outcome string :=
  let text := opcodeToString (opcode i) in
  text ← (if Instruction_hasDestination i
          then d ← Operand_toString (dst i); mret (text +:+ " " +:+ d) else mret text);
  if Instruction_hasSource i
  then s ← Operand_toString (src i); mret (text +:+ ", " +:+ s) else mret text.

(** ** Encoding *)

Definition kInstructionSize : Z := 24.

Inductive EncodedOperandType :=
  | Enc_None | Enc_Register | Enc_Immediate | Enc_MemoryAddress | Enc_CodeAddress
  | Enc_RegisterIndirectAddress.

#[export] Instance EncodedOperandType_eq_dec : EqDecision EncodedOperandType.
Proof. solve_decision. Defined.

(** [static_cast<std::uint8_t>(type)] *)
Definition encoded_type_raw (t : EncodedOperandType) : Z :=
  match t with
  | Enc_None => 0 | Enc_Register => 1 | Enc_Immediate => 2
  | Enc_MemoryAddress => 3 | Enc_CodeAddress => 4 | Enc_RegisterIndirectAddress => 5
  end.

Definition encodeOpcode (opcode : Opcode) : outcome Z :=
  match opcode with
  | NOP => mret 0x00 | HALT => mret 0x01
  | MOV => mret 0x10 | LOAD => mret 0x11 | STORE => mret 0x12
  | ADD => mret 0x20 | SUB => mret 0x21 | MUL => mret 0x22 | DIV => mret 0x23
  | CMP => mret 0x30 | TEST => mret 0x31
  | JMP => mret 0x40 | JE => mret 0x41 | JNE => mret 0x42 | JG => mret 0x43 | JL => mret 0x44
  | PUSH => mret 0x50 | POP => mret 0x51 | CALL => mret 0x52 | RET => mret 0x53
  | IRET => mret 0x54 | EI => mret 0x70 | DI => mret 0x71 | INT => mret 0x72
  | AND => mret 0x60 | OR => mret 0x61 | XOR => mret 0x62 | NOT => mret 0x63
  | Invalid => throw (RuntimeError "Cannot encode invalid opcode")
  end.

Definition encodeRegister (reg : RegisterName) : outcome Z :=
  match reg with
  | R0 => mret 0 | R1 => mret 1 | R2 => mret 2 | R3 => mret 3
  | R4 => mret 4 | R5 => mret 5 | R6 => mret 6 | R7 => mret 7
  | Count => throw (RuntimeError "Invalid register")
  end.

Abbreviation LabelTable := (gmap string Z).

(** Type byte and signed payload. *)
Definition encodeOperand (operand : Operand) (labels : LabelTable) : outcome (Z * Z) :=
  match operand with
  | none => mret (encoded_type_raw Enc_None, 0)
  | registerOperand reg => r ← encodeRegister reg; mret (encoded_type_raw Enc_Register, r)
  | immediate value => mret (encoded_type_raw Enc_Immediate, value)
  | memoryAddress address => mret (encoded_type_raw Enc_MemoryAddress, i64 address)
  | registerIndirectAddress reg =>
      r ← encodeRegister reg; mret (encoded_type_raw Enc_RegisterIndirectAddress, r)
  | label name =>
      match labels !! name with
      | None => throw (RuntimeError ("Undefined label: " +:+ name))
      | Some instructionIndex =>
          let byteAddress := u64 (instructionIndex * kInstructionSize) in
          mret (encoded_type_raw Enc_CodeAddress, i64 byteAddress)
      end
  end.

Definition writeI64LittleEndian (bytes : list Z) (offset : nat) (value : Z) : outcome (list Z) :=
  if (length bytes <? offset + 8)%nat then throw (OutOfRange "writeI64LittleEndian out of range")
  else
    let raw := u64 value in
    mret (store_loop bytes offset 8 (fun i => byte_at raw (Z.of_nat i * 8))).

Definition encodeInstruction (instruction : Instruction) (labels : LabelTable) : outcome (list Z) :=
  let bytes := replicate (Z.to_nat kInstructionSize) 0 in
  '(dst_type, dst_payload) ← encodeOperand (dst instruction) labels;
  '(src_type, src_payload) ← encodeOperand (src instruction) labels;
  op ← encodeOpcode (opcode instruction);
  let bytes := <[0%nat := op]> bytes in
  let bytes := <[1%nat := dst_type]> bytes in
  let bytes := <[2%nat := src_type]> bytes in
  let bytes := <[3%nat := 0]> bytes in
  bytes ← writeI64LittleEndian bytes 4 dst_payload;
  writeI64LittleEndian bytes 12 src_payload.

Fixpoint encodeProgram (instructions : list Instruction) (labels : LabelTable) : outcome (list Z) :=
  match instructions with
  | [] => mret []
  | instruction :: rest =>
      encoded ← encodeInstruction instruction labels;
      result ← encodeProgram rest labels;
      mret (encoded ++ result)
  end.

(** ** Decoding *)

Record DecodedInstruction := {
  dec_opcode : Opcode;
  dst_type : EncodedOperandType;
  src_type : EncodedOperandType;
  dst_payload : Z;
  src_payload : Z;
}.

#[export] Instance DecodedInstruction_eq_dec : EqDecision DecodedInstruction.
Proof. solve_decision. Defined.

Definition decodeOpcode (byte : Z) : Opcode :=
  match byte with
  | 0x00 => NOP | 0x01 => HALT
  | 0x10 => MOV | 0x11 => LOAD | 0x12 => STORE
  | 0x20 => ADD | 0x21 => SUB | 0x22 => MUL | 0x23 => DIV
  | 0x30 => CMP | 0x31 => TEST
  | 0x40 => JMP | 0x41 => JE | 0x42 => JNE | 0x43 => JG | 0x44 => JL
  | 0x50 => PUSH | 0x51 => POP | 0x52 => CALL | 0x53 => RET | 0x54 => IRET
  | 0x70 => EI | 0x71 => DI | 0x72 => INT
  | 0x60 => AND | 0x61 => OR | 0x62 => XOR | 0x63 => NOT
  | _ => Invalid
  end.

Definition decodeOperandType (byte : Z) : outcome EncodedOperandType :=
  match byte with
  | 0 => mret Enc_None | 1 => mret Enc_Register | 2 => mret Enc_Immediate
  | 3 => mret Enc_MemoryAddress | 4 => mret Enc_CodeAddress
  | 5 => mret Enc_RegisterIndirectAddress
  | _ => throw (RuntimeError "Invalid encoded operand type")
  end.

Definition readI64LittleEndian (bytes : list Z) (offset : nat) : outcome Z :=
  if (length bytes <? offset + 8)%nat then throw (OutOfRange "readI64LittleEndian out of range")
  else mret (i64 (le_loop 8 (fun i => at_ bytes (offset + i)))).

Definition decodeInstruction (bytes : list Z) : outcome DecodedInstruction :=
  if negb (Z.of_nat (length bytes) =? kInstructionSize)
  then throw (RuntimeError "Invalid encoded instruction size")
  else if negb (at_ bytes 3 =? 0)
  then throw (RuntimeError "Instruction reserved byte must be zero")
  else if negb (at_ bytes 20 =? 0) || negb (at_ bytes 21 =? 0)
          || negb (at_ bytes 22 =? 0) || negb (at_ bytes 23 =? 0)
  then throw (RuntimeError "Instruction reserved tail bytes must be zero")
  else
    let op := decodeOpcode (at_ bytes 0) in
    if bool_decide (op = Invalid) then throw (RuntimeError "Invalid opcode byte")
    else
      dt ← decodeOperandType (at_ bytes 1);
      st ← decodeOperandType (at_ bytes 2);
      dp ← readI64LittleEndian bytes 4;
      sp ← readI64LittleEndian bytes 12;
      mret {| dec_opcode := op; dst_type := dt; src_type := st;
              dst_payload := dp; src_payload := sp |}.

(** ** Lemmas *)

Lemma RegisterFile_get_total registers reg :
  length registers = kRegisterCount -> reg <> Count ->
  exists v, RegisterFile_get registers reg = Ret v /\ registers !! register_raw reg = Some v.
Proof.
  intros Hlen Hreg. unfold RegisterFile_get, RegisterFile_toIndex.
  destruct (lookup_lt_is_Some_2 registers (register_raw reg)) as [v Hv].
  { rewrite Hlen. unfold kRegisterCount. destruct reg; simpl; lia || congruence. }
  exists v. split; [|exact Hv]. destruct reg; try congruence; simpl in *; rewrite Hv; reflexivity.
Qed.

Lemma RegisterFile_set_length registers reg v registers' :
  RegisterFile_set registers reg v = Ret registers' -> length registers' = length registers.
Proof.
  intros H. apply bind_ret_inv in H as (k & _ & H).
  destruct (_ <? _)%nat; [|discriminate]. injection H as <-. apply length_insert.
Qed.

(** A register read back after a write, and every other register unchanged. *)
Lemma RegisterFile_get_set registers reg v registers' reg' :
  RegisterFile_set registers reg v = Ret registers' ->
  RegisterFile_get registers' reg' =
  if decide (reg = reg') then Ret v else RegisterFile_get registers reg'.
Proof.
  intros H. unfold RegisterFile_set in H.
  apply bind_ret_inv in H as (k & Hk & H).
  destruct (k <? length registers)%nat eqn:Hlt; [|discriminate]. injection H as <-.
  apply Nat.ltb_lt in Hlt.
  assert (Hkr : k = register_raw reg) by (destruct reg; cbv in Hk |- *; congruence).
  unfold RegisterFile_get, RegisterFile_toIndex.
  destruct (negb (RegisterFile_isValidIndex (register_raw reg'))) eqn:Hv.
  { destruct (decide (reg = reg')) as [<-|]; [|reflexivity].
    destruct reg; cbv in Hk, Hv; congruence. }
  rewrite !bind_Ret. destruct (decide (reg = reg')) as [<-|Hne].
  - subst k. rewrite list_lookup_insert_eq by exact Hlt. reflexivity.
  - rewrite list_lookup_insert_ne; [reflexivity|]. subst k.
    intros Heq. apply Hne. destruct reg, reg'; simpl in Heq; congruence.
Qed.

(** The eight little-endian bytes of a signed payload. *)
Definition payload_bytes (value : Z) : list Z :=
  (fun i => byte_at (u64 value) (Z.of_nat i * 8)) <$> seq 0 8.

Lemma payload_bytes_range v : byte_list (payload_bytes v).
Proof. apply Forall_fmap, Forall_forall. intros i _. apply byte_at_range. Qed.

(** The layout of an encoded instruction. *)
Definition layout (op dt st dp sp : Z) : list Z :=
  [op; dt; st; 0] ++ payload_bytes dp ++ payload_bytes sp ++ [0; 0; 0; 0].

Lemma encodeInstruction_layout i labels bytes :
  encodeInstruction i labels = Ret bytes ->
  exists op dt dp st sp,
    encodeOpcode (opcode i) = Ret op /\ encodeOperand (dst i) labels = Ret (dt, dp) /\
    encodeOperand (src i) labels = Ret (st, sp) /\ bytes = layout op dt st dp sp.
Proof.
  unfold encodeInstruction. intros H. cbv zeta in H.
  apply bind_ret_inv in H as ([dt dp] & Hd & H). apply bind_ret_inv in H as ([st sp] & Hs & H).
  apply bind_ret_inv in H as (op & Ho & H).
  exists op, dt, dp, st, sp. split; [exact Ho|]. split; [exact Hd|]. split; [exact Hs|].
  cbn -[byte_at u64] in H. injection H as <-. reflexivity.
Qed.

Lemma read_payload v bytes offset :
  (offset + 8 <= length bytes)%nat -> is_i64 v ->
  (forall i, (i < 8)%nat -> at_ bytes (offset + i) = byte_at (u64 v) (Z.of_nat i * 8)) ->
  readI64LittleEndian bytes offset = Ret v.
Proof.
  intros Hlen Hv Hb. unfold readI64LittleEndian. rewrite (proj2 (Nat.ltb_ge _ _)) by lia.
  unfold mret, outcome_ret. f_equal.
  rewrite (le_loop_ext 8 _ (fun i => byte_at (u64 v) (8 * Z.of_nat i))).
  - rewrite le_loop_byte_at. change (8 * Z.of_nat 8) with 64.
    rewrite Z.mod_small by apply u64_range. apply i64_u64, Hv.
  - intros i Hi. rewrite Hb by exact Hi. f_equal. lia.
Qed.

Lemma decodeOpcode_encodeOpcode o b : encodeOpcode o = Ret b -> decodeOpcode b = o /\ o <> Invalid /\ is_u8 b.
Proof.
  intros H. destruct o; injection H as <- || discriminate H;
    (split; [reflexivity | split; [discriminate | words]]).
Qed.

Lemma decodeOperandType_raw t : decodeOperandType (encoded_type_raw t) = Ret t.
Proof. destruct t; reflexivity. Qed.

(** What an operand stands for in an encoded instruction: the specification
    the encoder and the decoder meet in. *)
Inductive denotes (labels : LabelTable) : Operand -> EncodedOperandType -> Z -> Prop :=
  | denotes_none : denotes labels none Enc_None 0
  | denotes_register reg : reg <> Count ->
      denotes labels (registerOperand reg) Enc_Register (Z.of_nat (register_raw reg))
  | denotes_immediate v : denotes labels (immediate v) Enc_Immediate v
  | denotes_memory a : denotes labels (memoryAddress a) Enc_MemoryAddress (i64 a)
  | denotes_indirect reg : reg <> Count ->
      denotes labels (registerIndirectAddress reg) Enc_RegisterIndirectAddress
        (Z.of_nat (register_raw reg))
  | denotes_label name index : labels !! name = Some index ->
      denotes labels (label name) Enc_CodeAddress (i64 (u64 (index * kInstructionSize))).

(** An operand whose numbers fit their C++ types. *)
Definition operand_fits (o : Operand) : Prop :=
  match o with
  | immediate v => is_i64 v
  | memoryAddress a => is_u64 a
  | _ => True
  end.

Lemma encodeRegister_spec reg r :
  encodeRegister reg = Ret r <-> reg <> Count /\ r = Z.of_nat (register_raw reg).
Proof.
  destruct reg; cbv; (split; [intros H | intros [H1 H2]]); try congruence;
    (split; [discriminate | congruence]).
Qed.

Lemma register_raw_fits reg : is_i64 (Z.of_nat (register_raw reg)).
Proof. destruct reg; cbv; intuition discriminate. Qed.

Lemma encodeOperand_denotes o labels t v :
  operand_fits o -> encodeOperand o labels = Ret (t, v) ->
  exists k, t = encoded_type_raw k /\ denotes labels o k v /\ is_i64 v.
Proof.
  intros Hfit H. destruct o as [reg|n|a|reg|name|]; simpl in H.
  - apply bind_ret_inv in H as (r & Hr & H). injection H as <- <-. exists Enc_Register.
    apply encodeRegister_spec in Hr as [Hne ->].
    split; [reflexivity | split; [constructor; exact Hne | apply register_raw_fits]].
  - injection H as <- <-. exists Enc_Immediate. split; [reflexivity | split; [constructor | exact Hfit]].
  - injection H as <- <-. exists Enc_MemoryAddress. split; [reflexivity | split; [constructor | apply i64_range]].
  - apply bind_ret_inv in H as (r & Hr & H). injection H as <- <-. exists Enc_RegisterIndirectAddress.
    apply encodeRegister_spec in Hr as [Hne ->].
    split; [reflexivity | split; [constructor; exact Hne | apply register_raw_fits]].
  - destruct (labels !! name) as [index|] eqn:E; [|discriminate]. injection H as <- <-.
    exists Enc_CodeAddress. split; [reflexivity | split; [constructor; exact E | apply i64_range]].
  - injection H as <- <-. exists Enc_None. split; [reflexivity | split; [constructor | words]].
Qed.

(** The operands that can be encoded. *)
Definition encodable_operand (labels : LabelTable) (o : Operand) : Prop :=
  match o with
  | registerOperand reg | registerIndirectAddress reg => reg <> Count
  | label name => is_Some (labels !! name)
  | _ => True
  end.

Lemma encodeOperand_total labels o :
  encodable_operand labels o <-> exists tv, encodeOperand o labels = Ret tv.
Proof.
  destruct o as [reg|n|a|reg|name|]; simpl.
  - split.
    + intros Hne. rewrite (proj2 (encodeRegister_spec reg _) (conj Hne eq_refl)). eexists. reflexivity.
    + intros [tv H] ->. discriminate.
  - split; [intros _; eexists; reflexivity | intros _; exact I].
  - split; [intros _; eexists; reflexivity | intros _; exact I].
  - split.
    + intros Hne. rewrite (proj2 (encodeRegister_spec reg _) (conj Hne eq_refl)). eexists. reflexivity.
    + intros [tv H] ->. discriminate.
  - split; [intros [index ->]; eauto|].
    intros [tv H]. destruct (labels !! name); [eauto | discriminate].
  - split; [intros _; eexists; reflexivity | intros _; exact I].
Qed.

Lemma at_layout op dt st dp sp :
  at_ (layout op dt st dp sp) 0 = op /\ at_ (layout op dt st dp sp) 1 = dt /\
  at_ (layout op dt st dp sp) 2 = st /\ at_ (layout op dt st dp sp) 3 = 0 /\
  (forall i, (i < 8)%nat ->
     at_ (layout op dt st dp sp) (4 + i) = byte_at (u64 dp) (Z.of_nat i * 8)) /\
  (forall i, (i < 8)%nat ->
     at_ (layout op dt st dp sp) (12 + i) = byte_at (u64 sp) (Z.of_nat i * 8)) /\
  (forall i, (20 <= i < 24)%nat -> at_ (layout op dt st dp sp) i = 0).
Proof.
  repeat split; intros i Hi.
  - do 8 (destruct i as [|i]; [reflexivity|]). lia.
  - do 8 (destruct i as [|i]; [reflexivity|]). lia.
  - do 20 (destruct i as [|i]; [lia|]). do 4 (destruct i as [|i]; [reflexivity|]). lia.
Qed.

Lemma encoded_type_raw_range t : is_u8 (encoded_type_raw t).
Proof. destruct t; cbn; words. Qed.

Lemma layout_bytes op dk sk dp sp :
  is_u8 op -> byte_list (layout op (encoded_type_raw dk) (encoded_type_raw sk) dp sp).
Proof.
  intros Hop. assert (Hz : is_u8 0) by words. unfold layout, byte_list.
  rewrite !Forall_app. split; [|split; [apply payload_bytes_range|split; [apply payload_bytes_range|]]].
  - rewrite !Forall_cons, Forall_nil. auto using encoded_type_raw_range.
  - rewrite !Forall_cons, Forall_nil. auto.
Qed.

Lemma decode_layout o op dtk stk dp sp :
  encodeOpcode o = Ret op -> is_i64 dp -> is_i64 sp ->
  decodeInstruction (layout op (encoded_type_raw dtk) (encoded_type_raw stk) dp sp) =
  Ret {| dec_opcode := o; dst_type := dtk; src_type := stk; dst_payload := dp; src_payload := sp |}.
Proof.
  intros Ho Hd Hs. apply decodeOpcode_encodeOpcode in Ho as (Ho & Hne & _).
  set (bytes := layout _ _ _ _ _).
  destruct (at_layout op (encoded_type_raw dtk) (encoded_type_raw stk) dp sp)
    as (H0 & H1 & H2 & H3 & H4 & H12 & H20).
  fold bytes in H0, H1, H2, H3, H4, H12, H20.
  assert (Hlen : length bytes = 24%nat) by reflexivity.
  unfold decodeInstruction. rewrite Hlen, H0, H1, H2, H3, !H20 by lia. cbn [Z.of_nat].
  rewrite Ho, bool_decide_eq_false_2 by exact Hne.
  rewrite !decodeOperandType_raw.
  rewrite (read_payload dp bytes 4), (read_payload sp bytes 12) by (lia || assumption).
  reflexivity.
Qed.

(** Opcode bytes are decoded by the inverse of the encoding table. *)
Lemma encodeOpcode_decodeOpcode b : decodeOpcode b <> Invalid -> encodeOpcode (decodeOpcode b) = Ret b.
Proof.
  intros H. unfold decodeOpcode in *. repeat first
    [ reflexivity
    | congruence
    | match goal with |- context [match ?x with _ => _ end] => is_var x; destruct x end ].
Qed.

Lemma decodeOperandType_inv b t : decodeOperandType b = Ret t -> b = encoded_type_raw t.
Proof.
  intros H. unfold decodeOperandType in H. repeat first
    [ discriminate H
    | injection H as <-; reflexivity
    | match type of H with context [match ?x with _ => _ end] => is_var x; destruct x end ].
Qed.

Lemma decodeInstruction_inv bytes d :
  decodeInstruction bytes = Ret d ->
  length bytes = 24%nat /\ at_ bytes 3 = 0 /\
  (forall i, (20 <= i < 24)%nat -> at_ bytes i = 0) /\
  dec_opcode d <> Invalid /\ dec_opcode d = decodeOpcode (at_ bytes 0) /\
  at_ bytes 1 = encoded_type_raw (dst_type d) /\ at_ bytes 2 = encoded_type_raw (src_type d) /\
  dst_payload d = i64 (le_loop 8 (fun i => at_ bytes (4 + i))) /\
  src_payload d = i64 (le_loop 8 (fun i => at_ bytes (12 + i))).
Proof.
  unfold decodeInstruction. intros H.
  destruct (negb (Z.of_nat (length bytes) =? kInstructionSize)) eqn:E0; [discriminate|].
  destruct (negb (at_ bytes 3 =? 0)) eqn:E1; [discriminate|].
  destruct (_ || negb (at_ bytes 23 =? 0)) eqn:E2; [discriminate|].
  cbv zeta in H. case_bool_decide as Hop; [discriminate|].
  apply bind_ret_inv in H as (dt & Hdt & H). apply bind_ret_inv in H as (st & Hst & H).
  bool_facts. unfold kInstructionSize in E0.
  assert (Hlen : length bytes = 24%nat) by lia.
  unfold readI64LittleEndian in H. rewrite Hlen in H. cbn [Nat.ltb Nat.leb Nat.add] in H.
  rewrite !bind_Ret in H. injection H as <-. cbn [dec_opcode dst_type src_type dst_payload src_payload].
  apply decodeOperandType_inv in Hdt, Hst. repeat split; try assumption.
  intros i Hi. assert (i = 20 \/ i = 21 \/ i = 22 \/ i = 23)%nat as Hcase by lia.
  destruct Hcase as [-> | [-> | [-> | ->]]]; assumption.
Qed.

Lemma le_loop_inj f g i :
  (forall i, (i < 8)%nat -> is_u8 (f i)) -> (forall i, (i < 8)%nat -> is_u8 (g i)) ->
  i64 (le_loop 8 f) = i64 (le_loop 8 g) -> (i < 8)%nat -> f i = g i.
Proof.
  intros Hf Hg H Hi.
  assert (Heq : le_loop 8 f = le_loop 8 g).
  { rewrite <- (u64_i64 (le_loop 8 f)), <- (u64_i64 (le_loop 8 g)), H; [reflexivity| |];
      apply (le_loop_range 8); assumption. }
  rewrite <- (byte_at_le_loop 8 f i), <- (byte_at_le_loop 8 g i), Heq by assumption. reflexivity.
Qed.

(** Which instructions can be encoded, and what decoding gives back. *)
Lemma encode_total (i : Instruction) (labels : LabelTable) :
  opcode i <> Invalid /\ encodable_operand labels (dst i) /\ encodable_operand labels (src i)
  <-> exists bytes, encodeInstruction i labels = Ret bytes.
Proof.
  split.
  - intros (Ho & Hd & Hs). apply encodeOperand_total in Hd as [[dt dp] Hd], Hs as [[st sp] Hs].
    unfold encodeInstruction. rewrite Hd, Hs. destruct (opcode i); try congruence; eexists; reflexivity.
  - intros [bytes H]. apply encodeInstruction_layout in H as (op & dt & dp & st & sp & Ho & Hd & Hs & _).
    split; [intros E; rewrite E in Ho; discriminate|].
    split; apply encodeOperand_total; eauto.
Qed.

Lemma encode_decodes (i : Instruction) (labels : LabelTable) bytes :
  operand_fits (dst i) -> operand_fits (src i) -> encodeInstruction i labels = Ret bytes ->
  length bytes = 24%nat /\ byte_list bytes /\
  exists d, decodeInstruction bytes = Ret d /\ dec_opcode d = opcode i /\
    denotes labels (dst i) (dst_type d) (dst_payload d) /\
    denotes labels (src i) (src_type d) (src_payload d).
Proof.
  intros Hdst Hsrc H. apply encodeInstruction_layout in H as (op & dt & dp & st & sp & Ho & Hd & Hs & ->).
  apply encodeOperand_denotes in Hd as (dk & -> & Hd & Hdp); [|exact Hdst].
  apply encodeOperand_denotes in Hs as (sk & -> & Hs & Hsp); [|exact Hsrc].
  split; [reflexivity|]. split.
  - pose proof (decodeOpcode_encodeOpcode _ _ Ho) as (_ & _ & Hb). apply layout_bytes, Hb.
  - eexists. split; [apply (decode_layout (opcode i)); eassumption|]. auto.
Qed.

(** ** Properties *)

(** Encoding an instruction succeeds exactly when its opcode is valid, its
    registers exist and its labels are defined.  The result is 24 bytes, and
    decoding it succeeds and gives back the opcode and, for each operand, the
    type and the payload the operand stands for: the register number, the
    immediate, the address, or the byte address (24 times the index, modulo
    [2^64]) of the label. *)
Theorem decode_encodeInstruction (i : Instruction) (labels : LabelTable)
    (Hdst : operand_fits (dst i)) (Hsrc : operand_fits (src i)) :
  (opcode i <> Invalid /\ encodable_operand labels (dst i) /\ encodable_operand labels (src i)
   <-> exists bytes, encodeInstruction i labels = Ret bytes) /\
  (forall bytes, encodeInstruction i labels = Ret bytes ->
     length bytes = 24%nat /\ byte_list bytes /\
     exists d, decodeInstruction bytes = Ret d /\ dec_opcode d = opcode i /\
       denotes labels (dst i) (dst_type d) (dst_payload d) /\
       denotes labels (src i) (src_type d) (src_payload d)).
Proof.
  split; [apply encode_total | intros bytes H; exact (encode_decodes i labels bytes Hdst Hsrc H)].
Qed.

Example decode_encodeInstruction_witness :
  operand_fits (registerOperand R1) /\ operand_fits (label "loop") /\
  is_Some (<["loop" := 3]> (∅ : LabelTable) !! "loop") /\
  exists bytes, encodeInstruction (Build_Instruction JL (registerOperand R1) (label "loop"))
                  (<["loop" := 3]> ∅) = Ret bytes /\ at_ bytes 12 = 72.
Proof.
  split; [exact I|]. split; [exact I|]. split; [eexists; reflexivity|].
  destruct (decode_encodeInstruction (Build_Instruction JL (registerOperand R1) (label "loop"))
              (<["loop" := 3]> ∅) I I) as [[Hok _] _].
  destruct Hok as [bytes Hb].
  - split; [discriminate|]. split; [discriminate|]. exists 3. reflexivity.
  - exists bytes. split; [exact Hb|]. vm_compute in Hb. injection Hb as <-. reflexivity.
Defined.

(** (C38) The encoding is canonical: two byte sequences that decode to the same
    instruction are equal. *)
Theorem decodeInstruction_injective (b1 b2 : list Z) (d : DecodedInstruction)
    (Hb1 : byte_list b1) (Hb2 : byte_list b2)
    (H1 : decodeInstruction b1 = Ret d) (H2 : decodeInstruction b2 = Ret d) : b1 = b2.
Proof.
  apply decodeInstruction_inv in H1 as (L1 & R1 & T1 & V1 & O1 & D1 & S1 & P1 & Q1),
    H2 as (L2 & R2 & T2 & V2 & O2 & D2 & S2 & P2 & Q2).
  apply list_eq_at; [congruence|]. intros i Hi. rewrite L1 in Hi.
  assert (Hpay : forall k off, (k < 8)%nat -> (off = 4 \/ off = 12)%nat ->
            at_ b1 (off + k) = at_ b2 (off + k)).
  { intros k off Hk Hoff.
    apply (le_loop_inj (fun i => at_ b1 (off + i)) (fun i => at_ b2 (off + i))); auto with words.
    destruct Hoff as [-> | ->]; congruence. }
  assert (Hcase : (i = 0 \/ i = 1 \/ i = 2 \/ i = 3 \/ 4 <= i < 12 \/ 12 <= i < 20 \/ 20 <= i < 24)%nat) by lia.
  destruct Hcase as [-> | [-> | [-> | [-> | [Hc | [Hc | Hc]]]]]]; try congruence.
  - assert (E1 : encodeOpcode (dec_opcode d) = Ret (at_ b1 0))
      by (rewrite O1; apply encodeOpcode_decodeOpcode; congruence).
    assert (E2 : encodeOpcode (dec_opcode d) = Ret (at_ b2 0))
      by (rewrite O2; apply encodeOpcode_decodeOpcode; congruence).
    congruence.
  - replace i with (4 + (i - 4))%nat by lia. apply Hpay; lia.
  - replace i with (12 + (i - 12))%nat by lia. apply Hpay; lia.
  - rewrite T1, T2 by lia. reflexivity.
Qed.

Example decodeInstruction_injective_witness :
  let b := layout 0x10 1 2 3 (-5) in
  byte_list b /\
  decodeInstruction b = Ret {| dec_opcode := MOV; dst_type := Enc_Register; src_type := Enc_Immediate;
                               dst_payload := 3; src_payload := -5 |} /\ b = b.
Proof.
  intros b. assert (Hb : byte_list b) by (unfold byte_list; apply (bool_decide_unpack _); vm_compute; exact I).
  assert (Hd : decodeInstruction b = Ret {| dec_opcode := MOV; dst_type := Enc_Register;
     src_type := Enc_Immediate; dst_payload := 3; src_payload := -5 |}) by (vm_compute; reflexivity).
  split; [exact Hb|]. split; [exact Hd|]. exact (decodeInstruction_injective b b _ Hb Hb Hd Hd).
Defined.

(** The opcode tables agree: a mnemonic names an opcode in
    [opcodeFromString] exactly when, in upper case, it is that opcode's name,
    and a byte is decoded to a valid opcode exactly when the opcode is encoded
    as that byte. *)
Theorem opcode_tables_agree (o : Opcode) (text : string) (byte : Z) :
  (opcodeFromString text = o /\ isValidOpcode o = true
   <-> toUpper text = opcodeToString o /\ isValidOpcode o = true) /\
  (decodeOpcode byte = o /\ isValidOpcode o = true <-> encodeOpcode o = Ret byte).
Proof.
  split; [split|split].
  - intros [H Hv]. split; [|exact Hv]. unfold opcodeFromString in H. cbv zeta in H.
    destruct (list_to_map _ !! _) as [o'|] eqn:E.
    + subst o'. apply elem_of_list_to_map_2 in E.
      repeat (apply elem_of_cons in E as [E|E]; [injection E as -> ->; reflexivity|]).
      apply elem_of_nil in E. contradiction.
    + subst o. discriminate.
  - intros [H Hv]. split; [|exact Hv]. unfold opcodeFromString. cbv zeta. rewrite H.
    destruct o; reflexivity || discriminate.
  - intros [<- Hv]. apply encodeOpcode_decodeOpcode. intros E. rewrite E in Hv. discriminate.
  - intros H. apply decodeOpcode_encodeOpcode in H as (H & Hne & _).
    split; [exact H|]. unfold isValidOpcode. rewrite bool_decide_eq_false_2 by exact Hne. reflexivity.
Qed.
