(* ===== verification/Binary.v ===== *)
(** * The [.zbin] container: format, writer, reader and loader

    Models [include/zero_cpu/binary/BinaryFormat.hpp] and [BinaryProgram.hpp],
    [src/binary/BinaryWriter.cpp], [src/binary/BinaryReader.cpp] and
    [src/binary/BinaryLoader.cpp]; the two functions that open files
    ([readFile], [writeFile]) are in [Disk].  The main
    results: reading a written program gives the program back, what is read is
    written back byte for byte, and loading places the two sections, changes
    no other byte, and changes nothing at all when it fails. *)

From S2P Require Import Prelude Words Memory ISA.
Open Scope Z_scope.

(** ** Format *)

Definition kMagic : list Z := [90; 67; 80; 85].
Definition kMajorVersion : Z := 0.
Definition kLegacyMinorVersion : Z := 2.
Definition kMinorVersion : Z := 3.
Definition kLegacyHeaderSize : Z := 16.
Definition kHeaderSize : Z := 24.
Definition kInstructionAlignment : Z := kInstructionSize.
Definition kMajorVersionOffset : nat := 4.
Definition kMinorVersionOffset : nat := 5.
Definition kEndiannessOffset : nat := 6.
Definition kReservedOffset : nat := 7.
Definition kEntryPointOffset : nat := 8.
Definition kCodeSizeOffset : nat := 12.
Definition kDataBaseOffset : nat := 16.
Definition kDataSizeOffset : nat := 20.

Inductive BinaryEndianness := BE_Little | BE_Big.

#[export] Instance BinaryEndianness_eq_dec : EqDecision BinaryEndianness.
Proof. solve_decision. Defined.

(** [static_cast<std::uint8_t>(endian)] *)
Definition endianness_raw (e : BinaryEndianness) : Z :=
  match e with BE_Little => 1 | BE_Big => 2 end.

Definition isLegacyVersion (major minor : Z) : bool :=
  (major =? kMajorVersion) && (minor =? kLegacyMinorVersion).
Definition isCurrentVersion (major minor : Z) : bool :=
  (major =? kMajorVersion) && (minor =? kMinorVersion).
Definition isSupportedVersion (major minor : Z) : bool :=
  isLegacyVersion major minor || isCurrentVersion major minor.

Definition headerSizeForVersion (major minor : Z) : Z :=
  if isLegacyVersion major minor then kLegacyHeaderSize
  else if isCurrentVersion major minor then kHeaderSize
  else 0.

Definition isValidInstructionAddress (address : Z) : bool := address mod kInstructionAlignment =? 0.
Definition instructionIndexToAddress (index : Z) : Z := u64 (index * kInstructionSize).

Record BinaryHeader := {
  major_version : Z;
  minor_version : Z;
  endianness : BinaryEndianness;
  entry_point : Z;
  code_size : Z;
  data_base : Z;
  data_size : Z;
}.

Record BinaryProgram := {
  header : BinaryHeader;
  code : list Z;
  data : list Z;
}.

#[export] Instance BinaryHeader_eq_dec : EqDecision BinaryHeader.
Proof. solve_decision. Defined.
#[export] Instance BinaryProgram_eq_dec : EqDecision BinaryProgram.
Proof. solve_decision. Defined.

(** ** Writer *)

Definition BinaryWriter_writeU32 (output : list Z) (value : Z) (endian : BinaryEndianness) : list Z :=
  match endian with
  | BE_Little => output ++ ((fun i => byte_at value (8 * Z.of_nat i)) <$> seq 0 4)
  | BE_Big => output ++ ((fun i => byte_at value (8 * (3 - Z.of_nat i))) <$> seq 0 4)
  end.

Definition BinaryWriter_writeHeader (output : list Z) (header : BinaryHeader) : list Z :=
  let output := output ++ kMagic in
  let output := output ++ [major_version header] in
  let output := output ++ [minor_version header] in
  let output := output ++ [endianness_raw (endianness header)] in
  let output := output ++ [0] in
  let output := BinaryWriter_writeU32 output (entry_point header) (endianness header) in
  let output := BinaryWriter_writeU32 output (code_size header) (endianness header) in
  if isCurrentVersion (major_version header) (minor_version header) then
    let output := BinaryWriter_writeU32 output (data_base header) (endianness header) in
    BinaryWriter_writeU32 output (data_size header) (endianness header)
  else output.

Definition BinaryWriter_writeToBytes (program : BinaryProgram) : outcome (list Z) :=
  let h := header program in
  if negb (isSupportedVersion (major_version h) (minor_version h))
  then throw (RuntimeError "Cannot write unsupported binary version")
  else if (Z.of_nat (length (code program)) >? UINT32_MAX)
          || (Z.of_nat (length (data program)) >? UINT32_MAX)
  then throw (RuntimeError "Binary section exceeds 32-bit size field")
  else
    let sized base size := {|
      major_version := major_version h; minor_version := minor_version h;
      endianness := endianness h; entry_point := entry_point h;
      code_size := u32 (Z.of_nat (length (code program)));
      data_base := base; data_size := size |} in
    let finish hdr := mret (BinaryWriter_writeHeader [] hdr ++ code program ++ data program) in
    if isLegacyVersion (major_version h) (minor_version h) then
      if negb (bool_decide (data program = [])) then
        throw (RuntimeError "Legacy binary format cannot contain a data section")
      else finish (sized 0 0)
    else finish (sized (data_base h) (u32 (Z.of_nat (length (data program))))).

(** ** Reader *)

Definition BinaryReader_readU32 (bytes : list Z) (offset : nat) (endian : BinaryEndianness) : outcome Z :=
  if (length bytes <? offset + 4)%nat then throw (RuntimeError "readU32 out of range")
  else
    let byte i := at_ bytes (offset + i) in
    mret match endian with
         | BE_Little => le_loop 4 byte
         | BE_Big => be_loop 4 u32 byte
         end.

Definition BinaryReader_validateMagic (bytes : list Z) : outcome unit :=
  if (length bytes <? length kMagic)%nat
  then throw (RuntimeError "Binary file is too small to contain magic number")
  else if forallb (fun i => at_ bytes i =? at_ kMagic i) (seq 0 (length kMagic)) then mret tt
  else throw (RuntimeError "Invalid binary magic number").

Definition BinaryReader_readHeader (bytes : list Z) : outcome BinaryHeader :=
  let major := at_ bytes kMajorVersionOffset in
  let minor := at_ bytes kMinorVersionOffset in
  let headerSize := headerSizeForVersion major minor in
  if headerSize =? 0 then throw (RuntimeError "Unsupported binary version")
  else if Z.of_nat (length bytes) <? headerSize
  then throw (RuntimeError "Binary file is smaller than its versioned header")
  else
    let rawEndianness := at_ bytes kEndiannessOffset in
    endian ← (if rawEndianness =? endianness_raw BE_Little then mret BE_Little
              else if rawEndianness =? endianness_raw BE_Big then mret BE_Big
              else throw (RuntimeError "Unsupported binary endianness"));
    if negb (at_ bytes kReservedOffset =? 0)
    then throw (RuntimeError "Invalid binary header: reserved byte must be zero")
    else
      entry ← BinaryReader_readU32 bytes kEntryPointOffset endian;
      csize ← BinaryReader_readU32 bytes kCodeSizeOffset endian;
      '(base, dsize) ←
        (if isCurrentVersion major minor then
           base ← BinaryReader_readU32 bytes kDataBaseOffset endian;
           dsize ← BinaryReader_readU32 bytes kDataSizeOffset endian;
           mret (base, dsize)
         else mret (0, 0));
      mret {| major_version := major; minor_version := minor; endianness := endian;
              entry_point := entry; code_size := csize; data_base := base; data_size := dsize |}.

Definition BinaryReader_validateHeader (h : BinaryHeader) : outcome unit :=
  if negb (isSupportedVersion (major_version h) (minor_version h))
  then throw (RuntimeError "Unsupported binary version")
  else if negb (isValidInstructionAddress (entry_point h))
  then throw (RuntimeError "Entry point is not instruction-aligned")
  else if negb (code_size h mod kInstructionSize =? 0)
  then throw (RuntimeError "Code size is not a multiple of instruction size")
  else if entry_point h >=? code_size h
  then throw (RuntimeError "Entry point is outside code section")
  else if isLegacyVersion (major_version h) (minor_version h)
          && (negb (data_base h =? 0) || negb (data_size h =? 0))
  then throw (RuntimeError "Legacy binary contains data metadata")
  else mret tt.

Definition BinaryReader_readFromBytes (bytes : list Z) : outcome BinaryProgram :=
  if Z.of_nat (length bytes) <? kLegacyHeaderSize
  then throw (RuntimeError "Binary file is smaller than the minimum header size")
  else
    _ ← BinaryReader_validateMagic bytes;
    h ← BinaryReader_readHeader bytes;
    _ ← BinaryReader_validateHeader h;
    let headerSize := headerSizeForVersion (major_version h) (minor_version h) in
    let codeSize := code_size h in
    let dataSize := data_size h in
    if codeSize >? UINT64_MAX - headerSize then throw (RuntimeError "Binary file size overflow")
    else
      let codeEnd := u64 (headerSize + codeSize) in
      if dataSize >? UINT64_MAX - codeEnd then throw (RuntimeError "Binary file size overflow")
      else
        let expectedSize := u64 (codeEnd + dataSize) in
        if negb (Z.of_nat (length bytes) =? expectedSize)
        then throw (RuntimeError "Binary file size does not match section sizes in header")
        else
          mret {| header := h;
                  code := take (Z.to_nat (codeEnd - headerSize)) (drop (Z.to_nat headerSize) bytes);
                  data := drop (Z.to_nat codeEnd) bytes |}.

(** ** Loader *)

Definition rangesOverlap (firstBegin firstSize secondBegin secondSize : Z) : bool :=
  if (firstSize =? 0) || (secondSize =? 0) then false
  else
    let firstEnd := u64 (firstBegin + firstSize) in
    let secondEnd := u64 (secondBegin + secondSize) in
    (firstBegin <? secondEnd) && (secondBegin <? firstEnd).

Record LoadedBinaryImage := {
  img_code_base : Z;
  img_entry_point : Z;
  img_code_size : Z;
  img_data_base : Z;
  img_data_size : Z;
}.

#[export] Instance LoadedBinaryImage_eq_dec : EqDecision LoadedBinaryImage.
Proof. solve_decision. Defined.

Definition BinaryLoader_validateProgram (program : BinaryProgram) : outcome unit :=
  let h := header program in
  if negb (isSupportedVersion (major_version h) (minor_version h))
  then throw (RuntimeError "BinaryLoader does not support this binary version")
  else if negb (bool_decide (endianness h = BE_Little))
  then throw (RuntimeError "BinaryLoader currently supports only little-endian binaries")
  else if bool_decide (code program = [])
  then throw (RuntimeError "Binary code section is empty")
  else if negb (code_size h =? Z.of_nat (length (code program)))
  then throw (RuntimeError "Binary header code_size does not match actual code size")
  else if negb (data_size h =? Z.of_nat (length (data program)))
  then throw (RuntimeError "Binary header data_size does not match actual data size")
  else if negb (Z.of_nat (length (code program)) mod kInstructionSize =? 0)
  then throw (RuntimeError "Binary code size must be a multiple of instruction size")
  else if entry_point h >=? code_size h
  then throw (RuntimeError "Binary entry point is outside the code section")
  else if negb (entry_point h mod kInstructionAlignment =? 0)
  then throw (RuntimeError "Binary entry point is not instruction-aligned")
  else if isLegacyVersion (major_version h) (minor_version h)
          && (negb (bool_decide (data program = [])) || negb (data_base h =? 0)
              || negb (data_size h =? 0))
  then throw (RuntimeError "Legacy binary format cannot contain a data section")
  else mret tt.

Definition BinaryLoader_validatePlacement (program : BinaryProgram) (memory : Memory) (codeBase : Z)
    : outcome unit :=
  let codeLen := Z.of_nat (length (code program)) in
  let dataLen := Z.of_nat (length (data program)) in
  if (codeBase >? Memory_size memory) || (codeLen >? Memory_size memory - codeBase)
  then throw (RuntimeError "Binary code section is outside memory")
  else
    let dataBase := data_base (header program) in
    if (dataBase >? Memory_size memory) || (dataLen >? Memory_size memory - dataBase)
    then throw (RuntimeError "Binary data section is outside memory")
    else if rangesOverlap codeBase codeLen dataBase dataLen
    then throw (RuntimeError "Binary code and data sections overlap")
    else mret tt.

(** [loadIntoMemory] writes to a copy and assigns it to [memory] at the end, so
    a throw leaves the memory as it was. *)
Definition BinaryLoader_loadIntoMemory (program : BinaryProgram) (codeBase : Z)
    : M Memory LoadedBinaryImage :=
  _ ← lift (BinaryLoader_validateProgram program);
  memory ← get;
  _ ← lift (BinaryLoader_validatePlacement program memory codeBase);
  stagedMemory ← lift (if negb (bool_decide (data program = []))
                       then Memory_writeBytes memory (data_base (header program)) (data program)
                       else mret memory);
  stagedMemory ← lift (Memory_writeBytes stagedMemory codeBase (code program));
  _ ← modify (fun _ => stagedMemory);
  mret {| img_code_base := codeBase;
          img_entry_point := u64 (codeBase + entry_point (header program));
          img_code_size := Z.of_nat (length (code program));
          img_data_base := data_base (header program);
          img_data_size := Z.of_nat (length (data program)) |}.

(** ** Lemmas: 32-bit fields *)

Definition u32_bytes (e : BinaryEndianness) (v : Z) : list Z := BinaryWriter_writeU32 [] v e.

Lemma writeU32_app out v e : BinaryWriter_writeU32 out v e = out ++ u32_bytes e v.
Proof. destruct e; reflexivity. Qed.

Lemma u32_bytes_length e v : length (u32_bytes e v) = 4%nat.
Proof. destruct e; reflexivity. Qed.

Lemma at_u32_bytes e v i :
  (i < 4)%nat ->
  at_ (u32_bytes e v) i = byte_at v (8 * match e with BE_Little => Z.of_nat i | BE_Big => 3 - Z.of_nat i end).
Proof. intros Hi. do 4 (destruct i as [|i]; [destruct e; reflexivity|]). lia. Qed.

Lemma u32_bytes_range e v : byte_list (u32_bytes e v).
Proof.
  apply Forall_lookup. intros i x Hx. apply at_lookup in Hx as Hat. subst x.
  apply lookup_lt_Some in Hx. rewrite u32_bytes_length in Hx.
  rewrite at_u32_bytes by exact Hx. apply byte_at_range.
Qed.

Lemma readU32_ok bytes off e v :
  (off + 4 <= length bytes)%nat -> is_u32 v ->
  (forall i, (i < 4)%nat -> at_ bytes (off + i) = at_ (u32_bytes e v) i) ->
  BinaryReader_readU32 bytes off e = Ret v.
Proof.
  intros Hlen Hv Hb. unfold BinaryReader_readU32. rewrite (proj2 (Nat.ltb_ge _ _)) by lia.
  unfold mret, outcome_ret. f_equal.
  assert (Hrd : le_loop 4 (fun i => byte_at v (8 * Z.of_nat i)) = v)
    by (rewrite le_loop_byte_at; apply Z.mod_small, Hv).
  destruct e.
  - rewrite <- Hrd at 1. apply le_loop_ext. intros i Hi. rewrite Hb, at_u32_bytes by exact Hi. reflexivity.
  - rewrite be_loop_le_loop.
    + rewrite <- Hrd at 1. apply le_loop_ext. intros i Hi. cbv beta.
      rewrite Hb, at_u32_bytes by lia. f_equal. lia.
    + intros i Hi. rewrite Hb, at_u32_bytes by exact Hi. apply byte_at_range.
    + intros x Hx. apply u32_small, Hx.
Qed.

Lemma readU32_inv bytes off e v :
  byte_list bytes -> BinaryReader_readU32 bytes off e = Ret v ->
  (off + 4 <= length bytes)%nat /\ is_u32 v /\
  (forall i, (i < 4)%nat -> at_ bytes (off + i) = at_ (u32_bytes e v) i).
Proof.
  intros Hb H. unfold BinaryReader_readU32 in H.
  destruct (length bytes <? off + 4)%nat eqn:Hlen; [discriminate|]. apply Nat.ltb_ge in Hlen.
  assert (Hrange : forall i, (i < 4)%nat -> is_u8 (at_ bytes (off + i))) by auto with words.
  split; [exact Hlen|]. injection H as H. destruct e.
  - subst v. split; [apply (le_loop_range 4), Hrange|]. intros i Hi.
    rewrite at_u32_bytes by exact Hi.
    rewrite (byte_at_le_loop 4 (fun i => at_ bytes (off + i))) by assumption. reflexivity.
  - rewrite be_loop_le_loop in H by (auto || (intros x Hx; apply u32_small, Hx)).
    assert (Hrange' : forall i, (i < 4)%nat -> is_u8 (at_ bytes (off + (4 - 1 - i))))
      by (intros i Hi; apply Hrange; lia).
    subst v. split; [apply (le_loop_range 4), Hrange'|]. intros i Hi.
    rewrite at_u32_bytes by exact Hi.
    replace (3 - Z.of_nat i) with (Z.of_nat (3 - i)) by lia.
    rewrite (byte_at_le_loop 4 (fun i => at_ bytes (off + (4 - 1 - i)))) by (assumption || lia).
    f_equal. lia.
Qed.

(** ** Lemmas: the header *)

(** The bytes of a header, as one list. *)
Definition header_bytes (h : BinaryHeader) : list Z :=
  kMagic ++ [major_version h; minor_version h; endianness_raw (endianness h); 0]
  ++ u32_bytes (endianness h) (entry_point h) ++ u32_bytes (endianness h) (code_size h)
  ++ (if isCurrentVersion (major_version h) (minor_version h)
      then u32_bytes (endianness h) (data_base h) ++ u32_bytes (endianness h) (data_size h)
      else []).

Lemma writeHeader_bytes out h : BinaryWriter_writeHeader out h = out ++ header_bytes h.
Proof.
  unfold BinaryWriter_writeHeader, header_bytes. cbv zeta. rewrite !writeU32_app.
  destruct (isCurrentVersion _ _); rewrite <- !app_assoc; cbn [app]; rewrite ?app_nil_r; reflexivity.
Qed.

Lemma supported_cases major minor :
  isSupportedVersion major minor = true ->
  major = 0 /\ (minor = 2 \/ minor = 3).
Proof.
  unfold isSupportedVersion, isLegacyVersion, isCurrentVersion, kMajorVersion, kLegacyMinorVersion,
    kMinorVersion. intros H. apply orb_true_iff in H as [H|H]; bool_facts; auto.
Qed.

Lemma header_bytes_length h :
  isSupportedVersion (major_version h) (minor_version h) = true ->
  Z.of_nat (length (header_bytes h)) = headerSizeForVersion (major_version h) (minor_version h).
Proof.
  destruct h as [major minor e entry csize base dsize]; cbn [major_version minor_version].
  intros H. apply supported_cases in H as [-> [-> | ->]]; destruct e; reflexivity.
Qed.

(** Well-formed headers: fields in range, an aligned entry point inside the
    code, whole instructions, and no data in the legacy format. *)
Record header_ok (h : BinaryHeader) : Prop := {
  ok_version : isSupportedVersion (major_version h) (minor_version h) = true;
  ok_entry : is_u32 (entry_point h);
  ok_code_size : is_u32 (code_size h);
  ok_data_base : is_u32 (data_base h);
  ok_data_size : is_u32 (data_size h);
  ok_aligned : entry_point h mod kInstructionSize = 0;
  ok_whole : code_size h mod kInstructionSize = 0;
  ok_inside : entry_point h < code_size h;
  ok_legacy : isLegacyVersion (major_version h) (minor_version h) = true ->
              data_base h = 0 /\ data_size h = 0;
}.

(** Past its checks, [readHeader] reads the fields. *)
Lemma readHeader_fields bytes major minor e :
  at_ bytes kMajorVersionOffset = major -> at_ bytes kMinorVersionOffset = minor ->
  at_ bytes kEndiannessOffset = endianness_raw e -> at_ bytes kReservedOffset = 0 ->
  headerSizeForVersion major minor <> 0 ->
  headerSizeForVersion major minor <= Z.of_nat (length bytes) ->
  BinaryReader_readHeader bytes =
    (entry ← BinaryReader_readU32 bytes kEntryPointOffset e;
     csize ← BinaryReader_readU32 bytes kCodeSizeOffset e;
     '(base, dsize) ←
       (if isCurrentVersion major minor then
          base ← BinaryReader_readU32 bytes kDataBaseOffset e;
          dsize ← BinaryReader_readU32 bytes kDataSizeOffset e;
          mret (base, dsize)
        else mret (0, 0));
     mret {| major_version := major; minor_version := minor; endianness := e;
             entry_point := entry; code_size := csize; data_base := base; data_size := dsize |}).
Proof.
  intros H4 H5 H6 H7 Hne Hlen. unfold BinaryReader_readHeader. rewrite H4, H5, H6, H7.
  rewrite (proj2 (Z.eqb_neq _ _) Hne), (proj2 (Z.ltb_ge _ _) Hlen).
  destruct e; reflexivity.
Qed.

Lemma readHeader_ok h rest :
  header_ok h -> BinaryReader_readHeader (header_bytes h ++ rest) = Ret h.
Proof.
  intros [Hv He Hc Hdb Hds _ _ _ Hleg]. destruct h as [major minor e entry csize base dsize];
    cbn [major_version minor_version endianness entry_point code_size data_base data_size] in *.
  match goal with |- BinaryReader_readHeader ?b = _ => set (bytes := b) end.
  assert (Hf : forall off v, is_u32 v -> (off + 4 <= length bytes)%nat ->
      (forall i, (i < 4)%nat -> at_ bytes (off + i) = at_ (u32_bytes e v) i) ->
      BinaryReader_readU32 bytes off e = Ret v) by (intros; apply readU32_ok; assumption).
  apply supported_cases in Hv as [-> [-> | ->]].
  - destruct Hleg as [-> ->]; [reflexivity|].
    assert (Hlen : (16 <= length bytes)%nat) by (unfold bytes; rewrite length_app; destruct e; cbn; lia).
    rewrite (readHeader_fields bytes 0 2 e)
      by (reflexivity || discriminate || (change (headerSizeForVersion 0 2) with 16; lia)).
    rewrite (Hf kEntryPointOffset entry), bind_Ret, (Hf kCodeSizeOffset csize);
      [reflexivity|assumption|unfold kCodeSizeOffset; lia| |assumption|unfold kEntryPointOffset; lia|].
    all: intros i Hi; do 4 (destruct i as [|i]; [destruct e; reflexivity|]); lia.
  - assert (Hlen : (24 <= length bytes)%nat) by (unfold bytes; rewrite length_app; destruct e; cbn; lia).
    rewrite (readHeader_fields bytes 0 3 e)
      by (reflexivity || discriminate || (change (headerSizeForVersion 0 3) with 24; lia)).
    rewrite (Hf kEntryPointOffset entry), bind_Ret, (Hf kCodeSizeOffset csize), bind_Ret,
      (Hf kDataBaseOffset base), (Hf kDataSizeOffset dsize); [reflexivity|..].
    all: try assumption; unfold kEntryPointOffset, kCodeSizeOffset, kDataBaseOffset, kDataSizeOffset;
      try lia.
    all: intros i Hi; do 4 (destruct i as [|i]; [destruct e; reflexivity|]); lia.
Qed.

Lemma validateMagic_spec bytes :
  BinaryReader_validateMagic bytes = Ret tt <->
  (4 <= length bytes)%nat /\ (forall i, (i < 4)%nat -> at_ bytes i = at_ kMagic i).
Proof.
  unfold BinaryReader_validateMagic. change (length kMagic) with 4%nat.
  destruct (length bytes <? 4)%nat eqn:Hlen.
  - apply Nat.ltb_lt in Hlen. split; [discriminate | lia].
  - apply Nat.ltb_ge in Hlen. cbn [seq forallb].
    destruct (_ && _) eqn:E.
    + bool_facts. split; [intros _|reflexivity]. split; [lia|].
      intros i Hi. do 4 (destruct i as [|i]; [assumption|]). lia.
    + split; [discriminate|]. intros [_ H]. rewrite !H in E by lia. discriminate.
Qed.

Lemma headerSize_inv major minor :
  headerSizeForVersion major minor <> 0 ->
  isSupportedVersion major minor = true /\ major = 0 /\ (minor = 2 \/ minor = 3).
Proof.
  intros H. assert (Hv : isSupportedVersion major minor = true).
  { unfold headerSizeForVersion, isSupportedVersion in *.
    destruct (isLegacyVersion major minor), (isCurrentVersion major minor); auto. }
  split; [exact Hv | apply supported_cases, Hv].
Qed.

(** Four bytes at an offset, and a prefix as a sequence of such words. *)
Lemma take_word_eq bytes off l :
  length l = 4%nat -> (off + 4 <= length bytes)%nat ->
  (forall i, (i < 4)%nat -> at_ bytes (off + i) = at_ l i) -> take 4 (drop off bytes) = l.
Proof.
  intros Hl Hlen H. apply list_eq_at.
  - rewrite length_take, length_drop. lia.
  - intros i Hi. rewrite length_take in Hi. rewrite <- H by lia.
    unfold at_. rewrite lookup_take_lt, lookup_drop by lia. reflexivity.
Qed.

Lemma take_word off n (bytes : list Z) :
  take (4 + n) (drop off bytes) = take 4 (drop off bytes) ++ take n (drop (off + 4) bytes).
Proof. rewrite <- take_take_drop, drop_drop. reflexivity. Qed.

Lemma take_field bytes off e v :
  byte_list bytes -> BinaryReader_readU32 bytes off e = Ret v ->
  is_u32 v /\ take 4 (drop off bytes) = u32_bytes e v.
Proof.
  intros Hb H. apply readU32_inv in H as (Hlen & Hv & H); [|exact Hb].
  split; [exact Hv|]. apply take_word_eq; [apply u32_bytes_length | exact Hlen | exact H].
Qed.

(** What [readHeader] checks and reads. *)
Lemma readHeader_inv bytes h :
  byte_list bytes -> take 4 (drop 0 bytes) = kMagic -> BinaryReader_readHeader bytes = Ret h ->
  let size := headerSizeForVersion (major_version h) (minor_version h) in
  isSupportedVersion (major_version h) (minor_version h) = true /\
  is_u32 (entry_point h) /\ is_u32 (code_size h) /\ is_u32 (data_base h) /\ is_u32 (data_size h) /\
  (isLegacyVersion (major_version h) (minor_version h) = true -> data_base h = 0 /\ data_size h = 0) /\
  size <= Z.of_nat (length bytes) /\
  take (Z.to_nat size) (drop 0 bytes) = header_bytes h.
Proof.
  intros Hb Hmagic H. pose proof H as H0. unfold BinaryReader_readHeader in H0. cbv zeta in H0.
  destruct (headerSizeForVersion _ _ =? 0) eqn:Hs; [discriminate|].
  destruct (_ <? _) eqn:Hlen; [discriminate|].
  apply bind_ret_inv in H0 as (e & He & H0).
  destruct (negb _) eqn:Hres; [discriminate|]. clear H0. bool_facts.
  assert (Hraw : at_ bytes kEndiannessOffset = endianness_raw e).
  { destruct (_ =? endianness_raw BE_Little) eqn:E1; [injection He as <-; bool_facts; exact E1|].
    destruct (_ =? endianness_raw BE_Big) eqn:E2; [injection He as <-; bool_facts; exact E2|discriminate]. }
  rewrite (readHeader_fields bytes _ _ e eq_refl eq_refl Hraw Hres Hs Hlen) in H. clear He.
  apply headerSize_inv in Hs as (Hv & Hmaj & Hmin).
  apply bind_ret_inv in H as (entry & Hentry & H). apply bind_ret_inv in H as (csize & Hcsize & H).
  apply bind_ret_inv in H as ([base dsize] & Hdata & H). injection H as <-.
  unfold header_bytes.
  cbn [major_version minor_version endianness entry_point code_size data_base data_size].
  apply take_field in Hentry as (Hen & Hentry), Hcsize as (Hcs & Hcsize); [|exact Hb..].
  assert (Hw1 : (8 <= length bytes)%nat -> take 4 (drop 4 bytes) =
            [at_ bytes kMajorVersionOffset; at_ bytes kMinorVersionOffset; endianness_raw e; 0]).
  { intros Hl. apply take_word_eq; [reflexivity | lia |]. intros i Hi. rewrite <- Hraw, <- Hres.
    do 4 (destruct i as [|i]; [reflexivity|]). lia. }
  unfold kEntryPointOffset, kCodeSizeOffset, kDataBaseOffset, kDataSizeOffset in *.
  rewrite Hmaj in *. destruct Hmin as [Hmin|Hmin]; rewrite Hmin in *.
  - injection Hdata as <- <-. change (headerSizeForVersion 0 2) with 16 in *.
    change (Z.to_nat 16) with (4 + (4 + (4 + 4)))%nat. rewrite !take_word.
    cbn [Nat.add]. rewrite Hmagic, Hw1, Hentry, Hcsize by lia.
    change (isCurrentVersion 0 2) with false. cbv iota. rewrite app_nil_r.
    repeat split; auto; words.
  - change (isCurrentVersion 0 3) with true in *. cbv iota in Hdata |- *.
    apply bind_ret_inv in Hdata as (b & Hbase & Hdata).
    apply bind_ret_inv in Hdata as (d & Hdsize & Hdata). injection Hdata as -> ->.
    apply take_field in Hbase as (Hbs & Hbase), Hdsize as (Hds & Hdsize); [|exact Hb..].
    change (headerSizeForVersion 0 3) with 24 in *.
    change (Z.to_nat 24) with (4 + (4 + (4 + (4 + (4 + 4)))))%nat.
    rewrite !take_word. cbn [Nat.add]. rewrite Hmagic, Hw1, Hentry, Hcsize, Hbase, Hdsize by lia.
    repeat split; auto; try words; discriminate.
Qed.

(** ** Lemmas: whole programs *)

(** A program the format can hold: a good header that agrees with the sections. *)
Record program_ok (p : BinaryProgram) : Prop := {
  ok_header : header_ok (header p);
  ok_code : code_size (header p) = Z.of_nat (length (code p));
  ok_data : data_size (header p) = Z.of_nat (length (data p));
  ok_code_bytes : byte_list (code p);
  ok_data_bytes : byte_list (data p);
}.

Definition program_bytes (p : BinaryProgram) : list Z :=
  header_bytes (header p) ++ code p ++ data p.

Lemma writeToBytes_ok p :
  program_ok p -> BinaryWriter_writeToBytes p = Ret (program_bytes p).
Proof.
  intros [[Hv _ Hcs _ Hds _ _ _ Hleg] Hc Hd _ _]. unfold BinaryWriter_writeToBytes, program_bytes.
  destruct p as [[major minor e entry csize base dsize] code data]; cbn in *.
  rewrite Hv. cbn [negb]. rewrite Hc in Hcs. rewrite Hd in Hds.
  assert (Hn : (Z.of_nat (length code) >? UINT32_MAX) = false
            /\ (Z.of_nat (length data) >? UINT32_MAX) = false)
    by (rewrite !Z.gtb_ltb, !Z.ltb_ge; words).
  destruct Hn as [-> ->]. cbn [orb]. rewrite !u32_small, <- Hc, <- Hd by assumption.
  rewrite !writeHeader_bytes. destruct (isLegacyVersion major minor) eqn:El; [|reflexivity].
  destruct Hleg as [-> ->]; [reflexivity|]. destruct data; [reflexivity|]. cbn in Hd. lia.
Qed.

Lemma at_app_header h rest i :
  (i < 4)%nat -> at_ (header_bytes h ++ rest) i = at_ kMagic i.
Proof. intros Hi. do 4 (destruct i as [|i]; [reflexivity|]). lia. Qed.

Lemma validateHeader_ok h :
  isSupportedVersion (major_version h) (minor_version h) = true ->
  (isLegacyVersion (major_version h) (minor_version h) = true -> data_base h = 0 /\ data_size h = 0) ->
  BinaryReader_validateHeader h = Ret tt <->
  entry_point h mod kInstructionSize = 0 /\ code_size h mod kInstructionSize = 0 /\
  entry_point h < code_size h.
Proof.
  intros Hv Hleg. unfold BinaryReader_validateHeader. rewrite Hv. cbn [negb].
  assert (Hl : isLegacyVersion (major_version h) (minor_version h)
               && (negb (data_base h =? 0) || negb (data_size h =? 0)) = false).
  { destruct (isLegacyVersion _ _); [|reflexivity]. destruct Hleg as [-> ->]; reflexivity. }
  rewrite Hl. unfold isValidInstructionAddress, kInstructionAlignment.
  destruct (entry_point h mod kInstructionSize =? 0) eqn:E1;
    destruct (code_size h mod kInstructionSize =? 0) eqn:E2;
    destruct (entry_point h >=? code_size h) eqn:E3; cbn; bool_facts;
    (split; [try discriminate; auto | intros (? & ? & ?); try reflexivity; lia]).
Qed.

Lemma headerSize_bounds major minor : 0 <= headerSizeForVersion major minor <= 24.
Proof.
  unfold headerSizeForVersion. destruct (isLegacyVersion _ _); [cbv; split; discriminate|].
  destruct (isCurrentVersion _ _); cbv; split; discriminate.
Qed.

Lemma readFromBytes_ok p : program_ok p -> BinaryReader_readFromBytes (program_bytes p) = Ret p.
Proof.
  intros [Hh Hc Hd _ _]. pose proof Hh as [Hv _ Hcs _ Hds Ha Hw Hi Hleg].
  destruct p as [h code data]; cbn [header Binary.code Binary.data] in *.
  unfold program_bytes; cbn [header Binary.code Binary.data].
  pose proof (header_bytes_length h Hv) as Hlen.
  unfold BinaryReader_readFromBytes.
  assert (H16 : 16 <= headerSizeForVersion (major_version h) (minor_version h) <= 24).
  { apply supported_cases in Hv as [-> [-> | ->]]; cbv; split; discriminate. }
  assert (Hsize : Z.of_nat (length (header_bytes h ++ code ++ data)) =
            headerSizeForVersion (major_version h) (minor_version h) + code_size h + data_size h)
    by (rewrite !length_app, Hc, Hd, <- Hlen; lia).
  rewrite Hsize, (proj2 (Z.ltb_ge _ _)) by (unfold kLegacyHeaderSize; words).
  rewrite (proj2 (validateMagic_spec _)), bind_Ret
    by (split; [lia|]; intros i Hi'; apply at_app_header, Hi').
  rewrite readHeader_ok, bind_Ret by exact Hh.
  rewrite (proj2 (validateHeader_ok h Hv Hleg)), bind_Ret by auto.
  set (hs := headerSizeForVersion _ _) in *. cbv zeta. rewrite !Z.gtb_ltb.
  rewrite (proj2 (Z.ltb_ge _ _)) by words. rewrite (u64_small (hs + code_size h)) by words.
  rewrite (proj2 (Z.ltb_ge _ _)) by words. rewrite u64_small by words.
  rewrite Z.eqb_refl. cbn [negb]. unfold mret, outcome_ret. f_equal. f_equal.
  - rewrite <- Hlen, Nat2Z.id, drop_app_length. apply take_app_length'. lia.
  - rewrite app_assoc. apply drop_app_length'. rewrite length_app. lia.
Qed.

Lemma readFromBytes_inv bytes p :
  byte_list bytes -> BinaryReader_readFromBytes bytes = Ret p ->
  program_ok p /\ bytes = program_bytes p.
Proof.
  intros Hb H. unfold BinaryReader_readFromBytes in H.
  destruct (_ <? kLegacyHeaderSize); [discriminate|].
  apply bind_ret_inv in H as ([] & Hmagic & H). apply bind_ret_inv in H as (h & Hh & H).
  apply bind_ret_inv in H as ([] & Hval & H). cbv zeta in H.
  apply validateMagic_spec in Hmagic as [Hl4 Hmagic].
  apply readHeader_inv in Hh as (Hv & He & Hcs & Hdb & Hds & Hleg & Hlen & Hhead); [|exact Hb|
    apply take_word_eq; [reflexivity | exact Hl4 | exact Hmagic]].
  apply validateHeader_ok in Hval as (Ha & Hw & Hi); [|exact Hv|exact Hleg].
  pose proof (headerSize_bounds (major_version h) (minor_version h)) as Hhs.
  set (hs := headerSizeForVersion _ _) in *.
  destruct (_ >? _); [discriminate|]. rewrite (u64_small (hs + code_size h)) in H by words.
  destruct (_ >? _); [discriminate|]. rewrite u64_small in H by words.
  destruct (negb _) eqn:Hsz; [discriminate|]. injection H as <-. bool_facts.
  rewrite drop_0 in Hhead. unfold program_bytes. cbn [header code data].
  assert (Hcode : length (take (Z.to_nat (hs + code_size h - hs)) (drop (Z.to_nat hs) bytes))
                  = Z.to_nat (code_size h)) by (rewrite length_take, length_drop; words).
  assert (Hdata : length (drop (Z.to_nat (hs + code_size h)) bytes) = Z.to_nat (data_size h))
    by (rewrite length_drop; words).
  split.
  - constructor; cbn [header code data]; rewrite ?Hcode, ?Hdata; try words.
    + constructor; assumption.
    + apply Forall_take, Forall_drop, Hb.
    + apply Forall_drop, Hb.
  - rewrite <- Hhead. rewrite <- (take_drop (Z.to_nat hs) bytes) at 1. f_equal.
    rewrite <- (take_drop (Z.to_nat (hs + code_size h - hs)) (drop (Z.to_nat hs) bytes)) at 1.
    f_equal. rewrite drop_drop. f_equal. words.
Qed.

(** ** Properties *)

(** (C39) The reader accepts a byte sequence exactly when it is what the writer
    produces for a well-formed program, and then returns that program: so
    writing then reading gives the program back, reading then writing gives
    the same bytes back, and every program read is well formed (supported
    version, whole instructions, an aligned entry point inside the code,
    section sizes as in the header, no data in the legacy format). *)
Theorem readFromBytes_writeToBytes (bytes : list Z) (p : BinaryProgram) (Hb : byte_list bytes) :
  BinaryReader_readFromBytes bytes = Ret p <->
  program_ok p /\ BinaryWriter_writeToBytes p = Ret bytes.
Proof.
  split.
  - intros H. apply readFromBytes_inv in H as [Hok ->]; [|exact Hb].
    split; [exact Hok | apply writeToBytes_ok, Hok].
  - intros [Hok H]. rewrite (writeToBytes_ok p Hok) in H. injection H as <-.
    apply readFromBytes_ok, Hok.
Qed.

Definition sample_program : BinaryProgram :=
  {| header := {| major_version := 0; minor_version := 3; endianness := BE_Big; entry_point := 24;
                  code_size := 48; data_base := 256; data_size := 2 |};
     code := replicate 48 0; data := [7; 255] |}.

Example readFromBytes_writeToBytes_witness :
  exists bytes, byte_list bytes /\ BinaryWriter_writeToBytes sample_program = Ret bytes /\
    program_ok sample_program.
Proof.
  destruct (BinaryWriter_writeToBytes sample_program) as [bytes|e] eqn:E; [|vm_compute in E; discriminate E].
  exists bytes. assert (Hb : byte_list bytes).
  { vm_compute in E. injection E as <-. unfold byte_list. apply (bool_decide_unpack _). vm_compute. exact I. }
  split; [exact Hb|]. split; [reflexivity|].
  apply (proj1 (readFromBytes_writeToBytes bytes sample_program Hb)).
  vm_compute in E. injection E as <-. vm_compute. reflexivity.
Defined.

(** ** The loader *)

(** Two byte ranges of memory that share no address. *)
Definition disjoint_ranges (a n b m : Z) : Prop := n = 0 \/ m = 0 \/ a + n <= b \/ b + m <= a.

Lemma rangesOverlap_spec a n b m :
  0 <= a -> 0 <= n -> 0 <= b -> 0 <= m -> a + n < 2 ^ 64 -> b + m < 2 ^ 64 ->
  rangesOverlap a n b m = false <-> disjoint_ranges a n b m.
Proof.
  intros Ha Hn Hb Hm Han Hbm. unfold rangesOverlap, disjoint_ranges.
  destruct (n =? 0) eqn:E1; destruct (m =? 0) eqn:E2; cbn [orb]; bool_facts;
    try (split; [lia | reflexivity]).
  rewrite !u64_small by words. rewrite andb_false_iff, !Z.ltb_ge. lia.
Qed.

(** Where a program's sections fit: both inside memory, and disjoint. *)
Definition placeable (p : BinaryProgram) (m : Memory) (codeBase : Z) : Prop :=
  let n := Z.of_nat (length (code p)) in
  let k := Z.of_nat (length (data p)) in
  codeBase + n <= Memory_size m /\ data_base (header p) + k <= Memory_size m /\
  disjoint_ranges codeBase n (data_base (header p)) k.

Lemma validatePlacement_spec p m codeBase :
  0 <= codeBase -> 0 <= data_base (header p) -> Memory_size m < 2 ^ 64 ->
  BinaryLoader_validatePlacement p m codeBase = Ret tt <-> placeable p m codeBase.
Proof.
  intros Hc Hd Hm. unfold BinaryLoader_validatePlacement, placeable. cbv zeta.
  rewrite !Z.gtb_ltb.
  destruct (_ || (Memory_size m - codeBase <? _)) eqn:E1.
  { split; [discriminate|]. apply orb_true_iff in E1 as [E1|E1]; bool_facts; lia. }
  destruct (_ || (Memory_size m - data_base _ <? _)) eqn:E2.
  { split; [discriminate|]. apply orb_true_iff in E2 as [E2|E2]; bool_facts; lia. }
  bool_facts.
  pose proof (rangesOverlap_spec codeBase (Z.of_nat (length (code p))) (data_base (header p))
                (Z.of_nat (length (data p)))) as Ho.
  destruct (rangesOverlap _ _ _ _); (split; [try discriminate; intros _ | intros (_ & _ & Hdis)]).
  - exfalso. assert (true = false) by (apply Ho; lia || assumption). discriminate.
  - repeat split; try lia. apply Ho; lia || reflexivity.
  - reflexivity.
Qed.

Lemma validateProgram_ok p :
  program_ok p -> BinaryLoader_validateProgram p = Ret tt <-> endianness (header p) = BE_Little.
Proof.
  intros [[Hv He Hcs Hdb Hds Ha Hw Hi Hleg] Hc Hd _ _]. unfold BinaryLoader_validateProgram. cbv zeta.
  rewrite Hv. cbn [negb]. case_bool_decide as Hend; cbn [negb]; [|split; [discriminate | congruence]].
  split; [intros _; exact Hend | intros _].
  rewrite bool_decide_eq_false_2 by (intros E; rewrite E in Hc; cbn in Hc; words).
  unfold kInstructionAlignment. rewrite <- Hc, <- Hd, !Z.eqb_refl, Ha, Hw, Z.eqb_refl, Z.geb_leb,
    (proj2 (Z.leb_gt _ _)) by exact Hi. cbn [negb].
  destruct (isLegacyVersion _ _); [|reflexivity]. destruct Hleg as [H1 H2]; [reflexivity|].
  rewrite H1, H2. rewrite bool_decide_eq_true_2; [reflexivity|].
  destruct (data p); [reflexivity | cbn in Hd; lia].
Qed.

Lemma store_loop_0 m a f : store_loop m a 0 f = m.
Proof. reflexivity. Qed.

(** Past its checks, loading is the two copies. *)
Definition loaded_memory (p : BinaryProgram) (m : Memory) (codeBase : Z) : Memory :=
  store_loop
    (store_loop m (Z.to_nat (data_base (header p))) (length (data p)) (at_ (data p)))
    (Z.to_nat codeBase) (length (code p)) (at_ (code p)).

Lemma loadIntoMemory_run p m codeBase :
  program_ok p -> is_u64 codeBase -> Memory_size m < 2 ^ 64 ->
  endianness (header p) = BE_Little -> placeable p m codeBase ->
  BinaryLoader_loadIntoMemory p codeBase m =
  (Ret {| img_code_base := codeBase; img_entry_point := codeBase + entry_point (header p);
          img_code_size := Z.of_nat (length (code p)); img_data_base := data_base (header p);
          img_data_size := Z.of_nat (length (data p)) |}, loaded_memory p m codeBase).
Proof.
  intros Hok Hcb Hm Hend Hpl. pose proof Hok as [[_ He _ Hdb _ _ _ Hi _] Hc _ _ _].
  unfold BinaryLoader_loadIntoMemory. rewrite bind_run. unfold lift at 1.
  rewrite (proj2 (validateProgram_ok p Hok) Hend).
  rewrite bind_run. unfold get. rewrite bind_run. unfold lift at 1.
  rewrite (proj2 (validatePlacement_spec p m codeBase ltac:(words) ltac:(words) Hm) Hpl).
  destruct Hpl as (Hfc & Hfd & _).
  assert (Hstage : (if negb (bool_decide (data p = []))
                    then Memory_writeBytes m (data_base (header p)) (data p) else mret m)
     = Ret (store_loop m (Z.to_nat (data_base (header p))) (length (data p)) (at_ (data p)))).
  { case_bool_decide as Hnil; cbn [negb].
    - rewrite Hnil. reflexivity.
    - apply writeBytes_run. unfold in_range. words. }
  rewrite Hstage, bind_run. unfold lift at 1. rewrite bind_run. unfold lift.
  rewrite writeBytes_run by (unfold in_range; rewrite store_loop_size; words).
  rewrite bind_run. unfold modify, mret, M_ret. rewrite u64_small by words. reflexivity.
Qed.

Lemma loadIntoMemory_fail p m codeBase e m' :
  BinaryLoader_loadIntoMemory p codeBase m = (Throw e, m') -> m' = m.
Proof.
  unfold BinaryLoader_loadIntoMemory, lift, get, modify, mbind, M_bind. intros H.
  destruct (BinaryLoader_validateProgram p); [|congruence].
  destruct (BinaryLoader_validatePlacement p m codeBase); [|congruence].
  destruct (if negb _ then _ else _) as [staged|]; [|congruence].
  destruct (Memory_writeBytes staged _ _); [discriminate|congruence].
Qed.

(** Loading a well-formed program at [codeBase] succeeds exactly when the
    program is little-endian, both sections lie in memory and they do not
    overlap (addresses that wrap included).  It then returns the exact
    addresses, puts the code at [codeBase] and the data at its base address,
    and changes no other byte; when it fails, memory is unchanged. *)
Theorem loadIntoMemory_correct (p : BinaryProgram) (m : Memory) (codeBase : Z)
    (Hok : program_ok p) (Hcb : is_u64 codeBase) (Hm : Memory_size m < 2 ^ 64) :
  let n := length (code p) in
  let k := length (data p) in
  let dataBase := data_base (header p) in
  ((exists img, answer (BinaryLoader_loadIntoMemory p codeBase) m = Ret img) <->
   endianness (header p) = BE_Little /\ placeable p m codeBase) /\
  match BinaryLoader_loadIntoMemory p codeBase m with
  | (Ret img, m') =>
      img = {| img_code_base := codeBase; img_entry_point := codeBase + entry_point (header p);
               img_code_size := Z.of_nat n; img_data_base := dataBase; img_data_size := Z.of_nat k |} /\
      length m' = length m /\
      (forall i, (i < n)%nat -> m' !! (Z.to_nat codeBase + i)%nat = code p !! i) /\
      (forall i, (i < k)%nat -> m' !! (Z.to_nat dataBase + i)%nat = data p !! i) /\
      (forall j, (j < Z.to_nat codeBase \/ Z.to_nat codeBase + n <= j)%nat ->
                 (j < Z.to_nat dataBase \/ Z.to_nat dataBase + k <= j)%nat -> m' !! j = m !! j)
  | (Throw _, m') => m' = m
  end.
Proof.
  intros n k dataBase. pose proof Hok as [[_ _ _ Hdb _ _ _ _ _] _ _ _ _].
  assert (Hiff : (exists img, answer (BinaryLoader_loadIntoMemory p codeBase) m = Ret img) <->
                 endianness (header p) = BE_Little /\ placeable p m codeBase).
  { split.
    - intros [img H]. unfold answer, BinaryLoader_loadIntoMemory, lift, get in H. rewrite bind_run in H.
      destruct (BinaryLoader_validateProgram p) as [[]|] eqn:Hv; [|discriminate].
      rewrite !bind_run in H.
      destruct (BinaryLoader_validatePlacement p m codeBase) as [[]|] eqn:Hp; [|discriminate].
      split; [apply (validateProgram_ok p Hok), Hv | apply validatePlacement_spec; assumption || words].
    - intros [Hend Hpl]. unfold answer. rewrite loadIntoMemory_run by assumption. eexists. reflexivity. }
  split; [exact Hiff|]. destruct (BinaryLoader_loadIntoMemory p codeBase m) as [[img|e] m'] eqn:E;
    [|eapply loadIntoMemory_fail, E].
  destruct (proj1 Hiff) as [Hend Hpl]; [exists img; unfold answer; rewrite E; reflexivity|].
  rewrite loadIntoMemory_run in E by assumption. injection E as <- <-.
  destruct Hpl as (Hfc & Hfd & Hdis). unfold Memory_size, disjoint_ranges in *.
  fold n k dataBase in Hfc, Hfd, Hdis, Hdb. unfold loaded_memory. fold n k dataBase.
  split; [reflexivity|]. split; [rewrite !store_loop_length; reflexivity|].
  assert (Hat : forall l i, (i < length l)%nat -> Some (at_ l i) = l !! i).
  { intros l i Hi. destruct (lookup_lt_is_Some_2 l i Hi) as [x Hx]. rewrite Hx. f_equal. apply at_lookup, Hx. }
  split; [|split].
  - intros i Hi. rewrite store_loop_lookup_in by (rewrite ?store_loop_length; words). apply Hat, Hi.
  - intros i Hi. rewrite store_loop_lookup_out by words.
    rewrite store_loop_lookup_in by words. apply Hat, Hi.
  - intros j Hj1 Hj2. rewrite !store_loop_lookup_out by assumption. reflexivity.
Qed.

Definition small_program : BinaryProgram :=
  {| header := {| major_version := 0; minor_version := 3; endianness := BE_Little; entry_point := 0;
                  code_size := 24; data_base := 40; data_size := 1 |};
     code := replicate 24 1; data := [9] |}.

Lemma small_program_ok : program_ok small_program.
Proof.
  constructor; cbn; try reflexivity.
  - constructor; cbn; try reflexivity; try words; discriminate.
  - apply (bool_decide_unpack _). vm_compute. exact I.
  - apply (bool_decide_unpack _). vm_compute. exact I.
Qed.

Example loadIntoMemory_correct_witness :
  program_ok small_program /\ is_u64 16 /\ Memory_size (new_memory 64) < 2 ^ 64 /\
  exists img, answer (BinaryLoader_loadIntoMemory small_program 16) (new_memory 64) = Ret img.
Proof.
  assert (Hm : Memory_size (new_memory 64) < 2 ^ 64) by (cbv; reflexivity).
  assert (Hc : is_u64 16) by words.
  destruct (loadIntoMemory_correct small_program (new_memory 64) 16 small_program_ok Hc Hm) as [[_ Hok] _].
  split; [exact small_program_ok|]. split; [exact Hc|]. split; [exact Hm|].
  apply Hok. split; [reflexivity|]. split; [cbv; discriminate|]. split; [cbv; discriminate|].
  right; right; left. cbv. discriminate.
Defined.
