(* ===== verification/Interrupts.v ===== *)
(** * The interrupt controller and the timer

    Models [src/core/InterruptController.cpp] (masks, vector table, pending
    queue) and [src/core/TimerDevice.cpp] (a counter that raises a request
    every [interval] ticks).  Controllers are shared objects: the operations
    below are functions of one controller, and the file [Devices] puts them in
    the store the devices and the CPU share.  The main results: acknowledging
    removes exactly the first deliverable request and keeps the order of the
    others, and [n] ticks raise one request per multiple of the interval. *)

From S2P Require Import Prelude Words.
Open Scope Z_scope.

(** ** The interrupt controller *)

Record InterruptRequest := { req_vector : Z; req_payload : Z; req_source : string }.

#[export] Instance InterruptRequest_eq_dec : EqDecision InterruptRequest.
Proof. solve_decision. Defined.

(** [vector_table_] maps the vectors that have a handler; [masks_] is the set
    of masked vectors; [pending_] is the queue, oldest first. *)
Record InterruptController := {
  vector_table : gmap Z Z;
  masks : gset Z;
  pending : list InterruptRequest;
  global_enabled : bool;
}.

#[export] Instance InterruptController_eq_dec : EqDecision InterruptController.
Proof. solve_decision. Defined.

Definition InterruptController_clear : InterruptController :=
  {| vector_table := ∅; masks := ∅; pending := []; global_enabled := true |}.

#[export] Instance InterruptController_inhabited : Inhabited InterruptController :=
  populate InterruptController_clear.

Definition set_vector_table (t : gmap Z Z) (c : InterruptController) :=
  {| vector_table := t; masks := masks c; pending := pending c; global_enabled := global_enabled c |}.
Definition set_masks (m : gset Z) (c : InterruptController) :=
  {| vector_table := vector_table c; masks := m; pending := pending c; global_enabled := global_enabled c |}.
Definition set_pending (p : list InterruptRequest) (c : InterruptController) :=
  {| vector_table := vector_table c; masks := masks c; pending := p; global_enabled := global_enabled c |}.

Definition InterruptController_setGlobalEnabled (enabled : bool) (c : InterruptController) :=
  {| vector_table := vector_table c; masks := masks c; pending := pending c; global_enabled := enabled |}.

Definition InterruptController_mask (vector : Z) (c : InterruptController) :=
  set_masks ({[vector]} ∪ masks c) c.
Definition InterruptController_unmask (vector : Z) (c : InterruptController) :=
  set_masks (masks c ∖ {[vector]}) c.
Definition InterruptController_isMasked (c : InterruptController) (vector : Z) : bool :=
  bool_decide (vector ∈ masks c).

Definition InterruptController_setVectorHandler (vector handlerAddress : Z) (c : InterruptController) :=
  set_vector_table (<[vector := handlerAddress]> (vector_table c)) c.
Definition InterruptController_clearVectorHandler (vector : Z) (c : InterruptController) :=
  set_vector_table (delete vector (vector_table c)) c.
Definition InterruptController_hasVectorHandler (c : InterruptController) (vector : Z) : bool :=
  match vector_table c !! vector with Some _ => true | None => false end.

Definition InterruptController_vectorHandler (c : InterruptController) (vector : Z) : outcome Z :=
  match vector_table c !! vector with
  | None => throw (RuntimeError "Interrupt vector has no handler")
  | Some handler => mret handler
  end.

Definition InterruptController_request (vector payload : Z) (source : string)
    (c : InterruptController) : InterruptController :=
  let request := {| req_vector := vector; req_payload := payload; req_source := source |} in
  set_pending (pending c ++ [request]) c.

(** The test of the scan loop of [findDeliverable()]. *)
Definition deliverable (c : InterruptController) (r : InterruptRequest) : bool :=
  negb (InterruptController_isMasked c (req_vector r))
  && InterruptController_hasVectorHandler c (req_vector r).

(** The iterator returned, as an index; [None] is [pending_.end()]. *)
Definition InterruptController_findDeliverable (c : InterruptController)
    : option (nat * InterruptRequest) :=
  if negb (global_enabled c) then None
  else list_find (fun r => deliverable c r = true) (pending c).

(** The overload for one vector and source: it does not ask for a handler. *)
Definition InterruptController_findDeliverable_for (c : InterruptController) (vector : Z) (source : string)
    : option (nat * InterruptRequest) :=
  if negb (global_enabled c) || InterruptController_isMasked c vector then None
  else list_find (fun r => req_vector r = vector /\ req_source r = source) (pending c).

Definition InterruptController_hasPending (c : InterruptController) : bool :=
  match InterruptController_findDeliverable c with Some _ => true | None => false end.
Definition InterruptController_hasPending_for (c : InterruptController) (vector : Z) (source : string) : bool :=
  match InterruptController_findDeliverable_for c vector source with Some _ => true | None => false end.

Definition InterruptController_pendingCount (c : InterruptController) : Z :=
  Z.of_nat (length (pending c)).

Definition InterruptController_acknowledge : M InterruptController InterruptRequest :=
  c ← get;
  match InterruptController_findDeliverable c with
  | None => throw (RuntimeError "No deliverable interrupt request")
  | Some (it, request) =>
      _ ← modify (set_pending (delete it (pending c)));
      mret request
  end.

Definition InterruptController_acknowledge_for (vector : Z) (source : string)
    : M InterruptController InterruptRequest :=
  c ← get;
  match InterruptController_findDeliverable_for c vector source with
  | None => throw (RuntimeError "No matching deliverable interrupt request")
  | Some (it, request) =>
      _ ← modify (set_pending (delete it (pending c)));
      mret request
  end.

(** ** The timer *)

Record TimerDevice := {
  tmr_controller : nat;
  tmr_vector : Z;
  tmr_interval : Z;
  tmr_tick_count : Z;
  tmr_interrupt_count : Z;
  tmr_payload : Z;
  tmr_enabled : bool;
}.

#[export] Instance TimerDevice_eq_dec : EqDecision TimerDevice.
Proof. solve_decision. Defined.

Definition kTickCountOffset : Z := 0.
Definition kIntervalOffset : Z := 8.
Definition kEnabledOffset : Z := 16.
Definition kVectorOffset : Z := 24.
Definition kPayloadOffset : Z := 32.
Definition kInterruptCountOffset : Z := 40.

(** The constructor: the reference to the controller may be null. *)
Definition new_TimerDevice (controller : option nat) (vector interval payload : Z) : outcome TimerDevice :=
  match controller with
  | None => throw (RuntimeError "TimerDevice requires a valid InterruptController")
  | Some controller =>
      if interval =? 0 then throw (RuntimeError "TimerDevice interval must be greater than zero")
      else mret {| tmr_controller := controller; tmr_vector := vector; tmr_interval := interval;
                   tmr_tick_count := 0; tmr_interrupt_count := 0; tmr_payload := payload;
                   tmr_enabled := true |}
  end.

#[export] Instance TimerDevice_inhabited : Inhabited TimerDevice :=
  populate {| tmr_controller := 0; tmr_vector := 0; tmr_interval := 1; tmr_tick_count := 0;
              tmr_interrupt_count := 0; tmr_payload := 0; tmr_enabled := true |}.

(** Assignments to the fields. *)
Definition tmr_update (t : TimerDevice) (vector interval ticks interrupts payload : Z) (enabled : bool) :=
  {| tmr_controller := tmr_controller t; tmr_vector := vector; tmr_interval := interval;
     tmr_tick_count := ticks; tmr_interrupt_count := interrupts; tmr_payload := payload;
     tmr_enabled := enabled |}.

Definition set_tick_count (n : Z) (t : TimerDevice) :=
  tmr_update t (tmr_vector t) (tmr_interval t) n (tmr_interrupt_count t) (tmr_payload t) (tmr_enabled t).
Definition set_interval (n : Z) (t : TimerDevice) :=
  tmr_update t (tmr_vector t) n (tmr_tick_count t) (tmr_interrupt_count t) (tmr_payload t) (tmr_enabled t).
Definition set_enabled (b : bool) (t : TimerDevice) :=
  tmr_update t (tmr_vector t) (tmr_interval t) (tmr_tick_count t) (tmr_interrupt_count t) (tmr_payload t) b.
Definition set_vector (v : Z) (t : TimerDevice) :=
  tmr_update t v (tmr_interval t) (tmr_tick_count t) (tmr_interrupt_count t) (tmr_payload t) (tmr_enabled t).
Definition set_payload (v : Z) (t : TimerDevice) :=
  tmr_update t (tmr_vector t) (tmr_interval t) (tmr_tick_count t) (tmr_interrupt_count t) v (tmr_enabled t).
Definition set_interrupt_count (n : Z) (t : TimerDevice) :=
  tmr_update t (tmr_vector t) (tmr_interval t) (tmr_tick_count t) n (tmr_payload t) (tmr_enabled t).

Definition TimerDevice_reset (t : TimerDevice) : TimerDevice :=
  set_enabled true (set_interrupt_count 0 (set_tick_count 0 t)).

Definition TimerDevice_setInterval (interval : Z) (t : TimerDevice) : outcome TimerDevice :=
  if interval =? 0 then throw (RuntimeError "TimerDevice interval must be greater than zero")
  else mret (set_interval interval t).

Definition TimerDevice_read (t : TimerDevice) (offset : Z) : outcome Z :=
  if offset =? kTickCountOffset then mret (i64 (tmr_tick_count t))
  else if offset =? kIntervalOffset then mret (i64 (tmr_interval t))
  else if offset =? kEnabledOffset then mret (if tmr_enabled t then 1 else 0)
  else if offset =? kVectorOffset then mret (tmr_vector t)
  else if offset =? kPayloadOffset then mret (tmr_payload t)
  else if offset =? kInterruptCountOffset then mret (i64 (tmr_interrupt_count t))
  else throw (RuntimeError "Unsupported TimerDevice read offset").

Definition TimerDevice_write (offset value : Z) (t : TimerDevice) : outcome TimerDevice :=
  if offset =? kTickCountOffset then
    if value <? 0 then throw (RuntimeError "TimerDevice tick count must not be negative")
    else mret (set_tick_count (u64 value) t)
  else if offset =? kIntervalOffset then
    if value <=? 0 then throw (RuntimeError "TimerDevice interval must be greater than zero")
    else mret (set_interval (u64 value) t)
  else if offset =? kEnabledOffset then mret (set_enabled (negb (value =? 0)) t)
  else if offset =? kVectorOffset then
    if (value <? 0) || (value >? 255)
    then throw (RuntimeError "TimerDevice vector must be in range 0..255")
    else mret (set_vector (u8 value) t)
  else if offset =? kPayloadOffset then mret (set_payload value t)
  else if offset =? kInterruptCountOffset then
    if negb (value =? 0)
    then throw (RuntimeError "TimerDevice interrupt count register only accepts 0 for reset")
    else mret (set_interrupt_count 0 t)
  else throw (RuntimeError "Unsupported TimerDevice write offset").

(** Ticking reads and writes the timer and its controller. *)
Definition TimerDevice_maybeRequestInterrupt : M (TimerDevice * InterruptController) unit :=
  '(t, c) ← get;
  if negb (tmr_enabled t) then mret tt
  else if tmr_interval t =? 0 then throw (RuntimeError "TimerDevice interval must be greater than zero")
  else if negb (tmr_tick_count t mod tmr_interval t =? 0) then mret tt
  else
    modify (fun _ => (set_interrupt_count (u64 (tmr_interrupt_count t + 1)) t,
                      InterruptController_request (tmr_vector t) (tmr_payload t) "timer" c)).

Definition TimerDevice_tick : M (TimerDevice * InterruptController) unit :=
  '(t, c) ← get;
  if tmr_tick_count t =? UINT64_MAX then throw (RuntimeError "TimerDevice tick counter overflow")
  else
    _ ← modify (fun _ => (set_tick_count (tmr_tick_count t + 1) t, c));
    TimerDevice_maybeRequestInterrupt.

(** [tick(count)]: the loop stops at the first throw. *)
Fixpoint TimerDevice_tick_n (count : nat) : M (TimerDevice * InterruptController) unit :=
  match count with
  | O => mret tt
  | S n => _ ← TimerDevice_tick; TimerDevice_tick_n n
  end.

(** ** Lemmas *)

Lemma list_find_delete {A} (P : A -> Prop) `{forall x, Decision (P x)} l i x :
  list_find P l = Some (i, x) ->
  exists l1 l2, l = l1 ++ x :: l2 /\ P x /\ Forall (fun y => ~ P y) l1 /\ delete i l = l1 ++ l2.
Proof.
  intros Hf. apply list_find_Some in Hf as (Hi & HP & Hbefore).
  exists (take i l), (drop (S i) l). split; [symmetry; apply take_drop_middle, Hi|].
  split; [exact HP|]. split; [|apply delete_take_drop].
  apply Forall_lookup. intros j y Hj. apply lookup_take_Some in Hj as [Hj Hlt]. eauto.
Qed.

(** What it means to take the first element that satisfies a test. *)
Definition takes_first (P : InterruptRequest -> Prop) (c c' : InterruptController) (r : InterruptRequest) : Prop :=
  exists l1 l2, pending c = l1 ++ r :: l2 /\ P r /\ Forall (fun x => ~ P x) l1 /\
                c' = set_pending (l1 ++ l2) c.

(** ** Properties *)

(** [acknowledge] returns the oldest request that is deliverable (global
    interrupts on, its vector unmasked and with a handler), removes exactly that
    one and keeps the others in order; it throws, changing nothing, exactly when
    no request is deliverable, which is what [hasPending] answers.  The overload
    for a vector and a source does the same with its own test. *)
Theorem acknowledge_takes_first (c : InterruptController) (vector : Z) (source : string) :
  match InterruptController_acknowledge c with
  | (Ret r, c') =>
      InterruptController_hasPending c = true /\ global_enabled c = true /\
      takes_first (fun x => deliverable c x = true) c c' r
  | (Throw _, c') =>
      InterruptController_hasPending c = false /\ c' = c /\
      (global_enabled c = false \/ Forall (fun x => deliverable c x <> true) (pending c))
  end /\
  match InterruptController_acknowledge_for vector source c with
  | (Ret r, c') =>
      InterruptController_hasPending_for c vector source = true /\ global_enabled c = true /\
      (vector ∉ masks c) /\
      takes_first (fun x => req_vector x = vector /\ req_source x = source) c c' r
  | (Throw _, c') =>
      InterruptController_hasPending_for c vector source = false /\ c' = c
  end.
Proof.
  unfold InterruptController_acknowledge, InterruptController_hasPending,
    InterruptController_acknowledge_for, InterruptController_hasPending_for. split.
  - rewrite bind_run. cbn [get]. unfold InterruptController_findDeliverable.
    destruct (global_enabled c) eqn:Hg; cbn [negb]; [|split; auto].
    destruct (list_find _ (pending c)) as [[i r]|] eqn:Hf.
    + rewrite bind_run. cbn [modify]. apply list_find_delete in Hf as (l1 & l2 & Hp & HP & Hno & Hd).
      split; [reflexivity|]. split; [reflexivity|]. exists l1, l2. rewrite Hd. auto.
    + apply list_find_None in Hf. split; auto.
  - rewrite bind_run. cbn [get]. unfold InterruptController_findDeliverable_for.
    destruct (global_enabled c) eqn:Hg; cbn [negb orb]; [|split; auto].
    unfold InterruptController_isMasked. case_bool_decide as Hm; [split; auto|].
    destruct (list_find _ (pending c)) as [[i r]|] eqn:Hf; [|split; auto].
    rewrite bind_run. cbn [modify]. apply list_find_delete in Hf as (l1 & l2 & Hp & HP & Hno & Hd).
    split; [reflexivity|]. split; [reflexivity|]. split; [exact Hm|]. exists l1, l2. rewrite Hd. auto.
Qed.

Lemma multiples_step c i :
  0 < i -> 0 <= c -> (c + 1) / i - c / i = if (c + 1) mod i =? 0 then 1 else 0.
Proof.
  intros Hi Hc. pose proof (Z.div_mod c i ltac:(lia)) as H0.
  pose proof (Z.mod_pos_bound c i Hi) as Hr0.
  destruct (Z.eqb_spec ((c + 1) mod i) 0) as [E|E].
  - pose proof (Z.div_mod (c + 1) i ltac:(lia)) as H1. rewrite E in H1. nia.
  - pose proof (Z.div_mod (c + 1) i ltac:(lia)) as H1.
    pose proof (Z.mod_pos_bound (c + 1) i Hi) as Hr1. nia.
Qed.

(** The requests [n] ticks raise: one per multiple of the interval passed. *)
Definition timer_requests (t : TimerDevice) (n : nat) : nat :=
  if tmr_enabled t
  then Z.to_nat ((tmr_tick_count t + Z.of_nat n) / tmr_interval t - tmr_tick_count t / tmr_interval t)
  else 0%nat.

Definition timer_request (t : TimerDevice) : InterruptRequest :=
  {| req_vector := tmr_vector t; req_payload := tmr_payload t; req_source := "timer" |}.

Lemma tick_step t c :
  0 < tmr_interval t -> 0 <= tmr_tick_count t < UINT64_MAX -> is_u64 (tmr_interrupt_count t) ->
  TimerDevice_tick (t, c) =
  (Ret tt, (set_interrupt_count (u64 (tmr_interrupt_count t + Z.of_nat (timer_requests t 1)))
              (set_tick_count (tmr_tick_count t + 1) t),
            set_pending (pending c ++ replicate (timer_requests t 1) (timer_request t)) c)).
Proof.
  intros Hi Ht Hc. unfold TimerDevice_tick. rewrite bind_run. cbn [get].
  rewrite (proj2 (Z.eqb_neq _ _)) by words. rewrite bind_run. cbn [modify].
  unfold TimerDevice_maybeRequestInterrupt. rewrite bind_run. cbn [get].
  unfold timer_requests. destruct t as [k v i tc ic p en]; cbn in *.
  destruct c as [vt ms pd ge]; cbn. destruct en; cbn.
  - rewrite (proj2 (Z.eqb_neq i 0)) by lia. rewrite multiples_step by lia.
    destruct (_ =? 0); cbn; [reflexivity|]. rewrite Z.add_0_r, u64_small, app_nil_r by exact Hc. reflexivity.
  - rewrite Z.add_0_r, u64_small, app_nil_r by exact Hc. reflexivity.
Qed.

Lemma timer_requests_S t n :
  0 < tmr_interval t -> 0 <= tmr_tick_count t ->
  timer_requests t (S n) =
  (timer_requests t 1 + timer_requests (set_tick_count (tmr_tick_count t + 1) t) n)%nat.
Proof.
  intros Hi Ht. unfold timer_requests; cbn. destruct (tmr_enabled t); [|reflexivity].
  pose proof (multiples_step (tmr_tick_count t) (tmr_interval t) Hi Ht) as Hstep.
  assert (Hmono : (tmr_tick_count t + 1) / tmr_interval t <=
                  (tmr_tick_count t + 1 + Z.of_nat n) / tmr_interval t) by (apply Z.div_le_mono; lia).
  change (Z.of_nat 1) with 1.
  replace (tmr_tick_count t + Z.of_nat (S n)) with (tmr_tick_count t + 1 + Z.of_nat n) by lia.
  revert Hstep Hmono. generalize (tmr_tick_count t / tmr_interval t)
    ((tmr_tick_count t + 1) / tmr_interval t) ((tmr_tick_count t + 1 + Z.of_nat n) / tmr_interval t).
  intros a b d Hstep Hmono. destruct (_ =? 0); lia.
Qed.

(** From a timer with a positive interval, [n] ticks that do not overflow
    the counter advance it by [n] and append to the controller's queue exactly
    one request (the timer's vector and payload, source "timer") for each
    multiple of the interval passed, or none when the timer is disabled; nothing
    else in the controller changes. *)
Theorem timer_is_periodic (n : nat) (t : TimerDevice) (c : InterruptController)
    (Hi : 0 < tmr_interval t) (Ht : 0 <= tmr_tick_count t)
    (Hmax : tmr_tick_count t + Z.of_nat n <= UINT64_MAX) (Hc : is_u64 (tmr_interrupt_count t)) :
  TimerDevice_tick_n n (t, c) =
  (Ret tt, (set_interrupt_count (u64 (tmr_interrupt_count t + Z.of_nat (timer_requests t n)))
              (set_tick_count (tmr_tick_count t + Z.of_nat n) t),
            set_pending (pending c ++ replicate (timer_requests t n) (timer_request t)) c)).
Proof.
  revert t c Hi Ht Hmax Hc. induction n as [|n IH]; intros t c Hi Ht Hmax Hc.
  - assert (Hz : timer_requests t 0 = 0%nat).
    { unfold timer_requests. rewrite Z.add_0_r, Z.sub_diag. destruct (tmr_enabled t); reflexivity. }
    rewrite Hz. cbn. rewrite !Z.add_0_r, u64_small, app_nil_r by exact Hc.
    destruct t, c. reflexivity.
  - cbn [TimerDevice_tick_n]. rewrite bind_run, tick_step by words.
    rewrite IH; cbn [set_interrupt_count set_tick_count tmr_update tmr_interval tmr_tick_count
                     tmr_interrupt_count]; [|lia|lia|lia|apply u64_range].
    rewrite (timer_requests_S t n) by lia.
    set (k := timer_requests t 1).
    replace (timer_requests (set_interrupt_count _ _) n)
      with (timer_requests (set_tick_count (tmr_tick_count t + 1) t) n) by reflexivity.
    set (k' := timer_requests _ n). cbn [set_pending pending].
    rewrite <- app_assoc, <- replicate_add.
    replace (timer_request (set_interrupt_count _ _)) with (timer_request t) by reflexivity.
    replace (u64 (u64 (tmr_interrupt_count t + Z.of_nat k) + Z.of_nat k'))
      with (u64 (tmr_interrupt_count t + Z.of_nat (k + k')))
      by (unfold u64; rewrite Zplus_mod_idemp_l; f_equal; lia).
    replace (tmr_tick_count t + 1 + Z.of_nat n) with (tmr_tick_count t + Z.of_nat (S n)) by lia.
    destruct t, c. reflexivity.
Qed.

Example timer_is_periodic_witness :
  match new_TimerDevice (Some 0%nat) 32 3 7 with
  | Ret t => 0 < tmr_interval t /\
      exists t' c', TimerDevice_tick_n 7 (t, InterruptController_clear) = (Ret tt, (t', c')) /\
        pending c' = replicate 2 {| req_vector := 32; req_payload := 7; req_source := "timer" |}
  | Throw _ => False
  end.
Proof.
  cbn [new_TimerDevice Z.eqb]. split; [cbn; lia|]. eexists. eexists. split.
  - apply timer_is_periodic; cbn; words.
  - reflexivity.
Defined.
