(* ===== verification/Protocol.v ===== *)
(** * The hardware protocol: [src/hardware/HardwareProtocol.cpp]

    One line of text per request and response.  The main result: what one side
    formats, the other side parses to what was meant, for all registers, values
    and error messages of one line; and whatever is parsed is inside the types of
    the C++. *)

From S2P Require Import Prelude Words Text.
Open Scope Z_scope.
#[local] Arguments String.append : simpl nomatch.

(** ** Messages *)

Inductive HardwareProtocolRequestType := Request_Ping | Request_Read | Request_Write.

Record HardwareProtocolRequest := { req_type : HardwareProtocolRequestType; req_offset : Z; req_value : Z }.

Inductive HardwareProtocolResponseType := Response_Pong | Response_Ok | Response_Value | Response_Error.

#[export] Instance HardwareProtocolResponseType_eq_dec : EqDecision HardwareProtocolResponseType.
Proof. solve_decision. Defined.

Record HardwareProtocolResponse := { resp_type : HardwareProtocolResponseType; resp_value : Z; resp_message : string }.

(** ** Formatting *)

Definition kVersion : string := "ZEROCPU/1".
Definition line_end : string := String newline EmptyString.

Definition pingRequest : string := kVersion +:+ " PING" +:+ line_end.
Definition readRequest (offset : Z) : string := kVersion +:+ " READ " +:+ pretty offset +:+ line_end.
Definition writeRequest (offset value : Z) : string :=
  kVersion +:+ " WRITE " +:+ pretty offset +:+ " " +:+ pretty value +:+ line_end.
Definition pongResponse : string := kVersion +:+ " PONG" +:+ line_end.
Definition okResponse : string := kVersion +:+ " OK" +:+ line_end.
Definition valueResponse (value : Z) : string := kVersion +:+ " VALUE " +:+ pretty value +:+ line_end.
Definition errorResponse (message : string) : string := kVersion +:+ " ERROR " +:+ message +:+ line_end.

(** ** Parsing *)

Definition line_ending (ch : ascii) : bool := bool_decide (ch = newline) || bool_decide (ch = "013"%char).

Fixpoint trimLineEndings (text : string) : string :=
  match text with
  | EmptyString => EmptyString
  | String ch rest =>
      let rest := trimLineEndings rest in
      if empty rest && line_ending ch then EmptyString else String ch rest
  end.

Definition requireNoExtraToken (stream : string) : outcome unit :=
  throw_if (negb (empty (next_word stream).1)) (RuntimeError "Hardware protocol message has extra fields").

Definition parseOffset (text : string) : outcome Z :=
  '(value, parsed) ← stoull read_decimal text;
  _ ← throw_if (negb (parsed =? String.length text)%nat) (RuntimeError "Invalid hardware register offset");
  mret value.

Definition parseValue (text : string) : outcome Z :=
  '(value, parsed) ← stoll read_decimal text;
  _ ← throw_if (negb (parsed =? String.length text)%nat) (RuntimeError "Invalid hardware register value");
  mret value.

Definition requireVersion (version : string) : outcome unit :=
  throw_if (negb (bool_decide (version = kVersion))) (RuntimeError ("Unsupported hardware protocol version: " +:+ version)).

Definition parseRequest (text : string) : outcome HardwareProtocolRequest :=
  let '(version, stream) := next_word (trimLineEndings text) in
  let '(command, stream) := next_word stream in
  _ ← throw_if (empty version || empty command) (RuntimeError "Malformed hardware protocol request");
  _ ← requireVersion version;
  if bool_decide (command = "PING"%string) then
    _ ← requireNoExtraToken stream;
    mret {| req_type := Request_Ping; req_offset := 0; req_value := 0 |}
  else if bool_decide (command = "READ"%string) then
    let '(offsetText, stream) := next_word stream in
    _ ← throw_if (empty offsetText) (RuntimeError "READ request requires an offset");
    _ ← requireNoExtraToken stream;
    offset ← parseOffset offsetText;
    mret {| req_type := Request_Read; req_offset := offset; req_value := 0 |}
  else if bool_decide (command = "WRITE"%string) then
    let '(offsetText, stream) := next_word stream in
    let '(valueText, stream) := next_word stream in
    _ ← throw_if (empty offsetText || empty valueText) (RuntimeError "WRITE request requires offset and value");
    _ ← requireNoExtraToken stream;
    offset ← parseOffset offsetText;
    value ← parseValue valueText;
    mret {| req_type := Request_Write; req_offset := offset; req_value := value |}
  else throw (RuntimeError ("Unknown hardware protocol request: " +:+ command)).

Definition parseResponse (text : string) : outcome HardwareProtocolResponse :=
  let '(version, stream) := next_word (trimLineEndings text) in
  let '(command, stream) := next_word stream in
  _ ← throw_if (empty version || empty command) (RuntimeError "Malformed hardware protocol response");
  _ ← requireVersion version;
  if bool_decide (command = "PONG"%string) then
    _ ← requireNoExtraToken stream;
    mret {| resp_type := Response_Pong; resp_value := 0; resp_message := EmptyString |}
  else if bool_decide (command = "OK"%string) then
    _ ← requireNoExtraToken stream;
    mret {| resp_type := Response_Ok; resp_value := 0; resp_message := EmptyString |}
  else if bool_decide (command = "VALUE"%string) then
    let '(valueText, stream) := next_word stream in
    _ ← throw_if (empty valueText) (RuntimeError "VALUE response requires a value");
    _ ← requireNoExtraToken stream;
    value ← parseValue valueText;
    mret {| resp_type := Response_Value; resp_value := value; resp_message := EmptyString |}
  else if bool_decide (command = "ERROR"%string) then
    let message := rest_of_line stream in
    let message := match message with String " " rest => rest | _ => message end in
    let message := if empty message then "unspecified device error"%string else message in
    mret {| resp_type := Response_Error; resp_value := 0; resp_message := message |}
  else throw (RuntimeError ("Unknown hardware protocol response: " +:+ command)).

(** ** Lemmas: line endings and fields *)

Lemma trimLineEndings_line s : trimLineEndings (s +:+ line_end) = trimLineEndings s.
Proof. induction s as [|c s IH]; [reflexivity|]. cbn. rewrite IH. reflexivity. Qed.

Lemma trimLineEndings_append a s : s <> EmptyString -> trimLineEndings s = s -> trimLineEndings (a +:+ s) = a +:+ s.
Proof.
  intros Hne Hs. induction a as [|c a IH]; cbn; [exact Hs|]. rewrite IH.
  destruct (a +:+ s) eqn:E; [destruct a; cbn in E; congruence | reflexivity].
Qed.

Lemma nonspace_line_ending ch : nonspace ch = true -> line_ending ch = false.
Proof. revert ch. by_char. Qed.

Lemma trimLineEndings_word s : all_chars nonspace s = true -> trimLineEndings s = s.
Proof.
  induction s as [|c s IH]; [reflexivity|]. intros Hs. cbn in Hs. apply andb_true_iff in Hs as [Hc Hs].
  cbn. rewrite (IH Hs), (nonspace_line_ending c Hc), andb_false_r. reflexivity.
Qed.

Lemma digit_nonspace ch : isdigit ch = true -> nonspace ch = true.
Proof. revert ch. by_char. Qed.

Lemma pretty_word (z : Z) : all_chars nonspace (pretty z) = true /\ pretty z <> EmptyString.
Proof.
  destruct z as [|x|x]; [split; [reflexivity | discriminate]| |];
    destruct (read_pretty read_decimal (Npos x)) as (_ & Hd & Hne);
    pose proof (all_chars_impl _ _ _ digit_nonspace Hd) as Hn; split; try assumption. discriminate.
Qed.

Lemma next_word_skip s : next_word (String " " s) = next_word s.
Proof. unfold next_word. cbn [span]. change (isspace " ") with true. cbv iota. destruct (span isspace s); reflexivity. Qed.

Lemma parseOffset_pretty z : is_u64 z -> parseOffset (pretty z) = Ret z.
Proof. intros Hz. unfold parseOffset. rewrite (stoull_pretty read_decimal) by exact Hz. cbn. rewrite Nat.eqb_refl. reflexivity. Qed.

Lemma parseValue_pretty z : is_i64 z -> parseValue (pretty z) = Ret z.
Proof. intros Hz. unfold parseValue. rewrite (stoll_pretty read_decimal) by exact Hz. cbn. rewrite Nat.eqb_refl. reflexivity. Qed.

Lemma parseOffset_range text z : parseOffset text = Ret z -> is_u64 z.
Proof.
  unfold parseOffset. intros H. apply bind_ret_inv in H as ([v n] & Hs & H). apply throw_if_bind_inv in H as [_ [= <-]].
  exact (stoull_range _ _ _ Hs).
Qed.

Lemma parseValue_range text z : parseValue text = Ret z -> is_i64 z.
Proof.
  unfold parseValue. intros H. apply bind_ret_inv in H as ([v n] & Hs & H). apply throw_if_bind_inv in H as [_ [= <-]].
  exact (stoll_range _ _ _ _ Hs).
Qed.

(** One more word of a message, and no more. *)
Lemma last_word z : next_word (String " " (pretty (z : Z))) = (pretty z, EmptyString) /\ empty (pretty z) = false.
Proof.
  destruct (pretty_word z) as [Hw Hne]. rewrite next_word_skip, next_word_whole by exact Hw.
  split; [reflexivity | destruct (pretty z); [contradiction Hne; reflexivity | reflexivity]].
Qed.

Lemma more_words z rest :
  next_word (String " " (pretty (z : Z) +:+ String " " rest)) = (pretty z, String " " rest) /\ empty (pretty z) = false.
Proof.
  destruct (pretty_word z) as [Hw Hne]. rewrite next_word_skip, next_word_space by assumption.
  split; [reflexivity | destruct (pretty z); [contradiction Hne; reflexivity | reflexivity]].
Qed.

Lemma trim_pretty a z : trimLineEndings (a +:+ pretty (z : Z)) = a +:+ pretty z.
Proof.
  destruct (pretty_word z) as [Hw Hne]. apply trimLineEndings_append; [exact Hne | apply trimLineEndings_word, Hw].
Qed.

(** ** Specification: the messages that can be meant *)

Definition request_ok (r : HardwareProtocolRequest) : Prop :=
  match req_type r with
  | Request_Ping => req_offset r = 0 /\ req_value r = 0
  | Request_Read => is_u64 (req_offset r) /\ req_value r = 0
  | Request_Write => is_u64 (req_offset r) /\ is_i64 (req_value r)
  end.

Definition format_request (r : HardwareProtocolRequest) : string :=
  match req_type r with
  | Request_Ping => pingRequest
  | Request_Read => readRequest (req_offset r)
  | Request_Write => writeRequest (req_offset r) (req_value r)
  end.

(** An error message is on one line, and not empty. *)
Definition one_line (message : string) : Prop :=
  message <> EmptyString /\ all_chars (fun ch => negb (bool_decide (ch = newline))) message = true.

Definition response_ok (r : HardwareProtocolResponse) : Prop :=
  match resp_type r with
  | Response_Pong | Response_Ok => resp_value r = 0 /\ resp_message r = EmptyString
  | Response_Value => is_i64 (resp_value r) /\ resp_message r = EmptyString
  | Response_Error => resp_value r = 0 /\ one_line (resp_message r)
  end.

Definition format_response (r : HardwareProtocolResponse) : string :=
  match resp_type r with
  | Response_Pong => pongResponse
  | Response_Ok => okResponse
  | Response_Value => valueResponse (resp_value r)
  | Response_Error => errorResponse (resp_message r)
  end.

(** The version and the command of a message are read off. *)
Lemma read_command command rest : all_chars nonspace command = true -> command <> EmptyString ->
  next_word (kVersion +:+ " " +:+ command +:+ String " " rest) = (kVersion, " " +:+ command +:+ String " " rest) /\
  next_word (" " +:+ command +:+ String " " rest) = (command, String " " rest).
Proof.
  intros Hc Hne. change (" " +:+ command +:+ String " " rest) with (String " " (command +:+ String " " rest)). split.
  - apply next_word_space; [reflexivity | discriminate].
  - rewrite next_word_skip. apply next_word_space; assumption.
Qed.

Lemma parse_read offset : is_u64 offset ->
  parseRequest (readRequest offset) = Ret {| req_type := Request_Read; req_offset := offset; req_value := 0 |}.
Proof.
  intros Hz. unfold parseRequest, readRequest. rewrite !append_assoc, trimLineEndings_line, trim_pretty, <- append_assoc.
  destruct (read_command "READ" (pretty offset) eq_refl ltac:(discriminate)) as [E1 E2].
  change (" READ " +:+ pretty offset) with (" " +:+ "READ" +:+ String " " (pretty offset)). rewrite E1, E2.
  destruct (last_word offset) as [E3 E4]. cbn -[next_word]. rewrite E3, E4. cbn. rewrite parseOffset_pretty by exact Hz. reflexivity.
Qed.

Lemma parse_write offset value : is_u64 offset -> is_i64 value ->
  parseRequest (writeRequest offset value) = Ret {| req_type := Request_Write; req_offset := offset; req_value := value |}.
Proof.
  intros Ho Hv. unfold parseRequest, writeRequest. rewrite !append_assoc, trimLineEndings_line, trim_pretty, <- !append_assoc.
  set (rest := pretty offset +:+ String " " (pretty value)).
  destruct (read_command "WRITE" rest eq_refl ltac:(discriminate)) as [E1 E2].
  change (" WRITE " +:+ pretty offset +:+ " " +:+ pretty value) with (" " +:+ "WRITE" +:+ String " " rest). rewrite E1, E2.
  unfold rest. destruct (more_words offset (pretty value)) as [E3 E4]. destruct (last_word value) as [E5 E6].
  cbn -[next_word]. rewrite E3, E5, E4, E6. cbn. rewrite parseOffset_pretty, parseValue_pretty by assumption. reflexivity.
Qed.

Lemma parse_value value : is_i64 value ->
  parseResponse (valueResponse value) = Ret {| resp_type := Response_Value; resp_value := value; resp_message := EmptyString |}.
Proof.
  intros Hv. unfold parseResponse, valueResponse. rewrite !append_assoc, trimLineEndings_line, trim_pretty, <- append_assoc.
  destruct (read_command "VALUE" (pretty value) eq_refl ltac:(discriminate)) as [E1 E2].
  change (" VALUE " +:+ pretty value) with (" " +:+ "VALUE" +:+ String " " (pretty value)). rewrite E1, E2.
  destruct (last_word value) as [E3 E4]. cbn -[next_word]. rewrite E3, E4. cbn. rewrite parseValue_pretty by exact Hv. reflexivity.
Qed.

Lemma parse_error message : one_line message -> trimLineEndings message = message ->
  parseResponse (errorResponse message) = Ret {| resp_type := Response_Error; resp_value := 0; resp_message := message |}.
Proof.
  intros [Hne Hl] Ht. unfold parseResponse, errorResponse. rewrite !append_assoc, trimLineEndings_line.
  rewrite trimLineEndings_append, <- append_assoc by assumption.
  destruct (read_command "ERROR" message eq_refl ltac:(discriminate)) as [E1 E2].
  change (" ERROR " +:+ message) with (" " +:+ "ERROR" +:+ String " " message). rewrite E1, E2.
  assert (Hr : rest_of_line (String " " message) = String " " message).
  { unfold rest_of_line. rewrite span_all; [reflexivity|]. cbn. exact Hl. }
  cbn -[rest_of_line]. rewrite Hr. destruct message; [contradiction Hne; reflexivity | reflexivity].
Qed.

Lemma parseRequest_ok text r : parseRequest text = Ret r -> request_ok r.
Proof.
  unfold parseRequest. destruct (next_word _) as [version s1]. destruct (next_word s1) as [command s2].
  rewrite !unit_bind_inv. intros (_ & _ & H).
  destruct (bool_decide (command = "PING"%string)); [apply unit_bind_inv in H as [_ [= <-]]; cbn; auto|].
  destruct (bool_decide (command = "READ"%string)).
  { destruct (next_word s2) as [w s3]. rewrite !unit_bind_inv in H. destruct H as (_ & _ & H).
    apply bind_ret_inv in H as (o & Ho & [= <-]). apply parseOffset_range in Ho. cbn. auto. }
  destruct (bool_decide (command = "WRITE"%string)); [|discriminate].
  destruct (next_word s2) as [w s3]. destruct (next_word s3) as [w' s4]. rewrite !unit_bind_inv in H. destruct H as (_ & _ & H).
  apply bind_ret_inv in H as (o & Ho & H). apply bind_ret_inv in H as (v & Hv & [= <-]).
  apply parseOffset_range in Ho. apply parseValue_range in Hv. cbn. auto.
Qed.

Lemma span_class p s : all_chars p (span p s).1 = true.
Proof. induction s as [|c s IH]; cbn; [reflexivity|]. destruct (p c) eqn:E; [|reflexivity]. destruct (span p s). cbn in *. rewrite E. exact IH. Qed.

Lemma error_message_one_line stream :
  one_line (let message := rest_of_line stream in
            let message := match message with String " " rest => rest | _ => message end in
            if empty message then "unspecified device error"%string else message).
Proof.
  cbv zeta. pose proof (span_class (fun c => negb (bool_decide (c = newline))) stream) as Hs.
  change (span _ stream).1 with (rest_of_line stream) in Hs. revert Hs. generalize (rest_of_line stream). intros m Hm.
  set (m' := match m with String " " rest => rest | _ => m end).
  assert (Hm' : all_chars (fun ch => negb (bool_decide (ch = newline))) m' = true).
  { unfold m'. destruct m as [|c m]; [reflexivity|]. pose proof Hm as Hm1. cbn in Hm1. apply andb_true_iff in Hm1 as [_ Hm1].
    destruct c as [[] [] [] [] [] [] [] []]; assumption. }
  destruct m' as [|c m1]; [split; [discriminate | reflexivity] | split; [discriminate | exact Hm']].
Qed.

Lemma parseResponse_ok text r : parseResponse text = Ret r -> response_ok r.
Proof.
  unfold parseResponse. destruct (next_word _) as [version s1]. destruct (next_word s1) as [command s2].
  rewrite !unit_bind_inv. intros (_ & _ & H).
  destruct (bool_decide (command = "PONG"%string)); [apply unit_bind_inv in H as [_ [= <-]]; cbn; auto|].
  destruct (bool_decide (command = "OK"%string)); [apply unit_bind_inv in H as [_ [= <-]]; cbn; auto|].
  destruct (bool_decide (command = "VALUE"%string)).
  { destruct (next_word s2) as [w s3]. rewrite !unit_bind_inv in H. destruct H as (_ & _ & H).
    apply bind_ret_inv in H as (v & Hv & [= <-]). apply parseValue_range in Hv. cbn. auto. }
  destruct (bool_decide (command = "ERROR"%string)); [|discriminate]. injection H as <-.
  split; [reflexivity | apply error_message_one_line].
Qed.

(** ** Properties *)

(** The two ends of the line understand each other.  Every request that can
    be meant (an offset of 64 bits, a signed value of 64 bits) is parsed from the
    text it is formatted as, and so is every response, error messages without
    line ends included; and whatever text is accepted as a request or a response
    carries an offset, value and message of those types, with the fields its kind
    does not have cleared. *)
Theorem protocol_roundtrip :
  (forall r, request_ok r -> parseRequest (format_request r) = Ret r) /\
  (forall text r, parseRequest text = Ret r -> request_ok r) /\
  (forall r, response_ok r -> trimLineEndings (resp_message r) = resp_message r ->
             parseResponse (format_response r) = Ret r) /\
  (forall text r, parseResponse text = Ret r -> response_ok r).
Proof.
  split; [|split; [exact parseRequest_ok | split; [|exact parseResponse_ok]]].
  - intros [[] offset value] Hr; cbn in Hr; destruct Hr as [Ho Hv]; cbn.
    + rewrite Ho, Hv. reflexivity.
    + rewrite Hv. exact (parse_read offset Ho).
    + exact (parse_write offset value Ho Hv).
  - intros [[] value message] Hr Ht; cbn in Hr, Ht; destruct Hr as [Hv Hm]; cbn.
    + rewrite Hv, Hm. reflexivity.
    + rewrite Hv, Hm. reflexivity.
    + rewrite Hm. exact (parse_value value Hv).
    + rewrite Hv. exact (parse_error message Hm Ht).
Qed.

(** ** Witness *)

Lemma protocol_roundtrip_witness :
  parseRequest (format_request {| req_type := Request_Write; req_offset := 8; req_value := -3 |}) =
    Ret {| req_type := Request_Write; req_offset := 8; req_value := -3 |} /\
  parseResponse (errorResponse "no such register") =
    Ret {| resp_type := Response_Error; resp_value := 0; resp_message := "no such register" |}.
Proof.
  destruct protocol_roundtrip as (Hreq & _ & Hresp & _). split.
  - apply Hreq. split; vm_compute; split; congruence.
  - apply (Hresp {| resp_type := Response_Error; resp_value := 0; resp_message := "no such register" |}); [|reflexivity].
    split; [reflexivity | split; [discriminate | reflexivity]].
Defined.
