(* ===== verification/Serial.v ===== *)
(** * The hardware buses

    Models [include/zero_cpu/hardware/HardwareBus.hpp], [SerialTransport.hpp],
    [src/hardware/MockHardwareBus.cpp], [SerialHardwareBus.cpp] and
    [MockSerialTransport.cpp].  The two
    abstract classes are type classes; [HardwareBusLaws] is what a bus promises to
    its clients: the registers of a device, seen through an abstraction of its
    state.  The main result: a serial bus over the mock transport and the mock bus
    both keep the promise, so no client that stays connected can tell
    them apart. *)

From S2P Require Import Prelude Words Text Protocol.
Open Scope Z_scope.

(** ** The interfaces *)

Class SerialTransport (T : Type) := {
  transport_name : T -> string;
  transport_connected : T -> bool;
  transport_connect : M T unit;
  transport_disconnect : M T unit;
  transport_transact : string -> Z -> M T string;
}.

Class HardwareBus (B : Type) := {
  bus_name : B -> string;
  bus_connected : B -> bool;
  bus_connect : M B unit;
  bus_disconnect : M B unit;
  bus_readRegister : Z -> M B Z;
  bus_writeRegister : Z -> Z -> M B unit;
}.

(** ** The mock bus *)

Inductive HardwareAccessType := HW_Read | HW_Write.

#[export] Instance HardwareAccessType_eq_dec : EqDecision HardwareAccessType.
Proof. solve_decision. Defined.

Record HardwareTransaction := { ht_type : HardwareAccessType; ht_offset : Z; ht_value : Z }.

Record MockHardwareBus := {
  hw_name : string;
  hw_connected : bool;
  hw_registers : gmap Z Z;
  hw_transactions : list HardwareTransaction;
}.

#[export] Instance MockHardwareBus_inhabited : Inhabited MockHardwareBus :=
  populate {| hw_name := "mock-hardware"; hw_connected := false; hw_registers := ∅; hw_transactions := [] |}.

Definition new_MockHardwareBus (busName : string) : outcome MockHardwareBus :=
  if bool_decide (busName = EmptyString)
  then throw (RuntimeError "Mock hardware bus name must not be empty")
  else mret {| hw_name := busName; hw_connected := false; hw_registers := ∅; hw_transactions := [] |}.

Definition hw_update (b : MockHardwareBus) (connected : bool) (registers : gmap Z Z)
    (transactions : list HardwareTransaction) : MockHardwareBus :=
  {| hw_name := hw_name b; hw_connected := connected; hw_registers := registers;
     hw_transactions := transactions |}.

Definition MockHardwareBus_connect (b : MockHardwareBus) :=
  hw_update b true (hw_registers b) (hw_transactions b).
Definition MockHardwareBus_disconnect (b : MockHardwareBus) :=
  hw_update b false (hw_registers b) (hw_transactions b).
Definition MockHardwareBus_setRegisterValue (offset value : Z) (b : MockHardwareBus) :=
  hw_update b (hw_connected b) (<[offset := value]> (hw_registers b)) (hw_transactions b).
Definition MockHardwareBus_registerValue (b : MockHardwareBus) (offset : Z) : Z :=
  match hw_registers b !! offset with None => 0 | Some value => value end.
Definition MockHardwareBus_clearTransactions (b : MockHardwareBus) :=
  hw_update b (hw_connected b) (hw_registers b) [].

Definition MockHardwareBus_requireConnected (b : MockHardwareBus) : outcome unit :=
  if negb (hw_connected b) then throw (RuntimeError ("Hardware bus is not connected: " +:+ hw_name b))
  else mret tt.

Definition MockHardwareBus_readRegister (offset : Z) : M MockHardwareBus Z :=
  b ← get;
  _ ← lift (MockHardwareBus_requireConnected b);
  let value := MockHardwareBus_registerValue b offset in
  let entry := {| ht_type := HW_Read; ht_offset := offset; ht_value := value |} in
  _ ← modify (fun b => hw_update b (hw_connected b) (hw_registers b) (hw_transactions b ++ [entry]));
  mret value.

Definition MockHardwareBus_writeRegister (offset value : Z) : M MockHardwareBus unit :=
  b ← get;
  _ ← lift (MockHardwareBus_requireConnected b);
  let entry := {| ht_type := HW_Write; ht_offset := offset; ht_value := value |} in
  modify (fun b => hw_update b (hw_connected b) (<[offset := value]> (hw_registers b))
                     (hw_transactions b ++ [entry])).

Definition MockHardwareBus_readCount (b : MockHardwareBus) : nat :=
  length (filter (fun t => ht_type t = HW_Read) (hw_transactions b)).
Definition MockHardwareBus_writeCount (b : MockHardwareBus) : nat :=
  length (filter (fun t => ht_type t = HW_Write) (hw_transactions b)).

#[export] Instance MockHardwareBus_bus : HardwareBus MockHardwareBus := {
  bus_name := hw_name;
  bus_connected := hw_connected;
  bus_connect := modify MockHardwareBus_connect;
  bus_disconnect := modify MockHardwareBus_disconnect;
  bus_readRegister := MockHardwareBus_readRegister;
  bus_writeRegister := MockHardwareBus_writeRegister;
}.

(** ** The mock transport *)

Record MockSerialTransport := {
  st_name : string;
  st_connected : bool;
  timeout_next : bool;
  has_next_raw_response : bool;
  next_raw_response : string;
  st_registers : gmap Z Z;
  st_requests : list string;
}.

Definition new_MockSerialTransport (transportName : string) : MockSerialTransport :=
  {| st_name := transportName; st_connected := false; timeout_next := false; has_next_raw_response := false;
     next_raw_response := EmptyString; st_registers := ∅; st_requests := [] |}.

#[export] Instance MockSerialTransport_inhabited : Inhabited MockSerialTransport := populate (new_MockSerialTransport "mock-serial").

Definition set_connected (b : bool) (t : MockSerialTransport) :=
  {| st_name := st_name t; st_connected := b; timeout_next := timeout_next t;
     has_next_raw_response := has_next_raw_response t; next_raw_response := next_raw_response t;
     st_registers := st_registers t; st_requests := st_requests t |}.
Definition set_timeout_next (b : bool) (t : MockSerialTransport) :=
  {| st_name := st_name t; st_connected := st_connected t; timeout_next := b;
     has_next_raw_response := has_next_raw_response t; next_raw_response := next_raw_response t;
     st_registers := st_registers t; st_requests := st_requests t |}.
Definition set_raw_response (has : bool) (response : string) (t : MockSerialTransport) :=
  {| st_name := st_name t; st_connected := st_connected t; timeout_next := timeout_next t;
     has_next_raw_response := has; next_raw_response := response;
     st_registers := st_registers t; st_requests := st_requests t |}.
Definition set_registers (registers : gmap Z Z) (t : MockSerialTransport) :=
  {| st_name := st_name t; st_connected := st_connected t; timeout_next := timeout_next t;
     has_next_raw_response := has_next_raw_response t; next_raw_response := next_raw_response t;
     st_registers := registers; st_requests := st_requests t |}.
Definition set_requests (requests : list string) (t : MockSerialTransport) :=
  {| st_name := st_name t; st_connected := st_connected t; timeout_next := timeout_next t;
     has_next_raw_response := has_next_raw_response t; next_raw_response := next_raw_response t;
     st_registers := st_registers t; st_requests := requests |}.

Definition MockSerialTransport_requireConnected (t : MockSerialTransport) : outcome unit :=
  throw_if (negb (st_connected t)) (RuntimeError "Mock serial transport is not connected").

Definition MockSerialTransport_registerValue (t : MockSerialTransport) (offset : Z) : Z :=
  match st_registers t !! offset with None => 0 | Some value => value end.
Definition MockSerialTransport_setRegisterValue (offset value : Z) (t : MockSerialTransport) :=
  set_registers (<[offset := value]> (st_registers t)) t.
Definition MockSerialTransport_clearRequests (t : MockSerialTransport) := set_requests [] t.
Definition MockSerialTransport_setNextRawResponse (response : string) (t : MockSerialTransport) :=
  set_raw_response true response t.
Definition MockSerialTransport_failNextWithError (message : string) (t : MockSerialTransport) :=
  MockSerialTransport_setNextRawResponse (errorResponse message) t.
Definition MockSerialTransport_timeoutNextTransaction (t : MockSerialTransport) := set_timeout_next true t.

(** The body of the [try] block: what the device does with a request. *)
Definition answer_request (request : string) : M MockSerialTransport string :=
  parsed ← lift (parseRequest request);
  match req_type parsed with
  | Request_Ping => mret pongResponse
  | Request_Read => value ← gets (fun t => MockSerialTransport_registerValue t (req_offset parsed)); mret (valueResponse value)
  | Request_Write => _ ← modify (MockSerialTransport_setRegisterValue (req_offset parsed) (req_value parsed)); mret okResponse
  end.

Definition MockSerialTransport_transact (request : string) (timeoutMilliseconds : Z) : M MockSerialTransport string :=
  t ← get;
  _ ← lift (MockSerialTransport_requireConnected t);
  _ ← throw_if (timeoutMilliseconds =? 0) (RuntimeError "Serial transaction timeout must be greater than zero");
  _ ← modify (fun t => set_requests (st_requests t ++ [request]) t);
  t ← get;
  if timeout_next t then
    _ ← modify (set_timeout_next false);
    throw (RuntimeError "Serial transport timeout")
  else if has_next_raw_response t then
    _ ← modify (set_raw_response false EmptyString);
    mret (next_raw_response t)
  else try_catch (answer_request request) (fun ex => mret (errorResponse (what ex))).

Definition MockSerialTransport_connect : M MockSerialTransport unit := modify (set_connected true).
Definition MockSerialTransport_disconnect : M MockSerialTransport unit := modify (set_connected false).

#[export] Instance MockSerialTransport_transport : SerialTransport MockSerialTransport := {
  transport_name := st_name;
  transport_connected := st_connected;
  transport_connect := MockSerialTransport_connect;
  transport_disconnect := MockSerialTransport_disconnect;
  transport_transact := MockSerialTransport_transact;
}.

(** ** The serial bus, over any transport *)

Section serial_bus.
Context {T : Type} `{SerialTransport T}.

(** The bus and the object behind its [transport_] pointer, which is never null
    once the bus is constructed. *)
Record SerialHardwareBus := { transport_ : T; timeout_milliseconds : Z }.

Definition new_SerialHardwareBus (transport : option T) (timeoutMilliseconds : Z) : outcome SerialHardwareBus :=
  match transport with
  | None => throw (RuntimeError "SerialHardwareBus requires a transport")
  | Some transport =>
      _ ← throw_if (timeoutMilliseconds =? 0) (RuntimeError "SerialHardwareBus timeout must be greater than zero");
      mret {| transport_ := transport; timeout_milliseconds := timeoutMilliseconds |}
  end.

Definition on_transport {A} : M T A -> M SerialHardwareBus A :=
  zoom transport_ (fun t b => {| transport_ := t; timeout_milliseconds := timeout_milliseconds b |}).

Definition SerialHardwareBus_name (b : SerialHardwareBus) : string :=
  "serial-hardware(" +:+ transport_name (transport_ b) +:+ ")".

Definition SerialHardwareBus_connected (b : SerialHardwareBus) : bool := transport_connected (transport_ b).

Definition SerialHardwareBus_transact (request : string) : M SerialHardwareBus string :=
  b ← get; on_transport (transport_transact request (timeout_milliseconds b)).

Definition SerialHardwareBus_requireConnected : M SerialHardwareBus unit :=
  b ← get; throw_if (negb (SerialHardwareBus_connected b)) (RuntimeError "Serial hardware bus is not connected").

Definition SerialHardwareBus_disconnect : M SerialHardwareBus unit := on_transport transport_disconnect.

Definition SerialHardwareBus_connect : M SerialHardwareBus unit :=
  b ← get;
  if SerialHardwareBus_connected b then mret tt
  else
    _ ← on_transport transport_connect;
    try_catch
      (text ← SerialHardwareBus_transact pingRequest;
       response ← lift (parseResponse text);
       _ ← throw_if (bool_decide (resp_type response = Response_Error))
             (RuntimeError ("Hardware handshake failed: " +:+ resp_message response));
       throw_if (negb (bool_decide (resp_type response = Response_Pong))) (RuntimeError "Hardware handshake expected PONG"))
      (fun ex => _ ← on_transport transport_disconnect; throw ex).

Definition SerialHardwareBus_readRegister (offset : Z) : M SerialHardwareBus Z :=
  _ ← SerialHardwareBus_requireConnected;
  text ← SerialHardwareBus_transact (readRequest offset);
  response ← lift (parseResponse text);
  _ ← throw_if (bool_decide (resp_type response = Response_Error))
        (RuntimeError ("Hardware read failed: " +:+ resp_message response));
  _ ← throw_if (negb (bool_decide (resp_type response = Response_Value))) (RuntimeError "Hardware read expected VALUE response");
  mret (resp_value response).

Definition SerialHardwareBus_writeRegister (offset value : Z) : M SerialHardwareBus unit :=
  _ ← SerialHardwareBus_requireConnected;
  text ← SerialHardwareBus_transact (writeRequest offset value);
  response ← lift (parseResponse text);
  _ ← throw_if (bool_decide (resp_type response = Response_Error))
        (RuntimeError ("Hardware write failed: " +:+ resp_message response));
  throw_if (negb (bool_decide (resp_type response = Response_Ok))) (RuntimeError "Hardware write expected OK response").

#[export] Instance SerialHardwareBus_bus : HardwareBus SerialHardwareBus := {
  bus_name := SerialHardwareBus_name;
  bus_connected := SerialHardwareBus_connected;
  bus_connect := SerialHardwareBus_connect;
  bus_disconnect := SerialHardwareBus_disconnect;
  bus_readRegister := SerialHardwareBus_readRegister;
  bus_writeRegister := SerialHardwareBus_writeRegister;
}.

End serial_bus.

Arguments SerialHardwareBus T : clear implicits.

#[export] Instance SerialHardwareBus_inhabited {T} `{Inhabited T} : Inhabited (SerialHardwareBus T) :=
  populate {| transport_ := inhabitant; timeout_milliseconds := 500 |}.

(** ** Specification: the registers of a device

    [view b] is what the registers of the device behind [b] hold; a device in
    [sound] answers. *)
Class HardwareBusLaws (B : Type) `{HardwareBus B} := {
  view : B -> Z -> Z;
  sound : B -> Prop;
  connect_law b : sound b -> exists b', bus_connect b = (Ret tt, b') /\ sound b' /\ bus_connected b' = true /\ view b' = view b;
  disconnect_law b : sound b -> exists b', bus_disconnect b = (Ret tt, b') /\ sound b' /\ bus_connected b' = false /\ view b' = view b;
  read_law b offset : sound b -> is_u64 offset ->
    if bus_connected b
    then exists b', bus_readRegister offset b = (Ret (view b offset), b') /\ sound b' /\ bus_connected b' = true /\ view b' = view b
    else exists e, bus_readRegister offset b = (Throw e, b);
  write_law b offset value : sound b -> is_u64 offset -> is_i64 value ->
    if bus_connected b
    then exists b', bus_writeRegister offset value b = (Ret tt, b') /\ sound b' /\ bus_connected b' = true /\
                    view b' offset = value /\ forall other, other <> offset -> view b' other = view b other
    else exists e, bus_writeRegister offset value b = (Throw e, b);
}.

(** ** The mock bus keeps the promise *)

#[export] Program Instance MockHardwareBus_laws : HardwareBusLaws MockHardwareBus := {
  view := MockHardwareBus_registerValue;
  sound := fun _ => True;
}.
Next Obligation. intros b _. eexists. split; [reflexivity|]. split; [exact I | split; reflexivity]. Qed.
Next Obligation. intros b _. eexists. split; [reflexivity|]. split; [exact I | split; reflexivity]. Qed.
Next Obligation.
  intros b offset _ _. unfold bus_connected, bus_readRegister. cbn. destruct (hw_connected b) eqn:E.
  - eexists. unfold MockHardwareBus_readRegister. rewrite bind_run. unfold get at 1. cbv beta iota.
    unfold MockHardwareBus_requireConnected. rewrite E. split; [reflexivity|]. split; [exact I | split; [exact E | reflexivity]].
  - eexists. unfold MockHardwareBus_readRegister. rewrite bind_run. unfold get at 1. cbv beta iota.
    unfold MockHardwareBus_requireConnected. rewrite E. reflexivity.
Qed.
Next Obligation.
  intros b offset value _ _ _. unfold bus_connected, bus_writeRegister. cbn. destruct (hw_connected b) eqn:E.
  - eexists. unfold MockHardwareBus_writeRegister. rewrite bind_run. unfold get at 1. cbv beta iota.
    unfold MockHardwareBus_requireConnected. rewrite E. split; [reflexivity|]. split; [exact I|]. split; [exact E|].
    unfold MockHardwareBus_registerValue. cbn.
    split; [rewrite lookup_insert_eq; reflexivity | intros other Ho; rewrite lookup_insert_ne by congruence; reflexivity].
  - eexists. unfold MockHardwareBus_writeRegister. rewrite bind_run. unfold get at 1. cbv beta iota.
    unfold MockHardwareBus_requireConnected. rewrite E. reflexivity.
Qed.

(** ** The serial bus over the mock transport keeps it *)

(** No fault is queued, and the registers hold signed words. *)
Record quiet (t : MockSerialTransport) : Prop := {
  q_timeout : timeout_next t = false;
  q_raw : has_next_raw_response t = false;
  q_words : map_Forall (fun _ value => is_i64 value) (st_registers t);
}.

Lemma quiet_value t offset : quiet t -> is_i64 (MockSerialTransport_registerValue t offset).
Proof.
  intros [_ _ Hw]. unfold MockSerialTransport_registerValue. destruct (st_registers t !! offset) eqn:E; [exact (Hw _ _ E) | words].
Qed.

Definition logged (request : string) (t : MockSerialTransport) : MockSerialTransport := set_requests (st_requests t ++ [request]) t.

Lemma logged_quiet request t : quiet t -> quiet (logged request t).
Proof. intros []. constructor; assumption. Qed.

Lemma transact_run request timeout t : quiet t -> st_connected t = true -> timeout <> 0 ->
  MockSerialTransport_transact request timeout t =
  try_catch (answer_request request) (fun ex => mret (errorResponse (what ex))) (logged request t).
Proof.
  intros [Ht Hr _] Hc Hne. unfold MockSerialTransport_transact. rewrite bind_run. unfold get at 1. cbv beta iota.
  unfold MockSerialTransport_requireConnected. rewrite Hc. apply Z.eqb_neq in Hne. rewrite Hne.
  transitivity ((if timeout_next (logged request t) then
                   _ ← modify (set_timeout_next false); throw (RuntimeError "Serial transport timeout")
                 else if has_next_raw_response (logged request t) then
                   _ ← modify (set_raw_response false EmptyString); mret (next_raw_response (logged request t))
                 else try_catch (answer_request request) (fun ex => mret (errorResponse (what ex)))) (logged request t)); [reflexivity|].
  change (timeout_next (logged request t)) with (timeout_next t).
  change (has_next_raw_response (logged request t)) with (has_next_raw_response t). rewrite Ht, Hr. reflexivity.
Qed.

Lemma transact_ping timeout t : quiet t -> st_connected t = true -> timeout <> 0 ->
  MockSerialTransport_transact pingRequest timeout t = (Ret pongResponse, logged pingRequest t).
Proof. intros Hq Hc Hne. rewrite transact_run by assumption. reflexivity. Qed.

Lemma transact_read offset timeout t : quiet t -> st_connected t = true -> timeout <> 0 -> is_u64 offset ->
  MockSerialTransport_transact (readRequest offset) timeout t =
  (Ret (valueResponse (MockSerialTransport_registerValue t offset)), logged (readRequest offset) t).
Proof.
  intros Hq Hc Hne Ho. rewrite transact_run by assumption. unfold try_catch, answer_request. rewrite bind_run.
  unfold lift at 1. rewrite parse_read by exact Ho. reflexivity.
Qed.

Lemma transact_write offset value timeout t : quiet t -> st_connected t = true -> timeout <> 0 -> is_u64 offset -> is_i64 value ->
  MockSerialTransport_transact (writeRequest offset value) timeout t =
  (Ret okResponse, MockSerialTransport_setRegisterValue offset value (logged (writeRequest offset value) t)).
Proof.
  intros Hq Hc Hne Ho Hv. rewrite transact_run by assumption. unfold try_catch, answer_request. rewrite bind_run.
  unfold lift at 1. rewrite parse_write by assumption. reflexivity.
Qed.

Definition serial_sound (b : SerialHardwareBus MockSerialTransport) : Prop :=
  quiet (transport_ b) /\ timeout_milliseconds b <> 0.

#[export] Program Instance SerialHardwareBus_laws : HardwareBusLaws (SerialHardwareBus MockSerialTransport) := {
  view := fun b => MockSerialTransport_registerValue (transport_ b);
  sound := serial_sound;
}.
Next Obligation.
  intros [t timeout] [Hq Hne]. cbn in *. unfold SerialHardwareBus_connect. rewrite bind_run. unfold get at 1. cbv beta iota.
  change (SerialHardwareBus_connected {| transport_ := t; timeout_milliseconds := timeout |}) with (st_connected t).
  destruct (st_connected t) eqn:E.
  - eexists. split; [reflexivity|]. split; [split; assumption | split; [exact E | reflexivity]].
  - assert (Hq' : quiet (set_connected true t)) by (destruct Hq; constructor; assumption).
    pose proof (transact_ping timeout (set_connected true t) Hq' eq_refl Hne) as Hp.
    rewrite bind_run. unfold on_transport at 1, zoom at 1. cbn -[MockSerialTransport_transact pingRequest parseResponse pongResponse].
    unfold try_catch. rewrite bind_run. unfold SerialHardwareBus_transact. rewrite bind_run. unfold get at 1. cbv beta iota.
    unfold on_transport, zoom. cbn -[MockSerialTransport_transact pingRequest parseResponse pongResponse]. rewrite Hp. cbv beta iota.
    eexists. split; [reflexivity|]. split; [split; [apply logged_quiet, Hq' | exact Hne] | split; reflexivity].
Qed.
Next Obligation.
  intros [t timeout] [Hq Hne]. eexists. split; [reflexivity|].
  split; [split; [destruct Hq; constructor; assumption | exact Hne] | split; reflexivity].
Qed.
Next Obligation.
  intros [t timeout] offset [Hq Hne] Ho. unfold bus_connected, bus_readRegister. cbn in *.
  change (SerialHardwareBus_connected {| transport_ := t; timeout_milliseconds := timeout |}) with (st_connected t).
  destruct (st_connected t) eqn:E; unfold SerialHardwareBus_readRegister; rewrite bind_run;
    unfold SerialHardwareBus_requireConnected; rewrite bind_run; unfold get at 1; cbv beta iota;
    change (SerialHardwareBus_connected {| transport_ := t; timeout_milliseconds := timeout |}) with (st_connected t); rewrite E;
    [|eexists; reflexivity].
  eexists. split.
  - cbv beta iota delta [negb throw_if mret M_ret]. rewrite bind_run. unfold SerialHardwareBus_transact. rewrite bind_run. unfold get at 1.
    cbv beta iota. unfold on_transport, zoom. cbn [transport_ timeout_milliseconds transport_transact MockSerialTransport_transport].
    rewrite transact_read by assumption. cbv beta iota. rewrite bind_run. unfold lift at 1.
    rewrite parse_value by (apply quiet_value, Hq). reflexivity.
  - split; [split; [apply logged_quiet, Hq | exact Hne] | split; [exact E | reflexivity]].
Qed.
Next Obligation.
  intros [t timeout] offset value [Hq Hne] Ho Hv. unfold bus_connected, bus_writeRegister. cbn in *.
  change (SerialHardwareBus_connected {| transport_ := t; timeout_milliseconds := timeout |}) with (st_connected t).
  destruct (st_connected t) eqn:E; unfold SerialHardwareBus_writeRegister; rewrite bind_run;
    unfold SerialHardwareBus_requireConnected; rewrite bind_run; unfold get at 1; cbv beta iota;
    change (SerialHardwareBus_connected {| transport_ := t; timeout_milliseconds := timeout |}) with (st_connected t); rewrite E;
    [|eexists; reflexivity].
  eexists. split.
  - cbv beta iota delta [negb throw_if mret M_ret]. rewrite bind_run. unfold SerialHardwareBus_transact. rewrite bind_run. unfold get at 1.
    cbv beta iota. unfold on_transport, zoom. cbn [transport_ timeout_milliseconds transport_transact MockSerialTransport_transport].
    rewrite transact_write by assumption. reflexivity.
  - split; [|split; [exact E|]].
    + split; [|exact Hne]. destruct Hq. constructor; cbn; try assumption. apply map_Forall_insert_2; assumption.
    + unfold MockSerialTransport_registerValue. cbn.
      split; [rewrite lookup_insert_eq; reflexivity | intros other Hd; rewrite lookup_insert_ne by congruence; reflexivity].
Qed.

(** ** Clients of the interface *)

Inductive bus_operation := Bus_Connect | Bus_Disconnect | Bus_Read (offset : Z) | Bus_Write (offset value : Z).

Definition operation_ok (op : bus_operation) : Prop :=
  match op with
  | Bus_Connect | Bus_Disconnect => True
  | Bus_Read offset => is_u64 offset
  | Bus_Write offset value => is_u64 offset /\ is_i64 value
  end.

(** What a client sees of an outcome: the value, or that it failed. *)
Definition seen {A} (o : outcome A) : option A := match o with Ret a => Some a | Throw _ => None end.

Definition perform {B} `{HardwareBus B} (op : bus_operation) (b : B) : option Z * B :=
  match op with
  | Bus_Connect => let '(o, b) := bus_connect b in ((fun _ => 0) <$> seen o, b)
  | Bus_Disconnect => let '(o, b) := bus_disconnect b in ((fun _ => 0) <$> seen o, b)
  | Bus_Read offset => let '(o, b) := bus_readRegister offset b in (seen o, b)
  | Bus_Write offset value => let '(o, b) := bus_writeRegister offset value b in ((fun _ => 0) <$> seen o, b)
  end.

(** The results of a sequence of operations, and the bus after it. *)
Fixpoint session {B} `{HardwareBus B} (ops : list bus_operation) (b : B) : list (option Z) * B :=
  match ops with
  | [] => ([], b)
  | op :: ops => let '(r, b) := perform op b in let '(rs, b) := session ops b in (r :: rs, b)
  end.

(** Two buses that a client cannot tell apart now. *)
Definition alike {B C} `{HardwareBusLaws B} `{HardwareBusLaws C} (b : B) (c : C) : Prop :=
  sound b /\ sound c /\ bus_connected b = bus_connected c /\ forall offset, view b offset = view c offset.

Section clients.
Context {B C : Type} `{HardwareBusLaws B} `{HardwareBusLaws C}.

Lemma perform_alike op (b : B) (c : C) : operation_ok op -> alike b c ->
  (perform op b).1 = (perform op c).1 /\ alike (perform op b).2 (perform op c).2.
Proof.
  intros Hop (Hb & Hc & Hconn & Hview). destruct op as [| |offset|offset value]; cbn [perform operation_ok] in *.
  - destruct (connect_law b Hb) as (b' & -> & Sb & Cb & Vb). destruct (connect_law c Hc) as (c' & -> & Sc & Cc & Vc).
    unfold alike. cbn. rewrite Cb, Cc, Vb, Vc. auto.
  - destruct (disconnect_law b Hb) as (b' & -> & Sb & Cb & Vb). destruct (disconnect_law c Hc) as (c' & -> & Sc & Cc & Vc).
    unfold alike. cbn. rewrite Cb, Cc, Vb, Vc. auto.
  - pose proof (read_law b offset Hb Hop) as Rb. pose proof (read_law c offset Hc Hop) as Rc. rewrite Hconn in Rb.
    destruct (bus_connected c) eqn:E.
    + destruct Rb as (b' & -> & Sb & Cb & Vb). destruct Rc as (c' & -> & Sc & Cc & Vc).
      unfold alike. cbn. rewrite Cb, Cc, Vb, Vc, Hview. auto.
    + destruct Rb as [e ->]. destruct Rc as [e' ->]. unfold alike. cbn. rewrite E. auto.
  - destruct Hop as [Ho Hv]. pose proof (write_law b offset value Hb Ho Hv) as Wb.
    pose proof (write_law c offset value Hc Ho Hv) as Wc. rewrite Hconn in Wb. destruct (bus_connected c) eqn:E.
    + destruct Wb as (b' & -> & Sb & Cb & Vb & Fb). destruct Wc as (c' & -> & Sc & Cc & Vc & Fc).
      unfold alike. cbn. rewrite Cb, Cc. repeat split; try assumption. intros other.
      destruct (decide (other = offset)) as [->|Hne]; [congruence | rewrite Fb, Fc by exact Hne; apply Hview].
    + destruct Wb as [e ->]. destruct Wc as [e' ->]. unfold alike. cbn. rewrite E. auto.
Qed.

Lemma session_alike ops : forall (b : B) (c : C), Forall operation_ok ops -> alike b c ->
  (session ops b).1 = (session ops c).1 /\ alike (session ops b).2 (session ops c).2.
Proof.
  induction ops as [|op ops IH]; intros b c Hops Hbc; cbn [session]; [auto|]. inversion_clear Hops as [|? ? Hop Hops'].
  destruct (perform_alike op b c Hop Hbc) as [Hr Hnext]. destruct (perform op b) as [rb b1], (perform op c) as [rc c1].
  cbn in Hr, Hnext. destruct (IH b1 c1 Hops' Hnext) as [Hrs Hend].
  destruct (session ops b1) as [rsb b2], (session ops c1) as [rsc c2]. cbn in *. split; [congruence | exact Hend].
Qed.

End clients.

(** ** A handshake that fails *)

(** Whatever the transport answers, a failed handshake leaves it disconnected. *)
Lemma connect_failure_disconnects {T} `{SerialTransport T} (b b' : SerialHardwareBus T) t1 e :
  (forall t, exists t', transport_disconnect t = (Ret tt, t') /\ transport_connected t' = false) ->
  transport_connect (transport_ b) = (Ret tt, t1) -> SerialHardwareBus_connected b = false ->
  SerialHardwareBus_connect b = (Throw e, b') -> SerialHardwareBus_connected b' = false.
Proof.
  intros Hdis Hconn Hb H'. unfold SerialHardwareBus_connect in H'. rewrite bind_run in H'. unfold get at 1 in H'. cbv beta iota in H'.
  rewrite Hb, bind_run in H'. unfold on_transport at 1, zoom at 1 in H'. rewrite Hconn in H'. unfold try_catch in H'.
  destruct ((SerialHardwareBus_transact pingRequest ≫= _) _) as [[r|x] b2]; [discriminate|].
  rewrite bind_run in H'. unfold on_transport, zoom in H'. destruct (Hdis (transport_ b2)) as (t' & Ht & Hd). rewrite Ht in H'.
  cbn in H'. injection H' as _ <-. exact Hd.
Qed.

(** ** Properties *)

(** (C23) The serial bus is a hardware bus.  Over the mock transport, with no
    fault queued, it answers every sequence of connects, disconnects, reads and
    writes as the mock bus does whose registers hold the same values: each
    operation gives the same value or fails on both, through the text protocol on
    one side and directly on the other, and afterwards the two hold the same
    registers and are both connected or both not. *)
Theorem serial_bus_refines_registers (ops : list bus_operation) (serial : SerialHardwareBus MockSerialTransport)
    (mock : MockHardwareBus) (Hops : Forall operation_ok ops) (Hserial : serial_sound serial)
    (Hconnected : SerialHardwareBus_connected serial = hw_connected mock)
    (Hsame : forall offset, MockSerialTransport_registerValue (transport_ serial) offset = MockHardwareBus_registerValue mock offset) :
  (session ops serial).1 = (session ops mock).1 /\
  let serial' := (session ops serial).2 in let mock' := (session ops mock).2 in
  SerialHardwareBus_connected serial' = hw_connected mock' /\
  forall offset, MockSerialTransport_registerValue (transport_ serial') offset = MockHardwareBus_registerValue mock' offset.
Proof.
  destruct (session_alike ops serial mock Hops) as [Hr (_ & _ & Hc & Hv)]; [|auto].
  split; [exact Hserial|]. split; [exact I | split; [exact Hconnected | exact Hsame]].
Qed.

(** ** Witness *)

Definition sample_session : list bus_operation :=
  [Bus_Read 8; Bus_Connect; Bus_Write 8 (-7); Bus_Read 8; Bus_Read 16; Bus_Disconnect; Bus_Write 8 1].

Definition sample_serial : SerialHardwareBus MockSerialTransport :=
  {| transport_ := new_MockSerialTransport "mock-serial"; timeout_milliseconds := 500 |}.

Lemma serial_bus_refines_registers_witness :
  let mock := inhabitant : MockHardwareBus in
  (session sample_session sample_serial).1 = [None; Some 0; Some 0; Some (-7); Some 0; Some 0; None] /\
  (session sample_session sample_serial).1 = (session sample_session mock).1.
Proof.
  cbv zeta. split; [vm_compute; reflexivity|]. apply serial_bus_refines_registers.
  - repeat constructor; vm_compute; congruence.
  - split; [constructor; [reflexivity | reflexivity | apply map_Forall_empty] | vm_compute; congruence].
  - reflexivity.
  - reflexivity.
Defined.
