(* ===== verification/Devices.v ===== *)
(** * Memory-mapped devices and the shared store

    Models [src/core/DebugOutputDevice.cpp], [src/hardware/HardwareMMIODevice.cpp]
    and [src/core/MMIOBus.cpp]; the buses behind the bridge are in [Serial].  The
    sources share these objects through [std::shared_ptr]: a CPU, a bus and a
    timer can hold the same controller.  [World] is the store of the shared
    objects, a reference is an index into it, and an operation on an object
    through a reference is a step of the store.  The store is total: a
    [shared_ptr] that is not null always points to an object.  The main result:
    a bus maps a device exactly when its range is well formed and disjoint from
    the ranges already mapped, and each address then reaches one device. *)

From S2P Require Import Prelude Words Memory Interrupts Serial.
Open Scope Z_scope.

(** ** The debug output device *)

Record DebugOutputDevice := { dbg_writes : list Z; dbg_output : string }.

#[export] Instance DebugOutputDevice_inhabited : Inhabited DebugOutputDevice :=
  populate {| dbg_writes := []; dbg_output := "" |}.

Definition newline : string := String (ascii_of_nat 10) EmptyString.

Definition DebugOutputDevice_read (d : DebugOutputDevice) (offset : Z) : outcome Z :=
  if offset =? 0 then mret (default 0 (last (dbg_writes d)))
  else if offset =? 8 then mret (i64 (Z.of_nat (length (dbg_writes d))))
  else throw (RuntimeError "DebugOutputDevice read offset must be 0 or 8").

Definition DebugOutputDevice_write (offset value : Z) (d : DebugOutputDevice) : outcome DebugOutputDevice :=
  if negb (offset =? 0) then throw (RuntimeError "DebugOutputDevice write offset must be 0")
  else mret {| dbg_writes := dbg_writes d ++ [value];
               dbg_output := dbg_output d +:+ pretty value +:+ newline |}.

Definition DebugOutputDevice_clear : DebugOutputDevice := {| dbg_writes := []; dbg_output := "" |}.

(** ** The hardware bridge

    [HardwareMMIODevice], over whatever bus it refers to. *)

Section bridge.
Context {B : Type} `{HardwareBus B}.

Definition HardwareMMIODevice_name (b : B) : string := "HardwareBridge(" +:+ bus_name b +:+ ")".

Definition HardwareMMIODevice_validateOffset (offset : Z) : outcome unit :=
  if offset >=? kHardwareSize
  then throw (RuntimeError "Hardware MMIO offset is outside the hardware window")
  else if negb (offset mod kHardwareRegisterWidth =? 0)
  then throw (RuntimeError "Hardware MMIO offset must be 8-byte aligned")
  else mret tt.

Definition HardwareMMIODevice_requireConnected (b : B) : outcome unit :=
  if negb (bus_connected b)
  then throw (RuntimeError "Hardware MMIO access requires a connected bus")
  else mret tt.

Definition HardwareMMIODevice_read (offset : Z) : M B Z :=
  _ ← lift (HardwareMMIODevice_validateOffset offset);
  b ← get;
  _ ← lift (HardwareMMIODevice_requireConnected b);
  bus_readRegister offset.

Definition HardwareMMIODevice_write (offset value : Z) : M B unit :=
  _ ← lift (HardwareMMIODevice_validateOffset offset);
  b ← get;
  _ ← lift (HardwareMMIODevice_requireConnected b);
  bus_writeRegister offset value.

End bridge.

(** ** The bus *)

(** A [std::shared_ptr<MMIODevice>] that is not null: one of the classes that
    implement the interface, and where the object is in the store.  The bridge refers
    to a mock bus or to a serial bus over the mock transport. *)
Inductive MMIODevice :=
  | TimerRef (r : nat)
  | DebugOutputRef (r : nat)
  | HardwareRef (bus : nat)
  | SerialHardwareRef (bus : nat).

#[export] Instance MMIODevice_eq_dec : EqDecision MMIODevice.
Proof. solve_decision. Defined.

Record MMIOMapping := { map_base : Z; map_size : Z; map_device : MMIODevice }.

#[export] Instance MMIOMapping_eq_dec : EqDecision MMIOMapping.
Proof. solve_decision. Defined.

Abbreviation MMIOBus := (list MMIOMapping).

Definition MMIOMapping_endExclusive (m : MMIOMapping) : Z := u64 (map_base m + map_size m).

Definition MMIOMapping_contains (m : MMIOMapping) (address : Z) : bool :=
  (address >=? map_base m) && (address <? MMIOMapping_endExclusive m).

(** The store of shared objects. *)
Record World := {
  controllers : gmap nat InterruptController;
  timers : gmap nat TimerDevice;
  debug_outputs : gmap nat DebugOutputDevice;
  hardware_buses : gmap nat MockHardwareBus;
  serial_buses : gmap nat (SerialHardwareBus MockSerialTransport);
  buses : gmap nat MMIOBus;
}.

Definition set_controllers (x : gmap nat InterruptController) (w : World) : World :=
  {| controllers := x; timers := timers w; debug_outputs := debug_outputs w;
     hardware_buses := hardware_buses w; serial_buses := serial_buses w; buses := buses w |}.
Definition set_timers (x : gmap nat TimerDevice) (w : World) : World :=
  {| controllers := controllers w; timers := x; debug_outputs := debug_outputs w;
     hardware_buses := hardware_buses w; serial_buses := serial_buses w; buses := buses w |}.
Definition set_debug_outputs (x : gmap nat DebugOutputDevice) (w : World) : World :=
  {| controllers := controllers w; timers := timers w; debug_outputs := x;
     hardware_buses := hardware_buses w; serial_buses := serial_buses w; buses := buses w |}.
Definition set_hardware_buses (x : gmap nat MockHardwareBus) (w : World) : World :=
  {| controllers := controllers w; timers := timers w; debug_outputs := debug_outputs w;
     hardware_buses := x; serial_buses := serial_buses w; buses := buses w |}.
Definition set_serial_buses (x : gmap nat (SerialHardwareBus MockSerialTransport)) (w : World) : World :=
  {| controllers := controllers w; timers := timers w; debug_outputs := debug_outputs w;
     hardware_buses := hardware_buses w; serial_buses := x; buses := buses w |}.
Definition set_buses (x : gmap nat MMIOBus) (w : World) : World :=
  {| controllers := controllers w; timers := timers w; debug_outputs := debug_outputs w;
     hardware_buses := hardware_buses w; serial_buses := serial_buses w; buses := x |}.

(** Dereferencing, and running an operation of an object in the store. *)
Definition controller_at (w : World) (r : nat) : InterruptController := controllers w !!! r.
Definition timer_at (w : World) (r : nat) : TimerDevice := timers w !!! r.
Definition bus_at (w : World) (r : nat) : MMIOBus := default [] (buses w !! r).

Definition on_controller {A} (r : nat) (m : M InterruptController A) : M World A :=
  zoom (fun w => controller_at w r) (fun c w => set_controllers (<[r := c]> (controllers w)) w) m.
Definition on_hardware {A} (r : nat) (m : M MockHardwareBus A) : M World A :=
  zoom (fun w => hardware_buses w !!! r)
       (fun b w => set_hardware_buses (<[r := b]> (hardware_buses w)) w) m.
Definition on_serial {A} (r : nat) (m : M (SerialHardwareBus MockSerialTransport) A) : M World A :=
  zoom (fun w => serial_buses w !!! r)
       (fun b w => set_serial_buses (<[r := b]> (serial_buses w)) w) m.

(** [tick] of the timer at [r], on the timer and the controller it refers to. *)
Definition timer_tick (r : nat) : M World unit :=
  zoom (fun w => let t := timer_at w r in (t, controller_at w (tmr_controller t)))
       (fun '(t, c) w => set_controllers (<[tmr_controller t := c]> (controllers w))
                           (set_timers (<[r := t]> (timers w)) w))
       TimerDevice_tick.

(** Virtual calls of [MMIODevice]. *)
Definition MMIODevice_name (w : World) (d : MMIODevice) : string :=
  match d with
  | TimerRef _ => "TimerDevice"
  | DebugOutputRef _ => "DebugOutputDevice"
  | HardwareRef r => HardwareMMIODevice_name (hardware_buses w !!! r)
  | SerialHardwareRef r => HardwareMMIODevice_name (serial_buses w !!! r)
  end.

Definition MMIODevice_read (d : MMIODevice) (offset : Z) : M World Z :=
  match d with
  | TimerRef r => w ← get; lift (TimerDevice_read (timer_at w r) offset)
  | DebugOutputRef r => w ← get; lift (DebugOutputDevice_read (debug_outputs w !!! r) offset)
  | HardwareRef r => on_hardware r (HardwareMMIODevice_read offset)
  | SerialHardwareRef r => on_serial r (HardwareMMIODevice_read offset)
  end.

Definition MMIODevice_write (d : MMIODevice) (offset value : Z) : M World unit :=
  match d with
  | TimerRef r =>
      update (fun w => timer_at w r) (fun t w => set_timers (<[r := t]> (timers w)) w)
        (TimerDevice_write offset value)
  | DebugOutputRef r =>
      update (fun w => debug_outputs w !!! r)
        (fun d w => set_debug_outputs (<[r := d]> (debug_outputs w)) w)
        (DebugOutputDevice_write offset value)
  | HardwareRef r => on_hardware r (HardwareMMIODevice_write offset value)
  | SerialHardwareRef r => on_serial r (HardwareMMIODevice_write offset value)
  end.

(** The helpers of [MMIOBus.cpp]; its [rangesOverlap] throws on a bad range. *)
Definition checkedEnd (base size : Z) : outcome Z :=
  if size =? 0 then throw (RuntimeError "MMIO mapping size must be greater than zero")
  else if base >? UINT64_MAX - size then throw (RuntimeError "MMIO mapping address range overflow")
  else mret (base + size).

Definition mmio_rangesOverlap (aBase aSize bBase bSize : Z) : outcome bool :=
  aEnd ← checkedEnd aBase aSize;
  bEnd ← checkedEnd bBase bSize;
  mret ((aBase <? bEnd) && (bBase <? aEnd)).

(** The loop over the existing mappings. *)
Fixpoint check_existing (w : World) (base size : Z) (mappings : MMIOBus) : outcome unit :=
  match mappings with
  | [] => mret tt
  | existing :: rest =>
      overlap ← mmio_rangesOverlap base size (map_base existing) (map_size existing);
      if (overlap : bool)
      then throw (RuntimeError ("MMIO mapping overlaps with existing device: "
                                +:+ MMIODevice_name w (map_device existing)))
      else check_existing w base size rest
  end.

Definition MMIOBus_validateMapping (w : World) (mappings : MMIOBus) (base size : Z)
    (device : option MMIODevice) : outcome MMIODevice :=
  _ ← checkedEnd base size;
  match device with
  | None => throw (RuntimeError "MMIO device must not be null")
  | Some device => _ ← check_existing w base size mappings; mret device
  end.

Definition MMIOBus_mapDevice (w : World) (base size : Z) (device : option MMIODevice)
    (mappings : MMIOBus) : outcome MMIOBus :=
  device ← MMIOBus_validateMapping w mappings base size device;
  mret (mappings ++ [{| map_base := base; map_size := size; map_device := device |}]).

Definition MMIOBus_hasDeviceAt (mappings : MMIOBus) (address : Z) : bool :=
  existsb (fun m => MMIOMapping_contains m address) mappings.

Definition MMIOBus_findMapping (mappings : MMIOBus) (address : Z) : outcome MMIOMapping :=
  match List.find (fun m => MMIOMapping_contains m address) mappings with
  | Some mapping => mret mapping
  | None => throw (RuntimeError "No MMIO device mapped at address")
  end.

(** [read] and [write] through a reference to the bus. *)
Definition MMIOBus_read (bus : nat) (address : Z) : M World Z :=
  w ← get;
  mapping ← lift (MMIOBus_findMapping (bus_at w bus) address);
  MMIODevice_read (map_device mapping) (address - map_base mapping).

Definition MMIOBus_write (bus : nat) (address value : Z) : M World unit :=
  w ← get;
  mapping ← lift (MMIOBus_findMapping (bus_at w bus) address);
  MMIODevice_write (map_device mapping) (address - map_base mapping) value.

(** ** Lemmas *)

Definition mapping_ok (m : MMIOMapping) : Prop :=
  0 <= map_base m /\ 0 < map_size m /\ map_base m + map_size m <= UINT64_MAX.

Definition mappings_disjoint (a b : MMIOMapping) : Prop :=
  map_base a + map_size a <= map_base b \/ map_base b + map_size b <= map_base a.

(** The invariant of a bus: non-empty ranges that do not wrap, pairwise disjoint. *)
Definition bus_ok (ms : MMIOBus) : Prop :=
  Forall mapping_ok ms /\ ForallOrdPairs mappings_disjoint ms.

Lemma contains_spec m address :
  mapping_ok m ->
  MMIOMapping_contains m address = true <-> map_base m <= address < map_base m + map_size m.
Proof.
  intros (Hb & Hs & He). unfold MMIOMapping_contains, MMIOMapping_endExclusive.
  rewrite u64_small by words. rewrite Z.geb_leb, andb_true_iff, Z.leb_le, Z.ltb_lt. lia.
Qed.

Lemma checkedEnd_spec base size e :
  0 <= size -> checkedEnd base size = Ret e <-> 0 < size /\ base + size <= UINT64_MAX /\ e = base + size.
Proof.
  intros Hs. unfold checkedEnd. destruct (size =? 0) eqn:E1; bool_facts.
  - split; [discriminate | lia].
  - destruct (base >? UINT64_MAX - size) eqn:E2; bool_facts.
    + split; [discriminate | lia].
    + split; [intros [= <-]; lia | intros (_ & _ & ->); reflexivity].
Qed.

Lemma mmio_rangesOverlap_spec a b :
  mapping_ok a -> mapping_ok b ->
  exists o, mmio_rangesOverlap (map_base a) (map_size a) (map_base b) (map_size b) = Ret o /\
            (o = false <-> mappings_disjoint a b).
Proof.
  intros (Ha & Hsa & Hea) (Hb & Hsb & Heb). unfold mmio_rangesOverlap.
  rewrite (proj2 (checkedEnd_spec (map_base a) (map_size a) _ ltac:(lia))) by (split; [lia|split; [lia|reflexivity]]).
  rewrite (proj2 (checkedEnd_spec (map_base b) (map_size b) _ ltac:(lia))) by (split; [lia|split; [lia|reflexivity]]).
  eexists. split; [reflexivity|]. unfold mappings_disjoint. rewrite andb_false_iff, !Z.ltb_ge. lia.
Qed.

Definition new_mapping (base size : Z) (d : MMIODevice) : MMIOMapping :=
  {| map_base := base; map_size := size; map_device := d |}.

Lemma check_existing_spec w base size d ms :
  mapping_ok (new_mapping base size d) -> Forall mapping_ok ms ->
  check_existing w base size ms = Ret tt <-> Forall (mappings_disjoint (new_mapping base size d)) ms.
Proof.
  intros Hn. induction 1 as [|m ms Hm Hms IH]; cbn [check_existing]; [split; [constructor | reflexivity]|].
  destruct (mmio_rangesOverlap_spec (new_mapping base size d) m Hn Hm) as (o & Ho & Hd).
  cbn [map_base map_size new_mapping] in Ho. rewrite Ho, bind_Ret.
  rewrite Forall_cons, <- Hd, <- IH. destruct o.
  - split; [discriminate | intros [? _]; discriminate].
  - split; [intros H; split; [reflexivity|exact H] | intros [_ H]; exact H].
Qed.

Lemma mapDevice_spec w ms base size device ms' :
  is_u64 base -> is_u64 size -> Forall mapping_ok ms ->
  MMIOBus_mapDevice w base size device ms = Ret ms' <->
  exists d, device = Some d /\ 0 < size /\ base + size <= UINT64_MAX /\
    Forall (mappings_disjoint (new_mapping base size d)) ms /\ ms' = ms ++ [new_mapping base size d].
Proof.
  intros Hb Hs Hms. unfold MMIOBus_mapDevice, MMIOBus_validateMapping. split.
  - intros H. apply bind_ret_inv in H as (d & H & Hret). injection Hret as <-.
    apply bind_ret_inv in H as (e & He & H). apply checkedEnd_spec in He as (H1 & H2 & _); [|words].
    destruct device as [d'|]; [|discriminate].
    apply bind_ret_inv in H as ([] & Hc & H). injection H as <-. exists d'.
    apply (check_existing_spec w base size d') in Hc; [auto 6 | split; cbn; words | exact Hms].
  - intros (d & -> & H1 & H2 & Hd & ->).
    rewrite (proj2 (checkedEnd_spec base size _ ltac:(words))) by (split; [lia|split; [lia|reflexivity]]).
    rewrite bind_Ret.
    assert (Hnew : mapping_ok (new_mapping base size d)) by (split; cbn; words).
    rewrite (proj2 (check_existing_spec w base size d ms Hnew Hms) Hd). reflexivity.
Qed.

Lemma find_app {A} (f : A -> bool) l1 l2 :
  List.find f (l1 ++ l2) = match List.find f l1 with Some x => Some x | None => List.find f l2 end.
Proof. induction l1 as [|x l1 IH]; cbn; [reflexivity|]. destruct (f x); [reflexivity | exact IH]. Qed.

Lemma find_none_Forall {A} (f : A -> bool) l :
  Forall (fun x => f x = false) l -> List.find f l = None.
Proof. induction 1 as [|x l Hx _ IH]; cbn; [reflexivity|]. rewrite Hx. exact IH. Qed.

Lemma ForallOrdPairs_snoc {A} (R : A -> A -> Prop) l x :
  ForallOrdPairs R l -> Forall (fun y => R y x) l -> ForallOrdPairs R (l ++ [x]).
Proof.
  induction 1 as [|y l Hy Hl IH]; cbn; intros Hx.
  - repeat constructor.
  - apply Forall_cons in Hx as [Hyx Hx]. constructor; [|apply IH, Hx].
    apply Forall_app. split; [exact Hy | repeat constructor; exact Hyx].
Qed.

(** The addresses of a new mapping, on a bus it is disjoint from. *)
Lemma lookup_snoc ms new address :
  Forall mapping_ok ms -> mapping_ok new -> Forall (mappings_disjoint new) ms ->
  let inside := (map_base new <=? address) && (address <? map_base new + map_size new) in
  MMIOBus_findMapping (ms ++ [new]) address =
    (if inside then Ret new else MMIOBus_findMapping ms address) /\
  MMIOBus_hasDeviceAt (ms ++ [new]) address = inside || MMIOBus_hasDeviceAt ms address.
Proof.
  intros Hms Hnew Hd inside.
  assert (Hin : MMIOMapping_contains new address = inside).
  { apply eq_iff_eq_true. rewrite contains_spec by exact Hnew.
    unfold inside. rewrite andb_true_iff, Z.leb_le, Z.ltb_lt. reflexivity. }
  assert (Hout : inside = true -> Forall (fun m => MMIOMapping_contains m address = false) ms).
  { rewrite <- Hin, contains_spec by exact Hnew. intros Ha. rewrite Forall_forall in *.
    intros m Hm. apply not_true_iff_false. rewrite contains_spec by auto.
    specialize (Hd m Hm). unfold mappings_disjoint in Hd. lia. }
  unfold MMIOBus_findMapping, MMIOBus_hasDeviceAt. rewrite find_app, existsb_app.
  cbn [List.find existsb]. rewrite Hin. split.
  - destruct inside; [rewrite find_none_Forall by auto; reflexivity|].
    destruct (List.find _ ms); reflexivity.
  - rewrite orb_false_r. apply orb_comm.
Qed.

(** ** Properties *)

(** On a bus whose mappings are well formed and pairwise disjoint,
    [mapDevice] succeeds exactly when the device is not null, the range is not
    empty, does not wrap, and is disjoint from every mapped range.  The bus then
    still satisfies its invariant, the addresses of the range reach the new
    device at their offset, and every other address reaches what it did. *)
Theorem mapDevice_correct (w : World) (ms : MMIOBus) (base size : Z) (device : option MMIODevice)
    (Hb : is_u64 base) (Hs : is_u64 size) (Hok : bus_ok ms) :
  let inside address := (base <=? address) && (address <? base + size) in
  ((exists ms', MMIOBus_mapDevice w base size device ms = Ret ms') <->
   exists d, device = Some d /\ 0 < size /\ base + size <= UINT64_MAX /\
     Forall (mappings_disjoint (new_mapping base size d)) ms) /\
  (forall ms', MMIOBus_mapDevice w base size device ms = Ret ms' ->
     bus_ok ms' /\
     exists d, device = Some d /\ forall address,
       MMIOBus_findMapping ms' address =
         (if inside address then Ret (new_mapping base size d) else MMIOBus_findMapping ms address) /\
       MMIOBus_hasDeviceAt ms' address = inside address || MMIOBus_hasDeviceAt ms address).
Proof.
  intros inside. destruct Hok as [Hms Hpairs]. split; [split|].
  - intros [ms' H]. apply mapDevice_spec in H as (d & ? & ? & ? & ? & _); eauto 6.
  - intros (d & ? & ? & ? & ?). eexists. apply mapDevice_spec; eauto 7.
  - intros ms' H. apply mapDevice_spec in H as (d & -> & H1 & H2 & Hd & ->); [|assumption..].
    assert (Hnew : mapping_ok (new_mapping base size d)) by (split; cbn; words). split.
    + split; [apply Forall_app; auto|]. apply ForallOrdPairs_snoc; [exact Hpairs|].
      eapply Forall_impl; [exact Hd|]. intros m. unfold mappings_disjoint. tauto.
    + exists d. split; [reflexivity|]. intros address. apply (lookup_snoc ms _ address Hms Hnew Hd).
Qed.

Example mapDevice_correct_witness :
  is_u64 61440 /\ is_u64 16 /\ bus_ok [{| map_base := 61696; map_size := 48; map_device := TimerRef 0 |}] /\
  exists ms', MMIOBus_mapDevice {| controllers := ∅; timers := ∅; debug_outputs := ∅;
                hardware_buses := ∅; serial_buses := ∅; buses := ∅ |} 61440 16 (Some (DebugOutputRef 0))
                [{| map_base := 61696; map_size := 48; map_device := TimerRef 0 |}] = Ret ms'.
Proof.
  assert (Hb : is_u64 61440) by words. assert (Hs : is_u64 16) by words.
  assert (Hok : bus_ok [{| map_base := 61696; map_size := 48; map_device := TimerRef 0 |}]).
  { split; [repeat constructor; cbn; words | repeat constructor]. }
  split; [exact Hb|]. split; [exact Hs|]. split; [exact Hok|].
  destruct (mapDevice_correct {| controllers := ∅; timers := ∅; debug_outputs := ∅;
              hardware_buses := ∅; serial_buses := ∅; buses := ∅ |} _ 61440 16 (Some (DebugOutputRef 0)) Hb Hs Hok)
    as [[_ Hmap] _].
  apply Hmap. exists (DebugOutputRef 0). split; [reflexivity|]. split; [lia|]. split; [words|].
  apply Forall_cons. split; [left; cbn; lia | constructor].
Defined.
