(* ===== verification/DeviceTypes.v ===== *)
(** * The type invariant of the shared store

    Every field of the devices in the [World] keeps a value of its C++ type:
    the well-formedness of interrupt controllers, timers, the debug output and
    the hardware buses, preserved by ticks, acknowledgements and MMIO accesses. *)

From S2P Require Import Prelude Words Interrupts Protocol Serial Devices.
Open Scope Z_scope.

#[export] Hint Resolve i64_range u64_range u8_range u32_range : safe.

Lemma u8_i64 x : is_u8 x -> is_i64 x.
Proof. words. Qed.
#[export] Hint Resolve u8_i64 : safe.

(** ** Well-formed devices *)

Record controller_wf (c : InterruptController) : Prop := {
  cwf_table : map_Forall (fun _ a => is_u64 a) (vector_table c);
  cwf_pending : Forall (fun r => is_u8 (req_vector r) /\ is_i64 (req_payload r)) (pending c);
}.

Record timer_wf (t : TimerDevice) : Prop := {
  twf_vector : is_u8 (tmr_vector t);
  twf_interval : is_u64 (tmr_interval t);
  twf_ticks : is_u64 (tmr_tick_count t);
  twf_interrupts : is_u64 (tmr_interrupt_count t);
  twf_payload : is_i64 (tmr_payload t);
}.

Definition debug_wf (d : DebugOutputDevice) : Prop := Forall is_i64 (dbg_writes d).
Definition hardware_wf (b : MockHardwareBus) : Prop := map_Forall (fun _ v => is_i64 v) (hw_registers b).
Definition transport_wf (t : MockSerialTransport) : Prop := map_Forall (fun _ v => is_i64 v) (st_registers t).
Definition serial_wf (b : SerialHardwareBus MockSerialTransport) : Prop := transport_wf (transport_ b).

Record world_wf (w : World) : Prop := {
  wwf_controllers : map_Forall (fun _ => controller_wf) (controllers w);
  wwf_timers : map_Forall (fun _ => timer_wf) (timers w);
  wwf_debug : map_Forall (fun _ => debug_wf) (debug_outputs w);
  wwf_hardware : map_Forall (fun _ => hardware_wf) (hardware_buses w);
  wwf_serial : map_Forall (fun _ => serial_wf) (serial_buses w);
}.

Lemma total_wf {A} `{Inhabited A} (P : A -> Prop) (m : gmap nat A) r :
  P inhabitant -> map_Forall (fun _ => P) m -> P (m !!! r).
Proof.
  intros H0 Hm. change (P (default inhabitant (m !! r))). destruct (m !! r) as [x|] eqn:E; [|exact H0].
  exact (Hm r x E).
Qed.

Lemma controller_at_wf w r : world_wf w -> controller_wf (controller_at w r).
Proof.
  intros Hw. apply (total_wf controller_wf); [|apply Hw]. constructor; [apply map_Forall_empty | constructor].
Qed.

Lemma timer_at_wf w r : world_wf w -> timer_wf (timer_at w r).
Proof. intros Hw. apply (total_wf timer_wf); [|apply Hw]. constructor; cbn; words. Qed.

Lemma debug_at_wf w r : world_wf w -> debug_wf (debug_outputs w !!! r).
Proof. intros Hw. apply (total_wf debug_wf); [constructor | apply Hw]. Qed.

Lemma hardware_at_wf w r : world_wf w -> hardware_wf (hardware_buses w !!! r).
Proof. intros Hw. apply (total_wf hardware_wf); [apply map_Forall_empty | apply Hw]. Qed.

Lemma serial_at_wf w r : world_wf w -> serial_wf (serial_buses w !!! r).
Proof. intros Hw. apply (total_wf serial_wf); [apply map_Forall_empty | apply Hw]. Qed.

Lemma set_controller_wf w r c :
  world_wf w -> controller_wf c -> world_wf (set_controllers (<[r := c]> (controllers w)) w).
Proof. intros [] Hc. constructor; try assumption. apply map_Forall_insert_2; assumption. Qed.

Lemma set_timer_wf w r t :
  world_wf w -> timer_wf t -> world_wf (set_timers (<[r := t]> (timers w)) w).
Proof. intros [] Hc. constructor; try assumption. apply map_Forall_insert_2; assumption. Qed.

Lemma set_debug_wf w r d :
  world_wf w -> debug_wf d -> world_wf (set_debug_outputs (<[r := d]> (debug_outputs w)) w).
Proof. intros [] Hc. constructor; try assumption. apply map_Forall_insert_2; assumption. Qed.

Lemma set_hardware_wf w r b :
  world_wf w -> hardware_wf b -> world_wf (set_hardware_buses (<[r := b]> (hardware_buses w)) w).
Proof. intros [] Hc. constructor; try assumption. apply map_Forall_insert_2; assumption. Qed.

Lemma set_serial_wf w r b :
  world_wf w -> serial_wf b -> world_wf (set_serial_buses (<[r := b]> (serial_buses w)) w).
Proof. intros [] Hc. constructor; try assumption. apply map_Forall_insert_2; assumption. Qed.

#[export] Hint Resolve controller_at_wf timer_at_wf debug_at_wf hardware_at_wf serial_at_wf
  set_controller_wf set_timer_wf set_debug_wf set_hardware_wf set_serial_wf : safe.

(** ** Operations of the devices *)

Lemma request_wf c v p s :
  controller_wf c -> is_u8 v -> is_i64 p -> controller_wf (InterruptController_request v p s c).
Proof.
  intros [] Hv Hp. constructor; [assumption|]. apply Forall_app. split; [assumption|].
  apply Forall_cons. split; [split; assumption | constructor].
Qed.

Lemma setGlobalEnabled_wf b c : controller_wf c -> controller_wf (InterruptController_setGlobalEnabled b c).
Proof. intros []. constructor; assumption. Qed.
#[export] Hint Resolve setGlobalEnabled_wf : safe.

Lemma vectorHandler_wf c v a : controller_wf c -> InterruptController_vectorHandler c v = Ret a -> is_u64 a.
Proof.
  intros Hc. unfold InterruptController_vectorHandler.
  destruct (vector_table c !! v) as [b|] eqn:E; [|discriminate]. intros [= <-]. exact (cwf_table _ Hc _ _ E).
Qed.

Definition request_ok (r : InterruptRequest) : Prop := is_u8 (req_vector r) /\ is_i64 (req_payload r).

Lemma acknowledge_wf : safe controller_wf InterruptController_acknowledge request_ok.
Proof.
  intros c Hc. unfold InterruptController_acknowledge. rewrite bind_run. cbn [get].
  unfold InterruptController_findDeliverable. destruct (negb _); [exact Hc|].
  destruct (list_find _ _) as [[i r]|] eqn:E; [|exact Hc].
  apply list_find_Some in E as (Hi & _). destruct Hc as [Ht Hp].
  split; [exact (proj1 (Forall_lookup _ _) Hp _ _ Hi)|].
  constructor; [exact Ht | apply Forall_delete, Hp].
Qed.

Lemma tick_wf :
  safe (fun '(t, c) => timer_wf t /\ controller_wf c) TimerDevice_tick (fun _ => True).
Proof.
  unfold TimerDevice_tick, TimerDevice_maybeRequestInterrupt.
  intros [t c] [Htw Hc]. rewrite bind_run. cbn [get]. pose proof Htw as [Hv Hi Ht Hn Hp].
  destruct (tmr_tick_count t =? UINT64_MAX) eqn:E; [split; assumption|]. bool_facts.
  rewrite bind_run. cbn [modify]. rewrite bind_run. cbn [get].
  assert (Ht' : timer_wf (set_tick_count (tmr_tick_count t + 1) t)).
  { constructor; cbn; [exact Hv | exact Hi | words | exact Hn | exact Hp]. }
  destruct (negb (tmr_enabled _)); [exact (conj Logic.I (conj Ht' Hc))|].
  destruct (_ =? 0); [exact (conj Ht' Hc)|].
  destruct (negb _); [exact (conj Logic.I (conj Ht' Hc))|].
  refine (conj Logic.I (conj _ (request_wf _ _ _ _ Hc Hv Hp))). destruct Ht' as [? ? Hticks ? ?].
  constructor; cbn; [exact Hv | exact Hi | exact Hticks | apply u64_range | exact Hp].
Qed.

Lemma timer_read_wf t offset v : timer_wf t -> TimerDevice_read t offset = Ret v -> is_i64 v.
Proof.
  intros []. unfold TimerDevice_read. repeat destruct (offset =? _); intros [= <-]; auto with safe.
  destruct (tmr_enabled t); words.
Qed.

Lemma timer_write_wf t offset v t' :
  timer_wf t -> is_i64 v -> TimerDevice_write offset v t = Ret t' -> timer_wf t'.
Proof.
  intros [] Hv. unfold TimerDevice_write.
  repeat (destruct (offset =? _); [repeat destruct (_ <? _); try destruct (_ <=? _);
    try destruct (_ || _); try destruct (negb _); intros [= <-];
    constructor; cbn; auto with safe; words|]).
  discriminate.
Qed.

Lemma debug_read_wf d offset v : debug_wf d -> DebugOutputDevice_read d offset = Ret v -> is_i64 v.
Proof.
  intros Hd. unfold DebugOutputDevice_read. destruct (offset =? 0).
  - intros [= <-]. destruct (last (dbg_writes d)) as [x|] eqn:E; [|cbn; words].
    apply last_Some in E as (l & El). unfold debug_wf in Hd. rewrite El in Hd.
    apply Forall_app in Hd as [_ Hx]. inversion Hx. assumption.
  - destruct (offset =? 8); intros [= <-]. apply i64_range.
Qed.

Lemma debug_write_wf d offset v d' :
  debug_wf d -> is_i64 v -> DebugOutputDevice_write offset v d = Ret d' -> debug_wf d'.
Proof.
  intros Hd Hv. unfold DebugOutputDevice_write. destruct (negb _); [discriminate|]. intros [= <-].
  apply Forall_app. split; [exact Hd | apply Forall_singleton, Hv].
Qed.

Lemma registerValue_wf b offset : hardware_wf b -> is_i64 (MockHardwareBus_registerValue b offset).
Proof.
  intros Hb. unfold MockHardwareBus_registerValue.
  destruct (hw_registers b !! offset) as [v|] eqn:E; [exact (Hb _ _ E) | words].
Qed.

(** *** Hardware buses

    What the bridge needs of the types of a bus: registers keep signed words.  Both
    buses of the store provide it; the serial one because the protocol parses nothing
    else. *)
Class HardwareBusTypes (B : Type) `{HardwareBus B} := {
  bus_wf : B -> Prop;
  bus_read_wf offset : safe bus_wf (bus_readRegister offset) is_i64;
  bus_write_wf offset v : is_i64 v -> safe bus_wf (bus_writeRegister offset v) (fun _ => True);
}.

#[export] Program Instance MockHardwareBus_types : HardwareBusTypes MockHardwareBus := { bus_wf := hardware_wf }.
Next Obligation.
  intros offset b Hb. cbn. unfold MockHardwareBus_readRegister. rewrite bind_run. cbn [get]. rewrite bind_run.
  destruct (MockHardwareBus_requireConnected b); [|exact Hb]. split; [apply registerValue_wf, Hb | exact Hb].
Qed.
Next Obligation.
  intros offset v Hv b Hb. cbn. unfold MockHardwareBus_writeRegister. rewrite bind_run. cbn [get]. rewrite bind_run.
  destruct (MockHardwareBus_requireConnected b); [|exact Hb]. split; [exact Logic.I|]. apply map_Forall_insert_2; assumption.
Qed.

Lemma answer_wf request : safe transport_wf (answer_request request) (fun _ => True).
Proof.
  unfold answer_request. eapply safe_bind; [apply (safe_lift _ _ Protocol.request_ok), parseRequest_ok | intros r Hr].
  destruct r as [[] o v]; cbn [req_type req_offset req_value Protocol.request_ok] in *.
  - apply safe_ret. exact Logic.I.
  - eapply safe_bind; [apply (safe_gets _ _ (fun _ => True)); auto | intros value _]. apply safe_ret. exact Logic.I.
  - eapply safe_bind; [|intros _ _; apply safe_ret; exact Logic.I].
    apply safe_modify. intros t Ht. apply map_Forall_insert_2; [apply Hr | exact Ht].
Qed.

Lemma transact_wf request timeout : safe transport_wf (MockSerialTransport_transact request timeout) (fun _ => True).
Proof.
  unfold MockSerialTransport_transact. eapply safe_bind; [apply safe_get | intros t Ht].
  eapply safe_bind; [apply (safe_lift _ _ (fun _ => True)); auto | intros _ _].
  eapply safe_bind; [apply safe_throw_if_any | intros _ _].
  eapply safe_bind; [apply safe_modify; auto | intros _ _]. eapply safe_bind; [apply safe_get | intros t' Ht'].
  destruct (timeout_next t').
  { eapply safe_bind; [apply safe_modify; auto | intros _ _; apply safe_throw]. }
  destruct (has_next_raw_response t').
  { eapply safe_bind; [apply safe_modify; auto | intros _ _; apply safe_ret; exact Logic.I]. }
  apply safe_try; [apply answer_wf | intros e; apply safe_ret; exact Logic.I].
Qed.

(** A request and the response it is answered with. *)
Lemma exchange_wf {A} request (k : HardwareProtocolResponse -> M (SerialHardwareBus MockSerialTransport) A) Q :
  (forall r, response_ok r -> safe serial_wf (k r) Q) ->
  safe serial_wf (_ ← SerialHardwareBus_requireConnected; text ← SerialHardwareBus_transact request; response ← lift (parseResponse text); k response) Q.
Proof.
  intros Hk. eapply safe_bind.
  { unfold SerialHardwareBus_requireConnected. eapply safe_bind; [apply safe_get | intros b _; apply safe_throw_if_any]. }
  intros _ _. eapply safe_bind.
  { unfold SerialHardwareBus_transact. eapply safe_bind; [apply safe_get | intros b _].
    eapply safe_zoom; [apply transact_wf | auto | intros b' t _ Ht; exact Ht]. }
  intros text _. eapply safe_bind; [apply (safe_lift _ _ response_ok), parseResponse_ok | exact Hk].
Qed.

#[export] Program Instance SerialHardwareBus_types : HardwareBusTypes (SerialHardwareBus MockSerialTransport) := { bus_wf := serial_wf }.
Next Obligation.
  intros offset. change (safe serial_wf (SerialHardwareBus_readRegister offset) is_i64). unfold SerialHardwareBus_readRegister.
  apply exchange_wf. intros r Hr. eapply safe_bind; [apply safe_throw_if | intros ? _].
  eapply safe_bind; [apply safe_throw_if | intros ? Hv]. apply safe_ret. apply negb_false_iff, bool_decide_eq_true in Hv.
  destruct r as [type v message]. cbn in Hv, Hr |- *. subst type. apply Hr.
Qed.
Next Obligation.
  intros offset v Hv. change (safe serial_wf (SerialHardwareBus_writeRegister offset v) (fun _ => True)).
  unfold SerialHardwareBus_writeRegister. apply exchange_wf. intros r Hr. eapply safe_bind; [apply safe_throw_if_any | intros _ _]. apply safe_throw_if_any.
Qed.

(** The bridge, over any bus with that promise. *)
Section bridge.
Context {B : Type} `{HardwareBusTypes B}.

Lemma hardware_read_wf offset : safe bus_wf (HardwareMMIODevice_read offset) is_i64.
Proof.
  unfold HardwareMMIODevice_read. eapply safe_bind; [apply (safe_lift _ _ (fun _ => True)); auto | intros _ _].
  eapply safe_bind; [apply safe_get | intros b _]. eapply safe_bind; [apply (safe_lift _ _ (fun _ => True)); auto | intros _ _].
  apply bus_read_wf.
Qed.

Lemma hardware_write_wf offset v : is_i64 v -> safe bus_wf (HardwareMMIODevice_write offset v) (fun _ => True).
Proof.
  intros Hv. unfold HardwareMMIODevice_write. eapply safe_bind; [apply (safe_lift _ _ (fun _ => True)); auto | intros _ _].
  eapply safe_bind; [apply safe_get | intros b _]. eapply safe_bind; [apply (safe_lift _ _ (fun _ => True)); auto | intros _ _].
  apply bus_write_wf, Hv.
Qed.

End bridge.

(** ** The shared store *)

Lemma on_controller_safe {A} r (m : M InterruptController A) Q :
  safe controller_wf m Q -> safe world_wf (on_controller r m) Q.
Proof. intros Hm. eapply safe_zoom; [exact Hm | auto with safe | auto with safe]. Qed.

Lemma on_hardware_safe {A} r (m : M MockHardwareBus A) Q :
  safe hardware_wf m Q -> safe world_wf (on_hardware r m) Q.
Proof. intros Hm. eapply safe_zoom; [exact Hm | auto with safe | auto with safe]. Qed.

Lemma on_serial_safe {A} r (m : M (SerialHardwareBus MockSerialTransport) A) Q :
  safe serial_wf m Q -> safe world_wf (on_serial r m) Q.
Proof. intros Hm. eapply safe_zoom; [exact Hm | auto with safe | auto with safe]. Qed.

Lemma timer_tick_safe r : safe world_wf (timer_tick r) (fun _ => True).
Proof.
  eapply safe_zoom; [exact tick_wf | |].
  - intros w Hw. split; auto with safe.
  - intros w [t c] Hw [Ht Hc]. apply (set_controller_wf (set_timers _ w)); auto with safe.
Qed.

Lemma MMIOBus_read_safe bus address : safe world_wf (MMIOBus_read bus address) is_i64.
Proof.
  unfold MMIOBus_read. eapply safe_bind; [apply safe_get | intros w Hw].
  eapply safe_bind; [apply (safe_lift _ _ (fun _ => True)); auto | intros mp _].
  destruct (map_device mp); cbn [MMIODevice_read].
  - eapply safe_bind; [apply safe_get | intros w' Hw']. apply safe_lift. intros v Hv.
    eapply timer_read_wf; [|exact Hv]. auto with safe.
  - eapply safe_bind; [apply safe_get | intros w' Hw']. apply safe_lift. intros v Hv.
    eapply debug_read_wf; [|exact Hv]. auto with safe.
  - apply on_hardware_safe. exact (hardware_read_wf (B := MockHardwareBus) _).
  - apply on_serial_safe. exact (hardware_read_wf (B := SerialHardwareBus MockSerialTransport) _).
Qed.

Lemma MMIOBus_write_safe bus address v :
  is_i64 v -> safe world_wf (MMIOBus_write bus address v) (fun _ => True).
Proof.
  intros Hv. unfold MMIOBus_write. eapply safe_bind; [apply safe_get | intros w Hw].
  eapply safe_bind; [apply (safe_lift _ _ (fun _ => True)); auto | intros mp _].
  destruct (map_device mp); cbn [MMIODevice_write].
  - apply safe_update. intros w' t Hw' Ht. apply set_timer_wf; [exact Hw'|].
    eapply timer_write_wf; [|exact Hv|exact Ht]. auto with safe.
  - apply safe_update. intros w' d Hw' Hd. apply set_debug_wf; [exact Hw'|].
    eapply debug_write_wf; [|exact Hv|exact Hd]. auto with safe.
  - apply on_hardware_safe. exact (hardware_write_wf (B := MockHardwareBus) _ _ Hv).
  - apply on_serial_safe. exact (hardware_write_wf (B := SerialHardwareBus MockSerialTransport) _ _ Hv).
Qed.
