(* ===== verification/CPUState.v ===== *)
(** * The architectural state of the CPU

    Models [src/core/CPUState.cpp], [include/zero_cpu/core/CPUState.hpp] and
    [src/core/PrivilegeLevel.cpp]: registers, memory, FLAGS, privilege level,
    program counter, stack pointer and the halt and error status. *)

From S2P Require Import Prelude Words ALU Memory ISA.
Open Scope Z_scope.

(** ** Privilege levels *)

Inductive PrivilegeLevel := Kernel | User.

#[export] Instance PrivilegeLevel_eq_dec : EqDecision PrivilegeLevel.
Proof. solve_decision. Defined.

Definition privilegeLevelToString (level : PrivilegeLevel) : string :=
  match level with Kernel => "Kernel" | User => "User" end.

Definition privilegeLevelToRaw (level : PrivilegeLevel) : Z :=
  match level with Kernel => 0 | User => 1 end.

Definition privilegeLevelFromRaw (value : Z) : outcome PrivilegeLevel :=
  match value with
  | 0 => mret Kernel
  | 1 => mret User
  | _ => throw (RuntimeError ("Invalid saved privilege level: " +:+ pretty value))
  end.

(** ** The state *)

Record CPUState := {
  registers : list Z;
  memory : Memory;
  flags : Z;
  privilege_level : PrivilegeLevel;
  pc : Z;
  sp : Z;
  halted : bool;
  has_error : bool;
  error_message : string;
}.

#[export] Instance CPUState_eq_dec : EqDecision CPUState.
Proof. solve_decision. Defined.

(** Assignments to the fields. *)
Definition set_registers (registers_ : list Z) (c : CPUState) : CPUState :=
  {| registers := registers_; memory := memory c; flags := flags c; privilege_level :=
     privilege_level c; pc := pc c; sp := sp c; halted := halted c; has_error := has_error c;
     error_message := error_message c |}.
Definition set_memory (memory_ : Memory) (c : CPUState) : CPUState :=
  {| registers := registers c; memory := memory_; flags := flags c; privilege_level :=
     privilege_level c; pc := pc c; sp := sp c; halted := halted c; has_error := has_error c;
     error_message := error_message c |}.
Definition set_flags (flags_ : Z) (c : CPUState) : CPUState :=
  {| registers := registers c; memory := memory c; flags := flags_; privilege_level :=
     privilege_level c; pc := pc c; sp := sp c; halted := halted c; has_error := has_error c;
     error_message := error_message c |}.
Definition setPrivilegeLevel (privilege_level_ : PrivilegeLevel) (c : CPUState) : CPUState :=
  {| registers := registers c; memory := memory c; flags := flags c; privilege_level :=
     privilege_level_; pc := pc c; sp := sp c; halted := halted c; has_error := has_error c;
     error_message := error_message c |}.
Definition setPc (pc_ : Z) (c : CPUState) : CPUState :=
  {| registers := registers c; memory := memory c; flags := flags c; privilege_level :=
     privilege_level c; pc := pc_; sp := sp c; halted := halted c; has_error := has_error c;
     error_message := error_message c |}.
Definition setSp (sp_ : Z) (c : CPUState) : CPUState :=
  {| registers := registers c; memory := memory c; flags := flags c; privilege_level :=
     privilege_level c; pc := pc c; sp := sp_; halted := halted c; has_error := has_error c;
     error_message := error_message c |}.
Definition setHalted (halted_ : bool) (c : CPUState) : CPUState :=
  {| registers := registers c; memory := memory c; flags := flags c; privilege_level :=
     privilege_level c; pc := pc c; sp := sp c; halted := halted_; has_error := has_error c;
     error_message := error_message c |}.
Definition set_error_fields (halted_ : bool) (has_error_ : bool) (error_message_ : string) (c : CPUState) : CPUState :=
  {| registers := registers c; memory := memory c; flags := flags c; privilege_level :=
     privilege_level c; pc := pc c; sp := sp c; halted := halted_; has_error := has_error_;
     error_message := error_message_ |}.

Definition CPUState_isKernelMode (s : CPUState) : bool := bool_decide (privilege_level s = Kernel).
Definition CPUState_isUserMode (s : CPUState) : bool := bool_decide (privilege_level s = User).
Definition CPUState_advancePc (s : CPUState) : CPUState := setPc (u64 (pc s + 1)) s.
Definition CPUState_halt (s : CPUState) : CPUState := setHalted true s.
Definition CPUState_setError (message : string) (s : CPUState) : CPUState :=
  set_error_fields true true message s.
Definition CPUState_clearError (s : CPUState) : CPUState :=
  set_error_fields (halted s) false EmptyString s.

Definition CPUState_kDefaultStackBase : Z := 2048.

Definition CPUState_reset (s : CPUState) : CPUState :=
  {| registers := RegisterFile_reset; memory := Memory_reset (memory s); flags := 0;
     privilege_level := Kernel; pc := 0; sp := CPUState_kDefaultStackBase;
     halted := false; has_error := false; error_message := EmptyString |}.

Definition new_CPUState : CPUState :=
  CPUState_reset {| registers := RegisterFile_reset; memory := new_memory kDefaultMemorySize; flags := 0;
                    privilege_level := Kernel; pc := 0; sp := CPUState_kDefaultStackBase;
                    halted := false; has_error := false; error_message := EmptyString |}.

(** ** The type invariant *)

(** Every field holds a value of its C++ type, and memory has its fixed size. *)
Record state_wf (s : CPUState) : Prop := {
  wf_registers : length (registers s) = kRegisterCount /\ Forall is_i64 (registers s);
  wf_memory : byte_list (memory s);
  wf_memory_size : Memory_size (memory s) = kDefaultMemorySize;
  wf_flags : is_u32 (flags s);
  wf_pc : is_u64 (pc s);
  wf_sp : is_u64 (sp s);
}.

Lemma privilege_raw_roundtrip level : privilegeLevelFromRaw (privilegeLevelToRaw level) = Ret level.
Proof. destruct level; reflexivity. Qed.

Lemma privilege_raw_word level : is_i64 (privilegeLevelToRaw level).
Proof. destruct level; cbn; words. Qed.

Lemma privilegeLevelFromRaw_inv v level :
  privilegeLevelFromRaw v = Ret level -> v = privilegeLevelToRaw level.
Proof.
  unfold privilegeLevelFromRaw. destruct v as [|p|p]; try discriminate; [intros [= <-]; reflexivity|].
  destruct p; try discriminate. intros [= <-]. reflexivity.
Qed.

Lemma new_CPUState_wf : state_wf new_CPUState.
Proof.
  assert (Hz : is_u8 0) by words. assert (Hi : is_i64 0) by words.
  constructor; cbn [new_CPUState CPUState_reset registers memory flags pc sp].
  - split; [reflexivity|]. unfold RegisterFile_reset. apply Forall_replicate, Hi.
  - apply Forall_fmap, Forall_replicate. exact Hz.
  - unfold Memory_size, Memory_reset, new_memory. rewrite length_fmap, length_replicate. reflexivity.
  - words.
  - words.
  - unfold CPUState_kDefaultStackBase. words.
Qed.
