(* ===== verification/Trace.v ===== *)
(** * Execution trace: events and control-flow conditions

    Models [src/trace/TraceLogger.cpp] (the list of recorded events), the
    observations a [TraceEvent] is built from, the differences between them and
    whether a branch is taken.  [TraceDetail.v] adds what the constructor derives
    from these. *)

From S2P Require Import Prelude Words ALU Memory ISA CPUState.
Open Scope Z_scope.

Record TraceEvent := {
  ev_before : CPUState;
  ev_instruction : Instruction;
  ev_after : CPUState;
  ev_error_message : string;
}.

#[export] Instance TraceEvent_eq_dec : EqDecision TraceEvent.
Proof. solve_decision. Defined.

Abbreviation TraceLogger := (list TraceEvent).

Definition TraceLogger_record (event : TraceEvent) (events : TraceLogger) : TraceLogger :=
  events ++ [event].

Definition TraceLogger_clear : TraceLogger := [].

Definition TraceLogger_last (events : TraceLogger) : outcome TraceEvent :=
  match last events with
  | None => throw (RuntimeError "TraceLogger has no events")
  | Some event => mret event
  end.

(** Whether a conditional branch is taken, as the trace reports it. *)
Definition evaluateControlFlowCondition (opcode : Opcode) (flags : Z) : bool :=
  match opcode with
  | JE => Flags_zero flags
  | JNE => negb (Flags_zero flags)
  | JG => negb (Flags_zero flags) && negb (Flags_sign flags)
  | JL => Flags_sign flags
  | _ => true
  end.

Definition controlFlowConditionText (opcode : Opcode) : string :=
  match opcode with
  | JE => "ZF == 1"
  | JNE => "ZF == 0"
  | JG => "ZF == 0 && SF == 0"
  | JL => "SF == 1"
  | _ => ""
  end.

(** The changes between the two states: name or address, value before, value after. *)
Definition analyzeRegisterChanges (e : TraceEvent) : list (string * Z * Z) :=
  let names := ["R0"; "R1"; "R2"; "R3"; "R4"; "R5"; "R6"; "R7"] in
  omap (fun '(i, name) =>
          let before_value := at_ (registers (ev_before e)) i in
          let after_value := at_ (registers (ev_after e)) i in
          if negb (before_value =? after_value) then Some (name, before_value, after_value) else None)
    (zip (seq 0 kRegisterCount) names).

Definition analyzeFlagChanges (e : TraceEvent) : list (string * bool * bool) :=
  let before_flags := flags (ev_before e) in
  let after_flags := flags (ev_after e) in
  omap (fun '(name, test) =>
          if negb (eqb (test before_flags) (test after_flags))
          then Some (name, test before_flags, test after_flags) else None)
    [("ZF", Flags_zero); ("SF", Flags_sign); ("OF", Flags_overflow); ("CF", Flags_carry)].

Definition analyzeMemoryChanges (e : TraceEvent) : list (nat * Z * Z) :=
  let before_memory := memory (ev_before e) in
  let after_memory := memory (ev_after e) in
  omap (fun address =>
          let before_value := at_ before_memory address in
          let after_value := at_ after_memory address in
          if negb (before_value =? after_value) then Some (address, before_value, after_value) else None)
    (seq 0 (length before_memory `min` length after_memory)).

(** ** Properties *)

(** Replaying recorded memory changes. *)
Definition replay (changes : list (nat * Z * Z)) (m : Memory) : Memory :=
  foldl (fun m '(address, _, after) => <[address := after]> m) m changes.

Lemma replay_omap before after n m j :
  length m = length before ->
  let change address :=
    if negb (at_ before address =? at_ after address)
    then Some (address, at_ before address, at_ after address) else None in
  replay (omap change (seq 0 n)) m !! j =
  if decide (j < n /\ j < length m /\ at_ before j <> at_ after j)%nat then Some (at_ after j) else m !! j.
Proof.
  intros Hlen change. revert j. induction n as [|n IH]; intros j.
  - rewrite decide_False by lia. reflexivity.
  - rewrite seq_S, omap_app. unfold replay. rewrite foldl_app. fold (replay (omap change (seq 0 n)) m).
    assert (Hn : change n = if at_ before n =? at_ after n then None
                            else Some (n, at_ before n, at_ after n))
      by (unfold change; destruct (_ =? _); reflexivity).
    cbn [omap list_omap Nat.add]. rewrite Hn.
    destruct (Z.eqb_spec (at_ before n) (at_ after n)) as [E|E]; cbn [negb foldl].
    + rewrite IH. destruct (decide (j = n)) as [->|Hne].
      * rewrite !decide_False by (intros (? & ? & ?); contradiction || lia). reflexivity.
      * repeat case_decide; reflexivity || lia.
    + assert (Hl : length (replay (omap change (seq 0 n)) m) = length m).
      { clear. generalize (omap change (seq 0 n)). intros l. revert m.
        induction l as [|[[a b] v] l IHl]; intros m; [reflexivity|].
        unfold replay. cbn [foldl]. fold (replay l (<[a:=v]> m)). rewrite IHl. apply length_insert. }
      destruct (decide (j = n)) as [->|Hne].
      * destruct (decide (n < length m)%nat) as [Hlt|Hge].
        -- rewrite list_lookup_insert_eq by lia. rewrite decide_True by (split; [lia|auto]). reflexivity.
        -- rewrite list_insert_ge by lia. rewrite IH, !decide_False by lia. reflexivity.
      * rewrite list_lookup_insert_ne by auto. rewrite IH. repeat case_decide; reflexivity || lia.
Qed.

(** The memory changes an event records are complete: replaying them on
    the memory before gives the memory after, whatever happened in between; and
    they are minimal: no change is recorded for a byte that kept its value. *)
Theorem memory_changes_complete (e : TraceEvent)
    (Hlen : length (memory (ev_before e)) = length (memory (ev_after e))) :
  replay (analyzeMemoryChanges e) (memory (ev_before e)) = memory (ev_after e) /\
  Forall (fun '(address, before, after) => before <> after /\
            memory (ev_before e) !! address = Some before /\ memory (ev_after e) !! address = Some after)
    (analyzeMemoryChanges e).
Proof.
  set (b := memory (ev_before e)) in *. set (a := memory (ev_after e)) in *.
  assert (Hat : forall (l : list Z) j, (j < length l)%nat -> l !! j = Some (at_ l j)).
  { intros l j Hj. destruct (lookup_lt_is_Some_2 l j Hj) as [x Hx]. rewrite Hx. f_equal.
    symmetry. apply at_lookup, Hx. }
  unfold analyzeMemoryChanges. fold b a. split.
  - apply list_eq. intros j. rewrite (replay_omap b a _ b j eq_refl). rewrite <- Hlen, Nat.min_id.
    case_decide as H.
    + symmetry. apply Hat. lia.
    + destruct (decide (j < length b)%nat).
      * rewrite !Hat by lia. f_equal. destruct (decide (at_ b j = at_ a j)); [assumption | tauto].
      * rewrite !lookup_ge_None_2 by lia. reflexivity.
  - rewrite Forall_forall. intros [[j x] y] Hin. apply list_elem_of_omap in Hin as (i & Hi & Hx).
    apply elem_of_seq in Hi. cbv zeta in Hx.
    destruct (Z.eqb_spec (at_ b i) (at_ a i)) as [E|E]; cbn in Hx; [discriminate|].
    injection Hx as <- <- <-. split; [exact E|]. split; apply Hat; lia.
Qed.

Example memory_changes_complete_witness :
  let before := new_CPUState in
  let after := set_memory (<[3%nat := 9]> (memory before)) before in
  let e := {| ev_before := before; ev_instruction := Build_Instruction NOP none none;
              ev_after := after; ev_error_message := "" |} in
  length (memory (ev_before e)) = length (memory (ev_after e)) /\
  replay (analyzeMemoryChanges e) (memory before) = memory after.
Proof.
  intros before after e.
  assert (Hlen : length (memory (ev_before e)) = length (memory (ev_after e)))
    by (cbn [e ev_before ev_after after set_memory memory]; rewrite length_insert; reflexivity).
  split; [exact Hlen|]. apply (memory_changes_complete e Hlen).
Defined.

(** The branch verdict of the trace is not the CPU's: after [CMP] of
    [INT64_MIN] and [1] the CPU takes [JL] (the first operand is less), but the
    trace, which looks at the sign flag alone, reports the branch as not taken;
    [JG] is the mirror image.  With the overflow flag clear the two agree. *)
Theorem trace_branch_verdict_diverges :
  (let f := applyALUResultToFlags 0 (ALU_compare INT64_MIN 1) in
   signedLessThanFromFlags f = true /\ evaluateControlFlowCondition JL f = false /\
   signedGreaterThanFromFlags f = false /\ evaluateControlFlowCondition JG f = true) /\
  (forall f, Flags_overflow f = false \/
     evaluateControlFlowCondition JL f <> signedLessThanFromFlags f) /\
  (forall f, Flags_overflow f = true \/
     (evaluateControlFlowCondition JL f = signedLessThanFromFlags f /\
      evaluateControlFlowCondition JG f = signedGreaterThanFromFlags f)).
Proof.
  split; [vm_compute; auto|]. unfold evaluateControlFlowCondition, signedLessThanFromFlags,
    signedGreaterThanFromFlags. split; intros f.
  - destruct (Flags_overflow f); [right|left; reflexivity].
    destruct (Flags_sign f); discriminate.
  - destruct (Flags_overflow f); [left; reflexivity | right].
    destruct (Flags_sign f), (Flags_zero f); auto.
Qed.
