(* ===== verification/CPU.v ===== *)
(** * The CPU: state, protection checks, stacks and interrupt frames

    Models the data members of [include/zero_cpu/core/CPU.hpp], the interface
    [include/zero_cpu/core/SoftwareInterruptHandler.hpp], and the parts of
    [src/core/CPU.cpp] that the instructions are built from: memory protection,
    execution protection, user code ranges, the user and kernel stacks, and the
    frames pushed and restored around an interrupt.  A [const] member function
    is a function of the [CPU]; a member function that assigns is a computation
    over [Machine], the CPU together with the shared store and the host's
    software interrupt handler. *)

From S2P Require Import Prelude Words ALU Memory ISA Binary Interrupts Devices CPUState Trace.
Open Scope Z_scope.

(** ** Software interrupt results *)

Inductive SoftwareInterruptDisposition := ReturnToCaller | TerminateProcess.

#[export] Instance SoftwareInterruptDisposition_eq_dec : EqDecision SoftwareInterruptDisposition.
Proof. solve_decision. Defined.

Definition softwareInterruptDispositionToString (d : SoftwareInterruptDisposition) : string :=
  match d with ReturnToCaller => "ReturnToCaller" | TerminateProcess => "TerminateProcess" end.

(** The [has_x] flag and [x] pairs of the struct as options: the value is only
    read when its flag is set. *)
Record SoftwareInterruptResult := {
  disposition : SoftwareInterruptDisposition;
  exit_code : Z;
  service_number : option Z;
  argument0 : option Z;
  argument1 : option Z;
  status : option Z;
  result_value : option Z;
}.

#[export] Instance SoftwareInterruptResult_eq_dec : EqDecision SoftwareInterruptResult.
Proof. solve_decision. Defined.

Definition SoftwareInterruptResult_returnToCaller : SoftwareInterruptResult :=
  {| disposition := ReturnToCaller; exit_code := 0; service_number := None; argument0 := None;
     argument1 := None; status := None; result_value := None |}.

Definition SoftwareInterruptResult_terminateProcess (exitCode : Z) : SoftwareInterruptResult :=
  {| disposition := TerminateProcess; exit_code := exitCode; service_number := None;
     argument0 := None; argument1 := None; status := None; result_value := None |}.

Record SoftwareInterruptObservation := { obs_vector : Z; obs_result : SoftwareInterruptResult }.

Definition no_observation : SoftwareInterruptObservation :=
  {| obs_vector := 0; obs_result := SoftwareInterruptResult_returnToCaller |}.

(** ** The CPU *)

Definition kStackSlotSize : Z := 8.
Definition kInterruptFrameSlotCount : Z := 4.
Definition kInterruptFrameSize : Z := kStackSlotSize * kInterruptFrameSlotCount.
Definition kDefaultBinaryCodeBase : Z := 512.
Definition kDefaultMaxSteps : nat := Pos.to_nat 100000.

(** The shared pointers are references into the store; the handler, which the
    CPU only calls, is a flag here and an object of the machine below. *)
Record CPU := {
  state : CPUState;
  program : list Instruction;
  labels : LabelTable;
  trace_logger : TraceLogger;
  has_binary_program : bool;
  binary_code_base : Z;
  binary_entry_point : Z;
  binary_code_size : Z;
  has_user_code_range : bool;
  user_code_begin : Z;
  user_code_end_exclusive : Z;
  kernel_stack_pointer : Z;
  using_kernel_interrupt_stack : bool;
  mmio_bus : option nat;
  interrupt_controller : option nat;
  has_software_interrupt_handler : bool;
  has_software_interrupt_observation : bool;
  software_interrupt_observation : SoftwareInterruptObservation;
  process_exit_requested : bool;
  process_exit_code : Z;
  clocked_devices : list (option nat);
}.

(** Assignments to the members. *)
Definition set_state (x0 : CPUState) (c : CPU) : CPU :=
  {| state := x0; program := program c; labels := labels c; trace_logger := trace_logger c;
     has_binary_program := has_binary_program c; binary_code_base := binary_code_base c;
     binary_entry_point := binary_entry_point c; binary_code_size := binary_code_size c;
     has_user_code_range := has_user_code_range c; user_code_begin := user_code_begin c;
     user_code_end_exclusive := user_code_end_exclusive c; kernel_stack_pointer :=
     kernel_stack_pointer c; using_kernel_interrupt_stack := using_kernel_interrupt_stack c;
     mmio_bus := mmio_bus c; interrupt_controller := interrupt_controller c;
     has_software_interrupt_handler := has_software_interrupt_handler c;
     has_software_interrupt_observation := has_software_interrupt_observation c;
     software_interrupt_observation := software_interrupt_observation c; process_exit_requested :=
     process_exit_requested c; process_exit_code := process_exit_code c; clocked_devices :=
     clocked_devices c |}.
Definition set_program (x0 : list Instruction) (x1 : LabelTable) (c : CPU) : CPU :=
  {| state := state c; program := x0; labels := x1; trace_logger := trace_logger c;
     has_binary_program := has_binary_program c; binary_code_base := binary_code_base c;
     binary_entry_point := binary_entry_point c; binary_code_size := binary_code_size c;
     has_user_code_range := has_user_code_range c; user_code_begin := user_code_begin c;
     user_code_end_exclusive := user_code_end_exclusive c; kernel_stack_pointer :=
     kernel_stack_pointer c; using_kernel_interrupt_stack := using_kernel_interrupt_stack c;
     mmio_bus := mmio_bus c; interrupt_controller := interrupt_controller c;
     has_software_interrupt_handler := has_software_interrupt_handler c;
     has_software_interrupt_observation := has_software_interrupt_observation c;
     software_interrupt_observation := software_interrupt_observation c; process_exit_requested :=
     process_exit_requested c; process_exit_code := process_exit_code c; clocked_devices :=
     clocked_devices c |}.
Definition set_trace (x0 : TraceLogger) (c : CPU) : CPU :=
  {| state := state c; program := program c; labels := labels c; trace_logger := x0;
     has_binary_program := has_binary_program c; binary_code_base := binary_code_base c;
     binary_entry_point := binary_entry_point c; binary_code_size := binary_code_size c;
     has_user_code_range := has_user_code_range c; user_code_begin := user_code_begin c;
     user_code_end_exclusive := user_code_end_exclusive c; kernel_stack_pointer :=
     kernel_stack_pointer c; using_kernel_interrupt_stack := using_kernel_interrupt_stack c;
     mmio_bus := mmio_bus c; interrupt_controller := interrupt_controller c;
     has_software_interrupt_handler := has_software_interrupt_handler c;
     has_software_interrupt_observation := has_software_interrupt_observation c;
     software_interrupt_observation := software_interrupt_observation c; process_exit_requested :=
     process_exit_requested c; process_exit_code := process_exit_code c; clocked_devices :=
     clocked_devices c |}.
Definition set_binary (x0 : bool) (x1 : Z) (x2 : Z) (x3 : Z) (c : CPU) : CPU :=
  {| state := state c; program := program c; labels := labels c; trace_logger := trace_logger c;
     has_binary_program := x0; binary_code_base := x1; binary_entry_point := x2; binary_code_size
     := x3; has_user_code_range := has_user_code_range c; user_code_begin := user_code_begin c;
     user_code_end_exclusive := user_code_end_exclusive c; kernel_stack_pointer :=
     kernel_stack_pointer c; using_kernel_interrupt_stack := using_kernel_interrupt_stack c;
     mmio_bus := mmio_bus c; interrupt_controller := interrupt_controller c;
     has_software_interrupt_handler := has_software_interrupt_handler c;
     has_software_interrupt_observation := has_software_interrupt_observation c;
     software_interrupt_observation := software_interrupt_observation c; process_exit_requested :=
     process_exit_requested c; process_exit_code := process_exit_code c; clocked_devices :=
     clocked_devices c |}.
Definition set_user_code_range (x0 : bool) (x1 : Z) (x2 : Z) (c : CPU) : CPU :=
  {| state := state c; program := program c; labels := labels c; trace_logger := trace_logger c;
     has_binary_program := has_binary_program c; binary_code_base := binary_code_base c;
     binary_entry_point := binary_entry_point c; binary_code_size := binary_code_size c;
     has_user_code_range := x0; user_code_begin := x1; user_code_end_exclusive := x2;
     kernel_stack_pointer := kernel_stack_pointer c; using_kernel_interrupt_stack :=
     using_kernel_interrupt_stack c; mmio_bus := mmio_bus c; interrupt_controller :=
     interrupt_controller c; has_software_interrupt_handler := has_software_interrupt_handler c;
     has_software_interrupt_observation := has_software_interrupt_observation c;
     software_interrupt_observation := software_interrupt_observation c; process_exit_requested :=
     process_exit_requested c; process_exit_code := process_exit_code c; clocked_devices :=
     clocked_devices c |}.
Definition set_kernel_stack_pointer (x0 : Z) (c : CPU) : CPU :=
  {| state := state c; program := program c; labels := labels c; trace_logger := trace_logger c;
     has_binary_program := has_binary_program c; binary_code_base := binary_code_base c;
     binary_entry_point := binary_entry_point c; binary_code_size := binary_code_size c;
     has_user_code_range := has_user_code_range c; user_code_begin := user_code_begin c;
     user_code_end_exclusive := user_code_end_exclusive c; kernel_stack_pointer := x0;
     using_kernel_interrupt_stack := using_kernel_interrupt_stack c; mmio_bus := mmio_bus c;
     interrupt_controller := interrupt_controller c; has_software_interrupt_handler :=
     has_software_interrupt_handler c; has_software_interrupt_observation :=
     has_software_interrupt_observation c; software_interrupt_observation :=
     software_interrupt_observation c; process_exit_requested := process_exit_requested c;
     process_exit_code := process_exit_code c; clocked_devices := clocked_devices c |}.
Definition set_using_kernel_interrupt_stack (x0 : bool) (c : CPU) : CPU :=
  {| state := state c; program := program c; labels := labels c; trace_logger := trace_logger c;
     has_binary_program := has_binary_program c; binary_code_base := binary_code_base c;
     binary_entry_point := binary_entry_point c; binary_code_size := binary_code_size c;
     has_user_code_range := has_user_code_range c; user_code_begin := user_code_begin c;
     user_code_end_exclusive := user_code_end_exclusive c; kernel_stack_pointer :=
     kernel_stack_pointer c; using_kernel_interrupt_stack := x0; mmio_bus := mmio_bus c;
     interrupt_controller := interrupt_controller c; has_software_interrupt_handler :=
     has_software_interrupt_handler c; has_software_interrupt_observation :=
     has_software_interrupt_observation c; software_interrupt_observation :=
     software_interrupt_observation c; process_exit_requested := process_exit_requested c;
     process_exit_code := process_exit_code c; clocked_devices := clocked_devices c |}.
Definition set_mmio_bus (x0 : option nat) (c : CPU) : CPU :=
  {| state := state c; program := program c; labels := labels c; trace_logger := trace_logger c;
     has_binary_program := has_binary_program c; binary_code_base := binary_code_base c;
     binary_entry_point := binary_entry_point c; binary_code_size := binary_code_size c;
     has_user_code_range := has_user_code_range c; user_code_begin := user_code_begin c;
     user_code_end_exclusive := user_code_end_exclusive c; kernel_stack_pointer :=
     kernel_stack_pointer c; using_kernel_interrupt_stack := using_kernel_interrupt_stack c;
     mmio_bus := x0; interrupt_controller := interrupt_controller c; has_software_interrupt_handler
     := has_software_interrupt_handler c; has_software_interrupt_observation :=
     has_software_interrupt_observation c; software_interrupt_observation :=
     software_interrupt_observation c; process_exit_requested := process_exit_requested c;
     process_exit_code := process_exit_code c; clocked_devices := clocked_devices c |}.
Definition set_interrupt_controller (x0 : option nat) (c : CPU) : CPU :=
  {| state := state c; program := program c; labels := labels c; trace_logger := trace_logger c;
     has_binary_program := has_binary_program c; binary_code_base := binary_code_base c;
     binary_entry_point := binary_entry_point c; binary_code_size := binary_code_size c;
     has_user_code_range := has_user_code_range c; user_code_begin := user_code_begin c;
     user_code_end_exclusive := user_code_end_exclusive c; kernel_stack_pointer :=
     kernel_stack_pointer c; using_kernel_interrupt_stack := using_kernel_interrupt_stack c;
     mmio_bus := mmio_bus c; interrupt_controller := x0; has_software_interrupt_handler :=
     has_software_interrupt_handler c; has_software_interrupt_observation :=
     has_software_interrupt_observation c; software_interrupt_observation :=
     software_interrupt_observation c; process_exit_requested := process_exit_requested c;
     process_exit_code := process_exit_code c; clocked_devices := clocked_devices c |}.
Definition set_has_handler (x0 : bool) (c : CPU) : CPU :=
  {| state := state c; program := program c; labels := labels c; trace_logger := trace_logger c;
     has_binary_program := has_binary_program c; binary_code_base := binary_code_base c;
     binary_entry_point := binary_entry_point c; binary_code_size := binary_code_size c;
     has_user_code_range := has_user_code_range c; user_code_begin := user_code_begin c;
     user_code_end_exclusive := user_code_end_exclusive c; kernel_stack_pointer :=
     kernel_stack_pointer c; using_kernel_interrupt_stack := using_kernel_interrupt_stack c;
     mmio_bus := mmio_bus c; interrupt_controller := interrupt_controller c;
     has_software_interrupt_handler := x0; has_software_interrupt_observation :=
     has_software_interrupt_observation c; software_interrupt_observation :=
     software_interrupt_observation c; process_exit_requested := process_exit_requested c;
     process_exit_code := process_exit_code c; clocked_devices := clocked_devices c |}.
Definition set_observation (x0 : bool) (x1 : SoftwareInterruptObservation) (c : CPU) : CPU :=
  {| state := state c; program := program c; labels := labels c; trace_logger := trace_logger c;
     has_binary_program := has_binary_program c; binary_code_base := binary_code_base c;
     binary_entry_point := binary_entry_point c; binary_code_size := binary_code_size c;
     has_user_code_range := has_user_code_range c; user_code_begin := user_code_begin c;
     user_code_end_exclusive := user_code_end_exclusive c; kernel_stack_pointer :=
     kernel_stack_pointer c; using_kernel_interrupt_stack := using_kernel_interrupt_stack c;
     mmio_bus := mmio_bus c; interrupt_controller := interrupt_controller c;
     has_software_interrupt_handler := has_software_interrupt_handler c;
     has_software_interrupt_observation := x0; software_interrupt_observation := x1;
     process_exit_requested := process_exit_requested c; process_exit_code := process_exit_code c;
     clocked_devices := clocked_devices c |}.
Definition set_process_exit (x0 : bool) (x1 : Z) (c : CPU) : CPU :=
  {| state := state c; program := program c; labels := labels c; trace_logger := trace_logger c;
     has_binary_program := has_binary_program c; binary_code_base := binary_code_base c;
     binary_entry_point := binary_entry_point c; binary_code_size := binary_code_size c;
     has_user_code_range := has_user_code_range c; user_code_begin := user_code_begin c;
     user_code_end_exclusive := user_code_end_exclusive c; kernel_stack_pointer :=
     kernel_stack_pointer c; using_kernel_interrupt_stack := using_kernel_interrupt_stack c;
     mmio_bus := mmio_bus c; interrupt_controller := interrupt_controller c;
     has_software_interrupt_handler := has_software_interrupt_handler c;
     has_software_interrupt_observation := has_software_interrupt_observation c;
     software_interrupt_observation := software_interrupt_observation c; process_exit_requested :=
     x0; process_exit_code := x1; clocked_devices := clocked_devices c |}.
Definition set_clocked_devices (x0 : list (option nat)) (c : CPU) : CPU :=
  {| state := state c; program := program c; labels := labels c; trace_logger := trace_logger c;
     has_binary_program := has_binary_program c; binary_code_base := binary_code_base c;
     binary_entry_point := binary_entry_point c; binary_code_size := binary_code_size c;
     has_user_code_range := has_user_code_range c; user_code_begin := user_code_begin c;
     user_code_end_exclusive := user_code_end_exclusive c; kernel_stack_pointer :=
     kernel_stack_pointer c; using_kernel_interrupt_stack := using_kernel_interrupt_stack c;
     mmio_bus := mmio_bus c; interrupt_controller := interrupt_controller c;
     has_software_interrupt_handler := has_software_interrupt_handler c;
     has_software_interrupt_observation := has_software_interrupt_observation c;
     software_interrupt_observation := software_interrupt_observation c; process_exit_requested :=
     process_exit_requested c; process_exit_code := process_exit_code c; clocked_devices := x0 |}.

(** ** The machine *)

(** The abstract class [SoftwareInterruptHandler]: an object of type [H] that
    says which vectors it handles and serves them on the CPU state, with access
    to the bus and so to the shared store. *)
Class SoftwareInterruptHandler (H : Type) := {
  handles : H -> Z -> bool;
  handle : Z -> option nat -> M (H * CPUState * World) SoftwareInterruptResult;
}.

Record Machine (H : Type) := mkMachine { cpu : CPU; world : World; handler : H }.
Arguments mkMachine {H} _ _ _.
Arguments cpu {H} _.
Arguments world {H} _.
Arguments handler {H} _.

(** The CPU state of a machine. *)
Definition mstate {H} (m : Machine H) : CPUState := state (cpu m).

Definition set_cpu {H} (f : CPU -> CPU) (m : Machine H) : Machine H :=
  mkMachine (f (cpu m)) (world m) (handler m).
Definition set_mstate {H} (f : CPUState -> CPUState) (m : Machine H) : Machine H :=
  set_cpu (fun c => set_state (f (state c)) c) m.

(** A [const] member function, an assignment to a member, a call on [state_],
    a store to [state_.memory()] and an access to a shared object. *)
Definition check {H A} (f : CPU -> outcome A) : M (Machine H) A := fun m => (f (cpu m), m).
Definition assign {H} (f : CPU -> CPU) : M (Machine H) unit := modify (set_cpu f).
Definition on_state {H} (f : CPUState -> CPUState) : M (Machine H) unit := modify (set_mstate f).
Definition try_state {H} (f : CPUState -> outcome CPUState) : M (Machine H) unit :=
  update mstate (fun s => set_mstate (fun _ => s)) f.
Definition on_world {H A} (m : M World A) : M (Machine H) A :=
  zoom world (fun w mc => mkMachine (cpu mc) w (handler mc)) m.

Definition write_memory {H} (address value : Z) : M (Machine H) unit :=
  try_state (fun s => mem ← Memory_write (memory s) address value; mret (set_memory mem s)).
Definition write_register {H} (reg : RegisterName) (value : Z) : M (Machine H) unit :=
  try_state (fun s => regs ← RegisterFile_set (registers s) reg value; mret (set_registers regs s)).

(** ** Construction and loading *)

Definition new_CPU : CPU :=
  {| state := new_CPUState; program := []; labels := ∅; trace_logger := []; has_binary_program := false;
     binary_code_base := 0; binary_entry_point := 0; binary_code_size := 0;
     has_user_code_range := false; user_code_begin := 0; user_code_end_exclusive := 0;
     kernel_stack_pointer := kKernelStackBase; using_kernel_interrupt_stack := false;
     mmio_bus := None; interrupt_controller := None; has_software_interrupt_handler := false;
     has_software_interrupt_observation := false; software_interrupt_observation := no_observation;
     process_exit_requested := false; process_exit_code := 0; clocked_devices := [] |}.

Definition clearSoftwareInterruptObservation (c : CPU) : CPU := set_observation false no_observation c.
Definition clearProcessExitRequest (c : CPU) : CPU := set_process_exit false 0 c.

Definition CPU_reset (c : CPU) : CPU :=
  let c := set_state (CPUState_reset (state c)) c in
  let c := set_program [] ∅ c in
  let c := set_trace TraceLogger_clear c in
  let c := set_binary false 0 0 0 c in
  let c := set_user_code_range false 0 0 c in
  let c := set_kernel_stack_pointer kKernelStackBase c in
  let c := set_using_kernel_interrupt_stack false c in
  let c := set_process_exit false 0 c in
  set_observation false no_observation c.

Definition loadProgram (prog : list Instruction) (table : LabelTable) (c : CPU) : CPU :=
  let c := set_state (CPUState_reset (state c)) c in
  let c := set_program prog table c in
  let c := set_trace TraceLogger_clear c in
  let c := set_binary false 0 0 0 c in
  let c := set_user_code_range (negb (bool_decide (prog = []))) 0 (Z.of_nat (length prog)) c in
  let c := set_kernel_stack_pointer kKernelStackBase c in
  let c := set_using_kernel_interrupt_stack false c in
  set_process_exit false 0 c.

Definition loadBinaryProgram (prog : BinaryProgram) : M CPU unit :=
  _ ← modify (fun c => set_state (CPUState_reset (state c)) c);
  _ ← modify (set_program [] ∅);
  _ ← modify (set_trace TraceLogger_clear);
  image ← zoom (fun c => memory (state c)) (fun mem c => set_state (set_memory mem (state c)) c)
            (BinaryLoader_loadIntoMemory prog kDefaultBinaryCodeBase);
  _ ← modify (fun c => set_state (setPc (img_entry_point image) (state c)) c);
  _ ← modify (set_binary true (img_code_base image) (img_entry_point image) (img_code_size image));
  _ ← modify (set_user_code_range (negb (img_code_size image =? 0)) (img_code_base image)
                (u64 (img_code_base image + img_code_size image)));
  _ ← modify (set_kernel_stack_pointer kKernelStackBase);
  _ ← modify (set_using_kernel_interrupt_stack false);
  modify (set_process_exit false 0).

(** ** Code ranges *)

Definition isBinaryPcInCode (c : CPU) (pc : Z) : bool :=
  let codeBegin := binary_code_base c in
  let codeEnd := u64 (binary_code_base c + binary_code_size c) in
  if pc <? codeBegin then false
  else if pc >=? codeEnd then false
  else if codeEnd - pc <? kInstructionSize then false
  else (pc - codeBegin) mod kInstructionSize =? 0.

Definition isLoadedCodeAddress (c : CPU) (address : Z) : bool :=
  if has_binary_program c then isBinaryPcInCode c address
  else address <? Z.of_nat (length (program c)).

Definition validateUserCodeRange (c : CPU) (rangeBegin endExclusive : Z) : outcome unit :=
  if rangeBegin >=? endExclusive then throw (RuntimeError "User code range must be non-empty")
  else if has_binary_program c then
    let codeEnd := u64 (binary_code_base c + binary_code_size c) in
    if (rangeBegin <? binary_code_base c) || (endExclusive >? codeEnd)
    then throw (RuntimeError "User code range is outside loaded binary code")
    else if negb ((rangeBegin - binary_code_base c) mod kInstructionSize =? 0)
            || negb ((endExclusive - binary_code_base c) mod kInstructionSize =? 0)
    then throw (RuntimeError "User binary code range must be instruction-aligned")
    else mret tt
  else if bool_decide (program c = []) || (endExclusive >? Z.of_nat (length (program c)))
  then throw (RuntimeError "User code range is outside loaded program")
  else mret tt.

Definition setUserCodeRange (rangeBegin endExclusive : Z) (c : CPU) : outcome CPU :=
  _ ← validateUserCodeRange c rangeBegin endExclusive;
  mret (set_user_code_range true rangeBegin endExclusive c).

Definition clearUserCodeRange (c : CPU) : CPU := set_user_code_range false 0 0 c.

(** ** Protection checks *)

Definition requireDataMemoryAccess (c : CPU) (address : Z) (operation : string) : outcome unit :=
  if negb (CPUState_isUserMode (state c)) then mret tt
  else if isUserDataRange address 8 then mret tt
  else throw (RuntimeError ("Memory protection violation: User mode cannot " +:+ operation
                            +:+ " address " +:+ pretty address)).

Definition requireExecutionAddress (c : CPU) (address : Z) (privilege : PrivilegeLevel) : outcome unit :=
  if negb (bool_decide (privilege = User)) then mret tt
  else
    let insideUserRange := has_user_code_range c && (address >=? user_code_begin c)
                           && (address <? user_code_end_exclusive c) in
    if insideUserRange && isLoadedCodeAddress c address then mret tt
    else throw (RuntimeError ("Execution protection violation: User mode cannot execute address "
                              +:+ pretty address)).

Definition requireCurrentPcExecutable (c : CPU) : outcome unit :=
  requireExecutionAddress c (pc (state c)) (privilege_level (state c)).

Definition requireInstructionPrivilege (c : CPU) (opcode : Opcode) : outcome unit :=
  if negb (CPUState_isUserMode (state c)) then mret tt
  else match opcode with
       | HALT | IRET | EI | DI =>
           throw (RuntimeError ("Privilege violation: " +:+ opcodeToString opcode
                                +:+ " requires Kernel mode"))
       | _ => mret tt
       end.

Definition checkedReturnAddress (returnAddress : Z) (context : string) : outcome Z :=
  if returnAddress <? 0 then throw (RuntimeError context) else mret (u64 returnAddress).

(** ** Stack checks *)

Definition activeStackBase (c : CPU) : Z :=
  if CPUState_isUserMode (state c) then kUserStackBase
  else if using_kernel_interrupt_stack c then kKernelStackBase
  else CPUState_kDefaultStackBase.

Definition activeStackEndExclusive (c : CPU) : Z :=
  if CPUState_isUserMode (state c) then kUserStackEndExclusive
  else if using_kernel_interrupt_stack c then kKernelStackEndExclusive
  else Memory_size (memory (state c)).

Definition requireStackPointerInRange (sp stackBase stackEndExclusive : Z) : outcome unit :=
  if sp <? stackBase then throw (RuntimeError "Stack pointer is below stack base")
  else if negb ((sp - stackBase) mod kStackSlotSize =? 0)
  then throw (RuntimeError "Stack pointer is not slot-aligned")
  else if sp >? stackEndExclusive then throw (RuntimeError "Stack pointer is outside memory")
  else mret tt.

Definition requireStackPushSlotsAt (sp stackBase stackEndExclusive slotCount : Z) : outcome unit :=
  _ ← requireStackPointerInRange sp stackBase stackEndExclusive;
  let availableSlots := (stackEndExclusive - sp) / kStackSlotSize in
  if slotCount >? availableSlots then throw (RuntimeError "Stack overflow") else mret tt.

Definition requireStackPopSlotsAt (sp stackBase stackEndExclusive slotCount : Z) : outcome unit :=
  _ ← requireStackPointerInRange sp stackBase stackEndExclusive;
  let usedSlots := (sp - stackBase) / kStackSlotSize in
  if slotCount >? usedSlots then throw (RuntimeError "Stack underflow") else mret tt.

Definition requireStackPushSlots (slotCount : Z) (c : CPU) : outcome unit :=
  requireStackPushSlotsAt (sp (state c)) (activeStackBase c) (activeStackEndExclusive c) slotCount.

Definition requireStackPopSlots (slotCount : Z) (c : CPU) : outcome unit :=
  requireStackPopSlotsAt (sp (state c)) (activeStackBase c) (activeStackEndExclusive c) slotCount.

Definition setKernelStackPointer (value : Z) (c : CPU) : outcome CPU :=
  if using_kernel_interrupt_stack c
  then throw (RuntimeError "Cannot change Kernel stack pointer while active")
  else
    _ ← requireStackPointerInRange value kKernelStackBase kKernelStackEndExclusive;
    mret (set_kernel_stack_pointer value c).

(** ** Devices and error status *)

Definition setSoftwareInterruptHandler (non_null : bool) (c : CPU) : outcome CPU :=
  if negb non_null then throw (RuntimeError "Software interrupt handler must not be null")
  else mret (set_has_handler true c).

Definition addClockedDevice (device : option nat) (c : CPU) : outcome CPU :=
  match device with
  | None => throw (RuntimeError "Clocked device must not be null")
  | Some _ => mret (set_clocked_devices (clocked_devices c ++ [device]) c)
  end.

Definition softwareInterruptObservation (c : CPU) : outcome SoftwareInterruptObservation :=
  if negb (has_software_interrupt_observation c)
  then throw (RuntimeError "CPU has no software interrupt observation")
  else mret (software_interrupt_observation c).

Definition processExitCode (c : CPU) : outcome Z :=
  if negb (process_exit_requested c) then throw (RuntimeError "CPU has no process exit request")
  else mret (process_exit_code c).

Section machine.
Context {H : Type}.

Definition setRuntimeError (message : string) : M (Machine H) unit :=
  on_state (CPUState_setError message).

Definition record_trace (before : CPUState) (instruction : Instruction) (message : string)
    : M (Machine H) unit :=
  assign (fun c => set_trace (TraceLogger_record
    {| ev_before := before; ev_instruction := instruction; ev_after := state c;
       ev_error_message := message |} (trace_logger c)) c).

(** [for (device : clocked_devices_) device->tick()] *)
Fixpoint tick_devices (devices : list (option nat)) : M (Machine H) unit :=
  match devices with
  | [] => mret tt
  | None :: _ => throw (RuntimeError "Clocked device list contains null device")
  | Some device :: rest => _ ← on_world (timer_tick device); tick_devices rest
  end.

Definition tickClockedDevices : M (Machine H) unit :=
  c ← gets cpu; tick_devices (clocked_devices c).

Definition setPcForExecution (address : Z) : M (Machine H) unit :=
  _ ← check (fun c => requireExecutionAddress c address (privilege_level (state c)));
  on_state (setPc address).

Definition advancePcUnlessHalted : M (Machine H) unit :=
  s ← gets mstate;
  if negb (halted s) then on_state CPUState_advancePc else mret tt.

Definition advanceBinaryPcUnlessHalted : M (Machine H) unit :=
  s ← gets mstate;
  if negb (halted s) then on_state (setPc (u64 (pc s + kInstructionSize))) else mret tt.

(** ** Data memory *)

Definition readDataMemory (address : Z) : M (Machine H) Z :=
  _ ← check (fun c => requireDataMemoryAccess c address "read");
  m ← get;
  match mmio_bus (cpu m) with
  | Some bus =>
      if MMIOBus_hasDeviceAt (bus_at (world m) bus) address then on_world (MMIOBus_read bus address)
      else lift (Memory_read (memory (mstate m)) address)
  | None => lift (Memory_read (memory (mstate m)) address)
  end.

Definition writeDataMemory (address value : Z) : M (Machine H) unit :=
  _ ← check (fun c => requireDataMemoryAccess c address "write");
  m ← get;
  match mmio_bus (cpu m) with
  | Some bus =>
      if MMIOBus_hasDeviceAt (bus_at (world m) bus) address
      then on_world (MMIOBus_write bus address value)
      else write_memory address value
  | None => write_memory address value
  end.

(** ** Stacks *)

(** [if (using_kernel_interrupt_stack_) kernel_stack_pointer_ = value;] *)
Definition sync_kernel_sp (value : Z) : M (Machine H) unit :=
  assign (fun c => if using_kernel_interrupt_stack c then set_kernel_stack_pointer value c else c).

Definition pushValue (value : Z) : M (Machine H) unit :=
  _ ← check (requireStackPushSlots 1);
  s ← gets mstate;
  _ ← write_memory (sp s) value;
  let newSp := u64 (sp s + kStackSlotSize) in
  _ ← on_state (setSp newSp);
  sync_kernel_sp newSp.

Definition popValue : M (Machine H) Z :=
  _ ← check (requireStackPopSlots 1);
  s ← gets mstate;
  let newSp := u64 (sp s - kStackSlotSize) in
  value ← lift (Memory_read (memory s) newSp);
  _ ← on_state (setSp newSp);
  _ ← sync_kernel_sp newSp;
  mret value.

Definition peekValue : M (Machine H) Z :=
  _ ← check (requireStackPopSlots 1);
  s ← gets mstate;
  lift (Memory_read (memory s) (u64 (sp s - kStackSlotSize))).

(** ** Interrupt frames *)

Definition pushInterruptFrame (returnAddress : Z) : M (Machine H) unit :=
  s ← gets mstate;
  let interruptedPrivilege := privilege_level s in
  let interruptedSp := sp s in
  frameBase ←
    (if bool_decide (interruptedPrivilege = User) then
       _ ← lift (requireStackPointerInRange interruptedSp kUserStackBase kUserStackEndExclusive);
       c ← gets cpu;
       let frameBase := kernel_stack_pointer c in
       _ ← lift (requireStackPushSlotsAt frameBase kKernelStackBase kKernelStackEndExclusive
                   kInterruptFrameSlotCount);
       mret frameBase
     else
       _ ← check (requireStackPushSlots kInterruptFrameSlotCount);
       mret interruptedSp);
  let savedPrivilege := privilegeLevelToRaw interruptedPrivilege in
  _ ← write_memory frameBase (i64 returnAddress);
  _ ← write_memory (u64 (frameBase + kStackSlotSize)) (packFlags (flags s));
  _ ← write_memory (u64 (frameBase + kStackSlotSize * 2)) savedPrivilege;
  _ ← write_memory (u64 (frameBase + kStackSlotSize * 3)) (i64 interruptedSp);
  let newSp := u64 (frameBase + kInterruptFrameSize) in
  _ ← on_state (setSp newSp);
  _ ← on_state (setPrivilegeLevel Kernel);
  _ ← assign (fun c => if bool_decide (interruptedPrivilege = User)
                       then set_using_kernel_interrupt_stack true c else c);
  sync_kernel_sp newSp.

Definition restoreInterruptFrame (returnAddressError : string) (allowUserCodeEnd : bool)
    : M (Machine H) unit :=
  _ ← check (requireStackPopSlots kInterruptFrameSlotCount);
  m ← get;
  let c := cpu m in
  let s := state c in
  let frameBase := u64 (sp s - kInterruptFrameSize) in
  returnAddressValue ← lift (Memory_read (memory s) frameBase);
  flagsValue ← lift (Memory_read (memory s) (u64 (frameBase + kStackSlotSize)));
  privilegeValue ← lift (Memory_read (memory s) (u64 (frameBase + kStackSlotSize * 2)));
  savedSpValue ← lift (Memory_read (memory s) (u64 (frameBase + kStackSlotSize * 3)));
  restoredPrivilege ← lift (privilegeLevelFromRaw privilegeValue);
  restoredPc ← lift (checkedReturnAddress returnAddressValue returnAddressError);
  _ ← throw_if (savedSpValue <? 0) (RuntimeError "Negative saved stack pointer");
  let restoredSp := u64 savedSpValue in
  let returningToUserCodeEnd :=
    allowUserCodeEnd && bool_decide (restoredPrivilege = User) && has_user_code_range c
    && (restoredPc =? user_code_end_exclusive c) in
  _ ← lift (if negb returningToUserCodeEnd then requireExecutionAddress c restoredPc restoredPrivilege
            else mret tt);
  _ ← lift (if bool_decide (restoredPrivilege = User) then
              requireStackPointerInRange restoredSp kUserStackBase kUserStackEndExclusive
            else if using_kernel_interrupt_stack c then
              requireStackPointerInRange restoredSp kKernelStackBase kKernelStackEndExclusive
            else
              requireStackPointerInRange restoredSp CPUState_kDefaultStackBase (Memory_size (memory s)));
  _ ← on_state (fun s => set_flags (restoreFlags (flags s) flagsValue) s);
  _ ← on_state (setPrivilegeLevel restoredPrivilege);
  _ ← on_state (setPc restoredPc);
  if bool_decide (restoredPrivilege = User) then
    _ ← sync_kernel_sp frameBase;
    _ ← assign (set_using_kernel_interrupt_stack false);
    on_state (setSp restoredSp)
  else
    _ ← on_state (setSp restoredSp);
    sync_kernel_sp restoredSp.

End machine.
