(* ===== verification/CPUExec.v ===== *)
(** * The CPU: instruction execution

    Models the two execution engines of [src/core/CPU.cpp]: the binary engine
    ([stepBinary], [executeBinaryInstruction], over encoded instructions in
    memory) and the interpreted engine ([execute] and the [executeX] functions,
    over a list of [Instruction]s), hardware interrupt delivery
    ([servicePendingInterruptIfNeeded]), host software interrupts
    ([serviceHostSoftwareInterrupt]), and the [step] and [run] loops.  One
    definition per [case] of the binary switch and per [executeX] function. *)

From S2P Require Import Prelude Words ALU Memory ISA Binary Interrupts Devices CPUState Trace CPU.
Open Scope Z_scope.

Section exec.
Context {LD : LongDouble} {H : Type} {SIH : SoftwareInterruptHandler H}.

Abbreviation Exec := (M (Machine H)).

Definition read_register (reg : RegisterName) : Exec Z :=
  s ← gets mstate; lift (RegisterFile_get (registers s) reg).

(** ** Interrupts *)

Definition servicePendingInterruptIfNeeded : Exec bool :=
  m ← get;
  match interrupt_controller (cpu m) with
  | None => mret false
  | Some controller =>
      if negb (InterruptController_hasPending (controller_at (world m) controller)) then mret false
      else
        request ← on_world (on_controller controller InterruptController_acknowledge);
        w ← gets world;
        handlerAddress ←
          lift (InterruptController_vectorHandler (controller_at w controller) (req_vector request));
        c ← gets cpu;
        _ ← (if has_binary_program c then
               throw_if (negb (isBinaryPcInCode c handlerAddress))
                 (RuntimeError "Interrupt handler is outside loaded binary code section")
             else
               throw_if (handlerAddress >=? Z.of_nat (length (program c)))
                 (RuntimeError "Interrupt handler is outside loaded program"));
        let returnAddress := pc (state c) in
        _ ← pushInterruptFrame returnAddress;
        _ ← write_register R0 (req_vector request);
        _ ← write_register R1 (req_payload request);
        _ ← on_state (setPc handlerAddress);
        mret true
  end.

(** [software_interrupt_handler_->handle(vector, state_, mmio_bus_.get())] *)
Definition call_handler (vector : Z) : Exec SoftwareInterruptResult := fun m =>
  let '(o, (h, s, w)) := handle vector (mmio_bus (cpu m)) (handler m, mstate m, world m) in
  (o, mkMachine (set_state s (cpu m)) w h).

Definition serviceHostSoftwareInterrupt (vector returnAddress : Z) : Exec bool :=
  m ← get;
  if negb (has_software_interrupt_handler (cpu m)) || negb (handles (handler m) vector)
  then mret false
  else
    _ ← pushInterruptFrame returnAddress;
    _ ← write_register R0 vector;
    result ← try_catch (call_handler vector)
               (fun e => _ ← restoreInterruptFrame "Negative host software interrupt return address" false;
                         throw e);
    _ ← restoreInterruptFrame "Negative host software interrupt return address"
          (bool_decide (disposition result = TerminateProcess));
    _ ← assign (set_observation true {| obs_vector := vector; obs_result := result |});
    _ ← (if bool_decide (disposition result = TerminateProcess) then
           _ ← assign (set_process_exit true (exit_code result));
           on_state (setHalted true)
         else mret tt);
    mret true.

(** ** The binary engine: operands *)

Definition decodeBinaryRegister (payload : Z) : outcome RegisterName :=
  match payload with
  | 0 => mret R0 | 1 => mret R1 | 2 => mret R2 | 3 => mret R3
  | 4 => mret R4 | 5 => mret R5 | 6 => mret R6 | 7 => mret R7
  | _ => throw (RuntimeError "Invalid binary register payload")
  end.

Definition readBinaryMemoryAddress (type : EncodedOperandType) (payload : Z) : Exec Z :=
  match type with
  | Enc_MemoryAddress =>
      if payload <? 0 then throw (RuntimeError "Negative binary memory address")
      else mret (u64 payload)
  | Enc_RegisterIndirectAddress =>
      baseRegister ← lift (decodeBinaryRegister payload);
      address ← read_register baseRegister;
      if address <? 0 then throw (RuntimeError "Negative binary register-indirect memory address")
      else mret (u64 address)
  | _ => throw (RuntimeError "Binary operand must be memory address")
  end.

Definition readBinaryOperandValue (type : EncodedOperandType) (payload : Z) : Exec Z :=
  match type with
  | Enc_Register => reg ← lift (decodeBinaryRegister payload); read_register reg
  | Enc_Immediate => mret payload
  | Enc_MemoryAddress | Enc_RegisterIndirectAddress =>
      address ← readBinaryMemoryAddress type payload;
      readDataMemory address
  | _ => throw (RuntimeError "Binary operand cannot be read as a value")
  end.

Definition readBinaryCodeAddress (type : EncodedOperandType) (payload : Z) (c : CPU) : outcome Z :=
  if negb (bool_decide (type = Enc_CodeAddress))
  then throw (RuntimeError "Binary operand must be code address")
  else if payload <? 0 then throw (RuntimeError "Negative binary code address")
  else
    let target := u64 (binary_code_base c + u64 payload) in
    if negb (isBinaryPcInCode c target)
    then throw (RuntimeError "Binary code target is outside loaded code section")
    else mret target.

Definition requireNoBinaryOperands (i : DecodedInstruction) : outcome unit :=
  throw_if (negb (bool_decide (dst_type i = Enc_None)) || negb (bool_decide (src_type i = Enc_None))
            || negb (dst_payload i =? 0) || negb (src_payload i =? 0))
    (RuntimeError "Binary instruction requires no operands").

Definition requireSingleBinaryOperand (i : DecodedInstruction) : outcome unit :=
  throw_if (bool_decide (dst_type i = Enc_None) || negb (bool_decide (src_type i = Enc_None))
            || negb (src_payload i =? 0))
    (RuntimeError "Binary instruction requires one operand").

Definition requireTwoBinaryOperands (i : DecodedInstruction) : outcome unit :=
  throw_if (bool_decide (dst_type i = Enc_None) || bool_decide (src_type i = Enc_None))
    (RuntimeError "Binary instruction requires two operands").

Definition requireBinaryRegisterDestination (type : EncodedOperandType) (payload : Z) : outcome unit :=
  if negb (bool_decide (type = Enc_Register))
  then throw (RuntimeError "Binary destination must be register")
  else _ ← decodeBinaryRegister payload; mret tt.

Definition writeBinaryRegisterDestination (type : EncodedOperandType) (payload value : Z) : Exec unit :=
  _ ← lift (requireBinaryRegisterDestination type payload);
  reg ← lift (decodeBinaryRegister payload);
  write_register reg value.

Definition update_flags (f : Z -> Z) : Exec unit :=
  on_state (fun s => set_flags (f (flags s)) s).

(** ** The binary engine: instructions *)

Definition executeBinary_NOP (i : DecodedInstruction) : Exec unit :=
  _ ← lift (requireNoBinaryOperands i);
  advanceBinaryPcUnlessHalted.

Definition executeBinary_HALT (i : DecodedInstruction) : Exec unit :=
  _ ← lift (requireNoBinaryOperands i);
  on_state CPUState_halt.

Definition executeBinary_MOV (i : DecodedInstruction) : Exec unit :=
  _ ← lift (requireTwoBinaryOperands i);
  _ ← lift (requireBinaryRegisterDestination (dst_type i) (dst_payload i));
  value ← readBinaryOperandValue (src_type i) (src_payload i);
  _ ← writeBinaryRegisterDestination (dst_type i) (dst_payload i) value;
  _ ← update_flags (Flags_updateZeroAndSign value);
  advanceBinaryPcUnlessHalted.

Definition executeBinary_LOAD (i : DecodedInstruction) : Exec unit :=
  _ ← lift (requireTwoBinaryOperands i);
  _ ← lift (requireBinaryRegisterDestination (dst_type i) (dst_payload i));
  address ← readBinaryMemoryAddress (src_type i) (src_payload i);
  value ← readDataMemory address;
  _ ← writeBinaryRegisterDestination (dst_type i) (dst_payload i) value;
  _ ← update_flags (Flags_updateZeroAndSign value);
  advanceBinaryPcUnlessHalted.

Definition executeBinary_STORE (i : DecodedInstruction) : Exec unit :=
  _ ← lift (requireTwoBinaryOperands i);
  address ← readBinaryMemoryAddress (dst_type i) (dst_payload i);
  value ← readBinaryOperandValue (src_type i) (src_payload i);
  _ ← writeDataMemory address value;
  _ ← update_flags (Flags_updateZeroAndSign value);
  advanceBinaryPcUnlessHalted.

(** The shape shared by the two-operand ALU cases. *)
Definition binary_alu (op : Z -> Z -> outcome ALUResult) (i : DecodedInstruction) : Exec unit :=
  _ ← lift (requireTwoBinaryOperands i);
  _ ← lift (requireBinaryRegisterDestination (dst_type i) (dst_payload i));
  lhs ← readBinaryOperandValue (dst_type i) (dst_payload i);
  rhs ← readBinaryOperandValue (src_type i) (src_payload i);
  result ← lift (op lhs rhs);
  _ ← writeBinaryRegisterDestination (dst_type i) (dst_payload i) (res_value result);
  _ ← update_flags (fun f => applyALUResultToFlags f result);
  advanceBinaryPcUnlessHalted.

Definition executeBinary_ADD := binary_alu (fun lhs rhs => mret (ALU_add lhs rhs)).
Definition executeBinary_SUB := binary_alu (fun lhs rhs => mret (ALU_sub lhs rhs)).
Definition executeBinary_MUL := binary_alu (fun lhs rhs => mret (ALU_mul lhs rhs)).
Definition executeBinary_DIV := binary_alu ALU_div.
Definition executeBinary_AND := binary_alu (fun lhs rhs => mret (ALU_bitAnd lhs rhs)).
Definition executeBinary_OR := binary_alu (fun lhs rhs => mret (ALU_bitOr lhs rhs)).
Definition executeBinary_XOR := binary_alu (fun lhs rhs => mret (ALU_bitXor lhs rhs)).

Definition executeBinary_NOT (i : DecodedInstruction) : Exec unit :=
  _ ← lift (requireSingleBinaryOperand i);
  _ ← lift (requireBinaryRegisterDestination (dst_type i) (dst_payload i));
  value ← readBinaryOperandValue (dst_type i) (dst_payload i);
  let result := ALU_bitNot value in
  _ ← writeBinaryRegisterDestination (dst_type i) (dst_payload i) (res_value result);
  _ ← update_flags (fun f => applyALUResultToFlags f result);
  advanceBinaryPcUnlessHalted.

(** The shape shared by [CMP] and [TEST]. *)
Definition binary_compare (op : Z -> Z -> ALUResult) (i : DecodedInstruction) : Exec unit :=
  _ ← lift (requireTwoBinaryOperands i);
  lhs ← readBinaryOperandValue (dst_type i) (dst_payload i);
  rhs ← readBinaryOperandValue (src_type i) (src_payload i);
  _ ← update_flags (fun f => applyALUResultToFlags f (op lhs rhs));
  advanceBinaryPcUnlessHalted.

Definition executeBinary_CMP := binary_compare ALU_compare.
Definition executeBinary_TEST := binary_compare ALU_test.

Definition executeBinary_JMP (i : DecodedInstruction) : Exec unit :=
  _ ← lift (requireSingleBinaryOperand i);
  target ← check (readBinaryCodeAddress (dst_type i) (dst_payload i));
  setPcForExecution target.

(** The shape shared by the conditional branches. *)
Definition binary_branch (condition : Z -> bool) (i : DecodedInstruction) : Exec unit :=
  _ ← lift (requireSingleBinaryOperand i);
  s ← gets mstate;
  if condition (flags s) then
    target ← check (readBinaryCodeAddress (dst_type i) (dst_payload i));
    setPcForExecution target
  else advanceBinaryPcUnlessHalted.

Definition executeBinary_JE := binary_branch Flags_zero.
Definition executeBinary_JNE := binary_branch (fun f => negb (Flags_zero f)).
Definition executeBinary_JG := binary_branch signedGreaterThanFromFlags.
Definition executeBinary_JL := binary_branch signedLessThanFromFlags.

Definition executeBinary_PUSH (i : DecodedInstruction) : Exec unit :=
  _ ← lift (requireSingleBinaryOperand i);
  value ← readBinaryOperandValue (dst_type i) (dst_payload i);
  _ ← pushValue value;
  advanceBinaryPcUnlessHalted.

Definition executeBinary_POP (i : DecodedInstruction) : Exec unit :=
  _ ← lift (requireSingleBinaryOperand i);
  _ ← lift (requireBinaryRegisterDestination (dst_type i) (dst_payload i));
  value ← popValue;
  _ ← writeBinaryRegisterDestination (dst_type i) (dst_payload i) value;
  _ ← update_flags (Flags_updateZeroAndSign value);
  advanceBinaryPcUnlessHalted.

Definition executeBinary_CALL (i : DecodedInstruction) : Exec unit :=
  _ ← lift (requireSingleBinaryOperand i);
  target ← check (readBinaryCodeAddress (dst_type i) (dst_payload i));
  s ← gets mstate;
  let returnAddress := u64 (pc s + kInstructionSize) in
  _ ← check (fun c => requireExecutionAddress c target (privilege_level s));
  _ ← check (fun c => requireExecutionAddress c returnAddress (privilege_level s));
  _ ← pushValue (i64 returnAddress);
  on_state (setPc target).

Definition executeBinary_RET (i : DecodedInstruction) : Exec unit :=
  _ ← lift (requireNoBinaryOperands i);
  returnAddressValue ← peekValue;
  returnAddress ← lift (checkedReturnAddress returnAddressValue "Negative binary return address");
  _ ← check (fun c => requireExecutionAddress c returnAddress (privilege_level (state c)));
  _ ← popValue;
  on_state (setPc returnAddress).

Definition executeBinary_IRET (i : DecodedInstruction) : Exec unit :=
  _ ← lift (requireNoBinaryOperands i);
  restoreInterruptFrame "Negative binary interrupt return address" false.

(** [EI] and [DI]. *)
Definition set_interrupts (enabled : bool) (name : string) : Exec unit :=
  m ← get;
  match interrupt_controller (cpu m) with
  | None => throw (RuntimeError (name +:+ " requires interrupt controller"))
  | Some controller =>
      on_world (on_controller controller (modify (InterruptController_setGlobalEnabled enabled)))
  end.

Definition executeBinary_EI (i : DecodedInstruction) : Exec unit :=
  _ ← lift (requireNoBinaryOperands i);
  _ ← set_interrupts true "EI";
  advanceBinaryPcUnlessHalted.

Definition executeBinary_DI (i : DecodedInstruction) : Exec unit :=
  _ ← lift (requireNoBinaryOperands i);
  _ ← set_interrupts false "DI";
  advanceBinaryPcUnlessHalted.

(** [INT] requires a controller before it reads its operand. *)
Definition require_controller : Exec nat :=
  m ← get;
  match interrupt_controller (cpu m) with
  | None => throw (RuntimeError "INT requires interrupt controller")
  | Some controller => mret controller
  end.

Definition executeBinary_INT (i : DecodedInstruction) : Exec unit :=
  _ ← lift (requireSingleBinaryOperand i);
  controller ← require_controller;
  vectorValue ← readBinaryOperandValue (dst_type i) (dst_payload i);
  _ ← throw_if ((vectorValue <? 0) || (vectorValue >? 255))
        (RuntimeError "INT vector must be in range 0..255");
  let vector := u8 vectorValue in
  s ← gets mstate;
  let returnAddress := u64 (pc s + kInstructionSize) in
  serviced ← serviceHostSoftwareInterrupt vector returnAddress;
  if (serviced : bool) then mret tt
  else
    w ← gets world;
    handlerAddress ← lift (InterruptController_vectorHandler (controller_at w controller) vector);
    c ← gets cpu;
    _ ← throw_if (has_binary_program c && negb (isBinaryPcInCode c handlerAddress))
          (RuntimeError "INT handler is outside loaded binary code section");
    _ ← pushInterruptFrame returnAddress;
    _ ← write_register R0 vector;
    on_state (setPc handlerAddress).

Definition executeBinaryInstruction (i : DecodedInstruction) : Exec unit :=
  _ ← check (fun c => requireInstructionPrivilege c (dec_opcode i));
  match dec_opcode i with
  | NOP => executeBinary_NOP i | HALT => executeBinary_HALT i
  | MOV => executeBinary_MOV i | LOAD => executeBinary_LOAD i | STORE => executeBinary_STORE i
  | ADD => executeBinary_ADD i | SUB => executeBinary_SUB i
  | MUL => executeBinary_MUL i | DIV => executeBinary_DIV i
  | CMP => executeBinary_CMP i | TEST => executeBinary_TEST i
  | JMP => executeBinary_JMP i | JE => executeBinary_JE i | JNE => executeBinary_JNE i
  | JG => executeBinary_JG i | JL => executeBinary_JL i
  | PUSH => executeBinary_PUSH i | POP => executeBinary_POP i
  | CALL => executeBinary_CALL i | RET => executeBinary_RET i | IRET => executeBinary_IRET i
  | EI => executeBinary_EI i | DI => executeBinary_DI i | INT => executeBinary_INT i
  | AND => executeBinary_AND i | OR => executeBinary_OR i
  | XOR => executeBinary_XOR i | NOT => executeBinary_NOT i
  | Invalid => throw (RuntimeError "Invalid binary opcode")
  end.

Definition fetch_decode (c : CPU) : outcome DecodedInstruction :=
  let pc := pc (state c) in
  if negb (isBinaryPcInCode c pc)
  then throw (RuntimeError "Binary PC is outside loaded code section")
  else
    instructionBytes ← Memory_readBytes (memory (state c)) pc kInstructionSize;
    decodeInstruction instructionBytes.

Definition stepBinary : Exec unit :=
  instruction ← check fetch_decode;
  executeBinaryInstruction instruction.

Definition traceOperandFromEncoded (c : CPU) (type : EncodedOperandType) (payload : Z) : outcome Operand :=
  match type with
  | Enc_None => mret none
  | Enc_Register => reg ← decodeBinaryRegister payload; mret (registerOperand reg)
  | Enc_Immediate => mret (immediate payload)
  | Enc_MemoryAddress =>
      if payload <? 0 then throw (RuntimeError "Negative binary memory address")
      else mret (memoryAddress (u64 payload))
  | Enc_RegisterIndirectAddress =>
      reg ← decodeBinaryRegister payload; mret (registerIndirectAddress reg)
  | Enc_CodeAddress =>
      if payload <? 0 then throw (RuntimeError "Negative binary code address")
      else mret (immediate (i64 (binary_code_base c + u64 payload)))
  end.

Definition traceInstructionForCurrentBinaryPc (c : CPU) : outcome Instruction :=
  decoded ← fetch_decode c;
  d ← traceOperandFromEncoded c (dst_type decoded) (dst_payload decoded);
  s ← traceOperandFromEncoded c (src_type decoded) (src_payload decoded);
  mret (if Operand_isNone d then {| opcode := dec_opcode decoded; dst := none; src := none |}
        else if Operand_isNone s then {| opcode := dec_opcode decoded; dst := d; src := none |}
        else {| opcode := dec_opcode decoded; dst := d; src := s |}).

End exec.
