(* ===== verification/CPUStep.v ===== *)
(** * The CPU: the interpreted engine and the step and run loops

    Models the [execute] and [executeX] functions of [src/core/CPU.cpp], which
    run a list of [Instruction]s with label operands, and [CPU::step] and
    [CPU::run].  [step] delivers a pending hardware interrupt or executes one
    instruction of the loaded program, ticks the clocked devices, turns any
    exception into the error state of the CPU and records a trace event. *)

From S2P Require Import Prelude Words ALU Memory ISA Binary Interrupts Devices CPUState Trace CPU CPUExec.
Open Scope Z_scope.

Section step.
Context {LD : LongDouble} {H : Type} {SIH : SoftwareInterruptHandler H}.

Abbreviation Exec := (M (Machine H)).

(** ** Operands *)

Definition requireNoOperand (i : Instruction) : outcome unit :=
  throw_if (negb (bool_decide (Operand_type (dst i) = OT_None))
            || negb (bool_decide (Operand_type (src i) = OT_None)))
    (RuntimeError "Instruction requires no operand").

Definition requireSingleOperand (i : Instruction) : outcome unit :=
  throw_if (bool_decide (Operand_type (dst i) = OT_None)
            || negb (bool_decide (Operand_type (src i) = OT_None)))
    (RuntimeError "Instruction requires one operand").

Definition requireTwoOperands (i : Instruction) : outcome unit :=
  throw_if (bool_decide (Operand_type (dst i) = OT_None)
            || bool_decide (Operand_type (src i) = OT_None))
    (RuntimeError "Instruction requires two operands").

Definition requireRegisterDestination (o : Operand) : outcome unit :=
  throw_if (negb (bool_decide (Operand_type o = OT_Register)))
    (RuntimeError "Destination must be register").

Definition readMemoryAddress (operand : Operand) : Exec Z :=
  match Operand_type operand with
  | OT_MemoryAddress => lift (Operand_asMemoryAddress operand)
  | OT_RegisterIndirectAddress =>
      base ← lift (Operand_asRegisterIndirectBase operand);
      address ← read_register base;
      if address <? 0 then throw (RuntimeError "Negative register-indirect memory address")
      else mret (u64 address)
  | _ => throw (RuntimeError "Operand must be memory address")
  end.

Definition readOperandValue (operand : Operand) : Exec Z :=
  match Operand_type operand with
  | OT_Register => reg ← lift (Operand_asRegister operand); read_register reg
  | OT_Immediate => lift (Operand_asImmediate operand)
  | OT_MemoryAddress | OT_RegisterIndirectAddress =>
      address ← readMemoryAddress operand; readDataMemory address
  | _ => throw (RuntimeError "Operand cannot be read as a value")
  end.

Definition writeRegisterDestination (operand : Operand) (value : Z) : Exec unit :=
  _ ← lift (requireRegisterDestination operand);
  reg ← lift (Operand_asRegister operand);
  write_register reg value.

Definition resolveLabelAddress (operand : Operand) (c : CPU) : outcome Z :=
  if negb (bool_decide (Operand_type operand = OT_Label))
  then throw (RuntimeError "Jump target must be label")
  else
    name ← Operand_asLabel operand;
    match labels c !! name with
    | None => throw (RuntimeError ("Undefined label: " +:+ name))
    | Some address => mret address
    end.

(** ** Instructions *)

Definition executeNop (i : Instruction) : Exec unit :=
  _ ← lift (requireNoOperand i);
  advancePcUnlessHalted.

Definition executeHalt (i : Instruction) : Exec unit :=
  _ ← lift (requireNoOperand i);
  on_state CPUState_halt.

Definition executeMov (i : Instruction) : Exec unit :=
  _ ← lift (requireTwoOperands i);
  _ ← lift (requireRegisterDestination (dst i));
  value ← readOperandValue (src i);
  _ ← writeRegisterDestination (dst i) value;
  _ ← update_flags (Flags_updateZeroAndSign value);
  advancePcUnlessHalted.

Definition executeLoad (i : Instruction) : Exec unit :=
  _ ← lift (requireTwoOperands i);
  _ ← lift (requireRegisterDestination (dst i));
  address ← readMemoryAddress (src i);
  value ← readDataMemory address;
  _ ← writeRegisterDestination (dst i) value;
  _ ← update_flags (Flags_updateZeroAndSign value);
  advancePcUnlessHalted.

Definition executeStore (i : Instruction) : Exec unit :=
  _ ← lift (requireTwoOperands i);
  address ← readMemoryAddress (dst i);
  value ← readOperandValue (src i);
  _ ← writeDataMemory address value;
  _ ← update_flags (Flags_updateZeroAndSign value);
  advancePcUnlessHalted.

(** The shape shared by the two-operand ALU instructions. *)
Definition execute_alu (op : Z -> Z -> outcome ALUResult) (i : Instruction) : Exec unit :=
  _ ← lift (requireTwoOperands i);
  _ ← lift (requireRegisterDestination (dst i));
  lhs ← readOperandValue (dst i);
  rhs ← readOperandValue (src i);
  result ← lift (op lhs rhs);
  _ ← writeRegisterDestination (dst i) (res_value result);
  _ ← update_flags (fun f => applyALUResultToFlags f result);
  advancePcUnlessHalted.

Definition executeAdd := execute_alu (fun lhs rhs => mret (ALU_add lhs rhs)).
Definition executeSub := execute_alu (fun lhs rhs => mret (ALU_sub lhs rhs)).
Definition executeMul := execute_alu (fun lhs rhs => mret (ALU_mul lhs rhs)).
Definition executeDiv := execute_alu ALU_div.
Definition executeAnd := execute_alu (fun lhs rhs => mret (ALU_bitAnd lhs rhs)).
Definition executeOr := execute_alu (fun lhs rhs => mret (ALU_bitOr lhs rhs)).
Definition executeXor := execute_alu (fun lhs rhs => mret (ALU_bitXor lhs rhs)).

Definition executeNot (i : Instruction) : Exec unit :=
  _ ← lift (requireSingleOperand i);
  _ ← lift (requireRegisterDestination (dst i));
  value ← readOperandValue (dst i);
  let result := ALU_bitNot value in
  _ ← writeRegisterDestination (dst i) (res_value result);
  _ ← update_flags (fun f => applyALUResultToFlags f result);
  advancePcUnlessHalted.

(** The shape shared by [CMP] and [TEST]. *)
Definition execute_compare (op : Z -> Z -> ALUResult) (i : Instruction) : Exec unit :=
  _ ← lift (requireTwoOperands i);
  lhs ← readOperandValue (dst i);
  rhs ← readOperandValue (src i);
  _ ← update_flags (fun f => applyALUResultToFlags f (op lhs rhs));
  advancePcUnlessHalted.

Definition executeCmp := execute_compare ALU_compare.
Definition executeTest := execute_compare ALU_test.

Definition executeJmp (i : Instruction) : Exec unit :=
  _ ← lift (requireSingleOperand i);
  target ← check (resolveLabelAddress (dst i));
  setPcForExecution target.

(** The shape shared by the conditional branches. *)
Definition execute_branch (condition : Z -> bool) (i : Instruction) : Exec unit :=
  _ ← lift (requireSingleOperand i);
  s ← gets mstate;
  if condition (flags s) then
    target ← check (resolveLabelAddress (dst i));
    setPcForExecution target
  else advancePcUnlessHalted.

Definition executeJe := execute_branch Flags_zero.
Definition executeJne := execute_branch (fun f => negb (Flags_zero f)).
Definition executeJg := execute_branch signedGreaterThanFromFlags.
Definition executeJl := execute_branch signedLessThanFromFlags.

Definition executePush (i : Instruction) : Exec unit :=
  _ ← lift (requireSingleOperand i);
  value ← readOperandValue (dst i);
  _ ← pushValue value;
  advancePcUnlessHalted.

Definition executePop (i : Instruction) : Exec unit :=
  _ ← lift (requireSingleOperand i);
  _ ← lift (requireRegisterDestination (dst i));
  value ← popValue;
  _ ← writeRegisterDestination (dst i) value;
  _ ← update_flags (Flags_updateZeroAndSign value);
  advancePcUnlessHalted.

Definition executeCall (i : Instruction) : Exec unit :=
  _ ← lift (requireSingleOperand i);
  target ← check (resolveLabelAddress (dst i));
  s ← gets mstate;
  let returnAddress := u64 (pc s + 1) in
  _ ← check (fun c => requireExecutionAddress c target (privilege_level s));
  _ ← check (fun c => requireExecutionAddress c returnAddress (privilege_level s));
  _ ← pushValue (i64 returnAddress);
  on_state (setPc target).

Definition executeRet (i : Instruction) : Exec unit :=
  _ ← lift (requireNoOperand i);
  returnAddressValue ← peekValue;
  returnAddress ← lift (checkedReturnAddress returnAddressValue "Negative return address");
  _ ← check (fun c => requireExecutionAddress c returnAddress (privilege_level (state c)));
  _ ← popValue;
  on_state (setPc returnAddress).

Definition executeIret (i : Instruction) : Exec unit :=
  _ ← lift (requireNoOperand i);
  restoreInterruptFrame "Negative interrupt return address" false.

Definition executeEi (i : Instruction) : Exec unit :=
  _ ← lift (requireNoOperand i);
  _ ← set_interrupts true "EI";
  advancePcUnlessHalted.

Definition executeDi (i : Instruction) : Exec unit :=
  _ ← lift (requireNoOperand i);
  _ ← set_interrupts false "DI";
  advancePcUnlessHalted.

Definition executeInt (i : Instruction) : Exec unit :=
  _ ← lift (requireSingleOperand i);
  controller ← require_controller;
  vectorValue ← readOperandValue (dst i);
  _ ← throw_if ((vectorValue <? 0) || (vectorValue >? 255))
        (RuntimeError "INT vector must be in range 0..255");
  let vector := u8 vectorValue in
  s ← gets mstate;
  let returnAddress := u64 (pc s + 1) in
  serviced ← serviceHostSoftwareInterrupt vector returnAddress;
  if (serviced : bool) then mret tt
  else
    w ← gets world;
    handlerAddress ← lift (InterruptController_vectorHandler (controller_at w controller) vector);
    c ← gets cpu;
    _ ← throw_if (handlerAddress >=? Z.of_nat (length (program c)))
          (RuntimeError "INT handler is outside loaded program");
    _ ← pushInterruptFrame returnAddress;
    _ ← write_register R0 vector;
    on_state (setPc handlerAddress).

Definition execute (i : Instruction) : Exec unit :=
  _ ← check (fun c => requireInstructionPrivilege c (opcode i));
  match opcode i with
  | NOP => executeNop i | HALT => executeHalt i
  | MOV => executeMov i | LOAD => executeLoad i | STORE => executeStore i
  | ADD => executeAdd i | SUB => executeSub i | MUL => executeMul i | DIV => executeDiv i
  | CMP => executeCmp i | TEST => executeTest i
  | JMP => executeJmp i | JE => executeJe i | JNE => executeJne i
  | JG => executeJg i | JL => executeJl i
  | PUSH => executePush i | POP => executePop i
  | CALL => executeCall i | RET => executeRet i | IRET => executeIret i
  | EI => executeEi i | DI => executeDi i | INT => executeInt i
  | AND => executeAnd i | OR => executeOr i | XOR => executeXor i | NOT => executeNot i
  | Invalid => throw (RuntimeError "Invalid opcode")
  end.

(** ** Stepping *)

Definition invalid_instruction : Instruction := {| opcode := Invalid; dst := none; src := none |}.
Definition int_instruction (operand : Operand) : Instruction :=
  {| opcode := INT; dst := operand; src := none |}.

(** [if (!state_.halted() && !state_.hasError()) tickClockedDevices();] *)
Definition tick_unless_stopped : Exec unit :=
  s ← gets mstate;
  if negb (halted s) && negb (has_error s) then tickClockedDevices else mret tt.

(** The first [try] of [step]: true when the step ends here. *)
Definition step_interrupt (before_interrupt : CPUState) : Exec bool :=
  try_catch
    (serviced ← servicePendingInterruptIfNeeded;
     if (serviced : bool) then
       vector ← read_register R0;
       _ ← record_trace before_interrupt (int_instruction (immediate vector)) "";
       mret true
     else mret false)
    (fun ex =>
       _ ← setRuntimeError (what ex);
       _ ← record_trace before_interrupt (int_instruction none) (what ex);
       mret true).

(** The second [try]: [fetch] assigns the local [instruction] that the trace
    records, [exec] executes it; a throw of [fetch] leaves it invalid. *)
Definition step_instruction (fetch : CPU -> outcome Instruction) (exec : Instruction -> Exec unit)
    : Exec unit :=
  before ← gets mstate;
  fetched ← try_catch (i ← check fetch; mret (inl i)) (fun ex => mret (inr ex));
  match fetched with
  | inr ex =>
      _ ← setRuntimeError (what ex);
      record_trace before invalid_instruction (what ex)
  | inl instruction =>
      message ← try_catch (_ ← exec instruction; _ ← tick_unless_stopped; mret EmptyString)
                  (fun ex => _ ← setRuntimeError (what ex); mret (what ex));
      record_trace before instruction message
  end.

Definition fetch_binary (c : CPU) : outcome Instruction :=
  _ ← requireCurrentPcExecutable c;
  traceInstructionForCurrentBinaryPc c.

Definition fetch_program (c : CPU) : outcome Instruction :=
  _ ← requireCurrentPcExecutable c;
  match program c !! Z.to_nat (pc (state c)) with
  | None => throw (RuntimeError "PC out of program range")
  | Some instruction => mret instruction
  end.

Definition CPU_step : Exec unit :=
  s ← gets mstate;
  if halted s || has_error s then mret tt
  else
    _ ← assign clearSoftwareInterruptObservation;
    before_interrupt ← gets mstate;
    stopped ← step_interrupt before_interrupt;
    if (stopped : bool) then mret tt
    else
      c ← gets cpu;
      if has_binary_program c then step_instruction fetch_binary (fun _ => stepBinary)
      else step_instruction fetch_program execute.

(** [while (!halted && !hasError && count < maxSteps) step();] *)
Fixpoint run_loop (maxSteps : nat) : Exec unit :=
  match maxSteps with
  | O => mret tt
  | S remaining =>
      s ← gets mstate;
      if negb (halted s) && negb (has_error s)
      then _ ← CPU_step; run_loop remaining
      else mret tt
  end.

Definition CPU_run (maxSteps : nat) : Exec unit :=
  _ ← run_loop maxSteps;
  s ← gets mstate;
  if negb (halted s) && negb (has_error s)
  then setRuntimeError "Maximum step count reached"
  else mret tt.

End step.
