(* ===== verification/CPUFrames.v ===== *)
(** * Stack discipline: frames, calls and pushes

    Properties of the stack operations of [src/core/CPU.cpp] (the definitions
    are in [CPU]): an interrupt frame pushed and then restored gives back the
    interrupted state, and [PUSH]/[POP] and [CALL]/[RET] are inverse. *)

From S2P Require Import Prelude Words ALU Memory ISA Binary Interrupts Devices CPUState Trace CPU CPUExec CPUStep.
Open Scope Z_scope.

(** ** Running the primitives *)

Section primitives.
Context {H : Type}.
Implicit Types (m : Machine H).

Lemma check_run {A} (f : CPU -> outcome A) m : check f m = (f (cpu m), m).
Proof. reflexivity. Qed.

Lemma lift_run {A} (o : outcome A) m : lift o m = (o, m).
Proof. reflexivity. Qed.

Lemma write_memory_run a v m :
  write_memory a v m =
  match Memory_write (memory (mstate m)) a v with
  | Ret mem => (Ret tt, set_mstate (set_memory mem) m)
  | Throw e => (Throw e, m)
  end.
Proof.
  unfold write_memory, try_state, update. destruct (Memory_write _ _ _); reflexivity.
Qed.

Lemma write_register_run r v m :
  write_register r v m =
  match RegisterFile_set (registers (mstate m)) r v with
  | Ret regs => (Ret tt, set_mstate (set_registers regs) m)
  | Throw e => (Throw e, m)
  end.
Proof.
  unfold write_register, try_state, update. destruct (RegisterFile_set _ _ _); reflexivity.
Qed.

End primitives.

(** Split a successful run into the runs of its statements. *)
Ltac run_step H :=
  let a := fresh "a" in let s := fresh "s" in let E := fresh "E" in
  apply M_bind_ret_inv in H as (a & s & E & H).

(** ** Stack checks *)

Lemma stack_range_inv sp base top :
  requireStackPointerInRange sp base top = Ret tt ->
  base <= sp <= top /\ (sp - base) mod 8 = 0.
Proof.
  unfold requireStackPointerInRange, kStackSlotSize. intros H.
  destruct (sp <? base) eqn:E1; [discriminate|].
  destruct (negb _) eqn:E2; [discriminate|].
  destruct (sp >? top) eqn:E3; [discriminate|]. bool_facts. lia.
Qed.

Lemma stack_range_ok sp base top :
  base <= sp <= top -> (sp - base) mod 8 = 0 -> requireStackPointerInRange sp base top = Ret tt.
Proof.
  unfold requireStackPointerInRange, kStackSlotSize. intros Hr Ha.
  rewrite (proj2 (Z.ltb_ge _ _)), Ha by lia. cbn [Z.eqb negb].
  rewrite Z.gtb_ltb, (proj2 (Z.ltb_ge _ _)) by lia. reflexivity.
Qed.

Lemma push_slots_inv sp base top n :
  requireStackPushSlotsAt sp base top n = Ret tt ->
  base <= sp /\ (sp - base) mod 8 = 0 /\ sp + 8 * n <= top.
Proof.
  unfold requireStackPushSlotsAt. intros H. apply bind_ret_inv in H as ([] & Hr & H).
  apply stack_range_inv in Hr as [Hr Ha]. cbv zeta in H. unfold kStackSlotSize in H.
  destruct (n >? (top - sp) / 8) eqn:E; [discriminate|]. bool_facts.
  assert (8 * ((top - sp) / 8) <= top - sp) by (apply Z.mul_div_le; lia). lia.
Qed.

Lemma push_slots_ok sp base top n :
  base <= sp -> (sp - base) mod 8 = 0 -> 0 <= n -> sp + 8 * n <= top ->
  requireStackPushSlotsAt sp base top n = Ret tt.
Proof.
  intros Hb Ha Hn Ht. unfold requireStackPushSlotsAt. rewrite stack_range_ok, bind_Ret by lia.
  cbv zeta. unfold kStackSlotSize. rewrite Z.gtb_ltb, (proj2 (Z.ltb_ge _ _)); [reflexivity|].
  apply Z.div_le_lower_bound; lia.
Qed.

Lemma pop_slots_inv sp base top n :
  requireStackPopSlotsAt sp base top n = Ret tt ->
  base + 8 * n <= sp <= top /\ (sp - base) mod 8 = 0.
Proof.
  unfold requireStackPopSlotsAt. intros H. apply bind_ret_inv in H as ([] & Hr & H).
  apply stack_range_inv in Hr as [Hr Ha]. cbv zeta in H. unfold kStackSlotSize in H.
  destruct (n >? (sp - base) / 8) eqn:E; [discriminate|]. bool_facts.
  assert (8 * ((sp - base) / 8) <= sp - base) by (apply Z.mul_div_le; lia). lia.
Qed.

Lemma pop_slots_ok sp base top n :
  base + 8 * n <= sp <= top -> (sp - base) mod 8 = 0 -> 0 <= n ->
  requireStackPopSlotsAt sp base top n = Ret tt.
Proof.
  intros Hb Ha Hn. unfold requireStackPopSlotsAt. rewrite stack_range_ok, bind_Ret by lia.
  cbv zeta. unfold kStackSlotSize. rewrite Z.gtb_ltb, (proj2 (Z.ltb_ge _ _)); [reflexivity|].
  apply Z.div_le_lower_bound; lia.
Qed.

(** The active stack lies inside memory. *)
Lemma active_stack_bounds c :
  state_wf (state c) ->
  2048 <= activeStackBase c /\ activeStackEndExclusive c <= 4096.
Proof.
  intros Hwf. unfold activeStackBase, activeStackEndExclusive.
  rewrite (wf_memory_size _ Hwf).
  destruct (CPUState_isUserMode _); [|destruct (using_kernel_interrupt_stack c)]; cbv;
    (split; discriminate).
Qed.

(** ** Interrupt frames *)

Section frames.
Context {H : Type}.
Implicit Types (m : Machine H).

Definition is_user (m : Machine H) : Prop := privilege_level (mstate m) = User.

#[export] Instance is_user_dec m : Decision (is_user m).
Proof. unfold is_user. apply _. Defined.

(** Where a frame goes: the kernel stack for an interrupted user program, the
    current stack otherwise. *)
Definition frame_base (c : CPU) : Z :=
  if CPUState_isUserMode (state c) then kernel_stack_pointer c else sp (state c).

(** The machine after a frame is pushed. *)
Definition pushed (base : Z) (mem : Memory) (c : CPU) : CPU :=
  let user := CPUState_isUserMode (state c) in
  let c := set_state (setPrivilegeLevel Kernel (setSp (base + 32) (set_memory mem (state c)))) c in
  let c := if user then set_using_kernel_interrupt_stack true c else c in
  if using_kernel_interrupt_stack c then set_kernel_stack_pointer (base + 32) c else c.

Lemma write_frame_run {B} base a b c d (k : M (Machine H) B) m x m' :
  0 <= base -> base + 32 <= 2 ^ 63 ->
  (_ ← write_memory base a;
   _ ← write_memory (u64 (base + kStackSlotSize)) b;
   _ ← write_memory (u64 (base + kStackSlotSize * 2)) c;
   _ ← write_memory (u64 (base + kStackSlotSize * 3)) d; k) m = (Ret x, m') ->
  exists mem, write_frame (memory (mstate m)) base a b c d = Ret mem /\
              k (set_mstate (set_memory mem) m) = (Ret x, m').
Proof.
  intros Hb Ht Hrun. unfold kStackSlotSize in Hrun.
  change (8 * 2) with 16 in Hrun. change (8 * 3) with 24 in Hrun. rewrite !u64_small in Hrun by words.
  assert (Hset : forall mem a v n, Memory_write (memory (mstate (set_mstate (set_memory mem) m))) a v = Ret n ->
            Memory_write mem a v = Ret n) by (intros; assumption).
  run_step Hrun. rewrite write_memory_run in E. destruct (Memory_write _ _ _) as [m1|] eqn:E1; [|discriminate].
  injection E as _ <-.
  run_step Hrun. rewrite write_memory_run in E. destruct (Memory_write _ _ b) as [m2|] eqn:E2; [|discriminate].
  injection E as _ <-.
  run_step Hrun. rewrite write_memory_run in E. destruct (Memory_write _ _ c) as [m3|] eqn:E3; [|discriminate].
  injection E as _ <-.
  run_step Hrun. rewrite write_memory_run in E. destruct (Memory_write _ _ d) as [m4|] eqn:E4; [|discriminate].
  injection E as _ <-.
  exists m4. split; [|exact Hrun]. unfold write_frame. rewrite E1, bind_Ret.
  rewrite (Hset m1 _ _ _ E2), bind_Ret. rewrite (Hset m2 _ _ _ E3), bind_Ret. exact (Hset m3 _ _ _ E4).
Qed.

Definition frame_base_ok m : Prop :=
  2048 <= frame_base (cpu m) /\ frame_base (cpu m) + 32 <= 4096 /\
  (is_user m -> 4000 <= frame_base (cpu m) /\ (frame_base (cpu m) - 4000) mod 8 = 0 /\
     2048 <= sp (mstate m) <= 4000 /\ (sp (mstate m) - 2048) mod 8 = 0) /\
  (~ is_user m -> requireStackPushSlots kInterruptFrameSlotCount (cpu m) = Ret tt).

Lemma frame_sp_range m : frame_base_ok m -> 0 <= sp (mstate m) <= 4096.
Proof.
  intros (Hlo & Hhi & Huser & _). destruct (decide (is_user m)) as [Hm|Hm].
  - destruct (Huser Hm) as (_ & _ & Hsp & _). lia.
  - unfold frame_base, CPUState_isUserMode in Hlo, Hhi. fold (mstate m) in Hlo, Hhi.
    rewrite bool_decide_eq_false_2 in Hlo, Hhi by exact Hm. lia.
Qed.

Lemma pushInterruptFrame_inv ra m m' :
  (~ is_user m -> state_wf (mstate m)) -> pushInterruptFrame ra m = (Ret tt, m') ->
  exists mem,
    write_frame (memory (mstate m)) (frame_base (cpu m)) (i64 ra) (packFlags (flags (mstate m)))
      (privilegeLevelToRaw (privilege_level (mstate m))) (i64 (sp (mstate m))) = Ret mem /\
    m' = set_cpu (pushed (frame_base (cpu m)) mem) m /\ frame_base_ok m.
Proof.
  intros Hwf Hrun. unfold pushInterruptFrame in Hrun.
  apply M_bind_ret_inv in Hrun as (s0 & m0 & E & Hrun). injection E as <- <-. cbv zeta in Hrun.
  apply M_bind_ret_inv in Hrun as (fb & m0 & Hfb & Hrun).
  assert (Hbase : fb = frame_base (cpu m) /\ m0 = m /\ frame_base_ok m).
  { unfold frame_base_ok, frame_base, CPUState_isUserMode, is_user, mstate in *. case_bool_decide as Hu.
    - run_step Hfb. injection E as E <-. destruct a. apply stack_range_inv in E.
      run_step Hfb. injection E0 as <- <-. run_step Hfb. injection E0 as E0 <-. destruct a.
      injection Hfb as <- <-. apply push_slots_inv in E0.
      unfold kKernelStackBase, kKernelStackEndExclusive, kBioOSStackBase, kDefaultMemorySize,
        kInterruptFrameSlotCount, kUserStackBase, kUserStackEndExclusive, kDefaultStackBase,
        kBioOSStackBase in *.
      repeat split; try lia; tauto.
    - run_step Hfb. rewrite check_run in E. injection E as E <-. destruct a.
      injection Hfb as <- <-. pose proof E as E'. apply push_slots_inv in E.
      pose proof (active_stack_bounds (cpu m) (Hwf Hu)). unfold kInterruptFrameSlotCount in E.
      repeat split; try lia; tauto. }
  destruct Hbase as (-> & -> & Hok). pose proof Hok as (Hlo & Hhi & _).
  apply write_frame_run in Hrun as (mem & Hmem & Hrun); [|lia|lia].
  exists mem. split; [exact Hmem|]. split; [|exact Hok].
  unfold kInterruptFrameSize, kInterruptFrameSlotCount, kStackSlotSize in Hrun.
  change (8 * 4) with 32 in Hrun. rewrite u64_small in Hrun by words.
  run_step Hrun. injection E as _ <-. run_step Hrun. injection E as _ <-.
  run_step Hrun. injection E as _ <-. injection Hrun as <-.
  unfold pushed, CPUState_isUserMode, mstate. destruct m as [[] w h]. cbn. case_bool_decide; reflexivity.
Qed.

(** The check that [pushInterruptFrame] makes before it writes. *)
Definition frame_room (c : CPU) : outcome unit :=
  if CPUState_isUserMode (state c) then
    _ ← requireStackPointerInRange (sp (state c)) kUserStackBase kUserStackEndExclusive;
    requireStackPushSlotsAt (kernel_stack_pointer c) kKernelStackBase kKernelStackEndExclusive
      kInterruptFrameSlotCount
  else requireStackPushSlots kInterruptFrameSlotCount c.

(** The first statements of [pushInterruptFrame] compute the frame's base. *)
Lemma frame_base_run {B} (k : Z -> M (Machine H) B) m :
  (frameBase ←
    (if bool_decide (privilege_level (mstate m) = User) then
       _ ← lift (requireStackPointerInRange (sp (mstate m)) kUserStackBase kUserStackEndExclusive);
       c ← gets cpu;
       let frameBase := kernel_stack_pointer c in
       _ ← lift (requireStackPushSlotsAt frameBase kKernelStackBase kKernelStackEndExclusive
                   kInterruptFrameSlotCount);
       mret frameBase
     else
       _ ← check (requireStackPushSlots kInterruptFrameSlotCount);
       mret (sp (mstate m)));
   k frameBase) m
  = match frame_room (cpu m) with Ret _ => k (frame_base (cpu m)) m | Throw e => (Throw e, m) end.
Proof.
  unfold frame_room, frame_base, CPUState_isUserMode, mstate. rewrite bind_run.
  destruct (bool_decide (privilege_level (state (cpu m)) = User)).
  - rewrite bind_run, lift_run. destruct (requireStackPointerInRange _ _ _) as [u|e]; [|reflexivity].
    rewrite bind_Ret, bind_run. cbn [gets]. rewrite bind_run, lift_run.
    destruct (requireStackPushSlotsAt _ _ _ _); reflexivity.
  - rewrite bind_run, check_run. destruct (requireStackPushSlots _ _); reflexivity.
Qed.

Lemma pushInterruptFrame_no_room ra m e :
  frame_room (cpu m) = Throw e -> pushInterruptFrame ra m = (Throw e, m).
Proof.
  intros He. unfold pushInterruptFrame. rewrite bind_run. cbn [gets]. cbv zeta.
  rewrite frame_base_run, He. reflexivity.
Qed.

Lemma write_frame_exec {B} base a b c d (k : M (Machine H) B) m mem :
  0 <= base -> base + 32 <= 2 ^ 63 -> write_frame (memory (mstate m)) base a b c d = Ret mem ->
  (_ ← write_memory base a;
   _ ← write_memory (u64 (base + kStackSlotSize)) b;
   _ ← write_memory (u64 (base + kStackSlotSize * 2)) c;
   _ ← write_memory (u64 (base + kStackSlotSize * 3)) d; k) m
  = k (set_mstate (set_memory mem) m).
Proof.
  intros Hb Ht Hw. unfold kStackSlotSize. change (8 * 2) with 16. change (8 * 3) with 24.
  rewrite !u64_small by words. unfold write_frame in Hw.
  apply bind_ret_inv in Hw as (m1 & E1 & Hw). apply bind_ret_inv in Hw as (m2 & E2 & Hw).
  apply bind_ret_inv in Hw as (m3 & E3 & E4).
  rewrite bind_run, write_memory_run, E1, bind_run, write_memory_run.
  change (memory (mstate (set_mstate (set_memory m1) m))) with m1. rewrite E2, bind_run, write_memory_run.
  change (memory (mstate (set_mstate (set_memory m2) (set_mstate (set_memory m1) m)))) with m2.
  rewrite E3, bind_run, write_memory_run.
  match goal with |- context [Memory_write ?x (base + 24) d] => change x with m3 end. rewrite E4. reflexivity.
Qed.

Lemma frame_room_bounds m :
  state_wf (mstate m) -> frame_room (cpu m) = Ret tt ->
  2048 <= frame_base (cpu m) /\ frame_base (cpu m) + 32 <= 4096.
Proof.
  intros Hwf Hroom. unfold frame_room, frame_base in *. destruct (CPUState_isUserMode (state (cpu m))).
  - apply bind_ret_inv in Hroom as (u & _ & Hroom). apply push_slots_inv in Hroom.
    unfold kKernelStackBase, kKernelStackEndExclusive, kBioOSStackBase, kDefaultMemorySize,
      kInterruptFrameSlotCount in Hroom. lia.
  - pose proof (active_stack_bounds (cpu m) Hwf) as Hs. apply push_slots_inv in Hroom.
    unfold kInterruptFrameSlotCount in Hroom. lia.
Qed.

Lemma pushInterruptFrame_run ra m :
  state_wf (mstate m) -> frame_room (cpu m) = Ret tt ->
  exists mem,
    write_frame (memory (mstate m)) (frame_base (cpu m)) (i64 ra) (packFlags (flags (mstate m)))
      (privilegeLevelToRaw (privilege_level (mstate m))) (i64 (sp (mstate m))) = Ret mem /\
    pushInterruptFrame ra m = (Ret tt, set_cpu (pushed (frame_base (cpu m)) mem) m).
Proof.
  intros Hwf Hroom.
  pose proof (frame_room_bounds m Hwf Hroom) as Hb.
  destruct (write_frame_total (memory (mstate m)) (frame_base (cpu m)) (i64 ra) (packFlags (flags (mstate m)))
      (privilegeLevelToRaw (privilege_level (mstate m))) (i64 (sp (mstate m)))) as [mem Hmem].
  { split; [lia|]. pose proof (wf_memory_size _ Hwf) as Hz. unfold kDefaultMemorySize in Hz. lia. }
  exists mem. split; [exact Hmem|]. unfold pushInterruptFrame. rewrite bind_run. cbn [gets]. cbv zeta.
  rewrite frame_base_run, Hroom. rewrite (write_frame_exec _ _ _ _ _ _ m mem) by (exact Hmem || lia).
  change kInterruptFrameSize with 32. rewrite (u64_small (frame_base (cpu m) + 32)) by words.
  unfold pushed, CPUState_isUserMode, mstate. destruct m as [[[]] w h]. cbn.
  unfold mbind, M_bind, sync_kernel_sp, assign, modify, set_cpu. cbn. case_bool_decide; cbn;
    [reflexivity | destruct using_kernel_interrupt_stack; reflexivity].
Qed.

(** After a push the kernel is on its interrupt stack if the user was
    interrupted or it already was. *)
Lemma pushed_stack fb mem c :
  let kernel := CPUState_isUserMode (state c) || using_kernel_interrupt_stack c in
  sp (state (pushed fb mem c)) = fb + 32 /\
  activeStackBase (pushed fb mem c) = (if kernel then kKernelStackBase else CPUState_kDefaultStackBase) /\
  activeStackEndExclusive (pushed fb mem c) =
    (if kernel then kKernelStackEndExclusive else Memory_size mem).
Proof.
  unfold pushed, activeStackBase, activeStackEndExclusive, CPUState_isUserMode.
  destruct c; cbn. case_bool_decide; cbn; [auto|].
  destruct using_kernel_interrupt_stack; cbn; auto.
Qed.

(** The frame that a successful push left can be popped. *)
Lemma pushed_pop_slots m mem :
  state_wf (mstate m) -> length mem = length (memory (mstate m)) -> frame_base_ok m ->
  (using_kernel_interrupt_stack (cpu m) = true -> ~ is_user m) ->
  requireStackPopSlots kInterruptFrameSlotCount (pushed (frame_base (cpu m)) mem (cpu m)) = Ret tt.
Proof.
  intros Hwf Hlen (Hlo & Hhi & Hu & Hk) Husing.
  pose proof (wf_memory_size _ Hwf) as Hsz. unfold Memory_size in Hsz. rewrite <- Hlen in Hsz.
  unfold requireStackPopSlots. destruct (pushed_stack (frame_base (cpu m)) mem (cpu m)) as (-> & -> & ->).
  unfold kInterruptFrameSlotCount. unfold is_user in *. unfold CPUState_isUserMode at 1 2.
  fold (mstate m). case_bool_decide as Hpriv; cbn [orb].
  - destruct (Hu Hpriv) as (H1 & H2 & _). apply pop_slots_ok;
      unfold kKernelStackBase, kKernelStackEndExclusive, kBioOSStackBase, kDefaultMemorySize; [lia| |lia].
    replace (frame_base (cpu m) + 32 - 4000) with (frame_base (cpu m) - 4000 + 4 * 8) by lia.
    rewrite Z.mod_add by lia. exact H2.
  - specialize (Hk Hpriv). apply push_slots_inv in Hk as (H1 & H2 & H3).
    assert (Hfb : frame_base (cpu m) = sp (mstate m))
      by (unfold frame_base, CPUState_isUserMode; rewrite bool_decide_eq_false_2 by exact Hpriv; reflexivity).
    rewrite Hfb in *. unfold activeStackBase, activeStackEndExclusive, CPUState_isUserMode in *.
    fold (mstate m) in H1, H2, H3. rewrite bool_decide_eq_false_2 in H1, H2, H3 by exact Hpriv.
    unfold kInterruptFrameSlotCount in H3.
    assert (Hmod : forall b, (sp (mstate m) - b) mod 8 = 0 -> (sp (mstate m) + 32 - b) mod 8 = 0).
    { intros b Hb. replace (sp (mstate m) + 32 - b) with (sp (mstate m) - b + 4 * 8) by lia.
      rewrite Z.mod_add by lia. exact Hb. }
    unfold Memory_size in *. rewrite Hlen in *.
    destruct (using_kernel_interrupt_stack (cpu m)); apply pop_slots_ok; auto; lia.
Qed.

(** The machine after a frame is restored. *)
Definition restored (fb ra f : Z) (privilege : PrivilegeLevel) (savedSp : Z) (c : CPU) : CPU :=
  let s := state c in
  let s := setSp savedSp (setPc ra (setPrivilegeLevel privilege (set_flags (restoreFlags (flags s) f) s))) in
  let user := bool_decide (privilege = User) in
  let c' := set_state s c in
  let c' := if using_kernel_interrupt_stack c
            then set_kernel_stack_pointer (if user then fb else savedSp) c' else c' in
  if user then set_using_kernel_interrupt_stack false c' else c'.

(** The range a restored stack pointer must lie in. *)
Definition saved_sp_ok (c : CPU) (privilege : PrivilegeLevel) (savedSp : Z) : outcome unit :=
  if bool_decide (privilege = User) then
    requireStackPointerInRange savedSp kUserStackBase kUserStackEndExclusive
  else if using_kernel_interrupt_stack c then
    requireStackPointerInRange savedSp kKernelStackBase kKernelStackEndExclusive
  else
    requireStackPointerInRange savedSp CPUState_kDefaultStackBase (Memory_size (memory (state c))).

Lemma restoreInterruptFrame_run m msg allow fb ra f privilege savedSp :
  requireStackPopSlots kInterruptFrameSlotCount (cpu m) = Ret tt ->
  sp (mstate m) = fb + 32 -> 0 <= fb -> fb + 32 < 2 ^ 63 -> 0 <= ra <= INT64_MAX -> 0 <= savedSp <= INT64_MAX ->
  Memory_read (memory (mstate m)) fb = Ret ra -> Memory_read (memory (mstate m)) (fb + 8) = Ret f ->
  Memory_read (memory (mstate m)) (fb + 16) = Ret (privilegeLevelToRaw privilege) ->
  Memory_read (memory (mstate m)) (fb + 24) = Ret savedSp ->
  requireExecutionAddress (cpu m) ra privilege = Ret tt -> saved_sp_ok (cpu m) privilege savedSp = Ret tt ->
  restoreInterruptFrame msg allow m = (Ret tt, set_cpu (restored fb ra f privilege savedSp) m).
Proof.
  intros Hpop Hsp Hfb Htop Hra Hsv R1 R2 R3 R4 Hexec Hrange.
  unfold restoreInterruptFrame. rewrite bind_run, check_run, Hpop, bind_run. unfold get. cbv zeta.
  unfold mstate in *. rewrite Hsp. unfold kInterruptFrameSize, kInterruptFrameSlotCount, kStackSlotSize.
  change (8 * 4) with 32. change (8 * 2) with 16. change (8 * 3) with 24.
  replace (fb + 32 - 32) with fb by lia. rewrite !(u64_small fb), !u64_small by words.
  rewrite bind_run, lift_run, R1, bind_run, lift_run, R2, bind_run, lift_run, R3, bind_run, lift_run, R4,
    bind_run, lift_run, privilege_raw_roundtrip, bind_run, lift_run.
  unfold checkedReturnAddress. rewrite (proj2 (Z.ltb_ge ra 0)), u64_small by words.
  cbn [mret outcome_ret]. rewrite bind_run, (proj2 (Z.ltb_ge savedSp 0)) by lia.
  cbn [throw_if mret M_ret]. rewrite bind_run.
  assert (Hex : lift (if negb (allow && bool_decide (privilege = User) && has_user_code_range (cpu m)
                && (ra =? user_code_end_exclusive (cpu m)))
                then requireExecutionAddress (cpu m) ra privilege else mret tt) m = (Ret tt, m)).
  { unfold lift. rewrite Hexec. destruct (negb _); reflexivity. }
  rewrite Hex, bind_run, (u64_small savedSp) by words. fold (saved_sp_ok (cpu m) privilege savedSp). unfold lift. rewrite Hrange.
  clear. destruct m as [[] w h]. unfold restored. cbn.
  case_bool_decide; destruct using_kernel_interrupt_stack; reflexivity.
Qed.

Lemma pushed_config fb mem c ra privilege :
  requireExecutionAddress (pushed fb mem c) ra privilege = requireExecutionAddress c ra privilege.
Proof.
  unfold pushed. destruct c. cbn. destruct (CPUState_isUserMode _); cbn; [reflexivity|].
  destruct using_kernel_interrupt_stack; reflexivity.
Qed.

Lemma restored_pushed m mem ra :
  state_wf (mstate m) ->
  (is_user m -> using_kernel_interrupt_stack (cpu m) = false) ->
  (using_kernel_interrupt_stack (cpu m) = true -> kernel_stack_pointer (cpu m) = sp (mstate m)) ->
  restored (frame_base (cpu m)) ra (packFlags (flags (mstate m))) (privilege_level (mstate m)) (sp (mstate m))
    (pushed (frame_base (cpu m)) mem (cpu m))
  = set_state (setPc ra (set_memory mem (mstate m))) (cpu m).
Proof.
  intros Hwf Hu Hk. unfold restored, pushed, frame_base, is_user, mstate, CPUState_isUserMode in *.
  pose proof (restoreFlags_packFlags _ (wf_flags _ Hwf)) as Hf.
  destruct m as [[[] ] w h]; cbn in *. case_bool_decide as Hpriv; cbn.
  - rewrite Hu, Hf by exact Hpriv. reflexivity.
  - destruct using_kernel_interrupt_stack; cbn; rewrite Hf; [rewrite Hk by reflexivity|]; reflexivity.
Qed.

Lemma saved_sp_pushed m mem :
  state_wf (mstate m) -> length mem = length (memory (mstate m)) -> frame_base_ok m ->
  saved_sp_ok (pushed (frame_base (cpu m)) mem (cpu m)) (privilege_level (mstate m)) (sp (mstate m)) = Ret tt.
Proof.
  intros Hwf Hlen (Hlo & Hhi & Hu & Hk). unfold saved_sp_ok, is_user in *.
  case_bool_decide as Hpriv.
  - destruct (Hu Hpriv) as (_ & _ & H1 & H2). apply stack_range_ok; [exact H1 | exact H2].
  - specialize (Hk Hpriv). apply push_slots_inv in Hk as (H1 & H2 & H3).
    unfold activeStackBase, activeStackEndExclusive, CPUState_isUserMode in *. fold (mstate m) in *.
    rewrite bool_decide_eq_false_2 in H1, H2, H3 by exact Hpriv.
    assert (Hcfg : using_kernel_interrupt_stack (pushed (frame_base (cpu m)) mem (cpu m))
                   = using_kernel_interrupt_stack (cpu m)
              /\ memory (state (pushed (frame_base (cpu m)) mem (cpu m))) = mem).
    { unfold pushed, CPUState_isUserMode. unfold mstate in Hpriv. destruct (cpu m); cbn in *.
      rewrite bool_decide_eq_false_2 by exact Hpriv. cbn. destruct using_kernel_interrupt_stack; auto. }
    destruct Hcfg as [-> ->]. unfold Memory_size in *. rewrite Hlen. unfold kInterruptFrameSlotCount in H3.
    destruct (using_kernel_interrupt_stack (cpu m)); apply stack_range_ok; try assumption; lia.
Qed.

End frames.

(** The stack invariant of a running CPU: user code never runs on the kernel
    stack, and while the kernel stack is in use its pointer follows SP. *)
Record stack_inv (c : CPU) : Prop := {
  inv_user : privilege_level (state c) = User -> using_kernel_interrupt_stack c = false;
  inv_kernel_sp : using_kernel_interrupt_stack c = true -> kernel_stack_pointer c = sp (state c);
}.

(** ** Properties *)

(** (C3) Interrupt frames round trip.  From a well-formed machine, in user or
    kernel mode, a frame pushed for a return address that may be executed at
    that privilege is restored to the interrupted machine: registers, FLAGS,
    privilege level, stack pointer and kernel stack are exactly what they were,
    the program counter is the return address, and memory differs only in the
    32 bytes of the frame. *)
Theorem interrupt_frame_roundtrip {H} (m m1 : Machine H) (ra : Z) (msg : string) (allow : bool)
    (Hwf : state_wf (mstate m)) (Hinv : stack_inv (cpu m)) (Hra : 0 <= ra <= INT64_MAX)
    (Hexec : requireExecutionAddress (cpu m) ra (privilege_level (mstate m)) = Ret tt)
    (Hpush : pushInterruptFrame ra m = (Ret tt, m1)) :
  privilege_level (mstate m1) = Kernel /\
  exists mem,
    restoreInterruptFrame msg allow m1 = (Ret tt, set_mstate (fun s => setPc ra (set_memory mem s)) m) /\
    length mem = length (memory (mstate m)) /\
    forall j, 0 <= j -> j < frame_base (cpu m) \/ frame_base (cpu m) + 32 <= j ->
              mem !! Z.to_nat j = memory (mstate m) !! Z.to_nat j.
Proof.
  destruct Hinv as [Hu Hk].
  apply pushInterruptFrame_inv in Hpush as (mem & Hmem & -> & Hbase); [|auto].
  pose proof Hbase as (Hlo & Hhi & Huser & Hkern).
  pose proof (frame_sp_range m Hbase) as Hspr.
  rewrite (i64_small ra), (i64_small (sp (mstate m))) in Hmem by words.
  pose proof (packFlags_range (flags (mstate m))) as Hpf.
  apply write_frame_spec in Hmem as (R1 & R2 & R3 & R4 & Hlen & _ & Hframe); try words; try assumption;
    [|destruct (privilege_level (mstate m)); cbn; words].
  assert (Hmemory : memory (state (pushed (frame_base (cpu m)) mem (cpu m))) = mem).
  { unfold pushed. destruct (cpu m). cbn. destruct (CPUState_isUserMode _); [reflexivity|].
    cbn. destruct using_kernel_interrupt_stack; reflexivity. }
  destruct (pushed_stack (frame_base (cpu m)) mem (cpu m)) as (Hsp' & _).
  split; [|exists mem; split; [|split; [exact Hlen | exact Hframe]]].
  { unfold pushed, mstate. cbn. destruct (cpu m). cbn. destruct (CPUState_isUserMode _); [reflexivity|].
    cbn. destruct using_kernel_interrupt_stack; reflexivity. }
  rewrite (restoreInterruptFrame_run (set_cpu (pushed (frame_base (cpu m)) mem) m) msg allow
             (frame_base (cpu m)) ra (packFlags (flags (mstate m))) (privilege_level (mstate m))
             (sp (mstate m))); unfold mstate in *; cbn [set_cpu cpu]; rewrite ?Hmemory; try assumption; try words.
  - unfold set_mstate, set_cpu. cbn [cpu world handler]. f_equal. f_equal.
    exact (restored_pushed m mem ra Hwf Hu Hk).
  - apply pushed_pop_slots; [exact Hwf | exact Hlen | exact Hbase |]. intros E Hm. rewrite (Hu Hm) in E. discriminate.
  - rewrite pushed_config. exact Hexec.
  - apply saved_sp_pushed; assumption.
Qed.

(** A user program of two instructions, at its first one. *)
Definition sample_user_machine : Machine unit :=
  mkMachine
    (set_state (setPrivilegeLevel User new_CPUState)
       (set_user_code_range true 0 2
          (set_program [{| opcode := CALL; dst := label "f"; src := none |};
                        {| opcode := RET; dst := none; src := none |}] {["f" := 1]} new_CPU)))
    {| controllers := ∅; timers := ∅; debug_outputs := ∅; hardware_buses := ∅; serial_buses := ∅; buses := ∅ |} tt.

Lemma sample_user_machine_ok :
  state_wf (mstate sample_user_machine) /\ stack_inv (cpu sample_user_machine).
Proof.
  split.
  - destruct new_CPUState_wf. constructor; assumption.
  - constructor; [reflexivity | discriminate].
Qed.

Example interrupt_frame_roundtrip_witness :
  0 <= 0 <= INT64_MAX /\
  exists m1 m2, pushInterruptFrame 0 sample_user_machine = (Ret tt, m1) /\
    restoreInterruptFrame "" false m1 = (Ret tt, m2).
Proof.
  assert (Hra : 0 <= 0 <= INT64_MAX) by words. split; [exact Hra|].
  destruct sample_user_machine_ok as [Hwf Hinv].
  assert (Hexec : requireExecutionAddress (cpu sample_user_machine) 0
                    (privilege_level (mstate sample_user_machine)) = Ret tt) by reflexivity.
  destruct (pushInterruptFrame 0 sample_user_machine) as [[[]|e] m1] eqn:E;
    [|vm_compute in E; discriminate E].
  destruct (interrupt_frame_roundtrip sample_user_machine m1 0 "" false Hwf Hinv Hra Hexec E)
    as (_ & mem & Hr & _).
  exists m1. eexists. split; [reflexivity | exact Hr].
Defined.

(** ** Pushes, pops and calls *)

Section values.
Context {LD : LongDouble} {H : Type} {SIH : SoftwareInterruptHandler H}.
Implicit Types (m : Machine H).

(** The machine after a push of one word. *)
Definition pushed_value (mem : Memory) (c : CPU) : CPU :=
  let newSp := sp (state c) + 8 in
  let c' := set_state (setSp newSp (set_memory mem (state c))) c in
  if using_kernel_interrupt_stack c then set_kernel_stack_pointer newSp c' else c'.

Lemma pushValue_inv v m m' :
  state_wf (mstate m) -> pushValue v m = (Ret tt, m') ->
  exists mem, Memory_write (memory (mstate m)) (sp (mstate m)) v = Ret mem /\
    m' = set_cpu (pushed_value mem) m /\ requireStackPushSlots 1 (cpu m) = Ret tt /\
    2048 <= sp (mstate m) /\ sp (mstate m) + 8 <= 4096.
Proof.
  intros Hwf Hrun. unfold pushValue in Hrun.
  run_step Hrun. rewrite check_run in E. injection E as E <-. destruct a.
  pose proof E as Hslots. apply push_slots_inv in Hslots.
  pose proof (active_stack_bounds (cpu m) Hwf) as Hb. fold (mstate m) in Hslots.
  apply M_bind_ret_inv in Hrun as (s0 & m0 & E0 & Hrun). injection E0 as <- <-.
  run_step Hrun. rewrite write_memory_run in E0.
  destruct (Memory_write _ _ _) as [mem|] eqn:Ew; [|discriminate]. injection E0 as _ <-.
  cbv zeta in Hrun. unfold kStackSlotSize in Hrun. rewrite u64_small in Hrun by words.
  run_step Hrun. injection E0 as _ <-. injection Hrun as <-.
  exists mem. split; [reflexivity|]. split; [|split; [exact E|lia]].
  unfold pushed_value, mstate. destruct m as [[[]] w h]. cbn.
  destruct using_kernel_interrupt_stack; reflexivity.
Qed.

Lemma pushed_value_pop_slots mem m :
  requireStackPushSlots 1 (cpu m) = Ret tt -> length mem = length (memory (mstate m)) ->
  requireStackPopSlots 1 (pushed_value mem (cpu m)) = Ret tt.
Proof.
  intros Hs Hlen. apply push_slots_inv in Hs as (H1 & H2 & H3).
  assert (Hc : sp (state (pushed_value mem (cpu m))) = sp (mstate m) + 8 /\
    activeStackBase (pushed_value mem (cpu m)) = activeStackBase (cpu m) /\
    activeStackEndExclusive (pushed_value mem (cpu m)) = activeStackEndExclusive (cpu m)).
  { unfold pushed_value, activeStackBase, activeStackEndExclusive, CPUState_isUserMode, mstate in *.
    unfold Memory_size. rewrite <- Hlen. destruct m as [[[]] w h]. cbn.
    destruct using_kernel_interrupt_stack; auto. }
  destruct Hc as (E1 & E2 & E3). unfold requireStackPopSlots. rewrite E1, E2, E3.
  unfold mstate. apply pop_slots_ok; [lia | | lia].
  replace (sp (state (cpu m)) + 8 - activeStackBase (cpu m))
    with (sp (state (cpu m)) - activeStackBase (cpu m) + 1 * 8) by lia.
  rewrite Z.mod_add by lia. exact H2.
Qed.

(** Popping and peeking what was pushed. *)
Lemma pop_pushed v m mem :
  stack_inv (cpu m) -> is_i64 v ->
  Memory_write (memory (mstate m)) (sp (mstate m)) v = Ret mem ->
  requireStackPushSlots 1 (cpu m) = Ret tt -> 2048 <= sp (mstate m) -> sp (mstate m) + 8 <= 4096 ->
  popValue (set_cpu (pushed_value mem) m) = (Ret v, set_mstate (set_memory mem) m) /\
  peekValue (set_cpu (pushed_value mem) m) = (Ret v, set_cpu (pushed_value mem) m).
Proof.
  intros [_ Hk] Hv Hw Hs Hlo Hhi.
  apply read_write_same in Hw as Hread; [|lia|exact Hv].
  apply write_inv in Hw as (_ & Hlen & _); [|lia].
  pose proof (pushed_value_pop_slots mem m Hs Hlen) as Hpop.
  assert (Hst : sp (state (pushed_value mem (cpu m))) = sp (mstate m) + 8 /\
                memory (state (pushed_value mem (cpu m))) = mem).
  { unfold pushed_value, mstate. destruct m as [[[]] w h]. cbn. destruct using_kernel_interrupt_stack; auto. }
  destruct Hst as [Hsp Hmem]. unfold popValue, peekValue.
  rewrite !bind_run, !check_run. cbn [set_cpu cpu]. rewrite Hpop.
  rewrite !bind_run. unfold gets, mstate. cbn [set_cpu cpu]. cbv zeta. rewrite Hsp, Hmem.
  unfold kStackSlotSize. replace (sp (mstate m) + 8 - 8) with (sp (mstate m)) by lia.
  rewrite u64_small by words. split; [|unfold lift; rewrite Hread; reflexivity].
  rewrite bind_run. unfold lift. rewrite Hread.
  unfold pushed_value, mstate in *. destruct m as [[[]] w h]. cbn in *.
  destruct using_kernel_interrupt_stack; cbn; [|reflexivity]. rewrite Hk by reflexivity. reflexivity.
Qed.

(** A return after a call, in terms of the statements both engines share. *)
Lemma ret_pushed target ra m mem msg :
  stack_inv (cpu m) -> 0 <= ra <= INT64_MAX ->
  requireExecutionAddress (cpu m) ra (privilege_level (mstate m)) = Ret tt ->
  Memory_write (memory (mstate m)) (sp (mstate m)) ra = Ret mem ->
  requireStackPushSlots 1 (cpu m) = Ret tt -> 2048 <= sp (mstate m) -> sp (mstate m) + 8 <= 4096 ->
  (returnAddressValue ← peekValue;
   returnAddress ← lift (checkedReturnAddress returnAddressValue msg);
   _ ← check (fun c => requireExecutionAddress c returnAddress (privilege_level (state c)));
   _ ← popValue;
   on_state (setPc returnAddress)) (set_mstate (setPc target) (set_cpu (pushed_value mem) m))
  = (Ret tt, set_mstate (fun s => setPc ra (set_memory mem s)) m).
Proof.
  intros Hinv Hra Hexec Hw Hs Hlo Hhi. set (m' := set_mstate (setPc target) m).
  assert (Hm' : set_mstate (setPc target) (set_cpu (pushed_value mem) m) = set_cpu (pushed_value mem) m').
  { unfold m', set_mstate, set_cpu, pushed_value. destruct m as [[[]] w h]. cbn.
    destruct using_kernel_interrupt_stack; reflexivity. }
  rewrite Hm'.
  assert (Hstep : popValue (set_cpu (pushed_value mem) m') = (Ret ra, set_mstate (set_memory mem) m') /\
                  peekValue (set_cpu (pushed_value mem) m') = (Ret ra, set_cpu (pushed_value mem) m')).
  { apply pop_pushed; try assumption; [|words].
    destruct Hinv. constructor; assumption. }
  destruct Hstep as [Hpop Hpeek].
  rewrite bind_run, Hpeek, bind_run, lift_run. unfold checkedReturnAddress.
  rewrite (proj2 (Z.ltb_ge ra 0)), u64_small by words. cbn [mret outcome_ret].
  rewrite bind_run, check_run.
  assert (Hex : requireExecutionAddress (cpu (set_cpu (pushed_value mem) m')) ra
     (privilege_level (state (cpu (set_cpu (pushed_value mem) m')))) = Ret tt).
  { rewrite <- Hexec. unfold m', pushed_value, set_mstate, set_cpu, mstate. destruct m as [[[]] w h]. cbn.
    destruct using_kernel_interrupt_stack; reflexivity. }
  rewrite Hex, bind_run, Hpop. unfold m'. destruct m as [[[]] w h]. reflexivity.
Qed.

End values.

(** Stack round trips.  A word pushed by [pushValue] is the word [popValue]
    returns, and after the two the machine is as before, except for the eight
    bytes above the stack pointer.  A [CALL] that succeeds, in either engine,
    followed by [RET] (with the instruction's operands absent, as [RET]
    requires) continues at the instruction after the call with the registers,
    FLAGS, privilege and stack pointer the call had. *)
Theorem call_ret_roundtrip {LD : LongDouble} {H} {SIH : SoftwareInterruptHandler H}
    (m m1 : Machine H) (v : Z) (bi br : DecodedInstruction) (ii ir : Instruction)
    (Hwf : state_wf (mstate m)) (Hinv : stack_inv (cpu m)) (Hv : is_i64 v)
    (Hpc : pc (mstate m) <= INT64_MAX - 24)
    (Hbr : requireNoBinaryOperands br = Ret tt) (Hir : requireNoOperand ir = Ret tt) :
  let back f := exists mem, length mem = length (memory (mstate m)) /\
    (forall j, 0 <= j -> j < sp (mstate m) \/ sp (mstate m) + 8 <= j ->
               mem !! Z.to_nat j = memory (mstate m) !! Z.to_nat j) /\ f mem in
  (pushValue v m = (Ret tt, m1) ->
     back (fun mem => popValue m1 = (Ret v, set_mstate (set_memory mem) m))) /\
  (executeBinary_CALL bi m = (Ret tt, m1) ->
     back (fun mem => executeBinary_RET br m1 =
       (Ret tt, set_mstate (fun s => setPc (pc s + 24) (set_memory mem s)) m))) /\
  (executeCall ii m = (Ret tt, m1) ->
     back (fun mem => executeRet ir m1 =
       (Ret tt, set_mstate (fun s => setPc (pc s + 1) (set_memory mem s)) m))).
Proof.
  intros back. pose proof (wf_pc _ Hwf) as Hpc0.
  assert (Hback : forall f x mem, Memory_write (memory (mstate m)) (sp (mstate m)) x = Ret mem ->
            2048 <= sp (mstate m) -> f mem -> back f).
  { intros f x mem Hw Hlo Hf. apply write_inv in Hw as (_ & Hlen & Hfr); [|lia]. exists mem. auto. }
  split; [|split]; intros Hrun.
  - apply pushValue_inv in Hrun as (mem & Hw & -> & Hs & Hlo & Hhi); [|exact Hwf].
    apply (Hback _ _ mem Hw Hlo). apply pop_pushed; assumption.
  - unfold executeBinary_CALL in Hrun. run_step Hrun. injection E as _ <-.
    run_step Hrun. injection E as _ <-. run_step Hrun. injection E as <- <-. cbv zeta in Hrun.
    unfold kInstructionSize in Hrun. rewrite u64_small in Hrun by words.
    run_step Hrun. injection E as _ <-. run_step Hrun. rewrite check_run in E. injection E as E <-. destruct a2.
    run_step Hrun. injection Hrun as <-. rewrite i64_small in E0 by words. destruct a2.
    apply pushValue_inv in E0 as (mem & Hw & -> & Hs & Hlo & Hhi); [|exact Hwf].
    apply (Hback _ _ mem Hw Hlo). unfold executeBinary_RET. rewrite bind_run, lift_run, Hbr.
    apply (ret_pushed a0 (pc (mstate m) + 24) m mem); try assumption. words.
  - unfold executeCall in Hrun. run_step Hrun. injection E as _ <-.
    run_step Hrun. injection E as _ <-. run_step Hrun. injection E as <- <-. cbv zeta in Hrun.
    rewrite u64_small in Hrun by words.
    run_step Hrun. injection E as _ <-. run_step Hrun. rewrite check_run in E. injection E as E <-. destruct a2.
    run_step Hrun. injection Hrun as <-. rewrite i64_small in E0 by words. destruct a2.
    apply pushValue_inv in E0 as (mem & Hw & -> & Hs & Hlo & Hhi); [|exact Hwf].
    apply (Hback _ _ mem Hw Hlo). unfold executeRet. rewrite bind_run, lift_run, Hir.
    apply (ret_pushed a0 (pc (mstate m) + 1) m mem); try assumption. words.
Qed.

(** A handler that serves no vector, and the extended [long double]: what the
    examples run with. *)
Definition no_handler : SoftwareInterruptHandler unit :=
  {| handles := fun _ _ => false; handle := fun _ _ => throw (RuntimeError "not handled") |}.
Definition extended_long_double : LongDouble := 64.

Example call_ret_roundtrip_witness :
  let call := {| opcode := CALL; dst := label "f"; src := none |} in
  let ret := {| opcode := RET; dst := none; src := none |} in
  let no_operands := {| dec_opcode := RET; dst_type := Enc_None; src_type := Enc_None;
                        dst_payload := 0; src_payload := 0 |} in
  exists m1 mem, executeCall call sample_user_machine = (Ret tt, m1) /\
    executeRet ret m1 = (Ret tt, set_mstate (fun s => setPc (pc s + 1) (set_memory mem s)) sample_user_machine).
Proof.
  intros call ret no_operands. destruct sample_user_machine_ok as [Hwf Hinv].
  assert (Hv : is_i64 5) by words.
  assert (Hpc : pc (mstate sample_user_machine) <= INT64_MAX - 24) by (vm_compute; discriminate).
  destruct (executeCall call sample_user_machine) as [[[]|e] m1] eqn:E; [|vm_compute in E; discriminate E].
  destruct (@call_ret_roundtrip extended_long_double unit no_handler sample_user_machine m1 5 no_operands no_operands call ret
              Hwf Hinv Hv Hpc eq_refl eq_refl) as (_ & _ & Hcall).
  destruct (Hcall E) as (mem & _ & _ & Hret). exists m1, mem. split; [reflexivity | exact Hret].
Defined.
