(* ===== verification/CPUInv.v ===== *)
(** * The type invariant of the machine

    Every field of the machine keeps a value of its C++ type, memory keeps its
    size and the register file its length, whatever the program and the devices
    do: [machine_wf] is preserved by every instruction of both engines, by
    interrupt delivery and by device ticks.  What a host handler may do is
    stated as a class, [WellTypedHandler], that a handler has to implement. *)

From S2P Require Import Prelude Words ALU Memory ISA Binary Interrupts Devices DeviceTypes CPUState Trace CPU CPUExec CPUStep CPUFrames.
Open Scope Z_scope.

(** ** Well-formed machines *)

Definition instruction_fits (i : Instruction) : Prop := operand_fits (dst i) /\ operand_fits (src i).

Record cpu_wf (c : CPU) : Prop := {
  cwf_state : state_wf (state c);
  cwf_program : Forall instruction_fits (program c);
  cwf_labels : map_Forall (fun _ => is_u64) (labels c);
  cwf_code_base : is_u64 (binary_code_base c);
  cwf_kernel_sp : is_u64 (kernel_stack_pointer c);
  cwf_exit_code : is_i64 (process_exit_code c);
}.

(** What the machine relies on a host handler for: it keeps an invariant of its
    own, and the state and the devices it is given well typed. *)
Class WellTypedHandler (H : Type) {SIH : SoftwareInterruptHandler H} := {
  handler_wf : H -> Prop;
  handle_safe : forall vector bus, is_u8 vector ->
    safe (fun '(h, s, w) => handler_wf h /\ state_wf s /\ world_wf w) (handle vector bus)
      (fun result => is_i64 (exit_code result));
}.

Record machine_wf {H} {SIH : SoftwareInterruptHandler H} {WT : WellTypedHandler H} (m : Machine H) : Prop := {
  mwf_cpu : cpu_wf (cpu m);
  mwf_world : world_wf (world m);
  mwf_handler : handler_wf (handler m);
}.

(** ** Assignments *)

Section states.
Context (s : CPUState) (Hs : state_wf s).

Lemma set_registers_wf regs :
  length regs = kRegisterCount /\ Forall is_i64 regs -> state_wf (set_registers regs s).
Proof. intros H. destruct Hs. constructor; assumption. Qed.
Lemma set_memory_wf mem : byte_list mem -> length mem = length (memory s) -> state_wf (set_memory mem s).
Proof. intros Hb Hl. destruct Hs. constructor; try assumption. unfold Memory_size in *. cbn. congruence. Qed.
Lemma set_flags_wf f : is_u32 f -> state_wf (set_flags f s).
Proof. intros H. destruct Hs. constructor; assumption. Qed.
Lemma setPc_wf a : is_u64 a -> state_wf (setPc a s).
Proof. intros H. destruct Hs. constructor; assumption. Qed.
Lemma setSp_wf a : is_u64 a -> state_wf (setSp a s).
Proof. intros H. destruct Hs. constructor; assumption. Qed.
Lemma setPrivilegeLevel_wf p : state_wf (setPrivilegeLevel p s).
Proof. destruct Hs. constructor; assumption. Qed.
Lemma setHalted_wf b : state_wf (setHalted b s).
Proof. destruct Hs. constructor; assumption. Qed.
Lemma setError_wf msg : state_wf (CPUState_setError msg s).
Proof. destruct Hs. constructor; assumption. Qed.
Lemma advancePc_wf : state_wf (CPUState_advancePc s).
Proof. apply setPc_wf, u64_range. Qed.
Lemma halt_wf : state_wf (CPUState_halt s).
Proof. apply setHalted_wf. Qed.
Lemma update_flags_wf f : (is_u32 (flags s) -> is_u32 (f (flags s))) -> state_wf (set_flags (f (flags s)) s).
Proof. intros H. apply set_flags_wf, H, Hs. Qed.
End states.

#[export] Hint Resolve set_flags_wf wf_flags wf_pc wf_sp setPc_wf setSp_wf setPrivilegeLevel_wf setHalted_wf setError_wf
  advancePc_wf halt_wf updateZeroAndSign_range applyALUResult_range restoreFlags_range : safe.

Lemma read_register_word regs reg v :
  Forall is_i64 regs -> RegisterFile_get regs reg = Ret v -> is_i64 v.
Proof.
  intros Hr H. apply bind_ret_inv in H as (k & _ & H).
  destruct (regs !! k) as [x|] eqn:E; [|discriminate]. injection H as <-.
  exact (proj1 (Forall_lookup _ _) Hr _ _ E).
Qed.

Lemma RegisterFile_set_wf regs reg v regs' :
  length regs = kRegisterCount /\ Forall is_i64 regs -> is_i64 v -> RegisterFile_set regs reg v = Ret regs' ->
  length regs' = kRegisterCount /\ Forall is_i64 regs'.
Proof.
  intros [Hl Hr] Hv H. split; [rewrite <- Hl; eapply RegisterFile_set_length, H|].
  apply bind_ret_inv in H as (k & _ & H). destruct (_ <? _)%nat; [|discriminate]. injection H as <-.
  apply Forall_insert; assumption.
Qed.

Lemma cpu_set_state_wf c s : cpu_wf c -> state_wf s -> cpu_wf (set_state s c).
Proof. intros [] Hs. constructor; assumption. Qed.

(** ** Primitives *)

Section primitives.
Context {H : Type} {SIH : SoftwareInterruptHandler H} {WT : WellTypedHandler H}.
Abbreviation wf := (@machine_wf H SIH WT).
Abbreviation ok := (fun _ => True).

Lemma gets_cpu_safe : safe wf (gets cpu) cpu_wf.
Proof. apply safe_gets. intros m Hm. apply Hm. Qed.

Lemma gets_mstate_safe : safe wf (gets mstate) state_wf.
Proof. apply safe_gets. intros m Hm. apply Hm. Qed.

Lemma gets_world_safe : safe wf (gets world) world_wf.
Proof. apply safe_gets. intros m Hm. apply Hm. Qed.

Lemma check_safe {A} (f : CPU -> outcome A) (Q : A -> Prop) :
  (forall c a, cpu_wf c -> f c = Ret a -> Q a) -> safe wf (check f) Q.
Proof.
  intros Hf m Hm. unfold check. destruct (f (cpu m)) eqn:E; [|exact Hm].
  split; [eapply Hf; [apply Hm | exact E] | exact Hm].
Qed.

Lemma assign_safe f : (forall c, cpu_wf c -> cpu_wf (f c)) -> safe wf (assign f) ok.
Proof. intros Hf. apply safe_modify. intros m []. constructor; [apply Hf| |]; assumption. Qed.

Lemma on_state_safe f : (forall s, state_wf s -> state_wf (f s)) -> safe wf (on_state f) ok.
Proof.
  intros Hf. apply safe_modify. intros m [Hc]. constructor; [|assumption..].
  apply cpu_set_state_wf; [exact Hc | apply Hf, Hc].
Qed.

Lemma on_world_safe {A} (m : M World A) Q : safe world_wf m Q -> safe wf (on_world m) Q.
Proof.
  intros Hm. eapply safe_zoom; [exact Hm | intros ? Hs; apply Hs |].
  intros s w [] Hw. constructor; assumption.
Qed.

Lemma write_memory_safe a v : safe wf (write_memory a v) ok.
Proof.
  apply safe_update. intros m s Hm Hs. apply bind_ret_inv in Hs as (mem & Hw & [= <-]).
  destruct Hm as [Hc Hworld Hh]. constructor; [|exact Hworld | exact Hh]. apply cpu_set_state_wf; [exact Hc|].
  pose proof (cwf_state _ Hc) as Hst. apply set_memory_wf; [exact Hst | |].
  - eapply write_bytes; [exact Hw | apply Hst].
  - eapply writeU64_size, Hw.
Qed.

Lemma write_register_safe r v : is_i64 v -> safe wf (write_register r v) ok.
Proof.
  intros Hv. apply safe_update. intros m s Hm Hs. apply bind_ret_inv in Hs as (regs & Hw & [= <-]).
  destruct Hm as [Hc Hworld Hh]. constructor; [|exact Hworld | exact Hh]. apply cpu_set_state_wf; [exact Hc|].
  apply set_registers_wf; [apply Hc|]. eapply RegisterFile_set_wf; [apply Hc | exact Hv | exact Hw].
Qed.

Lemma read_register_safe r : safe wf (read_register r) is_i64.
Proof.
  unfold read_register. eapply safe_bind; [apply gets_mstate_safe | intros s Hs]. apply safe_lift.
  intros v Hv. eapply read_register_word; [apply Hs | exact Hv].
Qed.

Lemma lift_read_safe mem a : safe wf (lift (Memory_read mem a)) is_i64.
Proof. apply safe_lift. intros v. apply read_range. Qed.

Lemma lift_ok_safe {A} (o : outcome A) : safe wf (lift o) ok.
Proof. apply safe_lift. auto. Qed.

Lemma check_ok_safe {A} (f : CPU -> outcome A) : safe wf (check f) ok.
Proof. apply check_safe. auto. Qed.

Lemma update_flags_safe f : (forall x, is_u32 x -> is_u32 (f x)) -> safe wf (update_flags f) ok.
Proof. intros Hf. apply on_state_safe. intros s Hs. apply set_flags_wf; [exact Hs | apply Hf, Hs]. Qed.

End primitives.

#[export] Hint Resolve gets_cpu_safe gets_mstate_safe gets_world_safe read_register_safe
  write_memory_safe write_register_safe lift_read_safe on_world_safe | 1 : safe.
#[export] Hint Resolve on_state_safe update_flags_safe assign_safe | 2 : safe.
#[export] Hint Resolve lift_ok_safe check_ok_safe : safe_default.
#[export] Hint Resolve MMIOBus_read_safe MMIOBus_write_safe timer_tick_safe on_controller_safe
  acknowledge_wf : safe.

(** ** Memory, stacks and interrupts *)

Lemma kernel_sp_wf v c : is_u64 v -> cpu_wf c -> cpu_wf (set_kernel_stack_pointer v c).
Proof. intros Hv []. constructor; assumption. Qed.

Lemma using_wf b c : cpu_wf c -> cpu_wf (set_using_kernel_interrupt_stack b c).
Proof. intros []. constructor; assumption. Qed.

Lemma observation_wf b o c : cpu_wf c -> cpu_wf (set_observation b o c).
Proof. intros []. constructor; assumption. Qed.

Lemma exit_wf b v c : is_i64 v -> cpu_wf c -> cpu_wf (set_process_exit b v c).
Proof. intros Hv []. constructor; assumption. Qed.

Lemma trace_wf t c : cpu_wf c -> cpu_wf (set_trace t c).
Proof. intros []. constructor; assumption. Qed.

Lemma checkedReturnAddress_wf v msg a : checkedReturnAddress v msg = Ret a -> is_u64 a.
Proof. unfold checkedReturnAddress. destruct (v <? 0); [discriminate|]. intros [= <-]. apply u64_range. Qed.

#[export] Hint Resolve kernel_sp_wf using_wf observation_wf exit_wf trace_wf : safe.

Section operations.
Context {LD : LongDouble} {H : Type} {SIH : SoftwareInterruptHandler H} {WT : WellTypedHandler H}.
Abbreviation wf := (@machine_wf H SIH WT).
Abbreviation ok := (fun _ => True).

Lemma lift_address_safe v msg : safe wf (lift (checkedReturnAddress v msg)) is_u64.
Proof. apply safe_lift. intros a. apply checkedReturnAddress_wf. Qed.

Lemma setRuntimeError_safe msg : safe wf (setRuntimeError msg) ok.
Proof. unfold setRuntimeError. safe_go. Qed.

Lemma record_trace_safe s i msg : safe wf (record_trace s i msg) ok.
Proof. unfold record_trace. safe_go. Qed.

Lemma tick_devices_safe l : safe wf (tick_devices l) ok.
Proof.
  induction l as [|[d|] l IH]; cbn [tick_devices]; [apply safe_ret, Logic.I | | apply safe_throw].
  eapply safe_bind; [apply on_world_safe, timer_tick_safe | intros _ _; exact IH].
Qed.
Hint Resolve lift_address_safe setRuntimeError_safe record_trace_safe tick_devices_safe | 1 : safe.

Lemma tickClockedDevices_safe : safe wf tickClockedDevices ok.
Proof. unfold tickClockedDevices. safe_go. Qed.

Lemma setPcForExecution_safe a : is_u64 a -> safe wf (setPcForExecution a) ok.
Proof. intros Ha. unfold setPcForExecution. safe_go. Qed.

Lemma advancePc_safe : safe wf advancePcUnlessHalted ok.
Proof. unfold advancePcUnlessHalted. safe_go. Qed.

Lemma advanceBinaryPc_safe : safe wf advanceBinaryPcUnlessHalted ok.
Proof. unfold advanceBinaryPcUnlessHalted. safe_go. Qed.

Lemma readDataMemory_safe a : safe wf (readDataMemory a) is_i64.
Proof. unfold readDataMemory. safe_go. Qed.

Lemma writeDataMemory_safe a v : is_i64 v -> safe wf (writeDataMemory a v) ok.
Proof. intros Hv. unfold writeDataMemory. safe_go. Qed.

Lemma sync_kernel_sp_safe v : is_u64 v -> safe wf (sync_kernel_sp v) ok.
Proof.
  intros Hv. apply assign_safe. intros c Hc. destruct (using_kernel_interrupt_stack c); auto with safe.
Qed.
Hint Resolve tickClockedDevices_safe setPcForExecution_safe advancePc_safe advanceBinaryPc_safe
  readDataMemory_safe writeDataMemory_safe sync_kernel_sp_safe | 1 : safe.

Lemma pushValue_safe v : safe wf (pushValue v) ok.
Proof. unfold pushValue. safe_go. Qed.

Lemma popValue_safe : safe wf popValue is_i64.
Proof. unfold popValue. safe_go. assumption. Qed.

Lemma peekValue_safe : safe wf peekValue is_i64.
Proof. unfold peekValue. safe_go. Qed.

Lemma pushInterruptFrame_safe ra : safe wf (pushInterruptFrame ra) ok.
Proof.
  unfold pushInterruptFrame. eapply safe_bind; [apply gets_mstate_safe | intros s Hs]. cbv zeta.
  eapply (safe_bind _ _ _ ok); [case_bool_decide; safe_go | intros fb _].
  safe_go. eapply safe_bind; [|intros _ _; auto with safe].
  apply assign_safe. intros c Hc. case_bool_decide; auto with safe.
Qed.

Lemma restoreInterruptFrame_safe msg allow : safe wf (restoreInterruptFrame msg allow) ok.
Proof. unfold restoreInterruptFrame. safe_go. Qed.
Hint Resolve pushValue_safe popValue_safe peekValue_safe pushInterruptFrame_safe
  restoreInterruptFrame_safe | 1 : safe.

Lemma lift_handler_safe w r v :
  world_wf w -> safe wf (lift (InterruptController_vectorHandler (controller_at w r) v)) is_u64.
Proof. intros Hw. apply safe_lift. intros a. apply vectorHandler_wf. auto with safe. Qed.
Hint Resolve lift_handler_safe | 1 : safe.

Lemma acknowledge_safe r : safe wf (on_world (on_controller r InterruptController_acknowledge)) request_ok.
Proof. auto with safe. Qed.

Lemma servicePending_safe : safe wf servicePendingInterruptIfNeeded ok.
Proof.
  unfold servicePendingInterruptIfNeeded. eapply safe_bind; [apply safe_get | intros m Hm].
  destruct (interrupt_controller _); [|apply safe_ret, Logic.I].
  destruct (negb _); [apply safe_ret, Logic.I|].
  eapply safe_bind; [apply acknowledge_safe | intros req [Hv Hp]].
  safe_go.
Qed.

Lemma call_handler_safe v : is_u8 v -> safe wf (call_handler v) (fun r => is_i64 (exit_code r)).
Proof.
  intros Hv m [Hc Hw Hh]. unfold call_handler.
  specialize (handle_safe v (mmio_bus (cpu m)) Hv (handler m, mstate m, world m) (conj Hh (conj (cwf_state _ Hc) Hw))).
  destruct (handle _ _ _) as [[r|e] [[h s] w]]; cbn.
  - intros (Hr & Hh' & Hs & Hw'). split; [exact Hr|]. constructor; [|exact Hw' | exact Hh'].
    apply cpu_set_state_wf; assumption.
  - intros (Hh' & Hs & Hw'). constructor; [|exact Hw' | exact Hh']. apply cpu_set_state_wf; assumption.
Qed.

Lemma serviceHost_safe v ra : is_u8 v -> safe wf (serviceHostSoftwareInterrupt v ra) ok.
Proof.
  intros Hv. unfold serviceHostSoftwareInterrupt.
  eapply safe_bind; [apply safe_get | intros m Hm]. destruct (_ || _); [apply safe_ret, Logic.I|].
  safe_step. safe_step. eapply safe_bind.
  { apply safe_try; [apply call_handler_safe, Hv | intros e; safe_go]. }
  intros r Hr. cbv beta in Hr. safe_go.
Qed.
Hint Resolve servicePending_safe serviceHost_safe | 1 : safe.

(** ** The binary engine *)

Definition decoded_fits (i : DecodedInstruction) : Prop := is_i64 (dst_payload i) /\ is_i64 (src_payload i).

Lemma fetch_decode_fits c i : fetch_decode c = Ret i -> decoded_fits i.
Proof.
  unfold fetch_decode. destruct (negb _); [discriminate|]. intros Hd.
  apply bind_ret_inv in Hd as (bytes & _ & Hd).
  apply decodeInstruction_inv in Hd as (_ & _ & _ & _ & _ & _ & _ & H1 & H2).
  split; [rewrite H1 | rewrite H2]; apply i64_range.
Qed.

Lemma readBinaryMemoryAddress_safe t p : safe wf (readBinaryMemoryAddress t p) is_u64.
Proof. unfold readBinaryMemoryAddress. safe_go; apply u64_range. Qed.

Lemma readBinaryOperandValue_safe t p : is_i64 p -> safe wf (readBinaryOperandValue t p) is_i64.
Proof.
  intros Hp. unfold readBinaryOperandValue. destruct t; safe_go; try assumption;
    (eapply safe_bind; [apply readBinaryMemoryAddress_safe | intros; safe_go]).
Qed.

Lemma readBinaryCodeAddress_safe t p : safe wf (check (readBinaryCodeAddress t p)) is_u64.
Proof.
  apply check_safe. intros c a Hc. unfold readBinaryCodeAddress.
  destruct (negb _); [discriminate|]. destruct (p <? 0); [discriminate|]. cbv zeta.
  destruct (negb _); [discriminate|]. intros [= <-]. apply u64_range.
Qed.

Lemma writeBinaryRegister_safe t p v : is_i64 v -> safe wf (writeBinaryRegisterDestination t p v) ok.
Proof. intros Hv. unfold writeBinaryRegisterDestination. safe_go. Qed.
Hint Resolve readBinaryMemoryAddress_safe readBinaryOperandValue_safe readBinaryCodeAddress_safe
  writeBinaryRegister_safe | 1 : safe.

(** An ALU operation that maps words to words. *)
Definition word_operation (op : Z -> Z -> outcome ALUResult) : Prop :=
  forall a b, is_i64 a -> is_i64 b -> forall r, op a b = Ret r -> is_i64 (res_value r).

Lemma pure_word_operation (op : Z -> Z -> ALUResult) :
  (forall a b, is_i64 a -> is_i64 b -> is_i64 (res_value (op a b))) ->
  word_operation (fun a b => mret (op a b)).
Proof. intros Hop a b Ha Hb r [= <-]. apply Hop; assumption. Qed.

Lemma lift_op_safe op a b :
  word_operation op -> is_i64 a -> is_i64 b -> safe wf (lift (op a b)) (fun r => is_i64 (res_value r)).
Proof. intros Hop Ha Hb. apply safe_lift. apply Hop; assumption. Qed.

Lemma binary_alu_safe op i : word_operation op -> decoded_fits i -> safe wf (binary_alu op i) ok.
Proof.
  intros Hop [Hd Hs]. unfold binary_alu. do 4 safe_step.
  eapply safe_bind; [apply (lift_op_safe op); assumption | intros r Hr]. cbv beta in Hr. safe_go.
Qed.

Lemma binary_compare_safe op i : decoded_fits i -> safe wf (binary_compare op i) ok.
Proof. intros [Hd Hs]. unfold binary_compare. safe_go. Qed.

Lemma binary_branch_safe c i : safe wf (binary_branch c i) ok.
Proof. unfold binary_branch. safe_go. Qed.

Lemma set_interrupts_safe b name : safe wf (set_interrupts b name) ok.
Proof.
  unfold set_interrupts. safe_go. apply on_world_safe, on_controller_safe, safe_modify.
  intros c. apply setGlobalEnabled_wf.
Qed.

Lemma require_controller_safe : safe wf require_controller ok.
Proof. unfold require_controller. safe_go. Qed.
Hint Resolve binary_compare_safe binary_branch_safe set_interrupts_safe require_controller_safe | 1 : safe.
Hint Resolve ALU_add_word ALU_sub_word ALU_mul_word ALU_div_word ALU_bitAnd_word ALU_bitOr_word
  ALU_bitXor_word ALU_bitNot_word : safe.

Lemma executeBinaryInstruction_safe i : decoded_fits i -> safe wf (executeBinaryInstruction i) ok.
Proof.
  intros Hi. pose proof Hi as [Hd Hs]. unfold executeBinaryInstruction. safe_step.
  destruct (dec_opcode i);
    try (apply binary_alu_safe; [|exact Hi]; first [exact (fun a b Ha Hb r => ALU_div_word a b Ha Hb r) |
           apply pure_word_operation; auto with safe]).
  all: unfold executeBinary_NOP, executeBinary_HALT, executeBinary_MOV, executeBinary_LOAD,
    executeBinary_STORE, executeBinary_NOT, executeBinary_CMP, executeBinary_TEST, executeBinary_JMP,
    executeBinary_JE, executeBinary_JNE, executeBinary_JG, executeBinary_JL, executeBinary_PUSH,
    executeBinary_POP, executeBinary_CALL, executeBinary_RET, executeBinary_IRET, executeBinary_EI,
    executeBinary_DI, executeBinary_INT; safe_go.
Qed.

Lemma stepBinary_safe : safe wf stepBinary ok.
Proof.
  unfold stepBinary. eapply safe_bind; [apply (check_safe _ decoded_fits) | apply executeBinaryInstruction_safe].
  intros c i _. apply fetch_decode_fits.
Qed.

(** ** The interpreted engine *)

Lemma asMemoryAddress_safe o : operand_fits o -> safe wf (lift (Operand_asMemoryAddress o)) is_u64.
Proof. intros Ho. apply safe_lift. destruct o; intros a [= <-]. exact Ho. Qed.

Lemma asImmediate_safe o : operand_fits o -> safe wf (lift (Operand_asImmediate o)) is_i64.
Proof. intros Ho. apply safe_lift. destruct o; intros a [= <-]. exact Ho. Qed.
Hint Resolve asMemoryAddress_safe asImmediate_safe | 1 : safe.

Lemma readMemoryAddress_safe o : operand_fits o -> safe wf (readMemoryAddress o) is_u64.
Proof. intros Ho. unfold readMemoryAddress. safe_go. apply u64_range. Qed.
Hint Resolve readMemoryAddress_safe | 1 : safe.

Lemma readOperandValue_safe o : operand_fits o -> safe wf (readOperandValue o) is_i64.
Proof. intros Ho. unfold readOperandValue. safe_go. Qed.

Lemma resolveLabelAddress_safe o : safe wf (check (resolveLabelAddress o)) is_u64.
Proof.
  apply check_safe. intros c a Hc. unfold resolveLabelAddress. destruct (negb _); [discriminate|].
  intros Hl. apply bind_ret_inv in Hl as (n & _ & Hl).
  destruct (labels c !! n) as [x|] eqn:E; [|discriminate]. injection Hl as <-. exact (cwf_labels _ Hc _ _ E).
Qed.

Lemma writeRegisterDestination_safe o v : is_i64 v -> safe wf (writeRegisterDestination o v) ok.
Proof. intros Hv. unfold writeRegisterDestination. safe_go. Qed.
Hint Resolve readOperandValue_safe resolveLabelAddress_safe writeRegisterDestination_safe | 1 : safe.

Lemma execute_alu_safe op i : word_operation op -> instruction_fits i -> safe wf (execute_alu op i) ok.
Proof.
  intros Hop [Hd Hs]. unfold execute_alu. do 4 safe_step.
  eapply safe_bind; [apply (lift_op_safe op); assumption | intros r Hr]. cbv beta in Hr. safe_go.
Qed.

Lemma execute_compare_safe op i : instruction_fits i -> safe wf (execute_compare op i) ok.
Proof. intros [Hd Hs]. unfold execute_compare. safe_go. Qed.

Lemma execute_branch_safe c i : safe wf (execute_branch c i) ok.
Proof. unfold execute_branch. safe_go. Qed.
Hint Resolve execute_compare_safe execute_branch_safe | 1 : safe.

Lemma execute_safe i : instruction_fits i -> safe wf (execute i) ok.
Proof.
  intros Hi. pose proof Hi as [Hd Hs]. unfold execute. safe_step.
  destruct (opcode i);
    try (apply execute_alu_safe; [|exact Hi]; first [exact (fun a b Ha Hb r => ALU_div_word a b Ha Hb r) |
           apply pure_word_operation; auto with safe]).
  all: unfold executeNop, executeHalt, executeMov, executeLoad, executeStore, executeNot, executeCmp,
    executeTest, executeJmp, executeJe, executeJne, executeJg, executeJl, executePush, executePop,
    executeCall, executeRet, executeIret, executeEi, executeDi, executeInt; safe_go.
Qed.

(** ** Stepping *)

Lemma tick_unless_stopped_safe : safe wf tick_unless_stopped ok.
Proof. unfold tick_unless_stopped. safe_go. Qed.
Hint Resolve tick_unless_stopped_safe stepBinary_safe | 1 : safe.

Lemma step_interrupt_safe s : safe wf (step_interrupt s) ok.
Proof. unfold step_interrupt. apply safe_try; intros; safe_go. Qed.

Lemma fetch_program_fits c i : cpu_wf c -> fetch_program c = Ret i -> instruction_fits i.
Proof.
  intros Hc Hf. apply bind_ret_inv in Hf as ([] & _ & Hf).
  destruct (program c !! _) as [j|] eqn:E; [|discriminate]. injection Hf as <-.
  exact (proj1 (Forall_lookup _ _) (cwf_program _ Hc) _ _ E).
Qed.

Lemma step_instruction_safe fetch exec (P : Instruction -> Prop) :
  (forall c i, cpu_wf c -> fetch c = Ret i -> P i) -> (forall i, P i -> safe wf (exec i) ok) ->
  safe wf (step_instruction fetch exec) ok.
Proof.
  intros Hf He. unfold step_instruction. safe_step.
  eapply (safe_bind _ _ _ (fun r => match r with inl i => P i | inr _ => True end)).
  - apply safe_try; [|intros e; apply safe_ret; exact Logic.I].
    eapply safe_bind; [apply (check_safe _ P), Hf | intros i Hi; apply safe_ret, Hi].
  - intros [i|ex] Hi; [|safe_go].
    eapply (safe_bind _ _ _ ok); [|intros; safe_go].
    apply safe_try; [|intros; safe_go].
    eapply safe_bind; [apply He, Hi | intros; safe_go].
Qed.

Lemma CPU_step_safe : safe wf CPU_step ok.
Proof.
  unfold CPU_step. safe_step. destruct (_ || _); [apply safe_ret, Logic.I|]. do 2 safe_step.
  eapply safe_bind; [apply step_interrupt_safe | intros b _]. destruct b; [apply safe_ret, Logic.I|].
  safe_step. destruct (has_binary_program _).
  - apply (step_instruction_safe _ _ (fun _ => True)); [auto | intros; apply stepBinary_safe].
  - apply (step_instruction_safe _ _ instruction_fits); [apply fetch_program_fits | apply execute_safe].
Qed.

Lemma run_loop_safe n : safe wf (run_loop n) ok.
Proof.
  induction n as [|n IH]; cbn [run_loop]; [apply safe_ret, Logic.I|].
  safe_step. destruct (_ && _); [|apply safe_ret, Logic.I].
  eapply safe_bind; [apply CPU_step_safe | intros _ _; exact IH].
Qed.

Lemma CPU_run_safe n : safe wf (CPU_run n) ok.
Proof.
  unfold CPU_run. eapply safe_bind; [apply run_loop_safe | intros _ _]. safe_go.
Qed.

End operations.

(** ** Loading *)

Lemma reset_wf s : state_wf s -> state_wf (CPUState_reset s).
Proof.
  intros Hs. assert (Hz : is_u8 0) by words. assert (Hi : is_i64 0) by words.
  constructor; cbn [CPUState_reset registers memory flags pc sp].
  - split; [reflexivity|]. apply Forall_replicate, Hi.
  - apply Forall_fmap, Forall_forall. intros x _. exact Hz.
  - unfold Memory_size, Memory_reset. rewrite length_fmap. apply (wf_memory_size _ Hs).
  - words.
  - words.
  - unfold CPUState_kDefaultStackBase. words.
Qed.

Lemma loadProgram_wf prog table c :
  cpu_wf c -> Forall instruction_fits prog -> map_Forall (fun _ => is_u64) table ->
  cpu_wf (loadProgram prog table c).
Proof.
  intros [] Hp Ht. constructor; cbn; try assumption; try words.
  - apply reset_wf. assumption.
  - unfold kKernelStackBase, kBioOSStackBase. words.
Qed.

Definition memory_wf (mem : Memory) : Prop := byte_list mem /\ Memory_size mem = kDefaultMemorySize.

Lemma loadIntoMemory_safe p base :
  byte_list (code p) -> byte_list (data p) -> is_u64 base ->
  safe memory_wf (BinaryLoader_loadIntoMemory p base)
    (fun img => is_u64 (img_entry_point img) /\ is_u64 (img_code_base img)).
Proof.
  intros Hc Hd Hb.
  assert (Hw : forall mem a l, memory_wf mem -> byte_list l ->
            safe memory_wf (lift (Memory_writeBytes mem a l)) memory_wf).
  { intros mem a l [H1 H2] Hl. apply safe_lift. intros mem' E. split.
    - eapply writeBytes_bytes; [exact H1 | exact Hl | exact E].
    - unfold Memory_size in *. rewrite (writeBytes_length _ _ _ _ E). exact H2. }
  unfold BinaryLoader_loadIntoMemory.
  eapply safe_bind; [apply (safe_lift _ _ (fun _ => True)); auto | intros _ _].
  eapply safe_bind; [apply safe_get | intros mem Hm].
  eapply safe_bind; [apply (safe_lift _ _ (fun _ => True)); auto | intros _ _].
  eapply (safe_bind _ _ _ memory_wf); [|intros mem1 Hm1].
  { destruct (negb _); [apply Hw; assumption | apply safe_lift; intros x [= <-]; exact Hm]. }
  eapply safe_bind; [apply Hw; eassumption | intros mem2 Hm2].
  eapply safe_bind; [apply safe_modify; auto | intros _ _].
  apply safe_ret. split; [apply u64_range | exact Hb].
Qed.

Lemma loadBinaryProgram_safe p :
  byte_list (code p) -> byte_list (data p) -> safe cpu_wf (loadBinaryProgram p) (fun _ => True).
Proof.
  intros Hc Hd. unfold loadBinaryProgram.
  eapply safe_bind; [apply safe_modify; intros c Hw; apply cpu_set_state_wf; [exact Hw | apply reset_wf, Hw] |].
  intros _ _. eapply safe_bind; [apply safe_modify; intros c []; constructor; auto; apply map_Forall_empty |].
  intros _ _. eapply safe_bind; [apply safe_modify; intros c; apply trace_wf |].
  intros _ _. eapply safe_bind.
  { apply (safe_zoom _ memory_wf); [apply loadIntoMemory_safe; [exact Hc | exact Hd |] | |].
    - unfold kDefaultBinaryCodeBase. words.
    - intros c Hw. split; apply Hw.
    - intros c mem Hw [H1 H2]. apply cpu_set_state_wf; [exact Hw|].
      destruct (cwf_state _ Hw). constructor; assumption. }
  intros img [He Hb].
  eapply safe_bind; [apply safe_modify; intros c Hw; apply cpu_set_state_wf; [exact Hw | apply setPc_wf; [apply Hw | exact He]] |].
  intros _ _. eapply safe_bind; [apply safe_modify; intros c []; constructor; assumption |].
  intros _ _. eapply safe_bind; [apply safe_modify; intros c []; constructor; assumption |].
  intros _ _. eapply safe_bind; [apply safe_modify; intros c; apply kernel_sp_wf |].
  { unfold kKernelStackBase, kBioOSStackBase. words. }
  intros _ _. eapply safe_bind; [apply safe_modify; intros c; apply using_wf | intros _ _].
  apply safe_modify. intros c. apply exit_wf. words.
Qed.

Lemma new_CPU_wf : cpu_wf new_CPU.
Proof.
  constructor; cbn; try words; [exact new_CPUState_wf | constructor | apply map_Forall_empty |].
  unfold kKernelStackBase, kBioOSStackBase. words.
Qed.

(** (C2) Type safety of the machine.  Whatever program is loaded and whatever
    the devices hold, [step] and [run] keep every component inside its C++
    type: registers, flags, program counter, stack pointers and memory bytes of
    the CPU, and the registers and queues of all devices; memory keeps its 4096
    bytes and the register file its 8 registers.  Loading a program or a binary
    keeps the invariant, also when the binary is rejected.  The only hypothesis about
    the host is the interface of its handler: an invariant of its own, under
    which it keeps the state and the devices it is given well typed. *)
Theorem machine_stays_well_typed {LD : LongDouble} {H} {SIH : SoftwareInterruptHandler H}
    {WT : WellTypedHandler H} (m : Machine H) (n : nat) (prog : list Instruction) (table : LabelTable)
    (bin : BinaryProgram)
    (Hm : machine_wf m) (Hp : Forall instruction_fits prog) (Ht : map_Forall (fun _ => is_u64) table)
    (Hc : byte_list (code bin)) (Hd : byte_list (data bin)) :
  machine_wf (CPU_step m).2 /\ machine_wf (CPU_run n m).2 /\
  machine_wf (CPU_run n (set_cpu (loadProgram prog table) m)).2 /\
  machine_wf (CPU_run n (set_cpu (fun c => (loadBinaryProgram bin c).2) m)).2.
Proof.
  split; [|split; [|split]].
  - eapply safe_final; [apply CPU_step_safe | exact Hm].
  - eapply safe_final; [apply CPU_run_safe | exact Hm].
  - eapply safe_final; [apply CPU_run_safe|]. destruct Hm. constructor; [|assumption..].
    apply loadProgram_wf; assumption.
  - eapply safe_final; [apply CPU_run_safe|]. destruct Hm. constructor; [|assumption..].
    change (cpu_wf (loadBinaryProgram bin (cpu m)).2).
    eapply safe_final; [apply loadBinaryProgram_safe; assumption | assumption].
Qed.

#[export] Instance no_handler_well_typed : @WellTypedHandler unit no_handler := {
  handler_wf := fun _ => True;
  handle_safe := fun vector bus _ => safe_throw _ _ _
}.

Definition empty_world : World :=
  {| controllers := ∅; timers := ∅; debug_outputs := ∅; hardware_buses := ∅; serial_buses := ∅; buses := ∅ |}.

Lemma empty_world_wf : world_wf empty_world.
Proof. constructor; apply map_Forall_empty. Qed.

(** A program that counts down from 2 with a loop: [R1] ends at zero. *)
Definition countdown : list Instruction :=
  [{| opcode := MOV; dst := registerOperand R1; src := immediate 2 |};
   {| opcode := SUB; dst := registerOperand R1; src := immediate 1 |};
   {| opcode := JNE; dst := label "loop"; src := none |};
   {| opcode := HALT; dst := none; src := none |}].

Example machine_stays_well_typed_witness :
  let m := mkMachine new_CPU empty_world tt in
  @machine_wf _ no_handler _ (@CPU_run extended_long_double unit no_handler 10
                (set_cpu (loadProgram countdown {["loop" := 1]}) m)).2 /\
  @machine_wf _ no_handler _ (@CPU_run extended_long_double unit no_handler 10
                (set_cpu (fun c => (loadBinaryProgram small_program c).2) m)).2.
Proof.
  intros m.
  assert (Hm : @machine_wf _ no_handler _ m) by (constructor; [exact new_CPU_wf | exact empty_world_wf | exact Logic.I]).
  assert (Hp : Forall instruction_fits countdown).
  { repeat (apply Forall_cons; split; [split; cbn; (exact Logic.I || words)|]). apply Forall_nil_2. }
  assert (Ht : map_Forall (fun (_ : string) a => is_u64 a) ({["loop" := 1]} : LabelTable)).
  { apply map_Forall_singleton. words. }
  destruct small_program_ok as [_ _ _ Hc Hd].
  exact (proj2 (proj2 (@machine_stays_well_typed extended_long_double unit no_handler
    no_handler_well_typed m 10 countdown {["loop" := 1]} small_program Hm Hp Ht Hc Hd))).
Defined.
