(* ===== verification/CPUProtect.v ===== *)
(** * Protection: what one step of a User program can do

    [user_step_confined]: a step taken in User mode writes user data, the user
    stack and one frame on the Kernel stack, and nothing else; it ends in User
    mode, in the error state, or in Kernel mode at an address of the vector
    table.  [user_violations_fault]: the accesses User mode forbids end in the
    error state without an effect.  What a host handler may do is stated as a
    class, [ConfinedHandler]. *)

From S2P Require Import Prelude Words ALU Memory ISA Binary Interrupts Devices CPUState Trace CPU CPUExec CPUStep CPUFrames.
Open Scope Z_scope.

(** A host handler runs in Kernel mode on the state of the caller: it may write
    user data and the devices, and leaves the privilege level, the stack pointer
    and the rest of memory as they are. *)
Class ConfinedHandler (H : Type) {SIH : SoftwareInterruptHandler H} : Prop :=
  handle_confined : forall vector bus h s w,
    let s' := (handle vector bus (h, s, w)).2.1.2 in
    privilege_level s' = privilege_level s /\ sp s' = sp s /\
    length (memory s') = length (memory s) /\
    forall j, kUserDataEndExclusive <= j -> memory s' !! Z.to_nat j = memory s !! Z.to_nat j.

Section confine.
Context {LD : LongDouble} {H : Type} {SIH : SoftwareInterruptHandler H} {CH : ConfinedHandler H}.
Implicit Types (m : Machine H).

(** The machine before the step. *)
Context (m0 : Machine H).
Abbreviation ksp0 := (kernel_stack_pointer (cpu m0)).

(** Memory a User program must not change: the code section and the Kernel
    stack, but for the frame an interrupt pushes. *)
Definition protected (j : Z) : Prop :=
  (kUserDataEndExclusive <= j < kUserStackBase \/ kKernelStackBase <= j) /\
  ~ (ksp0 <= j < ksp0 + kInterruptFrameSize).

Definition agree m : Prop :=
  length (memory (mstate m)) = length (memory (mstate m0)) /\
  forall j, protected j -> memory (mstate m) !! Z.to_nat j = memory (mstate m0) !! Z.to_nat j.

(** In the User program. *)
Record user m : Prop := {
  user_agree : agree m;
  user_level : privilege_level (mstate m) = User;
  user_stack : using_kernel_interrupt_stack (cpu m) = false;
  user_ksp : kernel_stack_pointer (cpu m) = ksp0;
  user_controller : interrupt_controller (cpu m) = interrupt_controller (cpu m0);
}.

(** In the Kernel, above the frame of an interrupted User program. *)
Record kernel m : Prop := {
  kernel_agree : agree m;
  kernel_level : privilege_level (mstate m) = Kernel;
  kernel_stack : using_kernel_interrupt_stack (cpu m) = true;
  kernel_sp : sp (mstate m) = ksp0 + 32;
  kernel_ksp : kernel_stack_pointer (cpu m) = ksp0 + 32;
  kernel_base : 4000 <= ksp0 /\ ksp0 + 32 <= 4096;
  kernel_frame : Memory_read (memory (mstate m)) (ksp0 + 16) = Ret 1;
  kernel_controller : interrupt_controller (cpu m) = interrupt_controller (cpu m0);
}.

(** ** Statements that leave memory and privilege alone *)

Definition quiet (f : CPUState -> CPUState) : Prop :=
  forall s, memory (f s) = memory s /\ privilege_level (f s) = privilege_level s.

Lemma user_on_state f : quiet f -> safe user (on_state f) (fun _ => True).
Proof.
  intros Hf. apply safe_modify. intros m []. destruct (Hf (mstate m)) as [Hm Hp].
  unfold agree, mstate in *. constructor; unfold agree, mstate; cbn; rewrite ?Hm, ?Hp; assumption.
Qed.

Lemma user_set_registers regs m : user m -> user (set_mstate (set_registers regs) m).
Proof. intros []. constructor; assumption. Qed.

Lemma user_write_register r v : safe user (write_register r v) (fun _ => True).
Proof.
  apply safe_update. intros m s Hm Hs. apply bind_ret_inv in Hs as (regs & _ & [= <-]).
  exact (user_set_registers regs m Hm).
Qed.

Lemma user_on_world {A} (m : M World A) : safe user (on_world m) (fun _ => True).
Proof.
  intros s Hs. unfold on_world, zoom. destruct (m (world s)) as [[a|e] w]; [split; [exact Logic.I|]|];
    destruct Hs; constructor; assumption.
Qed.

Lemma user_assign f :
  (forall c, state (f c) = state c /\ using_kernel_interrupt_stack (f c) = using_kernel_interrupt_stack c /\
             kernel_stack_pointer (f c) = kernel_stack_pointer c /\
             interrupt_controller (f c) = interrupt_controller c) ->
  safe user (assign f) (fun _ => True).
Proof.
  intros Hf. apply safe_modify. intros m []. destruct (Hf (cpu m)) as (E1 & E2 & E3 & E4).
  unfold agree, mstate in *. constructor; unfold agree, mstate; cbn; rewrite ?E1, ?E2, ?E3, ?E4; assumption.
Qed.

(** Reads of any kind. *)
Lemma user_lift {A} (o : outcome A) : safe user (lift o) (fun _ => True).
Proof. apply safe_lift. auto. Qed.
Lemma user_gets {A} (f : Machine H -> A) : safe user (gets f) (fun _ => True).
Proof. apply safe_gets. auto. Qed.
Lemma user_check {A} (f : CPU -> outcome A) (Q : A -> Prop) :
  (forall m a, user m -> f (cpu m) = Ret a -> Q a) -> safe user (check f) Q.
Proof.
  intros Hf m Hm. unfold check. destruct (f (cpu m)) eqn:E; [split; [eapply Hf; eauto | exact Hm] | exact Hm].
Qed.
Lemma user_check_any {A} (f : CPU -> outcome A) : safe user (check f) (fun _ => True).
Proof. apply user_check. auto. Qed.

End confine.

#[export] Hint Resolve user_write_register user_on_world user_check_any user_gets user_lift : safe_default.
#[export] Hint Extern 2 (safe (user _) (on_state _) _) =>
  apply user_on_state; intros ?; split; reflexivity : safe.
#[export] Hint Extern 2 (safe (user _) (assign _) _) =>
  apply user_assign; intros ?; repeat split; reflexivity : safe.
#[export] Hint Extern 2 (safe (user _) (update_flags _) _) =>
  apply user_on_state; intros ?; split; reflexivity : safe.

Section confined_code.
Context {LD : LongDouble} {H : Type} {SIH : SoftwareInterruptHandler H} {CH : ConfinedHandler H}.
Context (m0 : Machine H).
Implicit Types (m : Machine H).
Abbreviation ksp0 := (kernel_stack_pointer (cpu m0)).
Abbreviation U := (user m0).
Abbreviation K := (kernel m0).
Abbreviation A := (agree m0).
Abbreviation ok := (fun _ => True).

(** ** Stores *)

(** Eight bytes that are not protected. *)
Definition writable (a : Z) : Prop := 0 <= a /\ forall j, a <= j < a + 8 -> ~ protected m0 j.

Lemma agree_write mem a v mem' m :
  writable a -> Memory_write mem a v = Ret mem' -> memory (mstate m) = mem -> A m ->
  A (set_mstate (set_memory mem') m).
Proof.
  intros [Ha Hp] Hw <- [Hl Hm]. apply write_inv in Hw as (_ & Hl' & Hf); [|exact Ha].
  unfold agree, mstate in *. cbn. split; [congruence|]. intros j Hj.
  assert (0 <= j) by (unfold protected, kUserDataEndExclusive, kUserDataBase, kUserDataSize, kLowMemoryBase,
    kLowMemorySize, kKernelStackBase, kBioOSStackBase in Hj; lia).
  rewrite Hf; [apply Hm, Hj | assumption |]. destruct (decide (a <= j < a + 8)) as [Hin|Hout]; [|lia].
  destruct (Hp j Hin Hj).
Qed.

Lemma user_write_memory a v : writable a -> safe U (write_memory a v) ok.
Proof.
  intros Ha m Hm. rewrite write_memory_run. destruct (Memory_write _ _ _) as [mem|] eqn:E; [|exact Hm].
  split; [exact Logic.I|]. destruct Hm as [Hag Hl Hu Hk Hi].
  constructor; try assumption. eapply agree_write; eauto.
Qed.

Lemma user_data_writable a : isUserDataRange a 8 = true -> writable a.
Proof.
  unfold isUserDataRange, kUserDataBase, kUserDataEndExclusive, kUserDataBase, kUserDataSize,
    kLowMemoryBase, kLowMemorySize. intros Hr.
  destruct (a <? _) eqn:E1; [discriminate|]. destruct (a >? _) eqn:E2; [discriminate|]. bool_facts.
  split; [lia|]. intros j Hj [Hp _]. revert Hp.
  unfold kUserDataEndExclusive, kUserDataBase, kUserDataSize, kLowMemoryBase, kLowMemorySize,
    kKernelStackBase, kBioOSStackBase. lia.
Qed.

Lemma user_stack_writable a : 2048 <= a -> a + 8 <= 4000 -> writable a.
Proof.
  intros Hlo Hhi. split; [lia|]. intros j Hj [Hp _]. revert Hp.
  unfold kUserDataEndExclusive, kUserDataBase, kUserDataSize, kLowMemoryBase, kLowMemorySize,
    kUserStackBase, kDefaultStackBase, kKernelStackBase, kBioOSStackBase. lia.
Qed.

Lemma frame_writable a : 0 <= ksp0 -> ksp0 <= a -> a + 8 <= ksp0 + 32 -> writable a.
Proof.
  intros H0 Hlo Hhi. split; [lia|]. intros j Hj [_ Hp]. apply Hp.
  change kInterruptFrameSize with 32. lia.
Qed.

(** ** User statements *)

Lemma user_mode m : U m -> CPUState_isUserMode (state (cpu m)) = true.
Proof. intros Hm. apply bool_decide_eq_true_2, Hm. Qed.

Lemma user_require_data a op :
  safe U (check (fun c => requireDataMemoryAccess c a op)) (fun _ => isUserDataRange a 8 = true).
Proof.
  apply user_check. intros m u Hm. unfold requireDataMemoryAccess. rewrite (user_mode m Hm).
  cbn [negb]. destruct (isUserDataRange a 8); [reflexivity | discriminate].
Qed.

Lemma user_readDataMemory a : safe U (readDataMemory a) ok.
Proof. unfold readDataMemory. safe_go. Qed.

Lemma user_writeDataMemory a v : safe U (writeDataMemory a v) ok.
Proof.
  unfold writeDataMemory. eapply safe_bind; [apply user_require_data | intros u Ha].
  pose proof (user_write_memory _ v (user_data_writable _ Ha)) as Hw. safe_go.
Qed.

Lemma user_sync v : safe U (sync_kernel_sp v) ok.
Proof.
  apply safe_modify. intros m Hm. pose proof (user_stack _ _ Hm) as Hu. unfold set_cpu. rewrite Hu.
  destruct m. exact Hm.
Qed.

Lemma user_pushValue v : safe U (pushValue v) ok.
Proof.
  intros m Hm. unfold pushValue. rewrite bind_run, check_run.
  destruct (requireStackPushSlots 1 (cpu m)) as [[]|e] eqn:E; [|exact Hm].
  unfold requireStackPushSlots, activeStackBase, activeStackEndExclusive in E.
  rewrite (user_mode m Hm) in E. apply push_slots_inv in E as (H1 & H2 & H3).
  pose proof (user_write_memory _ v (user_stack_writable _ H1 H3)) as Hw.
  pose proof (user_sync (u64 (sp (mstate m) + kStackSlotSize))) as Hs.
  rewrite bind_run. cbn [gets].
  assert (Hrest : safe U (_ ← write_memory (sp (mstate m)) v;
            let newSp := u64 (sp (mstate m) + kStackSlotSize) in
            _ ← on_state (setSp newSp); sync_kernel_sp newSp) ok) by safe_go.
  exact (Hrest m Hm).
Qed.

Lemma user_popValue : safe U popValue ok.
Proof.
  pose proof user_sync as Hs. unfold popValue. safe_go.
Qed.

Lemma user_peekValue : safe U peekValue ok.
Proof. unfold peekValue. safe_go. Qed.

Lemma user_setPcForExecution a : safe U (setPcForExecution a) ok.
Proof. unfold setPcForExecution. safe_go. Qed.

Lemma user_advancePc : safe U advancePcUnlessHalted ok.
Proof. unfold advancePcUnlessHalted. safe_go. Qed.

Lemma user_advanceBinaryPc : safe U advanceBinaryPcUnlessHalted ok.
Proof. unfold advanceBinaryPcUnlessHalted. safe_go. Qed.

Lemma user_read_register r : safe U (read_register r) ok.
Proof. unfold read_register. safe_go. Qed.

End confined_code.

#[export] Hint Resolve user_readDataMemory user_writeDataMemory user_pushValue user_popValue
  user_peekValue user_setPcForExecution user_advancePc user_advanceBinaryPc user_read_register : safe.

(** ** Into the Kernel and back *)

Section crossing.
Context {LD : LongDouble} {H : Type} {SIH : SoftwareInterruptHandler H} {CH : ConfinedHandler H}.
Context (m0 : Machine H).
Implicit Types (m : Machine H).
Abbreviation ksp0 := (kernel_stack_pointer (cpu m0)).
Abbreviation U := (user m0).
Abbreviation K := (kernel m0).
Abbreviation A := (agree m0).
Abbreviation ok := (fun _ => True).

(** A failed push has written at most part of the frame. *)
Lemma push_frame_throws ra m e m' : U m -> pushInterruptFrame ra m = (Throw e, m') -> A m'.
Proof.
  intros Hm Hrun.
  assert (Hh : hoare U (pushInterruptFrame ra) (fun _ _ => True) (fun _ => A)).
  { unfold pushInterruptFrame.
    eapply safe_hoare_bind; [apply (safe_gets _ _ (fun s => privilege_level s = User)) | intros ? ?; apply user_agree |].
    { intros s Hs. apply Hs. }
    intros s Hs. cbv beta in Hs. cbv zeta. rewrite Hs, bool_decide_eq_true_2 by reflexivity.
    eapply (safe_hoare_bind U _ _ (fun fb => fb = ksp0 /\ 4000 <= fb /\ fb + 32 <= 4096));
      [| intros ? ?; apply user_agree |].
    { safe_step. eapply safe_bind; [apply (safe_gets _ _ (fun c => kernel_stack_pointer c = ksp0)); intros x Hx; apply Hx |].
      intros c Hc. cbv beta in Hc. rewrite Hc.
      eapply safe_bind; [apply (safe_lift _ _ (fun _ => 4000 <= ksp0 /\ ksp0 + 32 <= 4096)) | intros u Hb; apply safe_ret; split; [reflexivity | exact Hb]].
      intros [] Hp. apply push_slots_inv in Hp as (H1 & _ & H3). split; assumption. }
    intros fb (-> & Hlo & Hhi). unfold kStackSlotSize. change (8 * 2) with 16. change (8 * 3) with 24.
    change kInterruptFrameSize with 32. rewrite !u64_small by words.
    do 4 (eapply safe_hoare_bind; [apply user_write_memory, frame_writable; lia | intros ? ?; apply user_agree | intros _ _]).
    intros x Hx. rewrite !bind_run. exact Logic.I. }
  specialize (Hh m Hm). rewrite Hrun in Hh. exact Hh.
Qed.

(** The machine after a push is in the Kernel above the frame. *)
Lemma push_frame_kernel ra m m' : U m -> pushInterruptFrame ra m = (Ret tt, m') -> K m'.
Proof.
  intros Hm Hrun. pose proof Hm as [Hag Hl Hu Hk Hi].
  apply pushInterruptFrame_inv in Hrun as (mem & Hw & -> & Hb); [|intros Hn; destruct (Hn Hl)].
  assert (Hfb : frame_base (cpu m) = ksp0) by (unfold frame_base; rewrite (user_mode _ _ Hm); exact Hk).
  destruct Hb as (_ & Hhi & Hb & _). specialize (Hb Hl). rewrite Hfb, ?Hl in *.
  destruct Hb as (Hlo & _ & Hsp & _).
  apply write_frame_spec in Hw as (_ & _ & Hpriv & _ & Hlen & _ & Hframe);
    [|lia|apply i64_range|apply packFlags_range|cbn; words|apply i64_range].
  unfold pushed, set_cpu. rewrite (user_mode _ _ Hm).
  constructor; unfold agree, mstate in *; cbn; try reflexivity; [|lia|exact Hpriv|exact Hi].
  destruct Hag as [Hal Haj]. split; [congruence|]. intros j Hj. rewrite <- Haj by exact Hj.
  destruct Hj as [Hj Hout]. change kInterruptFrameSize with 32 in Hout.
  apply Hframe; [|lia]. revert Hj. unfold kUserDataEndExclusive, kUserDataBase, kUserDataSize,
    kLowMemoryBase, kLowMemorySize, kKernelStackBase, kBioOSStackBase. lia.
Qed.

Lemma push_frame_hoare ra : hoare U (pushInterruptFrame ra) (fun _ => K) (fun _ => A).
Proof.
  intros m Hm. destruct (pushInterruptFrame ra m) as [[[]|e] m'] eqn:E;
    [eapply push_frame_kernel | eapply push_frame_throws]; eauto.
Qed.

(** *** In the Kernel *)

Lemma kernel_write_register r v : safe K (write_register r v) ok.
Proof.
  apply safe_update. intros m s Hm Hs. apply bind_ret_inv in Hs as (regs & _ & [= <-]).
  destruct Hm. constructor; assumption.
Qed.

Lemma kernel_call_handler v : safe K (call_handler v) ok.
Proof.
  intros m Hm. unfold call_handler. destruct Hm as [Hag Hl Hu Hsp Hk Hb Hf Hi].
  pose proof (handle_confined v (mmio_bus (cpu m)) (handler m) (mstate m) (world m)) as Hc.
  destruct (handle _ _ _) as [o [[h s] w]]. cbn in Hc. destruct Hc as (Hp & Hs & Hlen & Hmem).
  assert (HK : K (mkMachine (set_state s (cpu m)) w h)).
  { assert (Hj0 : forall j, protected m0 j -> kUserDataEndExclusive <= j).
    { intros j [Hj _]. revert Hj. unfold kUserDataEndExclusive, kUserDataBase, kUserDataSize,
        kLowMemoryBase, kLowMemorySize, kKernelStackBase, kBioOSStackBase. lia. }
    constructor; unfold agree, mstate in *; cbn; try congruence.
    - destruct Hag as [Hal Haj]. split; [congruence|]. intros j Hj.
      rewrite Hmem by (apply Hj0, Hj). apply Haj, Hj.
    - rewrite <- Hf. unfold Memory_read, Memory_readI64. f_equal. apply readU64_ext; [exact Hlen | lia |].
      intros j Hj. apply Hmem. unfold kUserDataEndExclusive, kUserDataBase, kUserDataSize,
        kLowMemoryBase, kLowMemorySize. lia. }
  destruct o; [split; [exact Logic.I|]|]; exact HK.
Qed.

(** Restoring the frame of a User program ends in that program. *)
Lemma restore_frame_user msg allow : hoare K (restoreInterruptFrame msg allow) (fun _ => U) (fun _ => A).
Proof.
  assert (HKA : forall (e : exn) m, K m -> A m) by (intros e m; apply kernel_agree).
  intros m Hm. unfold restoreInterruptFrame. rewrite bind_run, check_run.
  destruct (requireStackPopSlots _ _); [|exact (HKA e m Hm)].
  rewrite bind_run. cbn [get]. cbv zeta. fold (mstate m). rewrite (kernel_sp _ _ Hm).
  pose proof (kernel_base _ _ Hm) as Hb.
  unfold kStackSlotSize. change kInterruptFrameSize with 32. change (8 * 2) with 16.
  replace (ksp0 + 32 - 32) with ksp0 by lia. rewrite (u64_small ksp0), (u64_small (ksp0 + 16)) by words.
  rewrite (kernel_frame _ _ Hm).
  match goal with |- match ?p m with _ => _ end =>
    enough (Hh : hoare K p (fun _ => U) (fun _ => A)) by exact (Hh m Hm) end.
  do 2 (eapply safe_hoare_bind; [apply (safe_lift _ _ ok); auto | exact HKA | intros ? _]).
  eapply safe_hoare_bind; [apply (safe_lift _ _ (fun v => v = 1)); intros x [= <-]; reflexivity | exact HKA |].
  intros ? ->. eapply safe_hoare_bind; [apply (safe_lift _ _ ok); auto | exact HKA | intros ? _].
  eapply safe_hoare_bind; [apply (safe_lift _ _ (fun p => p = User)); intros x [= <-]; reflexivity | exact HKA |].
  intros ? ->. rewrite !bool_decide_eq_true_2 by reflexivity.
  eapply safe_hoare_bind; [apply (safe_lift _ _ ok); auto | exact HKA | intros ? _].
  eapply safe_hoare_bind; [apply safe_throw_if_any | exact HKA | intros ? _].
  do 2 (eapply safe_hoare_bind; [apply (safe_lift _ _ ok); auto | exact HKA | intros ? _]).
  clear m Hm. intros m Hm. pose proof Hm as [Hag Hl Hu Hsp Hk _ _ Hi]. rewrite !bind_run.
  unfold sync_kernel_sp, assign, on_state, modify, mbind, M_bind, set_mstate, set_cpu.
  cbn -[u64 restoreFlags]. rewrite Hu.
  constructor; unfold agree, mstate in *; cbn; try reflexivity; [exact Hag | exact Hi].
Qed.

Lemma user_serviceHost v ra : hoare U (serviceHostSoftwareInterrupt v ra) (fun _ => U) (fun _ => A).
Proof.
  assert (HUA : forall (e : exn) m, U m -> A m) by (intros e m; apply user_agree).
  assert (HKA : forall (e : exn) m, K m -> A m) by (intros e m; apply kernel_agree).
  unfold serviceHostSoftwareInterrupt.
  eapply safe_hoare_bind; [apply safe_get | exact HUA | intros m _].
  destruct (_ || _); [apply hoare_ret; auto|].
  eapply hoare_bind; [apply push_frame_hoare | intros u].
  eapply safe_hoare_bind; [apply kernel_write_register | exact HKA | intros _ _].
  eapply (hoare_bind _ _ _ (fun _ => K)).
  { eapply hoare_try; [eapply (safe_hoare K _ ok _ (fun _ => K)); [apply kernel_call_handler | auto | auto] |].
    intros e. eapply hoare_bind; [apply restore_frame_user | intros u'].
    intros m' Hm'. apply user_agree, Hm'. }
  intros r. eapply hoare_bind; [apply restore_frame_user | intros u'].
  eapply (safe_hoare U _ ok); [|auto | exact HUA].
  eapply safe_bind; [eauto with safe nocore | intros _ _].
  eapply (safe_bind _ _ _ ok); [destruct (bool_decide _); safe_go | intros; apply safe_ret; exact Logic.I].
Qed.

(** The vector table entries of the machine. *)
Definition entry m (a : Z) : Prop :=
  exists r v, interrupt_controller (cpu m) = Some r /\
              vector_table (controller_at (world m) r) !! v = Some a.

(** In the Kernel, at the start of a handler, on the Kernel stack. *)
Definition escalated m : Prop :=
  privilege_level (mstate m) = Kernel /\ using_kernel_interrupt_stack (cpu m) = true /\
  entry m (pc (mstate m)).

Definition crossed m : Prop := A m /\ (is_user m \/ escalated m).

Lemma crossed_agree m : crossed m -> A m.
Proof. intros []. assumption. Qed.

Lemma user_crossed m : U m -> crossed m.
Proof. intros []. split; [|left]; assumption. Qed.

(** A frame, the arguments in registers, and the jump to the handler. *)
Abbreviation UE a := (fun m => entry m a /\ U m).
Abbreviation KE a := (fun m => entry m a /\ K m).

Lemma push_entry ra a : hoare (UE a) (pushInterruptFrame ra) (fun _ => KE a) (fun _ => A).
Proof.
  intros m [He Hm]. destruct (pushInterruptFrame ra m) as [[[]|e] m1] eqn:E;
    [|eapply push_frame_throws; eauto].
  split; [|eapply push_frame_kernel; eauto].
  apply pushInterruptFrame_inv in E as (mem & _ & -> & _); [|intros Hn; destruct (Hn (user_level _ _ Hm))].
  destruct He as (r & v & Hr & Hv). exists r, v. split; [|exact Hv].
  unfold pushed, set_cpu. cbn. rewrite (user_mode _ _ Hm). exact Hr.
Qed.

Lemma write_entry r v a : hoare (KE a) (write_register r v) (fun _ => KE a) (fun _ => A).
Proof.
  intros m [He Hm]. pose proof (kernel_write_register r v m Hm) as Hw.
  rewrite write_register_run in *. destruct (RegisterFile_set _ _ _); [|apply kernel_agree, Hw].
  split; [exact He | apply Hw].
Qed.

Lemma jump_entry a : hoare (KE a) (on_state (setPc a)) (fun _ => crossed) (fun _ => A).
Proof.
  intros m [He [Hag Hl Hu _ _ _ _ _]]. split; [exact Hag|]. right. split; [exact Hl|].
  split; [exact Hu | exact He].
Qed.

(** Reading the handler address of a vector. *)
Lemma read_entry {B} r v (k : Z -> M (Machine H) B) Q :
  interrupt_controller (cpu m0) = Some r -> (forall a, hoare (UE a) (k a) Q (fun _ => A)) ->
  hoare U (w ← gets world; a ← lift (InterruptController_vectorHandler (controller_at w r) v); k a)
    Q (fun _ => A).
Proof.
  intros Hr Hk m Hm. rewrite bind_run. cbn [gets]. rewrite bind_run. unfold lift, InterruptController_vectorHandler.
  destruct (vector_table (controller_at (world m) r) !! v) as [a|] eqn:E; [|apply user_agree, Hm].
  apply (Hk a m). split; [exists r, v; split; [rewrite <- Hr; apply Hm | exact E] | exact Hm].
Qed.

(** A statement that changes nothing keeps any fact. *)
Lemma reading {B C} (P : Machine H -> Prop) (f : M (Machine H) B) (k : B -> M (Machine H) C) Q :
  (forall m, (f m).2 = m) -> (forall m, P m -> A m) -> (forall b, hoare P (k b) Q (fun _ => A)) ->
  hoare P (f ≫= k) Q (fun _ => A).
Proof.
  intros Hf HP Hk m Hm. rewrite bind_run. specialize (Hf m). destruct (f m) as [[b|e] m'];
    cbn in Hf; subst m'; [apply Hk, Hm | apply HP, Hm].
Qed.

Lemma UE_agree a m : entry m a /\ U m -> A m.
Proof. intros [_ Hm]. apply user_agree, Hm. Qed.

Lemma user_servicePending :
  hoare U servicePendingInterruptIfNeeded (fun b m => if b then crossed m else U m) (fun _ => A).
Proof.
  assert (HUA : forall (e : exn) m, U m -> A m) by (intros e m; apply user_agree).
  unfold servicePendingInterruptIfNeeded.
  eapply safe_hoare_bind; [apply safe_get | exact HUA | intros m Hm].
  destruct (interrupt_controller (cpu m)) as [r|] eqn:Er; [|apply hoare_ret; auto].
  rewrite (user_controller _ _ Hm) in Er.
  destruct (negb _); [apply hoare_ret; auto|].
  eapply safe_hoare_bind; [apply user_on_world | exact HUA | intros request _].
  apply read_entry; [exact Er|]. intros a.
  apply reading; [reflexivity | apply UE_agree | intros c].
  apply reading; [intros x; unfold throw_if; repeat case_match; reflexivity | apply UE_agree | intros u].
  eapply hoare_bind; [apply push_entry | intros u1].
  eapply hoare_bind; [apply write_entry | intros u2].
  eapply hoare_bind; [apply write_entry | intros u3].
  eapply hoare_bind; [apply jump_entry | intros u4]. apply hoare_ret. auto.
Qed.

(** The prologue of [INT], which both engines share from the host call on. *)
Lemma user_int_tail r vector ra (test : CPU -> Z -> bool) e :
  interrupt_controller (cpu m0) = Some r ->
  hoare U (serviced ← serviceHostSoftwareInterrupt vector ra;
           if (serviced : bool) then mret tt
           else
             w ← gets world;
             a ← lift (InterruptController_vectorHandler (controller_at w r) vector);
             c ← gets cpu;
             _ ← throw_if (test c a) e;
             _ ← pushInterruptFrame ra;
             _ ← write_register R0 vector;
             on_state (setPc a)) (fun _ => crossed) (fun _ => A).
Proof.
  intros Er. eapply hoare_bind; [apply user_serviceHost | intros []].
  - apply hoare_ret, user_crossed.
  - apply read_entry; [exact Er|]. intros a.
    apply reading; [reflexivity | apply UE_agree | intros c].
    apply reading; [intros x; destruct (test c a); reflexivity | apply UE_agree | intros u].
    eapply hoare_bind; [apply push_entry | intros u1].
    eapply hoare_bind; [apply write_entry | intros u2]. apply jump_entry.
Qed.

Lemma user_require_controller :
  safe U require_controller (fun r => interrupt_controller (cpu m0) = Some r).
Proof.
  unfold require_controller. eapply safe_bind; [apply safe_get | intros m Hm].
  destruct (interrupt_controller (cpu m)) as [r|] eqn:Er; [apply safe_ret | apply safe_throw].
  rewrite <- (user_controller _ _ Hm). exact Er.
Qed.
End crossing.

(** ** The two engines *)

Section engines.
Context {LD : LongDouble} {H : Type} {SIH : SoftwareInterruptHandler H} {CH : ConfinedHandler H}.
Context (m0 : Machine H).
Implicit Types (m : Machine H).
Abbreviation U := (user m0).
Abbreviation A := (agree m0).
Abbreviation ok := (fun _ => True).

Definition is_privileged (o : Opcode) : bool :=
  match o with HALT | IRET | EI | DI => true | _ => false end.

Lemma user_require_privilege o :
  safe U (check (fun c => requireInstructionPrivilege c o)) (fun _ => is_privileged o = false).
Proof.
  apply user_check. intros m u Hm. unfold requireInstructionPrivilege. rewrite (user_mode _ m Hm).
  cbn [negb]. destruct o; (reflexivity || discriminate).
Qed.

Lemma safe_crossed (p : M (Machine H) unit) :
  safe U p ok -> hoare U p (fun _ => crossed m0) (fun _ => A).
Proof.
  intros Hp. eapply (safe_hoare U _ ok); [exact Hp | intros; apply user_crossed; assumption |].
  intros e m. apply user_agree.
Qed.

(** *** Binary instructions *)

Lemma user_readBinaryMemoryAddress t p : safe U (readBinaryMemoryAddress t p) ok.
Proof. unfold readBinaryMemoryAddress. safe_go. Qed.
Hint Resolve user_readBinaryMemoryAddress : safe.

Lemma user_readBinaryOperandValue t p : safe U (readBinaryOperandValue t p) ok.
Proof. unfold readBinaryOperandValue. safe_go. Qed.

Lemma user_writeBinaryRegister t p v : safe U (writeBinaryRegisterDestination t p v) ok.
Proof. unfold writeBinaryRegisterDestination. safe_go. Qed.
Hint Resolve user_readBinaryOperandValue user_writeBinaryRegister : safe.

Lemma user_binary_alu op i : safe U (binary_alu op i) ok.
Proof. unfold binary_alu. safe_go. Qed.
Lemma user_binary_compare op i : safe U (binary_compare op i) ok.
Proof. unfold binary_compare. safe_go. Qed.
Lemma user_binary_branch c i : safe U (binary_branch c i) ok.
Proof. unfold binary_branch. safe_go. Qed.
Hint Resolve user_binary_alu user_binary_compare user_binary_branch : safe.

Lemma user_executeBinary_INT i : hoare U (executeBinary_INT i) (fun _ => crossed m0) (fun _ => A).
Proof.
  assert (HUA : forall (e : exn) m, U m -> A m) by (intros e m; apply user_agree).
  unfold executeBinary_INT.
  eapply safe_hoare_bind; [apply user_lift | exact HUA | intros u _].
  eapply safe_hoare_bind; [apply user_require_controller | exact HUA | intros r Hr]. cbv beta in Hr.
  eapply safe_hoare_bind; [apply user_readBinaryOperandValue | exact HUA | intros v _].
  eapply safe_hoare_bind; [apply safe_throw_if_any | exact HUA | intros u1 _]. cbv zeta.
  eapply safe_hoare_bind; [apply user_gets | exact HUA | intros s _].
  apply (user_int_tail m0 r (u8 v) _ (fun c a => has_binary_program c && negb (isBinaryPcInCode c a))).
  exact Hr.
Qed.

Lemma user_executeBinaryInstruction i :
  hoare U (executeBinaryInstruction i) (fun _ => crossed m0) (fun _ => A).
Proof.
  unfold executeBinaryInstruction.
  eapply safe_hoare_bind; [apply user_require_privilege | intros ? ?; apply user_agree | intros u Hp].
  destruct (dec_opcode i); try discriminate Hp; try apply user_executeBinary_INT; apply safe_crossed.
  all: unfold executeBinary_NOP, executeBinary_MOV, executeBinary_LOAD, executeBinary_STORE,
    executeBinary_ADD, executeBinary_SUB, executeBinary_MUL, executeBinary_DIV, executeBinary_AND,
    executeBinary_OR, executeBinary_XOR, executeBinary_NOT, executeBinary_CMP, executeBinary_TEST,
    executeBinary_JMP, executeBinary_JE, executeBinary_JNE, executeBinary_JG, executeBinary_JL,
    executeBinary_PUSH, executeBinary_POP, executeBinary_CALL, executeBinary_RET; safe_go.
Qed.

Lemma user_stepBinary : hoare U stepBinary (fun _ => crossed m0) (fun _ => A).
Proof.
  unfold stepBinary. eapply safe_hoare_bind; [apply user_check_any | intros ? ?; apply user_agree |].
  intros i _. apply user_executeBinaryInstruction.
Qed.

(** *** Interpreted instructions *)

Lemma user_readMemoryAddress o : safe U (readMemoryAddress o) ok.
Proof. unfold readMemoryAddress. safe_go. Qed.
Hint Resolve user_readMemoryAddress : safe.

Lemma user_readOperandValue o : safe U (readOperandValue o) ok.
Proof. unfold readOperandValue. safe_go. Qed.

Lemma user_writeRegisterDestination o v : safe U (writeRegisterDestination o v) ok.
Proof. unfold writeRegisterDestination. safe_go. Qed.
Hint Resolve user_readOperandValue user_writeRegisterDestination : safe.

Lemma user_execute_alu op i : safe U (execute_alu op i) ok.
Proof. unfold execute_alu. safe_go. Qed.
Lemma user_execute_compare op i : safe U (execute_compare op i) ok.
Proof. unfold execute_compare. safe_go. Qed.
Lemma user_execute_branch c i : safe U (execute_branch c i) ok.
Proof. unfold execute_branch. safe_go. Qed.
Hint Resolve user_execute_alu user_execute_compare user_execute_branch : safe.

Lemma user_executeInt i : hoare U (executeInt i) (fun _ => crossed m0) (fun _ => A).
Proof.
  assert (HUA : forall (e : exn) m, U m -> A m) by (intros e m; apply user_agree).
  unfold executeInt.
  eapply safe_hoare_bind; [apply user_lift | exact HUA | intros u _].
  eapply safe_hoare_bind; [apply user_require_controller | exact HUA | intros r Hr]. cbv beta in Hr.
  eapply safe_hoare_bind; [apply user_readOperandValue | exact HUA | intros v _].
  eapply safe_hoare_bind; [apply safe_throw_if_any | exact HUA | intros u1 _]. cbv zeta.
  eapply safe_hoare_bind; [apply user_gets | exact HUA | intros s _].
  apply (user_int_tail m0 r (u8 v) _ (fun c a => a >=? Z.of_nat (length (program c)))).
  exact Hr.
Qed.

Lemma user_execute i : hoare U (execute i) (fun _ => crossed m0) (fun _ => A).
Proof.
  unfold execute.
  eapply safe_hoare_bind; [apply user_require_privilege | intros ? ?; apply user_agree | intros u Hp].
  destruct (opcode i); try discriminate Hp; try apply user_executeInt; apply safe_crossed.
  all: unfold executeNop, executeMov, executeLoad, executeStore, executeAdd, executeSub, executeMul,
    executeDiv, executeAnd, executeOr, executeXor, executeNot, executeCmp, executeTest, executeJmp,
    executeJe, executeJne, executeJg, executeJl, executePush, executePop, executeCall, executeRet; safe_go.
Qed.
End engines.

(** ** The step *)

(** A tick changes no vector table. *)
Lemma tick_vector_table t c :
  let '(t', c') := (TimerDevice_tick (t, c)).2 in
  vector_table c' = vector_table c /\ tmr_controller t' = tmr_controller t.
Proof.
  unfold TimerDevice_tick, TimerDevice_maybeRequestInterrupt. rewrite bind_run. cbn [get].
  destruct (_ =? UINT64_MAX); [split; reflexivity|]. rewrite bind_run. cbn [modify]. rewrite bind_run. cbn [get].
  destruct (negb _); [split; reflexivity|]. destruct (_ =? 0); [split; reflexivity|].
  destruct (negb _); split; reflexivity.
Qed.

Lemma timer_tick_tables d w r :
  vector_table (controller_at (timer_tick d w).2 r) = vector_table (controller_at w r).
Proof.
  unfold timer_tick, zoom. pose proof (tick_vector_table (timer_at w d)
    (controller_at w (tmr_controller (timer_at w d)))) as Ht.
  destruct (TimerDevice_tick _) as [o [t' c']]. cbn in *. destruct Ht as [Hv Hr].
  unfold controller_at in *. cbn. destruct (decide (r = tmr_controller t')) as [->|Hne].
  - rewrite lookup_total_insert_eq, Hv, Hr. reflexivity.
  - rewrite lookup_total_insert_ne by congruence. reflexivity.
Qed.

Section step.
Context {LD : LongDouble} {H : Type} {SIH : SoftwareInterruptHandler H} {CH : ConfinedHandler H}.
Context (m0 : Machine H).
Implicit Types (m : Machine H).
Abbreviation U := (user m0).
Abbreviation A := (agree m0).
Abbreviation C := (crossed m0).
Abbreviation ok := (fun _ => True).

Lemma crossed_tick d : safe C (on_world (timer_tick d)) ok.
Proof.
  intros m [Hag Hc]. unfold on_world, zoom. pose proof (timer_tick_tables d (world m)) as Ht.
  destruct (timer_tick d (world m)) as [o w]. cbn in Ht.
  assert (HC : C (mkMachine (cpu m) w (handler m))).
  { split; [exact Hag|]. destruct Hc as [Hu|(Hl & Hs & r & v & Hr & Hv)]; [left; exact Hu|].
    right. split; [exact Hl|]. split; [exact Hs|]. exists r, v. split; [exact Hr|].
    cbn. rewrite Ht. exact Hv. }
  destruct o; [split; [exact Logic.I|]|]; exact HC.
Qed.

Lemma crossed_tick_devices l : safe C (tick_devices l) ok.
Proof.
  induction l as [|[d|] l IH]; cbn [tick_devices]; [apply safe_ret, Logic.I | | apply safe_throw].
  eapply safe_bind; [apply crossed_tick | intros; exact IH].
Qed.

Lemma crossed_tick_unless_stopped : safe C tick_unless_stopped ok.
Proof.
  unfold tick_unless_stopped, tickClockedDevices.
  eapply safe_bind; [apply (safe_gets _ _ ok); auto | intros s _].
  destruct (_ && _); [|apply safe_ret, Logic.I].
  eapply safe_bind; [apply (safe_gets _ _ ok); auto | intros c _]. apply crossed_tick_devices.
Qed.

(** Where a step may end. *)
Definition stepped m : Prop :=
  A m /\ (has_error (mstate m) = true \/ is_user m \/ escalated m).

Lemma crossed_stepped m : C m -> stepped m.
Proof. intros [Hag Hc]. split; [exact Hag | right; exact Hc]. Qed.

Lemma stepped_trace s i msg : safe stepped (record_trace s i msg) ok.
Proof. apply safe_modify. intros m Hm. exact Hm. Qed.

Lemma error_stepped msg : hoare A (setRuntimeError msg) (fun _ => stepped) (fun _ => stepped).
Proof. intros m Hm. split; [exact Hm | left; reflexivity]. Qed.

(** An error recorded in the state and the trace. *)
Lemma report_stepped msg s i :
  hoare A (_ ← setRuntimeError msg; _ ← record_trace s i msg; mret true)
    (fun stopped m => if stopped then stepped m else U m) (fun _ => stepped).
Proof.
  eapply hoare_bind; [apply error_stepped | intros u].
  eapply safe_hoare_bind; [apply stepped_trace | auto | intros u' _]. apply hoare_ret. auto.
Qed.

Lemma user_step_interrupt s :
  hoare U (step_interrupt s) (fun stopped m => if stopped then stepped m else U m) (fun _ => stepped).
Proof.
  unfold step_interrupt. eapply (hoare_try _ _ _ _ (fun _ => A)).
  - eapply hoare_bind; [apply user_servicePending | intros []; [|apply hoare_ret; auto]].
    intros m Hm. rewrite bind_run. unfold read_register. rewrite bind_run. cbn [gets].
    unfold lift. destruct (RegisterFile_get _ _); [|apply Hm].
    exact (crossed_stepped _ Hm).
  - intros e. apply report_stepped.
Qed.

Lemma user_step_instruction fetch exec :
  (forall i, hoare U (exec i) (fun _ => C) (fun _ => A)) ->
  hoare U (step_instruction fetch exec) (fun _ => stepped) (fun _ => stepped).
Proof.
  intros He. unfold step_instruction.
  eapply safe_hoare_bind; [apply user_gets | intros ? ? Hm; apply crossed_stepped, user_crossed, Hm | intros s _].
  eapply safe_hoare_bind.
  { apply (safe_try _ _ _ ok); [|intros e; apply safe_ret; exact Logic.I].
    eapply safe_bind; [apply user_check_any | intros; apply safe_ret; exact Logic.I]. }
  { intros ? ? Hm. apply crossed_stepped, user_crossed, Hm. }
  intros [i|ex] _.
  - eapply (hoare_bind _ _ _ (fun _ => stepped)).
    + eapply (hoare_try _ _ _ _ (fun _ => A)).
      * eapply hoare_bind; [apply He | intros u].
        eapply safe_hoare_bind; [apply crossed_tick_unless_stopped | intros ? ?; apply crossed_agree |].
        intros u' _. apply hoare_ret. apply crossed_stepped.
      * intros e. eapply hoare_bind; [apply error_stepped | intros u]. apply hoare_ret. auto.
    + intros msg. eapply (safe_hoare stepped _ ok); [apply stepped_trace | auto | auto].
  - eapply hoare_bind; [intros m Hm; apply error_stepped, (user_agree _ _ Hm) | intros u].
    eapply (safe_hoare stepped _ ok); [apply stepped_trace | auto | auto].
Qed.

Lemma user_CPU_step : hoare U CPU_step (fun _ => stepped) (fun _ => stepped).
Proof.
  assert (HUS : forall (e : exn) m, U m -> stepped m) by (intros e m Hm; apply crossed_stepped, user_crossed, Hm).
  unfold CPU_step. eapply safe_hoare_bind; [apply user_gets | exact HUS | intros s _].
  destruct (_ || _); [apply hoare_ret; intros m; apply (HUS (LogicError ""))|].
  eapply safe_hoare_bind; [eauto with safe nocore | exact HUS | intros u _].
  eapply safe_hoare_bind; [apply user_gets | exact HUS | intros before _].
  eapply hoare_bind; [apply user_step_interrupt | intros []; [apply hoare_ret; auto|]].
  eapply safe_hoare_bind; [apply user_gets | exact HUS | intros c _].
  destruct (has_binary_program c); apply user_step_instruction; intros i;
    [apply user_stepBinary | apply user_execute].
Qed.
End step.

(** (C1) Confinement.  One [step] of a machine in User mode (off the Kernel
    stack), in either engine, with or without an interrupt or a host call:
    every byte of the code section [512, 2048) and of the Kernel stack
    [4000, 4096) is unchanged, except the 32 bytes of the one interrupt frame at
    the Kernel stack pointer; and the step ends in the error state, or still in
    User mode, or in Kernel mode on the Kernel stack with the program counter
    equal to an address the interrupt controller's vector table holds.  A User
    program cannot raise its privilege in any other way. *)
Theorem user_step_confined {LD : LongDouble} {H} {SIH : SoftwareInterruptHandler H} {CH : ConfinedHandler H}
    (m : Machine H) (Hu : is_user m) (Hk : using_kernel_interrupt_stack (cpu m) = false) :
  let m' := (CPU_step m).2 in
  (forall j, kUserDataEndExclusive <= j < kUserStackBase \/ kKernelStackBase <= j ->
     ~ (kernel_stack_pointer (cpu m) <= j < kernel_stack_pointer (cpu m) + kInterruptFrameSize) ->
     memory (mstate m') !! Z.to_nat j = memory (mstate m) !! Z.to_nat j) /\
  (has_error (mstate m') = true \/ is_user m' \/
   (privilege_level (mstate m') = Kernel /\ using_kernel_interrupt_stack (cpu m') = true /\
    exists controller vector, interrupt_controller (cpu m') = Some controller /\
      vector_table (controller_at (world m') controller) !! vector = Some (pc (mstate m')))).
Proof.
  assert (HU : user m m).
  { constructor; [split; reflexivity | exact Hu | exact Hk | reflexivity | reflexivity]. }
  pose proof (user_CPU_step m m HU) as Hs. intros m'.
  assert (Hst : stepped m m') by (unfold m'; destruct (CPU_step m) as [[u|e] x]; exact Hs).
  destruct Hst as [[_ Hag] Hend]. split; [|exact Hend].
  intros j Hj Hout. apply Hag. split; assumption.
Qed.

#[export] Instance no_handler_confined : @ConfinedHandler unit no_handler.
Proof. intros vector bus h s w. repeat split; reflexivity. Qed.

Example user_step_confined_witness :
  memory (mstate (@CPU_step extended_long_double unit no_handler sample_user_machine).2) !! 600%nat
  = memory (mstate sample_user_machine) !! 600%nat.
Proof.
  assert (Hu : is_user sample_user_machine) by reflexivity.
  destruct (@user_step_confined extended_long_double unit no_handler no_handler_confined
              sample_user_machine Hu eq_refl) as [Hmem _].
  apply (Hmem 600).
  - left. split; [discriminate | reflexivity].
  - vm_compute. intuition discriminate.
Defined.
