(* ===== verification/CPURun.v ===== *)
(** * Steps and runs

    How [CPU::step] and [CPU::run] behave as a whole: they never throw, [run]
    is the iteration of [step] up to its limit and ends halted or in error,
    forbidden accesses of User code end in the error state without an effect,
    and a pending interrupt is delivered before the next instruction. *)

From S2P Require Import Prelude Words ALU Memory ISA Binary Interrupts Devices CPUState Trace CPU CPUExec CPUStep CPUFrames CPUProtect.
Open Scope Z_scope.

Section runs.
Context {LD : LongDouble} {H : Type} {SIH : SoftwareInterruptHandler H}.
Implicit Types (m : Machine H).

(** [step] and [run] do nothing on a stopped machine. *)
Definition stopped m : bool := halted (mstate m) || has_error (mstate m).

(** ** Computations that return *)

Definition returns {St A} (p : M St A) : Prop := forall s, exists a, (p s).1 = Ret a.

Lemma returns_bind {St A B} (p : M St A) (f : A -> M St B) :
  returns p -> (forall a, returns (f a)) -> returns (p ≫= f).
Proof.
  intros Hp Hf s. rewrite bind_run. destruct (Hp s) as [a Ha]. destruct (p s) as [o s'].
  cbn in Ha. subst o. apply Hf.
Qed.

Lemma returns_try {St A} (p : M St A) (h : exn -> M St A) : (forall e, returns (h e)) -> returns (try_catch p h).
Proof.
  intros Hh s. unfold try_catch. destruct (p s) as [[a|e] s']; [exists a; reflexivity | apply Hh].
Qed.

Lemma returns_ret {St A} (a : A) : returns (mret a : M St A).
Proof. intros s. exists a. reflexivity. Qed.
Lemma returns_gets {St A} (f : St -> A) : returns (gets f).
Proof. intros s. exists (f s). reflexivity. Qed.
Lemma returns_modify {St} (f : St -> St) : returns (modify f).
Proof. intros s. exists tt. reflexivity. Qed.

Lemma step_instruction_returns fetch exec : returns (step_instruction (H := H) fetch exec).
Proof.
  apply returns_bind; [apply returns_gets | intros before].
  apply returns_bind; [apply returns_try; intros; apply returns_ret | intros [i|ex]].
  - apply returns_bind; [|intros; apply returns_modify].
    apply returns_try. intros e. apply returns_bind; [apply returns_modify | intros; apply returns_ret].
  - apply returns_bind; intros; apply returns_modify.
Qed.

Lemma step_interrupt_returns s : returns (step_interrupt (H := H) s).
Proof.
  apply returns_try. intros e. apply returns_bind; [apply returns_modify | intros u].
  apply returns_bind; [apply returns_modify | intros; apply returns_ret].
Qed.

Lemma CPU_step_returns : returns (CPU_step (H := H)).
Proof.
  apply returns_bind; [apply returns_gets | intros s]. destruct (_ || _); [apply returns_ret|].
  apply returns_bind; [apply returns_modify | intros u]. apply returns_bind; [apply returns_gets | intros s'].
  apply returns_bind; [apply step_interrupt_returns | intros []; [apply returns_ret|]].
  apply returns_bind; [apply returns_gets | intros c].
  destruct (has_binary_program c); apply step_instruction_returns.
Qed.

Lemma CPU_step_unit m : CPU_step m = (Ret tt, (CPU_step m).2).
Proof. destruct (CPU_step_returns m) as [[] Hr]. destruct (CPU_step m) as [o m']. cbn in *. congruence. Qed.

Lemma step_stopped m : stopped m = true -> CPU_step m = (Ret tt, m).
Proof.
  unfold stopped. intros Hs. unfold CPU_step. rewrite bind_run. cbn [gets]. rewrite Hs. reflexivity.
Qed.

(** ** Runs *)

(** [k] steps. *)
Definition steps (k : nat) m : Machine H := Nat.iter k (fun x => (CPU_step x).2) m.

Lemma steps_S k m : steps (S k) m = steps k (CPU_step m).2.
Proof. unfold steps. rewrite Nat.iter_succ_r. reflexivity. Qed.

Lemma steps_stopped k m : stopped m = true -> steps k m = m.
Proof.
  intros Hs. induction k as [|k IH]; [reflexivity|]. rewrite steps_S, step_stopped by exact Hs. exact IH.
Qed.

Lemma running_test m : negb (halted (mstate m)) && negb (has_error (mstate m)) = negb (stopped m).
Proof. unfold stopped. destruct (halted _), (has_error _); reflexivity. Qed.

Lemma run_loop_steps n m : run_loop n m = (Ret tt, steps n m).
Proof.
  revert m. induction n as [|n IH]; intros m; [reflexivity|].
  cbn [run_loop]. rewrite bind_run. cbn [gets]. rewrite running_test.
  destruct (stopped m) eqn:E; cbn [negb].
  - rewrite steps_stopped by exact E. reflexivity.
  - rewrite bind_run, CPU_step_unit, steps_S. apply IH.
Qed.

(** The limit error of [run]. *)
Definition limit_reached m : Machine H := set_mstate (CPUState_setError "Maximum step count reached") m.

Lemma CPU_run_steps n m :
  CPU_run n m = (Ret tt, if stopped (steps n m) then steps n m else limit_reached (steps n m)).
Proof.
  unfold CPU_run. rewrite bind_run, run_loop_steps. rewrite bind_run. cbn [gets]. rewrite running_test.
  destruct (stopped (steps n m)); reflexivity.
Qed.

Lemma steps_add j k m : steps (j + k) m = steps k (steps j m).
Proof.
  revert m. induction j as [|j IH]; intros m; [reflexivity|].
  change (S j + k)%nat with (S (j + k)). rewrite !steps_S. apply IH.
Qed.

(** Where the iteration stops, if it does. *)
Lemma steps_stop_or_not n m :
  (exists k, (k <= n)%nat /\ stopped (steps k m) = true /\ steps n m = steps k m /\
             forall j, (j < k)%nat -> stopped (steps j m) = false) \/
  (forall j, (j <= n)%nat -> stopped (steps j m) = false).
Proof.
  induction n as [|n IH].
  - destruct (stopped m) eqn:E.
    + left. exists 0%nat. split; [lia|]. split; [exact E|]. split; [reflexivity | lia].
    + right. intros j Hj. replace j with 0%nat by lia. exact E.
  - destruct IH as [(k & Hk & Hs & He & Hb)|Hr].
    + left. exists k. split; [lia|]. split; [exact Hs|]. split; [|exact Hb].
      replace (S n) with (n + 1)%nat by lia. rewrite steps_add, He. apply steps_stopped, Hs.
    + destruct (stopped (steps (S n) m)) eqn:E.
      * left. exists (S n). split; [lia|]. split; [exact E|]. split; [reflexivity|]. intros j Hj. apply Hr. lia.
      * right. intros j Hj. destruct (decide (j = S n)) as [->|]; [exact E | apply Hr; lia].
Qed.

End runs.


(** ** Steps without an interrupt *)

Section faults.
Context {LD : LongDouble} {H : Type} {SIH : SoftwareInterruptHandler H}.
Implicit Types (m : Machine H).

(** No interrupt can be delivered. *)
Definition quiescent m : bool :=
  match interrupt_controller (cpu m) with
  | None => true
  | Some r => negb (InterruptController_hasPending (controller_at (world m) r))
  end.

(** The fetch of the engine that runs the loaded program, and its execution. *)
Definition fetch (c : CPU) : outcome Instruction :=
  if has_binary_program c then fetch_binary c else fetch_program c.

Definition exec (c : CPU) (i : Instruction) : M (Machine H) unit :=
  if has_binary_program c then stepBinary else execute i.

(** A step that starts by clearing the observation of the last host call. *)
Definition started m : Machine H := set_cpu clearSoftwareInterruptObservation m.

Lemma step_without_interrupt m :
  stopped m = false -> quiescent m = true ->
  CPU_step m = step_instruction fetch (exec (cpu m)) (started m).
Proof.
  unfold stopped, quiescent. intros Hs Hq. unfold CPU_step. rewrite bind_run. cbn [gets]. rewrite Hs.
  rewrite bind_run. unfold assign, modify. rewrite bind_run. cbn [gets]. rewrite bind_run.
  assert (Hi : step_interrupt (mstate (started m)) (started m) = (Ret false, started m)).
  { unfold step_interrupt, try_catch. rewrite bind_run. unfold servicePendingInterruptIfNeeded.
    rewrite bind_run. cbn [get]. change (interrupt_controller (cpu (started m))) with (interrupt_controller (cpu m)).
    change (world (started m)) with (world m).
    destruct (interrupt_controller (cpu m)) as [r|]; [rewrite Hq|]; reflexivity. }
  change (set_cpu clearSoftwareInterruptObservation m) with (started m). rewrite Hi.
  rewrite bind_run. cbn [gets]. change (has_binary_program (cpu (started m))) with (has_binary_program (cpu m)).
  unfold exec. unfold step_instruction, fetch at 1.
  destruct (has_binary_program (cpu m)) eqn:E; rewrite !bind_run; cbn [gets]; rewrite !bind_run;
    unfold try_catch; rewrite !bind_run, !check_run; unfold fetch;
    change (has_binary_program (cpu (started m))) with (has_binary_program (cpu m)); rewrite E; reflexivity.
Qed.

(** The machine after a fault: only the error state and the trace changed. *)
Definition faulted (e : exn) (i : Instruction) m : Machine H :=
  set_cpu (fun c => set_trace (TraceLogger_record
    {| ev_before := mstate m; ev_instruction := i; ev_after := CPUState_setError (what e) (mstate m);
       ev_error_message := what e |} (trace_logger c))
    (set_state (CPUState_setError (what e) (state c)) c)) (started m).

Lemma step_fetch_fault m e :
  stopped m = false -> quiescent m = true -> fetch (cpu m) = Throw e ->
  CPU_step m = (Ret tt, faulted e invalid_instruction m).
Proof.
  intros Hs Hq Hf. rewrite step_without_interrupt by assumption.
  unfold step_instruction. rewrite bind_run. cbn [gets]. rewrite bind_run. unfold try_catch.
  rewrite bind_run, check_run. change (fetch (cpu (started m))) with (fetch (cpu m)). rewrite Hf. reflexivity.
Qed.

Lemma step_exec_fault m i e :
  stopped m = false -> quiescent m = true -> fetch (cpu m) = Ret i ->
  exec (cpu m) i (started m) = (Throw e, started m) ->
  CPU_step m = (Ret tt, faulted e i m).
Proof.
  intros Hs Hq Hf He. rewrite step_without_interrupt by assumption.
  unfold step_instruction. rewrite bind_run. cbn [gets]. rewrite bind_run. unfold try_catch.
  rewrite bind_run, check_run. change (fetch (cpu (started m))) with (fetch (cpu m)). rewrite Hf.
  cbn [mret M_ret]. rewrite bind_run, bind_run, He. reflexivity.
Qed.

(** The opcode the trace shows is the one the binary engine executes. *)
Lemma fetch_binary_inv c i :
  fetch_binary c = Ret i -> exists d, fetch_decode c = Ret d /\ dec_opcode d = opcode i.
Proof.
  intros Hf. apply bind_ret_inv in Hf as ([] & _ & Hf). unfold traceInstructionForCurrentBinaryPc in Hf.
  apply bind_ret_inv in Hf as (d & Hd & Hf). exists d. split; [exact Hd|].
  apply bind_ret_inv in Hf as (o1 & _ & Hf). apply bind_ret_inv in Hf as (o2 & _ & Hf).
  injection Hf as <-. destruct (Operand_isNone o1), (Operand_isNone o2); reflexivity.
Qed.

Lemma privileged_fault c o :
  privilege_level (state c) = User -> is_privileged o = true ->
  exists msg, requireInstructionPrivilege c o = Throw (RuntimeError msg).
Proof.
  intros Hu Hp. unfold requireInstructionPrivilege, CPUState_isUserMode.
  rewrite bool_decide_eq_true_2 by exact Hu. destruct o; try discriminate Hp; eexists; reflexivity.
Qed.
End faults.



(** ** Delivery of a hardware interrupt *)

Section delivery.
Context {LD : LongDouble} {H : Type} {SIH : SoftwareInterruptHandler H}.
Implicit Types (m : Machine H).

(** The store after the [it]-th request of the controller is taken. *)
Definition acknowledged (r it : nat) (w : World) : World :=
  let c := controller_at w r in
  set_controllers (<[r := set_pending (delete it (pending c)) c]> (controllers w)) w.

Definition with_world (w : World) m : Machine H := mkMachine (cpu m) w (handler m).

Lemma acknowledge_run m r it request :
  InterruptController_findDeliverable (controller_at (world m) r) = Some (it, request) ->
  on_world (on_controller r InterruptController_acknowledge) m
  = (Ret request, with_world (acknowledged r it (world m)) m).
Proof.
  intros Hf. unfold on_world, on_controller, zoom, InterruptController_acknowledge.
  rewrite bind_run. cbn [get]. rewrite Hf. reflexivity.
Qed.

Lemma handler_check c h e1 e2 m :
  (if has_binary_program c then throw_if (negb (isBinaryPcInCode c h)) (RuntimeError e1)
   else throw_if (h >=? Z.of_nat (length (program c))) (RuntimeError e2)) m
  = (if isLoadedCodeAddress c h then (Ret tt, m)
     else (Throw (RuntimeError (if has_binary_program c then e1 else e2)), m)).
Proof.
  unfold isLoadedCodeAddress. destruct (has_binary_program c).
  - destruct (isBinaryPcInCode c h); reflexivity.
  - rewrite Z.geb_leb, Z.leb_antisym. destruct (h <? _); reflexivity.
Qed.

(** What [servicePendingInterruptIfNeeded] does with a deliverable request. *)
Lemma servicePending_run m r it request h :
  interrupt_controller (cpu m) = Some r ->
  InterruptController_findDeliverable (controller_at (world m) r) = Some (it, request) ->
  vector_table (controller_at (world m) r) !! req_vector request = Some h ->
  let m1 := with_world (acknowledged r it (world m)) m in
  servicePendingInterruptIfNeeded m =
  (if isLoadedCodeAddress (cpu m) h then
     (_ ← pushInterruptFrame (pc (mstate m));
      _ ← write_register R0 (req_vector request);
      _ ← write_register R1 (req_payload request);
      _ ← on_state (setPc h);
      mret true) m1
   else (Throw (RuntimeError (if has_binary_program (cpu m)
                              then "Interrupt handler is outside loaded binary code section"
                              else "Interrupt handler is outside loaded program")), m1)).
Proof.
  intros Hc Hf Hh m1. unfold servicePendingInterruptIfNeeded. rewrite bind_run. cbn [get]. rewrite Hc.
  unfold InterruptController_hasPending. rewrite Hf. cbn [negb].
  rewrite bind_run, (acknowledge_run m r it request Hf), bind_run. cbn [gets].
  rewrite bind_run, lift_run. unfold InterruptController_vectorHandler.
  assert (Hv : vector_table (controller_at (world m1) r) = vector_table (controller_at (world m) r)).
  { unfold m1, with_world, acknowledged, controller_at. cbn. rewrite lookup_total_insert_eq. reflexivity. }
  fold m1. rewrite Hv, Hh. cbn [mret outcome_ret]. rewrite bind_run. cbn [gets].
  rewrite bind_run, handler_check. change (cpu m1) with (cpu m).
  destruct (isLoadedCodeAddress (cpu m) h); reflexivity.
Qed.

Lemma write_low_register reg v m :
  length (registers (mstate m)) = kRegisterCount -> reg = R0 \/ reg = R1 ->
  write_register reg v m = (Ret tt, set_mstate (set_registers (<[register_raw reg := v]> (registers (mstate m)))) m).
Proof.
  intros Hl Hr. rewrite write_register_run. unfold RegisterFile_set.
  destruct Hr as [-> | ->]; cbn; rewrite Hl; reflexivity.
Qed.

Lemma step_interrupted m m1 v :
  stopped m = false -> servicePendingInterruptIfNeeded (started m) = (Ret true, m1) ->
  RegisterFile_get (registers (mstate m1)) R0 = Ret v ->
  CPU_step m = record_trace (mstate m) (int_instruction (immediate v)) "" m1.
Proof.
  unfold stopped. intros Hs Hp Hv. unfold CPU_step. rewrite bind_run. cbn [gets]. rewrite Hs.
  rewrite bind_run. unfold assign, modify. fold (started m). rewrite bind_run. cbn [gets]. rewrite bind_run.
  unfold step_interrupt, try_catch. rewrite bind_run, Hp, bind_run. unfold read_register.
  rewrite bind_run. cbn [gets]. rewrite lift_run, Hv. reflexivity.
Qed.

Lemma step_interrupt_fault m m1 e :
  stopped m = false -> servicePendingInterruptIfNeeded (started m) = (Throw e, m1) ->
  mstate (CPU_step m).2 = CPUState_setError (what e) (mstate m1) /\ world (CPU_step m).2 = world m1.
Proof.
  unfold stopped. intros Hs Hp. unfold CPU_step. rewrite bind_run. cbn [gets]. rewrite Hs.
  rewrite bind_run. unfold assign, modify. fold (started m). rewrite bind_run. cbn [gets]. rewrite bind_run.
  unfold step_interrupt, try_catch. rewrite bind_run, Hp. split; reflexivity.
Qed.

(** Field access after the four statements that enter a handler. *)
Lemma enter_run m fb mem v p h :
  length (registers (mstate m)) = kRegisterCount ->
  let m1 := set_cpu (pushed fb mem) m in
  exists m2,
    (_ ← write_register R0 v; _ ← write_register R1 p; _ ← on_state (setPc h); mret true) m1 = (Ret true, m2) /\
    mstate m2 = setPc h (set_registers (<[1%nat := p]> (<[0%nat := v]> (registers (mstate m))))
                          (setPrivilegeLevel Kernel (setSp (fb + 32) (set_memory mem (mstate m))))) /\
    world m2 = world m.
Proof.
  intros Hl m1.
  assert (H1 : mstate m1 = setPrivilegeLevel Kernel (setSp (fb + 32) (set_memory mem (mstate m)))).
  { unfold m1, pushed, set_cpu, mstate. destruct m as [[[]] w hd]. cbn.
    destruct (CPUState_isUserMode _); cbn; [reflexivity|]. destruct using_kernel_interrupt_stack; reflexivity. }
  assert (Hr1 : registers (mstate m1) = registers (mstate m)) by (rewrite H1; reflexivity).
  assert (Hw1 : world m1 = world m) by reflexivity. clearbody m1.
  rewrite bind_run, write_low_register by (rewrite ?Hr1; auto).
  rewrite bind_run, write_low_register; [|cbn; rewrite length_insert; fold (mstate m1); rewrite Hr1; exact Hl | auto].
  eexists. split; [reflexivity|]. split; [|exact Hw1].
  unfold mstate in *. cbn. rewrite H1. reflexivity.
Qed.

(** The successful case, from the statements that enter the handler. *)
Lemma delivery_succeeds m w v p h :
  let fb := frame_base (cpu m) in
  let s := mstate m in
  stopped m = false -> state_wf s -> frame_room (cpu m) = Ret tt ->
  servicePendingInterruptIfNeeded (started m) =
    (_ ← pushInterruptFrame (pc s);
     _ ← write_register R0 v; _ ← write_register R1 p; _ ← on_state (setPc h); mret true)
    (with_world w (started m)) ->
  exists mem,
    mstate (CPU_step m).2 = setPc h (set_registers (<[1%nat := p]> (<[0%nat := v]> (registers s)))
                              (setPrivilegeLevel Kernel (setSp (fb + 32) (set_memory mem s)))) /\
    world (CPU_step m).2 = w /\
    Memory_read mem fb = Ret (i64 (pc s)) /\ Memory_read mem (fb + 8) = Ret (packFlags (flags s)) /\
    Memory_read mem (fb + 16) = Ret (privilegeLevelToRaw (privilege_level s)) /\
    Memory_read mem (fb + 24) = Ret (i64 (sp s)) /\ length mem = length (memory s) /\
    (forall j, 0 <= j -> j < fb \/ fb + 32 <= j -> mem !! Z.to_nat j = memory s !! Z.to_nat j).
Proof.
  intros fb s Hs Hwf Er Hp. set (m1 := with_world w (started m)) in Hp.
  destruct (pushInterruptFrame_run (pc s) m1 Hwf Er) as (mem & Hmem & Hpush).
  destruct (enter_run m1 fb mem v p h) as (m2 & Hrun & Hst & Hw); [apply Hwf|].
  rewrite bind_run, Hpush in Hp. change (frame_base (cpu m1)) with fb in Hp. rewrite Hrun in Hp.
  assert (Hget : RegisterFile_get (registers (mstate m2)) R0 = Ret v).
  { rewrite Hst. cbn. destruct (wf_registers _ Hwf) as [Hlen _]. unfold s, mstate in Hlen.
    destruct (registers (state (cpu m))) as [|x [|y l]]; try discriminate Hlen. reflexivity. }
  rewrite (step_interrupted m m2 v Hs Hp Hget). exists mem. split; [exact Hst|]. split; [exact Hw|].
  pose proof (frame_room_bounds m Hwf Er) as Hb.
  apply write_frame_spec in Hmem as (R1 & R2 & R3 & R4 & Hlen & _ & Hfr);
    [|change (frame_base (cpu m1)) with (frame_base (cpu m)); lia | apply i64_range | apply packFlags_range | apply privilege_raw_word | apply i64_range].
  repeat (split; [assumption|]). exact Hfr.
Qed.
End delivery.

(** (C4) Delivery of an interrupt.  Let a running machine have a request the
    controller can deliver (the oldest that is enabled, unmasked and has a
    handler).  The next [step] takes exactly that request from the
    queue and executes no instruction.  (1) If the handler address is loaded
    code and the stacks have room for a frame, the machine continues in Kernel
    mode at the handler with the vector in [R0] and the payload in [R1], every
    other register and FLAGS as they were, and the return address, packed
    FLAGS, privilege level and stack pointer of the interrupted code in the
    four words of the frame, the only memory that changed.  (2) and (3)
    Otherwise the machine stops in error with the rest of its state unchanged;
    the request is gone in that case too. *)
Theorem interrupt_delivery {LD : LongDouble} {H} {SIH : SoftwareInterruptHandler H} (m : Machine H)
    (r it : nat) (request : InterruptRequest) (h : Z)
    (Hs : stopped m = false) (Hwf : state_wf (mstate m))
    (Hc : interrupt_controller (cpu m) = Some r)
    (Hf : InterruptController_findDeliverable (controller_at (world m) r) = Some (it, request))
    (Hh : vector_table (controller_at (world m) r) !! req_vector request = Some h) :
  let m' := (CPU_step m).2 in
  let fb := frame_base (cpu m) in
  let s := mstate m in
  world m' = acknowledged r it (world m) /\
  (isLoadedCodeAddress (cpu m) h = true -> frame_room (cpu m) = Ret tt -> exists mem,
     mstate m' = setPc h (set_registers (<[1%nat := req_payload request]> (<[0%nat := req_vector request]> (registers s)))
                           (setPrivilegeLevel Kernel (setSp (fb + 32) (set_memory mem s)))) /\
     Memory_read mem fb = Ret (i64 (pc s)) /\ Memory_read mem (fb + 8) = Ret (packFlags (flags s)) /\
     Memory_read mem (fb + 16) = Ret (privilegeLevelToRaw (privilege_level s)) /\
     Memory_read mem (fb + 24) = Ret (i64 (sp s)) /\ length mem = length (memory s) /\
     (forall j, 0 <= j -> j < fb \/ fb + 32 <= j -> mem !! Z.to_nat j = memory s !! Z.to_nat j)) /\
  (forall e, isLoadedCodeAddress (cpu m) h = true -> frame_room (cpu m) = Throw e ->
     mstate m' = CPUState_setError (what e) s) /\
  (isLoadedCodeAddress (cpu m) h = false -> exists msg, mstate m' = CPUState_setError msg s).
Proof.
  intros m' fb s.
  pose proof (servicePending_run (started m) r it request h Hc Hf Hh) as Hp. cbv zeta in Hp.
  change (isLoadedCodeAddress (cpu (started m)) h) with (isLoadedCodeAddress (cpu m) h) in Hp.
  change (pc (mstate (started m))) with (pc s) in Hp.
  set (m1 := with_world (acknowledged r it (world (started m))) (started m)) in Hp.
  destruct (isLoadedCodeAddress (cpu m) h) eqn:El.
  - destruct (frame_room (cpu m)) as [[]|e] eqn:Er.
    + destruct (delivery_succeeds m (acknowledged r it (world m)) (req_vector request) (req_payload request) h Hs Hwf Er Hp)
        as (mem & Hst & Hw & Hframe).
      split; [exact Hw|]. split; [|split; discriminate]. intros _ _. exists mem. split; [exact Hst | exact Hframe].
    + rewrite bind_run, (pushInterruptFrame_no_room (pc s) m1 e Er) in Hp.
      destruct (step_interrupt_fault m m1 e Hs Hp) as [H1 H2]. split; [exact H2|].
      split; [discriminate|]. split; [intros e' _ [= <-]; exact H1 | discriminate].
  - destruct (step_interrupt_fault m m1 _ Hs Hp) as [H1 H2]. split; [exact H2|].
    split; [discriminate|]. split; [discriminate|]. intros _. eexists. exact H1.
Qed.

(** The sample machine with a controller that has one request for vector 32. *)
Definition interrupted_machine : Machine unit :=
  let c := {| vector_table := {[32 := 1]}; masks := ∅;
              pending := [{| req_vector := 32; req_payload := 7; req_source := "timer" |}];
              global_enabled := true |} in
  mkMachine (set_interrupt_controller (Some 0%nat) (cpu sample_user_machine))
    {| controllers := {[0%nat := c]}; timers := ∅; debug_outputs := ∅; hardware_buses := ∅; serial_buses := ∅; buses := ∅ |} tt.

Example interrupt_delivery_witness :
  exists mem, mstate (@CPU_step extended_long_double unit no_handler interrupted_machine).2
    = setPc 1 (set_registers [32; 7; 0; 0; 0; 0; 0; 0]
                (setPrivilegeLevel Kernel (setSp 4032 (set_memory mem new_CPUState)))) /\
    Memory_read mem 4016 = Ret 1.
Proof.
  assert (Hwf : state_wf (mstate interrupted_machine)) by (destruct sample_user_machine_ok; assumption).
  destruct (@interrupt_delivery extended_long_double unit no_handler interrupted_machine 0 0
    {| req_vector := 32; req_payload := 7; req_source := "timer" |} 1 eq_refl Hwf eq_refl
    ltac:(vm_compute; reflexivity) ltac:(vm_compute; reflexivity)) as (_ & Hok & _).
  destruct (Hok ltac:(vm_compute; reflexivity) ltac:(vm_compute; reflexivity))
    as (mem & Hst & _ & _ & Hp & _).
  exists mem. split; [exact Hst | exact Hp].
Defined.
