(* ===== verification/CPUEquiv.v ===== *)
(** * The two execution engines agree

    [src/core/CPU.cpp] executes a program in two ways: the binary engine over
    24-byte instructions in memory ([executeBinaryInstruction]) and the
    interpreted engine over a list of [Instruction]s ([execute]).  For every
    instruction that does not transfer control, a decoded instruction that
    denotes an [Instruction] has its effect; only the distance the program
    counter advances differs. *)

From S2P Require Import Prelude Words ALU Memory ISA Binary Interrupts Devices CPUState Trace CPU CPUExec CPUStep CPUFrames.
Open Scope Z_scope.

(** ** Computations with the same effect *)

(** A computation that leaves the program counter where it is. *)
Abbreviation keeps_pc p := (forall v, safe (fun m => pc (mstate m) = v) p (fun _ => True)).

Section matching.
Context {H : Type}.
Implicit Types (m : Machine H).

(** The same result and the same machine; exceptions may have another text.  A
    computation does not move the program counter. *)
Definition matches {A} (p q : M (Machine H) A) : Prop := forall m,
  match p m, q m with
  | (Ret a, m1), (Ret b, m2) => a = b /\ m1 = m2 /\ pc (mstate m1) = pc (mstate m)
  | (Throw _, m1), (Throw _, m2) => m1 = m2
  | _, _ => False
  end.

(** The machine after the program counter advances by [n], unless it halted. *)
Definition advanced (n : Z) m : Machine H :=
  if halted (mstate m) then m else set_mstate (fun s => setPc (u64 (pc s + n)) s) m.

(** The same effect, but for the distance the program counter advances. *)
Definition advances (p q : M (Machine H) unit) : Prop := forall m,
  match p m, q m with
  | (Ret _, m1), (Ret _, m2) =>
      exists m', pc (mstate m') = pc (mstate m) /\
                 m1 = advanced kInstructionSize m' /\ m2 = advanced 1 m'
  | (Throw _, m1), (Throw _, m2) => m1 = m2
  | _, _ => False
  end.

Lemma matches_refl {A} (p : M (Machine H) A) : keeps_pc p -> matches p p.
Proof.
  intros Hp m. specialize (Hp (pc (mstate m)) m eq_refl).
  destruct (p m) as [[a|e] m1]; [|reflexivity]. destruct Hp. auto.
Qed.

Lemma matches_bind {A B} (p q : M (Machine H) A) (f g : A -> M (Machine H) B) :
  matches p q -> (forall a, matches (f a) (g a)) -> matches (p ≫= f) (q ≫= g).
Proof.
  intros Hp Hf m. rewrite !bind_run. specialize (Hp m).
  destruct (p m) as [[a|e] m1], (q m) as [[b|e'] m2]; try contradiction; [|exact Hp].
  destruct Hp as (<- & <- & Hpc). specialize (Hf a m1). rewrite <- Hpc.
  destruct (f a m1) as [[x|ex] m3], (g a m1) as [[y|ey] m4]; exact Hf.
Qed.

Lemma advances_bind {A} (p q : M (Machine H) A) (f g : A -> M (Machine H) unit) :
  matches p q -> (forall a, advances (f a) (g a)) -> advances (p ≫= f) (q ≫= g).
Proof.
  intros Hp Hf m. rewrite !bind_run. specialize (Hp m).
  destruct (p m) as [[a|e] m1], (q m) as [[b|e'] m2]; try contradiction; [|exact Hp].
  destruct Hp as (<- & <- & Hpc). specialize (Hf a m1). rewrite <- Hpc.
  destruct (f a m1) as [[x|ex] m3], (g a m1) as [[y|ey] m4]; exact Hf.
Qed.

Lemma advances_end : advances advanceBinaryPcUnlessHalted advancePcUnlessHalted.
Proof.
  intros m. unfold advanceBinaryPcUnlessHalted, advancePcUnlessHalted. rewrite !bind_run. cbn [gets].
  unfold advanced. destruct (halted (mstate m)) eqn:E; cbn; exists m; rewrite E; auto.
Qed.

Lemma advances_halt : advances (on_state CPUState_halt) (on_state CPUState_halt).
Proof. intros m. cbn. exists (set_mstate CPUState_halt m). repeat split; reflexivity. Qed.

Lemma advances_throw e e' : advances (throw e) (throw e').
Proof. intros m. reflexivity. Qed.

(** Checks that agree on whether they throw. *)
Lemma matches_lift {A} (o o' : outcome A) :
  (forall a, o = Ret a <-> o' = Ret a) -> matches (lift o) (lift o').
Proof.
  intros Ho m. unfold lift. destruct o as [a|e], o' as [b|e'].
  - specialize (Ho a). destruct Ho as [Ho _]. specialize (Ho eq_refl). injection Ho as <-. auto.
  - specialize (Ho a). destruct Ho as [Ho _]. discriminate (Ho eq_refl).
  - specialize (Ho b). destruct Ho as [_ Ho]. discriminate (Ho eq_refl).
  - reflexivity.
Qed.

Lemma matches_ret {A} (a : A) : matches (mret a) (mret a).
Proof. intros m. cbn. auto. Qed.

Lemma matches_throw {A} e e' : matches (throw e : M (Machine H) A) (throw e').
Proof. intros m. reflexivity. Qed.

(** *** The program counter is kept *)

Lemma keeps_on_state f : (forall s, pc (f s) = pc s) -> keeps_pc (on_state (H := H) f).
Proof. intros Hf v. apply safe_modify. intros m Hm. unfold mstate in *. cbn. rewrite Hf. exact Hm. Qed.

Lemma keeps_write_register r x : keeps_pc (write_register (H := H) r x).
Proof.
  intros v. apply safe_update. intros m s Hm Hs. apply bind_ret_inv in Hs as (regs & _ & [= <-]). exact Hm.
Qed.

Lemma keeps_write_memory a x : keeps_pc (write_memory (H := H) a x).
Proof.
  intros v. apply safe_update. intros m s Hm Hs. apply bind_ret_inv in Hs as (mem & _ & [= <-]). exact Hm.
Qed.

Lemma keeps_on_world {A} (p : M World A) : keeps_pc (on_world (H := H) p).
Proof.
  intros v m Hm. unfold on_world, zoom. destruct (p (world m)) as [[a|e] w]; [split; [exact Logic.I|]|]; exact Hm.
Qed.

Lemma keeps_lift {A} (o : outcome A) : keeps_pc (lift (St := Machine H) o).
Proof. intros v. apply safe_lift. auto. Qed.
Lemma keeps_gets {A} (f : Machine H -> A) : keeps_pc (gets f).
Proof. intros v. apply safe_gets. auto. Qed.
Lemma keeps_get : keeps_pc (get (St := Machine H)).
Proof. intros v. eapply safe_conseq; [apply safe_get | auto]. Qed.
Lemma keeps_check {A} (f : CPU -> outcome A) : keeps_pc (check (H := H) f).
Proof. intros v m Hm. unfold check. destruct (f (cpu m)); [split; [exact Logic.I|]|]; exact Hm. Qed.
Lemma keeps_sync x : keeps_pc (sync_kernel_sp (H := H) x).
Proof.
  intros v. apply safe_modify. intros m Hm. unfold mstate, set_cpu in *. cbn.
  destruct (using_kernel_interrupt_stack (cpu m)); exact Hm.
Qed.
End matching.

#[export] Hint Resolve keeps_write_register keeps_write_memory keeps_on_world keeps_lift keeps_gets
  keeps_get keeps_check keeps_sync : safe_default.
#[export] Hint Extern 2 (safe (fun m => pc (mstate m) = _) (on_state _) _) =>
  apply keeps_on_state; intros ?; reflexivity : safe_default.
#[export] Hint Extern 2 (safe (fun m => pc (mstate m) = _) (update_flags _) _) =>
  apply keeps_on_state; intros ?; reflexivity : safe_default.

Section shared.
Context {H : Type}.

Lemma keeps_readDataMemory a : keeps_pc (readDataMemory (H := H) a).
Proof. intros v. unfold readDataMemory. safe_go. Qed.
Lemma keeps_writeDataMemory a x : keeps_pc (writeDataMemory (H := H) a x).
Proof. intros v. unfold writeDataMemory. safe_go. Qed.
Lemma keeps_pushValue x : keeps_pc (pushValue (H := H) x).
Proof. intros v. unfold pushValue. safe_go. Qed.
Lemma keeps_popValue : keeps_pc (popValue (H := H)).
Proof. intros v. unfold popValue. safe_go. Qed.
Lemma keeps_update_flags f : keeps_pc (update_flags (H := H) f).
Proof. apply keeps_on_state. reflexivity. Qed.
Lemma keeps_read_register r : keeps_pc (read_register (H := H) r).
Proof. intros v. unfold read_register. safe_go. Qed.
Lemma keeps_set_interrupts b name : keeps_pc (set_interrupts (H := H) b name).
Proof. intros v. unfold set_interrupts. safe_go. Qed.
End shared.

(** ** Operands *)

(** An address the binary engine can express: its payload is signed. *)
Definition signed_address (o : Operand) : Prop :=
  match o with memoryAddress a => 0 <= a <= INT64_MAX | _ => True end.

Lemma decode_register reg :
  reg <> Count -> decodeBinaryRegister (Z.of_nat (register_raw reg)) = Ret reg.
Proof. intros Hr. destruct reg; [reflexivity..|]. congruence. Qed.

Section operands.
Context {LD : LongDouble} {H : Type} {SIH : SoftwareInterruptHandler H}.
Context (labels : LabelTable) (o : Operand) (t : EncodedOperandType) (p : Z).
Context (Hden : denotes labels o t p) (Hsigned : signed_address o).

Lemma matches_throw_if c e e' : matches (H := H) (throw_if c e) (throw_if c e').
Proof. destruct c; intros m; cbn; auto. Qed.

Lemma matches_readMemoryAddress :
  matches (H := H) (readBinaryMemoryAddress t p) (readMemoryAddress o).
Proof.
  unfold readMemoryAddress. destruct Hden; cbn [Operand_type readBinaryMemoryAddress]; try apply matches_throw.
  - cbn in Hsigned. rewrite i64_small by words. rewrite (proj2 (Z.ltb_ge a 0)), u64_small by words.
    apply (matches_ret a).
  - rewrite decode_register by assumption.
    apply (matches_bind (lift (Ret reg)) (lift (Ret reg))); [apply matches_refl, keeps_lift | intros r].
    apply matches_bind; [apply matches_refl, keeps_read_register | intros a].
    destruct (a <? 0); [apply matches_throw | apply matches_ret].
Qed.

Lemma matches_readOperandValue :
  matches (H := H) (readBinaryOperandValue t p) (readOperandValue o).
Proof.
  pose proof matches_readMemoryAddress as Haddr.
  unfold readOperandValue. destruct Hden; cbn [Operand_type readBinaryOperandValue] in *; try apply matches_throw.
  - rewrite decode_register by assumption.
    apply (matches_bind (lift (Ret reg)) (lift (Ret reg))); [apply matches_refl, keeps_lift | intros r].
    apply matches_refl, keeps_read_register.
  - apply (matches_ret v).
  - apply matches_bind; [exact Haddr | intros x; apply matches_refl, keeps_readDataMemory].
  - apply matches_bind; [exact Haddr | intros x; apply matches_refl, keeps_readDataMemory].
Qed.

Lemma matches_requireRegister :
  matches (H := H) (lift (requireBinaryRegisterDestination t p)) (lift (requireRegisterDestination o)).
Proof.
  apply matches_lift. intros []. unfold requireBinaryRegisterDestination, requireRegisterDestination.
  destruct Hden; cbn [Operand_type]; try (split; discriminate).
  rewrite decode_register by assumption. split; reflexivity.
Qed.

Lemma matches_writeRegister x :
  matches (H := H) (writeBinaryRegisterDestination t p x) (writeRegisterDestination o x).
Proof.
  pose proof matches_requireRegister as Hreq.
  unfold writeBinaryRegisterDestination, writeRegisterDestination.
  destruct Hden; try (intros m; reflexivity).
  apply matches_bind; [exact Hreq | intros u]. rewrite decode_register by assumption.
  apply (matches_bind (lift (Ret reg)) (lift (Ret reg))); [apply matches_refl, keeps_lift | intros r].
  apply matches_refl, keeps_write_register.
Qed.
End operands.

(** ** Instructions *)

Section instructions.
Context {LD : LongDouble} {H : Type} {SIH : SoftwareInterruptHandler H}.
Context (labels : LabelTable) (d : DecodedInstruction) (i : Instruction).
Context (Hdst : denotes labels (dst i) (dst_type d) (dst_payload d))
        (Hsrc : denotes labels (src i) (src_type d) (src_payload d))
        (Sdst : signed_address (dst i)) (Ssrc : signed_address (src i)).

Lemma matches_shapes :
  matches (H := H) (lift (requireNoBinaryOperands d)) (lift (requireNoOperand i)) /\
  matches (H := H) (lift (requireSingleBinaryOperand d)) (lift (requireSingleOperand i)) /\
  matches (H := H) (lift (requireTwoBinaryOperands d)) (lift (requireTwoOperands i)).
Proof.
  unfold requireNoBinaryOperands, requireNoOperand, requireSingleBinaryOperand, requireSingleOperand,
    requireTwoBinaryOperands, requireTwoOperands.
  destruct Hdst, Hsrc; repeat split; apply matches_lift; intros []; cbn; (reflexivity || (split; discriminate)).
Qed.

Lemma advances_alu op : advances (H := H) (binary_alu op d) (execute_alu op i).
Proof.
  unfold binary_alu, execute_alu.
  apply advances_bind; [apply matches_shapes | intros u].
  apply advances_bind; [eapply matches_requireRegister; eassumption | intros u1].
  apply advances_bind; [eapply matches_readOperandValue; eassumption | intros lhs].
  apply advances_bind; [eapply matches_readOperandValue; eassumption | intros rhs].
  apply advances_bind; [apply matches_refl, keeps_lift | intros r].
  apply advances_bind; [eapply matches_writeRegister; eassumption | intros u2].
  apply advances_bind; [apply matches_refl, keeps_update_flags | intros u3]. apply advances_end.
Qed.

Lemma advances_compare op : advances (H := H) (binary_compare op d) (execute_compare op i).
Proof.
  unfold binary_compare, execute_compare.
  apply advances_bind; [apply matches_shapes | intros u].
  apply advances_bind; [eapply matches_readOperandValue; eassumption | intros lhs].
  apply advances_bind; [eapply matches_readOperandValue; eassumption | intros rhs].
  apply advances_bind; [apply matches_refl, keeps_update_flags | intros u3]. apply advances_end.
Qed.

(** Follow the two sides of an instruction statement by statement. *)
Ltac follow :=
  repeat first
    [ apply advances_end | apply advances_halt | apply advances_throw
    | apply advances_bind; [first [ apply matches_shapes
        | eapply matches_requireRegister; eassumption | eapply matches_readOperandValue; eassumption
        | eapply matches_readMemoryAddress; eassumption | eapply matches_writeRegister; eassumption
        | apply matches_refl; first [apply keeps_readDataMemory | apply keeps_writeDataMemory
            | apply keeps_pushValue | apply keeps_popValue | apply keeps_update_flags
            | apply keeps_set_interrupts]] | intros ?]].

(** The instructions that do not transfer control. *)
Definition is_data_opcode (o : Opcode) : bool :=
  match o with
  | JMP | JE | JNE | JG | JL | CALL | RET | IRET | INT => false
  | _ => true
  end.

Lemma advances_data :
  dec_opcode d = opcode i -> is_data_opcode (opcode i) = true ->
  advances (H := H) (executeBinaryInstruction d) (execute i).
Proof.
  intros Ho Hd. unfold executeBinaryInstruction, execute. rewrite Ho.
  apply advances_bind; [apply matches_refl, keeps_check | intros u].
  destruct (opcode i); try discriminate Hd; try apply advances_alu; try apply advances_compare.
  all: unfold executeBinary_NOP, executeNop, executeBinary_HALT, executeHalt, executeBinary_MOV, executeMov,
    executeBinary_LOAD, executeLoad, executeBinary_STORE, executeStore, executeBinary_NOT, executeNot,
    executeBinary_PUSH, executePush, executeBinary_POP, executePop, executeBinary_EI, executeEi,
    executeBinary_DI, executeDi; follow.
Qed.
End instructions.

(** (C38) The engines agree.  Let an [Instruction] that does not transfer control
    be encoded, and its bytes be decoded.  On any machine, executing the decoded
    instruction in the binary engine and the [Instruction] in the interpreted
    engine ends the same way: both throw and leave the same machine, or both
    return machines that are equal, but for the program counter, which advances
    by 24 bytes in the one and by one instruction in the other.  The one
    restriction is that an absolute address fits a signed payload: the binary
    engine rejects others. *)
Theorem engines_agree {LD : LongDouble} {H} {SIH : SoftwareInterruptHandler H}
    (i : Instruction) (labels : LabelTable) (bytes : list Z) (m : Machine H)
    (Hdata : is_data_opcode (opcode i) = true)
    (Fdst : operand_fits (dst i)) (Fsrc : operand_fits (src i))
    (Sdst : signed_address (dst i)) (Ssrc : signed_address (src i))
    (Henc : encodeInstruction i labels = Ret bytes) :
  exists d, decodeInstruction bytes = Ret d /\
    match executeBinaryInstruction d m, execute i m with
    | (Ret _, m1), (Ret _, m2) =>
        exists m', pc (mstate m') = pc (mstate m) /\
                   m1 = advanced kInstructionSize m' /\ m2 = advanced 1 m'
    | (Throw _, m1), (Throw _, m2) => m1 = m2
    | _, _ => False
    end.
Proof.
  pose proof Henc as Hl. apply encodeInstruction_layout in Hl as (op & dt & dp & st & sp & Ho & Hd & Hs & ->).
  apply encodeOperand_denotes in Hd as (dk & -> & Hd & Hdp); [|exact Fdst].
  apply encodeOperand_denotes in Hs as (sk & -> & Hs & Hsp); [|exact Fsrc].
  eexists. split; [apply (decode_layout (opcode i)); eassumption|].
  apply (advances_data labels); auto.
Qed.

Example engines_agree_witness :
  let i := {| opcode := ADD; dst := registerOperand R1; src := immediate 5 |} in
  exists bytes d m', encodeInstruction i ∅ = Ret bytes /\ decodeInstruction bytes = Ret d /\
    pc (mstate m') = 0 /\
    (@executeBinaryInstruction extended_long_double unit no_handler d sample_user_machine).2 = advanced 24 m' /\
    (@execute extended_long_double unit no_handler i sample_user_machine).2 = advanced 1 m'.
Proof.
  intros i. destruct (encodeInstruction i ∅) as [bytes|e] eqn:E; [|discriminate E].
  assert (F1 : operand_fits (dst i)) by exact Logic.I. assert (F2 : operand_fits (src i)) by (cbn; words).
  destruct (@engines_agree extended_long_double unit no_handler i ∅ bytes sample_user_machine eq_refl
              F1 F2 Logic.I Logic.I E) as (d & Hd & Hrun).
  exists bytes, d.
  assert (Hok : (@execute extended_long_double unit no_handler i sample_user_machine).1 = Ret tt)
    by (vm_compute; reflexivity).
  destruct (@execute extended_long_double unit no_handler i sample_user_machine) as [o2 m2].
  cbn in Hok. subst o2.
  destruct (@executeBinaryInstruction extended_long_double unit no_handler d sample_user_machine) as [[[]|e] m1];
    [|destruct Hrun].
  destruct Hrun as (m' & Hpc & H1 & H2). exists m'. auto.
Defined.
