(* ===== verification/Image.v ===== *)
(** * Process images

    Models [src/kernel/ExecutableMetadata.cpp], [src/kernel/ProcessImage.cpp] and
    [src/kernel/ProcessImageLoader.cpp]: the layout rules a program must meet to
    become a process, and the image (metadata, program, initial memory and
    registers) a process starts from. *)

From S2P Require Import Prelude Words ALU Memory ISA Binary CPUState.
Open Scope Z_scope.

Record ExecutableMetadata := {
  md_source_name : string;
  md_format_major_version : Z;
  md_format_minor_version : Z;
  md_endianness : BinaryEndianness;
  md_memory_size : Z;
  md_code_base : Z;
  md_code_size : Z;
  md_code_end_exclusive : Z;
  md_entry_offset : Z;
  md_entry_point : Z;
  md_data_base : Z;
  md_data_size : Z;
  md_data_end_exclusive : Z;
  md_user_data_begin : Z;
  md_user_data_end_exclusive : Z;
  md_user_stack_begin : Z;
  md_user_stack_end_exclusive : Z;
}.

#[export] Instance ExecutableMetadata_eq_dec : EqDecision ExecutableMetadata.
Proof. solve_decision. Defined.

Definition validateExecutableMetadata (md : ExecutableMetadata) : outcome unit :=
  _ ← throw_if (bool_decide (md_source_name md = EmptyString))
        (RuntimeError "Executable source name must not be empty");
  _ ← throw_if (negb (isSupportedVersion (md_format_major_version md) (md_format_minor_version md)))
        (RuntimeError "Unsupported executable version");
  _ ← throw_if (negb (bool_decide (md_endianness md = BE_Little)))
        (RuntimeError "Process images currently require little-endian executables");
  _ ← throw_if (negb (md_memory_size md =? kDefaultMemorySize))
        (RuntimeError "Process image memory size does not match the protected Zero-CPU memory layout");
  _ ← throw_if (negb (md_code_base md =? kBinaryCodeBase))
        (RuntimeError "Process image code base does not match the current executable loading convention");
  _ ← throw_if (md_code_size md =? 0) (RuntimeError "Executable code section is empty");
  _ ← throw_if (negb (md_code_size md mod kInstructionSize =? 0))
        (RuntimeError "Executable code size is not a multiple of instruction size");
  _ ← throw_if ((md_code_base md >? md_memory_size md)
                || (md_code_size md >? md_memory_size md - md_code_base md))
        (RuntimeError "Executable code section is outside process memory");
  let expectedCodeEnd := u64 (md_code_base md + md_code_size md) in
  _ ← throw_if (negb (md_code_end_exclusive md =? expectedCodeEnd))
        (RuntimeError "Executable code end does not match code base and size");
  _ ← throw_if (md_code_end_exclusive md >? kUserStackBase)
        (RuntimeError "Executable code section overlaps the protected User stack");
  _ ← throw_if (md_entry_offset md >=? md_code_size md)
        (RuntimeError "Executable entry point is outside the code section");
  _ ← throw_if (negb (md_entry_offset md mod kInstructionAlignment =? 0))
        (RuntimeError "Executable entry point is not instruction-aligned");
  _ ← throw_if (md_code_base md >? UINT64_MAX - md_entry_offset md)
        (RuntimeError "Executable entry point address overflow");
  _ ← throw_if (negb (md_entry_point md =? u64 (md_code_base md + md_entry_offset md)))
        (RuntimeError "Executable entry point does not match code base and entry offset");
  _ ← throw_if (negb (md_user_data_begin md =? kUserDataBase)
                || negb (md_user_data_end_exclusive md =? kUserDataEndExclusive))
        (RuntimeError "Executable User data range does not match the protected memory layout");
  _ ← throw_if (md_user_data_end_exclusive md >? md_code_base md)
        (RuntimeError "Executable User data range overlaps code");
  _ ← throw_if ((md_data_base md <? md_user_data_begin md)
                || (md_data_base md >? md_user_data_end_exclusive md))
        (RuntimeError "Executable data base is outside the User data range");
  _ ← throw_if (md_data_size md >? md_user_data_end_exclusive md - md_data_base md)
        (RuntimeError "Executable data section is outside the User data range");
  _ ← throw_if (md_data_base md >? UINT64_MAX - md_data_size md)
        (RuntimeError "Executable data end address overflow");
  _ ← throw_if (negb (md_data_end_exclusive md =? u64 (md_data_base md + md_data_size md)))
        (RuntimeError "Executable data end does not match data base and size");
  _ ← throw_if (md_data_end_exclusive md >? md_code_base md)
        (RuntimeError "Executable data section overlaps code");
  _ ← throw_if (isLegacyVersion (md_format_major_version md) (md_format_minor_version md)
                && negb (md_data_size md =? 0))
        (RuntimeError "Legacy executable cannot contain data");
  _ ← throw_if (negb (md_user_stack_begin md =? kUserStackBase)
                || negb (md_user_stack_end_exclusive md =? kUserStackEndExclusive))
        (RuntimeError "Executable User stack range does not match the protected memory layout");
  throw_if (md_user_stack_begin md >=? md_user_stack_end_exclusive md)
    (RuntimeError "Executable User stack range is empty").

Record ProcessImage := {
  im_metadata : ExecutableMetadata;
  im_executable : BinaryProgram;
  im_memory : Memory;
  im_initial_registers : list Z;
  im_initial_flags : Z;
  im_initial_pc : Z;
  im_initial_sp : Z;
  im_initial_privilege : PrivilegeLevel;
  im_initial_kernel_stack_pointer : Z;
}.

Definition validateProcessImage (image : ProcessImage) : outcome unit :=
  let md := im_metadata image in
  _ ← validateExecutableMetadata md;
  let h := header (im_executable image) in
  _ ← throw_if (negb (major_version h =? md_format_major_version md)
                || negb (minor_version h =? md_format_minor_version md)
                || negb (bool_decide (endianness h = md_endianness md)))
        (RuntimeError "Process image executable header does not match its metadata");
  _ ← throw_if (negb (code_size h =? md_code_size md)
                || negb (Z.of_nat (length (code (im_executable image))) =? md_code_size md))
        (RuntimeError "Process image executable code size does not match its metadata");
  _ ← throw_if (negb (entry_point h =? md_entry_offset md))
        (RuntimeError "Process image executable entry point does not match its metadata");
  _ ← throw_if (negb (data_base h =? md_data_base md) || negb (data_size h =? md_data_size md)
                || negb (Z.of_nat (length (data (im_executable image))) =? md_data_size md))
        (RuntimeError "Process image executable data section does not match its metadata");
  _ ← throw_if (negb (Memory_size (im_memory image) =? md_memory_size md))
        (RuntimeError "Process image memory size does not match its metadata");
  codeBytes ← Memory_readBytes (im_memory image) (md_code_base md) (md_code_size md);
  _ ← throw_if (negb (bool_decide (codeBytes = code (im_executable image))))
        (RuntimeError "Process image memory does not contain the executable code section");
  dataBytes ← Memory_readBytes (im_memory image) (md_data_base md) (md_data_size md);
  _ ← throw_if (negb (bool_decide (dataBytes = data (im_executable image))))
        (RuntimeError "Process image memory does not contain the initialized data section");
  _ ← throw_if (existsb (fun value => negb (value =? 0)) (im_initial_registers image))
        (RuntimeError "Process image initial registers must be zero");
  _ ← throw_if (negb (im_initial_flags image =? 0))
        (RuntimeError "Process image initial FLAGS must be zero");
  _ ← throw_if (negb (im_initial_pc image =? md_entry_point md))
        (RuntimeError "Process image initial PC does not match the executable entry point");
  _ ← throw_if (negb (im_initial_sp image =? md_user_stack_begin md))
        (RuntimeError "Process image initial SP does not match the User stack base");
  _ ← throw_if (negb (bool_decide (im_initial_privilege image = User)))
        (RuntimeError "Process image initial privilege must be User");
  throw_if (negb (im_initial_kernel_stack_pointer image =? kKernelStackBase))
    (RuntimeError "Process image initial Kernel SP does not match the Kernel stack base").

(** ** The loader *)

Definition makeMetadata (program : BinaryProgram) (sourceName : string) : outcome ExecutableMetadata :=
  let h := header program in
  let code_base := kBinaryCodeBase in
  _ ← throw_if (code_size h >? UINT64_MAX - code_base)
        (RuntimeError "Executable code end address overflow");
  _ ← throw_if (entry_point h >? UINT64_MAX - code_base)
        (RuntimeError "Executable entry point address overflow");
  _ ← throw_if (data_size h >? UINT64_MAX - data_base h)
        (RuntimeError "Executable data end address overflow");
  mret {| md_source_name := sourceName;
          md_format_major_version := major_version h; md_format_minor_version := minor_version h;
          md_endianness := endianness h;
          md_memory_size := kDefaultMemorySize;
          md_code_base := code_base; md_code_size := code_size h;
          md_code_end_exclusive := code_base + code_size h;
          md_entry_offset := entry_point h; md_entry_point := code_base + entry_point h;
          md_data_base := data_base h; md_data_size := data_size h;
          md_data_end_exclusive := data_base h + data_size h;
          md_user_data_begin := kUserDataBase; md_user_data_end_exclusive := kUserDataEndExclusive;
          md_user_stack_begin := kUserStackBase; md_user_stack_end_exclusive := kUserStackEndExclusive |}.

Definition ProcessImageLoader_loadProgram (program : BinaryProgram) (sourceName : string)
    : outcome ProcessImage :=
  md ← makeMetadata program sourceName;
  _ ← validateExecutableMetadata md;
  let '(loaded, memory) :=
    BinaryLoader_loadIntoMemory program (md_code_base md) (new_memory kDefaultMemorySize) in
  image ← loaded;
  _ ← throw_if (negb (img_code_base image =? md_code_base md)
                || negb (img_code_size image =? md_code_size md)
                || negb (img_entry_point image =? md_entry_point md)
                || negb (img_data_base image =? md_data_base md)
                || negb (img_data_size image =? md_data_size md))
        (RuntimeError "Binary loader result does not match process image metadata");
  let result :=
    {| im_metadata := md; im_executable := program; im_memory := memory;
       im_initial_registers := RegisterFile_reset; im_initial_flags := 0;
       im_initial_pc := md_entry_point md; im_initial_sp := md_user_stack_begin md;
       im_initial_privilege := User; im_initial_kernel_stack_pointer := kKernelStackBase |} in
  _ ← validateProcessImage result;
  mret result.

Definition ProcessImageLoader_loadFromBytes (bytes : list Z) (sourceName : string) : outcome ProcessImage :=
  program ← BinaryReader_readFromBytes bytes;
  ProcessImageLoader_loadProgram program sourceName.


(** ** Lemmas: the metadata of a protected executable *)

(** What [validateExecutableMetadata] accepts: a supported little-endian
    program of whole instructions, laid out as code from 512 up to the User
    stack at most, data inside [[0, 512)] and derived fields that agree. *)
Record metadata_ok (md : ExecutableMetadata) : Prop := {
  mok_name : md_source_name md <> EmptyString;
  mok_version : isSupportedVersion (md_format_major_version md) (md_format_minor_version md) = true;
  mok_endianness : md_endianness md = BE_Little;
  mok_memory : md_memory_size md = kDefaultMemorySize;
  mok_code_base : md_code_base md = kBinaryCodeBase;
  mok_code_nonempty : 0 < md_code_size md;
  mok_whole : md_code_size md mod kInstructionSize = 0;
  mok_code_end : md_code_end_exclusive md = kBinaryCodeBase + md_code_size md;
  mok_below_stack : kBinaryCodeBase + md_code_size md <= kUserStackBase;
  mok_entry : md_entry_offset md < md_code_size md;
  mok_aligned : md_entry_offset md mod kInstructionAlignment = 0;
  mok_entry_point : md_entry_point md = kBinaryCodeBase + md_entry_offset md;
  mok_user_data : md_user_data_begin md = kUserDataBase /\ md_user_data_end_exclusive md = kUserDataEndExclusive;
  mok_data : md_data_base md + md_data_size md <= kUserDataEndExclusive;
  mok_data_end : md_data_end_exclusive md = md_data_base md + md_data_size md;
  mok_legacy : isLegacyVersion (md_format_major_version md) (md_format_minor_version md) = true -> md_data_size md = 0;
  mok_stack : md_user_stack_begin md = kUserStackBase /\ md_user_stack_end_exclusive md = kUserStackEndExclusive;
}.

(** The fields the layout is derived from are unsigned. *)
Definition metadata_typed (md : ExecutableMetadata) : Prop :=
  is_u32 (md_code_size md) /\ is_u32 (md_entry_offset md) /\ is_u32 (md_data_base md) /\ is_u32 (md_data_size md).

(** Arithmetic on the addresses of the memory map. *)
Ltac layout :=
  unfold kBinaryCodeBase, kUserStackBase, kUserStackEndExclusive, kKernelStackBase, kKernelStackEndExclusive,
    kDefaultStackBase, kBioOSStackBase, kUserDataBase, kUserDataEndExclusive, kUserDataBase, kUserDataSize,
    kLowMemoryBase, kLowMemorySize, kDefaultMemorySize, UINT64_MAX in *; words.

Lemma validateExecutableMetadata_spec md :
  metadata_typed md -> validateExecutableMetadata md = Ret tt <-> metadata_ok md.
Proof.
  intros (Hc & He & Hb & Hd). unfold validateExecutableMetadata. cbv zeta. split.
  - intros H. repeat (apply throw_if_bind_inv in H as [? H]). apply throw_if_ret_inv in H. facts.
    repeat match goal with E : ?f md = _ |- _ => rewrite ?E in *; progress revert E end. intros.
    repeat match goal with E : context [u64 ?x] |- _ => rewrite (u64_small x) in E by layout end.
    constructor; try assumption; try layout; try (split; assumption).
    intros Hl. rewrite Hl in *. cbn [andb] in *. facts. assumption.
  - intros [? ? ? Em Ec ? ? Ece ? ? ? Eep [Ed1 Ed2] ? Ede Hl [Es1 Es2]].
    rewrite ?Em, ?Ec, ?Ece, ?Eep, ?Ed1, ?Ed2, ?Ede, ?Es1, ?Es2.
    rewrite !u64_small by layout.
    repeat (apply throw_if_bind_inv; split); try apply throw_if_ret_inv.
    all: try (destruct (isLegacyVersion _ _); [rewrite Hl by reflexivity | idtac]; reflexivity).
    all: bool_goal; try assumption; try layout.
Qed.

(** ** Lemmas: loading a program *)

Ltac decide_refl :=
  cbv beta; repeat match goal with
  | |- context [bool_decide (?x = ?x)] => rewrite (bool_decide_eq_true_2 (x = x)) by reflexivity
  end.

(** The programs that can become a process: little-endian, the code between
    512 and the User stack, the data inside User data memory. *)
Definition loadable (program : BinaryProgram) (sourceName : string) : Prop :=
  sourceName <> EmptyString /\ endianness (header program) = BE_Little /\
  kBinaryCodeBase + Z.of_nat (length (code program)) <= kUserStackBase /\
  data_base (header program) + Z.of_nat (length (data program)) <= kUserDataEndExclusive.

Definition metadata_of (program : BinaryProgram) (sourceName : string) : ExecutableMetadata :=
  let h := header program in
  {| md_source_name := sourceName;
     md_format_major_version := major_version h; md_format_minor_version := minor_version h;
     md_endianness := endianness h; md_memory_size := kDefaultMemorySize;
     md_code_base := kBinaryCodeBase; md_code_size := code_size h;
     md_code_end_exclusive := kBinaryCodeBase + code_size h;
     md_entry_offset := entry_point h; md_entry_point := kBinaryCodeBase + entry_point h;
     md_data_base := data_base h; md_data_size := data_size h;
     md_data_end_exclusive := data_base h + data_size h;
     md_user_data_begin := kUserDataBase; md_user_data_end_exclusive := kUserDataEndExclusive;
     md_user_stack_begin := kUserStackBase; md_user_stack_end_exclusive := kUserStackEndExclusive |}.

Lemma makeMetadata_run p name : program_ok p -> makeMetadata p name = Ret (metadata_of p name).
Proof.
  intros [[_ He Hc Hb Hd _ _ _ _] _ _ _ _]. unfold makeMetadata. cbv zeta.
  repeat (apply throw_if_bind_inv; split; [bool_goal; layout|]). reflexivity.
Qed.

Lemma metadata_of_typed p name : program_ok p -> metadata_typed (metadata_of p name).
Proof. intros [[] _ _ _ _]. repeat split; cbn; words. Qed.

Lemma metadata_of_ok p name : program_ok p -> metadata_ok (metadata_of p name) <-> loadable p name.
Proof.
  intros [[Hv He Hc Hb Hd Ha Hw Hi Hl] Hcode Hdata _ _]. unfold loadable. rewrite <- Hcode, <- Hdata. split.
  - intros []. cbn in *. auto.
  - intros (Hn & Hend & Hstack & Hud). constructor; cbn; try assumption; try reflexivity; try words.
    all: try (split; reflexivity). intros Hleg. apply Hl, Hleg.
Qed.

(** The memory a process starts with: its sections on zeroed memory. *)
Definition initial_memory (p : BinaryProgram) : Memory :=
  loaded_memory p (new_memory kDefaultMemorySize) kBinaryCodeBase.

Definition image_of (p : BinaryProgram) (name : string) : ProcessImage :=
  {| im_metadata := metadata_of p name; im_executable := p; im_memory := initial_memory p;
     im_initial_registers := RegisterFile_reset; im_initial_flags := 0;
     im_initial_pc := kBinaryCodeBase + entry_point (header p); im_initial_sp := kUserStackBase;
     im_initial_privilege := User; im_initial_kernel_stack_pointer := kKernelStackBase |}.

Lemma loadable_placeable p name :
  program_ok p -> loadable p name -> placeable p (new_memory kDefaultMemorySize) kBinaryCodeBase.
Proof.
  intros [[_ _ _ Hb _ _ _ _ _] _ _ _ _] (_ & _ & Hc & Hd). unfold placeable, disjoint_ranges. cbv zeta.
  change (Memory_size (new_memory kDefaultMemorySize)) with 4096. layout.
Qed.

(** The contents of the initial memory. *)
Lemma initial_memory_spec p name :
  program_ok p -> loadable p name ->
  let n := length (code p) in let k := length (data p) in let b := Z.to_nat (data_base (header p)) in
  length (initial_memory p) = Z.to_nat kDefaultMemorySize /\
  (forall i, (i < n)%nat -> initial_memory p !! (Z.to_nat kBinaryCodeBase + i)%nat = code p !! i) /\
  (forall i, (i < k)%nat -> initial_memory p !! (b + i)%nat = data p !! i) /\
  (forall j, (j < Z.to_nat kDefaultMemorySize)%nat -> (j < Z.to_nat kBinaryCodeBase \/ Z.to_nat kBinaryCodeBase + n <= j)%nat ->
             (j < b \/ b + k <= j)%nat -> initial_memory p !! j = Some 0).
Proof.
  intros Hok Hl n k b. pose proof Hok as [[_ _ _ Hb _ _ _ _ _] _ _ _ _].
  destruct Hl as (_ & _ & Hc & Hd). fold n in Hc. fold k in Hd. unfold initial_memory, loaded_memory. fold n k b.
  assert (Hlen : length (new_memory kDefaultMemorySize) = 4096%nat) by reflexivity.
  assert (Hat : forall l i, (i < length l)%nat -> Some (at_ l i) = l !! i).
  { intros l i Hi. destruct (lookup_lt_is_Some_2 l i Hi) as [x Hx]. rewrite Hx. f_equal. apply at_lookup, Hx. }
  subst b. split; [rewrite !store_loop_length; reflexivity|]. split; [|split].
  - intros i Hi. rewrite store_loop_lookup_in by (rewrite ?store_loop_length, ?Hlen; layout). apply Hat, Hi.
  - intros i Hi. rewrite store_loop_lookup_out by layout. rewrite store_loop_lookup_in by (rewrite ?Hlen; layout).
    apply Hat, Hi.
  - intros j Hj H1 H2. rewrite !store_loop_lookup_out by assumption.
    unfold new_memory. apply lookup_replicate_2, Hj.
Qed.

Lemma validate_image_of p name :
  program_ok p -> loadable p name -> validateProcessImage (image_of p name) = Ret tt.
Proof.
  intros Hok Hl. pose proof (initial_memory_spec p name Hok Hl) as (Hlen & Hcode & Hdata & _).
  pose proof Hok as [[_ _ _ Hb _ _ _ _ _] Hc Hd _ _]. pose proof Hl as (_ & _ & Hcs & Hds).
  unfold validateProcessImage. cbv zeta. cbn [im_metadata im_executable im_memory im_initial_registers
    im_initial_flags im_initial_pc im_initial_sp im_initial_privilege im_initial_kernel_stack_pointer image_of].
  rewrite (proj2 (validateExecutableMetadata_spec _ (metadata_of_typed p name Hok)))
    by (apply metadata_of_ok; assumption). rewrite bind_Ret. cbn [metadata_of md_format_major_version
    md_format_minor_version md_endianness md_code_size md_entry_offset md_data_base md_data_size md_memory_size
    md_code_base md_entry_point md_user_stack_begin].
  rewrite Hc, Hd, !Z.eqb_refl.
  repeat (apply throw_if_bind_inv; split;
          [unfold Memory_size; rewrite ?Hlen, ?bool_decide_eq_true_2 by reflexivity; reflexivity|]).
  rewrite !readBytes_ok by (unfold in_range, Memory_size; rewrite ?Hlen; auto; layout).
  rewrite bind_Ret. decide_refl. apply throw_if_bind_inv; split; [reflexivity|].
  rewrite bind_Ret. decide_refl. reflexivity.
Qed.

Lemma loadProgram_run p name :
  program_ok p -> loadable p name -> ProcessImageLoader_loadProgram p name = Ret (image_of p name).
Proof.
  intros Hok Hl. unfold ProcessImageLoader_loadProgram.
  rewrite makeMetadata_run, bind_Ret by exact Hok.
  rewrite (proj2 (validateExecutableMetadata_spec _ (metadata_of_typed p name Hok)))
    by (apply metadata_of_ok; assumption). rewrite bind_Ret. cbn [metadata_of md_code_base].
  rewrite loadIntoMemory_run; [| exact Hok | layout | reflexivity | apply Hl | eapply loadable_placeable; eassumption].
  rewrite bind_Ret. apply throw_if_bind_inv. split.
  - destruct Hok as [? Hc Hd ? ?]. cbn. rewrite Hc, Hd, !Z.eqb_refl. reflexivity.
  - pose proof (validate_image_of p name Hok Hl) as Hv. unfold image_of, initial_memory in Hv.
    cbn [metadata_of md_entry_point md_user_stack_begin]. rewrite Hv. reflexivity.
Qed.

Lemma loadProgram_inv p name image :
  program_ok p -> ProcessImageLoader_loadProgram p name = Ret image -> loadable p name /\ image = image_of p name.
Proof.
  intros Hok H. assert (Hl : loadable p name).
  { unfold ProcessImageLoader_loadProgram in H. rewrite makeMetadata_run, bind_Ret in H by exact Hok.
    apply bind_ret_inv in H as ([] & Hv & _). apply metadata_of_ok; [exact Hok|].
    apply validateExecutableMetadata_spec; [apply metadata_of_typed, Hok | exact Hv]. }
  split; [exact Hl|]. rewrite loadProgram_run in H by assumption. congruence.
Qed.

(** ** Property *)

(** The bytes that load as a process image are exactly the well-formed
    programs of the container format that meet the protected layout
    (little-endian, code between 512 and the User stack, data inside the 512
    bytes of User data).  The image starts in User mode at the entry point with
    zeroed registers and empty stacks, its metadata describes the program, and
    its 4096 bytes hold the code at 512, the data at its base and zero
    elsewhere. *)
Theorem loadFromBytes_correct (bytes : list Z) (sourceName : string) (Hb : byte_list bytes) :
  (forall image, ProcessImageLoader_loadFromBytes bytes sourceName = Ret image <->
     exists p, program_ok p /\ bytes = program_bytes p /\ loadable p sourceName /\ image = image_of p sourceName) /\
  forall image, ProcessImageLoader_loadFromBytes bytes sourceName = Ret image ->
    let p := im_executable image in
    let n := length (code p) in let k := length (data p) in
    let dataBase := Z.to_nat (data_base (header p)) in
    metadata_ok (im_metadata image) /\ validateProcessImage image = Ret tt /\
    im_initial_registers image = replicate kRegisterCount 0 /\
    im_initial_pc image = 512 + entry_point (header p) /\ im_initial_sp image = 2048 /\
    im_initial_kernel_stack_pointer image = 4000 /\ im_initial_privilege image = User /\
    length (im_memory image) = 4096%nat /\
    (forall i, (i < n)%nat -> im_memory image !! (512 + i)%nat = code p !! i) /\
    (forall i, (i < k)%nat -> im_memory image !! (dataBase + i)%nat = data p !! i) /\
    (forall j, (j < 4096)%nat -> (j < 512 \/ 512 + n <= j)%nat -> (j < dataBase \/ dataBase + k <= j)%nat ->
               im_memory image !! j = Some 0).
Proof.
  assert (Hiff : forall image, ProcessImageLoader_loadFromBytes bytes sourceName = Ret image <->
     exists p, program_ok p /\ bytes = program_bytes p /\ loadable p sourceName /\ image = image_of p sourceName).
  { intros image. unfold ProcessImageLoader_loadFromBytes. split.
    - intros H. apply bind_ret_inv in H as (p & Hr & H). apply readFromBytes_inv in Hr as [Hok Hby]; [|exact Hb].
      apply loadProgram_inv in H as [Hl ->]; [|exact Hok]. eauto.
    - intros (p & Hok & -> & Hl & ->). rewrite readFromBytes_ok, bind_Ret by exact Hok. apply loadProgram_run; assumption. }
  split; [exact Hiff|]. intros image H. apply Hiff in H as (p & Hok & _ & Hl & ->). cbv zeta. cbn [im_executable image_of].
  pose proof (initial_memory_spec p sourceName Hok Hl) as (Hlen & Hc & Hd & Hz).
  split; [apply metadata_of_ok; assumption|]. split; [apply validate_image_of; assumption|].
  do 5 (split; [reflexivity|]). auto.
Qed.

Example loadFromBytes_correct_witness :
  byte_list (program_bytes small_program) /\
  ProcessImageLoader_loadFromBytes (program_bytes small_program) "demo.zbin" = Ret (image_of small_program "demo.zbin").
Proof.
  assert (Hb : byte_list (program_bytes small_program)) by (apply (bool_decide_unpack _); vm_compute; exact I).
  split; [exact Hb|]. apply (loadFromBytes_correct _ "demo.zbin" Hb). exists small_program.
  split; [exact small_program_ok|]. split; [reflexivity|]. split; [|reflexivity].
  split; [discriminate|]. split; [reflexivity|]. split; vm_compute; discriminate.
Defined.
