(* ===== verification/Process.v ===== *)
(** * Processes

    Models [ProcessState], [ProcessTermination], [ProcessContext],
    [ProcessAddressSpace] and [ProcessControlBlock] of [src/kernel]: the life
    cycle of a process, the saved registers and stacks with their validation,
    capture and restoration on a CPU, the memory a process owns, and the
    control block that holds them.  The main result: a captured context
    restored on a CPU with the same program gives the interrupted execution
    back. *)

From S2P Require Import Prelude Words ALU Memory ISA Binary Interrupts Devices CPUState Trace CPU Image.
Open Scope Z_scope.

(** ** Process states *)

Inductive ProcessState := Ready | Running | Blocked | Terminated.

#[export] Instance ProcessState_eq_dec : EqDecision ProcessState.
Proof. solve_decision. Defined.

Definition processStateToString (s : ProcessState) : string :=
  match s with
  | Ready => "Ready" | Running => "Running" | Blocked => "Blocked" | Terminated => "Terminated"
  end.

Definition isRunnableProcessState (s : ProcessState) : bool :=
  bool_decide (s = Ready) || bool_decide (s = Running).

Definition isTerminalProcessState (s : ProcessState) : bool := bool_decide (s = Terminated).

Definition canTransitionProcessState (from to : ProcessState) : bool :=
  if bool_decide (from = to) then true
  else match from with
       | Ready => bool_decide (to = Running) || bool_decide (to = Terminated)
       | Running => bool_decide (to = Ready) || bool_decide (to = Blocked) || bool_decide (to = Terminated)
       | Blocked => bool_decide (to = Ready) || bool_decide (to = Terminated)
       | Terminated => false
       end.

Inductive ProcessTerminationKind := NormalExit | CpuFault.

#[export] Instance ProcessTerminationKind_eq_dec : EqDecision ProcessTerminationKind.
Proof. solve_decision. Defined.

Definition processTerminationKindToString (k : ProcessTerminationKind) : string :=
  match k with NormalExit => "NormalExit" | CpuFault => "CpuFault" end.

(** ** Contexts *)

Abbreviation ProcessId := Z.

Record ProcessContext := {
  ctx_pid : ProcessId;
  ctx_registers : list Z;
  ctx_flags : Z;
  ctx_pc : Z;
  ctx_sp : Z;
  ctx_privilege : PrivilegeLevel;
  ctx_has_user_code_range : bool;
  ctx_user_code_begin : Z;
  ctx_user_code_end_exclusive : Z;
  ctx_user_stack_begin : Z;
  ctx_user_stack_end_exclusive : Z;
  ctx_kernel_stack_pointer : Z;
}.

#[export] Instance ProcessContext_eq_dec : EqDecision ProcessContext.
Proof. solve_decision. Defined.

Definition set_ctx_pid (pid : ProcessId) (c : ProcessContext) : ProcessContext :=
  {| ctx_pid := pid; ctx_registers := ctx_registers c; ctx_flags := ctx_flags c; ctx_pc := ctx_pc c;
     ctx_sp := ctx_sp c; ctx_privilege := ctx_privilege c;
     ctx_has_user_code_range := ctx_has_user_code_range c; ctx_user_code_begin := ctx_user_code_begin c;
     ctx_user_code_end_exclusive := ctx_user_code_end_exclusive c;
     ctx_user_stack_begin := ctx_user_stack_begin c;
     ctx_user_stack_end_exclusive := ctx_user_stack_end_exclusive c;
     ctx_kernel_stack_pointer := ctx_kernel_stack_pointer c |}.

(** Every value of the enumeration is valid. *)
Definition validatePrivilege (privilege : PrivilegeLevel) : outcome unit :=
  match privilege with Kernel => mret tt | User => mret tt end.

Definition validateUserCodeRangeShape (c : ProcessContext) : outcome unit :=
  if negb (ctx_has_user_code_range c) then
    throw_if (bool_decide (ctx_privilege c = User))
      (RuntimeError "User process context requires a code range")
  else
    throw_if (ctx_user_code_begin c >=? ctx_user_code_end_exclusive c)
      (RuntimeError "Process context User code range must be non-empty").

Definition validateUserProgramCounter (c : ProcessContext) : outcome unit :=
  throw_if (bool_decide (ctx_privilege c = User)
            && ((ctx_pc c <? ctx_user_code_begin c) || (ctx_pc c >=? ctx_user_code_end_exclusive c)))
    (RuntimeError "Process context PC is outside User code range").

Definition validateUserStackRange (c : ProcessContext) : outcome unit :=
  _ ← throw_if (ctx_user_stack_begin c >=? ctx_user_stack_end_exclusive c)
        (RuntimeError "Process context User stack range must be non-empty");
  _ ← throw_if ((ctx_user_stack_begin c <? kUserStackBase)
                || (ctx_user_stack_end_exclusive c >? kUserStackEndExclusive))
        (RuntimeError "Process context User stack range is outside protected User stack memory");
  _ ← throw_if (negb (ctx_user_stack_begin c mod kStackSlotSize =? 0)
                || negb (ctx_user_stack_end_exclusive c mod kStackSlotSize =? 0))
        (RuntimeError "Process context User stack range is not slot-aligned");
  _ ← throw_if ((ctx_sp c <? ctx_user_stack_begin c) || (ctx_sp c >? ctx_user_stack_end_exclusive c))
        (RuntimeError "Process context SP is outside User stack range");
  throw_if (negb ((ctx_sp c - ctx_user_stack_begin c) mod kStackSlotSize =? 0))
    (RuntimeError "Process context SP is not slot-aligned").

Definition validateKernelStackPointer (c : ProcessContext) : outcome unit :=
  _ ← throw_if (negb (isKernelStackPointer (ctx_kernel_stack_pointer c)))
        (RuntimeError "Process context Kernel SP is outside Kernel stack range");
  throw_if (negb ((ctx_kernel_stack_pointer c - kKernelStackBase) mod kStackSlotSize =? 0))
    (RuntimeError "Process context Kernel SP is not slot-aligned").

Definition requireContextSwitchableCPU (c : CPU) : outcome unit :=
  throw_if (using_kernel_interrupt_stack c)
    (RuntimeError "Cannot capture or restore process context while Kernel interrupt stack is active").

Definition validateProcessContextSnapshot (c : ProcessContext) : outcome unit :=
  _ ← throw_if (ctx_pid c =? 0) (RuntimeError "Process context PID must be non-zero");
  _ ← validatePrivilege (ctx_privilege c);
  _ ← validateUserCodeRangeShape c;
  _ ← validateUserStackRange c;
  validateKernelStackPointer c.

Definition validateProcessContext (c : ProcessContext) : outcome unit :=
  _ ← validateProcessContextSnapshot c;
  validateUserProgramCounter c.

Definition validateProcessContextForCPU (context : ProcessContext) (c : CPU) : outcome unit :=
  _ ← validateProcessContext context;
  if ctx_has_user_code_range context
  then validateUserCodeRange c (ctx_user_code_begin context) (ctx_user_code_end_exclusive context)
  else mret tt.

(** [static_cast<RegisterName>(index)] for [index] below the register count. *)
Definition register_names : list RegisterName := [R0; R1; R2; R3; R4; R5; R6; R7].

Definition captureProcessContextSnapshot (pid : ProcessId) (c : CPU) : outcome ProcessContext :=
  _ ← requireContextSwitchableCPU c;
  values ← mapM (RegisterFile_get (registers (state c))) register_names;
  let context :=
    {| ctx_pid := pid; ctx_registers := values; ctx_flags := flags (state c); ctx_pc := pc (state c);
       ctx_sp := sp (state c); ctx_privilege := privilege_level (state c);
       ctx_has_user_code_range := has_user_code_range c;
       ctx_user_code_begin := if has_user_code_range c then user_code_begin c else 0;
       ctx_user_code_end_exclusive := if has_user_code_range c then user_code_end_exclusive c else 0;
       ctx_user_stack_begin := kUserStackBase; ctx_user_stack_end_exclusive := kUserStackEndExclusive;
       ctx_kernel_stack_pointer := kernel_stack_pointer c |} in
  _ ← validateProcessContextSnapshot context;
  mret context.

Definition captureProcessContext (pid : ProcessId) (c : CPU) : outcome ProcessContext :=
  context ← captureProcessContextSnapshot pid c;
  _ ← validateProcessContext context;
  mret context.

(** A call of a mutating member function of the CPU that can throw. *)
Definition cpu_try (f : CPU -> outcome CPU) : M CPU unit := update (fun c => c) (fun c' _ => c') f.
Definition cpu_state (f : CPUState -> CPUState) : M CPU unit := modify (fun c => set_state (f (state c)) c).

Fixpoint restore_registers (names : list RegisterName) (values : list Z) : M CPU unit :=
  match names with
  | [] => mret tt
  | name :: names =>
      _ ← update (fun c => registers (state c)) (fun regs c => set_state (set_registers regs (state c)) c)
            (fun regs => RegisterFile_set regs name (at_ values (register_raw name)));
      restore_registers names values
  end.

Definition restoreProcessContext (context : ProcessContext) : M CPU unit :=
  c ← get;
  _ ← lift (validateProcessContextForCPU context c);
  _ ← lift (requireContextSwitchableCPU c);
  _ ← (if ctx_has_user_code_range context
       then cpu_try (setUserCodeRange (ctx_user_code_begin context) (ctx_user_code_end_exclusive context))
       else modify clearUserCodeRange);
  _ ← cpu_try (setKernelStackPointer (ctx_kernel_stack_pointer context));
  _ ← restore_registers register_names (ctx_registers context);
  _ ← cpu_state (set_flags (ctx_flags context));
  _ ← cpu_state (setPc (ctx_pc context));
  _ ← cpu_state (setSp (ctx_sp context));
  _ ← cpu_state (setPrivilegeLevel (ctx_privilege context));
  _ ← cpu_state CPUState_clearError;
  cpu_state (setHalted false).

(** ** Address spaces *)

Record ProcessAddressSpace := {
  as_memory : Memory;
  as_executable_metadata : option ExecutableMetadata;
  as_executable : option BinaryProgram;
}.

#[export] Instance ProcessAddressSpace_eq_dec : EqDecision ProcessAddressSpace.
Proof. solve_decision. Defined.

Definition hasExecutableImage (a : ProcessAddressSpace) : bool := is_some (as_executable a).

(** The last part of [validate], with the optionals read. *)
Definition validateExecutableImage (mem : Memory) (md : ExecutableMetadata) (program : BinaryProgram)
    : outcome unit :=
  _ ← validateExecutableMetadata md;
  let h := header program in
  _ ← throw_if (negb (major_version h =? md_format_major_version md)
                || negb (minor_version h =? md_format_minor_version md)
                || negb (bool_decide (endianness h = md_endianness md)))
        (RuntimeError "Process address space executable header does not match metadata");
  _ ← throw_if (negb (code_size h =? md_code_size md)
                || negb (Z.of_nat (length (code program)) =? md_code_size md))
        (RuntimeError "Process address space executable code size does not match metadata");
  _ ← throw_if (negb (entry_point h =? md_entry_offset md))
        (RuntimeError "Process address space executable entry point does not match metadata");
  _ ← throw_if (negb (data_base h =? md_data_base md) || negb (data_size h =? md_data_size md)
                || negb (Z.of_nat (length (data program)) =? md_data_size md))
        (RuntimeError "Process address space executable data section does not match metadata");
  codeBytes ← Memory_readBytes mem (md_code_base md) (md_code_size md);
  throw_if (negb (bool_decide (codeBytes = code program)))
    (RuntimeError "Process address space code memory was modified").

Definition ProcessAddressSpace_validate (a : ProcessAddressSpace) : outcome unit :=
  _ ← throw_if (negb (Memory_size (as_memory a) =? kDefaultMemorySize))
        (RuntimeError "Process address space memory size does not match the protected memory layout");
  _ ← throw_if (negb (eqb (is_some (as_executable_metadata a)) (is_some (as_executable a))))
        (RuntimeError "Process address space executable metadata is incomplete");
  match as_executable_metadata a, as_executable a with
  | Some md, Some program => validateExecutableImage (as_memory a) md program
  | _, _ => mret tt
  end.

(** The three constructors. *)
Definition new_ProcessAddressSpace : outcome ProcessAddressSpace :=
  let a := {| as_memory := new_memory kDefaultMemorySize; as_executable_metadata := None; as_executable := None |} in
  _ ← ProcessAddressSpace_validate a; mret a.

Definition ProcessAddressSpace_of_memory (mem : Memory) : outcome ProcessAddressSpace :=
  let a := {| as_memory := mem; as_executable_metadata := None; as_executable := None |} in
  _ ← ProcessAddressSpace_validate a; mret a.

Definition ProcessAddressSpace_of_image (image : ProcessImage) : outcome ProcessAddressSpace :=
  let a := {| as_memory := im_memory image; as_executable_metadata := Some (im_metadata image);
              as_executable := Some (im_executable image) |} in
  _ ← validateProcessImage image;
  _ ← ProcessAddressSpace_validate a;
  mret a.

Definition executableMetadata (a : ProcessAddressSpace) : outcome ExecutableMetadata :=
  match as_executable_metadata a with
  | Some md => if hasExecutableImage a then mret md
               else throw (RuntimeError "Process address space has no executable metadata")
  | None => throw (RuntimeError "Process address space has no executable metadata")
  end.

Definition executable (a : ProcessAddressSpace) : outcome BinaryProgram :=
  match as_executable a with
  | Some program => mret program
  | None => throw (RuntimeError "Process address space has no executable")
  end.

Definition replaceMemory (mem : Memory) (a : ProcessAddressSpace) : outcome ProcessAddressSpace :=
  let a' := {| as_memory := mem; as_executable_metadata := as_executable_metadata a;
               as_executable := as_executable a |} in
  _ ← ProcessAddressSpace_validate a'; mret a'.

Definition ProcessAddressSpace_activate (a : ProcessAddressSpace) : M CPU unit :=
  staged (
    _ ← lift (ProcessAddressSpace_validate a);
    _ ← match as_executable a with
        | Some program =>
            trace ← gets trace_logger;
            _ ← loadBinaryProgram program;
            modify (set_trace trace)
        | None => mret tt
        end;
    cpu_state (set_memory (as_memory a))).

(** ** Control blocks *)

Record ProcessControlBlock := {
  pcb_context : ProcessContext;
  pcb_address_space : ProcessAddressSpace;
  pcb_state : ProcessState;
  pcb_has_exit_code : bool;
  pcb_exit_code : Z;
  pcb_termination_kind : ProcessTerminationKind;
  pcb_termination_message : string;
}.

#[export] Instance ProcessControlBlock_eq_dec : EqDecision ProcessControlBlock.
Proof. solve_decision. Defined.

Definition set_context (context : ProcessContext) (a : ProcessAddressSpace) (p : ProcessControlBlock)
    : ProcessControlBlock :=
  {| pcb_context := context; pcb_address_space := a; pcb_state := pcb_state p;
     pcb_has_exit_code := pcb_has_exit_code p; pcb_exit_code := pcb_exit_code p;
     pcb_termination_kind := pcb_termination_kind p; pcb_termination_message := pcb_termination_message p |}.

Definition set_process_state (s : ProcessState) (p : ProcessControlBlock) : ProcessControlBlock :=
  {| pcb_context := pcb_context p; pcb_address_space := pcb_address_space p; pcb_state := s;
     pcb_has_exit_code := pcb_has_exit_code p; pcb_exit_code := pcb_exit_code p;
     pcb_termination_kind := pcb_termination_kind p; pcb_termination_message := pcb_termination_message p |}.

Definition new_ProcessControlBlock (context : ProcessContext) (a : ProcessAddressSpace) (s : ProcessState)
    : outcome ProcessControlBlock :=
  _ ← validateProcessContext context;
  _ ← throw_if (bool_decide (s = Terminated)) (RuntimeError "ProcessControlBlock cannot start Terminated");
  mret {| pcb_context := context; pcb_address_space := a; pcb_state := s; pcb_has_exit_code := false;
          pcb_exit_code := 0; pcb_termination_kind := NormalExit; pcb_termination_message := EmptyString |}.

Definition new_ProcessControlBlock_default (context : ProcessContext) (s : ProcessState)
    : outcome ProcessControlBlock :=
  a ← new_ProcessAddressSpace;
  new_ProcessControlBlock context a s.

Definition ProcessControlBlock_pid (p : ProcessControlBlock) : ProcessId := ctx_pid (pcb_context p).

Definition ProcessControlBlock_exitCode (p : ProcessControlBlock) : outcome Z :=
  _ ← throw_if (negb (pcb_has_exit_code p)) (RuntimeError "Process has no exit code");
  mret (pcb_exit_code p).

Definition ProcessControlBlock_terminationKind (p : ProcessControlBlock) : outcome ProcessTerminationKind :=
  _ ← throw_if (negb (pcb_has_exit_code p)) (RuntimeError "Process has no termination metadata");
  mret (pcb_termination_kind p).

Definition ProcessControlBlock_terminationMessage (p : ProcessControlBlock) : outcome string :=
  _ ← throw_if (negb (pcb_has_exit_code p)) (RuntimeError "Process has no termination metadata");
  mret (pcb_termination_message p).

(** The mutating member functions: on a throw the block is unchanged. *)
Definition replaceContext (context : ProcessContext) (p : ProcessControlBlock) : outcome ProcessControlBlock :=
  _ ← throw_if (bool_decide (pcb_state p = Terminated))
        (RuntimeError "Cannot update a terminated process context");
  _ ← validateProcessContext context;
  _ ← throw_if (negb (ctx_pid context =? ctx_pid (pcb_context p)))
        (RuntimeError "Process context PID mismatch");
  mret (set_context context (pcb_address_space p) p).

Definition replaceRuntimeState (context : ProcessContext) (mem : Memory) (p : ProcessControlBlock)
    : outcome ProcessControlBlock :=
  _ ← throw_if (bool_decide (pcb_state p = Terminated))
        (RuntimeError "Cannot update a terminated process state");
  _ ← validateProcessContext context;
  _ ← throw_if (negb (ctx_pid context =? ctx_pid (pcb_context p)))
        (RuntimeError "Process runtime state PID mismatch");
  a ← replaceMemory mem (pcb_address_space p);
  mret (set_context context a p).

Definition replaceFinalContext (context : ProcessContext) (p : ProcessControlBlock) : outcome ProcessControlBlock :=
  _ ← throw_if (bool_decide (pcb_state p = Terminated))
        (RuntimeError "Cannot update a terminated process context");
  _ ← validateProcessContextSnapshot context;
  _ ← throw_if (negb (ctx_pid context =? ctx_pid (pcb_context p)))
        (RuntimeError "Process final context PID mismatch");
  mret (set_context context (pcb_address_space p) p).

Definition replaceFinalState (context : ProcessContext) (mem : Memory) (p : ProcessControlBlock)
    : outcome ProcessControlBlock :=
  _ ← throw_if (bool_decide (pcb_state p = Terminated))
        (RuntimeError "Cannot update a terminated process state");
  _ ← validateProcessContextSnapshot context;
  _ ← throw_if (negb (ctx_pid context =? ctx_pid (pcb_context p)))
        (RuntimeError "Process final state PID mismatch");
  a ← replaceMemory mem (pcb_address_space p);
  mret (set_context context a p).

Definition transitionTo (s : ProcessState) (p : ProcessControlBlock) : outcome ProcessControlBlock :=
  _ ← throw_if (bool_decide (s = Terminated)) (RuntimeError "Use terminate() to terminate a process");
  _ ← throw_if (negb (canTransitionProcessState (pcb_state p) s))
        (RuntimeError ("Invalid process state transition: " +:+ processStateToString (pcb_state p)
                       +:+ " -> " +:+ processStateToString s));
  mret (set_process_state s p).

Definition terminate (exitCode : Z) (kind : ProcessTerminationKind) (message : string) (p : ProcessControlBlock)
    : outcome ProcessControlBlock :=
  _ ← throw_if (bool_decide (pcb_state p = Terminated)) (RuntimeError "Process is already terminated");
  _ ← throw_if (negb (canTransitionProcessState (pcb_state p) Terminated))
        (RuntimeError "Process cannot transition to Terminated");
  mret {| pcb_context := pcb_context p; pcb_address_space := pcb_address_space p; pcb_state := Terminated;
          pcb_has_exit_code := true; pcb_exit_code := exitCode; pcb_termination_kind := kind;
          pcb_termination_message := message |}.

(** ** Lemmas: validation *)

(** The contexts [validateProcessContextSnapshot] accepts. *)
Record snapshot_ok (c : ProcessContext) : Prop := {
  cok_pid : ctx_pid c <> 0;
  cok_user : ctx_privilege c = User -> ctx_has_user_code_range c = true;
  cok_code : ctx_has_user_code_range c = true -> ctx_user_code_begin c < ctx_user_code_end_exclusive c;
  cok_stack : kUserStackBase <= ctx_user_stack_begin c < ctx_user_stack_end_exclusive c;
  cok_stack_end : ctx_user_stack_end_exclusive c <= kUserStackEndExclusive;
  cok_aligned : ctx_user_stack_begin c mod kStackSlotSize = 0 /\ ctx_user_stack_end_exclusive c mod kStackSlotSize = 0;
  cok_sp : ctx_user_stack_begin c <= ctx_sp c <= ctx_user_stack_end_exclusive c;
  cok_sp_aligned : (ctx_sp c - ctx_user_stack_begin c) mod kStackSlotSize = 0;
  cok_kernel : kKernelStackBase <= ctx_kernel_stack_pointer c <= kKernelStackEndExclusive;
  cok_kernel_aligned : (ctx_kernel_stack_pointer c - kKernelStackBase) mod kStackSlotSize = 0;
}.

(** A User context also needs its program counter inside its code. *)
Definition context_ok (c : ProcessContext) : Prop :=
  snapshot_ok c /\
  (ctx_privilege c = User -> ctx_user_code_begin c <= ctx_pc c < ctx_user_code_end_exclusive c).

Lemma validateUserCodeRangeShape_spec c :
  validateUserCodeRangeShape c = Ret tt <->
  (ctx_privilege c = User -> ctx_has_user_code_range c = true) /\
  (ctx_has_user_code_range c = true -> ctx_user_code_begin c < ctx_user_code_end_exclusive c).
Proof.
  unfold validateUserCodeRangeShape. destruct (ctx_has_user_code_range c); cbn [negb].
  - rewrite throw_if_ret_inv. bool_goal. intuition.
  - rewrite throw_if_ret_inv. bool_goal. intuition; discriminate.
Qed.

Lemma validateUserStackRange_spec c :
  validateUserStackRange c = Ret tt <->
  kUserStackBase <= ctx_user_stack_begin c < ctx_user_stack_end_exclusive c /\
  ctx_user_stack_end_exclusive c <= kUserStackEndExclusive /\
  (ctx_user_stack_begin c mod kStackSlotSize = 0 /\ ctx_user_stack_end_exclusive c mod kStackSlotSize = 0) /\
  ctx_user_stack_begin c <= ctx_sp c <= ctx_user_stack_end_exclusive c /\
  (ctx_sp c - ctx_user_stack_begin c) mod kStackSlotSize = 0.
Proof.
  unfold validateUserStackRange. rewrite !throw_if_bind_inv, throw_if_ret_inv. bool_goal. intuition lia.
Qed.

Lemma validateKernelStackPointer_spec c :
  validateKernelStackPointer c = Ret tt <->
  kKernelStackBase <= ctx_kernel_stack_pointer c <= kKernelStackEndExclusive /\
  (ctx_kernel_stack_pointer c - kKernelStackBase) mod kStackSlotSize = 0.
Proof.
  unfold validateKernelStackPointer, isKernelStackPointer. rewrite throw_if_bind_inv, throw_if_ret_inv.
  bool_goal. intuition lia.
Qed.

Lemma validateProcessContextSnapshot_spec c : validateProcessContextSnapshot c = Ret tt <-> snapshot_ok c.
Proof.
  unfold validateProcessContextSnapshot.
  rewrite throw_if_bind_inv, !unit_bind_inv, validateUserCodeRangeShape_spec, validateUserStackRange_spec,
    validateKernelStackPointer_spec. bool_goal.
  split; [intros (? & _ & [? ?] & (? & ? & ? & ? & ?) & ? & ?); constructor; assumption | intros []].
  destruct (ctx_privilege c); repeat split; tauto || lia.
Qed.

Lemma validateProcessContext_spec c : validateProcessContext c = Ret tt <-> context_ok c.
Proof.
  unfold validateProcessContext, context_ok, validateUserProgramCounter.
  rewrite unit_bind_inv, validateProcessContextSnapshot_spec, throw_if_ret_inv.
  destruct (ctx_privilege c).
  - rewrite bool_decide_eq_false_2 by discriminate. cbn [andb]. intuition discriminate.
  - rewrite bool_decide_eq_true_2 by reflexivity. cbn [andb]. bool_goal. intuition lia.
Qed.

(** ** Lemmas: capture and restoration *)

Lemma registers_snapshot regs :
  length regs = kRegisterCount -> mapM (RegisterFile_get regs) register_names = Ret regs.
Proof. intros H. do 9 (destruct regs; [discriminate H || reflexivity|]). discriminate H. Qed.

Lemma restore_registers_run regs c :
  length (registers (state c)) = kRegisterCount -> length regs = kRegisterCount ->
  restore_registers register_names regs c = (Ret tt, set_state (set_registers regs (state c)) c).
Proof.
  destruct c as [[rs] ]. cbn [state registers]. intros H H'.
  do 9 (destruct rs; [discriminate H || idtac|]); [|discriminate H].
  do 9 (destruct regs; [discriminate H' || idtac|]); [reflexivity | discriminate H'].
Qed.

(** What [captureProcessContextSnapshot] reads. *)
Definition context_of (pid : ProcessId) (c : CPU) : ProcessContext :=
  {| ctx_pid := pid; ctx_registers := registers (state c); ctx_flags := flags (state c); ctx_pc := pc (state c);
     ctx_sp := sp (state c); ctx_privilege := privilege_level (state c);
     ctx_has_user_code_range := has_user_code_range c;
     ctx_user_code_begin := if has_user_code_range c then user_code_begin c else 0;
     ctx_user_code_end_exclusive := if has_user_code_range c then user_code_end_exclusive c else 0;
     ctx_user_stack_begin := kUserStackBase; ctx_user_stack_end_exclusive := kUserStackEndExclusive;
     ctx_kernel_stack_pointer := kernel_stack_pointer c |}.

Lemma captureSnapshot_spec pid c ctx :
  length (registers (state c)) = kRegisterCount ->
  captureProcessContextSnapshot pid c = Ret ctx <->
  using_kernel_interrupt_stack c = false /\ ctx = context_of pid c /\ snapshot_ok ctx.
Proof.
  intros Hl. unfold captureProcessContextSnapshot, requireContextSwitchableCPU.
  rewrite throw_if_bind_inv, registers_snapshot, bind_Ret by exact Hl. cbv zeta. fold (context_of pid c).
  rewrite unit_bind_inv, validateProcessContextSnapshot_spec.
  split; [intros (? & ? & [= <-]); auto | intros (? & -> & ?); auto].
Qed.

Lemma capture_spec pid c ctx :
  length (registers (state c)) = kRegisterCount ->
  captureProcessContext pid c = Ret ctx <->
  using_kernel_interrupt_stack c = false /\ ctx = context_of pid c /\ context_ok ctx.
Proof.
  intros Hl. unfold captureProcessContext. split.
  - intros H. apply bind_ret_inv in H as (x & Hx & H). apply unit_bind_inv in H as [Hv [= ->]].
    apply captureSnapshot_spec in Hx as (? & -> & ?); [|exact Hl].
    apply validateProcessContext_spec in Hv. auto.
  - intros (Hu & -> & Hok). rewrite (proj2 (captureSnapshot_spec pid c _ Hl)) by (split; [exact Hu | split; [reflexivity | apply Hok]]).
    rewrite bind_Ret. apply unit_bind_inv. split; [apply validateProcessContext_spec, Hok | reflexivity].
Qed.

(** The CPU that resumes a context: its registers, program counter, stacks,
    privilege and code range, running and without an error; memory, program,
    devices and trace are the CPU's own. *)
Definition resumed (ctx : ProcessContext) (c : CPU) : CPU :=
  let s := state c in
  let range := ctx_has_user_code_range ctx in
  set_kernel_stack_pointer (ctx_kernel_stack_pointer ctx)
    (set_user_code_range range (if range then ctx_user_code_begin ctx else 0)
       (if range then ctx_user_code_end_exclusive ctx else 0)
       (set_state {| registers := ctx_registers ctx; memory := memory s; flags := ctx_flags ctx;
                     privilege_level := ctx_privilege ctx; pc := ctx_pc ctx; sp := ctx_sp ctx;
                     halted := false; has_error := false; error_message := EmptyString |} c)).

Definition range_fits (ctx : ProcessContext) (c : CPU) : Prop :=
  ctx_has_user_code_range ctx = true ->
  validateUserCodeRange c (ctx_user_code_begin ctx) (ctx_user_code_end_exclusive ctx) = Ret tt.

Lemma validateForCPU_spec ctx c :
  validateProcessContextForCPU ctx c = Ret tt <-> context_ok ctx /\ range_fits ctx c.
Proof.
  unfold validateProcessContextForCPU, range_fits. rewrite unit_bind_inv, validateProcessContext_spec.
  destruct (ctx_has_user_code_range ctx); intuition discriminate.
Qed.

(** Restoring succeeds exactly on a valid context that fits the loaded code. *)
Lemma restore_run ctx c :
  length (registers (state c)) = kRegisterCount -> length (ctx_registers ctx) = kRegisterCount ->
  using_kernel_interrupt_stack c = false -> context_ok ctx -> range_fits ctx c ->
  restoreProcessContext ctx c = (Ret tt, resumed ctx c).
Proof.
  intros Hc Hr Hu Hok Hf. unfold restoreProcessContext.
  rewrite bind_run. unfold get. rewrite bind_run. unfold lift at 1.
  rewrite (proj2 (validateForCPU_spec ctx c) (conj Hok Hf)). rewrite bind_run. unfold lift, requireContextSwitchableCPU.
  rewrite Hu. cbn [throw_if mret outcome_ret].
  assert (Hk : requireStackPointerInRange (ctx_kernel_stack_pointer ctx) kKernelStackBase kKernelStackEndExclusive = Ret tt).
  { destruct Hok as [[_ _ _ _ _ _ _ _ Hk Ha] _]. unfold requireStackPointerInRange.
    rewrite (proj2 (Z.ltb_ge _ _)) by lia. rewrite Ha, Z.gtb_ltb, (proj2 (Z.ltb_ge _ _)) by lia. reflexivity. }
  pose proof (restore_registers_run (ctx_registers ctx)) as Hregs.
  unfold range_fits in Hf. unfold resumed. destruct (ctx_has_user_code_range ctx).
  - rewrite bind_run. unfold cpu_try at 1, update, setUserCodeRange. rewrite Hf, bind_Ret by reflexivity.
    cbn [mret outcome_ret]. rewrite bind_run. unfold cpu_try, update, setKernelStackPointer.
    cbn [set_user_code_range using_kernel_interrupt_stack] in *. rewrite Hu, Hk. cbn [mbind outcome_bind mret outcome_ret].
    rewrite bind_run, Hregs by assumption. reflexivity.
  - rewrite bind_run. unfold modify at 1. rewrite bind_run. unfold cpu_try, update, setKernelStackPointer, clearUserCodeRange.
    cbn [set_user_code_range using_kernel_interrupt_stack] in *. rewrite Hu, Hk. cbn [mbind outcome_bind mret outcome_ret].
    rewrite bind_run, Hregs by assumption. reflexivity.
Qed.

(** Past its two checks nothing throws, so restoring is all or nothing. *)
Lemma restore_cases ctx c :
  length (registers (state c)) = kRegisterCount -> length (ctx_registers ctx) = kRegisterCount ->
  (using_kernel_interrupt_stack c = false /\ context_ok ctx /\ range_fits ctx c /\
   restoreProcessContext ctx c = (Ret tt, resumed ctx c)) \/
  exists e, restoreProcessContext ctx c = (Throw e, c).
Proof.
  intros Hc Hr. destruct (validateProcessContextForCPU ctx c) as [[]|e] eqn:Hv.
  2:{ right. exists e. unfold restoreProcessContext, get. rewrite !bind_run. unfold lift at 1. rewrite Hv. reflexivity. }
  destruct (using_kernel_interrupt_stack c) eqn:Hu.
  - right. eexists. unfold restoreProcessContext, get. rewrite !bind_run. unfold lift at 1. rewrite Hv, bind_run.
    unfold lift, requireContextSwitchableCPU. rewrite Hu. reflexivity.
  - left. apply validateForCPU_spec in Hv as [Hok Hf]. auto using restore_run.
Qed.

(** Two CPUs with the same loaded code. *)
Definition same_code (c c' : CPU) : Prop :=
  has_binary_program c = has_binary_program c' /\ binary_code_base c = binary_code_base c' /\
  binary_code_size c = binary_code_size c' /\ program c = program c'.

Lemma validateUserCodeRange_same c c' b e :
  same_code c c' -> validateUserCodeRange c b e = validateUserCodeRange c' b e.
Proof. intros (H1 & H2 & H3 & H4). unfold validateUserCodeRange. rewrite H1, H2, H3, H4. reflexivity. Qed.

Lemma context_of_resumed pid c c' :
  context_of pid (resumed (context_of pid c) c') = context_of pid c.
Proof. unfold context_of, resumed. cbn. destruct (has_user_code_range c); reflexivity. Qed.

(** ** Property *)

(** Context switching is transparent.  What [captureProcessContext] saves
    of an interrupted CPU, [restoreProcessContext] puts back on any CPU with
    the same loaded code: the registers, FLAGS, program counter, stack
    pointers, privilege and code range are those of the interrupted CPU, the
    halt and error status is cleared, nothing else changes, and capturing again
    gives the same context.  Capture succeeds exactly outside the Kernel
    interrupt stack on a valid context, and a restoration that throws leaves
    the CPU as it was. *)
Theorem context_switch_roundtrip (pid : ProcessId) (c c' : CPU)
    (Hl : length (registers (state c)) = kRegisterCount) (Hl' : length (registers (state c')) = kRegisterCount) :
  (forall ctx, captureProcessContext pid c = Ret ctx <->
     using_kernel_interrupt_stack c = false /\ ctx = context_of pid c /\ context_ok ctx) /\
  (forall ctx, captureProcessContext pid c = Ret ctx -> range_fits ctx c -> same_code c c' ->
     using_kernel_interrupt_stack c' = false ->
     restoreProcessContext ctx c' = (Ret tt, resumed ctx c') /\
     captureProcessContext pid (resumed ctx c') = Ret ctx) /\
  (forall ctx e c'', length (ctx_registers ctx) = kRegisterCount ->
     restoreProcessContext ctx c' = (Throw e, c'') -> c'' = c').
Proof.
  split; [intros ctx; apply capture_spec, Hl|]. split.
  - intros ctx H Hf Hs Hu. apply capture_spec in H as (_ & -> & Hok); [|exact Hl]. split.
    + apply restore_run; try assumption. intros Hr. rewrite <- (validateUserCodeRange_same c) by exact Hs. apply Hf, Hr.
    + apply capture_spec; [exact Hl|]. split; [exact Hu|]. split; [symmetry; apply context_of_resumed | exact Hok].
  - intros ctx e c'' Hr H. destruct (restore_cases ctx c' Hl' Hr) as [(_ & _ & _ & E)|[e' E]]; congruence.
Qed.

(** A CPU with a program loaded, in User mode at its entry point. *)
Definition user_cpu : CPU :=
  let c := final (loadBinaryProgram small_program) new_CPU in
  set_state (setPrivilegeLevel User (set_registers [1; 2; 3; 4; 5; 6; 7; 8] (state c))) c.

Example context_switch_roundtrip_witness :
  captureProcessContext 7 user_cpu = Ret (context_of 7 user_cpu) /\
  restoreProcessContext (context_of 7 user_cpu) (final (loadBinaryProgram small_program) new_CPU) =
    (Ret tt, resumed (context_of 7 user_cpu) (final (loadBinaryProgram small_program) new_CPU)).
Proof.
  destruct (context_switch_roundtrip 7 user_cpu (final (loadBinaryProgram small_program) new_CPU)) as (_ & H & _);
    [vm_compute; reflexivity | vm_compute; reflexivity |].
  assert (Hcap : captureProcessContext 7 user_cpu = Ret (context_of 7 user_cpu)) by (vm_compute; reflexivity).
  split; [exact Hcap|]. apply (H _ Hcap); vm_compute; [intros _; reflexivity | repeat split | reflexivity].
Defined.
