(* ===== verification/ProcTable.v ===== *)
(** * The process table

    Models [src/kernel/ProcessTable.cpp]: the map from process identifiers to
    control blocks, the next identifier to allocate and the identifier of the
    running process (0 for none).  The main results: every operation either
    throws and changes nothing or keeps the table's invariant and moves one
    process along an edge of the process life cycle; identifiers are never
    reused and a terminated process never changes again. *)

From stdpp Require Import sorting.
From S2P Require Import Prelude Words ALU Memory ISA Binary Interrupts Devices CPUState Trace CPU Image Process.
Open Scope Z_scope.

(** [std::map] iterates in the order of its keys. *)
Record ProcessTable := {
  processes : gmap ProcessId ProcessControlBlock;
  next_pid : ProcessId;
  running_pid : ProcessId;
}.

#[export] Instance ProcessTable_eq_dec : EqDecision ProcessTable.
Proof. solve_decision. Defined.

Definition new_ProcessTable : ProcessTable := {| processes := ∅; next_pid := 1; running_pid := 0 |}.

Definition set_process (pid : ProcessId) (p : ProcessControlBlock) (t : ProcessTable) : ProcessTable :=
  {| processes := <[pid := p]> (processes t); next_pid := next_pid t; running_pid := running_pid t |}.
Definition set_next_pid (pid : ProcessId) (t : ProcessTable) : ProcessTable :=
  {| processes := processes t; next_pid := pid; running_pid := running_pid t |}.
Definition set_running_pid (pid : ProcessId) (t : ProcessTable) : ProcessTable :=
  {| processes := processes t; next_pid := next_pid t; running_pid := pid |}.

(** ** Queries *)

Definition ProcessTable_empty (t : ProcessTable) : bool := bool_decide (processes t = ∅).
Definition ProcessTable_size (t : ProcessTable) : nat := size (processes t).
Definition ProcessTable_contains (t : ProcessTable) (pid : ProcessId) : bool := is_some (processes t !! pid).

Definition requireProcess (pid : ProcessId) (t : ProcessTable) : outcome ProcessControlBlock :=
  match processes t !! pid with
  | Some p => mret p
  | None => throw (RuntimeError ("Unknown process PID: " +:+ pretty pid))
  end.

Definition processIds (t : ProcessTable) : list ProcessId := merge_sort Z.le (elements (dom (processes t))).

Definition processIdsInState (s : ProcessState) (t : ProcessTable) : list ProcessId :=
  filter (fun pid => pcb_state <$> processes t !! pid = Some s) (processIds t).

Definition hasRunningProcess (t : ProcessTable) : bool := negb (running_pid t =? 0).

Definition runningProcessId (t : ProcessTable) : outcome ProcessId :=
  _ ← throw_if (negb (hasRunningProcess t)) (RuntimeError "Process table has no Running process");
  mret (running_pid t).

Definition requireNextProcessId (t : ProcessTable) : outcome ProcessId :=
  _ ← throw_if (next_pid t =? 0) (RuntimeError "Process ID space exhausted");
  mret (next_pid t).

(** ** Operations *)

Definition commitAllocatedProcessId (pid : ProcessId) (t : ProcessTable) : ProcessTable :=
  if pid =? UINT32_MAX then set_next_pid 0 t else set_next_pid (u32 (pid + 1)) t.

Definition contextFromImage (pid : ProcessId) (image : ProcessImage) : outcome ProcessContext :=
  _ ← validateProcessImage image;
  let md := im_metadata image in
  let context :=
    {| ctx_pid := pid; ctx_registers := im_initial_registers image; ctx_flags := im_initial_flags image;
       ctx_pc := im_initial_pc image; ctx_sp := im_initial_sp image; ctx_privilege := im_initial_privilege image;
       ctx_has_user_code_range := true; ctx_user_code_begin := md_code_base md;
       ctx_user_code_end_exclusive := md_code_end_exclusive md; ctx_user_stack_begin := md_user_stack_begin md;
       ctx_user_stack_end_exclusive := md_user_stack_end_exclusive md;
       ctx_kernel_stack_pointer := im_initial_kernel_stack_pointer image |} in
  _ ← validateProcessContext context;
  mret context.

(** The end of the three [createProcess] overloads. *)
Definition emplaceProcess (pid : ProcessId) (p : ProcessControlBlock) : M ProcessTable ProcessId :=
  t ← get;
  _ ← throw_if (ProcessTable_contains t pid) (RuntimeError "Process table PID collision");
  _ ← modify (set_process pid p);
  _ ← modify (commitAllocatedProcessId pid);
  mret pid.

Definition createProcess (context : ProcessContext) : M ProcessTable ProcessId :=
  t ← get;
  pid ← lift (requireNextProcessId t);
  let context := set_ctx_pid pid context in
  _ ← lift (validateProcessContext context);
  p ← lift (new_ProcessControlBlock_default context Ready);
  emplaceProcess pid p.

Definition createProcess_cpu (c : CPU) : M ProcessTable ProcessId :=
  t ← get;
  pid ← lift (requireNextProcessId t);
  context ← lift (captureProcessContext pid c);
  a ← lift (ProcessAddressSpace_of_memory (memory (state c)));
  p ← lift (new_ProcessControlBlock context a Ready);
  emplaceProcess pid p.

Definition createProcess_image (image : ProcessImage) : M ProcessTable ProcessId :=
  t ← get;
  pid ← lift (requireNextProcessId t);
  context ← lift (contextFromImage pid image);
  a ← lift (ProcessAddressSpace_of_image image);
  p ← lift (new_ProcessControlBlock context a Ready);
  emplaceProcess pid p.

(** A call of a mutating member function of the block [requireProcess] refers to. *)
Definition on_process (pid : ProcessId) (f : ProcessControlBlock -> outcome ProcessControlBlock)
    : M ProcessTable unit :=
  t ← get;
  p ← lift (requireProcess pid t);
  p' ← lift (f p);
  modify (set_process pid p').

Definition updateContext (pid : ProcessId) (context : ProcessContext) : M ProcessTable unit :=
  on_process pid (replaceContext context).

Definition updateRuntimeState (pid : ProcessId) (context : ProcessContext) (mem : Memory) : M ProcessTable unit :=
  on_process pid (replaceRuntimeState context mem).

Definition transition (pid : ProcessId) (s : ProcessState) : M ProcessTable unit :=
  _ ← throw_if (bool_decide (s = Terminated)) (RuntimeError "Use terminate() to terminate a process");
  t ← get;
  p ← lift (requireProcess pid t);
  let previousState := pcb_state p in
  _ ← throw_if (bool_decide (s = Running) && negb (running_pid t =? 0) && negb (running_pid t =? pid))
        (RuntimeError "Another process is already Running");
  _ ← on_process pid (transitionTo s);
  _ ← (if bool_decide (previousState = Running) && negb (bool_decide (s = Running))
       then modify (set_running_pid 0) else mret tt);
  if bool_decide (s = Running) then modify (set_running_pid pid) else mret tt.

(** The common frame of [terminate] and [fault]: the block is replaced when
    [f] returns, and the table has no running process any more if it ran. *)
Definition stopProcess (pid : ProcessId) (f : ProcessControlBlock -> outcome ProcessControlBlock)
    : M ProcessTable unit :=
  t ← get;
  p ← lift (requireProcess pid t);
  let wasRunning := bool_decide (pcb_state p = Running) in
  _ ← on_process pid f;
  if wasRunning then modify (set_running_pid 0) else mret tt.

Definition ProcessTable_terminate (pid : ProcessId) (exitCode : Z) : M ProcessTable unit :=
  stopProcess pid (terminate exitCode NormalExit EmptyString).

Definition ProcessTable_terminate_context (pid : ProcessId) (finalContext : ProcessContext) (exitCode : Z)
    : M ProcessTable unit :=
  stopProcess pid (fun p => p ← replaceFinalContext finalContext p; terminate exitCode NormalExit EmptyString p).

Definition ProcessTable_terminate_state (pid : ProcessId) (finalContext : ProcessContext) (finalMemory : Memory)
    (exitCode : Z) : M ProcessTable unit :=
  stopProcess pid (fun p => p ← replaceFinalState finalContext finalMemory p;
                            terminate exitCode NormalExit EmptyString p).

Definition ProcessTable_fault_context (pid : ProcessId) (finalContext : ProcessContext) (exitCode : Z)
    (message : string) : M ProcessTable unit :=
  stopProcess pid (fun p => p ← replaceFinalContext finalContext p; terminate exitCode CpuFault message p).

Definition ProcessTable_fault_state (pid : ProcessId) (finalContext : ProcessContext) (finalMemory : Memory)
    (exitCode : Z) (message : string) : M ProcessTable unit :=
  stopProcess pid (fun p => p ← replaceFinalState finalContext finalMemory p;
                            terminate exitCode CpuFault message p).

(** ** The invariant *)

(** A control block filed under [pid] in a table that allocates from [next]. *)
Record entry_ok (next : ProcessId) (pid : ProcessId) (p : ProcessControlBlock) : Prop := {
  eok_pid : ctx_pid (pcb_context p) = pid;
  eok_range : 0 < pid < 2 ^ 32;
  eok_allocated : next = 0 \/ pid < next;
  eok_snapshot : snapshot_ok (pcb_context p);
  eok_context : pcb_state p <> Terminated -> context_ok (pcb_context p);
  eok_space : ProcessAddressSpace_validate (pcb_address_space p) = Ret tt;
  eok_exit : pcb_has_exit_code p = bool_decide (pcb_state p = Terminated);
}.

(** Identifiers below [next_pid] are allocated, and [running_pid] is the
    identifier of the only running process, or 0. *)
Record table_wf (t : ProcessTable) : Prop := {
  twf_next : is_u32 (next_pid t);
  twf_entries : map_Forall (entry_ok (next_pid t)) (processes t);
  twf_unique : forall pid p, processes t !! pid = Some p -> pcb_state p = Running <-> pid = running_pid t;
  twf_running : running_pid t <> 0 -> is_Some (processes t !! running_pid t);
}.

(** ** Lemmas: control blocks *)

Lemma canTransition_terminated s : canTransitionProcessState Terminated s = bool_decide (s = Terminated).
Proof. destruct s; reflexivity. Qed.

(** What an operation may do to the block of process [pid]. *)
Record advances (next pid : ProcessId) (p p' : ProcessControlBlock) : Prop := {
  adv_entry : entry_ok next pid p';
  adv_edge : canTransitionProcessState (pcb_state p) (pcb_state p') = true;
  adv_alive : pcb_state p <> Terminated;
}.

Section blocks.
Context (next pid : ProcessId) (p p' : ProcessControlBlock) (Hp : entry_ok next pid p).

Lemma replaceMemory_ok mem a a' : replaceMemory mem a = Ret a' -> ProcessAddressSpace_validate a' = Ret tt.
Proof. intros H. apply unit_bind_inv in H as [H [= <-]]. exact H. Qed.

Lemma canTransition_refl s : canTransitionProcessState s s = true.
Proof. unfold canTransitionProcessState. rewrite bool_decide_eq_true_2; reflexivity. Qed.

Lemma set_context_advances c a :
  pcb_state p <> Terminated -> ctx_pid c = ctx_pid (pcb_context p) -> context_ok c ->
  ProcessAddressSpace_validate a = Ret tt -> advances next pid p (set_context c a p).
Proof.
  intros Hs Hc Hok Ha. destruct Hp. split; [|apply canTransition_refl | exact Hs].
  constructor; cbn; try assumption; [congruence | apply Hok | intros _; exact Hok].
Qed.

Lemma replaceContext_advances c : replaceContext c p = Ret p' -> advances next pid p p'.
Proof.
  intros H. unfold replaceContext in H. rewrite throw_if_bind_inv, unit_bind_inv, throw_if_bind_inv in H.
  destruct H as (Hs & Hv & Hc & [= <-]). facts. apply set_context_advances; try assumption;
    [apply validateProcessContext_spec, Hv | apply Hp].
Qed.

Lemma replaceRuntimeState_advances c mem : replaceRuntimeState c mem p = Ret p' -> advances next pid p p'.
Proof.
  intros H. unfold replaceRuntimeState in H. rewrite throw_if_bind_inv, unit_bind_inv, throw_if_bind_inv in H.
  destruct H as (Hs & Hv & Hc & H). apply bind_ret_inv in H as (a & Ha & [= <-]). facts.
  apply set_context_advances; try assumption; [apply validateProcessContext_spec, Hv | eapply replaceMemory_ok, Ha].
Qed.

Lemma transitionTo_advances s : transitionTo s p = Ret p' -> advances next pid p p' /\ pcb_state p' = s.
Proof.
  intros H. unfold transitionTo in H. rewrite !throw_if_bind_inv in H. destruct H as (Hs & Ht & [= <-]). facts.
  assert (Ha : pcb_state p <> Terminated).
  { intros E. rewrite E, canTransition_terminated in Ht. facts. congruence. }
  split; [|reflexivity]. destruct Hp as [? ? ? ? ? ? He]. split; [|exact Ht | exact Ha].
  constructor; cbn; try assumption; [intros _; auto|]. rewrite He, !bool_decide_eq_false_2 by assumption. reflexivity.
Qed.

(** The final states: the context needs only be a snapshot. *)
Lemma terminate_advances code k msg c a p1 :
  pcb_state p <> Terminated -> p1 = set_context c a p -> ctx_pid c = pid -> snapshot_ok c ->
  ProcessAddressSpace_validate a = Ret tt -> terminate code k msg p1 = Ret p' ->
  advances next pid p p' /\ pcb_state p' = Terminated.
Proof.
  intros Hs -> Hc Hok Ha H. unfold terminate in H. rewrite !throw_if_bind_inv in H.
  destruct H as (_ & Ht & [= <-]). facts. split; [|reflexivity]. destruct Hp. split; [|exact Ht | exact Hs].
  constructor; cbn; try assumption; [congruence | reflexivity].
Qed.

Lemma terminate_plain_advances code k msg :
  terminate code k msg p = Ret p' -> advances next pid p p' /\ pcb_state p' = Terminated.
Proof.
  intros H. assert (Hs : pcb_state p <> Terminated).
  { unfold terminate in H. rewrite throw_if_bind_inv in H. destruct H as [H _]. facts. exact H. }
  eapply (terminate_advances _ _ _ (pcb_context p) (pcb_address_space p) p); try apply Hp; [exact Hs | | exact H].
  destruct p. reflexivity.
Qed.

Lemma terminate_context_advances c code k msg :
  (p ← replaceFinalContext c p; terminate code k msg p) = Ret p' ->
  advances next pid p p' /\ pcb_state p' = Terminated.
Proof.
  intros H. apply bind_ret_inv in H as (p1 & H1 & H). unfold replaceFinalContext in H1.
  rewrite throw_if_bind_inv, unit_bind_inv, throw_if_bind_inv in H1. destruct H1 as (Hs & Hv & Hc & [= <-]). facts.
  eapply terminate_advances; [exact Hs | reflexivity | | | | exact H]; try apply Hp;
    [rewrite Hc; apply Hp | apply validateProcessContextSnapshot_spec, Hv].
Qed.

Lemma terminate_state_advances c mem code k msg :
  (p ← replaceFinalState c mem p; terminate code k msg p) = Ret p' ->
  advances next pid p p' /\ pcb_state p' = Terminated.
Proof.
  intros H. apply bind_ret_inv in H as (p1 & H1 & H). unfold replaceFinalState in H1.
  rewrite throw_if_bind_inv, unit_bind_inv, throw_if_bind_inv in H1. destruct H1 as (Hs & Hv & Hc & H1).
  apply bind_ret_inv in H1 as (a & Ha & [= <-]). facts.
  eapply terminate_advances; [exact Hs | reflexivity | | | | exact H];
    [rewrite Hc; apply Hp | apply validateProcessContextSnapshot_spec, Hv | eapply replaceMemory_ok, Ha].
Qed.

End blocks.

(** ** Lemmas: the table *)

Lemma requireProcess_inv pid t p : requireProcess pid t = Ret p -> processes t !! pid = Some p.
Proof. unfold requireProcess. destruct (_ !! _); intros H; [injection H as <-; reflexivity | discriminate]. Qed.

(** Which process runs once [pid] went from [p] to [p']. *)
Definition running_after (t : ProcessTable) (pid : ProcessId) (p p' : ProcessControlBlock) : ProcessId :=
  if bool_decide (pcb_state p' = Running) then pid
  else if bool_decide (pcb_state p = Running) then 0 else running_pid t.

(** The two ways a table changes: a new process is filed under the next
    identifier, or one process moves on. *)
Inductive table_move (t : ProcessTable) : ProcessTable -> Prop :=
  | move_create p : next_pid t <> 0 -> entry_ok 0 (next_pid t) p -> pcb_state p = Ready ->
      table_move t (commitAllocatedProcessId (next_pid t) (set_process (next_pid t) p t))
  | move_process pid p p' : processes t !! pid = Some p -> advances (next_pid t) pid p p' ->
      (pcb_state p' = Running -> running_pid t = 0 \/ running_pid t = pid) ->
      table_move t (set_running_pid (running_after t pid p p') (set_process pid p' t)).

Lemma new_ProcessTable_wf : table_wf new_ProcessTable.
Proof. constructor; cbn; try words; [apply map_Forall_empty | intros ? ? H; rewrite lookup_empty in H; discriminate]. Qed.

Section moves.
Context (t : ProcessTable) (Ht : table_wf t).

Lemma entry_lookup pid p : processes t !! pid = Some p -> entry_ok (next_pid t) pid p.
Proof. intros H. exact (twf_entries t Ht pid p H). Qed.

Lemma next_fresh : next_pid t <> 0 -> processes t !! next_pid t = None.
Proof.
  intros Hn. destruct (processes t !! next_pid t) as [p|] eqn:E; [|reflexivity].
  destruct (entry_lookup _ _ E) as [_ _ [?|?] _ _ _ _]; lia.
Qed.

Lemma running_nonzero pid p : processes t !! pid = Some p -> pid <> 0.
Proof. intros H. pose proof (eok_range _ _ _ (entry_lookup _ _ H)). lia. Qed.

Lemma create_wf p :
  next_pid t <> 0 -> entry_ok 0 (next_pid t) p -> pcb_state p = Ready ->
  table_wf (commitAllocatedProcessId (next_pid t) (set_process (next_pid t) p t)).
Proof.
  intros Hn Hp Hs. pose proof (twf_next t Ht) as Hu. pose proof (next_fresh Hn) as Hf.
  set (n := if next_pid t =? UINT32_MAX then 0 else next_pid t + 1).
  assert (Hc : commitAllocatedProcessId (next_pid t) (set_process (next_pid t) p t)
               = set_next_pid n (set_process (next_pid t) p t)).
  { unfold commitAllocatedProcessId, n. destruct (_ =? _) eqn:E; [reflexivity|]. bool_facts.
    rewrite u32_small by words. reflexivity. }
  rewrite Hc. assert (Hnr : running_pid t <> next_pid t).
  { intros E. destruct (twf_running t Ht) as [q Hq]; [lia|]. rewrite E in Hq. congruence. }
  assert (Hle : n = 0 \/ n = next_pid t + 1 /\ next_pid t <> UINT32_MAX)
    by (unfold n; destruct (_ =? _) eqn:E; bool_facts; lia).
  constructor; cbn.
  - words.
  - apply map_Forall_insert_2.
    + destruct Hp. constructor; try assumption. lia.
    + intros pid q Hq. destruct (entry_lookup _ _ Hq) as [? ? ? ? ? ? ?]. constructor; try assumption. lia.
  - intros pid q Hq. apply lookup_insert_Some in Hq as [[<- <-]|[Hne Hq]].
    + rewrite Hs. split; [discriminate | congruence].
    + apply (twf_unique t Ht), Hq.
  - intros Hr. destruct (twf_running t Ht Hr) as [q Hq]. exists q. rewrite lookup_insert_ne by congruence. exact Hq.
Qed.

Lemma process_wf pid p p' :
  processes t !! pid = Some p -> advances (next_pid t) pid p p' ->
  (pcb_state p' = Running -> running_pid t = 0 \/ running_pid t = pid) ->
  table_wf (set_running_pid (running_after t pid p p') (set_process pid p' t)).
Proof.
  intros Hp [Hp' _ _] Hr. pose proof (running_nonzero _ _ Hp) as H0.
  pose proof (twf_unique t Ht pid p Hp) as Hu.
  constructor; cbn.
  - apply Ht.
  - apply map_Forall_insert_2; [exact Hp' | apply Ht].
  - intros pid' q Hq. unfold running_after. apply lookup_insert_Some in Hq as [[<- <-]|[Hne Hq]].
    + repeat case_bool_decide; intuition congruence.
    + pose proof (twf_unique t Ht pid' q Hq) as Hu'. pose proof (running_nonzero _ _ Hq).
      repeat case_bool_decide; intuition congruence.
  - unfold running_after. intros Hn. repeat case_bool_decide.
    all: try (exists p'; apply lookup_insert_eq); try congruence.
    destruct (twf_running t Ht Hn) as [q Hq]. destruct (decide (pid = running_pid t)) as [<-|Hne].
    + exists p'. apply lookup_insert_eq.
    + exists q. rewrite lookup_insert_ne by assumption. exact Hq.
Qed.

Lemma move_wf t' : table_move t t' -> table_wf t'.
Proof. intros []; eauto using create_wf, process_wf. Qed.

End moves.

(** ** Lemmas: the operations *)

(** The public operations that change a table. *)
Inductive table_op :=
  | OpCreate (context : ProcessContext)
  | OpCreateCPU (c : CPU)
  | OpCreateImage (image : ProcessImage)
  | OpUpdateContext (pid : ProcessId) (context : ProcessContext)
  | OpUpdateRuntimeState (pid : ProcessId) (context : ProcessContext) (mem : Memory)
  | OpTransition (pid : ProcessId) (s : ProcessState)
  | OpTerminate (pid : ProcessId) (exitCode : Z)
  | OpTerminateContext (pid : ProcessId) (context : ProcessContext) (exitCode : Z)
  | OpTerminateState (pid : ProcessId) (context : ProcessContext) (mem : Memory) (exitCode : Z)
  | OpFaultContext (pid : ProcessId) (context : ProcessContext) (exitCode : Z) (message : string)
  | OpFaultState (pid : ProcessId) (context : ProcessContext) (mem : Memory) (exitCode : Z) (message : string).

Definition run_op (op : table_op) : M ProcessTable unit :=
  match op with
  | OpCreate context => _ ← createProcess context; mret tt
  | OpCreateCPU c => _ ← createProcess_cpu c; mret tt
  | OpCreateImage image => _ ← createProcess_image image; mret tt
  | OpUpdateContext pid context => updateContext pid context
  | OpUpdateRuntimeState pid context mem => updateRuntimeState pid context mem
  | OpTransition pid s => transition pid s
  | OpTerminate pid exitCode => ProcessTable_terminate pid exitCode
  | OpTerminateContext pid context exitCode => ProcessTable_terminate_context pid context exitCode
  | OpTerminateState pid context mem exitCode => ProcessTable_terminate_state pid context mem exitCode
  | OpFaultContext pid context exitCode message => ProcessTable_fault_context pid context exitCode message
  | OpFaultState pid context mem exitCode message => ProcessTable_fault_state pid context mem exitCode message
  end.

(** An operation that throws changes nothing; one that returns makes a move. *)
Definition moves {A} (m : M ProcessTable A) : Prop := forall t, table_wf t ->
  match m t with
  | (Ret _, t') => table_move t t'
  | (Throw _, t') => t' = t
  end.

Lemma set_running_same t : set_running_pid (running_pid t) t = t.
Proof. destruct t. reflexivity. Qed.

Lemma on_process_run pid f t :
  on_process pid f t =
  match (p ← requireProcess pid t; f p) with
  | Ret p' => (Ret tt, set_process pid p' t)
  | Throw e => (Throw e, t)
  end.
Proof.
  unfold on_process, get, lift, modify. rewrite !bind_run. destruct (requireProcess pid t) as [p|e]; [|reflexivity].
  cbn. destruct (f p); reflexivity.
Qed.

Lemma on_process_moves pid f :
  (forall t p p', table_wf t -> processes t !! pid = Some p -> f p = Ret p' ->
     advances (next_pid t) pid p p' /\ pcb_state p' = pcb_state p) ->
  moves (on_process pid f).
Proof.
  intros Hf t Ht. rewrite on_process_run. destruct (requireProcess pid t) as [p|e] eqn:Hp; [|reflexivity].
  cbn. destruct (f p) as [p'|e] eqn:E; [|reflexivity]. apply requireProcess_inv in Hp.
  destruct (Hf t p p' Ht Hp E) as [Ha Hs]. pose proof (twf_unique t Ht pid p Hp) as Hu.
  replace (set_process pid p' t) with (set_running_pid (running_after t pid p p') (set_process pid p' t)).
  - apply move_process; [exact Hp | exact Ha | rewrite Hs; intuition].
  - unfold running_after. rewrite Hs. case_bool_decide as Hr; [|reflexivity].
    apply Hu in Hr. subst pid. apply (set_running_same (set_process _ _ _)).
Qed.

Lemma stopProcess_moves pid f :
  (forall t p p', table_wf t -> processes t !! pid = Some p -> f p = Ret p' ->
     advances (next_pid t) pid p p' /\ pcb_state p' = Terminated) ->
  moves (stopProcess pid f).
Proof.
  intros Hf t Ht. unfold stopProcess, get, lift. rewrite !bind_run.
  destruct (requireProcess pid t) as [p|e] eqn:Hp; [|reflexivity]. rewrite bind_run, on_process_run, Hp. cbn.
  destruct (f p) as [p'|e] eqn:E; [|reflexivity]. apply requireProcess_inv in Hp.
  destruct (Hf t p p' Ht Hp E) as [Ha Hs].
  pose proof (move_process t pid p p' Hp Ha) as Hm. unfold running_after in Hm. rewrite Hs in Hm.
  rewrite (bool_decide_eq_false_2 (Terminated = Running)) in Hm by discriminate.
  case_bool_decide; [apply Hm; discriminate|]. rewrite <- (set_running_same (set_process pid p' t)). apply Hm. discriminate.
Qed.

Lemma transition_moves pid s : moves (transition pid s).
Proof.
  intros t Ht. unfold transition, get, lift. rewrite bind_run. case_bool_decide as Hterm; [reflexivity|].
  cbn [throw_if mret M_ret]. rewrite !bind_run. destruct (requireProcess pid t) as [p|e] eqn:Hp; [|reflexivity].
  rewrite bind_run. destruct (_ && _) eqn:Hg; [reflexivity|]. cbn [throw_if mret M_ret].
  rewrite bind_run, on_process_run, Hp. cbn [mbind outcome_bind].
  destruct (transitionTo s p) as [p'|e] eqn:E; [|reflexivity]. apply requireProcess_inv in Hp.
  destruct (transitionTo_advances _ _ _ _ (entry_lookup t Ht pid p Hp) s E) as [Ha Hs].
  pose proof (move_process t pid p p' Hp Ha) as Hm. unfold running_after in Hm. rewrite Hs in Hm.
  assert (Hr : s = Running -> running_pid t = 0 \/ running_pid t = pid).
  { intros ->. rewrite bool_decide_eq_true_2 in Hg by reflexivity. cbn [andb] in Hg.
    apply andb_false_iff in Hg as [Hg|Hg]; facts; auto. }
  specialize (Hm Hr). rewrite bind_run. clear Hg E.
  destruct (decide (s = Running)) as [->|Hn]; [|rewrite (bool_decide_eq_false_2 (s = Running)) in * by exact Hn].
  - rewrite bool_decide_eq_true_2 in * by reflexivity. rewrite andb_false_r. exact Hm.
  - cbn [negb]. rewrite andb_true_r. case_bool_decide; [exact Hm|].
    rewrite <- (set_running_same (set_process pid p' t)). exact Hm.
Qed.

Lemma new_block_ok n c a p :
  new_ProcessControlBlock c a Ready = Ret p -> ctx_pid c = n -> 0 < n < 2 ^ 32 ->
  ProcessAddressSpace_validate a = Ret tt -> entry_ok 0 n p /\ pcb_state p = Ready.
Proof.
  intros H Hc Hn Ha. unfold new_ProcessControlBlock in H. rewrite unit_bind_inv, throw_if_bind_inv in H.
  destruct H as (Hv & _ & [= <-]). apply validateProcessContext_spec in Hv. split; [|reflexivity].
  constructor; cbn; auto. apply Hv.
Qed.

Lemma emplaceProcess_run t p :
  table_wf t -> next_pid t <> 0 ->
  emplaceProcess (next_pid t) p t =
  (Ret (next_pid t), commitAllocatedProcessId (next_pid t) (set_process (next_pid t) p t)).
Proof.
  intros Ht Hn. unfold emplaceProcess, get. rewrite !bind_run. unfold ProcessTable_contains.
  rewrite next_fresh by assumption. reflexivity.
Qed.

(** A creation that got its identifier and block. *)
Lemma create_moves (mk : ProcessId -> outcome ProcessControlBlock) :
  (forall n p, 0 < n < 2 ^ 32 -> mk n = Ret p -> entry_ok 0 n p /\ pcb_state p = Ready) ->
  moves (t ← get; pid ← lift (requireNextProcessId t); p ← lift (mk pid); emplaceProcess pid p).
Proof.
  intros Hmk t Ht. unfold get, lift. rewrite !bind_run. unfold requireNextProcessId.
  destruct (next_pid t =? 0) eqn:Hn; [reflexivity|]. bool_facts. cbn [throw_if mbind outcome_bind mret outcome_ret].
  rewrite bind_run. destruct (mk (next_pid t)) as [p|e] eqn:E; [|reflexivity].
  pose proof (twf_next t Ht) as Hu. destruct (Hmk (next_pid t) p) as [Hp Hs]; [words | exact E |].
  rewrite emplaceProcess_run by assumption. apply move_create; assumption.
Qed.

Lemma createProcess_moves context : moves (createProcess context).
Proof.
  intros t Ht. pose proof (create_moves (fun pid => _ ← validateProcessContext (set_ctx_pid pid context);
    new_ProcessControlBlock_default (set_ctx_pid pid context) Ready)) as H.
  assert (Hmk : forall n p, 0 < n < 2 ^ 32 ->
    (_ ← validateProcessContext (set_ctx_pid n context);
     new_ProcessControlBlock_default (set_ctx_pid n context) Ready) = Ret p ->
    entry_ok 0 n p /\ pcb_state p = Ready).
  { intros n p Hn E. apply unit_bind_inv in E as [_ E]. apply bind_ret_inv in E as (a & Ha & E).
    apply unit_bind_inv in Ha as [Ha [= <-]]. eapply new_block_ok; [exact E | reflexivity | exact Hn | exact Ha]. }
  specialize (H Hmk t Ht). unfold createProcess, lift, get in *. rewrite !bind_run in *.
  destruct (requireNextProcessId t) as [pid|e]; [|exact H]. rewrite !bind_run in *.
  destruct (validateProcessContext _) as [[]|e]; [|exact H]. exact H.
Qed.

Lemma createProcess_cpu_moves c : moves (createProcess_cpu c).
Proof.
  intros t Ht. pose proof (create_moves (fun pid => context ← captureProcessContext pid c;
    a ← ProcessAddressSpace_of_memory (memory (state c)); new_ProcessControlBlock context a Ready)) as H.
  assert (Hmk : forall n p, 0 < n < 2 ^ 32 ->
    (context ← captureProcessContext n c;
     a ← ProcessAddressSpace_of_memory (memory (state c)); new_ProcessControlBlock context a Ready) = Ret p ->
    entry_ok 0 n p /\ pcb_state p = Ready).
  { intros n p Hn E. apply bind_ret_inv in E as (x & Hx & E). apply bind_ret_inv in E as (a & Ha & E).
    apply unit_bind_inv in Ha as [Ha [= <-]]. eapply new_block_ok; [exact E | | exact Hn | exact Ha].
    apply bind_ret_inv in Hx as (y & Hy & Hx). apply unit_bind_inv in Hx as [_ [= <-]].
    apply unit_bind_inv in Hy as [_ Hy]. apply bind_ret_inv in Hy as (z & _ & Hy).
    apply unit_bind_inv in Hy as [_ [= <-]]. reflexivity. }
  specialize (H Hmk t Ht). unfold createProcess_cpu, lift, get in *. rewrite !bind_run in *.
  destruct (requireNextProcessId t) as [pid|e]; [|exact H]. rewrite !bind_run in *.
  destruct (captureProcessContext pid c) as [x|e]; [|exact H]. rewrite bind_run.
  destruct (ProcessAddressSpace_of_memory _) as [a|e]; exact H.
Qed.

Lemma createProcess_image_moves image : moves (createProcess_image image).
Proof.
  intros t Ht. pose proof (create_moves (fun pid => context ← contextFromImage pid image;
    a ← ProcessAddressSpace_of_image image; new_ProcessControlBlock context a Ready)) as H.
  assert (Hmk : forall n p, 0 < n < 2 ^ 32 ->
    (context ← contextFromImage n image;
     a ← ProcessAddressSpace_of_image image; new_ProcessControlBlock context a Ready) = Ret p ->
    entry_ok 0 n p /\ pcb_state p = Ready).
  { intros n p Hn E. apply bind_ret_inv in E as (x & Hx & E). apply bind_ret_inv in E as (a & Ha & E).
    apply unit_bind_inv in Ha as [_ Ha]. apply unit_bind_inv in Ha as [Ha [= <-]].
    eapply new_block_ok; [exact E | | exact Hn | exact Ha].
    apply unit_bind_inv in Hx as [_ Hx]. apply unit_bind_inv in Hx as [_ [= <-]]. reflexivity. }
  specialize (H Hmk t Ht). unfold createProcess_image, lift, get in *. rewrite !bind_run in *.
  destruct (requireNextProcessId t) as [pid|e]; [|exact H]. rewrite !bind_run in *.
  destruct (contextFromImage pid image) as [x|e]; [|exact H]. rewrite bind_run.
  destruct (ProcessAddressSpace_of_image _) as [a|e]; exact H.
Qed.

Lemma moves_ret {A} (m : M ProcessTable A) : moves m -> moves (_ ← m; mret tt).
Proof. intros Hm t Ht. specialize (Hm t Ht). rewrite bind_run. destruct (m t) as [[a|e] t']; exact Hm. Qed.

Lemma run_op_moves op : moves (run_op op).
Proof.
  destruct op; cbn [run_op];
    try (apply moves_ret; auto using createProcess_moves, createProcess_cpu_moves, createProcess_image_moves);
    try apply transition_moves;
    try (apply on_process_moves; intros t p p' Ht Hp E; pose proof (entry_lookup t Ht _ _ Hp) as He);
    try (apply stopProcess_moves; intros t p p' Ht Hp E; pose proof (entry_lookup t Ht _ _ Hp) as He).
  - pose proof (replaceContext_advances _ _ _ _ He _ E) as Ha. split; [exact Ha|].
    unfold replaceContext in E. rewrite throw_if_bind_inv, unit_bind_inv, throw_if_bind_inv in E.
    destruct E as (_ & _ & _ & [= <-]). reflexivity.
  - pose proof (replaceRuntimeState_advances _ _ _ _ He _ _ E) as Ha. split; [exact Ha|].
    unfold replaceRuntimeState in E. rewrite throw_if_bind_inv, unit_bind_inv, throw_if_bind_inv in E.
    destruct E as (_ & _ & _ & E). apply bind_ret_inv in E as (a & _ & [= <-]). reflexivity.
  - eapply terminate_plain_advances; eassumption.
  - eapply terminate_context_advances; eassumption.
  - eapply terminate_state_advances; eassumption.
  - eapply terminate_context_advances; eassumption.
  - eapply terminate_state_advances; eassumption.
Qed.

(** What a move does to one process. *)
Definition process_step (t t' : ProcessTable) (pid : ProcessId) : Prop :=
  match processes t !! pid, processes t' !! pid with
  | Some p, Some p' =>
      canTransitionProcessState (pcb_state p) (pcb_state p') = true /\ (pcb_state p = Terminated -> p' = p)
  | None, Some p' => pid = next_pid t /\ pcb_state p' = Ready
  | None, None => True
  | Some _, None => False
  end.

Lemma commit_processes pid t : processes (commitAllocatedProcessId pid t) = processes t.
Proof. unfold commitAllocatedProcessId. destruct (_ =? _); reflexivity. Qed.

(** A move touches one process. *)
Lemma move_step t t' :
  table_wf t -> table_move t t' ->
  exists moved, process_step t t' moved /\ forall pid, pid <> moved -> processes t' !! pid = processes t !! pid.
Proof.
  intros Ht [p Hn Hp Hs | pid p p' Hp Ha Hr].
  - exists (next_pid t). unfold process_step. rewrite commit_processes. cbn [set_process processes].
    rewrite next_fresh, lookup_insert_eq by assumption. split; [auto|]. intros pid Hne.
    apply lookup_insert_ne. congruence.
  - exists pid. unfold process_step. cbn [set_running_pid set_process processes]. rewrite Hp, lookup_insert_eq.
    destruct Ha. split; [split; [assumption | intros; contradiction]|]. intros pid' Hne. apply lookup_insert_ne. congruence.
Qed.

(** ** Properties *)

(** Every operation of the process table is all or nothing and respects
    the process life cycle.  If it throws, the table is unchanged.  If it
    returns, the invariant is kept (identifiers are the keys and are below the
    next one, every context and address space is valid, exit codes are set
    exactly on termination, and [running_pid] is the only running process or
    0), and all processes but one keep their control block; that one is either
    new, Ready and filed under the next identifier, or moves along an edge of
    [canTransitionProcessState], never out of Terminated. *)
Theorem table_operations_safe (t : ProcessTable) (op : table_op) (Ht : table_wf t) :
  match run_op op t with
  | (Ret _, t') =>
      table_wf t' /\
      exists moved, process_step t t' moved /\ forall pid, pid <> moved -> processes t' !! pid = processes t !! pid
  | (Throw _, t') => t' = t
  end.
Proof.
  pose proof (run_op_moves op t Ht) as H. destruct (run_op op t) as [[u|e] t']; [|exact H].
  split; [eapply move_wf; eassumption | apply move_step; assumption].
Qed.

Definition sample_image : ProcessImage := image_of small_program "demo.zbin".
Definition sample_table : ProcessTable := final (run_op (OpCreateImage sample_image)) new_ProcessTable.

Example table_operations_safe_witness :
  table_wf new_ProcessTable /\ table_wf sample_table /\ pcb_state <$> processes sample_table !! 1 = Some Ready.
Proof.
  pose proof (table_operations_safe new_ProcessTable (OpCreateImage sample_image) new_ProcessTable_wf) as H.
  unfold sample_table, final.
  destruct (run_op (OpCreateImage sample_image) new_ProcessTable) as [[u|e] t'] eqn:E.
  - split; [exact new_ProcessTable_wf|]. split; [apply H|].
    change t' with ((Ret u, t').2). rewrite <- E. vm_compute. reflexivity.
  - exfalso. assert (Hc : (match (run_op (OpCreateImage sample_image) new_ProcessTable).1 with Ret _ => true | Throw _ => false end) = true)
      by (vm_compute; reflexivity).
    rewrite E in Hc. discriminate.
Defined.

(** A sequence of operations, each of which may throw. *)
Definition run_ops (ops : list table_op) (t : ProcessTable) : ProcessTable :=
  foldl (fun t op => final (run_op op) t) t ops.

(** How a table may develop. *)
Record develops (t t' : ProcessTable) : Prop := {
  dev_next : next_pid t' = next_pid t \/ next_pid t <> 0 /\ (next_pid t' = 0 \/ next_pid t < next_pid t');
  dev_kept : forall pid p, processes t !! pid = Some p ->
    exists p', processes t' !! pid = Some p' /\ (pcb_state p = Terminated -> p' = p);
  dev_fresh : forall pid p', processes t' !! pid = Some p' -> processes t !! pid = None ->
    next_pid t <> 0 /\ next_pid t <= pid;
}.

Lemma develops_refl t : develops t t.
Proof. split; [auto | eauto | congruence]. Qed.

Lemma develops_trans t1 t2 t3 : develops t1 t2 -> develops t2 t3 -> develops t1 t3.
Proof.
  intros [N1 K1 F1] [N2 K2 F2]. split.
  - lia.
  - intros pid p H. destruct (K1 _ _ H) as (p2 & H2 & E2). destruct (K2 _ _ H2) as (p3 & H3 & E3).
    exists p3. split; [exact H3|]. intros Hs. specialize (E2 Hs). subst p2. apply E3, Hs.
  - intros pid p3 H3 Hn. destruct (processes t2 !! pid) as [p2|] eqn:H2; [eapply F1; eassumption|].
    destruct (F2 _ _ H3 H2). lia.
Qed.

Lemma run_op_develops op t : table_wf t -> table_wf (final (run_op op) t) /\ develops t (final (run_op op) t).
Proof.
  intros Ht. pose proof (run_op_moves op t Ht) as H. unfold final.
  destruct (run_op op t) as [[u|e] t'] eqn:E; cbn; [|rewrite H; auto using develops_refl].
  split; [eapply move_wf; eassumption|].
  destruct (move_step t t' Ht H) as (moved & Hs & Ho).
  assert (Hnext : next_pid t' = next_pid t \/ next_pid t <> 0 /\ (next_pid t' = 0 \/ next_pid t < next_pid t')).
  { pose proof (twf_next t Ht). destruct H as [p Hn _ _ | pid p p' _ _ _]; [|left; reflexivity]. right. split; [exact Hn|].
    unfold commitAllocatedProcessId. destruct (_ =? _) eqn:Em; cbn; [auto|]. bool_facts. rewrite u32_small by words. lia. }
  split; [exact Hnext | | ]; unfold process_step in Hs.
  - intros pid p Hp. destruct (decide (pid = moved)) as [->|Hne]; [|rewrite Ho by exact Hne; eauto].
    rewrite Hp in Hs. destruct (processes t' !! moved) as [p'|]; [|contradiction]. exists p'. split; [reflexivity | apply Hs].
  - intros pid p' Hp' Hn. destruct (decide (pid = moved)) as [->|Hne]; [|rewrite Ho in Hp' by exact Hne; congruence].
    rewrite Hn, Hp' in Hs. destruct Hs as [-> Hs]. split; [|lia].
    pose proof (eok_range _ _ _ (twf_entries _ (move_wf t Ht t' H) _ _ Hp')). lia.
Qed.

Lemma run_ops_develops ops t : table_wf t -> table_wf (run_ops ops t) /\ develops t (run_ops ops t).
Proof.
  revert t. induction ops as [|op ops IH]; intros t Ht; [auto using develops_refl|].
  destruct (run_op_develops op t Ht) as [H1 D1]. destruct (IH _ H1) as [H2 D2].
  split; [exact H2 | eapply develops_trans; eassumption].
Qed.

(** The history of a table that starts empty.  Whatever operations are
    attempted, successful or not, the invariant holds, no process disappears, a
    terminated process keeps its control block (context, memory, exit code and
    message) for ever, and a process created later has a larger identifier
    than every earlier one: identifiers are never reused, also after the last
    32-bit identifier, when creation fails. *)
Theorem process_history (before after : list table_op) :
  let t := run_ops before new_ProcessTable in
  let t' := run_ops after t in
  table_wf t /\ table_wf t' /\
  (forall pid p, processes t !! pid = Some p ->
     exists p', processes t' !! pid = Some p' /\ (pcb_state p = Terminated -> p' = p)) /\
  (forall pid p', processes t' !! pid = Some p' -> processes t !! pid = None ->
     forall old p, processes t !! old = Some p -> old < pid) /\
  (next_pid t = 0 -> dom (processes t') = dom (processes t)).
Proof.
  intros t t'. destruct (run_ops_develops before _ new_ProcessTable_wf) as [Ht _]. fold t in Ht.
  destruct (run_ops_develops after t Ht) as [Ht' [_ Hk Hf]]. fold t' in Ht', Hk, Hf.
  split; [exact Ht|]. split; [exact Ht'|]. split; [exact Hk|]. split.
  - intros pid p' Hp' Hn old p Hold. destruct (Hf _ _ Hp' Hn) as [H0 Hle].
    destruct (eok_allocated _ _ _ (entry_lookup t Ht _ _ Hold)); lia.
  - intros H0. apply set_eq. intros pid. rewrite !elem_of_dom. split.
    + intros [p' Hp']. destruct (processes t !! pid) eqn:E; [eauto|]. destruct (Hf _ _ Hp' E). contradiction.
    + intros [p Hp]. destruct (Hk _ _ Hp) as (p' & -> & _). eauto.
Qed.

(** ** Lemmas for the schedulers *)

(** [transition] along an edge. *)
Lemma transition_run t pid p s :
  processes t !! pid = Some p -> s <> Terminated -> canTransitionProcessState (pcb_state p) s = true ->
  (s = Running -> running_pid t = 0 \/ running_pid t = pid) ->
  transition pid s t =
  (Ret tt, set_running_pid (running_after t pid p (set_process_state s p)) (set_process pid (set_process_state s p) t)).
Proof.
  intros Hp Hs Hc Hr. unfold transition, get, lift. rewrite bind_run, bool_decide_eq_false_2 by exact Hs.
  cbn [throw_if mret M_ret]. rewrite !bind_run. unfold requireProcess at 1. rewrite Hp. cbn [mret outcome_ret]. rewrite bind_run.
  assert (Hg : bool_decide (s = Running) && negb (running_pid t =? 0) && negb (running_pid t =? pid) = false).
  { case_bool_decide as E; [|reflexivity]. destruct (Hr E) as [->| ->]; [reflexivity|].
    rewrite Z.eqb_refl. apply andb_false_r. }
  rewrite Hg. cbn [throw_if mret M_ret]. rewrite bind_run, on_process_run. unfold requireProcess. rewrite Hp.
  cbn [mbind outcome_bind mret outcome_ret]. unfold transitionTo. rewrite Hc, (bool_decide_eq_false_2 (s = Terminated)) by exact Hs.
  cbn [negb throw_if mbind outcome_bind mret outcome_ret]. rewrite bind_run. unfold running_after. cbn [set_process_state pcb_state].
  clear Hg Hr Hc. destruct (bool_decide (s = Running)); [rewrite andb_false_r; reflexivity|].
  cbn [negb]. rewrite andb_true_r. destruct (bool_decide _); reflexivity.
Qed.

Lemma transition_table_wf t pid p s :
  table_wf t -> processes t !! pid = Some p -> pcb_state p <> Terminated -> s <> Terminated ->
  canTransitionProcessState (pcb_state p) s = true -> (s = Running -> running_pid t = 0 \/ running_pid t = pid) ->
  table_wf (set_running_pid (running_after t pid p (set_process_state s p)) (set_process pid (set_process_state s p) t)).
Proof.
  intros Ht Hp Ha Hs Hc Hr. pose proof (transition_moves pid s t Ht) as H.
  rewrite (transition_run t pid p s) in H by assumption. eapply move_wf; eassumption.
Qed.

Lemma processIds_spec t pid : pid ∈ processIds t <-> is_Some (processes t !! pid).
Proof. unfold processIds. rewrite merge_sort_Permutation, elem_of_elements, elem_of_dom. reflexivity. Qed.

Lemma processIds_NoDup t : NoDup (processIds t).
Proof. unfold processIds. rewrite merge_sort_Permutation. apply NoDup_elements. Qed.

Lemma processIds_sorted t : StronglySorted Z.le (processIds t).
Proof. unfold processIds. apply StronglySorted_merge_sort; apply _. Qed.

Lemma processIdsInState_spec s t pid :
  pid ∈ processIdsInState s t <-> exists p, processes t !! pid = Some p /\ pcb_state p = s.
Proof.
  unfold processIdsInState. rewrite list_elem_of_filter, processIds_spec. split.
  - intros [H [p Hp]]. rewrite Hp in H. injection H as H. eauto.
  - intros (p & Hp & Hs). rewrite Hp. split; [cbn; congruence | eauto].
Qed.
