(* ===== verification/Scheduler.v ===== *)
(** * Round-robin scheduling

    Models [src/kernel/RoundRobinScheduler.cpp]: the cursor of the last
    selected process and the choice of the next one among the runnable
    processes.  The main result: while the runnable processes stay the same,
    every one of them is selected exactly once per round. *)

From stdpp Require Import sorting.
From S2P Require Import Prelude Words ALU Memory ISA Binary Interrupts Devices CPUState Trace CPU Image Process ProcTable.
Open Scope Z_scope.

Record RoundRobinScheduler := {
  has_last_selection : bool;
  last_selected_pid : ProcessId;
}.

Definition new_RoundRobinScheduler : RoundRobinScheduler :=
  {| has_last_selection := false; last_selected_pid := 0 |}.

Definition RoundRobinScheduler_reset (s : RoundRobinScheduler) : RoundRobinScheduler := new_RoundRobinScheduler.

Definition lastSelectedProcessId (s : RoundRobinScheduler) : outcome ProcessId :=
  _ ← throw_if (negb (has_last_selection s)) (RuntimeError "Round-robin scheduler has no selection");
  mret (last_selected_pid s).

(** [std::upper_bound] on a sorted range: the number of elements before the
    first one greater than [cursor]. *)
Fixpoint upper_bound (l : list ProcessId) (cursor : ProcessId) : nat :=
  match l with
  | [] => 0%nat
  | x :: l => if cursor <? x then 0%nat else S (upper_bound l cursor)
  end.

(** [std::unique] and [erase]: equal neighbours are merged. *)
Fixpoint unique (l : list ProcessId) : list ProcessId :=
  match l with
  | x :: (y :: _) as l' => if x =? y then unique l' else x :: unique l'
  | l => l
  end.

Definition rotateAfterCursor (processIds : list ProcessId) (cursor : ProcessId) (hasCursor : bool) : list ProcessId :=
  if bool_decide (processIds = []) || negb hasCursor then processIds
  else
    let firstAfterCursor := upper_bound processIds cursor in
    drop firstAfterCursor processIds ++ take firstAfterCursor processIds.

Definition readyQueue (t : ProcessTable) (s : RoundRobinScheduler) : list ProcessId :=
  rotateAfterCursor (processIdsInState Ready t) (last_selected_pid s) (has_last_selection s).

Definition hasRunnableProcess (t : ProcessTable) : bool :=
  hasRunningProcess t || negb (bool_decide (processIdsInState Ready t = [])).

(** A call on the table. *)
Definition on_table {A} (m : M ProcessTable A) : M (ProcessTable * RoundRobinScheduler) A :=
  zoom fst (fun t '(_, s) => (t, s)) m.

(** [ordered.front()]: the candidates are not empty there. *)
Definition front (l : list ProcessId) : ProcessId := hd 0 l.

Definition scheduleNext : M (ProcessTable * RoundRobinScheduler) ProcessId :=
  '(t, s) ← get;
  let hadRunningProcess := hasRunningProcess t in
  currentPid ← lift (if hadRunningProcess then runningProcessId t else mret 0);
  let candidates := processIdsInState Ready t ++ (if hadRunningProcess then [currentPid] else []) in
  let candidates := unique (merge_sort Z.le candidates) in
  _ ← throw_if (bool_decide (candidates = [])) (RuntimeError "Round-robin scheduler has no runnable process");
  let cursor := if negb (has_last_selection s) && hadRunningProcess then currentPid else last_selected_pid s in
  let hasCursor := if negb (has_last_selection s) && hadRunningProcess then true else has_last_selection s in
  let ordered := rotateAfterCursor candidates cursor hasCursor in
  let selectedPid := front ordered in
  _ ← (if hadRunningProcess then
         if negb (selectedPid =? currentPid) then
           _ ← on_table (transition currentPid Ready);
           try_catch (on_table (transition selectedPid Running))
             (fun e => _ ← on_table (transition currentPid Running); throw e)
         else mret tt
       else on_table (transition selectedPid Running));
  _ ← modify (fun '(t, s) => (t, {| has_last_selection := true; last_selected_pid := selectedPid |}));
  mret selectedPid.

(** ** Specification *)

(** The processes a scheduler may select, in the order of their identifiers. *)
Definition is_runnable (t : ProcessTable) (pid : ProcessId) : bool :=
  match processes t !! pid with
  | Some p => isRunnableProcessState (pcb_state p)
  | None => false
  end.

Definition runnable (t : ProcessTable) : list ProcessId := filter (fun pid => is_runnable t pid = true) (processIds t).

(** The table once [pid] runs: the process that ran is Ready. *)
Definition switch_state (selected pid : ProcessId) (p : ProcessControlBlock) : ProcessControlBlock :=
  if bool_decide (pid = selected) then set_process_state Running p
  else if bool_decide (pcb_state p = Running) then set_process_state Ready p else p.

Definition switch_to (selected : ProcessId) (t : ProcessTable) : ProcessTable :=
  {| processes := map_imap (fun pid p => Some (switch_state selected pid p)) (processes t);
     next_pid := next_pid t; running_pid := selected |}.

(** The order in which the scheduler will select. *)
Definition rotation (t : ProcessTable) (s : RoundRobinScheduler) : list ProcessId :=
  if has_last_selection s then rotateAfterCursor (runnable t) (last_selected_pid s) true
  else rotateAfterCursor (runnable t) (running_pid t) (hasRunningProcess t).

(** ** Lemmas: sorted lists and rotation *)

Lemma strictly_sorted l : StronglySorted Z.le l -> NoDup l -> StronglySorted Z.lt l.
Proof.
  induction 1 as [|x l Hl IH Hx]; intros Hn; [constructor|]. apply NoDup_cons in Hn as [Hx' Hn].
  constructor; [auto|]. rewrite Forall_forall in *. intros y Hy. specialize (Hx y Hy).
  assert (x <> y) by (intros ->; contradiction). lia.
Qed.

Lemma weakly_sorted l : StronglySorted Z.lt l -> StronglySorted Z.le l.
Proof.
  induction 1 as [|x l Hl IH Hx]; constructor; [exact IH|]. eapply Forall_impl; [exact Hx|]. cbn. lia.
Qed.

Lemma unique_sorted l : StronglySorted Z.lt l -> unique l = l.
Proof.
  induction 1 as [|x l Hl IH Hx]; [reflexivity|]. destruct l as [|y l]; [reflexivity|].
  cbn [unique] in *. apply Forall_cons in Hx as [Hxy _]. rewrite (proj2 (Z.eqb_neq x y)) by lia. rewrite IH. reflexivity.
Qed.

Lemma sorted_split l c :
  StronglySorted Z.lt l -> exists l1 l2, l = l1 ++ l2 /\ Forall (fun x => x <= c) l1 /\ Forall (fun x => c < x) l2.
Proof.
  induction 1 as [|x l Hl IH Hx]; [exists [], []; auto|]. destruct (decide (x <= c)) as [Hc|Hc].
  - destruct IH as (l1 & l2 & -> & H1 & H2). exists (x :: l1), l2. auto.
  - exists [], (x :: l). split; [reflexivity|]. split; [constructor|]. constructor; [lia|].
    eapply Forall_impl; [exact Hx|]. cbn. lia.
Qed.

Lemma upper_bound_app l1 l2 c :
  Forall (fun x => x <= c) l1 -> Forall (fun x => c < x) l2 -> upper_bound (l1 ++ l2) c = length l1.
Proof.
  intros H1 H2. induction H1 as [|x l1 Hx H1 IH]; cbn.
  - destruct H2 as [|y l2 Hy]; [reflexivity|]. cbn. rewrite (proj2 (Z.ltb_lt _ _)) by lia. reflexivity.
  - rewrite (proj2 (Z.ltb_ge _ _)) by lia. rewrite IH. reflexivity.
Qed.

Lemma rotate_split l1 l2 c :
  Forall (fun x => x <= c) l1 -> Forall (fun x => c < x) l2 -> rotateAfterCursor (l1 ++ l2) c true = l2 ++ l1.
Proof.
  intros H1 H2. unfold rotateAfterCursor. rewrite upper_bound_app by assumption.
  rewrite drop_app_length, take_app_length. case_bool_decide as E; cbn [orb negb]; [|reflexivity].
  apply app_eq_nil in E as [-> ->]. reflexivity.
Qed.

Lemma rotate_permutation l c b : rotateAfterCursor l c b ≡ₚ l.
Proof.
  unfold rotateAfterCursor. destruct (_ || _); [reflexivity|]. rewrite Permutation_app_comm, take_drop. reflexivity.
Qed.

(** Selecting the head of the rotation moves it to the end. *)
Lemma rotate_next l c b h rest :
  StronglySorted Z.lt l -> rotateAfterCursor l c b = h :: rest -> rotateAfterCursor l h true = rest ++ [h].
Proof.
  intros Hl H. assert (Hhead : l = h :: rest -> rotateAfterCursor l h true = rest ++ [h]).
  { intros ->. inversion Hl as [|? ? _ Hx]; subst. apply (rotate_split [h] rest h); [constructor; [lia | constructor]|].
    eapply Forall_impl; [exact Hx|]. cbn. lia. }
  destruct b.
  - destruct (sorted_split l c Hl) as (l1 & l2 & -> & H1 & H2). rewrite rotate_split in H by assumption.
    destruct l2 as [|x l2]; [cbn in H; subst l1; rewrite app_nil_r in *; auto|].
    injection H as -> <-. apply StronglySorted_app in Hl as (Hc & _ & Hl2).
    inversion Hl2 as [|? ? _ Hx]; subst.
    rewrite (cons_middle h l1 l2), app_assoc, rotate_split; [rewrite <- app_assoc; reflexivity | |].
    + apply Forall_app. split; [|constructor; [lia | constructor]]. rewrite Forall_forall. intros y Hy.
      assert (y < h) by (apply Hc; [exact Hy | left]). lia.
    + eapply Forall_impl; [exact Hx|]. cbn. lia.
  - apply Hhead. unfold rotateAfterCursor in H. rewrite orb_true_r in H. exact H.
Qed.

(** ** Lemmas: candidates *)

Lemma runnable_spec t pid :
  pid ∈ runnable t <-> exists p, processes t !! pid = Some p /\ (pcb_state p = Ready \/ pcb_state p = Running).
Proof.
  unfold runnable, is_runnable, isRunnableProcessState. rewrite list_elem_of_filter, processIds_spec. split.
  - intros [H [p Hp]]. rewrite Hp in H. exists p. split; [exact Hp|].
    apply orb_true_iff in H as [H|H]; facts; auto.
  - intros (p & Hp & Hs). rewrite Hp. split; [|eauto]. destruct Hs as [-> | ->]; reflexivity.
Qed.

Lemma runnable_sorted t : StronglySorted Z.lt (runnable t).
Proof.
  apply strictly_sorted; [|apply NoDup_filter, processIds_NoDup].
  unfold runnable. pose proof (processIds_sorted t) as H. induction H as [|x l Hl IH Hx]; [constructor|].
  rewrite filter_cons. case_decide; [|exact IH]. constructor; [exact IH|].
  rewrite Forall_forall in *. intros y Hy. apply list_elem_of_filter in Hy. apply Hx, Hy.
Qed.

Lemma running_spec t :
  table_wf t -> hasRunningProcess t = true ->
  exists p, processes t !! running_pid t = Some p /\ pcb_state p = Running.
Proof.
  intros Ht H. unfold hasRunningProcess in H. facts. destruct (twf_running t Ht H) as [p Hp].
  exists p. split; [exact Hp|]. apply (twf_unique t Ht _ _ Hp). reflexivity.
Qed.

Lemma not_running t pid p :
  table_wf t -> hasRunningProcess t = false -> processes t !! pid = Some p -> pcb_state p <> Running.
Proof.
  intros Ht H Hp Hr. unfold hasRunningProcess in H. facts. apply (twf_unique t Ht _ _ Hp) in Hr.
  apply (running_nonzero t Ht) in Hp. lia.
Qed.

(** The candidates of [scheduleNext], sorted and without duplicates, are the
    runnable processes. *)
Lemma candidates_runnable t :
  table_wf t ->
  unique (merge_sort Z.le (processIdsInState Ready t ++ (if hasRunningProcess t then [running_pid t] else []))) =
  runnable t.
Proof.
  intros Ht. set (l := _ ++ _).
  assert (Hel : forall pid, pid ∈ l <-> pid ∈ runnable t).
  { intros pid. unfold l. rewrite elem_of_app, processIdsInState_spec, runnable_spec.
    destruct (hasRunningProcess t) eqn:Hr.
    - destruct (running_spec t Ht Hr) as (q & Hq & Hs). rewrite list_elem_of_singleton. split.
      + intros [(p & Hp & H)| ->]; eauto.
      + intros (p & Hp & [H|H]); [eauto|]. right. apply (twf_unique t Ht _ _ Hp), H.
    - split; [intros [(p & Hp & H)|H]; [eauto | inversion H]|]. intros (p & Hp & [H|H]); [eauto|].
      destruct (not_running t pid p Ht Hr Hp H). }
  assert (Hn : NoDup l).
  { unfold l. apply NoDup_app. split; [apply NoDup_filter, processIds_NoDup|]. split.
    - intros pid Hp Hr. apply processIdsInState_spec in Hp as (p & Hp & Hs).
      destruct (hasRunningProcess t) eqn:E; [|inversion Hr]. apply list_elem_of_singleton in Hr. subst pid.
      destruct (running_spec t Ht E) as (q & Hq & Hq'). congruence.
    - destruct (hasRunningProcess t); [apply NoDup_singleton | constructor]. }
  assert (Hs : StronglySorted Z.lt (merge_sort Z.le l)).
  { apply strictly_sorted; [apply StronglySorted_merge_sort; apply _ | rewrite merge_sort_Permutation; exact Hn]. }
  rewrite unique_sorted by exact Hs.
  apply (StronglySorted_unique Z.le).
  - apply StronglySorted_merge_sort; apply _.
  - apply weakly_sorted, runnable_sorted.
  - rewrite merge_sort_Permutation. apply NoDup_Permutation; [exact Hn | apply NoDup_filter, processIds_NoDup | exact Hel].
Qed.

Lemma hasRunnable_spec t : table_wf t -> hasRunnableProcess t = true <-> runnable t <> [].
Proof.
  intros Ht. unfold hasRunnableProcess. rewrite orb_true_iff, negb_true_iff, bool_decide_eq_false. split.
  - intros H E. assert (Hno : forall pid, pid ∉ runnable t) by (rewrite E; intros pid Hp; inversion Hp). destruct H as [H|H].
    + destruct (running_spec t Ht H) as (p & Hp & Hs). apply (Hno (running_pid t)), runnable_spec. eauto.
    + destruct (processIdsInState Ready t) as [|pid l] eqn:El; [contradiction|].
      assert (Hin : pid ∈ processIdsInState Ready t) by (rewrite El; left).
      apply processIdsInState_spec in Hin as (p & Hp & Hs). apply (Hno pid), runnable_spec. eauto.
  - intros H. destruct (runnable t) as [|pid l] eqn:El; [contradiction|].
    assert (Hin : pid ∈ runnable t) by (rewrite El; left).
    apply runnable_spec in Hin as (p & Hp & [Hs|Hs]).
    + right. intros E. assert (Hin : pid ∈ processIdsInState Ready t) by (apply processIdsInState_spec; eauto).
      rewrite E in Hin. inversion Hin.
    + left. unfold hasRunningProcess. apply (twf_unique t Ht _ _ Hp) in Hs. apply (running_nonzero t Ht) in Hp.
      apply negb_true_iff, Z.eqb_neq. congruence.
Qed.

(** ** Lemmas: switching *)

Lemma switch_lookup t sel pid :
  processes (switch_to sel t) !! pid = switch_state sel pid <$> processes t !! pid.
Proof. unfold switch_to. cbn [processes]. rewrite map_lookup_imap. destruct (_ !! _); reflexivity. Qed.

Lemma set_process_state_same p : set_process_state (pcb_state p) p = p.
Proof. destruct p. reflexivity. Qed.

Lemma switch_runnable t sel : sel ∈ runnable t -> runnable (switch_to sel t) = runnable t.
Proof.
  intros Hsel. apply runnable_spec in Hsel as (q & Hq & Hs).
  assert (Hids : processIds (switch_to sel t) = processIds t).
  { unfold processIds. do 2 f_equal. apply set_eq. intros pid. rewrite !elem_of_dom, switch_lookup, fmap_is_Some. reflexivity. }
  unfold runnable. rewrite Hids. apply list_filter_iff. intros pid. unfold is_runnable. rewrite switch_lookup.
  destruct (processes t !! pid) as [p|] eqn:Hp; [|reflexivity]. cbn [fmap option_fmap option_map]. unfold switch_state.
  case_bool_decide as E.
  - subst pid. rewrite Hq in Hp. injection Hp as <-. destruct Hs as [E|E]; rewrite E; reflexivity.
  - case_bool_decide as E'; [rewrite E'; reflexivity | reflexivity].
Qed.

(** The table of [scheduleNext], in the two cases that change it. *)
Lemma switch_from_idle t sel p :
  table_wf t -> hasRunningProcess t = false -> processes t !! sel = Some p ->
  set_running_pid (running_after t sel p (set_process_state Running p)) (set_process sel (set_process_state Running p) t)
  = switch_to sel t.
Proof.
  intros Ht Hr Hp. unfold running_after. cbn [set_process_state pcb_state]. rewrite bool_decide_eq_true_2 by reflexivity.
  unfold set_running_pid, set_process, switch_to. cbn [processes next_pid]. f_equal. apply map_eq. intros pid.
  rewrite map_lookup_imap. unfold switch_state. destruct (decide (pid = sel)) as [->|Hne].
  - rewrite lookup_insert_eq, Hp. cbn. rewrite bool_decide_eq_true_2 by reflexivity. reflexivity.
  - rewrite lookup_insert_ne by congruence. destruct (processes t !! pid) as [q|] eqn:Hq; [|reflexivity]. cbn.
    rewrite bool_decide_eq_false_2 by exact Hne.
    rewrite bool_decide_eq_false_2 by (eapply not_running; eassumption). reflexivity.
Qed.

Lemma switch_same t p :
  table_wf t -> processes t !! running_pid t = Some p -> switch_to (running_pid t) t = t.
Proof.
  intros Ht Hp. destruct t as [m n r]. unfold switch_to. cbn in *. f_equal. apply map_eq. intros pid.
  rewrite map_lookup_imap. destruct (m !! pid) as [q|] eqn:Hq; [|reflexivity]. cbn. f_equal. unfold switch_state.
  pose proof (twf_unique _ Ht pid q Hq) as Hu. cbn in Hu.
  case_bool_decide as E; [rewrite <- (proj2 Hu E) at 1; apply set_process_state_same|].
  case_bool_decide as E'; [|reflexivity]. destruct (E (proj1 Hu E')).
Qed.

(** Preempting: the running process becomes Ready first. *)
Lemma preempt_run t cur :
  table_wf t -> hasRunningProcess t = true -> processes t !! running_pid t = Some cur -> pcb_state cur = Running ->
  let t1 := set_running_pid 0 (set_process (running_pid t) (set_process_state Ready cur) t) in
  transition (running_pid t) Ready t = (Ret tt, t1) /\ table_wf t1 /\ hasRunningProcess t1 = false /\
  forall sel, sel <> running_pid t -> switch_to sel t1 = switch_to sel t.
Proof.
  intros Ht Hr Hp Hs t1.
  assert (Hrun : transition (running_pid t) Ready t = (Ret tt, t1)).
  { rewrite (transition_run t (running_pid t) cur Ready); [| exact Hp | discriminate | rewrite Hs; reflexivity | discriminate].
    unfold running_after. rewrite Hs. reflexivity. }
  split; [exact Hrun|]. split; [|split; [reflexivity|]].
  - pose proof (transition_moves (running_pid t) Ready t Ht) as H. rewrite Hrun in H. eapply move_wf; eassumption.
  - intros sel Hne. unfold switch_to, t1. cbn [set_running_pid set_process processes next_pid]. f_equal. apply map_eq. intros pid.
    rewrite !map_lookup_imap. destruct (decide (pid = running_pid t)) as [->|Hn].
    + rewrite lookup_insert_eq, Hp. cbn. f_equal. unfold switch_state. rewrite bool_decide_eq_false_2 by congruence.
      rewrite Hs. reflexivity.
    + rewrite lookup_insert_ne by congruence. reflexivity.
Qed.

Lemma schedule_idle_run t sel :
  table_wf t -> hasRunningProcess t = false -> sel ∈ runnable t -> transition sel Running t = (Ret tt, switch_to sel t).
Proof.
  intros Ht Hr Hsel. apply runnable_spec in Hsel as (p & Hp & Hs).
  assert (Hrp : running_pid t = 0) by (unfold hasRunningProcess in Hr; facts; exact Hr).
  rewrite (transition_run t sel p Running); [rewrite switch_from_idle by assumption; reflexivity | exact Hp | discriminate | |].
  - destruct Hs as [-> | ->]; reflexivity.
  - intros _. left. exact Hrp.
Qed.

Lemma rotation_permutation t s : rotation t s ≡ₚ runnable t.
Proof. unfold rotation. destruct (has_last_selection s); apply rotate_permutation. Qed.

Lemma rotation_elem t s sel rest : rotation t s = sel :: rest -> sel ∈ runnable t.
Proof.
  intros H. rewrite <- (rotation_permutation t s), H. left.
Qed.

(** [scheduleNext] selects the head of the rotation. *)
Lemma scheduleNext_run t s :
  table_wf t ->
  scheduleNext (t, s) =
  match rotation t s with
  | [] => (Throw (RuntimeError "Round-robin scheduler has no runnable process"), (t, s))
  | sel :: _ => (Ret sel, (switch_to sel t, {| has_last_selection := true; last_selected_pid := sel |}))
  end.
Proof.
  intros Ht. pose proof (candidates_runnable t Ht) as Hcand. unfold scheduleNext. rewrite bind_run. unfold get at 1.
  rewrite bind_run. unfold lift at 1.
  assert (Hcur : (if hasRunningProcess t then runningProcessId t else mret 0)
                 = Ret (if hasRunningProcess t then running_pid t else 0)).
  { unfold runningProcessId. destruct (hasRunningProcess t); reflexivity. }
  rewrite Hcur. cbv zeta.
  replace (if hasRunningProcess t then [if hasRunningProcess t then running_pid t else 0] else [])
    with (if hasRunningProcess t then [running_pid t] else []) by (destruct (hasRunningProcess t); reflexivity).
  rewrite Hcand. pose proof (rotation_elem t s) as Hel.
  assert (Hrot : rotateAfterCursor (runnable t)
      (if negb (has_last_selection s) && hasRunningProcess t
       then if hasRunningProcess t then running_pid t else 0 else last_selected_pid s)
      (if negb (has_last_selection s) && hasRunningProcess t then true else has_last_selection s) = rotation t s).
  { unfold rotation. destruct (has_last_selection s), (hasRunningProcess t); cbn [negb andb]; try reflexivity.
    unfold rotateAfterCursor. rewrite !orb_true_r. reflexivity. }
  rewrite Hrot. destruct (rotation t s) as [|sel rest] eqn:Er.
  { assert (E : runnable t = []) by (apply Permutation_nil_r; rewrite <- Er; symmetry; apply rotation_permutation).
    rewrite E. reflexivity. }
  specialize (Hel _ _ eq_refl). rewrite bool_decide_eq_false_2 by (intros E; rewrite E in Hel; inversion Hel).
  rewrite bind_run. cbn [throw_if mret M_ret front hd]. rewrite bind_run.
  destruct (hasRunningProcess t) eqn:Hr.
  - destruct (running_spec t Ht Hr) as (cur & Hp & Hs). destruct (sel =? running_pid t) eqn:Ec; facts; cbn [negb].
    + subst sel. cbn. rewrite (switch_same t cur) by assumption. reflexivity.
    + destruct (preempt_run t cur Ht Hr Hp Hs) as (Hrun & Ht1 & Hr1 & Hsw). specialize (Hsw sel Ec).
      set (t1 := set_running_pid 0 _) in *.
      assert (Hsel1 : sel ∈ runnable t1).
      { apply runnable_spec in Hel as (q & Hq & Hqs). apply runnable_spec. exists q. split; [|exact Hqs].
        unfold t1. cbn [set_running_pid set_process processes]. rewrite lookup_insert_ne by congruence. exact Hq. }
      rewrite bind_run. unfold on_table at 1, zoom at 1. cbn [fst]. rewrite Hrun. cbn.
      unfold try_catch, on_table, zoom. cbn [fst]. rewrite schedule_idle_run, Hsw by assumption. reflexivity.
  - unfold on_table, zoom. cbn [fst]. rewrite schedule_idle_run by assumption. reflexivity.
Qed.

(** ** Lemmas: rounds *)

Lemma switch_wf t sel : table_wf t -> sel ∈ runnable t -> table_wf (switch_to sel t).
Proof.
  intros Ht Hsel.
  assert (Hidle : forall t, table_wf t -> hasRunningProcess t = false -> sel ∈ runnable t -> table_wf (switch_to sel t)).
  { clear t Ht Hsel. intros t Ht Hr Hsel. pose proof (transition_moves sel Running t Ht) as H.
    rewrite schedule_idle_run in H by assumption. eapply move_wf; eassumption. }
  destruct (hasRunningProcess t) eqn:Hr; [|auto].
  destruct (running_spec t Ht Hr) as (cur & Hp & Hs). destruct (decide (sel = running_pid t)) as [->|Hne].
  - rewrite (switch_same t cur) by assumption. exact Ht.
  - destruct (preempt_run t cur Ht Hr Hp Hs) as (_ & Ht1 & Hr1 & Hsw). rewrite <- Hsw by exact Hne. apply Hidle; try assumption.
    apply runnable_spec in Hsel as (q & Hq & Hqs). apply runnable_spec. exists q. split; [|exact Hqs].
    cbn [set_running_pid set_process processes]. rewrite lookup_insert_ne by congruence. exact Hq.
Qed.

(** Two tables that differ in the states of runnable processes only. *)
Definition same_processes (t t' : ProcessTable) : Prop :=
  runnable t' = runnable t /\
  forall pid p, processes t !! pid = Some p ->
    exists p', processes t' !! pid = Some p' /\ p' = set_process_state (pcb_state p') p /\
               (pid ∉ runnable t -> p' = p).

Lemma same_processes_trans t1 t2 t3 : same_processes t1 t2 -> same_processes t2 t3 -> same_processes t1 t3.
Proof.
  intros [R1 S1] [R2 S2]. split; [congruence|]. intros pid p Hp.
  destruct (S1 _ _ Hp) as (p2 & H2 & E2 & K2). destruct (S2 _ _ H2) as (p3 & H3 & E3 & K3).
  exists p3. split; [exact H3|]. split.
  - rewrite E3, E2. reflexivity.
  - intros Hn. rewrite K3, K2 by (try rewrite R1; exact Hn). reflexivity.
Qed.

Lemma same_processes_refl t : same_processes t t.
Proof.
  split; [reflexivity|]. intros pid p Hp. exists p. split; [exact Hp|]. split; [|reflexivity].
  symmetry. apply set_process_state_same.
Qed.

Lemma switch_same_processes t sel : sel ∈ runnable t -> same_processes t (switch_to sel t).
Proof.
  intros Hsel. split; [apply switch_runnable, Hsel|]. intros pid p Hp. exists (switch_state sel pid p).
  rewrite switch_lookup, Hp. split; [reflexivity|]. unfold switch_state. split.
  - repeat case_bool_decide; try reflexivity. symmetry. apply set_process_state_same.
  - intros Hn. rewrite bool_decide_eq_false_2 by congruence. case_bool_decide as E; [|reflexivity].
    destruct Hn. apply runnable_spec. eauto.
Qed.

(** [n] selections in a row. *)
Fixpoint schedules (n : nat) : M (ProcessTable * RoundRobinScheduler) (list ProcessId) :=
  match n with
  | O => mret []
  | S n => pid ← scheduleNext; pids ← schedules n; mret (pid :: pids)
  end.

Lemma schedules_run l1 l2 t s :
  table_wf t -> rotation t s = l1 ++ l2 ->
  exists t' s', schedules (length l1) (t, s) = (Ret l1, (t', s')) /\ table_wf t' /\
                same_processes t t' /\ rotation t' s' = l2 ++ l1.
Proof.
  revert l2 t s. induction l1 as [|sel l1 IH]; intros l2 t s Ht Hr.
  - exists t, s. rewrite app_nil_r. auto using same_processes_refl.
  - pose proof (rotation_elem t s sel (l1 ++ l2) Hr) as Hsel. cbn [length schedules].
    set (s1 := {| has_last_selection := true; last_selected_pid := sel |}).
    assert (Hr1 : rotation (switch_to sel t) s1 = l1 ++ (l2 ++ [sel])).
    { unfold rotation. cbn [has_last_selection last_selected_pid s1]. rewrite switch_runnable by exact Hsel.
      rewrite app_assoc. unfold rotation in Hr.
      destruct (has_last_selection s); eapply rotate_next; (apply runnable_sorted || exact Hr). }
    destruct (IH (l2 ++ [sel]) (switch_to sel t) s1) as (t' & s' & Hrun & Ht' & Hsame & Hr'); [apply switch_wf; assumption | exact Hr1 |].
    exists t', s'. rewrite bind_run, scheduleNext_run, Hr by exact Ht. cbn [app]. fold s1. rewrite bind_run, Hrun.
    split; [reflexivity|]. split; [exact Ht'|]. split.
    + eapply same_processes_trans; [apply switch_same_processes, Hsel | exact Hsame].
    + rewrite Hr', <- app_assoc. reflexivity.
Qed.

Lemma schedules_app n k t s l t1 s1 :
  schedules n (t, s) = (Ret l, (t1, s1)) ->
  schedules (n + k) (t, s) = match schedules k (t1, s1) with
                             | (Ret l', st) => (Ret (l ++ l'), st)
                             | (Throw e, st) => (Throw e, st)
                             end.
Proof.
  revert t s l. induction n as [|n IH]; intros t s l H.
  - injection H as <- <- <-. cbn. destruct (schedules k (t, s)) as [[l'|e] st]; reflexivity.
  - cbn [schedules Nat.add] in *. apply M_bind_ret_inv in H as (pid & [t2 s2] & Hn & H).
    apply M_bind_ret_inv in H as (pids & st & H & E). injection E as <- ->.
    rewrite bind_run, Hn, bind_run, (IH _ _ _ H). destruct (schedules k (t1, s1)) as [[l'|e] st]; reflexivity.
Qed.

(** ** Property *)

(** (C37) Round-robin scheduling is fair.  As long as the set of runnable
    processes does not change, [n] rounds of selections run every runnable
    process exactly [n] times, each round in the same cyclic order: the
    processes with identifiers after the last selected one first, in increasing
    order, then the others.  Selecting changes nothing but which processes are
    Ready and Running, keeps the table's invariant, and fails exactly when no
    process is runnable, without a change. *)
Theorem round_robin_fair (t : ProcessTable) (s : RoundRobinScheduler) (n : nat) (Ht : table_wf t) :
  (exists t' s',
     schedules (n * length (runnable t)) (t, s) = (Ret (concat (replicate n (rotation t s))), (t', s')) /\
     table_wf t' /\ same_processes t t' /\ (n = 0%nat \/ rotation t' s' = rotation t s)) /\
  (rotation t s ≡ₚ runnable t /\ NoDup (runnable t)) /\
  match scheduleNext (t, s) with
  | (Ret sel, (t', s')) =>
      sel ∈ runnable t /\ running_pid t' = sel /\ table_wf t' /\ same_processes t t' /\
      lastSelectedProcessId s' = Ret sel
  | (Throw _, st) => runnable t = [] /\ st = (t, s)
  end.
Proof.
  split; [|split; [split; [apply rotation_permutation | apply NoDup_filter, processIds_NoDup]|]].
  - rewrite <- (Permutation_length (rotation_permutation t s)).
    enough (H : exists t' s', schedules (n * length (rotation t s)) (t, s) = (Ret (concat (replicate n (rotation t s))), (t', s')) /\
      table_wf t' /\ same_processes t t' /\ rotation t' s' = rotation t s) by (destruct H as (t' & s' & ? & ? & ? & ?); eauto 10).
    set (l := rotation t s). assert (Hl : rotation t s = l) by reflexivity. clearbody l. revert t s Ht Hl.
    induction n as [|n IH]; intros t s Ht Hl; [exists t, s; auto using same_processes_refl|].
    destruct (schedules_run l [] t s Ht) as (t1 & s1 & Hrun & Ht1 & Hs1 & Hr1); [rewrite app_nil_r; exact Hl|].
    destruct (IH t1 s1 Ht1 Hr1) as (t2 & s2 & Hrun2 & Ht2 & Hs2 & Hr2). exists t2, s2.
    cbn [Nat.mul]. rewrite (schedules_app _ _ _ _ _ _ _ Hrun), Hrun2. eauto using same_processes_trans.
  - rewrite scheduleNext_run by exact Ht. destruct (rotation t s) as [|sel rest] eqn:E.
    + split; [|reflexivity]. apply Permutation_nil_r. rewrite <- E. symmetry. apply rotation_permutation.
    + apply rotation_elem in E. split; [exact E|]. split; [reflexivity|].
      split; [apply switch_wf; assumption|]. split; [apply switch_same_processes, E | reflexivity].
Qed.

(** Three processes made from the same program. *)
Definition three_processes : ProcessTable :=
  run_ops [OpCreateImage sample_image; OpCreateImage sample_image; OpCreateImage sample_image] new_ProcessTable.

Example round_robin_fair_witness :
  table_wf three_processes /\
  answer (schedules 6) (three_processes, new_RoundRobinScheduler) = Ret [1; 2; 3; 1; 2; 3].
Proof.
  assert (Ht : table_wf three_processes) by (apply run_ops_develops, new_ProcessTable_wf).
  split; [exact Ht|]. destruct (round_robin_fair three_processes new_RoundRobinScheduler 2 Ht) as [(t' & s' & H & _) _].
  assert (Hl : rotation three_processes new_RoundRobinScheduler = [1; 2; 3]) by (vm_compute; reflexivity).
  assert (Hr : length (runnable three_processes) = 3%nat) by (vm_compute; reflexivity).
  rewrite Hl, Hr in H. unfold answer. change 6%nat with (2 * 3)%nat. rewrite H. reflexivity.
Defined.
