(* ===== verification/Dispatcher.v ===== *)
(** * Dispatching processes

    Models [src/kernel/ProcessDispatcher.cpp]: saving the running process,
    selecting the next one, activating its address space and restoring its
    context, on copies that replace the originals only when everything
    succeeded.  The main results: what a dispatch does, that it succeeds on
    processes made from loaded images, and that a preempted process resumes with
    exactly the registers, flags, stack pointers and memory it had, whatever
    the processes in between did. *)

From S2P Require Import Prelude Words ALU Memory ISA Binary Interrupts Devices CPUState Trace CPU Image Process ProcTable Scheduler.
Open Scope Z_scope.

(** The three objects [dispatchNext] works on. *)
Record Kernel := {
  k_cpu : CPU;
  k_table : ProcessTable;
  k_scheduler : RoundRobinScheduler;
}.

Definition on_k_cpu {A} (m : M CPU A) : M Kernel A :=
  zoom k_cpu (fun c k => {| k_cpu := c; k_table := k_table k; k_scheduler := k_scheduler k |}) m.
Definition on_k_table {A} (m : M ProcessTable A) : M Kernel A :=
  zoom k_table (fun t k => {| k_cpu := k_cpu k; k_table := t; k_scheduler := k_scheduler k |}) m.
Definition on_k_scheduler {A} (m : M (ProcessTable * RoundRobinScheduler) A) : M Kernel A :=
  zoom (fun k => (k_table k, k_scheduler k))
       (fun '(t, s) k => {| k_cpu := k_cpu k; k_table := t; k_scheduler := s |}) m.

Definition ProcessDispatcher_dispatchNext : M Kernel ProcessId :=
  k ← get;
  let c := k_cpu k in
  let t := k_table k in
  _ ← throw_if (using_kernel_interrupt_stack c)
        (RuntimeError "Cannot dispatch while Kernel interrupt stack is active");
  _ ← throw_if (negb (hasRunnableProcess t)) (RuntimeError "Process dispatcher has no runnable process");
  staged (
    _ ← (if hasRunningProcess t then
           currentPid ← lift (runningProcessId t);
           currentContext ← lift (captureProcessContext currentPid c);
           on_k_table (updateRuntimeState currentPid currentContext (memory (state c)))
         else mret tt);
    selectedPid ← on_k_scheduler scheduleNext;
    stagedTable ← gets k_table;
    selected ← lift (requireProcess selectedPid stagedTable);
    _ ← on_k_cpu (ProcessAddressSpace_activate (pcb_address_space selected));
    stagedCpu ← gets k_cpu;
    _ ← lift (validateProcessContextForCPU (pcb_context selected) stagedCpu);
    _ ← on_k_cpu (restoreProcessContext (pcb_context selected));
    mret selectedPid).

(** ** Specification *)

(** The table once the CPU's state is saved in the running process. *)
Definition saved (k : Kernel) : ProcessTable :=
  let t := k_table k in
  match processes t !! running_pid t with
  | Some p =>
      let a := pcb_address_space p in
      set_process (running_pid t)
        (set_context (context_of (running_pid t) (k_cpu k))
           {| as_memory := memory (state (k_cpu k)); as_executable_metadata := as_executable_metadata a;
              as_executable := as_executable a |} p) t
  | None => t
  end.

(** A CPU once the address space of a process with an executable is activated:
    the program is loaded and memory is the process's own; devices, trace and
    handler stay. *)
Definition activated (a : ProcessAddressSpace) (program : BinaryProgram) (c : CPU) : CPU :=
  let entry := kBinaryCodeBase + entry_point (header program) in
  let n := Z.of_nat (length (code program)) in
  let s := set_memory (as_memory a) (setPc entry (CPUState_reset (state c))) in
  set_process_exit false 0 (set_using_kernel_interrupt_stack false (set_kernel_stack_pointer kKernelStackBase
    (set_user_code_range true kBinaryCodeBase (kBinaryCodeBase + n) (set_binary true kBinaryCodeBase entry n
       (set_program [] ∅ (set_state s c)))))).

(** Processes made from a loaded image: the executable is well formed and meets
    the layout, and the context may execute its code. *)
Record image_process (p : ProcessControlBlock) : Prop := {
  ip_executable : exists program name,
    as_executable (pcb_address_space p) = Some program /\
    as_executable_metadata (pcb_address_space p) = Some (metadata_of program name) /\
    program_ok program /\ loadable program name /\
    ctx_user_code_begin (pcb_context p) = kBinaryCodeBase /\
    ctx_user_code_end_exclusive (pcb_context p) = kBinaryCodeBase + Z.of_nat (length (code program));
  ip_range : ctx_has_user_code_range (pcb_context p) = true;
  ip_registers : length (ctx_registers (pcb_context p)) = kRegisterCount;
  ip_stack : ctx_user_stack_begin (pcb_context p) = kUserStackBase /\
             ctx_user_stack_end_exclusive (pcb_context p) = kUserStackEndExclusive;
}.

(** The CPU has the shape of the hardware, and the code range of the running process. *)
Definition cpu_runs (c : CPU) (p : ProcessControlBlock) : Prop :=
  has_user_code_range c = true /\ user_code_begin c = ctx_user_code_begin (pcb_context p) /\
  user_code_end_exclusive c = ctx_user_code_end_exclusive (pcb_context p).

Record kernel_ok (k : Kernel) : Prop := {
  kok_table : table_wf (k_table k);
  kok_images : map_Forall (fun _ => image_process) (processes (k_table k));
  kok_registers : length (registers (state (k_cpu k))) = kRegisterCount;
  kok_memory : Memory_size (memory (state (k_cpu k))) = kDefaultMemorySize;
  kok_running : forall p, processes (k_table k) !! running_pid (k_table k) = Some p -> cpu_runs (k_cpu k) p;
}.

(** The running process may be saved: no Kernel interrupt frame is on the
    stack, its context is valid and its code is intact. *)
Definition preemptible (k : Kernel) : Prop :=
  using_kernel_interrupt_stack (k_cpu k) = false /\
  forall p, processes (k_table k) !! running_pid (k_table k) = Some p ->
    context_ok (context_of (running_pid (k_table k)) (k_cpu k)) /\
    ProcessAddressSpace_validate
      {| as_memory := memory (state (k_cpu k));
         as_executable_metadata := as_executable_metadata (pcb_address_space p);
         as_executable := as_executable (pcb_address_space p) |} = Ret tt.

(** ** Lemmas: activation *)

Lemma loadBinaryProgram_run program name c :
  program_ok program -> loadable program name -> Memory_size (memory (state c)) = kDefaultMemorySize ->
  exists mem trace, loadBinaryProgram program c =
  (Ret tt, set_trace trace (activated {| as_memory := mem; as_executable_metadata := None; as_executable := None |} program c)).
Proof.
  intros Hok Hl Hm. pose proof Hok as [[_ He _ _ _ _ _ Hin _] Hc _ _ _]. pose proof Hl as (_ & Hend & Hfit & _).
  assert (Hsize : Memory_size (memory (CPUState_reset (state c))) = Memory_size (new_memory kDefaultMemorySize)).
  { cbn [memory CPUState_reset]. unfold Memory_size in *. unfold Memory_reset. rewrite length_fmap. exact Hm. }
  assert (Hne : (Z.of_nat (length (code program)) =? 0) = false) by (apply Z.eqb_neq; rewrite <- Hc; words).
  assert (Hu : u64 (kDefaultBinaryCodeBase + Z.of_nat (length (code program)))
               = kBinaryCodeBase + Z.of_nat (length (code program)))
    by (apply u64_small; change kDefaultBinaryCodeBase with 512; clear - Hfit; layout).
  pose proof (loadIntoMemory_run program (memory (CPUState_reset (state c))) kDefaultBinaryCodeBase Hok ltac:(unfold kDefaultBinaryCodeBase; words)
    ltac:(rewrite Hsize; reflexivity) Hend
    ltac:(unfold placeable; rewrite Hsize; exact (loadable_placeable program name Hok Hl))) as Hload.
  change kDefaultBinaryCodeBase with kBinaryCodeBase in Hload, Hu.
  exists (loaded_memory program (memory (CPUState_reset (state c))) kBinaryCodeBase), TraceLogger_clear.
  unfold loadBinaryProgram, modify, zoom, mbind, M_bind. cbv beta iota.
  change kDefaultBinaryCodeBase with kBinaryCodeBase.
  cbn [set_state set_program set_trace state]. rewrite Hload. cbv beta iota.
  cbn [img_code_size img_code_base img_entry_point]. rewrite Hne, Hu. reflexivity.
Qed.

Lemma activate_run a program name c :
  ProcessAddressSpace_validate a = Ret tt -> as_executable a = Some program ->
  program_ok program -> loadable program name -> Memory_size (memory (state c)) = kDefaultMemorySize ->
  ProcessAddressSpace_activate a c = (Ret tt, activated a program c).
Proof.
  intros Hv Ha Hok Hl Hm. destruct (loadBinaryProgram_run program name c Hok Hl Hm) as (mem & trace & Hload).
  unfold ProcessAddressSpace_activate, staged, lift, gets, modify, cpu_state, modify, mbind, M_bind.
  rewrite Hv, Ha. cbv beta iota. rewrite Hload. destruct c as [[]]. reflexivity.
Qed.

Lemma activated_range_fits a program name c ctx :
  program_ok program -> loadable program name ->
  ctx_user_code_begin ctx = kBinaryCodeBase ->
  ctx_user_code_end_exclusive ctx = kBinaryCodeBase + Z.of_nat (length (code program)) ->
  range_fits ctx (activated a program c).
Proof.
  intros [[_ Hent _ _ _ _ Hw Hi _] Hc _ _ _] (_ & _ & Hfit & _) Hb He _. rewrite Hb, He. unfold validateUserCodeRange.
  cbn [has_binary_program binary_code_base binary_code_size activated set_process_exit set_using_kernel_interrupt_stack
       set_kernel_stack_pointer set_user_code_range set_binary set_program set_state].
  rewrite <- Hc in *. rewrite Z.geb_leb, (proj2 (Z.leb_gt _ _)) by layout. rewrite u64_small by layout.
  rewrite Z.ltb_irrefl, Z.gtb_ltb, Z.ltb_irrefl. cbn [orb].
  replace (kBinaryCodeBase - kBinaryCodeBase) with 0 by lia.
  replace (kBinaryCodeBase + code_size (header program) - kBinaryCodeBase) with (code_size (header program)) by lia.
  rewrite Hw. reflexivity.
Qed.

(** ** Lemmas: saving the running process *)

Section saving.
Context (k : Kernel) (Hk : kernel_ok k) (Hpre : preemptible k).

Lemma saved_lookup pid :
  processes (saved k) !! pid =
  (fun p => if bool_decide (pid = running_pid (k_table k))
            then set_context (context_of pid (k_cpu k))
                   {| as_memory := memory (state (k_cpu k));
                      as_executable_metadata := as_executable_metadata (pcb_address_space p);
                      as_executable := as_executable (pcb_address_space p) |} p
            else p) <$> processes (k_table k) !! pid.
Proof.
  unfold saved. destruct (processes (k_table k) !! running_pid (k_table k)) as [p|] eqn:Hp.
  - cbn [set_process processes]. destruct (decide (pid = running_pid (k_table k))) as [->|Hne].
    + rewrite lookup_insert_eq, Hp, bool_decide_eq_true_2 by reflexivity. reflexivity.
    + rewrite lookup_insert_ne by congruence. rewrite bool_decide_eq_false_2 by exact Hne.
      destruct (processes (k_table k) !! pid); reflexivity.
  - destruct (processes (k_table k) !! pid) as [q|] eqn:Hq; [|reflexivity]. cbn.
    rewrite bool_decide_eq_false_2 by congruence. reflexivity.
Qed.

Lemma saved_running : running_pid (saved k) = running_pid (k_table k).
Proof. unfold saved. destruct (_ !! _); reflexivity. Qed.

Lemma cpu_context_registers pid : length (ctx_registers (context_of pid (k_cpu k))) = kRegisterCount.
Proof. apply Hk. Qed.

Lemma save_run p :
  processes (k_table k) !! running_pid (k_table k) = Some p ->
  updateRuntimeState (running_pid (k_table k)) (context_of (running_pid (k_table k)) (k_cpu k))
    (memory (state (k_cpu k))) (k_table k) = (Ret tt, saved k).
Proof.
  intros Hp. destruct Hpre as [_ Hv]. destruct (Hv p Hp) as [Hc Ha]. unfold updateRuntimeState, saved.
  rewrite on_process_run. unfold requireProcess. rewrite Hp. cbn [mbind outcome_bind mret outcome_ret].
  pose proof (entry_lookup _ (kok_table _ Hk) _ _ Hp) as He.
  pose proof (proj2 (twf_unique _ (kok_table _ Hk) _ _ Hp) eq_refl) as Hs.
  unfold replaceRuntimeState, replaceMemory. rewrite Hs. cbn [throw_if mbind outcome_bind mret outcome_ret].
  rewrite (bool_decide_eq_false_2 (Running = Terminated)) by discriminate. cbn [throw_if mret outcome_ret].
  rewrite (proj2 (validateProcessContext_spec _) Hc). cbn [ctx_pid context_of]. rewrite (eok_pid _ _ _ He), Z.eqb_refl, Ha. reflexivity.
Qed.

Lemma saved_wf : table_wf (saved k).
Proof.
  destruct (processes (k_table k) !! running_pid (k_table k)) as [p|] eqn:Hp; [|unfold saved; rewrite Hp; apply Hk].
  pose proof (run_op_develops (OpUpdateRuntimeState (running_pid (k_table k))
    (context_of (running_pid (k_table k)) (k_cpu k)) (memory (state (k_cpu k)))) _ (kok_table _ Hk)) as [H _].
  cbn [run_op] in H. unfold final in H. rewrite (save_run p Hp) in H. exact H.
Qed.

Lemma saved_images : map_Forall (fun _ => image_process) (processes (saved k)).
Proof.
  intros pid p Hp. rewrite saved_lookup in Hp. destruct (processes (k_table k) !! pid) as [q|] eqn:Hq; [|discriminate].
  cbn in Hp. injection Hp as <-. pose proof (kok_images _ Hk _ _ Hq) as Hi. cbn beta in Hi.
  case_bool_decide as E; [|exact Hi]. subst pid. destruct (kok_running _ Hk _ Hq) as (H1 & H2 & H3).
  destruct Hi as [(program & name & He & Hm & Hok & Hl & Hb & Hn) Hr Hregs Hst].
  constructor; cbn [set_context pcb_address_space pcb_context as_executable as_executable_metadata ctx_registers
    ctx_has_user_code_range ctx_user_code_begin ctx_user_code_end_exclusive ctx_user_stack_begin
    ctx_user_stack_end_exclusive context_of].
  - exists program, name. rewrite H1, H2, H3. auto 10.
  - exact H1.
  - apply Hk.
  - split; reflexivity.
Qed.

Lemma saved_runnable : runnable (saved k) = runnable (k_table k).
Proof.
  assert (Hids : processIds (saved k) = processIds (k_table k)).
  { unfold processIds. do 2 f_equal. apply set_eq. intros pid. rewrite !elem_of_dom, saved_lookup, fmap_is_Some. reflexivity. }
  unfold runnable. rewrite Hids. apply list_filter_iff. intros pid. unfold is_runnable. rewrite saved_lookup.
  destruct (processes (k_table k) !! pid); [|reflexivity]. cbn. case_bool_decide; reflexivity.
Qed.

Lemma saved_rotation s : rotation (saved k) s = rotation (k_table k) s.
Proof. unfold rotation, hasRunningProcess. rewrite saved_runnable, saved_running. reflexivity. Qed.

End saving.

(** ** Lemmas: dispatching *)

(** The kernel after a dispatch that selects [sel], whose block is then [p]. *)
Definition dispatched (k : Kernel) (sel : ProcessId) (p : ProcessControlBlock) (program : BinaryProgram) : Kernel :=
  {| k_cpu := resumed (pcb_context p) (activated (pcb_address_space p) program (k_cpu k));
     k_table := switch_to sel (saved k);
     k_scheduler := {| has_last_selection := true; last_selected_pid := sel |} |}.

Lemma switch_image t sel : map_Forall (fun _ => image_process) (processes t) ->
  map_Forall (fun _ => image_process) (processes (switch_to sel t)).
Proof.
  intros H pid p Hp. rewrite switch_lookup in Hp. destruct (processes t !! pid) as [q|] eqn:Hq; [|discriminate].
  injection Hp as <-. pose proof (H pid q Hq) as []. unfold switch_state. repeat case_bool_decide; constructor; assumption.
Qed.

Lemma dispatch_run k sel rest :
  kernel_ok k -> preemptible k -> rotation (k_table k) (k_scheduler k) = sel :: rest ->
  exists p program,
    processes (switch_to sel (saved k)) !! sel = Some p /\ as_executable (pcb_address_space p) = Some program /\
    image_process p /\ context_ok (pcb_context p) /\
    ProcessDispatcher_dispatchNext k = (Ret sel, dispatched k sel p program).
Proof.
  intros Hk Hpre Hrot. pose proof (rotation_elem _ _ _ _ Hrot) as Hel.
  assert (Hel' : sel ∈ runnable (saved k)) by (rewrite saved_runnable by assumption; exact Hel).
  pose proof (switch_wf _ sel (saved_wf k Hk Hpre) Hel') as Hwf.
  apply runnable_spec in Hel' as (q & Hq & _).
  assert (Hp : processes (switch_to sel (saved k)) !! sel = Some (set_process_state Running q)).
  { rewrite switch_lookup, Hq. unfold switch_state. cbn. rewrite bool_decide_eq_true_2 by reflexivity. reflexivity. }
  pose proof (switch_image _ sel (saved_images k Hk) _ _ Hp) as Hi. cbn beta in Hi.
  pose proof (entry_lookup _ Hwf _ _ Hp) as [_ _ _ _ Hctx Hspace _]. specialize (Hctx ltac:(discriminate)).
  set (p := set_process_state Running q) in *. clearbody p. clear q Hq.
  pose proof Hi as [(program & name & He & Hm & Hok & Hl & Hb & Hn) Hr Hregs Hst]. exists p, program.
  split; [exact Hp|]. split; [exact He|]. split; [exact Hi|]. split; [exact Hctx|].
  unfold ProcessDispatcher_dispatchNext, get. rewrite bind_run. cbv zeta. destruct Hpre as [Hu Hv].
  rewrite bind_run, Hu. cbn [throw_if mret M_ret]. rewrite bind_run.
  rewrite (proj2 (hasRunnable_spec _ (kok_table _ Hk))) by (intros E; rewrite E in Hel; inversion Hel).
  cbn [negb throw_if mret M_ret]. unfold staged.
  assert (Hsave : (if hasRunningProcess (k_table k) then
           currentPid ← lift (runningProcessId (k_table k));
           currentContext ← lift (captureProcessContext currentPid (k_cpu k));
           on_k_table (updateRuntimeState currentPid currentContext (memory (state (k_cpu k))))
         else mret tt) k = (Ret tt, {| k_cpu := k_cpu k; k_table := saved k; k_scheduler := k_scheduler k |})).
  { destruct (hasRunningProcess (k_table k)) eqn:Hrun.
    - destruct (running_spec _ (kok_table _ Hk) Hrun) as (cur & Hcur & _). destruct (Hv cur Hcur) as [Hc _].
      rewrite bind_run. unfold lift at 1, runningProcessId. rewrite Hrun. cbn [negb throw_if mbind outcome_bind mret outcome_ret].
      rewrite bind_run. unfold lift. rewrite (proj2 (capture_spec _ _ _ (kok_registers _ Hk)))
        by (split; [exact Hu | split; [reflexivity | exact Hc]]).
      unfold on_k_table, zoom. rewrite (save_run k Hk (conj Hu Hv) cur Hcur). reflexivity.
    - unfold saved. destruct (processes (k_table k) !! running_pid (k_table k)) as [cur|] eqn:Hcur; [|destruct k; reflexivity].
      exfalso. apply (not_running _ _ _ (kok_table _ Hk) Hrun Hcur), (twf_unique _ (kok_table _ Hk) _ _ Hcur). reflexivity. }
  rewrite bind_run, Hsave, bind_run. unfold on_k_scheduler at 1, zoom at 1. cbn [k_table k_scheduler k_cpu].
  rewrite scheduleNext_run, saved_rotation, Hrot by (exact Hk || exact (saved_wf k Hk (conj Hu Hv))).
  rewrite bind_run. unfold gets at 1. cbn [k_table]. rewrite bind_run. unfold lift at 1, requireProcess. rewrite Hp.
  cbn [mret outcome_ret]. rewrite bind_run. unfold on_k_cpu at 1, zoom at 1. cbn [k_cpu k_table k_scheduler].
  rewrite (activate_run _ program name) by (exact Hspace || exact He || exact Hok || exact Hl || apply Hk).
  pose proof (activated_range_fits (pcb_address_space p) program name (k_cpu k) (pcb_context p) Hok Hl Hb Hn) as Hf.
  rewrite bind_run. unfold gets. cbn [k_cpu]. rewrite bind_run. unfold lift.
  rewrite (proj2 (validateForCPU_spec _ _) (conj Hctx Hf)). rewrite bind_run. unfold on_k_cpu, zoom. cbn [k_cpu k_table k_scheduler].
  rewrite restore_run; [reflexivity | reflexivity | exact Hregs | reflexivity | exact Hctx | exact Hf].
Qed.

Lemma dispatched_context k sel p program :
  image_process p -> ctx_pid (pcb_context p) = sel ->
  context_of sel (k_cpu (dispatched k sel p program)) = pcb_context p.
Proof.
  intros [_ Hr _ [H1 H2]] Hpid. destruct p as [ctx ? ? ? ? ? ?]. unfold context_of, resumed, dispatched. cbn in *.
  rewrite Hr. destruct ctx. cbn in *. congruence.
Qed.

(** The CPU runs [p]: its context and memory are those of the block. *)
Definition cpu_holds (k : Kernel) (pid : ProcessId) (p : ProcessControlBlock) : Prop :=
  context_of pid (k_cpu k) = pcb_context p /\
  memory (state (k_cpu k)) = as_memory (pcb_address_space p) /\
  halted (state (k_cpu k)) = false /\ has_error (state (k_cpu k)) = false /\
  using_kernel_interrupt_stack (k_cpu k) = false.

(** What a context switch leaves alone. *)
Definition same_devices (c c' : CPU) : Prop :=
  mmio_bus c' = mmio_bus c /\ interrupt_controller c' = interrupt_controller c /\
  clocked_devices c' = clocked_devices c /\ has_software_interrupt_handler c' = has_software_interrupt_handler c /\
  trace_logger c' = trace_logger c.

Lemma dispatched_ok k sel rest p program :
  kernel_ok k -> preemptible k -> rotation (k_table k) (k_scheduler k) = sel :: rest ->
  processes (switch_to sel (saved k)) !! sel = Some p -> as_executable (pcb_address_space p) = Some program ->
  let k' := dispatched k sel p program in
  cpu_holds k' sel p /\ same_devices (k_cpu k) (k_cpu k') /\ kernel_ok k' /\ preemptible k'.
Proof.
  intros Hk Hpre Hrot Hp He k'. pose proof (rotation_elem _ _ _ _ Hrot) as Hel.
  assert (Hwf : table_wf (switch_to sel (saved k)))
    by (apply switch_wf; [apply saved_wf; assumption | rewrite saved_runnable by assumption; exact Hel]).
  pose proof (switch_image _ sel (saved_images k Hk)) as Hims. pose proof (Hims _ _ Hp) as Hi. cbn beta in Hi.
  pose proof (entry_lookup _ Hwf _ _ Hp) as [Hpid _ _ _ Hctx Hspace _].
  assert (Hrun : pcb_state p = Running) by (apply (twf_unique _ Hwf _ _ Hp); reflexivity).
  assert (Hc : context_of sel (k_cpu k') = pcb_context p) by (apply dispatched_context; assumption).
  specialize (Hctx ltac:(rewrite Hrun; discriminate)).
  split; [repeat split; try exact Hc|]. split; [repeat split|].
  assert (Hone : forall q, processes (k_table k') !! running_pid (k_table k') = Some q -> q = p).
  { intros q Hq. cbn [k' dispatched k_table switch_to running_pid] in Hq. change (processes _) with (processes (switch_to sel (saved k))) in Hq. congruence. }
  split.
  - constructor.
    + exact Hwf.
    + exact Hims.
    + apply Hi.
    + apply throw_if_bind_inv in Hspace as [Hs _]. facts. exact Hs.
    + intros q Hq. apply Hone in Hq as ->. destruct Hi as [_ Hr _ _]. unfold cpu_runs, k', dispatched, resumed. cbn. rewrite !Hr. repeat split.
  - split; [reflexivity|]. intros q Hq. apply Hone in Hq as ->. cbn [k_table dispatched switch_to running_pid k'].
    fold k'. rewrite Hc. split; [exact Hctx|].
    change (memory (state (k_cpu k'))) with (as_memory (pcb_address_space p)).
    replace {| as_memory := _; as_executable_metadata := _; as_executable := _ |} with (pcb_address_space p); [exact Hspace|].
    destruct (pcb_address_space p). reflexivity.
Qed.

Lemma dispatch_inv k sel k' :
  kernel_ok k -> preemptible k -> ProcessDispatcher_dispatchNext k = (Ret sel, k') ->
  exists rest p program, rotation (k_table k) (k_scheduler k) = sel :: rest /\
    k' = dispatched k sel p program /\ processes (k_table k') !! sel = Some p /\
    as_executable (pcb_address_space p) = Some program.
Proof.
  intros Hk Hpre H. destruct (rotation (k_table k) (k_scheduler k)) as [|sel' rest] eqn:Hrot.
  - exfalso. unfold ProcessDispatcher_dispatchNext, get in H. rewrite bind_run in H. cbv zeta in H. rewrite bind_run in H.
    destruct Hpre as [Hu _]. rewrite Hu in H. cbn [throw_if mret M_ret] in H. rewrite bind_run in H.
    assert (Hr : hasRunnableProcess (k_table k) = false).
    { apply not_true_is_false. rewrite (hasRunnable_spec _ (kok_table _ Hk)). intros Hn. apply Hn, Permutation_nil_r.
      rewrite <- Hrot. symmetry. apply rotation_permutation. }
    rewrite Hr in H. discriminate H.
  - destruct (dispatch_run k sel' rest Hk Hpre Hrot) as (p & program & Hp & He & _ & _ & Hd). rewrite Hd in H.
    injection H as <- <-. exists rest, p, program. auto.
Qed.

Lemma dispatch_throw k e k' : ProcessDispatcher_dispatchNext k = (Throw e, k') -> k' = k.
Proof.
  unfold ProcessDispatcher_dispatchNext, get. rewrite bind_run. cbv zeta. rewrite bind_run.
  destruct (using_kernel_interrupt_stack _); cbn [throw_if throw M_throw mret M_ret]; [congruence|].
  rewrite bind_run. destruct (negb _); cbn [throw_if throw M_throw mret M_ret]; [congruence|].
  apply staged_throw.
Qed.

Lemma dispatch_keeps_ok k sel k' :
  kernel_ok k -> preemptible k -> ProcessDispatcher_dispatchNext k = (Ret sel, k') -> kernel_ok k' /\ preemptible k'.
Proof.
  intros Hk Hpre H. destruct (dispatch_inv _ _ _ Hk Hpre H) as (rest & p & program & Hrot & -> & Hp & He).
  apply (dispatched_ok k sel rest p program); assumption.
Qed.

(** ** Lemmas: tables of loaded images *)

Lemma image_block pid p name ctx a blk :
  program_ok p -> loadable p name -> contextFromImage pid (image_of p name) = Ret ctx ->
  ProcessAddressSpace_of_image (image_of p name) = Ret a -> new_ProcessControlBlock ctx a Ready = Ret blk ->
  image_process blk.
Proof.
  intros Hok Hl Hc Ha Hb. apply unit_bind_inv in Hc as [_ Hc]. apply unit_bind_inv in Hc as [_ [= <-]].
  apply unit_bind_inv in Ha as [_ Ha]. apply unit_bind_inv in Ha as [_ [= <-]].
  apply unit_bind_inv in Hb as [_ Hb]. apply unit_bind_inv in Hb as [_ [= <-]].
  constructor; cbn; try reflexivity; [|split; reflexivity].
  exists p, name. do 2 (split; [reflexivity|]). split; [exact Hok|]. split; [exact Hl|].
  rewrite (ok_code _ Hok). split; reflexivity.
Qed.

Lemma create_images t p name :
  table_wf t -> program_ok p -> loadable p name -> map_Forall (fun _ => image_process) (processes t) ->
  map_Forall (fun _ => image_process) (processes (final (run_op (OpCreateImage (image_of p name))) t)).
Proof.
  intros Ht Hok Hl Himg. cbn [run_op]. unfold final. rewrite bind_run.
  pose proof (createProcess_image_moves (image_of p name) t Ht) as Hm.
  destruct (createProcess_image (image_of p name) t) as [[pid|e] t'] eqn:E; [|subst t'; exact Himg]. cbn [snd mret M_ret].
  clear Hm. unfold createProcess_image, get, lift in E. rewrite bind_run in E.
  apply M_bind_ret_inv in E as (n & t1 & [= Hn <-] & E). apply M_bind_ret_inv in E as (ctx & t1 & [= Hc <-] & E).
  apply M_bind_ret_inv in E as (a & t1 & [= Ha <-] & E). apply M_bind_ret_inv in E as (blk & t1 & [= Hb <-] & E).
  apply unit_bind_inv in Hn as [Hn0 [= <-]]. apply throw_if_ret_inv in Hn0. facts.
  rewrite emplaceProcess_run in E by assumption. injection E as <- <-.
  rewrite commit_processes. apply map_Forall_insert_2; [|exact Himg]. eapply image_block; eassumption.
Qed.

Lemma small_program_loadable : loadable small_program "demo.zbin".
Proof. split; [discriminate|]. split; [reflexivity|]. split; vm_compute; discriminate. Qed.

(** A fresh machine with three processes. *)
Definition sample_kernel : Kernel :=
  {| k_cpu := new_CPU; k_table := three_processes; k_scheduler := new_RoundRobinScheduler |}.

Lemma sample_images :
  table_wf three_processes /\ map_Forall (fun _ => image_process) (processes three_processes).
Proof.
  unfold three_processes, run_ops, foldl.
  assert (H : forall t, table_wf t /\ map_Forall (fun _ => image_process) (processes t) ->
    table_wf (final (run_op (OpCreateImage sample_image)) t) /\
    map_Forall (fun _ => image_process) (processes (final (run_op (OpCreateImage sample_image)) t))).
  { intros t [Ht Hi]. split; [apply run_op_develops, Ht|].
    apply create_images; [exact Ht | exact small_program_ok | exact small_program_loadable | exact Hi]. }
  apply H, H, H. split; [apply new_ProcessTable_wf | apply map_Forall_empty].
Qed.

Lemma sample_kernel_ok : kernel_ok sample_kernel /\ preemptible sample_kernel.
Proof.
  destruct sample_images as [Ht Hi].
  assert (Hnone : processes three_processes !! running_pid three_processes = None) by (vm_compute; reflexivity).
  split; [constructor | split].
  - exact Ht.
  - exact Hi.
  - vm_compute. reflexivity.
  - vm_compute. reflexivity.
  - intros p Hp. exfalso. cbn [sample_kernel k_table] in Hp. congruence.
  - reflexivity.
  - intros p Hp. exfalso. cbn [sample_kernel k_table] in Hp. congruence.
Qed.

(** The kernel after [n] dispatches. *)
Fixpoint dispatch_n (n : nat) (k : Kernel) : Kernel :=
  match n with O => k | S n => final ProcessDispatcher_dispatchNext (dispatch_n n k) end.

Lemma dispatch_n_run n k sel :
  answer ProcessDispatcher_dispatchNext (dispatch_n n k) = Ret sel ->
  ProcessDispatcher_dispatchNext (dispatch_n n k) = (Ret sel, dispatch_n (S n) k).
Proof. intros H. cbn [dispatch_n]. unfold answer, final in *. rewrite <- H. apply surjective_pairing. Qed.

(** Process 1 is running. *)
Lemma running_kernel_ok : kernel_ok (dispatch_n 1 sample_kernel) /\ preemptible (dispatch_n 1 sample_kernel).
Proof.
  destruct sample_kernel_ok as [Hk Hpre]. apply (dispatch_keeps_ok sample_kernel 1); [exact Hk | exact Hpre|].
  apply (dispatch_n_run 0). vm_compute. reflexivity.
Qed.

(** ** Properties *)

(** (C8) Dispatching.  A dispatch that throws leaves the CPU, the table and the
    scheduler as they were.  When every process comes from a loaded image and
    the running one may be saved, a dispatch succeeds if and only if a process
    is runnable, and then: it selects the next process in round-robin order;
    the block of the process that ran now holds the registers, flags, program
    counter, stack pointers, code range and memory of the CPU; no other block
    changes but for Ready and Running; the CPU holds exactly the context and the
    memory of the selected process, running and without error; devices,
    interrupt controller, handler and trace are untouched; and the kernel may
    dispatch again. *)
Theorem dispatch_correct (k : Kernel) :
  (forall e k', ProcessDispatcher_dispatchNext k = (Throw e, k') -> k' = k) /\
  (kernel_ok k -> preemptible k ->
   match rotation (k_table k) (k_scheduler k) with
   | [] => exists e, ProcessDispatcher_dispatchNext k = (Throw e, k)
   | sel :: _ =>
       exists k' p, ProcessDispatcher_dispatchNext k = (Ret sel, k') /\
         k_table k' = switch_to sel (saved k) /\ processes (k_table k') !! sel = Some p /\
         cpu_holds k' sel p /\ same_devices (k_cpu k) (k_cpu k') /\ kernel_ok k' /\ preemptible k'
   end).
Proof.
  split; [apply dispatch_throw|]. intros Hk Hpre. destruct (rotation _ _) as [|sel rest] eqn:Hrot.
  - destruct (ProcessDispatcher_dispatchNext k) as [[sel|e] k'] eqn:E.
    + apply dispatch_inv in E as (rest & p & program & E & _); [congruence | assumption | assumption].
    + exists e. apply dispatch_throw in E as ->. reflexivity.
  - destruct (dispatch_run k sel rest Hk Hpre Hrot) as (p & program & Hp & He & _ & _ & Hd).
    exists (dispatched k sel p program), p. split; [exact Hd|]. split; [reflexivity|]. split; [exact Hp|].
    eapply dispatched_ok; eassumption.
Qed.

Example dispatch_correct_witness :
  kernel_ok sample_kernel /\ preemptible sample_kernel /\
  exists k' p, ProcessDispatcher_dispatchNext sample_kernel = (Ret 1, k') /\
    processes (k_table k') !! 1 = Some p /\ cpu_holds k' 1 p.
Proof.
  destruct sample_kernel_ok as [Hk Hpre]. split; [exact Hk|]. split; [exact Hpre|].
  destruct (dispatch_correct sample_kernel) as [_ H]. specialize (H Hk Hpre).
  assert (Hr : rotation (k_table sample_kernel) (k_scheduler sample_kernel) = [1; 2; 3]) by (vm_compute; reflexivity).
  rewrite Hr in H. destruct H as (k' & p & Hd & _ & Hp & Hc & _). exists k', p. auto.
Defined.

(** What may happen while process [cur] does not run: other processes execute,
    table operations on other processes, dispatches that select others. *)
Inductive elsewhere (cur : ProcessId) : Kernel -> Kernel -> Prop :=
  | elsewhere_other k k' :
      processes (k_table k') !! cur = processes (k_table k) !! cur -> running_pid (k_table k') <> cur ->
      kernel_ok k' -> preemptible k' -> elsewhere cur k k'
  | elsewhere_dispatch k sel k' :
      ProcessDispatcher_dispatchNext k = (Ret sel, k') -> sel <> cur -> elsewhere cur k k'.

(** The block of [cur] holds what was saved, and [cur] does not run. *)
Record parked (cur : ProcessId) (saved_context : ProcessContext) (saved_memory : Memory) (k : Kernel) : Prop := {
  park_ok : kernel_ok k;
  park_preemptible : preemptible k;
  park_waiting : running_pid (k_table k) <> cur;
  park_block : exists p, processes (k_table k) !! cur = Some p /\ pcb_context p = saved_context /\
                         as_memory (pcb_address_space p) = saved_memory;
}.

Lemma switch_keeps t sel pid p :
  processes t !! pid = Some p -> exists p', processes (switch_to sel t) !! pid = Some p' /\
    pcb_context p' = pcb_context p /\ pcb_address_space p' = pcb_address_space p.
Proof.
  intros Hp. exists (switch_state sel pid p). rewrite switch_lookup, Hp. split; [reflexivity|].
  unfold switch_state. repeat case_bool_decide; split; reflexivity.
Qed.

Lemma dispatch_parks cur ctx mem k sel k' :
  kernel_ok k -> preemptible k -> ProcessDispatcher_dispatchNext k = (Ret sel, k') -> sel <> cur ->
  (exists p, processes (saved k) !! cur = Some p /\ pcb_context p = ctx /\ as_memory (pcb_address_space p) = mem) ->
  parked cur ctx mem k'.
Proof.
  intros Hk Hpre Hd Hne (p & Hp & Hc & Hm).
  destruct (dispatch_inv _ _ _ Hk Hpre Hd) as (rest & q & program & Hrot & -> & Hq & He).
  destruct (dispatched_ok k sel rest q program Hk Hpre Hrot Hq He) as (_ & _ & Hk' & Hpre').
  constructor; [exact Hk' | exact Hpre' | exact Hne |].
  destruct (switch_keeps (saved k) sel cur p Hp) as (p' & Hp' & Hc' & Ha'). exists p'. rewrite Hc', Ha'. auto.
Qed.

Lemma elsewhere_parks cur ctx mem k k' : parked cur ctx mem k -> elsewhere cur k k' -> parked cur ctx mem k'.
Proof.
  intros [Hk Hpre Hw (p & Hp & Hc & Hm)] He. destruct He as [k k' Hsame Hr Hk2 Hp2 | k sel k' Hd Hne].
  - split; [assumption.. |]. exists p. rewrite Hsame. auto.
  - eapply dispatch_parks; try eassumption. exists p. split; [|auto]. rewrite saved_lookup, Hp. cbn.
    rewrite bool_decide_eq_false_2 by congruence. reflexivity.
Qed.

(** (C7) A preempted process resumes where it was.  Let the running process
    [cur] be preempted by a dispatch that selects another process.  Whatever
    the other processes and the kernel then do, as long as nothing operates on
    [cur] itself, the dispatch that selects [cur] again gives the CPU back the
    very registers, flags, program counter, stack pointers, privilege, code
    range and memory it had: processes are isolated from one another. *)
Theorem preempted_process_resumes (cur sel : ProcessId) (k0 k1 k2 k3 : Kernel)
    (Hk : kernel_ok k0) (Hpre : preemptible k0) (Hcur : running_pid (k_table k0) = cur) (H0 : cur <> 0)
    (Hout : ProcessDispatcher_dispatchNext k0 = (Ret sel, k1)) (Hne : sel <> cur)
    (Hthen : rtc (elsewhere cur) k1 k2)
    (Hback : ProcessDispatcher_dispatchNext k2 = (Ret cur, k3)) :
  context_of cur (k_cpu k3) = context_of cur (k_cpu k0) /\
  memory (state (k_cpu k3)) = memory (state (k_cpu k0)) /\
  halted (state (k_cpu k3)) = false /\ has_error (state (k_cpu k3)) = false.
Proof.
  assert (Hpark : parked cur (context_of cur (k_cpu k0)) (memory (state (k_cpu k0))) k1).
  { eapply dispatch_parks; try eassumption. destruct (twf_running _ (kok_table _ Hk)) as [p Hp]; [congruence|].
    rewrite Hcur in Hp. eexists. rewrite saved_lookup, Hp. cbn. rewrite bool_decide_eq_true_2 by congruence. eauto. }
  assert (Hend : parked cur (context_of cur (k_cpu k0)) (memory (state (k_cpu k0))) k2).
  { clear Hout. induction Hthen; [assumption|]. eauto using elsewhere_parks. }
  destruct Hend as [Hk2 Hpre2 Hw (p & Hp & Hc & Hm)].
  destruct (dispatch_inv _ _ _ Hk2 Hpre2 Hback) as (rest & q & program & Hrot & -> & Hq & He).
  destruct (dispatched_ok k2 cur rest q program Hk2 Hpre2 Hrot Hq He) as ((Hctx & Hmem & Hh & Hx & _) & _).
  destruct (switch_keeps (saved k2) cur cur p) as (p' & Hp' & Hc' & Ha').
  { rewrite saved_lookup, Hp. cbn. rewrite bool_decide_eq_false_2 by congruence. reflexivity. }
  assert (q = p') by (cbn [k_table dispatched] in Hq; congruence). subst q.
  rewrite Hctx, Hmem, Hc', Ha', Hc, Hm. auto.
Qed.

(** Process 1 is preempted for processes 2 and 3, and comes back. *)
Example preempted_process_resumes_witness :
  context_of 1 (k_cpu (dispatch_n 4 sample_kernel)) = context_of 1 (k_cpu (dispatch_n 1 sample_kernel)) /\
  memory (state (k_cpu (dispatch_n 4 sample_kernel))) = memory (state (k_cpu (dispatch_n 1 sample_kernel))).
Proof.
  assert (H1 : ProcessDispatcher_dispatchNext (dispatch_n 1 sample_kernel) = (Ret 2, dispatch_n 2 sample_kernel))
    by (apply (dispatch_n_run 1); vm_compute; reflexivity).
  assert (H2 : ProcessDispatcher_dispatchNext (dispatch_n 2 sample_kernel) = (Ret 3, dispatch_n 3 sample_kernel))
    by (apply (dispatch_n_run 2); vm_compute; reflexivity).
  assert (H3 : ProcessDispatcher_dispatchNext (dispatch_n 3 sample_kernel) = (Ret 1, dispatch_n 4 sample_kernel))
    by (apply (dispatch_n_run 3); vm_compute; reflexivity).
  destruct running_kernel_ok as [Hk1 Hpre1].
  destruct (preempted_process_resumes 1 2 (dispatch_n 1 sample_kernel) (dispatch_n 2 sample_kernel)
    (dispatch_n 3 sample_kernel) (dispatch_n 4 sample_kernel) Hk1 Hpre1) as (Hc & Hm & _).
  - vm_compute. reflexivity.
  - discriminate.
  - exact H1.
  - discriminate.
  - apply rtc_once. apply (elsewhere_dispatch _ _ 3); [exact H2 | discriminate].
  - exact H3.
  - split; [exact Hc | exact Hm].
Defined.
