(* ===== verification/Preemption.v ===== *)
(** * Timer preemption

    Models [src/kernel/TimerPreemptiveScheduler.cpp]: an interrupt controller
    and a timer of its own, attached to one CPU; before and after every CPU step
    a pending timer request makes the dispatcher switch to the next process and
    is then acknowledged. *)

From S2P Require Import Prelude Words ALU Memory ISA Binary Interrupts Devices CPUState Trace CPU CPUExec CPUStep CPUFrames CPUInv CPURun Image Process ProcTable Scheduler Dispatcher.
Open Scope Z_scope.

(** [attached_cpu_] is a pointer: CPUs are told apart by a number. *)
Record TimerPreemptiveScheduler := {
  tp_controller : nat;
  tp_timer : nat;
  tp_attached_cpu : option nat;
  tp_started : bool;
  tp_preemption_count : Z;
  tp_context_switch_count : Z;
}.

#[export] Instance TimerPreemptiveScheduler_eq_dec : EqDecision TimerPreemptiveScheduler.
Proof. solve_decision. Defined.

Definition set_attached_cpu (c : option nat) (p : TimerPreemptiveScheduler) : TimerPreemptiveScheduler :=
  {| tp_controller := tp_controller p; tp_timer := tp_timer p; tp_attached_cpu := c; tp_started := tp_started p;
     tp_preemption_count := tp_preemption_count p; tp_context_switch_count := tp_context_switch_count p |}.
Definition set_started (b : bool) (p : TimerPreemptiveScheduler) : TimerPreemptiveScheduler :=
  {| tp_controller := tp_controller p; tp_timer := tp_timer p; tp_attached_cpu := tp_attached_cpu p; tp_started := b;
     tp_preemption_count := tp_preemption_count p; tp_context_switch_count := tp_context_switch_count p |}.
Definition set_counts (preemptions switches : Z) (p : TimerPreemptiveScheduler) : TimerPreemptiveScheduler :=
  {| tp_controller := tp_controller p; tp_timer := tp_timer p; tp_attached_cpu := tp_attached_cpu p;
     tp_started := tp_started p; tp_preemption_count := preemptions; tp_context_switch_count := switches |}.

(** The constructor makes a controller and a timer. *)
Definition new_TimerPreemptiveScheduler (vector quantum payload : Z) : M World TimerPreemptiveScheduler :=
  w ← get;
  let controller := fresh (dom (controllers w)) in
  _ ← modify (set_controllers (<[controller := InterruptController_clear]> (controllers w)));
  timer ← lift (new_TimerDevice (Some controller) vector quantum payload);
  let r := fresh (dom (timers w)) in
  _ ← modify (fun w => set_timers (<[r := timer]> (timers w)) w);
  mret {| tp_controller := controller; tp_timer := r; tp_attached_cpu := None; tp_started := false;
          tp_preemption_count := 0; tp_context_switch_count := 0 |}.

(** What a call works on: the machine of the CPU passed, the table, the
    scheduler and the preemptive scheduler itself. *)
Record System (H : Type) := mkSystem {
  s_machine : Machine H;
  s_table : ProcessTable;
  s_scheduler : RoundRobinScheduler;
  s_preemptive : TimerPreemptiveScheduler;
}.
Arguments mkSystem {H} _ _ _ _.
Arguments s_machine {H} _.
Arguments s_table {H} _.
Arguments s_scheduler {H} _.
Arguments s_preemptive {H} _.

Section preemption.
Context {LD : LongDouble} {H : Type} {SIH : SoftwareInterruptHandler H}.
Implicit Types (s : System H).

Definition on_machine {A} (m : M (Machine H) A) : M (System H) A :=
  zoom s_machine (fun mc s => mkSystem mc (s_table s) (s_scheduler s) (s_preemptive s)) m.
Definition on_preemptive {A} (m : M TimerPreemptiveScheduler A) : M (System H) A :=
  zoom s_preemptive (fun p s => mkSystem (s_machine s) (s_table s) (s_scheduler s) p) m.

Definition kernel_of s : Kernel :=
  {| k_cpu := cpu (s_machine s); k_table := s_table s; k_scheduler := s_scheduler s |}.
Definition put_kernel (k : Kernel) s : System H :=
  mkSystem (set_cpu (fun _ => k_cpu k) (s_machine s)) (k_table k) (k_scheduler k) (s_preemptive s).

(** [dispatcher_.dispatchNext(cpu, table, scheduler)] *)
Definition dispatch_next : M (System H) ProcessId := zoom kernel_of put_kernel ProcessDispatcher_dispatchNext.

Definition attach (this_cpu : nat) : M (System H) unit :=
  p ← gets s_preemptive;
  _ ← throw_if (match tp_attached_cpu p with Some c => negb (bool_decide (c = this_cpu)) | None => false end)
        (RuntimeError "Timer preemptive scheduler is already attached to another CPU");
  if bool_decide (tp_attached_cpu p = Some this_cpu) then mret tt
  else
    c ← gets (fun s => cpu (s_machine s));
    _ ← throw_if (is_some (interrupt_controller c))
          (RuntimeError "Timer preemptive scheduler requires a CPU without an existing InterruptController");
    _ ← on_machine (assign (set_interrupt_controller (Some (tp_controller p))));
    _ ← on_machine (update cpu (fun c => set_cpu (fun _ => c)) (addClockedDevice (Some (tp_timer p))));
    on_preemptive (modify (set_attached_cpu (Some this_cpu))).

Definition preemptive_start (this_cpu : nat) : M (System H) ProcessId :=
  p ← gets s_preemptive;
  _ ← throw_if (tp_started p) (RuntimeError "Timer preemptive scheduler is already started");
  _ ← attach this_cpu;
  selectedPid ← dispatch_next;
  _ ← on_preemptive (modify (set_started true));
  mret selectedPid.

Definition kTimerSource : string := "timer".

(** The pending request of the scheduler's own timer. *)
Definition timer_pending s : bool :=
  let p := s_preemptive s in
  let w := world (s_machine s) in
  InterruptController_hasPending_for (controller_at w (tp_controller p)) (tmr_vector (timer_at w (tp_timer p))) kTimerSource.

(** The user program has just run past its last instruction. *)
Definition at_code_end (c : CPU) : bool :=
  CPUState_isUserMode (state c) && has_user_code_range c && (pc (state c) =? user_code_end_exclusive c).

(** [servicePendingPreemption] returns whether it switched, and the value it
    leaves in [selectedPid]. *)
Definition servicePendingPreemption (selectedPid : ProcessId) : M (System H) (bool * ProcessId) :=
  s ← get;
  if negb (timer_pending s) then mret (false, selectedPid)
  else if at_code_end (cpu (s_machine s)) then mret (false, selectedPid)
  else
    previousPid ← lift (runningProcessId (s_table s));
    selectedPid ← dispatch_next;
    s ← get;
    let p := s_preemptive s in
    let vector := tmr_vector (timer_at (world (s_machine s)) (tp_timer p)) in
    request ← on_machine (on_world (on_controller (tp_controller p)
                 (InterruptController_acknowledge_for vector kTimerSource)));
    _ ← throw_if (negb (req_vector request =? vector) || negb (bool_decide (req_source request = kTimerSource)))
          (RuntimeError "Timer preemption acknowledged an unexpected interrupt");
    _ ← on_preemptive (modify (fun p => set_counts (u64 (tp_preemption_count p + 1))
          (if negb (selectedPid =? previousPid) then u64 (tp_context_switch_count p + 1)
           else tp_context_switch_count p) p));
    mret (true, selectedPid).

Definition preemptive_step (this_cpu : nat) : M (System H) ProcessId :=
  s ← get;
  _ ← throw_if (negb (tp_started (s_preemptive s))) (RuntimeError "Timer preemptive scheduler is not started");
  _ ← throw_if (negb (bool_decide (tp_attached_cpu (s_preemptive s) = Some this_cpu)))
        (RuntimeError "Timer preemptive scheduler CPU mismatch");
  _ ← throw_if (negb (hasRunningProcess (s_table s)))
        (RuntimeError "Timer preemptive scheduler has no Running process");
  selectedPid ← lift (runningProcessId (s_table s));
  '(serviced, selectedPid) ← servicePendingPreemption selectedPid;
  if (serviced : bool) then mret selectedPid
  else
    _ ← on_machine CPU_step;
    s ← get;
    if has_error (mstate (s_machine s)) || halted (mstate (s_machine s))
    then lift (runningProcessId (s_table s))
    else
      '(_, selectedPid) ← servicePendingPreemption selectedPid;
      mret selectedPid.

End preemption.

(** ** Lemmas *)

Lemma acknowledge_for_run c vector source :
  InterruptController_hasPending_for c vector source = true ->
  exists request before after,
    pending c = before ++ request :: after /\ req_vector request = vector /\ req_source request = source /\
    Forall (fun r => ~ (req_vector r = vector /\ req_source r = source)) before /\
    InterruptController_acknowledge_for vector source c = (Ret request, set_pending (before ++ after) c).
Proof.
  intros H. unfold InterruptController_hasPending_for in H. unfold InterruptController_acknowledge_for, get.
  rewrite bind_run. unfold InterruptController_findDeliverable_for in *. destruct (_ || _); [discriminate|].
  destruct (list_find _ (pending c)) as [[i r]|] eqn:E; [|discriminate].
  apply list_find_delete in E as (l1 & l2 & Hl & [Hv Hs] & Hb & Hd).
  exists r, l1, l2. rewrite Hd. auto.
Qed.

Section preemption_lemmas.
Context {LD : LongDouble} {H : Type} {SIH : SoftwareInterruptHandler H}.
Implicit Types (s : System H).

(** The request taken and the counters advanced. *)
Record preempted s (cur sel : ProcessId) s' : Prop := {
  pre_dispatch : ProcessDispatcher_dispatchNext (kernel_of s) = (Ret sel, kernel_of s');
  pre_handler : handler (s_machine s') = handler (s_machine s);
  pre_request : let p := s_preemptive s in let w := world (s_machine s) in
    let c := controller_at w (tp_controller p) in
    exists request before after,
      pending c = before ++ request :: after /\
      req_vector request = tmr_vector (timer_at w (tp_timer p)) /\ req_source request = kTimerSource /\
      Forall (fun r => ~ (req_vector r = req_vector request /\ req_source r = kTimerSource)) before /\
      world (s_machine s') = set_controllers (<[tp_controller p := set_pending (before ++ after) c]> (controllers w)) w;
  pre_counts : s_preemptive s' =
    set_counts (u64 (tp_preemption_count (s_preemptive s) + 1))
      (if negb (sel =? cur) then u64 (tp_context_switch_count (s_preemptive s) + 1)
       else tp_context_switch_count (s_preemptive s)) (s_preemptive s);
}.

Lemma service_idle sel s :
  timer_pending s && negb (at_code_end (cpu (s_machine s))) = false ->
  servicePendingPreemption sel s = (Ret (false, sel), s).
Proof.
  intros E. unfold servicePendingPreemption, get. rewrite bind_run.
  destruct (timer_pending s); [|reflexivity]. cbn [negb]. destruct (at_code_end _); [reflexivity | discriminate].
Qed.

Lemma service_run old sel rest s :
  kernel_ok (kernel_of s) -> preemptible (kernel_of s) -> hasRunningProcess (s_table s) = true ->
  timer_pending s = true -> at_code_end (cpu (s_machine s)) = false ->
  rotation (s_table s) (s_scheduler s) = sel :: rest ->
  exists s', servicePendingPreemption old s = (Ret (true, sel), s') /\ preempted s (running_pid (s_table s)) sel s'.
Proof.
  intros Hk Hpre Hrun Hp He Hrot. destruct (dispatch_run (kernel_of s) sel rest Hk Hpre Hrot) as (p & program & _ & _ & _ & _ & Hd).
  unfold timer_pending in Hp. apply acknowledge_for_run in Hp as (r & before & after & Hl & Hv & Hs & Hb & Hack).
  eexists. unfold servicePendingPreemption, get. rewrite bind_run. unfold timer_pending.
  assert (Hpend : InterruptController_hasPending_for (controller_at (world (s_machine s)) (tp_controller (s_preemptive s)))
    (tmr_vector (timer_at (world (s_machine s)) (tp_timer (s_preemptive s)))) kTimerSource = true).
  { unfold InterruptController_hasPending_for, InterruptController_acknowledge_for, get in *. rewrite bind_run in Hack.
    destruct (InterruptController_findDeliverable_for _ _ _) as [[? ?]|]; [reflexivity | discriminate Hack]. }
  rewrite Hpend, He. cbn [negb]. rewrite bind_run. unfold lift at 1, runningProcessId. rewrite Hrun.
  cbn [negb throw_if mbind outcome_bind mret outcome_ret]. rewrite bind_run. unfold dispatch_next, zoom at 1. rewrite Hd.
  rewrite bind_run. cbv zeta. rewrite bind_run. unfold on_machine at 1, on_world, on_controller, zoom.
  cbn [put_kernel s_machine s_preemptive world set_cpu]. rewrite Hack. rewrite bind_run, Hv, Hs, Z.eqb_refl.
  rewrite bool_decide_eq_true_2 by reflexivity. cbn [negb orb throw_if mret M_ret]. rewrite bind_run. split; [reflexivity|].
  constructor.
  - exact Hd.
  - reflexivity.
  - cbv zeta. exists r, before, after. rewrite Hv. auto 10.
  - reflexivity.
Qed.

(** The system once the CPU has executed one step. *)
Definition stepped_system s : System H :=
  mkSystem (final CPU_step (s_machine s)) (s_table s) (s_scheduler s) (s_preemptive s).

Definition preempts s : bool := timer_pending s && negb (at_code_end (cpu (s_machine s))).

Lemma running_rotation s :
  kernel_ok (kernel_of s) -> hasRunningProcess (s_table s) = true ->
  exists sel rest, rotation (s_table s) (s_scheduler s) = sel :: rest.
Proof.
  intros Hk Hr. destruct (rotation (s_table s) (s_scheduler s)) as [|sel rest] eqn:E; [exfalso | eauto].
  apply (proj1 (hasRunnable_spec _ (kok_table _ Hk))); [unfold hasRunnableProcess; cbn; rewrite Hr; reflexivity|].
  apply Permutation_nil_r. cbn. rewrite <- E. symmetry. apply rotation_permutation.
Qed.

Lemma preemptive_step_run this_cpu s :
  tp_started (s_preemptive s) = true -> tp_attached_cpu (s_preemptive s) = Some this_cpu ->
  hasRunningProcess (s_table s) = true ->
  preemptive_step this_cpu s =
  ('(serviced, selectedPid) ← servicePendingPreemption (running_pid (s_table s));
   if (serviced : bool) then mret selectedPid
   else
     _ ← on_machine CPU_step;
     s ← get;
     if has_error (mstate (s_machine s)) || halted (mstate (s_machine s))
     then lift (runningProcessId (s_table s))
     else '(_, selectedPid) ← servicePendingPreemption selectedPid; mret selectedPid) s.
Proof.
  intros Hs Ha Hr. unfold preemptive_step. rewrite bind_run. unfold get at 1. cbv beta iota.
  rewrite Hs, Ha, bool_decide_eq_true_2 by reflexivity. cbn [negb]. rewrite bind_run. cbn [throw_if mret M_ret]. rewrite bind_run. cbn [throw_if mret M_ret].
  rewrite bind_run, Hr. cbn [negb throw_if mret M_ret]. rewrite bind_run. unfold lift at 1, runningProcessId at 1.
  rewrite Hr. reflexivity.
Qed.

Lemma preemptive_step_idle this_cpu s :
  tp_started (s_preemptive s) = true -> tp_attached_cpu (s_preemptive s) = Some this_cpu ->
  hasRunningProcess (s_table s) = true -> preempts s = false ->
  preemptive_step this_cpu s =
  if stopped (s_machine (stepped_system s)) then (Ret (running_pid (s_table s)), stepped_system s)
  else ('(_, selectedPid) ← servicePendingPreemption (running_pid (s_table s)); mret selectedPid) (stepped_system s).
Proof.
  intros Hs Ha Hr E0. rewrite preemptive_step_run by assumption. rewrite bind_run, service_idle by exact E0. cbv beta iota.
  rewrite bind_run. unfold on_machine at 1, zoom at 1. rewrite (CPU_step_unit (s_machine s)).
  fold (final CPU_step (s_machine s)). fold (stepped_system s). rewrite bind_run. unfold get at 1. cbv beta iota.
  unfold stopped. rewrite orb_comm. match goal with |- context [if ?b then lift _ else _] => destruct b end; [|reflexivity].
  unfold lift, runningProcessId. cbn [stepped_system s_table]. rewrite Hr. reflexivity.
Qed.

(** ** Property *)

(** Timer preemption, on a started scheduler with a running process.  If
    the timer's request is pending at the start of a step (and the process has
    not just run past its code), no instruction executes: the next process in
    round-robin order is dispatched, exactly the oldest request of the timer is
    acknowledged, and the two counters are advanced.  Otherwise exactly one CPU
    step is made; the process keeps the CPU if it stopped or no request is
    pending after the step, and is preempted in the same way if one is.  Devices
    and handler are otherwise left as the CPU step leaves them. *)
Theorem timer_preemption (this_cpu : nat) (s : System H)
    (Hs : tp_started (s_preemptive s) = true) (Ha : tp_attached_cpu (s_preemptive s) = Some this_cpu)
    (Hr : hasRunningProcess (s_table s) = true) :
  let cur := running_pid (s_table s) in
  let s1 := stepped_system s in
  let switches t := kernel_ok (kernel_of t) -> preemptible (kernel_of t) ->
    exists sel s', preemptive_step this_cpu s = (Ret sel, s') /\ preempted t cur sel s' /\
                   head (rotation (s_table t) (s_scheduler t)) = Some sel in
  if preempts s then switches s
  else if stopped (s_machine s1) then preemptive_step this_cpu s = (Ret cur, s1)
  else if preempts s1 then switches s1
  else preemptive_step this_cpu s = (Ret cur, s1).
Proof.
  intros cur s1 switches. unfold switches. clear switches. destruct (preempts s) eqn:E0.
  - intros Hk Hpre. destruct (running_rotation s Hk Hr) as (sel & rest & Hrot).
    apply andb_true_iff in E0 as [Hp He]. apply negb_true_iff in He.
    destruct (service_run cur sel rest s Hk Hpre Hr Hp He Hrot) as (s' & Hrun & Hpost).
    exists sel, s'. rewrite preemptive_step_run by assumption. fold cur. rewrite bind_run, Hrun, Hrot. auto.
  - rewrite preemptive_step_idle by assumption. fold s1 cur. destruct (stopped (s_machine s1)); [reflexivity|].
    destruct (preempts s1) eqn:E1; [|rewrite bind_run, service_idle by exact E1; reflexivity].
    intros Hk Hpre. destruct (running_rotation s1 Hk Hr) as (sel & rest & Hrot).
    apply andb_true_iff in E1 as [Hp He]. apply negb_true_iff in He.
    destruct (service_run cur sel rest s1 Hk Hpre Hr Hp He Hrot) as (s' & Hrun & Hpost).
    exists sel, s'. rewrite bind_run, Hrun, Hrot. auto.
Qed.

End preemption_lemmas.

Lemma kernel_eta k : {| k_cpu := k_cpu k; k_table := k_table k; k_scheduler := k_scheduler k |} = k.
Proof. destruct k. reflexivity. Qed.

(** Process 1 runs and the timer has just expired. *)
Definition sample_timer : TimerDevice :=
  {| tmr_controller := 0; tmr_vector := 5; tmr_interval := 3; tmr_tick_count := 3; tmr_interrupt_count := 1;
     tmr_payload := 0; tmr_enabled := true |}.

Definition sample_system : System unit :=
  let k := dispatch_n 1 sample_kernel in
  mkSystem (mkMachine (k_cpu k)
      (set_timers {[0%nat := sample_timer]}
         (set_controllers {[0%nat := InterruptController_request 5 0 kTimerSource
                                       (InterruptController_setGlobalEnabled true InterruptController_clear)]} empty_world)) tt)
    (k_table k) (k_scheduler k)
    {| tp_controller := 0; tp_timer := 0; tp_attached_cpu := Some 0%nat; tp_started := true; tp_preemption_count := 0;
       tp_context_switch_count := 0 |}.

Example timer_preemption_witness :
  exists s', @preemptive_step extended_long_double unit no_handler 0 sample_system = (Ret 2, s') /\
             preempted sample_system 1 2 s'.
Proof.
  pose proof (@timer_preemption extended_long_double unit no_handler 0 sample_system eq_refl eq_refl) as T.
  assert (Hr : hasRunningProcess (s_table sample_system) = true) by (vm_compute; reflexivity).
  specialize (T Hr). cbv zeta in T. assert (Hp : preempts sample_system = true) by (vm_compute; reflexivity).
  rewrite Hp in T. destruct running_kernel_ok as [Hk1 Hpre1].
  assert (He : kernel_of sample_system = dispatch_n 1 sample_kernel) by apply kernel_eta.
  rewrite He in T. destruct (T Hk1 Hpre1) as (sel & s' & Hrun & Hpost & Hhead).
  assert (Hrot : head (rotation (s_table sample_system) (s_scheduler sample_system)) = Some 2) by (vm_compute; reflexivity).
  rewrite Hrot in Hhead. injection Hhead as <-.
  assert (Hcur : running_pid (s_table sample_system) = 1) by (vm_compute; reflexivity). rewrite Hcur in Hpost.
  exists s'. split; [exact Hrun | exact Hpost].
Defined.
