(* ===== verification/Lifecycle.v ===== *)
(** * The process lifecycle

    Models [src/kernel/ProcessLifecycleManager.cpp]: starting preemptive
    execution, stepping it, and turning a halted or faulted CPU into a
    terminated process, with the dispatch of the next one or the final state
    of the runtime (completed or deadlocked). *)

From S2P Require Import Prelude Words ALU Memory ISA Binary Interrupts Devices CPUState Trace CPU CPUExec CPUStep CPUFrames CPUInv CPURun Image Process ProcTable Scheduler Dispatcher Preemption.
Open Scope Z_scope.

Inductive ProcessRuntimeState := RS_Ready | RS_Running | RS_Completed | RS_Deadlocked.

#[export] Instance ProcessRuntimeState_eq_dec : EqDecision ProcessRuntimeState.
Proof. solve_decision. Defined.

Definition processRuntimeStateToString (s : ProcessRuntimeState) : string :=
  match s with
  | RS_Ready => "Ready" | RS_Running => "Running" | RS_Completed => "Completed" | RS_Deadlocked => "Deadlocked"
  end.

Record ProcessLifecycleStepResult := {
  lr_state : ProcessRuntimeState;
  lr_process_terminated : bool;
  lr_process_faulted : bool;
  lr_terminated_pid : ProcessId;
  lr_running_pid : ProcessId;
}.

Record ProcessLifecycleManager := {
  lm_normal_exit_code : Z;
  lm_fault_exit_code : Z;
  lm_started : bool;
  lm_state : ProcessRuntimeState;
  lm_termination_count : Z;
  lm_fault_count : Z;
}.

(** The defaults of the constructor's arguments are 0 and -1. *)
Definition new_ProcessLifecycleManager (normalExitCode faultExitCode : Z) : ProcessLifecycleManager :=
  {| lm_normal_exit_code := normalExitCode; lm_fault_exit_code := faultExitCode; lm_started := false;
     lm_state := RS_Ready; lm_termination_count := 0; lm_fault_count := 0 |}.

Definition set_lifecycle (started : bool) (st : ProcessRuntimeState) (terminations faults : Z)
    (m : ProcessLifecycleManager) : ProcessLifecycleManager :=
  {| lm_normal_exit_code := lm_normal_exit_code m; lm_fault_exit_code := lm_fault_exit_code m;
     lm_started := started; lm_state := st; lm_termination_count := terminations; lm_fault_count := faults |}.

Definition classifyWithoutRunning (t : ProcessTable) : ProcessRuntimeState :=
  if negb (bool_decide (processIdsInState Ready t = [])) then RS_Ready
  else if negb (bool_decide (processIdsInState Blocked t = [])) then RS_Deadlocked
  else RS_Completed.

Section lifecycle.
Context {LD : LongDouble} {H : Type} {SIH : SoftwareInterruptHandler H}.

(** The manager and the objects its calls are given. *)
Abbreviation Lifecycle := (ProcessLifecycleManager * System H)%type.

Definition on_manager (f : ProcessLifecycleManager -> ProcessLifecycleManager) : M Lifecycle unit :=
  modify (fun '(m, s) => (f m, s)).
Definition on_system {A} (m : M (System H) A) : M Lifecycle A := zoom snd (fun s '(m, _) => (m, s)) m.
Definition on_cpu_state (f : CPUState -> CPUState) : M Lifecycle unit := on_system (on_machine (on_state f)).

Definition lifecycle_start (this_cpu : nat) : M Lifecycle ProcessRuntimeState :=
  '(m, s) ← get;
  _ ← throw_if (lm_started m) (RuntimeError "Process lifecycle manager is already started");
  if negb (hasRunnableProcess (s_table s)) then
    let st := classifyWithoutRunning (s_table s) in
    _ ← on_manager (fun m => set_lifecycle true st (lm_termination_count m) (lm_fault_count m) m);
    _ ← on_cpu_state (setHalted true);
    mret st
  else
    _ ← on_system (preemptive_start this_cpu);
    _ ← on_manager (fun m => set_lifecycle true RS_Running (lm_termination_count m) (lm_fault_count m) m);
    mret RS_Running.

Definition step_result (st : ProcessRuntimeState) (terminated faulted : bool) (terminated_pid running : ProcessId)
    : ProcessLifecycleStepResult :=
  {| lr_state := st; lr_process_terminated := terminated; lr_process_faulted := faulted;
     lr_terminated_pid := terminated_pid; lr_running_pid := running |}.

(** The second half of [step]: the CPU stopped, so the running process ended.
    [stagedTable] and [stagedScheduler] are copies that are committed after the
    last call that can throw; [dispatchNext] gets the CPU itself, but changes it
    only when it returns. *)
Definition end_process : M Lifecycle ProcessLifecycleStepResult :=
  '(m, s) ← get;
  let c := cpu (s_machine s) in
  terminatedPid ← lift (runningProcessId (s_table s));
  let faulted := has_error (state c) in
  let faultMessage := if faulted then error_message (state c) else EmptyString in
  let hasRequestedExitCode := negb faulted && process_exit_requested c in
  normalExitCode ← lift (if hasRequestedExitCode then processExitCode c else mret (lm_normal_exit_code m));
  finalContext ← lift (captureProcessContextSnapshot terminatedPid c);
  '(nextPid, k) ← lift (
    let '(ended, stagedTable) :=
      (if faulted
       then ProcessTable_fault_state terminatedPid finalContext (memory (state c)) (lm_fault_exit_code m) faultMessage
       else ProcessTable_terminate_state terminatedPid finalContext (memory (state c)) normalExitCode) (s_table s) in
    _ ← ended;
    let staged_kernel := {| k_cpu := c; k_table := stagedTable; k_scheduler := s_scheduler s |} in
    if negb (bool_decide (processIdsInState Ready stagedTable = [])) then
      let '(next, k) := ProcessDispatcher_dispatchNext staged_kernel in
      next ← next; mret (next, k)
    else mret (0, staged_kernel));
  _ ← on_system (modify (put_kernel k));
  _ ← (if hasRequestedExitCode && process_exit_requested (k_cpu k)
       then on_system (on_machine (assign clearProcessExitRequest)) else mret tt);
  _ ← on_manager (fun m => set_lifecycle (lm_started m) (lm_state m) (u64 (lm_termination_count m + 1))
                             (if faulted then u64 (lm_fault_count m + 1) else lm_fault_count m) m);
  if negb (nextPid =? 0) then
    _ ← on_manager (fun m => set_lifecycle (lm_started m) RS_Running (lm_termination_count m) (lm_fault_count m) m);
    mret (step_result RS_Running true faulted terminatedPid nextPid)
  else
    let st := classifyWithoutRunning (k_table k) in
    _ ← on_manager (fun m => set_lifecycle (lm_started m) st (lm_termination_count m) (lm_fault_count m) m);
    _ ← on_cpu_state (setHalted true);
    mret (step_result st true faulted terminatedPid 0).

Definition lifecycle_step (this_cpu : nat) : M Lifecycle ProcessLifecycleStepResult :=
  '(m, s) ← get;
  _ ← throw_if (negb (lm_started m)) (RuntimeError "Process lifecycle manager is not started");
  if negb (bool_decide (lm_state m = RS_Running)) then mret (step_result (lm_state m) false false 0 0)
  else
    _ ← throw_if (negb (hasRunningProcess (s_table s))) (RuntimeError "Running lifecycle has no Running process");
    _ ← on_system (preemptive_step this_cpu);
    '(m, s) ← get;
    if negb (halted (mstate (s_machine s))) && negb (has_error (mstate (s_machine s))) then
      running ← lift (runningProcessId (s_table s));
      mret (step_result (lm_state m) false false 0 running)
    else end_process.

End lifecycle.

(** ** Specification *)

(** The final block of a process that the CPU [c] ran. *)
Definition ended_block (pid : ProcessId) (c : CPU) (code : Z) (kind : ProcessTerminationKind) (message : string)
    (p : ProcessControlBlock) : ProcessControlBlock :=
  let a := pcb_address_space p in
  {| pcb_context := context_of pid c;
     pcb_address_space := {| as_memory := memory (state c); as_executable_metadata := as_executable_metadata a;
                             as_executable := as_executable a |};
     pcb_state := Terminated; pcb_has_exit_code := true; pcb_exit_code := code; pcb_termination_kind := kind;
     pcb_termination_message := message |}.

(** The table in which the running process has ended. *)
Definition ended_table (c : CPU) (code : Z) (kind : ProcessTerminationKind) (message : string) (t : ProcessTable)
    : ProcessTable :=
  match processes t !! running_pid t with
  | Some p => set_running_pid 0 (set_process (running_pid t) (ended_block (running_pid t) c code kind message p) t)
  | None => t
  end.

(** The outcome a stopped CPU reports. *)
Definition stop_kind (c : CPU) : ProcessTerminationKind := if has_error (state c) then CpuFault else NormalExit.
Definition stop_message (c : CPU) : string := if has_error (state c) then error_message (state c) else EmptyString.
Definition stop_code (m : ProcessLifecycleManager) (c : CPU) : Z :=
  if has_error (state c) then lm_fault_exit_code m
  else if process_exit_requested c then process_exit_code c else lm_normal_exit_code m.

(** The final state may be recorded: the CPU is off the Kernel interrupt stack,
    its stack pointers are valid and the code is intact. *)
Definition recordable (k : Kernel) : Prop :=
  using_kernel_interrupt_stack (k_cpu k) = false /\
  forall p, processes (k_table k) !! running_pid (k_table k) = Some p ->
    snapshot_ok (context_of (running_pid (k_table k)) (k_cpu k)) /\
    ProcessAddressSpace_validate
      {| as_memory := memory (state (k_cpu k));
         as_executable_metadata := as_executable_metadata (pcb_address_space p);
         as_executable := as_executable (pcb_address_space p) |} = Ret tt.

(** ** Lemmas *)

Lemma ready_runnable t : table_wf t -> running_pid t = 0 -> runnable t = processIdsInState Ready t.
Proof.
  intros Ht H0. unfold runnable, processIdsInState. apply list_filter_iff. intros pid. unfold is_runnable.
  destruct (processes t !! pid) as [p|] eqn:Hp; [|split; discriminate]. cbn.
  pose proof (not_running t pid p Ht) as Hn. unfold hasRunningProcess in Hn. rewrite H0 in Hn. specialize (Hn eq_refl Hp).
  destruct (pcb_state p); [split; reflexivity | destruct (Hn eq_refl) | split; discriminate | split; discriminate].
Qed.

(** The final states of the runtime. *)
Lemma classify_spec t :
  table_wf t -> running_pid t = 0 -> runnable t = [] ->
  classifyWithoutRunning t <> RS_Running /\
  (classifyWithoutRunning t = RS_Completed <-> forall pid p, processes t !! pid = Some p -> pcb_state p = Terminated) /\
  (classifyWithoutRunning t = RS_Deadlocked <-> exists pid p, processes t !! pid = Some p /\ pcb_state p = Blocked).
Proof.
  intros Ht H0 Hr. rewrite ready_runnable in Hr by assumption. unfold classifyWithoutRunning. rewrite Hr. cbn [negb].
  rewrite bool_decide_eq_true_2 by reflexivity. cbn [negb].
  assert (Hcases : forall pid p, processes t !! pid = Some p -> pcb_state p = Blocked \/ pcb_state p = Terminated).
  { intros pid p Hp. pose proof (not_running t pid p Ht) as Hn. unfold hasRunningProcess in Hn. rewrite H0 in Hn.
    specialize (Hn eq_refl Hp). destruct (pcb_state p) eqn:E; auto; [exfalso|contradiction].
    assert (Hin : pid ∈ processIdsInState Ready t) by (apply processIdsInState_spec; eauto). rewrite Hr in Hin. inversion Hin. }
  case_bool_decide as Hb; cbn [negb]; (split; [discriminate|]; split; split; try discriminate; try reflexivity).
  - intros _ pid p Hp. destruct (Hcases _ _ Hp) as [E|E]; [|exact E].
    assert (Hin : pid ∈ processIdsInState Blocked t) by (apply processIdsInState_spec; eauto). rewrite Hb in Hin. inversion Hin.
  - intros (pid & p & Hp & E).
    assert (Hin : pid ∈ processIdsInState Blocked t) by (apply processIdsInState_spec; eauto). rewrite Hb in Hin. inversion Hin.
  - intros Hall. exfalso. apply Hb. apply elem_of_nil_inv. intros pid Hin. apply processIdsInState_spec in Hin as (p & Hp & E).
    rewrite (Hall _ _ Hp) in E. discriminate.
  - intros _. destruct (processIdsInState Blocked t) as [|pid l] eqn:E; [contradiction|].
    assert (Hin : pid ∈ processIdsInState Blocked t) by (rewrite E; left). apply processIdsInState_spec in Hin. eauto.
Qed.

Section ending.
Context (c : CPU) (t : ProcessTable) (sch : RoundRobinScheduler).
Let k := {| k_cpu := c; k_table := t; k_scheduler := sch |}.
Context (Hk : kernel_ok k) (Hrec : recordable k).
Context (cur : ProcessControlBlock) (Hcur : processes t !! running_pid t = Some cur).

Lemma end_run code kind message :
  stopProcess (running_pid t) (fun p => p ← replaceFinalState (context_of (running_pid t) c) (memory (state c)) p;
                                        terminate code kind message p) t
  = (Ret tt, ended_table c code kind message t).
Proof.
  destruct Hrec as [_ Hv]. destruct (Hv cur Hcur) as [Hs Ha]. cbn [k k_table k_cpu] in *.
  pose proof (proj2 (twf_unique _ (kok_table _ Hk) _ _ Hcur) eq_refl) as Hst.
  pose proof (eok_pid _ _ _ (entry_lookup _ (kok_table _ Hk) _ _ Hcur)) as Hpid.
  unfold stopProcess, get, lift. rewrite bind_run. cbv beta iota. rewrite bind_run. unfold requireProcess at 1. rewrite Hcur.
  cbn [mret outcome_ret]. rewrite bind_run, on_process_run. unfold requireProcess. rewrite Hcur. cbn [mbind outcome_bind mret outcome_ret].
  unfold replaceFinalState, replaceMemory. rewrite Hst, (bool_decide_eq_false_2 (Running = Terminated)) by discriminate.
  cbn [throw_if mbind outcome_bind mret outcome_ret].
  rewrite (proj2 (validateProcessContextSnapshot_spec _) Hs). cbn [ctx_pid context_of]. rewrite Hpid, Z.eqb_refl, Ha.
  cbn [negb throw_if mbind outcome_bind mret outcome_ret]. unfold terminate. cbn [set_context pcb_state]. rewrite Hst.
  rewrite (bool_decide_eq_false_2 (Running = Terminated)) by discriminate. cbn. unfold ended_table. rewrite Hcur. reflexivity.
Qed.

Lemma end_move code kind message : table_move t (ended_table c code kind message t).
Proof.
  assert (Hm : moves (stopProcess (running_pid t) (fun p =>
      p ← replaceFinalState (context_of (running_pid t) c) (memory (state c)) p; terminate code kind message p))).
  { apply stopProcess_moves. intros t' p p' Ht' Hp E. eapply terminate_state_advances; [|exact E]. apply entry_lookup; assumption. }
  specialize (Hm t (kok_table _ Hk)). rewrite end_run in Hm. exact Hm.
Qed.

(** The kernel that the dispatch after an ended process starts from. *)
Lemma ended_ok code kind message :
  let t' := ended_table c code kind message t in
  let k' := {| k_cpu := c; k_table := t'; k_scheduler := sch |} in
  kernel_ok k' /\ preemptible k' /\ running_pid t' = 0 /\
  processes t' !! running_pid t = Some (ended_block (running_pid t) c code kind message cur) /\
  forall pid, pid <> running_pid t -> processes t' !! pid = processes t !! pid.
Proof.
  intros t' k'. assert (Hwf : table_wf t') by (eapply move_wf; [apply Hk | apply end_move]).
  assert (Ht' : t' = set_running_pid 0 (set_process (running_pid t) (ended_block (running_pid t) c code kind message cur) t))
    by (unfold t', ended_table; rewrite Hcur; reflexivity).
  assert (H0 : running_pid t' = 0) by (rewrite Ht'; reflexivity).
  assert (Hnone : processes t' !! running_pid t' = None).
  { destruct (processes t' !! running_pid t') eqn:E; [|reflexivity]. rewrite H0 in E. apply (running_nonzero t' Hwf) in E. contradiction. }
  assert (Hother : forall pid, pid <> running_pid t -> processes t' !! pid = processes t !! pid).
  { intros pid Hne. rewrite Ht'. cbn [set_running_pid set_process processes]. apply lookup_insert_ne. congruence. }
  assert (Hself : processes t' !! running_pid t = Some (ended_block (running_pid t) c code kind message cur)).
  { rewrite Ht'. cbn [set_running_pid set_process processes]. apply lookup_insert_eq. }
  split; [constructor | split; [split|auto]].
  - exact Hwf.
  - intros pid p Hp. destruct (decide (pid = running_pid t)) as [->|Hne].
    + change (processes t' !! running_pid t = Some p) in Hp. rewrite Hself in Hp. injection Hp as <-.
      destruct (kok_running _ Hk cur Hcur) as (H1 & H2 & H3). cbn [k k_cpu] in H1, H2, H3.
      pose proof (kok_images _ Hk _ _ Hcur) as [(program & name & He & Hm & Hok & Hl & Hb & Hn) Hr Hregs Hst].
      constructor; cbn; try (split; reflexivity); [|exact H1|apply Hk].
      exists program, name. rewrite H1, H2, H3. auto 10.
    + change (processes t' !! pid = Some p) in Hp. rewrite Hother in Hp by exact Hne. apply (kok_images _ Hk _ _ Hp).
  - apply Hk.
  - apply Hk.
  - intros p Hp. cbn [k' k_table] in Hp. congruence.
  - apply Hrec.
  - intros p Hp. cbn [k' k_table] in Hp. congruence.
Qed.

End ending.

Section lifecycle_theorems.
Context {LD : LongDouble} {H : Type} {SIH : SoftwareInterruptHandler H}.
Implicit Types (s : System H) (m : ProcessLifecycleManager).

(** The table in which the process the stopped CPU ran has ended. *)
Definition stop_table m s : ProcessTable :=
  let c := cpu (s_machine s) in ended_table c (stop_code m c) (stop_kind c) (stop_message c) (s_table s).

(** What [step] reports and leaves behind when the process of [s] stopped. *)
Record process_ended m s m' s' (r : ProcessLifecycleStepResult) : Prop := {
  pe_block : forall p, processes (s_table s) !! running_pid (s_table s) = Some p ->
    let c := cpu (s_machine s) in
    processes (s_table s') !! running_pid (s_table s) =
    Some (ended_block (running_pid (s_table s)) c (stop_code m c) (stop_kind c) (stop_message c) p);
  pe_counts : lm_termination_count m' = u64 (lm_termination_count m + 1) /\
    lm_fault_count m' = if has_error (mstate (s_machine s)) then u64 (lm_fault_count m + 1) else lm_fault_count m;
  pe_result : lr_process_terminated r = true /\ lr_process_faulted r = has_error (mstate (s_machine s)) /\
    lr_terminated_pid r = running_pid (s_table s) /\ lr_state r = lm_state m';
  pe_devices : world (s_machine s') = world (s_machine s) /\ handler (s_machine s') = handler (s_machine s) /\
    s_preemptive s' = s_preemptive s;
  pe_record : let c := cpu (s_machine s) in let c' := cpu (s_machine s') in
    trace_logger c' = trace_logger c /\
    has_software_interrupt_observation c' = has_software_interrupt_observation c /\
    software_interrupt_observation c' = software_interrupt_observation c;
  pe_next : match rotation (stop_table m s) (s_scheduler s) with
    | next :: _ => exists p,
        lm_state m' = RS_Running /\ lr_running_pid r = next /\ s_table s' = switch_to next (stop_table m s) /\
        processes (s_table s') !! next = Some p /\ cpu_holds (kernel_of s') next p /\
        kernel_ok (kernel_of s') /\ preemptible (kernel_of s')
    | [] =>
        s_table s' = stop_table m s /\ lr_running_pid r = 0 /\ halted (mstate (s_machine s')) = true /\
        lm_state m' <> RS_Running /\
        (lm_state m' = RS_Completed <-> forall pid p, processes (s_table s') !! pid = Some p -> pcb_state p = Terminated) /\
        (lm_state m' = RS_Deadlocked <-> exists pid p, processes (s_table s') !! pid = Some p /\ pcb_state p = Blocked)
    end;
}.

(** The outcome of the call that ends the process. *)
Lemma end_outcome m s p :
  kernel_ok (kernel_of s) -> recordable (kernel_of s) -> processes (s_table s) !! running_pid (s_table s) = Some p ->
  let c := cpu (s_machine s) in
  (if has_error (state c)
   then ProcessTable_fault_state (running_pid (s_table s)) (context_of (running_pid (s_table s)) c) (memory (state c))
          (lm_fault_exit_code m) (stop_message c)
   else ProcessTable_terminate_state (running_pid (s_table s)) (context_of (running_pid (s_table s)) c) (memory (state c))
          (stop_code m c)) (s_table s) = (Ret tt, stop_table m s).
Proof.
  intros Hk Hrec Hp c. unfold stop_table. fold c.
  pose proof (end_run c (s_table s) (s_scheduler s) Hk Hrec p Hp) as Hrun.
  unfold stop_code, stop_kind, stop_message. destruct (has_error (state c)); apply Hrun.
Qed.

Lemma end_process_run m s :
  kernel_ok (kernel_of s) -> recordable (kernel_of s) -> hasRunningProcess (s_table s) = true ->
  exists r m' s', end_process (m, s) = (Ret r, (m', s')) /\ process_ended m s m' s' r.
Proof.
  intros Hk Hrec Hr. destruct (running_spec _ (kok_table _ Hk) Hr) as (p & Hp & _). cbn [kernel_of k_table] in Hp.
  set (c := cpu (s_machine s)). pose proof (end_outcome m s p Hk Hrec Hp) as Hend. cbv zeta in Hend. fold c in Hend.
  pose proof (ended_ok c (s_table s) (s_scheduler s) Hk Hrec p Hp (stop_code m c) (stop_kind c) (stop_message c))
    as (Hk1 & Hpre1 & H01 & Hself & Hother).
  change (ended_table c (stop_code m c) (stop_kind c) (stop_message c) (s_table s)) with (stop_table m s) in *.
  assert (Hcode : (if negb (has_error (state c)) && process_exit_requested c then processExitCode c
                   else mret (lm_normal_exit_code m)) =
                  Ret (if has_error (state c) then lm_normal_exit_code m else stop_code m c)).
  { unfold stop_code, processExitCode. destruct (has_error (state c)); [reflexivity|]. cbn [negb andb].
    destruct (process_exit_requested c); reflexivity. }
  unfold end_process. rewrite bind_run. unfold get at 1. cbv beta iota zeta. fold c. rewrite bind_run.
  unfold lift at 1, runningProcessId. rewrite Hr. cbn [negb throw_if mbind outcome_bind mret outcome_ret].
  rewrite bind_run. unfold lift at 1. rewrite Hcode, bind_run. unfold lift at 1.
  rewrite (proj2 (captureSnapshot_spec _ c _ (kok_registers _ Hk))) by
    (split; [apply Hrec | split; [reflexivity | apply (proj2 Hrec p Hp)]]).
  assert (Hexp : (if has_error (state c)
       then ProcessTable_fault_state (running_pid (s_table s)) (context_of (running_pid (s_table s)) c) (memory (state c))
              (lm_fault_exit_code m) (if has_error (state c) then error_message (state c) else EmptyString)
       else ProcessTable_terminate_state (running_pid (s_table s)) (context_of (running_pid (s_table s)) c)
              (memory (state c)) (if has_error (state c) then lm_normal_exit_code m else stop_code m c)) (s_table s)
    = (Ret tt, stop_table m s)).
  { rewrite <- Hend. unfold stop_message. destruct (has_error (state c)); reflexivity. }
  rewrite bind_run. unfold lift at 1. rewrite Hexp. cbn [mbind outcome_bind].
  pose proof (ready_runnable _ (kok_table _ Hk1) H01) as Hready. cbn [k_table] in Hready. rewrite <- Hready.
  set (counted := fun st => set_lifecycle (lm_started m) st (u64 (lm_termination_count m + 1))
         (if has_error (state c) then u64 (lm_fault_count m + 1) else lm_fault_count m) m).
  destruct (rotation (stop_table m s) (s_scheduler s)) as [|next rest] eqn:Hrot.
  - assert (Hnil : runnable (stop_table m s) = [])
      by (apply Permutation_nil_r; rewrite <- Hrot; symmetry; apply rotation_permutation).
    rewrite Hnil, bool_decide_eq_true_2 by reflexivity. cbn [negb mret outcome_ret k_cpu k_table].
    pose proof (classify_spec _ (kok_table _ Hk1) H01 Hnil) as Hclass. cbn [k_table] in Hclass.
    set (b := negb (has_error (state c)) && process_exit_requested c && process_exit_requested c).
    set (c' := if b then clearProcessExitRequest c else c).
    exists (step_result (classifyWithoutRunning (stop_table m s)) true (has_error (state c)) (running_pid (s_table s)) 0),
      (counted (classifyWithoutRunning (stop_table m s))),
      (mkSystem (set_cpu (fun _ => set_state (setHalted true (state c')) c') (s_machine s)) (stop_table m s) (s_scheduler s)
         (s_preemptive s)).
    split; [unfold c'; destruct b; reflexivity|]. constructor.
    + intros q Hq. assert (q = p) by congruence. subst q. exact Hself.
    + split; reflexivity.
    + repeat split.
    + repeat split.
    + cbv zeta. cbn [s_machine set_cpu cpu set_state trace_logger has_software_interrupt_observation software_interrupt_observation].
      unfold c'. destruct b; repeat split.
    + rewrite Hrot. split; [reflexivity|]. split; [reflexivity|]. split; [reflexivity|]. exact Hclass.
  - destruct (dispatch_run _ next rest Hk1 Hpre1 Hrot) as (q & program & Hq & Hexe & Hiq & _ & Hd).
    destruct (dispatched_ok _ next rest q program Hk1 Hpre1 Hrot Hq Hexe) as (Hholds & _ & Hk2 & Hpre2).
    pose proof (rotation_elem _ _ _ _ Hrot) as Hel.
    rewrite bool_decide_eq_false_2 by (intros E; rewrite E in Hel; inversion Hel). cbn [negb]. rewrite Hd.
    assert (Hn0 : (next =? 0) = false).
    { apply runnable_spec in Hel as (x & Hx & _). apply (running_nonzero _ (kok_table _ Hk1)) in Hx. apply Z.eqb_neq, Hx. }
    set (K := dispatched _ next q program) in *. cbn [mbind outcome_bind mret outcome_ret].
    assert (Hexit : process_exit_requested (k_cpu K) = false) by reflexivity. rewrite Hexit, andb_false_r, Hn0. cbn [negb].
    assert (Hsaved : saved {| k_cpu := c; k_table := stop_table m s; k_scheduler := s_scheduler s |} = stop_table m s).
    { unfold saved. cbn [k_table]. destruct (processes (stop_table m s) !! running_pid (stop_table m s)) as [x|] eqn:Hx; [|reflexivity].
      apply (running_nonzero _ (kok_table _ Hk1)) in Hx. cbn [k_table] in Hx. congruence. }
    exists (step_result RS_Running true (has_error (state c)) (running_pid (s_table s)) next), (counted RS_Running),
      (mkSystem (set_cpu (fun _ => k_cpu K) (s_machine s)) (k_table K) (k_scheduler K) (s_preemptive s)).
    split; [reflexivity|].
    assert (Htab : k_table K = switch_to next (stop_table m s)) by (unfold K; cbn [dispatched k_table]; rewrite Hsaved; reflexivity).
    assert (HK : kernel_of (mkSystem (set_cpu (fun _ => k_cpu K) (s_machine s)) (k_table K) (k_scheduler K) (s_preemptive s)) = K)
      by apply kernel_eta.
    constructor.
    + intros x Hx. assert (x = p) by congruence. subst x. cbn [s_table]. rewrite Htab, switch_lookup, Hself. cbn. f_equal.
      unfold switch_state. cbn [pcb_state ended_block]. rewrite (bool_decide_eq_false_2 (Terminated = Running)) by discriminate.
      rewrite bool_decide_eq_false_2; [reflexivity|]. intros E. apply runnable_spec in Hel as (x & Hx' & Hs).
      rewrite <- E in Hx'. rewrite Hself in Hx'. injection Hx' as <-. cbn in Hs. destruct Hs; discriminate.
    + split; reflexivity.
    + repeat split.
    + repeat split.
    + repeat split.
    + rewrite Hrot. exists q. split; [reflexivity|]. split; [reflexivity|]. split; [exact Htab|].
      rewrite HK. cbn [s_table]. rewrite Htab, <- Hsaved. auto.
Qed.

(** ** Property *)

(** (C36) A step of the process lifecycle, once the preemptive step of the
    running runtime is made.  If the CPU goes on, nothing else happens.  If it
    halted or failed, the process it ran is terminated: its block records the
    final context and memory, the kind of termination, the error message, and
    the exit code (the fault code after an error, else the code the process
    asked to exit with, else the normal one); the counters advance; and either
    the next process in round-robin order is running on the CPU, or the CPU is
    halted and the runtime is completed, exactly when every process has
    terminated, or deadlocked, exactly when one is blocked.  Devices and handler
    are untouched. *)
Theorem lifecycle_step_correct (this_cpu : nat) (m : ProcessLifecycleManager) (s s1 : System H) (pid : ProcessId)
    (Hm : lm_started m = true) (Hst : lm_state m = RS_Running) (Hr : hasRunningProcess (s_table s) = true)
    (Hstep : preemptive_step this_cpu s = (Ret pid, s1)) (Hr1 : hasRunningProcess (s_table s1) = true) :
  if stopped (s_machine s1) then
    kernel_ok (kernel_of s1) -> recordable (kernel_of s1) ->
    exists r m' s', lifecycle_step this_cpu (m, s) = (Ret r, (m', s')) /\ process_ended m s1 m' s' r
  else lifecycle_step this_cpu (m, s) =
       (Ret (step_result RS_Running false false 0 (running_pid (s_table s1))), (m, s1)).
Proof.
  assert (E : lifecycle_step this_cpu (m, s) =
    (if stopped (s_machine s1) then end_process (m, s1)
     else (Ret (step_result RS_Running false false 0 (running_pid (s_table s1))), (m, s1)))).
  { unfold lifecycle_step. rewrite bind_run. unfold get at 1. cbv beta iota. rewrite Hm, Hst, Hr. cbn [negb].
    rewrite bind_run. cbn [throw_if mret M_ret]. rewrite bool_decide_eq_true_2 by reflexivity. cbn [negb].
    rewrite bind_run. cbn [throw_if mret M_ret]. rewrite bind_run. unfold on_system, zoom. cbn [snd]. rewrite Hstep.
    rewrite bind_run. unfold get. cbv beta iota. unfold stopped.
    destruct (halted (mstate (s_machine s1))), (has_error (mstate (s_machine s1))); cbn [negb andb orb]; try reflexivity.
    rewrite bind_run. unfold lift, runningProcessId. rewrite Hr1, Hst. reflexivity. }
  rewrite E. destruct (stopped (s_machine s1)); [|reflexivity]. intros Hk Hrec. apply end_process_run; assumption.
Qed.

End lifecycle_theorems.

(** The running process has just failed. *)
Definition fail (k : Kernel) : Kernel :=
  {| k_cpu := set_state (CPUState_setError "Division by zero" (state (k_cpu k))) (k_cpu k); k_table := k_table k;
     k_scheduler := k_scheduler k |}.

Lemma fail_ok k : kernel_ok k -> preemptible k -> kernel_ok (fail k) /\ recordable (fail k).
Proof.
  intros [K1 K2 K3 K4 K5] [P1 P2]. split; [constructor; assumption|]. split; [exact P1|].
  intros p Hp. destruct (P2 p Hp) as [[Hs _] Hv]. split; [exact Hs | exact Hv].
Qed.

Definition failed_kernel : Kernel := fail (dispatch_n 1 sample_kernel).

Definition failed_system : System unit :=
  mkSystem (mkMachine (k_cpu failed_kernel) empty_world tt) (k_table failed_kernel) (k_scheduler failed_kernel)
    {| tp_controller := 0; tp_timer := 0; tp_attached_cpu := Some 0%nat; tp_started := true; tp_preemption_count := 0;
       tp_context_switch_count := 0 |}.

Lemma failed_kernel_ok : kernel_ok failed_kernel /\ recordable failed_kernel.
Proof. destruct running_kernel_ok as [Hk Hpre]. exact (fail_ok _ Hk Hpre). Qed.

Example lifecycle_step_correct_witness :
  exists r m' s', @lifecycle_step extended_long_double unit no_handler 0
      (set_lifecycle true RS_Running 0 0 (new_ProcessLifecycleManager 0 (-1)), failed_system) = (Ret r, (m', s')) /\
    lr_process_faulted r = true /\ lr_terminated_pid r = 1.
Proof.
  assert (Hidle : preempts failed_system = false) by (vm_compute; reflexivity).
  assert (Hr : hasRunningProcess (s_table failed_system) = true) by (vm_compute; reflexivity).
  assert (Hstop : stopped (s_machine failed_system) = true) by (vm_compute; reflexivity).
  assert (Hsame : @stepped_system extended_long_double unit no_handler failed_system = failed_system).
  { unfold stepped_system, final. rewrite (@step_stopped extended_long_double unit no_handler) by exact Hstop. reflexivity. }
  pose proof (@preemptive_step_idle extended_long_double unit no_handler 0 failed_system eq_refl eq_refl Hr Hidle) as Hstep.
  rewrite Hsame, Hstop in Hstep.
  pose proof (@lifecycle_step_correct extended_long_double unit no_handler 0
    (set_lifecycle true RS_Running 0 0 (new_ProcessLifecycleManager 0 (-1))) failed_system failed_system _
    eq_refl eq_refl Hr Hstep Hr) as T.
  rewrite Hstop in T. destruct failed_kernel_ok as [Hk Hrec].
  assert (He : kernel_of failed_system = failed_kernel) by apply kernel_eta. rewrite He in T.
  destruct (T Hk Hrec) as (r & m' & s' & Hrun & Hpost). exists r, m', s'. split; [exact Hrun|].
  destruct (pe_result _ _ _ _ _ Hpost) as (_ & Hf & Ht & _). rewrite Hf, Ht. split; vm_compute; reflexivity.
Defined.
