(* ===== verification/ZeroFS.v ===== *)
(** * ZeroFS: [src/system/ZeroFS.cpp]

    The in-memory file system.  The source keeps one map from normalised paths
    to nodes.  The theorems relate it to a tree of directories: the map is the
    flat image of a tree, and every operation is the operation of the tree at
    the path that the text denotes ([refines_tree]); what a text denotes is
    stated by splitting it at ['/'] ([normalizePath_correct]). *)

From S2P Require Import Prelude Words Strings.
From stdpp Require Import sorting.
Open Scope Z_scope.

(** ** Data *)

Inductive ZeroFSNodeType := File | Directory.

#[export] Instance ZeroFSNodeType_eq_dec : EqDecision ZeroFSNodeType.
Proof. solve_decision. Defined.

Definition zeroFSErrorToString (e : ZeroFSError) : string :=
  match e with
  | InvalidPath => "InvalidPath" | NotFound => "NotFound" | AlreadyExists => "AlreadyExists"
  | NotDirectory => "NotDirectory" | IsDirectory => "IsDirectory" | InvalidOffset => "InvalidOffset"
  end.

Record ZeroFSStat := { stat_type : ZeroFSNodeType; stat_size : Z }.

Definition ZeroFSStat_isFile (s : ZeroFSStat) : bool := bool_decide (stat_type s = File).
Definition ZeroFSStat_isDirectory (s : ZeroFSStat) : bool := bool_decide (stat_type s = Directory).

Record Node := { node_type : ZeroFSNodeType; node_data : list Z }.

#[export] Instance Node_eq_dec : EqDecision Node.
Proof. solve_decision. Defined.

(** The member [nodes_], a [std::map]. *)
Abbreviation ZeroFS := (gmap string Node).

Definition throwZeroFSError {T A} `{MonadThrow T} (error : ZeroFSError) (message : string) : T A :=
  throw (ZeroFSException error message).

(** [std::numeric_limits<std::size_t>::max()], also [kReadToEnd]. *)
Definition size_max : Z := 2 ^ 64 - 1.
Definition kReadToEnd : Z := size_max.
(** [max_size()] of a vector of bytes: [PTRDIFF_MAX]. *)
Definition vector_max_size : Z := 2 ^ 63 - 1.

(** ** Paths *)

(** The body of the loop of [normalizePath] on one component. *)
Definition add_component (component : list ascii) (components : list string) : outcome (list string) :=
  if bool_decide (of_chars component = EmptyString) || bool_decide (of_chars component = "."%string)
  then mret components
  else if bool_decide (of_chars component = ".."%string)
  then throwZeroFSError InvalidPath "ZeroFS path traversal '..' is not allowed"
  else mret (components ++ [of_chars component]).

Fixpoint path_components (fuel : nat) (path : list ascii) (cursor : nat) (components : list string)
  : outcome (list string) :=
  match fuel with
  | O => mret components
  | S fuel =>
      if bool_decide (cursor <= length path)%nat then
        let slash := default (length path) (find_from "/" path cursor) in
        components ← add_component (substr cursor (slash - cursor) path) components;
        if bool_decide (slash = length path) then mret components
        else path_components fuel path (slash + 1) components
      else mret components
  end.

Definition join_components (components : list string) : string :=
  fold_left (fun normalized component => (normalized +:+ "/") +:+ component) components EmptyString.

Definition normalizePath (path : string) : outcome string :=
  let cs := chars path in
  if bool_decide (cs = []) || bool_decide (head cs <> Some "/"%char)
     || bool_decide ("\"%char ∈ cs) || bool_decide ("000"%char ∈ cs)
  then throwZeroFSError InvalidPath "ZeroFS path must be an absolute '/' path"
  else
    components ← path_components (S (length cs)) cs 1 [];
    if bool_decide (components = []) then mret "/"%string else mret (join_components components).

Definition parentPath (normalizedPath : string) : string :=
  if bool_decide (normalizedPath = "/"%string) then "/"
  else match find_last "/" (chars normalizedPath) with
       | Some O => "/"
       | Some slash => of_chars (substr 0 slash (chars normalizedPath))
       | None => normalizedPath
       end.

Definition baseName (normalizedPath : string) : string :=
  if bool_decide (normalizedPath = "/"%string) then "/"
  else match find_last "/" (chars normalizedPath) with
       | Some slash => of_chars (drop (slash + 1) (chars normalizedPath))
       | None => normalizedPath
       end.

(** ** Operations *)

Definition requireNode (normalizedPath : string) (nodes : ZeroFS) : outcome Node :=
  match nodes !! normalizedPath with
  | None => throwZeroFSError NotFound ("ZeroFS path not found: " +:+ normalizedPath)
  | Some node => mret node
  end.

Definition empty_directory : Node := {| node_type := Directory; node_data := [] |}.

Definition is_directory (n : Node) : bool := bool_decide (node_type n = Directory).

Definition ZeroFS_exists (path : string) (nodes : ZeroFS) : outcome bool :=
  normalized ← normalizePath path;
  mret (bool_decide (is_Some (nodes !! normalized))).

Definition ZeroFS_stat (path : string) (nodes : ZeroFS) : outcome ZeroFSStat :=
  normalized ← normalizePath path;
  node ← requireNode normalized nodes;
  mret {| stat_type := node_type node;
          stat_size := if is_directory node then 0 else Z.of_nat (length (node_data node)) |}.

(** [nodes_.emplace(key, node)], where the key is absent. *)
Definition emplace_node (key : string) (node : Node) : M ZeroFS unit := modify (insert key node).

Definition ZeroFS_createDirectory (path : string) : M ZeroFS unit :=
  normalized ← lift (normalizePath path);
  nodes ← get;
  _ ← throw_if (bool_decide (is_Some (nodes !! normalized)))
        (ZeroFSException AlreadyExists ("ZeroFS path already exists: " +:+ normalized));
  let parent := parentPath normalized in
  parentNode ← lift (requireNode parent nodes);
  _ ← throw_if (negb (is_directory parentNode))
        (ZeroFSException NotDirectory ("ZeroFS parent is not a directory: " +:+ parent));
  emplace_node normalized empty_directory.

Fixpoint create_directories_loop (fuel : nat) (normalized : list ascii) (cursor : nat) : M ZeroFS unit :=
  match fuel with
  | O => mret tt
  | S fuel =>
      if bool_decide (cursor < length normalized)%nat then
        let slash := find_from "/" normalized cursor in
        let current := match slash with
                       | None => of_chars normalized
                       | Some slash => of_chars (substr 0 slash normalized)
                       end in
        nodes ← get;
        _ ← match nodes !! current with
            | None => emplace_node current empty_directory
            | Some existing =>
                throw_if (negb (is_directory existing))
                  (ZeroFSException NotDirectory ("ZeroFS path component is a file: " +:+ current))
            end;
        match slash with
        | None => mret tt
        | Some slash => create_directories_loop fuel normalized (slash + 1)
        end
      else mret tt
  end.

Definition ZeroFS_createDirectories (path : string) : M ZeroFS unit :=
  normalized ← lift (normalizePath path);
  if bool_decide (normalized = "/"%string) then mret tt
  else create_directories_loop (String.length normalized) (chars normalized) 1.

Definition ZeroFS_putFile (path : string) (data : list Z) : M ZeroFS unit :=
  normalized ← lift (normalizePath path);
  _ ← throw_if (bool_decide (normalized = "/"%string)) (ZeroFSException IsDirectory "ZeroFS root is a directory");
  let parent := parentPath normalized in
  nodes ← get;
  parentNode ← lift (requireNode parent nodes);
  _ ← throw_if (negb (is_directory parentNode))
        (ZeroFSException NotDirectory ("ZeroFS parent is not a directory: " +:+ parent));
  match nodes !! normalized with
  | Some existing =>
      _ ← throw_if (is_directory existing)
            (ZeroFSException IsDirectory ("ZeroFS path is a directory: " +:+ normalized));
      modify (insert normalized {| node_type := node_type existing; node_data := data |})
  | None => emplace_node normalized {| node_type := File; node_data := data |}
  end.

Definition ZeroFS_readFile (path : string) (offset count : Z) (nodes : ZeroFS) : outcome (list Z) :=
  normalized ← normalizePath path;
  node ← requireNode normalized nodes;
  _ ← throw_if (is_directory node)
        (ZeroFSException IsDirectory ("ZeroFS path is a directory: " +:+ normalized));
  let size := Z.of_nat (length (node_data node)) in
  if offset >=? size then mret []
  else
    let available := size - offset in
    let readCount := if count =? kReadToEnd then available else Z.min count available in
    mret (take (Z.to_nat readCount) (drop (Z.to_nat offset) (node_data node))).

(** [data.resize(n, 0)], through the reference to the node at [key]; a size
    above [max_size()] throws without a change. *)
Definition resize_node (key : string) (n : Z) : M ZeroFS unit :=
  update (fun nodes => nodes) (fun nodes _ => nodes) (fun nodes =>
    node ← requireNode key nodes;
    if n >? vector_max_size then throw (LengthError "vector::_M_default_append")
    else mret (<[key := {| node_type := node_type node; node_data := resize (Z.to_nat n) 0 (node_data node) |}]> nodes)).

(** [std::copy(data.begin(), data.end(), node.data.begin() + offset)] *)
Definition copy_into (offset : nat) (data old : list Z) : list Z :=
  take offset old ++ data ++ drop (offset + length data) old.

Definition copy_into_node (key : string) (offset : Z) (data : list Z) (nodes : ZeroFS) : ZeroFS :=
  alter (fun node => {| node_type := node_type node; node_data := copy_into (Z.to_nat offset) data (node_data node) |})
    key nodes.

Definition node_size (key : string) (nodes : ZeroFS) : Z :=
  match nodes !! key with Some node => Z.of_nat (length (node_data node)) | None => 0 end.

(** The statements of [writeFile] after its checks. *)
Definition write_node (key : string) (offset : Z) (data : list Z) : M ZeroFS unit :=
  let last := u64 (offset + Z.of_nat (length data)) in
  size ← gets (node_size key);
  _ ← (if offset >? size then resize_node key offset else mret tt);
  size ← gets (node_size key);
  _ ← (if last >? size then resize_node key last else mret tt);
  modify (copy_into_node key offset data).

Definition ZeroFS_writeFile (path : string) (offset : Z) (data : list Z) : M ZeroFS unit :=
  normalized ← lift (normalizePath path);
  nodes ← get;
  node ← lift (requireNode normalized nodes);
  _ ← throw_if (is_directory node)
        (ZeroFSException IsDirectory ("ZeroFS path is a directory: " +:+ normalized));
  _ ← throw_if (Z.of_nat (length data) >? size_max - offset)
        (ZeroFSException InvalidOffset "ZeroFS write offset overflows size_t");
  write_node normalized offset data.

Definition ZeroFS_listDirectory (path : string) (nodes : ZeroFS) : outcome (list string) :=
  normalized ← normalizePath path;
  node ← requireNode normalized nodes;
  _ ← throw_if (negb (is_directory node))
        (ZeroFSException NotDirectory ("ZeroFS path is not a directory: " +:+ normalized));
  let entries := filter (fun key => key <> "/"%string /\ parentPath key = normalized) (map_to_list nodes).*1 in
  mret (merge_sort string_le (baseName <$> entries)).

Definition count_nodes (type : ZeroFSNodeType) (nodes : ZeroFS) : Z :=
  Z.of_nat (length (filter (fun entry => node_type entry.2 = type) (map_to_list nodes))).

Definition ZeroFS_fileCount : ZeroFS -> Z := count_nodes File.
Definition ZeroFS_directoryCount : ZeroFS -> Z := count_nodes Directory.

Definition ZeroFS_totalFileBytes (nodes : ZeroFS) : Z :=
  foldr (fun entry total => if bool_decide (node_type entry.2 = File)
                            then Z.of_nat (length (node_data entry.2)) + total else total)
    0 (map_to_list nodes).

(** The constructor. *)
Definition construct_ZeroFS : M ZeroFS unit :=
  _ ← emplace_node "/" empty_directory;
  _ ← ZeroFS_createDirectory "/bin";
  _ ← ZeroFS_createDirectory "/www";
  ZeroFS_createDirectory "/data".

Definition new_ZeroFS : ZeroFS := final construct_ZeroFS ∅.

(** ** What a path denotes *)

(** A component of a path: not empty, not a dot or two, without the characters
    paths treat specially. *)
Definition name_ok (w : string) : Prop :=
  w <> EmptyString /\ w <> "."%string /\ w <> ".."%string /\
  ("/"%char ∉ chars w) /\ ("\"%char ∉ chars w) /\ ("000"%char ∉ chars w).

(** A text denotes the list of its components between ['/'], without the empty
    ones and the single dots; it has to start with ['/'], and must not hold
    a backslash, a zero byte or a component [..]. *)
Definition denotes (path : string) : option (list string) :=
  match chars path with
  | "/"%char :: cs =>
      let words := of_chars <$> split_on "/" cs in
      if bool_decide ("\"%char ∈ cs) || bool_decide ("000"%char ∈ cs) || bool_decide (".."%string ∈ words) then None
      else Some (filter (fun w => w <> EmptyString /\ w <> "."%string) words)
  | _ => None
  end.

(** The canonical text of a list of components. *)
Definition path_text (p : list string) : string :=
  if bool_decide (p = []) then "/"%string else join_components p.

Definition segment (w : string) : list ascii := "/"%char :: chars w.
Definition flat (p : list string) : list ascii := mjoin (segment <$> p).

Lemma flat_app p q : flat (p ++ q) = flat p ++ flat q.
Proof. unfold flat. rewrite fmap_app, join_app. reflexivity. Qed.

Lemma flat_cons w p : flat (w :: p) = "/"%char :: chars w ++ flat p.
Proof. reflexivity. Qed.

Lemma join_components_flat p : chars (join_components p) = flat p.
Proof.
  assert (Hacc : forall acc, chars (fold_left (fun n c => (n +:+ "/") +:+ c) p acc) = chars acc ++ flat p).
  { induction p as [|w p IH]; intros acc; cbn [fold_left]; [symmetry; apply app_nil_r|].
    rewrite IH, !chars_app, flat_cons, <- !app_assoc. reflexivity. }
  apply (Hacc EmptyString).
Qed.

Lemma path_text_flat p : p <> [] -> chars (path_text p) = flat p.
Proof. intros Hp. unfold path_text. rewrite bool_decide_eq_false_2 by exact Hp. apply join_components_flat. Qed.

Lemma path_text_snoc p w : path_text (p ++ [w]) = of_chars (flat p ++ "/"%char :: chars w).
Proof.
  apply chars_inj. rewrite path_text_flat by (intros E; apply (f_equal length) in E; rewrite length_app in E; cbn in E; lia).
  rewrite flat_app, chars_of_chars. cbn. rewrite app_nil_r. reflexivity.
Qed.

Lemma split_flat w p : Forall name_ok (w :: p) -> split_on "/" (chars w ++ flat p) = chars <$> (w :: p).
Proof.
  revert w. induction p as [|v p IH]; intros w Hp; inversion_clear Hp as [|? ? Hw Hp'].
  - cbn. rewrite app_nil_r. apply split_on_none, Hw.
  - rewrite flat_cons, split_on_app by apply Hw. rewrite (IH v Hp'). reflexivity.
Qed.

Lemma flat_chars x p : x ∈ flat p -> x = "/"%char \/ exists w, w ∈ p /\ x ∈ chars w.
Proof.
  unfold flat. rewrite list_elem_of_join. intros (l & Hx & Hl). apply list_elem_of_fmap in Hl as (w & -> & Hw).
  apply elem_of_cons in Hx as [->|Hx]; [left; reflexivity | right; eauto].
Qed.

Lemma of_chars_fmap (l : list string) : of_chars <$> (chars <$> l) = l.
Proof. rewrite <- list_fmap_compose. rewrite (list_fmap_ext _ id); [apply list_fmap_id | intros; apply of_chars_chars]. Qed.

Lemma filter_all {A} (P : A -> Prop) `{forall x, Decision (P x)} (l : list A) : Forall P l -> filter P l = l.
Proof. induction 1 as [|x l Hx Hl IH]; [reflexivity|]. rewrite filter_cons_True by exact Hx. f_equal. exact IH. Qed.

(** Canonical texts denote their components. *)
Lemma denotes_path_text p : Forall name_ok p -> denotes (path_text p) = Some p.
Proof.
  intros Hp. destruct p as [|w p]; [reflexivity|].
  unfold denotes. rewrite path_text_flat by discriminate. rewrite flat_cons, (split_flat w p Hp), of_chars_fmap.
  assert (Hspecial : forall x, (x = "\"%char \/ x = "000"%char) -> x ∉ chars w ++ flat p).
  { intros x Hx. rewrite elem_of_app. intros [Hin|Hin].
    - inversion_clear Hp as [|? ? (_ & _ & _ & _ & H1 & H2) _]. destruct Hx as [-> | ->]; auto.
    - apply flat_chars in Hin as [->|(v & Hv & Hin)]; [destruct Hx; discriminate|].
      destruct (proj1 (Forall_forall _ _) Hp v (list_elem_of_further _ _ _ Hv)) as (_ & _ & _ & _ & H1 & H2).
      destruct Hx as [-> | ->]; auto. }
  rewrite !bool_decide_eq_false_2; [cbn [orb]; f_equal; apply filter_all| | |].
  - apply Forall_impl with (P := name_ok); [exact Hp | intros v (H1 & H2 & _); auto].
  - intros Hin. destruct (proj1 (Forall_forall _ _) Hp _ Hin) as (_ & _ & H & _). contradiction.
  - apply Hspecial. auto.
  - apply Hspecial. auto.
Qed.

Lemma denotes_ok path p : denotes path = Some p -> Forall name_ok p.
Proof.
  unfold denotes. destruct (chars path) as [|c cs]; [discriminate|].
  destruct (decide (c = "/"%char)) as [->|Hc].
  2: { intros H. exfalso. destruct c as [[] [] [] [] [] [] [] []]; cbn in H; try discriminate; contradiction. }
  destruct (_ || _) eqn:E; [discriminate|]. intros [= <-]. facts.
  apply Forall_forall. intros w Hw. apply list_elem_of_filter in Hw as [[Hne Hdot] Hw].
  split; [exact Hne|]. split; [exact Hdot|]. split; [intros ->; contradiction|].
  apply list_elem_of_fmap in Hw as (l & -> & Hl). rewrite chars_of_chars.
  split; [exact (split_on_pieces _ _ _ Hl)|]. split; intros Hin; pose proof (split_on_chars _ _ _ _ Hl Hin); contradiction.
Qed.

Lemma path_text_inj p q : Forall name_ok p -> Forall name_ok q -> path_text p = path_text q -> p = q.
Proof. intros Hp Hq E. apply denotes_path_text in Hp, Hq. rewrite E in Hp. congruence. Qed.

(** ** normalizePath computes what the text denotes *)

Fixpoint collect (words : list (list ascii)) (components : list string) : outcome (list string) :=
  match words with
  | [] => mret components
  | w :: words => components ← add_component w components; collect words components
  end.

Lemma find_from_drop c l pos : (pos <= length l)%nat ->
  match find_from c l pos with
  | Some slash => (pos <= slash < length l)%nat /\
                  split_on c (drop pos l) = substr pos (slash - pos) l :: split_on c (drop (slash + 1) l)
  | None => split_on c (drop pos l) = [substr pos (length l - pos) l]
  end.
Proof.
  intros Hpos. unfold find_from, substr. destruct (index_of c (drop pos l)) as [n|] eqn:E; cbn.
  - destruct (index_of_Some _ _ _ E) as (Hn & Hs & Hc). rewrite length_drop in Hn. split; [lia|].
    rewrite Hs at 1. rewrite split_on_app by exact Hc. rewrite drop_drop. do 2 f_equal; [f_equal; lia | f_equal; lia].
  - apply index_of_None in E. rewrite split_on_none by exact E. rewrite take_ge by (rewrite length_drop; lia). reflexivity.
Qed.

Lemma path_components_collect fuel cs cursor comps :
  (cursor <= length cs)%nat -> (length cs - cursor < fuel)%nat ->
  path_components fuel cs cursor comps = collect (split_on "/" (drop cursor cs)) comps.
Proof.
  revert cursor comps. induction fuel as [|fuel IH]; intros cursor comps Hc Hf; [lia|].
  cbn [path_components]. rewrite bool_decide_eq_true_2 by exact Hc.
  pose proof (find_from_drop "/" cs cursor Hc) as Hd.
  destruct (find_from "/" cs cursor) as [slash|]; cbn [from_option id].
  - destruct Hd as [Hs ->]. cbn [collect]. destruct (add_component _ _); [|reflexivity]. cbn [mbind outcome_bind].
    rewrite bool_decide_eq_false_2 by lia. apply IH; lia.
  - rewrite Hd. cbn [collect id]. destruct (add_component _ _); [|reflexivity]. cbn [mbind outcome_bind].
    rewrite bool_decide_eq_true_2 by reflexivity. reflexivity.
Qed.

Lemma collect_spec words comps :
  collect words comps =
    if bool_decide (".."%string ∈ of_chars <$> words)
    then throwZeroFSError InvalidPath "ZeroFS path traversal '..' is not allowed"
    else mret (comps ++ filter (fun w => w <> EmptyString /\ w <> "."%string) (of_chars <$> words)).
Proof.
  revert comps. induction words as [|w words IH]; intros comps; cbn [collect].
  - rewrite bool_decide_eq_false_2 by (intros H; inversion H). cbn. rewrite app_nil_r. reflexivity.
  - unfold add_component. change (of_chars <$> w :: words) with (of_chars w :: (of_chars <$> words)).
    destruct (bool_decide (of_chars w = EmptyString) || bool_decide (of_chars w = "."%string)) eqn:E.
    + cbn [mbind outcome_bind mret outcome_ret]. rewrite IH. rewrite filter_cons_False.
      * apply orb_true_iff in E. rewrite !bool_decide_eq_true in E.
        rewrite (bool_decide_ext (".."%string ∈ (of_chars w :: _)) (".."%string ∈ of_chars <$> words)); [reflexivity|].
        rewrite elem_of_cons. split; [intros [H|H]; [rewrite <- H in E; destruct E; discriminate | exact H] | auto].
      * apply orb_true_iff in E. rewrite !bool_decide_eq_true in E. intros [H1 H2]. destruct E; contradiction.
    + facts. destruct (bool_decide (of_chars w = ".."%string)) eqn:E2; facts.
      * rewrite bool_decide_eq_true_2 by (rewrite E2; left). reflexivity.
      * cbn [mbind outcome_bind mret outcome_ret]. rewrite IH. rewrite filter_cons_True by auto. rewrite <- app_assoc.
        rewrite (bool_decide_ext (".."%string ∈ (of_chars w :: _)) (".."%string ∈ of_chars <$> words)); [reflexivity|].
        rewrite elem_of_cons. split; [intros [Hw|Hw]; [congruence | exact Hw] | auto].
Qed.

Lemma normalize_spec path :
  match denotes path with
  | Some p => normalizePath path = Ret (path_text p)
  | None => exists msg, normalizePath path = Throw (ZeroFSException InvalidPath msg)
  end.
Proof.
  unfold normalizePath, denotes. destruct (chars path) as [|c cs]; [eexists; reflexivity|].
  destruct (decide (c = "/"%char)) as [->|Hc].
  2: { rewrite (bool_decide_eq_true_2 (head (c :: cs) <> Some "/"%char)) by (cbn; congruence).
       rewrite orb_true_r. destruct c as [[] [] [] [] [] [] [] []]; try (eexists; reflexivity). contradiction. }
  rewrite (bool_decide_eq_false_2 (head _ <> _)) by (cbn; congruence).
  rewrite (bool_decide_eq_false_2 ("/"%char :: cs = [])) by discriminate. cbn [orb].
  rewrite !(bool_decide_ext (_ ∈ ("/"%char :: cs)) (_ ∈ cs))
    by (rewrite elem_of_cons; split; [intros [H|H]; [discriminate | exact H] | auto]).
  destruct (bool_decide ("\"%char ∈ cs)); [eexists; reflexivity|].
  destruct (bool_decide ("000"%char ∈ cs)); [eexists; reflexivity|]. cbn [orb].
  rewrite path_components_collect by (cbn; lia). cbn [drop]. rewrite collect_spec. cbn [app].
  destruct (bool_decide (".."%string ∈ _)); [eexists; reflexivity|]. cbn [mbind outcome_bind mret outcome_ret].
  unfold path_text. destruct (bool_decide (filter _ _ = [])); reflexivity.
Qed.

Lemma name_no_slash w : name_ok w -> "/"%char ∉ chars w.
Proof. intros (_ & _ & _ & H & _). exact H. Qed.

Lemma path_text_root p : Forall name_ok p -> path_text p = "/"%string <-> p = [].
Proof.
  intros Hp. split; [|intros ->; reflexivity]. intros E. apply denotes_path_text in Hp. rewrite E in Hp.
  change (Some [] = Some p) in Hp. congruence.
Qed.

Lemma snoc_root p w : Forall name_ok (p ++ [w]) -> bool_decide (path_text (p ++ [w]) = "/"%string) = false.
Proof. intros Hp. apply bool_decide_eq_false_2. rewrite (path_text_root _ Hp). destruct p; discriminate. Qed.

Lemma parentPath_snoc p w : Forall name_ok (p ++ [w]) -> parentPath (path_text (p ++ [w])) = path_text p.
Proof.
  intros Hp. unfold parentPath. rewrite (snoc_root _ _ Hp), path_text_snoc, chars_of_chars.
  apply Forall_app in Hp as [_ Hw]. inversion_clear Hw as [|? ? Hw' _].
  rewrite find_last_app by apply name_no_slash, Hw'.
  destruct p as [|v p]; [reflexivity|]. rewrite flat_cons. cbn [length]. apply chars_inj.
  rewrite path_text_flat by discriminate. unfold substr. rewrite chars_of_chars, drop_0.
  change (S (length (chars v ++ flat p))) with (length (flat (v :: p))).
  change (("/"%char :: chars v ++ flat p) ++ "/"%char :: chars w) with (flat (v :: p) ++ "/"%char :: chars w).
  apply take_app_length.
Qed.

Lemma baseName_snoc p w : Forall name_ok (p ++ [w]) -> baseName (path_text (p ++ [w])) = w.
Proof.
  intros Hp. unfold baseName. rewrite (snoc_root _ _ Hp), path_text_snoc, chars_of_chars.
  apply Forall_app in Hp as [_ Hw]. inversion_clear Hw as [|? ? Hw' _].
  rewrite find_last_app by apply name_no_slash, Hw'.
  replace (length (flat p) + 1)%nat with (length (flat p ++ ["/"%char])) by (rewrite length_app; reflexivity).
  change ("/"%char :: chars w) with (["/"%char] ++ chars w). rewrite app_assoc, drop_app_length. apply of_chars_chars.
Qed.

(** ** The tree a file system stands for *)

#[warnings="-register-all"]
Inductive tree :=
  | TFile (data : list Z)
  | TDir (children : gmap string tree).

Definition path := list string.

(** The node at a path. *)
Fixpoint find (p : path) (t : tree) : option tree :=
  match p with
  | [] => Some t
  | w :: p => match t with TDir ch => ch !! w ≫= find p | TFile _ => None end
  end.

(** Put a node at a path whose directory exists. *)
Fixpoint put (p : path) (n t : tree) : option tree :=
  match p with
  | [] => Some n
  | w :: p =>
      match t with
      | TFile _ => None
      | TDir ch =>
          c ← (if bool_decide (p = []) then Some n else ch !! w ≫= put p n);
          Some (TDir (<[w := c]> ch))
      end
  end.

Definition shape (t : tree) : Node :=
  match t with
  | TFile data => {| node_type := File; node_data := data |}
  | TDir _ => empty_directory
  end.

(** The map is the flat image of the tree. *)
Record flat_of (t : tree) (nodes : gmap string Node) : Prop := {
  fo_nodes : forall p, Forall name_ok p -> nodes !! path_text p = shape <$> find p t;
  fo_keys : forall key, is_Some (nodes !! key) -> exists p, Forall name_ok p /\ key = path_text p;
  fo_names : forall p, is_Some (find p t) -> Forall name_ok p;
  fo_root : exists ch, t = TDir ch;
}.

Lemma tree_find_app p q t : find (p ++ q) t = find p t ≫= find q.
Proof.
  revert t. induction p as [|w p IH]; intros t; [reflexivity|]. cbn. destruct t as [d|ch]; [reflexivity|].
  destruct (ch !! w) as [c|]; [apply IH | reflexivity].
Qed.

Lemma find_snoc p w t : find (p ++ [w]) t = match find p t with Some (TDir ch) => ch !! w | _ => None end.
Proof.
  rewrite tree_find_app. destruct (find p t) as [[d|ch]|]; cbn; try reflexivity.
  destruct (ch !! w); reflexivity.
Qed.

Lemma put_some p w n t ch : find p t = Some (TDir ch) -> is_Some (put (p ++ [w]) n t).
Proof.
  revert t. induction p as [|v p IH]; intros t; cbn [find app put].
  - intros [= ->]. rewrite bool_decide_eq_true_2 by reflexivity. eexists. reflexivity.
  - destruct t as [d|ch']; [discriminate|]. rewrite bool_decide_eq_false_2 by (destruct p; discriminate).
    destruct (ch' !! v) as [c|]; [|discriminate]. intros H. destruct (IH c H) as [c' Hc'].
    cbn [mbind option_bind]. rewrite Hc'. eexists. reflexivity.
Qed.

(** What is at and below the path comes from the new node; elsewhere nothing
    changes but the children of the directories on the way. *)
Lemma find_put p n t t' q :
  put p n t = Some t' -> (exists r, q = p ++ r /\ find q t' = find r n) \/
                         (~ p `prefix_of` q /\ shape <$> find q t' = shape <$> find q t).
Proof.
  revert t t' q. induction p as [|w p IH]; intros t t' q; cbn [put].
  - intros [= <-]. left. exists q. auto.
  - destruct t as [d|ch]; [discriminate|].
    set (step := if bool_decide (p = []) then _ else _).
    assert (Hstep : forall c, step = Some c -> put p n (default (TDir ∅) (ch !! w)) = Some c /\
                              (p <> [] -> is_Some (ch !! w))).
    { intros c. subst step. destruct (bool_decide (p = [])) eqn:Ep; facts.
      - intros [= <-]. subst p. split; [reflexivity | congruence].
      - destruct (ch !! w); cbn; [|discriminate]. eauto. }
    clearbody step. destruct step as [c|]; cbn [mbind option_bind]; [|discriminate]. intros [= <-].
    destruct (Hstep c eq_refl) as [Hc Hex]. clear Hstep.
    destruct q as [|v q].
    + right. split; [intros Hpre; apply prefix_nil_inv in Hpre; discriminate | reflexivity].
    + cbn. destruct (decide (v = w)) as [->|Hv].
      * rewrite lookup_insert. rewrite decide_True by reflexivity. cbn.
        destruct (IH _ _ q Hc) as [(r & -> & Hr)|[Hpre Hr]]; [left; exists r; auto|].
        right. split; [intros Hp; apply prefix_cons_inv_2 in Hp; contradiction|].
        rewrite Hr. destruct p as [|u p]; [exfalso; apply Hpre, prefix_nil|].
        destruct (Hex ltac:(discriminate)) as [x ->]. reflexivity.
      * rewrite lookup_insert_ne by congruence. right. split; [|reflexivity].
        intros Hp. apply prefix_cons_inv_1 in Hp. congruence.
Qed.

(** Writing a leaf at a path that holds no directory is one insertion into the
    map. *)
Definition leaf (n : tree) : Prop := forall w r, find (w :: r) n = None.

Lemma leaf_file data : leaf (TFile data).
Proof. intros w r. reflexivity. Qed.
Lemma leaf_empty : leaf (TDir ∅).
Proof. intros w r. cbn. rewrite lookup_empty. reflexivity. Qed.

Lemma flat_put t nodes p n t' :
  flat_of t nodes -> Forall name_ok p -> p <> [] -> leaf n -> (forall ch, find p t <> Some (TDir ch)) ->
  put p n t = Some t' -> flat_of t' (<[path_text p := shape n]> nodes).
Proof.
  intros [F1 F2 F3 [ch0 F4]] Hp Hne Hleaf Hold Hput.
  assert (Hbelow : forall w r, find (p ++ w :: r) t = None).
  { intros w r. rewrite tree_find_app. destruct (find p t) as [[d|ch]|] eqn:E; [reflexivity | | reflexivity].
    exfalso. exact (Hold ch eq_refl). }
  constructor.
  - intros q Hq. destruct (find_put _ _ _ _ q Hput) as [(r & -> & Hr)|[Hpre Hr]].
    + destruct r as [|w r].
      * rewrite app_nil_r in *. rewrite Hr, lookup_insert, decide_True by reflexivity. reflexivity.
      * rewrite Hr, (Hleaf w r). rewrite lookup_insert_ne; [rewrite F1, (Hbelow w r) by exact Hq; reflexivity|].
        intros E. apply path_text_inj in E; [|exact Hp | exact Hq]. apply (f_equal length) in E.
        rewrite length_app in E. cbn in E. lia.
    + rewrite Hr, <- F1 by exact Hq. apply lookup_insert_ne. intros E. apply path_text_inj in E; [|exact Hp | exact Hq].
      subst q. apply Hpre. reflexivity.
  - intros key [x Hkey]. destruct (decide (key = path_text p)) as [->|Hk]; [exists p; auto|].
    rewrite lookup_insert_ne in Hkey by congruence. apply F2. eauto.
  - intros q [x Hq]. destruct (find_put _ _ _ _ q Hput) as [(r & -> & Hr)|[Hpre Hr]].
    + destruct r as [|w r]; [rewrite app_nil_r; exact Hp|]. rewrite Hr, (Hleaf w r) in Hq. discriminate.
    + apply F3. rewrite Hq in Hr. destruct (find q t); [eauto | discriminate].
  - destruct p as [|w p]; [congruence|]. subst t. cbn [put] in Hput.
    destruct (if bool_decide (p = []) then _ else _); [|discriminate]. injection Hput as <-. eauto.
Qed.

(** ** The operations of the tree *)

Inductive fs_call :=
  | Exists (path : string)
  | Stat (path : string)
  | CreateDirectory (path : string)
  | CreateDirectories (path : string)
  | PutFile (path : string) (data : list Z)
  | ReadFile (path : string) (offset count : Z)
  | WriteFile (path : string) (offset : Z) (data : list Z)
  | ListDirectory (path : string).

Inductive fs_value :=
  | VUnit
  | VBool (b : bool)
  | VStat (s : ZeroFSStat)
  | VBytes (data : list Z)
  | VNames (names : list string).

(** A call of a member function of the source. *)
Definition fs_run (call : fs_call) : M ZeroFS fs_value :=
  let read {A} (f : ZeroFS -> outcome A) (v : A -> fs_value) : M ZeroFS fs_value := fun nodes => (v <$> f nodes, nodes) in
  let done (m : M ZeroFS unit) : M ZeroFS fs_value := _ ← m; mret VUnit in
  match call with
  | Exists p => read (ZeroFS_exists p) VBool
  | Stat p => read (ZeroFS_stat p) VStat
  | CreateDirectory p => done (ZeroFS_createDirectory p)
  | CreateDirectories p => done (ZeroFS_createDirectories p)
  | PutFile p data => done (ZeroFS_putFile p data)
  | ReadFile p offset count => read (ZeroFS_readFile p offset count) VBytes
  | WriteFile p offset data => done (ZeroFS_writeFile p offset data)
  | ListDirectory p => read (ZeroFS_listDirectory p) VNames
  end.

(** What it does to the tree.  An error is the code of a [ZeroFSException], or
    none for a [std::length_error] of the standard library. *)
Definition tree_result : Type := option ZeroFSError + fs_value.
Definition refuse (e : ZeroFSError) (t : tree) : tree_result * tree := (inl (Some e), t).

Definition children_of (p : path) (t : tree) : ZeroFSError + gmap string tree :=
  match find p t with
  | None => inl NotFound
  | Some (TFile _) => inl NotDirectory
  | Some (TDir ch) => inr ch
  end.

Definition put_leaf (p : path) (n t : tree) : tree_result * tree := (inr VUnit, default t (put p n t)).

Fixpoint make_directories (above p : path) (t : tree) : tree_result * tree :=
  match p with
  | [] => (inr VUnit, t)
  | w :: p =>
      let here := above ++ [w] in
      match find here t with
      | None => make_directories here p (default t (put here (TDir ∅) t))
      | Some (TDir _) => make_directories here p t
      | Some (TFile _) => refuse NotDirectory t
      end
  end.

(** A file after [data] is written at [offset]: it grows with zeroes. *)
Definition overwrite (offset : nat) (data old : list Z) : list Z :=
  resize offset 0 old ++ data ++ drop (offset + length data) old.

Definition on_path (path : string) (t : tree) (k : list string -> tree_result * tree) : tree_result * tree :=
  match denotes path with None => refuse InvalidPath t | Some p => k p end.

Definition tree_run (call : fs_call) (t : tree) : tree_result * tree :=
  match call with
  | Exists path => on_path path t (fun p => (inr (VBool (bool_decide (find p t <> None))), t))
  | Stat path => on_path path t (fun p =>
      match find p t with
      | None => refuse NotFound t
      | Some (TFile d) => (inr (VStat {| stat_type := File; stat_size := Z.of_nat (length d) |}), t)
      | Some (TDir _) => (inr (VStat {| stat_type := Directory; stat_size := 0 |}), t)
      end)
  | CreateDirectory path => on_path path t (fun p =>
      match find p t, children_of (removelast p) t with
      | Some _, _ => refuse AlreadyExists t
      | None, inl e => refuse e t
      | None, inr _ => put_leaf p (TDir ∅) t
      end)
  | CreateDirectories path => on_path path t (fun p => make_directories [] p t)
  | PutFile path data => on_path path t (fun p =>
      if bool_decide (p = []) then refuse IsDirectory t
      else match children_of (removelast p) t with
           | inl e => refuse e t
           | inr _ => match find p t with
                      | Some (TDir _) => refuse IsDirectory t
                      | _ => put_leaf p (TFile data) t
                      end
           end)
  | ReadFile path offset count => on_path path t (fun p =>
      match find p t with
      | None => refuse NotFound t
      | Some (TDir _) => refuse IsDirectory t
      | Some (TFile d) =>
          let rest := drop (Z.to_nat offset) d in
          (inr (VBytes (if count =? kReadToEnd then rest else take (Z.to_nat count) rest)), t)
      end)
  | WriteFile path offset data => on_path path t (fun p =>
      match find p t with
      | None => refuse NotFound t
      | Some (TDir _) => refuse IsDirectory t
      | Some (TFile d) =>
          let size := Z.of_nat (length d) in
          let last := offset + Z.of_nat (length data) in
          if last >? size_max then refuse InvalidOffset t
          else if (last <=? size) || (last <=? vector_max_size)
          then put_leaf p (TFile (overwrite (Z.to_nat offset) data d)) t
          else if (size <? offset) && (offset <=? vector_max_size)
          then (inl None, default t (put p (TFile (resize (Z.to_nat offset) 0 d)) t))
          else (inl None, t)
      end)
  | ListDirectory path => on_path path t (fun p =>
      match children_of p t with
      | inl e => refuse e t
      | inr ch => (inr (VNames (merge_sort string_le (map_to_list ch).*1)), t)
      end)
  end.

(** The result of the source is that of the tree, up to the message. *)
Definition agrees (o : outcome fs_value) (r : tree_result) : Prop :=
  match o, r with
  | Ret v, inr v' => v = v'
  | Throw (ZeroFSException e _), inl (Some e') => e = e'
  | Throw (LengthError _), inl None => True
  | _, _ => False
  end.

Definition simulates (m : M ZeroFS fs_value) (nodes : gmap string Node) (r : tree_result * tree) : Prop :=
  let '(o, nodes') := m nodes in agrees o r.1 /\ flat_of r.2 nodes'.

(** Run the statements of a member function up to the next unknown value. *)
Ltac run_on := cbv beta iota delta [mbind M_bind lift get gets modify emplace_node throw_if mret M_ret throw M_throw].

Section simulation.
Context (t : tree) (nodes : gmap string Node) (F : flat_of t nodes).

Lemma require_find p : Forall name_ok p ->
  requireNode (path_text p) nodes = match find p t with
                                    | Some n => Ret (shape n)
                                    | None => throwZeroFSError NotFound ("ZeroFS path not found: " +:+ path_text p)
                                    end.
Proof. intros Hp. unfold requireNode. rewrite (fo_nodes _ _ F _ Hp). destruct (find p t); reflexivity. Qed.

(** A failure changes nothing. *)
Lemma refuse_sim (m : M ZeroFS fs_value) e msg :
  m nodes = (Throw (ZeroFSException e msg), nodes) -> simulates m nodes (refuse e t).
Proof. intros E. unfold simulates. rewrite E. split; [reflexivity | exact F]. Qed.

Lemma answer_sim (m : M ZeroFS fs_value) v : m nodes = (Ret v, nodes) -> simulates m nodes (inr v, t).
Proof. intros E. unfold simulates. rewrite E. split; [reflexivity | exact F]. Qed.

Lemma put_leaf_sim (m : M ZeroFS fs_value) p w n ch :
  m nodes = (Ret VUnit, <[path_text (p ++ [w]) := shape n]> nodes) ->
  Forall name_ok (p ++ [w]) -> find p t = Some (TDir ch) -> leaf n ->
  (forall ch', find (p ++ [w]) t <> Some (TDir ch')) -> simulates m nodes (put_leaf (p ++ [w]) n t).
Proof.
  intros E Hp Hf Hleaf Hold. unfold simulates, put_leaf. rewrite E. split; [reflexivity|]. cbn [snd].
  destruct (put_some p w n t ch Hf) as [t' Ht']. rewrite Ht'.
  refine (flat_put t nodes (p ++ [w]) n t' F Hp _ Hleaf Hold Ht'). destruct p; discriminate.
Qed.

(** Normalising the path first. *)
Lemma on_path_sim path (m : string -> M ZeroFS fs_value) k :
  (forall p, Forall name_ok p -> simulates (m (path_text p)) nodes (k p)) ->
  simulates (n ← lift (normalizePath path); m n) nodes (on_path path t k).
Proof.
  intros Hm. unfold on_path. pose proof (normalize_spec path) as N. destruct (denotes path) as [p|] eqn:E.
  - unfold simulates. rewrite bind_run. unfold lift. rewrite N. apply Hm. exact (denotes_ok _ _ E).
  - destruct N as [msg N]. apply (refuse_sim _ _ msg). rewrite bind_run. unfold lift. rewrite N. reflexivity.
Qed.

(** The same for a member function that only reads. *)
Lemma read_sim {A} path (g : string -> ZeroFS -> outcome A) (v : A -> fs_value) k :
  (forall p, Forall name_ok p -> simulates (fun s => (v <$> g (path_text p) s, s)) nodes (k p)) ->
  simulates (fun s => (v <$> (n ← normalizePath path; g n s), s)) nodes (on_path path t k).
Proof.
  intros Hm. unfold on_path. pose proof (normalize_spec path) as N. destruct (denotes path) as [p|] eqn:E.
  - unfold simulates. rewrite N. apply Hm. exact (denotes_ok _ _ E).
  - destruct N as [msg N]. apply (refuse_sim _ _ msg). rewrite N. reflexivity.
Qed.

Lemma exists_sim path : simulates (fs_run (Exists path)) nodes (tree_run (Exists path) t).
Proof.
  apply (read_sim path (fun n s => mret (bool_decide (is_Some (s !! n)))) VBool). intros p Hp.
  apply answer_sim. cbn. rewrite (fo_nodes _ _ F _ Hp).
  do 3 f_equal. apply bool_decide_ext. rewrite fmap_is_Some, <- not_eq_None_Some. reflexivity.
Qed.

Lemma stat_sim path : simulates (fs_run (Stat path)) nodes (tree_run (Stat path) t).
Proof.
  apply (read_sim path (fun n s => node ← requireNode n s;
    mret {| stat_type := node_type node;
            stat_size := if is_directory node then 0 else Z.of_nat (length (node_data node)) |}) VStat). intros p Hp.
  pose proof (require_find p Hp) as R. destruct (find p t) as [[d|ch]|].
  - apply answer_sim. rewrite R. reflexivity.
  - apply answer_sim. rewrite R. reflexivity.
  - eapply refuse_sim. rewrite R. reflexivity.
Qed.

Lemma read_file_sim path offset count :
  0 <= offset <= size_max -> 0 <= count <= size_max ->
  simulates (fs_run (ReadFile path offset count)) nodes (tree_run (ReadFile path offset count) t).
Proof.
  intros Ho Hc. apply (read_sim path (fun n s => node ← requireNode n s;
    _ ← throw_if (is_directory node) (ZeroFSException IsDirectory ("ZeroFS path is a directory: " +:+ n));
    if offset >=? Z.of_nat (length (node_data node)) then mret []
    else mret (take (Z.to_nat (if count =? kReadToEnd then Z.of_nat (length (node_data node)) - offset
                               else Z.min count (Z.of_nat (length (node_data node)) - offset)))
                 (drop (Z.to_nat offset) (node_data node)))) VBytes). intros p Hp.
  pose proof (require_find p Hp) as R. destruct (find p t) as [[d|ch]|].
  - apply answer_sim. rewrite R. cbn [mbind outcome_bind shape node_type node_data].
    change (throw_if _ _) with (Ret tt : outcome unit). cbn [mbind outcome_bind]. f_equal.
    destruct (offset >=? Z.of_nat (length d)) eqn:E; facts; cbn; do 2 f_equal.
    + rewrite drop_ge by lia. rewrite take_nil. destruct (count =? kReadToEnd); reflexivity.
    + destruct (count =? kReadToEnd).
      * apply take_ge. rewrite length_drop. lia.
      * rewrite Z2Nat.inj_min, <- take_take. f_equal. apply take_ge. rewrite length_drop. lia.
  - eapply refuse_sim. rewrite R. reflexivity.
  - eapply refuse_sim. rewrite R. reflexivity.
Qed.

(** The parent of a path that is not the root. *)
Lemma require_parent p w : Forall name_ok (p ++ [w]) ->
  requireNode (parentPath (path_text (p ++ [w]))) nodes =
    match find p t with
    | Some n => Ret (shape n)
    | None => throwZeroFSError NotFound ("ZeroFS path not found: " +:+ path_text p)
    end.
Proof. intros Hp. rewrite (parentPath_snoc p w Hp). apply require_find. apply Forall_app in Hp as [Hp _]. exact Hp. Qed.

(** A node that is there has a directory above it. *)
Lemma find_parent p w n : find (p ++ [w]) t = Some n -> exists ch, find p t = Some (TDir ch).
Proof. rewrite find_snoc. destruct (find p t) as [[d|ch]|]; [discriminate | eauto | discriminate]. Qed.

Lemma create_directory_sim path :
  simulates (fs_run (CreateDirectory path)) nodes (tree_run (CreateDirectory path) t).
Proof.
  unfold fs_run, ZeroFS_createDirectory, simulates. rewrite M_bind_assoc. apply on_path_sim. intros p Hp.
  pose proof (fo_nodes _ _ F _ Hp) as N. destruct p as [|w p _] using rev_ind.
  { eapply refuse_sim. run_on. rewrite N. reflexivity. }
  rewrite removelast_last. pose proof (require_parent p w Hp) as R. unfold children_of.
  destruct (find (p ++ [w]) t) as [n|] eqn:En.
  { eapply refuse_sim. run_on. rewrite N. reflexivity. }
  destruct (find p t) as [[d|ch]|] eqn:Ep; [eapply refuse_sim | | eapply refuse_sim].
  - run_on. rewrite N, R. reflexivity.
  - apply (put_leaf_sim _ p w (TDir ∅) ch); [|exact Hp | exact Ep | apply leaf_empty | rewrite En; intros ch'; discriminate].
    run_on. rewrite N, R. reflexivity.
  - run_on. rewrite N, R. reflexivity.
Qed.

Lemma put_file_sim path data :
  simulates (fs_run (PutFile path data)) nodes (tree_run (PutFile path data) t).
Proof.
  unfold fs_run, ZeroFS_putFile, simulates. rewrite M_bind_assoc. apply on_path_sim. intros p Hp.
  pose proof (fo_nodes _ _ F _ Hp) as N. destruct p as [|w p _] using rev_ind.
  { eapply refuse_sim. reflexivity. }
  rewrite (bool_decide_eq_false_2 (p ++ [w] = [])) by (destruct p; discriminate).
  rewrite removelast_last. pose proof (require_parent p w Hp) as R. unfold children_of.
  rewrite (snoc_root p w Hp). run_on. destruct (find p t) as [[d|ch]|] eqn:Ep; [eapply refuse_sim; rewrite R; reflexivity | |
    eapply refuse_sim; rewrite R; reflexivity].
  assert (Hput : forall old, find (p ++ [w]) t = old -> (forall ch', old <> Some (TDir ch')) ->
            simulates (fun _ => (Ret VUnit, <[path_text (p ++ [w]) := shape (TFile data)]> nodes)) nodes
              (put_leaf (p ++ [w]) (TFile data) t)).
  { intros old Eold Hold. apply (put_leaf_sim _ p w (TFile data) ch); [reflexivity | exact Hp | exact Ep | apply leaf_file|].
    rewrite Eold. exact Hold. }
  destruct (find (p ++ [w]) t) as [[d|ch']|] eqn:En.
  - unfold simulates. rewrite R. cbv beta iota. rewrite N. apply (Hput (Some (TFile d)) eq_refl). intros ch'; discriminate.
  - eapply refuse_sim. rewrite R. cbv beta iota. rewrite N. reflexivity.
  - unfold simulates. rewrite R. cbv beta iota. rewrite N. apply (Hput None eq_refl). intros ch'; discriminate.
Qed.

End simulation.

(** ** createDirectories, component by component *)

Lemma length_flat p : (length p <= length (flat p))%nat.
Proof. induction p as [|w p IH]; [reflexivity|]. rewrite flat_cons. cbn. rewrite length_app. lia. Qed.

Lemma length_chars s : String.length s = length (chars s).
Proof. induction s as [|c s IH]; [reflexivity|]. cbn. f_equal. exact IH. Qed.

Section component.
Context (d : path) (w : string) (rest : path) (Hok : Forall name_ok (d ++ w :: rest)).
Abbreviation cursor := (length (flat d) + 1)%nat.
Abbreviation text := (flat (d ++ w :: rest)).

Lemma text_split : text = (flat d ++ "/"%char :: chars w) ++ flat rest.
Proof. rewrite flat_app, flat_cons, <- app_assoc. reflexivity. Qed.

Lemma component_ok : name_ok w.
Proof. apply Forall_app in Hok as [_ H]. inversion H. assumption. Qed.

Lemma component_here : Forall name_ok (d ++ [w]).
Proof.
  apply Forall_app in Hok as [H1 H2]. apply Forall_app. split; [exact H1|].
  inversion H2. constructor; [assumption | constructor].
Qed.

Lemma component_cursor : (cursor < length text)%nat.
Proof.
  destruct component_ok as [Hne _]. rewrite text_split, !length_app. cbn.
  destruct w as [|c v]; [contradiction|]. cbn. lia.
Qed.

Lemma component_find :
  find_from "/" text cursor =
    match rest with [] => None | _ => Some (length (flat (d ++ [w]))) end.
Proof.
  pose proof (name_no_slash _ component_ok) as Hw. unfold find_from. replace (drop cursor text) with (chars w ++ flat rest).
  - destruct rest as [|v r].
    + cbn. rewrite app_nil_r. rewrite (proj2 (index_of_None _ _) Hw). reflexivity.
    + rewrite flat_cons, index_of_app by exact Hw. cbn. f_equal.
      rewrite flat_app, length_app. cbn. rewrite app_nil_r. lia.
  - rewrite text_split, <- app_assoc. change ("/"%char :: chars w) with (["/"%char] ++ chars w).
    rewrite <- app_assoc, app_assoc, drop_app_length' by (rewrite length_app; reflexivity). reflexivity.
Qed.

Lemma component_text : of_chars (substr 0 (length (flat (d ++ [w]))) text) = path_text (d ++ [w]).
Proof.
  rewrite path_text_snoc, text_split. f_equal. unfold substr. rewrite drop_0.
  replace (flat (d ++ [w])) with (flat d ++ "/"%char :: chars w) by (rewrite flat_app; cbn; rewrite app_nil_r; reflexivity).
  apply take_app_length.
Qed.

Lemma component_last : rest = [] -> of_chars text = path_text (d ++ [w]).
Proof. intros Hr. rewrite path_text_snoc, text_split, Hr. cbn. rewrite app_nil_r. reflexivity. Qed.

Lemma component_next : rest <> [] -> text = flat ((d ++ [w]) ++ rest).
Proof. intros _. rewrite <- app_assoc. reflexivity. Qed.
End component.

(** One turn of the loop, as the code of the next one. *)
Lemma create_loop_turn fuel d w rest : Forall name_ok (d ++ w :: rest) ->
  create_directories_loop (S fuel) (flat (d ++ w :: rest)) (length (flat d) + 1) =
    (let current := path_text (d ++ [w]) in
     nodes ← get;
     _ ← match nodes !! current with
         | None => emplace_node current empty_directory
         | Some existing =>
             throw_if (negb (is_directory existing))
               (ZeroFSException NotDirectory ("ZeroFS path component is a file: " +:+ current))
         end;
     match rest with
     | [] => mret tt
     | _ => create_directories_loop fuel (flat ((d ++ [w]) ++ rest)) (length (flat (d ++ [w])) + 1)
     end).
Proof.
  intros Hok. cbn [create_directories_loop]. rewrite bool_decide_eq_true_2 by (apply component_cursor; exact Hok).
  rewrite component_find by exact Hok. destruct rest as [|v r].
  - rewrite component_last by reflexivity. reflexivity.
  - rewrite component_text, component_next by discriminate. reflexivity.
Qed.

Lemma create_loop_sim rest : forall d fuel t nodes ch,
  flat_of t nodes -> Forall name_ok (d ++ rest) -> find d t = Some (TDir ch) -> (length rest <= fuel)%nat -> rest <> [] ->
  simulates (_ ← create_directories_loop fuel (flat (d ++ rest)) (length (flat d) + 1); mret VUnit) nodes
    (make_directories d rest t).
Proof.
  induction rest as [|w rest IH]; intros d fuel t nodes ch F Hok Hd Hf Hne; [congruence|].
  destruct fuel as [|fuel]; [cbn in Hf; lia|]. cbn in Hf. rewrite (create_loop_turn fuel d w rest Hok).
  cbv zeta. cbn [make_directories]. pose proof (component_here d w rest Hok) as Hhere.
  pose proof (fo_nodes _ _ F _ Hhere) as N.
  assert (Hgo : forall t' nodes' ch', flat_of t' nodes' -> find (d ++ [w]) t' = Some (TDir ch') ->
            simulates (_ ← match rest with
                           | [] => mret tt
                           | _ => create_directories_loop fuel (flat ((d ++ [w]) ++ rest)) (length (flat (d ++ [w])) + 1)
                           end; mret VUnit) nodes' (make_directories (d ++ [w]) rest t')).
  { intros t' nodes' ch' F' Hd'. destruct rest as [|v r].
    - apply answer_sim; [exact F' | reflexivity].
    - apply (IH (d ++ [w]) fuel t' nodes' ch'); [exact F' | rewrite <- app_assoc; exact Hok | exact Hd' | lia | discriminate]. }
  unfold simulates in *. rewrite !M_bind_assoc. rewrite bind_run. unfold get at 1. cbv beta iota.
  rewrite M_bind_assoc, bind_run. rewrite N. destruct (find (d ++ [w]) t) as [[data|ch']|] eqn:E; cbn [fmap option_fmap option_map].
  - eapply (refuse_sim _ _ F (fun s => (Throw _, s))). reflexivity.
  - apply (Hgo t nodes ch' F E).
  - destruct (put_some d w (TDir ∅) t ch Hd) as [t' Ht']. rewrite Ht'. cbn [default from_option id].
    apply (Hgo t' _ ∅).
    + apply (flat_put t nodes (d ++ [w]) (TDir ∅) t' F Hhere); [destruct d; discriminate | apply leaf_empty | | exact Ht'].
      intros ch'. rewrite E. discriminate.
    + destruct (find_put _ _ _ _ (d ++ [w]) Ht') as [(r & Hr & Hfind)|[Hpre _]]; [|exfalso; apply Hpre; reflexivity].
      rewrite Hfind. apply (f_equal length) in Hr. rewrite !length_app in Hr. destruct r; [reflexivity | cbn in Hr; lia].
Qed.

Section calls.
Context (t : tree) (nodes : gmap string Node) (F : flat_of t nodes).

Lemma create_directories_sim path :
  simulates (fs_run (CreateDirectories path)) nodes (tree_run (CreateDirectories path) t).
Proof.
  unfold fs_run, ZeroFS_createDirectories, simulates. rewrite M_bind_assoc. apply (on_path_sim t nodes F). intros p Hp.
  destruct p as [|w p].
  - apply (answer_sim t nodes F). reflexivity.
  - rewrite bool_decide_eq_false_2 by (rewrite (path_text_root _ Hp); discriminate).
    destruct (fo_root _ _ F) as [ch Ht]. rewrite length_chars, path_text_flat by discriminate.
    apply (create_loop_sim (w :: p) [] _ t nodes ch F Hp).
    + rewrite Ht. reflexivity.
    + apply length_flat.
    + discriminate.
Qed.

(** A resize through the reference to a node. *)
Lemma resize_node_run key n m (s : gmap string Node) : s !! key = Some m ->
  resize_node key n s =
    if n >? vector_max_size then (Throw (LengthError "vector::_M_default_append"), s)
    else (Ret tt, <[key := {| node_type := node_type m; node_data := resize (Z.to_nat n) 0 (node_data m) |}]> s).
Proof.
  intros Hm. unfold resize_node, update, requireNode. rewrite Hm. cbn [mbind outcome_bind mret outcome_ret].
  destruct (n >? vector_max_size); reflexivity.
Qed.

Lemma file_at key data (s : gmap string Node) :
  node_size key (<[key := {| node_type := File; node_data := data |}]> s) = Z.of_nat (length data).
Proof. unfold node_size. rewrite lookup_insert, decide_True by reflexivity. reflexivity. Qed.

Lemma copy_into_file key offset data old (s : gmap string Node) :
  copy_into_node key offset data (<[key := {| node_type := File; node_data := old |}]> s) =
    <[key := {| node_type := File; node_data := copy_into (Z.to_nat offset) data old |}]> s.
Proof. unfold copy_into_node. rewrite alter_insert, decide_True by reflexivity. reflexivity. Qed.

(** Growing to the end of the data and copying is overwriting. *)
Lemma copy_overwrite (offset : nat) data (old : list Z) :
  copy_into offset data (resize (Nat.max (offset + length data) (length old)) 0 old) = overwrite offset data old.
Proof.
  unfold copy_into, overwrite. rewrite take_resize_le by lia. do 2 f_equal.
  rewrite resize_spec, take_ge, drop_app by lia. rewrite drop_replicate.
  replace (_ - _ - _)%nat with 0%nat by lia. apply app_nil_r.
Qed.

Lemma resize_grow (d : list Z) (n m : nat) : (length d <= n <= m)%nat -> resize m 0 (resize n 0 d) = resize m 0 d.
Proof.
  intros H. rewrite !resize_spec, !take_ge by (rewrite ?length_app, ?length_take, ?length_replicate; lia).
  rewrite length_app, length_replicate, <- app_assoc, <- replicate_add. do 2 f_equal. lia.
Qed.

(** The second half of the statements: grow to the end and copy. *)
Lemma write_end_run key offset data d (s : gmap string Node) :
  let last := offset + Z.of_nat (length data) in
  (size ← gets (node_size key);
   _ ← (if last >? size then resize_node key last else mret tt);
   modify (copy_into_node key offset data)) (<[key := {| node_type := File; node_data := d |}]> s) =
    if last <=? Z.of_nat (length d) then (Ret tt, <[key := shape (TFile (copy_into (Z.to_nat offset) data d))]> s)
    else if last <=? vector_max_size
    then (Ret tt, <[key := shape (TFile (copy_into (Z.to_nat offset) data (resize (Z.to_nat last) 0 d)))]> s)
    else (Throw (LengthError "vector::_M_default_append"), <[key := {| node_type := File; node_data := d |}]> s).
Proof.
  cbv zeta. rewrite bind_run. unfold gets at 1. cbv beta iota. rewrite file_at, bind_run.
  set (last := offset + _). rewrite Z.gtb_ltb, Z.leb_antisym. destruct (Z.of_nat (length d) <? last); cbn [negb].
  - erewrite resize_node_run by (rewrite lookup_insert, decide_True by reflexivity; reflexivity).
    rewrite Z.gtb_ltb, Z.leb_antisym. destruct (vector_max_size <? last); cbn [negb]; [reflexivity|].
    cbn [node_type node_data]. rewrite insert_insert, decide_True by reflexivity.
    unfold modify. rewrite copy_into_file. reflexivity.
  - unfold modify. cbv [mret M_ret]. rewrite copy_into_file. reflexivity.
Qed.

Lemma write_node_run key offset data d (s : gmap string Node) :
  s !! key = Some (shape (TFile d)) -> 0 <= offset -> offset + Z.of_nat (length data) <= size_max ->
  write_node key offset data s =
    let size := Z.of_nat (length d) in
    let last := offset + Z.of_nat (length data) in
    if (last <=? size) || (last <=? vector_max_size)
    then (Ret tt, <[key := shape (TFile (overwrite (Z.to_nat offset) data d))]> s)
    else (Throw (LengthError "vector::_M_default_append"),
          if (size <? offset) && (offset <=? vector_max_size)
          then <[key := shape (TFile (resize (Z.to_nat offset) 0 d))]> s else s).
Proof.
  intros Hs Ho Hfit. unfold write_node. unfold size_max in Hfit. rewrite u64_small by (unfold is_u64; lia).
  assert (Es : <[key := shape (TFile d)]> s = s) by (apply insert_id; exact Hs).
  cbv zeta. rewrite bind_run. unfold gets at 1. cbv beta iota.
  assert (Hsize : node_size key s = Z.of_nat (length d)) by (unfold node_size; rewrite Hs; reflexivity).
  rewrite Hsize, bind_run. destruct (offset >? Z.of_nat (length d)) eqn:E1; facts.
  - rewrite (resize_node_run key offset _ s Hs). destruct (offset >? vector_max_size) eqn:E2; facts.
    { rewrite !(proj2 (Z.leb_gt _ _)) by lia. rewrite andb_false_r. reflexivity. }
    cbn [shape node_type node_data]. rewrite write_end_run, length_resize.
    rewrite (proj2 (Z.leb_gt (offset + _) (Z.of_nat (length d)))), (proj2 (Z.ltb_lt (Z.of_nat (length d)) offset)),
      (proj2 (Z.leb_le offset vector_max_size)) by lia.
    cbn [orb andb]. rewrite resize_grow by lia.
    destruct (Z.leb_spec (offset + Z.of_nat (length data)) (Z.of_nat (Z.to_nat offset))).
    + rewrite (proj2 (Z.leb_le (offset + _) _)) by lia. rewrite <- copy_overwrite.
      replace (Nat.max _ _) with (Z.to_nat offset) by lia. reflexivity.
    + destruct (offset + _ <=? vector_max_size); [|reflexivity].
      rewrite <- copy_overwrite. replace (Nat.max _ _) with (Z.to_nat (offset + Z.of_nat (length data))) by lia. reflexivity.
  - cbv [mret M_ret]. rewrite <- Es at 1. cbn [shape]. rewrite write_end_run. rewrite (proj2 (Z.ltb_ge (Z.of_nat (length d)) offset)) by lia.
    destruct (Z.leb_spec (offset + Z.of_nat (length data)) (Z.of_nat (length d))); cbn [orb andb].
    + rewrite <- copy_overwrite. rewrite (resize_all_alt d) by lia. reflexivity.
    + destruct (offset + _ <=? vector_max_size); [|cbn [shape] in Es; rewrite Es; reflexivity].
      rewrite <- copy_overwrite. replace (Nat.max _ _) with (Z.to_nat (offset + Z.of_nat (length data))) by lia. reflexivity.
Qed.

Lemma write_file_sim path offset data :
  0 <= offset -> simulates (fs_run (WriteFile path offset data)) nodes (tree_run (WriteFile path offset data) t).
Proof.
  intros Ho. unfold fs_run, ZeroFS_writeFile, simulates. rewrite M_bind_assoc. apply (on_path_sim t nodes F). intros p Hp.
  pose proof (require_find t nodes F p Hp) as R. pose proof (fo_nodes _ _ F _ Hp) as N. run_on.
  destruct (find p t) as [[d|ch]|] eqn:Ef; [|eapply (refuse_sim t nodes F); rewrite R; reflexivity..].
  destruct p as [|w p _] using rev_ind; [destruct (fo_root _ _ F) as [ch Ht]; rewrite Ht in Ef; discriminate|].
  destruct (find_parent t p w _ Ef) as [ch Hch]. set (key := path_text (p ++ [w])) in *.
  assert (Hput : forall data', exists t', put (p ++ [w]) (TFile data') t = Some t' /\
                                         flat_of t' (<[key := shape (TFile data')]> nodes)).
  { intros data'. destruct (put_some p w (TFile data') t ch Hch) as [t' Ht']. exists t'. split; [exact Ht'|].
    apply (flat_put t nodes (p ++ [w]) (TFile data') t' F Hp); [destruct p; discriminate | apply leaf_file | | exact Ht'].
    rewrite Ef. intros ch'. discriminate. }
  unfold simulates. rewrite R. change (is_directory (shape (TFile d))) with false. cbv beta iota zeta.
  destruct (Z.of_nat (length data) >? size_max - offset) eqn:E1; facts.
  { rewrite Z.gtb_ltb, (proj2 (Z.ltb_lt _ _)) by lia. split; [reflexivity | exact F]. }
  rewrite Z.gtb_ltb, (proj2 (Z.ltb_ge _ _)) by lia.
  rewrite (write_node_run key offset data d nodes N Ho) by lia. cbv zeta.
  destruct (_ || _).
  { destruct (Hput (overwrite (Z.to_nat offset) data d)) as (t' & Ht' & F'). unfold put_leaf. rewrite Ht'.
    split; [reflexivity | exact F']. }
  destruct (_ && _); [|split; [exact Logic.I | exact F]].
  destruct (Hput (resize (Z.to_nat offset) 0 d)) as (t' & Ht' & F'). rewrite Ht'. split; [exact Logic.I | exact F'].
Qed.

(** The entries whose parent is [p] are the children of its directory. *)
Lemma entry_child p ch w : Forall name_ok p -> find p t = Some (TDir ch) ->
  w ∈ baseName <$> filter (fun key => key <> "/"%string /\ parentPath key = path_text p) (map_to_list nodes).*1 <->
  w ∈ (map_to_list ch).*1.
Proof.
  intros Hp Hf. rewrite !list_elem_of_fmap. split.
  - intros (key & -> & Hkey). apply list_elem_of_filter in Hkey as [[Hroot Hpar] Hin].
    apply list_elem_of_fmap in Hin as ([k n] & -> & Hin). cbn [fst] in *. apply elem_of_map_to_list in Hin.
    destruct (fo_keys _ _ F k) as (q & Hq & ->); [eauto|].
    destruct q as [|v q _] using rev_ind; [contradiction|].
    rewrite parentPath_snoc in Hpar by exact Hq. rewrite baseName_snoc by exact Hq.
    apply path_text_inj in Hpar as ->; [|apply Forall_app in Hq as [Hq _]; exact Hq | exact Hp].
    rewrite (fo_nodes _ _ F _ Hq), find_snoc, Hf in Hin.
    destruct (ch !! v) as [c|] eqn:Ec; [|discriminate]. exists (v, c). split; [reflexivity|].
    apply elem_of_map_to_list. exact Ec.
  - intros ([v c] & -> & Hin). apply elem_of_map_to_list in Hin. cbn [fst].
    assert (Hc : find (p ++ [v]) t = Some c) by (rewrite find_snoc, Hf; exact Hin).
    assert (Hok : Forall name_ok (p ++ [v])) by (apply (fo_names _ _ F); eauto).
    exists (path_text (p ++ [v])). split; [symmetry; apply baseName_snoc, Hok|]. apply list_elem_of_filter.
    split; [split; [exact (bool_decide_eq_false_1 _ (snoc_root p v Hok)) | apply parentPath_snoc, Hok]|].
    apply list_elem_of_fmap. exists (path_text (p ++ [v]), shape c). split; [reflexivity|].
    apply elem_of_map_to_list. rewrite (fo_nodes _ _ F _ Hok), Hc. reflexivity.
Qed.

(** They are told apart by their names. *)
Lemma entry_names_NoDup p : Forall name_ok p ->
  NoDup (baseName <$> filter (fun key => key <> "/"%string /\ parentPath key = path_text p) (map_to_list nodes).*1).
Proof.
  intros Hp. apply NoDup_fmap_2_strong; [|apply NoDup_filter, NoDup_fst_map_to_list].
  assert (Hform : forall key, key ∈ filter (fun key => key <> "/"%string /\ parentPath key = path_text p) (map_to_list nodes).*1 ->
            exists v, Forall name_ok (p ++ [v]) /\ key = path_text (p ++ [v])).
  { intros key Hkey. apply list_elem_of_filter in Hkey as [[Hroot Hpar] Hin].
    apply list_elem_of_fmap in Hin as ([k n] & -> & Hin). cbn [fst] in *. apply elem_of_map_to_list in Hin.
    destruct (fo_keys _ _ F k) as (q & Hq & ->); [eauto|].
    destruct q as [|v q _] using rev_ind; [contradiction|]. rewrite parentPath_snoc in Hpar by exact Hq.
    apply path_text_inj in Hpar as ->; [eauto | apply Forall_app in Hq as [Hq _]; exact Hq | exact Hp]. }
  intros x y Hx Hy. destruct (Hform x Hx) as (v & Hv & ->), (Hform y Hy) as (w & Hw & ->).
  rewrite !baseName_snoc by assumption. intros ->. reflexivity.
Qed.

Lemma list_directory_sim path :
  simulates (fs_run (ListDirectory path)) nodes (tree_run (ListDirectory path) t).
Proof.
  apply (read_sim t nodes F path (fun n s => node ← requireNode n s;
    _ ← throw_if (negb (is_directory node)) (ZeroFSException NotDirectory ("ZeroFS path is not a directory: " +:+ n));
    mret (merge_sort string_le (baseName <$> filter (fun key => key <> "/"%string /\ parentPath key = n) (map_to_list s).*1)))
    VNames). intros p Hp.
  pose proof (require_find t nodes F p Hp) as R. unfold children_of. destruct (find p t) as [[d|ch]|] eqn:E.
  - eapply (refuse_sim t nodes F). rewrite R. reflexivity.
  - apply (answer_sim t nodes F). rewrite R. cbn [mbind outcome_bind].
    change (throw_if _ _) with (Ret tt : outcome unit). cbn [mbind outcome_bind]. cbn. do 3 f_equal.
    apply sort_permutation, NoDup_Permutation.
    + apply entry_names_NoDup, Hp.
    + apply NoDup_fst_map_to_list.
    + intros w. apply entry_child; assumption.
  - eapply (refuse_sim t nodes F). rewrite R. reflexivity.
Qed.

End calls.

(** ** The refinement *)

(** Arguments of the types of the source. *)
Definition call_ok (call : fs_call) : Prop :=
  match call with
  | ReadFile _ offset count => 0 <= offset <= size_max /\ 0 <= count <= size_max
  | WriteFile _ offset _ => 0 <= offset <= size_max
  | _ => True
  end.

Lemma call_sim t nodes call : flat_of t nodes -> call_ok call -> simulates (fs_run call) nodes (tree_run call t).
Proof.
  intros F Hc. destruct call; cbn [call_ok] in Hc.
  - apply exists_sim, F.
  - apply stat_sim, F.
  - apply create_directory_sim, F.
  - apply create_directories_sim, F.
  - apply put_file_sim, F.
  - apply read_file_sim; [exact F | apply Hc..].
  - apply write_file_sim; [exact F | apply Hc].
  - apply list_directory_sim, F.
Qed.

(** The tree of a new file system. *)
Definition initial_tree : tree := TDir {["bin" := TDir ∅; "www" := TDir ∅; "data" := TDir ∅]}.

Lemma initial_flat : flat_of initial_tree new_ZeroFS.
Proof.
  assert (H0 : flat_of (TDir ∅) {["/"%string := empty_directory]}).
  { constructor.
    - intros p Hp. destruct p as [|w p]; [reflexivity|]. cbn [find]. rewrite lookup_empty. cbn.
      apply lookup_singleton_ne. intros E. symmetry in E. apply (path_text_root _ Hp) in E. discriminate.
    - intros key Hkey. exists []. split; [constructor|]. destruct (decide (key = "/"%string)) as [->|Hk]; [reflexivity|].
      rewrite lookup_singleton_ne in Hkey by congruence. destruct Hkey. discriminate.
    - intros p [x Hx]. destruct p as [|w p]; [constructor|]. cbn in Hx. rewrite lookup_empty in Hx. discriminate.
    - eauto. }
  assert (Hstep : forall s t nodes, flat_of t nodes ->
            fs_run (CreateDirectory s) nodes = (Ret VUnit, (fs_run (CreateDirectory s) nodes).2) ->
            flat_of (tree_run (CreateDirectory s) t).2 (ZeroFS_createDirectory s nodes).2).
  { intros s t nodes F E. pose proof (call_sim t nodes (CreateDirectory s) F Logic.I) as S. unfold simulates in S.
    rewrite E in S. destruct S as [_ S]. revert S. cbn [fs_run]. rewrite bind_run.
    destruct (ZeroFS_createDirectory s nodes) as [[[]|e] s']; intros S; exact S. }
  pose proof (Hstep "/bin"%string _ _ H0 eq_refl) as H1.
  pose proof (Hstep "/www"%string _ _ H1 eq_refl) as H2.
  pose proof (Hstep "/data"%string _ _ H2 eq_refl) as H3. exact H3.
Qed.

(** The results of a sequence of calls. *)
Fixpoint fs_trace (calls : list fs_call) (nodes : ZeroFS) : list (outcome fs_value) :=
  match calls with [] => [] | c :: calls => let '(o, nodes) := fs_run c nodes in o :: fs_trace calls nodes end.

Fixpoint tree_trace (calls : list fs_call) (t : tree) : list tree_result :=
  match calls with [] => [] | c :: calls => let '(r, t) := tree_run c t in r :: tree_trace calls t end.

(** ** Reading and writing a file that is there *)

Lemma writeFile_run path key offset data d (nodes : gmap string Node) :
  normalizePath path = Ret key -> nodes !! key = Some (shape (TFile d)) -> 0 <= offset ->
  offset + Z.of_nat (length data) <= vector_max_size ->
  ZeroFS_writeFile path offset data nodes =
    (Ret tt, <[key := shape (TFile (overwrite (Z.to_nat offset) data d))]> nodes).
Proof.
  intros Hk Hn Ho Hfit. unfold ZeroFS_writeFile, requireNode. run_on. rewrite Hk. cbv beta iota. rewrite Hn.
  cbv beta iota. cbv [mret outcome_ret]. change (is_directory (shape (TFile d))) with false. cbv beta iota.
  rewrite Z.gtb_ltb, (proj2 (Z.ltb_ge _ _)) by (unfold size_max, vector_max_size in *; lia).
  rewrite (write_node_run key offset data d nodes Hn Ho) by (unfold size_max, vector_max_size in *; lia).
  cbv zeta. rewrite (proj2 (Z.leb_le _ _) Hfit), orb_true_r. reflexivity.
Qed.

Lemma readFile_run path key offset count d (nodes : gmap string Node) :
  normalizePath path = Ret key -> nodes !! key = Some (shape (TFile d)) -> 0 <= offset -> 0 <= count < kReadToEnd ->
  ZeroFS_readFile path offset count nodes = Ret (take (Z.to_nat count) (drop (Z.to_nat offset) d)).
Proof.
  intros Hk Hn Ho Hc. unfold ZeroFS_readFile, requireNode. rewrite Hk, bind_Ret, Hn. cbn [mret outcome_ret].
  rewrite bind_Ret. change (throw_if _ _) with (Ret tt : outcome unit). rewrite bind_Ret. cbn [shape node_data]. cbv zeta.
  rewrite (proj2 (Z.eqb_neq count kReadToEnd)) by lia. destruct (offset >=? Z.of_nat (length d)) eqn:E; facts.
  - rewrite drop_ge, take_nil by lia. reflexivity.
  - cbv [mret outcome_ret]. f_equal. rewrite Z2Nat.inj_min, <- take_take. f_equal. apply take_ge. rewrite length_drop. lia.
Qed.

(** What is written is read back. *)
Lemma take_overwrite (offset : nat) data (old : list Z) :
  take (length data) (drop offset (overwrite offset data old)) = data.
Proof.
  unfold overwrite. rewrite drop_app_length' by (rewrite length_resize; reflexivity). apply take_app_length.
Qed.

(** ** The bytes of files *)

Definition fs_wf (nodes : gmap string Node) : Prop := map_Forall (fun _ n => byte_list (node_data n)) nodes.

Lemma readFile_inv path offset count nodes l : ZeroFS_readFile path offset count nodes = Ret l ->
  exists key n, normalizePath path = Ret key /\ nodes !! key = Some n /\ node_type n = File /\
    l = if offset >=? Z.of_nat (length (node_data n)) then []
        else take (Z.to_nat (if count =? kReadToEnd then Z.of_nat (length (node_data n)) - offset
                             else Z.min count (Z.of_nat (length (node_data n)) - offset)))
               (drop (Z.to_nat offset) (node_data n)).
Proof.
  unfold ZeroFS_readFile. intros H. apply bind_ret_inv in H as (key & Hk & H). apply bind_ret_inv in H as (n & Hn & H).
  apply throw_if_bind_inv in H as [Hd H]. exists key, n. split; [exact Hk|]. unfold requireNode in Hn.
  destruct (nodes !! key) as [n'|]; [|discriminate]. injection Hn as ->. split; [reflexivity|].
  unfold is_directory in Hd. apply bool_decide_eq_false in Hd. split; [destruct (node_type n); congruence|].
  cbv zeta in H. destruct (offset >=? _); injection H as <-; reflexivity.
Qed.

Lemma readFile_bytes path offset count nodes l :
  fs_wf nodes -> 0 <= count < kReadToEnd -> ZeroFS_readFile path offset count nodes = Ret l ->
  byte_list l /\ Z.of_nat (length l) <= count.
Proof.
  intros Hfs Hc H. apply readFile_inv in H as (key & n & _ & Hn & _ & ->).
  pose proof (Hfs key n Hn) as Hb. cbv beta in Hb. destruct (offset >=? _); [split; [constructor | cbn; lia]|].
  rewrite (proj2 (Z.eqb_neq count kReadToEnd)) by lia. split.
  - apply Forall_take, Forall_drop. exact Hb.
  - rewrite length_take. lia.
Qed.

Lemma insert_fs_wf key n nodes : fs_wf nodes -> byte_list (node_data n) -> fs_wf (<[key := n]> nodes).
Proof. intros Hfs Hn. apply map_Forall_insert_2; assumption. Qed.

Lemma copy_fs_wf key offset data nodes : fs_wf nodes -> byte_list data -> fs_wf (copy_into_node key offset data nodes).
Proof.
  intros Hfs Hd k n. unfold copy_into_node. destruct (decide (k = key)) as [->|Hk].
  - rewrite lookup_alter, decide_True by reflexivity. intros Hn. apply fmap_Some in Hn as (m & Hm & ->). cbn.
    pose proof (Hfs key m Hm) as Hb. apply Forall_app. split; [apply Forall_take, Hb|].
    apply Forall_app. split; [exact Hd | apply Forall_drop, Hb].
  - rewrite lookup_alter_ne by congruence. apply Hfs.
Qed.

Lemma resize_node_safe key n : safe fs_wf (resize_node key n) (fun _ => True).
Proof.
  apply safe_update. intros nodes nodes' Hfs H. apply bind_ret_inv in H as (m & Hm & H).
  destruct (n >? vector_max_size); [discriminate|]. injection H as <-.
  unfold requireNode in Hm. destruct (nodes !! key) as [m'|] eqn:E; [|discriminate]. injection Hm as ->.
  apply insert_fs_wf; [exact Hfs|]. cbn. apply Forall_resize; [words | exact (Hfs key m E)].
Qed.

Lemma writeFile_safe path offset data : byte_list data -> safe fs_wf (ZeroFS_writeFile path offset data) (fun _ => True).
Proof.
  intros Hd. unfold ZeroFS_writeFile, write_node.
  assert (Hresize : forall (b : bool) key n, safe fs_wf (if b then resize_node key n else mret tt) (fun _ => True)).
  { intros [] key n; [apply resize_node_safe | apply safe_ret; exact Logic.I]. }
  assert (Hsize : forall key, safe fs_wf (gets (node_size key)) (fun _ => True)) by (intros; apply safe_gets; auto).
  eapply safe_bind; [apply (safe_lift _ _ (fun _ => True)); auto | intros key _].
  eapply safe_bind; [apply safe_get | intros nodes _].
  eapply safe_bind; [apply (safe_lift _ _ (fun _ => True)); auto | intros n _].
  do 2 (eapply safe_bind; [apply safe_throw_if_any | intros _ _]). cbv zeta.
  eapply safe_bind; [apply Hsize | intros sz _]. eapply safe_bind; [apply Hresize | intros _ _].
  eapply safe_bind; [apply Hsize | intros sz' _]. eapply safe_bind; [apply Hresize | intros _ _].
  apply safe_modify. intros s Hs. apply copy_fs_wf; assumption.
Qed.

Lemma new_ZeroFS_wf : fs_wf new_ZeroFS.
Proof. apply (bool_decide_unpack _). vm_compute. exact Logic.I. Qed.

Lemma trace_sim calls t nodes : flat_of t nodes -> Forall call_ok calls ->
  Forall2 agrees (fs_trace calls nodes) (tree_trace calls t).
Proof.
  intros F Hc. revert t nodes F. induction Hc as [|call calls Hcall Hcalls IH]; intros t nodes F; cbn; [constructor|].
  pose proof (call_sim t nodes call F Hcall) as S. unfold simulates in S.
  destruct (fs_run call nodes) as [o nodes'], (tree_run call t) as [r t']. destruct S as [Hr F'].
  constructor; [exact Hr | apply IH, F'].
Qed.

(** ** Properties *)

(** Normalisation.  [normalizePath] returns the canonical text of the
    components that the path denotes: what stands between the ['/'] of an
    absolute path, without empty components and single dots.  It throws
    [InvalidPath] exactly on the texts that denote nothing: those that do not
    start with ['/'], hold a backslash or a zero byte, or have a component [..].
    So it is idempotent, two paths have the same normal form exactly when they
    denote the same components, and the normal form of a path below the root
    has its parent and its last component as [parentPath] and [baseName]. *)
Theorem normalizePath_correct :
  (forall path, match denotes path with
                | Some p => normalizePath path = Ret (path_text p) /\ normalizePath (path_text p) = Ret (path_text p)
                | None => exists msg, normalizePath path = Throw (ZeroFSException InvalidPath msg)
                end) /\
  (forall path path' n n', normalizePath path = Ret n -> normalizePath path' = Ret n' ->
     (n = n' <-> denotes path = denotes path')) /\
  (forall path p w, denotes path = Some (p ++ [w]) ->
     exists n, normalizePath path = Ret n /\ normalizePath (parentPath n) = Ret (parentPath n) /\
               denotes (parentPath n) = Some p /\ baseName n = w).
Proof.
  assert (Hcanon : forall path p, denotes path = Some p -> normalizePath (path_text p) = Ret (path_text p)).
  { intros path p E. pose proof (normalize_spec (path_text p)) as N.
    rewrite (denotes_path_text p (denotes_ok _ _ E)) in N. exact N. }
  split; [|split].
  - intros path. pose proof (normalize_spec path) as N. destruct (denotes path) as [p|] eqn:E; [|exact N].
    split; [exact N | exact (Hcanon path p E)].
  - intros path path' n n'. pose proof (normalize_spec path) as N. pose proof (normalize_spec path') as N'.
    destruct (denotes path) as [p|] eqn:E; [|destruct N as [msg ->]; discriminate].
    destruct (denotes path') as [p'|] eqn:E'; [|destruct N' as [msg ->]; discriminate].
    rewrite N, N'. intros [= <-] [= <-]. split; [|congruence]. intros Ht. f_equal.
    apply path_text_inj; [exact (denotes_ok _ _ E) | exact (denotes_ok _ _ E') | exact Ht].
  - intros path p w E. pose proof (normalize_spec path) as N. rewrite E in N. pose proof (denotes_ok _ _ E) as Hok.
    exists (path_text (p ++ [w])). split; [exact N|]. rewrite parentPath_snoc, baseName_snoc by exact Hok.
    apply Forall_app in Hok as [Hp _]. pose proof (denotes_path_text p Hp) as Ep. repeat split; [|exact Ep].
    exact (Hcanon _ p Ep).
Qed.

Example normalizePath_correct_witness :
  denotes "//www/./index.html" = Some ["www"; "index.html"]%string /\
  exists n, normalizePath "//www/./index.html" = Ret n /\ baseName n = "index.html"%string.
Proof.
  split; [vm_compute; reflexivity|].
  destruct (proj2 (proj2 normalizePath_correct) "//www/./index.html"%string ["www"]%string "index.html"%string)
    as (n & Hn & _ & _ & Hb); [vm_compute; reflexivity|].
  exists n. split; [exact Hn | exact Hb].
Defined.

(** (C18) The file system refines a tree of directories.  The map of normalised
    paths that the source keeps is the flat image of a tree; the constructor
    builds the image of the tree with the directories [bin], [www] and [data];
    and every member function, on every path and whatever it returns or throws,
    answers what the tree answers and leaves the image of the tree the tree
    becomes.  So every sequence of calls on a new file system gives, call by
    call, the results and error codes of the tree. *)
Theorem refines_tree :
  flat_of initial_tree new_ZeroFS /\
  (forall t nodes call, flat_of t nodes -> call_ok call ->
     let '(o, nodes') := fs_run call nodes in
     let '(r, t') := tree_run call t in
     agrees o r /\ flat_of t' nodes') /\
  (forall calls, Forall call_ok calls ->
     Forall2 agrees (fs_trace calls new_ZeroFS) (tree_trace calls initial_tree)).
Proof.
  split; [exact initial_flat|]. split.
  - intros t nodes call F Hc. pose proof (call_sim t nodes call F Hc) as S. unfold simulates in S.
    destruct (fs_run call nodes) as [o nodes'], (tree_run call t) as [r t']. exact S.
  - intros calls Hc. exact (trace_sim calls initial_tree new_ZeroFS initial_flat Hc).
Qed.

Example refines_tree_witness :
  let calls := [CreateDirectories "/data/log"; PutFile "/data/log/a" [104; 105]; WriteFile "/data//log/a" 3 [33];
                ReadFile "/data/log/./a" 1 kReadToEnd; ListDirectory "/data"; Stat "/data/log/a/b"]%string in
  Forall2 agrees (fs_trace calls new_ZeroFS) (tree_trace calls initial_tree) /\
  tree_trace calls initial_tree =
    [inr VUnit; inr VUnit; inr VUnit; inr (VBytes [105; 0; 33]); inr (VNames ["log"%string]); inl (Some NotFound)].
Proof.
  intros calls. split; [|vm_compute; reflexivity].
  apply (proj2 (proj2 refines_tree)). unfold calls, call_ok, size_max, kReadToEnd.
  repeat constructor; vm_compute; congruence.
Defined.
