(* ===== verification/Syscalls.v ===== *)
(** * System calls: [src/kernel/ProtectedSyscallDispatcher.cpp],
      [src/kernel/ProtectedFilesystemService.cpp]

    The host side of [INT 80]: the register conventions of
    [include/zero_cpu/kernel/ProtectedSyscallABI.hpp], the dispatcher, and its
    three services: process exit, hardware registers and the file system.  A
    service implements the abstract class [ProtectedRuntimeService], here a type
    class; the dispatcher over services of any such type is an instance of
    [SoftwareInterruptHandler]. *)

From S2P Require Import Prelude Words Memory ISA Devices CPUState CPU Strings ZeroFS.
Open Scope Z_scope.

(** ** The ABI *)

Definition kSyscallVector : Z := 80.
Definition kVectorRegister : RegisterName := R0.
Definition kServiceRegister : RegisterName := R1.
Definition kArgument0ResultRegister : RegisterName := R2.
Definition kArgument1Register : RegisterName := R3.
Definition kStatusRegister : RegisterName := R4.
Definition kExitValueRegister : RegisterName := R7.

Definition kExitSyscall : Z := 3.
Definition kHardwareWriteSyscall : Z := 20.
Definition kHardwareReadSyscall : Z := 21.
Definition kFilesystemStatSyscall : Z := 30.
Definition kFilesystemReadSyscall : Z := 31.
Definition kFilesystemWriteSyscall : Z := 32.

Definition kFilesystemPathPointerOffset : Z := 0.
Definition kFilesystemPathLengthOffset : Z := 8.
Definition kFilesystemFileOffsetOffset : Z := 16.
Definition kFilesystemBufferPointerOffset : Z := 24.
Definition kFilesystemTransferCountOffset : Z := 32.
Definition kFilesystemStatTypeOffset : Z := 16.
Definition kFilesystemStatSizeOffset : Z := 24.
Definition kFilesystemNodeFile : Z := 0.
Definition kFilesystemNodeDirectory : Z := 1.
Definition kFilesystemMaxPathLength : Z := 255.

Definition kStatusOk : Z := 0.
Definition kStatusUnsupported : Z := -1.
Definition kStatusInvalidHardwareOffset : Z := -2.
Definition kStatusHardwareUnavailable : Z := -3.
Definition kStatusHardwareError : Z := -4.
Definition kStatusInvalidGuestMemory : Z := -5.
Definition kStatusFilesystemInvalidPath : Z := -6.
Definition kStatusFilesystemNotFound : Z := -7.
Definition kStatusFilesystemTypeError : Z := -8.
Definition kStatusFilesystemInvalidOffset : Z := -9.
Definition kStatusFilesystemError : Z := -10.

(** ** Results *)

Definition statusResult (st : Z) : SoftwareInterruptResult :=
  {| disposition := ReturnToCaller; exit_code := 0; service_number := None; argument0 := None;
     argument1 := None; status := Some st; result_value := None |}.

Definition requestResult (requestAddress st : Z) : SoftwareInterruptResult :=
  {| disposition := ReturnToCaller; exit_code := 0; service_number := None; argument0 := Some requestAddress;
     argument1 := None; status := Some st; result_value := None |}.

Definition with_status (st : Z) (r : SoftwareInterruptResult) : SoftwareInterruptResult :=
  {| disposition := disposition r; exit_code := exit_code r; service_number := service_number r;
     argument0 := argument0 r; argument1 := argument1 r; status := Some st; result_value := result_value r |}.
Definition with_service_number (n : Z) (r : SoftwareInterruptResult) : SoftwareInterruptResult :=
  {| disposition := disposition r; exit_code := exit_code r; service_number := Some n;
     argument0 := argument0 r; argument1 := argument1 r; status := status r; result_value := result_value r |}.
Definition with_argument1 (v : Z) (r : SoftwareInterruptResult) : SoftwareInterruptResult :=
  {| disposition := disposition r; exit_code := exit_code r; service_number := service_number r;
     argument0 := argument0 r; argument1 := Some v; status := status r; result_value := result_value r |}.
Definition with_result (v : Z) (r : SoftwareInterruptResult) : SoftwareInterruptResult :=
  {| disposition := disposition r; exit_code := exit_code r; service_number := service_number r;
     argument0 := argument0 r; argument1 := argument1 r; status := status r; result_value := Some v |}.

(** ** Services

    A service runs on the host objects of type [E] that the services share, the
    CPU state of the caller and the store of devices. *)

Abbreviation Call E := (M (E * CPUState * World)).

Class ProtectedRuntimeService (S E : Type) := {
  service_handles : S -> Z -> bool;
  service_handle : S -> Z -> option nat -> Call E SoftwareInterruptResult;
}.

Section access.
Context {E : Type}.

Definition get_register (reg : RegisterName) : Call E Z :=
  fun '(e, s, w) => (RegisterFile_get (registers s) reg, (e, s, w)).
Definition set_register (reg : RegisterName) (value : Z) : Call E unit :=
  update (fun '(_, s, _) => s) (fun s '(e, _, w) => (e, s, w))
    (fun s => regs ← RegisterFile_set (registers s) reg value; mret (set_registers regs s)).
(** A read of [state.memory()], and a store to it. *)
Definition read_memory {A} (f : Memory -> outcome A) : Call E A :=
  fun '(e, s, w) => (f (memory s), (e, s, w)).
Definition store_memory (f : Memory -> outcome Memory) : Call E unit :=
  update (fun '(_, s, _) => s) (fun s '(e, _, w) => (e, s, w))
    (fun s => mem ← f (memory s); mret (set_memory mem s)).
Definition on_devices {A} (m : M World A) : Call E A :=
  zoom (fun '(_, _, w) => w) (fun w '(e, s, _) => (e, s, w)) m.
Definition on_host {A} (m : M E A) : Call E A :=
  zoom (fun '(e, _, _) => e) (fun e '(_, s, w) => (e, s, w)) m.

(** A [const] member function of the host objects. *)
Definition query_host {A} (f : E -> outcome A) : Call E A := fun '(e, s, w) => (f e, (e, s, w)).

(** ** Process exit *)

Definition ProcessExit_handles (serviceNumber : Z) : bool := serviceNumber =? kExitSyscall.

Definition ProcessExit_handle (serviceNumber : Z) : Call E SoftwareInterruptResult :=
  if negb (ProcessExit_handles serviceNumber) then mret (statusResult kStatusUnsupported)
  else
    exitCode ← get_register kArgument0ResultRegister;
    _ ← set_register kExitValueRegister exitCode;
    mret {| disposition := TerminateProcess; exit_code := exitCode; service_number := None;
            argument0 := Some exitCode; argument1 := None; status := Some kStatusOk; result_value := None |}.

(** ** Hardware registers *)

Definition Hardware_handles (serviceNumber : Z) : bool :=
  (serviceNumber =? kHardwareWriteSyscall) || (serviceNumber =? kHardwareReadSyscall).

Definition validHardwareOffset (offset : Z) : bool :=
  if offset <? 0 then false
  else let value := u64 offset in (value <? kHardwareSize) && (value mod kHardwareRegisterWidth =? 0).

Definition Hardware_handle (serviceNumber : Z) (mmioBus : option nat) : Call E SoftwareInterruptResult :=
  if negb (Hardware_handles serviceNumber) then mret (statusResult kStatusUnsupported)
  else
    offsetValue ← get_register kArgument0ResultRegister;
    let result st := requestResult offsetValue st in
    if negb (validHardwareOffset offsetValue) then mret (result kStatusInvalidHardwareOffset)
    else
      match mmioBus with
      | None => mret (result kStatusHardwareUnavailable)
      | Some bus =>
          let address := u64 (kHardwareBase + u64 offsetValue) in
          present ← gets (fun '(_, _, w) => MMIOBus_hasDeviceAt (bus_at w bus) address);
          if negb present then mret (result kStatusHardwareUnavailable)
          else if serviceNumber =? kHardwareWriteSyscall
          then try_catch
                 (value ← get_register kArgument1Register;
                  try_catch
                    (_ ← on_devices (MMIOBus_write bus address value);
                     mret (with_argument1 value (result kStatusOk)))
                    (fun _ => mret (with_argument1 value (result kStatusHardwareError))))
                 (fun _ => mret (result kStatusHardwareError))
          else try_catch
                 (value ← on_devices (MMIOBus_read bus address);
                  _ ← set_register kArgument0ResultRegister value;
                  mret (with_result value (result kStatusOk)))
                 (fun _ => mret (result kStatusHardwareError))
      end.

End access.

(** ** The file system *)

Definition Filesystem_handles (serviceNumber : Z) : bool :=
  (serviceNumber =? kFilesystemStatSyscall) || (serviceNumber =? kFilesystemReadSyscall)
  || (serviceNumber =? kFilesystemWriteSyscall).

(** The address of a field of the request block, if the field is an aligned
    qword of user data. *)
Definition request_field (requestAddress fieldOffset : Z) : option Z :=
  if requestAddress <? 0 then None
  else
    let base := u64 requestAddress in
    if (base >? kUserDataEndExclusive) || (fieldOffset >? kUserDataEndExclusive - base) then None
    else
      let address := base + fieldOffset in
      if negb (address mod 8 =? 0) || negb (isUserDataRange address 8) then None else Some address.

Definition readRequestI64 (requestAddress fieldOffset : Z) : Call ZeroFS (option Z) :=
  match request_field requestAddress fieldOffset with
  | None => mret None
  | Some address => value ← read_memory (fun m => Memory_readI64 m address Little); mret (Some value)
  end.

Definition writeRequestI64 (requestAddress fieldOffset value : Z) : Call ZeroFS bool :=
  match request_field requestAddress fieldOffset with
  | None => mret false
  | Some address => _ ← store_memory (fun m => Memory_writeI64 m address value Little); mret true
  end.

Definition validGuestRange (address count : Z) : bool :=
  if (address <? 0) || (count <? 0) then false else isUserDataRange (u64 address) (u64 count).

(** [path.assign(bytes.begin(), bytes.end())] *)
Definition string_of_bytes (bytes : list Z) : string :=
  of_chars ((fun b => Ascii.ascii_of_N (Z.to_N b)) <$> bytes).

(** The path of a request, or the status that says why there is none. *)
Definition readPath (requestAddress : Z) : Call ZeroFS (string + Z) :=
  pathAddress ← readRequestI64 requestAddress kFilesystemPathPointerOffset;
  match pathAddress with
  | None => mret (inr kStatusInvalidGuestMemory)
  | Some pathAddress =>
      pathLength ← readRequestI64 requestAddress kFilesystemPathLengthOffset;
      match pathLength with
      | None => mret (inr kStatusInvalidGuestMemory)
      | Some pathLength =>
          if (pathLength <=? 0) || (pathLength >? kFilesystemMaxPathLength)
          then mret (inr kStatusFilesystemInvalidPath)
          else if negb (validGuestRange pathAddress pathLength) then mret (inr kStatusInvalidGuestMemory)
          else
            bytes ← read_memory (fun m => Memory_readBytes m (u64 pathAddress) (u64 pathLength));
            mret (inl (string_of_bytes bytes))
      end
  end.

Definition mapFilesystemError (error : ZeroFSError) : Z :=
  match error with
  | InvalidPath => kStatusFilesystemInvalidPath
  | NotFound => kStatusFilesystemNotFound
  | NotDirectory | IsDirectory => kStatusFilesystemTypeError
  | InvalidOffset => kStatusFilesystemInvalidOffset
  | AlreadyExists => kStatusFilesystemError
  end.

(** The two [catch] clauses. *)
Definition exception_status (e : exn) : Z :=
  match e with ZeroFSException error _ => mapFilesystemError error | _ => kStatusFilesystemError end.

Definition filesystem_stat (requestAddress : Z) (path : string) : Call ZeroFS SoftwareInterruptResult :=
  let result := requestResult requestAddress in
  stat ← query_host (ZeroFS_stat path);
  if stat_size stat >? 2 ^ 63 - 1 then mret (result kStatusFilesystemError)
  else
    let type := if ZeroFSStat_isFile stat then kFilesystemNodeFile else kFilesystemNodeDirectory in
    let size := i64 (stat_size stat) in
    typed ← writeRequestI64 requestAddress kFilesystemStatTypeOffset type;
    sized ← (if (typed : bool) then writeRequestI64 requestAddress kFilesystemStatSizeOffset size else mret false);
    if negb sized then mret (result kStatusInvalidGuestMemory)
    else
      _ ← set_register kArgument0ResultRegister size;
      _ ← set_register kArgument1Register type;
      mret (with_result size (result kStatusOk)).

(** The fields of a transfer: file offset, buffer and count. *)
Definition transfer_fields (requestAddress : Z) : Call ZeroFS (option (Z * Z * Z)) :=
  fileOffset ← readRequestI64 requestAddress kFilesystemFileOffsetOffset;
  match fileOffset with
  | None => mret None
  | Some fileOffset =>
      bufferAddress ← readRequestI64 requestAddress kFilesystemBufferPointerOffset;
      match bufferAddress with
      | None => mret None
      | Some bufferAddress =>
          transferCount ← readRequestI64 requestAddress kFilesystemTransferCountOffset;
          match transferCount with
          | None => mret None
          | Some transferCount => mret (Some (fileOffset, bufferAddress, transferCount))
          end
      end
  end.

Definition filesystem_transfer (serviceNumber requestAddress : Z) (path : string)
  : Call ZeroFS SoftwareInterruptResult :=
  let result := requestResult requestAddress in
  fields ← transfer_fields requestAddress;
  match fields with
  | None => mret (result kStatusInvalidGuestMemory)
  | Some (fileOffset, bufferAddress, transferCount) =>
      if (fileOffset <? 0) || (transferCount <? 0) then mret (result kStatusFilesystemInvalidOffset)
      else if negb (validGuestRange bufferAddress transferCount) then mret (result kStatusInvalidGuestMemory)
      else if serviceNumber =? kFilesystemReadSyscall
      then
        data ← query_host (ZeroFS_readFile path (u64 fileOffset) (u64 transferCount));
        _ ← store_memory (fun m => Memory_writeBytes m (u64 bufferAddress) data);
        let transferred := i64 (Z.of_nat (length data)) in
        _ ← set_register kArgument0ResultRegister transferred;
        mret (with_result transferred (result kStatusOk))
      else
        data ← read_memory (fun m => Memory_readBytes m (u64 bufferAddress) (u64 transferCount));
        _ ← on_host (ZeroFS_writeFile path (u64 fileOffset) data);
        _ ← set_register kArgument0ResultRegister transferCount;
        mret (with_result transferCount (result kStatusOk))
  end.

Definition Filesystem_handle (serviceNumber : Z) : Call ZeroFS SoftwareInterruptResult :=
  if negb (Filesystem_handles serviceNumber) then mret (statusResult kStatusUnsupported)
  else
    requestAddress ← get_register kArgument0ResultRegister;
    path ← readPath requestAddress;
    match path with
    | inr pathStatus => mret (requestResult requestAddress pathStatus)
    | inl path =>
        try_catch
          (if serviceNumber =? kFilesystemStatSyscall then filesystem_stat requestAddress path
           else filesystem_transfer serviceNumber requestAddress path)
          (fun e => mret (requestResult requestAddress (exception_status e)))
    end.

(** The services of the source, over the file system they share. *)
Inductive RuntimeService := ProcessExitRuntimeService | HardwareRuntimeService | ProtectedFilesystemService.

#[export] Instance runtime_service : ProtectedRuntimeService RuntimeService ZeroFS := {
  service_handles service := match service with
    | ProcessExitRuntimeService => ProcessExit_handles
    | HardwareRuntimeService => Hardware_handles
    | ProtectedFilesystemService => Filesystem_handles
    end;
  service_handle service serviceNumber mmioBus := match service with
    | ProcessExitRuntimeService => ProcessExit_handle serviceNumber
    | HardwareRuntimeService => Hardware_handle serviceNumber mmioBus
    | ProtectedFilesystemService => Filesystem_handle serviceNumber
    end
}.

(** ** The dispatcher *)

Record ProtectedSyscallDispatcher (S E : Type) := mkDispatcher { services_ : list S; host : E }.
Arguments mkDispatcher {S E} _ _.
Arguments services_ {S E} _.
Arguments host {S E} _.

(** [addService], of a service that is not null. *)
Definition addService {S E} (service : S) (d : ProtectedSyscallDispatcher S E) : ProtectedSyscallDispatcher S E :=
  mkDispatcher (services_ d ++ [service]) (host d).

Definition new_ProtectedSyscallDispatcher (filesystem : ZeroFS) : ProtectedSyscallDispatcher RuntimeService ZeroFS :=
  addService ProtectedFilesystemService (addService HardwareRuntimeService
    (addService ProcessExitRuntimeService (mkDispatcher [] filesystem))).

Section dispatcher.
Context {S E : Type} {PRS : ProtectedRuntimeService S E}.
Abbreviation Dispatcher := (ProtectedSyscallDispatcher S E).

Definition serviceCount (d : Dispatcher) : Z := Z.of_nat (length (services_ d)).

Definition findService (d : Dispatcher) (serviceNumber : Z) : option S :=
  List.find (fun service => service_handles service serviceNumber) (services_ d).

Definition Dispatcher_handles (_ : Dispatcher) (vector : Z) : bool := vector =? kSyscallVector.

(** A call of a service, on the host objects of the dispatcher. *)
Definition on_service {A} (m : Call E A) : Call Dispatcher A :=
  zoom (fun '(d, s, w) => (host d, s, w)) (fun '(e, s, w) '(d, _, _) => (mkDispatcher (services_ d) e, s, w)) m.

Definition setStatus (st : Z) : Call Dispatcher unit := set_register kStatusRegister st.

(** The lambda [finish]. *)
Definition finish (result : SoftwareInterruptResult) : Call Dispatcher SoftwareInterruptResult :=
  let st := default kStatusOk (status result) in
  _ ← setStatus st;
  mret (with_status st result).

Definition Dispatcher_handle (vector : Z) (mmioBus : option nat) : Call Dispatcher SoftwareInterruptResult :=
  d ← gets (fun '(d, _, _) => d);
  if negb (Dispatcher_handles d vector) then finish (statusResult kStatusUnsupported)
  else
    serviceNumber ← get_register kServiceRegister;
    match findService d serviceNumber with
    | None => finish (with_service_number serviceNumber (statusResult kStatusUnsupported))
    | Some service =>
        result ← on_service (service_handle service serviceNumber mmioBus);
        finish (with_service_number serviceNumber result)
    end.

#[export] Instance dispatcher_handler : SoftwareInterruptHandler Dispatcher := {
  handles := Dispatcher_handles;
  handle := Dispatcher_handle
}.

End dispatcher.
