(* ===== verification/SyscallLaws.v ===== *)
(** * What system calls promise

    The laws of the services and of the dispatcher of [Syscalls]: a system call
    always returns with a status, changes only result registers and user data of
    the caller, and keeps everything well typed ([system_call_contract]); bytes
    written to a file are read back ([filesystem_write_then_read]).  The
    dispatcher is an instance of the two interfaces the CPU asks of a host
    handler, [WellTypedHandler] and [ConfinedHandler]. *)

From S2P Require Import Prelude Words Memory ISA Devices DeviceTypes CPUState CPU Strings ZeroFS CPUInv CPUProtect Syscalls.
Open Scope Z_scope.

(** ** What a system call may change

    The state of a caller after a system call: only the result registers and
    user data may differ. *)
Record confined (s s' : CPUState) : Prop := {
  cf_privilege : privilege_level s' = privilege_level s;
  cf_pc : pc s' = pc s;
  cf_sp : sp s' = sp s;
  cf_flags : flags s' = flags s;
  cf_stop : halted s' = halted s /\ has_error s' = has_error s /\ error_message s' = error_message s;
  cf_register_count : length (registers s') = length (registers s);
  cf_registers : forall i, i ∉ [2; 3; 4; 7]%nat -> registers s' !! i = registers s !! i;
  cf_size : length (memory s') = length (memory s);
  cf_memory : forall j, kUserDataEndExclusive <= j -> memory s' !! Z.to_nat j = memory s !! Z.to_nat j;
}.

Lemma confined_refl s : confined s s.
Proof. constructor; auto. Qed.

(** A status of the ABI. *)
Definition is_status (v : Z) : Prop := kStatusFilesystemError <= v <= kStatusOk.

Definition result_ok (r : SoftwareInterruptResult) : Prop :=
  is_i64 (exit_code r) /\ exists st, status r = Some st /\ is_status st.

(** What a service promises to the dispatcher: an invariant of the host objects;
    whatever state it is given, it stays within [confined]; and on a well-typed
    state it returns a result with a status and keeps everything well typed. *)
Class TrustedService (S E : Type) {PRS : ProtectedRuntimeService S E} := {
  host_wf : E -> Prop;
  service_confined : forall service n bus s0,
    safe (fun '(_, s, _) => confined s0 s) (service_handle service n bus) (fun _ => True);
  service_sure : forall service n bus, service_handles service n = true ->
    sure (fun '(e, s, w) => host_wf e /\ state_wf s /\ world_wf w) (service_handle service n bus) result_ok;
}.

(** ** Lemmas: the primitives *)

Lemma set_registers_confined s0 s regs i v :
  confined s0 s -> i ∈ [2; 3; 4; 7]%nat -> regs = <[i := v]> (registers s) -> confined s0 (set_registers regs s).
Proof.
  intros [] Hi ->. constructor; try assumption.
  - cbn. rewrite length_insert. assumption.
  - intros j Hj. cbn. rewrite list_lookup_insert_ne by congruence. auto.
Qed.

Lemma set_memory_confined s0 s mem :
  confined s0 s -> length mem = length (memory s) ->
  (forall j, kUserDataEndExclusive <= j -> mem !! Z.to_nat j = memory s !! Z.to_nat j) ->
  confined s0 (set_memory mem s).
Proof.
  intros [] Hl Hm. constructor; try assumption.
  - cbn. congruence.
  - intros j Hj. cbn. rewrite Hm by exact Hj. auto.
Qed.

Lemma RegisterFile_set_inv regs reg v regs' :
  RegisterFile_set regs reg v = Ret regs' -> regs' = <[register_raw reg := v]> regs.
Proof.
  intros H. apply bind_ret_inv in H as (k & Hk & H). unfold RegisterFile_toIndex in Hk.
  destruct (negb _); [discriminate|]. injection Hk as <-. destruct (_ <? _)%nat; [|discriminate]. injection H as <-. reflexivity.
Qed.

Definition result_register (reg : RegisterName) : Prop := register_raw reg ∈ [2; 3; 4; 7]%nat.

Section primitives.
Context {E : Type} (s0 : CPUState).
Abbreviation C := (fun '(_, s, _) => confined s0 s : Prop).

Lemma get_register_confined reg : safe (C : E * CPUState * World -> Prop) (get_register reg) (fun _ => True).
Proof. intros [[e s] w] H. cbn. destruct (RegisterFile_get _ _); auto. Qed.

Lemma set_register_confined reg v : result_register reg ->
  safe (C : E * CPUState * World -> Prop) (set_register reg v) (fun _ => True).
Proof.
  intros Hr. apply safe_update. intros [[e s] w] s' H Hs. apply bind_ret_inv in Hs as (regs & Hregs & [= <-]).
  eapply set_registers_confined; [exact H | exact Hr | exact (RegisterFile_set_inv _ _ _ _ Hregs)].
Qed.

Lemma read_memory_confined {A} (f : Memory -> outcome A) : safe (C : E * CPUState * World -> Prop) (read_memory f) (fun _ => True).
Proof. intros [[e s] w] H. cbn. destruct (f _); auto. Qed.

Lemma on_devices_confined {A} (m : M World A) : safe (C : E * CPUState * World -> Prop) (on_devices m) (fun _ => True).
Proof. intros [[e s] w] H. unfold on_devices, zoom. destruct (m w) as [[a|x] w']; auto. Qed.

Lemma query_host_confined {A} (f : E -> outcome A) : safe (C : E * CPUState * World -> Prop) (query_host f) (fun _ => True).
Proof. intros [[e s] w] H. cbn. destruct (f _); auto. Qed.

Lemma on_host_confined {A} (m : M E A) : safe (C : E * CPUState * World -> Prop) (on_host m) (fun _ => True).
Proof. intros [[e s] w] H. unfold on_host, zoom. destruct (m e) as [[a|x] e']; auto. Qed.

(** A store that keeps the memory above user data. *)
Definition in_user_data (f : Memory -> outcome Memory) : Prop :=
  forall m m', f m = Ret m' -> length m' = length m /\
    forall j, kUserDataEndExclusive <= j -> m' !! Z.to_nat j = m !! Z.to_nat j.

Lemma store_memory_confined f : in_user_data f ->
  safe (C : E * CPUState * World -> Prop) (store_memory f) (fun _ => True).
Proof.
  intros Hf. apply safe_update. intros [[e s] w] s' H Hs. apply bind_ret_inv in Hs as (mem & Hmem & [= <-]).
  destruct (Hf _ _ Hmem). apply set_memory_confined; assumption.
Qed.

Lemma gets_confined {A} (f : E * CPUState * World -> A) : safe (C : E * CPUState * World -> Prop) (gets f) (fun _ => True).
Proof. apply safe_gets. auto. Qed.

End primitives.

Lemma result_R2 : result_register kArgument0ResultRegister.
Proof. apply (bool_decide_unpack _). reflexivity. Qed.
Lemma result_R3 : result_register kArgument1Register.
Proof. apply (bool_decide_unpack _). reflexivity. Qed.
Lemma result_R4 : result_register kStatusRegister.
Proof. apply (bool_decide_unpack _). reflexivity. Qed.
Lemma result_R7 : result_register kExitValueRegister.
Proof. apply (bool_decide_unpack _). reflexivity. Qed.
#[export] Hint Resolve get_register_confined set_register_confined read_memory_confined on_devices_confined
  query_host_confined on_host_confined gets_confined result_R2 result_R3 result_R4 result_R7 : safe.

(** ** Lemmas: what the services read *)

Definition memory_sized (mem : Memory) : Prop := Memory_size mem = kDefaultMemorySize.

Lemma user_data_layout : 0 <= kUserDataBase /\ kUserDataEndExclusive <= kDefaultMemorySize.
Proof. split; vm_compute; discriminate. Qed.

Lemma isUserDataRange_spec a n : isUserDataRange a n = true <->
  kUserDataBase <= a <= kUserDataEndExclusive /\ a + n <= kUserDataEndExclusive.
Proof.
  unfold isUserDataRange. destruct (a <? kUserDataBase) eqn:E1; [split; [discriminate | facts; lia]|].
  destruct (a >? kUserDataEndExclusive) eqn:E2; [split; [discriminate | facts; lia]|]. facts. rewrite Z.leb_le. lia.
Qed.

Lemma user_range_in mem a n : memory_sized mem -> isUserDataRange a n = true -> 0 <= a /\ in_range mem a n.
Proof.
  intros Hm H. apply isUserDataRange_spec in H. unfold in_range, memory_sized in *.
  pose proof user_data_layout. lia.
Qed.

Lemma validGuestRange_spec a n : validGuestRange a n = true -> is_i64 a -> is_i64 n ->
  0 <= a /\ 0 <= n /\ u64 a = a /\ u64 n = n /\ isUserDataRange a n = true.
Proof.
  unfold validGuestRange. destruct ((a <? 0) || (n <? 0)) eqn:E; [discriminate|]. facts. intros Hr Ha Hn.
  assert (u64 a = a) by (apply u64_small; words). assert (u64 n = n) by (apply u64_small; words).
  repeat split; try assumption. congruence.
Qed.

Lemma request_field_spec req off a : request_field req off = Some a -> isUserDataRange a 8 = true.
Proof.
  unfold request_field. destruct (req <? 0); [discriminate|]. cbv zeta. destruct (_ || _); [discriminate|].
  destruct (isUserDataRange (u64 req + off) 8) eqn:E; rewrite ?orb_true_r; [|discriminate].
  rewrite orb_false_r. destruct (negb _); [discriminate|]. congruence.
Qed.

(** The fields of a request as functions of the memory. *)
Definition request_value (mem : Memory) (req off : Z) : option Z :=
  match request_field req off with
  | None => None
  | Some a => match Memory_readI64 mem a Little with Ret v => Some v | Throw _ => None end
  end.

Definition bytes_at (mem : Memory) (a n : Z) : list Z := take (Z.to_nat n) (drop (Z.to_nat a) mem).

Definition request_path (mem : Memory) (req : Z) : string + Z :=
  match request_value mem req kFilesystemPathPointerOffset, request_value mem req kFilesystemPathLengthOffset with
  | Some a, Some n =>
      if (n <=? 0) || (n >? kFilesystemMaxPathLength) then inr kStatusFilesystemInvalidPath
      else if negb (validGuestRange a n) then inr kStatusInvalidGuestMemory
      else inl (string_of_bytes (bytes_at mem a n))
  | _, _ => inr kStatusInvalidGuestMemory
  end.

Definition request_transfer (mem : Memory) (req : Z) : option (Z * Z * Z) :=
  offset ← request_value mem req kFilesystemFileOffsetOffset;
  buffer ← request_value mem req kFilesystemBufferPointerOffset;
  count ← request_value mem req kFilesystemTransferCountOffset;
  Some (offset, buffer, count).

Lemma request_value_i64 mem req off v : request_value mem req off = Some v -> is_i64 v.
Proof.
  unfold request_value. destruct (request_field req off); [|discriminate].
  destruct (Memory_readI64 _ _ _) eqn:E; [|discriminate]. intros [= <-]. exact (read_range _ _ _ E).
Qed.

Section reads.
Context (e : ZeroFS) (s : CPUState) (w : World) (Hs : memory_sized (memory s)).
Abbreviation st := (e, s, w).

Lemma readRequest_run req off : readRequestI64 req off st = (Ret (request_value (memory s) req off), st).
Proof.
  unfold readRequestI64, request_value. destruct (request_field req off) as [a|] eqn:E; [|reflexivity].
  apply request_field_spec in E. destruct (user_range_in _ _ _ Hs E) as [Ha Hr].
  rewrite bind_run. unfold read_memory. unfold Memory_readI64.
  destruct (readU64_total (memory s) a Little Hr) as [v ->]. reflexivity.
Qed.

Lemma readPath_run req : readPath req st = (Ret (request_path (memory s) req), st).
Proof.
  unfold readPath, request_path. rewrite bind_run, readRequest_run.
  destruct (request_value (memory s) req kFilesystemPathPointerOffset) as [a|] eqn:Ea; [|reflexivity].
  rewrite bind_run, readRequest_run.
  destruct (request_value (memory s) req kFilesystemPathLengthOffset) as [n|] eqn:En; [|reflexivity].
  destruct (_ || _); [reflexivity|]. destruct (validGuestRange a n) eqn:Ev; cbn [negb]; [|reflexivity].
  destruct (validGuestRange_spec a n Ev (request_value_i64 _ _ _ _ Ea) (request_value_i64 _ _ _ _ En))
    as (Ha & Hn & Ea' & En' & Hr).
  rewrite bind_run, Ea', En'. unfold read_memory, Memory_readBytes. destruct (user_range_in _ _ _ Hs Hr) as [_ Hin].
  rewrite (checkRange_ok _ _ _ Hin Hn). reflexivity.
Qed.

Lemma transfer_run req : transfer_fields req st = (Ret (request_transfer (memory s) req), st).
Proof.
  unfold transfer_fields, request_transfer. rewrite bind_run, readRequest_run.
  destruct (request_value _ _ kFilesystemFileOffsetOffset); [|reflexivity]. rewrite bind_run, readRequest_run.
  destruct (request_value _ _ kFilesystemBufferPointerOffset); [|reflexivity]. rewrite bind_run, readRequest_run.
  destruct (request_value _ _ kFilesystemTransferCountOffset); reflexivity.
Qed.

End reads.

(** Stores into user data. *)
Lemma write_in_user_data a v : isUserDataRange a 8 = true -> in_user_data (fun m => Memory_writeI64 m a v Little).
Proof.
  intros Hr mem mem' H. apply isUserDataRange_spec in Hr. pose proof user_data_layout.
  destruct (write_inv mem a v mem') as (_ & Hl & Hf); [lia | exact H|]. split; [exact Hl|].
  intros j Hj. apply Hf; lia.
Qed.

Lemma writeBytes_in_user_data a l : 0 <= a -> a + Z.of_nat (length l) <= kUserDataEndExclusive ->
  in_user_data (fun m => Memory_writeBytes m a l).
Proof.
  intros Ha Hr mem mem' H. split; [exact (writeBytes_length _ _ _ _ H)|].
  intros j Hj. apply (writeBytes_frame _ _ _ _ _ H). lia.
Qed.

(** ** The services of the source are confined *)

Section confinement.
Context (s0 : CPUState).
Abbreviation C := (fun '(_, s, _) => confined s0 s : Prop).
Abbreviation ok := (fun _ => True).

Lemma ProcessExit_confined {E} n : safe (C : E * CPUState * World -> Prop) (ProcessExit_handle n) ok.
Proof. unfold ProcessExit_handle. safe_go. Qed.

Lemma Hardware_confined {E} n bus : safe (C : E * CPUState * World -> Prop) (Hardware_handle n bus) ok.
Proof.
  unfold Hardware_handle. destruct (negb _); [apply safe_ret, Logic.I|].
  eapply safe_bind; [apply get_register_confined | intros a _]. cbv zeta.
  destruct (negb _); [apply safe_ret, Logic.I|]. destruct bus as [bus|]; [|apply safe_ret, Logic.I].
  eapply safe_bind; [apply gets_confined | intros p _]. destruct (negb _); [apply safe_ret, Logic.I|].
  destruct (_ =? _); apply safe_try; try (intros e; apply safe_ret, Logic.I).
  - eapply safe_bind; [apply get_register_confined | intros v _].
    apply safe_try; [|intros e; apply safe_ret, Logic.I]. safe_go.
  - safe_go.
Qed.

Abbreviation CF := (C : ZeroFS * CPUState * World -> Prop).

Lemma readRequest_confined req off :
  safe CF (readRequestI64 req off) (fun v => match v with Some v => is_i64 v | None => True end).
Proof.
  unfold readRequestI64. destruct (request_field req off); [|apply safe_ret, Logic.I].
  eapply safe_bind with (Q := is_i64); [|intros v Hv; apply safe_ret, Hv].
  intros [[e s] w] H. cbn. destruct (Memory_readI64 _ _ _) eqn:E; [split; [exact (read_range _ _ _ E) | exact H] | exact H].
Qed.

Lemma writeRequest_confined req off v : safe CF (writeRequestI64 req off v) ok.
Proof.
  unfold writeRequestI64. destruct (request_field req off) as [a|] eqn:E; [|apply safe_ret, Logic.I].
  eapply safe_bind; [|intros _ _; apply safe_ret, Logic.I].
  apply store_memory_confined, write_in_user_data, (request_field_spec _ _ _ E).
Qed.
Hint Resolve writeRequest_confined : safe.

Lemma readPath_confined req : safe CF (readPath req) ok.
Proof.
  unfold readPath. eapply safe_bind; [apply readRequest_confined | intros [a|] _; [|apply safe_ret, Logic.I]].
  eapply safe_bind; [apply readRequest_confined | intros [n|] _; [|apply safe_ret, Logic.I]]. safe_go.
Qed.

Definition transfer_typed (f : option (Z * Z * Z)) : Prop :=
  match f with Some (offset, buffer, count) => is_i64 offset /\ is_i64 buffer /\ is_i64 count | None => True end.

Lemma transfer_confined req : safe CF (transfer_fields req) transfer_typed.
Proof.
  unfold transfer_fields. eapply safe_bind; [apply readRequest_confined | intros [a|] Ha; [|apply safe_ret, Logic.I]].
  eapply safe_bind; [apply readRequest_confined | intros [b|] Hb; [|apply safe_ret, Logic.I]].
  eapply safe_bind; [apply readRequest_confined | intros [c|] Hc; [|apply safe_ret, Logic.I]].
  apply safe_ret. split; [exact Ha | split; [exact Hb | exact Hc]].
Qed.

Lemma filesystem_stat_confined req path : safe CF (filesystem_stat req path) ok.
Proof.
  unfold filesystem_stat. cbv zeta. eapply safe_bind; [apply query_host_confined | intros st _].
  destruct (_ >? _); [apply safe_ret, Logic.I|].
  eapply safe_bind; [apply writeRequest_confined | intros typed _].
  eapply (safe_bind _ _ _ ok); [destruct typed; [apply writeRequest_confined | apply safe_ret, Logic.I] | intros sized _].
  safe_go.
Qed.

Lemma filesystem_transfer_confined n req path : safe CF (filesystem_transfer n req path) ok.
Proof.
  unfold filesystem_transfer. cbv zeta. eapply safe_bind; [apply transfer_confined|].
  intros [[[offset buffer] count]|] Hf; [|apply safe_ret, Logic.I]. destruct Hf as (Ho & Hb & Hc).
  destruct (_ || _); [apply safe_ret, Logic.I|]. destruct (validGuestRange buffer count) eqn:Ev; cbn [negb]; [|apply safe_ret, Logic.I].
  destruct (validGuestRange_spec _ _ Ev Hb Hc) as (Hb0 & Hc0 & Eb & Ec & Hr). rewrite Eb, Ec.
  apply isUserDataRange_spec in Hr. destruct (n =? _).
  - eapply (safe_bind _ _ _ (fun data => Z.of_nat (length data) <= count)).
    + intros [[e s] w] H. cbn. destruct (ZeroFS_readFile _ _ _ e) as [data|x] eqn:E; [|exact H].
      split; [|exact H]. apply readFile_inv in E as (key & nd & _ & _ & _ & ->).
      destruct (_ >=? _); [cbn; lia|]. rewrite (proj2 (Z.eqb_neq count kReadToEnd)) by (unfold kReadToEnd, size_max; words).
      rewrite length_take. lia.
    + intros data Hd. eapply safe_bind; [apply store_memory_confined, writeBytes_in_user_data; lia | intros _ _]. safe_go.
  - safe_go.
Qed.

Lemma Filesystem_confined n : safe CF (Filesystem_handle n) ok.
Proof.
  unfold Filesystem_handle. destruct (negb _); [apply safe_ret, Logic.I|].
  eapply safe_bind; [apply get_register_confined | intros req _].
  eapply safe_bind; [apply readPath_confined | intros [path|st] _; [|apply safe_ret, Logic.I]].
  apply safe_try; [|intros e; apply safe_ret, Logic.I].
  destruct (_ =? _); [apply filesystem_stat_confined | apply filesystem_transfer_confined].
Qed.

End confinement.

(** ** The services of the source return and keep everything well typed *)

Definition typed : ZeroFS * CPUState * World -> Prop := fun '(e, s, w) => fs_wf e /\ state_wf s /\ world_wf w.

Lemma get_register_sure reg : reg <> Count -> sure typed (get_register reg) is_i64.
Proof.
  intros Hr [[e s] w] (He & Hs & Hw). cbn. destruct (wf_registers _ Hs) as [Hl Hi].
  destruct (RegisterFile_get_total _ _ Hl Hr) as (v & -> & Hv). split; [|split; [exact He | split; assumption]].
  exact (proj1 (Forall_lookup _ _) Hi _ _ Hv).
Qed.

Lemma set_register_sure reg v : reg <> Count -> is_i64 v -> sure typed (set_register reg v) (fun _ => True).
Proof.
  intros Hr Hv [[e s] w] (He & Hs & Hw). unfold set_register, update. destruct (wf_registers _ Hs) as [Hl Hi].
  destruct (RegisterFile_set (registers s) reg v) as [regs|x] eqn:E; cbn.
  - split; [exact Logic.I|]. split; [exact He|]. split; [|exact Hw]. apply set_registers_wf; [exact Hs|].
    exact (RegisterFile_set_wf _ _ _ _ (conj Hl Hi) Hv E).
  - exfalso. unfold RegisterFile_set in E. assert (Hlt : (register_raw reg <? length (registers s))%nat = true).
    { rewrite Hl. destruct reg; try reflexivity. congruence. }
    destruct reg; cbn in E, Hlt; try congruence; rewrite Hlt in E; discriminate.
Qed.

Lemma query_host_typed {A} (f : ZeroFS -> outcome A) (Q : A -> Prop) :
  (forall e a, fs_wf e -> f e = Ret a -> Q a) -> safe typed (query_host f) Q.
Proof.
  intros Hf [[e s] w] H. cbn. destruct (f e) as [a|x] eqn:E; [split; [|exact H] | exact H].
  eapply Hf; [apply H | exact E].
Qed.

Lemma on_host_typed {A} (m : M ZeroFS A) Q : safe fs_wf m Q -> safe typed (on_host m) Q.
Proof.
  intros Hm. eapply safe_zoom; [exact Hm | intros [[e s] w] H; apply H |].
  intros [[e s] w] e' (_ & Hs & Hw) He. split; [exact He | split; assumption].
Qed.

Lemma on_devices_typed {A} (m : M World A) Q : safe world_wf m Q -> safe typed (on_devices m) Q.
Proof.
  intros Hm. eapply safe_zoom; [exact Hm | intros [[e s] w] H; apply H |].
  intros [[e s] w] w' (He & Hs & _) Hw. split; [exact He | split; assumption].
Qed.

Lemma read_memory_typed {A} (f : Memory -> outcome A) (Q : A -> Prop) :
  (forall mem a, byte_list mem -> f mem = Ret a -> Q a) -> safe typed (read_memory f) Q.
Proof.
  intros Hf [[e s] w] H. cbn. destruct (f (memory s)) as [a|x] eqn:E; [split; [|exact H] | exact H].
  eapply Hf; [apply (proj1 (proj2 H)) | exact E].
Qed.

Lemma store_memory_typed f :
  (forall mem mem', byte_list mem -> f mem = Ret mem' -> byte_list mem' /\ length mem' = length mem) ->
  safe typed (store_memory f) (fun _ => True).
Proof.
  intros Hf. apply safe_update. intros [[e s] w] s' (He & Hs & Hw) H.
  apply bind_ret_inv in H as (mem & Hmem & [= <-]). destruct (Hf _ _ (wf_memory _ Hs) Hmem) as [Hb Hl].
  split; [exact He | split; [apply set_memory_wf; assumption | exact Hw]].
Qed.

Lemma status_ok a st : is_status st -> result_ok (requestResult a st).
Proof. intros H. split; [cbn; words | exists st; auto]. Qed.
Lemma result_status r v : result_ok r -> result_ok (with_result v r).
Proof. intros [H1 H2]. split; assumption. Qed.
Lemma argument1_status r v : result_ok r -> result_ok (with_argument1 v r).
Proof. intros [H1 H2]. split; assumption. Qed.
Lemma unsupported_ok : result_ok (statusResult kStatusUnsupported).
Proof. split; [cbn; words | eexists; split; [reflexivity | split; vm_compute; discriminate]]. Qed.

(** The constants are statuses. *)
Ltac status := apply status_ok; split; vm_compute; discriminate.

Lemma error_status_ok a e : result_ok (requestResult a (exception_status e)).
Proof. destruct e as [| | | | |[] ?]; status. Qed.

Lemma ProcessExit_sure n : sure typed (ProcessExit_handle n) result_ok.
Proof.
  unfold ProcessExit_handle. destruct (negb _); [apply sure_ret, unsupported_ok|].
  eapply sure_bind; [apply get_register_sure; discriminate | intros v Hv].
  eapply sure_bind; [apply set_register_sure; [discriminate | exact Hv] | intros _ _].
  apply sure_ret. split; [exact Hv|]. exists kStatusOk. split; [reflexivity | split; vm_compute; discriminate].
Qed.

Lemma Hardware_sure n bus : sure typed (Hardware_handle n bus) result_ok.
Proof.
  unfold Hardware_handle. destruct (negb _); [apply sure_ret, unsupported_ok|].
  eapply sure_bind; [apply get_register_sure; discriminate | intros a _]. cbv zeta.
  destruct (negb _); [apply sure_ret; status|]. destruct bus as [bus|]; [|apply sure_ret; status].
  eapply sure_bind; [apply (sure_gets _ _ (fun _ => True)); auto | intros p _].
  destruct (negb _); [apply sure_ret; status|]. destruct (_ =? _).
  - apply sure_try; [|intros e; apply sure_ret; status].
    eapply safe_bind; [apply sure_safe, get_register_sure; discriminate | intros v Hv].
    apply safe_try; [|intros e; apply safe_ret, argument1_status; status].
    eapply safe_bind; [apply on_devices_typed, MMIOBus_write_safe, Hv | intros _ _].
    apply safe_ret, argument1_status. status.
  - apply sure_try; [|intros e; apply sure_ret; status].
    eapply safe_bind; [apply on_devices_typed, MMIOBus_read_safe | intros v Hv].
    eapply safe_bind; [apply sure_safe, set_register_sure; [discriminate | exact Hv] | intros _ _].
    apply safe_ret, result_status. status.
Qed.

Lemma wf_sized s : state_wf s -> memory_sized (memory s).
Proof. intros H. apply H. Qed.

Lemma readPath_sure req : sure typed (readPath req) (fun p => match p with inl _ => True | inr st => is_status st end).
Proof.
  intros [[e s] w] H. rewrite readPath_run by apply wf_sized, H. split; [|exact H]. unfold request_path.
  destruct (request_value _ _ _) as [a|]; [|split; vm_compute; discriminate].
  destruct (request_value _ _ kFilesystemPathLengthOffset) as [n|]; [|split; vm_compute; discriminate].
  destruct (_ || _); [split; vm_compute; discriminate|].
  destruct (negb _); [split; vm_compute; discriminate | exact Logic.I].
Qed.

Lemma transfer_safe req : safe typed (transfer_fields req) transfer_typed.
Proof.
  intros [[e s] w] H. rewrite transfer_run by apply wf_sized, H. split; [|exact H]. unfold request_transfer.
  destruct (request_value _ _ kFilesystemFileOffsetOffset) as [a|] eqn:Ea; [|exact Logic.I].
  destruct (request_value _ _ kFilesystemBufferPointerOffset) as [b|] eqn:Eb; [|exact Logic.I].
  destruct (request_value _ _ kFilesystemTransferCountOffset) as [c|] eqn:Ec; [|exact Logic.I].
  repeat split; eapply request_value_i64; eassumption.
Qed.

Lemma writeRequest_safe req off v : safe typed (writeRequestI64 req off v) (fun _ => True).
Proof.
  unfold writeRequestI64. destruct (request_field req off); [|apply safe_ret, Logic.I].
  eapply safe_bind; [|intros _ _; apply safe_ret, Logic.I]. apply store_memory_typed.
  intros mem mem' Hb H. split; [exact (write_bytes _ _ _ _ H Hb) | exact (writeU64_size _ _ (u64 v) Little _ H)].
Qed.

Lemma filesystem_stat_safe req path : safe typed (filesystem_stat req path) result_ok.
Proof.
  unfold filesystem_stat. cbv zeta.
  eapply safe_bind; [apply (query_host_typed _ (fun _ => True)); auto | intros st _].
  destruct (_ >? _); [apply safe_ret; status|].
  eapply safe_bind; [apply writeRequest_safe | intros b _].
  eapply (safe_bind _ _ _ (fun _ => True)); [destruct b; [apply writeRequest_safe | apply safe_ret, Logic.I] | intros sized _].
  destruct (negb _); [apply safe_ret; status|].
  eapply safe_bind; [apply sure_safe, set_register_sure; [discriminate | apply i64_range] | intros _ _].
  eapply safe_bind; [apply sure_safe, set_register_sure; [discriminate|] | intros _ _].
  - destruct (ZeroFSStat_isFile st); vm_compute; split; discriminate || reflexivity.
  - apply safe_ret, result_status. status.
Qed.

Lemma filesystem_transfer_safe n req path : safe typed (filesystem_transfer n req path) result_ok.
Proof.
  unfold filesystem_transfer. cbv zeta. eapply safe_bind; [apply transfer_safe|].
  intros [[[offset buffer] count]|] Hf; [|apply safe_ret; status]. destruct Hf as (Ho & Hb & Hc).
  destruct (_ || _); [apply safe_ret; status|]. destruct (validGuestRange buffer count) eqn:Ev; cbn [negb]; [|apply safe_ret; status].
  destruct (validGuestRange_spec _ _ Ev Hb Hc) as (Hb0 & Hc0 & Eb & Ec & Hr). rewrite Eb, Ec. destruct (n =? _).
  - eapply safe_bind; [apply (query_host_typed _ byte_list)|].
    { intros e l He Hl. refine (proj1 (readFile_bytes _ _ _ _ _ He _ Hl)). unfold kReadToEnd, size_max. words. }
    intros data Hd. eapply safe_bind.
    { apply store_memory_typed. intros mem mem' Hm H.
      split; [exact (writeBytes_bytes _ _ _ _ Hm Hd H) | exact (writeBytes_length _ _ _ _ H)]. }
    intros _ _. eapply safe_bind; [apply sure_safe, set_register_sure; [discriminate | apply i64_range] | intros _ _].
    apply safe_ret, result_status. status.
  - eapply safe_bind; [apply (read_memory_typed _ byte_list)|].
    { intros mem l Hm H. apply readBytes_inv in H as [_ ->]; [|exact Hb0]. apply Forall_take, Forall_drop, Hm. }
    intros data Hd. eapply safe_bind; [apply on_host_typed, writeFile_safe, Hd | intros _ _].
    eapply safe_bind; [apply sure_safe, set_register_sure; [discriminate | exact Hc] | intros _ _].
    apply safe_ret, result_status. status.
Qed.

Lemma Filesystem_sure n : sure typed (Filesystem_handle n) result_ok.
Proof.
  unfold Filesystem_handle. destruct (negb _); [apply sure_ret, unsupported_ok|].
  eapply sure_bind; [apply get_register_sure; discriminate | intros req _].
  eapply sure_bind; [apply readPath_sure | intros [path|st] Hp; [|apply sure_ret, status_ok, Hp]].
  apply sure_try; [|intros e; apply sure_ret, error_status_ok].
  destruct (_ =? _); [apply filesystem_stat_safe | apply filesystem_transfer_safe].
Qed.

#[export] Instance runtime_trusted : TrustedService RuntimeService ZeroFS := {
  host_wf := fs_wf;
  service_confined service n bus s0 := match service with
    | ProcessExitRuntimeService => ProcessExit_confined s0 n
    | HardwareRuntimeService => Hardware_confined s0 n bus
    | ProtectedFilesystemService => Filesystem_confined s0 n
    end;
  service_sure service n bus _ := match service with
    | ProcessExitRuntimeService => ProcessExit_sure n
    | HardwareRuntimeService => Hardware_sure n bus
    | ProtectedFilesystemService => Filesystem_sure n
    end
}.

(** ** The dispatcher keeps the promises of its services *)

Section dispatcher_laws.
Context {S E : Type} {PRS : ProtectedRuntimeService S E} {TS : TrustedService S E}.
Abbreviation Dispatcher := (ProtectedSyscallDispatcher S E).
Abbreviation DC s0 := (fun '(_, s, _) => confined s0 s : Prop).

Lemma on_service_confined {A} s0 (m : Call E A) :
  safe (DC s0) m (fun _ => True) -> safe (DC s0 : Dispatcher * CPUState * World -> Prop) (on_service m) (fun _ => True).
Proof.
  intros Hm. eapply safe_zoom; [exact Hm | intros [[d s] w] H; exact H | intros [[d s] w] [[e s'] w'] _ H; exact H].
Qed.

Lemma finish_confined s0 r : safe (DC s0 : Dispatcher * CPUState * World -> Prop) (finish r) (fun _ => True).
Proof. unfold finish, setStatus. cbv zeta. safe_go. Qed.

Lemma Dispatcher_confined s0 vector bus :
  safe (DC s0 : Dispatcher * CPUState * World -> Prop) (Dispatcher_handle vector bus) (fun _ => True).
Proof.
  unfold Dispatcher_handle. eapply safe_bind; [apply gets_confined | intros d _].
  destruct (negb _); [apply finish_confined|].
  eapply safe_bind; [apply get_register_confined | intros n _].
  destruct (findService d n) as [service|]; [|apply finish_confined].
  eapply safe_bind; [apply on_service_confined, service_confined | intros r _]. apply finish_confined.
Qed.

#[export] Instance dispatcher_is_confined : ConfinedHandler Dispatcher.
Proof.
  intros vector bus d s w s'.
  pose proof (safe_final _ _ _ (d, s, w) (Dispatcher_confined s vector bus) (confined_refl s)) as H.
  change (handle vector bus (d, s, w)) with (Dispatcher_handle vector bus (d, s, w)) in s'.
  assert (Hc : confined s s') by (subst s'; destruct (Dispatcher_handle vector bus (d, s, w)) as [o [[d' s'] w']]; exact H).
  destruct Hc. auto.
Qed.

Definition dispatcher_typed : Dispatcher * CPUState * World -> Prop :=
  fun '(d, s, w) => host_wf (host d) /\ state_wf s /\ world_wf w.

(** Setting the status register, as an equation. *)
Lemma finish_run r st (d : Dispatcher) s w :
  state_wf s -> default kStatusOk (status r) = st ->
  finish r (d, s, w) = (Ret (with_status st r), (d, set_registers (<[4%nat := st]> (registers s)) s, w)).
Proof.
  intros Hs Hst. unfold finish. rewrite Hst. cbv zeta. rewrite bind_run. unfold setStatus, set_register, update.
  unfold RegisterFile_set. cbn. rewrite (proj1 (wf_registers _ Hs)). reflexivity.
Qed.

Lemma status_i64 st : is_status st -> is_i64 st.
Proof. unfold is_status, kStatusFilesystemError, kStatusOk. words. Qed.

Lemma set_status_wf s st : state_wf s -> is_status st -> state_wf (set_registers (<[4%nat := st]> (registers s)) s).
Proof.
  intros Hs Hst. apply set_registers_wf; [exact Hs|]. destruct (wf_registers _ Hs) as [Hl Hi].
  split; [rewrite length_insert; exact Hl | apply Forall_insert; [exact Hi | apply status_i64, Hst]].
Qed.

Lemma findService_handles (d : Dispatcher) n service : findService d n = Some service -> service_handles service n = true.
Proof. intros H. apply List.find_some in H. apply H. Qed.

(** A call that reaches a service. *)
Lemma service_call_run (d : Dispatcher) n service bus s w :
  host_wf (host d) -> state_wf s -> world_wf w -> registers s !! 1%nat = Some n -> findService d n = Some service ->
  exists r st e' s' w', service_handle service n bus (host d, s, w) = (Ret r, (e', s', w')) /\
    status r = Some st /\ is_status st /\ is_i64 (exit_code r) /\ host_wf e' /\ state_wf s' /\ world_wf w' /\
    Dispatcher_handle kSyscallVector bus (d, s, w) =
      (Ret (with_service_number n r),
       (mkDispatcher (services_ d) e', set_registers (<[4%nat := st]> (registers s')) s', w')).
Proof.
  intros He Hs Hw Hn Hf. pose proof (findService_handles d n service Hf) as Hh.
  destruct (sure_run _ _ _ (host d, s, w) (service_sure service n bus Hh) (conj He (conj Hs Hw)))
    as (r & [[e' s'] w'] & Hrun & (Hx & st & Hst & Hok) & He' & Hs' & Hw').
  exists r, st, e', s', w'. repeat (split; [eassumption|]).
  unfold Dispatcher_handle. rewrite bind_run. unfold gets. cbv beta iota.
  unfold Dispatcher_handles. rewrite Z.eqb_refl. cbn [negb].
  rewrite bind_run. unfold get_register, RegisterFile_get. cbn -[service_handle finish].
  rewrite Hn. cbn -[service_handle finish]. rewrite Hf. rewrite bind_run. unfold on_service, zoom. cbn [host]. rewrite Hrun.
  cbv beta iota. rewrite (finish_run _ st) by (exact Hs' || (cbn; rewrite Hst; reflexivity)).
  do 2 f_equal. unfold with_status, with_service_number. cbn. rewrite Hst. reflexivity.
Qed.

Lemma dispatch_unsupported (d : Dispatcher) vector bus s w n :
  state_wf s -> registers s !! 1%nat = Some n -> vector <> kSyscallVector \/ findService d n = None ->
  exists r, Dispatcher_handle vector bus (d, s, w) =
    (Ret r, (d, set_registers (<[4%nat := kStatusUnsupported]> (registers s)) s, w)) /\
    status r = Some kStatusUnsupported /\ exit_code r = 0.
Proof.
  intros Hs Hn Hun. unfold Dispatcher_handle. rewrite bind_run. unfold gets. cbv beta iota. unfold Dispatcher_handles.
  destruct (vector =? kSyscallVector) eqn:Ev; cbn [negb]; facts.
  - destruct Hun as [Hun|Hf]; [contradiction|]. rewrite bind_run. unfold get_register, RegisterFile_get.
    cbn -[finish]. rewrite Hn. cbn -[finish]. rewrite Hf.
    erewrite finish_run by (exact Hs || reflexivity). eexists. split; [reflexivity | split; reflexivity].
  - erewrite finish_run by (exact Hs || reflexivity). eexists. split; [reflexivity | split; reflexivity].
Qed.

Lemma unsupported_status : is_status kStatusUnsupported.
Proof. split; vm_compute; discriminate. Qed.

Lemma service_register s : state_wf s -> exists n, registers s !! 1%nat = Some n.
Proof.
  intros Hs. apply lookup_lt_is_Some_2. rewrite (proj1 (wf_registers _ Hs)). unfold kRegisterCount. cbn. lia.
Qed.

Lemma Dispatcher_sure vector bus :
  sure dispatcher_typed (Dispatcher_handle vector bus) (fun r => is_i64 (exit_code r)).
Proof.
  intros [[d s] w] (He & Hs & Hw). destruct (service_register s Hs) as [n Hn].
  destruct (decide (vector = kSyscallVector)) as [->|Hv]; [destruct (findService d n) as [service|] eqn:Hf|].
  - destruct (service_call_run d n service bus s w He Hs Hw Hn Hf) as (r & st & e' & s' & w' & _ & _ & Hst & Hx & He' & Hs' & Hw' & ->).
    split; [exact Hx|]. split; [exact He' | split; [apply set_status_wf; assumption | exact Hw']].
  - destruct (dispatch_unsupported d kSyscallVector bus s w n Hs Hn (or_intror Hf)) as (r & -> & _ & Hx).
    split; [rewrite Hx; words|]. split; [exact He | split; [apply set_status_wf, unsupported_status; exact Hs | exact Hw]].
  - destruct (dispatch_unsupported d vector bus s w n Hs Hn (or_introl Hv)) as (r & -> & _ & Hx).
    split; [rewrite Hx; words|]. split; [exact He | split; [apply set_status_wf, unsupported_status; exact Hs | exact Hw]].
Qed.

#[export] Instance dispatcher_well_typed : WellTypedHandler Dispatcher := {
  handler_wf d := host_wf (host d);
  handle_safe vector bus _ := sure_safe dispatcher_typed (Dispatcher_handle vector bus) _ (Dispatcher_sure vector bus)
}.

End dispatcher_laws.

(** ** File transfers *)

Lemma register_at reg s v : reg <> Count -> registers s !! register_raw reg = Some v ->
  RegisterFile_get (registers s) reg = Ret v.
Proof. intros Hr Hv. unfold RegisterFile_get. destruct reg; try congruence; cbn in *; rewrite Hv; reflexivity. Qed.

Lemma result_set s w (e : ZeroFS) v : state_wf s ->
  set_register kArgument0ResultRegister v (e, s, w) = (Ret tt, (e, set_registers (<[2%nat := v]> (registers s)) s, w)).
Proof.
  intros Hs. unfold set_register, update, RegisterFile_set. cbn. rewrite (proj1 (wf_registers _ Hs)). reflexivity.
Qed.

(** A request for a transfer that the service accepts, and the file it names. *)
Record transfer_request (s : CPUState) (key : string) (offset buffer count : Z) : Prop := {
  tr_path : exists req path, registers s !! 2%nat = Some req /\ request_path (memory s) req = inl path /\
              normalizePath path = Ret key /\ request_transfer (memory s) req = Some (offset, buffer, count);
  tr_offset : 0 <= offset;
  tr_range : 0 <= count /\ isUserDataRange buffer count = true;
}.

Definition file (data : list Z) : Node := {| node_type := File; node_data := data |}.

Section transfers.
Context (e : ZeroFS) (s : CPUState) (w : World) (Hs : state_wf s).
Context (key : string) (offset buffer count : Z) (R : transfer_request s key offset buffer count).
Context (d : list Z) (Hd : e !! key = Some (file d)).

Lemma transfer_facts : is_i64 offset /\ is_i64 count /\ is_i64 buffer.
Proof.
  destruct R as [(req & path & _ & _ & _ & Ht) _ _]. unfold request_transfer in Ht.
  destruct (request_value _ _ kFilesystemFileOffsetOffset) as [a|] eqn:Ea; [|discriminate]. cbn in Ht.
  destruct (request_value _ _ kFilesystemBufferPointerOffset) as [b|] eqn:Eb; [|discriminate]. cbn in Ht.
  destruct (request_value _ _ kFilesystemTransferCountOffset) as [c|] eqn:Ec; [|discriminate]. injection Ht as <- <- <-.
  repeat split; eapply request_value_i64; eassumption.
Qed.

Lemma buffer_in_memory : 0 <= buffer /\ in_range (memory s) buffer count.
Proof. apply user_range_in; [apply wf_sized, Hs | apply R]. Qed.

Lemma transfer_words : u64 offset = offset /\ u64 buffer = buffer /\ u64 count = count /\ validGuestRange buffer count = true.
Proof.
  destruct transfer_facts as (Ho & Hc & Hb). destruct R as [_ Ho0 [Hc0 Hr]]. destruct buffer_in_memory as [Hb0 _].
  assert (Eb : u64 buffer = buffer) by (apply u64_small; words). assert (Ec : u64 count = count) by (apply u64_small; words).
  split; [apply u64_small; words|]. split; [exact Eb|]. split; [exact Ec|].
  unfold validGuestRange. rewrite (proj2 (Z.ltb_ge _ _) Hb0), (proj2 (Z.ltb_ge _ _) Hc0), Eb, Ec. exact Hr.
Qed.

(** What the service does up to the transfer itself. *)
Lemma transfer_start n r st' : Filesystem_handles n = true -> n <> kFilesystemStatSyscall ->
  (forall req path, normalizePath path = Ret key -> registers s !! 2%nat = Some req ->
     (if n =? kFilesystemReadSyscall
      then
        data ← query_host (ZeroFS_readFile path offset count);
        _ ← store_memory (fun m => Memory_writeBytes m buffer data);
        _ ← set_register kArgument0ResultRegister (i64 (Z.of_nat (length data)));
        mret (with_result (i64 (Z.of_nat (length data))) (requestResult req kStatusOk))
      else
        data ← read_memory (fun m => Memory_readBytes m buffer count);
        _ ← on_host (ZeroFS_writeFile path offset data);
        _ ← set_register kArgument0ResultRegister count;
        mret (with_result count (requestResult req kStatusOk))) (e, s, w) = (Ret r, st')) ->
  Filesystem_handle n (e, s, w) = (Ret r, st').
Proof.
  intros Hn Hstat Hrun. destruct (tr_path _ _ _ _ _ R) as (req & path & Hreq & Hpath & Hkey & Ht).
  destruct transfer_words as (Eo & Eb & Ec & Hv). unfold Filesystem_handle. rewrite Hn. cbn [negb].
  rewrite bind_run. unfold get_register at 1. rewrite (register_at kArgument0ResultRegister s req ltac:(discriminate) Hreq).
  rewrite bind_run, readPath_run by apply wf_sized, Hs. rewrite Hpath. unfold try_catch.
  rewrite (proj2 (Z.eqb_neq _ _) Hstat). unfold filesystem_transfer. cbv zeta.
  rewrite bind_run, transfer_run by apply wf_sized, Hs. rewrite Ht.
  rewrite (proj2 (Z.ltb_ge _ _) (tr_offset _ _ _ _ _ R)), (proj2 (Z.ltb_ge _ _) (proj1 (tr_range _ _ _ _ _ R))).
  rewrite Hv. cbn [orb negb]. rewrite Eo, Eb, Ec, (Hrun req path Hkey Hreq). reflexivity.
Qed.

Lemma filesystem_write_run : offset + count <= vector_max_size ->
  exists r, Filesystem_handle kFilesystemWriteSyscall (e, s, w) =
    (Ret r, (<[key := file (overwrite (Z.to_nat offset) (bytes_at (memory s) buffer count) d)]> e,
             set_registers (<[2%nat := count]> (registers s)) s, w)) /\ status r = Some kStatusOk.
Proof.
  intros Hmax. destruct (tr_path _ _ _ _ _ R) as (req & path & Hreq & Hpath & Hkey & Ht).
  exists (with_result count (requestResult req kStatusOk)). split; [|reflexivity].
  apply transfer_start; [reflexivity | vm_compute; discriminate|]. intros req' path' Hkey' Hreq'.
  assert (req' = req) as -> by congruence. destruct buffer_in_memory as [Hb0 Hin]. pose proof (proj1 (tr_range _ _ _ _ _ R)) as Hc0.
  rewrite (proj2 (Z.eqb_neq kFilesystemWriteSyscall kFilesystemReadSyscall)) by (vm_compute; discriminate).
  rewrite bind_run. unfold read_memory, Memory_readBytes. rewrite (checkRange_ok _ _ _ Hin Hc0). cbn [mbind outcome_bind].
  cbv [mret outcome_ret]. fold (bytes_at (memory s) buffer count). set (data := bytes_at _ _ _).
  assert (Hlen : Z.of_nat (length data) = count).
  { unfold data, bytes_at. rewrite length_take, length_drop. unfold in_range, Memory_size in Hin. lia. }
  rewrite bind_run. unfold on_host, zoom.
  rewrite (writeFile_run path' key offset data d e Hkey' Hd (tr_offset _ _ _ _ _ R)) by lia.
  rewrite bind_run, result_set by exact Hs. reflexivity.
Qed.

Lemma filesystem_read_run (mem' : Memory) :
  let data := take (Z.to_nat count) (drop (Z.to_nat offset) d) in
  Memory_writeBytes (memory s) buffer data = Ret mem' -> byte_list d ->
  exists r, Filesystem_handle kFilesystemReadSyscall (e, s, w) =
    (Ret r, (e, set_registers (<[2%nat := Z.of_nat (length data)]> (registers s)) (set_memory mem' s), w)) /\
    status r = Some kStatusOk.
Proof.
  intros data Hmem Hbytes. destruct (tr_path _ _ _ _ _ R) as (req & path & Hreq & Hpath & Hkey & Ht).
  destruct transfer_facts as (_ & Hc & _). pose proof (proj1 (tr_range _ _ _ _ _ R)) as Hc0.
  assert (Hlen : is_i64 (Z.of_nat (length data))) by (unfold data; rewrite length_take; words).
  exists (with_result (i64 (Z.of_nat (length data))) (requestResult req kStatusOk)). split; [|reflexivity].
  apply transfer_start; [reflexivity | vm_compute; discriminate|]. intros req' path' Hkey' Hreq'.
  assert (req' = req) as -> by congruence. rewrite Z.eqb_refl.
  rewrite bind_run. unfold query_host. rewrite (readFile_run path' key offset count d e Hkey' Hd (tr_offset _ _ _ _ _ R))
    by (unfold kReadToEnd, size_max; words). fold data.
  rewrite bind_run. unfold store_memory, update. rewrite Hmem. cbn [mbind outcome_bind mret outcome_ret].
  rewrite bind_run, result_set.
  - rewrite i64_small by exact Hlen. reflexivity.
  - apply set_memory_wf; [exact Hs | | exact (writeBytes_length _ _ _ _ Hmem)].
    refine (writeBytes_bytes _ _ _ _ (wf_memory _ Hs) _ Hmem). apply Forall_take, Forall_drop, Hbytes.
Qed.

End transfers.

(** A call of the file system through the dispatcher of the source. *)
Lemma dispatch_filesystem e n r e' s s' w w' bus :
  fs_wf e -> state_wf s -> world_wf w -> registers s !! 1%nat = Some n -> Filesystem_handles n = true ->
  Filesystem_handle n (e, s, w) = (Ret r, (e', s', w')) -> status r = Some kStatusOk ->
  exists r', Dispatcher_handle kSyscallVector bus (new_ProtectedSyscallDispatcher e, s, w) =
    (Ret r', (new_ProtectedSyscallDispatcher e', set_registers (<[4%nat := kStatusOk]> (registers s')) s', w')).
Proof.
  intros He Hs Hw Hn Hh Hrun Hst.
  assert (Hf : findService (new_ProtectedSyscallDispatcher e) n = Some ProtectedFilesystemService).
  { unfold Filesystem_handles in Hh. rewrite !orb_true_iff in Hh. destruct Hh as [[Hh|Hh]|Hh]; facts; subst n; reflexivity. }
  destruct (service_call_run (TS := runtime_trusted) (new_ProtectedSyscallDispatcher e) n _ bus s w He Hs Hw Hn Hf)
    as (r' & st & e1 & s1 & w1 & Hcall & Hst' & _ & _ & _ & _ & _ & Hd).
  change (Filesystem_handle n (e, s, w) = (Ret r', (e1, s1, w1))) in Hcall. rewrite Hrun in Hcall.
  injection Hcall as <- <- <- <-. rewrite Hst in Hst'. injection Hst' as <-. eexists. exact Hd.
Qed.

Lemma bytes_length mem a n : 0 <= a -> 0 <= n -> in_range mem a n -> Z.of_nat (length (bytes_at mem a n)) = n.
Proof. intros Ha Hn H. unfold bytes_at, in_range, Memory_size in *. rewrite length_take, length_drop. lia. Qed.

(** ** Properties *)

(** (C17) The contract of system calls, for a dispatcher over any services that
    keep the promises of [TrustedService].  A call returns; its status is one of
    the ABI and is in the status register; the host objects, the caller's state
    and the devices stay well typed; the caller keeps its privilege, program
    counter, stack pointer, flags, error state, the registers other than R2, R3,
    R4 and R7, and all memory outside user data.  A vector or a service number
    that no service handles is answered [kStatusUnsupported], with no other
    effect. *)
Theorem system_call_contract {S E : Type} {PRS : ProtectedRuntimeService S E} {TS : TrustedService S E}
    (d : ProtectedSyscallDispatcher S E) (s : CPUState) (w : World) (vector n : Z) (bus : option nat)
    (Hd : host_wf (host d)) (Hs : state_wf s) (Hw : world_wf w) (Hn : registers s !! 1%nat = Some n) :
  exists r st d' s' w',
    handle vector bus (d, s, w) = (Ret r, (d', s', w')) /\
    status r = Some st /\ is_status st /\ registers s' !! 4%nat = Some st /\
    services_ d' = services_ d /\ host_wf (host d') /\ state_wf s' /\ world_wf w' /\ confined s s' /\
    (vector <> kSyscallVector \/ findService d n = None ->
     st = kStatusUnsupported /\ d' = d /\ w' = w /\ s' = set_registers (<[4%nat := st]> (registers s)) s).
Proof.
  pose proof (Dispatcher_confined s vector bus (d, s, w) (confined_refl s)) as HC.
  change (handle vector bus (d, s, w)) with (Dispatcher_handle vector bus (d, s, w)).
  assert (Hreg : forall s1 st, state_wf s1 -> registers (set_registers (<[4%nat := st]> (registers s1)) s1) !! 4%nat = Some st).
  { intros s1 st H1. cbn. apply list_lookup_insert_eq. rewrite (proj1 (wf_registers _ H1)). cbn. lia. }
  assert (Hun : vector <> kSyscallVector \/ findService d n = None -> _) by exact (dispatch_unsupported d vector bus s w n Hs Hn).
  destruct (decide (vector = kSyscallVector)) as [->|Hv]; [destruct (findService d n) as [service|] eqn:Hf|].
  - destruct (service_call_run d n service bus s w Hd Hs Hw Hn Hf) as (r & st & e' & s' & w' & _ & Hst & Hok & _ & He' & Hs' & Hw' & Hrun).
    rewrite Hrun in HC |- *. destruct HC as [_ HC].
    exists (with_service_number n r), st, (mkDispatcher (services_ d) e'), (set_registers (<[4%nat := st]> (registers s')) s'), w'.
    repeat (split; [first [reflexivity | assumption | apply Hreg; assumption | apply set_status_wf; assumption]|]).
    intros [H|H]; [contradiction | discriminate].
  - destruct (Hun (or_intror eq_refl)) as (r & Hrun & Hst & _). rewrite Hrun in HC |- *. destruct HC as [_ HC].
    do 5 eexists. repeat (split; [first [reflexivity | exact Hst | exact unsupported_status | apply Hreg; assumption |
      apply set_status_wf; [assumption | exact unsupported_status] | assumption]|]). auto.
  - destruct (Hun (or_introl Hv)) as (r & Hrun & Hst & _). rewrite Hrun in HC |- *. destruct HC as [_ HC].
    do 5 eexists. repeat (split; [first [reflexivity | exact Hst | exact unsupported_status | apply Hreg; assumption |
      apply set_status_wf; [assumption | exact unsupported_status] | assumption]|]). auto.
Qed.

(** (C19) What a program writes to a file it reads back.  A write call and a
    later read call of the same number of bytes at the same offset of the same
    file, from and to any two buffers in user data and in any two states of the
    machine, both succeed and report the number of bytes; the write changes no
    memory, and after the read the second buffer holds exactly the bytes the
    first one held, with all other memory unchanged. *)
Theorem filesystem_write_then_read (e : ZeroFS) (s s2 : CPUState) (w w2 : World) (bus bus2 : option nat)
    (key : string) (offset buffer buffer2 count : Z) (old : list Z)
    (He : fs_wf e) (Hold : e !! key = Some (file old)) (Hmax : offset + count <= vector_max_size)
    (Hs : state_wf s) (Hw : world_wf w) (Hn : registers s !! 1%nat = Some kFilesystemWriteSyscall)
    (R : transfer_request s key offset buffer count)
    (Hs2 : state_wf s2) (Hw2 : world_wf w2) (Hn2 : registers s2 !! 1%nat = Some kFilesystemReadSyscall)
    (R2 : transfer_request s2 key offset buffer2 count) :
  exists r1 d1 s1 r3 s3,
    handle kSyscallVector bus (new_ProtectedSyscallDispatcher e, s, w) = (Ret r1, (d1, s1, w)) /\
    registers s1 !! 4%nat = Some kStatusOk /\ registers s1 !! 2%nat = Some count /\ memory s1 = memory s /\
    handle kSyscallVector bus2 (d1, s2, w2) = (Ret r3, (d1, s3, w2)) /\
    registers s3 !! 4%nat = Some kStatusOk /\ registers s3 !! 2%nat = Some count /\
    bytes_at (memory s3) buffer2 count = bytes_at (memory s) buffer count /\
    (forall j, (j < Z.to_nat buffer2 \/ Z.to_nat (buffer2 + count) <= j)%nat -> memory s3 !! j = memory s2 !! j).
Proof.
  destruct (buffer_in_memory s Hs key offset buffer count R) as [Hb Hin].
  destruct (buffer_in_memory s2 Hs2 key offset buffer2 count R2) as [Hb2 Hin2].
  pose proof (proj1 (tr_range _ _ _ _ _ R)) as Hc. set (data := bytes_at (memory s) buffer count).
  assert (Hlen : Z.of_nat (length data) = count) by (apply bytes_length; assumption).
  assert (Hdata : byte_list data) by (apply Forall_take, Forall_drop, Hs).
  set (new := overwrite (Z.to_nat offset) data old).
  destruct (filesystem_write_run e s w Hs key offset buffer count R old Hold Hmax) as (r & Hwrite & Hst).
  assert (Hnew : byte_list new).
  { unfold new, overwrite. apply Forall_app. split; [apply Forall_resize; [words | exact (He _ _ Hold)]|].
    apply Forall_app. split; [exact Hdata | apply Forall_drop, (He _ _ Hold)]. }
  assert (He1 : fs_wf (<[key := file new]> e)) by (apply insert_fs_wf; [exact He | exact Hnew]).
  destruct (dispatch_filesystem _ _ _ _ _ _ _ _ bus He Hs Hw Hn eq_refl Hwrite Hst) as [r1 Hrun1].
  assert (Hback : take (Z.to_nat count) (drop (Z.to_nat offset) new) = data).
  { replace (Z.to_nat count) with (length data) by lia. apply take_overwrite. }
  assert (Hin2' : in_range (memory s2) buffer2 (Z.of_nat (length data))) by (rewrite Hlen; exact Hin2).
  pose proof (writeBytes_run (memory s2) buffer2 data Hin2') as Hmem. set (mem' := store_loop _ _ _ _) in Hmem.
  destruct (filesystem_read_run (<[key := file new]> e) s2 w2 Hs2 key offset buffer2 count R2 new
    ltac:(rewrite lookup_insert, decide_True by reflexivity; reflexivity) mem') as (r2 & Hread & Hst2);
    [rewrite Hback; exact Hmem | exact Hnew|]. rewrite Hback in Hread.
  destruct (dispatch_filesystem _ _ _ _ _ _ _ _ bus2 He1 Hs2 Hw2 Hn2 eq_refl Hread Hst2) as [r3 Hrun3].
  assert (Hregs : forall (s' : CPUState) v st, state_wf s' ->
            <[4%nat := st]> (<[2%nat := v]> (registers s')) !! 4%nat = Some st /\
            <[4%nat := st]> (<[2%nat := v]> (registers s')) !! 2%nat = Some v).
  { intros s' v st H. pose proof (proj1 (wf_registers _ H)) as Hl. change kRegisterCount with 8%nat in Hl. split.
    - apply list_lookup_insert_eq. rewrite length_insert. lia.
    - rewrite list_lookup_insert_ne by lia. apply list_lookup_insert_eq. lia. }
  do 5 eexists. split; [exact Hrun1|]. split; [apply Hregs, Hs|]. split; [apply Hregs, Hs|]. split; [reflexivity|].
  split; [exact Hrun3|]. cbn [registers memory set_registers set_memory]. rewrite Hlen.
  split; [apply Hregs, Hs2|]. split; [apply Hregs, Hs2|]. split.
  - apply readBytes_writeBytes in Hmem; [|exact Hb2]. rewrite Hlen in Hmem. apply readBytes_inv in Hmem as [_ Hmem]; [|exact Hb2].
    symmetry. exact Hmem.
  - intros j Hj. apply (writeBytes_frame _ _ _ _ _ Hmem). lia.
Qed.

(** ** Examples *)

(** A state with a request block at 0, a path at 64 and a buffer. *)
Definition sample_memory (buffer : Z) (bytes : list Z) : Memory :=
  let put a l mem := store_loop mem (Z.to_nat a) (length l) (at_ l) in
  let word a v mem := match Memory_writeI64 mem a v Little with Ret mem => mem | Throw _ => mem end in
  put buffer bytes (put 64 [47; 100; 97; 116; 97; 47; 97]
    (word 32 3 (word 24 buffer (word 16 1 (word 8 7 (word 0 64 (memory new_CPUState))))))).

Definition sample_state (service buffer : Z) (bytes : list Z) : CPUState :=
  set_registers [80; service; 0; 0; 0; 0; 0; 0] (set_memory (sample_memory buffer bytes) new_CPUState).

Definition sample_fs : ZeroFS := final (fs_run (PutFile "/data/a" [7])) new_ZeroFS.

Lemma sample_state_wf service buffer bytes :
  is_i64 service -> bool_decide (byte_list (sample_memory buffer bytes)) = true ->
  bool_decide (Memory_size (sample_memory buffer bytes) = kDefaultMemorySize) = true ->
  state_wf (sample_state service buffer bytes).
Proof.
  intros Hn Hb Hl. apply bool_decide_eq_true in Hb, Hl. destruct new_CPUState_wf. constructor; try assumption.
  split; [reflexivity|]. repeat (constructor; [words || exact Hn|]). constructor.
Qed.

Lemma sample_fs_wf : fs_wf sample_fs.
Proof. apply (bool_decide_unpack _). vm_compute. exact Logic.I. Qed.

Lemma sample_request service buffer bytes :
  bool_decide (request_path (sample_memory buffer bytes) 0 = inl "/data/a"%string) = true ->
  bool_decide (request_transfer (sample_memory buffer bytes) 0 = Some (1, buffer, 3)) = true ->
  isUserDataRange buffer 3 = true -> transfer_request (sample_state service buffer bytes) "/data/a" 1 buffer 3.
Proof.
  intros Hp Ht Hr. apply bool_decide_eq_true in Hp, Ht. constructor; [|lia | split; [lia | exact Hr]].
  exists 0, "/data/a"%string. split; [reflexivity|]. split; [exact Hp|]. split; [vm_compute; reflexivity | exact Ht].
Qed.

Example system_call_contract_witness :
  let s := sample_state kExitSyscall 128 [] in
  exists r st d' s' w', handle kSyscallVector None (new_ProtectedSyscallDispatcher new_ZeroFS, s, empty_world) =
    (Ret r, (d', s', w')) /\ is_status st /\ registers s' !! 4%nat = Some st /\ confined s s'.
Proof.
  intros s. assert (Hs : state_wf s) by (apply sample_state_wf; [split; vm_compute; congruence | vm_compute; reflexivity..]).
  destruct (system_call_contract (TS := runtime_trusted) (new_ProtectedSyscallDispatcher new_ZeroFS) s empty_world kSyscallVector kExitSyscall None
    new_ZeroFS_wf Hs empty_world_wf eq_refl) as (r & st & d' & s' & w' & Hrun & _ & Hok & H4 & _ & _ & _ & _ & Hc & _).
  exists r, st, d', s', w'. split; [exact Hrun|]. split; [exact Hok|]. split; [exact H4 | exact Hc].
Defined.

Example filesystem_write_then_read_witness :
  let s := sample_state kFilesystemWriteSyscall 128 [10; 20; 30] in
  let s2 := sample_state kFilesystemReadSyscall 256 [] in
  exists r1 d1 s1 r3 s3,
    handle kSyscallVector None (new_ProtectedSyscallDispatcher sample_fs, s, empty_world) = (Ret r1, (d1, s1, empty_world)) /\
    handle kSyscallVector None (d1, s2, empty_world) = (Ret r3, (d1, s3, empty_world)) /\
    bytes_at (memory s3) 256 3 = [10; 20; 30].
Proof.
  intros s s2. assert (Hs : state_wf s) by (apply sample_state_wf; [split; vm_compute; congruence | vm_compute; reflexivity..]).
  assert (Hs2 : state_wf s2) by (apply sample_state_wf; [split; vm_compute; congruence | vm_compute; reflexivity..]).
  assert (R : transfer_request s "/data/a" 1 128 3) by (apply sample_request; vm_compute; reflexivity).
  assert (R2 : transfer_request s2 "/data/a" 1 256 3) by (apply sample_request; vm_compute; reflexivity).
  assert (Hold : sample_fs !! "/data/a"%string = Some (file [7])) by (vm_compute; reflexivity).
  destruct (filesystem_write_then_read sample_fs s s2 empty_world empty_world None None "/data/a" 1 128 256 3 [7]
    sample_fs_wf Hold ltac:(vm_compute; discriminate) Hs empty_world_wf eq_refl R Hs2 empty_world_wf eq_refl R2)
    as (r1 & d1 & s1 & r3 & s3 & Hrun1 & _ & _ & _ & Hrun2 & _ & _ & Hb & _).
  exists r1, d1, s1, r3, s3. split; [exact Hrun1|]. split; [exact Hrun2|]. rewrite Hb. vm_compute. reflexivity.
Defined.
