(* ===== verification/Assembler.v ===== *)
(** * The assembler: [src/assembler/Assembler.cpp]

    Lines, tokens, literals, the symbol pass, the emitting pass and the binary
    program made of the result.  [assembleFile], which reads a file and calls
    [assembleString], is in [Disk].  The functions of the C++ library it
    uses on text are in [Text]. *)

From S2P Require Import Prelude Words Text Memory ISA Binary.
Open Scope Z_scope.

(** ** Lines and tokens *)

Fixpoint trim_start (s : string) : string :=
  match s with
  | EmptyString => EmptyString
  | String c rest => if isspace c then trim_start rest else s
  end.

Fixpoint trim_end (s : string) : string :=
  match s with
  | EmptyString => EmptyString
  | String c rest =>
      let rest := trim_end rest in
      if empty rest && isspace c then EmptyString else String c rest
  end.

Definition trim (text : string) : string := trim_end (trim_start text).

Fixpoint lowerCopy (text : string) : string :=
  match text with
  | EmptyString => EmptyString
  | String c rest => String (tolower c) (lowerCopy rest)
  end.

Fixpoint splitLines (source : string) : list string :=
  match source with
  | EmptyString => []
  | String c rest =>
      if bool_decide (c = newline) then EmptyString :: splitLines rest
      else match splitLines rest with
           | [] => [String c EmptyString]
           | line :: lines => String c line :: lines
           end
  end.

Fixpoint remove_comment (insideString escaped : bool) (line : string) : string :=
  match line with
  | EmptyString => EmptyString
  | String ch rest =>
      if insideString then
        String ch (if escaped then remove_comment true false rest
                   else if bool_decide (ch = "\"%char) then remove_comment true true rest
                   else if bool_decide (ch = quote) then remove_comment false false rest
                   else remove_comment true false rest)
      else if bool_decide (ch = quote) then String ch (remove_comment true false rest)
      else if bool_decide (ch = ";"%char) then EmptyString
      else String ch (remove_comment false false rest)
  end.

Definition removeComment (line : string) : string := remove_comment false false line.

Definition isRegisterToken (text : string) : bool :=
  match text with
  | String first (String digit EmptyString) => bool_decide (toupper first = "R"%char) && in_class 48 55 digit
  | _ => false
  end.

Definition at_line (lineNumber : Z) : string := " at line " +:+ pretty lineNumber.

Definition register_of_index (index : nat) : RegisterName :=
  match index with
  | 0 => R0 | 1 => R1 | 2 => R2 | 3 => R3 | 4 => R4 | 5 => R5 | 6 => R6 | 7 => R7 | _ => Count
  end%nat.

Definition parseRegister (text : string) (lineNumber : Z) : outcome RegisterName :=
  if negb (isRegisterToken text)
  then throw (RuntimeError ("Invalid register '" +:+ text +:+ "'" +:+ at_line lineNumber))
  else match text with
       | String _ (String digit _) => mret (register_of_index (nat_of_ascii digit - 48))
       | _ => throw (OutOfRange "string")
       end.

Definition label_char (ch : ascii) : bool := isalnum ch || bool_decide (ch = "_"%char).

Definition isValidLabelName (text : string) : bool :=
  match text with
  | EmptyString => false
  | String first _ =>
      if negb (isalpha first) && negb (bool_decide (first = "_"%char)) then false else all_chars label_char text
  end.

Definition isReservedDirectiveName (text : string) : bool :=
  bool_decide (lowerCopy text ∈ ["text"; "data"; "byte"; "word"; "qword"; "string"; "entry"]%string).

Definition requireValidLabelName (text : string) (lineNumber : Z) : outcome unit :=
  _ ← throw_if (negb (isValidLabelName text))
        (RuntimeError ("Invalid label name '" +:+ text +:+ "'" +:+ at_line lineNumber));
  _ ← throw_if (isRegisterToken text)
        (RuntimeError ("Label name cannot be register name '" +:+ text +:+ "'" +:+ at_line lineNumber));
  _ ← throw_if (isValidOpcode (opcodeFromString text))
        (RuntimeError ("Label name cannot be opcode name '" +:+ text +:+ "'" +:+ at_line lineNumber));
  throw_if (isReservedDirectiveName text)
    (RuntimeError ("Label name cannot be directive name '" +:+ text +:+ "'" +:+ at_line lineNumber)).

(** [line] and [label] are updated through references: the line after the call,
    and the label when the call returns [true]. *)
Definition tryConsumeLabel (line : string) : string * option string :=
  let line := trim line in
  match span (fun c => negb (bool_decide (c = ":"%char))) line with
  | (before, String _ after) =>
      let candidate := trim before in
      if negb (isValidLabelName candidate) then (line, None) else (trim after, Some candidate)
  | (_, EmptyString) => (line, None)
  end.

Definition tryParseInteger (text : string) : option Z :=
  if empty text then None
  else match stoll read_magnitude text with
       | Ret (value, parsed) => if negb (parsed =? String.length text)%nat then None else Some value
       | Throw _ => None
       end.

Definition parseInteger (text : string) (lineNumber : Z) : outcome Z :=
  match tryParseInteger text with
  | None => throw (RuntimeError ("Invalid or out-of-range integer '" +:+ text +:+ "'" +:+ at_line lineNumber))
  | Some value => mret value
  end.

Definition push_back (s : string) (ch : ascii) : string := s +:+ String ch EmptyString.

Fixpoint split_operands (text : string) (operands : list string) (current : string) (insideMemoryAddress : bool)
  : outcome (list string) :=
  match text with
  | EmptyString =>
      if insideMemoryAddress then throw (RuntimeError "Unclosed memory-address bracket")
      else
        let finalValue := trim current in
        mret (if negb (empty finalValue) then operands ++ [finalValue] else operands)
  | String ch rest =>
      if bool_decide (ch = "["%char) then
        if insideMemoryAddress then throw (RuntimeError "Nested memory address")
        else split_operands rest operands (push_back current ch) true
      else if bool_decide (ch = "]"%char) then
        if negb insideMemoryAddress then throw (RuntimeError "Unmatched memory-address bracket")
        else split_operands rest operands (push_back current ch) false
      else if bool_decide (ch = ","%char) && negb insideMemoryAddress then
        let value := trim current in
        if empty value then throw (RuntimeError "Empty comma-separated value")
        else split_operands rest (operands ++ [value]) EmptyString insideMemoryAddress
      else split_operands rest operands (push_back current ch) insideMemoryAddress
  end.

Definition splitOperands (text : string) : outcome (list string) := split_operands text [] EmptyString false.

(** ** Data directives *)

(** The loop over the characters after the opening quote. *)
Fixpoint string_literal (s : string) (result : list Z) (lineNumber : Z) : outcome (list Z) :=
  match s with
  | EmptyString => throw (RuntimeError ("Unterminated string literal" +:+ at_line lineNumber))
  | String ch rest =>
      if bool_decide (ch = quote) then
        if negb (empty (trim rest))
        then throw (RuntimeError ("Unexpected text after .string literal" +:+ at_line lineNumber))
        else mret result
      else if negb (bool_decide (ch = "\"%char))
      then string_literal rest (result ++ [Z.of_nat (nat_of_ascii ch)]) lineNumber
      else match rest with
           | EmptyString => throw (RuntimeError ("Incomplete string escape" +:+ at_line lineNumber))
           | String escape rest =>
               let push byte := string_literal rest (result ++ [byte]) lineNumber in
               if bool_decide (escape = "n"%char) then push 10
               else if bool_decide (escape = "r"%char) then push 13
               else if bool_decide (escape = "t"%char) then push 9
               else if bool_decide (escape = "0"%char) then push 0
               else if bool_decide (escape = "\"%char) then push 92
               else if bool_decide (escape = quote) then push 34
               else throw (RuntimeError ("Unsupported string escape" +:+ at_line lineNumber))
           end
  end.

Definition parseStringLiteral (text : string) (lineNumber : Z) : outcome (list Z) :=
  match trim text with
  | String first rest =>
      if bool_decide (first = quote) then string_literal rest [] lineNumber
      else throw (RuntimeError (".string requires a quoted string" +:+ at_line lineNumber))
  | EmptyString => throw (RuntimeError (".string requires a quoted string" +:+ at_line lineNumber))
  end.

Definition appendLittleEndian (output : list Z) (value : Z) (width : nat) : list Z :=
  output ++ ((fun index => byte_at value (8 * Z.of_nat index)) <$> seq 0 width).

Fixpoint numeric_values (values : list string) (width : nat) (minimum maximum lineNumber : Z) (result : list Z)
  : outcome (list Z) :=
  match values with
  | [] => mret result
  | valueText :: values =>
      value ← parseInteger valueText lineNumber;
      if (value <? minimum) || ((value >=? 0) && (u64 value >? maximum))
      then throw (RuntimeError ("Data value out of range '" +:+ valueText +:+ "'" +:+ at_line lineNumber))
      else numeric_values values width minimum maximum lineNumber (appendLittleEndian result (u64 value) width)
  end.

Definition parseNumericDirective (arguments : string) (width : nat) (minimum maximum lineNumber : Z)
  : outcome (list Z) :=
  values ← splitOperands arguments;
  _ ← throw_if (bool_decide (values = []))
        (RuntimeError ("Data directive requires at least one value" +:+ at_line lineNumber));
  _ ← throw_if (Z.of_nat (length values) >? UINT64_MAX / Z.of_nat width)
        (RuntimeError ("Data directive size overflow" +:+ at_line lineNumber));
  numeric_values values width minimum maximum lineNumber [].

Definition parseDataDirective (line : string) (lineNumber : Z) : outcome (list Z) :=
  let '(directive, rest) := next_word line in
  let arguments := trim (rest_of_line rest) in
  let lowered := lowerCopy directive in
  if bool_decide (lowered = ".byte"%string) then parseNumericDirective arguments 1 (-128) 255 lineNumber
  else if bool_decide (lowered = ".word"%string) then parseNumericDirective arguments 2 (-32768) 65535 lineNumber
  else if bool_decide (lowered = ".qword"%string)
  then parseNumericDirective arguments 8 (- 2 ^ 63) UINT64_MAX lineNumber
  else if bool_decide (lowered = ".string"%string) then parseStringLiteral arguments lineNumber
  else throw (RuntimeError ("Unknown data directive '" +:+ directive +:+ "'" +:+ at_line lineNumber)).

(** ** Sections and the entry directive *)

Inductive AssemblySection := Text | Data.

#[export] Instance AssemblySection_eq_dec : EqDecision AssemblySection.
Proof. solve_decision. Defined.

Definition isSectionDirective (line : string) : bool :=
  let lowered := lowerCopy (trim line) in
  bool_decide (lowered = ".text"%string) || bool_decide (lowered = ".data"%string).

Definition sectionFromDirective (line : string) : AssemblySection :=
  if bool_decide (lowerCopy (trim line) = ".data"%string) then Data else Text.

Definition isEntryDirective (line : string) : bool :=
  bool_decide (lowerCopy (next_word (trim line)).1 = ".entry"%string).

Definition parseEntryDirective (line : string) (lineNumber : Z) : outcome string :=
  let '(directive, rest) := next_word (trim line) in
  let '(name, rest) := next_word rest in
  let '(extra, _) := next_word rest in
  _ ← throw_if (negb (bool_decide (lowerCopy directive = ".entry"%string)) || empty name || negb (empty extra))
        (RuntimeError (".entry requires exactly one code label" +:+ at_line lineNumber));
  _ ← requireValidLabelName name lineNumber;
  mret name.

(** ** The symbol pass *)

Record SymbolPassResult := {
  code_labels : LabelTable;
  sym_data_labels : LabelTable;
  sym_data_size : Z;
  has_entry : bool;
  sym_entry_label : string;
  entry_line : Z;
  sym_entry_instruction : Z;
}.

Definition new_SymbolPassResult : SymbolPassResult :=
  {| code_labels := ∅; sym_data_labels := ∅; sym_data_size := 0; has_entry := false; sym_entry_label := EmptyString;
     entry_line := 0; sym_entry_instruction := 0 |}.

Definition set_labels (code data : LabelTable) (s : SymbolPassResult) : SymbolPassResult :=
  {| code_labels := code; sym_data_labels := data; sym_data_size := sym_data_size s; has_entry := has_entry s;
     sym_entry_label := sym_entry_label s; entry_line := entry_line s; sym_entry_instruction := sym_entry_instruction s |}.
Definition set_entry (label : string) (line : Z) (s : SymbolPassResult) : SymbolPassResult :=
  {| code_labels := code_labels s; sym_data_labels := sym_data_labels s; sym_data_size := sym_data_size s; has_entry := true;
     sym_entry_label := label; entry_line := line; sym_entry_instruction := sym_entry_instruction s |}.
Definition set_resolved (size instruction : Z) (s : SymbolPassResult) : SymbolPassResult :=
  {| code_labels := code_labels s; sym_data_labels := sym_data_labels s; sym_data_size := size; has_entry := has_entry s;
     sym_entry_label := sym_entry_label s; entry_line := entry_line s; sym_entry_instruction := instruction |}.

Definition requireUniqueSymbol (label : string) (lineNumber : Z) (symbols : SymbolPassResult) : outcome unit :=
  throw_if (bool_decide (is_Some (code_labels symbols !! label)) || bool_decide (is_Some (sym_data_labels symbols !! label)))
    (RuntimeError ("Duplicate label '" +:+ label +:+ "'" +:+ at_line lineNumber)).

(** The local variables of the loop over the lines. *)
Record PassState := { ps_symbols : SymbolPassResult; ps_section : AssemblySection; ps_index : Z; ps_offset : Z }.

Definition define_label (label : string) (st : PassState) : SymbolPassResult :=
  let s := ps_symbols st in
  match ps_section st with
  | Text => set_labels (<[label := ps_index st]> (code_labels s)) (sym_data_labels s) s
  | Data => set_labels (code_labels s) (<[label := kUserDataBase + ps_offset st]> (sym_data_labels s)) s
  end.

Definition with_symbols (s : SymbolPassResult) (st : PassState) : PassState :=
  {| ps_symbols := s; ps_section := ps_section st; ps_index := ps_index st; ps_offset := ps_offset st |}.

(** [while (tryConsumeLabel(line, label))]: every turn takes a colon off the
    line, so its length bounds the number of turns. *)
Fixpoint collect_labels (fuel : nat) (line : string) (hadLabel : bool) (lineNumber : Z) (st : PassState)
  : outcome (string * bool * PassState) :=
  match fuel with
  | O => mret (line, hadLabel, st)
  | S fuel =>
      match tryConsumeLabel line with
      | (line, None) => mret (line, hadLabel, st)
      | (line, Some name) =>
          _ ← requireValidLabelName name lineNumber;
          _ ← requireUniqueSymbol name lineNumber (ps_symbols st);
          collect_labels fuel (trim line) true lineNumber (with_symbols (define_label name st) st)
      end
  end.

Definition label_fuel (line : string) : nat := S (String.length line).

(** The body of the loop over the lines. *)
Definition collect_line (text : string) (lineNumber : Z) (st : PassState) : outcome PassState :=
  let line := trim (removeComment text) in
  '(line, hadLabel, st) ← collect_labels (label_fuel line) line false lineNumber st;
  if empty line then mret st
  else if isSectionDirective line then
    _ ← throw_if hadLabel
          (RuntimeError ("Section directive cannot share a line with a label" +:+ at_line lineNumber));
    mret {| ps_symbols := ps_symbols st; ps_section := sectionFromDirective line; ps_index := ps_index st;
            ps_offset := ps_offset st |}
  else if isEntryDirective line then
    _ ← throw_if hadLabel (RuntimeError (".entry cannot share a line with a label" +:+ at_line lineNumber));
    _ ← throw_if (has_entry (ps_symbols st))
          (RuntimeError ("Duplicate .entry directive" +:+ at_line lineNumber +:+ "; first declared" +:+
                         at_line (entry_line (ps_symbols st))));
    name ← parseEntryDirective line lineNumber;
    mret (with_symbols (set_entry name lineNumber (ps_symbols st)) st)
  else if bool_decide (ps_section st = Data) then
    _ ← throw_if (negb (front_is "." line))
          (RuntimeError ("Instruction is not allowed in .data" +:+ at_line lineNumber));
    bytes ← parseDataDirective line lineNumber;
    _ ← throw_if (Z.of_nat (length bytes) >? kUserDataSize - ps_offset st)
          (RuntimeError ("Initialized data exceeds the User data region" +:+ at_line lineNumber));
    mret {| ps_symbols := ps_symbols st; ps_section := ps_section st; ps_index := ps_index st;
            ps_offset := ps_offset st + Z.of_nat (length bytes) |}
  else
    _ ← throw_if (front_is "." line)
          (RuntimeError ("Data directive is only allowed in .data" +:+ at_line lineNumber));
    mret {| ps_symbols := ps_symbols st; ps_section := ps_section st; ps_index := ps_index st + 1;
            ps_offset := ps_offset st |}.

Fixpoint collect_lines (lines : list string) (lineNumber : Z) (st : PassState) : outcome PassState :=
  match lines with
  | [] => mret st
  | line :: lines => st ← collect_line line lineNumber st; collect_lines lines (lineNumber + 1) st
  end.

Definition collectSymbols (lines : list string) : outcome SymbolPassResult :=
  st ← collect_lines lines 1 {| ps_symbols := new_SymbolPassResult; ps_section := Text; ps_index := 0; ps_offset := 0 |};
  let symbols := ps_symbols st in
  if has_entry symbols then
    _ ← throw_if (bool_decide (is_Some (sym_data_labels symbols !! sym_entry_label symbols)))
          (RuntimeError ("Executable entry label '" +:+ sym_entry_label symbols +:+ "' refers to initialized data"));
    match code_labels symbols !! sym_entry_label symbols with
    | None => throw (RuntimeError ("Undefined executable entry label: " +:+ sym_entry_label symbols))
    | Some instruction => mret (set_resolved (ps_offset st) instruction symbols)
    end
  else mret (set_resolved (ps_offset st) (sym_entry_instruction symbols) symbols).

(** ** Operands and instructions *)

(** The text between the brackets of a memory operand. *)
Definition bracketed (operand : string) : option string :=
  match operand with
  | String first rest =>
      let body := String.length rest in
      if bool_decide (first = "["%char) && (2 <=? body)%nat
         && bool_decide (String.get (body - 1) rest = Some "]"%char)
      then Some (String.substring 0 (body - 1) rest) else None
  | EmptyString => None
  end.

Definition parseOperand (text : string) (lineNumber : Z) (dataLabels : LabelTable) : outcome Operand :=
  let operand := trim text in
  if empty operand then throw (RuntimeError ("Empty operand" +:+ at_line lineNumber))
  else if isRegisterToken operand then reg ← parseRegister operand lineNumber; mret (registerOperand reg)
  else
    match bracketed operand with
    | Some inner =>
        let inner := trim inner in
        if empty inner then throw (RuntimeError ("Empty memory address" +:+ at_line lineNumber))
        else if isRegisterToken inner
        then reg ← parseRegister inner lineNumber; mret (registerIndirectAddress reg)
        else
          match tryParseInteger inner with
          | Some address =>
              if address <? 0
              then throw (RuntimeError ("Memory address cannot be negative" +:+ at_line lineNumber))
              else mret (memoryAddress (u64 address))
          | None =>
              _ ← requireValidLabelName inner lineNumber;
              match dataLabels !! inner with
              | None => throw (RuntimeError ("Undefined data label '" +:+ inner +:+ "'" +:+ at_line lineNumber))
              | Some address => mret (memoryAddress address)
              end
          end
    | None =>
        match tryParseInteger operand with
        | Some value => mret (immediate value)
        | None =>
            _ ← requireValidLabelName operand lineNumber;
            if bool_decide (is_Some (dataLabels !! operand))
            then throw (RuntimeError ("Data label '" +:+ operand +:+ "' must be used as [" +:+ operand +:+ "]"
                                      +:+ at_line lineNumber))
            else mret (label operand)
        end
    end.

Definition parseInstructionLine (line : string) (lineNumber : Z) (dataLabels : LabelTable) : outcome Instruction :=
  let '(opcodeText, rest) := next_word line in
  if empty opcodeText then throw (RuntimeError ("Missing opcode" +:+ at_line lineNumber))
  else
    let op := opcodeFromString opcodeText in
    if negb (isValidOpcode op)
    then throw (RuntimeError ("Invalid opcode '" +:+ opcodeText +:+ "'" +:+ at_line lineNumber))
    else
      let operandText := trim (rest_of_line rest) in
      if empty operandText then mret {| opcode := op; dst := none; src := none |}
      else
        operands ← splitOperands operandText;
        match operands with
        | [d] => d ← parseOperand d lineNumber dataLabels; mret {| opcode := op; dst := d; src := none |}
        | [d; s] =>
            d ← parseOperand d lineNumber dataLabels;
            s ← parseOperand s lineNumber dataLabels;
            mret {| opcode := op; dst := d; src := s |}
        | _ => throw (RuntimeError ("Too many operands" +:+ at_line lineNumber +:+ ": " +:+ line))
        end.

(** ** The emitting pass *)

Record AssembledProgram := {
  instructions : list Instruction;
  instruction_source_lines : list Z;
  ap_labels : LabelTable;
  data_labels : LabelTable;
  ap_data_base : Z;
  ap_data : list Z;
  has_explicit_entry : bool;
  entry_label : string;
  entry_instruction : Z;
}.

Fixpoint skip_labels (fuel : nat) (line : string) : string :=
  match fuel with
  | O => line
  | S fuel => match tryConsumeLabel line with
              | (line, None) => line
              | (line, Some _) => skip_labels fuel (trim line)
              end
  end.

(** What the loop changes: the section, the instructions with their lines, and
    the data. *)
Record EmitState := { es_section : AssemblySection; es_instructions : list Instruction; es_lines : list Z; es_data : list Z }.

Definition emit_line (text : string) (lineNumber : Z) (dataLabels : LabelTable) (st : EmitState) : outcome EmitState :=
  let line := trim (removeComment text) in
  let line := skip_labels (label_fuel line) line in
  if empty line then mret st
  else if isSectionDirective line then
    mret {| es_section := sectionFromDirective line; es_instructions := es_instructions st; es_lines := es_lines st;
            es_data := es_data st |}
  else if isEntryDirective line then mret st
  else if bool_decide (es_section st = Data) then
    bytes ← parseDataDirective line lineNumber;
    mret {| es_section := es_section st; es_instructions := es_instructions st; es_lines := es_lines st;
            es_data := es_data st ++ bytes |}
  else
    instruction ← parseInstructionLine line lineNumber dataLabels;
    mret {| es_section := es_section st; es_instructions := es_instructions st ++ [instruction];
            es_lines := es_lines st ++ [lineNumber]; es_data := es_data st |}.

Fixpoint emit_lines (lines : list string) (lineNumber : Z) (dataLabels : LabelTable) (st : EmitState) : outcome EmitState :=
  match lines with
  | [] => mret st
  | line :: lines => st ← emit_line line lineNumber dataLabels st; emit_lines lines (lineNumber + 1) dataLabels st
  end.

Definition emitProgram (lines : list string) (symbols : SymbolPassResult) : outcome AssembledProgram :=
  st ← emit_lines lines 1 (sym_data_labels symbols)
         {| es_section := Text; es_instructions := []; es_lines := []; es_data := [] |};
  mret {| instructions := es_instructions st; instruction_source_lines := es_lines st;
          ap_labels := code_labels symbols; data_labels := sym_data_labels symbols; ap_data_base := kUserDataBase;
          ap_data := es_data st; has_explicit_entry := has_entry symbols; entry_label := sym_entry_label symbols;
          entry_instruction := sym_entry_instruction symbols |}.

Definition assembleString (source : string) : outcome AssembledProgram :=
  let lines := splitLines source in
  symbols ← collectSymbols lines;
  emitProgram lines symbols.

(** ** The binary program *)

Definition resolvedEntryInstruction (p : AssembledProgram) : Z := entry_instruction p.

Definition toBinaryProgram_at (entryInstruction : Z) (p : AssembledProgram) : outcome BinaryProgram :=
  _ ← throw_if (bool_decide (instructions p = []))
        (RuntimeError "Cannot emit an executable with an empty text section");
  _ ← throw_if (entryInstruction >=? Z.of_nat (length (instructions p)))
        (RuntimeError "Executable entry instruction is outside the text section");
  code ← encodeProgram (instructions p) (ap_labels p);
  _ ← throw_if ((Z.of_nat (length code) >? UINT32_MAX) || (Z.of_nat (length (ap_data p)) >? UINT32_MAX)
                || (ap_data_base p >? UINT32_MAX))
        (RuntimeError "Assembled executable exceeds binary format limits");
  mret {| header := {| major_version := kMajorVersion; minor_version := kMinorVersion; endianness := BE_Little;
                       entry_point := u32 (instructionIndexToAddress entryInstruction);
                       code_size := u32 (Z.of_nat (length code)); data_base := u32 (ap_data_base p);
                       data_size := u32 (Z.of_nat (length (ap_data p))) |};
          code := code; data := ap_data p |}.

Definition toBinaryProgram (p : AssembledProgram) : outcome BinaryProgram :=
  toBinaryProgram_at (resolvedEntryInstruction p) p.
