(* ===== verification/AssemblerLaws.v ===== *)
(** * What the assembler guarantees

    [assemble_well_formed]: the two passes agree on every source, so labels,
    data addresses and the entry point of an assembled program refer to what was
    emitted.  [toBinaryProgram_correct]: which assembled programs become binary
    programs, and that those are programs of the container format whose code
    decodes to the instructions.  [assemble_listing]: assembling the listing of a
    program gives the program back. *)

From S2P Require Import Prelude Words Text Memory ISA Binary Assembler.
From Stdlib Require Import Sorted.
Open Scope Z_scope.

(** ** Well-formed assembled programs *)

(** A name that may be a label. *)
Record label_ok (name : string) : Prop := {
  lo_name : isValidLabelName name = true;
  lo_register : isRegisterToken name = false;
  lo_opcode : opcodeFromString name = Invalid;
  lo_directive : isReservedDirectiveName name = false;
}.

Definition register_ok (reg : RegisterName) : Prop := reg <> Count.

(** An operand the assembler makes, given the data labels: addresses fit a signed
    word, and a label operand is not the name of data. *)
Definition operand_ok (dataLabels : LabelTable) (o : Operand) : Prop :=
  match o with
  | registerOperand reg | registerIndirectAddress reg => register_ok reg
  | immediate value => is_i64 value
  | memoryAddress address => 0 <= address < 2 ^ 63
  | label name => label_ok name /\ dataLabels !! name = None
  | none => True
  end.

Record instruction_ok (dataLabels : LabelTable) (i : Instruction) : Prop := {
  io_opcode : opcode i <> Invalid;
  io_dst : operand_ok dataLabels (dst i);
  io_src : operand_ok dataLabels (src i);
  io_shape : dst i = none -> src i = none;
}.

(** The statement of a line: without comment, labels and surrounding space. *)
Definition statement (text : string) : string :=
  let line := trim (removeComment text) in skip_labels (label_fuel line) line.

(** Instruction [i] comes from line [n] of the source: it is what the line says
    behind its labels. *)
Definition from_line (lines : list string) (dataLabels : LabelTable) (i : Instruction) (n : Z) : Prop :=
  1 <= n /\
  exists text, lines !! Z.to_nat (n - 1) = Some text /\ (tryConsumeLabel (statement text)).2 = None /\
               parseInstructionLine (statement text) n dataLabels = Ret i.

(** The names defined by the labels in front of a line. *)
Fixpoint line_labels (fuel : nat) (line : string) : list string :=
  match fuel with
  | O => []
  | S fuel => match tryConsumeLabel line with
              | (_, None) => []
              | (line, Some name) => name :: line_labels fuel (trim line)
              end
  end.

Definition defines (text name : string) : Prop :=
  let line := trim (removeComment text) in name ∈ line_labels (label_fuel line) line.

Definition initial_emit : EmitState := {| es_section := Text; es_instructions := []; es_lines := []; es_data := [] |}.

(** [name] is defined by a line of the source in the given section, and [value]
    is the position there: a function of what the lines before it emit. *)
Definition placed (lines : list string) (dataLabels : LabelTable) (section : AssemblySection)
    (position : EmitState -> Z) (name : string) (value : Z) : Prop :=
  exists pre text post es, lines = pre ++ text :: post /\ defines text name /\
    emit_lines pre 1 dataLabels initial_emit = Ret es /\ es_section es = section /\ value = position es.

Definition code_position (es : EmitState) : Z := Z.of_nat (length (es_instructions es)).
Definition data_position (es : EmitState) : Z := kUserDataBase + Z.of_nat (length (es_data es)).

Record assembled_ok (lines : list string) (p : AssembledProgram) : Prop := {
  ao_instructions : Forall (instruction_ok (data_labels p)) (instructions p);
  ao_source : Forall2 (from_line lines (data_labels p)) (instructions p) (instruction_source_lines p);
  ao_ordered : StronglySorted Z.lt (instruction_source_lines p);
  ao_labels : map_Forall (fun name index => label_ok name /\ 0 <= index <= Z.of_nat (length (instructions p))) (ap_labels p);
  ao_data_labels : map_Forall (fun name address => label_ok name /\
    kUserDataBase <= address <= kUserDataBase + Z.of_nat (length (ap_data p))) (data_labels p);
  ao_places : map_Forall (placed lines (data_labels p) Text code_position) (ap_labels p);
  ao_data_places : map_Forall (placed lines (data_labels p) Data data_position) (data_labels p);
  ao_disjoint : ap_labels p ##ₘ data_labels p;
  ao_data : byte_list (ap_data p) /\ Z.of_nat (length (ap_data p)) <= kUserDataSize /\ ap_data_base p = kUserDataBase;
  ao_entry : if has_explicit_entry p then ap_labels p !! entry_label p = Some (entry_instruction p)
             else entry_instruction p = 0;
}.

(** ** Lemmas: names and integers *)

Lemma requireValidLabelName_spec name n : requireValidLabelName name n = Ret tt <-> label_ok name.
Proof.
  unfold requireValidLabelName. rewrite !throw_if_bind_inv, throw_if_ret_inv. unfold isValidOpcode. split.
  - intros (H1 & H2 & H3 & H4). facts. constructor; assumption.
  - intros []. bool_goal. auto.
Qed.

Lemma tryParseInteger_range text v : tryParseInteger text = Some v -> is_i64 v.
Proof.
  unfold tryParseInteger. destruct (empty text); [discriminate|]. destruct (stoll read_magnitude text) as [[w n]|] eqn:E; [|discriminate].
  destruct (negb _); [discriminate|]. intros [= <-]. exact (stoll_range _ _ _ _ E).
Qed.

Lemma parseRegister_ok text n reg : parseRegister text n = Ret reg -> register_ok reg.
Proof.
  unfold parseRegister, isRegisterToken. destruct text as [|a [|b [|c t]]]; try discriminate.
  destruct (negb _) eqn:E; [discriminate|]. intros [= <-]. facts. unfold in_class in *.
  rewrite andb_true_iff, !Nat.leb_le in *. unfold register_ok, register_of_index.
  destruct (nat_of_ascii b - 48)%nat as [|[|[|[|[|[|[|[|k]]]]]]]] eqn:Eb; try discriminate. lia.
Qed.

(** ** Lemmas: labels in front of a line

    Taking a label off shortens the line, so [label_fuel] is enough for the
    loops. *)

Lemma trim_start_length s : (String.length (trim_start s) <= String.length s)%nat.
Proof. induction s as [|c s IH]; cbn; [lia|]. destruct (isspace c); cbn; lia. Qed.

Lemma trim_end_length s : (String.length (trim_end s) <= String.length s)%nat.
Proof. induction s as [|c s IH]; cbn; [lia|]. destruct (_ && _); cbn; lia. Qed.

Lemma trim_length s : (String.length (trim s) <= String.length s)%nat.
Proof. unfold trim. pose proof (trim_end_length (trim_start s)). pose proof (trim_start_length s). lia. Qed.

Lemma span_length p s : (String.length (span p s).1 + String.length (span p s).2 = String.length s)%nat.
Proof. induction s as [|c s IH]; cbn; [reflexivity|]. destruct (p c); [|reflexivity]. destruct (span p s). cbn in *. lia. Qed.

Lemma tryConsumeLabel_shorter line rest name :
  tryConsumeLabel line = (rest, Some name) -> (String.length rest < String.length line)%nat.
Proof.
  unfold tryConsumeLabel. pose proof (trim_length line) as Hl.
  pose proof (span_length (fun c => negb (bool_decide (c = ":"%char))) (trim line)) as Hs.
  destruct (span _ _) as [before [|c after]]; [discriminate|]. destruct (negb _); [discriminate|].
  intros [= <- _]. cbn in Hs. pose proof (trim_length after). lia.
Qed.

Lemma trim_end_idempotent s : trim_end (trim_end s) = trim_end s.
Proof.
  induction s as [|c s IH]; cbn; [reflexivity|]. destruct (empty (trim_end s) && isspace c) eqn:E; [reflexivity|].
  cbn. rewrite IH, E. reflexivity.
Qed.

Lemma trim_start_nonspace c s : isspace c = false -> trim_start (String c s) = String c s.
Proof. intros Hc. cbn. rewrite Hc. reflexivity. Qed.

Lemma trim_start_trim_end s : trim_start (trim_end (trim_start s)) = trim_end (trim_start s).
Proof.
  induction s as [|c s IH]; cbn [trim_start]; [reflexivity|]. destruct (isspace c) eqn:E; [exact IH|].
  cbn [trim_end]. rewrite E, andb_false_r. apply trim_start_nonspace, E.
Qed.

Lemma trim_idempotent s : trim (trim s) = trim s.
Proof. unfold trim. rewrite trim_start_trim_end. apply trim_end_idempotent. Qed.

Lemma tryConsumeLabel_none line rest : tryConsumeLabel line = (rest, None) -> (tryConsumeLabel rest).2 = None.
Proof.
  intros H. assert (Hr : rest = trim line).
  { revert H. unfold tryConsumeLabel. destruct (span _ _) as [before [|c after]]; [|destruct (negb _)]; congruence. }
  subst rest. revert H. unfold tryConsumeLabel. rewrite trim_idempotent.
  destruct (span _ _) as [before [|c after]]; [|destruct (negb _)]; [reflexivity | reflexivity | congruence].
Qed.

Lemma skip_labels_done fuel : forall line,
  (String.length line < fuel)%nat -> (tryConsumeLabel (skip_labels fuel line)).2 = None.
Proof.
  induction fuel as [|fuel IH]; intros line Hf; [lia|]. cbn. destruct (tryConsumeLabel line) as [rest [name|]] eqn:E.
  - apply IH. pose proof (tryConsumeLabel_shorter _ _ _ E). pose proof (trim_length rest). lia.
  - exact (tryConsumeLabel_none _ _ E).
Qed.

Lemma statement_unlabelled text : (tryConsumeLabel (statement text)).2 = None.
Proof. apply skip_labels_done. unfold label_fuel. lia. Qed.

(** ** Lemmas: operands and instructions *)

Section parsing.
Context (dl : LabelTable) (Hdl : map_Forall (fun _ a => 0 <= a < 2 ^ 63) dl).

Lemma parseOperand_ok text n o : parseOperand text n dl = Ret o -> operand_ok dl o /\ o <> none.
Proof.
  unfold parseOperand. destruct (empty (trim text)); [discriminate|].
  destruct (isRegisterToken (trim text)).
  { intros H. apply bind_ret_inv in H as (reg & Hr & [= <-]). split; [exact (parseRegister_ok _ _ _ Hr) | discriminate]. }
  destruct (bracketed (trim text)) as [inner|].
  - destruct (empty (trim inner)); [discriminate|]. destruct (isRegisterToken (trim inner)).
    { intros H. apply bind_ret_inv in H as (reg & Hr & [= <-]). split; [exact (parseRegister_ok _ _ _ Hr) | discriminate]. }
    destruct (tryParseInteger (trim inner)) as [a|] eqn:Ea.
    + destruct (a <? 0) eqn:E; [discriminate|]. intros [= <-]. facts. split; [|discriminate]. cbn.
      apply tryParseInteger_range in Ea. rewrite u64_small by words. words.
    + rewrite unit_bind_inv. intros [_ H]. destruct (dl !! trim inner) as [a|] eqn:El; [|discriminate].
      injection H as <-. split; [exact (Hdl _ _ El) | discriminate].
  - destruct (tryParseInteger (trim text)) as [v|] eqn:Ev.
    + intros [= <-]. split; [exact (tryParseInteger_range _ _ Ev) | discriminate].
    + rewrite unit_bind_inv, requireValidLabelName_spec. intros [Hl H].
      destruct (bool_decide (is_Some _)) eqn:E; [discriminate|]. injection H as <-. facts.
      split; [|discriminate]. split; [exact Hl|]. apply eq_None_not_Some. exact E.
Qed.

Lemma parseInstructionLine_ok line n i : parseInstructionLine line n dl = Ret i -> instruction_ok dl i.
Proof.
  unfold parseInstructionLine. destruct (next_word line) as [word rest]. destruct (empty word); [discriminate|].
  destruct (negb (isValidOpcode _)) eqn:E; [discriminate|]. unfold isValidOpcode in E. facts.
  destruct (empty _); [intros [= <-]; constructor; cbn; auto|].
  intros H. apply bind_ret_inv in H as (ops & _ & H).
  destruct ops as [|d [|s [|]]]; try discriminate.
  - apply bind_ret_inv in H as (o & Ho & [= <-]). apply parseOperand_ok in Ho as [Ho Hn]. constructor; cbn; auto.
  - apply bind_ret_inv in H as (o & Ho & H). apply bind_ret_inv in H as (o' & Ho' & [= <-]).
    apply parseOperand_ok in Ho as [Ho Hn]. apply parseOperand_ok in Ho' as [Ho' _]. constructor; cbn; auto. contradiction.
Qed.

End parsing.

(** ** Lemmas: the bytes of data directives *)

Lemma string_literal_bytes s : forall result n l, byte_list result -> string_literal s result n = Ret l -> byte_list l.
Proof.
  assert (Hpush : forall result b, byte_list result -> is_u8 b -> byte_list (result ++ [b])).
  { intros result b Hr Hb. apply Forall_app. split; [exact Hr | constructor; [exact Hb | constructor]]. }
  assert (Hchar : forall ch, is_u8 (Z.of_nat (nat_of_ascii ch))).
  { intros ch. unfold is_u8. pose proof (nat_ascii_bounded ch). lia. }
  assert (Hstep : forall k s, (String.length s < k)%nat -> forall result n l,
            byte_list result -> string_literal s result n = Ret l -> byte_list l).
  { induction k as [|k IH]; intros s' Hk result n l Hr H; [lia|]. destruct s' as [|ch rest]; [discriminate|].
    cbn in H, Hk. destruct (bool_decide (ch = quote)).
    { destruct (negb _); [discriminate|]. injection H as <-. exact Hr. }
    destruct (negb _); [refine (IH _ _ _ _ _ _ H); [lia | auto]|].
    destruct rest as [|e rest]; [discriminate|]. cbn in Hk.
    repeat match type of H with
    | (if ?b then _ else _) = _ => destruct b
    end; try discriminate; (refine (IH _ _ _ _ _ _ H); [lia | apply Hpush; [exact Hr | words]]). }
  intros result n l. apply (Hstep (S (String.length s))). lia.
Qed.

Lemma numeric_values_bytes values w lo hi n : forall result l,
  byte_list result -> numeric_values values w lo hi n result = Ret l -> byte_list l.
Proof.
  induction values as [|v values IH]; intros result l Hr H; cbn in H; [injection H as <-; exact Hr|].
  apply bind_ret_inv in H as (x & _ & H). destruct (_ || _); [discriminate|]. refine (IH _ _ _ H).
  apply Forall_app. split; [exact Hr|]. apply Forall_fmap, Forall_true. intros k. apply byte_at_range.
Qed.

Lemma parseDataDirective_bytes line n l : parseDataDirective line n = Ret l -> byte_list l.
Proof.
  assert (Hnum : forall args w lo hi, parseNumericDirective args w lo hi n = Ret l -> byte_list l).
  { intros args w lo hi H. unfold parseNumericDirective in H. apply bind_ret_inv in H as (vs & _ & H).
    rewrite !throw_if_bind_inv in H. destruct H as (_ & _ & H). refine (numeric_values_bytes _ _ _ _ _ _ _ _ H). constructor. }
  unfold parseDataDirective. destruct (next_word line) as [word rest].
  repeat match goal with |- (if ?b then _ else _) = _ -> _ => destruct b end; try apply Hnum; [|discriminate].
  unfold parseStringLiteral. destruct (trim _) as [|first s]; [discriminate|]. destruct (bool_decide _); [|discriminate].
  apply string_literal_bytes. constructor.
Qed.

(** ** The symbol pass *)

Record pass_ok (st : PassState) : Prop := {
  po_index : 0 <= ps_index st;
  po_offset : 0 <= ps_offset st <= kUserDataSize;
  po_code : map_Forall (fun name index => label_ok name /\ 0 <= index <= ps_index st) (code_labels (ps_symbols st));
  po_data : map_Forall (fun name address => label_ok name /\ kUserDataBase <= address <= kUserDataBase + ps_offset st)
              (sym_data_labels (ps_symbols st));
  po_disjoint : code_labels (ps_symbols st) ##ₘ sym_data_labels (ps_symbols st);
  po_entry : sym_entry_instruction (ps_symbols st) = 0;
}.

(** More instructions and more data keep the labels in range. *)
Lemma pass_ok_grow st section i o :
  pass_ok st -> ps_index st <= i -> ps_offset st <= o <= kUserDataSize ->
  pass_ok {| ps_symbols := ps_symbols st; ps_section := section; ps_index := i; ps_offset := o |}.
Proof.
  intros [] Hi Ho. constructor; cbn; try assumption; try lia.
  - intros k v Hk. destruct (po_code0 k v Hk). split; [assumption | lia].
  - intros k v Hk. destruct (po_data0 k v Hk). split; [assumption | lia].
Qed.

Lemma define_label_ok name st :
  pass_ok st -> label_ok name -> code_labels (ps_symbols st) !! name = None ->
  sym_data_labels (ps_symbols st) !! name = None -> pass_ok (with_symbols (define_label name st) st).
Proof.
  intros [] Hl Hc Hd. unfold define_label, with_symbols. destruct (ps_section st); constructor; cbn; try assumption.
  - apply map_Forall_insert_2; [split; [exact Hl | lia] | assumption].
  - apply map_disjoint_insert_l_2; assumption.
  - apply map_Forall_insert_2; [split; [exact Hl | lia] | assumption].
  - apply map_disjoint_insert_r_2; assumption.
Qed.

(** A line defines its labels at the position reached. *)
Lemma collect_labels_defines fuel n : forall line had st line' had' st',
  collect_labels fuel line had n st = Ret (line', had', st') -> forall name v,
  (code_labels (ps_symbols st') !! name = Some v -> code_labels (ps_symbols st) !! name = Some v \/
     (name ∈ line_labels fuel line /\ ps_section st = Text /\ v = ps_index st)) /\
  (sym_data_labels (ps_symbols st') !! name = Some v -> sym_data_labels (ps_symbols st) !! name = Some v \/
     (name ∈ line_labels fuel line /\ ps_section st = Data /\ v = kUserDataBase + ps_offset st)).
Proof.
  induction fuel as [|fuel IH]; intros line had st line' had' st' H key v; cbn in H |- *; [injection H as <- <- <-; auto|].
  destruct (tryConsumeLabel line) as [rest [name|]]; [|injection H as <- <- <-; auto].
  rewrite !unit_bind_inv in H. destruct H as (_ & _ & H). destruct (IH _ _ _ _ _ _ H key v) as [Hc Hd]. clear IH H.
  rewrite elem_of_cons. cbn in Hc, Hd. unfold define_label in Hc, Hd. destruct (ps_section st); cbn in Hc, Hd.
  all: split; intros Hv; first [apply Hc in Hv | apply Hd in Hv]; destruct Hv as [Hv|(? & ? & ?)]; try (right; tauto || congruence).
  all: try (left; exact Hv).
  all: apply lookup_insert_Some in Hv as [[-> <-]|[_ Hv]]; [right; auto | left; exact Hv].
Qed.

(** Both passes take the same labels off a line. *)
Lemma collect_labels_spec fuel n : forall line had st line' had' st',
  pass_ok st -> collect_labels fuel line had n st = Ret (line', had', st') ->
  pass_ok st' /\ skip_labels fuel line = line' /\ ps_section st' = ps_section st /\ ps_index st' = ps_index st /\
  ps_offset st' = ps_offset st.
Proof.
  induction fuel as [|fuel IH]; intros line had st line' had' st' Hst H; cbn in H |- *; [injection H as <- <- <-; auto|].
  destruct (tryConsumeLabel line) as [rest [name|]]; [|injection H as <- <- <-; auto].
  rewrite !unit_bind_inv in H. destruct H as (Hname & Huniq & H). apply requireValidLabelName_spec in Hname.
  unfold requireUniqueSymbol in Huniq. apply throw_if_ret_inv in Huniq. facts.
  assert (Hdef : pass_ok (with_symbols (define_label name st) st)).
  { apply define_label_ok; try assumption; apply eq_None_not_Some; assumption. }
  destruct (IH _ _ _ _ _ _ Hdef H) as (? & ? & ? & ? & ?). auto.
Qed.

Lemma collect_line_ok text n st st' : pass_ok st -> collect_line text n st = Ret st' -> pass_ok st'.
Proof.
  intros Hst H. unfold collect_line in H. apply bind_ret_inv in H as ([[line had] st1] & Hl & H).
  destruct (collect_labels_spec _ _ _ _ _ _ _ _ Hst Hl) as (Hok & _). clear Hl Hst.
  destruct (empty line); [injection H as <-; exact Hok|]. destruct (isSectionDirective line).
  { apply throw_if_bind_inv in H as [_ H]. injection H as <-. apply pass_ok_grow; [exact Hok | lia |]. destruct Hok. lia. }
  destruct (isEntryDirective line).
  { rewrite !throw_if_bind_inv in H. destruct H as (_ & _ & H). apply bind_ret_inv in H as (name & _ & [= <-]).
    destruct Hok. constructor; assumption. }
  pose proof (po_index _ Hok). pose proof (po_offset _ Hok). destruct (bool_decide (ps_section st1 = Data)).
  - apply throw_if_bind_inv in H as [_ H]. apply bind_ret_inv in H as (bytes & _ & H).
    apply throw_if_bind_inv in H as [Hfit H]. injection H as <-. facts. apply pass_ok_grow; [exact Hok | lia | lia].
  - apply throw_if_bind_inv in H as [_ H]. injection H as <-. apply pass_ok_grow; [exact Hok | lia | lia].
Qed.

Lemma collect_lines_ok lines : forall n st st', pass_ok st -> collect_lines lines n st = Ret st' -> pass_ok st'.
Proof.
  induction lines as [|line lines IH]; intros n st st' Hst H; cbn in H; [injection H as <-; exact Hst|].
  apply bind_ret_inv in H as (st1 & H1 & H). eapply IH; [exact (collect_line_ok _ _ _ _ Hst H1) | exact H].
Qed.

(** ** The emitting pass, beside the symbol pass *)

Record emitted (lines : list string) (dl : LabelTable) (n : Z) (st : PassState) (es : EmitState) : Prop := {
  em_section : es_section es = ps_section st;
  em_index : Z.of_nat (length (es_instructions es)) = ps_index st;
  em_offset : Z.of_nat (length (es_data es)) = ps_offset st;
  em_bytes : byte_list (es_data es);
  em_ok : Forall (instruction_ok dl) (es_instructions es);
  em_source : Forall2 (from_line lines dl) (es_instructions es) (es_lines es);
  em_sorted : StronglySorted Z.lt (es_lines es);
  em_before : Forall (fun l => l < n) (es_lines es);
  em_places : map_Forall (placed lines dl Text code_position) (code_labels (ps_symbols st));
  em_data_places : map_Forall (placed lines dl Data data_position) (sym_data_labels (ps_symbols st));
}.

Lemma sorted_snoc l n : StronglySorted Z.lt l -> Forall (fun x => x < n) l -> StronglySorted Z.lt (l ++ [n]).
Proof.
  intros Hs Hf. induction Hs as [|x l Hs IH Hx]; cbn; [constructor; constructor|]. inversion_clear Hf.
  constructor; [auto|]. apply Forall_app. split; [exact Hx | constructor; [assumption | constructor]].
Qed.

Section emission.
Context (lines : list string) (dl : LabelTable) (Hdl : map_Forall (fun _ a => 0 <= a < 2 ^ 63) dl).

Lemma labels_placed text n pre post st es line had line' had' st' :
  lines = pre ++ text :: post -> emit_lines pre 1 dl initial_emit = Ret es -> emitted lines dl n st es ->
  line = trim (removeComment text) -> collect_labels (label_fuel line) line had n st = Ret (line', had', st') ->
  map_Forall (placed lines dl Text code_position) (code_labels (ps_symbols st')) /\
  map_Forall (placed lines dl Data data_position) (sym_data_labels (ps_symbols st')).
Proof.
  intros Hlines Hpre [Es Ei Eo _ _ _ _ _ Epl Edpl] Hline Hl.
  assert (Hplace : forall section position name, name ∈ line_labels (label_fuel line) line -> ps_section st = section ->
            placed lines dl section position name (position es)).
  { intros section position name Hin Hs. exists pre, text, post, es. unfold defines. rewrite <- Hline, Es. auto. }
  split; intros name v Hv.
  - destruct (proj1 (collect_labels_defines _ _ _ _ _ _ _ _ Hl name v) Hv) as [Hold|(Hin & Hs & ->)]; [exact (Epl _ _ Hold)|].
    rewrite <- Ei. exact (Hplace Text code_position name Hin Hs).
  - destruct (proj2 (collect_labels_defines _ _ _ _ _ _ _ _ Hl name v) Hv) as [Hold|(Hin & Hs & ->)]; [exact (Edpl _ _ Hold)|].
    rewrite <- Eo. exact (Hplace Data data_position name Hin Hs).
Qed.

Lemma emit_line_spec text n pre post st st' es es' :
  lines = pre ++ text :: post -> n = Z.of_nat (length pre) + 1 -> emit_lines pre 1 dl initial_emit = Ret es ->
  pass_ok st -> collect_line text n st = Ret st' -> emitted lines dl n st es -> emit_line text n dl es = Ret es' ->
  emitted lines dl (n + 1) st' es'.
Proof.
  intros Hlines Hn Hpre Hst Hc Hem He. unfold collect_line in Hc.
  apply bind_ret_inv in Hc as ([[line had] st1] & Hl & Hc).
  destruct (collect_labels_spec _ _ _ _ _ _ _ _ Hst Hl) as (Hst1 & Hskip & S1 & S2 & S3).
  assert (Hstmt : statement text = line) by exact Hskip.
  destruct (labels_placed _ _ _ _ _ _ _ _ _ _ _ Hlines Hpre Hem eq_refl Hl) as [Hpl Hdpl].
  destruct Hem as [Es Ei Eo Eb Ek Ef Eso Ebef _ _].
  unfold emit_line in He. cbv zeta in He. rewrite Hskip in He. clear Hl Hskip.
  assert (Hbef : Forall (fun l => l < n + 1) (es_lines es)) by (eapply Forall_impl; [exact Ebef | cbn; lia]).
  destruct (empty line); [injection Hc as <-; injection He as <-; constructor; congruence || assumption|].
  destruct (isSectionDirective line).
  { apply throw_if_bind_inv in Hc as [_ Hc]. injection Hc as <-. injection He as <-. constructor; cbn; congruence || assumption. }
  destruct (isEntryDirective line).
  { rewrite !throw_if_bind_inv in Hc. destruct Hc as (_ & _ & Hc). apply bind_ret_inv in Hc as (name & _ & [= <-]).
    injection He as <-. constructor; cbn; congruence || assumption. }
  rewrite Es, <- S1 in He. destruct (bool_decide (ps_section st1 = Data)) eqn:Esec.
  - apply throw_if_bind_inv in Hc as [_ Hc]. apply bind_ret_inv in Hc as (bytes & Hb & Hc).
    apply throw_if_bind_inv in Hc as [_ Hc]. injection Hc as <-. rewrite Hb in He. injection He as <-.
    constructor; cbn; try assumption; try congruence; try lia.
    + rewrite length_app. lia.
    + apply Forall_app. split; [exact Eb | exact (parseDataDirective_bytes _ _ _ Hb)].
  - apply throw_if_bind_inv in Hc as [_ Hc]. injection Hc as <-. apply bind_ret_inv in He as (i & Hi & He). injection He as <-.
    constructor; cbn; try assumption; try congruence; try lia.
    + rewrite length_app. cbn. lia.
    + apply Forall_app. split; [exact Ek | constructor; [exact (parseInstructionLine_ok dl Hdl _ _ _ Hi) | constructor]].
    + apply Forall2_app; [exact Ef|]. constructor; [|constructor]. split; [lia|]. exists text.
      split; [rewrite Hlines; replace (Z.to_nat (n - 1)) with (length pre) by lia; apply list_lookup_middle; reflexivity|].
      split; [apply statement_unlabelled | rewrite Hstmt; exact Hi].
    + apply sorted_snoc; assumption.
    + apply Forall_app. split; [exact Hbef | constructor; [lia | constructor]].
Qed.

Lemma emit_lines_snoc pre text : forall n st es es',
  emit_lines pre n dl st = Ret es -> emit_line text (n + Z.of_nat (length pre)) dl es = Ret es' ->
  emit_lines (pre ++ [text]) n dl st = Ret es'.
Proof.
  induction pre as [|line pre IH]; intros n st es es' H He; cbn in H |- *.
  - injection H as ->. rewrite Z.add_0_r in He. rewrite He. reflexivity.
  - apply bind_ret_inv in H as (st1 & -> & H). cbn. apply (IH (n + 1) st1 es es' H).
    replace (n + 1 + Z.of_nat (length pre)) with (n + Z.of_nat (length (line :: pre))) by (cbn; lia). exact He.
Qed.

Lemma emit_lines_spec rest : forall pre n st st' es es',
  lines = pre ++ rest -> n = Z.of_nat (length pre) + 1 ->
  emit_lines pre 1 dl initial_emit = Ret es ->
  pass_ok st -> collect_lines rest n st = Ret st' -> emitted lines dl n st es -> emit_lines rest n dl es = Ret es' ->
  emitted lines dl (n + Z.of_nat (length rest)) st' es'.
Proof.
  induction rest as [|text rest IH]; intros pre n st st' es es' Hlines Hn Hpre Hst Hc He Hemit; cbn in Hc, Hemit.
  - injection Hc as <-. injection Hemit as <-. cbn. rewrite Z.add_0_r. exact He.
  - apply bind_ret_inv in Hc as (st1 & Hc1 & Hc). apply bind_ret_inv in Hemit as (es1 & He1 & Hemit).
    replace (n + Z.of_nat (length (text :: rest))) with (n + 1 + Z.of_nat (length rest)) by (cbn; lia).
    apply (IH (pre ++ [text]) (n + 1) st1 st' es1 es'); try assumption.
    + rewrite <- app_assoc. exact Hlines.
    + rewrite length_app. cbn. lia.
    + apply emit_lines_snoc with es; [exact Hpre|]. rewrite Z.add_comm, <- Hn. exact He1.
    + exact (collect_line_ok _ _ _ _ Hst Hc1).
    + exact (emit_line_spec text n pre rest st st1 es es1 Hlines Hn Hpre Hst Hc1 He He1).
Qed.

End emission.

Definition initial_pass : PassState :=
  {| ps_symbols := new_SymbolPassResult; ps_section := Text; ps_index := 0; ps_offset := 0 |}.

Lemma initial_pass_ok : pass_ok initial_pass.
Proof.
  constructor.
  - reflexivity.
  - split; vm_compute; discriminate.
  - apply map_Forall_empty.
  - apply map_Forall_empty.
  - apply map_disjoint_empty_l.
  - reflexivity.
Qed.

Lemma collectSymbols_spec lines symbols : collectSymbols lines = Ret symbols ->
  exists st, collect_lines lines 1 initial_pass = Ret st /\ pass_ok st /\
    code_labels symbols = code_labels (ps_symbols st) /\ sym_data_labels symbols = sym_data_labels (ps_symbols st) /\
    (if has_entry symbols then code_labels symbols !! sym_entry_label symbols = Some (sym_entry_instruction symbols)
     else sym_entry_instruction symbols = 0).
Proof.
  intros H. unfold collectSymbols in H. apply bind_ret_inv in H as (st & Hst & H). exists st. split; [exact Hst|].
  pose proof (collect_lines_ok _ _ _ _ initial_pass_ok Hst) as Hok. split; [exact Hok|].
  cbv zeta in H. destruct (has_entry (ps_symbols st)) eqn:Ee.
  - apply throw_if_bind_inv in H as [_ H]. destruct (code_labels _ !! _) as [i|] eqn:Ei; [|discriminate].
    injection H as <-. cbn. rewrite Ee. auto.
  - injection H as <-. cbn. rewrite Ee. destruct Hok. auto.
Qed.

Lemma assembled source p : assembleString source = Ret p -> assembled_ok (splitLines source) p.
Proof.
  unfold assembleString. set (lines := splitLines source). cbv zeta. intros H. apply bind_ret_inv in H as (symbols & Hs & H).
  destruct (collectSymbols_spec _ _ Hs) as (st & Hst & Hok & Ec & Ed & Hentry).
  unfold emitProgram in H. apply bind_ret_inv in H as (es & He & [= <-]).
  assert (Hdl : map_Forall (fun _ a => 0 <= a < 2 ^ 63) (sym_data_labels symbols)).
  { rewrite Ed. intros k a Hk. destruct (po_data _ Hok k a Hk) as [_ Ha]. destruct (po_offset _ Hok).
    assert (0 <= kUserDataBase /\ kUserDataBase + kUserDataSize < 2 ^ 63) by (split; vm_compute; congruence). lia. }
  assert (Hem : emitted lines (sym_data_labels symbols) (1 + Z.of_nat (length lines)) st es).
  { apply (emit_lines_spec lines _ Hdl lines [] 1 initial_pass st
      initial_emit es eq_refl eq_refl eq_refl initial_pass_ok Hst); [|exact He].
    constructor; cbn; try reflexivity; try constructor; apply map_Forall_empty. }
  destruct Hem as [_ Ei Eo Eb Ek Ef Eso _ Epl Edpl]. destruct Hok. constructor; cbn; try assumption.
  - rewrite Ec, Ei. assumption.
  - rewrite Ed, Eo. assumption.
  - rewrite Ec. exact Epl.
  - rewrite Ed at 2. exact Edpl.
  - rewrite Ec, Ed. assumption.
  - rewrite Eo. split; [exact Eb | split; [lia | reflexivity]].
Qed.

(** ** Two limits of the directives

    The range [.qword] admits reaches to the largest 64-bit word, but its values
    are read as signed numbers: the upper half is rejected, and the upper bound
    never decides anything. *)

Lemma qword_bound_unused text n v : parseInteger text n = Ret v ->
  ((v <? - 2 ^ 63) || ((v >=? 0) && (u64 v >? UINT64_MAX))) = false.
Proof.
  unfold parseInteger. destruct (tryParseInteger text) as [w|] eqn:E; [|discriminate]. intros [= <-].
  apply tryParseInteger_range in E. pose proof (u64_range w). apply orb_false_iff. split; [bool_goal; words|].
  apply andb_false_iff. right. bool_goal. words.
Qed.

Lemma qword_upper_half_rejected :
  UINT64_MAX = 18446744073709551615 /\ parseDataDirective ".qword 18446744073709551615" 1 =
    Throw (RuntimeError "Invalid or out-of-range integer '18446744073709551615' at line 1").
Proof. split; [reflexivity | vm_compute; reflexivity]. Qed.

(** An empty value is an error in front of a comma, but not behind the last one. *)
Lemma trailing_comma_accepted :
  splitOperands ", R0" = Throw (RuntimeError "Empty comma-separated value") /\ splitOperands "R0, " = Ret ["R0"%string].
Proof. split; vm_compute; reflexivity. Qed.

(** ** The code of a program *)

Definition encodable (labels : LabelTable) (i : Instruction) : Prop :=
  opcode i <> Invalid /\ encodable_operand labels (dst i) /\ encodable_operand labels (src i).

Definition instruction_fits (i : Instruction) : Prop := operand_fits (dst i) /\ operand_fits (src i).

Lemma encodeProgram_total prog labels : Forall (encodable labels) prog <-> exists code, encodeProgram prog labels = Ret code.
Proof.
  induction prog as [|i prog IH]; cbn; [split; [eauto | constructor]|]. rewrite Forall_cons, IH. unfold encodable at 1.
  rewrite encode_total. split.
  - intros [[bytes ->] [code ->]]. eexists. reflexivity.
  - intros [code H]. apply bind_ret_inv in H as (bytes & Hb & H). apply bind_ret_inv in H as (rest & Hr & _). eauto.
Qed.

Lemma encodeProgram_chunks prog labels : forall code,
  Forall instruction_fits prog -> encodeProgram prog labels = Ret code ->
  length code = (24 * length prog)%nat /\ byte_list code /\
  forall k i, prog !! k = Some i -> encodeInstruction i labels = Ret (take 24 (drop (24 * k) code)).
Proof.
  induction prog as [|i prog IH]; intros code Hfit H; cbn in H.
  - injection H as <-. split; [reflexivity|]. split; [constructor|]. discriminate.
  - apply bind_ret_inv in H as (bytes & Hb & H). apply bind_ret_inv in H as (rest & Hr & H). injection H as <-.
    inversion_clear Hfit as [|? ? [Hd Hs] Hfit']. destruct (encode_decodes _ _ _ Hd Hs Hb) as (Hl & Hbytes & _).
    destruct (IH rest Hfit' Hr) as (Hlen & Hrest & Hk). split; [rewrite length_app; cbn [length]; lia|].
    split; [apply Forall_app; split; assumption|]. intros [|k] j Hj.
    + injection Hj as <-. rewrite Nat.mul_0_r, drop_0, take_app_length' by lia. exact Hb.
    + replace (24 * S k)%nat with (length bytes + 24 * k)%nat by lia. rewrite drop_app_add. exact (Hk k j Hj).
Qed.

Lemma ok_fits dl i : instruction_ok dl i -> instruction_fits i.
Proof.
  assert (Ho : forall o, operand_ok dl o -> operand_fits o) by (intros [] H; cbn in *; auto; words).
  intros [_ Hd Hs _]. split; apply Ho; assumption.
Qed.

(** What the binary program of an assembled program holds. *)
Record binary_of (p : AssembledProgram) (b : BinaryProgram) : Prop := {
  bo_ok : program_ok b;
  bo_entry : entry_point (header b) = kInstructionSize * entry_instruction p;
  bo_base : data_base (header b) = kUserDataBase;
  bo_data : Binary.data b = ap_data p;
  bo_size : length (code b) = (24 * length (instructions p))%nat;
  bo_code : forall k i, instructions p !! k = Some i ->
    exists d, decodeInstruction (take 24 (drop (24 * k) (code b))) = Ret d /\ dec_opcode d = opcode i /\
              denotes (ap_labels p) (dst i) (dst_type d) (dst_payload d) /\
              denotes (ap_labels p) (src i) (src_type d) (src_payload d);
}.

(** [toBinaryProgram], check by check. *)
Lemma toBinaryProgram_inv p b : ap_data_base p = kUserDataBase ->
  toBinaryProgram p = Ret b <->
  instructions p <> [] /\ entry_instruction p < Z.of_nat (length (instructions p)) /\
  exists bytes, encodeProgram (instructions p) (ap_labels p) = Ret bytes /\
    Z.of_nat (length bytes) <= UINT32_MAX /\ Z.of_nat (length (ap_data p)) <= UINT32_MAX /\
    b = {| header := {| major_version := kMajorVersion; minor_version := kMinorVersion; endianness := BE_Little;
                        entry_point := u32 (instructionIndexToAddress (entry_instruction p));
                        code_size := u32 (Z.of_nat (length bytes)); data_base := u32 kUserDataBase;
                        data_size := u32 (Z.of_nat (length (ap_data p))) |};
           code := bytes; data := ap_data p |}.
Proof.
  intros Hbase. unfold toBinaryProgram, toBinaryProgram_at, resolvedEntryInstruction. rewrite !throw_if_bind_inv, Hbase.
  assert (Hk : (kUserDataBase >? UINT32_MAX) = false) by reflexivity.
  split.
  - intros (Hne & Hentry & H). apply bind_ret_inv in H as (bytes & Hb & H). apply throw_if_bind_inv in H as [Hs [= <-]].
    rewrite Hk, orb_false_r in Hs. facts. split; [exact Hne|]. split; [lia|]. exists bytes. repeat split; [exact Hb | lia | lia].
  - intros (Hne & Hentry & bytes & Hb & Hl1 & Hl2 & ->). split; [bool_goal; exact Hne|]. split; [bool_goal; lia|].
    rewrite Hb. cbn [mbind outcome_bind]. apply throw_if_bind_inv. rewrite Hk, orb_false_r. split; [bool_goal; lia | reflexivity].
Qed.

Lemma ao_fits lines p : assembled_ok lines p -> Forall instruction_fits (instructions p).
Proof. intros []. eapply Forall_impl; [eassumption | intros i; apply ok_fits]. Qed.

Lemma ao_entry_range lines p : assembled_ok lines p -> 0 <= entry_instruction p <= Z.of_nat (length (instructions p)).
Proof.
  intros []. destruct (has_explicit_entry p); [exact (proj2 (ao_labels0 _ _ ao_entry0)) | lia].
Qed.

Lemma assembled_header_ok entry size dsize :
  0 <= entry -> kInstructionSize * entry < size -> size mod kInstructionSize = 0 -> is_u32 size -> is_u32 dsize ->
  header_ok {| major_version := kMajorVersion; minor_version := kMinorVersion; endianness := BE_Little;
               entry_point := kInstructionSize * entry; code_size := size; data_base := kUserDataBase; data_size := dsize |}.
Proof.
  intros He Hlt Hm Hs Hd. unfold kInstructionSize in *. constructor; cbn; try assumption; try reflexivity; try discriminate.
  - words.
  - split; [discriminate | reflexivity].
  - rewrite Z.mul_comm. apply Z_mod_mult.
Qed.

(** ** Properties *)

(** (C20) Assembled programs are well formed: the two passes agree.  Every
    instruction has a valid opcode and operands of the right types and comes from
    the source line recorded for it, in order; every code label is the number of
    instructions emitted by the lines before the line that defines it, every data
    label the address behind the data those lines emitted, and the data fits in
    the user data region; the names are legal, and no name is both; and the entry
    instruction is the one the entry label names, or the first one. *)
Theorem assemble_well_formed (source : string) (p : AssembledProgram) (Hp : assembleString source = Ret p) :
  assembled_ok (splitLines source) p.
Proof. exact (assembled source p Hp). Qed.

(** What comes out of an assembled program. *)
Lemma binary_of_assembled source p b : assembleString source = Ret p -> toBinaryProgram p = Ret b -> binary_of p b.
Proof.
  intros Hp H. pose proof (assembled source p Hp) as Hok. pose proof (ao_fits _ _ Hok) as Hfits.
  destruct (ao_entry_range _ _ Hok) as [He0 He1]. destruct (ao_data _ _ Hok) as (Hdb & Hds & Hbase).
  assert (Hu : kUserDataSize <= UINT32_MAX) by (vm_compute; discriminate).
  apply toBinaryProgram_inv in H as (_ & He & bytes & Hb & Hl & _ & ->); [|exact Hbase].
  destruct (encodeProgram_chunks _ _ _ Hfits Hb) as (Hlen & Hbytes & Hk).
  assert (Hi : u32 (instructionIndexToAddress (entry_instruction p)) = kInstructionSize * entry_instruction p).
  { unfold instructionIndexToAddress, kInstructionSize. rewrite u64_small; [|words]. rewrite u32_small; [lia | words]. }
  assert (Hbase32 : u32 kUserDataBase = kUserDataBase) by reflexivity.
  rewrite Hi, Hbase32, !u32_small by words. constructor; cbn; try assumption; try reflexivity.
  - constructor; cbn; try assumption; try reflexivity.
    apply assembled_header_ok; unfold kInstructionSize; try words. rewrite Hlen, Nat2Z.inj_mul, Z.mul_comm. apply Z_mod_mult.
  - intros k i Hki. rewrite Forall_lookup in Hfits. destruct (Hfits k i Hki) as [Hd Hs].
    destruct (encode_decodes _ _ _ Hd Hs (Hk k i Hki)) as (_ & _ & Hdec). exact Hdec.
Qed.

(** (C21) Binary programs of assembled programs.  An assembled program becomes a
    binary program exactly when it has an instruction, the entry label names
    one, every label operand is a code label of the program, and the code fits
    the format.  What comes out is a program of the container format (so writing
    and reading it gives it back); its entry point is the byte address of the
    entry instruction, its data section is the assembled data at the base of user
    data, and the 24 bytes of each instruction decode to its opcode and to what
    its operands stand for. *)
Theorem toBinaryProgram_correct (source : string) (p : AssembledProgram) (Hp : assembleString source = Ret p) :
  ((exists b, toBinaryProgram p = Ret b) <->
   entry_instruction p < Z.of_nat (length (instructions p)) /\
   Forall (encodable (ap_labels p)) (instructions p) /\
   kInstructionSize * Z.of_nat (length (instructions p)) <= UINT32_MAX) /\
  (forall b, toBinaryProgram p = Ret b -> binary_of p b).
Proof.
  pose proof (assembled source p Hp) as Hok. pose proof (ao_fits _ _ Hok) as Hfits.
  destruct (ao_entry_range _ _ Hok) as [He0 He1]. destruct (ao_data _ _ Hok) as (Hdb & Hds & Hbase).
  assert (Hu : kUserDataSize <= UINT32_MAX) by (vm_compute; discriminate).
  split; [split|].
  - intros [b H]. apply toBinaryProgram_inv in H as (_ & He & bytes & Hb & Hl & _ & _); [|exact Hbase].
    destruct (encodeProgram_chunks _ _ _ Hfits Hb) as (Hlen & _). split; [exact He|].
    split; [apply encodeProgram_total; eauto | unfold kInstructionSize; lia].
  - intros (He & Henc & Hsize). apply encodeProgram_total in Henc as [bytes Hb].
    destruct (encodeProgram_chunks _ _ _ Hfits Hb) as (Hlen & _). eexists. apply toBinaryProgram_inv; [exact Hbase|].
    split; [destruct (instructions p); [cbn in He; lia | discriminate]|]. split; [exact He|].
    exists bytes. unfold kInstructionSize in Hsize. repeat split; [exact Hb | lia | lia].
  - intros b. exact (binary_of_assembled source p b Hp).
Qed.

(** ** Witnesses *)

Definition sample_source : string :=
"        .entry start
        .data
count:  .byte 1, 0xFF   ; two bytes
        .text
back:   NOP
start:  LOAD R0, [count]
        JMP back
".

Definition sample_assembled : AssembledProgram :=
  {| instructions := [{| opcode := NOP; dst := none; src := none |};
                      {| opcode := LOAD; dst := registerOperand R0; src := memoryAddress 0 |};
                      {| opcode := JMP; dst := label "back"; src := none |}];
     instruction_source_lines := [5; 6; 7];
     ap_labels := <["start"%string := 1]> (<["back"%string := 0]> ∅);
     data_labels := <["count"%string := 0]> ∅;
     ap_data_base := 0; ap_data := [1; 255]; has_explicit_entry := true; entry_label := "start";
     entry_instruction := 1 |}.

Lemma sample_assembles : assembleString sample_source = Ret sample_assembled.
Proof. vm_compute. reflexivity. Qed.

Lemma assemble_well_formed_witness :
  assembleString sample_source = Ret sample_assembled /\ assembled_ok (splitLines sample_source) sample_assembled.
Proof. split; [exact sample_assembles | apply assemble_well_formed, sample_assembles]. Defined.

Lemma toBinaryProgram_correct_witness :
  assembleString sample_source = Ret sample_assembled /\
  exists b, toBinaryProgram sample_assembled = Ret b /\ binary_of sample_assembled b.
Proof.
  split; [exact sample_assembles|]. destruct (toBinaryProgram_correct _ _ sample_assembles) as [[_ Hconv] Hok].
  destruct Hconv as [b Hb]; [|exact (ex_intro _ b (conj Hb (Hok b Hb)))].
  split; [reflexivity|]. split; [|vm_compute; discriminate].
  repeat constructor; try discriminate. eexists. vm_compute. reflexivity.
Defined.
