(* ===== verification/Listing.v ===== *)
(** * Listings assemble to the program they list

    [Instruction::toString] prints an instruction and the assembler reads it
    back: from the digits of a number up to a whole listing, one instruction per
    line. *)

From S2P Require Import Prelude Words Text Memory ISA Binary Assembler AssemblerLaws.
Open Scope Z_scope.
#[local] Arguments String.append : simpl nomatch.

(** ** Numbers *)

Lemma tryParseInteger_pretty z : is_i64 z -> tryParseInteger (pretty z) = Some z.
Proof.
  intros Hz. unfold tryParseInteger. rewrite (stoll_pretty read_magnitude) by exact Hz. rewrite Nat.eqb_refl. cbn.
  destruct (pretty z) eqn:E; [|reflexivity]. destruct z as [|x|x]; [discriminate| |discriminate].
  destruct (read_pretty read_magnitude (Npos x)) as (_ & _ & Hne). contradiction.
Qed.

(** ** Characters *)

(** The characters of names and numbers, and those of a printed line. *)
Definition token_char (ch : ascii) : bool := label_char ch || bool_decide (ch = "-"%char).

Definition line_char (ch : ascii) : bool :=
  token_char ch || bool_decide (ch ∈ ["["; "]"; ","; " "]%char).

Lemma digit_token ch : isdigit ch = true -> token_char ch = true.
Proof. revert ch. by_char. Qed.

Lemma label_token ch : label_char ch = true -> token_char ch = true.
Proof. intros H. unfold token_char. rewrite H. reflexivity. Qed.

Lemma token_line ch : token_char ch = true -> line_char ch = true.
Proof. intros H. unfold line_char. rewrite H. reflexivity. Qed.

Lemma token_nonspace ch : token_char ch = true -> nonspace ch = true.
Proof. revert ch. by_char. Qed.

(** No token character ends an operand, no line character a line. *)
Lemma token_separators ch : token_char ch = true ->
  bool_decide (ch = "["%char) = false /\ bool_decide (ch = "]"%char) = false /\ bool_decide (ch = ","%char) = false.
Proof. revert ch. by_char. Qed.

Lemma line_separators ch : line_char ch = true ->
  bool_decide (ch = newline) = false /\ bool_decide (ch = quote) = false /\ bool_decide (ch = ";"%char) = false /\
  negb (bool_decide (ch = ":"%char)) = true.
Proof. revert ch. by_char. Qed.

Lemma label_front ch : label_char ch = true -> isspace ch = false /\ tolower ch <> "."%char /\ ch <> "."%char.
Proof. revert ch. by_char. Qed.

(** ** Trimming and words *)

Lemma push_back_append cur ch t : push_back cur ch +:+ t = cur +:+ String ch t.
Proof. unfold push_back. induction cur as [|c cur IH]; cbn; congruence. Qed.

Lemma trim_end_nonspace s : all_chars nonspace s = true -> trim_end s = s.
Proof.
  induction s as [|c s IH]; cbn; [reflexivity|]. rewrite andb_true_iff. intros [Hc Hs]. rewrite (IH Hs).
  unfold nonspace in Hc. apply negb_true_iff in Hc. rewrite Hc, andb_false_r. reflexivity.
Qed.

Lemma trim_end_append a s : s <> EmptyString -> trim_end s = s -> trim_end (a +:+ s) = a +:+ s.
Proof.
  intros Hne Hs. induction a as [|c a IH]; cbn; [exact Hs|]. rewrite IH.
  destruct (a +:+ s) eqn:E; [destruct a; cbn in E; congruence | reflexivity].
Qed.

Lemma trim_start_first c t : isspace c = false -> trim_start (String c t) = String c t.
Proof. intros H. cbn. rewrite H. reflexivity. Qed.

Lemma trim_nonspace s : all_chars nonspace s = true -> trim s = s.
Proof.
  intros Hs. unfold trim. destruct s as [|c t]; [reflexivity|]. pose proof Hs as Hs'. cbn in Hs'.
  apply andb_true_iff in Hs' as [Hc _]. unfold nonspace in Hc. apply negb_true_iff in Hc.
  rewrite trim_start_first by exact Hc. apply trim_end_nonspace, Hs.
Qed.

Lemma trim_space s : trim (String " " s) = trim s.
Proof. reflexivity. Qed.

(** ** Operands *)

Definition token (w : string) : Prop := all_chars token_char w = true /\ w <> EmptyString.

(** A printed operand: a word, or a word in brackets. *)
Definition operand_text (t : string) : Prop :=
  token t \/ exists w, token w /\ t = "[" +:+ w +:+ "]".

Lemma operand_text_line t : operand_text t -> all_chars line_char t = true /\ all_chars nonspace t = true /\ t <> EmptyString.
Proof.
  intros [[Ht Hne]|(w & [Hw _] & ->)].
  - split; [exact (all_chars_impl _ _ _ token_line Ht)|]. split; [exact (all_chars_impl _ _ _ token_nonspace Ht) | exact Hne].
  - cbn. rewrite !all_chars_app. rewrite (all_chars_impl _ _ _ token_line Hw), (all_chars_impl _ _ _ token_nonspace Hw).
    repeat split; discriminate.
Qed.

Lemma split_token w rest ops : forall cur b, all_chars token_char w = true ->
  split_operands (w +:+ rest) ops cur b = split_operands rest ops (cur +:+ w) b.
Proof.
  induction w as [|c w IH]; intros cur b Hw; cbn in Hw; [rewrite append_nil; reflexivity|].
  apply andb_true_iff in Hw as [Hc Hw]. destruct (token_separators c Hc) as (E1 & E2 & E3).
  cbn [String.append split_operands]. rewrite E1, E2, E3. cbn [andb]. rewrite IH by exact Hw. rewrite push_back_append. reflexivity.
Qed.

Lemma split_operand t rest ops cur : operand_text t ->
  split_operands (t +:+ rest) ops cur false = split_operands rest ops (cur +:+ t) false.
Proof.
  intros [[Ht _]|(w & [Hw _] & ->)]; [apply split_token, Ht|].
  replace (("[" +:+ w +:+ "]") +:+ rest) with (String "[" (w +:+ ("]" +:+ rest))).
  2:{ change (String "[" (w +:+ "]" +:+ rest) = String "[" ((w +:+ "]") +:+ rest)). rewrite append_assoc. reflexivity. }
  cbn [split_operands]. rewrite split_token by exact Hw. cbn [String.append split_operands]. rewrite push_back_append.
  f_equal. unfold push_back. change (String "[" w) with ("[" +:+ w). rewrite <- !append_assoc. reflexivity.
Qed.

Lemma splitOperands_one t : operand_text t -> splitOperands t = Ret [t].
Proof.
  intros Ht. destruct (operand_text_line t Ht) as (_ & Hs & Hne). unfold splitOperands.
  rewrite <- (append_nil t) at 1. rewrite split_operand by exact Ht. cbn [split_operands]. cbv zeta. change ("" +:+ t) with t. rewrite trim_nonspace by exact Hs.
  destruct t; [contradiction Hne; reflexivity | reflexivity].
Qed.

Lemma splitOperands_two d s : operand_text d -> operand_text s -> splitOperands (d +:+ ", " +:+ s) = Ret [d; s].
Proof.
  intros Hd Hs. destruct (operand_text_line d Hd) as (_ & Hds & Hdne). destruct (operand_text_line s Hs) as (_ & Hss & Hsne).
  unfold splitOperands. rewrite split_operand by exact Hd.
  change (", " +:+ s) with (String "," (String " " s)). change ("" +:+ d) with d. cbn [split_operands].
  replace (trim d) with d by (symmetry; apply trim_nonspace, Hds).
  change (bool_decide (","%char = "["%char)) with false. change (bool_decide (","%char = "]"%char)) with false.
  change (bool_decide (","%char = ","%char)) with true. cbn [andb negb].
  destruct d as [|c d]; [contradiction Hdne; reflexivity|]. cbn [empty].
  change (bool_decide (" "%char = "["%char)) with false. change (bool_decide (" "%char = "]"%char)) with false.
  change (bool_decide (" "%char = ","%char)) with false. cbn [andb].
  rewrite <- (append_nil s) at 1. rewrite split_operand by exact Hs. change (push_back "" " " +:+ s) with (String " " s).
  cbn [split_operands]. rewrite trim_space, trim_nonspace by exact Hss.
  destruct s; [contradiction Hsne; reflexivity | reflexivity].
Qed.

Lemma length_snoc w ch : String.length (w +:+ String ch EmptyString) = S (String.length w).
Proof. induction w as [|c w IH]; cbn; congruence. Qed.

Lemma bracketed_text w : w <> EmptyString -> bracketed ("[" +:+ w +:+ "]") = Some w.
Proof.
  intros Hne. change ("[" +:+ w +:+ "]") with (String "[" (w +:+ "]")). unfold bracketed. cbv zeta.
  rewrite length_snoc.
  cbn [Nat.sub]. rewrite Nat.sub_0_r, get_last, substring_prefix.
  destruct w; [contradiction Hne; reflexivity | reflexivity].
Qed.

Lemma bracketed_token w : token w -> bracketed w = None.
Proof.
  intros [Hw _]. destruct w as [|c w]; [reflexivity|]. cbn in Hw. apply andb_true_iff in Hw as [Hc _].
  unfold bracketed. rewrite (proj1 (token_separators c Hc)). reflexivity.
Qed.

Lemma register_name reg : register_ok reg -> exists w, registerNameToString reg = Ret w /\ token w /\
  isRegisterToken w = true /\ forall n, parseRegister w n = Ret reg.
Proof.
  intros Hreg. destruct reg; try (contradiction Hreg; reflexivity).
  all: eexists; split; [reflexivity|]; repeat split; discriminate.
Qed.

Lemma first_not_register c t : bool_decide (toupper c = "R"%char) = false -> isRegisterToken (String c t) = false.
Proof. intros Hc. destruct t as [|d [|]]; [reflexivity | cbn; rewrite Hc; reflexivity | reflexivity]. Qed.

Lemma digit_not_R c : isdigit c = true -> bool_decide (toupper c = "R"%char) = false.
Proof. revert c. by_char. Qed.

Lemma pretty_token (z : Z) : token (pretty z) /\ isRegisterToken (pretty z) = false.
Proof.
  destruct z as [|x|x]; [repeat split; discriminate| |];
    destruct (read_pretty read_magnitude (Npos x)) as (_ & Hd & Hne); pose proof (all_chars_impl _ _ _ digit_token Hd) as Ht.
  - change (pretty (Zpos x)) with (pretty (Npos x)). split; [split; assumption|].
    destruct (pretty (Npos x)) as [|c t]; [contradiction Hne; reflexivity|]. cbn in Hd. apply andb_true_iff in Hd as [Hc _].
    apply first_not_register, digit_not_R, Hc.
  - change (pretty (Zneg x)) with (String "-" (pretty (Npos x))). split; [split; [exact Ht | discriminate]|].
    apply first_not_register. reflexivity.
Qed.

(** The first character of a label stops the reader of numbers. *)
Lemma label_start c : negb (isalpha c) && negb (bool_decide (c = "_"%char)) = false ->
  isspace c = false /\ c <> "0"%char /\ (digit_value c <? 10) = false /\
  forall rest, match String c rest with String "-" r => (true, r, 1%nat) | String "+" r => (false, r, 1%nat)
               | _ => (false, String c rest, 0%nat) end = (false, String c rest, 0%nat).
Proof. destruct c as [[] [] [] [] [] [] [] []]; vm_compute; congruence || (intros _; repeat split; congruence). Qed.

Lemma label_not_integer name : label_ok name -> tryParseInteger name = None.
Proof.
  intros [Hname _ _ _]. unfold isValidLabelName in Hname. destruct name as [|c t]; [reflexivity|].
  destruct (negb _ && _) eqn:E; [discriminate|]. destruct (label_start c E) as (Hsp & H0 & Hv & Hsign).
  unfold tryParseInteger. cbn [empty]. unfold stoll, scan_integer. cbn [span]. rewrite Hsp, Hsign, read_magnitude_decimal by exact H0.
  cbn [read_digits]. rewrite Hv. reflexivity.
Qed.

Lemma label_is_token name : label_ok name -> token name.
Proof.
  intros [Hname _ _ _]. unfold isValidLabelName in Hname. destruct name as [|c t]; [discriminate|].
  destruct (negb _ && _); [discriminate|]. split; [exact (all_chars_impl _ _ _ label_token Hname) | discriminate].
Qed.

Section printed.
Context (n : Z) (dl : LabelTable).

Lemma parseOperand_token w : token w -> parseOperand w n dl =
  if isRegisterToken w then reg ← parseRegister w n; mret (registerOperand reg)
  else match tryParseInteger w with
       | Some value => mret (immediate value)
       | None =>
           _ ← requireValidLabelName w n;
           if bool_decide (is_Some (dl !! w))
           then throw (RuntimeError ("Data label '" +:+ w +:+ "' must be used as [" +:+ w +:+ "]" +:+ at_line n))
           else mret (label w)
       end.
Proof.
  intros Hw. destruct (operand_text_line w (or_introl Hw)) as (_ & Hs & Hne).
  unfold parseOperand. cbv zeta. rewrite trim_nonspace, bracketed_token by assumption.
  destruct w; [contradiction Hne; reflexivity | reflexivity].
Qed.

Lemma parseOperand_brackets w : token w -> parseOperand ("[" +:+ w +:+ "]") n dl =
  if isRegisterToken w then reg ← parseRegister w n; mret (registerIndirectAddress reg)
  else match tryParseInteger w with
       | Some address =>
           if address <? 0 then throw (RuntimeError ("Memory address cannot be negative" +:+ at_line n))
           else mret (memoryAddress (u64 address))
       | None =>
           _ ← requireValidLabelName w n;
           match dl !! w with
           | None => throw (RuntimeError ("Undefined data label '" +:+ w +:+ "'" +:+ at_line n))
           | Some address => mret (memoryAddress address)
           end
       end.
Proof.
  intros Hw. destruct (operand_text_line w (or_introl Hw)) as (_ & Hs & Hne).
  destruct (operand_text_line ("[" +:+ w +:+ "]") (or_intror (ex_intro _ w (conj Hw eq_refl)))) as (_ & Hs' & _).
  unfold parseOperand. cbv zeta. rewrite (trim_nonspace _ Hs'), bracketed_text by exact Hne.
  rewrite trim_nonspace by exact Hs. assert (Hr : isRegisterToken ("[" +:+ w +:+ "]") = false).
  { apply first_not_register. reflexivity. }
  rewrite Hr. destruct w; [contradiction Hne; reflexivity | reflexivity].
Qed.

(** Every operand is printed as text that is read back as the operand. *)
Lemma operand_printed o : operand_ok dl o -> o <> none ->
  exists t, Operand_toString o = Ret t /\ operand_text t /\ parseOperand t n dl = Ret o.
Proof.
  intros Ho Hne. destruct o as [reg|v|a|reg|name|]; cbn [operand_ok Operand_toString] in *; [..|contradiction Hne; reflexivity].
  - destruct (register_name reg Ho) as (w & -> & Hw & Hr & Hp). exists w. split; [reflexivity|]. split; [left; exact Hw|].
    rewrite parseOperand_token, Hr, Hp by exact Hw. reflexivity.
  - destruct (pretty_token v) as [Hw Hr]. eexists. split; [reflexivity|]. split; [left; exact Hw|].
    rewrite parseOperand_token, Hr, tryParseInteger_pretty by assumption. reflexivity.
  - destruct (pretty_token a) as [Hw Hr]. eexists. split; [reflexivity|]. split; [right; eauto|].
    rewrite parseOperand_brackets, Hr, tryParseInteger_pretty by (assumption || words).
    rewrite (proj2 (Z.ltb_ge _ _)), u64_small by words. reflexivity.
  - destruct (register_name reg Ho) as (w & -> & Hw & Hr & Hp). eexists. split; [reflexivity|]. split; [right; eauto|].
    rewrite parseOperand_brackets, Hr, Hp by exact Hw. reflexivity.
  - destruct Ho as [Hl Hd]. pose proof (label_is_token name Hl) as Hw. exists name. split; [reflexivity|]. split; [left; exact Hw|].
    rewrite parseOperand_token, label_not_integer, (lo_register _ Hl) by assumption.
    rewrite (proj2 (requireValidLabelName_spec name n) Hl), Hd. reflexivity.
Qed.

End printed.

(** ** Instructions *)

(** A line with nothing but a statement on it. *)
Record bare (text : string) : Prop := {
  bare_first : exists c t, text = String c t /\ label_char c = true;
  bare_chars : all_chars line_char text = true;
  bare_trim : trim text = text;
}.

Lemma opcode_name o : o <> Invalid -> all_chars label_char (opcodeToString o) = true /\
  opcodeToString o <> EmptyString /\ opcodeFromString (opcodeToString o) = o.
Proof. intros Ho. destruct o; try congruence; (split; [reflexivity | split; [discriminate | vm_compute; reflexivity]]). Qed.

Lemma words_bare w rest : all_chars label_char w = true -> w <> EmptyString -> all_chars line_char rest = true ->
  rest = EmptyString \/ (exists a s, rest = a +:+ s /\ s <> EmptyString /\ all_chars nonspace s = true) -> bare (w +:+ rest).
Proof.
  intros Hw Hne Hr Hend. destruct w as [|c w]; [contradiction Hne; reflexivity|]. pose proof Hw as Hc. cbn in Hc.
  apply andb_true_iff in Hc as [Hc _]. destruct (label_front c Hc) as (Hsp & _ & _). constructor.
  - exists c, (w +:+ rest). auto.
  - rewrite all_chars_app, Hr, andb_true_r.
    exact (all_chars_impl _ _ _ (fun ch H => token_line ch (label_token ch H)) Hw).
  - unfold trim. change (String c w +:+ rest) with (String c (w +:+ rest)). rewrite trim_start_first by exact Hsp.
    change (String c (w +:+ rest)) with (String c w +:+ rest). destruct Hend as [->|(a & s & -> & Hs & Hns)].
    + rewrite append_nil. apply trim_end_nonspace.
      exact (all_chars_impl _ _ _ (fun ch H => token_nonspace ch (label_token ch H)) Hw).
    + rewrite append_assoc. apply trim_end_append; [exact Hs | apply trim_end_nonspace, Hns].
Qed.

Lemma rest_of_line_plain s : all_chars line_char s = true -> rest_of_line s = s.
Proof.
  intros Hs. unfold rest_of_line. rewrite span_all; [reflexivity|]. refine (all_chars_impl _ _ _ _ Hs).
  intros ch Hch. rewrite (proj1 (line_separators ch Hch)). reflexivity.
Qed.

Lemma trim_joined a s : (exists c t, a = String c t /\ isspace c = false) -> s <> EmptyString ->
  all_chars nonspace s = true -> trim (a +:+ s) = a +:+ s.
Proof.
  intros (c & t & -> & Hc) Hs Hns. unfold trim. change (String c t +:+ s) with (String c (t +:+ s)).
  rewrite trim_start_first by exact Hc. change (String c (t +:+ s)) with (String c t +:+ s).
  apply trim_end_append; [exact Hs | apply trim_end_nonspace, Hns].
Qed.

Lemma nonspace_first t : all_chars nonspace t = true -> t <> EmptyString -> exists c u, t = String c u /\ isspace c = false.
Proof.
  intros Ht Hne. destruct t as [|c u]; [contradiction Hne; reflexivity|]. exists c, u. split; [reflexivity|].
  cbn in Ht. apply andb_true_iff in Ht as [Hc _]. unfold nonspace in Hc. apply negb_true_iff, Hc.
Qed.

(** The opcode, and the text of the operands behind it. *)
Lemma parseInstructionLine_text o operands n dl : o <> Invalid -> all_chars line_char operands = true ->
  trim operands = operands -> operands <> EmptyString ->
  parseInstructionLine (opcodeToString o +:+ String " " operands) n dl =
  ops ← splitOperands operands;
  match ops with
  | [d] => d ← parseOperand d n dl; mret {| opcode := o; dst := d; src := none |}
  | [d; s] => d ← parseOperand d n dl; s ← parseOperand s n dl; mret {| opcode := o; dst := d; src := s |}
  | _ => throw (RuntimeError ("Too many operands" +:+ at_line n +:+ ": " +:+ (opcodeToString o +:+ String " " operands)))
  end.
Proof.
  intros Ho Hops Htrim Hne. destruct (opcode_name o Ho) as (Hw & Hwne & Hop). unfold parseInstructionLine.
  rewrite next_word_space by (exact Hwne || exact (all_chars_impl _ _ _ (fun ch H => token_nonspace ch (label_token ch H)) Hw)).
  destruct (opcodeToString o) as [|c w] eqn:E; [contradiction Hwne; reflexivity|]. cbn [empty].
  rewrite Hop. cbv zeta. replace (isValidOpcode o) with true by (destruct o; try reflexivity; congruence). cbn [negb].
  rewrite rest_of_line_plain by exact Hops. rewrite trim_space, Htrim.
  destruct operands; [contradiction Hne; reflexivity | reflexivity].
Qed.

Lemma instruction_printed n dl i : instruction_ok dl i ->
  exists text, Instruction_toString i = Ret text /\ bare text /\ parseInstructionLine text n dl = Ret i.
Proof.
  intros [Ho Hd Hs Hshape]. destruct i as [o d s]. cbn in *. destruct (opcode_name o Ho) as (Hw & Hne & Hop).
  destruct (decide (d = none)) as [->|Hdn].
  - rewrite (Hshape eq_refl). exists (opcodeToString o). split; [reflexivity|].
    split; [rewrite <- append_nil; apply words_bare; auto|].
    unfold parseInstructionLine. rewrite next_word_whole
      by exact (all_chars_impl _ _ _ (fun ch H => token_nonspace ch (label_token ch H)) Hw).
    destruct (opcodeToString o) as [|c w] eqn:E; [contradiction Hne; reflexivity|]. cbn [empty]. rewrite Hop. cbv zeta.
    replace (isValidOpcode o) with true by (destruct o; try reflexivity; congruence). reflexivity.
  - destruct (operand_printed n dl d Hd Hdn) as (dt & Edt & Hdt & Hdp).
    destruct (operand_text_line dt Hdt) as (Hdl & Hdns & Hdne).
    assert (Hdst : Instruction_hasDestination {| opcode := o; dst := d; src := s |} = true) by (destruct d; reflexivity || congruence).
    unfold Instruction_toString. rewrite Hdst. cbn [dst src opcode]. rewrite Edt. cbn [mbind outcome_bind mret outcome_ret].
    destruct (decide (s = none)) as [->|Hsn].
    + exists (opcodeToString o +:+ String " " dt). split; [reflexivity|]. split.
      * apply words_bare; try assumption. right. exists " "%string, dt. auto.
      * rewrite parseInstructionLine_text by (assumption || apply trim_nonspace, Hdns).
        rewrite splitOperands_one by exact Hdt. cbn. rewrite Hdp. reflexivity.
    + destruct (operand_printed n dl s Hs Hsn) as (st & Est & Hst & Hsp).
      destruct (operand_text_line st Hst) as (Hsl & Hsns & Hsne).
      assert (Hsrc : Instruction_hasSource {| opcode := o; dst := d; src := s |} = true) by (destruct s; reflexivity || congruence).
      rewrite Hsrc, Est. cbn [mbind outcome_bind mret outcome_ret].
      assert (Hops : all_chars line_char (dt +:+ ", " +:+ st) = true).
      { rewrite !all_chars_app, Hdl, Hsl. reflexivity. }
      exists (opcodeToString o +:+ String " " (dt +:+ ", " +:+ st)).
      split; [rewrite <- !append_assoc; reflexivity|]. split.
      * apply words_bare; try assumption. right. exists (String " " (dt +:+ ", ")), st.
        split; [cbn; rewrite <- append_assoc; reflexivity | auto].
      * rewrite parseInstructionLine_text; [|assumption..| |].
        -- rewrite splitOperands_two by assumption. cbn. rewrite Hdp. cbn. rewrite Hsp. reflexivity.
        -- rewrite append_assoc. apply trim_joined; try assumption.
           destruct (nonspace_first dt Hdns Hdne) as (c & u & -> & Hc). exists c, (u +:+ ", "). auto.
        -- destruct dt; [contradiction Hdne; reflexivity | discriminate].
Qed.

(** ** Lines *)

Definition unlines (lines : list string) : string := foldr (fun line rest => line +:+ String newline rest) EmptyString lines.

Lemma splitLines_line t rest : all_chars line_char t = true -> splitLines (t +:+ String newline rest) = t :: splitLines rest.
Proof.
  induction t as [|c t IH]; intros Ht; [reflexivity|]. cbn in Ht. apply andb_true_iff in Ht as [Hc Ht].
  cbn [String.append splitLines]. rewrite (IH Ht), (proj1 (line_separators c Hc)). reflexivity.
Qed.

Lemma splitLines_unlines lines : Forall bare lines -> splitLines (unlines lines) = lines.
Proof.
  induction 1 as [|t lines Ht _ IH]; [reflexivity|]. cbn [unlines foldr]. rewrite splitLines_line by apply Ht.
  unfold unlines in IH. rewrite IH. reflexivity.
Qed.

Lemma removeComment_line t : all_chars line_char t = true -> removeComment t = t.
Proof.
  unfold removeComment. induction t as [|c t IH]; intros Ht; [reflexivity|]. cbn in Ht. apply andb_true_iff in Ht as [Hc Ht].
  destruct (line_separators c Hc) as (_ & E1 & E2 & _). cbn [remove_comment]. rewrite E1, E2, (IH Ht). reflexivity.
Qed.

Lemma bare_unlabelled t : bare t -> tryConsumeLabel t = (t, None).
Proof.
  intros [_ Ht Htrim]. unfold tryConsumeLabel. cbv zeta. rewrite Htrim, span_all; [reflexivity|].
  refine (all_chars_impl _ _ _ _ Ht). intros ch Hch. apply line_separators, Hch.
Qed.

(** A bare line is neither empty nor a directive. *)
Lemma bare_statement t : bare t ->
  empty t = false /\ isSectionDirective t = false /\ isEntryDirective t = false /\ front_is "." t = false.
Proof.
  intros [(c & s & -> & Hc) _ Htrim]. destruct (label_front c Hc) as (Hsp & Hlow & Hdot). split; [reflexivity|].
  unfold isSectionDirective, isEntryDirective. cbv zeta. rewrite Htrim, next_word_first by exact Hsp.
  assert (Hn : nonspace c = true) by (unfold nonspace; rewrite Hsp; reflexivity).
  assert (Hdif : forall u w, bool_decide (String (tolower c) u = String "." w) = false).
  { intros u w. apply bool_decide_eq_false. intros [= E _]. contradiction. }
  cbn [lowerCopy span front_is]. rewrite Hn. destruct (span nonspace s) as [before after]. cbn [fst lowerCopy].
  rewrite !Hdif, (bool_decide_eq_false_2 _ Hdot). auto.
Qed.

Lemma collect_bare t n symbols index offset : bare t ->
  collect_line t n {| ps_symbols := symbols; ps_section := Text; ps_index := index; ps_offset := offset |} =
  Ret {| ps_symbols := symbols; ps_section := Text; ps_index := index + 1; ps_offset := offset |}.
Proof.
  intros Ht. destruct (bare_statement t Ht) as (E1 & E2 & E3 & E4). unfold collect_line. cbv zeta.
  rewrite removeComment_line, (bare_trim _ Ht) by apply Ht. unfold label_fuel. cbn [collect_labels].
  rewrite bare_unlabelled by exact Ht. cbn [mbind outcome_bind mret outcome_ret]. rewrite E1, E2, E3, E4. reflexivity.
Qed.

Lemma emit_bare t n dl i es : bare t -> es_section es = Text -> parseInstructionLine t n dl = Ret i ->
  emit_line t n dl es = Ret {| es_section := Text; es_instructions := es_instructions es ++ [i];
                               es_lines := es_lines es ++ [n]; es_data := es_data es |}.
Proof.
  intros Ht Hsec Hi. destruct (bare_statement t Ht) as (E1 & E2 & E3 & _). unfold emit_line. cbv zeta.
  rewrite removeComment_line, (bare_trim _ Ht) by apply Ht. unfold label_fuel. cbn [skip_labels].
  rewrite bare_unlabelled by exact Ht. rewrite E1, E2, E3, Hsec.
  change (bool_decide (Text = Data)) with false. cbv iota. rewrite Hi. reflexivity.
Qed.

Lemma collect_listing lines : forall n symbols index offset, Forall bare lines ->
  collect_lines lines n {| ps_symbols := symbols; ps_section := Text; ps_index := index; ps_offset := offset |} =
  Ret {| ps_symbols := symbols; ps_section := Text; ps_index := index + Z.of_nat (length lines); ps_offset := offset |}.
Proof.
  induction lines as [|t lines IH]; intros n symbols index offset Hb; cbn [collect_lines].
  - cbn [length Z.of_nat]. rewrite Z.add_0_r. reflexivity.
  - inversion_clear Hb as [|? ? Ht Hb']. rewrite collect_bare by exact Ht. cbn [mbind outcome_bind]. rewrite (IH _ _ _ _ Hb').
    do 2 f_equal. cbn [length]. lia.
Qed.

(** [text] is the listing of instruction [i]. *)
Definition lists (dl : LabelTable) (i : Instruction) (text : string) : Prop :=
  Instruction_toString i = Ret text /\ bare text /\ forall n, parseInstructionLine text n dl = Ret i.

Lemma emit_listing dl prog lines : Forall2 (lists dl) prog lines -> forall n es, es_section es = Text ->
  emit_lines lines n dl es = Ret {| es_section := Text; es_instructions := es_instructions es ++ prog;
                                    es_lines := es_lines es ++ seqZ n (Z.of_nat (length prog)); es_data := es_data es |}.
Proof.
  induction 1 as [|i t prog lines (_ & Ht & Hp) _ IH]; intros n es Hes; cbn [emit_lines].
  - cbn. rewrite !app_nil_r. destruct es; cbn in *; subst; reflexivity.
  - rewrite (emit_bare t n dl i es Ht Hes (Hp n)). cbn [mbind outcome_bind]. rewrite IH by reflexivity. cbn [es_instructions es_lines es_data].
    cbn [length]. rewrite Nat2Z.inj_succ, <- !app_assoc, (seqZ_cons n) by lia. rewrite Z.pred_succ. reflexivity.
Qed.

Lemma listing_lines dl prog : Forall (instruction_ok dl) prog -> exists lines, Forall2 (lists dl) prog lines.
Proof.
  induction 1 as [|i prog Hi _ [lines IH]]; [exists []; constructor|].
  destruct (instruction_printed 1 dl i Hi) as (text & Et & Hb & _). exists (text :: lines). constructor; [|exact IH].
  split; [exact Et|]. split; [exact Hb|]. intros n. destruct (instruction_printed n dl i Hi) as (text' & Et' & _ & Hp). congruence.
Qed.

(** ** Properties *)

(** (C22) Listings assemble back.  Take any instructions the assembler can make
    without data labels: every one of them can be printed, and the listing with
    one printed instruction per line assembles to exactly those instructions,
    the lines numbered from 1, with no labels and no data and the first
    instruction as the entry. *)
Theorem assemble_listing (prog : list Instruction) (Hp : Forall (instruction_ok ∅) prog) :
  exists lines, Forall2 (fun i text => Instruction_toString i = Ret text) prog lines /\
    assembleString (unlines lines) =
    Ret {| instructions := prog; instruction_source_lines := seqZ 1 (Z.of_nat (length prog));
           ap_labels := ∅; data_labels := ∅; ap_data_base := kUserDataBase; ap_data := [];
           has_explicit_entry := false; entry_label := EmptyString; entry_instruction := 0 |}.
Proof.
  destruct (listing_lines ∅ prog Hp) as [lines Hl]. exists lines.
  split; [eapply Forall2_impl; [exact Hl | intros i text (H & _); exact H]|].
  assert (Hb : Forall bare lines) by (eapply Forall2_Forall_r; [exact Hl | apply Forall_true; intros i text (_ & H & _); exact H]).
  unfold assembleString. rewrite splitLines_unlines by exact Hb. cbv zeta. unfold collectSymbols.
  rewrite collect_listing by exact Hb. cbn [mbind outcome_bind]. cbv zeta. cbn.
  pose proof (emit_listing ∅ prog lines Hl 1 initial_emit eq_refl) as He. unfold initial_emit in He. unfold emitProgram. cbn.
  rewrite He. reflexivity.
Qed.

(** ** Witness *)

Definition listed : list Instruction :=
  [{| opcode := MOV; dst := registerOperand R0; src := immediate (-5) |};
   {| opcode := STORE; dst := memoryAddress 16; src := registerOperand R0 |};
   {| opcode := LOAD; dst := registerOperand R1; src := registerIndirectAddress R2 |};
   {| opcode := JMP; dst := label "loop_1"; src := none |};
   {| opcode := HALT; dst := none; src := none |}].

Lemma assemble_listing_witness :
  Forall (instruction_ok ∅) listed /\
  exists lines, Forall2 (fun i text => Instruction_toString i = Ret text) listed lines /\
    instructions <$> assembleString (unlines lines) = Ret listed.
Proof.
  assert (Hl : Forall (instruction_ok ∅) listed).
  { repeat constructor; try discriminate; try reflexivity; try (vm_compute; reflexivity). }
  split; [exact Hl|]. destruct (assemble_listing listed Hl) as (lines & Hlines & Ha). exists lines.
  split; [exact Hlines|]. rewrite Ha. reflexivity.
Defined.
