(* ===== verification/CPUShape.v ===== *)
(** * What one CPU step does to the parts of the CPU that programs do not see

    The configuration (program, code range, devices, handler) never changes, and
    a step of a CPU that is not stopped records exactly one trace event, from the
    program counter before the step to the state after it.  A software interrupt
    is observed only in such a step, and one that terminates the process leaves
    the CPU halted, without an error, and with the exit code requested.  A host
    handler has to leave the error status of the state alone ([QuietHandler]). *)

From S2P Require Import Prelude Words ALU Memory ISA Binary Interrupts Devices CPUState Trace CPU CPUExec CPUStep CPUFrames CPUInv CPURun.
Open Scope Z_scope.

Class QuietHandler (H : Type) {SIH : SoftwareInterruptHandler H} : Prop :=
  handle_quiet : forall vector bus h s w,
    let s' := (handle vector bus (h, s, w)).2.1.2 in
    has_error s' = has_error s /\ length (registers s') = length (registers s) /\ length (memory s') = length (memory s).

#[export] Instance no_handler_quiet : @QuietHandler unit no_handler.
Proof. intros vector bus h s w. repeat split. Qed.

(** A register file and a memory of the sizes of the hardware. *)
Definition shaped (s : CPUState) : Prop :=
  length (registers s) = kRegisterCount /\ Memory_size (memory s) = kDefaultMemorySize.

(** The members no instruction assigns. *)
Record same_config (c c' : CPU) : Prop := {
  sc_binary : has_binary_program c' = has_binary_program c;
  sc_range : has_user_code_range c' = has_user_code_range c /\ user_code_begin c' = user_code_begin c /\
             user_code_end_exclusive c' = user_code_end_exclusive c;
  sc_devices : mmio_bus c' = mmio_bus c /\ interrupt_controller c' = interrupt_controller c /\
               clocked_devices c' = clocked_devices c;
  sc_handler : has_software_interrupt_handler c' = has_software_interrupt_handler c;
}.

Lemma same_config_refl c : same_config c c.
Proof. repeat split. Qed.

(** While an instruction executes: no event is recorded, nothing has been
    observed, and the state has no error. *)
Record executing (c c' : CPU) : Prop := {
  ex_config : same_config c c';
  ex_trace : trace_logger c' = trace_logger c;
  ex_quiet : has_software_interrupt_observation c' = false;
  ex_error : has_error (state c') = false;
  ex_shape : shaped (state c');
}.

(** A software interrupt has just been serviced. *)
Record observing (c c' : CPU) : Prop := {
  ob_config : same_config c c';
  ob_trace : trace_logger c' = trace_logger c;
  ob_shape : shaped (state c');
  ob_exit : disposition (obs_result (software_interrupt_observation c')) = TerminateProcess ->
    process_exit_requested c' = true /\ process_exit_code c' = exit_code (obs_result (software_interrupt_observation c')) /\
    halted (state c') = true /\ has_error (state c') = false;
}.

Section shape.
Context {LD : LongDouble} {H : Type} {SIH : SoftwareInterruptHandler H} {QH : QuietHandler H}.
Context (c0 : CPU).
Implicit Types (m : Machine H).
Abbreviation X := (fun m : Machine H => executing c0 (cpu m)).
Abbreviation ok := (fun _ => True).

Lemma x_gets {A} (f : Machine H -> A) : safe X (gets f) ok.
Proof. apply safe_gets. auto. Qed.

Lemma x_check {A} (f : CPU -> outcome A) : safe X (check f) ok.
Proof. intros m Hm. unfold check. destruct (f (cpu m)); [split; auto | exact Hm]. Qed.

Lemma x_lift {A} (o : outcome A) : safe X (lift o) ok.
Proof. apply safe_lift. auto. Qed.

Lemma x_on_state f :
  (forall s, has_error (f s) = has_error s /\ registers (f s) = registers s /\ memory (f s) = memory s) -> safe X (on_state f) ok.
Proof.
  intros Hf. apply safe_modify. intros m [[] H2 H3 H4 H5]. destruct (Hf (mstate m)) as (He & Hr & Hm). cbn beta.
  constructor; [constructor; assumption | exact H2 | exact H3 | |]; unfold set_mstate; cbn [cpu set_cpu set_state state].
  - unfold mstate in He. congruence.
  - unfold shaped, mstate in *. rewrite Hr, Hm. exact H5.
Qed.

Lemma x_assign f : (forall c, executing c0 c -> executing c0 (f c)) -> safe X (assign f) ok.
Proof. intros Hf. apply safe_modify. intros m. apply Hf. Qed.

Lemma x_update_flags f : safe X (update_flags f) ok.
Proof. apply x_on_state. repeat split. Qed.

Lemma x_on_world {A} (mw : M World A) : safe X (on_world mw) ok.
Proof.
  intros m Hm. unfold on_world, zoom. destruct (mw (world m)) as [[a|e] w]; [split; [exact Logic.I|]|]; exact Hm.
Qed.

Lemma x_write_memory a v : safe X (write_memory a v) ok.
Proof.
  apply safe_update. intros m s Hm Hs. apply bind_ret_inv in Hs as (mem & Hw & [= <-]).
  destruct Hm as [[] H2 H3 H4 [H5 H6]]. constructor; [constructor; assumption | exact H2 | exact H3 | exact H4 |].
  split; [exact H5|]. apply writeU64_size in Hw. unfold Memory_size in *. cbn. rewrite Hw. exact H6.
Qed.

Lemma x_write_register r v : safe X (write_register r v) ok.
Proof.
  apply safe_update. intros m s Hm Hs. apply bind_ret_inv in Hs as (regs & Hw & [= <-]).
  destruct Hm as [[] H2 H3 H4 [H5 H6]]. constructor; [constructor; assumption | exact H2 | exact H3 | exact H4 |].
  split; [|exact H6]. apply RegisterFile_set_length in Hw. cbn. rewrite Hw. exact H5.
Qed.

Lemma x_read_register r : safe X (read_register r) ok.
Proof. unfold read_register. eapply safe_bind; [apply x_gets | intros s _]. apply x_lift. Qed.

Lemma x_get : safe X get ok.
Proof. eapply safe_conseq; [apply safe_get | auto]. Qed.

Lemma x_sync v : safe X (sync_kernel_sp v) ok.
Proof. apply x_assign. intros c [[] H2 H3 H4 H5]. destruct (using_kernel_interrupt_stack c); repeat (constructor; try assumption). Qed.

Hint Resolve x_gets x_check x_lift x_update_flags x_on_world x_write_memory x_write_register x_read_register x_get x_sync : safe.
Hint Extern 2 (safe _ (on_state _) _) => apply x_on_state; intros ?; repeat split : safe.
Hint Extern 2 (safe _ (assign _) _) =>
  apply x_assign; intros ? [[] ? ? ? ?]; repeat case_match; repeat (constructor; try assumption) : safe.

Lemma x_tick_devices l : safe X (tick_devices l) ok.
Proof.
  induction l as [|[d|] l IH]; cbn [tick_devices]; [apply safe_ret, Logic.I | | apply safe_throw].
  eapply safe_bind; [apply x_on_world | intros _ _; exact IH].
Qed.
Hint Resolve x_tick_devices : safe.

Lemma x_setPc a : safe X (setPcForExecution a) ok.
Proof. unfold setPcForExecution. safe_go. Qed.
Lemma x_advancePc : safe X advancePcUnlessHalted ok.
Proof. unfold advancePcUnlessHalted. safe_go. Qed.
Lemma x_advanceBinaryPc : safe X advanceBinaryPcUnlessHalted ok.
Proof. unfold advanceBinaryPcUnlessHalted. safe_go. Qed.
Lemma x_readData a : safe X (readDataMemory a) ok.
Proof. unfold readDataMemory. safe_go. Qed.
Lemma x_writeData a v : safe X (writeDataMemory a v) ok.
Proof. unfold writeDataMemory. safe_go. Qed.
Lemma x_push v : safe X (pushValue v) ok.
Proof. unfold pushValue. safe_go. Qed.
Lemma x_pop : safe X popValue ok.
Proof. unfold popValue. safe_go. Qed.
Lemma x_peek : safe X peekValue ok.
Proof. unfold peekValue. safe_go. Qed.
Lemma x_pushFrame ra : safe X (pushInterruptFrame ra) ok.
Proof. unfold pushInterruptFrame. safe_go. Qed.
Lemma x_restoreFrame msg allow : safe X (restoreInterruptFrame msg allow) ok.
Proof. unfold restoreInterruptFrame. safe_go. Qed.
Hint Resolve x_setPc x_advancePc x_advanceBinaryPc x_readData x_writeData x_push x_pop x_peek x_pushFrame x_restoreFrame : safe.

Lemma x_servicePending : safe X servicePendingInterruptIfNeeded ok.
Proof. unfold servicePendingInterruptIfNeeded. safe_go. Qed.

Lemma x_call_handler v : safe X (call_handler v) ok.
Proof.
  intros m [Hc Ht Hq He Hs]. unfold call_handler.
  pose proof (handle_quiet v (mmio_bus (cpu m)) (handler m) (mstate m) (world m)) as (H1 & H2 & H3).
  destruct (handle _ _ _) as [[r|e] [[h s] w]]; cbn in *; [split; [exact Logic.I|]|];
    destruct Hc; (constructor; [constructor; assumption | exact Ht | exact Hq | cbn; unfold mstate in *; congruence |]);
    unfold shaped, Memory_size, mstate in *; cbn; rewrite H2, H3; exact Hs.
Qed.

Lemma x_require_controller : safe X require_controller ok.
Proof. unfold require_controller. safe_go. Qed.
Lemma x_set_interrupts b name : safe X (set_interrupts b name) ok.
Proof. unfold set_interrupts. safe_go. Qed.
Lemma x_readBinaryAddress t p : safe X (readBinaryMemoryAddress t p) ok.
Proof. unfold readBinaryMemoryAddress. safe_go. Qed.
Hint Resolve x_servicePending x_call_handler x_require_controller x_set_interrupts x_readBinaryAddress : safe.
Lemma x_readBinaryOperand t p : safe X (readBinaryOperandValue t p) ok.
Proof. unfold readBinaryOperandValue. safe_go. Qed.
Lemma x_writeBinaryRegister t p v : safe X (writeBinaryRegisterDestination t p v) ok.
Proof. unfold writeBinaryRegisterDestination. safe_go. Qed.
Lemma x_readAddress o : safe X (readMemoryAddress o) ok.
Proof. unfold readMemoryAddress. safe_go. Qed.
Hint Resolve x_readBinaryOperand x_writeBinaryRegister x_readAddress : safe.
Lemma x_readOperand o : safe X (readOperandValue o) ok.
Proof. unfold readOperandValue. safe_go. Qed.
Lemma x_writeRegister o v : safe X (writeRegisterDestination o v) ok.
Proof. unfold writeRegisterDestination. safe_go. Qed.
Hint Resolve x_readOperand x_writeRegister : safe.

(** ** Software interrupts *)

(** The outcome of executing an instruction. *)
Definition executed {A} (m : M (Machine H) A) : Prop :=
  hoare X m (fun _ m => X m \/ observing c0 (cpu m)) (fun _ m => X m).

Lemma safe_executed {A} (m : M (Machine H) A) Q : safe X m Q -> executed m.
Proof. intros Hm. eapply safe_hoare; [exact Hm | auto | auto]. Qed.

Lemma executed_bind {A B} (m : M (Machine H) A) (f : A -> M (Machine H) B) :
  safe X m ok -> (forall a, executed (f a)) -> executed (m ≫= f).
Proof. intros Hm Hf. eapply safe_hoare_bind; [exact Hm | auto | intros a _; apply Hf]. Qed.

Lemma x_serviceHost v ra :
  hoare X (serviceHostSoftwareInterrupt v ra)
    (fun serviced m => if (serviced : bool) then observing c0 (cpu m) else X m) (fun _ m => X m).
Proof.
  unfold serviceHostSoftwareInterrupt. eapply safe_hoare_bind; [apply x_get | auto | intros m _].
  destruct (_ || _); [apply hoare_ret; auto|].
  do 3 (eapply safe_hoare_bind; [first [solve [eauto with safe nocore] | apply safe_try; [apply x_call_handler | intros e; safe_go]] | auto | intros ? _]).
  eapply safe_hoare_bind; [apply x_restoreFrame | auto | intros _ _].
  intros m' [Hc Ht Hq He Hs]. case_bool_decide as Hd; cbn;
    (constructor; cbn; [destruct Hc; constructor; assumption | exact Ht | exact Hs |]); auto.
  intros E. contradiction.
Qed.

Lemma x_executeBinary_INT i : executed (executeBinary_INT i).
Proof.
  unfold executeBinary_INT.
  do 4 (apply executed_bind; [solve [eauto with safe nocore | eauto with safe_default nocore] | intros ?]). cbv zeta.
  apply executed_bind; [solve [eauto with safe nocore] | intros ?].
  intros m Hm. rewrite bind_run. pose proof (x_serviceHost (u8 a1) (u64 (pc a3 + kInstructionSize)) m Hm) as Hs.
  destruct (serviceHostSoftwareInterrupt _ _ m) as [[b|e] m1]; [|exact Hs]. destruct b; [right; exact Hs|].
  revert m1 Hs. eapply (safe_executed _ ok). safe_go.
Qed.

Lemma x_executeInt i : executed (executeInt i).
Proof.
  unfold executeInt.
  do 4 (apply executed_bind; [solve [eauto with safe nocore | eauto with safe_default nocore] | intros ?]). cbv zeta.
  apply executed_bind; [solve [eauto with safe nocore] | intros ?].
  intros m Hm. rewrite bind_run. pose proof (x_serviceHost (u8 a1) (u64 (pc a3 + 1)) m Hm) as Hs.
  destruct (serviceHostSoftwareInterrupt _ _ m) as [[b|e] m1]; [|exact Hs]. destruct b; [right; exact Hs|].
  revert m1 Hs. eapply (safe_executed _ ok). safe_go.
Qed.

Lemma x_stepBinary : executed stepBinary.
Proof.
  unfold stepBinary. apply executed_bind; [apply x_check | intros i].
  unfold executeBinaryInstruction. apply executed_bind; [apply x_check | intros _].
  destruct (dec_opcode i); try apply x_executeBinary_INT; apply (safe_executed _ ok).
  all: unfold executeBinary_NOP, executeBinary_HALT, executeBinary_MOV, executeBinary_LOAD, executeBinary_ADD,
    executeBinary_SUB, executeBinary_MUL, executeBinary_DIV, executeBinary_AND, executeBinary_OR, executeBinary_XOR,
    executeBinary_STORE, executeBinary_NOT, executeBinary_CMP, executeBinary_TEST, executeBinary_JMP,
    executeBinary_JE, executeBinary_JNE, executeBinary_JG, executeBinary_JL, executeBinary_PUSH,
    executeBinary_POP, executeBinary_CALL, executeBinary_RET, executeBinary_IRET, executeBinary_EI,
    executeBinary_DI, binary_alu, binary_branch, binary_compare; safe_go.
Qed.

Lemma x_execute i : executed (execute i).
Proof.
  unfold execute. apply executed_bind; [apply x_check | intros _].
  destruct (opcode i); try apply x_executeInt; apply (safe_executed _ ok).
  all: unfold executeNop, executeHalt, executeMov, executeLoad, executeStore, executeNot, executeCmp,
    executeTest, executeJmp, executeJe, executeJne, executeJg, executeJl, executePush, executePop,
    executeCall, executeRet, executeIret, executeEi, executeDi, executeAdd, executeSub, executeMul, executeDiv,
    executeAnd, executeOr, executeXor, execute_alu, execute_compare, execute_branch; safe_go.
Qed.

(** ** The step *)

(** Operands name registers the hardware has. *)
Definition real_operand (o : Operand) : Prop :=
  match o with registerOperand reg | registerIndirectAddress reg => reg <> Count | _ => True end.
Definition real_operands (i : Instruction) : Prop := real_operand (dst i) /\ real_operand (src i).

(** What a step of a CPU that is not stopped leaves. *)
Record stepped (c : CPU) (c' : CPU) : Prop := {
  st_config : same_config c c';
  st_shape : shaped (state c');
  st_event : exists e, trace_logger c' = trace_logger c ++ [e] /\ ev_before e = state c /\ ev_after e = state c' /\
    (has_binary_program c = true -> real_operands (ev_instruction e));
  st_observed : has_software_interrupt_observation c' = true ->
    disposition (obs_result (software_interrupt_observation c')) = TerminateProcess ->
    process_exit_requested c' = true /\ process_exit_code c' = exit_code (obs_result (software_interrupt_observation c')) /\
    halted (state c') = true /\ has_error (state c') = false;
}.

End shape.

Section step_shape.
Context {LD : LongDouble} {H : Type} {SIH : SoftwareInterruptHandler H} {QH : QuietHandler H}.
Implicit Types (m : Machine H).

(** A step may begin: nothing is observed yet. *)
Lemma executing_self c :
  has_error (state c) = false -> has_software_interrupt_observation c = false -> shaped (state c) -> executing c c.
Proof. intros He Hq Hs. constructor; [apply same_config_refl | reflexivity | exact Hq | exact He | exact Hs]. Qed.

(** The event that ends a step. *)
Lemma record_stepped m before i message c :
  before = state c -> (has_binary_program c = true -> real_operands i) -> same_config c (cpu m) -> shaped (mstate m) -> trace_logger (cpu m) = trace_logger c ->
  (has_software_interrupt_observation (cpu m) = true -> observing c (cpu m)) ->
  stepped c (cpu (record_trace before i message m).2).
Proof.
  intros Hp Hi [] Hs Ht Ho. constructor; cbn.
  - constructor; assumption.
  - exact Hs.
  - eexists. split; [rewrite Ht; reflexivity | split; [exact Hp | split; [reflexivity | exact Hi]]].
  - intros Hq. apply (ob_exit _ _ (Ho Hq)).
Qed.

Lemma executing_stepped m before i message c :
  before = state c -> (has_binary_program c = true -> real_operands i) -> executing c (cpu m) ->
  stepped c (cpu (record_trace before i message m).2).
Proof.
  intros Hp Hi [Hc Ht Hq _ Hs]. apply record_stepped; [exact Hp | exact Hi | exact Hc | exact Hs | exact Ht | congruence].
Qed.

Lemma failed_stepped m before i message c :
  before = state c -> (has_binary_program c = true -> real_operands i) -> executing c (cpu m) ->
  stepped c (cpu (record_trace before i message (setRuntimeError message m).2).2).
Proof.
  intros Hp Hi [[] Ht Hq _ Hs]. apply record_stepped; [exact Hp | exact Hi | constructor; assumption | exact Hs | exact Ht | cbn; congruence].
Qed.

Lemma step_interrupt_stepped m before :
  before = mstate m -> executing (cpu m) (cpu m) ->
  let '(o, m') := step_interrupt before m in
  match o with
  | Ret true => stepped (cpu m) (cpu m')
  | Ret false => m' = m
  | Throw _ => False
  end.
Proof.
  intros Hp Hm. unfold step_interrupt, try_catch. rewrite bind_run.
  pose proof (x_servicePending (cpu m) m Hm) as Hs.
  assert (Hidle : forall m', servicePendingInterruptIfNeeded m = (Ret false, m') -> m' = m).
  { intros m'. unfold servicePendingInterruptIfNeeded, get. rewrite bind_run. cbv beta iota.
    destruct (interrupt_controller (cpu m)); [|intros [= <-]; reflexivity].
    destruct (negb _); [intros [= <-]; reflexivity|]. intros E. exfalso.
    repeat (apply M_bind_ret_inv in E as (? & ? & _ & E)). discriminate E. }
  destruct (servicePendingInterruptIfNeeded m) as [[b|e] m1].
  - destruct Hs as [_ Hs]. destruct b; [|apply Hidle; reflexivity]. rewrite bind_run.
    pose proof (x_read_register (cpu m) R0 m1 Hs) as Hr. destruct (read_register R0 m1) as [[v|e] m2].
    + destruct Hr as [_ Hr]. rewrite bind_run. cbn. apply executing_stepped; [exact Hp | repeat split | exact Hr].
    + rewrite bind_run. unfold mbind at 1. cbn. apply failed_stepped; [exact Hp | repeat split | exact Hr].
  - rewrite bind_run. unfold mbind at 1. cbn. apply failed_stepped; [exact Hp | repeat split | exact Hs].
Qed.

Lemma tick_keeps_cpu c : safe (fun m => cpu m = c) (tickClockedDevices (H:=H)) (fun _ => True).
Proof.
  unfold tickClockedDevices. eapply safe_bind; [apply (safe_gets _ _ (fun _ => True)); auto | intros c' _].
  induction (clocked_devices c') as [|[d|] l IH]; cbn [tick_devices]; [apply safe_ret, Logic.I | | apply safe_throw].
  eapply (safe_bind _ _ _ (fun _ => True)); [|intros _ _; exact IH].
  intros m Hm. unfold on_world, zoom. destruct (timer_tick d (world m)) as [[a|e] w]; [split; [exact Logic.I|]|]; exact Hm.
Qed.

(** An instruction has executed, whatever came of it. *)
Record settled (c c' : CPU) : Prop := {
  se_config : same_config c c';
  se_trace : trace_logger c' = trace_logger c;
  se_shape : shaped (state c');
  se_observed : has_software_interrupt_observation c' = true -> observing c c';
}.

Lemma executed_settled c c' :
  executing c c' \/ observing c c' ->
  settled c c'.
Proof.
  intros [[Hc Ht Hq _ Hs]|[Hc Ht Hs Ho]]; (constructor; [exact Hc | exact Ht | exact Hs |]); intros Hq';
    [congruence | constructor; assumption].
Qed.

(** What executing the instruction leaves, before its event is recorded. *)
Lemma execution_settles (exec : M (Machine H) unit) c :
  executed c exec ->
  hoare (fun m => executing c (cpu m))
    (try_catch (_ ← exec; _ ← tick_unless_stopped; mret EmptyString) (fun ex => _ ← setRuntimeError (what ex); mret (what ex)))
    (fun _ m => settled c (cpu m))
    (fun _ _ => False).
Proof.
  intros Hexec m Hm. unfold try_catch. rewrite bind_run. specialize (Hexec m Hm).
  assert (Hfail : forall (m1 : Machine H) msg, same_config c (cpu m1) -> trace_logger (cpu m1) = trace_logger c -> shaped (mstate m1) ->
    (has_software_interrupt_observation (cpu m1) = true -> observing c (cpu m1) /\ halted (mstate m1) = false) ->
    match (_ ← setRuntimeError msg; mret msg) m1 with
    | (Ret _, m) => settled c (cpu m)
    | (Throw _, _) => False
    end).
  { intros m1 msg [] Ht Hs Ho. cbn. constructor; [constructor; assumption | exact Ht | exact Hs |]. intros Hq.
    destruct (Ho Hq) as [Hob Hh]. constructor; [constructor; assumption | exact Ht | exact Hs |]. cbn. intros Hd.
    destruct (ob_exit _ _ Hob Hd) as (_ & _ & Hh' & _). unfold mstate in Hh. congruence. }
  destruct (exec m) as [[u|e] m1].
  - apply executed_settled in Hexec. rewrite bind_run. unfold tick_unless_stopped at 1. rewrite bind_run. unfold gets at 1. cbv beta iota.
    destruct (negb (halted (mstate m1)) && negb (has_error (mstate m1))) eqn:Eh.
    + apply andb_true_iff in Eh as [Eh _]. apply negb_true_iff in Eh.
      pose proof (tick_keeps_cpu (cpu m1) m1 eq_refl) as Htick.
      destruct (tickClockedDevices m1) as [[u'|e] m2]; cbn in Htick; [destruct Htick as [_ Htick]|].
      * cbn. rewrite Htick. exact Hexec.
      * destruct Hexec as [Hc Ht Hs Ho]. apply Hfail; unfold mstate; rewrite Htick; [exact Hc | exact Ht | exact Hs |].
        intros Hq. split; [exact (Ho Hq) | exact Eh].
    + exact Hexec.
  - destruct Hexec as [Hc Ht Hq He Hs]. apply Hfail; [exact Hc | exact Ht | exact Hs | congruence].
Qed.

Lemma step_instruction_stepped (fetch : CPU -> outcome Instruction) (exec : Instruction -> M (Machine H) unit) m c :
  mstate m = state c -> (has_binary_program c = true -> forall i, fetch (cpu m) = Ret i -> real_operands i) ->
  executing c (cpu m) -> (forall i, executed c (exec i)) ->
  exists m', step_instruction fetch exec m = (Ret tt, m') /\ stepped c (cpu m').
Proof.
  intros Hp Hi Hm Hexec. unfold step_instruction. rewrite bind_run. unfold gets at 1. cbv beta iota. rewrite bind_run.
  unfold try_catch at 1. rewrite bind_run. unfold check at 1. destruct (fetch (cpu m)) as [i|e].
  - cbv beta iota. cbn [mret M_ret]. rewrite bind_run.
    pose proof (execution_settles (exec i) c (Hexec i) m Hm) as Hs.
    destruct (try_catch _ _ m) as [[msg|e] m1]; [|destruct Hs]. destruct Hs as [Hc Ht Hs Ho].
    eexists. split; [reflexivity|]. apply (record_stepped m1 (mstate m) i msg); auto.
  - cbn [mret M_ret]. cbv beta iota. eexists. split; [reflexivity|]. apply (failed_stepped m (mstate m)); [exact Hp | repeat split | exact Hm].
Qed.

Lemma traced_operand_real c type payload o : traceOperandFromEncoded c type payload = Ret o -> real_operand o.
Proof.
  assert (Hreg : forall reg, decodeBinaryRegister payload = Ret reg -> reg <> Count).
  { unfold decodeBinaryRegister. intros reg. repeat case_match; intros E; try discriminate E; injection E as <-; discriminate. }
  unfold traceOperandFromEncoded.
  destruct type; repeat case_match; intros E; try discriminate E;
    try (apply bind_ret_inv in E as (reg & Hr & E)); injection E as <-; try exact Logic.I; exact (Hreg _ Hr).
Qed.

(** The instructions of the binary engine name real registers. *)
Lemma fetched_operands c i : fetch_binary c = Ret i -> real_operands i.
Proof.
  intros Hf. apply bind_ret_inv in Hf as ([] & _ & Hf). unfold traceInstructionForCurrentBinaryPc in Hf.
  apply bind_ret_inv in Hf as (d & _ & Hf). apply bind_ret_inv in Hf as (o1 & H1 & Hf). apply bind_ret_inv in Hf as (o2 & H2 & Hf).
  injection Hf as <-. apply traced_operand_real in H1, H2.
  destruct (Operand_isNone o1), (Operand_isNone o2); split; assumption || exact Logic.I.
Qed.

Lemma stepped_from_clear c c' : stepped (clearSoftwareInterruptObservation c) c' -> stepped c c'.
Proof. intros [[] Hs He Ho]. constructor; [constructor; assumption | exact Hs | exact He | exact Ho]. Qed.

(** A step of a CPU that is not stopped. *)
Lemma CPU_step_stepped m :
  stopped m = false -> shaped (mstate m) -> exists m', CPU_step m = (Ret tt, m') /\ stepped (cpu m) (cpu m').
Proof.
  intros Hs Hsh. unfold stopped in Hs. unfold CPU_step. rewrite bind_run. unfold gets at 1. cbv beta iota. rewrite Hs.
  rewrite bind_run. unfold assign at 1, modify at 1. cbv beta iota. rewrite bind_run. unfold gets at 1. cbv beta iota.
  set (m1 := set_cpu clearSoftwareInterruptObservation m). apply orb_false_iff in Hs as [_ He].
  assert (Hx : executing (cpu m1) (cpu m1)) by (apply executing_self; [exact He | reflexivity | exact Hsh]).
  rewrite bind_run. pose proof (step_interrupt_stepped m1 (mstate m1) eq_refl Hx) as Hi.
  destruct (step_interrupt (mstate m1) m1) as [[[]|e] m2]; [| |destruct Hi].
  - eexists. split; [reflexivity|]. apply stepped_from_clear, Hi.
  - subst m2. rewrite bind_run. unfold gets at 1. cbv beta iota.
    destruct (has_binary_program (cpu m1)) eqn:Ebin.
    + destruct (step_instruction_stepped fetch_binary (fun _ => stepBinary) m1 (cpu m1) eq_refl (fun _ => fetched_operands (cpu m1)) Hx (fun _ => x_stepBinary _))
        as (m' & -> & Hm'). eexists. split; [reflexivity | apply stepped_from_clear, Hm'].
    + destruct (step_instruction_stepped fetch_program execute m1 (cpu m1) eq_refl (fun E => match eq_true_false_abs _ E Ebin with end) Hx (x_execute _))
        as (m' & -> & Hm'). eexists. split; [reflexivity | apply stepped_from_clear, Hm'].
Qed.

End step_shape.
