(* ===== verification/Runner.v ===== *)
(** * The multi-process runner: [src/system/MultiProcessRunner.cpp]

    Images become processes of a fresh table, a fresh CPU gets the bus and the
    handler of the options, and the lifecycle is stepped until the runtime ends or
    the step limit is reached, while the runner records execution events, software
    interrupts and context switches.  [TraceLogger] keeps growing over the run;
    the runner copies its last event after a step that recorded one. *)

From S2P Require Import Prelude Words ALU Memory ISA Binary Interrupts Devices CPUState Trace CPU CPUExec CPUStep Image Process ProcTable Scheduler Dispatcher Preemption Lifecycle.
Open Scope Z_scope.

(** ** Options and results *)

(** The bus is a reference into the store; the handler is an object of the
    machine, and [opt_has_handler] says whether the pointer is not null. *)
Record MultiProcessRunOptions := {
  opt_timer_vector : Z;
  opt_quantum : Z;
  opt_timer_payload : Z;
  max_lifecycle_steps : Z;
  opt_normal_exit_code : Z;
  opt_fault_exit_code : Z;
  opt_mmio_bus : option nat;
  opt_has_handler : bool;
}.

Definition default_options : MultiProcessRunOptions :=
  {| opt_timer_vector := 240; opt_quantum := 2; opt_timer_payload := 0; max_lifecycle_steps := 100000;
     opt_normal_exit_code := 0; opt_fault_exit_code := -1; opt_mmio_bus := None; opt_has_handler := false |}.

Record ProcessExecutionTraceRecord := { et_lifecycle_step : Z; et_pid : ProcessId; et_event : TraceEvent }.

Record ProcessSoftwareInterruptTraceRecord := {
  si_lifecycle_step : Z;
  si_pid : ProcessId;
  si_observation : SoftwareInterruptObservation;
}.

Record ProcessContextSwitchTraceRecord := {
  cs_lifecycle_step : Z;
  cs_from_pid : ProcessId;
  cs_to_pid : ProcessId;
  cs_preempted : bool;
  cs_caused_by_termination : bool;
}.

Record ProcessRunSummary := {
  rs_pid : ProcessId;
  rs_source_name : string;
  rs_state : ProcessState;
  rs_has_exit_code : bool;
  rs_exit_code : Z;
  rs_termination_kind : ProcessTerminationKind;
  rs_termination_message : string;
  rs_final_context : ProcessContext;
  rs_final_memory : Memory;
  rs_has_executable_image : bool;
  rs_code_end_exclusive : Z;
  rs_data_base : Z;
  rs_data_size : Z;
}.

Definition ProcessRunSummary_terminated (s : ProcessRunSummary) : bool :=
  bool_decide (rs_state s = Terminated) && rs_has_exit_code s.
Definition ProcessRunSummary_faulted (s : ProcessRunSummary) : bool :=
  ProcessRunSummary_terminated s && bool_decide (rs_termination_kind s = CpuFault).

Record MultiProcessRunResult := {
  runtime_state : ProcessRuntimeState;
  step_limit_reached : bool;
  lifecycle_steps : Z;
  process_count : Z;
  termination_count : Z;
  fault_count : Z;
  preemption_count : Z;
  context_switch_count : Z;
  execution_trace : list ProcessExecutionTraceRecord;
  software_interrupts : list ProcessSoftwareInterruptTraceRecord;
  context_switches : list ProcessContextSwitchTraceRecord;
  run_processes : list ProcessRunSummary;
}.

Definition MultiProcessRunResult_completed (r : MultiProcessRunResult) : bool :=
  negb (step_limit_reached r) && bool_decide (runtime_state r = RS_Completed).
Definition MultiProcessRunResult_success (r : MultiProcessRunResult) : bool :=
  MultiProcessRunResult_completed r && (fault_count r =? 0).

Definition MultiProcessRunResult_process (r : MultiProcessRunResult) (pid : ProcessId) : outcome ProcessRunSummary :=
  match list_find (fun s => rs_pid s = pid) (run_processes r) with
  | Some (_, summary) => mret summary
  | None => throw (RuntimeError ("Multi-process result does not contain PID " +:+ pretty pid))
  end.

Definition validateOptions (o : MultiProcessRunOptions) : outcome unit :=
  _ ← throw_if (opt_quantum o =? 0) (RuntimeError "Multi-process quantum must be greater than zero");
  throw_if (max_lifecycle_steps o =? 0) (RuntimeError "Multi-process step limit must be greater than zero").

(** ** Helpers *)

Definition reachedExecutableEnd (c : CPU) (t : ProcessTable) : outcome bool :=
  if negb (hasRunningProcess t) || has_error (state c) then mret false
  else
    running ← runningProcessId t;
    p ← requireProcess running t;
    if negb (hasExecutableImage (pcb_address_space p)) then mret false
    else
      md ← executableMetadata (pcb_address_space p);
      mret (pc (state c) =? md_code_end_exclusive md).

Definition makeSummary (pid : ProcessId) (p : ProcessControlBlock) (c : CPU) (isRunning : bool) : outcome ProcessRunSummary :=
  exit ← (if pcb_has_exit_code p then
            code ← ProcessControlBlock_exitCode p;
            kind ← ProcessControlBlock_terminationKind p;
            message ← ProcessControlBlock_terminationMessage p;
            mret (code, kind, message)
          else mret (0, NormalExit, EmptyString));
  let '(code, kind, message) := exit in
  final ← (if isRunning then context ← captureProcessContextSnapshot pid c; mret (context, memory (state c))
           else mret (pcb_context p, as_memory (pcb_address_space p)));
  let '(context, mem) := final in
  image ← (if hasExecutableImage (pcb_address_space p) then
             md ← executableMetadata (pcb_address_space p);
             mret (md_source_name md, md_code_end_exclusive md, md_data_base md, md_data_size md)
           else mret (EmptyString, 0, 0, 0));
  let '(name, code_end, base, size) := image in
  mret {| rs_pid := pid; rs_source_name := name; rs_state := pcb_state p; rs_has_exit_code := pcb_has_exit_code p;
          rs_exit_code := code; rs_termination_kind := kind; rs_termination_message := message;
          rs_final_context := context; rs_final_memory := mem;
          rs_has_executable_image := hasExecutableImage (pcb_address_space p); rs_code_end_exclusive := code_end;
          rs_data_base := base; rs_data_size := size |}.

(** [for (image : images) { validateProcessImage(image); table.createProcess(image); }] *)
Fixpoint create_processes (images : list ProcessImage) : M ProcessTable unit :=
  match images with
  | [] => mret tt
  | image :: images =>
      _ ← lift (validateProcessImage image);
      _ ← createProcess_image image;
      create_processes images
  end.

(** The vectors the loop fills, and the number of steps. *)
Record RunLog := {
  log_steps : Z;
  log_execution : list ProcessExecutionTraceRecord;
  log_interrupts : list ProcessSoftwareInterruptTraceRecord;
  log_switches : list ProcessContextSwitchTraceRecord;
}.

Definition empty_log : RunLog := {| log_steps := 0; log_execution := []; log_interrupts := []; log_switches := [] |}.

Section runner.
Context {LD : LongDouble} {H : Type} {SIH : SoftwareInterruptHandler H}.

Abbreviation Lifecycle := (ProcessLifecycleManager * System H)%type.

(** [while (controller->hasPending(vector, source)) controller->acknowledge(vector, source);]:
    every turn takes a request out of the queue, so its length bounds the turns. *)
Fixpoint acknowledge_all (fuel : nat) (vector : Z) (source : string) : M InterruptController unit :=
  match fuel with
  | O => mret tt
  | S fuel =>
      c ← get;
      if InterruptController_hasPending_for c vector source
      then _ ← InterruptController_acknowledge_for vector source; acknowledge_all fuel vector source
      else mret tt
  end.

Definition discardCompletionTimerRequest : M (System H) unit :=
  s ← get;
  let p := s_preemptive s in
  let vector := tmr_vector (timer_at (world (s_machine s)) (tp_timer p)) in
  let queued := pending (controller_at (world (s_machine s)) (tp_controller p)) in
  on_machine (on_world (on_controller (tp_controller p) (acknowledge_all (S (length queued)) vector kTimerSource))).

(** The pid of the running process, or 0. *)
Definition current_pid (t : ProcessTable) : ProcessId := if hasRunningProcess t then running_pid t else 0.

(** The runner has one CPU. *)
Definition this_cpu : nat := 0.

(** The records a lifecycle step adds, from the step's result and what was read
    before it. *)
Definition record_step (beforePid : ProcessId) (traceSizeBefore : nat) (preemptionsBefore : Z)
    (r : ProcessLifecycleStepResult) (log : RunLog) : M Lifecycle RunLog :=
  let steps := u64 (log_steps log + 1) in
  '(_, s) ← get;
  execution ← (if (traceSizeBefore <? length (trace_logger (cpu (s_machine s))))%nat then
                 event ← lift (TraceLogger_last (trace_logger (cpu (s_machine s))));
                 mret (log_execution log ++ [{| et_lifecycle_step := steps; et_pid := beforePid; et_event := event |}])
               else mret (log_execution log));
  interrupts ← (if has_software_interrupt_observation (cpu (s_machine s)) then
                  observation ← lift (softwareInterruptObservation (cpu (s_machine s)));
                  _ ← on_system (on_machine (assign clearSoftwareInterruptObservation));
                  mret (log_interrupts log ++
                        [{| si_lifecycle_step := steps; si_pid := beforePid; si_observation := observation |}])
                else mret (log_interrupts log));
  let afterPid := current_pid (s_table s) in
  mret {| log_steps := steps; log_execution := execution; log_interrupts := interrupts;
          log_switches :=
            if negb (beforePid =? afterPid) then
              log_switches log ++
              [{| cs_lifecycle_step := steps; cs_from_pid := beforePid; cs_to_pid := afterPid;
                  cs_preempted := tp_preemption_count (s_preemptive s) >? preemptionsBefore;
                  cs_caused_by_termination := lr_process_terminated r |}]
            else log_switches log |}.

(** The body of the loop. *)
Definition runner_step (log : RunLog) : M Lifecycle (ProcessRuntimeState * RunLog) :=
  '(_, s) ← get;
  _ ← throw_if (negb (hasRunningProcess (s_table s)))
        (RuntimeError "Running multi-process runtime has no Running process");
  beforePid ← lift (runningProcessId (s_table s));
  let traceSizeBefore := length (trace_logger (cpu (s_machine s))) in
  let preemptionsBefore := tp_preemption_count (s_preemptive s) in
  ended ← lift (reachedExecutableEnd (cpu (s_machine s)) (s_table s));
  _ ← (if (ended : bool) then
         _ ← on_system discardCompletionTimerRequest;
         on_cpu_state (setHalted true)
       else mret tt);
  r ← lifecycle_step this_cpu;
  log ← record_step beforePid traceSizeBefore preemptionsBefore r log;
  mret (lr_state r, log).

(** [while (state == Running && steps < max)], with the steps left. *)
Fixpoint runner_loop (remaining : nat) (runtimeState : ProcessRuntimeState) (log : RunLog)
    : M Lifecycle (ProcessRuntimeState * RunLog) :=
  match remaining with
  | O => mret (runtimeState, log)
  | S remaining =>
      if negb (bool_decide (runtimeState = RS_Running)) then mret (runtimeState, log)
      else '(runtimeState, log) ← runner_step log; runner_loop remaining runtimeState log
  end.

Definition summarize (s : System H) : outcome (list ProcessRunSummary) :=
  mapM (fun pid => p ← requireProcess pid (s_table s);
                   makeSummary pid p (cpu (s_machine s))
                     (hasRunningProcess (s_table s) && (running_pid (s_table s) =? pid)))
       (processIds (s_table s)).

(** From [lifecycle.start] to the result. *)
Definition run_session (maxSteps : Z) : M Lifecycle MultiProcessRunResult :=
  runtimeState ← lifecycle_start this_cpu;
  '(runtimeState, log) ← runner_loop (Z.to_nat maxSteps) runtimeState empty_log;
  '(m, s) ← get;
  summaries ← lift (summarize s);
  mret {| runtime_state := runtimeState;
          step_limit_reached := bool_decide (runtimeState = RS_Running) && (log_steps log >=? maxSteps);
          lifecycle_steps := log_steps log;
          process_count := Z.of_nat (ProcessTable_size (s_table s));
          termination_count := lm_termination_count m;
          fault_count := lm_fault_count m;
          preemption_count := tp_preemption_count (s_preemptive s);
          context_switch_count := tp_context_switch_count (s_preemptive s);
          execution_trace := log_execution log;
          software_interrupts := log_interrupts log;
          context_switches := log_switches log;
          run_processes := summaries |}.

(** The CPU of the run. *)
Definition runner_cpu (o : MultiProcessRunOptions) : outcome CPU :=
  let c := match opt_mmio_bus o with Some bus => set_mmio_bus (Some bus) new_CPU | None => new_CPU end in
  if opt_has_handler o then setSoftwareInterruptHandler true c else mret c.

(** The store and the handler are shared with the caller; the CPU, the table and
    the schedulers are local to the call. *)
Definition run_on (c : CPU) (table : ProcessTable) (preemptive : TimerPreemptiveScheduler) (o : MultiProcessRunOptions)
    : M (World * H) MultiProcessRunResult :=
  fun '(w, h) =>
    let '(r, (_, s)) :=
      run_session (max_lifecycle_steps o)
        (new_ProcessLifecycleManager (opt_normal_exit_code o) (opt_fault_exit_code o),
         mkSystem (mkMachine c w h) table new_RoundRobinScheduler preemptive) in
    (r, (world (s_machine s), handler (s_machine s))).

Definition MultiProcessRunner_runImages (images : list ProcessImage) (o : MultiProcessRunOptions)
    : M (World * H) MultiProcessRunResult :=
  _ ← lift (validateOptions o);
  _ ← throw_if (bool_decide (images = [])) (RuntimeError "runImages requires at least one process image");
  table ← lift (let '(r, t) := create_processes images new_ProcessTable in _ ← r; mret t);
  c ← lift (runner_cpu o);
  preemptive ← zoom fst (fun w '(_, h) => (w, h))
                 (new_TimerPreemptiveScheduler (opt_timer_vector o) (opt_quantum o) (opt_timer_payload o));
  run_on c table preemptive o.

(** [read_file] gives the bytes of a host file, or throws. *)
Fixpoint load_images (read_file : string -> outcome (list Z)) (paths : list string) : outcome (list ProcessImage) :=
  match paths with
  | [] => mret []
  | path :: paths =>
      _ ← throw_if (bool_decide (path = EmptyString)) (RuntimeError "Executable path must not be empty");
      bytes ← read_file path;
      image ← ProcessImageLoader_loadFromBytes bytes path;
      images ← load_images read_file paths;
      mret (image :: images)
  end.

Definition MultiProcessRunner_runFiles (read_file : string -> outcome (list Z)) (paths : list string)
    (o : MultiProcessRunOptions) : M (World * H) MultiProcessRunResult :=
  _ ← throw_if (bool_decide (paths = [])) (RuntimeError "runFiles requires at least one executable");
  images ← lift (load_images read_file paths);
  MultiProcessRunner_runImages images o.

End runner.
