(* ===== verification/Verifier.v ===== *)
(** * The invariant verifier: [src/system/MultiProcessInvariantVerifier.cpp]

    The run-time check of a [MultiProcessRunResult]: counters against the
    summaries, the order and the owners of the recorded events, and the timeline
    of running processes they describe.  [verify] adds a violation per failed
    check; [VerifierLaws] says when it adds none. *)

From S2P Require Import Prelude Words ALU Memory ISA Binary Interrupts Devices CPUState Trace CPU Image Process ProcTable Preemption Lifecycle Runner.
Open Scope Z_scope.

Record MultiProcessInvariantViolation := {
  viol_code : string;
  viol_message : string;
  viol_lifecycle_step : Z;
  viol_pid : ProcessId;
}.

Record MultiProcessInvariantReport := { violations : list MultiProcessInvariantViolation }.

Definition MultiProcessInvariantReport_passed (r : MultiProcessInvariantReport) : bool := bool_decide (violations r = []).
Definition MultiProcessInvariantReport_violationCount (r : MultiProcessInvariantReport) : nat := length (violations r).

#[export] Instance violation_eq_dec : EqDecision MultiProcessInvariantViolation.
Proof. solve_decision. Defined.

(** ** The checks

    [when c code message step pid] is [if (c) addViolation(...)]: the violations
    to append. *)

Definition when (c : bool) (code message : string) (step : Z) (pid : ProcessId) : list MultiProcessInvariantViolation :=
  if c then [{| viol_code := code; viol_message := message; viol_lifecycle_step := step; viol_pid := pid |}] else [].

(** The loop over the summaries: the violations, the set of identifiers, and the
    two counters. *)
Record SummaryScan := { sc_ids : gset ProcessId; sc_terminated : Z; sc_faulted : Z }.

Fixpoint scan_summaries (l : list ProcessRunSummary) (st : SummaryScan) : list MultiProcessInvariantViolation * SummaryScan :=
  match l with
  | [] => ([], st)
  | process :: l =>
      let bad := (rs_pid process =? 0) || bool_decide (rs_pid process ∈ sc_ids st) in
      let st' := {| sc_ids := if bad then sc_ids st else {[rs_pid process]} ∪ sc_ids st;
                    sc_terminated := if ProcessRunSummary_terminated process then u64 (sc_terminated st + 1) else sc_terminated st;
                    sc_faulted := if ProcessRunSummary_faulted process then u64 (sc_faulted st + 1) else sc_faulted st |} in
      let '(v, st'') := scan_summaries l st' in
      (when bad "invalid_process_id" "process summaries contain a zero or duplicate PID" 0 (rs_pid process) ++ v, st'')
  end.

Definition out_of_range (r : MultiProcessRunResult) (step : Z) : bool := (step =? 0) || (step >? lifecycle_steps r).

(** The loops over the records keep the step of the record before, when there is
    one ([index != 0]). *)
Definition not_after (previous : option Z) (step : Z) : bool :=
  match previous with None => false | Some p => step <=? p end.

Fixpoint check_execution (r : MultiProcessRunResult) (ids : gset ProcessId) (l : list ProcessExecutionTraceRecord)
    (previous : option Z) (lastPcAfter : gmap ProcessId Z) : list MultiProcessInvariantViolation :=
  match l with
  | [] => []
  | record :: l =>
      let step := et_lifecycle_step record in
      let pid := et_pid record in
      when (out_of_range r step) "execution_step_out_of_range" "execution event lifecycle step is out of range" step pid ++
      when (not_after previous step) "execution_steps_not_strict" "execution events are not strictly ordered" step pid ++
      when (negb (bool_decide (pid ∈ ids))) "execution_unknown_pid" "execution event references an unknown PID" step pid ++
      when (match lastPcAfter !! pid with
            | Some last => negb (pc (ev_before (et_event record)) =? last)
            | None => false
            end) "execution_pc_discontinuity" "PID execution PC does not resume from its prior event" step pid ++
      check_execution r ids l (Some step) (<[pid := pc (ev_after (et_event record))]> lastPcAfter)
  end.

Definition matches_execution (r : MultiProcessRunResult) (record : ProcessSoftwareInterruptTraceRecord) : bool :=
  existsb (fun e => (et_lifecycle_step e =? si_lifecycle_step record) && (et_pid e =? si_pid record)) (execution_trace r).

Definition matches_termination (r : MultiProcessRunResult) (record : ProcessSoftwareInterruptTraceRecord) : bool :=
  existsb (fun s => (cs_lifecycle_step s =? si_lifecycle_step record) && (cs_from_pid s =? si_pid record)
                    && cs_caused_by_termination s) (context_switches r).

Fixpoint check_interrupts (r : MultiProcessRunResult) (ids : gset ProcessId) (l : list ProcessSoftwareInterruptTraceRecord)
    (previous : option Z) : outcome (list MultiProcessInvariantViolation) :=
  match l with
  | [] => mret []
  | record :: l =>
      let step := si_lifecycle_step record in
      let pid := si_pid record in
      let result := obs_result (si_observation record) in
      termination ←
        (if bool_decide (disposition result = TerminateProcess) then
           exit_code_violation ←
             (if bool_decide (pid ∈ ids) then
                process ← MultiProcessRunResult_process r pid;
                mret (when (negb (rs_has_exit_code process) || negb (rs_exit_code process =? exit_code result))
                        "software_interrupt_exit_code_mismatch"
                        "software interrupt exit code does not match process summary" step pid)
              else mret []);
           mret (when (negb (matches_termination r record)) "terminating_software_interrupt_without_handoff"
                   "terminating software interrupt has no termination handoff" step pid ++ exit_code_violation)
         else mret []);
      rest ← check_interrupts r ids l (Some step);
      mret (when (out_of_range r step) "software_interrupt_step_out_of_range"
              "software interrupt lifecycle step is out of range" step pid ++
            when (not_after previous step) "software_interrupt_steps_not_strict"
              "software interrupt events are not strictly ordered" step pid ++
            when (negb (bool_decide (pid ∈ ids))) "software_interrupt_unknown_pid"
              "software interrupt references an unknown PID" step pid ++
            when (negb (matches_execution r record)) "software_interrupt_without_execution"
              "software interrupt has no matching execution event" step pid ++
            termination ++ rest)
  end.

Fixpoint check_switches (r : MultiProcessRunResult) (ids : gset ProcessId) (l : list ProcessContextSwitchTraceRecord)
    (previous : option Z) : list MultiProcessInvariantViolation :=
  match l with
  | [] => []
  | record :: l =>
      let step := cs_lifecycle_step record in
      let from := cs_from_pid record in
      let to := cs_to_pid record in
      when (out_of_range r step) "switch_step_out_of_range" "context-switch lifecycle step is out of range" step from ++
      when (not_after previous step) "switch_steps_not_strict" "context switches are not strictly ordered" step from ++
      when (negb (bool_decide (from ∈ ids))) "switch_unknown_from_pid"
        "context switch references an unknown source PID" step from ++
      when (negb (to =? 0) && negb (bool_decide (to ∈ ids))) "switch_unknown_to_pid"
        "context switch references an unknown destination PID" step to ++
      when (from =? to) "switch_same_pid" "context-switch record does not change PID" step from ++
      when (cs_preempted record && cs_caused_by_termination record) "switch_conflicting_cause"
        "context switch cannot be both preemption and termination" step from ++
      when ((to =? 0) && negb (cs_caused_by_termination record)) "switch_to_zero_without_termination"
        "PID 0 destination requires process termination" step from ++
      check_switches r ids l (Some step)
  end.

Definition count_switches (p : ProcessContextSwitchTraceRecord -> bool) (l : list ProcessContextSwitchTraceRecord) : Z :=
  u64 (Z.of_nat (length (filter (fun s => p s = true) l))).

(** The timeline: the records not consumed yet, and the process that runs. *)
Record Timeline := {
  tl_execution : list ProcessExecutionTraceRecord;
  tl_switches : list ProcessContextSwitchTraceRecord;
  tl_current : ProcessId;
}.

(** One turn of the loop over the lifecycle steps. *)
Definition timeline_step (step : Z) (t : Timeline) : list MultiProcessInvariantViolation * Timeline :=
  let execution := match tl_execution t with e :: _ => if et_lifecycle_step e =? step then Some e else None | [] => None end in
  let switch := match tl_switches t with s :: _ => if cs_lifecycle_step s =? step then Some s else None | [] => None end in
  let current :=
    if tl_current t =? 0
    then match execution, switch with
         | Some e, _ => et_pid e
         | None, Some s => cs_from_pid s
         | None, None => tl_current t
         end
    else tl_current t in
  (match execution with
   | Some e => when (negb (current =? 0) && negb (et_pid e =? current)) "execution_pid_mismatch"
                 "execution event PID does not match running timeline PID" step (et_pid e)
   | None => []
   end ++
   match switch with
   | Some s => when (negb (current =? 0) && negb (cs_from_pid s =? current)) "switch_from_pid_mismatch"
                 "context switch source does not match running timeline PID" step (cs_from_pid s)
   | None => []
   end,
   {| tl_execution := match execution with Some _ => tail (tl_execution t) | None => tl_execution t end;
      tl_switches := match switch with Some _ => tail (tl_switches t) | None => tl_switches t end;
      tl_current := match switch with Some s => cs_to_pid s | None => current end |}).

(** [for (step = first; step <= lifecycle_steps; ++step)], with the turns left. *)
Fixpoint timeline_loop (turns : nat) (step : Z) (t : Timeline) : list MultiProcessInvariantViolation * Timeline :=
  match turns with
  | O => ([], t)
  | S turns =>
      let '(v, t) := timeline_step step t in
      let '(vs, t) := timeline_loop turns (step + 1) t in
      (v ++ vs, t)
  end.

Definition check_timeline (r : MultiProcessRunResult) : list MultiProcessInvariantViolation :=
  let '(v, t) := timeline_loop (Z.to_nat (lifecycle_steps r)) 1
                   {| tl_execution := execution_trace r; tl_switches := context_switches r; tl_current := 0 |} in
  v ++
  when (negb (bool_decide (tl_execution t = [])) || negb (bool_decide (tl_switches t = [])))
    "timeline_unconsumed_records" "timeline contains records outside lifecycle ordering" 0 0 ++
  when (bool_decide (runtime_state r = RS_Running) && negb (lifecycle_steps r =? 0) && (tl_current t =? 0))
    "running_without_pid" "Running runtime timeline ends without a running PID" 0 0 ++
  when (bool_decide (runtime_state r = RS_Completed) && negb (tl_current t =? 0))
    "completed_with_running_pid" "Completed runtime timeline still has a running PID" (lifecycle_steps r) (tl_current t).

Definition verify (r : MultiProcessRunResult) : outcome MultiProcessInvariantReport :=
  let '(summary_violations, scan) := scan_summaries (run_processes r) {| sc_ids := ∅; sc_terminated := 0; sc_faulted := 0 |} in
  let ids := sc_ids scan in
  interrupt_violations ← check_interrupts r ids (software_interrupts r) None;
  mret {| violations :=
    when (negb (process_count r =? Z.of_nat (length (run_processes r)))) "process_count_mismatch"
      "process_count does not match process summaries" 0 0 ++
    summary_violations ++
    when (negb (termination_count r =? sc_terminated scan)) "termination_count_mismatch"
      "termination_count does not match terminal processes" 0 0 ++
    when (negb (fault_count r =? sc_faulted scan)) "fault_count_mismatch" "fault_count does not match faulted processes" 0 0 ++
    when ((fault_count r >? termination_count r) || (termination_count r >? process_count r)) "invalid_termination_counts"
      "fault/termination counts violate process-count bounds" 0 0 ++
    when (context_switch_count r >? preemption_count r) "invalid_preemption_counts"
      "context-switch count exceeds preemption count" 0 0 ++
    when (step_limit_reached r && negb (bool_decide (runtime_state r = RS_Running))) "invalid_step_limit_state"
      "step-limit result must remain in Running state" 0 0 ++
    check_execution r ids (execution_trace r) None ∅ ++
    interrupt_violations ++
    check_switches r ids (context_switches r) None ++
    when (negb (count_switches cs_preempted (context_switches r) =? context_switch_count r)) "preempted_switch_count_mismatch"
      "preempted switch records do not match scheduler count" 0 0 ++
    when (negb (count_switches cs_caused_by_termination (context_switches r) =? termination_count r))
      "termination_switch_count_mismatch" "termination switch records do not match termination count" 0 0 ++
    check_timeline r |}.
