(* ===== verification/VerifierLaws.v ===== *)
(** * What the invariant verifier checks

    [consistent] states, without the verifier's cursors, maps and counters, what a
    run must look like: the counters against the summaries, the order, range and
    owners of the records, and a schedule, a process for every lifecycle step, that
    explains them.  [verify] returns a report for every result, and the report is
    empty exactly for the consistent ones. *)

From S2P Require Import Prelude Words ALU Memory ISA Binary Interrupts Devices CPUState Trace CPU Image Process ProcTable Preemption Lifecycle Runner Verifier.
Open Scope Z_scope.

(** ** Specification *)

Fixpoint ordered (previous : option Z) (steps : list Z) : Prop :=
  match steps with
  | [] => True
  | step :: steps => match previous with Some p => p < step | None => True end /\ ordered (Some step) steps
  end.

Definition in_steps (n step : Z) : Prop := step <> 0 /\ step <= n.

(** The events of a process continue where its previous event ended. *)
Fixpoint chain (last : gmap ProcessId Z) (l : list ProcessExecutionTraceRecord) : Prop :=
  match l with
  | [] => True
  | e :: l =>
      (forall v, last !! et_pid e = Some v -> pc (ev_before (et_event e)) = v) /\
      chain (<[et_pid e := pc (ev_after (et_event e))]> last) l
  end.

Record execution_ok (n : Z) (ids : gset ProcessId) (l : list ProcessExecutionTraceRecord) : Prop := {
  exo_ordered : ordered None (et_lifecycle_step <$> l);
  exo_records : Forall (fun e => in_steps n (et_lifecycle_step e) /\ et_pid e ∈ ids) l;
  exo_chain : chain ∅ l;
}.

Record switch_ok (n : Z) (ids : gset ProcessId) (s : ProcessContextSwitchTraceRecord) : Prop := {
  swo_step : in_steps n (cs_lifecycle_step s);
  swo_from : cs_from_pid s ∈ ids;
  swo_to : cs_to_pid s = 0 \/ cs_to_pid s ∈ ids;
  swo_changes : cs_from_pid s <> cs_to_pid s;
  swo_cause : cs_preempted s && cs_caused_by_termination s = false;
  swo_zero : cs_to_pid s = 0 -> cs_caused_by_termination s = true;
}.

Record interrupt_ok (r : MultiProcessRunResult) (ids : gset ProcessId) (i : ProcessSoftwareInterruptTraceRecord) : Prop := {
  ino_step : in_steps (lifecycle_steps r) (si_lifecycle_step i);
  ino_pid : si_pid i ∈ ids;
  ino_execution : matches_execution r i = true;
  ino_termination : disposition (obs_result (si_observation i)) = TerminateProcess ->
    matches_termination r i = true /\
    exists p, MultiProcessRunResult_process r (si_pid i) = Ret p /\ rs_has_exit_code p = true /\
              rs_exit_code p = exit_code (obs_result (si_observation i));
}.

(** [during k] runs in lifecycle step [k], [after k] is running when it is over;
    0 while no record has told. *)
Record slot_ok (exec : list ProcessExecutionTraceRecord) (switches : list ProcessContextSwitchTraceRecord)
    (during after : Z -> ProcessId) (k : Z) : Prop := {
  slot_exec : forall e, e ∈ exec -> et_lifecycle_step e = k -> et_pid e = during k;
  slot_switch : forall s, s ∈ switches -> cs_lifecycle_step s = k -> cs_from_pid s = during k /\ cs_to_pid s = after k;
  slot_known : after (k - 1) <> 0 -> during k = after (k - 1);
  slot_stays : (forall s, s ∈ switches -> cs_lifecycle_step s <> k) -> after k = during k;
  slot_unknown : after (k - 1) = 0 -> (forall e, e ∈ exec -> et_lifecycle_step e <> k) ->
    (forall s, s ∈ switches -> cs_lifecycle_step s <> k) -> during k = 0;
}.

Definition schedule (n : Z) (exec : list ProcessExecutionTraceRecord) (switches : list ProcessContextSwitchTraceRecord)
    (final : ProcessId) : Prop :=
  exists during after, after 0 = 0 /\ after n = final /\ forall k, 1 <= k <= n -> slot_ok exec switches during after k.

Definition run_pids (r : MultiProcessRunResult) : list ProcessId := rs_pid <$> run_processes r.

Definition countb {A} (f : A -> bool) (l : list A) : Z := Z.of_nat (length (filter (fun x => f x = true) l)).

Record consistent (r : MultiProcessRunResult) : Prop := {
  con_count : process_count r = Z.of_nat (length (run_processes r));
  con_pids : NoDup (run_pids r) /\ 0 ∉ run_pids r;
  con_terminated : termination_count r = u64 (countb ProcessRunSummary_terminated (run_processes r));
  con_faulted : fault_count r = u64 (countb ProcessRunSummary_faulted (run_processes r));
  con_bounds : fault_count r <= termination_count r <= process_count r;
  con_preemptions : context_switch_count r <= preemption_count r;
  con_limit : step_limit_reached r = true -> runtime_state r = RS_Running;
  con_execution : execution_ok (lifecycle_steps r) (list_to_set (run_pids r)) (execution_trace r);
  con_interrupts : ordered None (si_lifecycle_step <$> software_interrupts r) /\
    Forall (interrupt_ok r (list_to_set (run_pids r))) (software_interrupts r);
  con_switches : ordered None (cs_lifecycle_step <$> context_switches r) /\
    Forall (switch_ok (lifecycle_steps r) (list_to_set (run_pids r))) (context_switches r);
  con_preempted : u64 (countb cs_preempted (context_switches r)) = context_switch_count r;
  con_handoffs : u64 (countb cs_caused_by_termination (context_switches r)) = termination_count r;
  con_schedule : exists final, schedule (lifecycle_steps r) (execution_trace r) (context_switches r) final /\
    (runtime_state r = RS_Running -> lifecycle_steps r <> 0 -> final <> 0) /\ (runtime_state r = RS_Completed -> final = 0);
}.

(** ** Lemmas: the checks one by one *)

Lemma when_nil c code message step pid : when c code message step pid = [] <-> c = false.
Proof. destruct c; split; intros E; try reflexivity; discriminate E. Qed.

Lemma app_nil_iff {A} (l k : list A) : l ++ k = [] <-> l = [] /\ k = [].
Proof. destruct l; cbn; split; [auto | intros [_ H]; exact H | discriminate | intros [H _]; discriminate]. Qed.

Lemma out_of_range_spec r step : out_of_range r step = false <-> in_steps (lifecycle_steps r) step.
Proof. unfold out_of_range, in_steps. rewrite orb_false_iff, Z.eqb_neq, Z.gtb_ltb, Z.ltb_ge. reflexivity. Qed.

Lemma not_after_spec previous step :
  not_after previous step = false <-> match previous with Some p => p < step | None => True end.
Proof. destruct previous as [p|]; cbn; [apply Z.leb_gt | split; auto]. Qed.

Lemma unknown_spec (pid : ProcessId) (ids : gset ProcessId) : negb (bool_decide (pid ∈ ids)) = false <-> pid ∈ ids.
Proof. rewrite negb_false_iff. apply bool_decide_eq_true. Qed.

Lemma check_execution_spec r ids l : forall previous last,
  check_execution r ids l previous last = [] <->
  ordered previous (et_lifecycle_step <$> l) /\
  Forall (fun e => in_steps (lifecycle_steps r) (et_lifecycle_step e) /\ et_pid e ∈ ids) l /\ chain last l.
Proof.
  induction l as [|e l IH]; intros previous last; cbn; [repeat split; constructor|].
  rewrite !app_nil_iff, !when_nil, out_of_range_spec, not_after_spec, unknown_spec, Forall_cons, IH.
  assert (Hc : match last !! et_pid e with Some v => negb (pc (ev_before (et_event e)) =? v) | None => false end = false <->
    (forall v, last !! et_pid e = Some v -> pc (ev_before (et_event e)) = v)).
  { destruct (last !! et_pid e) as [v|]; [|split; [discriminate | reflexivity]].
    rewrite negb_false_iff, Z.eqb_eq. split; [intros E w [= <-]; exact E | auto]. }
  rewrite Hc. tauto.
Qed.

Lemma check_switches_spec r ids l : forall previous,
  check_switches r ids l previous = [] <->
  ordered previous (cs_lifecycle_step <$> l) /\ Forall (switch_ok (lifecycle_steps r) ids) l.
Proof.
  induction l as [|s l IH]; intros previous; cbn; [repeat split; constructor|].
  rewrite !app_nil_iff, !when_nil, out_of_range_spec, not_after_spec, unknown_spec, Forall_cons, IH.
  assert (Ht : negb (cs_to_pid s =? 0) && negb (bool_decide (cs_to_pid s ∈ ids)) = false <-> cs_to_pid s = 0 \/ cs_to_pid s ∈ ids).
  { rewrite andb_false_iff, negb_false_iff, Z.eqb_eq, unknown_spec. reflexivity. }
  assert (Hz : (cs_to_pid s =? 0) && negb (cs_caused_by_termination s) = false <->
               (cs_to_pid s = 0 -> cs_caused_by_termination s = true)).
  { rewrite andb_false_iff, negb_false_iff, Z.eqb_neq. destruct (cs_caused_by_termination s); [tauto|].
    destruct (decide (cs_to_pid s = 0)); intuition congruence. }
  rewrite Ht, Hz, Z.eqb_neq. split.
  - intros (H1 & H2 & H3 & H4 & H5 & H6 & H7 & H8 & H9). split; [split; assumption|]. split; [constructor|]; assumption.
  - intros ((H2 & H8) & [H1 H3 H4 H5 H6 H7] & H9). auto 10.
Qed.

(** ** Lemmas: the summaries *)

Lemma u64_succ a : u64 (u64 a + 1) = u64 (a + 1).
Proof. unfold u64. rewrite Zplus_mod_idemp_l. reflexivity. Qed.

Lemma countb_cons {A} (f : A -> bool) x l : countb f (x :: l) = (if f x then 1 else 0) + countb f l.
Proof.
  unfold countb. rewrite filter_cons. destruct (f x); destruct (decide _); try congruence; [cbn [length]; lia | reflexivity].
Qed.

Lemma scan_spec l : forall st,
  is_u64 (sc_terminated st) -> is_u64 (sc_faulted st) ->
  let '(v, st') := scan_summaries l st in
  (v = [] <-> NoDup (rs_pid <$> l) /\ (0 ∉ (rs_pid <$> l)) /\ (forall pid, pid ∈ (rs_pid <$> l) -> pid ∉ sc_ids st)) /\
  (forall pid, pid ∈ sc_ids st' -> pid ∈ sc_ids st \/ pid ∈ (rs_pid <$> l)) /\
  (v = [] -> sc_ids st' = sc_ids st ∪ list_to_set (rs_pid <$> l)) /\
  sc_terminated st' = u64 (sc_terminated st + countb ProcessRunSummary_terminated l) /\
  sc_faulted st' = u64 (sc_faulted st + countb ProcessRunSummary_faulted l).
Proof.
  induction l as [|p l IH]; intros st Ht Hf; cbn [scan_summaries].
  - cbn. split; [split; [intros _; repeat split; [constructor | set_solver | set_solver] | auto]|].
    split; [auto|]. split; [set_solver|]. rewrite !Z.add_0_r, !u64_small by assumption. auto.
  - cbv zeta. set (bad := (rs_pid p =? 0) || bool_decide (rs_pid p ∈ sc_ids st)).
    match goal with |- context [scan_summaries l ?x] => set (st1 := x); specialize (IH x) end.
    fold st1 in IH. specialize (IH ltac:(unfold st1; cbn [sc_terminated]; destruct (ProcessRunSummary_terminated p); [apply u64_range | assumption])
      ltac:(unfold st1; cbn [sc_faulted]; destruct (ProcessRunSummary_faulted p); [apply u64_range | assumption])).
    destruct (scan_summaries l st1) as [v st']. destruct IH as (H1 & H2 & H3 & H4 & H5).
    assert (Hbad : bad = false <-> rs_pid p <> 0 /\ rs_pid p ∉ sc_ids st).
    { unfold bad. rewrite orb_false_iff, Z.eqb_neq, bool_decide_eq_false. reflexivity. }
    assert (Hids : bad = false -> sc_ids st1 = {[rs_pid p]} ∪ sc_ids st) by (intros E; unfold st1; cbn; rewrite E; reflexivity).
    assert (Hsub : forall pid, pid ∈ sc_ids st1 -> pid ∈ sc_ids st \/ pid = rs_pid p).
    { unfold st1. cbn. intros pid. destruct bad; set_solver. }
    rewrite !countb_cons. split; [|split; [|split; [|split]]].
    + rewrite app_nil_iff, when_nil, fmap_cons, NoDup_cons, elem_of_cons, H1. split.
      * intros (Hb & Hn & H0 & Hd). rewrite (Hids Hb) in Hd. apply Hbad in Hb as [Hb0 Hb1]. split; [split; [|exact Hn]|split].
        -- intros Hin. apply (Hd _ Hin). set_solver.
        -- intros [?|?]; congruence || contradiction.
        -- intros pid Hin. apply elem_of_cons in Hin as [->|Hin]; [exact Hb1|]. specialize (Hd _ Hin). set_solver.
      * intros ((Hp & Hn) & H0 & Hd). assert (Hb : bad = false) by (apply Hbad; split; [intros E; apply H0; left; auto | apply Hd; left]).
        rewrite (Hids Hb). split; [exact Hb|]. split; [exact Hn|]. split; [intros Hin; apply H0; right; exact Hin|].
        intros pid Hin. specialize (Hd pid ltac:(right; exact Hin)). apply not_elem_of_union. split; [|exact Hd].
        intros E. apply elem_of_singleton in E. subst pid. contradiction.
    + intros pid Hin. rewrite fmap_cons, elem_of_cons. apply H2 in Hin as [Hin|Hin]; [|auto]. apply Hsub in Hin as [?|?]; auto.
    + rewrite app_nil_iff, when_nil. intros [Hb Hv]. rewrite (H3 Hv), (Hids Hb). set_solver.
    + rewrite H4. unfold st1. cbn. destruct (ProcessRunSummary_terminated p); [|reflexivity].
      unfold u64. rewrite Zplus_mod_idemp_l. f_equal. lia.
    + rewrite H5. unfold st1. cbn. destruct (ProcessRunSummary_faulted p); [|reflexivity].
      unfold u64. rewrite Zplus_mod_idemp_l. f_equal. lia.
Qed.

Lemma process_known r pid :
  pid ∈ run_pids r -> exists p, MultiProcessRunResult_process r pid = Ret p /\ rs_pid p = pid.
Proof.
  intros Hin. apply list_elem_of_fmap in Hin as (p & Hp & Hin). unfold MultiProcessRunResult_process.
  destruct (list_find (fun s => rs_pid s = pid) (run_processes r)) as [[i q]|] eqn:E.
  - apply list_find_Some in E as (_ & Hq & _). eauto.
  - apply list_find_None in E. exfalso. apply (proj1 (Forall_forall _ _) E p Hin). auto.
Qed.

Lemma check_interrupts_spec r ids l : (forall pid, pid ∈ ids -> pid ∈ run_pids r) -> forall previous,
  exists v, check_interrupts r ids l previous = Ret v /\
    (v = [] <-> ordered previous (si_lifecycle_step <$> l) /\ Forall (interrupt_ok r ids) l).
Proof.
  intros Hids. induction l as [|i l IH]; intros previous; cbn [check_interrupts].
  - exists []. split; [reflexivity|]. cbn. split; [repeat split; constructor | auto].
  - destruct (IH (Some (si_lifecycle_step i))) as (rest & Hrest & Hspec).
    set (result := obs_result (si_observation i)).
    match goal with |- context [mbind _ (if bool_decide (disposition _ = _) then ?x else ?y)] => set (term := if bool_decide (disposition result = TerminateProcess) then x else y) end.
    assert (Hterm : exists t, term = Ret t /\ (si_pid i ∈ ids -> t = [] <-> (disposition result = TerminateProcess ->
      matches_termination r i = true /\ exists p, MultiProcessRunResult_process r (si_pid i) = Ret p /\ rs_has_exit_code p = true /\
              rs_exit_code p = exit_code result))).
    { unfold term. case_bool_decide as Hd; [|exists []; split; [reflexivity | intros _; split; [contradiction | reflexivity]]].
      case_bool_decide as Hin.
      - destruct (process_known r (si_pid i) (Hids _ Hin)) as (p & Hp & _). rewrite Hp. eexists. split; [reflexivity|]. intros _.
        rewrite app_nil_iff, !when_nil, negb_false_iff, orb_false_iff, !negb_false_iff, Z.eqb_eq. split.
        + intros (H1 & H2 & H3) _. split; [exact H1|]. exists p. auto.
        + intros H. destruct (H Hd) as (H1 & q & [= <-] & H2 & H3). auto.
      - eexists. split; [reflexivity|]. intros H. contradiction. }
    destruct Hterm as (t & Ht & Htspec). clearbody term. rewrite Ht, bind_Ret, Hrest, bind_Ret.
    eexists. split; [reflexivity|]. cbn [fmap list_fmap ordered].
    rewrite !app_nil_iff, !when_nil, out_of_range_spec, not_after_spec, unknown_spec, negb_false_iff, Forall_cons, Hspec.
    split.
    + intros (H1 & H2 & H3 & H4 & H5 & H6 & H7). split; [auto|]. split; [|exact H7]. constructor; try assumption. apply Htspec; assumption.
    + intros ((H2 & H6) & [H1 H3 H4 H5] & H7). repeat (split; [assumption|]). split; [apply Htspec; assumption | auto].
Qed.

(** ** Lemmas: the timeline *)

Section heads.
Context {A : Type} (step : A -> Z).

(** The record of step [k] is at the head of an ordered list. *)
Definition head_at (k : Z) (l : list A) : option A :=
  match l with x :: _ => if step x =? k then Some x else None | [] => None end.
Definition rest_at (k : Z) (l : list A) : list A := match head_at k l with Some _ => tail l | None => l end.

Lemma ordered_above p l : ordered (Some p) (step <$> l) -> forall x, x ∈ l -> p < step x.
Proof.
  revert p. induction l as [|y l IH]; intros p; cbn; [intros _ x Hx; inversion Hx|].
  intros [Hy Ho] x Hx. apply elem_of_cons in Hx as [->|Hx]; [exact Hy|]. specialize (IH _ Ho x Hx). lia.
Qed.

Lemma head_at_spec k l x : ordered (Some (k - 1)) (step <$> l) -> head_at k l = Some x <-> x ∈ l /\ step x = k.
Proof.
  destruct l as [|y l]; cbn; [intros _; split; [discriminate | intros [H _]; inversion H]|]. intros [Hy Ho].
  destruct (step y =? k) eqn:E; bool_facts.
  - split; [intros [= <-]; split; [left | exact E]|]. intros [Hx Hk]. apply elem_of_cons in Hx as [->|Hx]; [reflexivity|].
    pose proof (ordered_above _ _ Ho x Hx). lia.
  - split; [discriminate|]. intros [Hx Hk]. apply elem_of_cons in Hx as [->|Hx]; [contradiction|].
    pose proof (ordered_above _ _ Ho x Hx). lia.
Qed.

Lemma head_at_none k l : ordered (Some (k - 1)) (step <$> l) -> head_at k l = None <-> forall x, x ∈ l -> step x <> k.
Proof.
  intros Ho. split.
  - intros E x Hx Hk. assert (H : head_at k l = Some x) by (apply head_at_spec; auto). congruence.
  - intros H. destruct (head_at k l) as [x|] eqn:E; [|reflexivity]. apply head_at_spec in E as [Hx Hk]; [|exact Ho].
    destruct (H x Hx Hk).
Qed.

Lemma rest_at_ordered k l : ordered (Some (k - 1)) (step <$> l) -> ordered (Some k) (step <$> rest_at k l).
Proof.
  unfold rest_at. destruct l as [|y l]; cbn; [auto|]. intros [Hy Ho]. destruct (step y =? k) eqn:E; bool_facts; cbn.
  - rewrite E in Ho. exact Ho.
  - split; [lia | exact Ho].
Qed.

Lemma rest_at_elem k l x : step x <> k -> x ∈ rest_at k l <-> x ∈ l.
Proof.
  intros Hk. unfold rest_at. destruct l as [|y l]; cbn; [reflexivity|]. destruct (step y =? k) eqn:E; bool_facts; cbn; [|reflexivity].
  rewrite elem_of_cons. split; [auto | intros [->|H]; [contradiction | exact H]].
Qed.

Lemma rest_at_incl k l (P : A -> Prop) : Forall P l -> Forall P (rest_at k l).
Proof. unfold rest_at. destruct l as [|y l]; cbn; [auto|]. intros H. destruct (_ =? _); cbn; [inversion H; assumption | exact H]. Qed.

End heads.

(** What step [k] says of the processes before, during and after it. *)
Definition slot_local (e : option ProcessExecutionTraceRecord) (s : option ProcessContextSwitchTraceRecord)
    (before during after : ProcessId) : Prop :=
  (forall x, e = Some x -> et_pid x = during) /\
  (forall x, s = Some x -> cs_from_pid x = during /\ cs_to_pid x = after) /\
  (before <> 0 -> during = before) /\
  (s = None -> after = during) /\
  (before = 0 -> e = None -> s = None -> during = 0).

Lemma timeline_step_local k xs ss cur :
  (forall x, head_at et_lifecycle_step k xs = Some x -> et_pid x <> 0) ->
  (forall x, head_at cs_lifecycle_step k ss = Some x -> cs_from_pid x <> 0) ->
  exists v cur', timeline_step k {| tl_execution := xs; tl_switches := ss; tl_current := cur |}
    = (v, {| tl_execution := rest_at et_lifecycle_step k xs; tl_switches := rest_at cs_lifecycle_step k ss; tl_current := cur' |}) /\
  (forall a, v = [] /\ cur' = a <->
   exists d, slot_local (head_at et_lifecycle_step k xs) (head_at cs_lifecycle_step k ss) cur d a).
Proof.
  intros Hx Hs. unfold timeline_step. cbv zeta. cbn [tl_execution tl_switches tl_current].
  fold (head_at et_lifecycle_step k xs). fold (head_at cs_lifecycle_step k ss).
  fold (rest_at et_lifecycle_step k xs). fold (rest_at cs_lifecycle_step k ss).
  eexists _, _. split; [reflexivity|]. intros a. unfold slot_local.
  destruct (head_at et_lifecycle_step k xs) as [e|]; destruct (head_at cs_lifecycle_step k ss) as [s|];
    repeat match goal with H : forall x, Some ?y = Some x -> _ |- _ => specialize (H y eq_refl) end;
    rewrite ?app_nil_iff, ?when_nil, ?andb_false_iff, ?negb_false_iff, ?Z.eqb_eq;
    destruct (cur =? 0) eqn:Ec; bool_facts.
  all: cbn [andb orb negb].
  all: split; [intros H; first [exists (et_pid e) | exists (cs_from_pid s) | exists cur] | intros (d & H1 & H2 & H3 & H4 & H5)].
  all: try (specialize (H1 _ eq_refl)); try (specialize (H2 _ eq_refl) as [H2 H2']); try (specialize (H4 eq_refl)).
  all: try (destruct H as [[Hl Hr] <-]; try (destruct Hl as [Hl|Hl]); try (destruct Hr as [Hr|Hr]); try contradiction).
  all: repeat split; intros; simplify_eq; auto; try congruence.
  all: first [right; congruence | intuition congruence].
Qed.

Lemma slot_ok_local exec switches during after k :
  ordered (Some (k - 1)) (et_lifecycle_step <$> exec) -> ordered (Some (k - 1)) (cs_lifecycle_step <$> switches) ->
  slot_ok exec switches during after k <->
  slot_local (head_at et_lifecycle_step k exec) (head_at cs_lifecycle_step k switches) (after (k - 1)) (during k) (after k).
Proof.
  intros He Hs. unfold slot_local. rewrite (head_at_none _ _ _ He), (head_at_none _ _ _ Hs).
  split.
  - intros [H1 H2 H3 H4 H5]. split; [|split; [|split; [|split]]]; try assumption.
    + intros x Hx. apply head_at_spec in Hx as [Hx Hk]; [|exact He]. apply H1; assumption.
    + intros x Hx. apply head_at_spec in Hx as [Hx Hk]; [|exact Hs]. apply H2; assumption.
  - intros (H1 & H2 & H3 & H4 & H5). constructor; try assumption.
    + intros e Hin Hk. apply H1. apply head_at_spec; auto.
    + intros s Hin Hk. apply H2. apply head_at_spec; auto.
Qed.

(** Only the records of step [j] and the processes around it matter. *)
Lemma slot_ok_ext exec exec' switches switches' during during' after after' j :
  (forall e, et_lifecycle_step e = j -> e ∈ exec <-> e ∈ exec') ->
  (forall s, cs_lifecycle_step s = j -> s ∈ switches <-> s ∈ switches') ->
  during j = during' j -> after j = after' j -> after (j - 1) = after' (j - 1) ->
  slot_ok exec switches during after j -> slot_ok exec' switches' during' after' j.
Proof.
  intros He Hs Hd Ha Hb [H1 H2 H3 H4 H5]. rewrite Hd, ?Ha, Hb in *. constructor.
  - intros e Hin Hk. apply H1; [apply He|]; assumption.
  - intros s Hin Hk. apply H2; [apply Hs|]; assumption.
  - exact H3.
  - intros H. apply H4. intros s Hin Hk. apply (H s); [apply Hs|]; assumption.
  - intros H0 Hen Hsn. apply H5; [exact H0 | |].
    + intros e Hin Hk. apply (Hen e); [apply He|]; assumption.
    + intros s Hin Hk. apply (Hsn s); [apply Hs|]; assumption.
Qed.

Lemma slot_ok_rest exec switches during after k j : j <> k ->
  slot_ok (rest_at et_lifecycle_step k exec) (rest_at cs_lifecycle_step k switches) during after j <->
  slot_ok exec switches during after j.
Proof.
  intros Hj. split; apply slot_ok_ext; try reflexivity; intros x <-.
  all: first [apply rest_at_elem | symmetry; apply rest_at_elem]; exact Hj.
Qed.

(** The records left for the steps from [k] to [n]. *)
Record window (k n : Z) (exec : list ProcessExecutionTraceRecord) (switches : list ProcessContextSwitchTraceRecord) : Prop := {
  win_exec : ordered (Some (k - 1)) (et_lifecycle_step <$> exec);
  win_switches : ordered (Some (k - 1)) (cs_lifecycle_step <$> switches);
  win_exec_end : Forall (fun e => et_lifecycle_step e <= n /\ et_pid e <> 0) exec;
  win_switches_end : Forall (fun s => cs_lifecycle_step s <= n /\ cs_from_pid s <> 0) switches;
}.

Lemma window_rest k n exec switches :
  window k n exec switches -> window (k + 1) n (rest_at et_lifecycle_step k exec) (rest_at cs_lifecycle_step k switches).
Proof.
  intros [H1 H2 H3 H4]. constructor; rewrite ?Z.add_simpl_r; auto using rest_at_ordered, rest_at_incl.
Qed.

Lemma window_empty k n exec switches : n < k -> window k n exec switches -> exec = [] /\ switches = [].
Proof.
  intros Hn [H1 H2 H3 H4]. split.
  - destruct exec as [|e exec]; [reflexivity|]. destruct H1 as [H1 _]. inversion H3 as [|? ? [? _] _]. lia.
  - destruct switches as [|s switches]; [reflexivity|]. destruct H2 as [H2 _]. inversion H4 as [|? ? [? _] _]. lia.
Qed.

Definition fixed (f : Z -> ProcessId) (k : Z) (p : ProcessId) : Z -> ProcessId := fun j => if j =? k then p else f j.

Lemma timeline_spec turns : forall k n exec switches cur,
  n = k + Z.of_nat turns - 1 -> window k n exec switches ->
  exists v fin, timeline_loop turns k {| tl_execution := exec; tl_switches := switches; tl_current := cur |}
    = (v, {| tl_execution := []; tl_switches := []; tl_current := fin |}) /\
  forall final, v = [] /\ fin = final <->
    exists during after, after (k - 1) = cur /\ after n = final /\ forall j, k <= j <= n -> slot_ok exec switches during after j.
Proof.
  induction turns as [|turns IH]; intros k n exec switches cur Hn Hw.
  - destruct (window_empty k n exec switches ltac:(lia) Hw) as [-> ->]. exists [], cur. split; [reflexivity|]. intros final. split.
    + intros [_ ->]. exists (fun _ => 0), (fun _ => final). repeat split; auto; lia.
    + intros (during & after & H1 & H2 & _). split; [reflexivity|]. replace n with (k - 1) in H2 by lia. congruence.
  - pose proof Hw as [He Hs Hen Hsn]. cbn [timeline_loop].
    destruct (timeline_step_local k exec switches cur) as (v1 & cur1 & Hrun & Hlocal).
    { intros x Hx. apply head_at_spec in Hx as [Hx _]; [|exact He]. apply (proj1 (Forall_forall _ _) Hen x Hx). }
    { intros x Hx. apply head_at_spec in Hx as [Hx _]; [|exact Hs]. apply (proj1 (Forall_forall _ _) Hsn x Hx). }
    destruct (IH (k + 1) n _ _ cur1 ltac:(lia) (window_rest _ _ _ _ Hw)) as (v & fin & Hloop & Hspec).
    rewrite Hrun, Hloop. exists (v1 ++ v), fin. split; [reflexivity|]. intros final. rewrite app_nil_iff. rewrite Z.add_simpl_r in Hspec.
    split.
    + intros [[Hv1 Hv] Hf]. destruct (proj1 (Hlocal cur1) (conj Hv1 eq_refl)) as (d & Hd).
      destruct (proj1 (Hspec final) (conj Hv Hf)) as (during & after & H1 & H2 & H3).
      exists (fixed during k d), (fixed after (k - 1) cur). unfold fixed at 1. rewrite Z.eqb_refl. split; [reflexivity|].
      split; [unfold fixed; rewrite (proj2 (Z.eqb_neq _ _)) by lia; exact H2|]. intros j Hj.
      destruct (decide (j = k)) as [->|Hne].
      * apply slot_ok_local; [exact He | exact Hs|]. unfold fixed. rewrite !Z.eqb_refl, (proj2 (Z.eqb_neq k (k - 1))) by lia.
        rewrite H1. exact Hd.
      * specialize (H3 j ltac:(lia)). apply slot_ok_rest in H3; [|exact Hne]. revert H3.
        apply slot_ok_ext; try reflexivity; unfold fixed; rewrite (proj2 (Z.eqb_neq _ _)) by lia; reflexivity.
    + intros (during & after & H1 & H2 & H3). pose proof (H3 k ltac:(lia)) as Hk. apply slot_ok_local in Hk; [|exact He | exact Hs].
      rewrite H1 in Hk. destruct (proj2 (Hlocal (after k)) (ex_intro _ (during k) Hk)) as [-> Hcur].
      destruct (proj2 (Hspec final)) as [-> Hfin]; [|auto].
      exists during, after. split; [congruence|]. split; [exact H2|]. intros j Hj. apply slot_ok_rest; [lia|]. apply H3. lia.
Qed.

(** ** Lemmas: the report *)

Lemma ordered_from l : ordered None l -> Forall (fun x => 0 < x) l -> ordered (Some 0) l.
Proof. destruct l as [|x l]; [auto|]. intros [_ H] Hx. inversion Hx. split; assumption. Qed.

Section report.
Context (r : MultiProcessRunResult) (Hn : 0 <= lifecycle_steps r).
Abbreviation n := (lifecycle_steps r).

(** Steps and identifiers are unsigned. *)
Context (Hexec : Forall (fun e => 0 <= et_lifecycle_step e) (execution_trace r)).
Context (Hswitch : Forall (fun s => 0 <= cs_lifecycle_step s) (context_switches r)).

Lemma run_window (ids : gset ProcessId) :
  0 ∉ ids -> execution_ok n ids (execution_trace r) ->
  ordered None (cs_lifecycle_step <$> context_switches r) -> Forall (switch_ok n ids) (context_switches r) ->
  window 1 n (execution_trace r) (context_switches r).
Proof.
  intros H0 [Ho Hr _] Hso Hs. pose proof (proj1 (Forall_forall _ _) Hexec) as Hex.
  pose proof (proj1 (Forall_forall _ _) Hswitch) as Hsw.
  pose proof (proj1 (Forall_forall _ _) Hr) as Hr'. pose proof (proj1 (Forall_forall _ _) Hs) as Hs'.
  clear Hr Hs. rename Hr' into Hr, Hs' into Hs. constructor.
  - apply ordered_from; [exact Ho|]. apply Forall_fmap, Forall_forall. intros e He. cbn. specialize (Hex e He). cbn beta in Hex.
    destruct (Hr e He) as [[Hne _] _]. cbn beta in Hne. lia.
  - apply ordered_from; [exact Hso|]. apply Forall_fmap, Forall_forall. intros s Hin. cbn. specialize (Hsw s Hin). cbn beta in Hsw.
    destruct (Hs s Hin) as [[Hne _] _ _ _ _ _]. cbn beta in Hne. lia.
  - apply Forall_forall. intros e He. destruct (Hr e He) as [[_ ?] Hp]. split; [lia|]. intros E. rewrite E in Hp. contradiction.
  - apply Forall_forall. intros s Hin. destruct (Hs s Hin) as [[_ ?] Hp _ _ _ _]. split; [lia|]. intros E. rewrite E in Hp. contradiction.
Qed.

Lemma check_timeline_spec :
  window 1 n (execution_trace r) (context_switches r) ->
  check_timeline r = [] <->
  exists final, schedule n (execution_trace r) (context_switches r) final /\
    (runtime_state r = RS_Running -> n <> 0 -> final <> 0) /\ (runtime_state r = RS_Completed -> final = 0).
Proof.
  intros Hw. unfold check_timeline.
  destruct (timeline_spec (Z.to_nat n) 1 n _ _ 0 ltac:(lia) Hw) as (v & fin & -> & Hspec).
  cbn [tl_execution tl_switches tl_current]. rewrite !app_nil_iff, !when_nil, !bool_decide_eq_true_2 by reflexivity.
  assert (Hrun : bool_decide (runtime_state r = RS_Running) && negb (n =? 0) && (fin =? 0) = false <->
    (runtime_state r = RS_Running -> n <> 0 -> fin <> 0)).
  { rewrite !andb_false_iff, bool_decide_eq_false, negb_false_iff, Z.eqb_eq, Z.eqb_neq.
    destruct (decide (runtime_state r = RS_Running)) as [Er|Er], (decide (lifecycle_steps r = 0)) as [En|En]; tauto. }
  assert (Hdone : bool_decide (runtime_state r = RS_Completed) && negb (fin =? 0) = false <->
    (runtime_state r = RS_Completed -> fin = 0)).
  { rewrite !andb_false_iff, bool_decide_eq_false, negb_false_iff, Z.eqb_eq.
    destruct (decide (runtime_state r = RS_Completed)) as [Er|Er]; tauto. }
  rewrite Hrun, Hdone. split.
  - intros (-> & _ & H1 & H2). exists fin. split; [apply Hspec; auto | auto].
  - intros (final & Hs & H1 & H2). apply Hspec in Hs as [-> ->]. auto.
Qed.

Lemma verify_spec :
  exists report, verify r = Ret report /\ (violations report = [] <-> consistent r).
Proof.
  unfold verify. pose proof (scan_spec (run_processes r) {| sc_ids := ∅; sc_terminated := 0; sc_faulted := 0 |}) as Hscan.
  specialize (Hscan ltac:(cbn; words) ltac:(cbn; words)).
  destruct (scan_summaries _ _) as [v scan]. destruct Hscan as (Hv & Hsub & Hids & Ht & Hf). cbn [sc_ids sc_terminated sc_faulted] in *.
  assert (Hv' : v = [] <-> NoDup (run_pids r) /\ 0 ∉ run_pids r).
  { rewrite Hv. split; [intros (H1 & H2 & _); split; [exact H1 | exact H2] | intros [H1 H2]; split; [exact H1|]; split; [exact H2 | set_solver]]. }
  assert (Hknown : forall pid, pid ∈ sc_ids scan -> pid ∈ run_pids r)
    by (intros pid Hin; destruct (Hsub pid Hin) as [E|E]; [set_solver | exact E]).
  destruct (check_interrupts_spec r (sc_ids scan) (software_interrupts r) Hknown None) as (vi & -> & Hvi).
  rewrite bind_Ret. eexists. split; [reflexivity|]. cbn [violations].
  rewrite !app_nil_iff, !when_nil, check_execution_spec, check_switches_spec, Hvi, Hv'.
  rewrite !negb_false_iff, !Z.eqb_eq, !orb_false_iff, !Z.gtb_ltb, !Z.ltb_ge, andb_false_iff, negb_false_iff, bool_decide_eq_true.
  rewrite Ht, Hf, !Z.add_0_l. unfold count_switches. fold (countb cs_preempted (context_switches r)).
  fold (countb cs_caused_by_termination (context_switches r)).
  split.
  - intros (H1 & [H2 H2'] & H3 & H4 & [H5 H5'] & H6 & H7 & (H8 & H8' & H8'') & H9 & [H10 H10'] & H11 & H12 & H13).
    assert (Hi : sc_ids scan = list_to_set (run_pids r)).
    { rewrite Hids by (apply Hv'; auto). apply union_empty_l_L. }
    rewrite Hi in H8', H9, H10'. assert (H0 : 0 ∉ (list_to_set (run_pids r) : gset ProcessId)).
    { intros E. apply elem_of_list_to_set in E. contradiction. }
    constructor; try assumption; try (split; assumption).
    + intros E. destruct H7; congruence.
    + apply check_timeline_spec; [|exact H13].
      apply (run_window (list_to_set (run_pids r))); try assumption. constructor; assumption.
  - intros [H1 H2 H3 H4 H5 H6 H7 H8 H9 H10 H11 H12 H13].
    assert (Hi : sc_ids scan = list_to_set (run_pids r)).
    { rewrite Hids by (apply Hv'; auto). apply union_empty_l_L. }
    rewrite Hi. pose proof H8 as [E1 E2 E3]. pose proof H10 as [F1 F2].
    assert (Hl : step_limit_reached r = false \/ runtime_state r = RS_Running).
    { destruct (step_limit_reached r); auto. }
    assert (H0 : 0 ∉ (list_to_set (run_pids r) : gset ProcessId)).
    { intros E. apply elem_of_list_to_set in E. apply H2, E. }
    assert (Hw : check_timeline r = []).
    { apply check_timeline_spec; [|exact H13]. eapply run_window; eassumption. }
    destruct H5. do 12 (split; [auto|]). exact Hw.
Qed.

End report.

(** ** Property *)

(** The unsigned fields of a result; the loop over the steps of the C++ ends
    because the last one is not the largest [size_t]. *)
Record result_typed (r : MultiProcessRunResult) : Prop := {
  rt_steps : 0 <= lifecycle_steps r < UINT64_MAX;
  rt_execution : Forall (fun e => 0 <= et_lifecycle_step e) (execution_trace r);
  rt_switches : Forall (fun s => 0 <= cs_lifecycle_step s) (context_switches r);
}.

(** (C16) The invariant verifier returns a report for every result, and it passes
    exactly the consistent ones: distinct nonzero identifiers, counters that agree
    with the summaries and the records, records in strictly increasing lifecycle
    steps and of known processes, every process's events continuing at the program
    counter its previous event ended at, system calls matched by an execution event
    and, if terminating, by a handoff and the exit code, and a schedule (one process
    per lifecycle step) that explains all records and the final state. *)
Theorem verify_decides_consistent (r : MultiProcessRunResult) (Ht : result_typed r) :
  exists report, verify r = Ret report /\ (MultiProcessInvariantReport_passed report = true <-> consistent r).
Proof.
  destruct Ht as [H1 H2 H3]. destruct (verify_spec r ltac:(lia) H2 H3) as (report & Hr & Hspec).
  exists report. split; [exact Hr|]. unfold MultiProcessInvariantReport_passed. rewrite bool_decide_eq_true. exact Hspec.
Qed.

(** One process that ran for a step and was terminated in the next. *)
Definition sample_summary : ProcessRunSummary :=
  {| rs_pid := 1; rs_source_name := "a"; rs_state := Terminated; rs_has_exit_code := true; rs_exit_code := 7;
     rs_termination_kind := NormalExit; rs_termination_message := ""; rs_final_context := context_of 1 new_CPU;
     rs_final_memory := []; rs_has_executable_image := true; rs_code_end_exclusive := 536; rs_data_base := 0; rs_data_size := 0 |}.

Definition sample_result (to : ProcessId) : MultiProcessRunResult :=
  {| runtime_state := RS_Completed; step_limit_reached := false; lifecycle_steps := 2; process_count := 1;
     termination_count := 1; fault_count := 0; preemption_count := 0; context_switch_count := 0;
     execution_trace := [{| et_lifecycle_step := 1; et_pid := 1;
       et_event := {| ev_before := new_CPUState; ev_instruction := {| opcode := NOP; dst := none; src := none |};
                      ev_after := new_CPUState; ev_error_message := "" |} |}];
     software_interrupts := [];
     context_switches := [{| cs_lifecycle_step := 2; cs_from_pid := 1; cs_to_pid := to; cs_preempted := false;
                             cs_caused_by_termination := true |}];
     run_processes := [sample_summary] |}.

Lemma sample_typed to : result_typed (sample_result to).
Proof. constructor; cbn; [words | repeat constructor; cbn; lia | repeat constructor; cbn; lia]. Qed.

(** A handoff to a process that is not there is not consistent. *)
Example verify_decides_consistent_witness : consistent (sample_result 0) /\ ~ consistent (sample_result 2).
Proof.
  destruct (verify_decides_consistent _ (sample_typed 0)) as (r0 & E0 & H0).
  destruct (verify_decides_consistent _ (sample_typed 2)) as (r2 & E2 & H2). split.
  - apply H0. vm_compute in E0. injection E0 as <-. vm_compute. reflexivity.
  - intros C. apply H2 in C. vm_compute in E2. injection E2 as <-. vm_compute in C. discriminate C.
Defined.
