(* ===== verification/RunnerLog.v ===== *)
(** * Growing the log of a run

    [log_ok n E cur log]: after [n] lifecycle steps the records of [log] are
    consistent, as the verifier understands it, with the processes and the exit
    codes in [E] and with [cur] running.  [log_extend]: one more step keeps it, if
    what the step recorded fits. *)

From S2P Require Import Prelude Words ALU Memory ISA Binary Interrupts Devices CPUState Trace CPU CPUExec CPUStep CPUFrames CPUInv CPURun Image Process ProcTable Scheduler Dispatcher Preemption Lifecycle CPUShape Runner Verifier VerifierLaws.
Open Scope Z_scope.

(** How the processes ended: [Some None] for one that has not. *)
Abbreviation Endings := (gmap ProcessId (option (Z * ProcessTerminationKind))).

Record log_interrupt (n : Z) (E : Endings) (log : RunLog) (i : ProcessSoftwareInterruptTraceRecord) : Prop := {
  li_step : in_steps n (si_lifecycle_step i);
  li_pid : si_pid i ∈ dom E;
  li_execution : exists e, e ∈ log_execution log /\ et_lifecycle_step e = si_lifecycle_step i /\ et_pid e = si_pid i;
  li_termination : disposition (obs_result (si_observation i)) = TerminateProcess ->
    (exists s, s ∈ log_switches log /\ cs_lifecycle_step s = si_lifecycle_step i /\ cs_from_pid s = si_pid i /\
               cs_caused_by_termination s = true) /\
    exists kind, E !! si_pid i = Some (Some (exit_code (obs_result (si_observation i)), kind));
}.

Record log_ok (n : Z) (E : Endings) (cur : ProcessId) (log : RunLog) : Prop := {
  lok_steps : log_steps log = n /\ 0 <= n;
  lok_execution : execution_ok n (dom E) (log_execution log);
  lok_interrupts : ordered None (si_lifecycle_step <$> log_interrupts log) /\ Forall (log_interrupt n E log) (log_interrupts log);
  lok_switches : ordered None (cs_lifecycle_step <$> log_switches log) /\ Forall (switch_ok n (dom E)) (log_switches log);
  lok_schedule : schedule n (log_execution log) (log_switches log) cur;
  lok_positive : Forall (fun e => 0 <= et_lifecycle_step e) (log_execution log) /\
    Forall (fun s => 0 <= cs_lifecycle_step s) (log_switches log);
}.

(** Where the events so far left the processes. *)
Definition pcs_after (last : gmap ProcessId Z) (l : list ProcessExecutionTraceRecord) : gmap ProcessId Z :=
  foldl (fun m e => <[et_pid e := pc (ev_after (et_event e))]> m) last l.

(** What one step adds. *)
Record StepRecord := {
  sr_event : option TraceEvent;
  sr_observation : option SoftwareInterruptObservation;
  sr_switch : option (ProcessId * bool * bool);
}.

Definition extend (pid : ProcessId) (x : StepRecord) (log : RunLog) : RunLog :=
  let n := log_steps log + 1 in
  {| log_steps := n;
     log_execution := log_execution log ++
       match sr_event x with Some e => [{| et_lifecycle_step := n; et_pid := pid; et_event := e |}] | None => [] end;
     log_interrupts := log_interrupts log ++
       match sr_observation x with Some o => [{| si_lifecycle_step := n; si_pid := pid; si_observation := o |}] | None => [] end;
     log_switches := log_switches log ++
       match sr_switch x with
       | Some (to, p, t) => [{| cs_lifecycle_step := n; cs_from_pid := pid; cs_to_pid := to; cs_preempted := p;
                                cs_caused_by_termination := t |}]
       | None => []
       end |}.

Definition next_pid_of (pid : ProcessId) (x : StepRecord) : ProcessId :=
  match sr_switch x with Some (to, _, _) => to | None => pid end.

(** What a step of [pid] may add to a log after which [cur] runs. *)
Record fits (E E' : Endings) (pid cur : ProcessId) (log : RunLog) (x : StepRecord) : Prop := {
  fit_dom : dom E' = dom E;
  fit_endings : forall q c, E !! q = Some (Some c) -> E' !! q = Some (Some c);
  fit_pid : pid ∈ dom E /\ pid <> 0;
  fit_cur : cur = pid \/ cur = 0 /\ (sr_event x <> None \/ sr_switch x <> None);
  fit_event : forall e v, sr_event x = Some e -> pcs_after ∅ (log_execution log) !! pid = Some v -> pc (ev_before e) = v;
  fit_observation : forall o, sr_observation x = Some o -> sr_event x <> None /\
    (disposition (obs_result o) = TerminateProcess ->
     exists to kind, sr_switch x = Some (to, false, true) /\ E' !! pid = Some (Some (exit_code (obs_result o), kind)));
  fit_switch : forall to p t, sr_switch x = Some (to, p, t) ->
    to <> pid /\ (to = 0 \/ to ∈ dom E) /\ p && t = false /\ (to = 0 -> t = true);
}.

(** ** Lemmas: lists *)

Lemma ordered_snoc l y : forall previous,
  ordered previous l -> Forall (fun x => x < y) l -> match previous with Some p => p < y | None => True end ->
  ordered previous (l ++ [y]).
Proof.
  induction l as [|x l IH]; intros previous Ho Hl Hp; cbn; [auto|]. destruct Ho as [Hx Ho]. inversion Hl as [|? ? Hxy Hl'].
  split; [exact Hx|]. apply IH; assumption.
Qed.

Lemma chain_snoc l e : forall last,
  chain last l -> (forall v, pcs_after last l !! et_pid e = Some v -> pc (ev_before (et_event e)) = v) ->
  chain last (l ++ [e]).
Proof. induction l as [|x l IH]; intros last Hc He; cbn; [auto|]. destruct Hc as [Hx Hc]. split; [exact Hx|]. apply IH; assumption. Qed.

Lemma pcs_after_snoc last l e : pcs_after last (l ++ [e]) = <[et_pid e := pc (ev_after (et_event e))]> (pcs_after last l).
Proof. unfold pcs_after. rewrite foldl_app. reflexivity. Qed.

Lemma in_steps_later n step : in_steps n step -> in_steps (n + 1) step.
Proof. intros [H1 H2]. split; [exact H1 | lia]. Qed.

Lemma in_steps_now n : 0 <= n -> in_steps (n + 1) (n + 1).
Proof. intros H. split; lia. Qed.

(** ** Lemmas: one more step *)

Section extending.
Context (n : Z) (E E' : Endings) (pid cur : ProcessId) (log : RunLog) (x : StepRecord).
Context (Hlog : log_ok n E cur log) (Hfit : fits E E' pid cur log x).

Lemma extend_execution : execution_ok (n + 1) (dom E') (log_execution (extend pid x log)).
Proof.
  destruct Hlog as [[Hn H0] [Ho Hr Hc] _ _ _ _]. destruct Hfit as [Hd _ [Hp _] _ He _ _]. rewrite Hd. cbn.
  assert (Hlater : Forall (fun e => in_steps (n + 1) (et_lifecycle_step e) /\ et_pid e ∈ dom E) (log_execution log)).
  { eapply Forall_impl; [exact Hr|]. intros e [H1 H2]. split; [apply in_steps_later, H1 | exact H2]. }
  destruct (sr_event x) as [e|]; [|rewrite app_nil_r; constructor; assumption]. rewrite Hn. constructor.
  - rewrite fmap_app. apply ordered_snoc; [exact Ho | | exact Logic.I]. apply Forall_fmap. eapply Forall_impl; [exact Hr|].
    intros y [[_ H] _]. cbn. lia.
  - apply Forall_app. split; [exact Hlater|]. constructor; [|constructor]. split; [apply in_steps_now, H0 | exact Hp].
  - apply chain_snoc; [exact Hc|]. cbn. intros v. apply He. reflexivity.
Qed.

Lemma extend_switches :
  ordered None (cs_lifecycle_step <$> log_switches (extend pid x log)) /\
  Forall (switch_ok (n + 1) (dom E')) (log_switches (extend pid x log)).
Proof.
  destruct Hlog as [[Hn H0] _ _ [Ho Hr] _ _]. destruct Hfit as [Hd _ [Hp _] _ _ _ Hs]. rewrite Hd. cbn.
  assert (Hlater : Forall (switch_ok (n + 1) (dom E)) (log_switches log)).
  { eapply Forall_impl; [exact Hr|]. intros s []. constructor; auto using in_steps_later. }
  destruct (sr_switch x) as [[[to p] t]|]; [|rewrite app_nil_r; auto]. rewrite Hn.
  destruct (Hs _ _ _ eq_refl) as (H1 & H2 & H3 & H4). split.
  - rewrite fmap_app. apply ordered_snoc; [exact Ho | | exact Logic.I]. apply Forall_fmap. eapply Forall_impl; [exact Hr|].
    intros y [[_ H] _ _ _ _ _]. cbn. lia.
  - apply Forall_app. split; [exact Hlater|]. constructor; [|constructor].
    constructor; cbn; auto using in_steps_now.
Qed.

Lemma extend_interrupts :
  ordered None (si_lifecycle_step <$> log_interrupts (extend pid x log)) /\
  Forall (log_interrupt (n + 1) E' (extend pid x log)) (log_interrupts (extend pid x log)).
Proof.
  destruct Hlog as [[Hn H0] _ [Ho Hr] _ _ _]. destruct Hfit as [Hd Hend [Hp _] _ _ Hobs _].
  assert (Hlater : Forall (log_interrupt (n + 1) E' (extend pid x log)) (log_interrupts log)).
  { eapply Forall_impl; [exact Hr|]. intros i [H1 H2 (e & He & He2 & He3) H4]. constructor.
    - apply in_steps_later, H1.
    - rewrite Hd. exact H2.
    - exists e. split; [cbn; apply elem_of_app; left; exact He | auto].
    - intros Ht. destruct (H4 Ht) as [(s & Hs & Hs') (kind & Hk)]. split; [|eauto].
      exists s. split; [cbn; apply elem_of_app; left; exact Hs | exact Hs']. }
  unfold extend at 1 3. cbn [log_interrupts].
  destruct (sr_observation x) as [o|] eqn:Eo; [|rewrite app_nil_r; auto]. destruct (Hobs o eq_refl) as [He Ht]. split.
  - rewrite fmap_app. apply ordered_snoc; [exact Ho | | exact Logic.I]. apply Forall_fmap. eapply Forall_impl; [exact Hr|].
    intros y [[_ H] _ _ _]. cbn. lia.
  - apply Forall_app. split; [exact Hlater|]. constructor; [|constructor]. constructor; cbn [si_lifecycle_step si_pid si_observation].
    + rewrite Hn. apply in_steps_now, H0.
    + rewrite Hd. exact Hp.
    + destruct (sr_event x) as [e|] eqn:Ee; [|contradiction]. eexists. split.
      * unfold extend. cbn [log_execution]. rewrite Ee. apply elem_of_app. right. left.
      * split; reflexivity.
    + intros Hterm. destruct (Ht Hterm) as (to & kind & Hs & Hk). split; [|eauto]. eexists. split.
      * unfold extend. cbn [log_switches]. rewrite Hs. apply elem_of_app. right. left.
      * split; [reflexivity|]. split; reflexivity.
Qed.

Lemma extend_schedule : schedule (n + 1) (log_execution (extend pid x log)) (log_switches (extend pid x log)) (next_pid_of pid x).
Proof.
  destruct Hlog as [[Hn H0] [_ Hr _] _ [_ Hsr] (during & after & H1 & H2 & H3) _].
  destruct Hfit as [_ _ [_ Hp0] Hcur _ _ Hs]. rewrite Forall_forall in Hr. pose proof (proj1 (Forall_forall _ _) Hsr) as Hsr'.
  assert (Hold_e : forall e, e ∈ log_execution log -> et_lifecycle_step e <= n) by (intros e He; apply (Hr e He)).
  assert (Hold_s : forall s, s ∈ log_switches log -> cs_lifecycle_step s <= n) by (intros s He; apply (Hsr' s He)).
  exists (fixed during (n + 1) pid), (fixed after (n + 1) (next_pid_of pid x)).
  assert (Hfix : forall f p k, k <= n -> fixed f (n + 1) p k = f k).
  { intros f p k Hk. unfold fixed. rewrite (proj2 (Z.eqb_neq _ _)) by lia. reflexivity. }
  assert (Hnow : forall f p, fixed f (n + 1) p (n + 1) = p) by (intros; unfold fixed; rewrite Z.eqb_refl; reflexivity).
  split; [rewrite Hfix by lia; exact H1|]. split; [apply Hnow|]. intros k Hk. destruct (decide (k = n + 1)) as [->|Hne].
  - unfold extend, next_pid_of. cbn [log_execution log_switches]. rewrite Hn. constructor; rewrite ?Hnow, ?Z.add_simpl_r, ?Hfix, ?H2 by lia.
    + intros e He Hk'. apply elem_of_app in He as [He|He]; [specialize (Hold_e e He); lia|].
      destruct (sr_event x); [|inversion He]. apply list_elem_of_singleton in He as ->. reflexivity.
    + intros s He Hk'. apply elem_of_app in He as [He|He]; [specialize (Hold_s s He); lia|].
      destruct (sr_switch x) as [[[to p] t]|]; [|inversion He]. apply list_elem_of_singleton in He as ->. auto.
    + intros Hc. destruct Hcur as [Hcur|[Hcur _]]; [auto | contradiction].
    + intros Hno. destruct (sr_switch x) as [[[to p] t]|] eqn:Es; [|reflexivity]. exfalso.
      eapply Hno; [apply elem_of_app; right; left | reflexivity].
    + intros Hc Hne Hns. exfalso. destruct Hcur as [Hcur|[_ [He|He]]]; [congruence | |].
      * destruct (sr_event x) as [e|]; [|contradiction]. eapply Hne; [apply elem_of_app; right; left | reflexivity].
      * destruct (sr_switch x) as [[[to p] t]|]; [|contradiction]. eapply Hns; [apply elem_of_app; right; left | reflexivity].
  - specialize (H3 k ltac:(lia)). revert H3. apply slot_ok_ext; rewrite ?Hfix by lia; try reflexivity.
    + intros e He. unfold extend. cbn [log_execution]. rewrite elem_of_app. split; [auto|]. intros [H|H]; [exact H|].
      destruct (sr_event x); [|inversion H]. apply list_elem_of_singleton in H as ->. cbn in He. lia.
    + intros s He. unfold extend. cbn [log_switches]. rewrite elem_of_app. split; [auto|]. intros [H|H]; [exact H|].
      destruct (sr_switch x) as [[[to p] t]|]; [|inversion H]. apply list_elem_of_singleton in H as ->. cbn in He. lia.
Qed.

Lemma extend_positive :
  Forall (fun e => 0 <= et_lifecycle_step e) (log_execution (extend pid x log)) /\
  Forall (fun s => 0 <= cs_lifecycle_step s) (log_switches (extend pid x log)).
Proof.
  destruct Hlog as [[Hn H0] _ _ _ _ [He Hs]]. unfold extend. cbn [log_execution log_switches]. split; apply Forall_app; (split; [assumption|]).
  - destruct (sr_event x); repeat constructor. cbn. lia.
  - destruct (sr_switch x) as [[[to p] t]|]; repeat constructor. cbn. lia.
Qed.

Lemma log_extend : log_ok (n + 1) E' (next_pid_of pid x) (extend pid x log).
Proof.
  pose proof (lok_steps _ _ _ _ Hlog) as [Hn H0].
  constructor; [cbn; lia | apply extend_execution | apply extend_interrupts | apply extend_switches | apply extend_schedule | apply extend_positive].
Qed.

End extending.

Lemma empty_log_ok E : log_ok 0 E 0 empty_log.
Proof.
  constructor; [cbn; lia | | | | |].
  - constructor; cbn; [exact Logic.I | constructor | exact Logic.I].
  - split; [exact Logic.I | constructor].
  - split; [exact Logic.I | constructor].
  - exists (fun _ => 0), (fun _ => 0). split; [reflexivity|]. split; [reflexivity|]. intros k Hk. lia.
  - split; constructor.
Qed.

(** * What a lifecycle step does to the processes

    A step of the runner seen from outside the CPU: how the processes end
    ([endings]), where each of them resumes ([resume_pc]), which one runs, and what
    the counters, the trace and the observation become.  Everything follows from
    the step having returned, so nothing is assumed of the programs. *)

Definition ending (p : ProcessControlBlock) : option (Z * ProcessTerminationKind) :=
  if bool_decide (pcb_state p = Terminated) then Some (pcb_exit_code p, pcb_termination_kind p) else None.

Definition endings (t : ProcessTable) : Endings := ending <$> processes t.

(** The program counter a process goes on at: the CPU's for the one that runs,
    the saved one for the others. *)
Definition resume_pc (k : Kernel) (pid : ProcessId) : option Z :=
  if pid =? running_pid (k_table k) then Some (pc (state (k_cpu k)))
  else (fun p => ctx_pc (pcb_context p)) <$> processes (k_table k) !! pid.

Lemma endings_dom t pid : pid ∈ dom (endings t) <-> is_Some (processes t !! pid).
Proof. unfold endings. rewrite dom_fmap, elem_of_dom. reflexivity. Qed.

Lemma endings_lookup t pid : endings t !! pid = ending <$> processes t !! pid.
Proof. unfold endings. apply lookup_fmap. Qed.

(** ** Dispatching *)

Lemma staged_ret_inv {St A} (m : M St A) s a s' : staged m s = (Ret a, s') -> m s = (Ret a, s').
Proof. unfold staged. destruct (m s) as [[x|e] s1]; congruence. Qed.

Lemma running_hasRunning t pid p :
  table_wf t -> processes t !! running_pid t = Some p -> pid = running_pid t -> hasRunningProcess t = true.
Proof. intros Ht Hp _. unfold hasRunningProcess. apply negb_true_iff, Z.eqb_neq, (running_nonzero _ Ht _ _ Hp). Qed.

Lemma dispatch_preemptible k sel k' :
  kernel_ok k -> ProcessDispatcher_dispatchNext k = (Ret sel, k') -> preemptible k.
Proof.
  intros Hk E. unfold ProcessDispatcher_dispatchNext, get in E. rewrite bind_run in E. cbv zeta beta iota in E.
  apply M_bind_ret_inv in E as (u1 & k1 & E1 & E). apply M_throw_if_ret_inv in E1 as [Hu ->].
  apply M_bind_ret_inv in E as (u2 & k1 & E1 & E). apply M_throw_if_ret_inv in E1 as [_ ->].
  split; [exact Hu|]. intros p Hp. pose proof (running_hasRunning _ _ _ (kok_table _ Hk) Hp eq_refl) as Hr.
  apply staged_ret_inv in E. apply M_bind_ret_inv in E as (u3 & k1 & E1 & _). rewrite Hr in E1.
  apply M_bind_ret_inv in E1 as (pid & k2 & E2 & E1). apply M_lift_ret_inv in E2 as [E2 ->].
  unfold runningProcessId in E2. rewrite Hr in E2. cbn in E2. injection E2 as <-.
  apply M_bind_ret_inv in E1 as (ctx & k2 & E2 & E1). apply M_lift_ret_inv in E2 as [E2 ->].
  apply (capture_spec _ _ _ (kok_registers _ Hk)) in E2 as (_ & -> & Hctx). split; [exact Hctx|].
  unfold on_k_table, zoom in E1. destruct (updateRuntimeState _ _ _ _) as [[u|e] t'] eqn:Eu; [|discriminate E1].
  unfold updateRuntimeState in Eu. rewrite on_process_run in Eu. unfold requireProcess in Eu. rewrite Hp in Eu.
  cbn [mbind outcome_bind mret outcome_ret] in Eu. destruct (replaceRuntimeState _ _ _) as [p'|e] eqn:Er; [|discriminate Eu].
  unfold replaceRuntimeState in Er. rewrite throw_if_bind_inv, unit_bind_inv, throw_if_bind_inv in Er.
  destruct Er as (_ & _ & _ & Er). apply bind_ret_inv in Er as (a & Ha & _).
  unfold replaceMemory in Ha. apply unit_bind_inv in Ha as [Ha _]. exact Ha.
Qed.

(** What a dispatch leaves. *)
Record redispatched (k : Kernel) (sel : ProcessId) (k' : Kernel) : Prop := {
  rd_kernel : kernel_ok k';
  rd_running : running_pid (k_table k') = sel /\ is_Some (processes (k_table k) !! sel);
  rd_endings : endings (k_table k') = endings (k_table k);
  rd_resume : forall pid, pid <> 0 -> resume_pc k' pid = resume_pc k pid;
  rd_cpu : halted (state (k_cpu k')) = false /\ has_error (state (k_cpu k')) = false /\
           trace_logger (k_cpu k') = trace_logger (k_cpu k) /\
           has_software_interrupt_observation (k_cpu k') = has_software_interrupt_observation (k_cpu k) /\
           software_interrupt_observation (k_cpu k') = software_interrupt_observation (k_cpu k);
}.

Lemma switch_endings t sel : sel ∈ runnable t -> endings (switch_to sel t) = endings t.
Proof.
  intros Hsel. apply map_eq. intros pid. rewrite !endings_lookup, switch_lookup.
  destruct (processes t !! pid) as [p|] eqn:Hp; [|reflexivity]. cbn. f_equal. unfold switch_state.
  destruct (decide (pid = sel)) as [->|Hne].
  - rewrite bool_decide_eq_true_2 by reflexivity. apply runnable_spec in Hsel as (q & Hq & Hs). assert (q = p) by congruence. subst q.
    unfold ending. cbn. rewrite (bool_decide_eq_false_2 (pcb_state p = Terminated)) by (destruct Hs; congruence). reflexivity.
  - rewrite bool_decide_eq_false_2 by exact Hne. case_bool_decide as E'; [|reflexivity]. unfold ending. cbn.
    rewrite (bool_decide_eq_false_2 (pcb_state p = Terminated)) by congruence. reflexivity.
Qed.

Lemma saved_endings k : endings (saved k) = endings (k_table k).
Proof.
  apply map_eq. intros pid. rewrite !endings_lookup, saved_lookup. destruct (processes (k_table k) !! pid); [|reflexivity].
  cbn. case_bool_decide; reflexivity.
Qed.

Lemma switch_state_context sel pid p : pcb_context (switch_state sel pid p) = pcb_context p.
Proof. unfold switch_state. repeat case_bool_decide; reflexivity. Qed.

Lemma dispatched_resume k sel p program pid :
  processes (switch_to sel (saved k)) !! sel = Some p -> is_Some (processes (k_table k) !! running_pid (k_table k)) \/ running_pid (k_table k) = 0 ->
  pid <> 0 -> resume_pc (dispatched k sel p program) pid = resume_pc k pid.
Proof.
  intros Hp Hrun Hpid.
  assert (Hctx : forall q, ((fun b => ctx_pc (pcb_context b)) <$> processes (switch_to sel (saved k)) !! q) =
    ((fun b => if bool_decide (q = running_pid (k_table k)) then pc (state (k_cpu k)) else ctx_pc (pcb_context b)) <$> processes (k_table k) !! q)).
  { intros q. rewrite switch_lookup, saved_lookup. destruct (processes (k_table k) !! q); [|reflexivity]. cbn.
    rewrite switch_state_context. case_bool_decide; reflexivity. }
  assert (Hback : ((fun b => ctx_pc (pcb_context b)) <$> processes (switch_to sel (saved k)) !! pid) = resume_pc k pid).
  { rewrite Hctx. unfold resume_pc. destruct (pid =? running_pid (k_table k)) eqn:E; bool_facts.
    - subst pid. destruct Hrun as [[q Hq]|H0]; [rewrite Hq | contradiction]. cbn. rewrite bool_decide_eq_true_2 by reflexivity. reflexivity.
    - destruct (processes (k_table k) !! pid); [|reflexivity]. cbn. rewrite bool_decide_eq_false_2 by exact E. reflexivity. }
  rewrite <- Hback. unfold resume_pc at 1. cbn [dispatched k_table k_cpu switch_to running_pid].
  destruct (pid =? sel) eqn:E; bool_facts; [|reflexivity]. subst pid. rewrite Hp. reflexivity.
Qed.

Lemma dispatch_post k sel k' :
  kernel_ok k -> ProcessDispatcher_dispatchNext k = (Ret sel, k') -> redispatched k sel k'.
Proof.
  intros Hk E. pose proof (dispatch_preemptible _ _ _ Hk E) as Hpre.
  destruct (dispatch_inv _ _ _ Hk Hpre E) as (rest & p & program & Hrot & -> & Hp & He).
  cbn [dispatched k_table] in Hp. pose proof (rotation_elem _ _ _ _ Hrot) as Hel.
  assert (Hel' : sel ∈ runnable (saved k)) by (rewrite saved_runnable by assumption; exact Hel).
  destruct (dispatched_ok k sel rest p program Hk Hpre Hrot Hp He) as (_ & _ & Hok & _).
  constructor.
  - exact Hok.
  - split; [reflexivity|]. apply runnable_spec in Hel as (q & Hq & _). eauto.
  - cbn [dispatched k_table]. rewrite switch_endings by exact Hel'. apply saved_endings.
  - intros pid Hpid. apply dispatched_resume; [exact Hp | | exact Hpid].
    destruct (decide (running_pid (k_table k) = 0)) as [E0|E0]; [right; exact E0 | left; apply (twf_running _ (kok_table _ Hk)), E0].
  - repeat split.
Qed.

(** ** The CPU step *)

Section steps.
Context {LD : LongDouble} {H : Type} {SIH : SoftwareInterruptHandler H} {QH : QuietHandler H}.
Implicit Types (s : System H).
Abbreviation cpu_of s := (cpu (s_machine s)).

(** A terminating system call has been observed. *)
Definition observed_exit (c : CPU) (code : Z) : Prop :=
  has_software_interrupt_observation c = true /\
  disposition (obs_result (software_interrupt_observation c)) = TerminateProcess /\
  exit_code (obs_result (software_interrupt_observation c)) = code.

Record cpu_stepped s s1 (e : option TraceEvent) : Prop := {
  cs_kernel : kernel_ok (kernel_of s1);
  cs_table : s_table s1 = s_table s /\ s_preemptive s1 = s_preemptive s /\ s_scheduler s1 = s_scheduler s;
  cs_trace : trace_logger (cpu_of s1) = trace_logger (cpu_of s) ++ match e with Some e => [e] | None => [] end;
  cs_event : match e with
             | Some e => pc (ev_before e) = pc (state (cpu_of s)) /\ pc (ev_after e) = pc (state (cpu_of s1))
             | None => s1 = s /\ stopped (s_machine s) = true
             end;
  cs_exit : (exists e', e = Some e') -> forall code, observed_exit (cpu_of s1) code ->
    halted (state (cpu_of s1)) = true /\ has_error (state (cpu_of s1)) = false /\
    process_exit_requested (cpu_of s1) = true /\ process_exit_code (cpu_of s1) = code;
}.

Lemma cpu_step_post s : kernel_ok (kernel_of s) -> exists e, cpu_stepped s (stepped_system s) e.
Proof.
  intros Hk. destruct (stopped (s_machine s)) eqn:Hs.
  - exists None. assert (E : stepped_system s = s).
    { unfold stepped_system, final. rewrite step_stopped by exact Hs. destruct s. reflexivity. }
    rewrite E. constructor; auto; [rewrite app_nil_r; reflexivity | intros [e' [=]]].
  - assert (Hsh : shaped (mstate (s_machine s))) by (split; [apply (kok_registers _ Hk) | apply (kok_memory _ Hk)]).
    destruct (CPU_step_stepped (s_machine s) Hs Hsh) as (m' & Hrun & [Hc Hsh' (e & Ht & Hb & Ha & _) Hobs]).
    exists (Some e). unfold stepped_system, final. rewrite Hrun. cbn [snd]. constructor; cbn.
    + destruct Hk as [K1 K2 K3 K4 K5]. destruct Hsh'. constructor; try assumption. intros p Hp.
      destruct (K5 p Hp) as (R1 & R2 & R3). destruct Hc as [_ (C1 & C2 & C3) _ _]. unfold cpu_runs. cbn in *.
      rewrite C1, C2, C3. auto.
    + auto.
    + exact Ht.
    + split; [rewrite Hb | rewrite Ha]; reflexivity.
    + intros _ code (H1 & H2 & <-). destruct (Hobs H1 H2) as (? & ? & ? & ?). auto.
Qed.

(** ** The preemptive step *)

Lemma service_inv old b sel s s' :
  kernel_ok (kernel_of s) -> servicePendingPreemption old s = (Ret (b, sel), s') ->
  if (b : bool) then preempted s (running_pid (s_table s)) sel s' else s' = s /\ preempts s = false.
Proof.
  intros Hk E. destruct (preempts s) eqn:Ep.
  - unfold preempts in Ep. apply andb_true_iff in Ep as [Hp He]. apply negb_true_iff in He.
    pose proof E as E0. unfold servicePendingPreemption, get in E0. rewrite bind_run in E0. cbv beta iota in E0.
    rewrite Hp, He in E0. cbn [negb] in E0. apply M_bind_ret_inv in E0 as (prev & s1 & E1 & E0).
    apply M_lift_ret_inv in E1 as [E1 ->]. unfold runningProcessId in E1. apply throw_if_bind_inv in E1 as [Hr _].
    apply negb_false_iff in Hr. apply M_bind_ret_inv in E0 as (sel1 & s1 & E1 & _). unfold dispatch_next, zoom in E1.
    destruct (ProcessDispatcher_dispatchNext (kernel_of s)) as [[sel2|x] k'] eqn:Ed; [|discriminate E1].
    pose proof (dispatch_preemptible _ _ _ Hk Ed) as Hpre.
    destruct (dispatch_inv _ _ _ Hk Hpre Ed) as (rest & p & program & Hrot & _).
    destruct (service_run old sel2 rest s Hk Hpre Hr Hp He Hrot) as (s2 & Hrun & Hpost).
    rewrite Hrun in E. injection E as <- <- <-. exact Hpost.
  - rewrite service_idle in E by exact Ep. injection E as <- <- <-. auto.
Qed.

(** The three ways a preemptive step can go. *)
Inductive preemptive_stepped s : System H -> Prop :=
  | ps_preempted s' sel : preempts s = true -> preempted s (running_pid (s_table s)) sel s' -> preemptive_stepped s s'
  | ps_stepped : preempts s = false -> preemptive_stepped s (stepped_system s)
  | ps_both s' sel : preempts s = false -> stopped (s_machine (stepped_system s)) = false ->
      preempted (stepped_system s) (running_pid (s_table s)) sel s' -> preemptive_stepped s s'.

Lemma preemptive_step_inv this_cpu sel s s' :
  kernel_ok (kernel_of s) -> preemptive_step this_cpu s = (Ret sel, s') ->
  hasRunningProcess (s_table s) = true /\ preemptive_stepped s s'.
Proof.
  intros Hk E. pose proof E as E0. unfold preemptive_step, get in E0. rewrite bind_run in E0. cbv beta iota in E0.
  apply M_bind_ret_inv in E0 as (u1 & s1 & E1 & E0). apply M_throw_if_ret_inv in E1 as [Hs ->].
  apply M_bind_ret_inv in E0 as (u2 & s1 & E1 & E0). apply M_throw_if_ret_inv in E1 as [Ha ->].
  apply M_bind_ret_inv in E0 as (u3 & s1 & E1 & E0). apply M_throw_if_ret_inv in E1 as [Hr ->]. clear E0. apply negb_false_iff in Hs, Ha, Hr. apply bool_decide_eq_true in Ha.
  split; [exact Hr|]. destruct (preempts s) eqn:Ep.
  - rewrite preemptive_step_run in E by assumption. apply M_bind_ret_inv in E as ([b x] & s1 & E1 & E).
    pose proof (service_inv _ _ _ _ _ Hk E1) as Hserv. destruct b; [|destruct Hserv; congruence].
    injection E as <- <-. econstructor 1; [exact Ep | exact Hserv].
  - rewrite preemptive_step_idle in E by assumption. destruct (stopped (s_machine (stepped_system s))) eqn:Est.
    + injection E as <- <-. constructor 2. exact Ep.
    + apply M_bind_ret_inv in E as ([b x] & s1 & E1 & E). injection E as <- <-.
      destruct (cpu_step_post s Hk) as (e & [Hk1 Ht _ _ _]).
      pose proof (service_inv _ _ _ _ _ Hk1 E1) as Hserv. destruct b.
      * econstructor 3; [exact Ep | exact Est | exact Hserv].
      * destruct Hserv as [-> _]. constructor 2. exact Ep.
Qed.

(** ** The end of a process *)

Lemma end_process_recordable (m : ProcessLifecycleManager) s r ms' :
  kernel_ok (kernel_of s) -> end_process (m, s) = (Ret r, ms') ->
  hasRunningProcess (s_table s) = true /\ recordable (kernel_of s).
Proof.
  intros Hk E. unfold end_process, get in E. rewrite bind_run in E. cbv beta iota zeta in E.
  apply M_bind_ret_inv in E as (pid & s1 & E1 & E). apply M_lift_ret_inv in E1 as [E1 ->].
  unfold runningProcessId in E1. apply throw_if_bind_inv in E1 as [Hr E1]. apply negb_false_iff in Hr. injection E1 as <-.
  split; [exact Hr|]. apply M_bind_ret_inv in E as (code & s1 & E1 & E). apply M_lift_ret_inv in E1 as [_ ->].
  apply M_bind_ret_inv in E as (ctx & s1 & E1 & E). apply M_lift_ret_inv in E1 as [E1 ->].
  apply (captureSnapshot_spec _ _ _ (kok_registers _ Hk)) in E1 as (Hu & -> & Hs). split; [exact Hu|].
  intros p Hp. split; [exact Hs|]. apply M_bind_ret_inv in E as ([next k'] & s1 & E1 & _). apply M_lift_ret_inv in E1 as [E1 _].
  assert (Hstop : forall kind msg c0 ended t',
    stopProcess (running_pid (s_table s)) (fun p => p ← replaceFinalState (context_of (running_pid (s_table s)) (cpu_of s))
      (memory (state (cpu_of s))) p; terminate c0 kind msg p) (s_table s) = (Ret ended, t') ->
    ProcessAddressSpace_validate {| as_memory := memory (state (cpu_of s));
      as_executable_metadata := as_executable_metadata (pcb_address_space p);
      as_executable := as_executable (pcb_address_space p) |} = Ret tt).
  { intros kind msg c0 ended t' E2. unfold stopProcess, get in E2. rewrite bind_run in E2. cbv beta iota in E2.
    apply M_bind_ret_inv in E2 as (q & t1 & E3 & E2). apply M_lift_ret_inv in E3 as [E3 ->].
    apply M_bind_ret_inv in E2 as (u & t1 & E2 & _). rewrite on_process_run in E2. cbn [kernel_of k_table] in Hp.
    unfold requireProcess in E2. rewrite Hp in E2. cbn [mbind outcome_bind mret outcome_ret] in E2.
    destruct (replaceFinalState _ _ _) as [p'|x] eqn:Er; [|discriminate E2].
    unfold replaceFinalState in Er. rewrite throw_if_bind_inv, unit_bind_inv, throw_if_bind_inv in Er.
    destruct Er as (_ & _ & _ & Er). apply bind_ret_inv in Er as (a & Ha & _).
    unfold replaceMemory in Ha. apply unit_bind_inv in Ha as [Ha _]. exact Ha. }
  destruct (has_error (state (cpu_of s))).
  - unfold ProcessTable_fault_state in E1. destruct (stopProcess _ _ _) as [[u|x] t'] eqn:E2; [|discriminate E1].
    eapply Hstop, E2.
  - unfold ProcessTable_terminate_state in E1. destruct (stopProcess _ _ _) as [[u|x] t'] eqn:E2; [|discriminate E1].
    eapply Hstop, E2.
Qed.

(** What is left when the process of [s] has ended. *)
Record ended_effect (m : ProcessLifecycleManager) s (m' : ProcessLifecycleManager) s' : Prop := {
  ee_table : table_wf (s_table s');
  ee_endings : endings (s_table s') =
    <[running_pid (s_table s) := Some (stop_code m (cpu_of s), stop_kind (cpu_of s))]> (endings (s_table s));
  ee_resume : forall pid, pid <> 0 -> pid <> running_pid (s_table s) ->
    resume_pc (kernel_of s') pid = resume_pc (kernel_of s) pid;
  ee_next : lm_state m' = RS_Running -> kernel_ok (kernel_of s') /\ hasRunningProcess (s_table s') = true /\
    running_pid (s_table s') <> running_pid (s_table s) /\ is_Some (processes (s_table s) !! running_pid (s_table s'));
  ee_over : lm_state m' <> RS_Running -> running_pid (s_table s') = 0;
}.

Lemma ended_lookup m s p :
  kernel_ok (kernel_of s) -> recordable (kernel_of s) -> processes (s_table s) !! running_pid (s_table s) = Some p ->
  let c := cpu_of s in
  table_wf (stop_table m s) /\ running_pid (stop_table m s) = 0 /\
  forall pid, processes (stop_table m s) !! pid =
    if bool_decide (pid = running_pid (s_table s))
    then Some (ended_block pid c (stop_code m c) (stop_kind c) (stop_message c) p) else processes (s_table s) !! pid.
Proof.
  intros Hk Hrec Hp c.
  destruct (ended_ok c (s_table s) (s_scheduler s) Hk Hrec p Hp (stop_code m c) (stop_kind c) (stop_message c))
    as (Hk1 & _ & H0 & Hself & Hother).
  split; [apply (kok_table _ Hk1)|]. split; [exact H0|]. intros pid. case_bool_decide as E; [subst pid; exact Hself | apply Hother, E].
Qed.

Lemma end_process_effect m s m' s' r :
  kernel_ok (kernel_of s) -> recordable (kernel_of s) -> hasRunningProcess (s_table s) = true ->
  process_ended m s m' s' r -> ended_effect m s m' s'.
Proof.
  intros Hk Hrec Hr [Hblock _ _ _ _ Hnext].
  destruct (running_spec _ (kok_table _ Hk) Hr) as (p & Hp & _). cbn [kernel_of k_table] in Hp.
  destruct (ended_lookup m s p Hk Hrec Hp) as (Hwf & H0 & Hl). set (c := cpu_of s) in *.
  assert (Hnz : running_pid (s_table s) <> 0) by (apply (running_nonzero _ (kok_table _ Hk) _ _ Hp)).
  assert (Hend : endings (stop_table m s) = <[running_pid (s_table s) := Some (stop_code m c, stop_kind c)]> (endings (s_table s))).
  { apply map_eq. intros pid. rewrite endings_lookup, Hl. case_bool_decide as E.
    - subst pid. rewrite lookup_insert_eq. reflexivity.
    - rewrite lookup_insert_ne, endings_lookup by congruence. reflexivity. }
  assert (Hres : forall pid, pid <> 0 -> pid <> running_pid (s_table s) ->
    resume_pc (kernel_of s) pid = ((fun b => ctx_pc (pcb_context b)) <$> processes (stop_table m s) !! pid)).
  { intros pid _ Hne. rewrite Hl, bool_decide_eq_false_2 by exact Hne. unfold resume_pc. cbn [kernel_of k_table].
    rewrite (proj2 (Z.eqb_neq _ _)) by exact Hne. reflexivity. }
  destruct (rotation (stop_table m s) (s_scheduler s)) as [|next rest] eqn:Hrot.
  - destruct Hnext as (Ht & _ & _ & Hs & _). rewrite <- Ht in *. constructor.
    + exact Hwf.
    + exact Hend.
    + intros pid Hpid Hne. rewrite Hres by assumption. unfold resume_pc. cbn [kernel_of k_table]. rewrite H0.
      rewrite (proj2 (Z.eqb_neq _ _)) by exact Hpid. reflexivity.
    + intros E. contradiction.
    + intros _. exact H0.
  - destruct Hnext as (q & Hs & _ & Ht & Hq & [Hctx _] & Hk' & _). pose proof (rotation_elem _ _ _ _ Hrot) as Hel.
    pose proof Hel as Hel'. apply runnable_spec in Hel' as (x & Hx & Hxs).
    assert (Hne : next <> running_pid (s_table s)).
    { intros E. rewrite Hl, bool_decide_eq_true_2 in Hx by exact E. injection Hx as <-. cbn in Hxs. destruct Hxs; discriminate. }
    constructor.
    + apply (kok_table _ Hk').
    + rewrite Ht, switch_endings by exact Hel. exact Hend.
    + intros pid Hpid Hn. rewrite Hres by assumption.
      assert (Hsw : ((fun b => ctx_pc (pcb_context b)) <$> processes (s_table s') !! pid) =
                    ((fun b => ctx_pc (pcb_context b)) <$> processes (stop_table m s) !! pid)).
      { rewrite Ht, switch_lookup. destruct (processes (stop_table m s) !! pid); [|reflexivity]. cbn. rewrite switch_state_context. reflexivity. }
      rewrite <- Hsw. unfold resume_pc. cbn [kernel_of k_table k_cpu]. destruct (pid =? running_pid (s_table s')) eqn:E; bool_facts; [|reflexivity].
      rewrite Ht in E. cbn [switch_to running_pid] in E. subst pid. rewrite Hq. cbn. f_equal. rewrite <- Hctx. reflexivity.
    + intros _. rewrite Ht. cbn [switch_to running_pid]. split; [exact Hk'|]. split; [|split; [exact Hne|]].
      * unfold hasRunningProcess. cbn. apply negb_true_iff, Z.eqb_neq. apply (running_nonzero _ Hwf _ _ Hx).
      * rewrite Hl, bool_decide_eq_false_2 in Hx by exact Hne. eauto.
    + intros E. contradiction.
Qed.

(** ** The lifecycle step *)

Definition event_list (e : option TraceEvent) : list TraceEvent := match e with Some e => [e] | None => [] end.

Definition counts_switch (p p' : TimerPreemptiveScheduler) (switched : bool) : Prop :=
  tp_preemption_count p' = u64 (tp_preemption_count p + 1) /\
  tp_context_switch_count p' = (if switched then u64 (tp_context_switch_count p + 1) else tp_context_switch_count p).

(** What a step that returned did, where [e] is the event it recorded. *)
Record lifecycle_effect (m : ProcessLifecycleManager) s (m' : ProcessLifecycleManager) s' (r : ProcessLifecycleStepResult)
    (e : option TraceEvent) : Prop := {
  le_state : lr_state r = lm_state m';
  le_trace : trace_logger (cpu_of s') = trace_logger (cpu_of s) ++ event_list e;
  le_event : forall ev, e = Some ev -> pc (ev_before ev) = pc (state (cpu_of s));
  le_shows : e <> None \/ preempts s = true \/ lr_process_terminated r = true;
  le_quiet : e = None -> has_software_interrupt_observation (cpu_of s') = has_software_interrupt_observation (cpu_of s);
  le_table : table_wf (s_table s');
  le_resume : forall pid, pid <> 0 -> endings (s_table s') !! pid = Some None ->
    resume_pc (kernel_of s') pid =
    match e with
    | Some ev => if pid =? running_pid (s_table s) then Some (pc (ev_after ev)) else resume_pc (kernel_of s) pid
    | None => resume_pc (kernel_of s) pid
    end;
  le_ended : lr_process_terminated r = true -> exists code kind,
    endings (s_table s') = <[running_pid (s_table s) := Some (code, kind)]> (endings (s_table s)) /\
    endings (s_table s) !! running_pid (s_table s) = Some None /\
    (e <> None -> forall c, observed_exit (cpu_of s') c -> code = c) /\
    lm_termination_count m' = u64 (lm_termination_count m + 1) /\
    lm_fault_count m' = (if bool_decide (kind = CpuFault) then u64 (lm_fault_count m + 1) else lm_fault_count m) /\
    s_preemptive s' = s_preemptive s /\ running_pid (s_table s') <> running_pid (s_table s);
  le_kept : lr_process_terminated r = false ->
    endings (s_table s') = endings (s_table s) /\ m' = m /\ (e <> None -> forall c, ~ observed_exit (cpu_of s') c) /\
    (running_pid (s_table s') = running_pid (s_table s) /\ s_preemptive s' = s_preemptive s \/
     counts_switch (s_preemptive s) (s_preemptive s') (negb (running_pid (s_table s') =? running_pid (s_table s))));
  le_next : lm_state m' = RS_Running -> kernel_ok (kernel_of s') /\ hasRunningProcess (s_table s') = true;
  le_over : lm_state m' <> RS_Running -> running_pid (s_table s') = 0 /\ lr_process_terminated r = true;
  le_known : running_pid (s_table s') = 0 \/ running_pid (s_table s') ∈ dom (endings (s_table s));
}.

(** A dispatch by the preemptive scheduler. *)
Lemma preempted_effect s cur sel s' :
  kernel_ok (kernel_of s) -> preempted s cur sel s' ->
  redispatched (kernel_of s) sel (kernel_of s') /\
  counts_switch (s_preemptive s) (s_preemptive s') (negb (sel =? cur)).
Proof.
  intros Hk [Hd _ _ Hc]. split; [apply dispatch_post; assumption|]. rewrite Hc. split; [reflexivity|]. cbn. destruct (negb _); reflexivity.
Qed.

Lemma lifecycle_step_inv this_cpu (m : ProcessLifecycleManager) s r m' s' :
  lm_state m = RS_Running -> lifecycle_step this_cpu (m, s) = (Ret r, (m', s')) ->
  exists sel s1, preemptive_step this_cpu s = (Ret sel, s1) /\
    if stopped (s_machine s1) then end_process (m, s1) = (Ret r, (m', s'))
    else m' = m /\ s' = s1 /\ r = step_result RS_Running false false 0 (running_pid (s_table s1)) /\
         hasRunningProcess (s_table s1) = true.
Proof.
  intros Hst E. unfold lifecycle_step, get in E. rewrite bind_run in E. cbv beta iota in E.
  apply M_bind_ret_inv in E as (u & [m1 s1] & E1 & E). apply M_throw_if_ret_inv in E1 as [_ [= -> ->]].
  rewrite Hst, bool_decide_eq_true_2 in E by reflexivity. cbn [negb] in E.
  apply M_bind_ret_inv in E as (u1 & [m1 s1] & E1 & E). apply M_throw_if_ret_inv in E1 as [_ [= -> ->]].
  apply M_bind_ret_inv in E as (sel & [m1 s1] & E1 & E). unfold on_system, zoom in E1. cbn [snd] in E1.
  destruct (preemptive_step this_cpu s) as [[x|x] s2] eqn:Ep; [|discriminate E1]. injection E1 as <- <- <-.
  exists x, s2. split; [reflexivity|]. rewrite bind_run in E. unfold get in E. cbv beta iota in E. unfold stopped.
  destruct (halted (mstate (s_machine s2))), (has_error (mstate (s_machine s2))); cbn [negb andb orb] in E |- *; try exact E.
  apply M_bind_ret_inv in E as (pid & [m1 s1] & E1 & E). apply M_lift_ret_inv in E1 as [E1 [= -> ->]].
  unfold runningProcessId in E1. apply throw_if_bind_inv in E1 as [Hr [= <-]]. apply negb_false_iff in Hr.
  injection E as <- <- <-. rewrite Hst. auto.
Qed.

Lemma running_not_ended k :
  kernel_ok k -> hasRunningProcess (k_table k) = true ->
  running_pid (k_table k) <> 0 /\ endings (k_table k) !! running_pid (k_table k) = Some None.
Proof.
  intros Hk Hr. destruct (running_spec _ (kok_table _ Hk) Hr) as (p & Hp & Hs).
  split; [apply (running_nonzero _ (kok_table _ Hk) _ _ Hp)|]. rewrite endings_lookup, Hp. cbn. unfold ending.
  rewrite Hs, bool_decide_eq_false_2 by discriminate. reflexivity.
Qed.

Lemma endings_known t pid x : endings t !! pid = Some x -> pid ∈ dom (endings t).
Proof. intros E. apply elem_of_dom. eauto. Qed.

Lemma redispatched_known k sel k' : redispatched k sel k' -> running_pid (k_table k') ∈ dom (endings (k_table k)).
Proof. intros [_ [-> Hs] _ _ _]. apply endings_dom, Hs. Qed.

Lemma redispatched_running k sel k' : redispatched k sel k' -> hasRunningProcess (k_table k') = true.
Proof.
  intros [Hk [Hr [p Hp]] He _ _]. unfold hasRunningProcess. apply negb_true_iff, Z.eqb_neq. rewrite Hr.
  assert (Hd : sel ∈ dom (endings (k_table k'))) by (rewrite He; apply endings_dom; eauto).
  apply endings_dom in Hd as [q Hq]. apply (running_nonzero _ (kok_table _ Hk) _ _ Hq).
Qed.

Lemma redispatched_not_stopped s sel s' : redispatched (kernel_of s) sel (kernel_of s') -> stopped (s_machine s') = false.
Proof. intros [_ _ _ _ (Hh & He & _)]. unfold stopped. cbn in Hh, He. unfold mstate. rewrite Hh, He. reflexivity. Qed.

Lemma observed_exit_redispatched s sel s' c :
  redispatched (kernel_of s) sel (kernel_of s') -> observed_exit (cpu_of s') c -> observed_exit (cpu_of s) c.
Proof. intros [_ _ _ _ (_ & _ & _ & Hq & Ho)] (H1 & H2 & H3). cbn in Hq, Ho. unfold observed_exit. rewrite <- Hq, <- Ho. auto. Qed.

Lemma effect_preempted m s sel s' :
  kernel_ok (kernel_of s) -> hasRunningProcess (s_table s) = true -> lm_state m = RS_Running ->
  preempts s = true -> preempted s (running_pid (s_table s)) sel s' ->
  lifecycle_effect m s m s' (step_result RS_Running false false 0 (running_pid (s_table s'))) None.
Proof.
  intros Hk Hr Hst Hp Hpre. destruct (preempted_effect _ _ _ _ Hk Hpre) as [Hd Hc].
  pose proof Hd as [Hk' [Hrun _] Hend Hres (_ & _ & Ht & Hq & _)]. cbn [kernel_of k_table k_cpu] in *.
  constructor; cbn [step_result lr_state lr_process_terminated event_list].
  - symmetry. exact Hst.
  - rewrite app_nil_r. exact Ht.
  - discriminate.
  - auto.
  - intros _. exact Hq.
  - apply (kok_table _ Hk').
  - intros pid Hpid _. apply Hres, Hpid.
  - discriminate.
  - intros _. split; [exact Hend|]. split; [reflexivity|]. split; [intros E; contradiction|]. right. rewrite Hrun. exact Hc.
  - intros _. split; [exact Hk' | apply (redispatched_running _ _ _ Hd)].
  - intros E. contradiction.
  - right. apply (redispatched_known _ _ _ Hd).
Qed.

(** The events and the resumption points after the CPU's own step. *)
Lemma stepped_resume s s1 e pid :
  cpu_stepped s s1 e -> resume_pc (kernel_of s1) pid =
  match e with
  | Some ev => if pid =? running_pid (s_table s) then Some (pc (ev_after ev)) else resume_pc (kernel_of s) pid
  | None => resume_pc (kernel_of s) pid
  end.
Proof.
  intros [_ (Ht & _ & _) _ He _]. destruct e as [ev|]; [|destruct He as [-> _]; reflexivity]. destruct He as [_ Ha].
  unfold resume_pc. cbn [kernel_of k_table k_cpu]. rewrite Ht, Ha. destruct (_ =? _); reflexivity.
Qed.

Lemma effect_stepped m s e :
  kernel_ok (kernel_of s) -> hasRunningProcess (s_table s) = true -> lm_state m = RS_Running ->
  cpu_stepped s (stepped_system s) e -> stopped (s_machine (stepped_system s)) = false ->
  lifecycle_effect m s m (stepped_system s) (step_result RS_Running false false 0 (running_pid (s_table s))) e.
Proof.
  intros Hk Hr Hst Hc Hns. pose proof Hc as [Hk1 (Ht & Hp & _) Htr He Hx].
  assert (Hsome : exists ev, e = Some ev).
  { destruct e as [ev|]; [eauto|]. destruct He as [E1 E2]. rewrite E1 in Hns. congruence. }
  constructor; cbn [step_result lr_state lr_process_terminated].
  - symmetry. exact Hst.
  - exact Htr.
  - intros ev ->. apply He.
  - left. destruct Hsome as [ev ->]. discriminate.
  - intros ->. destruct Hsome. discriminate.
  - apply (kok_table _ Hk1).
  - intros pid _ _. apply (stepped_resume _ _ _ _ Hc).
  - discriminate.
  - intros _. rewrite Ht. split; [reflexivity|]. split; [reflexivity|]. split; [|left; auto].
    intros _ c Ho. destruct (Hx Hsome c Ho) as (Hh & _). unfold stopped, mstate in Hns. rewrite Hh in Hns. discriminate.
  - intros _. split; [exact Hk1 | rewrite Ht; exact Hr].
  - intros E. contradiction.
  - right. rewrite Ht. eapply endings_known. exact (proj2 (running_not_ended _ Hk Hr)).
Qed.

Lemma effect_both m s e sel s' :
  kernel_ok (kernel_of s) -> hasRunningProcess (s_table s) = true -> lm_state m = RS_Running ->
  cpu_stepped s (stepped_system s) e -> stopped (s_machine (stepped_system s)) = false ->
  preempted (stepped_system s) (running_pid (s_table s)) sel s' ->
  lifecycle_effect m s m s' (step_result RS_Running false false 0 (running_pid (s_table s'))) e.
Proof.
  intros Hk Hr Hst Hc Hns Hpre. destruct (effect_stepped m s e Hk Hr Hst Hc Hns) as [_ Htr Hev Hsh _ _ _ _ Hkept _ _ _].
  pose proof Hc as [Hk1 (Ht & Hp & _) _ He Hx]. destruct (preempted_effect _ _ _ _ Hk1 Hpre) as [Hd Hcount].
  pose proof Hd as [Hk' [Hrun _] Hend Hres (_ & _ & Htr' & _)]. cbn [kernel_of k_table k_cpu] in *.
  destruct (Hkept eq_refl) as (_ & _ & Hno & _).
  constructor; cbn [step_result lr_state lr_process_terminated].
  - symmetry. exact Hst.
  - rewrite Htr'. exact Htr.
  - exact Hev.
  - destruct Hsh as [?|[?|[=]]]; auto.
  - intros ->. destruct He as [E1 E2]. rewrite E1 in Hns. congruence.
  - apply (kok_table _ Hk').
  - intros pid Hpid _. rewrite <- (stepped_resume _ _ _ pid Hc). apply Hres, Hpid.
  - discriminate.
  - intros _. rewrite Hend, Ht. split; [reflexivity|]. split; [reflexivity|]. split.
    + intros Hs c Ho. apply (Hno Hs c). apply (observed_exit_redispatched _ _ _ _ Hd Ho).
    + right. rewrite Hrun, <- Hp. exact Hcount.
  - intros _. split; [exact Hk' | apply (redispatched_running _ _ _ Hd)].
  - intros E. contradiction.
  - right. rewrite <- Ht. apply (redispatched_known _ _ _ Hd).
Qed.

Lemma effect_ended m s m' s' r e :
  kernel_ok (kernel_of s) -> hasRunningProcess (s_table s) = true ->
  cpu_stepped s (stepped_system s) e -> end_process (m, stepped_system s) = (Ret r, (m', s')) ->
  lifecycle_effect m s m' s' r e.
Proof.
  intros Hk Hr Hc E. pose proof Hc as [Hk1 (Ht & Hp & _) Htr He Hx].
  destruct (end_process_recordable _ _ _ _ Hk1 E) as [Hr1 Hrec].
  destruct (end_process_run m _ Hk1 Hrec Hr1) as (r0 & m0 & s0 & E0 & Hpost). rewrite E0 in E. injection E as -> -> ->.
  destruct (end_process_effect _ _ _ _ _ Hk1 Hrec Hr1 Hpost) as [Hwf Hend Hres Hnext Hover].
  destruct Hpost as [_ [Hterm Hfault] (Hlt & _ & _ & Hls) (_ & _ & Hpre) (Htrace & Hobs & Hob) _].
  destruct (running_not_ended _ Hk Hr) as [Hnz Hnone]. cbn [kernel_of k_table] in Hnz, Hnone.
  rewrite Ht in *. constructor.
  - exact Hls.
  - rewrite Htrace. exact Htr.
  - intros ev ->. apply He.
  - auto.
  - intros ->. destruct He as [E1 _]. rewrite Hobs, E1. reflexivity.
  - exact Hwf.
  - intros pid Hpid Hn. assert (Hne : pid <> running_pid (s_table s)).
    { intros E. subst pid. rewrite Hend, lookup_insert_eq in Hn. discriminate. }
    rewrite Hres by assumption. apply (stepped_resume _ _ _ _ Hc).
  - intros _. eexists _, _. split; [exact Hend|]. split; [exact Hnone|]. split.
    + intros Hs c (H1 & H2 & H3). rewrite Hobs in H1. rewrite Hob in H2, H3.
      assert (Hsome : exists ev, e = Some ev) by (destruct e; [eauto | contradiction]).
      destruct (Hx Hsome c (conj H1 (conj H2 H3))) as (_ & Hne & Hreq & Hcode). unfold stop_code. rewrite Hne, Hreq. exact Hcode.
    + split; [exact Hterm|]. split.
      * rewrite Hfault. unfold stop_kind, mstate. destruct (has_error (state (cpu_of (stepped_system s)))); reflexivity.
      * split; [congruence|]. intros Ee. destruct (decide (lm_state m' = RS_Running)) as [Es|Es].
        -- apply (proj1 (proj2 (proj2 (Hnext Es)))), Ee.
        -- rewrite (Hover Es) in Ee. congruence.
  - rewrite Hlt. discriminate.
  - intros Es. split; [apply Hnext, Es | apply Hnext, Es].
  - intros Es. split; [apply Hover, Es | exact Hlt].
  - destruct (decide (lm_state m' = RS_Running)) as [Es|Es]; [right | left; apply Hover, Es].
    apply endings_dom. apply (Hnext Es).
Qed.

Lemma lifecycle_step_effect this_cpu m s r m' s' :
  kernel_ok (kernel_of s) -> lm_state m = RS_Running -> lifecycle_step this_cpu (m, s) = (Ret r, (m', s')) ->
  exists e, lifecycle_effect m s m' s' r e.
Proof.
  intros Hk Hst E. destruct (lifecycle_step_inv _ _ _ _ _ _ Hst E) as (sel & s1 & Hp & Hcase).
  destruct (preemptive_step_inv _ _ _ _ Hk Hp) as [Hr Hps]. destruct (cpu_step_post s Hk) as (e & Hc).
  destruct Hps as [s1 x Hyes Hpre | Hno | s1 x Hno Hns Hpre].
  - destruct (preempted_effect _ _ _ _ Hk Hpre) as [Hd _]. rewrite (redispatched_not_stopped _ _ _ Hd) in Hcase.
    destruct Hcase as (-> & -> & -> & _). exists None. eapply effect_preempted; eassumption.
  - exists e. destruct (stopped (s_machine (stepped_system s))) eqn:Est.
    + eapply effect_ended; eassumption.
    + destruct Hcase as (-> & -> & -> & _). rewrite (proj1 (cs_table _ _ _ Hc)). apply effect_stepped; assumption.
  - destruct (preempted_effect _ _ _ _ (cs_kernel _ _ _ Hc) Hpre) as [Hd _]. rewrite (redispatched_not_stopped _ _ _ Hd) in Hcase.
    destruct Hcase as (-> & -> & -> & _). exists e. eapply effect_both; eassumption.
Qed.

End steps.
