(* ===== verification/RunnerLaws.v ===== *)
(** * The runner's results are consistent

    The invariant of the runner's loop ([session_ok]): the log is consistent with
    the processes of the table and with the counters of the two managers.  Every
    iteration keeps it, whatever the programs, the devices and the host handler do,
    so a result that [runFiles] returns passes the invariant verifier. *)

From stdpp Require Import sorting.
From S2P Require Import Prelude Words ALU Memory ISA Binary Interrupts Devices CPUState Trace CPU CPUExec CPUStep CPUFrames CPUInv CPURun CPUShape Image Process ProcTable Scheduler Dispatcher Preemption Lifecycle Runner Verifier VerifierLaws RunnerLog.
Open Scope Z_scope.

(** ** Counting ended processes *)

Definition ended_with (f : ProcessTerminationKind -> bool) (E : Endings) (pid : ProcessId) : bool :=
  match E !! pid with Some (Some (_, kind)) => f kind | _ => false end.

Definition ended_count (f : ProcessTerminationKind -> bool) (ids : list ProcessId) (E : Endings) : Z :=
  countb (ended_with f E) ids.

Lemma countb_ext {A} (f g : A -> bool) l : (forall x, x ∈ l -> f x = g x) -> countb f l = countb g l.
Proof.
  intros H. induction l as [|x l IH]; [reflexivity|]. rewrite !countb_cons, (H x) by left. rewrite IH; [reflexivity|].
  intros y Hy. apply H. right. exact Hy.
Qed.

Lemma countb_snoc {A} (f : A -> bool) l x : countb f (l ++ [x]) = countb f l + (if f x then 1 else 0).
Proof.
  induction l as [|y l IH]; cbn [app]; rewrite ?countb_cons.
  - change (countb f []) with 0. lia.
  - rewrite IH. lia.
Qed.

Lemma countb_le {A} (f g : A -> bool) l : (forall x, f x = true -> g x = true) -> countb f l <= countb g l.
Proof.
  intros H. induction l as [|x l IH]; [reflexivity|]. rewrite !countb_cons. specialize (H x).
  destruct (f x); [rewrite H by reflexivity; lia|]. destruct (g x); lia.
Qed.

Lemma countb_bounds {A} (f : A -> bool) l : 0 <= countb f l <= Z.of_nat (length l).
Proof. induction l as [|x l IH]; [unfold countb; cbn; lia|]. rewrite countb_cons. cbn [length]. destruct (f x); lia. Qed.

Lemma ended_count_insert f ids E pid code kind :
  NoDup ids -> pid ∈ ids -> E !! pid = Some None ->
  ended_count f ids (<[pid := Some (code, kind)]> E) = ended_count f ids E + (if f kind then 1 else 0).
Proof.
  unfold ended_count. intros Hn Hin HE. induction ids as [|x ids IH]; [inversion Hin|].
  rewrite !countb_cons. apply NoDup_cons in Hn as [Hx Hn]. apply elem_of_cons in Hin as [->|Hin].
  - rewrite (countb_ext _ (ended_with f E)).
    + unfold ended_with at 1 3. rewrite lookup_insert_eq, HE. lia.
    + intros y Hy. unfold ended_with. rewrite lookup_insert_ne by congruence. reflexivity.
  - rewrite IH by assumption. unfold ended_with at 1 3. rewrite lookup_insert_ne by congruence. lia.
Qed.

(** ** The loop invariant *)

Section session.
Context {LD : LongDouble} {H : Type} {SIH : SoftwareInterruptHandler H} {QH : QuietHandler H}.
Implicit Types (s : System H) (m : ProcessLifecycleManager).
Abbreviation cpu_of s := (cpu (s_machine s)).
Abbreviation any := (fun _ : ProcessTerminationKind => true).
Abbreviation faulted := (fun k : ProcessTerminationKind => bool_decide (k = CpuFault)).

Context (ids : list ProcessId) (Hids : NoDup ids).

Record session_ok (n : Z) m s (log : RunLog) (cur : ProcessId) : Prop := {
  so_log : log_ok n (endings (s_table s)) cur log;
  so_cur : cur = running_pid (s_table s) \/ n = 0 /\ cur = 0;
  so_start : n = 0 -> timer_pending s = false;
  so_table : table_wf (s_table s);
  so_ids : forall pid, pid ∈ ids <-> pid ∈ dom (endings (s_table s));
  so_quiet : has_software_interrupt_observation (cpu_of s) = false;
  so_resume : forall pid v, pcs_after ∅ (log_execution log) !! pid = Some v ->
    endings (s_table s) !! pid = Some None -> resume_pc (kernel_of s) pid = Some v;
  so_running : lm_state m = RS_Running -> kernel_ok (kernel_of s) /\ hasRunningProcess (s_table s) = true;
  so_over : lm_state m <> RS_Running -> running_pid (s_table s) = 0;
  so_preemptions : countb cs_preempted (log_switches log) = tp_context_switch_count (s_preemptive s) /\
    tp_context_switch_count (s_preemptive s) <= tp_preemption_count (s_preemptive s) <= n;
  so_terminations : countb cs_caused_by_termination (log_switches log) = lm_termination_count m /\
    lm_termination_count m = ended_count any ids (endings (s_table s)) /\ lm_termination_count m <= n;
  so_faults : lm_fault_count m = ended_count faulted ids (endings (s_table s));
}.

(** What the runner records of a step with these effects. *)
Definition step_record s s' (r : ProcessLifecycleStepResult) (e : option TraceEvent) : StepRecord :=
  {| sr_event := e;
     sr_observation := if has_software_interrupt_observation (cpu_of s') then Some (software_interrupt_observation (cpu_of s')) else None;
     sr_switch := if negb (running_pid (s_table s) =? running_pid (s_table s'))
                  then Some (running_pid (s_table s'),
                             tp_preemption_count (s_preemptive s') >? tp_preemption_count (s_preemptive s),
                             lr_process_terminated r)
                  else None |}.

Lemma current_pid_running t : current_pid t = running_pid t.
Proof. unfold current_pid, hasRunningProcess. destruct (running_pid t =? 0) eqn:E; bool_facts; cbn; congruence. Qed.

Definition clear_observation s : System H :=
  if has_software_interrupt_observation (cpu_of s)
  then mkSystem (set_cpu clearSoftwareInterruptObservation (s_machine s)) (s_table s) (s_scheduler s) (s_preemptive s) else s.

Lemma record_step_run m s s' r e log :
  trace_logger (cpu_of s') = trace_logger (cpu_of s) ++ event_list e -> 0 <= log_steps log < UINT64_MAX ->
  record_step (running_pid (s_table s)) (length (trace_logger (cpu_of s))) (tp_preemption_count (s_preemptive s)) r log (m, s') =
  (Ret (extend (running_pid (s_table s)) (step_record s s' r e) log), (m, clear_observation s')).
Proof.
  intros Ht Hn. unfold record_step, get. rewrite bind_run. cbv beta iota zeta. rewrite current_pid_running.
  assert (Hu : u64 (log_steps log + 1) = log_steps log + 1) by (apply u64_small; words). rewrite Hu.
  unfold extend, step_record, clear_observation. cbn [sr_event sr_observation sr_switch].
  assert (Hexec : ((if (length (trace_logger (cpu_of s)) <? length (trace_logger (cpu_of s')))%nat
     then event ← lift (TraceLogger_last (trace_logger (cpu_of s')));
          mret (log_execution log ++ [{| et_lifecycle_step := log_steps log + 1; et_pid := running_pid (s_table s); et_event := event |}])
     else mret (log_execution log)) : M (ProcessLifecycleManager * System H) _) (m, s') =
    (Ret (log_execution log ++ match e with Some e => [{| et_lifecycle_step := log_steps log + 1; et_pid := running_pid (s_table s); et_event := e |}] | None => [] end), (m, s'))).
  { rewrite Ht, length_app. destruct e as [ev|]; cbn [event_list length].
    - rewrite (proj2 (Nat.ltb_lt _ _)) by lia. rewrite bind_run. unfold lift, TraceLogger_last. rewrite last_snoc. reflexivity.
    - rewrite (proj2 (Nat.ltb_ge _ _)) by lia. rewrite app_nil_r. reflexivity. }
  rewrite bind_run, Hexec. cbv beta iota. rewrite bind_run.
  destruct (has_software_interrupt_observation (cpu_of s')) eqn:Ho.
  - rewrite bind_run. unfold lift at 1, softwareInterruptObservation. rewrite Ho. cbn [negb mret outcome_ret].
    rewrite bind_run. cbn. do 4 f_equal. destruct (negb _); [reflexivity | rewrite app_nil_r; reflexivity].
  - cbn [mret M_ret]. rewrite app_nil_r. destruct (negb _); [reflexivity | rewrite app_nil_r; reflexivity].
Qed.

(** ** One iteration keeps the invariant *)

Section extending.
Context (n : Z) m s (log : RunLog) (cur : ProcessId) m' s' (r : ProcessLifecycleStepResult) (e : option TraceEvent).
Context (Hok : session_ok n m s log cur) (Hst : lm_state m = RS_Running) (Hn : n < UINT64_MAX).
Context (He : lifecycle_effect m s m' s' r e).
Abbreviation x := (step_record s s' r e).
Abbreviation pid := (running_pid (s_table s)).

Lemma session_steps : log_steps log = n /\ 0 <= n.
Proof. exact (lok_steps _ _ _ _ (so_log _ _ _ _ _ Hok)). Qed.

Lemma session_alive : pid <> 0 /\ endings (s_table s) !! pid = Some None.
Proof. destruct (so_running _ _ _ _ _ Hok Hst) as [Hk Hr]. exact (running_not_ended _ Hk Hr). Qed.

Lemma effect_dom : dom (endings (s_table s')) = dom (endings (s_table s)).
Proof.
  destruct (lr_process_terminated r) eqn:Et.
  - destruct (le_ended _ _ _ _ _ _ He Et) as (code & kind & -> & Hnone & _).
    rewrite dom_insert_L. apply endings_known in Hnone. set_solver.
  - destruct (le_kept _ _ _ _ _ _ He Et) as (-> & _). reflexivity.
Qed.

Lemma effect_endings q c : endings (s_table s) !! q = Some (Some c) -> endings (s_table s') !! q = Some (Some c).
Proof.
  intros Hq. destruct (lr_process_terminated r) eqn:Et.
  - destruct (le_ended _ _ _ _ _ _ He Et) as (code & kind & -> & Hnone & _). rewrite lookup_insert_ne by congruence. exact Hq.
  - destruct (le_kept _ _ _ _ _ _ He Et) as (-> & _). exact Hq.
Qed.

Lemma switch_known : sr_switch x = if negb (pid =? running_pid (s_table s'))
  then Some (running_pid (s_table s'), tp_preemption_count (s_preemptive s') >? tp_preemption_count (s_preemptive s), lr_process_terminated r)
  else None.
Proof. reflexivity. Qed.

Lemma terminated_switch : lr_process_terminated r = true -> sr_switch x = Some (running_pid (s_table s'), false, true).
Proof.
  intros Et. destruct (le_ended _ _ _ _ _ _ He Et) as (code & kind & _ & _ & _ & _ & _ & Hp & Hne).
  cbn. rewrite Hp, Et, (proj2 (Z.eqb_neq _ _)) by congruence. cbn. rewrite Z.gtb_ltb, Z.ltb_irrefl. reflexivity.
Qed.

(** No counter has wrapped around. *)
Lemma preemptions_small : 0 <= tp_context_switch_count (s_preemptive s) <= tp_preemption_count (s_preemptive s) /\
  tp_preemption_count (s_preemptive s) <= n.
Proof. destruct (so_preemptions _ _ _ _ _ Hok) as [Hc ?]. pose proof (countb_bounds cs_preempted (log_switches log)). lia. Qed.

(** What became of the counters of the preemptive scheduler. *)
Lemma kept_counts : lr_process_terminated r = false ->
  let p := s_preemptive s in let p' := s_preemptive s' in
  running_pid (s_table s') = pid /\ tp_preemption_count p' = tp_preemption_count p /\ tp_context_switch_count p' = tp_context_switch_count p \/
  tp_preemption_count p' = tp_preemption_count p + 1 /\
  tp_context_switch_count p' = tp_context_switch_count p + (if running_pid (s_table s') =? pid then 0 else 1).
Proof.
  intros Et. destruct (le_kept _ _ _ _ _ _ He Et) as (_ & _ & _ & [[H1 H2]|[H1 H2]]); [left; rewrite H2; auto | right].
  pose proof preemptions_small. rewrite H1, H2. split; [apply u64_small; words|].
  destruct (_ =? _); cbn; [lia | apply u64_small; words].
Qed.

Lemma effect_fits : fits (endings (s_table s)) (endings (s_table s')) pid cur log x.
Proof.
  destruct session_alive as [Hnz Hnone]. constructor.
  - apply effect_dom.
  - apply effect_endings.
  - split; [eapply endings_known, Hnone | exact Hnz].
  - destruct (so_cur _ _ _ _ _ Hok) as [E|[E0 E]]; [left; exact E | right]. split; [exact E|].
    destruct (le_shows _ _ _ _ _ _ He) as [Hs|[Hs|Hs]].
    + left. exact Hs.
    + unfold preempts in Hs. rewrite (so_start _ _ _ _ _ Hok E0) in Hs. discriminate.
    + right. rewrite terminated_switch by exact Hs. discriminate.
  - intros ev v Hev Hv. cbn in Hev. rewrite (le_event _ _ _ _ _ _ He ev Hev).
    pose proof (so_resume _ _ _ _ _ Hok pid v Hv Hnone) as Hr. unfold resume_pc in Hr. cbn [kernel_of k_table k_cpu] in Hr.
    rewrite Z.eqb_refl in Hr. congruence.
  - intros o Ho. cbn in Ho. destruct (has_software_interrupt_observation (cpu_of s')) eqn:Eq; [|discriminate]. injection Ho as <-.
    assert (Hsome : e <> None).
    { intros E. rewrite (le_quiet _ _ _ _ _ _ He E), (so_quiet _ _ _ _ _ Hok) in Eq. discriminate. }
    split; [exact Hsome|]. intros Hd.
    assert (Hobs : observed_exit (cpu_of s') (exit_code (obs_result (software_interrupt_observation (cpu_of s'))))) by (split; auto).
    destruct (lr_process_terminated r) eqn:Et.
    + destruct (le_ended _ _ _ _ _ _ He Et) as (code & kind & -> & _ & Hcode & _). exists (running_pid (s_table s')), kind.
      split; [apply terminated_switch, Et|]. rewrite lookup_insert_eq. rewrite (Hcode Hsome _ Hobs). reflexivity.
    + destruct (le_kept _ _ _ _ _ _ He Et) as (_ & _ & Hno & _). destruct (Hno Hsome _ Hobs).
  - intros to p t Hs. rewrite switch_known in Hs. destruct (negb _) eqn:Ene; [|discriminate]. injection Hs as <- <- <-.
    apply negb_true_iff, Z.eqb_neq in Ene. split; [congruence|]. split; [apply (le_known _ _ _ _ _ _ He)|].
    destruct (lr_process_terminated r) eqn:Et.
    + split; [|auto]. pose proof (terminated_switch Et) as Hts. rewrite switch_known, (proj2 (Z.eqb_neq _ _)) in Hts by exact Ene.
      injection Hts as -> _. reflexivity.
    + split; [apply andb_false_r|]. intros E0. exfalso. destruct (decide (lm_state m' = RS_Running)) as [Es|Es].
      * destruct (le_next _ _ _ _ _ _ He Es) as [_ Hr]. unfold hasRunningProcess in Hr. rewrite E0 in Hr. discriminate.
      * destruct (le_over _ _ _ _ _ _ He Es). congruence.
Qed.

Lemma clear_table : s_table (clear_observation s') = s_table s' /\ s_preemptive (clear_observation s') = s_preemptive s'.
Proof. unfold clear_observation. destruct (has_software_interrupt_observation _); auto. Qed.

Lemma clear_kernel : kernel_ok (kernel_of s') -> kernel_ok (kernel_of (clear_observation s')).
Proof.
  unfold clear_observation. destruct (has_software_interrupt_observation _); [|auto]. intros [K1 K2 K3 K4 K5]. constructor; assumption.
Qed.

Lemma clear_resume q : resume_pc (kernel_of (clear_observation s')) q = resume_pc (kernel_of s') q.
Proof. unfold clear_observation. destruct (has_software_interrupt_observation _); reflexivity. Qed.

Lemma next_pid_running : next_pid_of pid x = running_pid (s_table s').
Proof. unfold next_pid_of. rewrite switch_known. destruct (negb _) eqn:E; [reflexivity|]. apply negb_false_iff, Z.eqb_eq in E. exact E. Qed.

Lemma count_extend (f : ProcessContextSwitchTraceRecord -> bool) :
  countb f (log_switches (extend pid x log)) = countb f (log_switches log) +
    match sr_switch x with
    | Some (to, p, t) => if f {| cs_lifecycle_step := log_steps log + 1; cs_from_pid := pid; cs_to_pid := to; cs_preempted := p;
                                 cs_caused_by_termination := t |} then 1 else 0
    | None => 0
    end.
Proof.
  unfold extend. cbn [log_switches]. destruct (sr_switch x) as [[[to p] t]|]; [apply countb_snoc | rewrite app_nil_r; lia].
Qed.

Lemma extend_preemptions :
  countb cs_preempted (log_switches (extend pid x log)) = tp_context_switch_count (s_preemptive s') /\
  tp_context_switch_count (s_preemptive s') <= tp_preemption_count (s_preemptive s') <= n + 1.
Proof.
  destruct (so_preemptions _ _ _ _ _ Hok) as [Hc Hb]. rewrite count_extend, Hc.
  destruct (lr_process_terminated r) eqn:Et.
  - rewrite terminated_switch by exact Et. cbn [cs_preempted].
    destruct (le_ended _ _ _ _ _ _ He Et) as (code & kind & _ & _ & _ & _ & _ & -> & _). lia.
  - rewrite switch_known. destruct (kept_counts Et) as [(E1 & E2 & E3)|(E2 & E3)].
    + rewrite E1, Z.eqb_refl, E2, E3. cbn. lia.
    + rewrite E2, E3, (Z.eqb_sym (running_pid (s_table s'))). destruct (pid =? running_pid (s_table s')); cbn [negb cs_preempted].
      * lia.
      * rewrite Z.gtb_ltb, (proj2 (Z.ltb_lt _ _)) by lia. lia.
Qed.

Lemma extend_terminations :
  countb cs_caused_by_termination (log_switches (extend pid x log)) = lm_termination_count m' /\
  lm_termination_count m' = ended_count any ids (endings (s_table s')) /\ lm_termination_count m' <= n + 1.
Proof.
  destruct (so_terminations _ _ _ _ _ Hok) as (Hc & Hcount & Hb). rewrite count_extend, Hc.
  destruct (lr_process_terminated r) eqn:Et.
  - rewrite terminated_switch by exact Et. cbn [cs_caused_by_termination].
    destruct (le_ended _ _ _ _ _ _ He Et) as (code & kind & -> & Hnone & _ & -> & _).
    rewrite ended_count_insert; [|exact Hids | apply (so_ids _ _ _ _ _ Hok), (endings_known _ _ _ Hnone) | exact Hnone].
    pose proof (countb_bounds (ended_with any (endings (s_table s))) ids). unfold ended_count in *.
    rewrite u64_small by words. rewrite Hcount in *. split; [reflexivity|]. split; [reflexivity | lia].
  - destruct (le_kept _ _ _ _ _ _ He Et) as (-> & -> & _ & _). rewrite switch_known, Et.
    destruct (negb _); cbn [cs_caused_by_termination]; rewrite Z.add_0_r; split; [reflexivity | | reflexivity | ]; (split; [exact Hcount | lia]).
Qed.

Lemma extend_faults : lm_fault_count m' = ended_count faulted ids (endings (s_table s')).
Proof.
  pose proof (so_faults _ _ _ _ _ Hok) as Hf. destruct (so_terminations _ _ _ _ _ Hok) as (_ & Hcount & Hb).
  destruct (lr_process_terminated r) eqn:Et.
  - destruct (le_ended _ _ _ _ _ _ He Et) as (code & kind & -> & Hnone & _ & _ & -> & _).
    rewrite ended_count_insert; [|exact Hids | apply (so_ids _ _ _ _ _ Hok), (endings_known _ _ _ Hnone) | exact Hnone].
    assert (Hle : ended_count faulted ids (endings (s_table s)) <= ended_count any ids (endings (s_table s))).
    { apply countb_le. intros q. unfold ended_with. destruct (_ !! q) as [[[c k]|]|]; auto. }
    pose proof (countb_bounds (ended_with faulted (endings (s_table s))) ids). unfold ended_count in *.
    rewrite Hf. case_bool_decide; [apply u64_small; words | lia].
  - destruct (le_kept _ _ _ _ _ _ He Et) as (-> & -> & _ & _). exact Hf.
Qed.

Lemma session_extend : session_ok (n + 1) m' (clear_observation s') (extend pid x log) (running_pid (s_table s')).
Proof.
  destruct clear_table as [Ht Hp]. destruct session_steps as [Hls H0]. constructor; rewrite ?Ht, ?Hp.
  - rewrite <- next_pid_running. eapply log_extend; [exact (so_log _ _ _ _ _ Hok) | exact effect_fits].
  - left. reflexivity.
  - intros E. lia.
  - apply He.
  - intros q. rewrite effect_dom. apply (so_ids _ _ _ _ _ Hok).
  - unfold clear_observation. destruct (has_software_interrupt_observation (cpu_of s')) eqn:E; [reflexivity | exact E].
  - intros q v Hq Hn'. rewrite clear_resume.
    assert (Hq0 : q <> 0).
    { apply endings_known, endings_dom in Hn' as [b Hb]. apply (running_nonzero _ (le_table _ _ _ _ _ _ He) _ _ Hb). }
    rewrite (le_resume _ _ _ _ _ _ He q Hq0 Hn').
    assert (Hn0 : endings (s_table s) !! q = Some None).
    { pose proof (endings_known _ _ _ Hn') as Hd. rewrite effect_dom in Hd. apply elem_of_dom in Hd as [[c|] Hc]; [|exact Hc].
      apply effect_endings in Hc. congruence. }
    unfold extend in Hq. cbn [log_execution sr_event step_record] in Hq. destruct e as [ev|].
    + rewrite pcs_after_snoc in Hq. cbn [et_pid et_event] in Hq. destruct (decide (q = pid)) as [->|Hne].
      * rewrite lookup_insert_eq in Hq. rewrite Z.eqb_refl. congruence.
      * rewrite lookup_insert_ne in Hq by congruence. rewrite (proj2 (Z.eqb_neq _ _)) by exact Hne.
        apply (so_resume _ _ _ _ _ Hok); assumption.
    + rewrite app_nil_r in Hq. apply (so_resume _ _ _ _ _ Hok); assumption.
  - intros Es. destruct (le_next _ _ _ _ _ _ He Es) as [Hk Hr]. split; [apply clear_kernel, Hk | exact Hr].
  - intros Es. apply (le_over _ _ _ _ _ _ He Es).
  - apply extend_preemptions.
  - apply extend_terminations.
  - apply extend_faults.
Qed.

End extending.

(** ** The loop *)

Lemma acknowledge_all_idle fuel vector source c :
  InterruptController_hasPending_for c vector source = false -> acknowledge_all fuel vector source c = (Ret tt, c).
Proof. intros E. destruct fuel; [reflexivity|]. cbn [acknowledge_all]. rewrite bind_run. unfold get. cbv beta iota. rewrite E. reflexivity. Qed.

(** Only the interrupt controller changes. *)
Record discarded s s1 : Prop := {
  di_table : s_table s1 = s_table s /\ s_scheduler s1 = s_scheduler s /\ s_preemptive s1 = s_preemptive s;
  di_cpu : cpu_of s1 = cpu_of s;
  di_pending : timer_pending s = false -> timer_pending s1 = false;
}.

Lemma discard_keeps u s s1 : discardCompletionTimerRequest s = (Ret u, s1) -> discarded s s1.
Proof.
  intros E. unfold discardCompletionTimerRequest, get in E. rewrite bind_run in E. cbv beta iota zeta in E.
  unfold on_machine, on_world, on_controller, zoom in E.
  destruct (acknowledge_all _ _ _ _) as [[v|e] c] eqn:Ea; [|discriminate E]. injection E as <- <-.
  constructor; cbn; [auto | reflexivity |]. intros Hp. unfold timer_pending in *. cbn [s_preemptive s_machine world].
  rewrite acknowledge_all_idle in Ea by exact Hp. injection Ea as <- <-. unfold controller_at, timer_at in *.
  cbn [set_controllers controllers timers]. rewrite lookup_total_insert_eq. exact Hp.
Qed.

(** The CPU is told to halt. *)
Definition halt_cpu s : System H :=
  mkSystem (set_mstate (setHalted true) (s_machine s)) (s_table s) (s_scheduler s) (s_preemptive s).

Lemma prepared_ok n m s s1 log cur : session_ok n m s log cur -> discarded s s1 -> session_ok n m (halt_cpu s1) log cur.
Proof.
  intros [S1 S2 S3 S4 S5 S6 S7 S8 S9 S10 S11 S12] [(Ht & Hs & Hp) Hc Hpend]. constructor; cbn [halt_cpu s_table s_preemptive]; rewrite ?Ht, ?Hp; try assumption.
  - intros E. apply Hpend, S3, E.
  - cbn. rewrite Hc. exact S6.
  - intros q v Hq Hn. rewrite <- (S7 q v Hq Hn). unfold resume_pc. cbn. rewrite Ht, Hc. reflexivity.
  - intros Es. destruct (S8 Es) as [[K1 K2 K3 K4 K5] Hr]. split; [|exact Hr].
    constructor; cbn in *; rewrite ?Ht, ?Hc; assumption.
Qed.

Lemma runner_step_inv n m s log cur st log' m' s' :
  session_ok n m s log cur -> lm_state m = RS_Running -> n < UINT64_MAX ->
  runner_step log (m, s) = (Ret (st, log'), (m', s')) ->
  st = lm_state m' /\ session_ok (n + 1) m' s' log' (running_pid (s_table s')).
Proof.
  intros Hok Hst Hn E. destruct (so_running _ _ _ _ _ Hok Hst) as [Hk Hr]. pose proof (session_steps _ _ _ _ _ Hok) as [Hls H0].
  unfold runner_step, get in E. rewrite bind_run in E. cbv beta iota zeta in E.
  apply M_bind_ret_inv in E as (u & ms & E1 & E). apply M_throw_if_ret_inv in E1 as [_ ->].
  apply M_bind_ret_inv in E as (pid & ms & E1 & E). apply M_lift_ret_inv in E1 as [E1 ->].
  unfold runningProcessId in E1. rewrite Hr in E1. injection E1 as <-.
  apply M_bind_ret_inv in E as (ended & ms & E1 & E). apply M_lift_ret_inv in E1 as [_ ->].
  apply M_bind_ret_inv in E as (u1 & ms & E1 & E).
  assert (Hprep : exists s0, ms = (m, s0) /\ session_ok n m s0 log cur /\ running_pid (s_table s0) = running_pid (s_table s) /\
    trace_logger (cpu_of s0) = trace_logger (cpu_of s) /\ s_preemptive s0 = s_preemptive s).
  { destruct ended.
    - apply M_bind_ret_inv in E1 as (u2 & ms2 & E2 & E1). unfold on_system, zoom in E2. cbn [snd] in E2.
      destruct (discardCompletionTimerRequest s) as [[v|x] s1] eqn:Ed; [|discriminate E2]. injection E2 as <- <-.
      pose proof (discard_keeps _ _ _ Ed) as Hd. pose proof Hd as [(Ht & _ & Hp) Hc _].
      exists (halt_cpu s1). split; [injection E1 as _ <-; reflexivity|]. split; [eapply prepared_ok; eassumption|].
      cbn. rewrite Ht, Hc. auto.
    - injection E1 as _ <-. exists s. auto. }
  destruct Hprep as (s0 & -> & Hok0 & Hpid & Htr & Hpr).
  destruct (so_running _ _ _ _ _ Hok0 Hst) as [Hk0 _].
  apply M_bind_ret_inv in E as (r & [m1 s1] & E2 & E).
  destruct (lifecycle_step_effect _ _ _ _ _ _ Hk0 Hst E2) as (e & He).
  apply M_bind_ret_inv in E as (log1 & ms1 & E3 & E). rewrite <- Hpid, <- Htr, <- Hpr in E3.
  rewrite (record_step_run m1 s0 s1 r e log) in E3 by (apply He || (rewrite Hls; lia)). injection E3 as <- <-.
  injection E as <- <- <- <-. split; [apply He|].
  assert (Ht : s_table (clear_observation s1) = s_table s1) by (unfold clear_observation; destruct (has_software_interrupt_observation _); reflexivity).
  rewrite Ht. eapply session_extend; eassumption.
Qed.

Lemma runner_loop_inv k : forall n m s log cur st log' m' s',
  session_ok n m s log cur -> n + Z.of_nat k <= UINT64_MAX ->
  runner_loop k (lm_state m) log (m, s) = (Ret (st, log'), (m', s')) ->
  exists n' cur', n <= n' <= n + Z.of_nat k /\ session_ok n' m' s' log' cur' /\ st = lm_state m'.
Proof.
  induction k as [|k IH]; intros n m s log cur st log' m' s' Hok Hn E; cbn [runner_loop] in E.
  - injection E as <- <- <- <-. exists n, cur. split; [lia | auto].
  - case_bool_decide as Hst; cbn [negb] in E.
    + apply M_bind_ret_inv in E as ([st1 log1] & [m1 s1] & E1 & E).
      destruct (runner_step_inv _ _ _ _ _ _ _ _ _ Hok Hst ltac:(lia) E1) as [-> Hok1].
      destruct (IH _ _ _ _ _ _ _ _ _ Hok1 ltac:(lia) E) as (n' & cur' & Hn' & Hok' & Hst'). exists n', cur'. split; [lia | auto].
    + injection E as <- <- <- <-. exists n, cur. split; [lia | auto].
Qed.

(** ** The start *)

(** No process has run: the table is as [createProcess] left it and the timer of
    the scheduler is new. *)
Record initial s : Prop := {
  in_kernel : kernel_ok (kernel_of s);
  in_running : running_pid (s_table s) = 0;
  in_alive : forall pid x, endings (s_table s) !! pid = Some x -> x = None;
  in_pending : timer_pending s = false;
  in_quiet : has_software_interrupt_observation (cpu_of s) = false;
  in_counts : tp_preemption_count (s_preemptive s) = 0 /\ tp_context_switch_count (s_preemptive s) = 0;
}.

Lemma ended_count_none f E : (forall pid x, E !! pid = Some x -> x = None) -> ended_count f ids E = 0.
Proof.
  intros HE. unfold ended_count. rewrite (countb_ext _ (fun _ => false)).
  - clear. induction ids as [|x l IH]; [reflexivity|]. rewrite countb_cons. exact IH.
  - intros pid _. unfold ended_with. destruct (E !! pid) as [x|] eqn:Ex; [|reflexivity]. rewrite (HE _ _ Ex). reflexivity.
Qed.

Lemma fresh_session m s :
  table_wf (s_table s) -> (forall pid, pid ∈ ids <-> pid ∈ dom (endings (s_table s))) ->
  (forall pid x, endings (s_table s) !! pid = Some x -> x = None) -> timer_pending s = false ->
  has_software_interrupt_observation (cpu_of s) = false ->
  tp_preemption_count (s_preemptive s) = 0 -> tp_context_switch_count (s_preemptive s) = 0 ->
  lm_termination_count m = 0 -> lm_fault_count m = 0 ->
  (lm_state m = RS_Running -> kernel_ok (kernel_of s) /\ hasRunningProcess (s_table s) = true) ->
  (lm_state m <> RS_Running -> running_pid (s_table s) = 0) ->
  session_ok 0 m s empty_log 0.
Proof.
  intros Ht Hi He Hp Hq Hc1 Hc2 Hm1 Hm2 Hr Ho. constructor; try assumption.
  - apply empty_log_ok.
  - right. auto.
  - intros _. exact Hp.
  - intros pid v Hv. cbn in Hv. rewrite lookup_empty in Hv. discriminate.
  - rewrite Hc1, Hc2. split; [reflexivity | lia].
  - rewrite Hm1, ended_count_none by exact He. split; [reflexivity | lia].
  - rewrite Hm2, ended_count_none by exact He. reflexivity.
Qed.

(** What attaching leaves alone. *)
Record attached_from s s1 : Prop := {
  at_table : s_table s1 = s_table s /\ world (s_machine s1) = world (s_machine s);
  at_kernel : kernel_ok (kernel_of s) -> kernel_ok (kernel_of s1);
  at_quiet : has_software_interrupt_observation (cpu_of s1) = has_software_interrupt_observation (cpu_of s);
  at_preemptive : let p := s_preemptive s in let p1 := s_preemptive s1 in
    tp_controller p1 = tp_controller p /\ tp_timer p1 = tp_timer p /\
    tp_preemption_count p1 = tp_preemption_count p /\ tp_context_switch_count p1 = tp_context_switch_count p;
}.

Lemma attach_keeps this_cpu s u s1 : attach this_cpu s = (Ret u, s1) -> attached_from s s1.
Proof.
  intros E. unfold attach in E. apply M_bind_ret_inv in E as (p & s0 & E1 & E). injection E1 as <- <-.
  apply M_bind_ret_inv in E as (u1 & s0 & E1 & E). apply M_throw_if_ret_inv in E1 as [_ ->].
  destruct (bool_decide _); [injection E as <- <-; constructor; auto|].
  apply M_bind_ret_inv in E as (c & s0 & E1 & E). injection E1 as <- <-.
  apply M_bind_ret_inv in E as (u2 & s0 & E1 & E). apply M_throw_if_ret_inv in E1 as [_ ->].
  cbn in E. injection E as _ <-. constructor; cbn; auto. intros [K1 K2 K3 K4 K5]. constructor; assumption.
Qed.

Lemma start_inv this_cpu normal fault s st m1 s1 :
  initial s -> (forall pid, pid ∈ ids <-> pid ∈ dom (endings (s_table s))) ->
  lifecycle_start this_cpu (new_ProcessLifecycleManager normal fault, s) = (Ret st, (m1, s1)) ->
  st = lm_state m1 /\ session_ok 0 m1 s1 empty_log 0 /\ processIds (s_table s1) = processIds (s_table s).
Proof.
  intros [Hk H0 He Hp Hq [Hc1 Hc2]] Hi E. unfold lifecycle_start, get in E. rewrite bind_run in E. cbv beta iota in E.
  apply M_bind_ret_inv in E as (u & ms & E1 & E). apply M_throw_if_ret_inv in E1 as [_ ->].
  destruct (hasRunnableProcess (s_table s)) eqn:Hrun; cbn [negb] in E.
  - apply M_bind_ret_inv in E as (sel & [m2 s2] & E1 & E). unfold on_system, zoom in E1. cbn [snd] in E1.
    destruct (preemptive_start this_cpu s) as [[x|x] s3] eqn:Ep; [|discriminate E1]. injection E1 as <- <- <-.
    apply M_bind_ret_inv in E as (u1 & ms & E1 & E). injection E1 as <- <-. injection E as <- <- <-.
    unfold preemptive_start in Ep. apply M_bind_ret_inv in Ep as (p & s0 & E1 & Ep). injection E1 as <- <-.
    apply M_bind_ret_inv in Ep as (u2 & s0 & E1 & Ep). apply M_throw_if_ret_inv in E1 as [_ ->].
    apply M_bind_ret_inv in Ep as (u3 & s0 & E1 & Ep). destruct (attach_keeps _ _ _ _ E1) as [[At Aw] Ak Aq (A1 & A2 & A3 & A4)].
    apply M_bind_ret_inv in Ep as (sel & s4 & E2 & Ep). unfold dispatch_next, zoom in E2.
    destruct (ProcessDispatcher_dispatchNext (kernel_of s0)) as [[sel'|y] k'] eqn:Ed; [|discriminate E2]. injection E2 as <- <-.
    apply M_bind_ret_inv in Ep as (u4 & s5 & E2 & Ep). injection E2 as _ <-. injection Ep as <- <-.
    pose proof (dispatch_post _ _ _ (Ak Hk) Ed) as Hd. pose proof Hd as [Rk [Rr _] Re _ (_ & _ & _ & Rq & _)]. cbn [kernel_of k_table k_cpu] in *.
    split; [reflexivity|].
    assert (Hend : endings (k_table k') = endings (s_table s)) by (rewrite Re, At; reflexivity).
    split; [|cbn; unfold processIds; do 2 f_equal; apply (f_equal dom) in Hend; unfold endings in Hend; rewrite !dom_fmap_L in Hend; exact Hend].
    apply fresh_session; cbn; try rewrite Hend; try assumption; try reflexivity.
    + apply Rk.
    + unfold timer_pending in *. cbn. rewrite A1, A2, Aw. exact Hp.
    + congruence.
    + rewrite A3. exact Hc1.
    + rewrite A4. exact Hc2.
    + intros _. split; [destruct Rk as [K1 K2 K3 K4 K5]; constructor; assumption | apply (redispatched_running _ _ _ Hd)].
    + intros C. contradiction.
  - cbn in E. injection E as <- <- <-. split; [reflexivity|]. split; [|reflexivity].
    assert (Hnone : runnable (s_table s) = []).
    { destruct (runnable (s_table s)) eqn:Er; [reflexivity|]. exfalso.
      assert (Ht : hasRunnableProcess (s_table s) = true) by (apply (hasRunnable_spec _ (kok_table _ Hk)); cbn; rewrite Er; discriminate).
      congruence. }
    destruct (classify_spec _ (kok_table _ Hk) H0 Hnone) as [Hcl _]. cbn in Hcl.
    apply fresh_session; cbn; try assumption; try reflexivity.
    + apply Hk.
    + intros C. contradiction.
    + intros _. exact H0.
Qed.

End session.

(** ** The summaries *)

Section summaries.
Context {LD : LongDouble} {H : Type} {SIH : SoftwareInterruptHandler H} {QH : QuietHandler H}.
Implicit Types (s : System H).
Abbreviation any := (fun _ : ProcessTerminationKind => true).
Abbreviation faulted := (fun k : ProcessTerminationKind => bool_decide (k = CpuFault)).

(** A summary reports the block of its process. *)
Record summarizes (t : ProcessTable) (pid : ProcessId) (r : ProcessRunSummary) : Prop := {
  su_pid : rs_pid r = pid;
  su_block : exists p, processes t !! pid = Some p /\ rs_state r = pcb_state p /\ rs_has_exit_code r = pcb_has_exit_code p /\
    (pcb_has_exit_code p = true -> rs_exit_code r = pcb_exit_code p /\ rs_termination_kind r = pcb_termination_kind p);
}.

Lemma makeSummary_inv pid p c running r :
  makeSummary pid p c running = Ret r ->
  rs_pid r = pid /\ rs_state r = pcb_state p /\ rs_has_exit_code r = pcb_has_exit_code p /\
  (pcb_has_exit_code p = true -> rs_exit_code r = pcb_exit_code p /\ rs_termination_kind r = pcb_termination_kind p).
Proof.
  intros E. unfold makeSummary in E. apply bind_ret_inv in E as ([[code kind] message] & E1 & E).
  apply bind_ret_inv in E as ([context mem] & _ & E). apply bind_ret_inv in E as ([[[name code_end] base] size] & _ & E).
  injection E as <-. cbn. split; [reflexivity|]. split; [reflexivity|]. split; [reflexivity|]. intros Hx. rewrite Hx in E1.
  unfold ProcessControlBlock_exitCode, ProcessControlBlock_terminationKind, ProcessControlBlock_terminationMessage in E1.
  rewrite Hx in E1. injection E1 as <- <- <-. auto.
Qed.

Lemma summarize_inv s l : summarize s = Ret l -> Forall2 (summarizes (s_table s)) (processIds (s_table s)) l.
Proof.
  unfold summarize. generalize (processIds (s_table s)) as ids. intros ids. revert l.
  induction ids as [|pid ids IH]; intros l E; cbn in E; [injection E as <-; constructor|].
  apply bind_ret_inv in E as (r & Er & E). apply bind_ret_inv in E as (k & Ek & E). injection E as <-.
  constructor; [|apply IH, Ek]. apply bind_ret_inv in Er as (p & Hp & Er). apply requireProcess_inv in Hp.
  apply makeSummary_inv in Er as (H1 & H2). constructor; [exact H1 | eauto].
Qed.

Lemma summaries_pids t l : Forall2 (summarizes t) (processIds t) l -> rs_pid <$> l = processIds t.
Proof. intros Hl. induction Hl as [|pid r ids l [Hr _] _ IH]; [reflexivity|]. cbn. rewrite Hr, IH. reflexivity. Qed.

Lemma summary_ended t pid r : table_wf t -> summarizes t pid r ->
  ProcessRunSummary_terminated r = ended_with any (endings t) pid /\
  ProcessRunSummary_faulted r = ended_with faulted (endings t) pid.
Proof.
  intros Ht [_ (p & Hp & Hs & Hx & Hk)]. pose proof (eok_exit _ _ _ (entry_lookup _ Ht _ _ Hp)) as He.
  unfold ProcessRunSummary_faulted, ProcessRunSummary_terminated, ended_with. rewrite endings_lookup, Hp, Hs, Hx, He.
  cbn. unfold ending. case_bool_decide as E; [|split; reflexivity]. split; [reflexivity|]. cbn [andb].
  rewrite He in Hk. destruct (Hk eq_refl) as [_ ->]. reflexivity.
Qed.

Lemma summaries_count t l (f : ProcessRunSummary -> bool) (g : ProcessTerminationKind -> bool) :
  (forall pid r, summarizes t pid r -> f r = ended_with g (endings t) pid) ->
  Forall2 (summarizes t) (processIds t) l -> countb f l = ended_count g (processIds t) (endings t).
Proof.
  intros Hf Hl. unfold ended_count. induction Hl as [|pid r ids l Hr _ IH]; [reflexivity|].
  rewrite !countb_cons, IH, (Hf _ _ Hr). reflexivity.
Qed.

Lemma countb_permutation {A} (f : A -> bool) l k : l ≡ₚ k -> countb f l = countb f k.
Proof. intros Hp. unfold countb. rewrite Hp. reflexivity. Qed.

Lemma processIds_dom t : (list_to_set (processIds t) : gset ProcessId) = dom (endings t).
Proof. apply set_eq. intros pid. rewrite elem_of_list_to_set, processIds_spec, endings_dom. reflexivity. Qed.

Lemma processIds_length t : length (processIds t) = ProcessTable_size t.
Proof. unfold processIds, ProcessTable_size. rewrite merge_sort_Permutation. rewrite <- size_dom. reflexivity. Qed.

(** ** A consistent session gives a consistent result *)

Context (ids : list ProcessId) (Hids : NoDup ids).
Context (n : Z) (m : ProcessLifecycleManager) (s : System H) (log : RunLog) (cur : ProcessId) (l : list ProcessRunSummary) (maxSteps : Z).
Context (Hok : session_ok ids n m s log cur) (Hn : n <= UINT64_MAX) (Hl : summarize s = Ret l).

Definition result_of : MultiProcessRunResult :=
  {| runtime_state := lm_state m;
     step_limit_reached := bool_decide (lm_state m = RS_Running) && (log_steps log >=? maxSteps);
     lifecycle_steps := log_steps log;
     process_count := Z.of_nat (ProcessTable_size (s_table s));
     termination_count := lm_termination_count m;
     fault_count := lm_fault_count m;
     preemption_count := tp_preemption_count (s_preemptive s);
     context_switch_count := tp_context_switch_count (s_preemptive s);
     execution_trace := log_execution log;
     software_interrupts := log_interrupts log;
     context_switches := log_switches log;
     run_processes := l |}.

Lemma result_pids : run_pids result_of = processIds (s_table s).
Proof. apply summaries_pids, summarize_inv, Hl. Qed.

Lemma result_ids : (list_to_set (run_pids result_of) : gset ProcessId) = dom (endings (s_table s)).
Proof. rewrite result_pids. apply processIds_dom. Qed.

Lemma result_steps : lifecycle_steps result_of = n /\ 0 <= n.
Proof. exact (lok_steps _ _ _ _ (so_log _ _ _ _ _ _ Hok)). Qed.

Lemma result_permutation : ids ≡ₚ processIds (s_table s).
Proof.
  apply NoDup_Permutation; [exact Hids | apply processIds_NoDup |]. intros pid.
  rewrite (so_ids _ _ _ _ _ _ Hok pid), endings_dom, processIds_spec. reflexivity.
Qed.

Lemma result_terminated : countb ProcessRunSummary_terminated l = lm_termination_count m /\
  countb ProcessRunSummary_faulted l = lm_fault_count m.
Proof.
  pose proof (so_table _ _ _ _ _ _ Hok) as Ht. pose proof (summarize_inv _ _ Hl) as Hs.
  rewrite (summaries_count _ _ ProcessRunSummary_terminated any) by (exact Hs || (intros pid r Hr; apply (summary_ended _ _ _ Ht Hr))).
  rewrite (summaries_count _ _ ProcessRunSummary_faulted faulted) by (exact Hs || (intros pid r Hr; apply (summary_ended _ _ _ Ht Hr))).
  destruct (so_terminations _ _ _ _ _ _ Hok) as (_ & -> & _). rewrite (so_faults _ _ _ _ _ _ Hok).
  unfold ended_count. rewrite !(countb_permutation _ _ _ result_permutation). auto.
Qed.

Lemma result_process pid code kind :
  endings (s_table s) !! pid = Some (Some (code, kind)) ->
  exists p, MultiProcessRunResult_process result_of pid = Ret p /\ rs_has_exit_code p = true /\ rs_exit_code p = code.
Proof.
  intros E. assert (Hin : pid ∈ run_pids result_of).
  { rewrite result_pids. apply processIds_spec, endings_dom. eapply endings_known, E. }
  destruct (process_known result_of pid Hin) as (p & Hp & Hpid). exists p. split; [exact Hp|].
  unfold MultiProcessRunResult_process in Hp. destruct (list_find _ _) as [[i q]|] eqn:Ef; [|discriminate]. injection Hp as ->.
  apply list_find_Some in Ef as (Hq & _). cbn [run_processes result_of] in Hq.
  destruct (Forall2_lookup_r _ _ _ _ _ (summarize_inv _ _ Hl) Hq) as (pid' & _ & [Hr (b & Hb & _ & Hx & Hk)]).
  assert (Hpp : pid' = pid) by congruence. rewrite Hpp in Hb. clear Hpp.
  pose proof (eok_exit _ _ _ (entry_lookup _ (so_table _ _ _ _ _ _ Hok) _ _ Hb)) as He.
  rewrite endings_lookup, Hb in E. cbn in E. unfold ending in E. case_bool_decide as Ht; [|discriminate]. injection E as <- <-.
  rewrite Hx, He. split; [reflexivity|]. apply Hk. exact He.
Qed.

Lemma result_interrupts : Forall (interrupt_ok result_of (dom (endings (s_table s)))) (log_interrupts log).
Proof.
  destruct (lok_interrupts _ _ _ _ (so_log _ _ _ _ _ _ Hok)) as [_ Hi]. eapply Forall_impl; [exact Hi|].
  intros i [H1 H2 (e & He & He2 & He3) H4]. constructor; try assumption.
  - rewrite (proj1 result_steps). exact H1.
  - apply existsb_exists. exists e. split; [apply list_elem_of_In, He|]. rewrite He2, He3, !Z.eqb_refl. reflexivity.
  - intros Ht. destruct (H4 Ht) as [(x & Hx & Hx2 & Hx3 & Hx4) (kind & Hk)]. split.
    + apply existsb_exists. exists x. split; [apply list_elem_of_In, Hx|]. rewrite Hx2, Hx3, Hx4, !Z.eqb_refl. reflexivity.
    + apply (result_process _ _ _ Hk).
Qed.

Lemma session_result : consistent result_of.
Proof.
  pose proof Hok as [S1 S2 S3 S4 S5 S6 S7 S8 S9 [S10 S10'] (S11 & S11' & S11'') S12]. destruct result_steps as [Hs H0].
  destruct result_terminated as [Ht Hf]. pose proof (countb_bounds ProcessRunSummary_terminated l) as B1.
  pose proof (countb_bounds cs_preempted (log_switches log)) as B2.
  assert (B3 : countb ProcessRunSummary_faulted l <= countb ProcessRunSummary_terminated l).
  { apply countb_le. intros r Hr. apply andb_true_iff in Hr. apply Hr. }
  pose proof (countb_bounds ProcessRunSummary_faulted l) as B4.
  assert (Hlen : length l = ProcessTable_size (s_table s)).
  { rewrite <- processIds_length, <- (Forall2_length _ _ _ (summarize_inv _ _ Hl)). reflexivity. }
  constructor; rewrite ?result_ids, ?Hs.
  - cbn. rewrite Hlen. reflexivity.
  - rewrite result_pids. split; [apply processIds_NoDup|]. intros E. apply processIds_spec in E as [p Hp].
    apply (running_nonzero _ S4) in Hp. contradiction.
  - cbn. rewrite Ht, u64_small by words. reflexivity.
  - cbn. rewrite Hf, u64_small by words. reflexivity.
  - cbn. rewrite <- Ht, <- Hf, <- Hlen. lia.
  - cbn. lia.
  - cbn. intros E. apply andb_true_iff in E as [E _]. apply bool_decide_eq_true in E. exact E.
  - apply (lok_execution _ _ _ _ S1).
  - split; [apply (lok_interrupts _ _ _ _ S1) | apply result_interrupts].
  - apply (lok_switches _ _ _ _ S1).
  - cbn. rewrite S10, u64_small by words. reflexivity.
  - cbn. rewrite S11, u64_small by words. reflexivity.
  - exists cur. split; [apply (lok_schedule _ _ _ _ S1)|]. cbn [runtime_state result_of]. split.
    + intros Er Hne. destruct S2 as [->|[E0 _]]; [|contradiction]. destruct (S8 Er) as [_ Hr].
      unfold hasRunningProcess in Hr. apply negb_true_iff, Z.eqb_neq in Hr. exact Hr.
    + intros Er. destruct S2 as [->|[_ ->]]; [|reflexivity]. apply S9. rewrite Er. discriminate.
Qed.

End summaries.
