(* ===== verification/RunnerVerified.v ===== *)
(** * What a run guarantees

    From the bytes of the executables to the result: [runFiles] builds a fresh
    table, CPU and scheduler, and every result it returns passes the invariant
    verifier.  It does not always return one: a system call at the very end of the
    code faults with the Kernel frame still active, and the run is abandoned. *)

From S2P Require Import Prelude Words ALU Memory ISA Binary Interrupts Devices CPUState Trace CPU CPUExec CPUStep CPUFrames CPUInv CPURun CPUShape Image Process ProcTable Scheduler Dispatcher Preemption Lifecycle Assembler Runner Verifier VerifierLaws RunnerLog RunnerLaws.
Open Scope Z_scope.

(** ** Loading *)

(** Processes have been created and none has run. *)
Record fresh_table (t : ProcessTable) : Prop := {
  ft_wf : table_wf t;
  ft_images : map_Forall (fun _ => image_process) (processes t);
  ft_running : running_pid t = 0;
  ft_ready : map_Forall (fun _ p => pcb_state p = Ready) (processes t);
}.

Lemma new_fresh : fresh_table new_ProcessTable.
Proof. constructor; [apply new_ProcessTable_wf | apply map_Forall_empty | reflexivity | apply map_Forall_empty]. Qed.

(** An image that the loader makes. *)
Definition loaded_image (image : ProcessImage) : Prop :=
  exists p name, program_ok p /\ loadable p name /\ image = image_of p name.

Lemma create_fresh image pid t t' :
  fresh_table t -> loaded_image image -> createProcess_image image t = (Ret pid, t') -> fresh_table t'.
Proof.
  intros [Ht Hi Hr Hs] (p & name & Hok & Hl & ->) E.
  pose proof (createProcess_image_moves (image_of p name) t Ht) as Hm. rewrite E in Hm. pose proof (move_wf _ Ht _ Hm) as Hwf. clear Hm.
  unfold createProcess_image, get, lift in E. rewrite bind_run in E.
  apply M_bind_ret_inv in E as (n & t1 & [= Hn <-] & E). apply M_bind_ret_inv in E as (ctx & t1 & [= Hc <-] & E).
  apply M_bind_ret_inv in E as (a & t1 & [= Ha <-] & E). apply M_bind_ret_inv in E as (blk & t1 & [= Hb <-] & E).
  pose proof (image_block n p name ctx a blk Hok Hl Hc Ha Hb) as Hblk.
  assert (Hready : pcb_state blk = Ready) by (apply unit_bind_inv in Hb as [_ Hb]; apply unit_bind_inv in Hb as [_ [= <-]]; reflexivity).
  apply unit_bind_inv in Hn as [Hn0 [= <-]]. apply throw_if_ret_inv in Hn0. facts.
  rewrite emplaceProcess_run in E by assumption. injection E as _ <-. constructor.
  - exact Hwf.
  - rewrite commit_processes. apply map_Forall_insert_2; assumption.
  - unfold commitAllocatedProcessId. destruct (_ =? _); exact Hr.
  - rewrite commit_processes. apply map_Forall_insert_2; assumption.
Qed.

Lemma create_processes_fresh images : forall t u t',
  fresh_table t -> Forall loaded_image images -> create_processes images t = (Ret u, t') -> fresh_table t'.
Proof.
  induction images as [|image images IH]; intros t u t' Ht Hi E; cbn [create_processes] in E.
  - injection E as _ <-. exact Ht.
  - inversion Hi as [|? ? Himg Hrest]; subst. apply M_bind_ret_inv in E as (u1 & t1 & E1 & E). apply M_lift_ret_inv in E1 as [_ ->].
    apply M_bind_ret_inv in E as (pid & t1 & E1 & E). eapply IH; [|exact Hrest | exact E]. eapply create_fresh; eassumption.
Qed.

Section files.
Context (read_file : string -> outcome (list Z)).
Context (Hread : forall path bytes, read_file path = Ret bytes -> byte_list bytes).

Lemma load_images_loaded paths : forall images, load_images read_file paths = Ret images -> Forall loaded_image images.
Proof.
  induction paths as [|path paths IH]; intros images E; cbn [load_images] in E; [injection E as <-; constructor|].
  apply unit_bind_inv in E as [_ E]. apply bind_ret_inv in E as (bytes & Hb & E). apply bind_ret_inv in E as (image & Hi & E).
  apply bind_ret_inv in E as (rest & Hr & [= <-]). constructor; [|apply IH, Hr].
  unfold ProcessImageLoader_loadFromBytes in Hi. apply bind_ret_inv in Hi as (p & Hp & Hi).
  apply readFromBytes_inv in Hp as [Hok _]; [|apply (Hread _ _ Hb)]. apply loadProgram_inv in Hi as [Hl ->]; [|exact Hok].
  exists p, path. auto.
Qed.

End files.

(** ** Sessions *)

Section runs.
Context {LD : LongDouble} {H : Type} {SIH : SoftwareInterruptHandler H} {QH : QuietHandler H}.

(** Parts of a result that are typed and bounded. *)
Record verified (maxSteps : Z) (r : MultiProcessRunResult) : Prop := {
  ve_steps : lifecycle_steps r <= maxSteps;
  ve_typed : result_typed r;
  ve_consistent : consistent r;
}.

Lemma run_session_verified normal fault maxSteps (s : System H) r ms :
  initial s -> 0 <= maxSteps < UINT64_MAX ->
  run_session maxSteps (new_ProcessLifecycleManager normal fault, s) = (Ret r, ms) -> verified maxSteps r.
Proof.
  intros Hin Hmax E. unfold run_session in E. set (ids := processIds (s_table s)).
  assert (Hids : NoDup ids) by apply processIds_NoDup.
  assert (Hdom : forall pid, pid ∈ ids <-> pid ∈ dom (endings (s_table s))).
  { intros pid. unfold ids. rewrite processIds_spec, endings_dom. reflexivity. }
  apply M_bind_ret_inv in E as (st & [m1 s1] & E1 & E).
  destruct (start_inv ids this_cpu normal fault s st m1 s1 Hin Hdom E1) as (-> & Hok1 & _).
  apply M_bind_ret_inv in E as ([st log] & [m2 s2] & E2 & E).
  destruct (runner_loop_inv ids Hids (Z.to_nat maxSteps) 0 _ _ _ _ _ _ _ _ Hok1 ltac:(lia) E2) as (n & cur & Hn & Hok & ->).
  rewrite bind_run in E. unfold get in E. cbv beta iota in E.
  apply M_bind_ret_inv in E as (l & ms1 & E3 & E). apply M_lift_ret_inv in E3 as [Hl ->]. injection E as <- _.
  pose proof (so_log _ _ _ _ _ _ Hok) as [[Hs H0] _ _ _ _ [He Hw]].
  constructor; [cbn; lia | constructor; [cbn; lia | exact He | exact Hw] |].
  apply (session_result ids Hids n m2 s2 log cur l maxSteps Hok ltac:(lia) Hl).
Qed.

Lemma runner_cpu_new o c : runner_cpu o = Ret c ->
  state c = new_CPUState /\ has_user_code_range c = false /\ has_software_interrupt_observation c = false.
Proof.
  unfold runner_cpu, setSoftwareInterruptHandler. destruct (opt_mmio_bus o), (opt_has_handler o); intros [= <-]; auto.
Qed.

(** The scheduler's controller is new, so nothing is pending. *)
Lemma new_preemptive vector quantum payload w p w' :
  new_TimerPreemptiveScheduler vector quantum payload w = (Ret p, w') ->
  controller_at w' (tp_controller p) = InterruptController_clear /\ tp_preemption_count p = 0 /\ tp_context_switch_count p = 0.
Proof.
  unfold new_TimerPreemptiveScheduler, get. rewrite bind_run. cbv beta iota zeta. rewrite bind_run. unfold modify at 1. cbv beta iota.
  rewrite bind_run. unfold lift at 1. destruct (new_TimerDevice _ _ _ _) as [t|e]; [|discriminate]. rewrite bind_run.
  intros [= <- <-]. cbn [tp_controller tp_preemption_count tp_context_switch_count]. split; [|auto].
  unfold controller_at. cbn [set_timers controllers set_controllers]. apply lookup_total_insert_eq.
Qed.

Lemma initial_system table (c : CPU) w (h : H) p :
  fresh_table table -> state c = new_CPUState -> has_user_code_range c = false -> has_software_interrupt_observation c = false ->
  controller_at w (tp_controller p) = InterruptController_clear -> tp_preemption_count p = 0 -> tp_context_switch_count p = 0 ->
  initial (mkSystem (mkMachine c w h) table new_RoundRobinScheduler p).
Proof.
  intros [Ht Hi Hr Hs] Hc _ Hq Hp H1 H2. pose proof new_CPUState_wf as Hwf. constructor; cbn.
  - constructor; cbn; rewrite ?Hc; [exact Ht | exact Hi | apply Hwf | apply Hwf |]. intros b Hb. rewrite Hr in Hb.
    apply (running_nonzero _ Ht) in Hb. contradiction.
  - exact Hr.
  - intros pid x Hx. rewrite endings_lookup in Hx. destruct (processes table !! pid) as [b|] eqn:Hb; [|discriminate].
    cbn in Hx. injection Hx as <-. unfold ending. rewrite (Hs pid b Hb). reflexivity.
  - unfold timer_pending. cbn. rewrite Hp. unfold InterruptController_hasPending_for, InterruptController_findDeliverable_for.
    destruct (_ || _); reflexivity.
  - exact Hq.
  - auto.
Qed.

Lemma runImages_verified images o w (h : H) r wh :
  Forall loaded_image images -> 0 <= max_lifecycle_steps o < UINT64_MAX ->
  MultiProcessRunner_runImages images o (w, h) = (Ret r, wh) -> verified (max_lifecycle_steps o) r.
Proof.
  intros Hi Hmax E. unfold MultiProcessRunner_runImages in E.
  apply M_bind_ret_inv in E as (u & wh1 & E1 & E). apply M_lift_ret_inv in E1 as [_ ->].
  apply M_bind_ret_inv in E as (u1 & wh1 & E1 & E). apply M_throw_if_ret_inv in E1 as [_ ->].
  apply M_bind_ret_inv in E as (table & wh1 & E1 & E). apply M_lift_ret_inv in E1 as [Et ->].
  apply M_bind_ret_inv in E as (c & wh1 & E1 & E). apply M_lift_ret_inv in E1 as [Ec ->].
  apply M_bind_ret_inv in E as (p & [w1 h1] & E1 & E). unfold zoom in E1. cbn [fst] in E1.
  destruct (new_TimerPreemptiveScheduler _ _ _ w) as [[p'|e] w2] eqn:Ep; [|discriminate E1]. injection E1 as -> -> ->.
  destruct (new_preemptive _ _ _ _ _ _ Ep) as (Hp1 & Hp2 & Hp3). destruct (runner_cpu_new _ _ Ec) as (Hc1 & Hc2 & Hc3).
  destruct (create_processes images new_ProcessTable) as [[v|e] t] eqn:Ecr; [|discriminate Et]. injection Et as ->.
  pose proof (create_processes_fresh _ _ _ _ new_fresh Hi Ecr) as Hfresh.
  unfold run_on in E. destruct (run_session _ _) as [[r'|e] [m s]] eqn:Er; [|discriminate E]. injection E as -> _.
  eapply run_session_verified; [|exact Hmax | exact Er]. apply initial_system; assumption.
Qed.

Lemma runFiles_verified read_file paths o w (h : H) r wh :
  (forall path bytes, read_file path = Ret bytes -> byte_list bytes) -> 0 <= max_lifecycle_steps o < UINT64_MAX ->
  MultiProcessRunner_runFiles read_file paths o (w, h) = (Ret r, wh) -> verified (max_lifecycle_steps o) r.
Proof.
  intros Hread Hmax E. unfold MultiProcessRunner_runFiles in E.
  apply M_bind_ret_inv in E as (u & wh1 & E1 & E). apply M_throw_if_ret_inv in E1 as [_ ->].
  apply M_bind_ret_inv in E as (images & wh1 & E1 & E). apply M_lift_ret_inv in E1 as [Ei ->].
  eapply runImages_verified; [|exact Hmax | exact E]. eapply load_images_loaded; eassumption.
Qed.

End runs.

(** ** Sample executables *)

(** The assembler and the writer, as the host tools compose them. *)
Definition compiled (source : string) : outcome (list Z) :=
  p ← assembleString source;
  program ← toBinaryProgram p;
  BinaryWriter_writeToBytes program.

Definition newline : string := String (Ascii.ascii_of_nat 10) EmptyString.

(** Three files: a loop, a division by zero, and a system call at the end. *)
Definition sample_files (path : string) : outcome (list Z) :=
  if bool_decide (path = "loop") then
    compiled ("MOV R0, 3" +:+ newline +:+ "again: SUB R0, 1" +:+ newline +:+ "CMP R0, 0" +:+ newline +:+ "JNE again" +:+ newline)
  else if bool_decide (path = "fault") then compiled ("MOV R0, 1" +:+ newline +:+ "DIV R0, 0" +:+ newline)
  else if bool_decide (path = "call") then compiled ("NOP" +:+ newline +:+ "INT 128" +:+ newline)
  else throw (RuntimeError "Failed to open binary file").

(** A host that services every vector and returns to the caller. *)
Definition obliging_host : SoftwareInterruptHandler unit :=
  {| handles := fun _ _ => true; handle := fun _ _ => mret SoftwareInterruptResult_returnToCaller |}.

Definition host_options : MultiProcessRunOptions :=
  {| opt_timer_vector := 240; opt_quantum := 2; opt_timer_payload := 0; max_lifecycle_steps := 100000;
     opt_normal_exit_code := 0; opt_fault_exit_code := -1; opt_mmio_bus := None; opt_has_handler := true |}.

Definition sample_run (paths : list string) (o : MultiProcessRunOptions) : outcome MultiProcessRunResult :=
  (@MultiProcessRunner_runFiles extended_long_double unit obliging_host sample_files paths o (empty_world, tt)).1.

#[export] Instance obliging_host_quiet : @QuietHandler unit obliging_host.
Proof. intros vector bus h s w. repeat split. Qed.

(** ** Properties *)

(** (C9) Every result [MultiProcessRunner::runFiles] returns passes the invariant
    verifier, whatever the executables do (faults and protection violations
    included), for every bus, timer quantum and step limit, and for every host
    handler that leaves the error status and the sizes of the register file and of
    memory alone.  The run takes at most the configured number of lifecycle steps. *)
Theorem run_results_verify {LD : LongDouble} {H : Type} {SIH : SoftwareInterruptHandler H} {QH : QuietHandler H}
    (read_file : string -> outcome (list Z)) (paths : list string) (o : MultiProcessRunOptions) (w : World) (h : H)
    (r : MultiProcessRunResult) (wh : World * H)
    (Hread : forall path bytes, read_file path = Ret bytes -> byte_list bytes)
    (Hmax : 0 <= max_lifecycle_steps o < UINT64_MAX)
    (Hrun : MultiProcessRunner_runFiles read_file paths o (w, h) = (Ret r, wh)) :
  lifecycle_steps r <= max_lifecycle_steps o /\
  exists report, verify r = Ret report /\ MultiProcessInvariantReport_passed report = true.
Proof.
  destruct (runFiles_verified _ _ _ _ _ _ _ Hread Hmax Hrun) as [Hs [T1 T2 T3] Hc]. split; [exact Hs|].
  destruct (verify_spec r ltac:(lia) T2 T3) as (report & Hv & Hspec). exists report. split; [exact Hv|].
  apply bool_decide_eq_true, Hspec, Hc.
Qed.

Definition returns_bytes (o : outcome (list Z)) : bool :=
  match o with Ret bytes => forallb (fun x => (0 <=? x) && (x <? 256)) bytes | Throw _ => true end.

Lemma returns_bytes_spec o bytes : returns_bytes o = true -> o = Ret bytes -> byte_list bytes.
Proof.
  intros Hb ->. cbn in Hb. apply Forall_forall. intros x Hx. rewrite forallb_forall in Hb.
  apply list_elem_of_In, Hb, andb_true_iff in Hx as [H1 H2]. split; [apply Z.leb_le, H1 | apply Z.ltb_lt, H2].
Qed.

Lemma sample_files_bytes path bytes : sample_files path = Ret bytes -> byte_list bytes.
Proof.
  apply returns_bytes_spec. unfold sample_files.
  case_bool_decide; [vm_compute; reflexivity|]. case_bool_decide; [vm_compute; reflexivity|].
  case_bool_decide; [vm_compute; reflexivity|]. reflexivity.
Qed.

(** What a run reports: whether it completed, and its counters. *)
Definition run_report (r : MultiProcessRunResult) : bool * Z * Z * Z * Z :=
  (MultiProcessRunResult_completed r, process_count r, termination_count r, fault_count r, lifecycle_steps r).

(** The loop and the fault, with the loop twice, time sliced. *)
Example run_results_verify_witness :
  exists r report, sample_run ["loop"; "fault"; "loop"] default_options = Ret r /\
    run_report r = (true, 3, 3, 1, 24) /\ verify r = Ret report /\ MultiProcessInvariantReport_passed report = true.
Proof.
  destruct (@MultiProcessRunner_runFiles extended_long_double unit obliging_host sample_files ["loop"; "fault"; "loop"] default_options
    (empty_world, tt)) as [[r|e] wh] eqn:E.
  - assert (Hmax : 0 <= max_lifecycle_steps default_options < UINT64_MAX) by (cbn; words).
    pose proof (run_results_verify sample_files ["loop"; "fault"; "loop"] default_options empty_world tt r wh sample_files_bytes Hmax E)
      as (_ & report & Hv & Hp).
    exists r, report. unfold sample_run. rewrite E. split; [reflexivity|]. split; [|auto].
    assert (Hr : run_report <$> (sample_run ["loop"; "fault"; "loop"] default_options) = Ret (true, 3, 3, 1, 24)) by (vm_compute; reflexivity).
    unfold sample_run in Hr. rewrite E in Hr. injection Hr as H1 H2 H3 H4 H5. unfold run_report. congruence.
  - exfalso. assert (Hf : match sample_run ["loop"; "fault"; "loop"] default_options with Ret _ => true | Throw _ => false end = true)
      by (vm_compute; reflexivity).
    unfold sample_run in Hf. rewrite E in Hf. discriminate Hf.
Defined.

(** A CPU that stopped on the Kernel interrupt stack has no context to save. *)
Lemma capture_on_kernel_stack pid c :
  using_kernel_interrupt_stack c = true ->
  captureProcessContextSnapshot pid c =
    Throw (RuntimeError "Cannot capture or restore process context while Kernel interrupt stack is active").
Proof. intros Hu. unfold captureProcessContextSnapshot, requireContextSwitchableCPU. rewrite Hu. reflexivity. Qed.

(** The exit code of a process that ends can always be read. *)
Lemma exit_code_known c d :
  exists code, (if negb (has_error (state c)) && process_exit_requested c then processExitCode c else mret d) = Ret code.
Proof.
  unfold processExitCode. destruct (process_exit_requested c); cbn; [|rewrite andb_false_r; cbn; eauto].
  destruct (has_error (state c)); cbn; eauto.
Qed.

(** Its process cannot be ended. *)
Lemma end_process_on_kernel_stack {H : Type} (m : ProcessLifecycleManager) (s : System H) :
  hasRunningProcess (s_table s) = true -> using_kernel_interrupt_stack (cpu (s_machine s)) = true ->
  end_process (m, s) =
    (Throw (RuntimeError "Cannot capture or restore process context while Kernel interrupt stack is active"), (m, s)).
Proof.
  intros Hr Hu. unfold end_process. rewrite bind_run. unfold get at 1. cbv beta iota zeta. rewrite bind_run.
  unfold lift at 1, runningProcessId. rewrite Hr. cbn [negb throw_if mbind outcome_bind mret outcome_ret].
  rewrite bind_run. destruct (exit_code_known (cpu (s_machine s)) (lm_normal_exit_code m)) as [code ->].
  unfold lift at 1. rewrite bind_run, capture_on_kernel_stack by exact Hu. reflexivity.
Qed.

