(* ===== verification/TraceDetail.v ===== *)
(** * What a trace event says about its instruction

    The rest of [src/trace/TraceEvent.cpp]: the changes, the stage and data path,
    and the details of ALU, memory, stack and control-flow instructions that the
    constructor of a [TraceEvent] derives from the state before, the instruction
    and the state after, and their text. *)

From S2P Require Import Prelude Words Strings ALU Memory ISA Binary Interrupts Devices CPUState Trace CPU CPUExec CPUStep CPUFrames CPUInv CPURun CPUShape.
Open Scope Z_scope.

(** ** Device regions of [include/zero_cpu/core/MemoryMap.hpp] *)

Definition kDebugOutputBase : Z := 61440.
Definition kDebugOutputSize : Z := 16.
Definition kTimerBase : Z := 61696.
Definition kTimerSize : Z := 48.

Definition isDebugOutputAddress (address : Z) : bool :=
  (kDebugOutputBase <=? address) && (address <? kDebugOutputBase + kDebugOutputSize).
Definition isTimerAddress (address : Z) : bool :=
  (kTimerBase <=? address) && (address <? kTimerBase + kTimerSize).
Definition isHardwareAddress (address : Z) : bool :=
  (kHardwareBase <=? address) && (address <? kHardwareBase + kHardwareSize).
Definition isMmioAddress (address : Z) : bool :=
  isDebugOutputAddress address || isTimerAddress address || isHardwareAddress address.

(** ** The details *)

Record ALUTraceDetail := {
  al_active : bool; al_operation : string; al_destination : string; al_lhs_text : string; al_rhs_text : string;
  al_lhs : Z; al_rhs : Z; al_result : Z; al_has_lhs : bool; al_has_rhs : bool; al_has_result : bool; al_note : string;
}.
Definition no_alu_detail : ALUTraceDetail :=
  {| al_active := false; al_operation := ""; al_destination := ""; al_lhs_text := ""; al_rhs_text := ""; al_lhs := 0;
     al_rhs := 0; al_result := 0; al_has_lhs := false; al_has_rhs := false; al_has_result := false; al_note := "" |}.

Record MemoryTraceDetail := {
  mt_active : bool; mt_operation : string; mt_address_text : string; mt_value_text : string; mt_destination : string;
  mt_route : string; mt_address : Z; mt_value : Z; mt_has_address : bool; mt_has_value : bool; mt_is_read : bool;
  mt_is_write : bool; mt_note : string;
}.
Definition no_memory_detail : MemoryTraceDetail :=
  {| mt_active := false; mt_operation := ""; mt_address_text := ""; mt_value_text := ""; mt_destination := "";
     mt_route := ""; mt_address := 0; mt_value := 0; mt_has_address := false; mt_has_value := false;
     mt_is_read := false; mt_is_write := false; mt_note := "" |}.

Record StackTraceDetail := {
  sk_active : bool; sk_operation : string; sk_operand_text : string; sk_destination : string; sk_note : string;
  sk_value : Z; sk_return_address : Z; sk_stack_address : Z; sk_sp_before : Z; sk_sp_after : Z; sk_target : Z;
  sk_has_value : bool; sk_has_return_address : bool; sk_has_stack_address : bool; sk_has_sp_change : bool;
  sk_has_target : bool; sk_is_push : bool; sk_is_pop : bool; sk_is_call : bool; sk_is_ret : bool;
}.
Definition no_stack_detail : StackTraceDetail :=
  {| sk_active := false; sk_operation := ""; sk_operand_text := ""; sk_destination := ""; sk_note := ""; sk_value := 0;
     sk_return_address := 0; sk_stack_address := 0; sk_sp_before := 0; sk_sp_after := 0; sk_target := 0;
     sk_has_value := false; sk_has_return_address := false; sk_has_stack_address := false; sk_has_sp_change := false;
     sk_has_target := false; sk_is_push := false; sk_is_pop := false; sk_is_call := false; sk_is_ret := false |}.

Record ControlFlowTraceDetail := {
  ct_active : bool; ct_operation : string; ct_operand_text : string; ct_condition : string; ct_note : string;
  ct_from_pc : Z; ct_to_pc : Z; ct_target : Z; ct_fallthrough : Z; ct_return_address : Z; ct_vector : Z;
  ct_taken : bool; ct_has_taken : bool; ct_has_condition : bool; ct_has_target : bool; ct_has_fallthrough : bool;
  ct_has_return_address : bool; ct_has_vector : bool; ct_is_jump : bool; ct_is_branch : bool; ct_is_call : bool;
  ct_is_return : bool; ct_is_interrupt : bool; ct_is_interrupt_return : bool;
}.
Definition no_control_flow_detail : ControlFlowTraceDetail :=
  {| ct_active := false; ct_operation := ""; ct_operand_text := ""; ct_condition := ""; ct_note := ""; ct_from_pc := 0;
     ct_to_pc := 0; ct_target := 0; ct_fallthrough := 0; ct_return_address := 0; ct_vector := 0; ct_taken := false;
     ct_has_taken := false; ct_has_condition := false; ct_has_target := false; ct_has_fallthrough := false;
     ct_has_return_address := false; ct_has_vector := false; ct_is_jump := false; ct_is_branch := false;
     ct_is_call := false; ct_is_return := false; ct_is_interrupt := false; ct_is_interrupt_return := false |}.

(** ** Classification of opcodes *)

Definition isAluTraceOpcode (o : Opcode) : bool :=
  match o with ADD | SUB | MUL | DIV | CMP | TEST | AND | OR | XOR | NOT => true | _ => false end.
Definition aluOpcodeWritesDestination (o : Opcode) : bool :=
  match o with ADD | SUB | MUL | DIV | AND | OR | XOR | NOT => true | _ => false end.
Definition aluOperationName (o : Opcode) : string :=
  match o with
  | ADD => "ALU_ADD" | SUB => "ALU_SUB" | MUL => "ALU_MUL" | DIV => "ALU_DIV" | CMP => "ALU_COMPARE"
  | TEST => "ALU_TEST" | AND => "ALU_AND" | OR => "ALU_OR" | XOR => "ALU_XOR" | NOT => "ALU_NOT" | _ => "ALU_UNKNOWN"
  end.
Definition isMemoryTraceOpcode (o : Opcode) : bool := match o with LOAD | STORE => true | _ => false end.
Definition memoryOperationName (o : Opcode) : string :=
  match o with LOAD => "MEMORY_READ" | STORE => "MEMORY_WRITE" | _ => "MEMORY_UNKNOWN" end.
Definition isStackTraceOpcode (o : Opcode) : bool := match o with PUSH | POP | CALL | RET => true | _ => false end.
Definition stackOperationName (o : Opcode) : string :=
  match o with PUSH => "STACK_PUSH" | POP => "STACK_POP" | CALL => "CALL" | RET => "RETURN" | _ => "STACK_UNKNOWN" end.
Definition isControlFlowTraceOpcode (o : Opcode) : bool :=
  match o with JMP | JE | JNE | JG | JL | CALL | RET | INT | IRET => true | _ => false end.
Definition isConditionalBranchOpcode (o : Opcode) : bool := match o with JE | JNE | JG | JL => true | _ => false end.
Definition controlFlowOperationName (o : Opcode) : string :=
  match o with
  | JMP => "JUMP" | JE | JNE | JG | JL => "CONDITIONAL_BRANCH" | CALL => "CALL" | RET => "RETURN"
  | INT => "SOFTWARE_INTERRUPT" | IRET => "INTERRUPT_RETURN" | _ => "CONTROL_FLOW_UNKNOWN"
  end.

Definition memoryRouteText (address : Z) : string :=
  if isDebugOutputAddress address then "DebugOutput MMIO"
  else if isTimerAddress address then "Timer MMIO"
  else if isHardwareAddress address then "Hardware Bridge MMIO"
  else if isMmioAddress address then "MMIO"
  else if address <? kDefaultMemorySize then "RAM"
  else "Outside default RAM".

(** [appendAluNote] and its three copies: notes are joined by a semicolon. *)
Definition append_note (old note : string) : string :=
  if bool_decide (note = "") then old
  else (if bool_decide (old = "") then old else old +:+ "; ") +:+ note.

(** ** Operands *)

(** [try { value = ...; return true; } catch (ex) { note = ex.what(); return false; }] *)
Definition caught (o : outcome Z) : Z + string := match o with Ret v => inl v | Throw e => inr (what e) end.

Definition indirect_address (s : CPUState) (reg : RegisterName) : Z + string :=
  match caught (RegisterFile_get (registers s) reg) with
  | inl raw => if raw <? 0 then inr "negative register-indirect address" else inl (u64 raw)
  | inr note => inr note
  end.

Definition tryReadTraceOperandValue (s : CPUState) (o : Operand) : Z + string :=
  match o with
  | registerOperand reg => caught (RegisterFile_get (registers s) reg)
  | immediate value => inl value
  | memoryAddress address => caught (Memory_read (memory s) address)
  | registerIndirectAddress reg =>
      match indirect_address s reg with
      | inl address => caught (Memory_read (memory s) address)
      | inr note => inr note
      end
  | label _ => inr "label operand has no runtime value snapshot"
  | none => inr "operand is empty"
  end.

Definition tryResolveTraceMemoryAddress (s : CPUState) (o : Operand) : Z + string :=
  match o with
  | memoryAddress address => inl address
  | registerIndirectAddress reg => indirect_address s reg
  | _ => inr "operand is not a memory address"
  end.

Definition tryReadControlFlowTargetOperand (o : Operand) : option Z :=
  match o with immediate value => if value <? 0 then None else Some (u64 value) | _ => None end.

(** The value a change records for an address, if there is one. *)
Definition findMemoryChangeAt (changes : list (nat * Z * Z)) (address : Z) : option Z :=
  match list_find (fun '(a, _, _) => Z.of_nat a = address) changes with
  | Some (_, (_, _, after)) => Some after
  | None => None
  end.

(** ** Stage, action and data path *)

Definition addDatapathNode (nodes : list string) (node : string) : list string :=
  if bool_decide (node ∈ nodes) then nodes else nodes ++ [node].

Definition opcode_action (o : Opcode) : string :=
  match o with
  | NOP => "NOP" | HALT => "HALT" | MOV => "REGISTER_TRANSFER" | LOAD => "MEMORY_READ" | STORE => "MEMORY_WRITE"
  | ADD => "ALU_ADD" | SUB => "ALU_SUB" | MUL => "ALU_MUL" | DIV => "ALU_DIV" | CMP => "ALU_COMPARE"
  | TEST => "ALU_TEST" | JMP => "JUMP" | JE | JNE | JG | JL => "CONDITIONAL_BRANCH" | PUSH => "STACK_PUSH"
  | POP => "STACK_POP" | CALL => "CALL" | RET => "RETURN" | INT => "SOFTWARE_INTERRUPT" | IRET => "INTERRUPT_RETURN"
  | EI => "INTERRUPT_ENABLE" | DI => "INTERRUPT_DISABLE" | AND => "ALU_AND" | OR => "ALU_OR" | XOR => "ALU_XOR"
  | NOT => "ALU_NOT" | Invalid => "INVALID"
  end.

Definition opcode_datapath (o : Opcode) : list string :=
  match o with
  | NOP | HALT | Invalid => ["ControlUnit"]
  | MOV => ["RegisterFile"; "Flags"; "Writeback"]
  | LOAD => ["AddressUnit"; "Memory/MMIO"; "RegisterFile"; "Flags"; "Writeback"]
  | STORE => ["AddressUnit"; "RegisterFile"; "Memory/MMIO"; "Flags"]
  | ADD | SUB | MUL | DIV | AND | OR | XOR | NOT => ["RegisterFile"; "ALU"; "Flags"; "Writeback"]
  | CMP | TEST => ["RegisterFile"; "ALU"; "Flags"]
  | JMP => ["ControlUnit"; "PC"]
  | JE | JNE | JG | JL => ["Flags"; "ControlUnit"; "PC"]
  | PUSH => ["RegisterFile"; "Stack"; "SP"]
  | POP => ["Stack"; "SP"; "RegisterFile"; "Flags"; "Writeback"]
  | CALL => ["ControlUnit"; "Stack"; "PC"]
  | RET => ["Stack"; "PC"]
  | INT => ["InterruptController"; "Stack"; "Flags"; "PC"]
  | IRET => ["Stack"; "Flags"; "PC"]
  | EI | DI => ["InterruptController"; "ControlUnit"]
  end.

(** ** The analyses of the constructor *)

Abbreviation RegisterChanges := (list (string * Z * Z)) (only parsing).
Abbreviation MemoryChanges := (list (nat * Z * Z)) (only parsing).

Definition analyzeVisualMetadata (e : TraceEvent) (changed_registers : RegisterChanges)
    (changed_flags : list (string * bool * bool)) (changed_memory : MemoryChanges) : string * string * list string :=
  let o := opcode (ev_instruction e) in
  let add_if (b : bool) (more nodes : list string) := if b then foldl addDatapathNode nodes more else nodes in
  let nodes := foldl addDatapathNode [] (["PC"; "InstructionMemory"; "Decoder"] ++ opcode_datapath o) in
  let nodes := add_if (negb (bool_decide (changed_registers = []))) ["RegisterFile"] nodes in
  let nodes := add_if (negb (bool_decide (changed_flags = []))) ["Flags"] nodes in
  let nodes := add_if (negb (bool_decide (changed_memory = []))) ["Memory"] nodes in
  let nodes := add_if (negb (sp (ev_before e) =? sp (ev_after e))) ["Stack"; "SP"] nodes in
  let nodes := add_if (negb (pc (ev_before e) =? pc (ev_after e))) ["PC"] nodes in
  ("EXECUTE", opcode_action o, nodes).

(** [action_.empty() || action_ == "UNKNOWN" ? name : action_] *)
Definition detail_operation (action name : string) : string :=
  if bool_decide (action = "") || bool_decide (action = "UNKNOWN") then name else action.

(** [value = ..., has_value = true], or the note. *)
Definition read_value (r : Z + string) : Z := match r with inl v => v | inr _ => 0 end.
Definition read_ok (r : Z + string) : bool := match r with inl _ => true | inr _ => false end.
Definition read_note (prefix : string) (r : Z + string) (note : string) : string :=
  match r with inl _ => note | inr why => append_note note (prefix +:+ why) end.

(** The name a register operand is shown by, or the text of another operand. *)
Definition destination_text (o : Operand) : outcome string :=
  match o with registerOperand reg => registerNameToString reg | _ => Operand_toString o end.

(** [dst.isRegister() ? (name, after.get(dst)) : changed.empty() ? nothing : (front.name, front.after)] *)
Definition written_register (after : CPUState) (o : Operand) (changed : RegisterChanges) : outcome (option (string * Z)) :=
  match o, changed with
  | registerOperand reg, _ =>
      name ← registerNameToString reg; value ← RegisterFile_get (registers after) reg; mret (Some (name, value))
  | _, (name, _, value) :: _ => mret (Some (name, value))
  | _, [] => mret None
  end.

Definition analyzeAluDetail (e : TraceEvent) (action : string) (changed_registers : RegisterChanges)
    : outcome ALUTraceDetail :=
  let o := opcode (ev_instruction e) in
  let d := dst (ev_instruction e) in
  let s := src (ev_instruction e) in
  if negb (isAluTraceOpcode o) then mret no_alu_detail
  else
    let has_d := negb (Operand_isNone d) in
    let has_s := negb (bool_decide (o = NOT)) && negb (Operand_isNone s) in
    lhs_text ← (if has_d then Operand_toString d else mret "");
    let lhs := if has_d then tryReadTraceOperandValue (ev_before e) d else inr "" in
    let note := if has_d then read_note "lhs unavailable: " lhs "" else "" in
    destination ← (if has_d then destination_text d else mret "");
    rhs_text ← (if has_s then Operand_toString s else mret "");
    let rhs := if has_s then tryReadTraceOperandValue (ev_before e) s else inr "" in
    let note := if has_s then read_note "rhs unavailable: " rhs note else note in
    written ← (if aluOpcodeWritesDestination o then written_register (ev_after e) d changed_registers else mret None);
    let note :=
      match o with
      | CMP => append_note note "comparison result updates flags and is not written to a register"
      | TEST => append_note note "bit-test result updates flags and is not written to a register"
      | _ => note
      end in
    mret {| al_active := true; al_operation := detail_operation action (aluOperationName o);
            al_destination := match written with Some (name, _) => name | None => destination end;
            al_lhs_text := lhs_text; al_rhs_text := rhs_text; al_lhs := read_value lhs; al_rhs := read_value rhs;
            al_result := match written with Some (_, value) => value | None => 0 end;
            al_has_lhs := read_ok lhs; al_has_rhs := read_ok rhs; al_has_result := bool_decide (is_Some written);
            al_note := note |}.

(** [route.find("MMIO") != npos] *)
Definition route_is_mmio (address : Z) : bool := isMmioAddress address.

Definition analyzeMemoryDetail (e : TraceEvent) (action : string) (changed_registers : RegisterChanges)
    (changed_memory : MemoryChanges) : outcome MemoryTraceDetail :=
  let o := opcode (ev_instruction e) in
  let d := dst (ev_instruction e) in
  let s := src (ev_instruction e) in
  let operation := detail_operation action (memoryOperationName o) in
  match o with
  | LOAD =>
      address_text ← Operand_toString s;
      let address := tryResolveTraceMemoryAddress (ev_before e) s in
      written ← written_register (ev_after e) d changed_registers;
      let note := read_note "address unavailable: " address "" in
      let note := match written with
                  | Some _ => note
                  | None => append_note note "load value unavailable because no destination register changed"
                  end in
      let name := match written with Some (name, _) => name | None => "" end in
      mret {| mt_active := true; mt_operation := operation; mt_address_text := address_text; mt_value_text := name;
              mt_destination := name; mt_route := match address with inl a => memoryRouteText a | inr _ => "" end;
              mt_address := read_value address; mt_value := match written with Some (_, v) => v | None => 0 end;
              mt_has_address := read_ok address; mt_has_value := bool_decide (is_Some written); mt_is_read := true;
              mt_is_write := false; mt_note := note |}
  | STORE =>
      address_text ← Operand_toString d;
      value_text ← Operand_toString s;
      let address := tryResolveTraceMemoryAddress (ev_before e) d in
      let value := tryReadTraceOperandValue (ev_before e) s in
      let note := read_note "value unavailable: " value (read_note "address unavailable: " address "") in
      let note := if read_ok address && route_is_mmio (read_value address) && bool_decide (changed_memory = [])
                  then append_note note "MMIO write is visible through the device, not normal RAM snapshot" else note in
      mret {| mt_active := true; mt_operation := operation; mt_address_text := address_text; mt_value_text := value_text;
              mt_destination := ""; mt_route := match address with inl a => memoryRouteText a | inr _ => "" end;
              mt_address := read_value address; mt_value := read_value value; mt_has_address := read_ok address;
              mt_has_value := read_ok value; mt_is_read := false; mt_is_write := true; mt_note := note |}
  | _ => mret no_memory_detail
  end.

(** The fields every active stack detail has; the rest is per opcode. *)
Definition stack_detail (e : TraceEvent) (operation operand_text destination note : string)
    (value return_address : option Z) (stack_address : Z) (target : option Z) : StackTraceDetail :=
  let o := opcode (ev_instruction e) in
  {| sk_active := true; sk_operation := operation; sk_operand_text := operand_text; sk_destination := destination;
     sk_note := note; sk_value := default 0 value; sk_return_address := default 0 return_address;
     sk_stack_address := stack_address; sk_sp_before := sp (ev_before e); sk_sp_after := sp (ev_after e);
     sk_target := default 0 target; sk_has_value := bool_decide (is_Some value);
     sk_has_return_address := bool_decide (is_Some return_address); sk_has_stack_address := true;
     sk_has_sp_change := negb (sp (ev_before e) =? sp (ev_after e)); sk_has_target := bool_decide (is_Some target);
     sk_is_push := bool_decide (o = PUSH); sk_is_pop := bool_decide (o = POP); sk_is_call := bool_decide (o = CALL);
     sk_is_ret := bool_decide (o = RET) |}.

Definition from_read (r : Z + string) : option Z := match r with inl v => Some v | inr _ => None end.

Definition analyzeStackDetail (e : TraceEvent) (action : string) (changed_registers : RegisterChanges)
    (changed_memory : MemoryChanges) : outcome StackTraceDetail :=
  let o := opcode (ev_instruction e) in
  let d := dst (ev_instruction e) in
  if negb (isStackTraceOpcode o) then mret no_stack_detail
  else
    let operation := detail_operation action (stackOperationName o) in
    operand_text ← (if Operand_isNone d then mret "" else Operand_toString d);
    match o with
    | PUSH =>
        let address := sp (ev_before e) in
        let read := tryReadTraceOperandValue (ev_before e) d in
        let value := match findMemoryChangeAt changed_memory address with
                     | Some pushed => Some pushed
                     | None => from_read read
                     end in
        mret (stack_detail e operation operand_text "" (read_note "push value unavailable: " read "") value None address None)
    | POP =>
        let address := sp (ev_after e) in
        written ← written_register (ev_after e) d changed_registers;
        let read := caught (Memory_read (memory (ev_before e)) address) in
        mret (match written with
              | Some (name, value) => stack_detail e operation operand_text name "" (Some value) None address None
              | None => stack_detail e operation operand_text "" (read_note "pop value unavailable: " read "")
                          (from_read read) None address None
              end)
    | CALL =>
        let address := sp (ev_before e) in
        let pushed := findMemoryChangeAt changed_memory address in
        mret (stack_detail e operation operand_text ""
                (match pushed with Some _ => "" | None => "return address write was not found in changed memory" end)
                pushed pushed address (Some (pc (ev_after e))))
    | _ =>
        let address := sp (ev_after e) in
        let read := caught (Memory_read (memory (ev_before e)) address) in
        mret (stack_detail e operation operand_text "" (read_note "return value unavailable: " read "") (from_read read)
                (Some (i64 (pc (ev_after e)))) address (Some (pc (ev_after e))))
    end.

(** The fields every active control-flow detail has. *)
Definition control_flow_detail (e : TraceEvent) (operation operand_text condition note : string)
    (taken : bool) (target fallthrough return_address vector : option Z) : ControlFlowTraceDetail :=
  let o := opcode (ev_instruction e) in
  {| ct_active := true; ct_operation := operation; ct_operand_text := operand_text; ct_condition := condition;
     ct_note := note; ct_from_pc := pc (ev_before e); ct_to_pc := pc (ev_after e); ct_target := default 0 target;
     ct_fallthrough := default 0 fallthrough; ct_return_address := default 0 return_address;
     ct_vector := default 0 vector; ct_taken := taken; ct_has_taken := true;
     ct_has_condition := negb (bool_decide (condition = "")); ct_has_target := bool_decide (is_Some target);
     ct_has_fallthrough := bool_decide (is_Some fallthrough);
     ct_has_return_address := bool_decide (is_Some return_address); ct_has_vector := bool_decide (is_Some vector);
     ct_is_jump := bool_decide (o = JMP); ct_is_branch := isConditionalBranchOpcode o;
     ct_is_call := bool_decide (o = CALL); ct_is_return := bool_decide (o = RET);
     ct_is_interrupt := bool_decide (o = INT); ct_is_interrupt_return := bool_decide (o = IRET) |}.

(** [findMemoryChangeAt(...) && pushed.after >= 0] *)
Definition pushed_address (changed_memory : MemoryChanges) (address : Z) : option Z :=
  match findMemoryChangeAt changed_memory address with
  | Some after => if after >=? 0 then Some (u64 after) else None
  | None => None
  end.

Definition analyzeControlFlowDetail (e : TraceEvent) (action : string) (changed_memory : MemoryChanges)
    (stack : StackTraceDetail) : outcome ControlFlowTraceDetail :=
  let o := opcode (ev_instruction e) in
  let d := dst (ev_instruction e) in
  if negb (isControlFlowTraceOpcode o) then mret no_control_flow_detail
  else
    let operation := detail_operation action (controlFlowOperationName o) in
    operand_text ← (if Operand_isNone d then mret "" else Operand_toString d);
    let explicit := tryReadControlFlowTargetOperand d in
    let to := pc (ev_after e) in
    let detail := control_flow_detail e operation operand_text in
    mret (match o with
          | JMP => detail "" "" true (Some (default to explicit)) None None None
          | JE | JNE | JG | JL =>
              let taken := evaluateControlFlowCondition o (flags (ev_before e)) in
              let target := match explicit with Some t => Some t | None => if taken then Some to else None end in
              detail (controlFlowConditionText o)
                (match target with Some _ => "" | None => "branch target is label-based or unavailable when not taken" end)
                taken target (if taken then None else Some to) None None
          | CALL =>
              let return_address := if sk_has_return_address stack then Some (u64 (sk_return_address stack))
                                    else pushed_address changed_memory (sp (ev_before e)) in
              detail "" (match return_address with Some _ => "" | None => "return address was not found in stack detail" end)
                true (Some (default to explicit)) None return_address None
          | INT =>
              let vector := tryReadTraceOperandValue (ev_before e) d in
              let return_address := pushed_address changed_memory (sp (ev_before e)) in
              let note := read_note "interrupt vector unavailable: " vector "" in
              detail "" (match return_address with
                         | Some _ => note
                         | None => append_note note "interrupt return address was not found in changed memory"
                         end)
                true (Some to) None return_address (from_read vector)
          | _ => detail "" "" true (Some to) None (Some to) None
          end).

(** The members the constructor fills. *)
Record TraceAnalysis := {
  ta_changed_registers : list (string * Z * Z);
  ta_changed_flags : list (string * bool * bool);
  ta_changed_memory : list (nat * Z * Z);
  ta_stage : string;
  ta_action : string;
  ta_datapath_nodes : list string;
  ta_alu : ALUTraceDetail;
  ta_memory : MemoryTraceDetail;
  ta_stack : StackTraceDetail;
  ta_control_flow : ControlFlowTraceDetail;
}.

Definition TraceEvent_analyze (e : TraceEvent) : outcome TraceAnalysis :=
  let changed_registers := analyzeRegisterChanges e in
  let changed_flags := analyzeFlagChanges e in
  let changed_memory := analyzeMemoryChanges e in
  let '(stage, action, nodes) := analyzeVisualMetadata e changed_registers changed_flags changed_memory in
  alu ← analyzeAluDetail e action changed_registers;
  mem ← analyzeMemoryDetail e action changed_registers changed_memory;
  stack ← analyzeStackDetail e action changed_registers changed_memory;
  control ← analyzeControlFlowDetail e action changed_memory stack;
  mret {| ta_changed_registers := changed_registers; ta_changed_flags := changed_flags;
          ta_changed_memory := changed_memory; ta_stage := stage; ta_action := action; ta_datapath_nodes := nodes;
          ta_alu := alu; ta_memory := mem; ta_stack := stack; ta_control_flow := control |}.

(** ** Text *)

Definition nl : string := String "010" "".
Definition boolToString (value : bool) : string := if value then "true" else "false".
Definition bit_text (value : bool) : string := if value then "1" else "0".

(** [std::setw(width) << std::setfill('0')] *)
Definition zero_padded (width : nat) (text : string) : string :=
  of_chars (replicate (width - String.length text) "0"%char) +:+ text.

Definition formatPc (pc : Z) : string := zero_padded 4 (pretty pc).
Definition joinDatapathNodes (nodes : list string) : string := String.concat " -> " nodes.

(** [if (b) oss << text;] *)
Definition if_text (b : bool) (text : string) : string := if b then text else "".
Definition nonempty_text (s text : string) : string := if_text (negb (bool_decide (s = ""))) text.

Definition aluDetailString (d : ALUTraceDetail) : string :=
  if negb (al_active d) then "ALU Detail = inactive"
  else
    al_operation d
    +:+ if_text (al_has_lhs d) (" | lhs(" +:+ al_lhs_text d +:+ ")=" +:+ pretty (al_lhs d))
    +:+ if_text (al_has_rhs d) (" | rhs(" +:+ al_rhs_text d +:+ ")=" +:+ pretty (al_rhs d))
    +:+ if_text (al_has_result d)
          (" | result" +:+ nonempty_text (al_destination d) ("(" +:+ al_destination d +:+ ")") +:+ "=" +:+ pretty (al_result d))
    +:+ nonempty_text (al_note d) (" | note=" +:+ al_note d).

Definition memoryDetailString (d : MemoryTraceDetail) : string :=
  if negb (mt_active d) then "Memory Detail = inactive"
  else
    mt_operation d
    +:+ if_text (mt_has_address d) (" | address(" +:+ mt_address_text d +:+ ")=" +:+ pretty (mt_address d))
    +:+ nonempty_text (mt_route d) (" | route=" +:+ mt_route d)
    +:+ if_text (mt_has_value d)
          (" | value" +:+ nonempty_text (mt_value_text d) ("(" +:+ mt_value_text d +:+ ")") +:+ "=" +:+ pretty (mt_value d))
    +:+ nonempty_text (mt_destination d) (" | destination=" +:+ mt_destination d)
    +:+ nonempty_text (mt_note d) (" | note=" +:+ mt_note d).

Definition stackDetailString (d : StackTraceDetail) : string :=
  if negb (sk_active d) then "Stack Detail = inactive"
  else
    sk_operation d
    +:+ if_text (sk_has_stack_address d) (" | stack_address=" +:+ pretty (sk_stack_address d))
    +:+ if_text (sk_has_sp_change d) (" | SP=" +:+ pretty (sk_sp_before d) +:+ "->" +:+ pretty (sk_sp_after d))
    +:+ if_text (sk_has_value d) (" | value=" +:+ pretty (sk_value d))
    +:+ if_text (sk_has_return_address d) (" | return_address=" +:+ pretty (sk_return_address d))
    +:+ nonempty_text (sk_destination d) (" | destination=" +:+ sk_destination d)
    +:+ if_text (sk_has_target d) (" | target=" +:+ pretty (sk_target d))
    +:+ nonempty_text (sk_note d) (" | note=" +:+ sk_note d).

Definition controlFlowDetailString (d : ControlFlowTraceDetail) : string :=
  if negb (ct_active d) then "Control Flow Detail = inactive"
  else
    ct_operation d +:+ " | from=" +:+ pretty (ct_from_pc d) +:+ " | to=" +:+ pretty (ct_to_pc d)
    +:+ if_text (ct_has_taken d) (" | taken=" +:+ boolToString (ct_taken d))
    +:+ if_text (ct_has_condition d) (" | condition=" +:+ ct_condition d)
    +:+ if_text (ct_has_target d) (" | target=" +:+ pretty (ct_target d))
    +:+ if_text (ct_has_fallthrough d) (" | fallthrough=" +:+ pretty (ct_fallthrough d))
    +:+ if_text (ct_has_return_address d) (" | return_address=" +:+ pretty (ct_return_address d))
    +:+ if_text (ct_has_vector d) (" | vector=" +:+ pretty (ct_vector d))
    +:+ nonempty_text (ct_note d) (" | note=" +:+ ct_note d).

(** [for (x : l) oss << f(x);] *)
Definition each {A} (f : A -> string) (l : list A) : string := String.concat "" (f <$> l).

Definition TraceEvent_hasError (e : TraceEvent) : bool := negb (bool_decide (ev_error_message e = "")).

Definition toCompactString (e : TraceEvent) (a : TraceAnalysis) : outcome string :=
  let b := ev_before e in
  let s := ev_after e in
  text ← Instruction_toString (ev_instruction e);
  mret ("PC=" +:+ formatPc (pc b) +:+ " | " +:+ text
        +:+ nonempty_text (ta_stage a) (" | stage=" +:+ ta_stage a)
        +:+ nonempty_text (ta_action a) (" | action=" +:+ ta_action a)
        +:+ if_text (negb (bool_decide (ta_datapath_nodes a = []))) (" | path=" +:+ joinDatapathNodes (ta_datapath_nodes a))
        +:+ if_text (al_active (ta_alu a)) (" | " +:+ aluDetailString (ta_alu a))
        +:+ if_text (mt_active (ta_memory a)) (" | " +:+ memoryDetailString (ta_memory a))
        +:+ if_text (sk_active (ta_stack a)) (" | " +:+ stackDetailString (ta_stack a))
        +:+ if_text (ct_active (ta_control_flow a)) (" | " +:+ controlFlowDetailString (ta_control_flow a))
        +:+ each (fun '(name, before, after) => " | " +:+ name +:+ ":" +:+ pretty before +:+ "->" +:+ pretty after)
              (ta_changed_registers a)
        +:+ each (fun '(name, before, after) => " | " +:+ name +:+ ":" +:+ bit_text before +:+ "->" +:+ bit_text after)
              (ta_changed_flags a)
        +:+ if_text (negb (sp b =? sp s)) (" | SP:" +:+ pretty (sp b) +:+ "->" +:+ pretty (sp s))
        +:+ if_text (negb (eqb (halted b) (halted s)))
              (" | halted:" +:+ boolToString (halted b) +:+ "->" +:+ boolToString (halted s))
        +:+ if_text (TraceEvent_hasError e) (" | ERROR: " +:+ ev_error_message e)
        +:+ " | NextPC=" +:+ formatPc (pc s)).

(** [src/core/RegisterFile.cpp], [Flags.cpp] and [CPUState.cpp]. *)
Definition RegisterFile_toString (registers : list Z) : outcome string :=
  names ← mapM registerNameToString [R0; R1; R2; R3; R4; R5; R6; R7];
  mret (String.concat " " (zip_with (fun name value => name +:+ "=" +:+ pretty value) names registers)).

Definition Flags_toString (flags : Z) : string :=
  "ZF=" +:+ bit_text (Flags_zero flags) +:+ " SF=" +:+ bit_text (Flags_sign flags)
  +:+ " OF=" +:+ bit_text (Flags_overflow flags) +:+ " CF=" +:+ bit_text (Flags_carry flags).

Definition CPUState_summary (s : CPUState) : outcome string :=
  regs ← RegisterFile_toString (registers s);
  mret ("PC = " +:+ pretty (pc s) +:+ nl +:+ "SP = " +:+ pretty (sp s) +:+ nl
        +:+ "Privilege = " +:+ privilegeLevelToString (privilege_level s) +:+ nl
        +:+ "Halted = " +:+ boolToString (halted s) +:+ nl
        +:+ if_text (has_error s) ("Error = " +:+ error_message s +:+ nl)
        +:+ "Registers: " +:+ regs +:+ nl +:+ "Flags: " +:+ Flags_toString (flags s) +:+ nl).

(** One line of [toFullString]: two spaces, a name and a value. *)
Definition line (name value : string) : string := "  " +:+ name +:+ value +:+ nl.
Definition none_line : string := "  None" +:+ nl.

(** [has ? (name = value) : text.empty() ? nothing : (name = <unavailable>)] *)
Definition available_line (has : bool) (name text : string) (value : Z) : string :=
  if has then line name (text +:+ " = " +:+ pretty value)
  else nonempty_text text (line name (text +:+ " = <unavailable>")).

Definition alu_section (d : ALUTraceDetail) : string :=
  "ALU Trace Detail:" +:+ nl
  +:+ (if negb (al_active d) then none_line
       else line "Operation: " (al_operation d)
            +:+ nonempty_text (al_destination d) (line "Destination: " (al_destination d))
            +:+ available_line (al_has_lhs d) "LHS " (al_lhs_text d) (al_lhs d)
            +:+ available_line (al_has_rhs d) "RHS " (al_rhs_text d) (al_rhs d)
            +:+ if_text (al_has_result d) (line "Result: " (pretty (al_result d)))
            +:+ nonempty_text (al_note d) (line "Note: " (al_note d)))
  +:+ nl.

Definition memory_section (d : MemoryTraceDetail) : string :=
  "Memory Trace Detail:" +:+ nl
  +:+ (if negb (mt_active d) then none_line
       else line "Operation: " (mt_operation d)
            +:+ available_line (mt_has_address d) "Address " (mt_address_text d) (mt_address d)
            +:+ nonempty_text (mt_route d) (line "Route: " (mt_route d))
            +:+ if_text (mt_has_value d)
                  ("  Value" +:+ nonempty_text (mt_value_text d) (" " +:+ mt_value_text d) +:+ " = " +:+ pretty (mt_value d) +:+ nl)
            +:+ nonempty_text (mt_destination d) (line "Destination: " (mt_destination d))
            +:+ nonempty_text (mt_note d) (line "Note: " (mt_note d)))
  +:+ nl.

Definition stack_section (d : StackTraceDetail) : string :=
  "Stack Trace Detail:" +:+ nl
  +:+ (if negb (sk_active d) then none_line
       else line "Operation: " (sk_operation d)
            +:+ nonempty_text (sk_operand_text d) (line "Operand: " (sk_operand_text d))
            +:+ if_text (sk_has_stack_address d) (line "Stack Address: " (pretty (sk_stack_address d)))
            +:+ if_text (sk_has_sp_change d) (line "SP: " (pretty (sk_sp_before d) +:+ " -> " +:+ pretty (sk_sp_after d)))
            +:+ if_text (sk_has_value d) (line "Value: " (pretty (sk_value d)))
            +:+ if_text (sk_has_return_address d) (line "Return Address: " (pretty (sk_return_address d)))
            +:+ nonempty_text (sk_destination d) (line "Destination: " (sk_destination d))
            +:+ if_text (sk_has_target d) (line "Target: " (pretty (sk_target d)))
            +:+ nonempty_text (sk_note d) (line "Note: " (sk_note d)))
  +:+ nl.

Definition control_flow_section (d : ControlFlowTraceDetail) : string :=
  "Control Flow Trace Detail:" +:+ nl
  +:+ (if negb (ct_active d) then none_line
       else line "Operation: " (ct_operation d)
            +:+ nonempty_text (ct_operand_text d) (line "Operand: " (ct_operand_text d))
            +:+ line "From PC: " (pretty (ct_from_pc d)) +:+ line "To PC: " (pretty (ct_to_pc d))
            +:+ if_text (ct_has_condition d) (line "Condition: " (ct_condition d))
            +:+ if_text (ct_has_taken d) (line "Taken: " (boolToString (ct_taken d)))
            +:+ if_text (ct_has_target d) (line "Target: " (pretty (ct_target d)))
            +:+ if_text (ct_has_fallthrough d) (line "Fallthrough: " (pretty (ct_fallthrough d)))
            +:+ if_text (ct_has_return_address d) (line "Return Address: " (pretty (ct_return_address d)))
            +:+ if_text (ct_has_vector d) (line "Vector: " (pretty (ct_vector d)))
            +:+ nonempty_text (ct_note d) (line "Note: " (ct_note d)))
  +:+ nl.

(** A titled list of changes, or "None". *)
Definition changes_section {A} (title : string) (f : A -> string) (l : list A) : string :=
  nl +:+ title +:+ ":" +:+ nl +:+ (if bool_decide (length l = 0%nat) then none_line else each f l).

Definition toFullString (e : TraceEvent) (a : TraceAnalysis) : outcome string :=
  let b := ev_before e in
  let s := ev_after e in
  let or_else (text other : string) := if bool_decide (text = "") then other else text in
  text ← Instruction_toString (ev_instruction e);
  before ← CPUState_summary b;
  after ← CPUState_summary s;
  mret ("[PC=" +:+ formatPc (pc b) +:+ "] " +:+ text +:+ nl +:+ nl
        +:+ "Visual Metadata:" +:+ nl
        +:+ line "Stage: " (or_else (ta_stage a) "Unknown") +:+ line "Action: " (or_else (ta_action a) "Unknown")
        +:+ line "Datapath: " (if bool_decide (ta_datapath_nodes a = []) then "None" else joinDatapathNodes (ta_datapath_nodes a))
        +:+ nl
        +:+ alu_section (ta_alu a) +:+ memory_section (ta_memory a) +:+ stack_section (ta_stack a)
        +:+ control_flow_section (ta_control_flow a)
        +:+ "Before:" +:+ nl +:+ before +:+ nl +:+ "After:" +:+ nl +:+ after
        +:+ changes_section "Changed Registers"
              (fun '(name, x, y) => line (name +:+ ": ") (pretty x +:+ " -> " +:+ pretty y)) (ta_changed_registers a)
        +:+ changes_section "Changed Flags"
              (fun '(name, x, y) => line (name +:+ ": ") (bit_text x +:+ " -> " +:+ bit_text y)) (ta_changed_flags a)
        +:+ changes_section "Changed Memory"
              (fun '(address, x, y) => line ("Memory[" +:+ pretty (Z.of_nat address) +:+ "]: ") (pretty x +:+ " -> " +:+ pretty y))
              (ta_changed_memory a)
        +:+ if_text (negb (sp b =? sp s))
              (nl +:+ "Changed Stack Pointer:" +:+ nl +:+ line "SP: " (pretty (sp b) +:+ " -> " +:+ pretty (sp s)))
        +:+ nl +:+ "NextPC:" +:+ nl +:+ line "" (formatPc (pc s))
        +:+ nl +:+ "Error:" +:+ nl
        +:+ (if TraceEvent_hasError e then line "" (ev_error_message e) else none_line)).

(** * What trace events say

    The analysis a [TraceEvent] is constructed with never throws on the events
    the binary engine records, and which accesses its memory and stack details
    show. *)

(** ** The analysis returns *)

(** What the events of the binary engine have. *)
Record event_ok (e : TraceEvent) : Prop := {
  eo_operands : real_operands (ev_instruction e);
  eo_after : length (registers (ev_after e)) = kRegisterCount;
}.

Lemma toString_total o : real_operand o -> exists t, Operand_toString o = Ret t.
Proof.
  destruct o as [reg | value | address | reg | name |]; cbn; intros Hr; try (eexists; reflexivity);
    destruct reg; try contradiction; eexists; reflexivity.
Qed.

Lemma destination_total o : real_operand o -> exists t, destination_text o = Ret t.
Proof.
  intros Hr. destruct o as [reg | value | address | reg | name |]; exact (toString_total _ Hr).
Qed.

Lemma written_total s o changed :
  length (registers s) = kRegisterCount -> real_operand o -> exists w, written_register s o changed = Ret w.
Proof.
  intros Hl Ho. unfold written_register. destruct o as [reg | value | address | reg | name |];
    try (destruct changed as [|[[name' b] v] ch]; eexists; reflexivity).
  destruct (RegisterFile_get_total _ reg Hl Ho) as (v & Hv & _). rewrite Hv. destruct reg; try contradiction; eexists; reflexivity.
Qed.

(** A statement of a [do] block that returns. *)
Lemma total_bind {A B} (m : outcome A) (f : A -> outcome B) :
  (exists a, m = Ret a) -> (forall a, exists b, f a = Ret b) -> exists b, m ≫= f = Ret b.
Proof. intros [a ->] Hf. rewrite bind_Ret. apply Hf. Qed.

Lemma total_Ret {A} (a : A) : exists b, (mret a : outcome A) = Ret b.
Proof. eexists. reflexivity. Qed.

Ltac total := repeat first
  [ apply total_Ret | apply toString_total; assumption | apply destination_total; assumption
  | apply written_total; assumption | apply total_bind; [|intros ?] | case_match ].

Section event.
Context (e : TraceEvent) (He : event_ok e).
Local Lemma real_dst : real_operand (dst (ev_instruction e)). Proof. apply (eo_operands _ He). Qed.
Local Lemma real_src : real_operand (src (ev_instruction e)). Proof. apply (eo_operands _ He). Qed.

Lemma alu_total action changed : exists d, analyzeAluDetail e action changed = Ret d.
Proof. pose proof real_dst. pose proof real_src. pose proof (eo_after _ He). unfold analyzeAluDetail. total. Qed.

Lemma memory_total action changed cm : exists d, analyzeMemoryDetail e action changed cm = Ret d.
Proof. pose proof real_dst. pose proof real_src. pose proof (eo_after _ He). unfold analyzeMemoryDetail. total. Qed.

Lemma stack_total action changed cm : exists d, analyzeStackDetail e action changed cm = Ret d.
Proof. pose proof real_dst. pose proof (eo_after _ He). unfold analyzeStackDetail. total. Qed.

Lemma control_total action cm stack : exists d, analyzeControlFlowDetail e action cm stack = Ret d.
Proof. pose proof real_dst. unfold analyzeControlFlowDetail. total. Qed.

Lemma analyze_total : exists a, TraceEvent_analyze e = Ret a.
Proof.
  unfold TraceEvent_analyze. destruct (analyzeVisualMetadata e _ _ _) as [[stage action] nodes].
  apply total_bind; [apply alu_total | intros alu]. apply total_bind; [apply memory_total | intros mem].
  apply total_bind; [apply stack_total | intros stack]. apply total_bind; [apply control_total | intros control].
  apply total_Ret.
Qed.

End event.

(** ** The access an event shows *)

(** The memory access the detail shows: only LOAD and STORE have one. *)
Definition shown_access (e : TraceEvent) : option (bool * Z) :=
  match opcode (ev_instruction e) with
  | LOAD => match tryResolveTraceMemoryAddress (ev_before e) (src (ev_instruction e)) with inl a => Some (false, a) | _ => None end
  | STORE => match tryResolveTraceMemoryAddress (ev_before e) (dst (ev_instruction e)) with inl a => Some (true, a) | _ => None end
  | _ => None
  end.

Lemma shown_detail e a : TraceEvent_analyze e = Ret a ->
  let d := ta_memory a in
  (if negb (mt_active d) || negb (mt_has_address d) || (negb (mt_is_read d) && negb (mt_is_write d)) then None
   else Some (mt_is_write d, mt_address d)) = shown_access e.
Proof.
  unfold TraceEvent_analyze. destruct (analyzeVisualMetadata e _ _ _) as [[stage action] nodes]. intros E.
  apply bind_ret_inv in E as (alu & _ & E). apply bind_ret_inv in E as (mem & Hm & E). apply bind_ret_inv in E as (stack & _ & E).
  apply bind_ret_inv in E as (control & _ & E). injection E as <-. cbn [ta_memory]. unfold shown_access.
  unfold analyzeMemoryDetail in Hm. destruct (opcode (ev_instruction e)); try (injection Hm as <-; reflexivity).
  - apply bind_ret_inv in Hm as (t & _ & Hm). apply bind_ret_inv in Hm as (w & _ & Hm). injection Hm as <-.
    destruct (tryResolveTraceMemoryAddress _ _); reflexivity.
  - apply bind_ret_inv in Hm as (t & _ & Hm). apply bind_ret_inv in Hm as (w & _ & Hm). injection Hm as <-.
    destruct (tryResolveTraceMemoryAddress _ _); reflexivity.
Qed.

(** ** Memory changes and stack details *)

Lemma find_change_seq (before after : list Z) n : forall s a,
  findMemoryChangeAt (omap (fun address =>
      if negb (at_ before address =? at_ after address) then Some (address, at_ before address, at_ after address) else None)
    (seq s n)) (Z.of_nat a) =
  if decide (s <= a < s + n)%nat then if at_ before a =? at_ after a then None else Some (at_ after a) else None.
Proof.
  unfold findMemoryChangeAt. induction n as [|n IH]; intros s a; cbn [seq omap list_omap].
  - rewrite decide_False by lia. reflexivity.
  - specialize (IH (S s) a). destruct (Z.eqb_spec (at_ before s) (at_ after s)) as [E|E]; cbn [negb].
    + rewrite IH. destruct (decide (a = s)) as [->|Hne].
      * rewrite decide_False by lia. rewrite decide_True by lia. rewrite (proj2 (Z.eqb_eq _ _) E). reflexivity.
      * repeat case_decide; lia || reflexivity.
    + cbn [list_find]. destruct (decide (Z.of_nat s = Z.of_nat a)) as [Heq|Hne].
      * apply Nat2Z.inj in Heq as ->. rewrite decide_True by lia. rewrite (proj2 (Z.eqb_neq _ _) E). reflexivity.
      * destruct (list_find _ (omap _ (seq (S s) n))) as [[i [[b x] y]]|]; cbn in IH |- *;
          (etransitivity; [exact IH|]); repeat case_decide; lia || reflexivity.
Qed.

(** The change recorded at an address is the new byte there, if it is another one. *)
Lemma find_change e a :
  0 <= a < Memory_size (memory (ev_before e)) -> length (memory (ev_after e)) = length (memory (ev_before e)) ->
  findMemoryChangeAt (analyzeMemoryChanges e) a =
    let old := at_ (memory (ev_before e)) (Z.to_nat a) in
    let new := at_ (memory (ev_after e)) (Z.to_nat a) in
    if old =? new then None else Some new.
Proof.
  intros Ha Hl. unfold analyzeMemoryChanges. replace a with (Z.of_nat (Z.to_nat a)) at 1 by lia.
  rewrite find_change_seq, decide_True; [reflexivity|]. unfold Memory_size in Ha. rewrite Hl. lia.
Qed.

Lemma write_low_byte m a v m' : Memory_write m a v = Ret m' -> 0 <= a -> at_ m' (Z.to_nat a) = v mod 2 ^ 8.
Proof.
  intros Hw Ha. unfold Memory_write, Memory_writeI64, Memory_writeU64 in Hw. apply bind_ret_inv in Hw as (u & Hr & Hw).
  apply checkRange_inv in Hr as [_ Hr]; [|exact Ha]. injection Hw as <-.
  pose proof (at_store_in m (Z.to_nat a) 8 (fun i => byte_at (u64 v) (8 * Z.of_nat i)) 0) as Hb.
  rewrite Nat.add_0_r in Hb. rewrite Hb; [|lia | unfold Memory_size in Hr; lia].
  cbn. rewrite byte_at_div by lia. cbn. rewrite Z.div_1_r. unfold u64. rewrite <- Znumtheory.Zmod_div_mod; [reflexivity | lia | lia|].
  exists (2 ^ 56). reflexivity.
Qed.

Lemma write_keeps_length m a v m' : Memory_write m a v = Ret m' -> length m' = length m.
Proof.
  intros Hw. unfold Memory_write, Memory_writeI64 in Hw. exact (writeU64_size _ _ _ _ _ Hw).
Qed.

(** The details of a CALL that pushed a return address. *)
Lemma call_details e a ra :
  TraceEvent_analyze e = Ret a -> opcode (ev_instruction e) = CALL -> 0 <= sp (ev_before e) ->
  Memory_write (memory (ev_before e)) (sp (ev_before e)) ra = Ret (memory (ev_after e)) ->
  let old := at_ (memory (ev_before e)) (Z.to_nat (sp (ev_before e))) in
  let low := ra mod 2 ^ 8 in
  sk_has_return_address (ta_stack a) = negb (old =? low) /\ ct_has_return_address (ta_control_flow a) = negb (old =? low) /\
  (old <> low -> sk_return_address (ta_stack a) = low /\ sk_value (ta_stack a) = low /\ ct_return_address (ta_control_flow a) = low).
Proof.
  intros Ha Hop Hsp Hw old low.
  assert (Hfind : findMemoryChangeAt (analyzeMemoryChanges e) (sp (ev_before e)) = if old =? low then None else Some low).
  { rewrite find_change.
    - cbv zeta. rewrite (write_low_byte _ _ _ _ Hw Hsp). reflexivity.
    - split; [exact Hsp|]. unfold Memory_write, Memory_writeI64, Memory_writeU64 in Hw. apply bind_ret_inv in Hw as (u & Hr & _).
      apply checkRange_inv in Hr as [_ Hr]; [lia | exact Hsp].
    - exact (write_keeps_length _ _ _ _ Hw). }
  unfold TraceEvent_analyze in Ha. destruct (analyzeVisualMetadata e _ _ _) as [[stage action] nodes].
  apply bind_ret_inv in Ha as (alu & _ & Ha). apply bind_ret_inv in Ha as (mem & _ & Ha). apply bind_ret_inv in Ha as (stack & Hs & Ha).
  apply bind_ret_inv in Ha as (control & Hc & Ha). injection Ha as <-. cbn [ta_stack ta_control_flow].
  unfold analyzeStackDetail in Hs. rewrite Hop in Hs. cbn [isStackTraceOpcode negb] in Hs. cbv zeta in Hs. rewrite Hfind in Hs.
  apply bind_ret_inv in Hs as (text & _ & Hs). injection Hs as Hs.
  unfold analyzeControlFlowDetail in Hc. rewrite Hop in Hc. cbn [isControlFlowTraceOpcode negb] in Hc. cbv zeta in Hc.
  apply bind_ret_inv in Hc as (text' & _ & Hc). injection Hc as Hc. unfold pushed_address in Hc. rewrite Hfind in Hc.
  assert (Hlow : 0 <= low < 256) by (apply Z.mod_pos_bound; lia).
  subst stack control. destruct (old =? low) eqn:E; cbn.
  - split; [reflexivity | split; [reflexivity|]]. apply Z.eqb_eq in E. contradiction.
  - split; [reflexivity | split; [reflexivity|]]. rewrite u64_small by words. auto.
Qed.

(** The return address a trace shows.  For a CALL that pushed its return
    address, the stack detail and the control-flow detail look for a change of the
    memory byte at the stack slot, because memory is compared byte by byte.  So
    they show the lowest byte of the return address, and nothing when that byte
    was there before: what they show is the return address the CPU pushed only
    when the address is below 256, where no code is. *)
Theorem trace_return_address_is_low_byte (e : TraceEvent) (return_address : Z)
    (He : event_ok e) (Hop : opcode (ev_instruction e) = CALL) (Hsp : 0 <= sp (ev_before e))
    (Hpush : Memory_write (memory (ev_before e)) (sp (ev_before e)) return_address = Ret (memory (ev_after e))) :
  exists a, TraceEvent_analyze e = Ret a /\
    (sk_has_return_address (ta_stack a) = true -> sk_return_address (ta_stack a) = return_address mod 256) /\
    (ct_has_return_address (ta_control_flow a) = true -> ct_return_address (ta_control_flow a) = return_address mod 256) /\
    (sk_has_return_address (ta_stack a) = true <->
     at_ (memory (ev_before e)) (Z.to_nat (sp (ev_before e))) <> return_address mod 256) /\
    (256 <= return_address -> sk_has_return_address (ta_stack a) = true -> sk_return_address (ta_stack a) <> return_address).
Proof.
  destruct (analyze_total e He) as [a Ha]. exists a. split; [exact Ha|].
  destruct (call_details e a return_address Ha Hop Hsp Hpush) as (Hs & Hc & Hv). cbv zeta in *.
  change (2 ^ 8) with 256 in *. rewrite Hs, Hc, negb_true_iff, Z.eqb_neq.
  split; [intros E; apply (Hv E)|]. split; [intros E; apply (Hv E)|]. split; [reflexivity|].
  intros Hra E. destruct (Hv E) as [-> _]. pose proof (Z.mod_pos_bound return_address 256). lia.
Qed.

(** ** Witnesses *)

(** CALL at 608, as in the documentation of the details. *)
Definition sample_call : TraceEvent :=
  {| ev_before := {| pc := 608; sp := 8; registers := RegisterFile_reset; flags := 0; memory := replicate 24 0;
                     halted := false; has_error := false; error_message := ""; privilege_level := User |};
     ev_instruction := {| opcode := CALL; dst := immediate 656; src := none |};
     ev_after := {| pc := 656; sp := 16; registers := RegisterFile_reset; flags := 0;
                    memory := replicate 8 0 ++ [120; 2; 0; 0; 0; 0; 0; 0] ++ replicate 8 0;
                    halted := false; has_error := false; error_message := ""; privilege_level := User |};
     ev_error_message := "" |}.

Lemma trace_return_address_is_low_byte_witness :
  Memory_write (memory (ev_before sample_call)) 8 632 = Ret (memory (ev_after sample_call)) /\
  exists a, TraceEvent_analyze sample_call = Ret a /\ sk_has_return_address (ta_stack a) = true /\
    sk_return_address (ta_stack a) = 120 /\ ct_return_address (ta_control_flow a) = 120.
Proof.
  split; [reflexivity|].
  destruct (trace_return_address_is_low_byte sample_call 632) as (a & Ha & Hs & Hc & Hh & _).
  - constructor; [split; exact Logic.I | reflexivity].
  - reflexivity.
  - cbn. lia.
  - reflexivity.
  - exists a. split; [exact Ha|]. assert (Ht : sk_has_return_address (ta_stack a) = true) by (apply Hh; discriminate).
    split; [exact Ht|]. split; [exact (Hs Ht)|]. apply Hc.
    vm_compute in Ha. injection Ha as <-. reflexivity.
Defined.
