(* ===== verification/DebugCondition.v ===== *)
(** * Conditions of breakpoints: [src/debug/DebugCondition.cpp]

    A condition compares a register, a flag, a pointer or a word of memory with a
    number.  It is parsed from three words and evaluated on a CPU. *)

From S2P Require Import Prelude Words Strings Text ALU Memory ISA CPUState CPU Assembler.
Open Scope Z_scope.

Inductive DebugConditionSourceKind :=
  | SK_Register | SK_ProgramCounter | SK_StackPointer | SK_FlagsRaw | SK_ZeroFlag | SK_SignFlag | SK_CarryFlag
  | SK_OverflowFlag | SK_MemoryQword.

Inductive DebugComparisonOperator := Op_Equal | Op_NotEqual | Op_Less | Op_LessEqual | Op_Greater | Op_GreaterEqual.

#[export] Instance DebugConditionSourceKind_eq_dec : EqDecision DebugConditionSourceKind.
Proof. solve_decision. Defined.
#[export] Instance DebugComparisonOperator_eq_dec : EqDecision DebugComparisonOperator.
Proof. solve_decision. Defined.

Definition debugComparisonOperatorToString (o : DebugComparisonOperator) : string :=
  match o with
  | Op_Equal => "==" | Op_NotEqual => "!=" | Op_Less => "<" | Op_LessEqual => "<=" | Op_Greater => ">"
  | Op_GreaterEqual => ">="
  end.

Record DebugCondition := {
  source_kind : DebugConditionSourceKind;
  register_name : RegisterName;
  memory_address : Z;
  operation : DebugComparisonOperator;
  expected_value : Z;
  source_text : string;
  expression : string;
}.

#[export] Instance DebugCondition_eq_dec : EqDecision DebugCondition.
Proof. solve_decision. Defined.

(** ** Evaluation *)

Definition DebugCondition_validateForCPU (d : DebugCondition) (c : CPU) : outcome unit :=
  if negb (bool_decide (source_kind d = SK_MemoryQword)) then mret tt
  else
    let memorySize := Memory_size (memory (state c)) in
    throw_if ((memory_address d >=? memorySize) || (8 >? memorySize - memory_address d))
      (RuntimeError "Condition memory qword is outside process memory").

Definition DebugCondition_actualValue (d : DebugCondition) (c : CPU) : outcome Z :=
  let s := state c in
  match source_kind d with
  | SK_Register => RegisterFile_get (registers s) (register_name d)
  | SK_ProgramCounter =>
      if pc s >? INT64_MAX then throw (RuntimeError "PC does not fit in int64") else mret (i64 (pc s))
  | SK_StackPointer =>
      if sp s >? INT64_MAX then throw (RuntimeError "SP does not fit in int64") else mret (i64 (sp s))
  | SK_FlagsRaw => mret (flags s)
  | SK_ZeroFlag => mret (Z.b2z (Flags_zero (flags s)))
  | SK_SignFlag => mret (Z.b2z (Flags_sign (flags s)))
  | SK_CarryFlag => mret (Z.b2z (Flags_carry (flags s)))
  | SK_OverflowFlag => mret (Z.b2z (Flags_overflow (flags s)))
  | SK_MemoryQword => _ ← DebugCondition_validateForCPU d c; Memory_readI64 (memory s) (memory_address d) Little
  end.

Definition compare_values (o : DebugComparisonOperator) (actual expected : Z) : bool :=
  match o with
  | Op_Equal => actual =? expected
  | Op_NotEqual => negb (actual =? expected)
  | Op_Less => actual <? expected
  | Op_LessEqual => actual <=? expected
  | Op_Greater => actual >? expected
  | Op_GreaterEqual => actual >=? expected
  end.

Definition DebugCondition_evaluate (d : DebugCondition) (c : CPU) : outcome bool :=
  actual ← DebugCondition_actualValue d c;
  mret (compare_values (operation d) actual (expected_value d)).

(** ** Parsing *)

(** [try { ...; } catch (const std::runtime_error&) { throw; } catch (...) { throw std::runtime_error(message); }]
    around a number that has to be the whole text: every failure is reported with
    the same message. *)
Definition whole_number (read : outcome (Z * nat)) (text message : string) : outcome Z :=
  match read with
  | Ret (value, parsed) => if (parsed =? String.length text)%nat then mret value else throw (RuntimeError message)
  | Throw _ => throw (RuntimeError message)
  end.

Definition parseSignedValue (text : string) : outcome Z :=
  if empty text then throw (RuntimeError "Condition value is empty")
  else whole_number (stoll read_magnitude text) text "Condition value must be an integer".

(** [std::stoull] with base 0. *)
Definition parseConditionAddress (text : string) : outcome Z :=
  let message := "Condition memory address must be a non-negative integer" in
  if empty text || front_is "-"%char text then throw (RuntimeError message)
  else whole_number (stoull read_magnitude text) text message.

Definition parseOperator (text : string) : outcome DebugComparisonOperator :=
  if bool_decide (text = "==") then mret Op_Equal
  else if bool_decide (text = "!=") then mret Op_NotEqual
  else if bool_decide (text = "<") then mret Op_Less
  else if bool_decide (text = "<=") then mret Op_LessEqual
  else if bool_decide (text = ">") then mret Op_Greater
  else if bool_decide (text = ">=") then mret Op_GreaterEqual
  else throw (RuntimeError "Condition operator must be one of ==, !=, <, <=, >, >=").

(** False is [None].  [std::stoul], on 64-bit [unsigned long], throws what
    [stoull] does: [std::out_of_range] for a number that does not fit. *)
Definition parseConditionRegister (source : string) : outcome (option RegisterName) :=
  match source with
  | String "R" indexText =>
      if empty indexText || negb (all_chars isdigit indexText) then mret None
      else
        match stoull read_decimal indexText with
        | Throw _ => throw (OutOfRange "stoul")
        | Ret (index, parsed) =>
            if negb (parsed =? String.length indexText)%nat || (index >=? Z.of_nat kRegisterCount)
            then throw (RuntimeError "Condition register is out of range")
            else mret (Some (register_of_index (Z.to_nat index)))
        end
  | _ => mret None
  end.

Definition kMemoryPrefix : string := "MEMORY[".

(** [source.substr(prefix.size(), source.size() - prefix.size() - 1)] *)
Definition between_brackets (source : string) : string :=
  String.substring (String.length kMemoryPrefix) (String.length source - String.length kMemoryPrefix - 1) source.

Definition is_memory_source (upper : string) : bool :=
  (String.length kMemoryPrefix <? String.length upper)%nat && String.prefix kMemoryPrefix upper
  && bool_decide (String.get (String.length upper - 1) upper = Some "]"%char).

Definition parse_source (source : string) : outcome (DebugConditionSourceKind * RegisterName * Z * string) :=
  let upper := toUpper source in
  reg ← parseConditionRegister upper;
  match reg with
  | Some reg => mret (SK_Register, reg, 0, upper)
  | None =>
      if bool_decide (upper = "PC") then mret (SK_ProgramCounter, R0, 0, "PC")
      else if bool_decide (upper = "SP") then mret (SK_StackPointer, R0, 0, "SP")
      else if bool_decide (upper = "FLAGS") then mret (SK_FlagsRaw, R0, 0, "FLAGS")
      else if bool_decide (upper = "ZF") then mret (SK_ZeroFlag, R0, 0, "ZF")
      else if bool_decide (upper = "SF") then mret (SK_SignFlag, R0, 0, "SF")
      else if bool_decide (upper = "CF") then mret (SK_CarryFlag, R0, 0, "CF")
      else if bool_decide (upper = "OF") then mret (SK_OverflowFlag, R0, 0, "OF")
      else if negb (is_memory_source upper)
      then throw (RuntimeError "Condition source must be R0-R7, PC, SP, FLAGS, ZF, SF, CF, OF, or memory[address]")
      else
        address ← parseConditionAddress (between_brackets source);
        mret (SK_MemoryQword, R0, address, "memory[" +:+ pretty address +:+ "]")
  end.

Definition parseDebugCondition (source operation value : string) : outcome DebugCondition :=
  _ ← throw_if (empty source) (RuntimeError "Condition source is empty");
  op ← parseOperator operation;
  expected ← parseSignedValue value;
  '(kind, reg, address, text) ← parse_source source;
  mret {| source_kind := kind; register_name := reg; memory_address := address; operation := op;
          expected_value := expected; source_text := text;
          expression := text +:+ " " +:+ debugComparisonOperatorToString op +:+ " " +:+ pretty expected |}.

(** * What a parsed condition is

    [parseDebugCondition] gives typed conditions, and the text a condition is
    shown as parses back to the condition. *)

#[local] Arguments String.append : simpl nomatch.

(** ** Upper case *)

Lemma toupper_idem ch : toupper (toupper ch) = toupper ch.
Proof. destruct ch as [[] [] [] [] [] [] [] []]; reflexivity. Qed.

Lemma toUpper_idem s : toUpper (toUpper s) = toUpper s.
Proof. induction s as [|c s IH]; cbn; [|rewrite toupper_idem, IH]; reflexivity. Qed.

Lemma toUpper_app s t : toUpper (s +:+ t) = toUpper s +:+ toUpper t.
Proof. induction s as [|c s IH]; cbn; [|rewrite IH]; reflexivity. Qed.

Lemma toUpper_digits s : all_chars isdigit s = true -> toUpper s = s.
Proof.
  induction s as [|c s IH]; cbn; [reflexivity|]. intros Hs. apply andb_true_iff in Hs as [Hc Hs]. rewrite IH by exact Hs.
  f_equal. revert Hc. destruct c as [[] [] [] [] [] [] [] []]; vm_compute; congruence.
Qed.

(** ** The text of an address *)

(** A printed address consists of digits. *)
Lemma pretty_address a : 0 <= a -> all_chars isdigit (pretty a) = true /\ pretty a <> EmptyString.
Proof.
  intros Ha. destruct (read_pretty read_decimal (Z.to_N a)) as (_ & Hd & Hne).
  replace (pretty a) with (pretty (Z.to_N a)); [auto|]. destruct a as [|p|p]; [reflexivity | reflexivity | lia].
Qed.

Lemma digits_front s : all_chars isdigit s = true -> s <> EmptyString -> empty s = false /\ front_is "-"%char s = false.
Proof.
  destruct s as [|c s]; [contradiction|]. cbn. intros Hs _. apply andb_true_iff in Hs as [Hc _]. split; [reflexivity|].
  apply bool_decide_eq_false. intros ->. discriminate Hc.
Qed.

Lemma parse_pretty_address a : is_u64 a -> parseConditionAddress (pretty a) = Ret a.
Proof.
  intros Ha. destruct (pretty_address a) as [Hd Hne]; [words|]. destruct (digits_front _ Hd Hne) as [He Hf].
  unfold parseConditionAddress. rewrite He, Hf. cbn [orb]. unfold whole_number.
  rewrite (stoull_pretty read_magnitude a Ha), Nat.eqb_refl. reflexivity.
Qed.

Lemma parse_pretty_value v : is_i64 v -> parseSignedValue (pretty v) = Ret v.
Proof.
  intros Hv. unfold parseSignedValue, whole_number. rewrite (stoll_pretty read_magnitude v Hv), Nat.eqb_refl.
  assert (Hne : empty (pretty v) = false).
  { destruct v as [|p|p]; [reflexivity | | reflexivity]. destruct (pretty_address (Zpos p)) as [Hd Hne]; [lia|].
    apply (digits_front _ Hd Hne). }
  rewrite Hne. reflexivity.
Qed.

Lemma whole_number_range (P : Z -> Prop) read text message v :
  (forall v n, read = Ret (v, n) -> P v) -> whole_number read text message = Ret v -> P v.
Proof.
  intros Hp. unfold whole_number. destruct read as [[w n]|e]; [|discriminate]. destruct (_ =? _)%nat; [|discriminate].
  intros [= <-]. eapply Hp. reflexivity.
Qed.

Lemma read_magnitude_nonneg s : 0 <= (read_magnitude s).1.
Proof.
  destruct s as [|c s]; [cbn; lia|]. unfold read_magnitude. repeat case_match; try (apply read_digits_nonneg; lia).
  simpl. match goal with E : read_digits 16 ?s 0 0 = (?v, _) |- _ =>
    pose proof (read_digits_nonneg 16 s 0 0); rewrite E in *; cbn in *; lia end.
Qed.

Lemma stoull_magnitude_range text v n : stoull read_magnitude text = Ret (v, n) -> is_u64 v.
Proof.
  unfold stoull, scan_integer. destruct (span isspace text) as [spaces body].
  destruct (match body with String "-" _ => _ | _ => _ end) as [[negative digits] signs].
  pose proof (read_magnitude_nonneg digits) as Hm. destruct (read_magnitude digits) as [magnitude count].
  destruct (count =? 0)%nat; [discriminate|]. destruct (magnitude >? UINT64_MAX) eqn:E; [discriminate|].
  intros [= <- <-]. facts. cbn in Hm. destruct negative; [apply u64_range | words].
Qed.

Lemma parseConditionAddress_range text a : parseConditionAddress text = Ret a -> is_u64 a.
Proof.
  unfold parseConditionAddress. destruct (_ || _); [discriminate|]. apply whole_number_range, stoull_magnitude_range.
Qed.

Lemma parseSignedValue_range text v : parseSignedValue text = Ret v -> is_i64 v.
Proof. unfold parseSignedValue. destruct (empty text); [discriminate|]. apply whole_number_range, stoll_range. Qed.

(** ** Sources *)

Lemma substring_all s : String.substring 0 (String.length s) s = s.
Proof. induction s as [|c s IH]; cbn; [|rewrite IH]; reflexivity. Qed.

(** The canonical source of a word of memory. *)
Lemma parse_source_memory a :
  is_u64 a -> parse_source ("memory[" +:+ pretty a +:+ "]") = Ret (SK_MemoryQword, R0, a, "memory[" +:+ pretty a +:+ "]").
Proof.
  intros Ha. destruct (pretty_address a) as [Hd Hne]; [words|]. unfold parse_source.
  replace (toUpper ("memory[" +:+ pretty a +:+ "]")) with (kMemoryPrefix +:+ pretty a +:+ "]")
    by (rewrite !toUpper_app, (toUpper_digits _ Hd); reflexivity).
  change (parseConditionRegister (kMemoryPrefix +:+ pretty a +:+ "]")) with (mret None : outcome (option RegisterName)).
  rewrite bind_Ret. repeat (rewrite bool_decide_eq_false_2 by (cbn; congruence)).
  assert (Hm : is_memory_source (kMemoryPrefix +:+ pretty a +:+ "]") = true).
  { unfold is_memory_source. rewrite !string_length_app. cbn [String.length].
    apply andb_true_iff. split; [apply andb_true_iff; split; [apply Nat.ltb_lt; cbn; lia|]|].
    - cbn. destruct (pretty a); reflexivity.
    - apply bool_decide_eq_true. rewrite append_assoc.
      replace (String.length kMemoryPrefix + (String.length (pretty a) + 1) - 1)%nat
        with (String.length (kMemoryPrefix +:+ pretty a)) by (rewrite string_length_app; cbn; lia).
      apply get_last. }
  rewrite Hm. cbn [negb].
  assert (Hb : between_brackets ("memory[" +:+ pretty a +:+ "]") = pretty a).
  { unfold between_brackets. rewrite !string_length_app.
    change (String.length kMemoryPrefix) with 7%nat. change (String.length "memory[") with 7%nat.
    change (String.length "]") with 1%nat. replace (7 + (String.length (pretty a) + 1) - 7 - 1)%nat with (String.length (pretty a)) by lia.
    cbn [String.append String.substring]. apply substring_prefix. }
  rewrite Hb, parse_pretty_address by exact Ha. reflexivity.
Qed.

(** What the parser makes of a source is read back from its text. *)
Lemma parse_source_canonical source kind reg address text :
  parse_source source = Ret (kind, reg, address, text) ->
  parse_source text = Ret (kind, reg, address, text) /\ is_u64 address /\ reg <> Count /\ empty text = false.
Proof.
  unfold parse_source at 1. intros E. apply bind_ret_inv in E as (r & Hr & E). destruct r as [r|].
  - injection E as <- <- <- <-. unfold parse_source. rewrite toUpper_idem, Hr, bind_Ret. split; [reflexivity|].
    split; [words|]. unfold parseConditionRegister in Hr.
    destruct (toUpper source) as [|c s]; [discriminate Hr|]. split; [|reflexivity].
    destruct c as [[] [] [] [] [] [] [] []]; try discriminate Hr. destruct (_ || _); [discriminate Hr|].
    destruct (stoull read_decimal s) as [[index parsed]|e] eqn:Es; [|discriminate Hr].
    destruct (_ || _) eqn:Eo; [discriminate Hr|]. injection Hr as <-. apply stoull_range in Es. facts.
    change (Z.of_nat kRegisterCount) with 8 in *. assert (Hi : (Z.to_nat index < 8)%nat) by words.
    revert Hi. generalize (Z.to_nat index) as i. intros i Hi. do 8 (destruct i as [|i]; [discriminate|]). lia.
  - repeat (case_bool_decide; [injection E as <- <- <- <-; split; [reflexivity|]; split; [words|]; split; [discriminate | reflexivity]|]).
    destruct (negb _); [discriminate E|]. apply bind_ret_inv in E as (a & Ha & E). injection E as <- <- <- <-.
    apply parseConditionAddress_range in Ha. split; [apply parse_source_memory, Ha|]. repeat split; [words | words | discriminate].
Qed.

Lemma parseOperator_canonical o : parseOperator (debugComparisonOperatorToString o) = Ret o.
Proof. destruct o; reflexivity. Qed.

(** ** Property *)

(** A condition that parses has a register that exists, an address and a
    value of their types, and its text is its source, operator and value; and
    parsing that text gives the same condition. *)
Theorem condition_roundtrip (source operation_text value : string) (d : DebugCondition) :
  parseDebugCondition source operation_text value = Ret d ->
  is_u64 (memory_address d) /\ is_i64 (expected_value d) /\ register_name d <> Count /\
  expression d = source_text d +:+ " " +:+ debugComparisonOperatorToString (operation d) +:+ " " +:+ pretty (expected_value d) /\
  parseDebugCondition (source_text d) (debugComparisonOperatorToString (operation d)) (pretty (expected_value d)) = Ret d.
Proof.
  intros E. unfold parseDebugCondition in E. apply bind_ret_inv in E as ([] & _ & E).
  apply bind_ret_inv in E as (op & Ho & E). apply bind_ret_inv in E as (v & Hv & E).
  apply bind_ret_inv in E as ([[[kind reg] address] text] & Hs & E). injection E as <-. cbn.
  apply parse_source_canonical in Hs as (Hs & Ha & Hr & He). apply parseSignedValue_range in Hv.
  repeat split; auto; try apply Ha; try apply Hv. unfold parseDebugCondition. rewrite He. cbn [throw_if].
  rewrite bind_Ret, parseOperator_canonical, bind_Ret, (parse_pretty_value _ Hv), bind_Ret, Hs. reflexivity.
Qed.

Example condition_roundtrip_witness :
  exists d, parseDebugCondition "memory[0x1F0]" ">=" "-7" = Ret d /\ expression d = "memory[496] >= -7" /\
    parseDebugCondition (source_text d) ">=" "-7" = Ret d.
Proof.
  eexists. split; [vm_compute; reflexivity|]. split; [reflexivity|].
  apply (condition_roundtrip "memory[0x1F0]" ">=" "-7"). vm_compute. reflexivity.
Defined.
