(* ===== verification/DebugSymbols.v ===== *)
(** * Debug symbols: [src/debug/DebugSymbols.cpp]

    Names of code and data addresses and the source line of each instruction:
    made from an assembled program, written to and read from a text file, and
    looked up by the debugger.  Files are texts here; opening them is left to the
    caller. *)

From stdpp Require Import sorting.
From Stdlib Require Import Sorted.
From S2P Require Import Prelude Words Strings Text ALU Memory ISA Binary Assembler AssemblerLaws.
Open Scope Z_scope.

#[local] Arguments String.append : simpl nomatch.

(** ** Data *)

Inductive DebugSymbolKind := Code | Data.

#[export] Instance DebugSymbolKind_eq_dec : EqDecision DebugSymbolKind.
Proof. solve_decision. Defined.

Definition debugSymbolKindToString (kind : DebugSymbolKind) : string :=
  match kind with Code => "CODE" | Data => "DATA" end.

Record DebugSymbol := { dy_kind : DebugSymbolKind; dy_name : string; dy_address : Z }.
Record DebugSourceLocation := { sl_address : Z; sl_line : Z }.

#[export] Instance DebugSymbol_eq_dec : EqDecision DebugSymbol.
Proof. solve_decision. Defined.
#[export] Instance DebugSourceLocation_eq_dec : EqDecision DebugSourceLocation.
Proof. solve_decision. Defined.

(** [sy_indices] finds an entry by its name. *)
Record DebugSymbols := {
  sy_entries : list DebugSymbol;
  sy_indices : gmap string nat;
  sy_source_path : string;
  sy_source_locations : list DebugSourceLocation;
}.

Definition no_symbols : DebugSymbols :=
  {| sy_entries := []; sy_indices := ∅; sy_source_path := ""; sy_source_locations := [] |}.

(** [operator==] does not look at the index. *)
Definition DebugSymbols_eqb (s t : DebugSymbols) : bool :=
  bool_decide (sy_entries s = sy_entries t) && bool_decide (sy_source_path s = sy_source_path t)
  && bool_decide (sy_source_locations s = sy_source_locations t).

(** ** Queries *)

Definition DebugSymbols_empty (s : DebugSymbols) : bool := bool_decide (sy_entries s = []).
Definition DebugSymbols_size (s : DebugSymbols) : nat := length (sy_entries s).
Definition DebugSymbols_has (name : string) (s : DebugSymbols) : bool := bool_decide (is_Some (sy_indices s !! name)).

(** [entries_.at(index)] *)
Definition entry_at (s : DebugSymbols) (index : nat) : outcome DebugSymbol :=
  match sy_entries s !! index with Some symbol => mret symbol | None => throw (OutOfRange "vector::at") end.

Definition has_kind (kind : DebugSymbolKind) (name : string) (s : DebugSymbols) : outcome bool :=
  match sy_indices s !! name with
  | None => mret false
  | Some index => symbol ← entry_at s index; mret (bool_decide (dy_kind symbol = kind))
  end.
Definition DebugSymbols_hasCode := has_kind Code.
Definition DebugSymbols_hasData := has_kind Data.

Definition resolve_kind (kind : DebugSymbolKind) (what : string) (name : string) (s : DebugSymbols) : outcome Z :=
  match sy_indices s !! name with
  | None => throw (RuntimeError ("Unknown debug symbol: " +:+ name))
  | Some index =>
      symbol ← entry_at s index;
      _ ← throw_if (negb (bool_decide (dy_kind symbol = kind)))
            (RuntimeError ("Debug symbol is not a " +:+ what +:+ " label: " +:+ name));
      mret (dy_address symbol)
  end.
Definition DebugSymbols_resolveCode := resolve_kind Code "code".
Definition DebugSymbols_resolveData := resolve_kind Data "data".

Definition DebugSymbols_hasSourceLocations (s : DebugSymbols) : bool := negb (bool_decide (sy_source_locations s = [])).

Definition DebugSymbols_resolveSourceLine (line : Z) (s : DebugSymbols) : outcome Z :=
  _ ← throw_if (line =? 0) (RuntimeError "Source line must be greater than zero");
  match list_find (fun l => sl_line l = line) (sy_source_locations s) with
  | Some (_, l) => mret (sl_address l)
  | None => throw (RuntimeError ("Unknown executable source line: " +:+ pretty line))
  end.

Definition DebugSymbols_sourceLineForAddress (address : Z) (s : DebugSymbols) : outcome Z :=
  match list_find (fun l => sl_address l = address) (sy_source_locations s) with
  | Some (_, l) => mret (sl_line l)
  | None => throw (RuntimeError ("No source line for executable address: " +:+ pretty address))
  end.

Definition debugSymbolsPathForExecutable (executablePath : string) : string := executablePath +:+ ".zsym".

(** ** Construction *)

Definition isValidSymbolName (name : string) : bool :=
  match name with
  | EmptyString => false
  | String first _ =>
      (isalpha first || bool_decide (first = "_"%char)) && all_chars (fun ch => isalnum ch || bool_decide (ch = "_"%char)) name
  end.

Definition DebugSymbols_add (kind : DebugSymbolKind) (name : string) (address : Z) (s : DebugSymbols) : outcome DebugSymbols :=
  _ ← throw_if (negb (isValidSymbolName name)) (RuntimeError ("Invalid debug symbol name: " +:+ name));
  _ ← throw_if (DebugSymbols_has name s) (RuntimeError ("Duplicate debug symbol: " +:+ name));
  mret {| sy_entries := sy_entries s ++ [{| dy_kind := kind; dy_name := name; dy_address := address |}];
          sy_indices := <[name := length (sy_entries s)]> (sy_indices s);
          sy_source_path := sy_source_path s; sy_source_locations := sy_source_locations s |}.

(** The loop over the existing locations: the first one that agrees decides. *)
Definition DebugSymbols_addSourceLocation (address line : Z) (s : DebugSymbols) : outcome DebugSymbols :=
  _ ← throw_if (line =? 0) (RuntimeError "Source line must be greater than zero");
  _ ← match list_find (fun l => sl_address l = address \/ sl_line l = line) (sy_source_locations s) with
      | Some (_, l) =>
          throw (RuntimeError (if sl_address l =? address then "Duplicate source address: " +:+ pretty address
                               else "Duplicate executable source line: " +:+ pretty line))
      | None => mret tt
      end;
  mret {| sy_entries := sy_entries s; sy_indices := sy_indices s; sy_source_path := sy_source_path s;
          sy_source_locations := sy_source_locations s ++ [{| sl_address := address; sl_line := line |}] |}.

Definition set_source_path (path : string) (s : DebugSymbols) : DebugSymbols :=
  {| sy_entries := sy_entries s; sy_indices := sy_indices s; sy_source_path := path;
     sy_source_locations := sy_source_locations s |}.

(** A loop that updates the symbols for every element. *)
Fixpoint add_each {A} (f : A -> DebugSymbols -> outcome DebugSymbols) (l : list A) (s : DebugSymbols)
    : outcome DebugSymbols :=
  match l with [] => mret s | x :: l => s ← f x s; add_each f l s end.

(** [std::sort] on the pairs of a table, whose names are distinct. *)
Definition name_le (x y : string * Z) : Prop := string_le x.1 y.1.
#[export] Instance name_le_dec : RelDecision name_le.
Proof. intros x y. unfold name_le. apply _. Defined.
Definition sorted_labels (labels : LabelTable) : list (string * Z) := merge_sort name_le (map_to_list labels).

(** The address of the instruction with an index, when it fits. *)
Definition code_address (codeBase index : Z) (message : string) : outcome Z :=
  _ ← throw_if (index >? (UINT64_MAX - codeBase) / kInstructionSize) (RuntimeError message);
  mret (u64 (codeBase + u64 (index * kInstructionSize))).

Definition DebugSymbols_fromAssembledProgram (program : AssembledProgram) (codeBase : Z) (sourcePath : string)
    : outcome DebugSymbols :=
  let lines := instruction_source_lines program in
  let symbols := set_source_path sourcePath no_symbols in
  _ ← throw_if (negb (bool_decide (lines = [])) && negb (bool_decide (length lines = length (instructions program))))
        (RuntimeError "Instruction source-line mapping size mismatch");
  symbols ← add_each (fun '(name, index) s => address ← code_address codeBase index "Code symbol address overflow";
                                              DebugSymbols_add Code name address s)
              (sorted_labels (ap_labels program)) symbols;
  symbols ← add_each (fun '(name, address) s => DebugSymbols_add Data name address s)
              (sorted_labels (data_labels program)) symbols;
  add_each (fun '(index, l) s => address ← code_address codeBase (Z.of_nat index) "Source location address overflow";
                                 DebugSymbols_addSourceLocation address l s)
    (zip (seq 0 (length lines)) lines) symbols.

(** ** The file *)

Definition kHeader : string := "ZCPU-SYMBOLS 2".
Definition kLegacyHeader : string := "ZCPU-SYMBOLS 1".
Definition backslash : ascii := "\".

(** [out << std::quoted(text)] *)
Fixpoint escaped (text : string) : string :=
  match text with
  | EmptyString => EmptyString
  | String c rest =>
      if bool_decide (c = quote) || bool_decide (c = backslash) then String backslash (String c (escaped rest))
      else String c (escaped rest)
  end.
Definition write_quoted (text : string) : string := String quote (escaped text +:+ String quote EmptyString).

(** [in >> std::quoted(text)], with what is left of the stream: up to the closing
    quote, or a word when the text does not start with a quote. *)
Fixpoint read_escaped (input : string) : option (string * string) :=
  match input with
  | EmptyString => None
  | String c rest =>
      if bool_decide (c = backslash) then
        match rest with
        | EmptyString => None
        | String c rest => '(text, rest) ← read_escaped rest; Some (String c text, rest)
        end
      else if bool_decide (c = quote) then Some (EmptyString, rest)
      else '(text, rest) ← read_escaped rest; Some (String c text, rest)
  end.
Definition read_quoted (input : string) : option (string * string) :=
  match (span isspace input).2 with
  | EmptyString => None
  | String c rest => if bool_decide (c = quote) then read_escaped rest else Some (next_word (String c rest))
  end.

Definition at_line_number (lineNumber : Z) : string := " at line " +:+ pretty lineNumber.

Definition parseSymbolAddress (text : string) (lineNumber : Z) : outcome Z :=
  let failure := RuntimeError ("Invalid symbol address" +:+ at_line_number lineNumber) in
  if empty text || front_is "-"%char text then throw failure
  else match stoull read_decimal text with
       | Ret (value, parsed) => if (parsed =? String.length text)%nat then mret value else throw failure
       | Throw _ => throw failure
       end.

Definition parseSourceLine (text : string) (lineNumber : Z) : outcome Z :=
  value ← parseSymbolAddress text lineNumber;
  _ ← throw_if (value =? 0) (RuntimeError ("Source line must be greater than zero" +:+ at_line_number lineNumber));
  mret value.

Definition parseKind (text : string) (lineNumber : Z) : outcome DebugSymbolKind :=
  if bool_decide (text = "CODE") then mret Code
  else if bool_decide (text = "DATA") then mret Data
  else throw (RuntimeError ("Invalid symbol kind" +:+ at_line_number lineNumber)).

(** The arguments of [add] and [addSourceLocation] are parsed from left to right,
    one of the orders C++ allows; it decides which message a line with two
    mistakes is reported with.

    [in >> first >> second && !(in >> extra)] *)
Definition two_words (input : string) : option (string * string) :=
  let '(first, rest) := next_word input in
  let '(second, rest) := next_word rest in
  if empty first || empty second || negb (empty (next_word rest).1) then None else Some (first, second).

Definition read_record (legacy : bool) (line : string) (lineNumber : Z) (s : DebugSymbols) : outcome DebugSymbols :=
  let '(recordType, rest) := next_word line in
  if negb legacy && bool_decide (recordType = "SOURCE") then
    match read_quoted rest with
    | Some (sourcePath, rest) =>
        _ ← throw_if (negb (empty (next_word rest).1))
              (RuntimeError ("Malformed source path" +:+ at_line_number lineNumber));
        _ ← throw_if (negb (empty (sy_source_path s)))
              (RuntimeError ("Duplicate source path" +:+ at_line_number lineNumber));
        mret (set_source_path sourcePath s)
    | None => throw (RuntimeError ("Malformed source path" +:+ at_line_number lineNumber))
    end
  else if negb legacy && bool_decide (recordType = "LINE") then
    match two_words rest with
    | Some (addressText, sourceLineText) =>
        address ← parseSymbolAddress addressText lineNumber;
        line ← parseSourceLine sourceLineText lineNumber;
        DebugSymbols_addSourceLocation address line s
    | None => throw (RuntimeError ("Malformed source location" +:+ at_line_number lineNumber))
    end
  else
    match two_words rest with
    | Some (name, addressText) =>
        kind ← parseKind recordType lineNumber;
        address ← parseSymbolAddress addressText lineNumber;
        DebugSymbols_add kind name address s
    | None => throw (RuntimeError ("Malformed debug symbol" +:+ at_line_number lineNumber))
    end.

Fixpoint read_records (legacy : bool) (lines : list string) (lineNumber : Z) (s : DebugSymbols) : outcome DebugSymbols :=
  match lines with
  | [] => mret s
  | line :: lines =>
      if empty line then read_records legacy lines (lineNumber + 1) s
      else s ← read_record legacy line lineNumber s; read_records legacy lines (lineNumber + 1) s
  end.

(** [readFile(path)], given the text of the file, or nothing when it cannot be
    opened. *)
Definition DebugSymbols_readFile (path : string) (file : option string) : outcome DebugSymbols :=
  match file with
  | None => throw (RuntimeError ("Cannot open debug symbols file: " +:+ path))
  | Some text =>
      match splitLines text with
      | [] => throw (RuntimeError ("Invalid debug symbols header: " +:+ path))
      | header :: lines =>
          let legacy := bool_decide (header = kLegacyHeader) in
          if negb legacy && negb (bool_decide (header = kHeader))
          then throw (RuntimeError ("Invalid debug symbols header: " +:+ path))
          else read_records legacy lines 2 no_symbols
      end
  end.

Definition symbol_line (y : DebugSymbol) : string :=
  debugSymbolKindToString (dy_kind y) +:+ " " +:+ dy_name y +:+ " " +:+ pretty (dy_address y).
Definition location_line (l : DebugSourceLocation) : string :=
  "LINE " +:+ pretty (sl_address l) +:+ " " +:+ pretty (sl_line l).

Definition written_lines (s : DebugSymbols) : list string :=
  [kHeader]
  ++ (if empty (sy_source_path s) then [] else ["SOURCE " +:+ write_quoted (sy_source_path s)])
  ++ (symbol_line <$> sy_entries s)
  ++ (location_line <$> sy_source_locations s).

(** The text [writeFile] writes: every line ends with a newline. *)
Definition DebugSymbols_writeFile (s : DebugSymbols) : string :=
  String.concat "" ((fun line => line +:+ String newline EmptyString) <$> written_lines s).

(** * Debug symbols are kept by their file and agree with the program

    Symbols that were built by [add] and [addSourceLocation] are read back from
    the text they are written as, and the symbols of an assembled program name
    the addresses its labels and source lines are loaded at. *)

#[local] Arguments String.append : simpl nomatch.

(** ** Well-formed symbols *)

(** The index of a list of entries. *)
Definition index_of_entries (l : list DebugSymbol) : gmap string nat := list_to_map (imap (fun i y => (dy_name y, i)) l).

Record symbols_ok (s : DebugSymbols) : Prop := {
  so_names : Forall (fun y => isValidSymbolName (dy_name y) = true /\ is_u64 (dy_address y)) (sy_entries s);
  so_unique : NoDup (dy_name <$> sy_entries s);
  so_index : sy_indices s = index_of_entries (sy_entries s);
  so_lines : Forall (fun l => is_u64 (sl_address l) /\ is_u64 (sl_line l) /\ sl_line l <> 0) (sy_source_locations s);
  so_addresses : NoDup (sl_address <$> sy_source_locations s);
  so_line_unique : NoDup (sl_line <$> sy_source_locations s);
}.

Definition push_entry (y : DebugSymbol) (s : DebugSymbols) : DebugSymbols :=
  {| sy_entries := sy_entries s ++ [y]; sy_indices := <[dy_name y := length (sy_entries s)]> (sy_indices s);
     sy_source_path := sy_source_path s; sy_source_locations := sy_source_locations s |}.
Definition push_location (l : DebugSourceLocation) (s : DebugSymbols) : DebugSymbols :=
  {| sy_entries := sy_entries s; sy_indices := sy_indices s; sy_source_path := sy_source_path s;
     sy_source_locations := sy_source_locations s ++ [l] |}.

(** The symbols with given parts. *)
Definition symbols_of (path : string) (entries : list DebugSymbol) (locations : list DebugSourceLocation) : DebugSymbols :=
  {| sy_entries := entries; sy_indices := index_of_entries entries; sy_source_path := path;
     sy_source_locations := locations |}.

Lemma symbols_eta s : symbols_ok s -> s = symbols_of (sy_source_path s) (sy_entries s) (sy_source_locations s).
Proof. intros Hs. destruct s. unfold symbols_of. cbn. f_equal. apply (so_index _ Hs). Qed.

Lemma imap_names (l : list DebugSymbol) : (imap (fun i y => (dy_name y, i)) l).*1 = dy_name <$> l.
Proof.
  rewrite fmap_imap. rewrite <- (imap_const dy_name l). apply imap_ext. reflexivity.
Qed.

Lemma index_lookup l name i :
  NoDup (dy_name <$> l) -> index_of_entries l !! name = Some i <-> exists y, l !! i = Some y /\ dy_name y = name.
Proof.
  intros Hn. unfold index_of_entries. rewrite <- elem_of_list_to_map by (rewrite imap_names; exact Hn).
  rewrite elem_of_lookup_imap. split.
  - intros (j & y & [= -> ->] & Hy). eauto.
  - intros (y & Hy & <-). eauto.
Qed.

Lemma index_None l name : index_of_entries l !! name = None <-> name ∉ dy_name <$> l.
Proof.
  unfold index_of_entries. rewrite <- imap_names. split; [apply not_elem_of_list_to_map_2 | apply not_elem_of_list_to_map_1].
Qed.

Lemma index_snoc l y :
  dy_name y ∉ dy_name <$> l -> index_of_entries (l ++ [y]) = <[dy_name y := length l]> (index_of_entries l).
Proof.
  intros Hy. unfold index_of_entries. rewrite imap_app. cbn [imap]. rewrite Nat.add_0_r. apply list_to_map_snoc.
  rewrite imap_names. exact Hy.
Qed.

Lemma push_entry_of path l k y :
  dy_name y ∉ dy_name <$> l -> push_entry y (symbols_of path l k) = symbols_of path (l ++ [y]) k.
Proof. intros Hy. unfold push_entry, symbols_of. cbn. rewrite index_snoc by exact Hy. reflexivity. Qed.

(** ** Adding *)

Lemma add_run path l k kind name address :
  isValidSymbolName name = true -> name ∉ dy_name <$> l ->
  DebugSymbols_add kind name address (symbols_of path l k) =
    Ret (symbols_of path (l ++ [{| dy_kind := kind; dy_name := name; dy_address := address |}]) k).
Proof.
  intros Hv Hn. unfold DebugSymbols_add. rewrite Hv. cbn [negb throw_if]. rewrite bind_Ret. unfold DebugSymbols_has.
  rewrite bool_decide_eq_false_2.
  - cbn [throw_if]. rewrite bind_Ret. f_equal.
    exact (push_entry_of path l k {| dy_kind := kind; dy_name := name; dy_address := address |} Hn).
  - apply index_None in Hn. cbn. rewrite Hn. intros [? E]. discriminate E.
Qed.

Lemma addSourceLocation_run path l k address n :
  n <> 0 -> address ∉ sl_address <$> k -> n ∉ sl_line <$> k ->
  DebugSymbols_addSourceLocation address n (symbols_of path l k) =
    Ret (symbols_of path l (k ++ [{| sl_address := address; sl_line := n |}])).
Proof.
  intros Hn Ha Hl. unfold DebugSymbols_addSourceLocation. rewrite (proj2 (Z.eqb_neq n 0) Hn). cbn [throw_if]. rewrite bind_Ret.
  destruct (list_find _ _) as [[i x]|] eqn:E; [|reflexivity]. exfalso. apply list_find_Some in E as (Hi & [E|E] & _);
    apply list_elem_of_lookup_2 in Hi; [apply Ha | apply Hl]; apply list_elem_of_fmap; eauto.
Qed.

(** ** Reading a line *)

Lemma name_char ch : isalnum ch || bool_decide (ch = "_"%char) = true -> nonspace ch = true.
Proof. destruct ch as [[] [] [] [] [] [] [] []]; vm_compute; congruence. Qed.

Lemma valid_name_word name : isValidSymbolName name = true -> all_chars nonspace name = true /\ name <> EmptyString.
Proof.
  destruct name as [|c t]; [discriminate|]. unfold isValidSymbolName. rewrite andb_true_iff. intros [_ H].
  split; [exact (all_chars_impl _ _ _ name_char H) | discriminate].
Qed.

Lemma decimal_word z : 0 <= z -> all_chars isdigit (pretty z) = true /\ all_chars nonspace (pretty z) = true /\ pretty z <> EmptyString.
Proof.
  intros Hz. destruct (read_pretty read_decimal (Z.to_N z)) as (_ & Hd & Hne).
  replace (pretty z) with (pretty (Z.to_N z)) by (destruct z as [|p|p]; [reflexivity | reflexivity | lia]).
  split; [exact Hd|]. split; [|exact Hne]. revert Hd. apply all_chars_impl. intros ch Hc. apply name_char. unfold isalnum.
  rewrite Hc, orb_true_r. reflexivity.
Qed.

Lemma next_word_after_space s : next_word (String " " s) = next_word s.
Proof. unfold next_word. cbn [span]. change (isspace " ") with true. cbv iota. destruct (span isspace s). reflexivity. Qed.

Lemma two_words_run a b :
  all_chars nonspace a = true -> a <> EmptyString -> all_chars nonspace b = true -> b <> EmptyString ->
  two_words (" " +:+ a +:+ " " +:+ b) = Some (a, b).
Proof.
  intros Ha Hna Hb Hnb. unfold two_words. cbn [String.append]. rewrite next_word_after_space, next_word_space by assumption.
  rewrite next_word_after_space, next_word_whole by assumption.
  destruct a; [contradiction|]. destruct b; [contradiction | reflexivity].
Qed.

Lemma parse_pretty_symbol a n : is_u64 a -> parseSymbolAddress (pretty a) n = Ret a.
Proof.
  intros Ha. destruct (decimal_word a) as (Hd & _ & Hne); [words|]. unfold parseSymbolAddress.
  rewrite (stoull_pretty read_decimal a Ha), Nat.eqb_refl.
  destruct (pretty a) as [|c s] eqn:E; [contradiction|]. cbn in Hd. apply andb_true_iff in Hd as [Hc _]. cbn [empty front_is orb].
  rewrite bool_decide_eq_false_2; [reflexivity|]. intros ->. discriminate Hc.
Qed.

Lemma read_symbol_line path l k y n :
  isValidSymbolName (dy_name y) = true -> is_u64 (dy_address y) -> dy_name y ∉ dy_name <$> l ->
  read_record false (symbol_line y) n (symbols_of path l k) = Ret (symbols_of path (l ++ [y]) k).
Proof.
  intros Hv Ha Hn. destruct (valid_name_word _ Hv) as [Hw Hne]. destruct (decimal_word (dy_address y)) as (_ & Hp & Hpe); [words|].
  destruct y as [kind name address]. cbn [dy_kind dy_name dy_address] in *.
  unfold read_record, symbol_line. cbn [dy_kind dy_name dy_address].
  assert (Hk : next_word (debugSymbolKindToString kind +:+ " " +:+ name +:+ " " +:+ pretty address) =
    (debugSymbolKindToString kind, " " +:+ name +:+ " " +:+ pretty address)) by (destruct kind; reflexivity).
  rewrite Hk. cbn [negb andb].
  rewrite !bool_decide_eq_false_2 by (destruct kind; discriminate). rewrite two_words_run by assumption.
  replace (parseKind (debugSymbolKindToString kind) n) with (Ret kind : outcome DebugSymbolKind) by (destruct kind; reflexivity).
  rewrite bind_Ret, parse_pretty_symbol, bind_Ret by exact Ha. apply add_run; assumption.
Qed.

Lemma read_location_line path l k x n :
  is_u64 (sl_address x) -> is_u64 (sl_line x) -> sl_line x <> 0 -> sl_address x ∉ sl_address <$> k -> sl_line x ∉ sl_line <$> k ->
  read_record false (location_line x) n (symbols_of path l k) = Ret (symbols_of path l (k ++ [x])).
Proof.
  destruct x as [address m]. cbn [sl_address sl_line]. intros Ha Hm H0 Hna Hnl.
  destruct (decimal_word address) as (_ & Hp & Hpe); [words|]. destruct (decimal_word m) as (_ & Hq & Hqe); [words|].
  unfold read_record, location_line. cbn [sl_address sl_line].
  change (next_word ("LINE " +:+ pretty address +:+ " " +:+ pretty m)) with ("LINE", " " +:+ pretty address +:+ " " +:+ pretty m).
  cbn [negb andb]. rewrite bool_decide_eq_false_2 by discriminate. rewrite bool_decide_eq_true_2 by reflexivity.
  rewrite two_words_run by assumption. rewrite parse_pretty_symbol, bind_Ret by exact Ha.
  unfold parseSourceLine. rewrite parse_pretty_symbol, bind_Ret, (proj2 (Z.eqb_neq m 0) H0) by exact Hm. cbn [throw_if].
  rewrite !bind_Ret. apply addSourceLocation_run; assumption.
Qed.

(** ** Quoted text *)

Definition no_newline (s : string) : Prop := all_chars (fun ch => negb (bool_decide (ch = newline))) s = true.

Lemma read_escaped_run text rest : read_escaped (escaped text +:+ String quote rest) = Some (text, rest).
Proof.
  induction text as [|c text IH]; cbn [escaped].
  - reflexivity.
  - destruct (bool_decide (c = quote) || bool_decide (c = backslash)) eqn:E; cbn [String.append read_escaped].
    + rewrite bool_decide_eq_true_2 by reflexivity. rewrite IH. reflexivity.
    + apply orb_false_iff in E as [Eq Eb]. rewrite Eb, Eq, IH. reflexivity.
Qed.

Lemma read_source_line path l k text n :
  path = EmptyString -> read_record false ("SOURCE " +:+ write_quoted text) n (symbols_of path l k) = Ret (symbols_of text l k).
Proof.
  intros ->. unfold read_record.
  change (next_word ("SOURCE " +:+ write_quoted text)) with ("SOURCE", " " +:+ write_quoted text).
  cbn [negb andb]. rewrite bool_decide_eq_true_2 by reflexivity.
  change (read_quoted (" " +:+ write_quoted text)) with (read_escaped (escaped text +:+ String quote EmptyString)).
  rewrite read_escaped_run. reflexivity.
Qed.

(** ** The lines of the file *)

Lemma splitLines_first_line s rest : no_newline s -> splitLines (s +:+ String newline rest) = s :: splitLines rest.
Proof.
  unfold no_newline. induction s as [|c s IH]; intros Hs; [reflexivity|]. cbn in Hs. apply andb_true_iff in Hs as [Hc Hs].
  cbn [String.append splitLines]. apply negb_true_iff in Hc. rewrite Hc, IH by exact Hs. reflexivity.
Qed.

Lemma splitLines_lines l :
  Forall no_newline l -> splitLines (String.concat "" ((fun s => s +:+ String newline EmptyString) <$> l)) = l.
Proof.
  assert (Hcat : forall x (r : list string), String.concat "" (x :: r) = x +:+ String.concat "" r)
    by (intros x [|y r]; [symmetry; apply append_nil | reflexivity]).
  induction 1 as [|s l Hs _ IH]; [reflexivity|]. rewrite fmap_cons, Hcat, <- append_assoc. cbn [String.append].
  rewrite splitLines_first_line, IH by exact Hs. reflexivity.
Qed.

Lemma no_newline_app s t : no_newline s -> no_newline t -> no_newline (s +:+ t).
Proof. unfold no_newline. intros Hs Ht. rewrite all_chars_app, Hs, Ht. reflexivity. Qed.

Lemma no_newline_word w : all_chars nonspace w = true -> no_newline w.
Proof. apply all_chars_impl. intros ch. destruct ch as [[] [] [] [] [] [] [] []]; vm_compute; congruence. Qed.

Lemma no_newline_escaped s : no_newline s -> no_newline (escaped s).
Proof.
  unfold no_newline. induction s as [|c s IH]; cbn; [reflexivity|]. rewrite andb_true_iff. intros [Hc Hs].
  destruct (_ || _); cbn; rewrite Hc, IH by exact Hs; reflexivity.
Qed.

Lemma written_lines_clean s : symbols_ok s -> no_newline (sy_source_path s) -> Forall no_newline (written_lines s).
Proof.
  intros Hs Hp. unfold written_lines. repeat apply Forall_app_2.
  - repeat constructor.
  - destruct (empty _); repeat constructor. apply no_newline_app; [reflexivity|]. unfold write_quoted.
    change (String quote (escaped (sy_source_path s) +:+ String quote EmptyString))
      with (String quote EmptyString +:+ (escaped (sy_source_path s) +:+ String quote EmptyString)).
    repeat apply no_newline_app; [reflexivity | apply no_newline_escaped, Hp | reflexivity].
  - apply Forall_fmap. eapply Forall_impl; [apply (so_names _ Hs)|]. intros y [Hv Ha]. unfold symbol_line.
    repeat apply no_newline_app; try reflexivity; [destruct (dy_kind y); reflexivity | |].
    + apply no_newline_word, valid_name_word, Hv.
    + apply no_newline_word, decimal_word. words.
  - apply Forall_fmap. eapply Forall_impl; [apply (so_lines _ Hs)|]. intros x (Ha & Hl & _). unfold location_line.
    repeat apply no_newline_app; try reflexivity; apply no_newline_word, decimal_word; words.
Qed.

(** Reading the entries and the locations one by one. *)
Lemma read_entries path k l2 : forall l1 rest n,
  Forall (fun y => isValidSymbolName (dy_name y) = true /\ is_u64 (dy_address y)) l2 -> NoDup (dy_name <$> l1 ++ l2) ->
  exists n', read_records false ((symbol_line <$> l2) ++ rest) n (symbols_of path l1 k) =
    read_records false rest n' (symbols_of path (l1 ++ l2) k).
Proof.
  induction l2 as [|y l2 IH]; intros l1 rest n Hall Hd; [rewrite app_nil_r; eauto|].
  apply Forall_cons in Hall as [[Hv Ha] Hall]. cbn [fmap list_fmap app read_records].
  assert (Hne : empty (symbol_line y) = false) by (unfold symbol_line; destruct (dy_kind y); reflexivity). rewrite Hne.
  rewrite read_symbol_line; [|assumption|assumption|].
  - rewrite bind_Ret. destruct (IH (l1 ++ [y]) rest (n + 1) Hall) as [n' E].
    + rewrite <- app_assoc. exact Hd.
    + exists n'. rewrite E, <- app_assoc. reflexivity.
  - rewrite fmap_app, NoDup_app in Hd. destruct Hd as (_ & Hd & _). intros Hin. apply (Hd _ Hin). left.
Qed.

Lemma read_locations path l k2 : forall k1 rest n,
  Forall (fun x => is_u64 (sl_address x) /\ is_u64 (sl_line x) /\ sl_line x <> 0) k2 ->
  NoDup (sl_address <$> k1 ++ k2) -> NoDup (sl_line <$> k1 ++ k2) ->
  exists n', read_records false ((location_line <$> k2) ++ rest) n (symbols_of path l k1) =
    read_records false rest n' (symbols_of path l (k1 ++ k2)).
Proof.
  induction k2 as [|x k2 IH]; intros k1 rest n Hall Hd Hl; [rewrite app_nil_r; eauto|].
  apply Forall_cons in Hall as [(Ha & Hm & H0) Hall]. cbn [fmap list_fmap app read_records].
  change (empty (location_line x)) with false. cbv iota.
  assert (Hfresh : forall {A} (f : DebugSourceLocation -> A), NoDup (f <$> k1 ++ x :: k2) -> f x ∉ f <$> k1).
  { intros A f Hf. rewrite fmap_app, NoDup_app in Hf. destruct Hf as (_ & Hf & _). intros Hin. apply (Hf _ Hin). left. }
  rewrite read_location_line by auto. rewrite bind_Ret.
  destruct (IH (k1 ++ [x]) rest (n + 1) Hall) as [n' E]; [rewrite <- app_assoc; exact Hd | rewrite <- app_assoc; exact Hl|].
  exists n'. rewrite E, <- app_assoc. reflexivity.
Qed.

Lemma write_read s file_name :
  symbols_ok s -> no_newline (sy_source_path s) -> DebugSymbols_readFile file_name (Some (DebugSymbols_writeFile s)) = Ret s.
Proof.
  intros Hs Hp. unfold DebugSymbols_readFile, DebugSymbols_writeFile.
  rewrite splitLines_lines by (apply written_lines_clean; assumption).
  unfold written_lines. cbn [app]. rewrite bool_decide_eq_false_2 by discriminate.
  rewrite bool_decide_eq_true_2 by reflexivity. cbn [negb andb].
  assert (Hsrc : forall rest, exists n, read_records false
      ((if empty (sy_source_path s) then [] else ["SOURCE " +:+ write_quoted (sy_source_path s)]) ++ rest) 2 no_symbols =
    read_records false rest n (symbols_of (sy_source_path s) [] [])).
  { intros rest. destruct (sy_source_path s) as [|c t] eqn:E; [exists 2; reflexivity|]. exists 3.
    cbn [empty app read_records]. change (empty ("SOURCE " +:+ write_quoted (String c t))) with false. cbv iota.
    change no_symbols with (symbols_of EmptyString [] []). rewrite read_source_line by reflexivity. reflexivity. }
  destruct (Hsrc ((symbol_line <$> sy_entries s) ++ (location_line <$> sy_source_locations s))) as [n ->].
  destruct (read_entries (sy_source_path s) [] (sy_entries s) [] (location_line <$> sy_source_locations s) n) as [n' ->];
    [apply (so_names _ Hs) | apply (so_unique _ Hs)|].
  destruct (read_locations (sy_source_path s) (sy_entries s) (sy_source_locations s) [] [] n') as [n'' E];
    [apply (so_lines _ Hs) | apply (so_addresses _ Hs) | apply (so_line_unique _ Hs)|].
  rewrite app_nil_r in E. cbn [app] in *. rewrite E. cbn. rewrite (symbols_eta s Hs) at 4. reflexivity.
Qed.

(** ** Queries *)

Lemma resolve_kind_entry s kind what name a :
  symbols_ok s ->
  resolve_kind kind what name s = Ret a <-> {| dy_kind := kind; dy_name := name; dy_address := a |} ∈ sy_entries s.
Proof.
  intros Hs. unfold resolve_kind. rewrite (so_index _ Hs). split.
  - destruct (index_of_entries _ !! name) as [i|] eqn:E; [|discriminate].
    apply index_lookup in E as (y & Hy & <-); [|apply (so_unique _ Hs)]. unfold entry_at. rewrite Hy. intros H. rewrite bind_Ret in H.
    destruct (bool_decide (dy_kind y = kind)) eqn:Ek; [|discriminate]. apply bool_decide_eq_true in Ek as <-.
    cbn [negb throw_if] in H. rewrite bind_Ret in H. injection H as <-. destruct y. apply list_elem_of_lookup_2 in Hy. exact Hy.
  - intros Hin. apply list_elem_of_lookup in Hin as [i Hy].
    assert (index_of_entries (sy_entries s) !! name = Some i) as ->
      by (apply index_lookup; [apply (so_unique _ Hs) | eexists; split; [exact Hy | reflexivity]]).
    unfold entry_at. rewrite Hy, bind_Ret.
    cbn [dy_kind dy_address]. rewrite bool_decide_eq_true_2 by reflexivity. reflexivity.
Qed.

(** The location a search by one of its parts finds. *)
Lemma find_location {B} `{EqDecision B} (f : DebugSourceLocation -> B) l x v :
  NoDup (f <$> l) -> x ∈ l -> f x = v -> exists i, list_find (fun y => f y = v) l = Some (i, x).
Proof.
  intros Hd Hx <-. destruct (list_find (fun y => f y = f x) l) as [[i y]|] eqn:E.
  - exists i. apply list_find_Some in E as (Hy & Hf & _). apply list_elem_of_lookup in Hx as [j Hx].
    assert (i = j) as ->; [|congruence]. apply (NoDup_lookup _ i j (f x) Hd); rewrite list_lookup_fmap.
    + rewrite Hy. cbn. congruence.
    + rewrite Hx. reflexivity.
  - exfalso. apply list_find_None in E. rewrite Forall_forall in E. exact (E x Hx eq_refl).
Qed.

Lemma resolve_location s address n :
  symbols_ok s -> {| sl_address := address; sl_line := n |} ∈ sy_source_locations s ->
  DebugSymbols_resolveSourceLine n s = Ret address /\ DebugSymbols_sourceLineForAddress address s = Ret n.
Proof.
  intros Hs Hin. pose proof (so_lines _ Hs) as Hl. rewrite Forall_forall in Hl. destruct (Hl _ Hin) as (_ & _ & Hn). cbn in Hn.
  unfold DebugSymbols_resolveSourceLine, DebugSymbols_sourceLineForAddress. rewrite (proj2 (Z.eqb_neq n 0) Hn). cbn [throw_if].
  rewrite bind_Ret. destruct (find_location sl_line _ _ n (so_line_unique _ Hs) Hin eq_refl) as [i ->].
  destruct (find_location sl_address _ _ address (so_addresses _ Hs) Hin eq_refl) as [j ->]. auto.
Qed.

(** ** The symbols of an assembled program *)

Lemma add_each_entries {A} (f : A -> DebugSymbols -> outcome DebugSymbols) (entry : A -> DebugSymbol) path k xs : forall l,
  (forall x l, x ∈ xs -> dy_name (entry x) ∉ dy_name <$> l ->
     f x (symbols_of path l k) = Ret (symbols_of path (l ++ [entry x]) k)) ->
  NoDup (dy_name <$> l ++ (entry <$> xs)) ->
  add_each f xs (symbols_of path l k) = Ret (symbols_of path (l ++ (entry <$> xs)) k).
Proof.
  induction xs as [|x xs IH]; intros l Hf Hd; cbn [add_each fmap list_fmap]; [rewrite app_nil_r; reflexivity|].
  rewrite Hf; [|left|].
  - rewrite bind_Ret, IH, <- app_assoc; [reflexivity | | rewrite <- app_assoc; exact Hd].
    intros y l' Hy. apply Hf. right. exact Hy.
  - rewrite fmap_app, NoDup_app in Hd. destruct Hd as (_ & Hd & _). intros Hin. apply (Hd _ Hin). left.
Qed.

Lemma add_each_locations {A} (f : A -> DebugSymbols -> outcome DebugSymbols) (loc : A -> DebugSourceLocation) path l xs : forall k,
  (forall x k, x ∈ xs -> sl_address (loc x) ∉ sl_address <$> k -> sl_line (loc x) ∉ sl_line <$> k ->
     f x (symbols_of path l k) = Ret (symbols_of path l (k ++ [loc x]))) ->
  NoDup (sl_address <$> k ++ (loc <$> xs)) -> NoDup (sl_line <$> k ++ (loc <$> xs)) ->
  add_each f xs (symbols_of path l k) = Ret (symbols_of path l (k ++ (loc <$> xs))).
Proof.
  induction xs as [|x xs IH]; intros k Hf Ha Hl; cbn [add_each fmap list_fmap]; [rewrite app_nil_r; reflexivity|].
  assert (Hfresh : forall {B} (g : DebugSourceLocation -> B), NoDup (g <$> k ++ (loc <$> x :: xs)) -> g (loc x) ∉ g <$> k).
  { intros B g Hg. rewrite fmap_app, NoDup_app in Hg. destruct Hg as (_ & Hg & _). intros Hin. apply (Hg _ Hin). left. }
  rewrite Hf; [|left | apply Hfresh, Ha | apply Hfresh, Hl].
  rewrite bind_Ret, IH, <- app_assoc; [reflexivity | | rewrite <- app_assoc; assumption | rewrite <- app_assoc; assumption].
  intros y k' Hy. apply Hf. right. exact Hy.
Qed.

Lemma code_address_fits base index message :
  0 <= base -> 0 <= index -> base + kInstructionSize * index <= UINT64_MAX ->
  code_address base index message = Ret (base + kInstructionSize * index).
Proof.
  intros Hb Hi Hs. unfold code_address, kInstructionSize in *.
  assert ((index >? (UINT64_MAX - base) / 24) = false) as ->.
  { rewrite Z.gtb_ltb. apply Z.ltb_ge. apply Z.div_le_lower_bound; lia. }
  cbn [throw_if]. rewrite bind_Ret. rewrite (u64_small (index * 24)) by words. rewrite u64_small by words. f_equal. lia.
Qed.

Lemma label_symbol name : label_ok name -> isValidSymbolName name = true.
Proof.
  intros [H _ _ _]. destruct name as [|c t]; [discriminate|]. unfold isValidLabelName in H. unfold isValidSymbolName.
  destruct (isalpha c); [exact H|]. destruct (bool_decide (c = "_"%char)); [exact H | discriminate].
Qed.

Definition code_entry (base : Z) (x : string * Z) : DebugSymbol :=
  {| dy_kind := Code; dy_name := x.1; dy_address := base + kInstructionSize * x.2 |}.
Definition data_entry (x : string * Z) : DebugSymbol := {| dy_kind := Data; dy_name := x.1; dy_address := x.2 |}.
Definition location_at (base : Z) (x : nat * Z) : DebugSourceLocation :=
  {| sl_address := base + kInstructionSize * Z.of_nat x.1; sl_line := x.2 |}.

(** The symbols of program [p] loaded at [base]. *)
Definition program_symbols (p : AssembledProgram) (base : Z) (path : string) : DebugSymbols :=
  symbols_of path
    ((code_entry base <$> sorted_labels (ap_labels p)) ++ (data_entry <$> sorted_labels (data_labels p)))
    (location_at base <$> zip (seq 0 (length (instruction_source_lines p))) (instruction_source_lines p)).

Lemma elem_of_sorted labels name v : (name, v) ∈ sorted_labels labels <-> labels !! name = Some v.
Proof. unfold sorted_labels. rewrite merge_sort_Permutation. apply elem_of_map_to_list. Qed.

Lemma sorted_names labels : NoDup (sorted_labels labels).*1.
Proof. unfold sorted_labels. rewrite merge_sort_Permutation. apply NoDup_fst_map_to_list. Qed.

Lemma sorted_zlt_NoDup l : StronglySorted Z.lt l -> NoDup l.
Proof.
  induction 1 as [|x l Hs IH Hx]; constructor; [|exact IH]. intros Hin. rewrite Forall_forall in Hx. specialize (Hx x Hin). lia.
Qed.

Lemma elem_of_numbered {A} (l : list A) k x : (k, x) ∈ zip (seq 0 (length l)) l <-> l !! k = Some x.
Proof.
  rewrite list_elem_of_lookup. split.
  - intros [i H]. rewrite lookup_zip_with in H. apply bind_Some in H as (j & Hj & H). apply bind_Some in H as (y & Hy & [= -> ->]).
    apply lookup_seq in Hj as [-> _]. exact Hy.
  - intros H. exists k. rewrite lookup_zip_with. rewrite lookup_seq_lt by (eapply lookup_lt_Some; exact H). cbn. rewrite H. reflexivity.
Qed.

Section assembled.
Context (lines : list string) (p : AssembledProgram) (base : Z) (path : string).
Context (Hp : assembled_ok lines p) (Hb : 0 <= base).
Context (Hfit : base + kInstructionSize * Z.of_nat (length (instructions p)) <= UINT64_MAX).
Context (Hlines : Z.of_nat (length lines) <= UINT64_MAX).

Lemma code_label_fits name i : (name, i) ∈ sorted_labels (ap_labels p) ->
  isValidSymbolName name = true /\ 0 <= i /\ base + kInstructionSize * i <= UINT64_MAX.
Proof.
  intros H. apply elem_of_sorted in H. destruct (ao_labels _ _ Hp name i H) as [Hn Hi].
  split; [exact (label_symbol _ Hn)|]. unfold kInstructionSize in *. lia.
Qed.

Lemma data_label_fits name a : (name, a) ∈ sorted_labels (data_labels p) -> isValidSymbolName name = true /\ is_u64 a.
Proof.
  intros H. apply elem_of_sorted in H. destruct (ao_data_labels _ _ Hp name a H) as [Hn Ha].
  split; [exact (label_symbol _ Hn)|]. destruct (ao_data _ _ Hp) as (_ & Hs & _).
  assert (0 <= kUserDataBase /\ kUserDataBase + kUserDataSize < 2 ^ 63) by (split; vm_compute; congruence). words.
Qed.

Lemma source_line_fits k n : instruction_source_lines p !! k = Some n ->
  base + kInstructionSize * Z.of_nat k <= UINT64_MAX /\ 1 <= n <= UINT64_MAX.
Proof.
  intros H. destruct (Forall2_lookup_r _ _ _ _ _ (ao_source _ _ Hp) H) as (i & Hi & Hn & text & Ht & _).
  apply lookup_lt_Some in Hi, Ht. unfold kInstructionSize in *. lia.
Qed.

Lemma program_symbols_ok : symbols_ok (program_symbols p base path).
Proof.
  constructor; cbn.
  - apply Forall_app. split; apply Forall_fmap, Forall_forall; intros [name v] Hin; cbn.
    + destruct (code_label_fits _ _ Hin) as (Hv & H0 & Hi). split; [exact Hv|]. unfold kInstructionSize in *. words.
    + exact (data_label_fits _ _ Hin).
  - rewrite fmap_app, <- !list_fmap_compose. apply NoDup_app. split; [apply sorted_names|]. split; [|apply sorted_names].
    intros name H1 H2. apply list_elem_of_fmap in H1 as ([n1 v1] & -> & H1). apply list_elem_of_fmap in H2 as ([n2 v2] & E & H2).
    cbn in E. subst n2. apply elem_of_sorted in H1, H2. pose proof (ao_disjoint _ _ Hp) as Hd. rewrite map_disjoint_spec in Hd. exact (Hd _ _ _ H1 H2).
  - reflexivity.
  - apply Forall_fmap, Forall_forall. intros [k n] Hin. cbn. apply elem_of_numbered in Hin.
    destruct (source_line_fits _ _ Hin). unfold kInstructionSize in *. words.
  - rewrite <- list_fmap_compose.
    change (sl_address ∘ location_at base) with ((fun k => base + kInstructionSize * Z.of_nat k) ∘ @fst nat Z).
    rewrite list_fmap_compose, fst_zip by (rewrite length_seq; lia). apply NoDup_fmap_2; [|apply NoDup_seq].
    intros x y E. unfold kInstructionSize in E. lia.
  - rewrite <- list_fmap_compose. change (sl_line ∘ location_at base) with (@snd nat Z).
    rewrite snd_zip by (rewrite length_seq; lia). apply sorted_zlt_NoDup, (ao_ordered _ _ Hp).
Qed.

Lemma fromAssembledProgram_run : DebugSymbols_fromAssembledProgram p base path = Ret (program_symbols p base path).
Proof.
  unfold DebugSymbols_fromAssembledProgram. cbv zeta.
  pose proof (Forall2_length _ _ _ (ao_source _ _ Hp)) as Hlen.
  assert (negb (bool_decide (instruction_source_lines p = [])) &&
    negb (bool_decide (length (instruction_source_lines p) = length (instructions p))) = false) as ->.
  { rewrite (bool_decide_eq_true_2 (length _ = length _)) by congruence. apply andb_false_r. }
  cbn [throw_if]. rewrite bind_Ret. change (set_source_path path no_symbols) with (symbols_of path [] []).
  pose proof (so_unique _ program_symbols_ok) as Hu. cbn [sy_entries program_symbols symbols_of] in Hu.
  rewrite (add_each_entries _ (code_entry base)).
  - rewrite bind_Ret. cbn [app]. rewrite (add_each_entries _ data_entry).
    + rewrite bind_Ret. rewrite (add_each_locations _ (location_at base)); [reflexivity | |
        apply (so_addresses _ program_symbols_ok) | apply (so_line_unique _ program_symbols_ok)].
      intros [k n] ks Hin Ha Hl. apply elem_of_numbered in Hin. destruct (source_line_fits _ _ Hin) as [Hk Hn].
      rewrite code_address_fits, bind_Ret by (assumption || lia). apply addSourceLocation_run; [lia | exact Ha | exact Hl].
    + intros [name a] l Hin Hn. destruct (data_label_fits _ _ Hin) as [Hv _]. apply add_run; assumption.
    + exact Hu.
  - intros [name i] l Hin Hn. destruct (code_label_fits _ _ Hin) as (Hv & H0 & Hi).
    rewrite code_address_fits, bind_Ret by assumption. apply add_run; assumption.
  - cbn [app]. rewrite fmap_app, NoDup_app in Hu. apply Hu.
Qed.

Lemma program_resolves_code name a :
  DebugSymbols_resolveCode name (program_symbols p base path) = Ret a <->
  exists i, ap_labels p !! name = Some i /\ a = base + kInstructionSize * i.
Proof.
  unfold DebugSymbols_resolveCode. rewrite (resolve_kind_entry _ _ _ _ _ program_symbols_ok). cbn [sy_entries program_symbols symbols_of].
  rewrite elem_of_app. split.
  - intros [Hin|Hin]; apply list_elem_of_fmap in Hin as ([n v] & E & Hin); [|discriminate E].
    injection E as -> ->. apply elem_of_sorted in Hin. eauto.
  - intros (i & Hi & ->). left. apply list_elem_of_fmap. exists (name, i). split; [reflexivity | apply elem_of_sorted, Hi].
Qed.

Lemma program_resolves_data name a :
  DebugSymbols_resolveData name (program_symbols p base path) = Ret a <-> data_labels p !! name = Some a.
Proof.
  unfold DebugSymbols_resolveData. rewrite (resolve_kind_entry _ _ _ _ _ program_symbols_ok). cbn [sy_entries program_symbols symbols_of].
  rewrite elem_of_app. split.
  - intros [Hin|Hin]; apply list_elem_of_fmap in Hin as ([n v] & E & Hin); [discriminate E|].
    injection E as -> ->. apply elem_of_sorted, Hin.
  - intros Hi. right. apply list_elem_of_fmap. exists (name, a). split; [reflexivity | apply elem_of_sorted, Hi].
Qed.

Lemma program_resolves_line k n : instruction_source_lines p !! k = Some n ->
  DebugSymbols_resolveSourceLine n (program_symbols p base path) = Ret (base + kInstructionSize * Z.of_nat k) /\
  DebugSymbols_sourceLineForAddress (base + kInstructionSize * Z.of_nat k) (program_symbols p base path) = Ret n.
Proof.
  intros Hk. apply resolve_location; [exact program_symbols_ok|]. cbn [sy_source_locations program_symbols symbols_of].
  apply list_elem_of_fmap. exists (k, n). split; [reflexivity | apply elem_of_numbered, Hk].
Qed.

End assembled.

(** ** Properties *)

(** The symbols file keeps the symbols.  Symbols whose names are valid and
    distinct, whose source lines are positive and distinct, like their addresses,
    and whose source path is on one line are read back from the text they are
    written as: the entries in their order with the table that finds them, the
    path with its quotes and backslashes, and the source locations. *)
Theorem debug_symbols_roundtrip (s : DebugSymbols) (file_name : string)
    (Hs : symbols_ok s) (Hp : no_newline (sy_source_path s)) :
  DebugSymbols_readFile file_name (Some (DebugSymbols_writeFile s)) = Ret s.
Proof. exact (write_read s file_name Hs Hp). Qed.

(** The symbols of an assembled program.  When the program fits at its base
    address, its debug symbols can be made, and they are symbols the file keeps:
    a code label resolves to the address its instruction is loaded at and to
    nothing else, a data label to its data address, and the source line of every
    instruction and the address of the instruction name each other, so no two
    instructions share a line. *)
Theorem assembled_symbols_correct (source : string) (p : AssembledProgram) (base : Z) (path : string)
    (Hp : assembleString source = Ret p) (Hb : 0 <= base)
    (Hfit : base + kInstructionSize * Z.of_nat (length (instructions p)) <= UINT64_MAX)
    (Hsource : Z.of_nat (length (splitLines source)) <= UINT64_MAX) :
  exists s, DebugSymbols_fromAssembledProgram p base path = Ret s /\ symbols_ok s /\ sy_source_path s = path /\
    (forall name a, DebugSymbols_resolveCode name s = Ret a <->
       exists i, ap_labels p !! name = Some i /\ a = base + kInstructionSize * i) /\
    (forall name a, DebugSymbols_resolveData name s = Ret a <-> data_labels p !! name = Some a) /\
    (forall k n, instruction_source_lines p !! k = Some n ->
       DebugSymbols_resolveSourceLine n s = Ret (base + kInstructionSize * Z.of_nat k) /\
       DebugSymbols_sourceLineForAddress (base + kInstructionSize * Z.of_nat k) s = Ret n).
Proof.
  pose proof (assembled source p Hp) as Hok. exists (program_symbols p base path).
  split; [apply (fromAssembledProgram_run _ _ _ _ Hok); assumption|]. split; [apply (program_symbols_ok _ _ _ _ Hok); assumption|].
  split; [reflexivity|]. split; [intros; apply (program_resolves_code _ _ _ _ Hok); assumption|].
  split; [intros; apply (program_resolves_data _ _ _ _ Hok); assumption|].
  intros. apply (program_resolves_line _ _ _ _ Hok); assumption.
Qed.

(** ** Witnesses *)

Definition sample_symbols : DebugSymbols :=
  symbols_of (String quote "a b.asm") [{| dy_kind := Code; dy_name := "start"; dy_address := 24 |};
                                       {| dy_kind := Data; dy_name := "_count"; dy_address := UINT64_MAX |}]
    [{| sl_address := 0; sl_line := 5 |}; {| sl_address := 24; sl_line := 2 |}].

Lemma debug_symbols_roundtrip_witness :
  symbols_ok sample_symbols /\
  DebugSymbols_readFile "a.zsym" (Some (DebugSymbols_writeFile sample_symbols)) = Ret sample_symbols.
Proof.
  assert (Hs : symbols_ok sample_symbols).
  { constructor; cbn; repeat constructor; cbn; try lia; try set_solver; vm_compute; congruence. }
  split; [exact Hs|]. apply (debug_symbols_roundtrip sample_symbols "a.zsym" Hs). reflexivity.
Defined.

Lemma assembled_symbols_correct_witness :
  exists s, DebugSymbols_fromAssembledProgram sample_assembled 65536 "count.asm" = Ret s /\
    DebugSymbols_resolveCode "start" s = Ret 65560.
Proof.
  destruct (assembled_symbols_correct sample_source sample_assembled 65536 "count.asm" sample_assembles)
    as (s & Hs & _ & _ & Hcode & _).
  - lia.
  - vm_compute. discriminate.
  - vm_compute. discriminate.
  - exists s. split; [exact Hs|]. apply Hcode. exists 1. split; reflexivity.
Defined.
