(* ===== verification/DebugSession.v ===== *)
(** * The debugger: [src/debug/DebugSession.cpp]

    A session owns a CPU with one executable and steps it: one instruction, one
    source line, or until a breakpoint, a condition, a watched memory access or
    the end.  The objects the CPU shares with the host are part of the [Machine]
    of the session. *)

From S2P Require Import Prelude Words Strings Text ALU Memory ISA Binary Interrupts Devices CPUState Trace TraceDetail CPU CPUExec CPUStep Image Process Assembler DebugCondition DebugSymbols.
From stdpp Require Import sorting gmap.
Open Scope Z_scope.

(** ** Data *)

Inductive MemoryWatchMode := Watch_Read | Watch_Write | Watch_Access.

#[export] Instance MemoryWatchMode_eq_dec : EqDecision MemoryWatchMode.
Proof. solve_decision. Defined.

Definition memoryWatchModeToString (mode : MemoryWatchMode) : string :=
  match mode with Watch_Read => "Read" | Watch_Write => "Write" | Watch_Access => "Access" end.

Record MemoryWatchpoint := { wp_id : Z; wp_address : Z; wp_size : Z; wp_mode : MemoryWatchMode }.
Definition MemoryWatchpoint_endExclusive (w : MemoryWatchpoint) : Z := u64 (wp_address w + wp_size w).

Record ConditionalBreakpoint := { cb_id : Z; cb_address : Z; cb_condition : DebugCondition }.

Inductive DebugStopReason :=
  | Stop_Ready | Stop_StepComplete | Stop_Breakpoint | Stop_ConditionalBreakpoint | Stop_Watchpoint | Stop_ProgramEnd
  | Stop_Halted | Stop_Fault | Stop_StepLimit.

#[export] Instance DebugStopReason_eq_dec : EqDecision DebugStopReason.
Proof. solve_decision. Defined.

Definition debugStopReasonToString (reason : DebugStopReason) : string :=
  match reason with
  | Stop_Ready => "Ready" | Stop_StepComplete => "StepComplete" | Stop_Breakpoint => "Breakpoint"
  | Stop_ConditionalBreakpoint => "ConditionalBreakpoint" | Stop_Watchpoint => "Watchpoint"
  | Stop_ProgramEnd => "ProgramEnd" | Stop_Halted => "Halted" | Stop_Fault => "Fault" | Stop_StepLimit => "StepLimit"
  end.

(** What a conditional breakpoint and a watchpoint add to a stop; absent is the
    cleared value of the fields. *)
Record ConditionalHit := { ch_id : Z; ch_expression : string; ch_actual_value : Z }.
Record WatchHit := {
  wh_id : Z; wh_mode : MemoryWatchMode; wh_address : Z; wh_size : Z; wh_access_mode : MemoryWatchMode; wh_access_address : Z;
}.

Record DebugStop := {
  stop_reason : DebugStopReason;
  stop_pc : Z;
  stop_executed_steps : Z;
  stop_total_steps : Z;
  stop_message : string;
  stop_conditional : option ConditionalHit;
  stop_watchpoint : option WatchHit;
}.

Definition new_DebugStop : DebugStop :=
  {| stop_reason := Stop_Ready; stop_pc := 0; stop_executed_steps := 0; stop_total_steps := 0; stop_message := "";
     stop_conditional := None; stop_watchpoint := None |}.

Definition stoppedAtBreakpoint (s : DebugStop) : bool := bool_decide (stop_reason s = Stop_Breakpoint).
Definition stoppedAtConditionalBreakpoint (s : DebugStop) : bool := bool_decide (stop_reason s = Stop_ConditionalBreakpoint).
Definition stoppedAtWatchpoint (s : DebugStop) : bool := bool_decide (stop_reason s = Stop_Watchpoint).
Definition DebugStop_faulted (s : DebugStop) : bool := bool_decide (stop_reason s = Stop_Fault).
Definition reachedProgramEnd (s : DebugStop) : bool := bool_decide (stop_reason s = Stop_ProgramEnd).

Definition new_metadata : ExecutableMetadata :=
  {| md_source_name := ""; md_format_major_version := kMajorVersion; md_format_minor_version := kMinorVersion;
     md_endianness := BE_Little; md_memory_size := 0; md_code_base := 0; md_code_size := 0; md_code_end_exclusive := 0;
     md_entry_offset := 0; md_entry_point := 0; md_data_base := 0; md_data_size := 0; md_data_end_exclusive := 0;
     md_user_data_begin := 0; md_user_data_end_exclusive := 0; md_user_stack_begin := 0;
     md_user_stack_end_exclusive := 0 |}.

Record DebugSession (H : Type) := {
  ds_machine : Machine H;
  ds_loaded : bool;
  ds_source_name : string;
  ds_metadata : ExecutableMetadata;
  ds_symbols : DebugSymbols;
  ds_breakpoints : gset Z;
  ds_conditional_breakpoints : list ConditionalBreakpoint;
  ds_next_conditional_breakpoint_id : Z;
  ds_watchpoints : list MemoryWatchpoint;
  ds_next_watchpoint_id : Z;
  ds_total_steps : Z;
  ds_last_stop : DebugStop;
}.
Arguments Build_DebugSession {H}.
Arguments ds_machine {H}.
Arguments ds_loaded {H}.
Arguments ds_source_name {H}.
Arguments ds_metadata {H}.
Arguments ds_symbols {H}.
Arguments ds_breakpoints {H}.
Arguments ds_conditional_breakpoints {H}.
Arguments ds_next_conditional_breakpoint_id {H}.
Arguments ds_watchpoints {H}.
Arguments ds_next_watchpoint_id {H}.
Arguments ds_total_steps {H}.
Arguments ds_last_stop {H}.

(** ** Shared with the multi-process debugger *)

(** The detail of the last recorded event, if it is a resolved access: its mode
    and its address. *)
Definition traced_access (c : CPU) : outcome (option (MemoryWatchMode * Z)) :=
  if bool_decide (trace_logger c = []) then mret None
  else
    event ← TraceLogger_last (trace_logger c);
    analysis ← TraceEvent_analyze event;
    let detail := ta_memory analysis in
    mret (if negb (mt_active detail) || negb (mt_has_address detail) || (negb (mt_is_read detail) && negb (mt_is_write detail))
          then None
          else Some (if mt_is_write detail then Watch_Write else Watch_Read, mt_address detail)).

(** Does an access of [sizeof(std::int64_t)] bytes match a watched range? *)
Definition watch_matches (accessMode : MemoryWatchMode) (accessBegin : Z) (w : MemoryWatchpoint) : bool :=
  let accessEnd := u64 (accessBegin + 8) in
  (bool_decide (wp_mode w = Watch_Access) || bool_decide (wp_mode w = accessMode))
  && ((wp_address w <? accessEnd) && (accessBegin <? MemoryWatchpoint_endExclusive w)).

(** The first of the conditional breakpoints of an address that holds. *)
Fixpoint first_condition {B} (condition : B -> DebugCondition) (here : B -> bool) (c : CPU) (l : list B)
    : outcome (option (B * Z)) :=
  match l with
  | [] => mret None
  | b :: l =>
      if negb (here b) then first_condition condition here c l
      else
        _ ← DebugCondition_validateForCPU (condition b) c;
        actual ← DebugCondition_actualValue (condition b) c;
        holds ← DebugCondition_evaluate (condition b) c;
        if (holds : bool) then mret (Some (b, actual)) else first_condition condition here c l
  end.

(** Remove the first element with an identifier, if there is one. *)
Fixpoint erase_first {B} (matches : B -> bool) (l : list B) : bool * list B :=
  match l with
  | [] => (false, [])
  | b :: l => if matches b then (true, l) else let '(found, l) := erase_first matches l in (found, b :: l)
  end.

Section session.
Context {LD : LongDouble} {H : Type} {SIH : SoftwareInterruptHandler H}.

Abbreviation Session := (DebugSession H).

(** Assignments to members. *)
Definition set_session_machine (m : Machine H) (s : Session) : Session :=
  Build_DebugSession m (ds_loaded s) (ds_source_name s) (ds_metadata s) (ds_symbols s) (ds_breakpoints s)
    (ds_conditional_breakpoints s) (ds_next_conditional_breakpoint_id s) (ds_watchpoints s) (ds_next_watchpoint_id s)
    (ds_total_steps s) (ds_last_stop s).
Definition set_session_symbols (symbols : DebugSymbols) (s : Session) : Session :=
  Build_DebugSession (ds_machine s) (ds_loaded s) (ds_source_name s) (ds_metadata s) symbols (ds_breakpoints s)
    (ds_conditional_breakpoints s) (ds_next_conditional_breakpoint_id s) (ds_watchpoints s) (ds_next_watchpoint_id s)
    (ds_total_steps s) (ds_last_stop s).
Definition set_session_breakpoints (breakpoints : gset Z) (s : Session) : Session :=
  Build_DebugSession (ds_machine s) (ds_loaded s) (ds_source_name s) (ds_metadata s) (ds_symbols s) breakpoints
    (ds_conditional_breakpoints s) (ds_next_conditional_breakpoint_id s) (ds_watchpoints s) (ds_next_watchpoint_id s)
    (ds_total_steps s) (ds_last_stop s).
Definition set_session_conditionals (l : list ConditionalBreakpoint) (next : Z) (s : Session) : Session :=
  Build_DebugSession (ds_machine s) (ds_loaded s) (ds_source_name s) (ds_metadata s) (ds_symbols s) (ds_breakpoints s)
    l next (ds_watchpoints s) (ds_next_watchpoint_id s) (ds_total_steps s) (ds_last_stop s).
Definition set_session_watchpoints (l : list MemoryWatchpoint) (next : Z) (s : Session) : Session :=
  Build_DebugSession (ds_machine s) (ds_loaded s) (ds_source_name s) (ds_metadata s) (ds_symbols s) (ds_breakpoints s)
    (ds_conditional_breakpoints s) (ds_next_conditional_breakpoint_id s) l next (ds_total_steps s) (ds_last_stop s).
Definition set_session_total (total : Z) (s : Session) : Session :=
  Build_DebugSession (ds_machine s) (ds_loaded s) (ds_source_name s) (ds_metadata s) (ds_symbols s) (ds_breakpoints s)
    (ds_conditional_breakpoints s) (ds_next_conditional_breakpoint_id s) (ds_watchpoints s) (ds_next_watchpoint_id s)
    total (ds_last_stop s).
Definition set_session_stop (stop : DebugStop) (s : Session) : Session :=
  Build_DebugSession (ds_machine s) (ds_loaded s) (ds_source_name s) (ds_metadata s) (ds_symbols s) (ds_breakpoints s)
    (ds_conditional_breakpoints s) (ds_next_conditional_breakpoint_id s) (ds_watchpoints s) (ds_next_watchpoint_id s)
    (ds_total_steps s) stop.

Definition session_cpu (s : Session) : CPU := cpu (ds_machine s).

(** The default constructor, next to the objects of the host. *)
Definition new_DebugSession (w : World) (h : H) : Session :=
  Build_DebugSession (mkMachine new_CPU w h) false "" new_metadata no_symbols ∅ [] 1 [] 1 0 new_DebugStop.

(** ** Loading *)

(** The context a fresh process of the image would have. *)
Definition image_context (image : ProcessImage) : ProcessContext :=
  {| ctx_pid := 1; ctx_registers := im_initial_registers image; ctx_flags := im_initial_flags image;
     ctx_pc := im_initial_pc image; ctx_sp := im_initial_sp image; ctx_privilege := im_initial_privilege image;
     ctx_has_user_code_range := true; ctx_user_code_begin := md_code_base (im_metadata image);
     ctx_user_code_end_exclusive := md_code_end_exclusive (im_metadata image);
     ctx_user_stack_begin := md_user_stack_begin (im_metadata image);
     ctx_user_stack_end_exclusive := md_user_stack_end_exclusive (im_metadata image);
     ctx_kernel_stack_pointer := im_initial_kernel_stack_pointer image |}.

(** [stagedCpu]: nothing of the session changes when a call throws. *)
Definition image_cpu (image : ProcessImage) : outcome CPU :=
  _ ← validateProcessImage image;
  addressSpace ← ProcessAddressSpace_of_image image;
  let '(r, c) := (_ ← ProcessAddressSpace_activate addressSpace; restoreProcessContext (image_context image)) new_CPU in
  _ ← r;
  mret (set_trace TraceLogger_clear c).

Definition DebugSession_loadImage (image : ProcessImage) : M Session unit :=
  c ← lift (image_cpu image);
  modify (fun s =>
    Build_DebugSession (mkMachine c (world (ds_machine s)) (handler (ds_machine s))) true
      (md_source_name (im_metadata image)) (im_metadata image) no_symbols ∅ [] 1 [] 1 0
      {| stop_reason := Stop_Ready; stop_pc := pc (state c); stop_executed_steps := 0; stop_total_steps := 0;
         stop_message := ""; stop_conditional := None; stop_watchpoint := None |}).

(** [read_file] gives the bytes of an executable, [read_text] the text of a file
    that can be opened. *)
Definition DebugSession_loadFile (read_file : string -> outcome (list Z)) (read_text : string -> option string) (path : string)
    : M Session unit :=
  image ← lift (bytes ← read_file path; ProcessImageLoader_loadFromBytes bytes path);
  _ ← DebugSession_loadImage image;
  let symbolsPath := debugSymbolsPathForExecutable path in
  match read_text symbolsPath with
  | None => mret tt
  | Some text => symbols ← lift (DebugSymbols_readFile symbolsPath (Some text)); modify (set_session_symbols symbols)
  end.

(** ** Queries *)

Definition requireLoaded (s : Session) : outcome unit :=
  throw_if (negb (ds_loaded s)) (RuntimeError "Debugger session has no loaded executable").

(** A [const] member that starts with [requireLoaded()]. *)
Definition when_loaded {A} (f : Session -> outcome A) : M Session A :=
  s ← get; _ ← lift (requireLoaded s); lift (f s).

Definition DebugSession_loaded (s : Session) : bool := ds_loaded s.
Definition DebugSession_sourceName := when_loaded (fun s => mret (ds_source_name s)).
Definition DebugSession_metadata := when_loaded (fun s => mret (ds_metadata s)).
Definition DebugSession_cpu := when_loaded (fun s => mret (session_cpu s)).
Definition DebugSession_totalSteps := when_loaded (fun s => mret (ds_total_steps s)).
Definition DebugSession_lastStop := when_loaded (fun s => mret (ds_last_stop s)).
Definition DebugSession_hasSymbols := when_loaded (fun s => mret (negb (DebugSymbols_empty (ds_symbols s)))).
Definition DebugSession_symbols := when_loaded (fun s => mret (ds_symbols s)).
Definition DebugSession_resolveCodeSymbol (name : string) := when_loaded (fun s => DebugSymbols_resolveCode name (ds_symbols s)).
Definition DebugSession_resolveDataSymbol (name : string) := when_loaded (fun s => DebugSymbols_resolveData name (ds_symbols s)).

Definition DebugSession_loadSymbolsFile (read_text : string -> option string) (path : string) : M Session unit :=
  symbols ← when_loaded (fun _ => DebugSymbols_readFile path (read_text path));
  modify (set_session_symbols symbols).

(** ** Breakpoints and watchpoints *)

Definition validateBreakpointAddress (address : Z) (s : Session) : outcome unit :=
  let md := ds_metadata s in
  _ ← throw_if ((address <? md_code_base md) || (address >=? md_code_end_exclusive md))
        (RuntimeError "Breakpoint address is outside the executable code section");
  throw_if (negb ((address - md_code_base md) mod kInstructionSize =? 0))
    (RuntimeError "Breakpoint address is not instruction-aligned").

Definition addBreakpoint (address : Z) : M Session bool :=
  known ← when_loaded (fun s => _ ← validateBreakpointAddress address s; mret (bool_decide (address ∈ ds_breakpoints s)));
  _ ← modify (fun s => set_session_breakpoints ({[address]} ∪ ds_breakpoints s) s);
  mret (negb known).

Definition removeBreakpoint (address : Z) : M Session bool :=
  known ← when_loaded (fun s => mret (bool_decide (address ∈ ds_breakpoints s)));
  _ ← modify (fun s => set_session_breakpoints (ds_breakpoints s ∖ {[address]}) s);
  mret (known : bool).

Definition hasBreakpoint (address : Z) : M Session bool :=
  when_loaded (fun s => mret (bool_decide (address ∈ ds_breakpoints s))).

Definition clearBreakpoints : M Session unit :=
  _ ← when_loaded (fun _ => mret tt); modify (set_session_breakpoints ∅).

(** The set is ordered. *)
Definition DebugSession_breakpoints : M Session (list Z) :=
  when_loaded (fun s => mret (merge_sort Z.le (elements (ds_breakpoints s)))).

Definition addConditionalBreakpoint (address : Z) (condition : DebugCondition) : M Session Z :=
  s ← when_loaded (fun s => _ ← validateBreakpointAddress address s;
                            _ ← DebugCondition_validateForCPU condition (session_cpu s); mret s);
  match list_find (fun b => cb_address b = address /\ expression (cb_condition b) = expression condition)
          (ds_conditional_breakpoints s) with
  | Some (_, existing) => mret (cb_id existing)
  | None =>
      let next := ds_next_conditional_breakpoint_id s in
      _ ← throw_if (next =? UINT64_MAX) (RuntimeError "Conditional breakpoint ID space exhausted");
      let breakpoint := {| cb_id := next; cb_address := address; cb_condition := condition |} in
      _ ← modify (set_session_conditionals (ds_conditional_breakpoints s ++ [breakpoint]) (u64 (next + 1)));
      mret next
  end.

Definition removeConditionalBreakpoint (id : Z) : M Session bool :=
  s ← when_loaded mret;
  let '(found, l) := erase_first (fun b => cb_id b =? id) (ds_conditional_breakpoints s) in
  _ ← modify (set_session_conditionals l (ds_next_conditional_breakpoint_id s));
  mret (found : bool).

Definition clearConditionalBreakpoints : M Session unit :=
  s ← when_loaded mret; modify (set_session_conditionals [] (ds_next_conditional_breakpoint_id s)).

Definition conditionalBreakpoints := when_loaded (fun s => mret (ds_conditional_breakpoints s)).

Definition validateWatchpointRange (address size : Z) (s : Session) : outcome unit :=
  let memorySize := Memory_size (memory (state (session_cpu s))) in
  _ ← throw_if (size =? 0) (RuntimeError "Watchpoint size must be greater than zero");
  throw_if ((address >=? memorySize) || (size >? memorySize - address))
    (RuntimeError "Watchpoint range is outside process memory").

Definition addWatchpoint (address size : Z) (mode : MemoryWatchMode) : M Session Z :=
  s ← when_loaded (fun s => _ ← validateWatchpointRange address size s; mret s);
  match list_find (fun w => wp_address w = address /\ wp_size w = size /\ wp_mode w = mode) (ds_watchpoints s) with
  | Some (_, existing) => mret (wp_id existing)
  | None =>
      let next := ds_next_watchpoint_id s in
      _ ← throw_if (next =? UINT64_MAX) (RuntimeError "Watchpoint ID space exhausted");
      let watchpoint := {| wp_id := next; wp_address := address; wp_size := size; wp_mode := mode |} in
      _ ← modify (set_session_watchpoints (ds_watchpoints s ++ [watchpoint]) (u64 (next + 1)));
      mret next
  end.

Definition removeWatchpoint (id : Z) : M Session bool :=
  s ← when_loaded mret;
  let '(found, l) := erase_first (fun w => wp_id w =? id) (ds_watchpoints s) in
  _ ← modify (set_session_watchpoints l (ds_next_watchpoint_id s));
  mret (found : bool).

Definition clearWatchpoints : M Session unit :=
  s ← when_loaded mret; modify (set_session_watchpoints [] (ds_next_watchpoint_id s)).

Definition DebugSession_watchpoints := when_loaded (fun s => mret (ds_watchpoints s)).

(** ** Stops *)

Definition stop_of (s : Session) (reason : DebugStopReason) (executedSteps : Z) (message : string)
    (conditional : option ConditionalHit) (watchpoint : option WatchHit) : DebugStop :=
  {| stop_reason := reason; stop_pc := pc (state (session_cpu s)); stop_executed_steps := executedSteps;
     stop_total_steps := ds_total_steps s; stop_message := message; stop_conditional := conditional;
     stop_watchpoint := watchpoint |}.

Definition make_stop (reason : DebugStopReason) (executedSteps : Z) (message : string)
    (conditional : option ConditionalHit) (watchpoint : option WatchHit) : M Session DebugStop :=
  s ← get;
  let stop := stop_of s reason executedSteps message conditional watchpoint in
  _ ← modify (set_session_stop stop);
  mret stop.

Definition makeStop (reason : DebugStopReason) (executedSteps : Z) (message : string) : M Session DebugStop :=
  make_stop reason executedSteps message None None.

Definition makeConditionalBreakpointStop (b : ConditionalBreakpoint) (actual executedSteps : Z) : M Session DebugStop :=
  let text := expression (cb_condition b) in
  make_stop Stop_ConditionalBreakpoint executedSteps
    ("Conditional breakpoint " +:+ pretty (cb_id b) +:+ " matched: " +:+ text)
    (Some {| ch_id := cb_id b; ch_expression := text; ch_actual_value := actual |}) None.

Definition makeWatchpointStop (w : MemoryWatchpoint) (accessMode : MemoryWatchMode) (accessAddress executedSteps : Z)
    : M Session DebugStop :=
  make_stop Stop_Watchpoint executedSteps
    ("Watchpoint " +:+ pretty (wp_id w) +:+ " matched " +:+ memoryWatchModeToString accessMode +:+ " at address "
     +:+ pretty accessAddress)
    None
    (Some {| wh_id := wp_id w; wh_mode := wp_mode w; wh_address := wp_address w; wh_size := wp_size w;
             wh_access_mode := accessMode; wh_access_address := accessAddress |}).

Definition atProgramEnd (s : Session) : bool := pc (state (session_cpu s)) =? md_code_end_exclusive (ds_metadata s).

Definition classifyStoppedState (executedSteps : Z) : M Session DebugStop :=
  s ← get;
  let st := state (session_cpu s) in
  if has_error st then makeStop Stop_Fault executedSteps (error_message st)
  else if halted st then makeStop Stop_Halted executedSteps ""
  else if atProgramEnd s then makeStop Stop_ProgramEnd executedSteps ""
  else mret (stop_of s Stop_Ready executedSteps "" None None).

Definition findConditionalBreakpointHit (address : Z) (s : Session) : outcome (option (ConditionalBreakpoint * Z)) :=
  first_condition cb_condition (fun b => cb_address b =? address) (session_cpu s) (ds_conditional_breakpoints s).

Definition findWatchpointHit (s : Session) : outcome (option (MemoryWatchpoint * MemoryWatchMode * Z)) :=
  if bool_decide (ds_watchpoints s = []) then mret None
  else
    access ← traced_access (session_cpu s);
    mret (match access with
          | None => None
          | Some (mode, address) =>
              match list_find (fun w => watch_matches mode address w = true) (ds_watchpoints s) with
              | Some (_, w) => Some (w, mode, address)
              | None => None
              end
          end).

(** ** Stepping *)

(** [cpu_.step(); ++total_steps_;] *)
Definition execute_step : M Session unit :=
  _ ← zoom ds_machine set_session_machine CPU_step;
  modify (fun s => set_session_total (u64 (ds_total_steps s + 1)) s).

(** A breakpoint or a condition at the current program counter. *)
Definition breakpoint_stop (executedSteps : Z) : M Session (option DebugStop) :=
  s ← get;
  let pc := pc (state (session_cpu s)) in
  here ← hasBreakpoint pc;
  if (here : bool) then stop ← makeStop Stop_Breakpoint executedSteps ""; mret (Some stop)
  else
    hit ← lift (findConditionalBreakpointHit pc s);
    match hit with
    | Some (b, actual) => stop ← makeConditionalBreakpointStop b actual executedSteps; mret (Some stop)
    | None => mret None
    end.

(** The checks in front of an instruction. *)
Definition stop_before (skipInitialBreakpoint : bool) (executedSteps : Z) : M Session (option DebugStop) :=
  stopped ← classifyStoppedState executedSteps;
  if negb (bool_decide (stop_reason stopped = Stop_Ready)) then mret (Some stopped)
  else if skipInitialBreakpoint then mret None
  else breakpoint_stop executedSteps.

(** The checks after an instruction: a fault or a halt, then a watched access,
    then the end of the program. *)
Definition stop_after (executedSteps : Z) : M Session (option DebugStop) :=
  after ← classifyStoppedState executedSteps;
  if bool_decide (stop_reason after = Stop_Fault) || bool_decide (stop_reason after = Stop_Halted) then mret (Some after)
  else
    s ← get;
    hit ← lift (findWatchpointHit s);
    match hit with
    | Some (w, mode, address) => stop ← makeWatchpointStop w mode address executedSteps; mret (Some stop)
    | None => mret (if negb (bool_decide (stop_reason after = Stop_Ready)) then Some after else None)
    end.

Definition DebugSession_step : M Session DebugStop :=
  _ ← when_loaded (fun _ => mret tt);
  stopped ← classifyStoppedState 0;
  if negb (bool_decide (stop_reason stopped = Stop_Ready)) then mret stopped
  else
    _ ← execute_step;
    stop ← stop_after 1;
    match stop with Some stop => mret stop | None => makeStop Stop_StepComplete 1 "" end.

(** The loop of [continueExecution], with the steps left of the limit. *)
Fixpoint continue_loop (remaining : nat) (executedSteps : Z) (skipInitialBreakpoint : bool) : M Session DebugStop :=
  stop ← stop_before skipInitialBreakpoint executedSteps;
  match stop, remaining with
  | Some stop, _ => mret stop
  | None, O => makeStop Stop_StepLimit executedSteps "Debugger continue step limit reached"
  | None, S remaining =>
      _ ← execute_step;
      stop ← stop_after (executedSteps + 1);
      match stop with
      | Some stop => mret stop
      | None => continue_loop remaining (executedSteps + 1) false
      end
  end.

Definition DebugSession_continueExecution (maxSteps : Z) : M Session DebugStop :=
  s ← when_loaded mret;
  _ ← throw_if (maxSteps =? 0) (RuntimeError "Debugger continue step limit must be greater than zero");
  let skipInitialBreakpoint :=
    (bool_decide (stop_reason (ds_last_stop s) = Stop_Breakpoint)
     || bool_decide (stop_reason (ds_last_stop s) = Stop_ConditionalBreakpoint))
    && (stop_pc (ds_last_stop s) =? pc (state (session_cpu s))) in
  continue_loop (Z.to_nat maxSteps) 0 skipInitialBreakpoint.

(** The loop of [stepSourceLine]; an address without a source line is stepped
    over. *)
Fixpoint source_loop (remaining : nat) (executedSteps sourceLineBefore : Z) (skipInitialBreakpoint : bool)
    : M Session DebugStop :=
  stop ← stop_before skipInitialBreakpoint executedSteps;
  match stop, remaining with
  | Some stop, _ => mret stop
  | None, O => makeStop Stop_StepLimit executedSteps "Debugger source step limit reached"
  | None, S remaining =>
      _ ← execute_step;
      let executedSteps := executedSteps + 1 in
      stop ← stop_after executedSteps;
      match stop with
      | Some stop => mret stop
      | None =>
          stop ← breakpoint_stop executedSteps;
          match stop with
          | Some stop => mret stop
          | None =>
              s ← get;
              match DebugSymbols_sourceLineForAddress (pc (state (session_cpu s))) (ds_symbols s) with
              | Ret sourceLineAfter =>
                  if negb (sourceLineAfter =? sourceLineBefore) then makeStop Stop_StepComplete executedSteps ""
                  else source_loop remaining executedSteps sourceLineBefore false
              | Throw _ => source_loop remaining executedSteps sourceLineBefore false
              end
          end
      end
  end.

Definition DebugSession_stepSourceLine (maxSteps : Z) : M Session DebugStop :=
  _ ← when_loaded mret;
  _ ← throw_if (maxSteps =? 0) (RuntimeError "Debugger source step limit must be greater than zero");
  initialState ← classifyStoppedState 0;
  if negb (bool_decide (stop_reason initialState = Stop_Ready)) then mret initialState
  else
    s ← get;
    _ ← throw_if (negb (DebugSymbols_hasSourceLocations (ds_symbols s)))
          (RuntimeError "Debugger source stepping requires a source map");
    sourceLineBefore ← lift (DebugSymbols_sourceLineForAddress (pc (state (session_cpu s))) (ds_symbols s));
    source_loop (Z.to_nat maxSteps) 0 sourceLineBefore true.

End session.
