(* ===== verification/DebugLaws.v ===== *)
(** * The debugger stops where it says it stops

    The invariant of a debugging session and the refinement of its three ways to
    run ([step], [continueExecution], [stepSourceLine]): each makes CPU steps and
    stops at the first point where one of an ordered list of causes holds. *)

From Stdlib Require Import Sorted.
From S2P Require Import Prelude Words Strings ALU Memory ISA Binary Interrupts Devices CPUState Trace CPU CPUExec CPUStep CPUFrames CPUInv CPURun CPUShape Image Process Assembler TraceDetail DebugCondition DebugSymbols DebugSession.
Open Scope Z_scope.

(** ** Causes of a stop *)

Record Cause := { ca_reason : DebugStopReason; ca_message : string; ca_conditional : option ConditionalHit;
                  ca_watchpoint : option WatchHit }.
Definition plain_cause (reason : DebugStopReason) (message : string) : Cause :=
  {| ca_reason := reason; ca_message := message; ca_conditional := None; ca_watchpoint := None |}.

Section laws.
Context {LD : LongDouble} {H : Type} {SIH : SoftwareInterruptHandler H} {QH : QuietHandler H}.
Abbreviation Session := (DebugSession H).
Implicit Types (s : Session).

Definition session_state s : CPUState := state (session_cpu s).

(** A cause, if it holds now. *)
Abbreviation Check := (Session -> outcome (option Cause)).

Definition fault_check : Check := fun s =>
  mret (if has_error (session_state s) then Some (plain_cause Stop_Fault (error_message (session_state s))) else None).
Definition halt_check : Check := fun s => mret (if halted (session_state s) then Some (plain_cause Stop_Halted "") else None).
Definition end_check : Check := fun s => mret (if atProgramEnd s then Some (plain_cause Stop_ProgramEnd "") else None).
Definition breakpoint_check : Check := fun s =>
  mret (if bool_decide (pc (session_state s) ∈ ds_breakpoints s) then Some (plain_cause Stop_Breakpoint "") else None).

Definition condition_cause (hit : ConditionalBreakpoint * Z) : Cause :=
  let '(b, actual) := hit in
  let text := expression (cb_condition b) in
  {| ca_reason := Stop_ConditionalBreakpoint;
     ca_message := "Conditional breakpoint " +:+ pretty (cb_id b) +:+ " matched: " +:+ text;
     ca_conditional := Some {| ch_id := cb_id b; ch_expression := text; ch_actual_value := actual |};
     ca_watchpoint := None |}.
Definition condition_check : Check := fun s =>
  hit ← findConditionalBreakpointHit (pc (session_state s)) s; mret (option_map condition_cause hit).

Definition watch_cause (hit : MemoryWatchpoint * MemoryWatchMode * Z) : Cause :=
  let '(w, mode, address) := hit in
  {| ca_reason := Stop_Watchpoint;
     ca_message := "Watchpoint " +:+ pretty (wp_id w) +:+ " matched " +:+ memoryWatchModeToString mode +:+ " at address "
                   +:+ pretty address;
     ca_conditional := None;
     ca_watchpoint := Some {| wh_id := wp_id w; wh_mode := wp_mode w; wh_address := wp_address w; wh_size := wp_size w;
                              wh_access_mode := mode; wh_access_address := address |} |}.
Definition watch_check : Check := fun s => hit ← findWatchpointHit s; mret (option_map watch_cause hit).

(** The source line has changed. *)
Definition line_check (line : Z) : Check := fun s =>
  mret (match DebugSymbols_sourceLineForAddress (pc (session_state s)) (ds_symbols s) with
        | Ret now => if now =? line then None else Some (plain_cause Stop_StepComplete "")
        | Throw _ => None
        end).

(** The first cause of a list that holds. *)
Fixpoint first_cause (checks : list Check) : Check := fun s =>
  match checks with
  | [] => mret None
  | check :: checks => match check s with Ret None => first_cause checks s | r => r end
  end.

(** The order of the causes: after [k] steps, and before the first one, when there
    is no access to watch. *)
Definition ready_checks (k : nat) : list Check :=
  [fault_check; halt_check] ++ (match k with O => [] | S _ => [watch_check] end) ++ [end_check].
Definition continue_checks (skip : bool) (k : nat) : list Check :=
  ready_checks k ++ (match k with
                     | O => if skip then [] else [breakpoint_check; condition_check]
                     | S _ => [breakpoint_check; condition_check]
                     end).
Definition source_checks (line : Z) (k : nat) : list Check :=
  continue_checks true k ++ (match k with O => [] | S _ => [line_check line] end).

(** The stop a cause is reported as, after [k] steps. *)
Definition caused_stop (c : Cause) (k : Z) s : DebugStop :=
  stop_of s (ca_reason c) k (ca_message c) (ca_conditional c) (ca_watchpoint c).
Definition stop_with (c : Cause) (k : Z) s : outcome DebugStop * Session :=
  (Ret (caused_stop c k s), set_session_stop (caused_stop c k s) s).

(** A session after [k] steps of its CPU. *)
Definition session_after (k : nat) s : Session :=
  set_session_total (u64 (ds_total_steps s + Z.of_nat k)) (set_session_machine (steps k (ds_machine s)) s).

(** Steps are made until a cause holds, at most [n] of them. *)
Definition stops_first (checks : nat -> list Check) (limit : Cause) (n : nat) s (r : outcome DebugStop * Session) : Prop :=
  exists k : nat, (k <= n)%nat /\
    (forall j, (j < k)%nat -> first_cause (checks j) (session_after j s) = Ret None) /\
    match first_cause (checks k) (session_after k s) with
    | Ret (Some c) => r = stop_with c (Z.of_nat k) (session_after k s)
    | Throw e => r = (Throw e, session_after k s)
    | Ret None => k = n /\ r = stop_with limit (Z.of_nat k) (session_after k s)
    end.

(** ** The invariant *)

(** Identifiers are handed out in increasing order. *)
Definition ids_ok (ids : list Z) (next : Z) : Prop :=
  StronglySorted Z.lt ids /\ Forall (fun id => 1 <= id < next) ids /\ 1 <= next <= UINT64_MAX.

(** What a session with an executable keeps: the CPU runs a binary program, every
    recorded event can be analysed, and every breakpoint, condition and watchpoint
    is one the session would accept now, under an identifier of its own. *)
Record session_ok s : Prop := {
  so_loaded : ds_loaded s = true;
  so_shape : shaped (session_state s);
  so_binary : has_binary_program (session_cpu s) = true;
  so_trace : Forall event_ok (trace_logger (session_cpu s));
  so_total : is_u64 (ds_total_steps s);
  so_breakpoints : set_Forall (fun a => validateBreakpointAddress a s = Ret tt) (ds_breakpoints s);
  so_conditions : Forall (fun b => validateBreakpointAddress (cb_address b) s = Ret tt /\
    DebugCondition_validateForCPU (cb_condition b) (session_cpu s) = Ret tt) (ds_conditional_breakpoints s);
  so_conditions_distinct : NoDup ((fun b => (cb_address b, expression (cb_condition b))) <$> ds_conditional_breakpoints s);
  so_condition_ids : ids_ok (cb_id <$> ds_conditional_breakpoints s) (ds_next_conditional_breakpoint_id s);
  so_watchpoints : Forall (fun w => 0 <= wp_address w /\ 0 < wp_size w /\
    wp_address w + wp_size w <= Memory_size (memory (session_state s))) (ds_watchpoints s);
  so_watchpoints_distinct : NoDup ((fun w => (wp_address w, wp_size w, wp_mode w)) <$> ds_watchpoints s);
  so_watchpoint_ids : ids_ok (wp_id <$> ds_watchpoints s) (ds_next_watchpoint_id s);
}.

(** ** Lemmas: the checks as the code makes them *)

Definition checked (checks : list Check) (k : Z) s : outcome (option DebugStop) * Session :=
  match first_cause checks s with
  | Ret (Some c) => (Ret (Some (caused_stop c k s)), set_session_stop (caused_stop c k s) s)
  | Ret None => (Ret None, s)
  | Throw e => (Throw e, s)
  end.

Lemma first_cause_app l1 l2 s :
  first_cause (l1 ++ l2) s = match first_cause l1 s with Ret None => first_cause l2 s | r => r end.
Proof. induction l1 as [|c l1 IH]; cbn; [reflexivity|]. destruct (c s) as [[x|]|e]; [reflexivity | exact IH | reflexivity]. Qed.

Lemma classify_run k s :
  classifyStoppedState k s =
    match first_cause (ready_checks 0) s with
    | Ret (Some c) => stop_with c k s
    | _ => (Ret (stop_of s Stop_Ready k "" None None), s)
    end.
Proof.
  unfold classifyStoppedState. rewrite bind_run. unfold get at 1. cbv beta iota zeta. cbn.
  unfold fault_check, halt_check, end_check, session_state. destruct (has_error _); [reflexivity|].
  destruct (halted _); [reflexivity|]. destruct (atProgramEnd s); reflexivity.
Qed.

Lemma breakpoint_stop_run k s : ds_loaded s = true -> breakpoint_stop k s = checked [breakpoint_check; condition_check] k s.
Proof.
  intros Hl. unfold breakpoint_stop. rewrite bind_run. unfold get at 1. cbv beta iota zeta. rewrite bind_run.
  unfold hasBreakpoint, when_loaded. rewrite bind_run. unfold get at 1. cbv beta iota. rewrite bind_run.
  unfold requireLoaded. rewrite Hl. cbn. unfold checked. cbn. unfold breakpoint_check, session_state.
  destruct (bool_decide _); [reflexivity|]. cbn. unfold condition_check. rewrite bind_run. unfold lift at 1.
  destruct (findConditionalBreakpointHit _ s) as [[[b a]|]|e]; reflexivity.
Qed.

Lemma stop_before_run skip k s :
  ds_loaded s = true ->
  stop_before skip k s = checked (ready_checks 0 ++ (if skip then [] else [breakpoint_check; condition_check])) k s.
Proof.
  intros Hl. unfold stop_before, checked. rewrite bind_run, classify_run, first_cause_app.
  assert (Hr : forall c, first_cause (ready_checks 0) s = Ret (Some c) -> ca_reason c <> Stop_Ready).
  { intros c. cbn. unfold fault_check, halt_check, end_check. destruct (has_error (session_state s)), (halted (session_state s)), (atProgramEnd s);
      intros [= <-]; discriminate. }
  assert (Ht : forall e, first_cause (ready_checks 0) s <> Throw e).
  { intros e. cbn. unfold fault_check, halt_check, end_check. destruct (has_error (session_state s)), (halted (session_state s)), (atProgramEnd s); discriminate. }
  destruct (first_cause (ready_checks 0) s) as [[c|]|e] eqn:E.
  - unfold stop_with. cbv beta iota. rewrite bool_decide_eq_false_2 by exact (Hr c eq_refl). reflexivity.
  - cbv beta iota. rewrite bool_decide_eq_true_2 by reflexivity. cbn [negb]. destruct skip; [reflexivity|].
    rewrite breakpoint_stop_run by exact Hl. reflexivity.
  - destruct (Ht e eq_refl).
Qed.

Lemma stop_after_run k n s : (exists hit, findWatchpointHit s = Ret hit) -> stop_after k s = checked (ready_checks (S n)) k s.
Proof.
  intros [hit Hhit]. unfold stop_after, checked. rewrite bind_run, classify_run. cbn.
  assert (Hw : forall stop, findWatchpointHit (set_session_stop stop s) = Ret hit) by (intros stop; exact Hhit).
  unfold fault_check, halt_check. destruct (has_error (session_state s)); [reflexivity|]. cbn.
  destruct (halted (session_state s)); [reflexivity|]. cbn. unfold watch_check. rewrite Hhit, bind_Ret.
  destruct (atProgramEnd s); cbn;
    [change (bool_decide (Stop_ProgramEnd = Stop_Fault) || bool_decide (Stop_ProgramEnd = Stop_Halted)) with false
    |change (bool_decide (Stop_Ready = Stop_Fault) || bool_decide (Stop_Ready = Stop_Halted)) with false]; cbv iota;
    rewrite bind_run; unfold get at 1; cbv beta iota; rewrite bind_run; unfold lift at 1; [rewrite Hw | rewrite Hhit];
    destruct hit as [[[w mode] a]|]; reflexivity.
Qed.

Definition step_session s : Session :=
  set_session_total (u64 (ds_total_steps s + 1)) (set_session_machine (CPU_step (ds_machine s)).2 s).

Lemma execute_step_run s : execute_step s = (Ret tt, step_session s).
Proof.
  unfold execute_step. rewrite bind_run. unfold zoom. rewrite CPU_step_unit. reflexivity.
Qed.

Lemma session_after_0 s : is_u64 (ds_total_steps s) -> session_after 0 s = s.
Proof. intros Ht. unfold session_after. rewrite Z.add_0_r, u64_small by exact Ht. destruct s; reflexivity. Qed.

Lemma session_after_S k s : session_after k (step_session s) = session_after (S k) s.
Proof.
  unfold session_after. rewrite steps_S. unfold step_session, set_session_total, set_session_machine. cbn -[Z.of_nat]. f_equal.
  unfold u64. rewrite Zplus_mod_idemp_l. f_equal. lia.
Qed.

(** ** The loops *)

(** The state of a loop: [k] steps are made, [n] may follow. *)
Definition stops_from (checks : nat -> list Check) (limit : Cause) (n k : nat) s (r : outcome DebugStop * Session) : Prop :=
  exists j : nat, (j <= n)%nat /\
    (forall i, (i < j)%nat -> first_cause (checks (k + i)%nat) (session_after i s) = Ret None) /\
    match first_cause (checks (k + j)%nat) (session_after j s) with
    | Ret (Some c) => r = stop_with c (Z.of_nat (k + j)) (session_after j s)
    | Throw e => r = (Throw e, session_after j s)
    | Ret None => j = n /\ r = stop_with limit (Z.of_nat (k + j)) (session_after j s)
    end.

(** A cause holds now. *)
Lemma stops_now checks limit n k s r :
  is_u64 (ds_total_steps s) ->
  match first_cause (checks k) s with
  | Ret (Some c) => r = stop_with c (Z.of_nat k) s
  | Throw e => r = (Throw e, s)
  | Ret None => n = O /\ r = stop_with limit (Z.of_nat k) s
  end -> stops_from checks limit n k s r.
Proof.
  intros Ht Hr. exists O. split; [lia|]. split; [intros i Hi; lia|]. rewrite Nat.add_0_r, session_after_0 by exact Ht.
  destruct (first_cause (checks k) s) as [[c|]|e]; [exact Hr | destruct Hr as [-> Hr]; auto | exact Hr].
Qed.

(** None holds, and a step is made. *)
Lemma stops_later checks limit n k s r :
  is_u64 (ds_total_steps s) -> first_cause (checks k) s = Ret None ->
  stops_from checks limit n (S k) (step_session s) r -> stops_from checks limit (S n) k s r.
Proof.
  intros Ht Hk (j & Hj & Hbefore & Hr). exists (S j). split; [lia|]. split.
  - intros [|i] Hi; [rewrite Nat.add_0_r, session_after_0 by exact Ht; exact Hk|].
    rewrite <- session_after_S, Nat.add_succ_r. apply (Hbefore i). lia.
  - rewrite Nat.add_succ_r, <- session_after_S. cbn [Nat.add] in Hr.
    destruct (first_cause (checks (S (k + j))) _) as [[c|]|e]; [exact Hr | destruct Hr as [-> Hr]; auto | exact Hr].
Qed.

(** ** Steps keep the invariant *)

Lemma condition_valid_size d c c' :
  Memory_size (memory (state c')) = Memory_size (memory (state c)) ->
  DebugCondition_validateForCPU d c = Ret tt -> DebugCondition_validateForCPU d c' = Ret tt.
Proof. intros Hm. unfold DebugCondition_validateForCPU. rewrite Hm. auto. Qed.

(** Another CPU in a session. *)
Lemma session_ok_machine s m :
  session_ok s -> shaped (mstate m) -> has_binary_program (cpu m) = true -> Forall event_ok (trace_logger (cpu m)) ->
  session_ok (set_session_machine m s).
Proof.
  intros [L S B T U Bp Cn Cd Ci W Wd Wi] S' B' T'.
  assert (Hm : Memory_size (memory (mstate m)) = Memory_size (memory (session_state s))).
  { destruct S' as [_ ->]. destruct S as [_ ->]. reflexivity. }
  constructor; try assumption.
  - cbn. eapply Forall_impl; [exact Cn|]. intros b [Ha Hc]. split; [exact Ha|]. exact (condition_valid_size _ _ _ Hm Hc).
  - cbn. unfold session_state, session_cpu. cbn. fold (mstate m). rewrite Hm. exact W.
Qed.

Lemma session_ok_total s total : session_ok s -> is_u64 total -> session_ok (set_session_total total s).
Proof. intros [] Ht. constructor; assumption. Qed.

Lemma session_ok_stop s stop : session_ok s -> session_ok (set_session_stop stop s).
Proof. intros []. constructor; assumption. Qed.

Lemma step_keeps_session s : session_ok s -> session_ok (step_session s).
Proof.
  intros Hs. unfold step_session. apply session_ok_total; [|apply u64_range].
  destruct (stopped (ds_machine s)) eqn:Est.
  - rewrite step_stopped by exact Est. destruct s; exact Hs.
  - destruct (CPU_step_stepped _ Est (so_shape _ Hs)) as (m' & Hrun & [Hc Hsh (e & Ht & _ & Ha & Hi) _]). rewrite Hrun. cbn [snd].
    apply session_ok_machine; [exact Hs | exact Hsh | rewrite (sc_binary _ _ Hc); apply (so_binary _ Hs)|].
    rewrite Ht. apply Forall_app. split; [apply (so_trace _ Hs)|]. constructor; [|constructor].
    constructor; [apply Hi, (so_binary _ Hs) | rewrite Ha; apply Hsh].
Qed.

Lemma after_keeps_session k s : session_ok s -> session_ok (session_after k s).
Proof.
  revert s. induction k as [|k IH]; intros s Hs.
  - rewrite session_after_0 by apply (so_total _ Hs). exact Hs.
  - rewrite <- session_after_S. apply IH, step_keeps_session, Hs.
Qed.

(** Looking for a watched access never throws. *)
Lemma watch_total s : session_ok s -> exists hit, findWatchpointHit s = Ret hit.
Proof.
  intros Hs. unfold findWatchpointHit. destruct (bool_decide (ds_watchpoints s = [])); [eexists; reflexivity|].
  unfold traced_access. destruct (bool_decide (trace_logger (session_cpu s) = [])) eqn:Et; [eexists; reflexivity|].
  apply bool_decide_eq_false in Et. unfold TraceLogger_last. destruct (last (trace_logger (session_cpu s))) as [e|] eqn:El.
  - destruct (analyze_total e) as [a Ha].
    { pose proof (so_trace _ Hs) as Hf. rewrite Forall_forall in Hf. apply Hf. apply last_Some_elem_of. exact El. }
    rewrite !bind_Ret, Ha, bind_Ret. eexists. reflexivity.
  - apply last_None in El. contradiction.
Qed.

(** ** Stepping *)

Definition step_limit (message : string) : Cause := plain_cause Stop_StepLimit message.

(** A statement of a loop that stops when one of the next checks holds. *)
Lemma stops_bind checks limit n k s l1 l2 (m : M Session (option DebugStop)) (rest : M Session DebugStop) :
  session_ok s -> m s = checked l1 (Z.of_nat k) s -> first_cause (checks k) s = first_cause (l1 ++ l2) s ->
  (first_cause l1 s = Ret None -> stops_from checks limit n k s (rest s)) ->
  stops_from checks limit n k s ((stop ← m; match stop with Some stop => mret stop | None => rest end) s).
Proof.
  intros Hs Hm Hk Hrest. rewrite bind_run, Hm. unfold checked. rewrite first_cause_app in Hk.
  destruct (first_cause l1 s) as [[c|]|e].
  - apply stops_now; [apply (so_total _ Hs)|]. rewrite Hk. reflexivity.
  - apply Hrest. reflexivity.
  - apply stops_now; [apply (so_total _ Hs)|]. rewrite Hk. reflexivity.
Qed.

(** The checks in front of an instruction find nothing new after those behind the
    one before. *)
Lemma ready_again n s : first_cause (ready_checks (S n)) s = Ret None -> first_cause (ready_checks 0) s = Ret None.
Proof.
  cbn. unfold fault_check, halt_check, end_check, watch_check.
  destruct (has_error (session_state s)), (halted (session_state s)); try discriminate. cbn.
  destruct (findWatchpointHit s) as [[hit|]|e]; try discriminate. cbn. destruct (atProgramEnd s); [discriminate | reflexivity].
Qed.

Lemma step_loaded s : session_ok s -> session_ok (step_session s) /\ ds_loaded (step_session s) = true.
Proof. intros Hs. split; [apply step_keeps_session, Hs | apply (so_loaded _ Hs)]. Qed.

Abbreviation continue_limit := (step_limit "Debugger continue step limit reached").

(** An instruction and the checks behind it. *)
Lemma stops_step checks limit n k s l2 (rest : M Session DebugStop) :
  session_ok s -> first_cause (checks k) s = Ret None -> checks (S k) = ready_checks (S k) ++ l2 ->
  (first_cause (ready_checks (S k)) (step_session s) = Ret None ->
     stops_from checks limit n (S k) (step_session s) (rest (step_session s))) ->
  stops_from checks limit (S n) k s
    ((_ ← execute_step; stop ← stop_after (Z.of_nat k + 1); match stop with Some stop => mret stop | None => rest end) s).
Proof.
  intros Hs Hk Hnext Hrest. rewrite bind_run, execute_step_run. cbv beta iota.
  destruct (step_loaded s Hs) as [Hs' _]. apply stops_later; [apply (so_total _ Hs) | exact Hk|].
  apply (stops_bind _ _ _ _ _ (ready_checks (S k)) l2); [exact Hs' | | rewrite Hnext; reflexivity | exact Hrest].
  replace (Z.of_nat k + 1) with (Z.of_nat (S k)) by lia. apply stop_after_run, watch_total, Hs'.
Qed.

(** The limit is reached. *)
Lemma stops_limit checks message k s :
  session_ok s -> first_cause (checks k) s = Ret None ->
  stops_from checks (step_limit message) O k s (makeStop Stop_StepLimit (Z.of_nat k) message s).
Proof. intros Hs Hk. apply stops_now; [apply (so_total _ Hs)|]. rewrite Hk. auto. Qed.

Abbreviation breakpoint_checks := [breakpoint_check; condition_check].

Lemma continue_loop_later skip n : forall k s,
  session_ok s -> first_cause (ready_checks (S k)) s = Ret None ->
  stops_from (continue_checks skip) continue_limit n (S k) s (continue_loop n (Z.of_nat (S k)) false s).
Proof.
  induction n as [|n IH]; intros k s Hs Hr;
    assert (E : first_cause (continue_checks skip (S k)) s = first_cause (ready_checks 0 ++ breakpoint_checks) s)
      by (unfold continue_checks; rewrite !first_cause_app, Hr, (ready_again _ _ Hr); reflexivity);
    apply (stops_bind _ _ _ _ _ (ready_checks 0 ++ breakpoint_checks) []);
    try exact Hs; try (apply stop_before_run, (so_loaded _ Hs)); try (rewrite app_nil_r; exact E); intros Hn; rewrite <- E in Hn.
  - apply stops_limit; assumption.
  - apply (stops_step _ _ _ _ _ breakpoint_checks); [exact Hs | exact Hn | reflexivity|]. intros Ha.
    replace (Z.of_nat (S k) + 1) with (Z.of_nat (S (S k))) by lia. apply IH; [apply step_keeps_session, Hs | exact Ha].
Qed.

Lemma continue_loop_stops skip n s :
  session_ok s -> stops_from (continue_checks skip) continue_limit n 0 s (continue_loop n 0 skip s).
Proof.
  intros Hs. destruct n as [|n];
    apply (stops_bind _ _ _ _ _ (continue_checks skip 0) []);
    try exact Hs; try (destruct skip; apply stop_before_run, (so_loaded _ Hs)); try (rewrite app_nil_r; reflexivity); intros Hn.
  - apply stops_limit; assumption.
  - apply (stops_step _ _ _ _ _ breakpoint_checks _ Hs Hn eq_refl). intros Ha.
    apply continue_loop_later; [apply step_keeps_session, Hs | exact Ha].
Qed.

Abbreviation source_limit := (step_limit "Debugger source step limit reached").

(** What follows an instruction when the CPU is ready: the breakpoints, the line,
    the next turn. *)
Definition source_behind (n : nat) (k line : Z) : M Session DebugStop :=
  stop ← breakpoint_stop k;
  match stop with
  | Some stop => mret stop
  | None =>
      s ← get;
      match DebugSymbols_sourceLineForAddress (pc (state (session_cpu s))) (ds_symbols s) with
      | Ret sourceLineAfter =>
          if negb (sourceLineAfter =? line) then makeStop Stop_StepComplete k "" else source_loop n k line false
      | Throw _ => source_loop n k line false
      end
  end.

Lemma source_checks_later line k s :
  first_cause (ready_checks (S k)) s = Ret None ->
  first_cause (source_checks line (S k)) s = first_cause (breakpoint_checks ++ [line_check line]) s.
Proof. intros Hr. unfold source_checks, continue_checks. rewrite <- app_assoc, first_cause_app, Hr. reflexivity. Qed.

Lemma source_behind_stops line n k s :
  session_ok s -> first_cause (ready_checks (S k)) s = Ret None ->
  (first_cause (source_checks line (S k)) s = Ret None ->
     stops_from (source_checks line) source_limit n (S k) s (source_loop n (Z.of_nat (S k)) line false s)) ->
  stops_from (source_checks line) source_limit n (S k) s (source_behind n (Z.of_nat (S k)) line s).
Proof.
  intros Hs Hr Hloop. pose proof (source_checks_later line k s Hr) as E.
  apply (stops_bind _ _ _ _ _ breakpoint_checks [line_check line]); [exact Hs | apply breakpoint_stop_run, (so_loaded _ Hs) | exact E|].
  intros Hb. rewrite first_cause_app, Hb in E.
  assert (El : first_cause (source_checks line (S k)) s = line_check line s)
    by (rewrite E; cbn [first_cause]; destruct (line_check line s) as [[]|]; reflexivity).
  clear E. revert El. rewrite bind_run. unfold get at 1. cbv beta iota. unfold line_check, session_state.
  destruct (DebugSymbols_sourceLineForAddress _ _) as [now|e]; [|exact Hloop].
  destruct (now =? line); cbn [negb]; [exact Hloop|]. intros E. apply stops_now; [apply (so_total _ Hs)|]. rewrite E. reflexivity.
Qed.

Lemma source_loop_later line n : forall k s,
  session_ok s -> first_cause (source_checks line (S k)) s = Ret None ->
  stops_from (source_checks line) source_limit n (S k) s (source_loop n (Z.of_nat (S k)) line false s).
Proof.
  induction n as [|n IH]; intros k s Hs Hr;
    assert (Hb : first_cause (ready_checks 0 ++ breakpoint_checks) s = Ret None)
      by (unfold source_checks, continue_checks in Hr; rewrite !first_cause_app in Hr; rewrite first_cause_app;
          destruct (first_cause (ready_checks (S k)) s) as [[c|]|e] eqn:E1; try discriminate Hr;
          rewrite (ready_again _ _ E1); destruct (first_cause breakpoint_checks s) as [[c|]|e]; [discriminate Hr | reflexivity | discriminate Hr]);
    apply (stops_bind _ _ _ _ _ (ready_checks 0 ++ breakpoint_checks) []);
    try exact Hs; try (apply stop_before_run, (so_loaded _ Hs)); try (rewrite app_nil_r, Hr; symmetry; exact Hb); intros _.
  - apply stops_limit; assumption.
  - apply (stops_step _ _ _ _ _ (breakpoint_checks ++ [line_check line]) (source_behind n (Z.of_nat (S k) + 1) line) Hs Hr);
      [unfold source_checks, continue_checks; rewrite <- app_assoc; reflexivity|].
    intros Ha. replace (Z.of_nat (S k) + 1) with (Z.of_nat (S (S k))) by lia. pose proof (step_keeps_session _ Hs) as Hs'.
    apply source_behind_stops; [exact Hs' | exact Ha|]. apply IH, Hs'.
Qed.

Lemma source_loop_stops line n s :
  session_ok s -> first_cause (ready_checks 0) s = Ret None ->
  stops_from (source_checks line) source_limit n 0 s (source_loop n 0 line true s).
Proof.
  intros Hs Hr. destruct n as [|n]; apply (stops_bind _ _ _ _ _ (ready_checks 0) []);
    try exact Hs; try (rewrite stop_before_run by apply (so_loaded _ Hs); rewrite app_nil_r; reflexivity); try reflexivity; intros _.
  - apply stops_limit; assumption.
  - apply (stops_step (source_checks line) source_limit n 0 s (breakpoint_checks ++ [line_check line]) (source_behind n 1 line)); [exact Hs | exact Hr | reflexivity|].
    intros Ha. pose proof (step_keeps_session _ Hs) as Hs'. apply (source_behind_stops line n 0); [exact Hs' | exact Ha|].
    apply (source_loop_later line n 0 _ Hs').
Qed.

Lemma stops_from_0 checks limit n s r : stops_from checks limit n 0 s r -> stops_first checks limit n s r.
Proof. intros Hr. exact Hr. Qed.

(** ** The operations *)

Lemma classify_first (rest : M Session DebugStop) k s :
  (stopped ← classifyStoppedState k;
   if negb (bool_decide (stop_reason stopped = Stop_Ready)) then mret stopped else rest) s =
  (stop ← stop_before true k; match stop with Some stop => mret stop | None => rest end) s.
Proof.
  unfold stop_before. rewrite !bind_run. destruct (classifyStoppedState k s) as [[stop|e] s']; [|reflexivity].
  cbv beta iota. destruct (negb _); reflexivity.
Qed.

Lemma loaded_run {A} (f : Session -> outcome A) s : ds_loaded s = true -> when_loaded f s = lift (f s) s.
Proof.
  intros Hl. unfold when_loaded. rewrite bind_run. unfold get at 1. cbv beta iota. rewrite bind_run. unfold requireLoaded.
  rewrite Hl. reflexivity.
Qed.

Lemma not_loaded_run {A} (f : Session -> outcome A) s :
  ds_loaded s = false -> when_loaded f s = (Throw (RuntimeError "Debugger session has no loaded executable"), s).
Proof.
  intros Hl. unfold when_loaded. rewrite bind_run. unfold get at 1. cbv beta iota. rewrite bind_run. unfold requireLoaded.
  rewrite Hl. reflexivity.
Qed.

Lemma step_stops s :
  session_ok s -> stops_first ready_checks (plain_cause Stop_StepComplete "") 1 s (DebugSession_step s).
Proof.
  intros Hs. apply stops_from_0. unfold DebugSession_step. rewrite bind_run, loaded_run by apply (so_loaded _ Hs).
  unfold lift at 1. cbn [mret outcome_ret]. rewrite classify_first.
  apply (stops_bind _ _ _ _ _ (ready_checks 0) []); try exact Hs; try (rewrite app_nil_r; reflexivity).
  - rewrite stop_before_run by apply (so_loaded _ Hs). rewrite app_nil_r. reflexivity.
  - intros Hr. apply (stops_step ready_checks _ 0 0 s []); [exact Hs | exact Hr | rewrite app_nil_r; reflexivity|].
    intros Ha. apply stops_now; [apply (so_total _ (step_keeps_session _ Hs))|]. rewrite Ha. split; reflexivity.
Qed.

(** A breakpoint that was just reported is not reported again before a step. *)
Definition resuming s : bool :=
  (bool_decide (stop_reason (ds_last_stop s) = Stop_Breakpoint)
   || bool_decide (stop_reason (ds_last_stop s) = Stop_ConditionalBreakpoint))
  && (stop_pc (ds_last_stop s) =? pc (session_state s)).

Lemma continue_stops maxSteps s :
  session_ok s -> maxSteps <> 0 ->
  stops_first (continue_checks (resuming s)) continue_limit (Z.to_nat maxSteps) s (DebugSession_continueExecution maxSteps s).
Proof.
  intros Hs Hm. apply stops_from_0. unfold DebugSession_continueExecution. rewrite bind_run, loaded_run by apply (so_loaded _ Hs).
  unfold lift at 1. cbn [mret outcome_ret]. rewrite bind_run. rewrite (proj2 (Z.eqb_neq maxSteps 0)) by lia. cbn [throw_if].
  apply continue_loop_stops, Hs.
Qed.

Lemma source_stops maxSteps line s :
  session_ok s -> maxSteps <> 0 -> DebugSymbols_hasSourceLocations (ds_symbols s) = true ->
  DebugSymbols_sourceLineForAddress (pc (session_state s)) (ds_symbols s) = Ret line ->
  stops_first (source_checks line) source_limit (Z.to_nat maxSteps) s (DebugSession_stepSourceLine maxSteps s).
Proof.
  intros Hs Hm Hmap Hline. apply stops_from_0. unfold DebugSession_stepSourceLine. rewrite bind_run, loaded_run by apply (so_loaded _ Hs).
  unfold lift at 1. cbn [mret outcome_ret]. rewrite bind_run. rewrite (proj2 (Z.eqb_neq maxSteps 0)) by lia. cbn [throw_if mret M_ret].
  rewrite classify_first. apply (stops_bind _ _ _ _ _ (ready_checks 0) []); try exact Hs; try (rewrite app_nil_r; reflexivity).
  - rewrite stop_before_run by apply (so_loaded _ Hs). rewrite app_nil_r. reflexivity.
  - intros Hr. rewrite bind_run. unfold get at 1. cbv beta iota. rewrite bind_run, Hmap. cbn [negb throw_if mret M_ret].
    rewrite bind_run. unfold session_state in Hline. rewrite Hline. unfold lift at 1. apply source_loop_stops; assumption.
Qed.

(** ** Loading *)

Lemma loaded_cpu program c c' :
  loadBinaryProgram program c = (Ret tt, c') ->
  has_binary_program c' = true /\ registers (state c') = RegisterFile_reset /\
  using_kernel_interrupt_stack c' = false.
Proof.
  intros E. unfold loadBinaryProgram in E. do 3 (apply M_bind_ret_inv in E as (? & ? & [= <- <-] & E)).
  apply M_bind_ret_inv in E as (image & s1 & Ez & E). unfold zoom in Ez.
  destruct (BinaryLoader_loadIntoMemory _ _ _) as [r mem]. injection Ez as -> <-.
  do 5 (apply M_bind_ret_inv in E as (? & ? & [= <- <-] & E)). injection E as <-. cbn. auto.
Qed.

Lemma image_cpu_inv image c :
  length (im_initial_registers image) = kRegisterCount -> image_cpu image = Ret c ->
  shaped (state c) /\ has_binary_program c = true /\ trace_logger c = [] /\ pc (state c) = im_initial_pc image.
Proof.
  intros Hregs E. unfold image_cpu in E. apply bind_ret_inv in E as (u & _ & E). apply bind_ret_inv in E as (a & Ha & E).
  unfold ProcessAddressSpace_of_image in Ha. cbv zeta in Ha. apply bind_ret_inv in Ha as (u1 & _ & Ha).
  apply bind_ret_inv in Ha as (u2 & Hv & Ha). injection Ha as <-.
  assert (Hsize : Memory_size (im_memory image) = kDefaultMemorySize).
  { unfold ProcessAddressSpace_validate in Hv. apply throw_if_bind_inv in Hv as [Hv _]. apply negb_false_iff, Z.eqb_eq in Hv. exact Hv. }
  destruct ((_ ← ProcessAddressSpace_activate _; restoreProcessContext (image_context image)) new_CPU) as [r c1] eqn:Er.
  apply bind_ret_inv in E as ([] & -> & E). injection E as <-. apply M_bind_ret_inv in Er as ([] & c2 & Eact & Eres).
  unfold ProcessAddressSpace_activate, staged in Eact.
  destruct ((_ ← lift _; _) new_CPU) as [[[]|e] c3] eqn:Eload in Eact; [|discriminate Eact]. injection Eact as <-.
  apply M_bind_ret_inv in Eload as (u3 & s3 & El & Eload). apply M_lift_ret_inv in El as [_ ->].
  apply M_bind_ret_inv in Eload as (u4 & s4 & El & Eload). cbn [as_executable] in El.
  apply M_bind_ret_inv in El as (trace & s5 & [= <- <-] & El). apply M_bind_ret_inv in El as ([] & s6 & El & Et).
  injection Et as <- <-. injection Eload as <-. apply loaded_cpu in El as (Hb & Hr & Hu). cbn [as_memory] in *.
  match type of Eres with
  | restoreProcessContext _ ?x = _ => destruct (restore_cases (image_context image) x) as [(_ & _ & _ & Hrun)|[e Hrun]]
  end.
  - cbn. rewrite Hr. reflexivity.
  - exact Hregs.
  - rewrite Hrun in Eres. injection Eres as <-. unfold resumed. cbn. repeat split; assumption.
  - rewrite Hrun in Eres. discriminate Eres.
Qed.

(** ** Every operation keeps the invariant *)

Lemma sublist_sorted (l1 l2 : list Z) : sublist l1 l2 -> StronglySorted Z.lt l2 -> StronglySorted Z.lt l1.
Proof.
  induction 1 as [|x l1 l2 Hl IH|x l1 l2 Hl IH]; intros Hs; [constructor | |]; inversion Hs; subst.
  - constructor; [auto|]. rewrite Forall_forall in *. intros y Hy. eauto using elem_of_sublist.
  - auto.
Qed.

Lemma sublist_Forall {A} (P : A -> Prop) l1 l2 : sublist l1 l2 -> Forall P l2 -> Forall P l1.
Proof. intros Hl Hf. rewrite Forall_forall in *. eauto using elem_of_sublist. Qed.

Lemma erase_first_sublist {B} (matches : B -> bool) l : sublist (erase_first matches l).2 l.
Proof.
  induction l as [|b l IH]; cbn; [constructor|]. destruct (matches b); [constructor; reflexivity|].
  destruct (erase_first matches l) as [found l']. constructor. exact IH.
Qed.

Lemma ids_sublist l1 l2 next : sublist l1 l2 -> ids_ok l2 next -> ids_ok l1 next.
Proof. intros Hl (Hs & Hf & Hn). split; [eauto using sublist_sorted | split; [eauto using sublist_Forall | exact Hn]]. Qed.

Lemma ids_snoc ids next : ids_ok ids next -> next <> UINT64_MAX -> ids_ok (ids ++ [next]) (u64 (next + 1)).
Proof.
  intros (Hs & Hf & Hn) Hm. rewrite u64_small by words. split; [|split; [|lia]].
  - clear Hn. induction Hs as [|x l Hs IH Hx]; cbn; [constructor; constructor|]. inversion_clear Hf.
    constructor; [auto|]. apply Forall_app. split; [exact Hx | constructor; [lia | constructor]].
  - apply Forall_app. split; [eapply Forall_impl; [exact Hf | cbn; lia] | constructor; [lia | constructor]].
Qed.

Lemma session_ok_breakpoints s l :
  session_ok s -> set_Forall (fun a => validateBreakpointAddress a s = Ret tt) l -> session_ok (set_session_breakpoints l s).
Proof. intros [] Hl. constructor; assumption. Qed.

Lemma session_ok_symbols s symbols : session_ok s -> session_ok (set_session_symbols symbols s).
Proof. intros []. constructor; assumption. Qed.

(** Fewer conditional breakpoints or watchpoints. *)
Lemma session_ok_conditionals s l :
  session_ok s -> sublist l (ds_conditional_breakpoints s) ->
  session_ok (set_session_conditionals l (ds_next_conditional_breakpoint_id s) s).
Proof.
  intros [] Hl. constructor; try assumption; cbn.
  - eauto using sublist_Forall.
  - eapply sublist_NoDup; [eassumption | apply fmap_sublist, Hl].
  - eapply ids_sublist; [apply fmap_sublist, Hl | assumption].
Qed.

Lemma session_ok_watchpoints s l :
  session_ok s -> sublist l (ds_watchpoints s) -> session_ok (set_session_watchpoints l (ds_next_watchpoint_id s) s).
Proof.
  intros [] Hl. constructor; try assumption; cbn.
  - eauto using sublist_Forall.
  - eapply sublist_NoDup; [eassumption | apply fmap_sublist, Hl].
  - eapply ids_sublist; [apply fmap_sublist, Hl | assumption].
Qed.

(** Nothing that has been searched for in vain is in the list. *)
Lemma list_find_fresh {A B} (f : A -> B) (P : A -> Prop) `{!forall x, Decision (P x)} l y :
  list_find P l = None -> (forall x, f x = y -> P x) -> y ∉ f <$> l.
Proof.
  intros Hn HP Hin. apply list_elem_of_fmap in Hin as (x & -> & Hx). apply list_find_None in Hn. rewrite Forall_forall in Hn.
  exact (Hn x Hx (HP x eq_refl)).
Qed.

Lemma NoDup_snoc {A} (l : list A) x : NoDup l -> x ∉ l -> NoDup (l ++ [x]).
Proof.
  intros Hl Hx. apply NoDup_app. split; [exact Hl|]. split; [|apply NoDup_singleton].
  intros y Hy E. apply list_elem_of_singleton in E as ->. contradiction.
Qed.

Lemma addBreakpoint_keeps a s : session_ok s -> session_ok (addBreakpoint a s).2.
Proof.
  intros Hs. unfold addBreakpoint. rewrite bind_run, loaded_run by apply (so_loaded _ Hs). unfold lift.
  destruct (validateBreakpointAddress a s) as [[]|e] eqn:E; [|exact Hs]. apply session_ok_breakpoints; [exact Hs|].
  intros x Hx. apply elem_of_union in Hx as [Hx|Hx]; [apply elem_of_singleton in Hx as ->; exact E | exact (so_breakpoints _ Hs x Hx)].
Qed.

Lemma addConditionalBreakpoint_keeps a d s : session_ok s -> session_ok (addConditionalBreakpoint a d s).2.
Proof.
  intros Hs. unfold addConditionalBreakpoint. rewrite bind_run, loaded_run by apply (so_loaded _ Hs). unfold lift.
  destruct (validateBreakpointAddress a s) as [[]|e] eqn:Ea; [|exact Hs]. rewrite bind_Ret.
  destruct (DebugCondition_validateForCPU d (session_cpu s)) as [[]|e] eqn:Ed; [|exact Hs]. rewrite bind_Ret. cbn [mret outcome_ret].
  destruct (list_find _ _) as [[i b]|] eqn:Ef; [exact Hs|]. rewrite bind_run.
  destruct (ds_next_conditional_breakpoint_id s =? UINT64_MAX) eqn:En; [exact Hs|]. apply Z.eqb_neq in En.
  change (session_ok (set_session_conditionals (ds_conditional_breakpoints s
    ++ [{| cb_id := ds_next_conditional_breakpoint_id s; cb_address := a; cb_condition := d |}])
    (u64 (ds_next_conditional_breakpoint_id s + 1)) s)).
  destruct Hs as [L S B T U Bp Cn Cd Ci W Wd Wi]. constructor; try assumption; cbn -[fmap].
  - apply Forall_app. split; [exact Cn | constructor; [split; assumption | constructor]].
  - rewrite fmap_app. apply NoDup_snoc; [exact Cd|]. eapply list_find_fresh; [exact Ef|]. cbn. intros x [= Hx Hy]. auto.
  - rewrite fmap_app. apply ids_snoc; assumption.
Qed.

Lemma addWatchpoint_keeps a n mode s : 0 <= a -> 0 <= n -> session_ok s -> session_ok (addWatchpoint a n mode s).2.
Proof.
  intros Ha Hn Hs. unfold addWatchpoint. rewrite bind_run, loaded_run by apply (so_loaded _ Hs). unfold lift.
  destruct (validateWatchpointRange a n s) as [[]|e] eqn:Er; [|exact Hs]. rewrite bind_Ret. cbn [mret outcome_ret].
  destruct (list_find _ _) as [[i b]|] eqn:Ef; [exact Hs|]. rewrite bind_run.
  destruct (ds_next_watchpoint_id s =? UINT64_MAX) eqn:En; [exact Hs|]. apply Z.eqb_neq in En.
  change (session_ok (set_session_watchpoints (ds_watchpoints s
    ++ [{| wp_id := ds_next_watchpoint_id s; wp_address := a; wp_size := n; wp_mode := mode |}])
    (u64 (ds_next_watchpoint_id s + 1)) s)).
  unfold validateWatchpointRange in Er. cbv zeta in Er. apply throw_if_bind_inv in Er as [H0 Er]. apply throw_if_ret_inv in Er.
  apply orb_false_iff in Er as [_ Er]. rewrite Z.gtb_ltb in Er. apply Z.ltb_ge in Er. apply Z.eqb_neq in H0.
  destruct Hs as [L S B T U Bp Cn Cd Ci W Wd Wi]. constructor; try assumption; cbn -[fmap].
  - apply Forall_app. split; [exact W | constructor; [|constructor]]. cbn. unfold session_state, session_cpu in *. cbn. lia.
  - rewrite fmap_app. apply NoDup_snoc; [exact Wd|]. eapply list_find_fresh; [exact Ef|]. cbn. intros x [= Hx Hy Hz]. auto.
  - rewrite fmap_app. apply ids_snoc; assumption.
Qed.

Lemma loadImage_run image s :
  length (im_initial_registers image) = kRegisterCount ->
  (exists e, DebugSession_loadImage image s = (Throw e, s)) \/
  (exists s', DebugSession_loadImage image s = (Ret tt, s') /\ session_ok s').
Proof.
  intros Hr. unfold DebugSession_loadImage. rewrite bind_run. unfold lift at 1. destruct (image_cpu image) as [c|e] eqn:Ec.
  - right. eexists. split; [reflexivity|]. destruct (image_cpu_inv _ _ Hr Ec) as (Hs & Hb & Ht & _).
    assert (Hids : ids_ok [] 1) by (repeat split; try constructor; cbn; lia || (vm_compute; discriminate)).
    constructor; cbn; try assumption; try reflexivity; try (constructor; fail); try exact Hids.
    + rewrite Ht. constructor.
    + split; [lia | vm_compute; reflexivity].
    + intros a Ha. set_solver.
  - left. eexists. reflexivity.
Qed.

Lemma loaded_registers bytes name image :
  ProcessImageLoader_loadFromBytes bytes name = Ret image -> length (im_initial_registers image) = kRegisterCount.
Proof.
  intros E. unfold ProcessImageLoader_loadFromBytes in E. apply bind_ret_inv in E as (program & _ & E).
  unfold ProcessImageLoader_loadProgram in E. apply bind_ret_inv in E as (md & _ & E). apply bind_ret_inv in E as (u & _ & E).
  destruct (BinaryLoader_loadIntoMemory _ _ _) as [loaded mem]. apply bind_ret_inv in E as (img & _ & E).
  apply throw_if_bind_inv in E as [_ E]. apply bind_ret_inv in E as (u2 & _ & E). injection E as <-. reflexivity.
Qed.

(** The result of a run. *)
Lemma stops_first_keeps checks limit n s r : session_ok s -> stops_first checks limit n s r -> session_ok r.2.
Proof.
  intros Hs (k & _ & _ & Hr). pose proof (after_keeps_session k s Hs) as Hk.
  destruct (first_cause (checks k) (session_after k s)) as [[c|]|e].
  - subst r. apply session_ok_stop, Hk.
  - destruct Hr as [_ ->]. apply session_ok_stop, Hk.
  - subst r. exact Hk.
Qed.

(** The calls a debugger makes of its session. *)
Inductive SessionCommand :=
  | C_loadImage (image : ProcessImage)
  | C_loadFile (read_file : string -> outcome (list Z)) (read_text : string -> option string) (path : string)
  | C_loadSymbolsFile (read_text : string -> option string) (path : string)
  | C_addBreakpoint (address : Z) | C_removeBreakpoint (address : Z) | C_clearBreakpoints
  | C_addConditionalBreakpoint (address : Z) (condition : DebugCondition)
  | C_removeConditionalBreakpoint (id : Z) | C_clearConditionalBreakpoints
  | C_addWatchpoint (address size : Z) (mode : MemoryWatchMode) | C_removeWatchpoint (id : Z) | C_clearWatchpoints
  | C_step | C_stepSourceLine (maxSteps : Z) | C_continueExecution (maxSteps : Z).

(** What a call leaves of the session, whether it returns or throws. *)
Definition run_command (command : SessionCommand) s : Session :=
  match command with
  | C_loadImage image => (DebugSession_loadImage image s).2
  | C_loadFile read_file read_text path => (DebugSession_loadFile read_file read_text path s).2
  | C_loadSymbolsFile read_text path => (DebugSession_loadSymbolsFile read_text path s).2
  | C_addBreakpoint address => (addBreakpoint address s).2
  | C_removeBreakpoint address => (removeBreakpoint address s).2
  | C_clearBreakpoints => (clearBreakpoints s).2
  | C_addConditionalBreakpoint address condition => (addConditionalBreakpoint address condition s).2
  | C_removeConditionalBreakpoint id => (removeConditionalBreakpoint id s).2
  | C_clearConditionalBreakpoints => (clearConditionalBreakpoints s).2
  | C_addWatchpoint address size mode => (addWatchpoint address size mode s).2
  | C_removeWatchpoint id => (removeWatchpoint id s).2
  | C_clearWatchpoints => (clearWatchpoints s).2
  | C_step => (DebugSession_step s).2
  | C_stepSourceLine maxSteps => (DebugSession_stepSourceLine maxSteps s).2
  | C_continueExecution maxSteps => (DebugSession_continueExecution maxSteps s).2
  end.

(** Arguments of their C++ types: an array of eight registers, unsigned sizes. *)
Definition typed_command (command : SessionCommand) : Prop :=
  match command with
  | C_loadImage image => length (im_initial_registers image) = kRegisterCount
  | C_addWatchpoint address size _ => 0 <= address /\ 0 <= size
  | _ => True
  end.

Lemma stepSourceLine_keeps n s : session_ok s -> session_ok (DebugSession_stepSourceLine n s).2.
Proof.
  intros Hs. unfold DebugSession_stepSourceLine. rewrite bind_run, loaded_run by apply (so_loaded _ Hs).
  unfold lift at 1. cbn [mret outcome_ret]. rewrite bind_run. destruct (n =? 0); [exact Hs|]. cbn [throw_if mret M_ret].
  rewrite classify_first, bind_run, stop_before_run by apply (so_loaded _ Hs). rewrite app_nil_r. unfold checked.
  destruct (first_cause (ready_checks 0) s) as [[c|]|e] eqn:Er; [apply session_ok_stop, Hs | | exact Hs].
  rewrite bind_run. unfold get at 1. cbv beta iota. rewrite bind_run.
  destruct (DebugSymbols_hasSourceLocations (ds_symbols s)); [|exact Hs]. cbn [negb throw_if mret M_ret]. rewrite bind_run.
  destruct (DebugSymbols_sourceLineForAddress _ (ds_symbols s)) as [line|e]; [|exact Hs]. unfold lift at 1.
  eapply stops_first_keeps; [exact Hs | apply stops_from_0, source_loop_stops; assumption].
Qed.

Lemma continueExecution_keeps n s : session_ok s -> session_ok (DebugSession_continueExecution n s).2.
Proof.
  intros Hs. destruct (decide (n = 0)) as [->|Hn].
  - unfold DebugSession_continueExecution. rewrite bind_run, loaded_run by apply (so_loaded _ Hs). exact Hs.
  - eapply stops_first_keeps; [exact Hs | exact (continue_stops n s Hs Hn)].
Qed.

Lemma loadFile_cases read_file read_text path s :
  (exists e, DebugSession_loadFile read_file read_text path s = (Throw e, s)) \/
  session_ok (DebugSession_loadFile read_file read_text path s).2.
Proof.
  set (r := DebugSession_loadFile read_file read_text path s). assert (E : r = DebugSession_loadFile read_file read_text path s) by reflexivity.
  clearbody r. unfold DebugSession_loadFile in E. rewrite bind_run in E. unfold lift at 1 in E.
  destruct (bytes ← read_file path; ProcessImageLoader_loadFromBytes bytes path) as [image|e] eqn:El; [|left; eauto].
  apply bind_ret_inv in El as (bytes & _ & El). cbv beta iota in E. rewrite bind_run in E.
  destruct (loadImage_run image s (loaded_registers _ _ _ El)) as [[e He]|(s' & Hs' & Hok)].
  - left. rewrite He in E. eauto.
  - right. rewrite Hs' in E. cbv zeta beta iota in E. destruct (read_text _) as [text|]; [|subst r; exact Hok].
    rewrite bind_run in E. unfold lift in E.
    destruct (DebugSymbols_readFile _ _) as [symbols|e]; subst r; [apply session_ok_symbols, Hok | exact Hok].
Qed.

(** With an executable loaded, every call keeps the invariant. *)
Lemma command_keeps command s : typed_command command -> session_ok s -> session_ok (run_command command s).
Proof.
  intros Ht Hs. pose proof (so_loaded _ Hs) as Hl. destruct command; cbn [run_command].
  - destruct (loadImage_run image s Ht) as [[e ->]|(s' & -> & Hok)]; assumption.
  - destruct (loadFile_cases read_file read_text path s) as [[e ->]|Hok]; assumption.
  - unfold DebugSession_loadSymbolsFile. rewrite bind_run, loaded_run by exact Hl. unfold lift.
    destruct (DebugSymbols_readFile _ _) as [symbols|e]; [apply session_ok_symbols, Hs | exact Hs].
  - apply addBreakpoint_keeps, Hs.
  - unfold removeBreakpoint. rewrite bind_run, loaded_run by exact Hl. apply session_ok_breakpoints; [exact Hs|].
    intros x Hx. apply (so_breakpoints _ Hs). set_solver.
  - unfold clearBreakpoints. rewrite bind_run, loaded_run by exact Hl. apply session_ok_breakpoints; [exact Hs|]. intros x Hx. set_solver.
  - apply addConditionalBreakpoint_keeps, Hs.
  - unfold removeConditionalBreakpoint. rewrite bind_run, loaded_run by exact Hl. unfold lift. cbn [mret outcome_ret].
    pose proof (erase_first_sublist (fun b => cb_id b =? id) (ds_conditional_breakpoints s)) as Hsub.
    destruct (erase_first _ _) as [found l]. apply session_ok_conditionals; assumption.
  - unfold clearConditionalBreakpoints. rewrite bind_run, loaded_run by exact Hl. apply session_ok_conditionals; [exact Hs | apply sublist_nil_l].
  - destruct Ht. apply addWatchpoint_keeps; assumption.
  - unfold removeWatchpoint. rewrite bind_run, loaded_run by exact Hl. unfold lift. cbn [mret outcome_ret].
    pose proof (erase_first_sublist (fun w => wp_id w =? id) (ds_watchpoints s)) as Hsub.
    destruct (erase_first _ _) as [found l]. apply session_ok_watchpoints; assumption.
  - unfold clearWatchpoints. rewrite bind_run, loaded_run by exact Hl. apply session_ok_watchpoints; [exact Hs | apply sublist_nil_l].
  - eapply stops_first_keeps; [exact Hs | exact (step_stops s Hs)].
  - apply stepSourceLine_keeps, Hs.
  - apply continueExecution_keeps, Hs.
Qed.

(** Without one, every call but loading throws and changes nothing. *)
Lemma command_unloaded command s :
  typed_command command -> ds_loaded s = false -> run_command command s = s \/ session_ok (run_command command s).
Proof.
  intros Ht Hl.
  assert (Hbind : forall {A B} (f : Session -> outcome A) (g : A -> M Session B), ((when_loaded f ≫= g) s).2 = s)
    by (intros A B f g; rewrite bind_run, not_loaded_run by exact Hl; reflexivity).
  destruct command; cbn [run_command]; try (left; apply Hbind).
  - destruct (loadImage_run image s Ht) as [[e ->]|(s' & -> & Hok)]; auto.
  - destruct (loadFile_cases read_file read_text path s) as [[e ->]|Hok]; auto.
Qed.

Definition run_commands (commands : list SessionCommand) s : Session := foldl (fun s command => run_command command s) s commands.

Lemma commands_keep commands : forall s,
  Forall typed_command commands -> (ds_loaded s = true -> session_ok s) ->
  ds_loaded (run_commands commands s) = true -> session_ok (run_commands commands s).
Proof.
  unfold run_commands. induction commands as [|command commands IH]; intros s Ht Hs; cbn; [exact Hs|]. apply Forall_cons in Ht as [Hc Ht].
  apply IH; [exact Ht|]. destruct (ds_loaded s) eqn:El.
  - intros _. apply command_keeps; auto.
  - destruct (command_unloaded command s Hc El) as [->|Hok]; [congruence | auto].
Qed.

End laws.

(** ** Properties *)

(** (C26) Run control.  In a session with an executable, [step], [continueExecution]
    and [stepSourceLine] make CPU steps one by one and stop at the first point
    where a cause holds, in this order: a fault, a halt, a watched access of the
    step just made, the end of the program, a breakpoint, a condition that holds,
    and for source stepping a new source line.  [step] makes one step and looks at
    no breakpoint; continuing skips a breakpoint that was just reported, and
    source stepping the one it starts at, before the first step only.  When no
    cause holds, the step limit is the reason.  The stop, the step counts, the
    machine and the session are what the causes say, nothing else changes, and an
    exception can only be one of evaluating a condition there. *)
Theorem run_control_correct {LD : LongDouble} {H} {SIH : SoftwareInterruptHandler H} {QH : QuietHandler H}
    (s : DebugSession H) (maxSteps : Z) (Hs : session_ok s) (Hn : maxSteps <> 0) :
  stops_first ready_checks (plain_cause Stop_StepComplete "") 1 s (DebugSession_step s) /\
  stops_first (continue_checks (resuming s)) (plain_cause Stop_StepLimit "Debugger continue step limit reached")
    (Z.to_nat maxSteps) s (DebugSession_continueExecution maxSteps s) /\
  (forall line, DebugSymbols_hasSourceLocations (ds_symbols s) = true ->
     DebugSymbols_sourceLineForAddress (pc (session_state s)) (ds_symbols s) = Ret line ->
     stops_first (source_checks line) (plain_cause Stop_StepLimit "Debugger source step limit reached")
       (Z.to_nat maxSteps) s (DebugSession_stepSourceLine maxSteps s)).
Proof.
  split; [exact (step_stops s Hs)|]. split; [exact (continue_stops maxSteps s Hs Hn)|].
  intros line Hm Hl. exact (source_stops maxSteps line s Hs Hn Hm Hl).
Qed.

(** (C27) The invariant of a session.  After any sequence of calls, whether they
    return or throw, a session with an executable runs a binary program on a CPU
    of the protected layout, keeps a trace whose events can all be analysed, and
    keeps breakpoints, conditions and watchpoints it would accept now: inside the
    code and aligned, inside memory, without duplicates and under identifiers that
    are distinct and smaller than the next one. *)
Theorem session_invariant {LD : LongDouble} {H} {SIH : SoftwareInterruptHandler H} {QH : QuietHandler H}
    (w : World) (h : H) (commands : list SessionCommand) (Hc : Forall typed_command commands) :
  let s := run_commands commands (new_DebugSession w h) in ds_loaded s = true -> session_ok s.
Proof. apply commands_keep; [exact Hc | discriminate]. Qed.

(** ** Witnesses *)

#[local] Existing Instance extended_long_double.
#[local] Existing Instance no_handler.

Definition sample_text : string :=
  String.concat nl ["MOV R0, 5"; "STORE [16], R0"; "PUSH R0"; "ADD R1, [16]"].

Definition sample_image : outcome ProcessImage :=
  p ← assembleString sample_text; b ← toBinaryProgram p; bytes ← BinaryWriter_writeToBytes b;
  ProcessImageLoader_loadFromBytes bytes "sample".

(** The sample program in a session, with a breakpoint at its third instruction. *)
Definition sample_commands : list SessionCommand :=
  match sample_image with Ret image => [C_loadImage image; C_addBreakpoint 560] | Throw _ => [] end.
Definition sample_session : DebugSession unit :=
  run_commands sample_commands (new_DebugSession empty_world tt).

Lemma sample_commands_typed : Forall typed_command sample_commands.
Proof. vm_compute. repeat constructor. Qed.

Lemma session_invariant_witness : Forall typed_command sample_commands /\ session_ok sample_session.
Proof.
  split; [exact sample_commands_typed|].
  apply (@session_invariant extended_long_double unit no_handler no_handler_quiet empty_world tt sample_commands sample_commands_typed).
  vm_compute. reflexivity.
Defined.

Lemma sample_session_ok : session_ok sample_session.
Proof.
  apply (@commands_keep extended_long_double unit no_handler no_handler_quiet sample_commands); [exact sample_commands_typed | discriminate|].
  vm_compute. reflexivity.
Qed.

(** Continuing stops at the breakpoint after two steps. *)
Lemma run_control_correct_witness :
  session_ok sample_session /\ 10 <> 0 /\
  stops_first (continue_checks (resuming sample_session)) (plain_cause Stop_StepLimit "Debugger continue step limit reached")
    10 sample_session (DebugSession_continueExecution 10 sample_session) /\
  stop_pc <$> (DebugSession_continueExecution 10 sample_session).1 = Ret 560.
Proof.
  split; [exact sample_session_ok|]. split; [lia|].
  assert (Hn : 10 <> 0) by lia.
  split; [|vm_compute; reflexivity].
  exact (proj1 (proj2 (run_control_correct sample_session 10 sample_session_ok Hn))).
Defined.
