(* ===== verification/WatchLaws.v ===== *)
(** * Watchpoints

    A STORE of the binary engine changes memory only at the address its trace
    event shows, so a watchpoint on a byte it changes stops the session; accesses
    of other instructions are not watched. *)

From S2P Require Import Prelude Words Strings ALU Memory ISA Binary Interrupts Devices CPUState Trace CPU CPUExec CPUStep CPUFrames CPUInv CPURun CPUShape Image Process TraceDetail DebugCondition DebugSymbols DebugSession DebugLaws.
Open Scope Z_scope.

Section store.
Context {LD : LongDouble} {H : Type} {SIH : SoftwareInterruptHandler H} {QH : QuietHandler H}.
Implicit Types (m : Machine H).

(** ** What a STORE changes *)

Section frame.
Context (P : Memory -> Prop).
Abbreviation ok := (fun _ => True).
Abbreviation K := (fun m : Machine H => P (memory (mstate m))).

Lemma k_check {A} (f : CPU -> outcome A) : safe K (check f) ok.
Proof. intros m Hm. unfold check. destruct (f (cpu m)); [split; [exact Logic.I|]|]; exact Hm. Qed.
Lemma k_lift {A} (o : outcome A) : safe K (lift o) ok.
Proof. apply safe_lift. intros; exact Logic.I. Qed.
Lemma k_get : safe K get ok.
Proof. intros m Hm. split; [exact Logic.I | exact Hm]. Qed.
Lemma k_world {A} (mw : M World A) : safe K (on_world mw) ok.
Proof. intros m Hm. unfold on_world, zoom. destruct (mw (world m)) as [[a|e] w]; [split; [exact Logic.I|]|]; exact Hm. Qed.
Lemma k_gets {A} (f : Machine H -> A) : safe K (gets f) ok.
Proof. intros m Hm. split; [exact Logic.I | exact Hm]. Qed.
Lemma k_state f : (forall s, memory (f s) = memory s) -> safe K (on_state f) ok.
Proof. intros Hf m Hm. split; [exact Logic.I|]. unfold on_state, modify, mstate. cbn. rewrite Hf. exact Hm. Qed.
Lemma k_flags f : safe K (update_flags f) ok.
Proof. apply k_state. reflexivity. Qed.
Hint Resolve k_check k_lift k_get k_world k_gets k_flags : safe.

Lemma k_register r : safe K (read_register r) ok.
Proof. unfold read_register. safe_go. Qed.
Hint Resolve k_register : safe.

Lemma k_address t p : safe K (readBinaryMemoryAddress t p) ok.
Proof. unfold readBinaryMemoryAddress. safe_go. Qed.
Lemma k_read a : safe K (readDataMemory a) ok.
Proof. unfold readDataMemory. safe_go. Qed.
Hint Resolve k_address k_read : safe.
Lemma k_operand t p : safe K (readBinaryOperandValue t p) ok.
Proof. unfold readBinaryOperandValue. safe_go. Qed.
Lemma k_advance : safe K advanceBinaryPcUnlessHalted ok.
Proof. unfold advanceBinaryPcUnlessHalted. pose proof (k_state (fun s => setPc (u64 (pc s + kInstructionSize)) s) (fun s => eq_refl)). safe_go. Qed.

(** A write, when the property allows what it stores. *)
Lemma k_write a v :
  (forall mem mem', P mem -> Memory_write mem a v = Ret mem' -> P mem') -> safe K (writeDataMemory a v) ok.
Proof.
  intros Hw. assert (Hm : safe K (write_memory a v) ok).
  { intros m Hm. rewrite write_memory_run. destruct (Memory_write _ _ _) as [mem|e] eqn:E; [|exact Hm].
    split; [exact Logic.I | exact (Hw _ _ Hm E)]. }
  unfold writeDataMemory. safe_go.
Qed.
End frame.

(** The address the trace shows is the address the engine uses. *)
Lemma traced_address c t p o m :
  traceOperandFromEncoded c t p = Ret o ->
  match readBinaryMemoryAddress t p m with
  | (Ret a, m') => m' = m /\ 0 <= a /\ tryResolveTraceMemoryAddress (mstate m) o = inl a
  | (Throw _, m') => m' = m
  end.
Proof.
  intros Ho. unfold traceOperandFromEncoded in Ho. unfold readBinaryMemoryAddress. destruct t; try reflexivity.
  - destruct (p <? 0); [discriminate Ho|]. injection Ho as <-. split; [reflexivity|]. split; [apply u64_range | reflexivity].
  - apply bind_ret_inv in Ho as (reg & Hr & Ho). injection Ho as <-. rewrite bind_run, Hr. unfold lift at 1.
    rewrite bind_run. unfold read_register. rewrite bind_run. unfold gets at 1. cbv beta iota. unfold lift at 1.
    cbn [tryResolveTraceMemoryAddress]. unfold indirect_address.
    destruct (RegisterFile_get (registers (mstate m)) reg) as [v|e]; [|reflexivity]. cbn [caught].
    destruct (v <? 0); [reflexivity|]. split; [reflexivity|]. split; [apply u64_range | reflexivity].
Qed.

Definition unchanged_outside (mem0 : Memory) (a : Z) (mem : Memory) : Prop :=
  length mem = length mem0 /\ forall j, Z.of_nat j < a \/ a + 8 <= Z.of_nat j -> at_ mem j = at_ mem0 j.

Lemma write_unchanged mem0 a v mem mem' :
  0 <= a -> unchanged_outside mem0 a mem -> Memory_write mem a v = Ret mem' -> unchanged_outside mem0 a mem'.
Proof.
  intros Ha [Hl Hf] Hw. split; [rewrite (write_keeps_length _ _ _ _ Hw); exact Hl|]. intros j Hj. rewrite <- Hf by exact Hj.
  unfold Memory_write, Memory_writeI64, Memory_writeU64 in Hw. apply bind_ret_inv in Hw as (u & _ & Hw). injection Hw as <-.
  apply at_store_out. lia.
Qed.

(** A STORE changes the eight bytes at its address at most. *)
Lemma store_frame d o c m m' :
  dec_opcode d = STORE -> traceOperandFromEncoded c (dst_type d) (dst_payload d) = Ret o ->
  m' = (executeBinaryInstruction d m).2 ->
  memory (mstate m') = memory (mstate m) \/
  exists a, tryResolveTraceMemoryAddress (mstate m) o = inl a /\ 0 <= a /\ unchanged_outside (memory (mstate m)) a (memory (mstate m')).
Proof.
  intros Hd Ho E. unfold executeBinaryInstruction in E. rewrite bind_run in E. unfold check at 1 in E.
  destruct (requireInstructionPrivilege (cpu m) (dec_opcode d)) as [[]|e]; [|left; subst m'; reflexivity]. rewrite Hd in E.
  unfold executeBinary_STORE in E. rewrite bind_run in E. unfold lift at 1 in E.
  destruct (requireTwoBinaryOperands d) as [u|e]; [|left; subst m'; reflexivity].
  rewrite bind_run in E. pose proof (traced_address _ _ _ _ m Ho) as Ha.
  destruct (readBinaryMemoryAddress (dst_type d) (dst_payload d) m) as [[a|e] m1]; [|left; subst m' m1; reflexivity].
  destruct Ha as (-> & Hnn & Ha). right. exists a. split; [exact Ha|]. split; [exact Hnn|].
  set (mem0 := memory (mstate m)).
  assert (Hsafe : safe (fun m => unchanged_outside mem0 a (memory (mstate m)))
    (value ← readBinaryOperandValue (src_type d) (src_payload d); _ ← writeDataMemory a value;
     _ ← update_flags (Flags_updateZeroAndSign value); advanceBinaryPcUnlessHalted) (fun _ => True)).
  { eapply safe_bind; [apply k_operand | intros v _]. eapply safe_bind; [|intros _ _].
    - apply k_write. intros mem mem'. apply write_unchanged, Hnn.
    - eapply safe_bind; [apply k_flags | intros _ _]. apply k_advance. }
  specialize (Hsafe m (conj eq_refl (fun _ _ => eq_refl))). subst m'. revert Hsafe.
  match goal with |- (let (_, _) := ?x in _) -> _ => destruct x as [[r|e] m2] end; intros Hsafe; [apply Hsafe | exact Hsafe].
Qed.

(** ** The event of a STORE *)

Lemma recorded_last before i message m e :
  last (trace_logger (cpu (record_trace before i message m).2)) = Some e -> ev_instruction e = i /\ ev_before e = before.
Proof. cbn. unfold TraceLogger_record. rewrite last_snoc. intros [= <-]. split; reflexivity. Qed.

(** The steps that deliver an interrupt record an INT. *)
Lemma interrupt_event before m m' e :
  step_interrupt before m = (Ret true, m') -> last (trace_logger (cpu m')) = Some e -> opcode (ev_instruction e) = INT.
Proof.
  unfold step_interrupt, try_catch. rewrite bind_run. intros E Hl.
  assert (Hrec : forall m0 i message, opcode i = INT -> m' = (record_trace before i message m0).2 -> opcode (ev_instruction e) = INT).
  { intros m0 i message Hi ->. apply recorded_last in Hl as [-> _]. exact Hi. }
  destruct (servicePendingInterruptIfNeeded m) as [[[]|x] m1].
  - rewrite bind_run in E. destruct (read_register R0 m1) as [[v|x] m2].
    + rewrite bind_run in E. cbn in E. injection E as <-. eapply Hrec; [|reflexivity]. reflexivity.
    + rewrite bind_run in E. unfold mbind at 1 in E. cbn in E. injection E as <-. eapply (Hrec (setRuntimeError (what x) m2).2); [|reflexivity]. reflexivity.
  - cbn in E. discriminate E.
  - rewrite bind_run in E. unfold mbind at 1 in E. cbn in E. injection E as <-. eapply (Hrec (setRuntimeError (what x) m1).2); [|reflexivity]. reflexivity.
Qed.

(** What an instruction leaves in memory is what its execution left. *)
Lemma executed_memory (exec : M (Machine H) unit) m :
  let '(o, m') := try_catch (_ ← exec; _ ← tick_unless_stopped; mret EmptyString)
    (fun ex => _ ← setRuntimeError (what ex); mret (what ex)) m in
  (exists message, o = Ret message) /\ memory (mstate m') = memory (mstate (exec m).2).
Proof.
  unfold try_catch. rewrite bind_run. destruct (exec m) as [[u|e] m1]; [|cbn; split; [eexists|]; reflexivity].
  rewrite bind_run. unfold tick_unless_stopped. rewrite bind_run. unfold gets at 1. cbv beta iota.
  destruct (negb _ && negb _); [|cbn; split; [eexists|]; reflexivity].
  pose proof (tick_keeps_cpu (cpu m1) m1 eq_refl) as Ht. destruct (tickClockedDevices m1) as [[u'|e] m2]; cbn in Ht |- *.
  - destruct Ht as [_ Ht]. split; [eexists; reflexivity|]. unfold mstate. rewrite Ht. reflexivity.
  - split; [eexists; reflexivity|]. unfold mstate. cbn. rewrite Ht. reflexivity.
Qed.

Lemma store_step m m' e :
  stopped m = false -> shaped (mstate m) -> has_binary_program (cpu m) = true ->
  m' = (CPU_step m).2 ->
  last (trace_logger (cpu m')) = Some e -> opcode (ev_instruction e) = STORE ->
  memory (mstate m') = memory (mstate m) \/
  exists a, shown_access e = Some (true, a) /\ 0 <= a /\ unchanged_outside (memory (mstate m)) a (memory (mstate m')).
Proof.
  intros Hs Hsh Hb E. unfold stopped in Hs. unfold CPU_step in E. rewrite bind_run in E. unfold gets at 1 in E. cbv beta iota in E.
  rewrite Hs in E. rewrite bind_run in E. unfold assign at 1, modify at 1 in E. cbv beta iota in E. rewrite bind_run in E.
  unfold gets at 1 in E. cbv beta iota in E.
  set (m1 := set_cpu clearSoftwareInterruptObservation m) in E. apply orb_false_iff in Hs as [_ He].
  assert (Hx : executing (cpu m1) (cpu m1)) by (apply executing_self; [exact He | reflexivity | exact Hsh]).
  rewrite bind_run in E. pose proof (step_interrupt_stepped m1 (mstate m1) eq_refl Hx) as Hi.
  destruct (step_interrupt (mstate m1) m1) as [[[]|x] m2] eqn:Ei; [| |destruct Hi].
  { intros Hl Hop. cbn in E. subst m2. rewrite (interrupt_event _ _ _ _ Ei Hl) in Hop. discriminate Hop. }
  subst m2. rewrite bind_run in E. unfold gets at 1 in E. cbv beta iota in E.
  change (has_binary_program (cpu m1)) with (has_binary_program (cpu m)) in E. rewrite Hb in E. unfold step_instruction in E.
  rewrite bind_run in E. unfold gets at 1 in E. cbv beta iota in E. rewrite bind_run in E. unfold try_catch at 1 in E.
  rewrite bind_run in E. unfold check at 1 in E. destruct (fetch_binary (cpu m1)) as [i|x] eqn:Ef.
  2:{ cbn [mret M_ret] in E. cbv beta iota in E. intros Hl Hop. subst m'. apply recorded_last in Hl as [Hl _]. rewrite Hl in Hop. discriminate Hop. }
  cbv beta iota in E. cbn [mret M_ret] in E. rewrite bind_run in E. pose proof (executed_memory stepBinary m1) as Hmem.
  destruct (try_catch _ _ m1) as [o m2]. destruct Hmem as [[message ->] Hmem]. intros Hl Hop. subst m'.
  apply recorded_last in Hl as [Hl Hbefore].
  change (memory (mstate (record_trace (mstate m1) i message m2).2)) with (memory (mstate m2)). rewrite Hmem. clear Hmem.
  apply bind_ret_inv in Ef as ([] & _ & Ef). unfold traceInstructionForCurrentBinaryPc in Ef.
  apply bind_ret_inv in Ef as (d & Hd & Ef). apply bind_ret_inv in Ef as (o1 & H1 & Ef). apply bind_ret_inv in Ef as (o2 & _ & Ef).
  injection Ef as Ei'. rewrite Hl in Hop.
  assert (Hdo : dec_opcode d = opcode i) by (subst i; destruct (Operand_isNone o1), (Operand_isNone o2); reflexivity).
  assert (Hdst : dst i = o1) by (subst i; destruct o1, (Operand_isNone o2); reflexivity).
  assert (stepBinary m1 = executeBinaryInstruction d m1) as ->
    by (unfold stepBinary; rewrite bind_run; unfold check at 1; rewrite Hd; reflexivity).
  destruct (store_frame d o1 _ m1 _ (eq_trans Hdo Hop) H1 eq_refl) as [Eq|(a & Ha & Hnn & Hu)]; [left; exact Eq|].
  right. exists a. split; [|split; [exact Hnn | exact Hu]]. unfold shown_access. rewrite Hl, Hop, Hbefore, Hdst, Ha. reflexivity.
Qed.

(** ** What the session sees *)

Implicit Types (s : DebugSession H).

(** The access of the last event. *)
Lemma traced_shown s e :
  session_ok s -> last (trace_logger (session_cpu s)) = Some e ->
  traced_access (session_cpu s) =
    Ret (option_map (fun '(write, a) => ((if write : bool then Watch_Write else Watch_Read), a)) (shown_access e)).
Proof.
  intros Hs Hl. unfold traced_access. rewrite bool_decide_eq_false_2 by (intros E; rewrite E in Hl; discriminate Hl).
  unfold TraceLogger_last. rewrite Hl, bind_Ret. destruct (analyze_total e) as [a Ha].
  { pose proof (so_trace _ Hs) as Hf. rewrite Forall_forall in Hf. apply Hf, last_Some_elem_of, Hl. }
  rewrite Ha, bind_Ret. rewrite <- (shown_detail e a Ha). cbv zeta.
  destruct (negb (mt_active (ta_memory a)) || _ || _); reflexivity.
Qed.

(** A write to a watched byte is found, under this watchpoint or an earlier one. *)
Lemma write_found s e a j w :
  session_ok s -> last (trace_logger (session_cpu s)) = Some e -> shown_access e = Some (true, a) ->
  w ∈ ds_watchpoints s -> wp_mode w <> Watch_Read ->
  wp_address w <= Z.of_nat j < wp_address w + wp_size w -> a <= Z.of_nat j < a + 8 -> 0 <= a ->
  exists w', findWatchpointHit s = Ret (Some (w', Watch_Write, a)).
Proof.
  intros Hs Hl Hshow Hw Hmode Hin Ha H0. unfold findWatchpointHit. rewrite bool_decide_eq_false_2 by (intros E; rewrite E in Hw; inversion Hw).
  rewrite (traced_shown s e Hs Hl), Hshow, bind_Ret. cbn [option_map].
  destruct (list_find _ (ds_watchpoints s)) as [[i w']|] eqn:E; [eauto|]. exfalso. apply list_find_None in E. rewrite Forall_forall in E.
  apply (E w Hw). pose proof (so_watchpoints _ Hs) as Hf. rewrite Forall_forall in Hf. destruct (Hf w Hw) as (Hw0 & Hw1 & Hw2).
  destruct (so_shape _ Hs) as [_ Hsize]. unfold session_state in *. rewrite Hsize in Hw2. unfold kDefaultMemorySize in Hw2.
  unfold watch_matches, MemoryWatchpoint_endExclusive. cbv zeta. rewrite !u64_small by words.
  apply andb_true_iff. split.
  - apply orb_true_iff. destruct (wp_mode w) eqn:Em; [contradiction | right; apply bool_decide_eq_true; reflexivity | left; apply bool_decide_eq_true; reflexivity].
  - apply andb_true_iff. split; apply Z.ltb_lt; lia.
Qed.

(** A change of a watched byte by a STORE. *)
Lemma store_watched s e j w :
  session_ok s -> stopped (ds_machine s) = false -> last (trace_logger (session_cpu (step_session s))) = Some e ->
  opcode (ev_instruction e) = STORE ->
  at_ (memory (session_state s)) j <> at_ (memory (session_state (step_session s))) j ->
  w ∈ ds_watchpoints s -> wp_mode w <> Watch_Read -> wp_address w <= Z.of_nat j < wp_address w + wp_size w ->
  exists w' a, findWatchpointHit (step_session s) = Ret (Some (w', Watch_Write, a)) /\ a <= Z.of_nat j < a + 8.
Proof.
  intros Hs Hrun Hl Hop Hj Hw Hmode Hin.
  destruct (store_step (ds_machine s) (CPU_step (ds_machine s)).2 e Hrun (so_shape _ Hs) (so_binary _ Hs) eq_refl Hl Hop)
    as [E|(a & Ha & Hnn & _ & Hout)].
  - exfalso. apply Hj. unfold session_state, session_cpu. cbn. unfold mstate in E. rewrite E. reflexivity.
  - assert (Hja : a <= Z.of_nat j < a + 8).
    { destruct (decide (a <= Z.of_nat j < a + 8)) as [Hd|Hd]; [exact Hd|]. exfalso. apply Hj. symmetry. apply Hout. lia. }
    destruct (write_found (step_session s) e a j w) as [w' E]; eauto using step_keeps_session.
Qed.
End store.

(** ** Properties *)

(** (C28) A watched byte does not change unseen by a STORE.  When the next step of a
    session executes STORE and changes a byte that a write or access watchpoint
    covers, the checks behind the step stop the session: for a fault or a halt, or
    else for a watchpoint, reported with a write at an address whose eight bytes
    hold the changed byte.  Every way to run the session makes these checks behind
    every step, before it looks at the end of the program and at breakpoints. *)
Theorem store_watchpoint_stops {LD : LongDouble} {H} {SIH : SoftwareInterruptHandler H} {QH : QuietHandler H}
    (s : DebugSession H) (e : TraceEvent) (j : nat) (w : MemoryWatchpoint)
    (Hs : session_ok s) (Hrun : stopped (ds_machine s) = false)
    (He : last (trace_logger (session_cpu (session_after 1 s))) = Some e) (Hop : opcode (ev_instruction e) = STORE)
    (Hchange : at_ (memory (session_state s)) j <> at_ (memory (session_state (session_after 1 s))) j)
    (Hw : w ∈ ds_watchpoints s) (Hmode : wp_mode w <> Watch_Read)
    (Hin : wp_address w <= Z.of_nat j < wp_address w + wp_size w) :
  exists c, first_cause (ready_checks 1) (session_after 1 s) = Ret (Some c) /\
    (ca_reason c = Stop_Fault \/ ca_reason c = Stop_Halted \/
     exists hit, ca_reason c = Stop_Watchpoint /\ ca_watchpoint c = Some hit /\ wh_access_mode hit = Watch_Write /\
       wh_access_address hit <= Z.of_nat j < wh_access_address hit + 8).
Proof.
  rewrite <- session_after_S, session_after_0 in * by apply u64_range.
  destruct (store_watched s e j w Hs Hrun He Hop Hchange Hw Hmode Hin) as (w' & a & Hhit & Ha).
  cbn. unfold fault_check. destruct (has_error _); [eexists; split; [reflexivity | left; reflexivity]|]. cbn.
  destruct (halted _); [eexists; split; [reflexivity | right; left; reflexivity]|]. cbn. unfold watch_check. rewrite Hhit, bind_Ret.
  eexists. split; [reflexivity|]. right. right. eexists. repeat split; [apply Ha | apply Ha].
Qed.

(** Watchpoints see LOAD and STORE only.  After a step whose event is of any
    other instruction no watchpoint is hit, whatever the step did to the watched
    bytes: instructions that read an operand from memory, and PUSH, POP, CALL, RET
    and INT, which write and read the stack, pass every watchpoint. *)
Theorem watchpoints_miss_other_accesses {LD : LongDouble} {H} {SIH : SoftwareInterruptHandler H} {QH : QuietHandler H}
    (s : DebugSession H) (e : TraceEvent) (Hs : session_ok s) (He : last (trace_logger (session_cpu s)) = Some e)
    (Hop : opcode (ev_instruction e) <> LOAD /\ opcode (ev_instruction e) <> STORE) :
  findWatchpointHit s = Ret None.
Proof.
  unfold findWatchpointHit. destruct (bool_decide (ds_watchpoints s = [])); [reflexivity|].
  rewrite (traced_shown s e Hs He). unfold shown_access. destruct Hop as [H1 H2].
  destruct (opcode (ev_instruction e)); reflexivity || contradiction.
Qed.

(** ** Witnesses *)

#[local] Existing Instance extended_long_double.
#[local] Existing Instance no_handler.

(** The sample session with watchpoints on its data and on its stack. *)
Definition watching_commands (k : nat) : list SessionCommand :=
  sample_commands ++ [C_addWatchpoint 23 1 Watch_Read; C_addWatchpoint 16 1 Watch_Write; C_addWatchpoint 2048 8 Watch_Access]
  ++ replicate k C_step.
Definition watching_session (k : nat) : DebugSession unit :=
  run_commands (watching_commands k) (new_DebugSession empty_world tt).

Lemma watching_ok k : (k <= 3)%nat -> session_ok (watching_session k).
Proof.
  intros Hk.
  unfold watching_session. apply commands_keep; [| discriminate |].
  - unfold watching_commands. apply Forall_app. split; [exact sample_commands_typed|]. repeat (constructor; [cbn; lia|]).
    apply Forall_replicate. exact I.
  - do 4 (destruct k as [|k]; [vm_compute; reflexivity|]). lia.
Qed.

Definition last_event (s : DebugSession unit) : TraceEvent := default sample_call (last (trace_logger (session_cpu s))).
Lemma last_event_recorded s :
  bool_decide (trace_logger (session_cpu s) = []) = false -> last (trace_logger (session_cpu s)) = Some (last_event s).
Proof.
  rewrite bool_decide_eq_false. intros Hne. unfold last_event. destruct (last _) eqn:E; [reflexivity|].
  apply last_None in E. contradiction.
Qed.

(** The second instruction stores 5 at 16: the second watchpoint covers the byte. *)
Lemma store_watchpoint_stops_witness :
  exists c, first_cause (ready_checks 1) (session_after 1 (watching_session 1)) = Ret (Some c) /\ ca_reason c = Stop_Watchpoint.
Proof.
  assert (Hok : session_ok (watching_session 1)) by (apply watching_ok; lia).
  assert (Hrun : stopped (ds_machine (watching_session 1)) = false) by (vm_compute; reflexivity).
  assert (He : last (trace_logger (session_cpu (session_after 1 (watching_session 1)))) =
               Some (last_event (session_after 1 (watching_session 1)))) by (apply last_event_recorded; vm_compute; reflexivity).
  assert (Hop : opcode (ev_instruction (last_event (session_after 1 (watching_session 1)))) = STORE) by (vm_compute; reflexivity).
  assert (Hchange : at_ (memory (session_state (watching_session 1))) 16 <>
                    at_ (memory (session_state (session_after 1 (watching_session 1)))) 16) by (vm_compute; discriminate).
  assert (Hw : {| wp_id := 2; wp_address := 16; wp_size := 1; wp_mode := Watch_Write |} ∈ ds_watchpoints (watching_session 1))
    by (vm_compute; right; left).
  destruct (store_watchpoint_stops _ _ 16%nat _ Hok Hrun He Hop Hchange Hw ltac:(discriminate) ltac:(cbn; lia)) as (c & Hc & _).
  exists c. split; [exact Hc|].
  assert (Hr : match first_cause (ready_checks 1) (session_after 1 (watching_session 1)) with
               | Ret (Some c) => Some (ca_reason c) | _ => None end = Some Stop_Watchpoint)
    by (vm_compute; reflexivity).
  rewrite Hc in Hr. injection Hr as Hr. exact Hr.
Defined.

(** The third instruction pushes 5 to the watched stack slot: no watchpoint is hit. *)
Lemma watchpoints_miss_other_accesses_witness :
  findWatchpointHit (watching_session 3) = Ret None /\
  at_ (memory (session_state (watching_session 2))) 2048 = 0 /\ at_ (memory (session_state (watching_session 3))) 2048 = 5.
Proof.
  split; [|split; vm_compute; reflexivity].
  assert (Hok : session_ok (watching_session 3)) by (apply watching_ok; lia).
  apply (watchpoints_miss_other_accesses (watching_session 3) (last_event (watching_session 3)) Hok).
  - apply last_event_recorded. vm_compute. reflexivity.
  - vm_compute. split; discriminate.
Defined.
