(* ===== verification/MultiDebugSession.v ===== *)
(** * The debugger of several processes: [src/debug/MultiProcessDebugSession.cpp]

    A session owns a CPU, a process table and the schedulers, and steps their
    lifecycle: one step, one source line of the selected process, or until a
    breakpoint, a condition or a watched access of some process, the end of a
    process or the end of the runtime.  [Multi_f] is
    [MultiProcessDebugSession::f].  What the session runs ([ms_run]) is what a run
    of [Runner] works on. *)

From S2P Require Import Prelude Words Strings Text ALU Memory ISA Binary Interrupts Devices CPUState Trace TraceDetail CPU CPUExec CPUStep Image Process ProcTable Scheduler Dispatcher Preemption Lifecycle Runner DebugCondition DebugSymbols DebugSession.
From stdpp Require Import sorting gmap.
Open Scope Z_scope.

(** ** Data *)

(** The bus is a reference into the store; [mo_has_handler]: the pointer to the
    handler is not null. *)
Record MultiProcessDebugOptions := {
  mo_timer_vector : Z;
  mo_quantum : Z;
  mo_timer_payload : Z;
  mo_default_continue_steps : Z;
  mo_normal_exit_code : Z;
  mo_fault_exit_code : Z;
  mo_mmio_bus : option nat;
  mo_has_handler : bool;
}.

Definition default_debug_options : MultiProcessDebugOptions :=
  {| mo_timer_vector := 240; mo_quantum := 2; mo_timer_payload := 0; mo_default_continue_steps := 100000;
     mo_normal_exit_code := 0; mo_fault_exit_code := -1; mo_mmio_bus := None; mo_has_handler := false |}.

Definition Multi_validateOptions (o : MultiProcessDebugOptions) : outcome unit :=
  _ ← throw_if (mo_quantum o =? 0) (RuntimeError "Multi-process debugger quantum must be greater than zero");
  throw_if (mo_default_continue_steps o =? 0)
    (RuntimeError "Multi-process debugger continue limit must be greater than zero").

(** The enumeration has the values of [MemoryWatchMode]. *)
Definition ProcessMemoryWatchMode := MemoryWatchMode.

Definition processMemoryWatchModeToString (mode : ProcessMemoryWatchMode) : string :=
  match mode with Watch_Read => "Read" | Watch_Write => "Write" | Watch_Access => "Access" end.

Record ProcessBreakpoint := { pb_pid : ProcessId; pb_address : Z }.

Record ProcessConditionalBreakpoint := { pc_id : Z; pc_pid : ProcessId; pc_address : Z; pc_condition : DebugCondition }.

Record ProcessMemoryWatchpoint := {
  pw_id : Z; pw_pid : ProcessId; pw_address : Z; pw_size : Z; pw_mode : ProcessMemoryWatchMode;
}.

Definition ProcessMemoryWatchpoint_endExclusive (w : ProcessMemoryWatchpoint) : Z := u64 (pw_address w + pw_size w).

Inductive MultiProcessDebugStopReason :=
  | MStop_Ready | MStop_StepComplete | MStop_Breakpoint | MStop_ConditionalBreakpoint | MStop_Watchpoint
  | MStop_ProcessTerminated | MStop_ProcessFaulted | MStop_RuntimeCompleted | MStop_Deadlocked | MStop_StepLimit.

#[export] Instance MultiProcessDebugStopReason_eq_dec : EqDecision MultiProcessDebugStopReason.
Proof. solve_decision. Defined.

Definition multiProcessDebugStopReasonToString (reason : MultiProcessDebugStopReason) : string :=
  match reason with
  | MStop_Ready => "Ready" | MStop_StepComplete => "StepComplete" | MStop_Breakpoint => "Breakpoint"
  | MStop_ConditionalBreakpoint => "ConditionalBreakpoint" | MStop_Watchpoint => "Watchpoint"
  | MStop_ProcessTerminated => "ProcessTerminated" | MStop_ProcessFaulted => "ProcessFaulted"
  | MStop_RuntimeCompleted => "RuntimeCompleted" | MStop_Deadlocked => "Deadlocked" | MStop_StepLimit => "StepLimit"
  end.

(** What a stop adds to the fields every stop has; absent is the cleared value of
    its fields.  A debug hit is a process and an address, an ended process a
    [process_faulted] flag and a pid. *)
Record StopDetail := {
  sd_hit : option (ProcessId * Z);
  sd_conditional : option ConditionalHit;
  sd_watchpoint : option WatchHit;
  sd_terminated : option (bool * ProcessId);
}.

Definition no_detail : StopDetail :=
  {| sd_hit := None; sd_conditional := None; sd_watchpoint := None; sd_terminated := None |}.

Record MultiProcessDebugStop := {
  mstop_reason : MultiProcessDebugStopReason;
  mstop_runtime_state : ProcessRuntimeState;
  mstop_executed_steps : Z;
  mstop_total_steps : Z;
  mstop_running_pid : ProcessId;
  mstop_selected_pid : ProcessId;
  mstop_detail : StopDetail;
  mstop_message : string;
}.

Definition new_MultiProcessDebugStop : MultiProcessDebugStop :=
  {| mstop_reason := MStop_Ready; mstop_runtime_state := RS_Ready; mstop_executed_steps := 0; mstop_total_steps := 0;
     mstop_running_pid := 0; mstop_selected_pid := 0; mstop_detail := no_detail; mstop_message := "" |}.

(** [stop.executed_steps = executed;] *)
Definition set_executed_steps (executed : Z) (stop : MultiProcessDebugStop) : MultiProcessDebugStop :=
  {| mstop_reason := mstop_reason stop; mstop_runtime_state := mstop_runtime_state stop; mstop_executed_steps := executed;
     mstop_total_steps := mstop_total_steps stop; mstop_running_pid := mstop_running_pid stop;
     mstop_selected_pid := mstop_selected_pid stop; mstop_detail := mstop_detail stop; mstop_message := mstop_message stop |}.

Record ProcessDebugSnapshot := {
  pd_pid : ProcessId;
  pd_source_name : string;
  pd_state : ProcessState;
  pd_context : ProcessContext;
  pd_memory : Memory;
  pd_has_exit_code : bool;
  pd_exit_code : Z;
  pd_termination_kind : ProcessTerminationKind;
  pd_termination_message : string;
  pd_has_executable_image : bool;
  pd_code_base : Z;
  pd_code_end_exclusive : Z;
  pd_entry_point : Z;
  pd_data_base : Z;
  pd_data_size : Z;
  pd_running : bool;
}.

Definition ProcessDebugSnapshot_terminated (s : ProcessDebugSnapshot) : bool :=
  bool_decide (pd_state s = Terminated) && pd_has_exit_code s.
Definition ProcessDebugSnapshot_faulted (s : ProcessDebugSnapshot) : bool :=
  ProcessDebugSnapshot_terminated s && bool_decide (pd_termination_kind s = CpuFault).

(** The records have the fields of the runner's. *)
Definition ProcessSoftwareInterruptDebugRecord := ProcessSoftwareInterruptTraceRecord.
Definition ContextSwitchRecord := ProcessContextSwitchTraceRecord.

(** What a lifecycle call works on: the manager and the objects it is passed. *)
Abbreviation Lifecycle H := (ProcessLifecycleManager * System H)%type.

Record MultiProcessDebugSession (H : Type) := {
  ms_options : MultiProcessDebugOptions;
  ms_run : Lifecycle H;
  ms_started : bool;
  ms_runtime_state : ProcessRuntimeState;
  ms_total_steps : Z;
  ms_selected_pid : ProcessId;
  ms_symbols : gmap ProcessId DebugSymbols;
  ms_breakpoints : gset (ProcessId * Z);
  ms_conditional_breakpoints : list ProcessConditionalBreakpoint;
  ms_next_conditional_breakpoint_id : Z;
  ms_watchpoints : list ProcessMemoryWatchpoint;
  ms_next_watchpoint_id : Z;
  ms_resume_skip : option (ProcessId * Z);
  ms_software_interrupts : list ProcessSoftwareInterruptDebugRecord;
  ms_context_switches : list ContextSwitchRecord;
  ms_last_stop : MultiProcessDebugStop;
}.
Arguments Build_MultiProcessDebugSession {H}.
Arguments ms_options {H}.
Arguments ms_run {H}.
Arguments ms_started {H}.
Arguments ms_runtime_state {H}.
Arguments ms_total_steps {H}.
Arguments ms_selected_pid {H}.
Arguments ms_symbols {H}.
Arguments ms_breakpoints {H}.
Arguments ms_conditional_breakpoints {H}.
Arguments ms_next_conditional_breakpoint_id {H}.
Arguments ms_watchpoints {H}.
Arguments ms_next_watchpoint_id {H}.
Arguments ms_resume_skip {H}.
Arguments ms_software_interrupts {H}.
Arguments ms_context_switches {H}.
Arguments ms_last_stop {H}.

(** The breakpoints are a set of pairs, ordered by process and address. *)
Definition breakpoint_le (x y : ProcessId * Z) : Prop := x.1 < y.1 \/ x.1 = y.1 /\ x.2 <= y.2.

#[export] Instance breakpoint_le_dec : RelDecision breakpoint_le.
Proof. intros x y. unfold breakpoint_le. apply _. Defined.

(** Does an access of [sizeof(std::int64_t)] bytes by a process match? *)
Definition process_watch_matches (pid : ProcessId) (accessMode : ProcessMemoryWatchMode) (accessBegin : Z)
    (w : ProcessMemoryWatchpoint) : bool :=
  let accessEnd := u64 (accessBegin + 8) in
  (pw_pid w =? pid)
  && (bool_decide (pw_mode w = Watch_Access) || bool_decide (pw_mode w = accessMode))
  && ((pw_address w <? accessEnd) && (accessBegin <? ProcessMemoryWatchpoint_endExclusive w)).

Section session.
Context {LD : LongDouble} {H : Type} {SIH : SoftwareInterruptHandler H}.

Abbreviation Session := (MultiProcessDebugSession H).

(** The members of the session that make up the run. *)
Definition ms_system (s : Session) : System H := (ms_run s).2.
Definition ms_cpu (s : Session) : CPU := cpu (s_machine (ms_system s)).
Definition ms_table (s : Session) : ProcessTable := s_table (ms_system s).
Definition ms_preemptive (s : Session) : TimerPreemptiveScheduler := s_preemptive (ms_system s).

(** Assignments to members. *)
Definition set_multi_run (run : Lifecycle H) (s : Session) : Session :=
  Build_MultiProcessDebugSession (ms_options s) run (ms_started s) (ms_runtime_state s) (ms_total_steps s) (ms_selected_pid s) (ms_symbols s)
    (ms_breakpoints s) (ms_conditional_breakpoints s) (ms_next_conditional_breakpoint_id s) (ms_watchpoints s)
    (ms_next_watchpoint_id s) (ms_resume_skip s) (ms_software_interrupts s) (ms_context_switches s)
    (ms_last_stop s).
Definition set_multi_selected (pid : ProcessId) (s : Session) : Session :=
  Build_MultiProcessDebugSession (ms_options s) (ms_run s) (ms_started s) (ms_runtime_state s) (ms_total_steps s) pid (ms_symbols s)
    (ms_breakpoints s) (ms_conditional_breakpoints s) (ms_next_conditional_breakpoint_id s) (ms_watchpoints s)
    (ms_next_watchpoint_id s) (ms_resume_skip s) (ms_software_interrupts s) (ms_context_switches s)
    (ms_last_stop s).
Definition set_multi_symbols (symbols : gmap ProcessId DebugSymbols) (s : Session) : Session :=
  Build_MultiProcessDebugSession (ms_options s) (ms_run s) (ms_started s) (ms_runtime_state s) (ms_total_steps s) (ms_selected_pid s) symbols
    (ms_breakpoints s) (ms_conditional_breakpoints s) (ms_next_conditional_breakpoint_id s) (ms_watchpoints s)
    (ms_next_watchpoint_id s) (ms_resume_skip s) (ms_software_interrupts s) (ms_context_switches s)
    (ms_last_stop s).
Definition set_multi_breakpoints (breakpoints : gset (ProcessId * Z)) (s : Session) : Session :=
  Build_MultiProcessDebugSession (ms_options s) (ms_run s) (ms_started s) (ms_runtime_state s) (ms_total_steps s) (ms_selected_pid s)
    (ms_symbols s) breakpoints (ms_conditional_breakpoints s) (ms_next_conditional_breakpoint_id s)
    (ms_watchpoints s) (ms_next_watchpoint_id s) (ms_resume_skip s) (ms_software_interrupts s)
    (ms_context_switches s) (ms_last_stop s).
Definition set_multi_conditionals (l : list ProcessConditionalBreakpoint) (next : Z) (s : Session) : Session :=
  Build_MultiProcessDebugSession (ms_options s) (ms_run s) (ms_started s) (ms_runtime_state s) (ms_total_steps s) (ms_selected_pid s)
    (ms_symbols s) (ms_breakpoints s) l next (ms_watchpoints s) (ms_next_watchpoint_id s) (ms_resume_skip s)
    (ms_software_interrupts s) (ms_context_switches s) (ms_last_stop s).
Definition set_multi_watchpoints (l : list ProcessMemoryWatchpoint) (next : Z) (s : Session) : Session :=
  Build_MultiProcessDebugSession (ms_options s) (ms_run s) (ms_started s) (ms_runtime_state s) (ms_total_steps s) (ms_selected_pid s)
    (ms_symbols s) (ms_breakpoints s) (ms_conditional_breakpoints s) (ms_next_conditional_breakpoint_id s) l
    next (ms_resume_skip s) (ms_software_interrupts s) (ms_context_switches s) (ms_last_stop s).
Definition set_multi_skip (skip : option (ProcessId * Z)) (s : Session) : Session :=
  Build_MultiProcessDebugSession (ms_options s) (ms_run s) (ms_started s) (ms_runtime_state s) (ms_total_steps s) (ms_selected_pid s)
    (ms_symbols s) (ms_breakpoints s) (ms_conditional_breakpoints s) (ms_next_conditional_breakpoint_id s)
    (ms_watchpoints s) (ms_next_watchpoint_id s) skip (ms_software_interrupts s) (ms_context_switches s)
    (ms_last_stop s).
Definition set_multi_progress (runtimeState : ProcessRuntimeState) (total : Z) (s : Session) : Session :=
  Build_MultiProcessDebugSession (ms_options s) (ms_run s) (ms_started s) runtimeState total (ms_selected_pid s) (ms_symbols s)
    (ms_breakpoints s) (ms_conditional_breakpoints s) (ms_next_conditional_breakpoint_id s) (ms_watchpoints s)
    (ms_next_watchpoint_id s) (ms_resume_skip s) (ms_software_interrupts s) (ms_context_switches s)
    (ms_last_stop s).
Definition set_multi_interrupts (l : list ProcessSoftwareInterruptDebugRecord) (s : Session) : Session :=
  Build_MultiProcessDebugSession (ms_options s) (ms_run s) (ms_started s) (ms_runtime_state s) (ms_total_steps s) (ms_selected_pid s)
    (ms_symbols s) (ms_breakpoints s) (ms_conditional_breakpoints s) (ms_next_conditional_breakpoint_id s)
    (ms_watchpoints s) (ms_next_watchpoint_id s) (ms_resume_skip s) l (ms_context_switches s) (ms_last_stop s).
Definition set_multi_switches (l : list ContextSwitchRecord) (s : Session) : Session :=
  Build_MultiProcessDebugSession (ms_options s) (ms_run s) (ms_started s) (ms_runtime_state s) (ms_total_steps s) (ms_selected_pid s)
    (ms_symbols s) (ms_breakpoints s) (ms_conditional_breakpoints s) (ms_next_conditional_breakpoint_id s)
    (ms_watchpoints s) (ms_next_watchpoint_id s) (ms_resume_skip s) (ms_software_interrupts s) l
    (ms_last_stop s).
Definition set_multi_stop (stop : MultiProcessDebugStop) (s : Session) : Session :=
  Build_MultiProcessDebugSession (ms_options s) (ms_run s) (ms_started s) (ms_runtime_state s) (ms_total_steps s) (ms_selected_pid s)
    (ms_symbols s) (ms_breakpoints s) (ms_conditional_breakpoints s) (ms_next_conditional_breakpoint_id s)
    (ms_watchpoints s) (ms_next_watchpoint_id s) (ms_resume_skip s) (ms_software_interrupts s)
    (ms_context_switches s) stop.

(** A call of the lifecycle on the session's objects. *)
Definition on_run {A} (m : M (Lifecycle H) A) : M Session A := zoom ms_run set_multi_run m.

(** ** Queries *)

Definition requireStarted (s : Session) : outcome unit :=
  throw_if (negb (ms_started s)) (RuntimeError "Multi-process debugger is not started").

(** A [const] member that starts with [requireStarted()]. *)
Definition when_started {A} (f : Session -> outcome A) : M Session A :=
  s ← get; _ ← lift (requireStarted s); lift (f s).

Definition Multi_requireProcess (pid : ProcessId) (s : Session) : outcome ProcessControlBlock :=
  _ ← throw_if (negb (ProcessTable_contains (ms_table s) pid)) (RuntimeError ("Unknown process PID " +:+ pretty pid));
  requireProcess pid (ms_table s).

(** One that goes on with [requireProcess(pid)]. *)
Definition when_process {A} (pid : ProcessId) (f : Session -> outcome A) : M Session A :=
  when_started (fun s => _ ← Multi_requireProcess pid s; f s).

Definition Multi_started (s : Session) : bool := ms_started s.
Definition Multi_quantum (s : Session) : Z := mo_quantum (ms_options s).
Definition Multi_runtimeState := when_started (fun s => mret (ms_runtime_state s)).
Definition Multi_totalSteps := when_started (fun s => mret (ms_total_steps s)).
Definition Multi_runningPid :=
  when_started (fun s => if negb (hasRunningProcess (ms_table s)) then mret 0 else runningProcessId (ms_table s)).
Definition Multi_selectedPid := when_started (fun s => mret (ms_selected_pid s)).
Definition Multi_lastStop := when_started (fun s => mret (ms_last_stop s)).
Definition Multi_preemptionCount := when_started (fun s => mret (tp_preemption_count (ms_preemptive s))).
Definition Multi_schedulerContextSwitchCount := when_started (fun s => mret (tp_context_switch_count (ms_preemptive s))).
Definition Multi_softwareInterrupts := when_started (fun s => mret (ms_software_interrupts s)).
Definition Multi_softwareInterrupts_pid (pid : ProcessId) :=
  when_process pid (fun s => mret (filter (fun r => si_pid r = pid) (ms_software_interrupts s))).
Definition Multi_contextSwitches := when_started (fun s => mret (ms_context_switches s)).
Definition Multi_cpu := when_started (fun s => mret (ms_cpu s)).

Definition Multi_selectProcess (pid : ProcessId) : M Session unit :=
  _ ← when_process pid (fun _ => mret tt);
  modify (set_multi_selected pid).

(** The state of a process: the CPU's for the running one, the saved one for the
    others. *)
Definition Multi_processSnapshot (pid : ProcessId) (s : Session) : outcome ProcessDebugSnapshot :=
  _ ← requireStarted s;
  process ← Multi_requireProcess pid s;
  running ← (if hasRunningProcess (ms_table s) then running ← runningProcessId (ms_table s); mret (running =? pid)
             else mret false);
  current ← (if (running : bool)
             then context ← captureProcessContextSnapshot pid (ms_cpu s); mret (context, memory (state (ms_cpu s)))
             else mret (pcb_context process, as_memory (pcb_address_space process)));
  exit ← (if pcb_has_exit_code process then
            code ← ProcessControlBlock_exitCode process;
            kind ← ProcessControlBlock_terminationKind process;
            message ← ProcessControlBlock_terminationMessage process;
            mret (code, kind, message)
          else mret (0, NormalExit, EmptyString));
  let '(code, kind, message) := exit in
  let has_image := hasExecutableImage (pcb_address_space process) in
  md ← (if has_image then executableMetadata (pcb_address_space process) else mret new_metadata);
  mret {| pd_pid := pid; pd_source_name := md_source_name md; pd_state := pcb_state process;
          pd_context := current.1; pd_memory := current.2;
          pd_has_exit_code := pcb_has_exit_code process; pd_exit_code := code; pd_termination_kind := kind;
          pd_termination_message := message; pd_has_executable_image := has_image; pd_code_base := md_code_base md;
          pd_code_end_exclusive := md_code_end_exclusive md; pd_entry_point := md_entry_point md;
          pd_data_base := md_data_base md; pd_data_size := md_data_size md; pd_running := running |}.

Definition Multi_selectedProcessSnapshot (s : Session) : outcome ProcessDebugSnapshot :=
  _ ← requireStarted s;
  _ ← throw_if (ms_selected_pid s =? 0) (RuntimeError "No process is selected");
  Multi_processSnapshot (ms_selected_pid s) s.

Definition Multi_processSnapshots (s : Session) : outcome (list ProcessDebugSnapshot) :=
  _ ← requireStarted s;
  mapM (fun pid => Multi_processSnapshot pid s) (processIds (ms_table s)).

(** ** Symbols *)

Definition Multi_hasSymbols (pid : ProcessId) : M Session bool :=
  when_process pid (fun s => mret (match ms_symbols s !! pid with
                                   | Some symbols => negb (DebugSymbols_empty symbols)
                                   | None => false
                                   end)).

Definition Multi_symbols (pid : ProcessId) : M Session DebugSymbols :=
  when_process pid (fun s => match ms_symbols s !! pid with
                             | Some symbols => mret symbols
                             | None => throw (RuntimeError ("No debug symbols loaded for PID " +:+ pretty pid))
                             end).

(** [read_text]: the text of a file that can be opened. *)
Definition Multi_loadSymbolsFile (read_text : string -> option string) (pid : ProcessId) (path : string) : M Session unit :=
  symbols ← when_process pid (fun _ => DebugSymbols_readFile path (read_text path));
  modify (fun s => set_multi_symbols (<[pid := symbols]> (ms_symbols s)) s).

Definition Multi_resolveCodeSymbol (pid : ProcessId) (name : string) : M Session Z :=
  symbols ← Multi_symbols pid; lift (DebugSymbols_resolveCode name symbols).
Definition Multi_resolveDataSymbol (pid : ProcessId) (name : string) : M Session Z :=
  symbols ← Multi_symbols pid; lift (DebugSymbols_resolveData name symbols).

(** ** Breakpoints and watchpoints *)

Definition Multi_validateCodeAddress (pid : ProcessId) (address : Z) (s : Session) : outcome unit :=
  process ← Multi_requireProcess pid s;
  _ ← throw_if (negb (hasExecutableImage (pcb_address_space process)))
        (RuntimeError ("PID " +:+ pretty pid +:+ " has no executable image"));
  md ← executableMetadata (pcb_address_space process);
  throw_if ((address <? md_code_base md) || (address >=? md_code_end_exclusive md)
            || negb ((address - md_code_base md) mod kInstructionSize =? 0))
    (RuntimeError "Breakpoint address must be inside the PID code range and instruction-aligned").

Definition Multi_validateMemoryRange (pid : ProcessId) (address size : Z) (s : Session) : outcome unit :=
  process ← Multi_requireProcess pid s;
  _ ← throw_if (size =? 0) (RuntimeError "Watchpoint size must be greater than zero");
  let memorySize := Memory_size (as_memory (pcb_address_space process)) in
  throw_if ((address >=? memorySize) || (size >? memorySize - address))
    (RuntimeError "Watchpoint range is outside the PID process memory").

Definition Multi_addBreakpoint (pid : ProcessId) (address : Z) : M Session bool :=
  known ← when_started (fun s => _ ← Multi_validateCodeAddress pid address s;
                                 mret (bool_decide ((pid, address) ∈ ms_breakpoints s)));
  _ ← modify (fun s => set_multi_breakpoints ({[(pid, address)]} ∪ ms_breakpoints s) s);
  mret (negb known).

Definition Multi_removeBreakpoint (pid : ProcessId) (address : Z) : M Session bool :=
  known ← when_started (fun s => mret (bool_decide ((pid, address) ∈ ms_breakpoints s)));
  _ ← modify (fun s => set_multi_breakpoints (ms_breakpoints s ∖ {[(pid, address)]}) s);
  mret (known : bool).

Definition Multi_clearBreakpoints : M Session unit :=
  _ ← when_started (fun _ => mret tt); modify (set_multi_breakpoints ∅).
Definition Multi_clearBreakpoints_pid (pid : ProcessId) : M Session unit :=
  _ ← when_process pid (fun _ => mret tt);
  modify (fun s => set_multi_breakpoints (filter (fun entry => entry.1 <> pid) (ms_breakpoints s)) s).

Definition listed_breakpoints (s : Session) : list ProcessBreakpoint :=
  (fun entry => {| pb_pid := entry.1; pb_address := entry.2 |}) <$> merge_sort breakpoint_le (elements (ms_breakpoints s)).
Definition Multi_breakpoints : M Session (list ProcessBreakpoint) := when_started (fun s => mret (listed_breakpoints s)).
Definition Multi_breakpoints_pid (pid : ProcessId) : M Session (list ProcessBreakpoint) :=
  when_process pid (fun s => mret (filter (fun b => pb_pid b = pid) (listed_breakpoints s))).

Definition Multi_addConditionalBreakpoint (pid : ProcessId) (address : Z) (condition : DebugCondition) : M Session Z :=
  s ← when_started (fun s => _ ← Multi_validateCodeAddress pid address s;
                             _ ← DebugCondition_validateForCPU condition (ms_cpu s); mret s);
  match list_find (fun b => pc_pid b = pid /\ pc_address b = address /\ expression (pc_condition b) = expression condition)
          (ms_conditional_breakpoints s) with
  | Some (_, existing) => mret (pc_id existing)
  | None =>
      let next := ms_next_conditional_breakpoint_id s in
      _ ← throw_if (next =? UINT64_MAX) (RuntimeError "Conditional breakpoint ID space exhausted");
      let breakpoint := {| pc_id := next; pc_pid := pid; pc_address := address; pc_condition := condition |} in
      _ ← modify (set_multi_conditionals (ms_conditional_breakpoints s ++ [breakpoint]) (u64 (next + 1)));
      mret next
  end.

Definition Multi_removeConditionalBreakpoint (id : Z) : M Session bool :=
  s ← when_started mret;
  let '(found, l) := erase_first (fun b => pc_id b =? id) (ms_conditional_breakpoints s) in
  _ ← modify (set_multi_conditionals l (ms_next_conditional_breakpoint_id s));
  mret (found : bool).

Definition Multi_clearConditionalBreakpoints : M Session unit :=
  s ← when_started mret; modify (set_multi_conditionals [] (ms_next_conditional_breakpoint_id s)).
Definition Multi_clearConditionalBreakpoints_pid (pid : ProcessId) : M Session unit :=
  s ← when_process pid mret;
  modify (set_multi_conditionals (filter (fun b => pc_pid b <> pid) (ms_conditional_breakpoints s))
            (ms_next_conditional_breakpoint_id s)).
Definition Multi_conditionalBreakpoints := when_started (fun s => mret (ms_conditional_breakpoints s)).
Definition Multi_conditionalBreakpoints_pid (pid : ProcessId) :=
  when_process pid (fun s => mret (filter (fun b => pc_pid b = pid) (ms_conditional_breakpoints s))).

Definition Multi_addWatchpoint (pid : ProcessId) (address size : Z) (mode : ProcessMemoryWatchMode) : M Session Z :=
  s ← when_started (fun s => _ ← Multi_validateMemoryRange pid address size s; mret s);
  match list_find (fun w => pw_pid w = pid /\ pw_address w = address /\ pw_size w = size /\ pw_mode w = mode)
          (ms_watchpoints s) with
  | Some (_, existing) => mret (pw_id existing)
  | None =>
      let next := ms_next_watchpoint_id s in
      _ ← throw_if (next =? UINT64_MAX) (RuntimeError "Watchpoint ID space exhausted");
      let watchpoint := {| pw_id := next; pw_pid := pid; pw_address := address; pw_size := size; pw_mode := mode |} in
      _ ← modify (set_multi_watchpoints (ms_watchpoints s ++ [watchpoint]) (u64 (next + 1)));
      mret next
  end.

Definition Multi_removeWatchpoint (id : Z) : M Session bool :=
  s ← when_started mret;
  let '(found, l) := erase_first (fun w => pw_id w =? id) (ms_watchpoints s) in
  _ ← modify (set_multi_watchpoints l (ms_next_watchpoint_id s));
  mret (found : bool).

Definition Multi_clearWatchpoints : M Session unit :=
  s ← when_started mret; modify (set_multi_watchpoints [] (ms_next_watchpoint_id s)).
Definition Multi_clearWatchpoints_pid (pid : ProcessId) : M Session unit :=
  s ← when_process pid mret;
  modify (set_multi_watchpoints (filter (fun w => pw_pid w <> pid) (ms_watchpoints s)) (ms_next_watchpoint_id s)).
Definition Multi_watchpoints := when_started (fun s => mret (ms_watchpoints s)).
Definition Multi_watchpoints_pid (pid : ProcessId) :=
  when_process pid (fun s => mret (filter (fun w => pw_pid w = pid) (ms_watchpoints s))).

(** ** Stops *)

(** [makeStop] and the assignments of its callers to the stop it returns. *)
Definition make_multi_stop (reason : MultiProcessDebugStopReason) (executedSteps : Z) (message : string) (detail : StopDetail)
    : M Session MultiProcessDebugStop :=
  s ← get;
  running ← (if hasRunningProcess (ms_table s) then lift (runningProcessId (ms_table s)) else mret 0);
  let stop :=
    {| mstop_reason := reason; mstop_runtime_state := ms_runtime_state s; mstop_executed_steps := executedSteps;
       mstop_total_steps := ms_total_steps s; mstop_running_pid := running; mstop_selected_pid := ms_selected_pid s;
       mstop_detail := detail; mstop_message := message |} in
  _ ← modify (set_multi_stop stop);
  mret stop.

Definition Multi_makeStop (reason : MultiProcessDebugStopReason) (executedSteps : Z) (message : string)
    : M Session MultiProcessDebugStop :=
  make_multi_stop reason executedSteps message no_detail.

Definition Multi_makeBreakpointStop (pid : ProcessId) (address executedSteps : Z) : M Session MultiProcessDebugStop :=
  make_multi_stop MStop_Breakpoint executedSteps ("PID " +:+ pretty pid +:+ " breakpoint at " +:+ pretty address)
    {| sd_hit := Some (pid, address); sd_conditional := None; sd_watchpoint := None; sd_terminated := None |}.

Definition Multi_makeConditionalBreakpointStop (b : ProcessConditionalBreakpoint) (actual executedSteps : Z)
    : M Session MultiProcessDebugStop :=
  let text := expression (pc_condition b) in
  make_multi_stop MStop_ConditionalBreakpoint executedSteps
    ("PID " +:+ pretty (pc_pid b) +:+ " conditional breakpoint " +:+ pretty (pc_id b) +:+ " matched: " +:+ text)
    {| sd_hit := Some (pc_pid b, pc_address b);
       sd_conditional := Some {| ch_id := pc_id b; ch_expression := text; ch_actual_value := actual |};
       sd_watchpoint := None; sd_terminated := None |}.

Definition Multi_makeWatchpointStop (pid : ProcessId) (w : ProcessMemoryWatchpoint) (accessMode : ProcessMemoryWatchMode)
    (accessAddress executedSteps : Z) : M Session MultiProcessDebugStop :=
  make_multi_stop MStop_Watchpoint executedSteps
    ("PID " +:+ pretty pid +:+ " watchpoint " +:+ pretty (pw_id w) +:+ " matched "
     +:+ processMemoryWatchModeToString accessMode +:+ " at address " +:+ pretty accessAddress)
    {| sd_hit := Some (pid, accessAddress); sd_conditional := None;
       sd_watchpoint := Some {| wh_id := pw_id w; wh_mode := pw_mode w; wh_address := pw_address w; wh_size := pw_size w;
                                wh_access_mode := accessMode; wh_access_address := accessAddress |};
       sd_terminated := None |}.

Definition Multi_makeTerminalStop (executedSteps : Z) : M Session MultiProcessDebugStop :=
  s ← get;
  match ms_runtime_state s with
  | RS_Completed => Multi_makeStop MStop_RuntimeCompleted executedSteps "All processes completed"
  | RS_Deadlocked => Multi_makeStop MStop_Deadlocked executedSteps "Process runtime is deadlocked"
  | RS_Ready => Multi_makeStop MStop_Ready executedSteps ""
  | RS_Running => Multi_makeStop MStop_StepComplete executedSteps ""
  end.

Definition Multi_findConditionalBreakpointHit (pid : ProcessId) (address : Z) (s : Session)
    : outcome (option (ProcessConditionalBreakpoint * Z)) :=
  first_condition pc_condition (fun b => (pc_pid b =? pid) && (pc_address b =? address)) (ms_cpu s)
    (ms_conditional_breakpoints s).

Definition Multi_findWatchpointHit (pid : ProcessId) (s : Session)
    : outcome (option (ProcessMemoryWatchpoint * ProcessMemoryWatchMode * Z)) :=
  if bool_decide (ms_watchpoints s = []) then mret None
  else
    access ← traced_access (ms_cpu s);
    mret (match access with
          | None => None
          | Some (mode, address) =>
              match list_find (fun w => process_watch_matches pid mode address w = true) (ms_watchpoints s) with
              | Some (_, w) => Some (w, mode, address)
              | None => None
              end
          end).

(** ** Skipping the breakpoint a stop was made for *)

Definition armResumeSkipFromLastStop : M Session unit :=
  s ← get;
  let stop := ms_last_stop s in
  if bool_decide (mstop_reason stop = MStop_Breakpoint) || bool_decide (mstop_reason stop = MStop_ConditionalBreakpoint)
  then modify (set_multi_skip (Some (from_option id (0, 0) (sd_hit (mstop_detail stop)))))
  else mret tt.

Definition refreshResumeSkip : M Session unit :=
  s ← get;
  match ms_resume_skip s with
  | None => mret tt
  | Some (pid, address) =>
      if negb (ProcessTable_contains (ms_table s) pid) then modify (set_multi_skip None)
      else
        snapshot ← lift (Multi_processSnapshot pid s);
        if ProcessDebugSnapshot_terminated snapshot || negb (ctx_pc (pd_context snapshot) =? address)
        then modify (set_multi_skip None) else mret tt
  end.

Definition skips_breakpoint (pid : ProcessId) (address : Z) (s : Session) : bool :=
  match ms_resume_skip s with
  | Some (p, a) => (p =? pid) && (a =? address)
  | None => false
  end.

(** ** Stepping *)

Definition Multi_recordContextSwitch (before after : ProcessId) (preempted causedByTermination : bool) : M Session unit :=
  modify (fun s =>
    set_multi_switches
      (ms_context_switches s ++
       [{| cs_lifecycle_step := ms_total_steps s; cs_from_pid := before; cs_to_pid := after; cs_preempted := preempted;
           cs_caused_by_termination := causedByTermination |}]) s).

(** Take the observation of a software interrupt from the CPU. *)
Definition record_interrupt (before : ProcessId) : M Session unit :=
  s ← get;
  if has_software_interrupt_observation (ms_cpu s) then
    observation ← lift (softwareInterruptObservation (ms_cpu s));
    _ ← modify (set_multi_interrupts
                  (ms_software_interrupts s ++
                   [{| si_lifecycle_step := ms_total_steps s; si_pid := before; si_observation := observation |}]));
    on_run (on_system (on_machine (assign clearSoftwareInterruptObservation)))
  else mret tt.

(** [step] up to the record of the context switch: the running process before it
    and the result of the lifecycle. *)
Definition lifecycle_debug_step : M Session (ProcessId * ProcessLifecycleStepResult) :=
  s ← get;
  _ ← throw_if (negb (hasRunningProcess (ms_table s))) (RuntimeError "Running debugger has no Running process");
  before ← lift (runningProcessId (ms_table s));
  ended ← lift (reachedExecutableEnd (ms_cpu s) (ms_table s));
  _ ← (if (ended : bool) then
         on_run (_ ← on_system discardCompletionTimerRequest; on_cpu_state (setHalted true))
       else mret tt);
  result ← on_run (lifecycle_step this_cpu);
  _ ← modify (fun s => set_multi_progress (lr_state result) (u64 (ms_total_steps s + 1)) s);
  _ ← record_interrupt before;
  after ← (s ← get; if hasRunningProcess (ms_table s) then lift (runningProcessId (ms_table s)) else mret 0);
  s' ← get;
  let preempted := tp_preemption_count (ms_preemptive s') >? tp_preemption_count (ms_preemptive s) in
  _ ← (if negb (before =? after)
       then Multi_recordContextSwitch before after preempted (lr_process_terminated result) else mret tt);
  mret (before, result).

(** The stop for a process that ended in the step. *)
Definition ended_stop (r : ProcessLifecycleStepResult) : M Session MultiProcessDebugStop :=
  s ← get;
  let faulted := lr_process_faulted r in
  let message := "PID " +:+ pretty (lr_terminated_pid r) +:+ (if faulted then " faulted" else " terminated") in
  message ← lift (if faulted then
                    process ← requireProcess (lr_terminated_pid r) (ms_table s);
                    reason ← ProcessControlBlock_terminationMessage process;
                    mret (if bool_decide (reason = EmptyString) then message else message +:+ ": " +:+ reason)
                  else mret message);
  make_multi_stop (if faulted then MStop_ProcessFaulted else MStop_ProcessTerminated) 1 message
    {| sd_hit := None; sd_conditional := None; sd_watchpoint := None; sd_terminated := Some (faulted, lr_terminated_pid r) |}.

Definition Multi_step : M Session MultiProcessDebugStop :=
  s ← when_started mret;
  if negb (bool_decide (ms_runtime_state s = RS_Running)) then Multi_makeTerminalStop 0
  else
    let traceSizeBefore := length (trace_logger (ms_cpu s)) in
    '(before, result) ← lifecycle_debug_step;
    _ ← refreshResumeSkip;
    if lr_process_terminated result then ended_stop result
    else
      s ← get;
      hit ← lift (if (traceSizeBefore <? length (trace_logger (ms_cpu s)))%nat then Multi_findWatchpointHit before s
                  else mret None);
      match hit with
      | Some (w, mode, address) => Multi_makeWatchpointStop before w mode address 1
      | None =>
          if negb (bool_decide (ms_runtime_state s = RS_Running)) then Multi_makeTerminalStop 1
          else Multi_makeStop MStop_StepComplete 1 ""
      end.

(** [stop.executed_steps = executed; last_stop_ = stop; return last_stop_;] *)
Definition stop_at (executed : Z) (stop : MultiProcessDebugStop) : M Session MultiProcessDebugStop :=
  let stop := set_executed_steps executed stop in
  _ ← modify (set_multi_stop stop);
  mret stop.

(** A breakpoint or a condition at the instruction the running process goes on
    with. *)
Definition multi_breakpoint_stop (pid : ProcessId) (address executed : Z) : M Session (option MultiProcessDebugStop) :=
  s ← get;
  if bool_decide ((pid, address) ∈ ms_breakpoints s) then
    stop ← Multi_makeBreakpointStop pid address executed; mret (Some stop)
  else
    hit ← lift (Multi_findConditionalBreakpointHit pid address s);
    match hit with
    | Some (b, actual) => stop ← Multi_makeConditionalBreakpointStop b actual executed; mret (Some stop)
    | None => mret None
    end.

(** The loop of [continueExecution], with the steps left of the limit. *)
Fixpoint multi_continue_loop (remaining : nat) (executed : Z) : M Session MultiProcessDebugStop :=
  match remaining with
  | O => Multi_makeStop MStop_StepLimit executed "Multi-process debugger continue step limit reached"
  | S remaining =>
      s ← get;
      if negb (hasRunningProcess (ms_table s)) then Multi_makeTerminalStop executed
      else
        _ ← refreshResumeSkip;
        s ← get;
        pid ← lift (runningProcessId (ms_table s));
        let address := pc (state (ms_cpu s)) in
        stop ← (if skips_breakpoint pid address s then mret None else multi_breakpoint_stop pid address executed);
        match stop with
        | Some stop => mret stop
        | None =>
            stop ← Multi_step;
            if negb (bool_decide (mstop_reason stop = MStop_StepComplete)) then stop_at (executed + 1) stop
            else multi_continue_loop remaining (executed + 1)
        end
  end.

Definition Multi_continueExecution (maxSteps : Z) : M Session MultiProcessDebugStop :=
  s ← when_started mret;
  _ ← throw_if (maxSteps =? 0) (RuntimeError "Multi-process debugger continue limit must be greater than zero");
  if negb (bool_decide (ms_runtime_state s = RS_Running)) then Multi_makeTerminalStop 0
  else
    _ ← armResumeSkipFromLastStop;
    multi_continue_loop (Z.to_nat maxSteps) 0.

(** What the loop of [stepSelectedSourceLine] reads: the symbols of the selected
    process, and where it started. *)
Record SourceStep := { ss_symbols : DebugSymbols; ss_start_address : Z; ss_line_before : Z }.

(** The loop, with the steps left of the limit; its variables [executed],
    [sourceStartSkipActive] and [sourceLineChanged]. *)
Fixpoint multi_source_loop (from : SourceStep) (remaining : nat) (executed : Z) (startSkip lineChanged : bool)
    : M Session MultiProcessDebugStop :=
  s ← get;
  if negb (bool_decide (ms_runtime_state s = RS_Running)) then Multi_makeTerminalStop executed
  else if negb (hasRunningProcess (ms_table s)) then Multi_makeTerminalStop executed
  else
    _ ← refreshResumeSkip;
    s ← get;
    runningPid ← lift (runningProcessId (ms_table s));
    let address := pc (state (ms_cpu s)) in
    let skipSourceStart := startSkip && (runningPid =? ms_selected_pid s) && (address =? ss_start_address from) in
    stop ← (if skips_breakpoint runningPid address s || skipSourceStart then mret None
            else multi_breakpoint_stop runningPid address executed);
    match stop with
    | Some stop => mret stop
    | None =>
        if lineChanged then Multi_makeStop MStop_StepComplete executed ""
        else match remaining with
        | O => Multi_makeStop MStop_StepLimit executed "Multi-process debugger source step limit reached"
        | S remaining =>
            stop ← Multi_step;
            if negb (bool_decide (mstop_reason stop = MStop_StepComplete)) then stop_at (executed + 1) stop
            else
              s ← get;
              selected ← lift (Multi_selectedProcessSnapshot s);
              let ended := ProcessDebugSnapshot_terminated selected in
              let address := ctx_pc (pd_context selected) in
              let lineChanged :=
                if ended then lineChanged
                else match DebugSymbols_sourceLineForAddress address (ss_symbols from) with
                     | Ret sourceLineAfter => negb (sourceLineAfter =? ss_line_before from)
                     | Throw _ => false
                     end in
              multi_source_loop from remaining (executed + 1) (negb ended && (address =? ss_start_address from)) lineChanged
        end
    end.

(** The checks in front of the loop. *)
Definition source_step_start (s : Session) : outcome SourceStep :=
  let pid := ms_selected_pid s in
  _ ← throw_if (pid =? 0) (RuntimeError "No process is selected");
  initial ← Multi_selectedProcessSnapshot s;
  _ ← throw_if (ProcessDebugSnapshot_terminated initial)
        (RuntimeError ("Cannot source-step terminated PID " +:+ pretty pid));
  let no_map := RuntimeError ("Selected PID " +:+ pretty pid +:+ " has no source map") in
  symbols ← (match ms_symbols s !! pid with Some symbols => mret symbols | None => throw no_map end);
  _ ← throw_if (negb (DebugSymbols_hasSourceLocations symbols)) no_map;
  let address := ctx_pc (pd_context initial) in
  match DebugSymbols_sourceLineForAddress address symbols with
  | Ret line => mret {| ss_symbols := symbols; ss_start_address := address; ss_line_before := line |}
  | Throw _ => throw (RuntimeError ("Selected PID " +:+ pretty pid +:+ " current PC has no source mapping"))
  end.

Definition Multi_stepSelectedSourceLine (maxSteps : Z) : M Session MultiProcessDebugStop :=
  s ← when_started mret;
  _ ← throw_if (maxSteps =? 0) (RuntimeError "Multi-process debugger source step limit must be greater than zero");
  if negb (bool_decide (ms_runtime_state s = RS_Running)) then Multi_makeTerminalStop 0
  else
    from ← lift (source_step_start s);
    _ ← armResumeSkipFromLastStop;
    multi_source_loop from (Z.to_nat maxSteps) 0 true false.

(** ** Construction *)

(** [cpu_], with the bus and the handler of the options. *)
Definition debugger_cpu (o : MultiProcessDebugOptions) : outcome CPU :=
  let c := match mo_mmio_bus o with Some bus => set_mmio_bus (Some bus) new_CPU | None => new_CPU end in
  if mo_has_handler o then setSoftwareInterruptHandler true c else mret c.

(** The members before [initialize]. *)
Definition new_session (o : MultiProcessDebugOptions) (preemptive : TimerPreemptiveScheduler) (w : World) (h : H) : Session :=
  Build_MultiProcessDebugSession o
    (new_ProcessLifecycleManager (mo_normal_exit_code o) (mo_fault_exit_code o),
     mkSystem (mkMachine new_CPU w h) new_ProcessTable new_RoundRobinScheduler preemptive)
    false RS_Ready 0 0 ∅ ∅ [] 1 [] 1 None [] [] new_MultiProcessDebugStop.

Definition set_ms_table (t : ProcessTable) (s : Session) : Session :=
  set_multi_run ((ms_run s).1, mkSystem (s_machine (ms_system s)) t (s_scheduler (ms_system s)) (ms_preemptive s)) s.

Definition Multi_initialize (images : list ProcessImage) : M Session unit :=
  _ ← throw_if (bool_decide (images = [])) (RuntimeError "Multi-process debugger requires at least one process image");
  _ ← zoom ms_table set_ms_table (create_processes images);
  s ← get;
  c ← lift (debugger_cpu (ms_options s));
  _ ← on_run (on_system (on_machine (assign (fun _ => c))));
  runtimeState ← on_run (lifecycle_start this_cpu);
  _ ← modify (fun s =>
        Build_MultiProcessDebugSession (ms_options s) (ms_run s) true runtimeState (ms_total_steps s) (ms_selected_pid s)
          (ms_symbols s) (ms_breakpoints s) (ms_conditional_breakpoints s) (ms_next_conditional_breakpoint_id s)
          (ms_watchpoints s) (ms_next_watchpoint_id s) (ms_resume_skip s) (ms_software_interrupts s)
          (ms_context_switches s) (ms_last_stop s));
  s ← get;
  selected ← lift (if hasRunningProcess (ms_table s) then runningProcessId (ms_table s)
                   else mret (from_option id 0 (head (processIds (ms_table s)))));
  _ ← modify (set_multi_selected selected);
  _ ← Multi_makeStop MStop_Ready 0 "";
  mret tt.

(** One executable's symbols; a file that cannot be opened is passed over. *)
Fixpoint load_symbols (read_text : string -> option string) (l : list (ProcessId * string)) : M Session unit :=
  match l with
  | [] => mret tt
  | (pid, path) :: l =>
      let symbolsPath := debugSymbolsPathForExecutable path in
      _ ← (match read_text symbolsPath with
           | None => mret tt
           | Some text =>
               symbols ← lift (DebugSymbols_readFile symbolsPath (Some text));
               modify (fun s => set_multi_symbols (<[pid := symbols]> (ms_symbols s)) s)
           end);
      load_symbols read_text l
  end.

Definition loadAutomaticSymbols (read_text : string -> option string) (paths : list string) : M Session unit :=
  s ← get;
  let pids := processIds (ms_table s) in
  _ ← throw_if (negb (bool_decide (length pids = length paths))) (RuntimeError "Process and executable path count mismatch");
  load_symbols read_text (zip pids paths).

(** The body of a constructor on fresh members: when it throws there is no
    session. *)
Definition build_session (o : MultiProcessDebugOptions) (body : M Session unit) (preemptive : TimerPreemptiveScheduler)
    : M (World * H) Session :=
  fun '(w, h) =>
    let '(r, s) := body (new_session o preemptive w h) in
    (match r with Ret _ => Ret s | Throw e => Throw e end,
     (world (s_machine (ms_system s)), handler (s_machine (ms_system s)))).

Definition construct (o : MultiProcessDebugOptions) (body : M Session unit) : M (World * H) Session :=
  preemptive ← zoom fst (fun w '(_, h) => (w, h))
                 (new_TimerPreemptiveScheduler (mo_timer_vector o) (mo_quantum o) (mo_timer_payload o));
  _ ← lift (Multi_validateOptions o);
  build_session o body preemptive.

Definition new_MultiProcessDebugSession_images (images : list ProcessImage) (o : MultiProcessDebugOptions)
    : M (World * H) Session :=
  construct o (Multi_initialize images).

(** [read_file] gives the bytes of a host file, or throws. *)
Definition new_MultiProcessDebugSession (read_file : string -> outcome (list Z)) (read_text : string -> option string)
    (paths : list string) (o : MultiProcessDebugOptions) : M (World * H) Session :=
  construct o (
    _ ← throw_if (bool_decide (paths = [])) (RuntimeError "Multi-process debugger requires at least one executable");
    images ← lift (load_images read_file paths);
    _ ← Multi_initialize images;
    loadAutomaticSymbols read_text paths).

End session.
