(* ===== verification/MultiDebugLaws.v ===== *)
(** * Debugging several processes does not change their run

    A session is a run of the lifecycle with a debugger around it.  Whatever is
    asked of the debugger, the run in the session is the runner's run, stopped
    after some of its steps ([follows]): so a session that is brought to the end of
    the runtime leaves what [MultiProcessRunner] leaves. *)

From S2P Require Import Prelude Words Strings Text ALU Memory ISA Binary Interrupts Devices CPUState Trace TraceDetail CPU CPUExec CPUStep CPUFrames CPUInv Image Process ProcTable Scheduler Dispatcher Preemption Lifecycle Assembler Runner RunnerVerified DebugCondition DebugSymbols DebugSession MultiDebugSession.
From stdpp Require Import gmap.
Open Scope Z_scope.

(** ** The run of a session *)

Section laws.
Context {LD : LongDouble} {H : Type} {SIH : SoftwareInterruptHandler H}.
Abbreviation Session := (MultiProcessDebugSession H).
Implicit Types (s : Session) (log : RunLog).

(** The state the runner's loop works on. *)
Abbreviation Run := (Lifecycle H * ProcessRuntimeState * RunLog)%type.

(** The session keeps no execution events. *)
Definition forget log : RunLog :=
  {| log_steps := log_steps log; log_execution := []; log_interrupts := log_interrupts log; log_switches := log_switches log |}.

Definition session_log s : RunLog :=
  {| log_steps := ms_total_steps s; log_execution := []; log_interrupts := ms_software_interrupts s;
     log_switches := ms_context_switches s |}.

Definition run_of s : Run := (ms_run s, ms_runtime_state s, session_log s).

(** An iteration of the runner's loop, and what a call that throws leaves. *)
Definition next_run (r : Run) : Run :=
  let '(l, st, log) := r in
  if bool_decide (st = RS_Running) then
    match runner_step log l with
    | (Ret (st, log), l) => (l, st, forget log)
    | (Throw _, l) => (l, st, log)
    end
  else r.

(** [r'] is the run after some more iterations. *)
Definition later (r r' : Run) : Prop := exists n, r' = Nat.iter n next_run r.

#[export] Instance later_preorder : PreOrder later.
Proof.
  split; [intros r; exists 0%nat; reflexivity|]. intros r1 r2 r3 [n ->] [k ->]. exists (k + n)%nat. symmetry. apply Nat.iter_add.
Qed.

(** The calls after which the run is related to the one before, whether they
    return or throw. *)
Definition respects (R : Run -> Run -> Prop) {A} (m : M Session A) : Prop := forall s, R (run_of s) (run_of (m s).2).

Section respects.
Context (R : Run -> Run -> Prop) `{!PreOrder R}.

Lemma respects_bind {A B} (m : M Session A) (f : A -> M Session B) :
  respects R m -> (forall a, respects R (f a)) -> respects R (m ≫= f).
Proof.
  intros Hm Hf s. rewrite bind_run. specialize (Hm s). destruct (m s) as [[a|e] s1]; [|exact Hm].
  etransitivity; [exact Hm | apply Hf].
Qed.

Lemma respects_keeps {A} (m : M Session A) : respects eq m -> respects R m.
Proof. intros Hm s. unfold respects in Hm. rewrite <- (Hm s). reflexivity. Qed.
Lemma respects_ret {A} (a : A) : respects R (mret a).
Proof. apply respects_keeps. intros s. reflexivity. Qed.
Lemma respects_get : respects R get.
Proof. apply respects_keeps. intros s. reflexivity. Qed.
Lemma respects_lift {A} (o : outcome A) : respects R (lift o).
Proof. apply respects_keeps. intros s. reflexivity. Qed.
Lemma respects_throw_if b e : respects R (throw_if b e).
Proof. apply respects_keeps. intros s. destruct b; reflexivity. Qed.
Lemma respects_modify f : (forall s, run_of (f s) = run_of s) -> respects R (modify f).
Proof. intros Hf. apply respects_keeps. intros s. symmetry. apply Hf. Qed.
Lemma respects_when {A} (f : Session -> outcome A) : respects R (when_started f).
Proof. unfold when_started. repeat (apply respects_bind; [|intros ?]); eauto using respects_get, respects_lift. Qed.
End respects.
End laws.

Create HintDb run.
#[export] Hint Resolve respects_ret respects_get respects_lift respects_throw_if respects_when : run.

#[export] Hint Extern 0 (PreOrder _) => apply _ : run.

(** Goes through the binds and branches of a handler. *)
Ltac follow :=
  repeat first
    [ progress cbv zeta
    | solve [auto with run]
    | apply respects_modify; [apply _ | reflexivity]
    | apply respects_bind; [apply _ | |intros ?]
    | match goal with
      | |- respects _ (if ?b then _ else _) => destruct b
      | |- respects _ (match ?x with _ => _ end) => destruct x
      end ].

Section laws.
Context {LD : LongDouble} {H : Type} {SIH : SoftwareInterruptHandler H}.
Abbreviation Session := (MultiProcessDebugSession H).
Abbreviation Run := (Lifecycle H * ProcessRuntimeState * RunLog)%type.
Implicit Types (s : Session) (log : RunLog).

(** ** One step *)

Lemma on_run_run {A} (m : M (Lifecycle H) A) s : on_run m s = ((m (ms_run s)).1, set_multi_run (m (ms_run s)).2 s).
Proof. unfold on_run, zoom. destruct (m (ms_run s)). reflexivity. Qed.

Lemma current_pid_ret (t : ProcessTable) :
  (if hasRunningProcess t then runningProcessId t else mret 0) = Ret (current_pid t).
Proof. unfold current_pid, runningProcessId. destruct (hasRunningProcess t); reflexivity. Qed.

(** The step of the lifecycle, with the end of the executable turned into a halt. *)
Definition advance (ended : bool) : M (Lifecycle H) ProcessLifecycleStepResult :=
  _ ← (if ended then _ ← on_system discardCompletionTimerRequest; on_cpu_state (setHalted true) else mret tt);
  lifecycle_step this_cpu.

Definition cleared (l : Lifecycle H) : Lifecycle H :=
  if has_software_interrupt_observation (cpu (s_machine l.2))
  then (l.1, mkSystem (set_cpu clearSoftwareInterruptObservation (s_machine l.2)) (s_table l.2) (s_scheduler l.2) (s_preemptive l.2))
  else l.

Lemma cleared_rest (l : Lifecycle H) :
  s_table (cleared l).2 = s_table l.2 /\ s_preemptive (cleared l).2 = s_preemptive l.2.
Proof. unfold cleared. destruct (has_software_interrupt_observation _); split; reflexivity. Qed.

(** What the records of a step add. *)
Definition recorded (before : ProcessId) (preemptionsBefore : Z) (r : ProcessLifecycleStepResult) log (l : Lifecycle H) : RunLog :=
  let c := cpu (s_machine l.2) in
  let steps := u64 (log_steps log + 1) in
  {| log_steps := steps; log_execution := [];
     log_interrupts := log_interrupts log ++
       (if has_software_interrupt_observation c
        then [{| si_lifecycle_step := steps; si_pid := before; si_observation := software_interrupt_observation c |}] else []);
     log_switches := log_switches log ++
       (if negb (before =? current_pid (s_table l.2))
        then [{| cs_lifecycle_step := steps; cs_from_pid := before; cs_to_pid := current_pid (s_table l.2);
                 cs_preempted := tp_preemption_count (s_preemptive l.2) >? preemptionsBefore;
                 cs_caused_by_termination := lr_process_terminated r |}] else []) |}.

Lemma record_step_forget before n p r log (l : Lifecycle H) :
  exists log', record_step before n p r log l = (Ret log', cleared l) /\ forget log' = recorded before p r log l.
Proof.
  destruct l as [m y]. unfold record_step, get. rewrite bind_run. cbv beta iota zeta.
  assert (Hexec : exists ex, ((if (n <? length (trace_logger (cpu (s_machine y))))%nat
     then event ← lift (TraceLogger_last (trace_logger (cpu (s_machine y))));
          mret (log_execution log ++ [{| et_lifecycle_step := u64 (log_steps log + 1); et_pid := before; et_event := event |}])
     else mret (log_execution log)) : M (Lifecycle H) _) (m, y) = (Ret ex, (m, y))).
  { destruct (n <? _)%nat eqn:E; [|eexists; reflexivity]. rewrite bind_run. unfold lift, TraceLogger_last.
    destruct (last _) eqn:El; [eexists; reflexivity|]. apply last_None in El. rewrite El in E. destruct n; discriminate E. }
  destruct Hexec as [ex Hex]. rewrite bind_run, Hex. cbv beta iota. rewrite bind_run. unfold recorded, cleared. cbn [snd fst].
  destruct (has_software_interrupt_observation (cpu (s_machine y))) eqn:Ho.
  - rewrite bind_run. unfold lift at 1, softwareInterruptObservation. rewrite Ho. cbn [negb throw_if mbind outcome_bind mret outcome_ret].
    rewrite bind_run. eexists. split; [reflexivity|]. unfold forget. cbn. f_equal. destruct (negb _); [|rewrite app_nil_r]; reflexivity.
  - cbn [mret M_ret]. eexists. split; [reflexivity|]. unfold forget. cbn. rewrite app_nil_r. f_equal.
    destruct (negb _); [|rewrite app_nil_r]; reflexivity.
Qed.

(** One iteration of the runner: its checks, the step, the records. *)
Definition step_checks (y : System H) : outcome (ProcessId * bool) :=
  _ ← throw_if (negb (hasRunningProcess (s_table y))) (RuntimeError "");
  before ← runningProcessId (s_table y);
  ended ← reachedExecutableEnd (cpu (s_machine y)) (s_table y);
  mret (before, ended).

Lemma next_run_running (l : Lifecycle H) log :
  next_run (l, RS_Running, log) =
  match step_checks l.2 with
  | Throw _ => (l, RS_Running, log)
  | Ret (before, ended) =>
      match advance ended l with
      | (Throw _, l') => (l', RS_Running, log)
      | (Ret r, l') => (cleared l', lr_state r, recorded before (tp_preemption_count (s_preemptive l.2)) r log l')
      end
  end.
Proof.
  unfold next_run, runner_step, step_checks. destruct l as [m y]. rewrite bool_decide_eq_true_2 by reflexivity.
  rewrite bind_run. unfold get at 1. cbv beta iota. cbn [snd]. rewrite bind_run.
  destruct (negb (hasRunningProcess (s_table y))); [reflexivity|]. cbn [throw_if mret M_ret outcome_ret mbind outcome_bind].
  rewrite bind_run. destruct (runningProcessId (s_table y)) as [before|e]; [|reflexivity]. unfold lift at 1. cbv beta iota zeta.
  rewrite bind_run. destruct (reachedExecutableEnd _ _) as [ended|e]; [|reflexivity]. unfold lift at 1. cbv beta iota.
  cbn [mret M_ret outcome_ret mbind outcome_bind]. unfold advance. rewrite !bind_run.
  match goal with |- context [(if ended then ?a else ?b) ?l] => destruct ((if ended then a else b) l) as [[u|e] l1] end; [|reflexivity].
  rewrite bind_run. destruct (lifecycle_step this_cpu l1) as [[r|e] l2]; [|reflexivity].
  rewrite bind_run. destruct (record_step_forget before (length (trace_logger (cpu (s_machine y)))) (tp_preemption_count (s_preemptive y)) r log l2)
    as (log' & -> & <-). reflexivity.
Qed.

Lemma on_run_advance {A} (ended : bool) (k : ProcessLifecycleStepResult -> M Session A) s :
  ((_ ← (if ended then on_run (_ ← on_system discardCompletionTimerRequest; on_cpu_state (setHalted true)) else mret tt);
    r ← on_run (lifecycle_step this_cpu); k r) : M Session A) s =
  match advance ended (ms_run s) with
  | (Throw e, l) => (Throw e, set_multi_run l s)
  | (Ret r, l) => k r (set_multi_run l s)
  end.
Proof.
  unfold advance. rewrite !bind_run. destruct ended.
  - match goal with |- context [on_run ?m s] => rewrite (on_run_run m s); destruct (m (ms_run s)) as [[u|e] l] end;
      cbn [fst snd]; [|reflexivity].
    rewrite bind_run, on_run_run. cbn [ms_run set_multi_run]. destruct (lifecycle_step this_cpu l) as [[r|e] l']; reflexivity.
  - cbn [mret M_ret]. rewrite bind_run, on_run_run. destruct (lifecycle_step this_cpu (ms_run s)) as [[r|e] l']; reflexivity.
Qed.

Lemma record_interrupt_run before s :
  record_interrupt before s =
  (Ret tt, set_multi_run (cleared (ms_run s))
    (set_multi_interrupts (ms_software_interrupts s ++
       (if has_software_interrupt_observation (ms_cpu s)
        then [{| si_lifecycle_step := ms_total_steps s; si_pid := before; si_observation := software_interrupt_observation (ms_cpu s) |}]
        else [])) s)).
Proof.
  unfold record_interrupt, cleared, ms_cpu, ms_system. rewrite bind_run. unfold get at 1. cbv beta iota.
  destruct s as [o [m y] started st total sel syms bps cbs nc ws nw skip ints sws stop]. cbn [ms_run snd ms_software_interrupts].
  destruct (has_software_interrupt_observation (cpu (s_machine y))) eqn:Ho; [|rewrite app_nil_r; reflexivity].
  rewrite bind_run. unfold lift at 1, softwareInterruptObservation. rewrite Ho. cbn [negb throw_if mbind outcome_bind mret outcome_ret].
  rewrite bind_run. reflexivity.
Qed.

Lemma debug_step_run s :
  ms_runtime_state s = RS_Running ->
  run_of (lifecycle_debug_step s).2 = next_run (run_of s).
Proof.
  intros Hs. unfold run_of at 2. rewrite Hs, next_run_running.
  unfold lifecycle_debug_step, step_checks. change ((ms_run s).2) with (ms_system s).
  assert (Hr : run_of s = (ms_run s, RS_Running, session_log s)) by (unfold run_of; rewrite Hs; reflexivity).
  rewrite bind_run. unfold get at 1. cbv beta iota. rewrite bind_run. unfold ms_cpu at 1, ms_table at 1 2 3.
  destruct (negb (hasRunningProcess (s_table (ms_system s)))); [exact Hr|]. cbn [throw_if mret M_ret outcome_ret mbind outcome_bind].
  rewrite bind_run. destruct (runningProcessId _) as [before|e]; [|exact Hr]. unfold lift at 1. cbv beta iota zeta.
  rewrite bind_run. destruct (reachedExecutableEnd _ _) as [ended|e]; [|exact Hr]. unfold lift at 1. cbv beta iota.
  cbn [mret M_ret outcome_ret mbind outcome_bind]. rewrite on_run_advance.
  destruct (advance ended (ms_run s)) as [[r|e] l]; [|unfold run_of; cbn; rewrite Hs; reflexivity].
  rewrite bind_run. cbn [modify]. rewrite bind_run, record_interrupt_run. rewrite bind_run.
  match goal with |- context [(get ≫= ?k) ?x] => assert (Hcur : (get ≫= k) x = (Ret (current_pid (ms_table x)), x)) end.
  { rewrite bind_run. unfold get. cbv beta iota. unfold current_pid, runningProcessId. destruct (hasRunningProcess _); reflexivity. }
  rewrite Hcur. cbv beta iota. rewrite bind_run. unfold get. cbv beta iota. rewrite bind_run.
  unfold recorded, ms_preemptive, ms_cpu, ms_table, ms_system. cbn.
  destruct (cleared_rest l) as [-> ->]. destruct (negb _); unfold run_of, session_log; cbn; rewrite ?app_nil_r; reflexivity.
Qed.

(** ** The handlers *)

Section handlers.
Context (R : Run -> Run -> Prop) `{!PreOrder R}.

Lemma respects_refresh : respects R refreshResumeSkip.
Proof. unfold refreshResumeSkip. follow. Qed.
Lemma respects_arm : respects R armResumeSkipFromLastStop.
Proof. unfold armResumeSkipFromLastStop. follow. Qed.
Lemma respects_make_stop reason n message detail : respects R (make_multi_stop reason n message detail).
Proof. unfold make_multi_stop. follow. Qed.
Lemma respects_stop reason n message : respects R (Multi_makeStop reason n message).
Proof. apply respects_make_stop. Qed.
#[local] Hint Resolve respects_make_stop respects_stop : run.
Lemma respects_terminal n : respects R (Multi_makeTerminalStop n).
Proof. unfold Multi_makeTerminalStop. follow. Qed.
Lemma respects_breakpoint_stop pid address n : respects R (multi_breakpoint_stop pid address n).
Proof. unfold multi_breakpoint_stop, Multi_makeBreakpointStop, Multi_makeConditionalBreakpointStop. follow. Qed.
Lemma respects_watchpoint_stop pid w mode address n : respects R (Multi_makeWatchpointStop pid w mode address n).
Proof. unfold Multi_makeWatchpointStop. follow. Qed.
Lemma respects_ended_stop r : respects R (ended_stop r).
Proof. unfold ended_stop. follow. Qed.
Lemma respects_stop_at n stop : respects R (stop_at n stop).
Proof. unfold stop_at. follow. Qed.
Lemma respects_load_symbols read_text l : respects R (load_symbols read_text l).
Proof. induction l as [|[pid path] l IH]; cbn [load_symbols]; follow. Qed.
End handlers.

#[local] Hint Resolve respects_refresh respects_arm respects_make_stop respects_stop respects_terminal respects_breakpoint_stop
  respects_watchpoint_stop respects_ended_stop respects_stop_at respects_load_symbols : run.

Lemma step_later : respects later Multi_step.
Proof.
  intros s. unfold Multi_step. rewrite bind_run. unfold when_started. rewrite bind_run. unfold get at 1. cbv beta iota. rewrite bind_run.
  unfold lift at 1. destruct (requireStarted s) as [u|e]; [|reflexivity]. unfold lift at 1. cbn [mret outcome_ret].
  case_bool_decide as Hr; cbn [negb]; [|apply respects_terminal; apply _]. rewrite bind_run. pose proof (debug_step_run s Hr) as Hd.
  transitivity (next_run (run_of s)); [exists 1%nat; reflexivity|]. rewrite <- Hd.
  destruct (lifecycle_debug_step s) as [[[before r]|e] s1]; cbn [snd]; [|reflexivity].
  match goal with |- later _ (run_of (?m s1).2) => enough (Hm : respects later m) by apply Hm end. follow.
Qed.
#[local] Hint Resolve step_later : run.

Lemma multi_continue_loop_later remaining : forall n, respects later (multi_continue_loop remaining n).
Proof. induction remaining as [|remaining IH]; intros n; cbn [multi_continue_loop]; follow; apply IH. Qed.

Lemma multi_source_loop_later from remaining : forall n skip changed, respects later (multi_source_loop from remaining n skip changed).
Proof. induction remaining as [|remaining IH]; intros n skip changed; cbn [multi_source_loop]; follow; apply IH. Qed.
#[local] Hint Resolve multi_continue_loop_later multi_source_loop_later : run.

(** ** Commands *)

Inductive MultiCommand :=
  | MC_selectProcess (pid : ProcessId)
  | MC_loadSymbolsFile (read_text : string -> option string) (pid : ProcessId) (path : string)
  | MC_addBreakpoint (pid : ProcessId) (address : Z) | MC_removeBreakpoint (pid : ProcessId) (address : Z)
  | MC_clearBreakpoints (pid : option ProcessId)
  | MC_addConditionalBreakpoint (pid : ProcessId) (address : Z) (condition : DebugCondition)
  | MC_removeConditionalBreakpoint (id : Z) | MC_clearConditionalBreakpoints (pid : option ProcessId)
  | MC_addWatchpoint (pid : ProcessId) (address size : Z) (mode : ProcessMemoryWatchMode)
  | MC_removeWatchpoint (id : Z) | MC_clearWatchpoints (pid : option ProcessId)
  | MC_step | MC_stepSelectedSourceLine (maxSteps : Z) | MC_continueExecution (maxSteps : Z).

(** What a call leaves of the session, whether it returns or throws. *)
Definition run_multi_command (command : MultiCommand) s : Session :=
  match command with
  | MC_selectProcess pid => (Multi_selectProcess pid s).2
  | MC_loadSymbolsFile read_text pid path => (Multi_loadSymbolsFile read_text pid path s).2
  | MC_addBreakpoint pid address => (Multi_addBreakpoint pid address s).2
  | MC_removeBreakpoint pid address => (Multi_removeBreakpoint pid address s).2
  | MC_clearBreakpoints None => (Multi_clearBreakpoints s).2
  | MC_clearBreakpoints (Some pid) => (Multi_clearBreakpoints_pid pid s).2
  | MC_addConditionalBreakpoint pid address condition => (Multi_addConditionalBreakpoint pid address condition s).2
  | MC_removeConditionalBreakpoint id => (Multi_removeConditionalBreakpoint id s).2
  | MC_clearConditionalBreakpoints None => (Multi_clearConditionalBreakpoints s).2
  | MC_clearConditionalBreakpoints (Some pid) => (Multi_clearConditionalBreakpoints_pid pid s).2
  | MC_addWatchpoint pid address size mode => (Multi_addWatchpoint pid address size mode s).2
  | MC_removeWatchpoint id => (Multi_removeWatchpoint id s).2
  | MC_clearWatchpoints None => (Multi_clearWatchpoints s).2
  | MC_clearWatchpoints (Some pid) => (Multi_clearWatchpoints_pid pid s).2
  | MC_step => (Multi_step s).2
  | MC_stepSelectedSourceLine maxSteps => (Multi_stepSelectedSourceLine maxSteps s).2
  | MC_continueExecution maxSteps => (Multi_continueExecution maxSteps s).2
  end.

Definition run_multi_commands (commands : list MultiCommand) s : Session := foldl (fun s c => run_multi_command c s) s commands.

Lemma command_later command s : later (run_of s) (run_of (run_multi_command command s)).
Proof.
  destruct command as [| | | |[pid|]| | |[pid|]| | |[pid|]| | |]; cbn [run_multi_command];
    match goal with |- later _ (run_of (?m s).2) => enough (Hm : respects later m) by apply Hm end.
  - unfold Multi_selectProcess, when_process. follow.
  - unfold Multi_loadSymbolsFile, when_process. follow.
  - unfold Multi_addBreakpoint. follow.
  - unfold Multi_removeBreakpoint. follow.
  - unfold Multi_clearBreakpoints_pid, when_process. follow.
  - unfold Multi_clearBreakpoints. follow.
  - unfold Multi_addConditionalBreakpoint. follow.
  - unfold Multi_removeConditionalBreakpoint. follow.
  - unfold Multi_clearConditionalBreakpoints_pid, when_process. follow.
  - unfold Multi_clearConditionalBreakpoints. follow.
  - unfold Multi_addWatchpoint. follow.
  - unfold Multi_removeWatchpoint. follow.
  - unfold Multi_clearWatchpoints_pid, when_process. follow.
  - unfold Multi_clearWatchpoints. follow.
  - apply step_later.
  - unfold Multi_stepSelectedSourceLine. follow.
  - unfold Multi_continueExecution. follow.
Qed.

Lemma commands_later commands : forall s, later (run_of s) (run_of (run_multi_commands commands s)).
Proof.
  induction commands as [|command commands IH]; intros s; [reflexivity|].
  etransitivity; [apply (command_later command) | apply IH].
Qed.

(** ** The runner's loop *)

Lemma next_run_over (l : Lifecycle H) st log : st <> RS_Running -> next_run (l, st, log) = (l, st, log).
Proof. intros Hst. unfold next_run. rewrite bool_decide_eq_false_2 by exact Hst. reflexivity. Qed.

Lemma iter_over k (r : Run) : r.1.2 <> RS_Running -> Nat.iter k next_run r = r.
Proof.
  destruct r as [[l st] log]. intros Hst. induction k as [|k IH]; [reflexivity|]. rewrite Nat.iter_succ_r, next_run_over by exact Hst.
  exact IH.
Qed.

Lemma runner_step_next (l l1 : Lifecycle H) st1 log log1 :
  runner_step log l = (Ret (st1, log1), l1) -> next_run (l, RS_Running, forget log) = (l1, st1, forget log1).
Proof.
  intros E. assert (En : next_run (l, RS_Running, log) = (l1, st1, forget log1)).
  { unfold next_run. rewrite bool_decide_eq_true_2 by reflexivity. rewrite E. reflexivity. }
  rewrite next_run_running in *. destruct (step_checks l.2) as [[before ended]|e].
  - destruct (advance ended l) as [[r|e] l']; [exact En|]. injection En as -> <- ->. reflexivity.
  - injection En as -> <- ->. reflexivity.
Qed.

Lemma runner_loop_iter n : forall (l l' : Lifecycle H) st st' log log',
  runner_loop n st log l = (Ret (st', log'), l') -> Nat.iter n next_run (l, st, forget log) = (l', st', forget log').
Proof.
  induction n as [|n IH]; intros l l' st st' log log' E; [injection E as <- <- <-; reflexivity|].
  cbn [runner_loop] in E. case_bool_decide as Hst; cbn [negb] in E.
  - subst st. apply M_bind_ret_inv in E as ([st1 log1] & l1 & E1 & E).
    rewrite Nat.iter_succ_r, (runner_step_next _ _ _ _ _ E1). apply IH, E.
  - injection E as <- <- <-. apply iter_over. exact Hst.
Qed.

(** Records are only added. *)
Definition log_prefix (log log' : RunLog) : Prop :=
  log_interrupts log `prefix_of` log_interrupts log' /\ log_switches log `prefix_of` log_switches log'.

Lemma next_run_prefix (r : Run) : log_prefix r.2 (next_run r).2.
Proof.
  destruct r as [[l st] log]. destruct (decide (st = RS_Running)) as [->|Hst]; [|rewrite next_run_over by exact Hst; split; reflexivity].
  rewrite next_run_running. destruct (step_checks l.2) as [[before ended]|e]; [|split; reflexivity].
  destruct (advance ended l) as [[r|e] l']; [|split; reflexivity]. split; cbn; apply prefix_app_r; reflexivity.
Qed.

Lemma iter_prefix n (r : Run) : log_prefix r.2 (Nat.iter n next_run r).2.
Proof.
  induction n as [|n IH]; [split; reflexivity|]. cbn [Nat.iter nat_rect]. destruct IH as [I1 I2].
  destruct (next_run_prefix (Nat.iter n next_run r)) as [N1 N2]. split; etransitivity; eassumption.
Qed.

(** Two prefixes of a run of which the second is over. *)
Lemma runs_compare n k (r : Run) :
  (Nat.iter k next_run r).1.2 <> RS_Running ->
  log_prefix (Nat.iter n next_run r).2 (Nat.iter k next_run r).2 /\
  ((Nat.iter n next_run r).1.2 <> RS_Running -> Nat.iter n next_run r = Nat.iter k next_run r).
Proof.
  intros Hk. destruct (Nat.le_ge_cases n k) as [Hle|Hle]; destruct (Nat.le_exists_sub _ _ Hle) as (d & -> & _); rewrite Nat.iter_add in *.
  - split; [apply iter_prefix|]. intros Hn. rewrite (iter_over d) by exact Hn. reflexivity.
  - rewrite (iter_over d) by exact Hk. repeat split; reflexivity.
Qed.

(** ** Construction *)

(** The options of the runner with these values and a limit of steps. *)
Definition run_options (o : MultiProcessDebugOptions) (limit : Z) : MultiProcessRunOptions :=
  {| opt_timer_vector := mo_timer_vector o; opt_quantum := mo_quantum o; opt_timer_payload := mo_timer_payload o;
     max_lifecycle_steps := limit; opt_normal_exit_code := mo_normal_exit_code o; opt_fault_exit_code := mo_fault_exit_code o;
     opt_mmio_bus := mo_mmio_bus o; opt_has_handler := mo_has_handler o |}.

(** What a session of these images starts with. *)
Definition starts (o : MultiProcessDebugOptions) (images : list ProcessImage) (p : TimerPreemptiveScheduler) (w : World) (h : H)
    (r : Run) : Prop :=
  exists table c,
    create_processes images new_ProcessTable = (Ret tt, table) /\
    debugger_cpu o = Ret c /\
    lifecycle_start this_cpu (new_ProcessLifecycleManager (mo_normal_exit_code o) (mo_fault_exit_code o),
      mkSystem (mkMachine c w h) table new_RoundRobinScheduler p) = (Ret r.1.2, r.1.1) /\
    r.2 = empty_log.

Lemma initialize_starts o images p w h s :
  Multi_initialize images (new_session o p w h) = (Ret tt, s) -> starts o images p w h (run_of s).
Proof.
  intros E. unfold Multi_initialize in E. apply M_bind_ret_inv in E as (u1 & s1 & E1 & E). apply M_throw_if_ret_inv in E1 as [_ ->].
  apply M_bind_ret_inv in E as (u2 & s1 & E1 & E). unfold zoom in E1. cbn [new_session ms_table ms_run ms_system snd s_table] in E1.
  destruct (create_processes images new_ProcessTable) as [[u|e] table] eqn:Ec; [|discriminate E1]. injection E1 as <- <-.
  apply M_bind_ret_inv in E as (s2 & s3 & E1 & E). injection E1 as <- <-.
  apply M_bind_ret_inv in E as (c & s2 & E1 & E). apply M_lift_ret_inv in E1 as [Hc ->].
  apply M_bind_ret_inv in E as (u3 & s2 & E1 & E). injection E1 as <- <-.
  apply M_bind_ret_inv in E as (st & s2 & E1 & E). rewrite on_run_run in E1. cbn in E1.
  destruct (lifecycle_start this_cpu _) as [[st'|e] l] eqn:El; [|discriminate E1]. cbn in E1. injection E1 as -> <-.
  assert (Hs : run_of s = (l, st, empty_log)).
  { apply M_bind_ret_inv in E as (u4 & s2 & E1 & E). injection E1 as <- <-.
    match type of E with ?m ?x = _ => assert (Hm : respects eq m) by follow; specialize (Hm x); rewrite E in Hm; symmetry; exact Hm end. }
  rewrite Hs. destruct u. exists table, c. repeat split; [exact Ec | exact Hc | exact El].
Qed.

Lemma session_starts read_file read_text paths o w h s wh :
  new_MultiProcessDebugSession read_file read_text paths o (w, h) = (Ret s, wh) ->
  exists images p w1, load_images read_file paths = Ret images /\
    new_TimerPreemptiveScheduler (mo_timer_vector o) (mo_quantum o) (mo_timer_payload o) w = (Ret p, w1) /\
    starts o images p w1 h (run_of s).
Proof.
  intros E. unfold new_MultiProcessDebugSession, construct in E. apply M_bind_ret_inv in E as (p & [w1 h1] & E1 & E).
  unfold zoom in E1. cbn [fst] in E1. destruct (new_TimerPreemptiveScheduler _ _ _ w) as [op w2] eqn:Ep. injection E1 as -> -> ->.
  apply M_bind_ret_inv in E as (u1 & [w2 h2] & E1 & E). apply M_lift_ret_inv in E1 as [_ Ew]. injection Ew as -> ->.
  unfold build_session in E.
  match type of E with context [?m (new_session o p w1 h1)] => destruct (m (new_session o p w1 h1)) as [r s1] eqn:Eb end.
  destruct r as [u|e]; [|discriminate E]. injection E as -> _.
  apply M_bind_ret_inv in Eb as (u2 & s2 & E1 & Eb). apply M_throw_if_ret_inv in E1 as [_ ->].
  apply M_bind_ret_inv in Eb as (images & s2 & E1 & Eb). apply M_lift_ret_inv in E1 as [Ei ->].
  apply M_bind_ret_inv in Eb as ([] & s2 & E1 & Eb). apply initialize_starts in E1.
  exists images, p, w1. split; [exact Ei|]. split; [reflexivity|].
  assert (Hk : respects eq (loadAutomaticSymbols (H := H) read_text paths)) by (unfold loadAutomaticSymbols; follow).
  specialize (Hk s2). rewrite Eb in Hk. cbn [snd] in Hk. rewrite <- Hk. exact E1.
Qed.

(** The runner does the same. *)
Lemma runner_runs read_file paths o limit w h r wh :
  MultiProcessRunner_runFiles read_file paths (run_options o limit) (w, h) = (Ret r, wh) ->
  exists images p w1 r0 n l log, load_images read_file paths = Ret images /\
    new_TimerPreemptiveScheduler (mo_timer_vector o) (mo_quantum o) (mo_timer_payload o) w = (Ret p, w1) /\
    starts o images p w1 h r0 /\ Nat.iter n next_run r0 = (l, runtime_state r, log) /\
    log_steps log = lifecycle_steps r /\ log_interrupts log = software_interrupts r /\ log_switches log = context_switches r /\
    lm_termination_count l.1 = termination_count r /\ lm_fault_count l.1 = fault_count r /\
    summarize l.2 = Ret (run_processes r) /\ (world (s_machine l.2), handler (s_machine l.2)) = wh.
Proof.
  intros E. unfold MultiProcessRunner_runFiles in E. apply M_bind_ret_inv in E as (u1 & [w1 h1] & E1 & E).
  apply M_throw_if_ret_inv in E1 as [_ Ew]. injection Ew as -> ->.
  apply M_bind_ret_inv in E as (images & [w2 h2] & E1 & E). apply M_lift_ret_inv in E1 as [Ei Ew]. injection Ew as -> ->.
  unfold MultiProcessRunner_runImages in E.
  apply M_bind_ret_inv in E as (u2 & [w2 h2] & E1 & E). apply M_lift_ret_inv in E1 as [_ Ew]. injection Ew as -> ->.
  apply M_bind_ret_inv in E as (u3 & [w2 h2] & E1 & E). apply M_throw_if_ret_inv in E1 as [_ Ew]. injection Ew as -> ->.
  apply M_bind_ret_inv in E as (table & [w2 h2] & E1 & E). apply M_lift_ret_inv in E1 as [Et Ew]. injection Ew as -> ->.
  destruct (create_processes images new_ProcessTable) as [[[]|e] table'] eqn:Ec; [|discriminate Et]. injection Et as ->.
  apply M_bind_ret_inv in E as (c & [w2 h2] & E1 & E). apply M_lift_ret_inv in E1 as [Hc Ew]. injection Ew as -> ->.
  apply M_bind_ret_inv in E as (p & [w3 h3] & E1 & E). unfold zoom in E1. cbn [fst run_options opt_timer_vector opt_quantum opt_timer_payload] in E1.
  destruct (new_TimerPreemptiveScheduler _ _ _ w) as [op w4] eqn:Ep. injection E1 as -> -> ->.
  unfold run_on in E. destruct (run_session _ _) as [or [m y]] eqn:Er. injection E as -> <-.
  unfold run_session in Er. apply M_bind_ret_inv in Er as (st & l0 & El & Er).
  apply M_bind_ret_inv in Er as ([st' log] & [m1 y1] & Elp & Er).
  apply M_bind_ret_inv in Er as ([m2 y2] & l2 & Eg & Er). injection Eg as <- <- <-.
  apply M_bind_ret_inv in Er as (summaries & l2 & Es & Er). apply M_lift_ret_inv in Es as [Es ->]. injection Er as <- <- <-.
  apply runner_loop_iter in Elp.
  exists images, p, w3, (l0, st, empty_log). eexists _, _, _. split; [exact Ei|]. split; [reflexivity|].
  split; [exists table, c; repeat split; [exact Ec | exact Hc | exact El]|].
  split; [exact Elp|]. repeat split. exact Es.
Qed.

Lemma starts_unique o images p w h r r' : starts o images p w h r -> starts o images p w h r' -> r = r'.
Proof.
  intros (t & c & Ht & Hc & Hs & Hl) (t' & c' & Ht' & Hc' & Hs' & Hl'). destruct r as [[l st] log], r' as [[l' st'] log'].
  cbn in *. congruence.
Qed.

(** A session under commands, next to the run of the same executables. *)
Lemma commands_keep_run (read_file : string -> outcome (list Z)) (read_text : string -> option string) (paths : list string)
    (o : MultiProcessDebugOptions) (limit : Z) (w : World) (h : H) (s : Session) (r : MultiProcessRunResult) (wh wh' : World * H)
    (commands : list MultiCommand)
    (Hsession : new_MultiProcessDebugSession read_file read_text paths o (w, h) = (Ret s, wh))
    (Hrun : MultiProcessRunner_runFiles read_file paths (run_options o limit) (w, h) = (Ret r, wh'))
    (Hover : runtime_state r <> RS_Running) :
  let s' := run_multi_commands commands s in
  (ms_software_interrupts s' `prefix_of` software_interrupts r /\ ms_context_switches s' `prefix_of` context_switches r) /\
  (ms_runtime_state s' <> RS_Running ->
   ms_runtime_state s' = runtime_state r /\ ms_total_steps s' = lifecycle_steps r /\
   ms_software_interrupts s' = software_interrupts r /\ ms_context_switches s' = context_switches r /\
   summarize (ms_system s') = Ret (run_processes r) /\
   (world (s_machine (ms_system s')), handler (s_machine (ms_system s'))) = wh').
Proof.
  intros s'. destruct (session_starts _ _ _ _ _ _ _ _ Hsession) as (images & p & w1 & Hi & Hp & Hs).
  destruct (runner_runs _ _ _ _ _ _ _ _ Hrun) as (images' & p' & w1' & r0 & k & l & log & Hi' & Hp' & Hs' & Hk & H1 & H2 & H3 & _ & _ & H4 & H5).
  assert (images' = images) as -> by congruence. assert (p' = p) as -> by congruence. assert (w1' = w1) as -> by congruence.
  rewrite <- (starts_unique _ _ _ _ _ _ _ Hs Hs') in Hk. destruct (commands_later commands s) as [n Hn]. fold s' in Hn.
  destruct (runs_compare n k (run_of s)) as [[P1 P2] Heq]; [rewrite Hk; exact Hover|]. rewrite <- Hn, Hk in *. cbn in P1, P2, Heq.
  rewrite H2 in P1. rewrite H3 in P2. split; [split; [exact P1 | exact P2]|]. intros Ho. specialize (Heq Ho). unfold run_of in Heq.
  injection Heq as E1 E2 E3. unfold ms_system. rewrite E1. rewrite <- E3 in *. cbn in H1, H2, H3. repeat split; assumption.
Qed.

End laws.

(** ** Properties *)

(** (C25) Debugging several processes does not change their run.  A session on the
    executables of a run of [MultiProcessRunner::runFiles] with the same options is
    given any commands: breakpoints, conditions and watchpoints are set and removed,
    the session is stepped, stepped by source lines or continued, and calls may
    throw.  The system calls and context switches it has recorded are a prefix of
    those of the run; and when its runtime is over it has taken the same number of
    steps, its records are those of the run, and the processes, the devices and the
    host handler are left as the run leaves them. *)
Theorem debugging_keeps_the_run {LD : LongDouble} {H : Type} {SIH : SoftwareInterruptHandler H}
    (read_file : string -> outcome (list Z)) (read_text : string -> option string) (paths : list string)
    (o : MultiProcessDebugOptions) (limit : Z) (w : World) (h : H)
    (s : MultiProcessDebugSession H) (r : MultiProcessRunResult) (wh wh' : World * H) (commands : list MultiCommand)
    (Hsession : new_MultiProcessDebugSession read_file read_text paths o (w, h) = (Ret s, wh))
    (Hrun : MultiProcessRunner_runFiles read_file paths (run_options o limit) (w, h) = (Ret r, wh'))
    (Hover : runtime_state r <> RS_Running) :
  let s' := run_multi_commands commands s in
  (ms_software_interrupts s' `prefix_of` software_interrupts r /\ ms_context_switches s' `prefix_of` context_switches r) /\
  (ms_runtime_state s' <> RS_Running ->
   ms_runtime_state s' = runtime_state r /\ ms_total_steps s' = lifecycle_steps r /\
   ms_software_interrupts s' = software_interrupts r /\ ms_context_switches s' = context_switches r /\
   summarize (ms_system s') = Ret (run_processes r) /\
   (world (s_machine (ms_system s')), handler (s_machine (ms_system s'))) = wh').
Proof.
  exact (commands_keep_run read_file read_text paths o limit w h s r wh wh' commands Hsession Hrun Hover).
Qed.

(** A session on the runner's sample executables, with a host handler. *)
Definition debugger_options : MultiProcessDebugOptions :=
  {| mo_timer_vector := 240; mo_quantum := 2; mo_timer_payload := 0; mo_default_continue_steps := 100000;
     mo_normal_exit_code := 0; mo_fault_exit_code := -1; mo_mmio_bus := None; mo_has_handler := true |}.

Definition debugged_files (path : string) : outcome (list Z) :=
  if bool_decide (path = "system") then compiled ("NOP" +:+ newline +:+ "INT 128" +:+ newline +:+ "NOP" +:+ newline)
  else sample_files path.

Definition sample_debugger : outcome (MultiProcessDebugSession unit) * (World * unit) :=
  new_MultiProcessDebugSession debugged_files (fun _ => None) ["loop"; "system"; "fault"] debugger_options (empty_world, tt).

Definition sample_runner : outcome MultiProcessRunResult * (World * unit) :=
  @MultiProcessRunner_runFiles extended_long_double unit obliging_host debugged_files ["loop"; "system"; "fault"]
    (run_options debugger_options 100000) (empty_world, tt).

(** A breakpoint that is met three times, a step, an unknown process, a source
    step without a source map, and the rest. *)
Definition debugger_commands : list MultiCommand :=
  [MC_addBreakpoint 1 536; MC_addWatchpoint 3 0 4096 Watch_Access; MC_continueExecution 100; MC_step; MC_selectProcess 2;
   MC_addBreakpoint 7 0; MC_stepSelectedSourceLine 5] ++ replicate 5 (MC_continueExecution 100).

Definition debugged (s : MultiProcessDebugSession unit) (commands : list MultiCommand) : MultiProcessDebugSession unit :=
  @run_multi_commands extended_long_double unit obliging_host commands s.

Lemma returned_value {A B} (f : A -> B) (o : outcome A) b : f <$> o = Ret b -> exists a, o = Ret a /\ f a = b.
Proof. destruct o as [a|e]; [|discriminate]. intros E. exists a. split; [reflexivity|]. injection E. auto. Qed.

Example debugging_keeps_the_run_witness :
  exists s r, sample_debugger.1 = Ret s /\ sample_runner.1 = Ret r /\
    run_report r = (true, 3, 3, 1, 17) /\ length (context_switches r) = 6%nat /\ length (software_interrupts r) = 1%nat /\
    ms_runtime_state (debugged s debugger_commands) = RS_Completed /\
    ms_total_steps (debugged s debugger_commands) = lifecycle_steps r /\
    ms_context_switches (debugged s debugger_commands) = context_switches r.
Proof.
  assert (Hd : (fun s => ms_runtime_state (debugged s debugger_commands)) <$> sample_debugger.1 = Ret RS_Completed)
    by (vm_compute; reflexivity).
  assert (Hr : (fun r => (run_report r, length (context_switches r), length (software_interrupts r), runtime_state r)) <$> sample_runner.1
    = Ret (true, 3, 3, 1, 17, 6%nat, 1%nat, RS_Completed)) by (vm_compute; reflexivity).
  destruct sample_debugger as [os wh] eqn:Es, sample_runner as [or wh'] eqn:Er. cbn [fst] in *.
  apply returned_value in Hd as (s & -> & Hd). apply returned_value in Hr as (r & -> & Hr).
  assert (Hrun : runtime_state r = RS_Completed) by congruence.
  assert (T : forall commands, ms_runtime_state (debugged s commands) <> RS_Running ->
    ms_total_steps (debugged s commands) = lifecycle_steps r /\ ms_context_switches (debugged s commands) = context_switches r).
  { intros commands Ho. unfold debugged in *.
    destruct (@debugging_keeps_the_run extended_long_double unit obliging_host debugged_files (fun _ => None) ["loop"; "system"; "fault"]
      debugger_options 100000 empty_world tt s r wh wh' commands Es Er ltac:(rewrite Hrun; discriminate)) as [_ T].
    destruct (T Ho) as (_ & T1 & _ & T2 & _). auto. }
  exists s, r. destruct (T debugger_commands) as [T1 T2]; [rewrite Hd; discriminate|].
  split; [reflexivity|]. split; [reflexivity|]. split; [congruence|]. split; [congruence|]. split; [congruence|].
  split; [exact Hd|]. split; [exact T1 | exact T2].
Defined.
