(* ===== verification/Json.v ===== *)
(** * Writing JSON text

    The helpers that [src/trace/TraceJsonWriter.cpp],
    [src/system/MultiProcessTraceJsonWriter.cpp] and [src/debug/DebugSnapshotJson.cpp]
    each declare for themselves, with the same bodies: every function gives the
    text it appends to the stream. *)

From S2P Require Import Prelude Words Text.
From Stdlib Require Import Ascii.
Open Scope Z_scope.

Definition newline_text : string := String newline EmptyString.

Fixpoint indent (spaces : nat) : string :=
  match spaces with O => EmptyString | S spaces => String " " (indent spaces) end.

(** [std::hex], two lower-case digits of a byte below 32 after ["\u00"]. *)
Definition hex_char (digit : nat) : ascii := if (digit <? 10)%nat then ascii_of_nat (48 + digit) else ascii_of_nat (87 + digit).

Definition escape_char (ch : ascii) : string :=
  let n := nat_of_ascii ch in
  let escape (c : ascii) := String "\" (String c EmptyString) in
  if bool_decide (ch = quote) then escape quote
  else if bool_decide (ch = "\"%char) then escape "\"%char
  else if (n =? 8)%nat then escape "b"%char
  else if (n =? 12)%nat then escape "f"%char
  else if (n =? 10)%nat then escape "n"%char
  else if (n =? 13)%nat then escape "r"%char
  else if (n =? 9)%nat then escape "t"%char
  else if (n <? 32)%nat then "\u00" +:+ String (hex_char (n / 16)) (String (hex_char (n mod 16)) EmptyString)
  else String ch EmptyString.

Fixpoint escapeJson (text : string) : string :=
  match text with EmptyString => EmptyString | String ch text => escape_char ch +:+ escapeJson text end.

Definition finishField (comma : bool) : string := (if comma then "," else "") +:+ newline_text.

(** A text between quotation marks, and the name of a field. *)
Definition quoted (text : string) : string := String quote (escapeJson text +:+ String quote EmptyString).
Definition field_name (name : string) : string := quoted name +:+ ": ".

Definition stringField (fieldIndent : nat) (name value : string) (comma : bool) : string :=
  indent fieldIndent +:+ field_name name +:+ quoted value +:+ finishField comma.

Definition sizeField (fieldIndent : nat) (name : string) (value : Z) (comma : bool) : string :=
  indent fieldIndent +:+ field_name name +:+ pretty value +:+ finishField comma.

Definition uint64Field (fieldIndent : nat) (name : string) (value : Z) (comma : bool) : string :=
  indent fieldIndent +:+ field_name name +:+ pretty value +:+ finishField comma.

Definition int64Field (fieldIndent : nat) (name : string) (value : Z) (comma : bool) : string :=
  indent fieldIndent +:+ field_name name +:+ pretty value +:+ finishField comma.

Definition boolField (fieldIndent : nat) (name : string) (value : bool) (comma : bool) : string :=
  indent fieldIndent +:+ field_name name +:+ (if value then "true" else "false") +:+ finishField comma.

Definition nullField (fieldIndent : nat) (name : string) (comma : bool) : string :=
  indent fieldIndent +:+ field_name name +:+ "null" +:+ finishField comma.

(** The lines around the fields of an object or the elements of an array: the
    named ones start with the name, the elements of an array without. *)
Definition open_object (fieldIndent : nat) (name : string) : string :=
  indent fieldIndent +:+ field_name name +:+ "{" +:+ newline_text.
Definition open_array (fieldIndent : nat) (name : string) : string :=
  indent fieldIndent +:+ field_name name +:+ "[" +:+ newline_text.
Definition open_element (fieldIndent : nat) : string := indent fieldIndent +:+ "{" +:+ newline_text.
Definition close_object (fieldIndent : nat) (comma : bool) : string := indent fieldIndent +:+ "}" +:+ finishField comma.
Definition close_array (fieldIndent : nat) (comma : bool) : string := indent fieldIndent +:+ "]" +:+ finishField comma.

(** [for (index...) { item(values[index], index + 1 < values.size()); }] *)
Fixpoint json_items {A} (item : A -> bool -> string) (l : list A) : string :=
  match l with
  | [] => EmptyString
  | x :: l => item x (negb (bool_decide (l = []))) +:+ json_items item l
  end.
Fixpoint json_items_from {A} (item : A -> nat -> bool -> outcome string) (index : nat) (l : list A) : outcome string :=
  match l with
  | [] => mret EmptyString
  | x :: l =>
      text ← item x index (negb (bool_decide (l = [])));
      rest ← json_items_from item (S index) l;
      mret (text +:+ rest)
  end.
