(* ===== verification/TraceJson.v ===== *)
(** * Traces as JSON text

    [src/trace/TraceJsonWriter.cpp] and [src/system/MultiProcessTraceJsonWriter.cpp]:
    the trace of a CPU, and the result of a multi-process run with the report of
    the invariant verifier.  A function that appends to a stream gives the text it
    appends; the functions that write it to a file are in [Disk]. *)

From S2P Require Import Prelude Words Text ALU Memory ISA CPUState Trace TraceDetail CPU Process ProcTable Lifecycle Assembler Runner Verifier Json.
Open Scope Z_scope.

(** ** One trace: [TraceJsonWriter.cpp] *)

Record TraceJsonMetadata := {
  tj_producer : string;
  tj_producer_version : string;
  tj_execution_mode : string;
  tj_loaded_path : string;
}.

Definition default_trace_metadata : TraceJsonMetadata :=
  {| tj_producer := "zero_cpu"; tj_producer_version := ""; tj_execution_mode := ""; tj_loaded_path := "" |}.

Definition kTraceSchemaVersion : Z := 3.

Definition appendRegisters (state : CPUState) (fieldIndent : nat) (comma : bool) : outcome string :=
  fields ← json_items_from
    (fun reg _ comma =>
       name ← registerNameToString reg;
       value ← RegisterFile_get (registers state) reg;
       mret (int64Field (fieldIndent + 2) name value comma))
    0 register_names;
  mret (open_object fieldIndent "registers" +:+ fields +:+ close_object fieldIndent comma).

Definition appendFlags (state : CPUState) (fieldIndent : nat) (comma : bool) : string :=
  open_object fieldIndent "flags"
  +:+ boolField (fieldIndent + 2) "zero" (Flags_zero (flags state)) true
  +:+ boolField (fieldIndent + 2) "sign" (Flags_sign (flags state)) true
  +:+ boolField (fieldIndent + 2) "carry" (Flags_carry (flags state)) true
  +:+ boolField (fieldIndent + 2) "overflow" (Flags_overflow (flags state)) true
  +:+ sizeField (fieldIndent + 2) "raw" (flags state) false
  +:+ close_object fieldIndent comma.

Definition appendState (name : string) (state : CPUState) (fieldIndent : nat) (comma : bool) : outcome string :=
  registers ← appendRegisters state (fieldIndent + 2) true;
  mret (open_object fieldIndent name
        +:+ sizeField (fieldIndent + 2) "pc" (pc state) true
        +:+ sizeField (fieldIndent + 2) "sp" (sp state) true
        +:+ stringField (fieldIndent + 2) "privilege" (privilegeLevelToString (privilege_level state)) true
        +:+ boolField (fieldIndent + 2) "halted" (halted state) true
        +:+ boolField (fieldIndent + 2) "has_error" (has_error state) true
        +:+ stringField (fieldIndent + 2) "error_message" (error_message state) true
        +:+ registers
        +:+ appendFlags state (fieldIndent + 2) false
        +:+ close_object fieldIndent comma).

Definition appendRegisterChanges (changes : list (string * Z * Z)) (fieldIndent : nat) (comma : bool) : string :=
  open_array fieldIndent "register_changes"
  +:+ json_items
        (fun '(name, before, after) comma =>
           open_element (fieldIndent + 2)
           +:+ stringField (fieldIndent + 4) "name" name true
           +:+ int64Field (fieldIndent + 4) "before" before true
           +:+ int64Field (fieldIndent + 4) "after" after false
           +:+ close_object (fieldIndent + 2) comma) changes
  +:+ close_array fieldIndent comma.

Definition appendFlagChanges (changes : list (string * bool * bool)) (fieldIndent : nat) (comma : bool) : string :=
  open_array fieldIndent "flag_changes"
  +:+ json_items
        (fun '(name, before, after) comma =>
           open_element (fieldIndent + 2)
           +:+ stringField (fieldIndent + 4) "name" name true
           +:+ boolField (fieldIndent + 4) "before" before true
           +:+ boolField (fieldIndent + 4) "after" after false
           +:+ close_object (fieldIndent + 2) comma) changes
  +:+ close_array fieldIndent comma.

Definition appendMemoryChanges (changes : list (nat * Z * Z)) (fieldIndent : nat) (comma : bool) : string :=
  open_array fieldIndent "memory_changes"
  +:+ json_items
        (fun '(address, before, after) comma =>
           open_element (fieldIndent + 2)
           +:+ sizeField (fieldIndent + 4) "address" (Z.of_nat address) true
           +:+ int64Field (fieldIndent + 4) "before" before true
           +:+ int64Field (fieldIndent + 4) "after" after false
           +:+ close_object (fieldIndent + 2) comma) changes
  +:+ close_array fieldIndent comma.

(** The members the event's constructor filled come first. *)
Definition appendEvent (event : TraceEvent) (index : Z) (objectIndent : nat) (comma : bool) : outcome string :=
  a ← TraceEvent_analyze event;
  let fieldIndent := (objectIndent + 2)%nat in
  instruction ← Instruction_toString (ev_instruction event);
  state_before ← appendState "state_before" (ev_before event) fieldIndent true;
  state_after ← appendState "state_after" (ev_after event) fieldIndent true;
  compact ← toCompactString event a;
  full ← toFullString event a;
  mret (open_element objectIndent
        +:+ sizeField fieldIndent "index" index true
        +:+ sizeField fieldIndent "pc_before" (pc (ev_before event)) true
        +:+ sizeField fieldIndent "pc_after" (pc (ev_after event)) true
        +:+ sizeField fieldIndent "sp_before" (sp (ev_before event)) true
        +:+ sizeField fieldIndent "sp_after" (sp (ev_after event)) true
        +:+ stringField fieldIndent "instruction" instruction true
        +:+ state_before
        +:+ state_after
        +:+ appendRegisterChanges (ta_changed_registers a) fieldIndent true
        +:+ appendFlagChanges (ta_changed_flags a) fieldIndent true
        +:+ appendMemoryChanges (ta_changed_memory a) fieldIndent true
        +:+ stringField fieldIndent "stage" (ta_stage a) true
        +:+ stringField fieldIndent "action" (ta_action a) true
        +:+ stringField fieldIndent "datapath" (joinDatapathNodes (ta_datapath_nodes a)) true
        +:+ stringField fieldIndent "alu_detail" (aluDetailString (ta_alu a)) true
        +:+ stringField fieldIndent "memory_detail" (memoryDetailString (ta_memory a)) true
        +:+ stringField fieldIndent "stack_detail" (stackDetailString (ta_stack a)) true
        +:+ stringField fieldIndent "control_flow_detail" (controlFlowDetailString (ta_control_flow a)) true
        +:+ stringField fieldIndent "compact" compact true
        +:+ stringField fieldIndent "full" full true
        +:+ boolField fieldIndent "has_error" (TraceEvent_hasError event) true
        +:+ stringField fieldIndent "error" (ev_error_message event) false
        +:+ close_object objectIndent comma).

Definition eventToJson (event : TraceEvent) (index : Z) : outcome string := appendEvent event index 0 false.

Definition TraceJsonWriter_toJson (events : list TraceEvent) (metadata : TraceJsonMetadata) : outcome string :=
  items ← json_items_from (fun event index comma => appendEvent event (Z.of_nat index) 4 comma) 0 events;
  mret ("{" +:+ newline_text
        +:+ stringField 2 "schema" "zero_cpu_trace" true
        +:+ sizeField 2 "schema_version" kTraceSchemaVersion true
        +:+ stringField 2 "producer" (tj_producer metadata) true
        +:+ stringField 2 "producer_version" (tj_producer_version metadata) true
        +:+ stringField 2 "mode" (tj_execution_mode metadata) true
        +:+ stringField 2 "loaded_path" (tj_loaded_path metadata) true
        +:+ sizeField 2 "event_count" (Z.of_nat (length events)) true
        +:+ open_array 2 "events"
        +:+ items
        +:+ close_array 2 false
        +:+ "}" +:+ newline_text).

(** ** A multi-process run: [MultiProcessTraceJsonWriter.cpp] *)

Record MultiProcessTraceJsonMetadata := {
  mj_producer : string;
  mj_producer_version : string;
  mj_execution_mode : string;
}.

Definition default_multi_metadata : MultiProcessTraceJsonMetadata :=
  {| mj_producer := "zero_cpu"; mj_producer_version := ""; mj_execution_mode := "ProtectedMultiProcess" |}.

Definition kMultiSchemaVersion : Z := 1.

(** [while (!json.empty() && (back == '\n' || back == '\r')) json.pop_back();] *)
Fixpoint pop_line_ends (json : string) : string :=
  match json with
  | EmptyString => EmptyString
  | String ch json =>
      match pop_line_ends json with
      | EmptyString => if bool_decide (ch = newline) || bool_decide (ch = "013"%char) then EmptyString else String ch EmptyString
      | json => String ch json
      end
  end.

(** The lines of [std::getline], each but the first behind a line end and the
    indent. *)
Definition nestedJsonField (fieldIndent : nat) (name json : string) (comma : bool) : string :=
  indent fieldIndent +:+ field_name name
  +:+ String.concat (newline_text +:+ indent fieldIndent) (splitLines (pop_line_ends json))
  +:+ finishField comma.

Definition appendInvariantReport (report : MultiProcessInvariantReport) : string :=
  open_object 2 "invariants"
  +:+ boolField 4 "passed" (MultiProcessInvariantReport_passed report) true
  +:+ sizeField 4 "violation_count" (Z.of_nat (MultiProcessInvariantReport_violationCount report)) true
  +:+ open_array 4 "violations"
  +:+ json_items
        (fun violation comma =>
           open_element 6
           +:+ stringField 8 "code" (viol_code violation) true
           +:+ stringField 8 "message" (viol_message violation) true
           +:+ sizeField 8 "lifecycle_step" (viol_lifecycle_step violation) true
           +:+ sizeField 8 "pid" (viol_pid violation) false
           +:+ close_object 6 comma) (violations report)
  +:+ close_array 4 false
  +:+ close_object 2 true.

Definition appendExecutionTrace (result : MultiProcessRunResult) : outcome string :=
  items ← json_items_from
    (fun record index comma =>
       event ← eventToJson (et_event record) (Z.of_nat index);
       mret (open_element 4
             +:+ sizeField 6 "lifecycle_step" (et_lifecycle_step record) true
             +:+ sizeField 6 "pid" (et_pid record) true
             +:+ nestedJsonField 6 "event" event false
             +:+ close_object 4 comma))
    0 (execution_trace result);
  mret (sizeField 2 "execution_event_count" (Z.of_nat (length (execution_trace result))) true
        +:+ open_array 2 "execution_trace"
        +:+ items
        +:+ close_array 2 true).

(** The flag and the value of an optional field of the result. *)
Definition optionalInt64Fields (flag name : string) (value : option Z) : string :=
  boolField 6 flag (is_some value) true +:+ int64Field 6 name (default 0 value) true.

Definition appendSoftwareInterrupts (result : MultiProcessRunResult) : string :=
  if bool_decide (software_interrupts result = []) then ""
  else
    sizeField 2 "software_interrupt_event_count" (Z.of_nat (length (software_interrupts result))) true
    +:+ open_array 2 "software_interrupts"
    +:+ json_items
          (fun record comma =>
             let value := obs_result (si_observation record) in
             open_element 4
             +:+ sizeField 6 "lifecycle_step" (si_lifecycle_step record) true
             +:+ sizeField 6 "pid" (si_pid record) true
             +:+ sizeField 6 "vector" (obs_vector (si_observation record)) true
             +:+ optionalInt64Fields "has_service_number" "service_number" (service_number value)
             +:+ optionalInt64Fields "has_argument0" "argument0" (argument0 value)
             +:+ optionalInt64Fields "has_argument1" "argument1" (argument1 value)
             +:+ optionalInt64Fields "has_status" "status" (status value)
             +:+ optionalInt64Fields "has_result" "result_value" (result_value value)
             +:+ stringField 6 "disposition" (softwareInterruptDispositionToString (disposition value)) true
             +:+ int64Field 6 "exit_code" (exit_code value) false
             +:+ close_object 4 comma) (software_interrupts result)
    +:+ close_array 2 true.

Definition appendContextSwitches (result : MultiProcessRunResult) : string :=
  sizeField 2 "context_switch_event_count" (Z.of_nat (length (context_switches result))) true
  +:+ open_array 2 "context_switches"
  +:+ json_items
        (fun record comma =>
           open_element 4
           +:+ sizeField 6 "lifecycle_step" (cs_lifecycle_step record) true
           +:+ sizeField 6 "from_pid" (cs_from_pid record) true
           +:+ sizeField 6 "to_pid" (cs_to_pid record) true
           +:+ boolField 6 "preempted" (cs_preempted record) true
           +:+ boolField 6 "caused_by_termination" (cs_caused_by_termination record) false
           +:+ close_object 4 comma) (context_switches result)
  +:+ close_array 2 true.

Definition appendProcesses (result : MultiProcessRunResult) : string :=
  open_array 2 "processes"
  +:+ json_items
        (fun process comma =>
           open_element 4
           +:+ sizeField 6 "pid" (rs_pid process) true
           +:+ stringField 6 "source_name" (rs_source_name process) true
           +:+ stringField 6 "state" (processStateToString (rs_state process)) true
           +:+ boolField 6 "has_exit_code" (rs_has_exit_code process) true
           +:+ int64Field 6 "exit_code" (rs_exit_code process) true
           +:+ stringField 6 "termination_kind" (processTerminationKindToString (rs_termination_kind process)) true
           +:+ stringField 6 "termination_message" (rs_termination_message process) true
           +:+ sizeField 6 "pc" (ctx_pc (rs_final_context process)) true
           +:+ sizeField 6 "sp" (ctx_sp (rs_final_context process)) true
           +:+ boolField 6 "has_executable_image" (rs_has_executable_image process) true
           +:+ sizeField 6 "code_end_exclusive" (rs_code_end_exclusive process) true
           +:+ sizeField 6 "data_base" (rs_data_base process) true
           +:+ sizeField 6 "data_size" (rs_data_size process) false
           +:+ close_object 4 comma) (run_processes result)
  +:+ close_array 2 false.

Definition MultiProcessTraceJsonWriter_toJson (result : MultiProcessRunResult) (metadata : MultiProcessTraceJsonMetadata)
    : outcome string :=
  report ← verify result;
  execution ← appendExecutionTrace result;
  mret ("{" +:+ newline_text
        +:+ stringField 2 "schema" "zero_cpu_multiprocess_trace" true
        +:+ sizeField 2 "schema_version" kMultiSchemaVersion true
        +:+ stringField 2 "producer" (mj_producer metadata) true
        +:+ stringField 2 "producer_version" (mj_producer_version metadata) true
        +:+ stringField 2 "mode" (mj_execution_mode metadata) true
        +:+ stringField 2 "runtime_state" (processRuntimeStateToString (runtime_state result)) true
        +:+ boolField 2 "step_limit_reached" (step_limit_reached result) true
        +:+ sizeField 2 "lifecycle_steps" (lifecycle_steps result) true
        +:+ sizeField 2 "process_count" (process_count result) true
        +:+ sizeField 2 "termination_count" (termination_count result) true
        +:+ sizeField 2 "fault_count" (fault_count result) true
        +:+ sizeField 2 "preemption_count" (preemption_count result) true
        +:+ sizeField 2 "context_switch_count" (context_switch_count result) true
        +:+ appendInvariantReport report
        +:+ execution
        +:+ appendSoftwareInterrupts result
        +:+ appendContextSwitches result
        +:+ appendProcesses result
        +:+ "}" +:+ newline_text).
