(* ===== verification/TraceJsonDiff.v ===== *)
(** * Comparing traces: [src/trace/TraceJsonDiff.cpp]

    The JSON parser, the checks of a trace document, its architectural view, and
    the comparison of two values.  The parser works on the text that is left;
    [position_] is the size of the text without it. *)

From S2P Require Import Prelude Words Strings Text Json.
From Stdlib Require Import Ascii.
Open Scope Z_scope.

(** ** Values *)

Inductive JsonType := JT_Null | JT_Boolean | JT_Number | JT_String | JT_Array | JT_Object.

#[export] Instance JsonType_eq_dec : EqDecision JsonType.
Proof. solve_decision. Defined.

(** An object is a [std::map]: its entries in the order of their keys. *)
Inductive JsonValue :=
  | JsonNull
  | JsonBoolean (boolean : bool)
  | JsonNumber (number : Z)
  | JsonString (text : string)
  | JsonArray (array : list JsonValue)
  | JsonObject (object : list (string * JsonValue)).

Definition json_type (v : JsonValue) : JsonType :=
  match v with
  | JsonNull => JT_Null | JsonBoolean _ => JT_Boolean | JsonNumber _ => JT_Number | JsonString _ => JT_String
  | JsonArray _ => JT_Array | JsonObject _ => JT_Object
  end.

(** The members of a value of another type are empty. *)
Definition json_array (v : JsonValue) : list JsonValue := match v with JsonArray l => l | _ => [] end.
Definition json_object (v : JsonValue) : list (string * JsonValue) := match v with JsonObject l => l | _ => [] end.

Abbreviation JsonMap := (list (string * JsonValue)).

Fixpoint map_find (key : string) (m : JsonMap) : option JsonValue :=
  match m with
  | [] => None
  | (k, v) :: m => if bool_decide (k = key) then Some v else map_find key m
  end.

(** [emplace] in front of the first greater key; it inserts nothing when the key
    is there. *)
Fixpoint map_emplace (key : string) (value : JsonValue) (m : JsonMap) : JsonMap :=
  match m with
  | [] => [(key, value)]
  | (k, v) :: m =>
      if bool_decide (k = key) then (k, v) :: m
      else if String.leb key k then (key, value) :: (k, v) :: m
      else (k, v) :: map_emplace key value m
  end.

(** ** The parser *)

Definition hexValue (ch : ascii) : Z :=
  let n := Z.of_nat (nat_of_ascii ch) in
  if (48 <=? n) && (n <=? 57) then n - 48
  else if (97 <=? n) && (n <=? 102) then n - 87
  else if (65 <=? n) && (n <=? 70) then n - 55
  else -1.

Definition byte_char (n : Z) : ascii := ascii_of_nat (Z.to_nat n).

Definition appendUtf8 (codePoint : Z) : outcome string :=
  if codePoint <=? 127 then mret (String (byte_char codePoint) EmptyString)
  else if codePoint <=? 2047 then
    mret (String (byte_char (Z.lor 192 (Z.shiftr codePoint 6)))
            (String (byte_char (Z.lor 128 (Z.land codePoint 63))) EmptyString))
  else if (55296 <=? codePoint) && (codePoint <=? 57343) then throw (RuntimeError "JSON surrogate pairs are not supported")
  else
    mret (String (byte_char (Z.lor 224 (Z.shiftr codePoint 12)))
            (String (byte_char (Z.lor 128 (Z.land (Z.shiftr codePoint 6) 63)))
               (String (byte_char (Z.lor 128 (Z.land codePoint 63))) EmptyString))).

Section parser.
(** [text_.size()] *)
Context (size : Z).

Abbreviation P := (M string).

Definition fail {A} (message : string) : P A :=
  rest ← get;
  throw (RuntimeError (message +:+ " at byte " +:+ pretty (size - Z.of_nat (String.length rest)))).

Definition atEnd : P bool := gets (fun rest => bool_decide (rest = EmptyString)).
Definition peek : P ascii := gets (fun rest => match rest with EmptyString => "000"%char | String ch _ => ch end).

Definition take_char : P ascii :=
  rest ← get;
  match rest with
  | EmptyString => fail "Unexpected end of JSON input"
  | String ch rest => _ ← modify (fun _ => rest); mret ch
  end.

Definition skipWhitespace : P unit := modify (fun rest => (span isspace rest).2).

Definition expect (expected : ascii) : P unit :=
  actual ← take_char;
  if negb (bool_decide (actual = expected))
  then fail ("Expected '" +:+ String expected ("' but found '" +:+ String actual "'"))
  else mret tt.

(** At the end of the text [peek] is the null character, which no caller expects. *)
Definition consume (expected : ascii) : P bool :=
  ch ← peek;
  if negb (bool_decide (ch = expected)) then mret false
  else _ ← modify (fun rest => match rest with EmptyString => EmptyString | String _ rest => rest end); mret true.

Fixpoint parseLiteral_from (literal current : string) : P unit :=
  match current with
  | EmptyString => mret tt
  | String ch current =>
      actual ← take_char;
      if negb (bool_decide (actual = ch)) then fail ("Invalid JSON literal: " +:+ literal)
      else parseLiteral_from literal current
  end.
Definition parseLiteral (literal : string) : P unit := parseLiteral_from literal literal.

(** Four hexadecimal digits. *)
Fixpoint parse_code_point (digits : nat) (codePoint : Z) : P Z :=
  match digits with
  | O => mret codePoint
  | S digits =>
      ch ← take_char;
      let value := hexValue ch in
      if value <? 0 then fail "Invalid Unicode escape"
      else parse_code_point digits (Z.lor (u32 (Z.shiftl codePoint 4)) value)
  end.

(** What follows a backslash. *)
Definition parse_escape : P string :=
  escape ← take_char;
  let single (ch : ascii) : P string := mret (String ch EmptyString) in
  if bool_decide (escape = quote) then single quote
  else if bool_decide (escape = "\"%char) then single "\"%char
  else if bool_decide (escape = "/"%char) then single "/"%char
  else if bool_decide (escape = "b"%char) then single "008"%char
  else if bool_decide (escape = "f"%char) then single "012"%char
  else if bool_decide (escape = "n"%char) then single "010"%char
  else if bool_decide (escape = "r"%char) then single "013"%char
  else if bool_decide (escape = "t"%char) then single "009"%char
  else if bool_decide (escape = "u"%char) then
    codePoint ← parse_code_point 4 0; lift (appendUtf8 codePoint)
  else fail "Invalid JSON string escape".

(** The loop of [parseString]; every turn takes a character. *)
Fixpoint parse_characters (fuel : nat) : P string :=
  match fuel with
  | O => fail "Unterminated JSON string"
  | S fuel =>
      ended ← atEnd;
      if (ended : bool) then fail "Unterminated JSON string"
      else
        ch ← take_char;
        if bool_decide (ch = quote) then mret EmptyString
        else if (nat_of_ascii ch <? 32)%nat then fail "Unescaped control character in JSON string"
        else
          text ← (if negb (bool_decide (ch = "\"%char)) then mret (String ch EmptyString) else parse_escape);
          result ← parse_characters fuel;
          mret (text +:+ result)
  end.

Definition parseString : P string :=
  _ ← expect quote;
  rest ← get;
  parse_characters (S (String.length rest)).

(** The digits that are taken, one when the first is zero. *)
Definition take_digits : P string :=
  rest ← get;
  match rest with
  | String "0" rest => _ ← modify (fun _ => rest); mret "0"
  | _ => let '(digits, rest) := span isdigit rest in _ ← modify (fun _ => rest); mret digits
  end.

Definition parseNumber : P Z :=
  negative ← consume "-"%char;
  ch ← peek;
  if negb (isdigit ch) then fail "JSON number requires digits"
  else
    digits ← take_digits;
    ch ← peek;
    if bool_decide (ch = "."%char) || bool_decide (ch = "e"%char) || bool_decide (ch = "E"%char)
    then fail "Trace JSON requires integer numbers"
    else
      let token := if (negative : bool) then String "-" digits else digits in
      match stoll read_decimal token with
      | Ret (value, parsed) => if negb (parsed =? String.length token)%nat then fail "Integer number is out of range" else mret value
      | Throw _ => fail "Integer number is out of range"
      end.

(** The loops of [parseObject] and [parseArray], behind the first check for the
    closing bracket; [value] is [JsonParser_parseValue].  Every turn takes a character. *)
Fixpoint parse_members (value : P JsonValue) (fuel : nat) (values : JsonMap) : P JsonMap :=
  match fuel with
  | O => fail "Object key must be a JSON string"
  | S fuel =>
      _ ← skipWhitespace;
      ch ← peek;
      if negb (bool_decide (ch = quote)) then fail "Object key must be a JSON string"
      else
        key ← parseString;
        _ ← skipWhitespace;
        _ ← expect ":"%char;
        _ ← skipWhitespace;
        v ← value;
        match map_find key values with
        | Some _ => fail ("Duplicate JSON object key: " +:+ key)
        | None =>
            let values := map_emplace key v values in
            _ ← skipWhitespace;
            closed ← consume "}"%char;
            if (closed : bool) then mret values
            else _ ← expect ","%char; parse_members value fuel values
        end
  end.

Definition parseObject (value : P JsonValue) : P JsonValue :=
  _ ← expect "{"%char;
  _ ← skipWhitespace;
  closed ← consume "}"%char;
  if (closed : bool) then mret (JsonObject [])
  else
    rest ← get;
    values ← parse_members value (S (String.length rest)) [];
    mret (JsonObject values).

Fixpoint parse_elements (value : P JsonValue) (fuel : nat) : P (list JsonValue) :=
  match fuel with
  | O => fail "Unexpected JSON token"
  | S fuel =>
      v ← value;
      _ ← skipWhitespace;
      closed ← consume "]"%char;
      if (closed : bool) then mret [v]
      else
        _ ← expect ","%char;
        _ ← skipWhitespace;
        values ← parse_elements value fuel;
        mret (v :: values)
  end.

Definition parseArray (value : P JsonValue) : P JsonValue :=
  _ ← expect "["%char;
  _ ← skipWhitespace;
  closed ← consume "]"%char;
  if (closed : bool) then mret (JsonArray [])
  else
    rest ← get;
    values ← parse_elements value (S (String.length rest));
    mret (JsonArray values).

(** The depth of the value is less than its length. *)
Fixpoint JsonParser_parseValue (fuel : nat) : P JsonValue :=
  match fuel with
  | O => fail "Unexpected JSON token"
  | S fuel =>
      _ ← skipWhitespace;
      ch ← peek;
      if bool_decide (ch = "{"%char) then parseObject (JsonParser_parseValue fuel)
      else if bool_decide (ch = "["%char) then parseArray (JsonParser_parseValue fuel)
      else if bool_decide (ch = quote) then text ← parseString; mret (JsonString text)
      else if bool_decide (ch = "t"%char) then _ ← parseLiteral "true"; mret (JsonBoolean true)
      else if bool_decide (ch = "f"%char) then _ ← parseLiteral "false"; mret (JsonBoolean false)
      else if bool_decide (ch = "n"%char) then _ ← parseLiteral "null"; mret JsonNull
      else if bool_decide (ch = "-"%char) || isdigit ch then number ← parseNumber; mret (JsonNumber number)
      else fail "Unexpected JSON token"
  end.

Definition parse_document : P JsonValue :=
  _ ← skipWhitespace;
  rest ← get;
  value ← JsonParser_parseValue (S (String.length rest));
  _ ← skipWhitespace;
  ended ← atEnd;
  if negb ended then fail "Unexpected trailing characters" else mret value.

End parser.

Definition JsonParser_parse (text : string) : outcome JsonValue :=
  (parse_document (Z.of_nat (String.length text)) text).1.

(** ** Reading fields *)

Definition requiredField (object : JsonValue) (name : string) : outcome JsonValue :=
  _ ← throw_if (negb (bool_decide (json_type object = JT_Object)))
        (RuntimeError ("Expected JSON object while reading field: " +:+ name));
  match map_find name (json_object object) with
  | Some value => mret value
  | None => throw (RuntimeError ("Missing required trace JSON field: " +:+ name))
  end.

Definition optionalField (object : JsonValue) (name : string) : outcome (option JsonValue) :=
  _ ← throw_if (negb (bool_decide (json_type object = JT_Object)))
        (RuntimeError ("Expected JSON object while reading optional field: " +:+ name));
  mret (map_find name (json_object object)).

Definition requiredString (object : JsonValue) (name : string) : outcome string :=
  value ← requiredField object name;
  match value with
  | JsonString text => mret text
  | _ => throw (RuntimeError ("Trace JSON field must be string: " +:+ name))
  end.

Definition requiredNumber (object : JsonValue) (name : string) : outcome Z :=
  value ← requiredField object name;
  match value with
  | JsonNumber number => mret number
  | _ => throw (RuntimeError ("Trace JSON field must be integer: " +:+ name))
  end.

(** ** Documents *)

Inductive TraceDocumentKind := SingleProcess | MultiProcess.

#[export] Instance TraceDocumentKind_eq_dec : EqDecision TraceDocumentKind.
Proof. solve_decision. Defined.

(** [declared < 0 || static_cast<std::size_t>(declared) != array.size()] *)
Definition wrong_count (declared : Z) (array : list JsonValue) : bool :=
  (declared <? 0) || negb (u64 declared =? Z.of_nat (length array)).

Definition is_array (v : JsonValue) : bool := bool_decide (json_type v = JT_Array).

Definition validate_single (root : JsonValue) (label : string) (schemaVersion : Z) : outcome TraceDocumentKind :=
  _ ← throw_if (negb (schemaVersion =? 3))
        (RuntimeError (label +:+ " single-process trace uses unsupported schema version"));
  events ← requiredField root "events";
  _ ← throw_if (negb (is_array events)) (RuntimeError (label +:+ " trace events field must be an array"));
  declaredCount ← requiredNumber root "event_count";
  _ ← throw_if (wrong_count declaredCount (json_array events))
        (RuntimeError (label +:+ " trace event_count does not match events"));
  mret SingleProcess.

Definition validate_interrupts (root : JsonValue) (label : string) : outcome unit :=
  softwareInterrupts ← optionalField root "software_interrupts";
  softwareInterruptCount ← optionalField root "software_interrupt_event_count";
  _ ← throw_if (negb (Bool.eqb (is_some softwareInterrupts) (is_some softwareInterruptCount)))
        (RuntimeError (label +:+ " multi-process software interrupt count/array fields must appear together"));
  match softwareInterrupts with
  | None => mret tt
  | Some array =>
      _ ← throw_if (negb (is_array array))
            (RuntimeError (label +:+ " multi-process software_interrupts field must be an array"));
      declaredCount ← requiredNumber root "software_interrupt_event_count";
      throw_if (wrong_count declaredCount (json_array array))
        (RuntimeError (label +:+ " multi-process software_interrupt_event_count does not match software_interrupts"))
  end.

Definition validate_multi (root : JsonValue) (label : string) (schemaVersion : Z) : outcome TraceDocumentKind :=
  _ ← throw_if (negb (schemaVersion =? 1))
        (RuntimeError (label +:+ " multi-process trace uses unsupported schema version"));
  executionTrace ← requiredField root "execution_trace";
  contextSwitches ← requiredField root "context_switches";
  processes ← requiredField root "processes";
  _ ← throw_if (negb (is_array executionTrace) || negb (is_array contextSwitches) || negb (is_array processes))
        (RuntimeError (label +:+ " multi-process trace arrays are invalid"));
  executionCount ← requiredNumber root "execution_event_count";
  contextSwitchCount ← requiredNumber root "context_switch_event_count";
  processCount ← requiredNumber root "process_count";
  _ ← throw_if (wrong_count executionCount (json_array executionTrace))
        (RuntimeError (label +:+ " multi-process execution_event_count does not match execution_trace"));
  _ ← throw_if (wrong_count contextSwitchCount (json_array contextSwitches))
        (RuntimeError (label +:+ " multi-process context_switch_event_count does not match context_switches"));
  _ ← throw_if (wrong_count processCount (json_array processes))
        (RuntimeError (label +:+ " multi-process process_count does not match processes"));
  _ ← validate_interrupts root label;
  _ ← requiredField root "invariants";
  mret MultiProcess.

Definition validateTraceDocument (root : JsonValue) (label : string) : outcome TraceDocumentKind :=
  _ ← throw_if (negb (bool_decide (json_type root = JT_Object)))
        (RuntimeError (label +:+ " trace JSON root must be an object"));
  schema ← requiredString root "schema";
  schemaVersion ← requiredNumber root "schema_version";
  if bool_decide (schema = "zero_cpu_trace") then validate_single root label schemaVersion
  else if bool_decide (schema = "zero_cpu_multiprocess_trace") then validate_multi root label schemaVersion
  else throw (RuntimeError (label +:+ " trace uses unsupported schema: " +:+ schema)).

(** ** Architectural views *)

(** [selected.emplace(name, requiredField(source, name))] for each name. *)
Fixpoint select_fields (source : JsonValue) (names : list string) (selected : JsonMap) : outcome JsonMap :=
  match names with
  | [] => mret selected
  | name :: names => value ← requiredField source name; select_fields source names (map_emplace name value selected)
  end.

Definition selectObjectFields (source : JsonValue) (names : list string) : outcome JsonValue :=
  _ ← throw_if (negb (bool_decide (json_type source = JT_Object)))
        (RuntimeError "Cannot select fields from a non-object JSON value");
  selected ← select_fields source names [];
  mret (JsonObject selected).

Definition traceEventArchitecturalView (event : JsonValue) : outcome JsonValue :=
  selectObjectFields event
    ["index"; "pc_before"; "pc_after"; "sp_before"; "sp_after"; "instruction"; "state_before"; "state_after";
     "register_changes"; "flag_changes"; "memory_changes"; "has_error"; "error"].

Definition singleProcessArchitecturalView (root : JsonValue) : outcome JsonValue :=
  events ← requiredField root "events";
  selectedEvents ← mapM traceEventArchitecturalView (json_array events);
  selectedRoot ← select_fields root ["schema"; "schema_version"; "mode"; "event_count"] [];
  mret (JsonObject (map_emplace "events" (JsonArray selectedEvents) selectedRoot)).

Definition multiProcessInvariantArchitecturalView (invariants : JsonValue) : outcome JsonValue :=
  violations ← requiredField invariants "violations";
  _ ← throw_if (negb (is_array violations)) (RuntimeError "Multi-process invariant violations must be an array");
  selectedViolations ← mapM (fun violation => selectObjectFields violation ["code"; "lifecycle_step"; "pid"])
                         (json_array violations);
  selected ← select_fields invariants ["passed"; "violation_count"] [];
  mret (JsonObject (map_emplace "violations" (JsonArray selectedViolations) selected)).

Definition execution_record_view (record : JsonValue) : outcome JsonValue :=
  selected ← select_fields record ["lifecycle_step"; "pid"] [];
  event ← requiredField record "event";
  view ← traceEventArchitecturalView event;
  mret (JsonObject (map_emplace "event" view selected)).

Definition softwareInterruptFields : list string :=
  ["lifecycle_step"; "pid"; "vector"; "has_service_number"; "service_number"; "has_argument0"; "argument0";
   "has_argument1"; "argument1"; "has_status"; "status"; "has_result"; "result_value"; "disposition"; "exit_code"].
Definition contextSwitchFields : list string := ["lifecycle_step"; "from_pid"; "to_pid"; "preempted"; "caused_by_termination"].
Definition processFields : list string :=
  ["pid"; "state"; "has_exit_code"; "exit_code"; "termination_kind"; "termination_message"; "pc"; "sp";
   "has_executable_image"; "code_end_exclusive"; "data_base"; "data_size"].
Definition rootFields : list string :=
  ["schema"; "schema_version"; "mode"; "runtime_state"; "step_limit_reached"; "lifecycle_steps"; "process_count";
   "termination_count"; "fault_count"; "preemption_count"; "context_switch_count"; "execution_event_count";
   "context_switch_event_count"].

Definition multiProcessArchitecturalView (root : JsonValue) : outcome JsonValue :=
  executionTrace ← requiredField root "execution_trace";
  contextSwitches ← requiredField root "context_switches";
  processes ← requiredField root "processes";
  softwareInterrupts ← optionalField root "software_interrupts";
  selectedExecution ← mapM execution_record_view (json_array executionTrace);
  selectedSoftwareInterrupts ←
    (match softwareInterrupts with
     | Some array => mapM (fun record => selectObjectFields record softwareInterruptFields) (json_array array)
     | None => mret []
     end);
  selectedContextSwitches ← mapM (fun record => selectObjectFields record contextSwitchFields) (json_array contextSwitches);
  selectedProcesses ← mapM (fun process => selectObjectFields process processFields) (json_array processes);
  selectedRoot ← select_fields root rootFields [];
  count ← (if is_some softwareInterrupts then requiredField root "software_interrupt_event_count" else mret (JsonNumber 0));
  invariants ← requiredField root "invariants";
  invariantView ← multiProcessInvariantArchitecturalView invariants;
  mret (JsonObject
    (map_emplace "processes" (JsonArray selectedProcesses)
    (map_emplace "context_switches" (JsonArray selectedContextSwitches)
    (map_emplace "software_interrupts" (JsonArray selectedSoftwareInterrupts)
    (map_emplace "execution_trace" (JsonArray selectedExecution)
    (map_emplace "invariants" invariantView
    (map_emplace "software_interrupt_event_count" count selectedRoot))))))).

Definition architecturalView (root : JsonValue) (kind : TraceDocumentKind) : outcome JsonValue :=
  match kind with
  | SingleProcess => singleProcessArchitecturalView root
  | MultiProcess => multiProcessArchitecturalView root
  end.

(** ** Comparing values *)

Definition typeName (type : JsonType) : string :=
  match type with
  | JT_Null => "null" | JT_Boolean => "boolean" | JT_Number => "number" | JT_String => "string" | JT_Array => "array"
  | JT_Object => "object"
  end.

Definition json_summarize (v : JsonValue) : string :=
  match v with
  | JsonNull => "null"
  | JsonBoolean boolean => if boolean then "true" else "false"
  | JsonNumber number => pretty number
  | JsonString text =>
      let text := if (120 <? String.length text)%nat then String.substring 0 120 text +:+ "..." else text in
      String quote (text +:+ String quote EmptyString)
  | JsonArray array => "<array size=" +:+ pretty (Z.of_nat (length array)) +:+ ">"
  | JsonObject object => "<object fields=" +:+ pretty (Z.of_nat (length object)) +:+ ">"
  end.

Definition isIdentifier (key : string) : bool :=
  match key with
  | EmptyString => false
  | String ch key =>
      (isalpha ch || bool_decide (ch = "_"%char)) && all_chars (fun ch => isalnum ch || bool_decide (ch = "_"%char)) key
  end.

Definition childPath (parent key : string) : string :=
  if isIdentifier key then parent +:+ "." +:+ key
  else parent +:+ "[" +:+ String quote (key +:+ String quote "]").

Record DiffAccumulator := { da_count : Z; da_firstPath : string; da_firstExpected : string; da_firstActual : string }.

Definition no_differences : DiffAccumulator := {| da_count := 0; da_firstPath := ""; da_firstExpected := ""; da_firstActual := "" |}.

Definition add_difference (path expected actual : string) (d : DiffAccumulator) : DiffAccumulator :=
  let count := u64 (da_count d + 1) in
  if bool_decide (da_firstPath d = EmptyString)
  then {| da_count := count; da_firstPath := path; da_firstExpected := expected; da_firstActual := actual |}
  else {| da_count := count; da_firstPath := da_firstPath d; da_firstExpected := da_firstExpected d;
          da_firstActual := da_firstActual d |}.

Definition element_path (path : string) (i : nat) : string := path +:+ "[" +:+ pretty (Z.of_nat i) +:+ "]".

Definition add_if (differ : bool) (path : string) (expected actual : JsonValue) (d : DiffAccumulator) : DiffAccumulator :=
  if differ then add_difference path (json_summarize expected) (json_summarize actual) d else d.

(** The entries of an object that the other one does not have. *)
Fixpoint compare_extra (expected actual : JsonMap) (path : string) (d : DiffAccumulator) : DiffAccumulator :=
  match actual with
  | [] => d
  | (key, value) :: actual =>
      let d := if is_some (map_find key expected) then d
               else add_difference (childPath path key) "<missing>" (json_summarize value) d in
      compare_extra expected actual path d
  end.

Fixpoint compareValues (expected actual : JsonValue) (path : string) (d : DiffAccumulator) {struct expected} : DiffAccumulator :=
  match expected, actual with
  | JsonNull, JsonNull => d
  | JsonBoolean x, JsonBoolean y => add_if (negb (Bool.eqb x y)) path expected actual d
  | JsonNumber x, JsonNumber y => add_if (negb (x =? y)) path expected actual d
  | JsonString x, JsonString y => add_if (negb (bool_decide (x = y))) path expected actual d
  | JsonArray xs, JsonArray ys =>
      let d := if negb (length xs =? length ys)%nat
               then add_difference (path +:+ ".length") (pretty (Z.of_nat (length xs))) (pretty (Z.of_nat (length ys))) d
               else d in
      (fix compare_elements (i : nat) (xs ys : list JsonValue) (d : DiffAccumulator) {struct xs} : DiffAccumulator :=
         match xs, ys with
         | x :: xs, y :: ys => compare_elements (S i) xs ys (compareValues x y (element_path path i) d)
         | _, _ => d
         end) 0%nat xs ys d
  | JsonObject xs, JsonObject ys =>
      compare_extra xs ys path
        ((fix compare_entries (l : JsonMap) (d : DiffAccumulator) {struct l} : DiffAccumulator :=
            match l with
            | [] => d
            | (key, value) :: l =>
                compare_entries l
                  (match map_find key ys with
                   | None => add_difference (childPath path key) (json_summarize value) "<missing>" d
                   | Some other => compareValues value other (childPath path key) d
                   end)
            end) xs d)
  | _, _ =>
      add_difference path ("<" +:+ typeName (json_type expected) +:+ "> " +:+ json_summarize expected)
        ("<" +:+ typeName (json_type actual) +:+ "> " +:+ json_summarize actual) d
  end.

(** ** Comparing texts *)

Record TraceJsonDiffOptions := { df_strict : bool }.

Record TraceJsonDiffResult := {
  df_equal : bool;
  df_difference_count : Z;
  df_first_path : string;
  df_expected_value : string;
  df_actual_value : string;
  df_message : string;
}.

Definition TraceJsonDiff_compareText (expectedJson actualJson : string) (options : TraceJsonDiffOptions)
    : outcome TraceJsonDiffResult :=
  expectedRoot ← JsonParser_parse expectedJson;
  actualRoot ← JsonParser_parse actualJson;
  expectedKind ← validateTraceDocument expectedRoot "Expected";
  actualKind ← validateTraceDocument actualRoot "Actual";
  _ ← throw_if (negb (bool_decide (expectedKind = actualKind))) (RuntimeError "Trace schemas are not comparable");
  expectedView ← (if df_strict options then mret expectedRoot else architecturalView expectedRoot expectedKind);
  actualView ← (if df_strict options then mret actualRoot else architecturalView actualRoot actualKind);
  let d := compareValues expectedView actualView "$" no_differences in
  let equal := da_count d =? 0 in
  mret {| df_equal := equal; df_difference_count := da_count d; df_first_path := da_firstPath d;
          df_expected_value := da_firstExpected d; df_actual_value := da_firstActual d;
          df_message :=
            if equal then (if df_strict options then "Strict trace match" else "Architectural trace match")
            else pretty (da_count d) +:+ " trace difference(s); first at " +:+ da_firstPath d |}.

(** [read_file] gives the text of a file, or throws. *)
Definition TraceJsonDiff_compareFiles (read_file : string -> outcome string) (expectedPath actualPath : string)
    (options : TraceJsonDiffOptions) : outcome TraceJsonDiffResult :=
  expected ← read_file expectedPath;
  actual ← read_file actualPath;
  TraceJsonDiff_compareText expected actual options.
