(* ===== verification/JsonGrammar.v ===== *)
(** * The JSON that the trace comparison reads

    A grammar of JSON texts with integer numbers, and the proof that the parser of
    [TraceJsonDiff] accepts exactly its documents and gives their values.  In
    particular the fuel of the parser's loops never runs out. *)

From S2P Require Import Prelude Words Strings Text Json TraceJsonDiff.
From Stdlib Require Import Ascii.
Open Scope Z_scope.

(** ** Grammar *)

Definition ws (w : string) : Prop := all_chars isspace w = true.

(** The single-character escapes and what they stand for. *)
Definition single_escapes : list (ascii * ascii) :=
  [(quote, quote); ("\"%char, "\"%char); ("/"%char, "/"%char); ("b"%char, "008"%char); ("f"%char, "012"%char);
   ("n"%char, "010"%char); ("r"%char, "013"%char); ("t"%char, "009"%char)].

Inductive escape_text : string -> string -> Prop :=
  | ET_single e x : (e, x) ∈ single_escapes -> escape_text (String e EmptyString) (String x EmptyString)
  | ET_unicode a b c d x :
      0 <= hexValue a -> 0 <= hexValue b -> 0 <= hexValue c -> 0 <= hexValue d ->
      appendUtf8 (((hexValue a * 16 + hexValue b) * 16 + hexValue c) * 16 + hexValue d) = Ret x ->
      escape_text (String "u" (String a (String b (String c (String d EmptyString))))) x.

(** A character that stands for itself in a string. *)
Definition plain (c : ascii) : bool :=
  negb (bool_decide (c = quote)) && negb (bool_decide (c = "\"%char)) && negb (nat_of_ascii c <? 32)%nat.

Inductive string_text : string -> string -> Prop :=
  | ST_end : string_text EmptyString EmptyString
  | ST_plain c body s : plain c = true -> string_text body s -> string_text (String c body) (String c s)
  | ST_escape e x body s : escape_text e x -> string_text body s -> string_text (String "\" (e +:+ body)) (x +:+ s).

(** Decimal digits without a leading zero. *)
Definition decimal (digits : string) : Prop :=
  all_chars isdigit digits = true /\ digits <> EmptyString /\ (front_is "0"%char digits = true -> digits = "0").

Definition number_text (t : string) (z : Z) : Prop :=
  is_i64 z /\
  exists (negative : bool) digits, decimal digits /\ t = (if negative then "-" else "") +:+ digits /\
    z = (if negative then - (read_decimal digits).1 else (read_decimal digits).1).

(** The map that keeps the entries in the order of their keys. *)
Definition object_of (acc l : list (string * JsonValue)) : list (string * JsonValue) :=
  foldl (fun m '(k, v) => map_emplace k v m) acc l.

Definition in_quotes (body : string) : string := String quote (body +:+ String quote EmptyString).

Inductive value_text : string -> JsonValue -> Prop :=
  | VT_null : value_text "null" JsonNull
  | VT_true : value_text "true" (JsonBoolean true)
  | VT_false : value_text "false" (JsonBoolean false)
  | VT_number t z : number_text t z -> value_text t (JsonNumber z)
  | VT_string body s : string_text body s -> value_text (in_quotes body) (JsonString s)
  | VT_no_elements w : ws w -> value_text ("[" +:+ w +:+ "]") (JsonArray [])
  | VT_array w body l : ws w -> elements_text body l -> value_text ("[" +:+ w +:+ body +:+ "]") (JsonArray l)
  | VT_no_members w : ws w -> value_text ("{" +:+ w +:+ "}") (JsonObject [])
  | VT_object w body l : ws w -> members_text body l -> NoDup l.*1 -> value_text ("{" +:+ w +:+ body +:+ "}") (JsonObject (object_of [] l))
with elements_text : string -> list JsonValue -> Prop :=
  | LT_last t v w : value_text t v -> ws w -> elements_text (t +:+ w) [v]
  | LT_more t v w w' body l :
      value_text t v -> ws w -> ws w' -> elements_text body l -> elements_text (t +:+ w +:+ "," +:+ w' +:+ body) (v :: l)
with members_text : string -> list (string * JsonValue) -> Prop :=
  | MT_last kb k w1 w2 t v w3 :
      string_text kb k -> ws w1 -> ws w2 -> value_text t v -> ws w3 ->
      members_text (in_quotes kb +:+ w1 +:+ ":" +:+ w2 +:+ t +:+ w3) [(k, v)]
  | MT_more kb k w1 w2 t v w3 w4 body l :
      string_text kb k -> ws w1 -> ws w2 -> value_text t v -> ws w3 -> ws w4 -> members_text body l ->
      members_text (in_quotes kb +:+ w1 +:+ ":" +:+ w2 +:+ t +:+ w3 +:+ "," +:+ w4 +:+ body) ((k, v) :: l).

Scheme value_text_mut := Induction for value_text Sort Prop
  with elements_text_mut := Induction for elements_text Sort Prop
  with members_text_mut := Induction for members_text Sort Prop.
Combined Scheme json_text_ind from value_text_mut, elements_text_mut, members_text_mut.

(** A whole text: a value with white space around it. *)
Definition document_text (text : string) (v : JsonValue) : Prop :=
  exists w t w', text = w +:+ t +:+ w' /\ ws w /\ ws w' /\ value_text t v.

(** ** Texts *)

Lemma app_assoc_r a b c : (a +:+ b) +:+ c = a +:+ (b +:+ c).
Proof. symmetry. apply append_assoc. Qed.

(** What may follow a value: the end, white space, a comma or a closing bracket. *)
Definition ends (rest : string) : Prop :=
  match rest with
  | EmptyString => True
  | String c _ => isspace c = true \/ c = ","%char \/ c = "]"%char \/ c = "}"%char
  end.

Lemma ends_ws w rest : ws w -> ends rest -> ends (w +:+ rest).
Proof. destruct w as [|c w]; [intros _ H; exact H|]. intros H _. cbn in *. apply andb_true_iff in H as [H _]. left. exact H. Qed.

(** The first character is not white space. *)
Definition solid (s : string) : Prop := match s with EmptyString => True | String c _ => isspace c = false end.

Section parser.
Context (size : Z).

Lemma skip_ws w s : ws w -> skipWhitespace (w +:+ s) = skipWhitespace s.
Proof. intros Hw. unfold skipWhitespace, modify. rewrite span_append by exact Hw. reflexivity. Qed.

Lemma skip_solid s : solid s -> skipWhitespace s = (Ret tt, s).
Proof. destruct s as [|c s]; [reflexivity|]. cbn. unfold skipWhitespace, modify. cbn [span]. intros ->. reflexivity. Qed.

Lemma skip_ws_solid w s : ws w -> solid s -> skipWhitespace (w +:+ s) = (Ret tt, s).
Proof. intros Hw Hs. rewrite skip_ws, skip_solid by assumption. reflexivity. Qed.

Lemma skip_inv s u s' : skipWhitespace s = (Ret u, s') -> exists w, s = w +:+ s' /\ ws w /\ solid s'.
Proof.
  unfold skipWhitespace, modify. intros [= _ <-]. induction s as [|c s (w & Hs & Hw & Hsol)]; [exists EmptyString; repeat split|].
  cbn [span]. destruct (isspace c) eqn:Hc.
  - exists (String c w). destruct (span isspace s) as [a b]. cbn [snd] in *. split; [exact (f_equal (String c) Hs)|].
    split; [unfold ws in *; cbn; rewrite Hc; exact Hw | exact Hsol].
  - exists EmptyString. repeat split. exact Hc.
Qed.

Lemma take_run c s : take_char size (String c s) = (Ret c, s).
Proof. reflexivity. Qed.

Lemma expect_run c s : expect size c (String c s) = (Ret tt, s).
Proof. unfold expect. rewrite bind_run, take_run. cbv beta iota. rewrite bool_decide_eq_true_2 by reflexivity. reflexivity. Qed.

(** The same in front of a text. *)
Lemma expect_app c s : expect size c (String c EmptyString +:+ s) = (Ret tt, s).
Proof. exact (expect_run c s). Qed.

Lemma take_inv s c s' : take_char size s = (Ret c, s') -> s = String c s'.
Proof. destruct s as [|d s]; [discriminate|]. rewrite take_run. intros [= <- <-]. reflexivity. Qed.

Lemma expect_inv c s u s' : expect size c s = (Ret u, s') -> s = String c s'.
Proof.
  unfold expect. intros E. apply M_bind_ret_inv in E as (d & s1 & E1 & E). apply take_inv in E1 as ->.
  case_bool_decide as Hd; cbn [negb] in E; [|discriminate E]. injection E as _ <-. rewrite Hd. reflexivity.
Qed.

Lemma consume_run c s : consume c (String c s) = (Ret true, s).
Proof. unfold consume. rewrite bind_run. unfold peek, gets. cbv beta iota. rewrite bool_decide_eq_true_2 by reflexivity. reflexivity. Qed.

Definition first_is_not (c : ascii) (s : string) : Prop := match s with EmptyString => c <> "000"%char | String d _ => d <> c end.

Lemma consume_other c s : first_is_not c s -> consume c s = (Ret false, s).
Proof.
  intros Hs. unfold consume. rewrite bind_run. unfold peek, gets. cbv beta iota. destruct s as [|d s]; cbn in Hs.
  - rewrite bool_decide_eq_false_2 by congruence. reflexivity.
  - rewrite bool_decide_eq_false_2 by exact Hs. reflexivity.
Qed.

Lemma consume_inv c s b s' : c <> "000"%char -> consume c s = (Ret b, s') ->
  if b : bool then s = String c s' else s' = s /\ first_is_not c s.
Proof.
  intros Hc. destruct s as [|d s].
  - rewrite consume_other by exact Hc. intros [= <- <-]. auto.
  - destruct (decide (d = c)) as [->|Hd].
    + rewrite consume_run. intros [= <- <-]. reflexivity.
    + rewrite consume_other by exact Hd. intros [= <- <-]. auto.
Qed.

(** ** Strings *)

Lemma hexValue_bound c : hexValue c < 16.
Proof. unfold hexValue. repeat case_match; bool_facts; lia. Qed.

Lemma code_point_step n cp c s :
  0 <= cp < 2 ^ 12 -> 0 <= hexValue c ->
  parse_code_point size (S n) cp (String c s) = parse_code_point size n (cp * 16 + hexValue c) s.
Proof.
  intros Hcp Hc. cbn [parse_code_point]. rewrite bind_run, take_run. cbv zeta. rewrite (proj2 (Z.ltb_ge _ _)) by exact Hc.
  pose proof (hexValue_bound c). assert (Hu : u32 (Z.shiftl cp 4) = Z.shiftl cp 4).
  { unfold u32. apply Z.mod_small. rewrite Z.shiftl_mul_pow2 by lia. lia. }
  rewrite Hu, Z.lor_comm, lor_disjoint_add by lia. rewrite Z.add_comm. reflexivity.
Qed.

Lemma escape_run e x s : escape_text e x -> parse_escape size (e +:+ s) = (Ret x, s).
Proof.
  intros He. destruct He as [e x Hin | a b c d x Ha Hb Hc Hd Hx].
  - unfold single_escapes in Hin.
    repeat (apply elem_of_cons in Hin as [Hin|Hin]; [injection Hin as -> ->; reflexivity|]). inversion Hin.
  - pose proof (hexValue_bound a). pose proof (hexValue_bound b). pose proof (hexValue_bound c).
    change (parse_escape size (String "u" (String a (String b (String c (String d s)))))  = (Ret x, s)).
    unfold parse_escape. rewrite bind_run, take_run. cbv zeta beta iota. repeat (rewrite bool_decide_eq_false_2 by discriminate).
    rewrite bool_decide_eq_true_2 by reflexivity. rewrite bind_run, !code_point_step by lia. cbn [parse_code_point mret M_ret].
    unfold lift. rewrite Z.add_0_l. rewrite Hx. reflexivity.
Qed.

Lemma code_point_inv n : forall cp s r s',
  0 <= cp -> cp < 2 ^ (16 - 4 * Z.of_nat n) -> (n <= 4)%nat -> parse_code_point size n cp s = (Ret r, s') ->
  match n with
  | O => r = cp /\ s' = s
  | S n => exists c s1, s = String c s1 /\ 0 <= hexValue c /\ parse_code_point size n (cp * 16 + hexValue c) s1 = (Ret r, s')
  end.
Proof.
  destruct n as [|n]; intros cp s r s' H0 Hlt Hn E; [injection E as -> ->; auto|].
  pose proof E as E'. cbn [parse_code_point] in E'. apply M_bind_ret_inv in E' as (c & s1 & E1 & E2). apply take_inv in E1 as ->.
  cbv zeta in E2. destruct (hexValue c <? 0) eqn:Hc; [discriminate E2|]. apply Z.ltb_ge in Hc.
  exists c, s1. split; [reflexivity|]. split; [exact Hc|]. rewrite <- E. symmetry. apply code_point_step; [|exact Hc].
  split; [exact H0|]. eapply Z.lt_le_trans; [exact Hlt|]. apply Z.pow_le_mono_r; lia.
Qed.

Lemma escape_inv s x s' : parse_escape size s = (Ret x, s') -> exists e, s = e +:+ s' /\ escape_text e x.
Proof.
  unfold parse_escape. intros E. apply M_bind_ret_inv in E as (c & s1 & E1 & E). apply take_inv in E1 as ->. cbv zeta in E.
  do 8 (case_bool_decide; [injection E as <- <-; subst c; eexists (String _ EmptyString); split; [reflexivity|];
    apply ET_single; unfold single_escapes; rewrite !elem_of_cons; tauto|]).
  case_bool_decide; [|discriminate E]. subst c. apply M_bind_ret_inv in E as (cp & s2 & E1 & E2). apply M_lift_ret_inv in E2 as [Hx ->].
  apply code_point_inv in E1 as (a & s3 & -> & Ha & E1); [|lia..].
  pose proof (hexValue_bound a). apply code_point_inv in E1 as (b & s4 & -> & Hb & E1); [|lia..].
  pose proof (hexValue_bound b). apply code_point_inv in E1 as (c & s5 & -> & Hc & E1); [|lia..].
  pose proof (hexValue_bound c). apply code_point_inv in E1 as (d & s6 & -> & Hd & E1); [|lia..].
  pose proof (hexValue_bound d). apply code_point_inv in E1 as [-> ->]; [|lia..].
  eexists (String "u" (String a (String b (String c (String d EmptyString))))). split; [reflexivity|].
  apply ET_unicode; assumption.
Qed.

Lemma characters_run body s : string_text body s -> forall fuel rest, (String.length body < fuel)%nat ->
  parse_characters size fuel (body +:+ String quote rest) = (Ret s, rest).
Proof.
  induction 1 as [|c body s Hc _ IH|e x body s He _ IH]; intros fuel rest Hf.
  - destruct fuel as [|fuel]; [cbn in Hf; lia|]. reflexivity.
  - destruct fuel as [|fuel]; [cbn in Hf; lia|]. cbn [String.length] in Hf.
    change (parse_characters size (S fuel) (String c (body +:+ String quote rest)) = (Ret (String c s), rest)).
    unfold plain in Hc. bool_facts. cbn [parse_characters]. rewrite bind_run. unfold atEnd, gets. cbv beta iota.
    rewrite bool_decide_eq_false_2 by discriminate. rewrite bind_run, take_run. cbv beta iota.
    repeat match goal with H : bool_decide _ = false |- _ => rewrite H; clear H end.
    match goal with H : (_ <? 32)%nat = false |- _ => rewrite H end. cbn [negb].
    rewrite bind_run. cbn [mret M_ret]. rewrite bind_run, IH by lia. reflexivity.
  - destruct fuel as [|fuel]; [cbn in Hf; lia|]. cbn [String.length] in Hf. rewrite string_length_app in Hf.
    change (parse_characters size (S fuel) (String "\" ((e +:+ body) +:+ String quote rest)) = (Ret (x +:+ s), rest)).
    cbn [parse_characters]. rewrite bind_run. unfold atEnd, gets. cbv beta iota.
    rewrite bool_decide_eq_false_2 by discriminate. rewrite bind_run, take_run. cbv beta iota.
    rewrite bool_decide_eq_false_2 by discriminate. change (nat_of_ascii "\" <? 32)%nat with false. cbv iota.
    rewrite bool_decide_eq_true_2 by reflexivity. cbn [negb]. rewrite bind_run, app_assoc_r, (escape_run _ _ _ He).
    rewrite bind_run, IH by lia. reflexivity.
Qed.

Lemma characters_inv fuel : forall t s rest, parse_characters size fuel t = (Ret s, rest) ->
  exists body, t = body +:+ String quote rest /\ string_text body s.
Proof.
  induction fuel as [|fuel IH]; intros t s rest E; [discriminate E|]. cbn [parse_characters] in E.
  apply M_bind_ret_inv in E as (ended & s1 & E1 & E). unfold atEnd, gets in E1. injection E1 as <- <-.
  case_bool_decide as Ht; [discriminate E|]. apply M_bind_ret_inv in E as (c & s1 & E1 & E). apply take_inv in E1 as ->.
  case_bool_decide as Hq; [injection E as <- <-; subst c; exists EmptyString; split; [reflexivity | constructor]|].
  destruct (nat_of_ascii c <? 32)%nat eqn:Hn; [discriminate E|].
  apply M_bind_ret_inv in E as (x & s2 & E1 & E). apply M_bind_ret_inv in E as (s0 & s3 & E2 & E). injection E as <- <-.
  apply IH in E2 as (body & -> & Hb). case_bool_decide as Hc; cbn [negb] in E1.
  - subst c. apply escape_inv in E1 as (e & -> & He). exists (String "\" (e +:+ body)).
    split; [exact (f_equal (String "\") (append_assoc e body _)) | constructor; assumption].
  - injection E1 as <- ->. exists (String c body). split; [reflexivity|]. apply (ST_plain c body s0); [|exact Hb].
    unfold plain. rewrite !bool_decide_eq_false_2, Hn by assumption. reflexivity.
Qed.

Lemma string_run body s rest : string_text body s -> parseString size (in_quotes body +:+ rest) = (Ret s, rest).
Proof.
  intros Hb. change (in_quotes body +:+ rest) with (String quote ((body +:+ String quote EmptyString) +:+ rest)).
  rewrite app_assoc_r. change (String quote EmptyString +:+ rest) with (String quote rest).
  unfold parseString. rewrite bind_run, expect_run, bind_run. unfold get. cbv beta iota. apply characters_run; [exact Hb|].
  rewrite string_length_app. lia.
Qed.

Lemma string_inv t s rest : parseString size t = (Ret s, rest) -> exists body, t = in_quotes body +:+ rest /\ string_text body s.
Proof.
  unfold parseString. intros E. apply M_bind_ret_inv in E as (u & s1 & E1 & E). apply expect_inv in E1 as ->.
  apply M_bind_ret_inv in E as (r & s2 & E1 & E). injection E1 as <- <-. apply characters_inv in E as (body & -> & Hb).
  exists body. split; [|exact Hb]. exact (f_equal (String quote) (append_assoc body (String quote EmptyString) rest)).
Qed.

(** ** Numbers *)

Lemma digit_is_small ch : isdigit ch = true -> (digit_value ch <? 10) = true.
Proof. revert ch. by_char. Qed.

Lemma read_digits_count s : all_chars isdigit s = true -> forall v c, (read_digits 10 s v c).2 = (c + String.length s)%nat.
Proof.
  induction s as [|ch s IH]; intros Hs v c; cbn [read_digits String.length]; [cbn; lia|].
  cbn [all_chars] in Hs. apply andb_true_iff in Hs as [Hc Hs].
  rewrite (digit_is_small _ Hc), IH by exact Hs. lia.
Qed.

Lemma digits_scan (negative : bool) digits : decimal digits ->
  scan_integer read_decimal ((if negative then "-" else "") +:+ digits) =
  Some (negative, (read_decimal digits).1, String.length ((if negative then "-" else "") +:+ digits)).
Proof.
  intros (Ha & Hne & _). destruct digits as [|ch digits]; [contradiction Hne; reflexivity|].
  pose proof Ha as Hc. cbn [all_chars] in Hc. apply andb_true_iff in Hc as [Hc _]. destruct (digit_start ch Hc) as [Hsp Hsign].
  pose proof (read_digits_count _ Ha 0 0) as Hn. destruct negative.
  - change ("-" +:+ String ch digits) with (String "-" (String ch digits)). unfold scan_integer.
    change (span isspace (String "-" (String ch digits))) with (EmptyString, String "-" (String ch digits)). cbv beta iota.
    unfold read_decimal in *. destruct (read_digits 10 (String ch digits) 0 0) as [m n]. cbn [snd fst] in *. subst n. reflexivity.
  - change ("" +:+ String ch digits) with (String ch digits). unfold scan_integer. cbn [span]. rewrite Hsp, Hsign.
    unfold read_decimal in *. destruct (read_digits 10 (String ch digits) 0 0) as [m n]. cbn [snd fst] in *. subst n. reflexivity.
Qed.

Lemma digits_stoll (negative : bool) digits : decimal digits ->
  let t := (if negative then "-" else "") +:+ digits in
  let z := if negative then - (read_decimal digits).1 else (read_decimal digits).1 in
  stoll read_decimal t = if decide (is_i64 z) then Ret (z, String.length t) else throw (OutOfRange "stoll").
Proof.
  intros Hd t z. unfold stoll, t. rewrite digits_scan by exact Hd. cbv zeta. fold z.
  case_decide as Hz; [|destruct (_ || _) eqn:E; [reflexivity | exfalso; apply Hz; facts; words]].
  rewrite (proj2 (orb_false_iff _ _)); [reflexivity|]. split; bool_goal; words.
Qed.

(** The characters that would continue a number. *)
Lemma ends_number rest : ends rest ->
  (span isdigit rest).1 = EmptyString /\ (span isdigit rest).2 = rest /\
  let ch := match rest with EmptyString => "000"%char | String ch _ => ch end in
  ch <> "."%char /\ ch <> "e"%char /\ ch <> "E"%char.
Proof.
  destruct rest as [|c rest]; [repeat split; discriminate|]. cbn [ends span].
  destruct c as [[] [] [] [] [] [] [] []]; intros [H|[H|[H|H]]]; try discriminate; repeat split; discriminate.
Qed.

Lemma take_digits_run digits rest : decimal digits -> ends rest -> take_digits (digits +:+ rest) = (Ret digits, rest).
Proof.
  intros (Ha & Hne & H0) Hr. destruct digits as [|ch digits]; [contradiction Hne; reflexivity|].
  destruct (ends_number _ Hr) as (E1 & E2 & _).
  destruct (decide (ch = "0"%char)) as [->|Hch].
  - injection (H0 eq_refl) as ->. reflexivity.
  - change (String ch digits +:+ rest) with (String ch (digits +:+ rest)).
    assert (Ht : take_digits (String ch (digits +:+ rest)) = (Ret (span isdigit (String ch (digits +:+ rest))).1, (span isdigit (String ch (digits +:+ rest))).2)).
    { unfold take_digits. rewrite bind_run. unfold get. cbv beta iota.
      destruct (span isdigit (String ch (digits +:+ rest))) as [a b].
      destruct ch as [[] [] [] [] [] [] [] []]; try reflexivity. contradiction Hch; reflexivity. }
    rewrite Ht. change (String ch (digits +:+ rest)) with (String ch digits +:+ rest). rewrite span_append, E1, E2 by exact Ha.
    cbn [fst snd]. rewrite append_nil. reflexivity.
Qed.

Lemma number_run t z rest : number_text t z -> ends rest -> parseNumber size (t +:+ rest) = (Ret z, rest).
Proof.
  intros (Hz & negative & digits & Hd & -> & ->) Hr. unfold parseNumber. rewrite bind_run.
  assert (Hc : consume "-"%char (((if negative then "-" else "") +:+ digits) +:+ rest) = (Ret negative, digits +:+ rest)).
  { destruct negative; [exact (consume_run "-" (digits +:+ rest))|]. change (("" +:+ digits) +:+ rest) with (digits +:+ rest).
    apply consume_other. destruct Hd as (Ha & Hne & _). destruct digits as [|ch digits]; [contradiction Hne; reflexivity|].
    cbn. intros ->. discriminate Ha. }
  rewrite Hc, bind_run. unfold peek at 1, gets at 1. cbv beta iota.
  assert (Hp : isdigit (match digits +:+ rest with EmptyString => "000"%char | String ch _ => ch end) = true).
  { destruct Hd as (Ha & Hne & _). destruct digits as [|ch digits]; [contradiction Hne; reflexivity|].
    cbn in Ha. apply andb_true_iff in Ha as [Ha _]. exact Ha. }
  rewrite Hp. cbn [negb]. rewrite bind_run, (take_digits_run _ _ Hd Hr), bind_run. unfold peek, gets. cbv beta iota.
  destruct (ends_number _ Hr) as (_ & _ & H1 & H2 & H3). rewrite !bool_decide_eq_false_2 by assumption. cbn [orb]. cbv zeta.
  assert (Ht : (if negative then String "-" digits else digits) = (if negative then "-" else "") +:+ digits)
    by (destruct negative; reflexivity).
  rewrite Ht, (digits_stoll _ _ Hd), decide_True, Nat.eqb_refl by exact Hz. reflexivity.
Qed.

Lemma span_inv (q : ascii -> bool) s : s = (span q s).1 +:+ (span q s).2 /\ all_chars q (span q s).1 = true.
Proof.
  induction s as [|c s [IH1 IH2]]; [split; reflexivity|]. cbn [span]. destruct (q c) eqn:Hc; [|split; reflexivity].
  destruct (span q s) as [a b]. cbn [fst snd] in *. split; [exact (f_equal (String c) IH1)|]. cbn. rewrite Hc. exact IH2.
Qed.

Lemma take_digits_inv ch s digits s' : isdigit ch = true -> take_digits (String ch s) = (Ret digits, s') ->
  String ch s = digits +:+ s' /\ decimal digits.
Proof.
  intros Hd E. destruct (decide (ch = "0"%char)) as [->|Hch].
  - injection E as <- <-. split; [reflexivity|]. repeat split; discriminate.
  - assert (Ht : take_digits (String ch s) = (Ret (span isdigit (String ch s)).1, (span isdigit (String ch s)).2)).
    { unfold take_digits. rewrite bind_run. unfold get. cbv beta iota.
      destruct (span isdigit (String ch s)) as [a b].
      destruct ch as [[] [] [] [] [] [] [] []]; try reflexivity. contradiction Hch; reflexivity. }
    rewrite Ht in E. injection E as <- <-. destruct (span_inv isdigit (String ch s)) as [H1 H2]. split; [exact H1|].
    split; [exact H2|]. cbn [span]. rewrite Hd. destruct (span isdigit s) as [a b]. cbn [fst]. split; [discriminate|].
    cbn. intros H0. facts. contradiction.
Qed.

Lemma number_inv s z s' : parseNumber size s = (Ret z, s') -> exists t, s = t +:+ s' /\ number_text t z.
Proof.
  unfold parseNumber. intros E. apply M_bind_ret_inv in E as (negative & s1 & E1 & E). apply consume_inv in E1; [|discriminate].
  apply M_bind_ret_inv in E as (ch & s2 & E2 & E). unfold peek, gets in E2. injection E2 as <- <-.
  destruct s1 as [|ch s1]; [discriminate E|]. destruct (isdigit ch) eqn:Hd; cbn [negb] in E; [|discriminate E].
  apply M_bind_ret_inv in E as (digits & s2 & E2 & E). apply (take_digits_inv _ _ _ _ Hd) in E2 as [Hs Hdec].
  apply M_bind_ret_inv in E as (c & s3 & E2 & E). unfold peek, gets in E2. injection E2 as <- <-.
  match type of E with (if ?b then _ else _) _ = _ => destruct b end; [discriminate E|]. cbv zeta in E.
  assert (Ht : (if negative then String "-" digits else digits) = (if negative then "-" else "") +:+ digits)
    by (destruct negative; reflexivity).
  rewrite Ht, (digits_stoll _ _ Hdec) in E. case_decide as Hz; [|discriminate E]. rewrite Nat.eqb_refl in E. injection E as <- <-.
  exists ((if negative then "-" else "") +:+ digits). split; [|split; [exact Hz|]; eauto].
  destruct negative.
  - rewrite E1, Hs. reflexivity.
  - destruct E1 as [<- _]. exact Hs.
Qed.

(** ** Values *)

(** What [JsonParser_parseValue] does, by the first character. *)
Definition value_by_first (fuel : nat) (ch : ascii) : M string JsonValue :=
  if bool_decide (ch = "{"%char) then parseObject size (JsonParser_parseValue size fuel)
  else if bool_decide (ch = "["%char) then parseArray size (JsonParser_parseValue size fuel)
  else if bool_decide (ch = quote) then text ← parseString size; mret (JsonString text)
  else if bool_decide (ch = "t"%char) then _ ← parseLiteral size "true"; mret (JsonBoolean true)
  else if bool_decide (ch = "f"%char) then _ ← parseLiteral size "false"; mret (JsonBoolean false)
  else if bool_decide (ch = "n"%char) then _ ← parseLiteral size "null"; mret JsonNull
  else if bool_decide (ch = "-"%char) || isdigit ch then number ← parseNumber size; mret (JsonNumber number)
  else fail size "Unexpected JSON token".

Lemma value_first fuel ch s : isspace ch = false -> JsonParser_parseValue size (S fuel) (String ch s) = value_by_first fuel ch (String ch s).
Proof. intros Hc. cbn [JsonParser_parseValue]. rewrite bind_run, skip_solid by exact Hc. cbv iota. rewrite bind_run. reflexivity. Qed.

Lemma value_first_app fuel ch t rest : isspace ch = false ->
  JsonParser_parseValue size (S fuel) (String ch t +:+ rest) = value_by_first fuel ch (String ch t +:+ rest).
Proof. exact (value_first fuel ch (t +:+ rest)). Qed.

(** The first character of a value. *)
Lemma value_head t v : value_text t v -> exists ch s, t = String ch s /\ isspace ch = false /\ ch <> "]"%char /\ ch <> "}"%char.
Proof.
  intros Hv. destruct Hv as [| | |t z (_ & negative & digits & (Ha & Hne & _) & -> & _)| | | | |];
    [eexists _, _; split; [reflexivity | repeat split; discriminate].. | | | | | |];
    [|eexists _, _; split; [reflexivity | repeat split; discriminate]..].
  destruct negative; [eexists _, _; split; [reflexivity | repeat split; discriminate]|].
  destruct digits as [|ch digits]; [contradiction Hne; reflexivity|]. cbn in Ha. apply andb_true_iff in Ha as [Ha _].
  exists ch, digits. split; [reflexivity|]. revert Ha. clear. revert ch. by_char.
Qed.

Lemma number_first fuel ch : ch = "-"%char \/ isdigit ch = true ->
  isspace ch = false /\ value_by_first fuel ch = (number ← parseNumber size; mret (JsonNumber number)).
Proof.
  intros [-> | Hc]; [split; reflexivity|]. destruct ch as [[] [] [] [] [] [] [] []]; try discriminate Hc; split; reflexivity.
Qed.

(** ** The keys of a map *)

Lemma map_find_emplace k k' v m : map_find k' m = None ->
  map_find k (map_emplace k' v m) = if decide (k = k') then Some v else map_find k m.
Proof.
  induction m as [|[j x] m IH]; intros Hm; cbn [map_find map_emplace] in *.
  - case_bool_decide; destruct (decide (k = k')); congruence.
  - case_bool_decide as Hj; [discriminate Hm|]. destruct (String.leb k' j); cbn [map_find].
    + case_bool_decide; destruct (decide (k = k')); congruence.
    + rewrite IH by exact Hm. case_bool_decide; destruct (decide (k = k')); congruence.
Qed.

(** Keys that a map does not have. *)
Definition fresh_in (m : JsonMap) (keys : list string) : Prop := Forall (fun k => map_find k m = None) keys.

Lemma fresh_emplace m k v keys :
  map_find k m = None /\ fresh_in (map_emplace k v m) keys /\ NoDup keys <-> fresh_in m (k :: keys) /\ NoDup (k :: keys).
Proof.
  unfold fresh_in. rewrite NoDup_cons, !Forall_forall. split.
  - intros (Hk & Hf & Hn). assert (Hnk : k ∉ keys).
    { intros Hin. specialize (Hf k Hin). rewrite map_find_emplace, decide_True in Hf by auto. discriminate Hf. }
    repeat split; [|exact Hnk | exact Hn]. intros j Hj. apply elem_of_cons in Hj as [->|Hj]; [exact Hk|].
    specialize (Hf j Hj). rewrite map_find_emplace in Hf by exact Hk. destruct (decide (j = k)); [discriminate Hf | exact Hf].
  - intros (Hf & Hnk & Hn). assert (Hk : map_find k m = None) by (apply Hf; left). repeat split; [exact Hk | | exact Hn].
    intros j Hj. rewrite map_find_emplace by exact Hk. rewrite decide_False by congruence. apply Hf. right. exact Hj.
Qed.

(** ** Every text of the grammar is read *)

Lemma literal_run literal rest : parseLiteral size literal (literal +:+ rest) = (Ret tt, rest).
Proof.
  unfold parseLiteral. generalize literal at 1 as whole. intros whole. induction literal as [|ch literal IH]; [reflexivity|].
  change (String ch literal +:+ rest) with (String ch (literal +:+ rest)). cbn [parseLiteral_from].
  rewrite bind_run, take_run. cbv iota. rewrite bool_decide_eq_true_2 by reflexivity. cbn [negb]. apply IH.
Qed.

Definition value_runs (t : string) (v : JsonValue) : Prop :=
  forall fuel rest, (String.length t < fuel)%nat -> ends rest -> JsonParser_parseValue size fuel (t +:+ rest) = (Ret v, rest).

Definition elements_run (body : string) (l : list JsonValue) : Prop :=
  forall depth fuel rest, (String.length body < depth)%nat -> (String.length body < fuel)%nat ->
    parse_elements size (JsonParser_parseValue size depth) fuel (body +:+ String "]" rest) = (Ret l, rest).

Definition members_run (body : string) (l : list (string * JsonValue)) : Prop :=
  forall depth fuel acc w rest, (String.length body < depth)%nat -> (String.length body < fuel)%nat -> ws w ->
    fresh_in acc l.*1 -> NoDup l.*1 ->
    parse_members size (JsonParser_parseValue size depth) fuel acc (w +:+ body +:+ String "}" rest) = (Ret (object_of acc l), rest).

(** A comma or a closing bracket behind white space. *)
Definition closes (ch : ascii) : Prop := ch = ","%char \/ ch = "]"%char \/ ch = "}"%char.

(** A value, with the white space and the punctuation behind it. *)
Lemma value_then {A} t v w depth ch rest (k : JsonValue -> M string A) :
  value_runs t v -> ws w -> (String.length t < depth)%nat -> closes ch ->
  (v ← JsonParser_parseValue size depth; k v) (t +:+ w +:+ String ch rest) = k v (w +:+ String ch rest).
Proof.
  intros Hv Hw Hd Hc. rewrite bind_run, Hv; [reflexivity | exact Hd|]. apply ends_ws; [exact Hw|].
  right. exact Hc.
Qed.

Lemma skip_closes {A} w ch rest (k : unit -> M string A) :
  ws w -> closes ch -> (u ← skipWhitespace; k u) (w +:+ String ch rest) = k tt (String ch rest).
Proof.
  intros Hw Hc. rewrite bind_run, skip_ws_solid; [reflexivity | exact Hw|].
  destruct Hc as [-> | [-> | ->]]; reflexivity.
Qed.

Lemma last_element_run t v w : value_runs t v -> ws w -> elements_run (t +:+ w) [v].
Proof.
  intros Hv Hw depth fuel rest Hd Hf. rewrite string_length_app in *. destruct fuel as [|fuel]; [lia|].
  cbn [parse_elements]. rewrite app_assoc_r, (value_then t v w) by (unfold closes; auto; lia). rewrite skip_closes by (unfold closes; auto).
  rewrite bind_run, consume_run. reflexivity.
Qed.

Lemma more_elements_run t v w w' body l :
  value_runs t v -> ws w -> ws w' -> solid (body +:+ "]") -> elements_run body l ->
  elements_run (t +:+ w +:+ "," +:+ w' +:+ body) (v :: l).
Proof.
  intros Hv Hw Hw' Hsol Hl depth fuel rest Hd Hf. rewrite !string_length_app in *. destruct fuel as [|fuel]; [lia|].
  cbn [String.length] in *. rewrite !app_assoc_r. set (more := w' +:+ body +:+ String "]" rest).
  change ("," +:+ more) with (String "," more). cbn [parse_elements].
  rewrite (value_then t v w) by (unfold closes; auto; lia). rewrite skip_closes by (unfold closes; auto).
  rewrite bind_run, consume_other by discriminate. rewrite bind_run, expect_run. unfold more.
  rewrite bind_run, skip_ws_solid; [|exact Hw' | destruct body; [reflexivity | exact Hsol]].
  rewrite bind_run, Hl by lia. reflexivity.
Qed.

Lemma peek_key kb rest : peek (in_quotes kb +:+ rest) = (Ret quote, in_quotes kb +:+ rest).
Proof. reflexivity. Qed.

(** A key with what follows it, up to the value. *)
Lemma key_then {A} kb k w1 w2 rest (f : M string A) :
  string_text kb k -> ws w1 -> ws w2 -> solid rest ->
  (_ ← skipWhitespace; _ ← expect size ":"%char; _ ← skipWhitespace; f) (w1 +:+ ":" +:+ w2 +:+ rest) = f rest.
Proof.
  intros Hk Hw1 Hw2 Hs. rewrite bind_run, skip_ws_solid by (try exact Hw1; reflexivity).
  change (":" +:+ w2 +:+ rest) with (String ":" (w2 +:+ rest)). rewrite bind_run, expect_run.
  rewrite bind_run, skip_ws_solid by assumption. reflexivity.
Qed.

(** One turn of [parse_members], up to the white space behind the value. *)
Lemma member_turn depth fuel acc w kb k w1 w2 t v w3 ch rest :
  ws w -> string_text kb k -> ws w1 -> ws w2 -> value_text t v -> value_runs t v -> ws w3 -> closes ch ->
  (String.length t < depth)%nat -> map_find k acc = None ->
  parse_members size (JsonParser_parseValue size depth) (S fuel) acc
    (w +:+ in_quotes kb +:+ w1 +:+ ":" +:+ w2 +:+ t +:+ w3 +:+ String ch rest) =
  (closed ← consume "}"%char;
   if (closed : bool) then mret (map_emplace k v acc)
   else _ ← expect size ","%char; parse_members size (JsonParser_parseValue size depth) fuel (map_emplace k v acc)) (String ch rest).
Proof.
  intros Hw Hk Hw1 Hw2 Ht Hv Hw3 Hc Hd Hf. cbn [parse_members].
  rewrite bind_run, skip_ws_solid by (try exact Hw; reflexivity). rewrite bind_run.
  rewrite (peek_key kb). cbv beta iota. rewrite bool_decide_eq_true_2 by reflexivity. cbn [negb].
  rewrite bind_run, (string_run kb k) by exact Hk. rewrite (key_then kb k) by (try assumption; destruct (value_head t v Ht) as (c & s & -> & Hs & _); exact Hs).
  rewrite (value_then t v w3) by assumption. rewrite Hf. cbv zeta. rewrite skip_closes by assumption. reflexivity.
Qed.

Lemma last_member_run kb k w1 w2 t v w3 :
  string_text kb k -> ws w1 -> ws w2 -> value_text t v -> value_runs t v -> ws w3 ->
  members_run (in_quotes kb +:+ w1 +:+ ":" +:+ w2 +:+ t +:+ w3) [(k, v)].
Proof.
  intros Hk Hw1 Hw2 Ht Hv Hw3 depth fuel acc w rest Hd Hf Hw Hfresh _. rewrite !string_length_app in *. destruct fuel as [|fuel]; [lia|].
  rewrite !app_assoc_r. apply Forall_cons in Hfresh as [Hfresh _].
  rewrite (member_turn depth fuel acc w kb k w1 w2 t v w3) by (unfold closes; auto; lia).
  rewrite bind_run, consume_run. reflexivity.
Qed.

Lemma more_members_run kb k w1 w2 t v w3 w4 body l :
  string_text kb k -> ws w1 -> ws w2 -> value_text t v -> value_runs t v -> ws w3 -> ws w4 -> members_run body l ->
  members_run (in_quotes kb +:+ w1 +:+ ":" +:+ w2 +:+ t +:+ w3 +:+ "," +:+ w4 +:+ body) ((k, v) :: l).
Proof.
  intros Hk Hw1 Hw2 Ht Hv Hw3 Hw4 Hl depth fuel acc w rest Hd Hf Hw Hfresh Hdup. rewrite !string_length_app in *.
  destruct fuel as [|fuel]; [lia|]. cbn [String.length] in *.
  destruct (proj2 (fresh_emplace acc k v l.*1) (conj Hfresh Hdup)) as (Hk0 & Hfresh' & Hdup').
  rewrite !app_assoc_r. change ("," +:+ w4 +:+ body +:+ String "}" rest) with (String "," (w4 +:+ body +:+ String "}" rest)).
  rewrite (member_turn depth fuel acc w kb k w1 w2 t v w3) by (unfold closes; auto; lia).
  rewrite bind_run, consume_other by discriminate. rewrite bind_run, expect_run. apply Hl; auto; lia.
Qed.

Lemma elements_head body l : elements_text body l -> exists ch s, body = String ch s /\ isspace ch = false /\ ch <> "]"%char.
Proof.
  intros [t v w Ht _ | t v w w' body' l' Ht _ _ _]; destruct (value_head t v Ht) as (ch & s & -> & Hs & Hn & _);
    eexists ch, _; split; [reflexivity | auto | reflexivity | auto].
Qed.

Lemma members_head body l : members_text body l -> exists s, body = String quote s.
Proof. intros [|]; eexists; reflexivity. Qed.

Lemma array_run w body l fuel rest :
  ws w -> elements_text body l -> elements_run body l -> (String.length body < fuel)%nat ->
  parseArray size (JsonParser_parseValue size fuel) ("[" +:+ w +:+ body +:+ String "]" rest) = (Ret (JsonArray l), rest).
Proof.
  intros Hw Ht Hl Hf. unfold parseArray. rewrite bind_run, expect_app. destruct (elements_head _ _ Ht) as (ch & s & Hb & Hs & Hn).
  rewrite bind_run, skip_ws_solid; [|exact Hw | subst body; exact Hs].
  rewrite bind_run, consume_other by (subst body; exact Hn). rewrite bind_run. unfold get. cbv beta iota.
  rewrite bind_run, Hl; [reflexivity | exact Hf|]. rewrite string_length_app. lia.
Qed.

Lemma object_run w body l fuel rest :
  ws w -> members_text body l -> members_run body l -> NoDup l.*1 -> (String.length body < fuel)%nat ->
  parseObject size (JsonParser_parseValue size fuel) ("{" +:+ w +:+ body +:+ String "}" rest) = (Ret (JsonObject (object_of [] l)), rest).
Proof.
  intros Hw Ht Hl Hn Hf. unfold parseObject. rewrite bind_run, expect_app. destruct (members_head _ _ Ht) as (s & Hb).
  rewrite bind_run, skip_ws_solid; [|exact Hw | subst body; reflexivity].
  rewrite bind_run, consume_other by (subst body; discriminate). rewrite bind_run. unfold get. cbv beta iota.
  assert (E : parse_members size (JsonParser_parseValue size fuel) (S (String.length (body +:+ String "}" rest))) [] (body +:+ String "}" rest) =
              (Ret (object_of [] l), rest)).
  { apply (Hl fuel _ [] EmptyString rest); [exact Hf | | reflexivity | apply Forall_true; reflexivity | exact Hn].
    rewrite string_length_app. lia. }
  rewrite bind_run, E. reflexivity.
Qed.

Lemma number_first_char t z : number_text t z -> exists ch s, t = String ch s /\ (ch = "-"%char \/ isdigit ch = true).
Proof.
  intros (_ & [] & digits & (Ha & Hne & _) & -> & _); [eexists _, _; split; [reflexivity | auto]|].
  destruct digits as [|ch digits]; [contradiction Hne; reflexivity|]. cbn in Ha. apply andb_true_iff in Ha as [Ha _].
  eexists _, _; split; [reflexivity | auto].
Qed.

Lemma literal_runs ch literal v :
  isspace ch = false -> (forall fuel, value_by_first fuel ch = (_ ← parseLiteral size (String ch literal); mret v)) ->
  value_runs (String ch literal) v.
Proof.
  intros Hs Hc [|fuel] rest Hf _; [lia|]. rewrite value_first_app, Hc, bind_run, literal_run by exact Hs. reflexivity.
Qed.

Lemma number_runs t z : number_text t z -> value_runs t (JsonNumber z).
Proof.
  intros Ht [|fuel] rest Hf Hr; [lia|]. destruct (number_first_char t z Ht) as (ch & s & -> & Hc).
  destruct (number_first fuel ch Hc) as [Hs Hfirst].
  rewrite value_first_app, Hfirst, bind_run, number_run with (z := z) by assumption. reflexivity.
Qed.

(** A value with a closing character, as the array and object lemmas read it. *)
Lemma closing_app w close rest opening :
  (String opening EmptyString +:+ w +:+ String close EmptyString) +:+ rest = String opening EmptyString +:+ w +:+ String close rest.
Proof. rewrite !app_assoc_r. reflexivity. Qed.

Lemma closing_body_app opening w body close rest :
  (String opening EmptyString +:+ w +:+ body +:+ String close EmptyString) +:+ rest =
  String opening EmptyString +:+ w +:+ body +:+ String close rest.
Proof. rewrite !app_assoc_r. reflexivity. Qed.

Lemma no_elements_run w fuel rest : ws w ->
  parseArray size (JsonParser_parseValue size fuel) ("[" +:+ w +:+ String "]" rest) = (Ret (JsonArray []), rest).
Proof.
  intros Hw. unfold parseArray. rewrite bind_run, expect_app. rewrite skip_closes by (unfold closes; auto).
  rewrite bind_run, consume_run. reflexivity.
Qed.

Lemma no_members_run w fuel rest : ws w ->
  parseObject size (JsonParser_parseValue size fuel) ("{" +:+ w +:+ String "}" rest) = (Ret (JsonObject []), rest).
Proof.
  intros Hw. unfold parseObject. rewrite bind_run, expect_app. rewrite skip_closes by (unfold closes; auto).
  rewrite bind_run, consume_run. reflexivity.
Qed.

Lemma grammar_runs :
  (forall t v, value_text t v -> value_runs t v) /\
  (forall body l, elements_text body l -> elements_run body l) /\
  (forall body l, members_text body l -> members_run body l).
Proof.
  apply json_text_ind.
  - apply literal_runs; reflexivity.
  - apply literal_runs; reflexivity.
  - apply literal_runs; reflexivity.
  - apply number_runs.
  - intros body s Hs [|fuel] rest Hf _; [lia|]. unfold in_quotes. rewrite value_first_app by reflexivity.
    change (value_by_first fuel quote) with (text ← parseString size; mret (JsonString text)).
    rewrite bind_run, (string_run body s) by exact Hs. reflexivity.
  - intros w Hw [|fuel] rest Hf _; [lia|]. rewrite closing_app, value_first_app by reflexivity. apply no_elements_run. exact Hw.
  - intros w body l Hw Ht Hl [|fuel] rest Hf _; [lia|]. rewrite !string_length_app in Hf. cbn [String.length] in Hf.
    rewrite closing_body_app, value_first_app by reflexivity. apply array_run; auto. lia.
  - intros w Hw [|fuel] rest Hf _; [lia|]. rewrite closing_app, value_first_app by reflexivity. apply no_members_run. exact Hw.
  - intros w body l Hw Ht Hl Hn [|fuel] rest Hf _; [lia|]. rewrite !string_length_app in Hf. cbn [String.length] in Hf.
    rewrite closing_body_app, value_first_app by reflexivity. apply object_run; auto. lia.
  - intros t v w _ Hv Hw. apply last_element_run; assumption.
  - intros t v w w' body l _ Hv Hw Hw' Hb Hl. apply more_elements_run; try assumption.
    destruct (elements_head _ _ Hb) as (ch & s & -> & Hs & _). exact Hs.
  - intros. apply last_member_run; assumption.
  - intros. apply more_members_run; assumption.
Qed.

(** ** Only the texts of the grammar are read *)

Definition value_reads (fuel : nat) : Prop :=
  forall s v s', JsonParser_parseValue size fuel s = (Ret v, s') -> exists w t, s = w +:+ t +:+ s' /\ ws w /\ value_text t v.

Lemma solid_nothing w s : ws w -> solid (w +:+ s) -> w = EmptyString.
Proof. destruct w as [|c w]; [reflexivity|]. cbn. intros Hw Hs. unfold ws in Hw. cbn in Hw. rewrite Hs in Hw. discriminate Hw. Qed.

Lemma value_reads_solid fuel s v s' : value_reads fuel -> solid s -> JsonParser_parseValue size fuel s = (Ret v, s') ->
  exists t, s = t +:+ s' /\ value_text t v.
Proof.
  intros Hv Hs E. apply Hv in E as (w & t & -> & Hw & Ht). rewrite (solid_nothing _ _ Hw Hs). eauto.
Qed.

Lemma literal_inv whole literal : forall s u s', parseLiteral_from size whole literal s = (Ret u, s') -> s = literal +:+ s'.
Proof.
  induction literal as [|ch literal IH]; intros s u s' E; [injection E as _ <-; reflexivity|]. cbn [parseLiteral_from] in E.
  apply M_bind_ret_inv in E as (c & s1 & E1 & E). apply take_inv in E1 as ->.
  case_bool_decide as Hc; cbn [negb] in E; [|discriminate E]. rewrite Hc, (IH _ _ _ E). reflexivity.
Qed.

Lemma elements_inv depth : value_reads depth -> forall fuel s l s', solid s ->
  parse_elements size (JsonParser_parseValue size depth) fuel s = (Ret l, s') ->
  exists body, s = body +:+ String "]" s' /\ elements_text body l.
Proof.
  intros Hv. induction fuel as [|fuel IH]; intros s l s' Hs E; [discriminate E|]. cbn [parse_elements] in E.
  apply M_bind_ret_inv in E as (v & s1 & E1 & E). apply (value_reads_solid _ _ _ _ Hv Hs) in E1 as (t & -> & Ht).
  apply M_bind_ret_inv in E as (u & s2 & E1 & E). apply skip_inv in E1 as (w & -> & Hw & _).
  apply M_bind_ret_inv in E as (closed & s3 & E1 & E). apply consume_inv in E1; [|discriminate]. destruct closed.
  - injection E as <- <-. subst s2. exists (t +:+ w). split; [apply append_assoc | constructor; assumption].
  - destruct E1 as [-> _]. apply M_bind_ret_inv in E as (u' & s4 & E1 & E). apply expect_inv in E1 as ->.
    apply M_bind_ret_inv in E as (u'' & s5 & E1 & E). apply skip_inv in E1 as (w' & -> & Hw' & Hs5).
    apply M_bind_ret_inv in E as (l0 & s6 & E1 & E). injection E as <- <-. apply (IH _ _ _ Hs5) in E1 as (body & -> & Hb).
    exists (t +:+ w +:+ "," +:+ w' +:+ body). split; [rewrite !app_assoc_r; reflexivity | constructor; assumption].
Qed.

Lemma members_inv depth : value_reads depth -> forall fuel acc s m s',
  parse_members size (JsonParser_parseValue size depth) fuel acc s = (Ret m, s') ->
  exists w body l, s = w +:+ body +:+ String "}" s' /\ ws w /\ members_text body l /\ m = object_of acc l /\
    fresh_in acc l.*1 /\ NoDup l.*1.
Proof.
  intros Hv. induction fuel as [|fuel IH]; intros acc s m s' E; [discriminate E|]. cbn [parse_members] in E.
  apply M_bind_ret_inv in E as (u & s1 & E1 & E). apply skip_inv in E1 as (w & -> & Hw & _).
  apply M_bind_ret_inv in E as (ch & s2 & E1 & E). unfold peek, gets in E1. injection E1 as <- <-.
  match type of E with (if negb ?b then _ else _) _ = _ => destruct b end; cbn [negb] in E; [|discriminate E].
  apply M_bind_ret_inv in E as (k & s2 & E1 & E). apply string_inv in E1 as (kb & -> & Hk).
  apply M_bind_ret_inv in E as (u1 & s3 & E1 & E). apply skip_inv in E1 as (w1 & -> & Hw1 & _).
  apply M_bind_ret_inv in E as (u2 & s4 & E1 & E). apply expect_inv in E1 as ->.
  apply M_bind_ret_inv in E as (u3 & s5 & E1 & E). apply skip_inv in E1 as (w2 & -> & Hw2 & Hs5).
  apply M_bind_ret_inv in E as (v & s6 & E1 & E). apply (value_reads_solid _ _ _ _ Hv Hs5) in E1 as (t & -> & Ht).
  destruct (map_find k acc) eqn:Hfresh; [discriminate E|]. cbv zeta in E.
  apply M_bind_ret_inv in E as (u4 & s7 & E1 & E). apply skip_inv in E1 as (w3 & -> & Hw3 & _).
  apply M_bind_ret_inv in E as (closed & s8 & E1 & E). apply consume_inv in E1; [|discriminate]. destruct closed.
  - injection E as <- <-. subst s7. exists w, (in_quotes kb +:+ w1 +:+ ":" +:+ w2 +:+ t +:+ w3), [(k, v)].
    split; [rewrite !app_assoc_r; reflexivity|]. split; [exact Hw|]. split; [constructor; assumption|]. split; [reflexivity|].
    split; [repeat constructor; exact Hfresh | apply NoDup_singleton].
  - destruct E1 as [-> _]. apply M_bind_ret_inv in E as (u5 & s9 & E1 & E). apply expect_inv in E1 as ->.
    apply IH in E as (w4 & body & l & -> & Hw4 & Hb & -> & Hf & Hn).
    exists w, (in_quotes kb +:+ w1 +:+ ":" +:+ w2 +:+ t +:+ w3 +:+ "," +:+ w4 +:+ body), ((k, v) :: l).
    split; [rewrite !app_assoc_r; reflexivity|]. split; [exact Hw|]. split; [constructor; assumption|]. split; [reflexivity|].
    apply (fresh_emplace acc k v). auto.
Qed.

Lemma array_inv depth s v s' : value_reads depth -> parseArray size (JsonParser_parseValue size depth) s = (Ret v, s') ->
  exists t, s = t +:+ s' /\ value_text t v.
Proof.
  intros Hv E. unfold parseArray in E.
  apply M_bind_ret_inv in E as (u & s1 & E1 & E). apply expect_inv in E1 as ->.
  apply M_bind_ret_inv in E as (u1 & s2 & E1 & E). apply skip_inv in E1 as (w & -> & Hw & Hs2).
  apply M_bind_ret_inv in E as (closed & s3 & E1 & E). apply consume_inv in E1; [|discriminate]. destruct closed.
  - injection E as <- <-. subst s2. exists ("[" +:+ w +:+ "]"). split; [rewrite closing_app; reflexivity | constructor; exact Hw].
  - destruct E1 as [-> _]. apply M_bind_ret_inv in E as (r & s4 & E1 & E). injection E1 as <- <-.
    apply M_bind_ret_inv in E as (l & s5 & E1 & E). injection E as <- <-.
    apply (elements_inv _ Hv _ _ _ _ Hs2) in E1 as (body & -> & Hb).
    exists ("[" +:+ w +:+ body +:+ "]"). split; [rewrite closing_body_app; reflexivity | constructor; assumption].
Qed.

Lemma object_inv depth s v s' : value_reads depth -> parseObject size (JsonParser_parseValue size depth) s = (Ret v, s') ->
  exists t, s = t +:+ s' /\ value_text t v.
Proof.
  intros Hv E. unfold parseObject in E.
  apply M_bind_ret_inv in E as (u & s1 & E1 & E). apply expect_inv in E1 as ->.
  apply M_bind_ret_inv in E as (u1 & s2 & E1 & E). apply skip_inv in E1 as (w & -> & Hw & Hs2).
  apply M_bind_ret_inv in E as (closed & s3 & E1 & E). apply consume_inv in E1; [|discriminate]. destruct closed.
  - injection E as <- <-. subst s2. exists ("{" +:+ w +:+ "}"). split; [rewrite closing_app; reflexivity | constructor; exact Hw].
  - destruct E1 as [-> _]. apply M_bind_ret_inv in E as (r & s4 & E1 & E). injection E1 as <- <-.
    apply M_bind_ret_inv in E as (m & s5 & E1 & E). injection E as <- <-.
    apply (members_inv _ Hv) in E1 as (w' & body & l & -> & Hw' & Hb & -> & _ & Hn).
    rewrite (solid_nothing _ _ Hw' Hs2). exists ("{" +:+ w +:+ body +:+ "}").
    split; [rewrite closing_body_app; reflexivity | constructor; assumption].
Qed.

Lemma parseValue_reads fuel : value_reads fuel.
Proof.
  induction fuel as [|fuel IH]; intros s v s' E; [discriminate E|]. cbn [JsonParser_parseValue] in E.
  apply M_bind_ret_inv in E as (u & s1 & E1 & E). apply skip_inv in E1 as (w & -> & Hw & _).
  apply M_bind_ret_inv in E as (ch & s2 & E1 & E). unfold peek, gets in E1. injection E1 as <- <-.
  enough (exists t, s1 = t +:+ s' /\ value_text t v) as (t & -> & Ht) by eauto.
  repeat case_bool_decide; try (eapply array_inv; eassumption); try (eapply object_inv; eassumption).
  - apply M_bind_ret_inv in E as (text & s2 & E1 & E). injection E as <- <-. apply string_inv in E1 as (body & -> & Hb).
    eexists. split; [reflexivity | constructor; exact Hb].
  - apply M_bind_ret_inv in E as (u1 & s2 & E1 & E). injection E as <- <-. apply literal_inv in E1 as ->.
    eexists. split; [reflexivity | constructor].
  - apply M_bind_ret_inv in E as (u1 & s2 & E1 & E). injection E as <- <-. apply literal_inv in E1 as ->.
    eexists. split; [reflexivity | constructor].
  - apply M_bind_ret_inv in E as (u1 & s2 & E1 & E). injection E as <- <-. apply literal_inv in E1 as ->.
    eexists. split; [reflexivity | constructor].
  - apply M_bind_ret_inv in E as (z & s2 & E1 & E). injection E as <- <-. apply number_inv in E1 as (t & -> & Hz).
    eexists. split; [reflexivity | constructor; exact Hz].
  - cbn [orb] in E. destruct (isdigit _); [|discriminate E].
    apply M_bind_ret_inv in E as (z & s2 & E1 & E). injection E as <- <-. apply number_inv in E1 as (t & -> & Hz).
    eexists. split; [reflexivity | constructor; exact Hz].
Qed.

(** ** Documents *)

Lemma document_run text v : document_text text v -> parse_document size text = (Ret v, EmptyString).
Proof.
  intros (w & t & w' & -> & Hw & Hw' & Ht). destruct (value_head t v Ht) as (ch & s & Hts & Hs & _).
  unfold parse_document. rewrite bind_run, skip_ws_solid; [|exact Hw | subst t; exact Hs].
  rewrite bind_run. unfold get. cbv beta iota. rewrite bind_run, (proj1 grammar_runs t v Ht).
  - rewrite bind_run, <- (append_nil w'), skip_ws_solid by (try exact Hw'; exact I). reflexivity.
  - rewrite string_length_app. lia.
  - rewrite <- (append_nil w'). apply ends_ws; [exact Hw' | exact I].
Qed.

Lemma document_inv text v s' : parse_document size text = (Ret v, s') -> document_text text v.
Proof.
  unfold parse_document. intros E.
  apply M_bind_ret_inv in E as (u & s1 & E1 & E). apply skip_inv in E1 as (w & -> & Hw & Hs1).
  apply M_bind_ret_inv in E as (r & s2 & E1 & E). injection E1 as <- <-.
  apply M_bind_ret_inv in E as (v0 & s2 & E1 & E). apply (value_reads_solid _ _ _ _ (parseValue_reads _) Hs1) in E1 as (t & -> & Ht).
  apply M_bind_ret_inv in E as (u1 & s3 & E1 & E). apply skip_inv in E1 as (w' & -> & Hw' & _).
  apply M_bind_ret_inv in E as (ended & s4 & E1 & E). unfold atEnd, gets in E1. injection E1 as <- <-.
  case_bool_decide as H0; cbn [negb] in E; [|discriminate E]. injection E as <- <-. subst s3.
  exists w, t, w'. rewrite append_nil. auto.
Qed.

End parser.

Lemma parse_document_text text v : JsonParser_parse text = Ret v <-> document_text text v.
Proof.
  unfold JsonParser_parse. split.
  - destruct (parse_document _ text) as [r s'] eqn:E. cbn [fst]. intros ->. exact (document_inv _ _ _ _ E).
  - intros Hd. rewrite (document_run _ _ _ Hd). reflexivity.
Qed.

(** A text has one value at most. *)
Lemma document_text_functional text v v' : document_text text v -> document_text text v' -> v = v'.
Proof. intros H H'. apply (document_run 0) in H, H'. congruence. Qed.

(** (C29) [JsonParser] reads exactly the documents of the grammar and gives their
    values: white space around one value, numbers without leading zeros that fit
    64 bits, strings with their escapes, and objects whose keys are distinct.  So
    the bounds on its loops are enough for every document. *)
Theorem parser_reads_the_grammar text v : JsonParser_parse text = Ret v <-> document_text text v.
Proof. apply parse_document_text. Qed.
