(* ===== verification/JsonText.v ===== *)
(** * What the JSON writers write

    The pieces of text that the writers of [Json] append, and the fields, elements
    and values of [JsonGrammar] they are.  Text with its lines indented further is
    a text of the same value. *)

From S2P Require Import Prelude Words Strings Text Assembler Json TraceJson TraceJsonDiff JsonGrammar.
From Stdlib Require Import Ascii.
Open Scope Z_scope.

(** ** White space *)

Lemma ws_app w w' : ws w -> ws w' -> ws (w +:+ w').
Proof. unfold ws. rewrite all_chars_app. intros -> ->. reflexivity. Qed.

Lemma ws_indent n : ws (indent n).
Proof. induction n as [|n IH]; [reflexivity | exact IH]. Qed.

Lemma ws_newline : ws newline_text.
Proof. reflexivity. Qed.

Create HintDb json.
#[export] Hint Resolve ws_app ws_indent ws_newline : json.

(** ** Strings *)

Lemma hex_char_value n : (n < 16)%nat -> hexValue (hex_char n) = Z.of_nat n.
Proof. intros H. do 16 (destruct n as [|n]; [reflexivity|]). lia. Qed.

Lemma escape_char_text ch :
  (exists e, escape_char ch = String "\" e /\ escape_text e (String ch EmptyString)) \/
  escape_char ch = String ch EmptyString /\ plain ch = true.
Proof.
  destruct ch as [[] [] [] [] [] [] [] []];
    first [right; split; reflexivity
          | left; eexists; split; [reflexivity|]; apply ET_single; unfold single_escapes; rewrite !elem_of_cons;
            repeat (first [left; reflexivity | right])
          | left; eexists; split; [reflexivity|]; apply ET_unicode; first [reflexivity | intros H; discriminate H]].
Qed.

Lemma escapeJson_text s : string_text (escapeJson s) s.
Proof.
  induction s as [|ch s IH]; [constructor|]. cbn [escapeJson].
  destruct (escape_char_text ch) as [(e & -> & He) | [-> Hc]].
  - exact (ST_escape e (String ch EmptyString) (escapeJson s) s He IH).
  - exact (ST_plain ch (escapeJson s) s Hc IH).
Qed.

Lemma quoted_text s : value_text (quoted s) (JsonString s).
Proof. exact (VT_string _ _ (escapeJson_text s)). Qed.

(** ** Numbers *)

Lemma pretty_N_decimal (x : N) : decimal (pretty x) /\ read_decimal (pretty x) = (Z.of_N x, String.length (pretty x)).
Proof.
  destruct (read_pretty read_decimal x) as (Hr & Ha & Hne). split; [|exact Hr]. split; [exact Ha|]. split; [exact Hne|].
  unfold pretty, pretty_N. destruct (decide (x = 0)%N) as [->|Hx]; [reflexivity|].
  destruct (pretty_go_first x ltac:(lia) EmptyString) as (ch & t & E & _ & H0). rewrite E. cbn. intros H. facts. contradiction.
Qed.

Lemma pretty_number z : is_i64 z -> number_text (pretty z) z.
Proof.
  intros Hz. split; [exact Hz|]. destruct (pretty_N_decimal (Z.to_N (Z.abs z))) as [Hd Hr].
  exists (z <? 0), (pretty (Z.to_N (Z.abs z))). split; [exact Hd|]. rewrite Hr. cbn [fst].
  destruct z as [|p|p]; (split; [reflexivity|]); cbn; lia.
Qed.

Lemma number_value z : is_i64 z -> value_text (pretty z) (JsonNumber z).
Proof. intros Hz. apply VT_number, pretty_number, Hz. Qed.

(** ** Fields and elements *)

Definition field_text (comma : bool) (t k : string) (v : JsonValue) : Prop :=
  exists n w tv, ws w /\ t = indent n +:+ field_name k +:+ w +:+ tv +:+ finishField comma /\ value_text tv v.

Definition element_text (comma : bool) (t : string) (v : JsonValue) : Prop :=
  exists w tv, ws w /\ t = w +:+ tv +:+ finishField comma /\ value_text tv v.

(** Fields that are followed by others. *)
Inductive open_fields : string -> list (string * JsonValue) -> Prop :=
  | OF_nil : open_fields EmptyString []
  | OF_more t k v t' l : field_text true t k v -> open_fields t' l -> open_fields (t +:+ t') ((k, v) :: l).

(** The fields of an object up to its closing bracket, and what follows. *)
Inductive object_rest (tail : string) : string -> list (string * JsonValue) -> Prop :=
  | OR_last n t k v : field_text false t k v -> object_rest tail (t +:+ indent n +:+ "}" +:+ tail) [(k, v)]
  | OR_more t k v t' l : field_text true t k v -> object_rest tail t' l -> object_rest tail (t +:+ t') ((k, v) :: l).

Lemma plain_field n k tv comma v : value_text tv v -> field_text comma (indent n +:+ field_name k +:+ tv +:+ finishField comma) k v.
Proof. intros Hv. exists n, EmptyString, tv. repeat split. exact Hv. Qed.

Lemma string_field n name value comma : field_text comma (stringField n name value comma) name (JsonString value).
Proof. apply plain_field, quoted_text. Qed.

Lemma size_field n name value comma : is_i64 value -> field_text comma (sizeField n name value comma) name (JsonNumber value).
Proof. intros. apply plain_field, number_value. assumption. Qed.

Lemma uint64_field n name value comma : is_i64 value -> field_text comma (uint64Field n name value comma) name (JsonNumber value).
Proof. exact (size_field n name value comma). Qed.

Lemma int64_field n name value comma : is_i64 value -> field_text comma (int64Field n name value comma) name (JsonNumber value).
Proof. exact (size_field n name value comma). Qed.

Lemma bool_field n name value comma : field_text comma (boolField n name value comma) name (JsonBoolean value).
Proof. apply plain_field. destruct value; constructor. Qed.

Lemma null_field n name comma : field_text comma (nullField n name comma) name JsonNull.
Proof. apply plain_field. constructor. Qed.

#[export] Hint Resolve string_field size_field uint64_field int64_field bool_field null_field : json.

Lemma open_fields_rest tail t l t' l' : open_fields t l -> object_rest tail t' l' -> object_rest tail (t +:+ t') (l ++ l').
Proof.
  induction 1 as [|t k v t0 l Hf _ IH]; intros Hr; [exact Hr|]. rewrite app_assoc_r. apply OR_more; [exact Hf | auto].
Qed.

Lemma open_fields_app t l t' l' : open_fields t l -> open_fields t' l' -> open_fields (t +:+ t') (l ++ l').
Proof.
  induction 1 as [|t k v t0 l Hf _ IH]; intros Hr; [exact Hr|]. rewrite app_assoc_r. apply OF_more; [exact Hf | auto].
Qed.

Lemma open_field t k v : field_text true t k v -> open_fields t [(k, v)].
Proof. intros H. rewrite <- (append_nil t). apply OF_more; [exact H | constructor]. Qed.

(** The fields of an object as the grammar reads them. *)
Lemma object_rest_members tail t l : object_rest tail t l ->
  exists w body, ws w /\ t = w +:+ body +:+ "}" +:+ tail /\ members_text body l.
Proof.
  induction 1 as [n t k v (m & w0 & tv & Hw0 & -> & Hv) | t k v t' l (m & w0 & tv & Hw0 & -> & Hv) _ (w & body & Hw & -> & Hb)].
  - eexists (indent m), _. split; [auto with json|]. split.
    2: apply (MT_last (escapeJson k) k EmptyString (" " +:+ w0) tv v (newline_text +:+ indent n)); auto using escapeJson_text with json; try reflexivity; exact Hw0.
    unfold field_name, finishField, quoted, in_quotes. rewrite !app_assoc_r. reflexivity.
  - eexists (indent m), _. split; [auto with json|]. split.
    2: { apply (MT_more (escapeJson k) k EmptyString (" " +:+ w0) tv v EmptyString (newline_text +:+ w) body l);
         auto using escapeJson_text with json; try reflexivity; exact Hw0. }
    unfold field_name, finishField, quoted, in_quotes. rewrite !app_assoc_r. reflexivity.
Qed.

Lemma object_text tail t l : object_rest tail t l -> NoDup l.*1 ->
  exists tv, "{" +:+ newline_text +:+ t = tv +:+ tail /\ value_text tv (JsonObject (object_of [] l)).
Proof.
  intros H Hn. destruct (object_rest_members _ _ _ H) as (w & body & Hw & -> & Hb).
  eexists. split; [|apply (VT_object (newline_text +:+ w) body l); auto with json]. rewrite !app_assoc_r. reflexivity.
Qed.

Lemma object_field n name t l comma : object_rest (finishField comma) t l -> NoDup l.*1 ->
  field_text comma (open_object n name +:+ t) name (JsonObject (object_of [] l)).
Proof.
  intros H Hn. destruct (object_text _ _ _ H Hn) as (tv & E & Hv). exists n, EmptyString, tv. split; [reflexivity|]. split; [|exact Hv].
  unfold open_object. rewrite !app_assoc_r, <- E. reflexivity.
Qed.

Lemma object_element n t l comma : object_rest (finishField comma) t l -> NoDup l.*1 ->
  element_text comma (open_element n +:+ t) (JsonObject (object_of [] l)).
Proof.
  intros H Hn. destruct (object_text _ _ _ H Hn) as (tv & E & Hv). exists (indent n), tv. split; [auto with json|].
  split; [|exact Hv]. unfold open_element. rewrite !app_assoc_r, <- E. reflexivity.
Qed.

(** ** Arrays *)

(** The elements of an array up to its closing bracket. *)
Inductive array_items : string -> list JsonValue -> Prop :=
  | AI_last t v : element_text false t v -> array_items t [v]
  | AI_more t v t' l : element_text true t v -> array_items t' l -> array_items (t +:+ t') (v :: l).

Lemma array_items_elements t l n : array_items t l ->
  exists w body, ws w /\ t +:+ indent n = w +:+ body /\ elements_text body l.
Proof.
  induction 1 as [t v (w & tv & Hw & -> & Hv) | t v t' l (w & tv & Hw & -> & Hv) _ (w' & body & Hw' & E & Hb)].
  - eexists w, _. split; [exact Hw|]. split; [|apply (LT_last tv v (newline_text +:+ indent n)); auto with json].
    unfold finishField. rewrite !app_assoc_r. reflexivity.
  - eexists w, _. split; [exact Hw|]. split; [|apply (LT_more tv v EmptyString (newline_text +:+ w') body l); auto with json; reflexivity].
    unfold finishField. rewrite !app_assoc_r, E. reflexivity.
Qed.

Lemma array_field_rest n name t l comma : t = EmptyString /\ l = [] \/ array_items t l ->
  field_text comma (open_array n name +:+ t +:+ close_array n comma) name (JsonArray l).
Proof.
  intros [[-> ->] | H].
  - exists n, EmptyString, ("[" +:+ (newline_text +:+ indent n) +:+ "]"). split; [reflexivity|]. split; [|apply VT_no_elements; auto with json].
    unfold open_array, close_array. rewrite !app_assoc_r. reflexivity.
  - destruct (array_items_elements _ _ n H) as (w & body & Hw & E & Hb).
    exists n, EmptyString, ("[" +:+ (newline_text +:+ w) +:+ body +:+ "]"). split; [reflexivity|]. split; [|apply VT_array; auto with json].
    unfold open_array, close_array. rewrite !app_assoc_r. rewrite <- (app_assoc_r w body), <- E, !app_assoc_r. reflexivity.
Qed.

Lemma json_items_text {A} (item : A -> bool -> string) (f : A -> JsonValue) (l : list A) :
  (forall x comma, x ∈ l -> element_text comma (item x comma) (f x)) ->
  json_items item l = EmptyString /\ f <$> l = [] \/ array_items (json_items item l) (f <$> l).
Proof.
  induction l as [|x l IH]; intros Hi; [left; auto|]. right. cbn [json_items fmap list_fmap].
  destruct l as [|y l].
  - cbn. rewrite append_nil. apply AI_last, Hi. left.
  - rewrite bool_decide_eq_false_2 by discriminate. cbn [negb]. apply AI_more; [apply Hi; left|].
    destruct IH as [[_ H] | H]; [intros; apply Hi; right; assumption | discriminate H | exact H].
Qed.

Lemma array_field {A} n name (item : A -> bool -> string) (f : A -> JsonValue) (l : list A) comma :
  (forall x comma, x ∈ l -> element_text comma (item x comma) (f x)) ->
  field_text comma (open_array n name +:+ json_items item l +:+ close_array n comma) name (JsonArray (f <$> l)).
Proof. intros Hi. apply array_field_rest, json_items_text, Hi. Qed.

(** The values of the elements that [json_items_from] writes. *)
Fixpoint values_from {A} (f : A -> nat -> outcome JsonValue) (index : nat) (l : list A) : outcome (list JsonValue) :=
  match l with
  | [] => mret []
  | x :: l => v ← f x index; vs ← values_from f (S index) l; mret (v :: vs)
  end.

(** A text for every element that has one, and its value. *)
Definition item_text {A} (item : A -> nat -> bool -> outcome string) (f : A -> nat -> outcome JsonValue) (x : A) : Prop :=
  forall index comma t, is_i64 (Z.of_nat index) -> item x index comma = Ret t -> exists v, f x index = Ret v /\ element_text comma t v.

Lemma json_items_from_text {A} (item : A -> nat -> bool -> outcome string) (f : A -> nat -> outcome JsonValue) (l : list A) :
  Forall (item_text item f) l -> forall index t, Z.of_nat index + Z.of_nat (length l) < 2 ^ 63 -> json_items_from item index l = Ret t ->
  exists vs, values_from f index l = Ret vs /\ (l = [] /\ t = EmptyString /\ vs = [] \/ array_items t vs).
Proof.
  induction 1 as [|x l Hx _ IH]; intros index t Hlt E; [injection E as <-; exists []; auto|].
  cbn [json_items_from values_from] in *. apply bind_ret_inv in E as (tx & Ex & E). apply bind_ret_inv in E as (tl & El & E).
  cbn [length] in Hlt. injection E as <-. destruct (Hx index _ _ ltac:(words) Ex) as (v & -> & Hv). destruct (IH (S index) _ ltac:(lia) El) as (vs & Evs & Hvs). rewrite Evs.
  exists (v :: vs). split; [reflexivity|]. right. destruct l as [|y l].
  - destruct Hvs as [(_ & -> & ->) | H]; [rewrite append_nil; apply AI_last; exact Hv | injection Evs as <-; inversion H].
  - apply AI_more; [exact Hv|]. destruct Hvs as [[H _] | H]; [discriminate H | exact H].
Qed.

Lemma array_field_from {A} n name (item : A -> nat -> bool -> outcome string) (f : A -> nat -> outcome JsonValue) (l : list A) t comma :
  Forall (item_text item f) l -> Z.of_nat (length l) < 2 ^ 63 -> json_items_from item 0 l = Ret t ->
  exists vs, values_from f 0 l = Ret vs /\ field_text comma (open_array n name +:+ t +:+ close_array n comma) name (JsonArray vs).
Proof.
  intros Hl Hn E. destruct (json_items_from_text item f l Hl 0 _ Hn E) as (vs & Hvs & H). exists vs. split; [exact Hvs|].
  apply array_field_rest. destruct H as [(_ & H) | H]; auto.
Qed.

(** ** Indenting the lines of a text *)

Section reindent.
Context (spaces : nat).

Fixpoint reindent (t : string) : string :=
  match t with
  | EmptyString => EmptyString
  | String ch t => (if bool_decide (ch = newline) then String newline (indent spaces) else String ch EmptyString) +:+ reindent t
  end.

Lemma reindent_app a b : reindent (a +:+ b) = reindent a +:+ reindent b.
Proof.
  induction a as [|ch a IH]; [reflexivity|]. change (String ch a +:+ b) with (String ch (a +:+ b)). cbn [reindent].
  rewrite IH, app_assoc_r. reflexivity.
Qed.

Lemma reindent_same t : all_chars (fun ch => negb (bool_decide (ch = newline))) t = true -> reindent t = t.
Proof.
  induction t as [|ch t IH]; [reflexivity|]. cbn [all_chars reindent]. intros H. apply andb_true_iff in H as [Hc Ht].
  rewrite IH by exact Ht. destruct (bool_decide _); [discriminate Hc | reflexivity].
Qed.

Lemma reindent_ws w : ws w -> ws (reindent w).
Proof.
  unfold ws. induction w as [|ch w IH]; [reflexivity|]. cbn [reindent all_chars]. intros H. apply andb_true_iff in H as [Hc Hw].
  rewrite all_chars_app, IH by exact Hw. case_bool_decide; [rewrite andb_true_r; exact (ws_indent spaces)|]. cbn. rewrite Hc. reflexivity.
Qed.

Lemma escape_no_newline e x : escape_text e x -> reindent e = e.
Proof.
  intros [e' x' Hin | a b c d x' Ha Hb Hc Hd _]; apply reindent_same.
  - unfold single_escapes in Hin. repeat (apply elem_of_cons in Hin as [Hin|Hin]; [injection Hin as -> ->; reflexivity|]). inversion Hin.
  - assert (H : forall ch, 0 <= hexValue ch -> negb (bool_decide (ch = newline)) = true).
    { intros ch Hch. case_bool_decide as E; [|reflexivity]. subst ch. exfalso. apply Hch. reflexivity. }
    cbn [all_chars]. rewrite (H a Ha), (H b Hb), (H c Hc), (H d Hd). reflexivity.
Qed.

Lemma string_no_newline body s : string_text body s -> reindent body = body.
Proof.
  induction 1 as [|c body s Hc _ IH|e x body s He _ IH]; [reflexivity| |].
  - cbn [reindent]. rewrite IH, bool_decide_eq_false_2; [reflexivity|]. intros ->. discriminate Hc.
  - cbn [reindent]. rewrite reindent_app, (escape_no_newline e x He), IH. reflexivity.
Qed.

Lemma digits_no_newline t : all_chars isdigit t = true -> reindent t = t.
Proof.
  intros H. apply reindent_same. revert H. apply all_chars_impl. by_char.
Qed.

Lemma number_no_newline t z : number_text t z -> reindent t = t.
Proof.
  intros (_ & negative & digits & (Ha & _) & -> & _). rewrite reindent_app, (digits_no_newline digits Ha).
  destruct negative; reflexivity.
Qed.

Lemma quotes_no_newline body s : string_text body s -> reindent (in_quotes body) = in_quotes body.
Proof.
  intros H. unfold in_quotes. change (String quote ?t) with (String quote EmptyString +:+ t).
  rewrite !reindent_app, (string_no_newline _ _ H). reflexivity.
Qed.

(** The value of a text does not depend on how its lines are indented. *)
Lemma reindent_values :
  (forall t v, value_text t v -> value_text (reindent t) v) /\
  (forall body l, elements_text body l -> elements_text (reindent body) l) /\
  (forall body l, members_text body l -> members_text (reindent body) l).
Proof.
  apply json_text_ind; try (constructor; fail).
  - intros t z Ht. rewrite (number_no_newline t z Ht). constructor. exact Ht.
  - intros body s Hs. rewrite (quotes_no_newline _ _ Hs). constructor. exact Hs.
  - intros w Hw. rewrite !reindent_app. apply VT_no_elements, reindent_ws, Hw.
  - intros w body l Hw _ Hb. rewrite !reindent_app. apply (VT_array (reindent w)); auto using reindent_ws.
  - intros w Hw. rewrite !reindent_app. apply VT_no_members, reindent_ws, Hw.
  - intros w body l Hw _ Hb Hn. rewrite !reindent_app. apply (VT_object (reindent w)); auto using reindent_ws.
  - intros t v w _ Ht Hw. rewrite reindent_app. apply LT_last; auto using reindent_ws.
  - intros t v w w' body l _ Ht Hw Hw' _ Hb. rewrite !reindent_app. apply LT_more; auto using reindent_ws.
  - intros kb k w1 w2 t v w3 Hk Hw1 Hw2 _ Ht Hw3. rewrite !reindent_app, (quotes_no_newline _ _ Hk).
    apply MT_last; auto using reindent_ws.
  - intros kb k w1 w2 t v w3 w4 body l Hk Hw1 Hw2 _ Ht Hw3 Hw4 _ Hb. rewrite !reindent_app, (quotes_no_newline _ _ Hk).
    apply MT_more; auto using reindent_ws.
Qed.

End reindent.

(** ** Nested documents *)

Lemma splitLines_some p : exists line lines, splitLines (p +:+ "}") = line :: lines.
Proof.
  destruct p as [|ch p]; [eexists _, _; reflexivity|]. change (String ch p +:+ "}") with (String ch (p +:+ "}")). cbn [splitLines].
  case_bool_decide; [eauto|]. destruct (splitLines (p +:+ "}")); eauto.
Qed.

Lemma concat_lines n p : String.concat (newline_text +:+ indent n) (splitLines (p +:+ "}")) = reindent n (p +:+ "}").
Proof.
  induction p as [|ch p IH]; [reflexivity|]. change (String ch p +:+ "}") with (String ch (p +:+ "}")).
  cbn [splitLines reindent]. destruct (splitLines_some p) as (line & lines & E). rewrite <- IH, E. case_bool_decide.
  - cbn [String.concat]. reflexivity.
  - destruct lines; reflexivity.
Qed.

Lemma pop_line_ends_line p : pop_line_ends (p +:+ "}" +:+ newline_text) = p +:+ "}".
Proof.
  induction p as [|ch p IH]; [reflexivity|].
  change (String ch p +:+ "}" +:+ newline_text) with (String ch (p +:+ "}" +:+ newline_text)). cbn [pop_line_ends]. rewrite IH.
  destruct p; reflexivity.
Qed.

Lemma object_value_ends t l : value_text t (JsonObject l) -> exists p, t = p +:+ "}".
Proof.
  intros H. remember (JsonObject l) as v eqn:Hv. destruct H; try discriminate Hv.
  - exists ("{" +:+ w). rewrite app_assoc_r. reflexivity.
  - exists ("{" +:+ w +:+ body). rewrite !app_assoc_r. reflexivity.
Qed.

Lemma nested_field n name t l comma : element_text false t (JsonObject l) ->
  field_text comma (nestedJsonField n name t comma) name (JsonObject l).
Proof.
  intros (w & tv & Hw & -> & Hv). destruct (object_value_ends _ _ Hv) as (p & ->).
  exists n, (reindent n w), (reindent n (p +:+ "}")). split; [apply reindent_ws, Hw|].
  split; [|apply (proj1 (reindent_values n)), Hv]. unfold nestedJsonField, finishField at 1.
  change (EmptyString +:+ newline_text) with newline_text.
  rewrite (app_assoc_r p), <- (app_assoc_r w p), pop_line_ends_line, concat_lines, !reindent_app, !app_assoc_r. reflexivity.
Qed.
