(* ===== verification/TraceDocument.v ===== *)
(** * The JSON documents of traces

    The JSON value that describes a trace, or the result of a multi-process run,
    and the proof that the text of the writers of [TraceJson] is a text of it. *)

From S2P Require Import Prelude Words Strings Text ALU Memory ISA CPUState Trace TraceDetail CPU Process ProcTable Lifecycle Runner Verifier Json TraceJson TraceJsonDiff JsonGrammar JsonText.
Open Scope Z_scope.

(** ** Fields *)

Abbreviation JsonField := (string * JsonValue)%type.

Definition str (name value : string) : JsonField := (name, JsonString value).
Definition num (name : string) (value : Z) : JsonField := (name, JsonNumber value).
Definition flag (name : string) (value : bool) : JsonField := (name, JsonBoolean value).
Definition arr (name : string) (values : list JsonValue) : JsonField := (name, JsonArray values).
Definition json_of (fields : list JsonField) : JsonValue := JsonObject (object_of [] fields).
Definition obj (name : string) (fields : list JsonField) : JsonField := (name, json_of fields).

(** ** One trace *)

Definition register_field (state : CPUState) (reg : RegisterName) : outcome JsonField :=
  name ← registerNameToString reg;
  value ← RegisterFile_get (registers state) reg;
  mret (num name value).

Definition state_value (state : CPUState) : outcome (list JsonField) :=
  registers ← mapM (register_field state) register_names;
  mret [num "pc" (pc state); num "sp" (sp state); str "privilege" (privilegeLevelToString (privilege_level state));
        flag "halted" (halted state); flag "has_error" (has_error state); str "error_message" (error_message state);
        obj "registers" registers;
        obj "flags" [flag "zero" (Flags_zero (flags state)); flag "sign" (Flags_sign (flags state));
                     flag "carry" (Flags_carry (flags state)); flag "overflow" (Flags_overflow (flags state));
                     num "raw" (flags state)]].

Definition event_fields (event : TraceEvent) (index : Z) : outcome (list JsonField) :=
  a ← TraceEvent_analyze event;
  instruction ← Instruction_toString (ev_instruction event);
  state_before ← state_value (ev_before event);
  state_after ← state_value (ev_after event);
  compact ← toCompactString event a;
  full ← toFullString event a;
  mret [num "index" index;
        num "pc_before" (pc (ev_before event)); num "pc_after" (pc (ev_after event));
        num "sp_before" (sp (ev_before event)); num "sp_after" (sp (ev_after event));
        str "instruction" instruction;
        obj "state_before" state_before; obj "state_after" state_after;
        arr "register_changes"
          ((fun '(name, before, after) => json_of [str "name" name; num "before" before; num "after" after]) <$> ta_changed_registers a);
        arr "flag_changes"
          ((fun '(name, before, after) => json_of [str "name" name; flag "before" before; flag "after" after]) <$> ta_changed_flags a);
        arr "memory_changes"
          ((fun '(address, before, after) => json_of [num "address" (Z.of_nat address); num "before" before; num "after" after])
             <$> ta_changed_memory a);
        str "stage" (ta_stage a); str "action" (ta_action a); str "datapath" (joinDatapathNodes (ta_datapath_nodes a));
        str "alu_detail" (aluDetailString (ta_alu a)); str "memory_detail" (memoryDetailString (ta_memory a));
        str "stack_detail" (stackDetailString (ta_stack a));
        str "control_flow_detail" (controlFlowDetailString (ta_control_flow a));
        str "compact" compact; str "full" full;
        flag "has_error" (TraceEvent_hasError event); str "error" (ev_error_message event)].

Definition event_value (event : TraceEvent) (index : nat) : outcome JsonValue :=
  json_of <$> event_fields event (Z.of_nat index).

Definition trace_fields (events : list TraceEvent) (metadata : TraceJsonMetadata) : outcome (list JsonField) :=
  values ← values_from event_value 0 events;
  mret [str "schema" "zero_cpu_trace"; num "schema_version" kTraceSchemaVersion;
        str "producer" (tj_producer metadata); str "producer_version" (tj_producer_version metadata);
        str "mode" (tj_execution_mode metadata); str "loaded_path" (tj_loaded_path metadata);
        num "event_count" (Z.of_nat (length events)); arr "events" values].

(** ** A multi-process run *)

Definition record_value (record : ProcessExecutionTraceRecord) (index : nat) : outcome JsonValue :=
  event ← event_fields (et_event record) (Z.of_nat index);
  mret (json_of [num "lifecycle_step" (et_lifecycle_step record); num "pid" (et_pid record); obj "event" event]).

Definition optional_fields (has name : string) (value : option Z) : list JsonField :=
  [flag has (is_some value); num name (default 0 value)].

Definition interrupt_fields (record : ProcessSoftwareInterruptTraceRecord) : list JsonField :=
  let value := obs_result (si_observation record) in
  [num "lifecycle_step" (si_lifecycle_step record); num "pid" (si_pid record); num "vector" (obs_vector (si_observation record))]
  ++ optional_fields "has_service_number" "service_number" (service_number value)
  ++ optional_fields "has_argument0" "argument0" (argument0 value)
  ++ optional_fields "has_argument1" "argument1" (argument1 value)
  ++ optional_fields "has_status" "status" (status value)
  ++ optional_fields "has_result" "result_value" (result_value value)
  ++ [str "disposition" (softwareInterruptDispositionToString (disposition value)); num "exit_code" (exit_code value)].

Definition switch_fields (record : ProcessContextSwitchTraceRecord) : list JsonField :=
  [num "lifecycle_step" (cs_lifecycle_step record); num "from_pid" (cs_from_pid record); num "to_pid" (cs_to_pid record);
   flag "preempted" (cs_preempted record); flag "caused_by_termination" (cs_caused_by_termination record)].

Definition process_fields (process : ProcessRunSummary) : list JsonField :=
  [num "pid" (rs_pid process); str "source_name" (rs_source_name process);
   str "state" (processStateToString (rs_state process)); flag "has_exit_code" (rs_has_exit_code process);
   num "exit_code" (rs_exit_code process);
   str "termination_kind" (processTerminationKindToString (rs_termination_kind process));
   str "termination_message" (rs_termination_message process);
   num "pc" (ctx_pc (rs_final_context process)); num "sp" (ctx_sp (rs_final_context process));
   flag "has_executable_image" (rs_has_executable_image process); num "code_end_exclusive" (rs_code_end_exclusive process);
   num "data_base" (rs_data_base process); num "data_size" (rs_data_size process)].

Definition invariant_fields (report : MultiProcessInvariantReport) : list JsonField :=
  [flag "passed" (MultiProcessInvariantReport_passed report);
   num "violation_count" (Z.of_nat (MultiProcessInvariantReport_violationCount report));
   arr "violations"
     ((fun violation => json_of [str "code" (viol_code violation); str "message" (viol_message violation);
                                 num "lifecycle_step" (viol_lifecycle_step violation); num "pid" (viol_pid violation)])
        <$> violations report)].

(** The run without software interrupts has no fields for them. *)
Definition interrupts_fields (result : MultiProcessRunResult) : list JsonField :=
  if bool_decide (software_interrupts result = []) then []
  else [num "software_interrupt_event_count" (Z.of_nat (length (software_interrupts result)));
        arr "software_interrupts" ((fun record => json_of (interrupt_fields record)) <$> software_interrupts result)].

Definition run_fields (result : MultiProcessRunResult) (metadata : MultiProcessTraceJsonMetadata) : outcome (list JsonField) :=
  report ← verify result;
  execution ← values_from record_value 0 (execution_trace result);
  mret ([str "schema" "zero_cpu_multiprocess_trace"; num "schema_version" kMultiSchemaVersion;
         str "producer" (mj_producer metadata); str "producer_version" (mj_producer_version metadata);
         str "mode" (mj_execution_mode metadata); str "runtime_state" (processRuntimeStateToString (runtime_state result));
         flag "step_limit_reached" (step_limit_reached result); num "lifecycle_steps" (lifecycle_steps result);
         num "process_count" (process_count result); num "termination_count" (termination_count result);
         num "fault_count" (fault_count result); num "preemption_count" (preemption_count result);
         num "context_switch_count" (context_switch_count result); obj "invariants" (invariant_fields report);
         num "execution_event_count" (Z.of_nat (length (execution_trace result))); arr "execution_trace" execution]
        ++ interrupts_fields result
        ++ [num "context_switch_event_count" (Z.of_nat (length (context_switches result)));
            arr "context_switches" ((fun record => json_of (switch_fields record)) <$> context_switches result);
            arr "processes" ((fun process => json_of (process_fields process)) <$> run_processes result)]).

(** ** The numbers that 64 bits with a sign hold *)

Record state_fits (s : CPUState) : Prop := {
  sf_registers : Forall is_i64 (registers s);
  sf_memory : Forall is_i64 (memory s);
  sf_size : Z.of_nat (length (memory s)) < 2 ^ 63;
  sf_pc : is_i64 (pc s);
  sf_sp : is_i64 (sp s);
  sf_flags : is_i64 (flags s);
}.

Definition event_fits (e : TraceEvent) : Prop := state_fits (ev_before e) /\ state_fits (ev_after e).

Definition option_fits (o : option Z) : Prop := is_i64 (default 0 o).

Definition interrupt_fits (record : ProcessSoftwareInterruptTraceRecord) : Prop :=
  let value := obs_result (si_observation record) in
  is_i64 (si_lifecycle_step record) /\ is_i64 (si_pid record) /\ is_i64 (obs_vector (si_observation record)) /\
  option_fits (service_number value) /\ option_fits (argument0 value) /\ option_fits (argument1 value) /\
  option_fits (status value) /\ option_fits (result_value value) /\ is_i64 (exit_code value).

Definition switch_fits (record : ProcessContextSwitchTraceRecord) : Prop :=
  is_i64 (cs_lifecycle_step record) /\ is_i64 (cs_from_pid record) /\ is_i64 (cs_to_pid record).

Definition summary_fits (process : ProcessRunSummary) : Prop :=
  is_i64 (rs_pid process) /\ is_i64 (rs_exit_code process) /\ is_i64 (ctx_pc (rs_final_context process)) /\
  is_i64 (ctx_sp (rs_final_context process)) /\ is_i64 (rs_code_end_exclusive process) /\ is_i64 (rs_data_base process) /\
  is_i64 (rs_data_size process).

Definition record_fits (record : ProcessExecutionTraceRecord) : Prop :=
  is_i64 (et_lifecycle_step record) /\ is_i64 (et_pid record) /\ event_fits (et_event record).

Definition violation_fits (v : MultiProcessInvariantViolation) : Prop := is_i64 (viol_lifecycle_step v) /\ is_i64 (viol_pid v).

Definition short {A} (l : list A) : Prop := Z.of_nat (length l) < 2 ^ 63.

Record run_fits (result : MultiProcessRunResult) : Prop := {
  rf_steps : is_i64 (lifecycle_steps result);
  rf_processes_count : is_i64 (process_count result);
  rf_terminations : is_i64 (termination_count result);
  rf_faults : is_i64 (fault_count result);
  rf_preemptions : is_i64 (preemption_count result);
  rf_switch_count : is_i64 (context_switch_count result);
  rf_report : forall report, verify result = Ret report -> short (violations report) /\ Forall violation_fits (violations report);
  rf_trace : short (execution_trace result) /\ Forall record_fits (execution_trace result);
  rf_interrupts : short (software_interrupts result) /\ Forall interrupt_fits (software_interrupts result);
  rf_switches : short (context_switches result) /\ Forall switch_fits (context_switches result);
  rf_processes : Forall summary_fits (run_processes result);
}.

(** ** The text of a state *)

Ltac fits := first [assumption | unfold kTraceSchemaVersion, kMultiSchemaVersion; words].

(** One field of an object. *)
Ltac one_field := first
  [ assumption | apply string_field | apply bool_field | apply null_field | apply size_field; fits | apply int64_field; fits
  | apply uint64_field; fits ].

Ltac distinct_names := apply (bool_decide_unpack _); reflexivity.

(** All the fields of an object, the last one with the closing bracket. *)
Ltac object_fields := repeat (apply OR_more; [one_field|]); apply OR_last; one_field.

Lemma at_fits l i : Forall is_i64 l -> is_i64 (at_ l i).
Proof.
  intros Hl. unfold at_. destruct (l !! i) as [x|] eqn:E; [|cbn; words]. cbn. rewrite Forall_lookup in Hl. eauto.
Qed.

(** The register fields: [json_items_from] writes fields as well as elements. *)
Lemma register_texts n (state : CPUState) (regs : list RegisterName) tail m : Forall is_i64 (registers state) -> regs <> [] ->
  forall index t,
  json_items_from (fun reg _ comma => name ← registerNameToString reg; value ← RegisterFile_get (registers state) reg;
                                      mret (int64Field n name value comma)) index regs = Ret t ->
  exists l, mapM (register_field state) regs = Ret l /\ object_rest tail (t +:+ indent m +:+ "}" +:+ tail) l.
Proof.
  intros Hf. induction regs as [|reg regs IH]; intros Hne index t E; [contradiction|]. clear Hne.
  cbn [json_items_from] in E. apply bind_ret_inv in E as (t1 & E1 & E). apply bind_ret_inv in E as (t2 & E2 & E). injection E as <-.
  apply bind_ret_inv in E1 as (name & Hname & E1). apply bind_ret_inv in E1 as (value & Hvalue & E1). injection E1 as <-.
  assert (Hv : is_i64 value).
  { unfold RegisterFile_get in Hvalue. apply bind_ret_inv in Hvalue as (i & _ & Hvalue).
    destruct (registers state !! i) as [x|] eqn:Hx; [|discriminate Hvalue]. injection Hvalue as <-.
    rewrite Forall_lookup in Hf. eauto. }
  assert (Hfield : register_field state reg = Ret (num name value)).
  { unfold register_field. rewrite Hname, bind_Ret, Hvalue. reflexivity. }
  destruct regs as [|reg' regs].
  - injection E2 as <-. exists [num name value]. cbn [mapM]. rewrite Hfield. split; [reflexivity|].
    rewrite append_nil. apply OR_last, int64_field, Hv.
  - destruct (IH ltac:(discriminate) _ _ E2) as (l & El & Hl). exists (num name value :: l). cbn [mapM] in *. rewrite Hfield, bind_Ret.
    rewrite El. split; [reflexivity|]. rewrite app_assoc_r. apply OR_more; [apply int64_field, Hv | exact Hl].
Qed.

(** A state is a field of its event. *)
Lemma registers_text state n comma t : state_fits state -> appendRegisters state n comma = Ret t ->
  exists l, mapM (register_field state) register_names = Ret l /\ field_text comma t "registers" (json_of l).
Proof.
  intros Hf E. unfold appendRegisters in E. apply bind_ret_inv in E as (fields & E & Et). injection Et as <-.
  destruct (register_texts (n + 2) state register_names (finishField comma) n (sf_registers _ Hf) ltac:(discriminate) _ _ E) as (l & Hl & Hr).
  exists l. split; [exact Hl|]. apply object_field; [exact Hr|].
  assert (Hnames : mapM registerNameToString register_names = Ret l.*1).
  { clear - Hl. revert l Hl. generalize register_names. intros regs. induction regs as [|reg regs IH]; intros l Hl; cbn [mapM] in *.
    - injection Hl as <-. reflexivity.
    - apply bind_ret_inv in Hl as (f & Hf & Hl). apply bind_ret_inv in Hl as (l' & Hl' & Hl). injection Hl as <-.
      unfold register_field in Hf. apply bind_ret_inv in Hf as (name & Hname & Hf). apply bind_ret_inv in Hf as (value & _ & Hf).
      injection Hf as <-. rewrite Hname, bind_Ret, (IH _ Hl'). reflexivity. }
  injection Hnames as <-. distinct_names.
Qed.

Lemma flags_text state n comma : state_fits state ->
  field_text comma (appendFlags state n comma) "flags"
    (json_of [flag "zero" (Flags_zero (flags state)); flag "sign" (Flags_sign (flags state));
              flag "carry" (Flags_carry (flags state)); flag "overflow" (Flags_overflow (flags state)); num "raw" (flags state)]).
Proof.
  intros [_ _ _ _ _ Hflags]. unfold appendFlags. apply object_field; [object_fields | distinct_names].
Qed.

Lemma state_text name state n comma t : state_fits state -> appendState name state n comma = Ret t ->
  exists l, state_value state = Ret l /\ field_text comma t name (json_of l).
Proof.
  intros Hf E. unfold appendState in E. apply bind_ret_inv in E as (regs & E & Et). injection Et as <-.
  destruct (registers_text _ _ _ _ Hf E) as (l & Hl & Hr). unfold state_value. rewrite Hl, bind_Ret. eexists. split; [reflexivity|].
  pose proof (flags_text state (n + 2) false Hf) as Hflags. destruct Hf as [_ _ _ Hpc Hsp _].
  apply object_field; [object_fields | distinct_names].
Qed.

(** ** The text of an event *)

Lemma analyzed e a : TraceEvent_analyze e = Ret a ->
  ta_changed_registers a = analyzeRegisterChanges e /\ ta_changed_memory a = analyzeMemoryChanges e.
Proof.
  unfold TraceEvent_analyze. destruct (analyzeVisualMetadata e _ _ _) as [[stage action] nodes]. intros E.
  do 4 (apply bind_ret_inv in E as (? & _ & E)). injection E as <-. auto.
Qed.

Lemma register_changes_fit e : event_fits e ->
  Forall (fun '(_, before, after) => is_i64 before /\ is_i64 after) (analyzeRegisterChanges e).
Proof.
  intros [Hb Ha]. apply Forall_forall. intros [[name before] after] Hin. unfold analyzeRegisterChanges in Hin.
  apply list_elem_of_omap in Hin as ([i nm] & _ & E). cbv zeta in E. destruct (negb _); [|discriminate E]. injection E as _ <- <-.
  split; apply at_fits; apply sf_registers; assumption.
Qed.

Lemma memory_changes_fit e : event_fits e ->
  Forall (fun '(address, before, after) => is_i64 (Z.of_nat address) /\ is_i64 before /\ is_i64 after) (analyzeMemoryChanges e).
Proof.
  intros [Hb Ha]. apply Forall_forall. intros [[address before] after] Hin. unfold analyzeMemoryChanges in Hin.
  apply list_elem_of_omap in Hin as (i & Hi & E). cbv zeta in E. destruct (negb _); [|discriminate E]. injection E as <- <- <-.
  apply elem_of_seq in Hi. pose proof (sf_size _ Hb).
  split; [words | split; apply at_fits; apply sf_memory; assumption].
Qed.

Lemma register_changes_text n comma changes : Forall (fun '(_, before, after) => is_i64 before /\ is_i64 after) changes ->
  field_text comma (appendRegisterChanges changes n comma) "register_changes"
    (JsonArray ((fun '(name, before, after) => json_of [str "name" name; num "before" before; num "after" after]) <$> changes)).
Proof.
  intros Hc. rewrite Forall_forall in Hc. apply array_field. intros [[name before] after] c Hin. specialize (Hc _ Hin) as [Hb Ha].
  apply object_element; [object_fields | distinct_names].
Qed.

Lemma flag_changes_text n comma changes :
  field_text comma (appendFlagChanges changes n comma) "flag_changes"
    (JsonArray ((fun '(name, before, after) => json_of [str "name" name; flag "before" before; flag "after" after]) <$> changes)).
Proof.
  apply array_field. intros [[name before] after] c _. apply object_element; [object_fields | distinct_names].
Qed.

Lemma memory_changes_text n comma changes :
  Forall (fun '(address, before, after) => is_i64 (Z.of_nat address) /\ is_i64 before /\ is_i64 after) changes ->
  field_text comma (appendMemoryChanges changes n comma) "memory_changes"
    (JsonArray ((fun '(address, before, after) => json_of [num "address" (Z.of_nat address); num "before" before; num "after" after])
                  <$> changes)).
Proof.
  intros Hc. rewrite Forall_forall in Hc. apply array_field. intros [[address before] after] c Hin.
  specialize (Hc _ Hin) as (Hx & Hb & Ha). apply object_element; [object_fields | distinct_names].
Qed.

Lemma event_text e index n comma t : event_fits e -> is_i64 index -> appendEvent e index n comma = Ret t ->
  exists l, event_fields e index = Ret l /\ element_text comma t (json_of l).
Proof.
  intros He Hindex E. unfold appendEvent in E. apply bind_ret_inv in E as (a & Ha & E). cbv zeta in E.
  apply bind_ret_inv in E as (instruction & Hi & E). apply bind_ret_inv in E as (before & Hbefore & E).
  apply bind_ret_inv in E as (after & Hafter & E). apply bind_ret_inv in E as (compact & Hcompact & E).
  apply bind_ret_inv in E as (full & Hfull & E). injection E as <-.
  destruct (state_text _ _ _ _ _ (proj1 He) Hbefore) as (lb & Hlb & Hb).
  destruct (state_text _ _ _ _ _ (proj2 He) Hafter) as (la & Hla & Hl).
  unfold event_fields. rewrite Ha, bind_Ret, Hi, bind_Ret, Hlb, bind_Ret, Hla, bind_Ret, Hcompact, bind_Ret, Hfull, bind_Ret.
  eexists. split; [reflexivity|]. destruct (analyzed _ _ Ha) as [Er Em]. rewrite Er, Em.
  pose proof (register_changes_text (n + 2) true _ (register_changes_fit _ He)) as Hregs.
  pose proof (flag_changes_text (n + 2) true (ta_changed_flags a)) as Hflags.
  pose proof (memory_changes_text (n + 2) true _ (memory_changes_fit _ He)) as Hmem.
  destruct He as [[_ _ _ Hpc Hsp _] [_ _ _ Hpc' Hsp' _]].
  apply object_element; [object_fields | distinct_names].
Qed.

(** ** The text of a trace *)

Lemma document_value t l : object_rest newline_text t l -> NoDup l.*1 ->
  document_text ("{" +:+ newline_text +:+ t) (json_of l).
Proof.
  intros H Hn. destruct (object_text _ _ _ H Hn) as (tv & E & Hv). exists EmptyString, tv, newline_text.
  rewrite E. repeat split; exact Hv.
Qed.

(** The last field of a document is an array. *)
Lemma last_array tail n name t l :
  field_text false (open_array n name +:+ t +:+ close_array n false) name (JsonArray l) ->
  object_rest tail (open_array n name +:+ t +:+ close_array n false +:+ "}" +:+ tail) [arr name l].
Proof.
  intros H. pose proof (OR_last tail 0 _ _ _ H) as Hr. rewrite !app_assoc_r in Hr. exact Hr.
Qed.

Lemma trace_text events md t : Forall event_fits events -> short events -> TraceJsonWriter_toJson events md = Ret t ->
  exists l, trace_fields events md = Ret l /\ document_text t (json_of l).
Proof.
  intros Hev Hn E. unfold TraceJsonWriter_toJson in E. apply bind_ret_inv in E as (items & E & Et). injection Et as <-.
  destruct (array_field_from 2 "events" (fun event index comma => appendEvent event (Z.of_nat index) 4 comma) event_value events items false)
    as (vs & Hvs & Hf); [ | exact Hn | exact E |].
  - eapply Forall_impl; [exact Hev|]. intros e He index comma t Hindex Et.
    destruct (event_text _ _ _ _ _ He Hindex Et) as (l & Hl & Hv). unfold event_value. rewrite Hl. eexists. split; [reflexivity | exact Hv].
  - unfold trace_fields. rewrite Hvs, bind_Ret. eexists. split; [reflexivity|]. unfold short in Hn.
    apply document_value; [|distinct_names].
    repeat (apply OR_more; [one_field|]). apply last_array, Hf.
Qed.

(** ** The text of a run *)

Lemma report_text report : short (violations report) -> Forall violation_fits (violations report) ->
  field_text true (appendInvariantReport report) "invariants" (json_of (invariant_fields report)).
Proof.
  intros Hn Hv. rewrite Forall_forall in Hv. unfold short in Hn. unfold appendInvariantReport.
  assert (Ha : field_text false
    (open_array 4 "violations" +:+ json_items
        (fun violation comma =>
           open_element 6
           +:+ stringField 8 "code" (viol_code violation) true
           +:+ stringField 8 "message" (viol_message violation) true
           +:+ sizeField 8 "lifecycle_step" (viol_lifecycle_step violation) true
           +:+ sizeField 8 "pid" (viol_pid violation) false
           +:+ close_object 6 comma) (violations report) +:+ close_array 4 false) "violations"
    (JsonArray ((fun violation => json_of [str "code" (viol_code violation); str "message" (viol_message violation);
                                 num "lifecycle_step" (viol_lifecycle_step violation); num "pid" (viol_pid violation)])
        <$> violations report))).
  { apply array_field. intros v c Hin. specialize (Hv _ Hin) as [Hstep Hpid]. apply object_element; [object_fields | distinct_names]. }
  assert (Hcount : is_i64 (Z.of_nat (MultiProcessInvariantReport_violationCount report)))
    by (unfold MultiProcessInvariantReport_violationCount; words).
  apply object_field; [|distinct_names].
  apply OR_more; [one_field|]. apply OR_more; [one_field|].
  pose proof (OR_last (finishField true) 2 _ _ _ Ha) as Hr. rewrite !app_assoc_r in Hr. exact Hr.
Qed.

Lemma record_text record index comma t : record_fits record -> is_i64 (Z.of_nat index) ->
  (event ← eventToJson (et_event record) (Z.of_nat index);
   mret (open_element 4
         +:+ sizeField 6 "lifecycle_step" (et_lifecycle_step record) true
         +:+ sizeField 6 "pid" (et_pid record) true
         +:+ nestedJsonField 6 "event" event false
         +:+ close_object 4 comma)) = Ret t ->
  exists v, record_value record index = Ret v /\ element_text comma t v.
Proof.
  intros (Hstep & Hpid & He) Hindex E. apply bind_ret_inv in E as (event & E & Et). injection Et as <-. unfold eventToJson in E.
  destruct (event_text _ _ _ _ _ He Hindex E) as (l & Hl & Hv). apply (nested_field 6 "event" event _ false) in Hv.
  unfold record_value. rewrite Hl, bind_Ret. eexists. split; [reflexivity|]. apply object_element; [object_fields | distinct_names].
Qed.

Lemma execution_text result t : short (execution_trace result) -> Forall record_fits (execution_trace result) ->
  appendExecutionTrace result = Ret t ->
  exists vs, values_from record_value 0 (execution_trace result) = Ret vs /\
    open_fields t [num "execution_event_count" (Z.of_nat (length (execution_trace result))); arr "execution_trace" vs].
Proof.
  intros Hn Hr E. unfold appendExecutionTrace in E. apply bind_ret_inv in E as (items & E & Et). injection Et as <-.
  destruct (array_field_from 2 "execution_trace" (fun record index comma =>
       event ← eventToJson (et_event record) (Z.of_nat index);
       mret (open_element 4
             +:+ sizeField 6 "lifecycle_step" (et_lifecycle_step record) true
             +:+ sizeField 6 "pid" (et_pid record) true
             +:+ nestedJsonField 6 "event" event false
             +:+ close_object 4 comma)) record_value (execution_trace result) items true) as (vs & Hvs & Hf); [ | exact Hn | exact E |].
  - eapply Forall_impl; [exact Hr|]. intros record Hrec index comma t Hindex Et. exact (record_text _ _ _ _ Hrec Hindex Et).
  - exists vs. split; [exact Hvs|]. unfold short in Hn. apply OF_more; [one_field | apply open_field, Hf].
Qed.

Lemma optional_text has name value t l : option_fits value ->
  open_fields t l -> open_fields (optionalInt64Fields has name value +:+ t) (optional_fields has name value ++ l).
Proof.
  intros Hv H. unfold option_fits in Hv. apply open_fields_app; [|exact H]. apply OF_more; [one_field | apply open_field; one_field].
Qed.

Lemma optional_rest tail has name value t l : option_fits value ->
  object_rest tail t l -> object_rest tail (optionalInt64Fields has name value +:+ t) (optional_fields has name value ++ l).
Proof.
  intros Hv. unfold option_fits in Hv. apply open_fields_rest, OF_more; [one_field | apply open_field; one_field].
Qed.

Lemma interrupts_text result : short (software_interrupts result) -> Forall interrupt_fits (software_interrupts result) ->
  open_fields (appendSoftwareInterrupts result) (interrupts_fields result).
Proof.
  intros Hn Hi. unfold short in Hn. rewrite Forall_forall in Hi. unfold appendSoftwareInterrupts, interrupts_fields.
  case_bool_decide; [constructor|]. apply OF_more; [one_field|]. apply open_field.
  apply (array_field 2 "software_interrupts" _ (fun record => json_of (interrupt_fields record))). intros record c Hin.
  destruct (Hi _ Hin) as (H1 & H2 & H3 & H4 & H5 & H6 & H7 & H8 & H9). apply object_element; [|distinct_names].
  unfold interrupt_fields. do 3 (apply OR_more; [one_field|]). do 5 (apply optional_rest; [assumption|]). object_fields.
Qed.

Lemma switches_text result : short (context_switches result) -> Forall switch_fits (context_switches result) ->
  open_fields (appendContextSwitches result)
    [num "context_switch_event_count" (Z.of_nat (length (context_switches result)));
     arr "context_switches" ((fun record => json_of (switch_fields record)) <$> context_switches result)].
Proof.
  intros Hn Hs. unfold short in Hn. rewrite Forall_forall in Hs. unfold appendContextSwitches. apply OF_more; [one_field|]. apply open_field.
  apply (array_field 2 "context_switches" _ (fun record => json_of (switch_fields record))). intros record c Hin.
  destruct (Hs _ Hin) as (H1 & H2 & H3). apply object_element; [object_fields | distinct_names].
Qed.

Lemma processes_text tail result : Forall summary_fits (run_processes result) ->
  object_rest tail (appendProcesses result +:+ "}" +:+ tail)
    [arr "processes" ((fun process => json_of (process_fields process)) <$> run_processes result)].
Proof.
  intros Hp. rewrite Forall_forall in Hp. unfold appendProcesses. rewrite !app_assoc_r. apply last_array.
  apply (array_field 2 "processes" _ (fun process => json_of (process_fields process))). intros process c Hin.
  destruct (Hp _ Hin) as (H1 & H2 & H3 & H4 & H5 & H6 & H7). apply object_element; [object_fields | distinct_names].
Qed.

Lemma run_text result md t : run_fits result -> MultiProcessTraceJsonWriter_toJson result md = Ret t ->
  exists l, run_fields result md = Ret l /\ NoDup l.*1 /\ document_text t (json_of l).
Proof.
  intros Hf E. unfold MultiProcessTraceJsonWriter_toJson in E. apply bind_ret_inv in E as (report & Hreport & E).
  apply bind_ret_inv in E as (execution & E & Et). injection Et as <-.
  destruct (rf_trace _ Hf) as [Hn Hr]. destruct (execution_text _ _ Hn Hr E) as (vs & Hvs & Hexec).
  destruct (rf_report _ Hf _ Hreport) as [Hvn Hv]. pose proof (report_text _ Hvn Hv) as Hinv.
  pose proof (interrupts_text _ (proj1 (rf_interrupts _ Hf)) (proj2 (rf_interrupts _ Hf))) as Hint.
  pose proof (switches_text _ (proj1 (rf_switches _ Hf)) (proj2 (rf_switches _ Hf))) as Hsw.
  pose proof (processes_text newline_text _ (rf_processes _ Hf)) as Hproc.
  destruct Hf as [H1 H2 H3 H4 H5 H6 _ _ _ _ _].
  unfold run_fields. rewrite Hreport, bind_Ret, Hvs, bind_Ret. eexists. split; [reflexivity|].
  assert (Hnames : (interrupts_fields result).*1 = [] \/
                   (interrupts_fields result).*1 = ["software_interrupt_event_count"; "software_interrupts"]).
  { unfold interrupts_fields. case_bool_decide; auto. }
  match goal with |- NoDup ?l.*1 /\ _ => assert (Hdist : NoDup l.*1) end.
  { rewrite !fmap_app. destruct Hnames as [-> | ->]; distinct_names. }
  split; [exact Hdist|]. apply document_value; [|exact Hdist].
  do 14 (apply OR_more; [one_field|]). apply (open_fields_rest _ _ _ _ _ Hexec), (open_fields_rest _ _ _ _ _ Hint).
  apply (open_fields_rest _ _ _ _ _ Hsw), Hproc.
Qed.
