(* ===== verification/TraceJsonLaws.v ===== *)
(** * Traces as JSON: what is written, read and compared

    The values that the parser gives, the number of differences of two values,
    which is zero only for equal ones, and the properties: a written trace is read
    as its document, and comparing two traces decides whether their documents are
    equal. *)

From S2P Require Import Prelude Words Strings Text Memory CPUState Trace ISA TraceDetail CPU Process Lifecycle Runner Verifier Json TraceJson TraceJsonDiff JsonGrammar JsonText TraceDocument.
From Stdlib Require Import Ascii Sorted.
From stdpp Require Import sorting.
Open Scope Z_scope.

(** ** Induction on values *)

Section json_value_induction.
Context (P : JsonValue -> Prop).
Hypotheses
  (Pnull : P JsonNull) (Pboolean : forall b, P (JsonBoolean b)) (Pnumber : forall z, P (JsonNumber z))
  (Pstring : forall s, P (JsonString s)) (Parray : forall l, Forall P l -> P (JsonArray l))
  (Pobject : forall m, Forall (fun kv => P kv.2) m -> P (JsonObject m)).

Definition json_value_ind : forall v, P v :=
  fix value v : P v :=
    match v with
    | JsonNull => Pnull
    | JsonBoolean b => Pboolean b
    | JsonNumber z => Pnumber z
    | JsonString s => Pstring s
    | JsonArray l =>
        Parray l ((fix elements l : Forall P l :=
                     match l with [] => Forall_nil_2 _ | v :: l => Forall_cons_2 _ _ _ (value v) (elements l) end) l)
    | JsonObject m =>
        Pobject m ((fix members m : Forall (fun kv => P kv.2) m :=
                      match m with
                      | [] => Forall_nil_2 _
                      | kv :: m => Forall_cons_2 (fun kv => P kv.2) _ _ (let '(k, v) as kv := kv return P kv.2 in value v) (members m)
                      end) m)
    end.
End json_value_induction.

(** ** Maps in the order of their keys *)

Definition sorted_map (m : list (string * JsonValue)) : Prop := StronglySorted String.le m.*1 /\ NoDup m.*1.

Inductive wf_json : JsonValue -> Prop :=
  | WF_null : wf_json JsonNull
  | WF_boolean b : wf_json (JsonBoolean b)
  | WF_number z : wf_json (JsonNumber z)
  | WF_string s : wf_json (JsonString s)
  | WF_array l : Forall wf_json l -> wf_json (JsonArray l)
  | WF_object m : sorted_map m -> Forall (fun kv => wf_json kv.2) m -> wf_json (JsonObject m).

Lemma map_find_None k (m : list (string * JsonValue)) : map_find k m = None <-> k ∉ m.*1.
Proof.
  induction m as [|[k' v] m IH]; cbn; [split; [intros _ H; inversion H | reflexivity]|].
  rewrite not_elem_of_cons. case_bool_decide as E; [|rewrite IH]; split; intuition congruence.
Qed.

Lemma map_find_Some k v (m : list (string * JsonValue)) : NoDup m.*1 -> map_find k m = Some v <-> (k, v) ∈ m.
Proof.
  induction m as [|[k' v'] m IH]; cbn; [intros _; split; [discriminate | intros H; inversion H]|].
  rewrite NoDup_cons, elem_of_cons. intros [Hk Hm]. case_bool_decide as E.
  - subst k'. split; [intros [= ->]; auto|]. intros [[= ->] | Hin]; [reflexivity|]. contradiction Hk.
    apply list_elem_of_fmap. exists (k, v). auto.
  - rewrite IH by exact Hm. split; [auto|]. intros [[= -> _] | Hin]; [contradiction E; reflexivity | exact Hin].
Qed.

Lemma emplace_keys k v (m : list (string * JsonValue)) : map_find k m = None -> (map_emplace k v m).*1 ≡ₚ k :: m.*1.
Proof.
  induction m as [|[k' v'] m IH]; cbn [map_find map_emplace]; [reflexivity|]. intros Hk.
  case_bool_decide; [discriminate Hk|]. destruct (String.leb k k'); [reflexivity|]. cbn. rewrite IH by exact Hk. apply Permutation_swap.
Qed.

Lemma emplace_entries k v (m : list (string * JsonValue)) : map_find k m = None -> map_emplace k v m ≡ₚ (k, v) :: m.
Proof.
  induction m as [|[k' v'] m IH]; cbn [map_find map_emplace]; [reflexivity|]. intros Hk.
  case_bool_decide; [discriminate Hk|]. destruct (String.leb k k'); [reflexivity|]. rewrite IH by exact Hk. apply Permutation_swap.
Qed.

Lemma emplace_sorted k v (m : list (string * JsonValue)) : map_find k m = None -> sorted_map m -> sorted_map (map_emplace k v m).
Proof.
  intros Hk [Hs Hn]. split.
  2: { rewrite emplace_keys by exact Hk. apply NoDup_cons. split; [apply map_find_None, Hk | exact Hn]. }
  clear Hn. revert Hk Hs. induction m as [|[k' v'] m IH]; intros Hk Hs; cbn [map_find map_emplace] in *; [repeat constructor|].
  case_bool_decide as E; [discriminate Hk|]. cbn in Hs. inversion Hs as [|? ? Hs' Hall]; subst. destruct (String.leb k k') eqn:Hle.
  - cbn. constructor; [exact Hs|]. constructor; [unfold String.le; rewrite Hle; exact I|].
    eapply Forall_impl; [exact Hall|]. intros x Hx. etransitivity; [|exact Hx]. unfold String.le. rewrite Hle. exact I.
  - cbn. constructor; [apply IH; assumption|]. rewrite emplace_keys by exact Hk. constructor; [|exact Hall].
    destruct (total String.le k k') as [H | H]; [|exact H]. unfold String.le in H. rewrite Hle in H. destruct H.
Qed.

(** Maps with the same keys are equal when they find the same values. *)
Lemma same_keys_eq (m m' : list (string * JsonValue)) : NoDup m.*1 -> m.*1 = m'.*1 ->
  (forall k, map_find k m = map_find k m') -> m = m'.
Proof.
  revert m'. induction m as [|[k v] m IH]; intros [|[k' v'] m'] Hn Hk Hf; try discriminate Hk; [reflexivity|].
  cbn in Hk. injection Hk as <- Hk. f_equal.
  - specialize (Hf k). cbn in Hf. rewrite !bool_decide_eq_true_2 in Hf by reflexivity. congruence.
  - cbn in Hn. apply NoDup_cons in Hn as [Hkm Hn]. apply IH; try assumption. intros j. specialize (Hf j).
    cbn in Hf. case_bool_decide as E; [|exact Hf]. subst j. rewrite !(proj2 (map_find_None _ _)) by congruence. reflexivity.
Qed.

Lemma map_find_permutation k (m m' : list (string * JsonValue)) : NoDup m.*1 -> m ≡ₚ m' -> map_find k m = map_find k m'.
Proof.
  intros Hn Hp. assert (Hn' : NoDup m'.*1) by (rewrite <- Hp; exact Hn). destruct (map_find k m) as [v|] eqn:E.
  - apply map_find_Some in E; [|exact Hn]. rewrite Hp in E. symmetry. apply map_find_Some; assumption.
  - apply map_find_None in E. symmetry. apply map_find_None. rewrite <- Hp. exact E.
Qed.

(** Sorted maps are equal when they find the same values. *)
Lemma sorted_map_eq (m m' : list (string * JsonValue)) : sorted_map m -> sorted_map m' ->
  (forall k, map_find k m = map_find k m') -> m = m'.
Proof.
  intros [Hs Hn] [Hs' Hn'] Hf. apply same_keys_eq; [exact Hn | | exact Hf].
  assert (Hp : m ≡ₚ m'); [|apply (StronglySorted_unique String.le); [exact Hs | exact Hs' | rewrite Hp; reflexivity]].
  apply NoDup_Permutation; [eapply NoDup_fmap_1; exact Hn | eapply NoDup_fmap_1; exact Hn'|]. intros [k v].
  rewrite <- !map_find_Some by assumption. rewrite Hf. reflexivity.
Qed.

(** ** The values the parser gives *)

Lemma object_of_keep acc l : fresh_in acc l.*1 -> NoDup l.*1 -> sorted_map acc -> Forall (fun kv => wf_json kv.2) acc ->
  Forall (fun kv => wf_json kv.2) l -> sorted_map (object_of acc l) /\ Forall (fun kv => wf_json kv.2) (object_of acc l).
Proof.
  revert acc. induction l as [|[k v] l IH]; intros acc Hf Hn Hs Ha Hl; [auto|]. cbn [object_of foldl].
  destruct (proj2 (fresh_emplace acc k v l.*1) (conj Hf Hn)) as (Hk & Hf' & Hn'). apply Forall_cons in Hl as [Hv Hl].
  apply IH; try assumption; [apply emplace_sorted; assumption|].
  rewrite (emplace_entries k v acc Hk). constructor; assumption.
Qed.

(** The fields of an object in another order. *)
Lemma object_of_permutation acc l : fresh_in acc l.*1 -> NoDup l.*1 -> object_of acc l ≡ₚ l ++ acc.
Proof.
  revert acc. induction l as [|[k v] l IH]; intros acc Hf Hn; [reflexivity|]. cbn [object_of foldl].
  destruct (proj2 (fresh_emplace acc k v l.*1) (conj Hf Hn)) as (Hk & Hf' & Hn').
  specialize (IH (map_emplace k v acc) Hf' Hn'). unfold object_of in IH. rewrite IH, (emplace_entries k v acc Hk), <- Permutation_middle.
  reflexivity.
Qed.

Lemma json_of_inj l l' : NoDup l.*1 -> l.*1 = l'.*1 -> json_of l = json_of l' -> l = l'.
Proof.
  intros Hn Hk [= E]. assert (Hn' : NoDup l'.*1) by (rewrite <- Hk; exact Hn).
  pose proof (object_of_permutation [] l ltac:(apply Forall_true; reflexivity) Hn) as Hp.
  pose proof (object_of_permutation [] l' ltac:(apply Forall_true; reflexivity) Hn') as Hp'.
  rewrite E, Hp', !app_nil_r in Hp. apply same_keys_eq; [exact Hn | exact Hk|]. intros k. symmetry.
  apply map_find_permutation; [exact Hn' | exact Hp].
Qed.

(** The number of values in a value. *)
Fixpoint json_size (v : JsonValue) : nat :=
  match v with
  | JsonArray l => S (sum_list_with json_size l)
  | JsonObject m => S (sum_list_with (fun kv => json_size kv.2) m)
  | _ => 1
  end.

Definition members_size (m : list (string * JsonValue)) : nat := sum_list_with (fun kv => json_size kv.2) m.

Lemma members_size_permutation m m' : m ≡ₚ m' -> members_size m = members_size m'.
Proof. induction 1 as [| ? ? ? _ IH | |]; unfold members_size in *; cbn in *; lia. Qed.

(** The values that a text has are maps in order, and no more than its characters. *)
Lemma grammar_values :
  (forall t v, value_text t v -> wf_json v /\ (json_size v <= String.length t)%nat) /\
  (forall body l, elements_text body l -> Forall wf_json l /\ (sum_list_with json_size l <= String.length body)%nat) /\
  (forall body l, members_text body l -> Forall (fun kv => wf_json kv.2) l /\ (members_size l <= String.length body)%nat).
Proof.
  apply json_text_ind; try (split; [solve [constructor] | cbn; lia]).
  - intros t z Ht. split; [constructor|]. destruct (number_first_char _ _ Ht) as (ch & s & -> & _). cbn. lia.
  - intros w _. split; [apply WF_array; constructor | rewrite !string_length_app; cbn; lia].
  - intros w body l _ _ [Hl Hn]. split; [constructor; exact Hl|]. rewrite !string_length_app. cbn. lia.
  - intros w _. split; [apply WF_object; [split|]; constructor | rewrite !string_length_app; cbn; lia].
  - intros w body l _ _ [Hl Hn] Hd. destruct (object_of_keep [] l) as [H1 H2];
      [apply Forall_true; reflexivity | exact Hd | repeat constructor | constructor | exact Hl|].
    pose proof (object_of_permutation [] l ltac:(apply Forall_true; reflexivity) Hd) as H3.
    split; [constructor; assumption|]. rewrite !string_length_app. cbn. fold (members_size (object_of [] l)).
    rewrite (members_size_permutation _ _ H3), app_nil_r. lia.
  - intros t v w _ [Hv Hn] _. split; [repeat constructor; exact Hv|]. rewrite string_length_app. cbn. lia.
  - intros t v w w' body l _ [Hv Hn] _ _ _ [Hl Hm]. split; [constructor; assumption|]. rewrite !string_length_app. cbn. lia.
  - intros kb k w1 w2 t v w3 _ _ _ _ [Hv Hn] _. split; [repeat constructor; exact Hv|]. rewrite !string_length_app.
    unfold members_size. cbn. lia.
  - intros kb k w1 w2 t v w3 w4 body l _ _ _ _ [Hv Hn] _ _ _ [Hl Hm]. split; [constructor; assumption|].
    rewrite !string_length_app. unfold members_size in *. cbn. lia.
Qed.

Lemma document_values t v : document_text t v -> wf_json v /\ (json_size v <= String.length t)%nat.
Proof.
  intros (w & tv & w' & -> & _ & _ & Hv). destruct (proj1 grammar_values _ _ Hv) as [Hw Hn]. split; [exact Hw|].
  rewrite !string_length_app. lia.
Qed.

(** ** The differences of two values *)

Fixpoint differences (x y : JsonValue) {struct x} : nat :=
  match x, y with
  | JsonNull, JsonNull => 0
  | JsonBoolean a, JsonBoolean b => if Bool.eqb a b then 0 else 1
  | JsonNumber a, JsonNumber b => if (a =? b)%Z then 0 else 1
  | JsonString a, JsonString b => if bool_decide (a = b) then 0 else 1
  | JsonArray xs, JsonArray ys =>
      (if (length xs =? length ys)%nat then 0 else 1) +
      (fix elements xs ys {struct xs} :=
         match xs, ys with
         | x :: xs, y :: ys => differences x y + elements xs ys
         | _, _ => 0
         end) xs ys
  | JsonObject xs, JsonObject ys =>
      sum_list_with (fun kv => match map_find kv.1 ys with Some other => differences kv.2 other | None => 1 end) xs +
      sum_list_with (fun kv => if is_some (map_find kv.1 xs) then 0 else 1) ys
  | _, _ => 1
  end%nat.

Definition entry_differences (ys : list (string * JsonValue)) (kv : string * JsonValue) : nat :=
  match map_find kv.1 ys with Some other => differences kv.2 other | None => 1 end%nat.

Fixpoint element_differences (xs ys : list JsonValue) : nat :=
  match xs, ys with x :: xs, y :: ys => (differences x y + element_differences xs ys)%nat | _, _ => 0%nat end.

(** Counting modulo [2^64]. *)
Definition counts (d d' : DiffAccumulator) (n : nat) : Prop := da_count d' = u64 (da_count d + Z.of_nat n).

Lemma counts_trans d d' d'' n n' : counts d d' n -> counts d' d'' n' -> counts d d'' (n + n').
Proof. unfold counts. intros -> ->. rewrite Nat2Z.inj_add. unfold u64. rewrite Zplus_mod_idemp_l. f_equal. lia. Qed.

Lemma counts_none d : is_u64 (da_count d) -> counts d d 0.
Proof. unfold counts. intros H. rewrite Z.add_0_r. unfold u64. rewrite Z.mod_small; [reflexivity | words]. Qed.

Lemma counts_one path expected actual d : counts d (add_difference path expected actual d) 1.
Proof. unfold counts, add_difference. cbv zeta. case_bool_decide; reflexivity. Qed.

Lemma counts_if (differ : bool) path x y d : is_u64 (da_count d) -> counts d (add_if differ path x y d) (if differ then 1 else 0).
Proof. destruct differ; [intros _; apply counts_one | apply counts_none]. Qed.

Lemma counts_u64 d d' n : counts d d' n -> is_u64 (da_count d').
Proof. unfold counts. intros ->. apply u64_range. Qed.

Lemma compare_extra_counts xs path ys : forall d, is_u64 (da_count d) ->
  counts d (compare_extra xs ys path d) (sum_list_with (fun kv => if is_some (map_find kv.1 xs) then 0%nat else 1%nat) ys).
Proof.
  induction ys as [|[k v] ys IH]; intros d Hd; [apply counts_none, Hd|]. cbn [compare_extra sum_list_with fst]. cbv zeta.
  destruct (is_some (map_find k xs)); [apply IH, Hd|].
  eapply counts_trans; [apply counts_one | apply IH]. eapply counts_u64, counts_one.
Qed.

(** The loops of [compareValues]. *)
Section loops.
Context (path : string) (ys : list (string * JsonValue)).

Fixpoint compare_elements (i : nat) (xs ys : list JsonValue) (d : DiffAccumulator) {struct xs} : DiffAccumulator :=
  match xs, ys with
  | x :: xs, y :: ys => compare_elements (S i) xs ys (compareValues x y (element_path path i) d)
  | _, _ => d
  end.

Fixpoint compare_entries (l : list (string * JsonValue)) (d : DiffAccumulator) {struct l} : DiffAccumulator :=
  match l with
  | [] => d
  | (key, value) :: l =>
      compare_entries l
        (match map_find key ys with
         | None => add_difference (childPath path key) (json_summarize value) "<missing>" d
         | Some other => compareValues value other (childPath path key) d
         end)
  end.
End loops.

Definition compare_counts (x : JsonValue) : Prop :=
  forall y path d, is_u64 (da_count d) -> counts d (compareValues x y path d) (differences x y).

Lemma compare_elements_counts path xs : Forall compare_counts xs -> forall ys i d, is_u64 (da_count d) ->
  counts d (compare_elements path i xs ys d) (element_differences xs ys).
Proof.
  induction 1 as [|x xs Hx _ IH]; intros [|y ys] i d Hd; try (apply counts_none, Hd).
  cbn [compare_elements element_differences]. specialize (Hx y (element_path path i) d Hd).
  eapply counts_trans; [exact Hx | apply IH]. eapply counts_u64, Hx.
Qed.

Lemma compare_entries_counts path ys xs : Forall (fun kv => compare_counts kv.2) xs -> forall d, is_u64 (da_count d) ->
  counts d (compare_entries path ys xs d) (sum_list_with (entry_differences ys) xs).
Proof.
  induction 1 as [|[k x] xs Hx _ IH]; intros d Hd; [apply counts_none, Hd|].
  cbn [compare_entries sum_list_with]. unfold entry_differences at 1. cbn [fst snd]. destruct (map_find k ys) as [other|].
  - specialize (Hx other (childPath path k) d Hd). eapply counts_trans; [exact Hx | apply IH]. eapply counts_u64, Hx.
  - eapply counts_trans; [apply counts_one | apply IH]. eapply counts_u64, counts_one.
Qed.

Lemma compareValues_counts x : compare_counts x.
Proof.
  induction x as [|a|a|a|xs IH|xs IH] using json_value_ind; intros y path d Hd; destruct y as [|b|b|b|ys|ys];
    try (apply counts_one); try (apply counts_none, Hd).
  - cbn. pose proof (counts_if (negb (Bool.eqb a b)) path (JsonBoolean a) (JsonBoolean b) d Hd) as H. destruct (Bool.eqb a b); exact H.
  - cbn. pose proof (counts_if (negb (a =? b)) path (JsonNumber a) (JsonNumber b) d Hd) as H. destruct (a =? b); exact H.
  - cbn. pose proof (counts_if (negb (bool_decide (a = b))) path (JsonString a) (JsonString b) d Hd) as H.
    destruct (bool_decide (a = b)); exact H.
  - change (differences (JsonArray xs) (JsonArray ys)) with
      ((if (length xs =? length ys)%nat then 0 else 1) + element_differences xs ys)%nat.
    cbn [compareValues]. fold (compare_elements path). destruct (length xs =? length ys)%nat; cbn [negb].
    + apply (compare_elements_counts path xs IH). exact Hd.
    + eapply counts_trans; [apply counts_one | apply (compare_elements_counts path xs IH)]. eapply counts_u64, counts_one.
  - change (differences (JsonObject xs) (JsonObject ys)) with
      (sum_list_with (entry_differences ys) xs + sum_list_with (fun kv => if is_some (map_find kv.1 xs) then 0%nat else 1%nat) ys)%nat.
    cbn [compareValues]. fold (compare_entries path ys).
    pose proof (compare_entries_counts path ys xs IH d Hd) as H. eapply counts_trans; [exact H|].
    apply compare_extra_counts. eapply counts_u64, H.
Qed.

(** ** No difference: equal values *)

Definition missing_in (xs : list (string * JsonValue)) (kv : string * JsonValue) : nat := if is_some (map_find kv.1 xs) then 0%nat else 1%nat.

Lemma sum_zero {A} (f : A -> nat) l : sum_list_with f l = 0%nat <-> Forall (fun x => f x = 0%nat) l.
Proof. induction l as [|x l IH]; cbn; [split; [constructor | reflexivity]|]. rewrite Forall_cons, <- IH. lia. Qed.

Lemma element_differences_zero xs : Forall (fun x => forall y, wf_json x -> wf_json y -> differences x y = 0%nat <-> x = y) xs ->
  forall ys, Forall wf_json xs -> Forall wf_json ys -> length xs = length ys -> element_differences xs ys = 0%nat <-> xs = ys.
Proof.
  induction 1 as [|x xs Hx _ IH]; intros [|y ys] Hwx Hwy Hl; try discriminate Hl; [split; reflexivity|].
  apply Forall_cons in Hwx as [Hwx Hwxs], Hwy as [Hwy Hwys]. injection Hl as Hl. cbn [element_differences].
  rewrite Nat.eq_add_0, (Hx y Hwx Hwy), (IH ys Hwxs Hwys Hl). split; [intros [-> ->]; reflexivity | intros [= -> ->]; auto].
Qed.

Lemma object_differences_zero xs ys : Forall (fun kv => forall y, wf_json kv.2 -> wf_json y -> differences kv.2 y = 0%nat <-> kv.2 = y) xs ->
  wf_json (JsonObject xs) -> wf_json (JsonObject ys) ->
  (sum_list_with (entry_differences ys) xs + sum_list_with (missing_in xs) ys)%nat = 0%nat <-> xs = ys.
Proof.
  intros IH Hx Hy. inversion Hx as [| | | | |? Hsx Hwx]; subst. inversion Hy as [| | | | |? Hsy Hwy]; subst.
  pose proof (proj2 Hsx) as Hnx. pose proof (proj2 Hsy) as Hny. rewrite Nat.eq_add_0, !sum_zero, !Forall_forall in *. split.
  - intros [He Hm]. apply sorted_map_eq; [exact Hsx | exact Hsy|]. intros k. destruct (map_find k xs) as [v|] eqn:Hk.
    + apply map_find_Some in Hk; [|exact Hnx]. specialize (He _ Hk). unfold entry_differences in He. cbn in He.
      destruct (map_find k ys) as [v'|] eqn:Hk'; [|discriminate He]. apply map_find_Some in Hk'; [|exact Hny].
      apply (IH (k, v) Hk v' (Hwx _ Hk) (Hwy _ Hk')) in He. cbn in He. rewrite He. reflexivity.
    + destruct (map_find k ys) as [v'|] eqn:Hk'; [|reflexivity]. apply map_find_Some in Hk'; [|exact Hny]. specialize (Hm _ Hk').
      unfold missing_in in Hm. cbn in Hm. rewrite Hk in Hm. discriminate Hm.
  - intros <-. split; intros [k v] Hin; pose proof Hin as Hfind; apply map_find_Some in Hfind; try exact Hnx.
    + unfold entry_differences. cbn. rewrite Hfind. apply (IH (k, v) Hin v (Hwx _ Hin) (Hwx _ Hin)). reflexivity.
    + unfold missing_in. cbn. rewrite Hfind. reflexivity.
Qed.

Lemma differences_zero x : forall y, wf_json x -> wf_json y -> differences x y = 0%nat <-> x = y.
Proof.
  induction x as [|a|a|a|xs IH|xs IH] using json_value_ind; intros y Hx Hy; destruct y as [|b|b|b|ys|ys];
    try (cbn; split; discriminate); try (split; reflexivity).
  - cbn. destruct a, b; cbn; split; congruence.
  - cbn. destruct (Z.eqb_spec a b); split; congruence.
  - cbn. case_bool_decide; split; congruence.
  - change (differences (JsonArray xs) (JsonArray ys)) with
      ((if (length xs =? length ys)%nat then 0 else 1) + element_differences xs ys)%nat.
    inversion Hx as [| | | |? Hwx|]; subst. inversion Hy as [| | | |? Hwy|]; subst.
    destruct (Nat.eqb_spec (length xs) (length ys)) as [E|E].
    + cbn [Nat.add]. rewrite (element_differences_zero xs IH ys Hwx Hwy E). split; congruence.
    + split; [discriminate|]. intros [= ->]. contradiction E; reflexivity.
  - change (differences (JsonObject xs) (JsonObject ys)) with
      (sum_list_with (entry_differences ys) xs + sum_list_with (missing_in xs) ys)%nat.
    rewrite (object_differences_zero xs ys IH Hx Hy). split; congruence.
Qed.

(** ** No more differences than values *)

Lemma json_size_pos v : (1 <= json_size v)%nat.
Proof. destruct v; cbn; lia. Qed.

Lemma element_differences_size xs : Forall (fun x => forall y, wf_json x -> (differences x y <= json_size x + json_size y)%nat) xs ->
  Forall wf_json xs -> forall ys, (element_differences xs ys <= sum_list_with json_size xs + sum_list_with json_size ys)%nat.
Proof.
  induction 1 as [|x xs Hx _ IH]; intros Hw [|y ys]; cbn; [lia..|]. apply Forall_cons in Hw as [Hwx Hw].
  specialize (Hx y Hwx). specialize (IH Hw ys). lia.
Qed.

(** The values found for distinct keys, and the entries of other keys. *)
Definition found_size (ys : list (string * JsonValue)) (k : string) : nat :=
  match map_find k ys with Some v => json_size v | None => 0%nat end.

Lemma sum_with_key (f g : string -> nat) k0 c keys : NoDup keys ->
  (forall k, k <> k0 -> (f k <= g k)%nat) -> (f k0 <= c + g k0)%nat ->
  (sum_list_with f keys <= c + sum_list_with g keys)%nat.
Proof.
  intros Hn Hf H0. induction keys as [|k keys IH]; cbn; [lia|]. apply NoDup_cons in Hn as [Hk Hn]. destruct (decide (k = k0)) as [->|Hne].
  - assert (Hsum : (sum_list_with f keys <= sum_list_with g keys)%nat); [|lia]. clear IH Hn. induction keys as [|j keys IH]; cbn; [lia|].
    apply not_elem_of_cons in Hk as [Hj Hk]. specialize (Hf j ltac:(congruence)). specialize (IH Hk). lia.
  - specialize (Hf k Hne). specialize (IH Hn). lia.
Qed.

Lemma found_and_missing xs keys ys : NoDup keys -> (forall k, map_find k xs = None <-> k ∉ keys) ->
  (sum_list_with (found_size ys) keys + sum_list_with (missing_in xs) ys <= members_size ys)%nat.
Proof.
  intros Hn Hx. induction ys as [|[k0 v0] ys IH].
  - rewrite (proj2 (sum_zero (found_size []) keys)); [cbn; lia|]. apply Forall_true. reflexivity.
  - unfold members_size in *. cbn [sum_list_with snd]. pose proof (json_size_pos v0). unfold missing_in at 1. cbn [fst].
    destruct (map_find k0 xs) eqn:Hk0; cbn [is_some].
    + assert (Hf : (sum_list_with (found_size ((k0, v0) :: ys)) keys <= json_size v0 + sum_list_with (found_size ys) keys)%nat); [|lia].
      apply (sum_with_key _ _ k0); [exact Hn | |]; unfold found_size; cbn [map_find].
      * intros k Hk. rewrite bool_decide_eq_false_2 by congruence. lia.
      * rewrite bool_decide_eq_true_2 by reflexivity. lia.
    + assert (Hf : sum_list_with (found_size ((k0, v0) :: ys)) keys = sum_list_with (found_size ys) keys); [|lia].
      apply Hx in Hk0. clear - Hk0. induction keys as [|k keys IH]; [reflexivity|]. apply not_elem_of_cons in Hk0 as [Hk Hk0]. cbn.
      rewrite (IH Hk0). unfold found_size at 1. cbn [map_find]. rewrite bool_decide_eq_false_2 by exact Hk. reflexivity.
Qed.

Lemma differences_size x : forall y, wf_json x -> (differences x y <= json_size x + json_size y)%nat.
Proof.
  induction x as [|a|a|a|xs IH|xs IH] using json_value_ind; intros y Hx; pose proof (json_size_pos y) as Hy; destruct y as [|b|b|b|ys|ys];
    try (cbn; lia).
  - cbn. destruct (Bool.eqb a b); lia.
  - cbn. destruct (a =? b); lia.
  - cbn. case_bool_decide; lia.
  - change (differences (JsonArray xs) (JsonArray ys)) with
      ((if (length xs =? length ys)%nat then 0 else 1) + element_differences xs ys)%nat.
    inversion Hx as [| | | |? Hwx|]; subst. pose proof (element_differences_size xs IH Hwx ys). cbn.
    destruct (length xs =? length ys)%nat; lia.
  - change (differences (JsonObject xs) (JsonObject ys)) with
      (sum_list_with (entry_differences ys) xs + sum_list_with (missing_in xs) ys)%nat.
    inversion Hx as [| | | | |? Hsx Hwx]; subst.
    pose proof (found_and_missing xs xs.*1 ys (proj2 Hsx) (fun k => map_find_None k xs)) as Hfound.
    assert (He : (sum_list_with (entry_differences ys) xs <= members_size xs + sum_list_with (found_size ys) xs.*1)%nat).
    { clear - IH Hwx. induction IH as [|[k v] xs Hv _ IH]; cbn; [lia|]. apply Forall_cons in Hwx as [Hwv Hw]. specialize (IH Hw).
      unfold members_size in *. cbn in *. unfold entry_differences at 1, found_size at 1. cbn. pose proof (json_size_pos v).
      destruct (map_find k ys) as [other|]; [|lia]. specialize (Hv other Hwv). lia. }
    cbn. fold (members_size xs). fold (members_size ys). lia.
Qed.

(** ** Architectural views *)

Lemma found_sum keys ys : NoDup keys -> (sum_list_with (found_size ys) keys <= members_size ys)%nat.
Proof.
  intros Hn. set (xs := (fun k => (k, JsonNull)) <$> keys). assert (Hx : xs.*1 = keys).
  { unfold xs. rewrite <- list_fmap_compose. apply list_fmap_id. }
  assert (Hnone : forall k, map_find k xs = None <-> k ∉ keys) by (intros k; rewrite <- Hx; apply map_find_None).
  pose proof (found_and_missing xs keys ys Hn Hnone). lia.
Qed.

(** A map with the given keys, whose values are at most those of a source and [extra]. *)
Record built (source : list (string * JsonValue)) (names : list string) (extra : nat) (m : list (string * JsonValue)) : Prop := {
  bu_sorted : sorted_map m;
  bu_wf : Forall (fun kv => wf_json kv.2) m;
  bu_names : m.*1 ≡ₚ names;
  bu_size : (members_size m <= sum_list_with (found_size source) names + extra)%nat;
}.

Lemma built_nil source : built source [] 0 [].
Proof. repeat constructor. Qed.

Lemma built_emplace source names extra m k v more : built source names extra m -> k ∉ names -> wf_json v ->
  (json_size v <= found_size source k + more)%nat -> built source (k :: names) (extra + more) (map_emplace k v m).
Proof.
  intros [Hs Hw Hn Hsz] Hk Hv Hsize. assert (Hf : map_find k m = None) by (apply map_find_None; rewrite Hn; exact Hk).
  pose proof (emplace_entries k v m Hf) as Hp. split.
  - apply emplace_sorted; assumption.
  - rewrite Hp. constructor; assumption.
  - rewrite emplace_keys, Hn by exact Hf. reflexivity.
  - rewrite (members_size_permutation _ _ Hp). unfold members_size in *. cbn. lia.
Qed.

Lemma built_object source names extra m : built source names extra m ->
  wf_json (JsonObject m) /\ (json_size (JsonObject m) <= json_size (JsonObject source) + extra)%nat.
Proof.
  intros [Hs Hw Hn Hsz]. split; [constructor; assumption|]. cbn. fold (members_size m). fold (members_size source).
  assert (Hd : NoDup names) by (rewrite <- Hn; exact (proj2 Hs)). pose proof (found_sum names source Hd). lia.
Qed.

Lemma requiredField_inv o name v : requiredField o name = Ret v ->
  o = JsonObject (json_object o) /\ map_find name (json_object o) = Some v.
Proof.
  unfold requiredField. intros E. apply bind_ret_inv in E as (? & Ht & E). destruct o as [| | | | |m]; try discriminate Ht.
  split; [reflexivity|]. cbn in *. destruct (map_find name m); [injection E as ->; reflexivity | discriminate E].
Qed.

Lemma field_wf o name v : wf_json o -> map_find name (json_object o) = Some v -> wf_json v.
Proof.
  intros Hw Hf. destruct o as [| | | | |m]; try discriminate Hf. inversion Hw as [| | | | |? Hs Hm]; subst.
  apply map_find_Some in Hf; [|exact (proj2 Hs)]. rewrite Forall_forall in Hm. exact (Hm _ Hf).
Qed.

Lemma select_fields_built o names : wf_json o -> forall done extra m m', built (json_object o) done extra m -> NoDup (names ++ done) ->
  select_fields o names m = Ret m' -> exists done', built (json_object o) done' extra m' /\ done' ≡ₚ names ++ done.
Proof.
  intros Hw. induction names as [|name names IH]; intros done extra m m' Hm Hn E; [injection E as <-; eauto|].
  cbn [select_fields] in E. apply bind_ret_inv in E as (v & Hv & E). apply requiredField_inv in Hv as [_ Hv].
  cbn in Hn. pose proof Hn as Hn'. apply NoDup_cons in Hn' as [Hname Hn'].
  assert (Hb : built (json_object o) (name :: done) (extra + 0) (map_emplace name v m)).
  { apply built_emplace; [exact Hm | | exact (field_wf _ _ _ Hw Hv) | unfold found_size; rewrite Hv; lia].
    intros H. apply Hname, elem_of_app. auto. }
  rewrite Nat.add_0_r in Hb. destruct (IH (name :: done) extra _ m' Hb) as (done' & Hd & Hp); [|exact E|].
  - rewrite <- Permutation_middle. exact Hn.
  - exists done'. split; [exact Hd|]. rewrite Hp. rewrite <- Permutation_middle. reflexivity.
Qed.

(** A view of a value: a value in order that is not larger. *)
Definition shrinks (f : JsonValue -> outcome JsonValue) (more : nat) : Prop :=
  forall x y, wf_json x -> f x = Ret y -> wf_json y /\ (json_size y <= json_size x + more)%nat.

Lemma selectObjectFields_shrinks names : NoDup names -> shrinks (fun o => selectObjectFields o names) 0.
Proof.
  intros Hn o y Hw E. unfold selectObjectFields in E. apply bind_ret_inv in E as (? & Ht & E). apply bind_ret_inv in E as (m & E & Ey).
  injection Ey as <-. destruct (select_fields_built o names Hw [] 0 [] m (built_nil _)) as (done & Hb & _); [|exact E|].
  - rewrite app_nil_r. exact Hn.
  - destruct o as [| | | | |m']; try discriminate Ht. exact (built_object _ _ _ _ Hb).
Qed.

Lemma mapM_shrinks f l l' : shrinks f 0 -> Forall wf_json l -> mapM f l = Ret l' ->
  Forall wf_json l' /\ (sum_list_with json_size l' <= sum_list_with json_size l)%nat.
Proof.
  intros Hf Hl. revert l'. induction Hl as [|x l Hx _ IH]; intros l' E; [injection E as <-; split; [constructor | cbn; lia]|].
  cbn [mapM] in E. apply bind_ret_inv in E as (y & Ey & E). apply bind_ret_inv in E as (ys & Eys & E). injection E as <-.
  destruct (Hf _ _ Hx Ey) as [Hy Hs]. destruct (IH _ Eys) as [Hys Hss]. split; [constructor; assumption | cbn; lia].
Qed.

Lemma array_shrinks f : shrinks f 0 -> shrinks (fun v => l ← mapM f (json_array v); mret (JsonArray l)) 0.
Proof.
  intros Hf v y Hw E. apply bind_ret_inv in E as (l & E & Ey). injection Ey as <-.
  assert (Hl : Forall wf_json (json_array v)) by (destruct Hw; cbn; [constructor.. | assumption | constructor]).
  destruct (mapM_shrinks _ _ _ Hf Hl E) as [Hl' Hs]. split; [constructor; exact Hl'|]. pose proof (json_size_pos v).
  destruct v; cbn in *; lia.
Qed.

Lemma found_view o name v w more : wf_json o -> requiredField o name = Ret v ->
  (wf_json v -> wf_json w /\ (json_size w <= json_size v + more)%nat) ->
  wf_json w /\ (json_size w <= found_size (json_object o) name + more)%nat.
Proof.
  intros Hw Hv Hf. apply requiredField_inv in Hv as [_ Hv]. unfold found_size. rewrite Hv. exact (Hf (field_wf _ _ _ Hw Hv)).
Qed.

(** A view that selects fields and replaces others by views of them. *)
Lemma selected o names m : wf_json o -> NoDup names -> select_fields o names [] = Ret m ->
  exists done, built (json_object o) done 0 m /\ done ≡ₚ names.
Proof.
  intros Hw Hn E. destruct (select_fields_built o names Hw [] 0 [] m (built_nil _)) as (done & Hb & Hp); [|exact E|].
  - rewrite app_nil_r. exact Hn.
  - exists done. rewrite app_nil_r in Hp. auto.
Qed.

Lemma built_view o done names extra m k v w f :
  wf_json o -> built (json_object o) done extra m -> done ≡ₚ names -> k ∉ names ->
  requiredField o k = Ret v -> shrinks f 0 -> f v = Ret w ->
  exists done', built (json_object o) done' extra (map_emplace k w m) /\ done' ≡ₚ k :: names.
Proof.
  intros Hw Hb Hp Hk Hv Hf E. destruct (found_view o k v w 0 Hw Hv) as [Hww Hs]; [intros Hwv; exact (Hf _ _ Hwv E)|].
  exists (k :: done). split; [|rewrite Hp; reflexivity]. rewrite <- (Nat.add_0_r extra).
  apply built_emplace; [exact Hb | rewrite Hp; exact Hk | exact Hww | exact Hs].
Qed.

(** A field that the source need not have. *)
Lemma built_extra o done names extra m k w : built (json_object o) done extra m -> done ≡ₚ names -> k ∉ names ->
  wf_json w -> json_size w = 1%nat -> exists done', built (json_object o) done' (extra + 1) (map_emplace k w m) /\ done' ≡ₚ k :: names.
Proof.
  intros Hb Hp Hk Hw Hs. exists (k :: done). split; [|rewrite Hp; reflexivity].
  apply built_emplace; [exact Hb | rewrite Hp; exact Hk | exact Hw | lia].
Qed.

Ltac names_differ := apply (bool_decide_unpack _); vm_compute; exact I.


Lemma event_view_shrinks : shrinks traceEventArchitecturalView 0.
Proof. apply selectObjectFields_shrinks. names_differ. Qed.

Definition array_view (f : JsonValue -> outcome JsonValue) (v : JsonValue) : outcome JsonValue :=
  l ← mapM f (json_array v); mret (JsonArray l).

Lemma required_object o name v : requiredField o name = Ret v -> json_type o = JT_Object.
Proof. intros E. apply requiredField_inv in E as [-> _]. reflexivity. Qed.

Lemma array_view_ret f v l : mapM f (json_array v) = Ret l -> array_view f v = Ret (JsonArray l).
Proof. unfold array_view. intros ->. reflexivity. Qed.

Lemma single_view_shrinks : shrinks singleProcessArchitecturalView 0.
Proof.
  intros o y Hw E. unfold singleProcessArchitecturalView in E. apply bind_ret_inv in E as (events & Hev & E).
  apply bind_ret_inv in E as (views & Hviews & E). apply bind_ret_inv in E as (m & Hm & E). injection E as <-.
  apply selected in Hm as (done & Hb & Hp); [|exact Hw | names_differ].
  destruct (built_view o done _ 0 m "events" events (JsonArray views) (array_view traceEventArchitecturalView) Hw Hb Hp) as (done' & Hb' & _);
    [names_differ | exact Hev | apply array_shrinks, event_view_shrinks | apply array_view_ret, Hviews|].
  apply required_object in Hev. destruct o; try discriminate Hev. exact (built_object _ _ _ _ Hb').
Qed.

Lemma record_view_shrinks : shrinks execution_record_view 0.
Proof.
  intros o y Hw E. unfold execution_record_view in E. apply bind_ret_inv in E as (m & Hm & E).
  apply bind_ret_inv in E as (event & Hev & E). apply bind_ret_inv in E as (view & Hview & E). injection E as <-.
  apply selected in Hm as (done & Hb & Hp); [|exact Hw | names_differ].
  destruct (built_view o done _ 0 m "event" event view traceEventArchitecturalView Hw Hb Hp) as (done' & Hb' & _);
    [names_differ | exact Hev | exact event_view_shrinks | exact Hview|].
  apply required_object in Hev. destruct o; try discriminate Hev. exact (built_object _ _ _ _ Hb').
Qed.

Lemma invariant_view_shrinks : shrinks multiProcessInvariantArchitecturalView 0.
Proof.
  intros o y Hw E. unfold multiProcessInvariantArchitecturalView in E. apply bind_ret_inv in E as (violations & Hv & E).
  apply bind_ret_inv in E as (? & _ & E). apply bind_ret_inv in E as (views & Hviews & E).
  apply bind_ret_inv in E as (m & Hm & E). injection E as <-.
  apply selected in Hm as (done & Hb & Hp); [|exact Hw | names_differ].
  destruct (built_view o done _ 0 m "violations" violations (JsonArray views)
              (array_view (fun violation => selectObjectFields violation ["code"; "lifecycle_step"; "pid"])) Hw Hb Hp) as (done' & Hb' & _);
    [names_differ | exact Hv | apply array_shrinks, selectObjectFields_shrinks; names_differ | apply array_view_ret, Hviews|].
  apply required_object in Hv. destruct o; try discriminate Hv. exact (built_object _ _ _ _ Hb').
Qed.

(** A value as its own view. *)
Lemma same_shrinks : shrinks (fun v => mret v) 0.
Proof. intros x y Hw [= <-]. split; [exact Hw | lia]. Qed.

Lemma optionalField_Some o name v : optionalField o name = Ret (Some v) -> requiredField o name = Ret v.
Proof.
  unfold optionalField, requiredField. destruct o; try discriminate. cbn. intros [= E]. rewrite E. reflexivity.
Qed.

Lemma number_wf z : wf_json (JsonNumber z) /\ json_size (JsonNumber z) = 1%nat.
Proof. split; [constructor | reflexivity]. Qed.

(** The fields for software interrupts, which a document need not have. *)
Section interrupts.
Context (o : JsonValue) (software : option JsonValue) (Hw : wf_json o) (Ho : optionalField o "software_interrupts" = Ret software).

Lemma count_view done names m count : built (json_object o) done 0 m -> done ≡ₚ names -> "software_interrupt_event_count" ∉ names ->
  (if is_some software then requiredField o "software_interrupt_event_count" else mret (JsonNumber 0)) = Ret count ->
  exists done' extra, (extra <= 1)%nat /\ built (json_object o) done' extra (map_emplace "software_interrupt_event_count" count m) /\
    done' ≡ₚ "software_interrupt_event_count" :: names.
Proof.
  intros Hb Hp Hk E. destruct software as [array|]; cbn [is_some] in E.
  - destruct (built_view o done names 0 m "software_interrupt_event_count" count count (fun v => mret v) Hw Hb Hp Hk E same_shrinks)
      as (d & Hd & Hp'); [reflexivity|]. exists d, 0%nat. auto with lia.
  - injection E as <-.
    destruct (built_extra o done names 0 m "software_interrupt_event_count" (JsonNumber 0) Hb Hp Hk) as (d & Hd & Hp'); [constructor | reflexivity|].
    exists d, 1%nat. auto.
Qed.

Lemma interrupts_view done names extra m views : built (json_object o) done extra m -> done ≡ₚ names -> "software_interrupts" ∉ names ->
  (match software with
   | Some array => mapM (fun record => selectObjectFields record softwareInterruptFields) (json_array array)
   | None => mret []
   end) = Ret views ->
  exists done' extra', (extra' <= extra + 1)%nat /\ built (json_object o) done' extra' (map_emplace "software_interrupts" (JsonArray views) m) /\
    done' ≡ₚ "software_interrupts" :: names.
Proof.
  intros Hb Hp Hk E. destruct software as [array|].
  - destruct (built_view o done names extra m "software_interrupts" array (JsonArray views)
                (array_view (fun record => selectObjectFields record softwareInterruptFields)) Hw Hb Hp Hk) as (d & Hd & Hp');
      [apply optionalField_Some, Ho | apply array_shrinks, selectObjectFields_shrinks; names_differ | apply array_view_ret, E|].
    exists d, extra. auto with lia.
  - injection E as <-.
    destruct (built_extra o done names extra m "software_interrupts" (JsonArray []) Hb Hp Hk) as (d & Hd & Hp'); [repeat constructor | reflexivity|].
    exists d, (extra + 1)%nat. auto.
Qed.
End interrupts.

Lemma multi_view_shrinks : shrinks multiProcessArchitecturalView 2.
Proof.
  intros o y Hw E. unfold multiProcessArchitecturalView in E.
  apply bind_ret_inv in E as (trace & Htrace & E). apply bind_ret_inv in E as (switches & Hswitches & E).
  apply bind_ret_inv in E as (processes & Hprocesses & E). apply bind_ret_inv in E as (software & Hsoftware & E).
  apply bind_ret_inv in E as (views1 & Hviews1 & E). apply bind_ret_inv in E as (views2 & Hviews2 & E).
  apply bind_ret_inv in E as (views3 & Hviews3 & E). apply bind_ret_inv in E as (views4 & Hviews4 & E).
  apply bind_ret_inv in E as (m & Hm & E). apply bind_ret_inv in E as (count & Hcount & E).
  apply bind_ret_inv in E as (invariants & Hinv & E). apply bind_ret_inv in E as (view & Hview & E). injection E as <-.
  apply selected in Hm as (d0 & Hb0 & Hp0); [|exact Hw | names_differ].
  destruct (count_view o software Hw Hsoftware d0 _ m count Hb0 Hp0) as (d1 & n1 & Hn1 & Hb1 & Hp1); [names_differ | exact Hcount|].
  destruct (built_view o d1 _ n1 _ "invariants" invariants view multiProcessInvariantArchitecturalView Hw Hb1 Hp1) as (d2 & Hb2 & Hp2);
    [names_differ | exact Hinv | exact invariant_view_shrinks | exact Hview|].
  destruct (built_view o d2 _ n1 _ "execution_trace" trace (JsonArray views1) (array_view execution_record_view) Hw Hb2 Hp2) as (d3 & Hb3 & Hp3);
    [names_differ | exact Htrace | apply array_shrinks, record_view_shrinks | apply array_view_ret, Hviews1|].
  destruct (interrupts_view o software Hw Hsoftware d3 _ n1 _ views2 Hb3 Hp3) as (d4 & n4 & Hn4 & Hb4 & Hp4); [names_differ | exact Hviews2|].
  destruct (built_view o d4 _ n4 _ "context_switches" switches (JsonArray views3)
              (array_view (fun record => selectObjectFields record contextSwitchFields)) Hw Hb4 Hp4) as (d5 & Hb5 & Hp5);
    [names_differ | exact Hswitches | apply array_shrinks, selectObjectFields_shrinks; names_differ | apply array_view_ret, Hviews3|].
  destruct (built_view o d5 _ n4 _ "processes" processes (JsonArray views4)
              (array_view (fun process => selectObjectFields process processFields)) Hw Hb5 Hp5) as (d6 & Hb6 & Hp6);
    [names_differ | exact Hprocesses | apply array_shrinks, selectObjectFields_shrinks; names_differ | apply array_view_ret, Hviews4|].
  apply required_object in Htrace. destruct o; try discriminate Htrace. destruct (built_object _ _ _ _ Hb6) as [Hwf Hsize].
  cbn [json_object] in Hsize. split; [exact Hwf | lia].
Qed.

(** What is compared of a document. *)
Definition compared (options : TraceJsonDiffOptions) (kind : TraceDocumentKind) (v : JsonValue) : outcome JsonValue :=
  if df_strict options then mret v else architecturalView v kind.

Lemma compared_shrinks options kind : shrinks (compared options kind) 2.
Proof.
  intros x y Hw E. unfold compared in E. destruct (df_strict options); [injection E as <-; split; [exact Hw | lia]|].
  destruct kind; [|exact (multi_view_shrinks _ _ Hw E)]. destruct (single_view_shrinks _ _ Hw E). split; [assumption | lia].
Qed.

Lemma compare_decides x y : wf_json x -> wf_json y -> Z.of_nat (json_size x + json_size y) < 2 ^ 64 ->
  da_count (compareValues x y "$" no_differences) = 0 <-> x = y.
Proof.
  intros Hx Hy Hn. rewrite <- (differences_zero x y Hx Hy). rewrite (compareValues_counts x y "$" no_differences ltac:(cbn; words)).
  pose proof (differences_size x y Hx). cbn [no_differences da_count Z.add]. unfold u64. rewrite Z.mod_small by lia. lia.
Qed.

(** The texts are trace documents of one kind, and these values of them are compared. *)
Definition comparable (options : TraceJsonDiffOptions) (expected actual : string) (x' y' : JsonValue) : Prop :=
  exists x y kind,
    document_text expected x /\ document_text actual y /\
    validateTraceDocument x "Expected" = Ret kind /\ validateTraceDocument y "Actual" = Ret kind /\
    compared options kind x = Ret x' /\ compared options kind y = Ret y'.

Lemma compareText_comparable expected actual options r : TraceJsonDiff_compareText expected actual options = Ret r ->
  exists x' y', comparable options expected actual x' y' /\
    df_equal r = (da_count (compareValues x' y' "$" no_differences) =? 0).
Proof.
  intros Hr. unfold TraceJsonDiff_compareText in Hr.
  apply bind_ret_inv in Hr as (x & Hx & E). apply bind_ret_inv in E as (y & Hy & E).
  apply bind_ret_inv in E as (kind & Hkx & E). apply bind_ret_inv in E as (kind' & Hky & E).
  apply bind_ret_inv in E as ([] & Hkind & E). apply bind_ret_inv in E as (x' & Hx' & E). apply bind_ret_inv in E as (y' & Hy' & E).
  apply throw_if_ret_inv, negb_false_iff, bool_decide_eq_true in Hkind. subst kind'.
  cbv zeta in E. injection E as <-. exists x', y'. split; [|reflexivity].
  exists x, y, kind. apply parse_document_text in Hx, Hy. auto 10.
Qed.

Lemma comparable_compareText expected actual options x' y' : comparable options expected actual x' y' ->
  exists r, TraceJsonDiff_compareText expected actual options = Ret r.
Proof.
  intros (x & y & kind & Hx & Hy & Hkx & Hky & Hx' & Hy'). apply parse_document_text in Hx, Hy. unfold compared in *.
  unfold TraceJsonDiff_compareText. rewrite Hx, bind_Ret, Hy, bind_Ret, Hkx, bind_Ret, Hky, bind_Ret.
  rewrite (proj2 (throw_if_ret_inv (negb (bool_decide (kind = kind))) _)) by (apply negb_false_iff, bool_decide_eq_true; reflexivity).
  rewrite bind_Ret, Hx', bind_Ret, Hy', bind_Ret. eexists. reflexivity.
Qed.


(** ** Written traces *)

Lemma values_from_length {A} (f : A -> nat -> outcome JsonValue) l : forall index vs, values_from f index l = Ret vs -> length vs = length l.
Proof.
  induction l as [|x l IH]; intros index vs E; cbn [values_from] in E; [injection E as <-; reflexivity|].
  apply bind_ret_inv in E as (v & _ & E). apply bind_ret_inv in E as (vs' & E' & E). injection E as <-. cbn. f_equal. exact (IH _ _ E').
Qed.

Lemma right_count {A} (l : list A) (vs : list JsonValue) : short l -> length vs = length l -> wrong_count (Z.of_nat (length l)) vs = false.
Proof.
  intros Hs Hl. unfold short in Hs. unfold wrong_count. rewrite Hl. apply orb_false_iff. split; [lia|]. rewrite negb_false_iff, Z.eqb_eq.
  unfold u64. apply Z.mod_small. lia.
Qed.

(** The fields of a document that its checks read. *)
Lemma required_String o name text : requiredField o name = Ret (JsonString text) -> requiredString o name = Ret text.
Proof. unfold requiredString. intros ->. reflexivity. Qed.

Lemma required_Number o name z : requiredField o name = Ret (JsonNumber z) -> requiredNumber o name = Ret z.
Proof. unfold requiredNumber. intros ->. reflexivity. Qed.

Lemma single_valid o label version events count :
  requiredField o "schema" = Ret (JsonString "zero_cpu_trace") -> requiredField o "schema_version" = Ret (JsonNumber version) -> version = 3 ->
  requiredField o "events" = Ret (JsonArray events) -> requiredField o "event_count" = Ret (JsonNumber count) ->
  wrong_count count events = false -> validateTraceDocument o label = Ret SingleProcess.
Proof.
  intros Hs Hv -> He Hc Hw. unfold validateTraceDocument, validate_single. rewrite (required_object _ _ _ Hs).
  rewrite bool_decide_eq_true_2 by reflexivity. cbn [negb throw_if]. rewrite bind_Ret.
  rewrite (required_String _ _ _ Hs), bind_Ret, (required_Number _ _ _ Hv), bind_Ret.
  rewrite bool_decide_eq_true_2 by reflexivity. rewrite Z.eqb_refl. cbn [negb throw_if]. rewrite bind_Ret, He, bind_Ret. change (is_array (JsonArray events)) with true. cbn [negb throw_if].
  rewrite bind_Ret, (required_Number _ _ _ Hc), bind_Ret. cbn [json_array]. rewrite Hw.
  reflexivity.
Qed.

Lemma trace_valid events md l label : short events -> trace_fields events md = Ret l ->
  validateTraceDocument (json_of l) label = Ret SingleProcess.
Proof.
  intros Hs E. unfold trace_fields in E. apply bind_ret_inv in E as (vs & Hvs & E). injection E as <-.
  eapply single_valid; try reflexivity. apply (right_count events vs Hs), (values_from_length _ _ _ _ Hvs).
Qed.

Lemma trace_field_names events md l : trace_fields events md = Ret l ->
  l.*1 = ["schema"; "schema_version"; "producer"; "producer_version"; "mode"; "loaded_path"; "event_count"; "events"].
Proof. unfold trace_fields. intros E. apply bind_ret_inv in E as (vs & Hvs & E). injection E as <-. reflexivity. Qed.

(** A trace that was written is read back: the parser gives the document of the
    trace, with every state, change and text of its events, and the document
    passes the checks. *)
Theorem written_trace_is_read (events : list TraceEvent) (metadata : TraceJsonMetadata) (text : string)
    (Hevents : Forall event_fits events) (Hshort : short events)
    (Htext : TraceJsonWriter_toJson events metadata = Ret text) :
  exists l, trace_fields events metadata = Ret l /\ JsonParser_parse text = Ret (json_of l) /\
    validateTraceDocument (json_of l) "Expected" = Ret SingleProcess.
Proof.
  destruct (trace_text events metadata text Hevents Hshort Htext) as (l & Hl & Hd). exists l. split; [exact Hl|].
  split; [apply parse_document_text, Hd | exact (trace_valid _ _ _ _ Hshort Hl)].
Qed.

(** Comparing two written traces strictly finds them equal exactly when the
    traces have the same documents. *)
Theorem written_traces_compare (events events' : list TraceEvent) (metadata metadata' : TraceJsonMetadata) (text text' : string)
    (Hevents : Forall event_fits events) (Hevents' : Forall event_fits events')
    (Htext : TraceJsonWriter_toJson events metadata = Ret text) (Htext' : TraceJsonWriter_toJson events' metadata' = Ret text')
    (Hshort : short events /\ short events')
    (Hlength : Z.of_nat (String.length text) < 2 ^ 62 /\ Z.of_nat (String.length text') < 2 ^ 62) :
  exists r, TraceJsonDiff_compareText text text' {| df_strict := true |} = Ret r /\
    (df_equal r = true <-> trace_fields events metadata = trace_fields events' metadata').
Proof.
  destruct Hshort as [Hs Hs'].
  destruct (trace_text events metadata text Hevents Hs Htext) as (l & Hl & Hd).
  destruct (trace_text events' metadata' text' Hevents' Hs' Htext') as (l' & Hl' & Hd').
  assert (Hc : comparable {| df_strict := true |} text text' (json_of l) (json_of l')).
  { exists (json_of l), (json_of l'), SingleProcess. split; [exact Hd|]. split; [exact Hd'|].
    split; [exact (trace_valid _ _ _ _ Hs Hl)|]. split; [exact (trace_valid _ _ _ _ Hs' Hl')|]. split; reflexivity. }
  destruct (comparable_compareText _ _ _ _ _ Hc) as (r & Hr). exists r. split; [exact Hr|].
  destruct (compareText_comparable _ _ _ _ Hr) as (x' & y' & (x & y & kind & Hx & Hy & _ & _ & [= <-] & [= <-]) & ->).
  rewrite (document_text_functional _ _ _ Hx Hd), (document_text_functional _ _ _ Hy Hd'), Z.eqb_eq.
  destruct (document_values _ _ Hd) as [Hw Hn]. destruct (document_values _ _ Hd') as [Hw' Hn'].
  rewrite compare_decides by (assumption || lia). rewrite Hl, Hl'.
  pose proof (trace_field_names _ _ _ Hl) as Hk. pose proof (trace_field_names _ _ _ Hl') as Hk'. split; [|congruence].
  intros E. f_equal. apply json_of_inj; [rewrite Hk; distinct_names | congruence | exact E].
Qed.

(** ** Written runs *)

Lemma multi_valid o label version trace switches processes ntrace nswitches nprocesses interrupts :
  requiredField o "schema" = Ret (JsonString "zero_cpu_multiprocess_trace") ->
  requiredField o "schema_version" = Ret (JsonNumber version) -> version = 1 ->
  requiredField o "execution_trace" = Ret (JsonArray trace) -> requiredField o "context_switches" = Ret (JsonArray switches) ->
  requiredField o "processes" = Ret (JsonArray processes) ->
  requiredField o "execution_event_count" = Ret (JsonNumber ntrace) ->
  requiredField o "context_switch_event_count" = Ret (JsonNumber nswitches) ->
  requiredField o "process_count" = Ret (JsonNumber nprocesses) ->
  wrong_count ntrace trace = false -> wrong_count nswitches switches = false -> wrong_count nprocesses processes = false ->
  validate_interrupts o label = Ret tt -> requiredField o "invariants" = Ret interrupts ->
  validateTraceDocument o label = Ret MultiProcess.
Proof.
  intros Hs Hv -> Ht Hsw Hp Hnt Hnsw Hnp Wt Wsw Wp Hi Hinv. unfold validateTraceDocument, validate_multi. rewrite (required_object _ _ _ Hs).
  rewrite bool_decide_eq_true_2 by reflexivity. cbn [negb throw_if]. rewrite bind_Ret.
  rewrite (required_String _ _ _ Hs), bind_Ret, (required_Number _ _ _ Hv), bind_Ret.
  change (bool_decide ("zero_cpu_multiprocess_trace" = "zero_cpu_trace")) with false. rewrite bool_decide_eq_true_2, Z.eqb_refl by reflexivity.
  cbn [negb throw_if]. rewrite bind_Ret, Ht, bind_Ret, Hsw, bind_Ret, Hp, bind_Ret.
  change (negb (is_array (JsonArray trace)) || negb (is_array (JsonArray switches)) || negb (is_array (JsonArray processes))) with false.
  cbn [throw_if]. rewrite bind_Ret, (required_Number _ _ _ Hnt), bind_Ret, (required_Number _ _ _ Hnsw), bind_Ret, (required_Number _ _ _ Hnp), bind_Ret.
  cbn [json_array]. rewrite Wt, Wsw, Wp. cbn [throw_if]. rewrite !bind_Ret, Hi, bind_Ret, Hinv. reflexivity.
Qed.

Lemma interrupts_valid o label : 
  (optionalField o "software_interrupts" = Ret None /\ optionalField o "software_interrupt_event_count" = Ret None) \/
  (exists l n, optionalField o "software_interrupts" = Ret (Some (JsonArray l)) /\
     optionalField o "software_interrupt_event_count" = Ret (Some (JsonNumber n)) /\ wrong_count n l = false) ->
  validate_interrupts o label = Ret tt.
Proof.
  unfold validate_interrupts. intros [[-> ->] | (l & n & Hl & Hn & Hw)]; [reflexivity|].
  rewrite Hl, bind_Ret, Hn, bind_Ret. cbn [is_some Bool.eqb negb throw_if]. rewrite bind_Ret.
  change (is_array (JsonArray l)) with true. cbn [negb throw_if]. rewrite bind_Ret.
  rewrite (required_Number _ _ n), bind_Ret; [cbn [json_array]; rewrite Hw; reflexivity | apply optionalField_Some, Hn].
Qed.

Lemma run_valid result md l label : run_fits result -> process_count result = Z.of_nat (length (run_processes result)) ->
  run_fields result md = Ret l -> validateTraceDocument (json_of l) label = Ret MultiProcess.
Proof.
  intros Hf Hcount E. unfold run_fields in E. apply bind_ret_inv in E as (report & _ & E).
  apply bind_ret_inv in E as (trace & Htrace & E). injection E as <-.
  pose proof (right_count _ trace (proj1 (rf_trace _ Hf)) (values_from_length _ _ _ _ Htrace)) as Wt.
  pose proof (right_count (context_switches result) ((fun record => json_of (switch_fields record)) <$> context_switches result)
                (proj1 (rf_switches _ Hf)) (length_fmap _ _)) as Wsw.
  assert (Wp : wrong_count (process_count result) ((fun process => json_of (process_fields process)) <$> run_processes result) = false).
  { rewrite Hcount. apply right_count; [|apply length_fmap]. pose proof (rf_processes_count _ Hf) as Hi. rewrite Hcount in Hi. unfold short. words. }
  unfold interrupts_fields. case_bool_decide as Hsi.
  - eapply multi_valid; try reflexivity; try eassumption.
  - eapply multi_valid; try reflexivity; try eassumption. apply interrupts_valid. right. eexists _, _. split; [reflexivity|]. split; [reflexivity|].
    apply right_count; [exact (proj1 (rf_interrupts _ Hf)) | apply length_fmap].
Qed.

(** (C31) The text of a multi-process run is read back: the parser gives the document
    of the run, with the report of the invariants, the events with their own
    documents nested in it, the software interrupts, the context switches and the
    processes, and the document passes the checks. *)
Theorem written_run_is_read (result : MultiProcessRunResult) (metadata : MultiProcessTraceJsonMetadata) (text : string)
    (Hresult : run_fits result) (Hcount : process_count result = Z.of_nat (length (run_processes result)))
    (Htext : MultiProcessTraceJsonWriter_toJson result metadata = Ret text) :
  exists l, run_fields result metadata = Ret l /\ JsonParser_parse text = Ret (json_of l) /\
    validateTraceDocument (json_of l) "Expected" = Ret MultiProcess.
Proof.
  destruct (run_text result metadata text Hresult Htext) as (l & Hl & _ & Hd). exists l. split; [exact Hl|].
  split; [apply parse_document_text, Hd | exact (run_valid _ _ _ _ Hresult Hcount Hl)].
Qed.

(** ** Witnesses *)

Lemma sample_call_fits : Forall event_fits [sample_call].
Proof. constructor; [|constructor]. split; constructor; try (apply (bool_decide_unpack _); vm_compute; exact I); reflexivity. Qed.

Lemma written_trace_is_read_witness : exists text l,
  TraceJsonWriter_toJson [sample_call] default_trace_metadata = Ret text /\ JsonParser_parse text = Ret (json_of l).
Proof.
  assert (E : exists text, TraceJsonWriter_toJson [sample_call] default_trace_metadata = Ret text) by (eexists; vm_compute; reflexivity).
  destruct E as (text & E). exists text.
  destruct (written_trace_is_read [sample_call] default_trace_metadata text sample_call_fits ltac:(reflexivity) E) as (l & _ & Hl & _).
  exists l. auto.
Defined.

Lemma written_traces_compare_witness : exists text text' r,
  TraceJsonWriter_toJson [sample_call] default_trace_metadata = Ret text /\ TraceJsonWriter_toJson [] default_trace_metadata = Ret text' /\
  TraceJsonDiff_compareText text text' {| df_strict := true |} = Ret r /\ df_equal r = false.
Proof.
  assert (E : exists text, TraceJsonWriter_toJson [sample_call] default_trace_metadata = Ret text /\ Z.of_nat (String.length text) < 2 ^ 62)
    by (eexists; split; [vm_compute; reflexivity | vm_compute; reflexivity]).
  assert (E' : exists text, TraceJsonWriter_toJson [] default_trace_metadata = Ret text /\ Z.of_nat (String.length text) < 2 ^ 62)
    by (eexists; split; [vm_compute; reflexivity | vm_compute; reflexivity]).
  destruct E as (text & E & Hn). destruct E' as (text' & E' & Hn').
  destruct (written_traces_compare [sample_call] [] default_trace_metadata default_trace_metadata text text' sample_call_fits
              ltac:(constructor) E E' ltac:(split; reflexivity) (conj Hn Hn')) as (r & Hr & Heq).
  exists text, text', r. repeat (split; [assumption|]). destruct (df_equal r); [|reflexivity].
  assert (F : trace_fields [sample_call] default_trace_metadata = trace_fields [] default_trace_metadata) by (apply Heq; reflexivity).
  vm_compute in F. discriminate F.
Defined.


(** A process that called a function, made a system call and stopped. *)
Definition sample_summary : ProcessRunSummary :=
  {| rs_pid := 1; rs_source_name := "call.asm"; rs_state := Terminated; rs_has_exit_code := true; rs_exit_code := -1;
     rs_termination_kind := CpuFault; rs_termination_message := "fault";
     rs_final_context := {| ctx_pid := 1; ctx_registers := RegisterFile_reset; ctx_flags := 0; ctx_pc := 656; ctx_sp := 16;
                            ctx_privilege := User; ctx_has_user_code_range := true; ctx_user_code_begin := 0;
                            ctx_user_code_end_exclusive := 700; ctx_user_stack_begin := 0; ctx_user_stack_end_exclusive := 24;
                            ctx_kernel_stack_pointer := 24 |};
     rs_final_memory := memory (ev_after sample_call); rs_has_executable_image := true; rs_code_end_exclusive := 700;
     rs_data_base := 700; rs_data_size := 4 |}.

Definition sample_result : MultiProcessRunResult :=
  {| runtime_state := RS_Completed; step_limit_reached := false; lifecycle_steps := 3; process_count := 1; termination_count := 1;
     fault_count := 1; preemption_count := 0; context_switch_count := 1;
     execution_trace := [{| et_lifecycle_step := 1; et_pid := 1; et_event := sample_call |}];
     software_interrupts := [{| si_lifecycle_step := 2; si_pid := 1; si_observation := no_observation |}];
     context_switches := [{| cs_lifecycle_step := 3; cs_from_pid := 1; cs_to_pid := 2; cs_preempted := false;
                             cs_caused_by_termination := true |}];
     run_processes := [sample_summary] |}.

Ltac decided := apply (bool_decide_unpack _); vm_compute; exact I.

Lemma sample_result_fits : run_fits sample_result.
Proof.
  pose proof (Forall_inv sample_call_fits) as Hcall. constructor; try decided.
  - intros report E. vm_compute in E. injection E as <-. split; [reflexivity|]. unfold violation_fits. decided.
  - split; [reflexivity|]. apply Forall_singleton. split; [decided|]. split; [decided | exact Hcall].
  - split; [reflexivity|]. apply Forall_singleton. unfold interrupt_fits, option_fits. decided.
  - split; [reflexivity|]. apply Forall_singleton. unfold switch_fits. decided.
Qed.

Lemma written_run_is_read_witness : exists text l,
  MultiProcessTraceJsonWriter_toJson sample_result default_multi_metadata = Ret text /\ JsonParser_parse text = Ret (json_of l) /\
  validateTraceDocument (json_of l) "Expected" = Ret MultiProcess.
Proof.
  assert (E : exists text, MultiProcessTraceJsonWriter_toJson sample_result default_multi_metadata = Ret text) by (eexists; vm_compute; reflexivity).
  destruct E as (text & E). exists text.
  destruct (written_run_is_read sample_result default_multi_metadata text sample_result_fits ltac:(reflexivity) E) as (l & _ & Hl).
  exists l. auto.
Defined.
