(* ===== verification/DebugSnapshotJson.v ===== *)
(** * Debug snapshots as JSON text: [src/debug/DebugSnapshotJson.cpp]

    The state of a debug session, of one process and of several, as JSON text.  A
    function that appends to a stream gives the text it appends; writing the text
    to a file is left out. *)

From S2P Require Import Prelude Words Text ALU Memory ISA CPUState Trace TraceDetail CPU Image Process ProcTable Lifecycle Runner DebugCondition DebugSymbols DebugSession MultiDebugSession Json.
Open Scope Z_scope.

Record DebugSnapshotOptions := {
  so_include_memory : bool;
  so_memory_address : Z;
  so_memory_size : Z;
  so_include_symbols : bool;
  so_include_last_trace : bool;
}.

Definition default_snapshot_options : DebugSnapshotOptions :=
  {| so_include_memory := true; so_memory_address := 0; so_memory_size := 64; so_include_symbols := true;
     so_include_last_trace := true |}.

Definition kSnapshotSchemaVersion : Z := 2.

Definition kCarryMask : Z := Z.shiftl 1 0.
Definition kZeroMask : Z := Z.shiftl 1 6.
Definition kSignMask : Z := Z.shiftl 1 7.
Definition kOverflowMask : Z := Z.shiftl 1 11.

(** The numbers of an array on one line. *)
Definition number_list (l : list Z) : string := "[" +:+ String.concat ", " (pretty <$> l) +:+ "]".

(** What a [const] member gives. *)
Definition read_session {St A} (m : M St A) (s : St) : outcome A := (m s).1.

(** ** The CPU and the memory *)

Definition Snapshot_appendRegisters (registers : list Z) (fieldIndent : nat) (comma : bool) : outcome string :=
  fields ← json_items_from
    (fun name _ comma =>
       text ← registerNameToString name;
       value ← RegisterFile_get registers name;
       mret (int64Field (fieldIndent + 2) text value comma))
    0 register_names;
  mret (open_object fieldIndent "registers" +:+ fields +:+ close_object fieldIndent comma).

(** [static_cast<RegisterName>(index)], whose text is that of no register beyond
    the last. *)
Definition register_at (index : nat) : RegisterName := default Count (register_names !! index).

Definition Snapshot_appendContextRegisters (context : ProcessContext) (fieldIndent : nat) (comma : bool) : outcome string :=
  fields ← json_items_from
    (fun value index comma =>
       text ← registerNameToString (register_at index);
       mret (int64Field (fieldIndent + 2) text value comma))
    0 (ctx_registers context);
  mret (open_object fieldIndent "registers" +:+ fields +:+ close_object fieldIndent comma).

Definition Snapshot_appendFlags (raw : Z) (fieldIndent : nat) (comma : bool) : string :=
  open_object fieldIndent "flags"
  +:+ sizeField (fieldIndent + 2) "raw" raw true
  +:+ boolField (fieldIndent + 2) "zero" (negb (Z.land raw kZeroMask =? 0)) true
  +:+ boolField (fieldIndent + 2) "sign" (negb (Z.land raw kSignMask =? 0)) true
  +:+ boolField (fieldIndent + 2) "carry" (negb (Z.land raw kCarryMask =? 0)) true
  +:+ boolField (fieldIndent + 2) "overflow" (negb (Z.land raw kOverflowMask =? 0)) false
  +:+ close_object fieldIndent comma.

Definition Snapshot_appendCPU (c : CPU) (fieldIndent : nat) (comma : bool) : outcome string :=
  let state := state c in
  registers ← Snapshot_appendRegisters (registers state) (fieldIndent + 2) true;
  mret (open_object fieldIndent "cpu"
        +:+ sizeField (fieldIndent + 2) "pc" (pc state) true
        +:+ sizeField (fieldIndent + 2) "sp" (sp state) true
        +:+ stringField (fieldIndent + 2) "privilege" (privilegeLevelToString (privilege_level state)) true
        +:+ boolField (fieldIndent + 2) "halted" (halted state) true
        +:+ boolField (fieldIndent + 2) "has_error" (has_error state) true
        +:+ stringField (fieldIndent + 2) "error_message" (error_message state) true
        +:+ registers
        +:+ Snapshot_appendFlags (flags state) (fieldIndent + 2) false
        +:+ close_object fieldIndent comma).

Definition Snapshot_appendProcessContext (context : ProcessContext) (fieldIndent : nat) (comma : bool) : outcome string :=
  registers ← Snapshot_appendContextRegisters context (fieldIndent + 2) true;
  mret (open_object fieldIndent "context"
        +:+ sizeField (fieldIndent + 2) "pc" (ctx_pc context) true
        +:+ sizeField (fieldIndent + 2) "sp" (ctx_sp context) true
        +:+ stringField (fieldIndent + 2) "privilege" (privilegeLevelToString (ctx_privilege context)) true
        +:+ sizeField (fieldIndent + 2) "kernel_stack_pointer" (ctx_kernel_stack_pointer context) true
        +:+ boolField (fieldIndent + 2) "has_user_code_range" (ctx_has_user_code_range context) true
        +:+ sizeField (fieldIndent + 2) "user_code_begin" (ctx_user_code_begin context) true
        +:+ sizeField (fieldIndent + 2) "user_code_end_exclusive" (ctx_user_code_end_exclusive context) true
        +:+ registers
        +:+ Snapshot_appendFlags (ctx_flags context) (fieldIndent + 2) false
        +:+ close_object fieldIndent comma).

Definition validateMemoryOptions (m : Memory) (options : DebugSnapshotOptions) : outcome unit :=
  if negb (so_include_memory options) then mret tt
  else
    _ ← throw_if (so_memory_size options =? 0) (RuntimeError "Debug snapshot memory size must be greater than zero");
    throw_if ((so_memory_address options >=? Memory_size m)
              || (so_memory_size options >? Memory_size m - so_memory_address options))
      (RuntimeError "Debug snapshot memory range is outside process memory").

Definition Snapshot_appendMemory (m : Memory) (options : DebugSnapshotOptions) (fieldIndent : nat) (comma : bool) : outcome string :=
  _ ← validateMemoryOptions m options;
  bytes ← (if so_include_memory options then Memory_readBytes m (so_memory_address options) (so_memory_size options) else mret []);
  mret (open_object fieldIndent "memory"
        +:+ boolField (fieldIndent + 2) "included" (so_include_memory options) true
        +:+ sizeField (fieldIndent + 2) "address" (if so_include_memory options then so_memory_address options else 0) true
        +:+ sizeField (fieldIndent + 2) "size" (if so_include_memory options then so_memory_size options else 0) true
        +:+ (indent (fieldIndent + 2) +:+ field_name "bytes" +:+ number_list bytes +:+ newline_text)
        +:+ close_object fieldIndent comma).

Definition Snapshot_appendExecutable (md : ExecutableMetadata) (fieldIndent : nat) (comma : bool) : string :=
  open_object fieldIndent "executable"
  +:+ stringField (fieldIndent + 2) "source_name" (md_source_name md) true
  +:+ sizeField (fieldIndent + 2) "memory_size" (md_memory_size md) true
  +:+ sizeField (fieldIndent + 2) "code_base" (md_code_base md) true
  +:+ sizeField (fieldIndent + 2) "code_size" (md_code_size md) true
  +:+ sizeField (fieldIndent + 2) "code_end_exclusive" (md_code_end_exclusive md) true
  +:+ sizeField (fieldIndent + 2) "entry_point" (md_entry_point md) true
  +:+ sizeField (fieldIndent + 2) "data_base" (md_data_base md) true
  +:+ sizeField (fieldIndent + 2) "data_size" (md_data_size md) true
  +:+ sizeField (fieldIndent + 2) "user_stack_begin" (md_user_stack_begin md) true
  +:+ sizeField (fieldIndent + 2) "user_stack_end_exclusive" (md_user_stack_end_exclusive md) false
  +:+ close_object fieldIndent comma.

Definition Snapshot_appendProcessExecutable (snapshot : ProcessDebugSnapshot) (fieldIndent : nat) (comma : bool) : string :=
  open_object fieldIndent "executable"
  +:+ boolField (fieldIndent + 2) "available" (pd_has_executable_image snapshot) true
  +:+ sizeField (fieldIndent + 2) "code_base" (pd_code_base snapshot) true
  +:+ sizeField (fieldIndent + 2) "code_end_exclusive" (pd_code_end_exclusive snapshot) true
  +:+ sizeField (fieldIndent + 2) "entry_point" (pd_entry_point snapshot) true
  +:+ sizeField (fieldIndent + 2) "data_base" (pd_data_base snapshot) true
  +:+ sizeField (fieldIndent + 2) "data_size" (pd_data_size snapshot) false
  +:+ close_object fieldIndent comma.

(** ** Stops *)

(** The fields of a conditional breakpoint and a watchpoint that were hit, or their
    cleared values. *)
Definition no_conditional : ConditionalHit := {| ch_id := 0; ch_expression := ""; ch_actual_value := 0 |}.
Definition no_watch : WatchHit :=
  {| wh_id := 0; wh_mode := Watch_Access; wh_address := 0; wh_size := 0; wh_access_mode := Watch_Access; wh_access_address := 0 |}.

Definition Snapshot_appendSingleStop (stop : DebugStop) (fieldIndent : nat) (comma : bool) : string :=
  let conditional := default no_conditional (stop_conditional stop) in
  let watch := default no_watch (stop_watchpoint stop) in
  open_object fieldIndent "stop"
  +:+ stringField (fieldIndent + 2) "reason" (debugStopReasonToString (stop_reason stop)) true
  +:+ sizeField (fieldIndent + 2) "pc" (stop_pc stop) true
  +:+ sizeField (fieldIndent + 2) "executed_steps" (stop_executed_steps stop) true
  +:+ sizeField (fieldIndent + 2) "total_steps" (stop_total_steps stop) true
  +:+ stringField (fieldIndent + 2) "message" (stop_message stop) true
  +:+ boolField (fieldIndent + 2) "has_conditional_breakpoint" (is_some (stop_conditional stop)) true
  +:+ sizeField (fieldIndent + 2) "conditional_breakpoint_id" (ch_id conditional) true
  +:+ stringField (fieldIndent + 2) "conditional_expression" (ch_expression conditional) true
  +:+ int64Field (fieldIndent + 2) "conditional_actual_value" (ch_actual_value conditional) true
  +:+ boolField (fieldIndent + 2) "has_watchpoint" (is_some (stop_watchpoint stop)) true
  +:+ sizeField (fieldIndent + 2) "watchpoint_id" (wh_id watch) true
  +:+ stringField (fieldIndent + 2) "watchpoint_mode" (memoryWatchModeToString (wh_mode watch)) true
  +:+ sizeField (fieldIndent + 2) "watchpoint_address" (wh_address watch) true
  +:+ sizeField (fieldIndent + 2) "watchpoint_size" (wh_size watch) true
  +:+ stringField (fieldIndent + 2) "access_mode" (memoryWatchModeToString (wh_access_mode watch)) true
  +:+ sizeField (fieldIndent + 2) "access_address" (wh_access_address watch) false
  +:+ close_object fieldIndent comma.

Definition Snapshot_appendMultiStop (stop : MultiProcessDebugStop) (fieldIndent : nat) (comma : bool) : string :=
  let detail := mstop_detail stop in
  let hit := default (0, 0) (sd_hit detail) in
  let conditional := default no_conditional (sd_conditional detail) in
  let watch := default no_watch (sd_watchpoint detail) in
  let terminated := default (false, 0) (sd_terminated detail) in
  open_object fieldIndent "stop"
  +:+ stringField (fieldIndent + 2) "reason" (multiProcessDebugStopReasonToString (mstop_reason stop)) true
  +:+ stringField (fieldIndent + 2) "runtime_state" (processRuntimeStateToString (mstop_runtime_state stop)) true
  +:+ sizeField (fieldIndent + 2) "executed_steps" (mstop_executed_steps stop) true
  +:+ sizeField (fieldIndent + 2) "total_steps" (mstop_total_steps stop) true
  +:+ sizeField (fieldIndent + 2) "running_pid" (mstop_running_pid stop) true
  +:+ sizeField (fieldIndent + 2) "selected_pid" (mstop_selected_pid stop) true
  +:+ boolField (fieldIndent + 2) "has_debug_hit" (is_some (sd_hit detail)) true
  +:+ sizeField (fieldIndent + 2) "hit_pid" hit.1 true
  +:+ sizeField (fieldIndent + 2) "hit_address" hit.2 true
  +:+ boolField (fieldIndent + 2) "has_conditional_breakpoint" (is_some (sd_conditional detail)) true
  +:+ sizeField (fieldIndent + 2) "conditional_breakpoint_id" (ch_id conditional) true
  +:+ stringField (fieldIndent + 2) "conditional_expression" (ch_expression conditional) true
  +:+ int64Field (fieldIndent + 2) "conditional_actual_value" (ch_actual_value conditional) true
  +:+ boolField (fieldIndent + 2) "has_watchpoint" (is_some (sd_watchpoint detail)) true
  +:+ sizeField (fieldIndent + 2) "watchpoint_id" (wh_id watch) true
  +:+ stringField (fieldIndent + 2) "watchpoint_mode" (processMemoryWatchModeToString (wh_mode watch)) true
  +:+ sizeField (fieldIndent + 2) "watchpoint_address" (wh_address watch) true
  +:+ sizeField (fieldIndent + 2) "watchpoint_size" (wh_size watch) true
  +:+ stringField (fieldIndent + 2) "access_mode" (processMemoryWatchModeToString (wh_access_mode watch)) true
  +:+ sizeField (fieldIndent + 2) "access_address" (wh_access_address watch) true
  +:+ boolField (fieldIndent + 2) "process_terminated" (is_some (sd_terminated detail)) true
  +:+ boolField (fieldIndent + 2) "process_faulted" terminated.1 true
  +:+ sizeField (fieldIndent + 2) "terminated_pid" terminated.2 true
  +:+ stringField (fieldIndent + 2) "message" (mstop_message stop) false
  +:+ close_object fieldIndent comma.

(** ** Source locations and symbols *)

(** [try { line = ...; available = true; } catch (const std::exception&) {}] *)
Definition source_location (symbols : option DebugSymbols) (address : Z) : bool * string * Z :=
  match symbols with
  | Some symbols =>
      if DebugSymbols_hasSourceLocations symbols then
        match DebugSymbols_sourceLineForAddress address symbols with
        | Ret line => (true, sy_source_path symbols, line)
        | Throw _ => (false, sy_source_path symbols, 0)
        end
      else (false, EmptyString, 0)
  | None => (false, EmptyString, 0)
  end.

Definition Snapshot_appendSourceLocation (symbols : option DebugSymbols) (address : Z) (fieldIndent : nat) (comma : bool) : string :=
  let '(available, path, line) := source_location symbols address in
  open_object fieldIndent "source_location"
  +:+ boolField (fieldIndent + 2) "available" available true
  +:+ stringField (fieldIndent + 2) "path" path true
  +:+ sizeField (fieldIndent + 2) "line" line true
  +:+ sizeField (fieldIndent + 2) "address" address false
  +:+ close_object fieldIndent comma.

Definition Snapshot_appendSymbolEntries (symbols : DebugSymbols) (fieldIndent : nat) (comma : bool) : string :=
  open_array fieldIndent "entries"
  +:+ json_items
        (fun symbol comma =>
           open_element (fieldIndent + 2)
           +:+ stringField (fieldIndent + 4) "kind" (debugSymbolKindToString (dy_kind symbol)) true
           +:+ stringField (fieldIndent + 4) "name" (dy_name symbol) true
           +:+ sizeField (fieldIndent + 4) "address" (dy_address symbol) false
           +:+ close_object (fieldIndent + 2) comma) (sy_entries symbols)
  +:+ close_array fieldIndent comma.

(** ** One process *)

Section single.
Context {H : Type}.
Abbreviation Session := (DebugSession H).
Implicit Types (session : Session).

Definition Snapshot_appendSingleBreakpoints session (fieldIndent : nat) (comma : bool) : outcome string :=
  values ← read_session DebugSession_breakpoints session;
  mret (indent fieldIndent +:+ field_name "breakpoints" +:+ number_list values +:+ finishField comma).

Definition Snapshot_appendSingleConditionalBreakpoints session (fieldIndent : nat) (comma : bool) : outcome string :=
  values ← read_session conditionalBreakpoints session;
  mret (open_array fieldIndent "conditional_breakpoints"
        +:+ json_items
              (fun breakpoint comma =>
                 open_element (fieldIndent + 2)
                 +:+ sizeField (fieldIndent + 4) "id" (cb_id breakpoint) true
                 +:+ sizeField (fieldIndent + 4) "address" (cb_address breakpoint) true
                 +:+ stringField (fieldIndent + 4) "expression" (expression (cb_condition breakpoint)) false
                 +:+ close_object (fieldIndent + 2) comma) values
        +:+ close_array fieldIndent comma).

Definition Snapshot_appendSingleWatchpoints session (fieldIndent : nat) (comma : bool) : outcome string :=
  values ← read_session DebugSession_watchpoints session;
  mret (open_array fieldIndent "watchpoints"
        +:+ json_items
              (fun watchpoint comma =>
                 open_element (fieldIndent + 2)
                 +:+ sizeField (fieldIndent + 4) "id" (wp_id watchpoint) true
                 +:+ stringField (fieldIndent + 4) "mode" (memoryWatchModeToString (wp_mode watchpoint)) true
                 +:+ sizeField (fieldIndent + 4) "address" (wp_address watchpoint) true
                 +:+ sizeField (fieldIndent + 4) "size" (wp_size watchpoint) false
                 +:+ close_object (fieldIndent + 2) comma) values
        +:+ close_array fieldIndent comma).

Definition Snapshot_appendSingleSymbols session (options : DebugSnapshotOptions) (fieldIndent : nat) (comma : bool) : outcome string :=
  has ← (if so_include_symbols options then read_session DebugSession_hasSymbols session else mret false);
  entries ← (if has : bool then
               symbols ← read_session DebugSession_symbols session;
               mret (Snapshot_appendSymbolEntries symbols (fieldIndent + 2) false)
             else mret (indent (fieldIndent + 2) +:+ field_name "entries" +:+ "[]" +:+ newline_text));
  mret (open_object fieldIndent "symbols"
        +:+ boolField (fieldIndent + 2) "included" has true
        +:+ entries
        +:+ close_object fieldIndent comma).

Definition Snapshot_appendLastTrace (c : CPU) (options : DebugSnapshotOptions) (fieldIndent : nat) (comma : bool) : outcome string :=
  if negb (so_include_last_trace options) || bool_decide (trace_logger c = [])
  then mret (nullField fieldIndent "last_trace" comma)
  else
    event ← TraceLogger_last (trace_logger c);
    a ← TraceEvent_analyze event;
    compact ← toCompactString event a;
    full ← toFullString event a;
    mret (open_object fieldIndent "last_trace"
          +:+ stringField (fieldIndent + 2) "compact" compact true
          +:+ stringField (fieldIndent + 2) "full" full false
          +:+ close_object fieldIndent comma).

Definition DebugSnapshotJsonWriter_toJson session (options : DebugSnapshotOptions) : outcome string :=
  _ ← throw_if (negb (DebugSession_loaded session)) (RuntimeError "Cannot snapshot an unloaded debug session");
  c ← read_session DebugSession_cpu session;
  _ ← validateMemoryOptions (memory (state c)) options;
  source_name ← read_session DebugSession_sourceName session;
  total ← read_session DebugSession_totalSteps session;
  stop ← read_session DebugSession_lastStop session;
  cpu_text ← Snapshot_appendCPU c 2 true;
  md ← read_session DebugSession_metadata session;
  has ← read_session DebugSession_hasSymbols session;
  symbols ← (if has : bool then Some <$> read_session DebugSession_symbols session else mret None);
  breakpoints ← Snapshot_appendSingleBreakpoints session 2 true;
  conditionals ← Snapshot_appendSingleConditionalBreakpoints session 2 true;
  watchpoints ← Snapshot_appendSingleWatchpoints session 2 true;
  symbols_text ← Snapshot_appendSingleSymbols session options 2 true;
  memory_text ← Snapshot_appendMemory (memory (state c)) options 2 true;
  trace ← Snapshot_appendLastTrace c options 2 false;
  mret ("{" +:+ newline_text
        +:+ stringField 2 "schema" "zero_cpu_debug_snapshot" true
        +:+ sizeField 2 "schema_version" kSnapshotSchemaVersion true
        +:+ stringField 2 "mode" "single_process" true
        +:+ stringField 2 "source_name" source_name true
        +:+ sizeField 2 "total_steps" total true
        +:+ Snapshot_appendSingleStop stop 2 true
        +:+ cpu_text
        +:+ Snapshot_appendExecutable md 2 true
        +:+ Snapshot_appendSourceLocation symbols (pc (state c)) 2 true
        +:+ breakpoints
        +:+ conditionals
        +:+ watchpoints
        +:+ symbols_text
        +:+ memory_text
        +:+ trace
        +:+ "}" +:+ newline_text).
End single.

(** ** Several processes *)

Section multi.
Context {H : Type}.
Abbreviation Session := (MultiProcessDebugSession H).
Implicit Types (session : Session).

Definition Snapshot_appendMultiBreakpoints session (fieldIndent : nat) (comma : bool) : outcome string :=
  values ← read_session Multi_breakpoints session;
  mret (open_array fieldIndent "breakpoints"
        +:+ json_items
              (fun breakpoint comma =>
                 open_element (fieldIndent + 2)
                 +:+ sizeField (fieldIndent + 4) "pid" (pb_pid breakpoint) true
                 +:+ sizeField (fieldIndent + 4) "address" (pb_address breakpoint) false
                 +:+ close_object (fieldIndent + 2) comma) values
        +:+ close_array fieldIndent comma).

Definition Snapshot_appendMultiConditionalBreakpoints session (fieldIndent : nat) (comma : bool) : outcome string :=
  values ← read_session Multi_conditionalBreakpoints session;
  mret (open_array fieldIndent "conditional_breakpoints"
        +:+ json_items
              (fun breakpoint comma =>
                 open_element (fieldIndent + 2)
                 +:+ sizeField (fieldIndent + 4) "id" (pc_id breakpoint) true
                 +:+ sizeField (fieldIndent + 4) "pid" (pc_pid breakpoint) true
                 +:+ sizeField (fieldIndent + 4) "address" (pc_address breakpoint) true
                 +:+ stringField (fieldIndent + 4) "expression" (expression (pc_condition breakpoint)) false
                 +:+ close_object (fieldIndent + 2) comma) values
        +:+ close_array fieldIndent comma).

Definition Snapshot_appendMultiWatchpoints session (fieldIndent : nat) (comma : bool) : outcome string :=
  values ← read_session Multi_watchpoints session;
  mret (open_array fieldIndent "watchpoints"
        +:+ json_items
              (fun watchpoint comma =>
                 open_element (fieldIndent + 2)
                 +:+ sizeField (fieldIndent + 4) "id" (pw_id watchpoint) true
                 +:+ sizeField (fieldIndent + 4) "pid" (pw_pid watchpoint) true
                 +:+ stringField (fieldIndent + 4) "mode" (processMemoryWatchModeToString (pw_mode watchpoint)) true
                 +:+ sizeField (fieldIndent + 4) "address" (pw_address watchpoint) true
                 +:+ sizeField (fieldIndent + 4) "size" (pw_size watchpoint) false
                 +:+ close_object (fieldIndent + 2) comma) values
        +:+ close_array fieldIndent comma).

Definition Snapshot_appendProcess (snapshot : ProcessDebugSnapshot) (symbols : option DebugSymbols) (options : DebugSnapshotOptions)
    (fieldIndent : nat) (comma : bool) : outcome string :=
  context ← Snapshot_appendProcessContext (pd_context snapshot) (fieldIndent + 2) true;
  memory_text ← Snapshot_appendMemory (pd_memory snapshot) options (fieldIndent + 2) false;
  mret (open_element fieldIndent
        +:+ sizeField (fieldIndent + 2) "pid" (pd_pid snapshot) true
        +:+ stringField (fieldIndent + 2) "source_name" (pd_source_name snapshot) true
        +:+ stringField (fieldIndent + 2) "state" (processStateToString (pd_state snapshot)) true
        +:+ boolField (fieldIndent + 2) "running" (pd_running snapshot) true
        +:+ boolField (fieldIndent + 2) "terminated" (ProcessDebugSnapshot_terminated snapshot) true
        +:+ boolField (fieldIndent + 2) "faulted" (ProcessDebugSnapshot_faulted snapshot) true
        +:+ boolField (fieldIndent + 2) "has_exit_code" (pd_has_exit_code snapshot) true
        +:+ int64Field (fieldIndent + 2) "exit_code" (pd_exit_code snapshot) true
        +:+ stringField (fieldIndent + 2) "termination_kind" (processTerminationKindToString (pd_termination_kind snapshot)) true
        +:+ stringField (fieldIndent + 2) "termination_message" (pd_termination_message snapshot) true
        +:+ context
        +:+ Snapshot_appendProcessExecutable snapshot (fieldIndent + 2) true
        +:+ Snapshot_appendSourceLocation symbols (ctx_pc (pd_context snapshot)) (fieldIndent + 2) true
        +:+ memory_text
        +:+ close_object fieldIndent comma).

Definition Snapshot_appendProcesses session (options : DebugSnapshotOptions) (fieldIndent : nat) (comma : bool) : outcome string :=
  values ← Multi_processSnapshots session;
  items ← json_items_from
    (fun snapshot _ comma =>
       has ← read_session (Multi_hasSymbols (pd_pid snapshot)) session;
       symbols ← (if has : bool then Some <$> read_session (Multi_symbols (pd_pid snapshot)) session else mret None);
       Snapshot_appendProcess snapshot symbols options (fieldIndent + 2) comma)
    0 values;
  mret (open_array fieldIndent "processes" +:+ items +:+ close_array fieldIndent comma).

(** The processes with symbols. *)
Fixpoint with_symbols session (snapshots : list ProcessDebugSnapshot) : outcome (list (ProcessId * DebugSymbols)) :=
  match snapshots with
  | [] => mret []
  | snapshot :: snapshots =>
      has ← read_session (Multi_hasSymbols (pd_pid snapshot)) session;
      if negb has then with_symbols session snapshots
      else
        symbols ← read_session (Multi_symbols (pd_pid snapshot)) session;
        rest ← with_symbols session snapshots;
        mret ((pd_pid snapshot, symbols) :: rest)
  end.

(** The element without its line end: a comma comes in front of the next one. *)
Definition symbols_element (fieldIndent : nat) (entry : ProcessId * DebugSymbols) : string :=
  open_element (fieldIndent + 2)
  +:+ sizeField (fieldIndent + 4) "pid" entry.1 true
  +:+ Snapshot_appendSymbolEntries entry.2 (fieldIndent + 4) false
  +:+ indent (fieldIndent + 2) +:+ "}".

Definition Snapshot_appendMultiSymbols session (options : DebugSnapshotOptions) (fieldIndent : nat) (comma : bool) : outcome string :=
  snapshots ← Multi_processSnapshots session;
  values ← (if so_include_symbols options then with_symbols session snapshots else mret []);
  mret (open_array fieldIndent "symbols"
        +:+ String.concat ("," +:+ newline_text) (symbols_element fieldIndent <$> values)
        +:+ (if bool_decide (values = []) then EmptyString else newline_text)
        +:+ close_array fieldIndent comma).

Definition Snapshot_appendContextSwitches session (fieldIndent : nat) (comma : bool) : outcome string :=
  values ← read_session Multi_contextSwitches session;
  mret (open_array fieldIndent "context_switches"
        +:+ json_items
              (fun record comma =>
                 open_element (fieldIndent + 2)
                 +:+ sizeField (fieldIndent + 4) "lifecycle_step" (cs_lifecycle_step record) true
                 +:+ sizeField (fieldIndent + 4) "from_pid" (cs_from_pid record) true
                 +:+ sizeField (fieldIndent + 4) "to_pid" (cs_to_pid record) true
                 +:+ boolField (fieldIndent + 4) "preempted" (cs_preempted record) true
                 +:+ boolField (fieldIndent + 4) "caused_by_termination" (cs_caused_by_termination record) false
                 +:+ close_object (fieldIndent + 2) comma) values
        +:+ close_array fieldIndent comma).

Definition DebugSnapshotJsonWriter_toJson_multi session (options : DebugSnapshotOptions) : outcome string :=
  snapshots ← Multi_processSnapshots session;
  _ ← mapM (fun snapshot => validateMemoryOptions (pd_memory snapshot) options) snapshots;
  runtime_state ← read_session Multi_runtimeState session;
  total ← read_session Multi_totalSteps session;
  running ← read_session Multi_runningPid session;
  selected ← read_session Multi_selectedPid session;
  preemptions ← read_session Multi_preemptionCount session;
  switch_count ← read_session Multi_schedulerContextSwitchCount session;
  stop ← read_session Multi_lastStop session;
  processes ← Snapshot_appendProcesses session options 2 true;
  breakpoints ← Snapshot_appendMultiBreakpoints session 2 true;
  conditionals ← Snapshot_appendMultiConditionalBreakpoints session 2 true;
  watchpoints ← Snapshot_appendMultiWatchpoints session 2 true;
  symbols ← Snapshot_appendMultiSymbols session options 2 true;
  switches ← Snapshot_appendContextSwitches session 2 true;
  c ← read_session Multi_cpu session;
  trace ← Snapshot_appendLastTrace c options 2 false;
  mret ("{" +:+ newline_text
        +:+ stringField 2 "schema" "zero_cpu_debug_snapshot" true
        +:+ sizeField 2 "schema_version" kSnapshotSchemaVersion true
        +:+ stringField 2 "mode" "multi_process" true
        +:+ stringField 2 "runtime_state" (processRuntimeStateToString runtime_state) true
        +:+ sizeField 2 "total_steps" total true
        +:+ sizeField 2 "running_pid" running true
        +:+ sizeField 2 "selected_pid" selected true
        +:+ uint64Field 2 "quantum" (Multi_quantum session) true
        +:+ uint64Field 2 "preemption_count" preemptions true
        +:+ uint64Field 2 "scheduler_context_switch_count" switch_count true
        +:+ Snapshot_appendMultiStop stop 2 true
        +:+ processes
        +:+ breakpoints
        +:+ conditionals
        +:+ watchpoints
        +:+ symbols
        +:+ switches
        +:+ trace
        +:+ "}" +:+ newline_text).
End multi.
