(* ===== verification/SnapshotLaws.v ===== *)
(** * The JSON documents of debug snapshots

    The JSON value that describes the state of a debug session, and the proof that
    the text of [DebugSnapshotJson] is read back as it. *)

From S2P Require Import Prelude Words Strings Text ALU Memory ISA CPUState Trace TraceDetail CPU Image Process ProcTable Preemption Lifecycle Runner DebugCondition DebugSymbols DebugSession DebugLaws MultiDebugSession MultiDebugLaws Json TraceJson TraceJsonDiff JsonGrammar JsonText TraceDocument DebugSnapshotJson.
From stdpp Require Import sorting.
Open Scope Z_scope.

(** ** Numbers on one line *)

Definition numbers (l : list Z) : list JsonValue := JsonNumber <$> l.

Lemma number_elements x l : Forall is_i64 (x :: l) -> elements_text (String.concat ", " (pretty <$> x :: l)) (numbers (x :: l)).
Proof.
  revert x. induction l as [|y l IH]; intros x Hl; apply Forall_cons in Hl as [Hx Hl].
  - cbn. rewrite <- (append_nil (pretty x)). apply LT_last; [apply number_value, Hx | reflexivity].
  - change (elements_text (pretty x +:+ EmptyString +:+ "," +:+ " " +:+ String.concat ", " (pretty <$> y :: l)) (numbers (x :: y :: l))).
    apply LT_more; [apply number_value, Hx | reflexivity | reflexivity | apply IH, Hl].
Qed.

Lemma number_list_text l : Forall is_i64 l -> value_text (number_list l) (JsonArray (numbers l)).
Proof.
  destruct l as [|x l]; intros Hl; [exact (VT_no_elements EmptyString eq_refl)|].
  exact (VT_array EmptyString _ _ eq_refl (number_elements x l Hl)).
Qed.

Lemma number_list_field n name l comma : Forall is_i64 l ->
  field_text comma (indent n +:+ field_name name +:+ number_list l +:+ finishField comma) name (JsonArray (numbers l)).
Proof. intros Hl. apply plain_field, number_list_text, Hl. Qed.

(** ** The CPU, the memory and the executable *)

Definition flags_fields (raw : Z) : list JsonField :=
  [num "raw" raw; flag "zero" (Flags_zero raw); flag "sign" (Flags_sign raw); flag "carry" (Flags_carry raw);
   flag "overflow" (Flags_overflow raw)].

Definition cpu_fields (s : CPUState) : outcome (list JsonField) :=
  registers ← mapM (register_field s) register_names;
  mret [num "pc" (pc s); num "sp" (sp s); str "privilege" (privilegeLevelToString (privilege_level s)); flag "halted" (halted s);
        flag "has_error" (has_error s); str "error_message" (error_message s); obj "registers" registers;
        obj "flags" (flags_fields (flags s))].

Definition memory_fields (m : Memory) (o : DebugSnapshotOptions) : outcome (list JsonField) :=
  bytes ← (if so_include_memory o then Memory_readBytes m (so_memory_address o) (so_memory_size o) else mret []);
  mret [flag "included" (so_include_memory o);
        num "address" (if so_include_memory o then so_memory_address o else 0);
        num "size" (if so_include_memory o then so_memory_size o else 0); arr "bytes" (numbers bytes)].

Definition executable_fields (md : ExecutableMetadata) : list JsonField :=
  [str "source_name" (md_source_name md); num "memory_size" (md_memory_size md); num "code_base" (md_code_base md);
   num "code_size" (md_code_size md); num "code_end_exclusive" (md_code_end_exclusive md);
   num "entry_point" (md_entry_point md); num "data_base" (md_data_base md); num "data_size" (md_data_size md);
   num "user_stack_begin" (md_user_stack_begin md); num "user_stack_end_exclusive" (md_user_stack_end_exclusive md)].

Definition metadata_fits (md : ExecutableMetadata) : Prop :=
  is_i64 (md_memory_size md) /\ is_i64 (md_code_base md) /\ is_i64 (md_code_size md) /\ is_i64 (md_code_end_exclusive md) /\
  is_i64 (md_entry_point md) /\ is_i64 (md_data_base md) /\ is_i64 (md_data_size md) /\ is_i64 (md_user_stack_begin md) /\
  is_i64 (md_user_stack_end_exclusive md).

Definition options_fit (o : DebugSnapshotOptions) : Prop := is_i64 (so_memory_address o) /\ is_i64 (so_memory_size o).

Lemma snapshot_flags_text raw n comma : is_i64 raw -> field_text comma (Snapshot_appendFlags raw n comma) "flags" (json_of (flags_fields raw)).
Proof. intros Hraw. unfold Snapshot_appendFlags. apply object_field; [object_fields | distinct_names]. Qed.

Lemma snapshot_registers_text s n comma t : state_fits s -> Snapshot_appendRegisters (registers s) n comma = Ret t ->
  exists l, mapM (register_field s) register_names = Ret l /\ field_text comma t "registers" (json_of l).
Proof. exact (registers_text s n comma t). Qed.

Lemma cpu_text c n comma t : state_fits (state c) -> Snapshot_appendCPU c n comma = Ret t ->
  exists l, cpu_fields (state c) = Ret l /\ field_text comma t "cpu" (json_of l).
Proof.
  intros Hf E. unfold Snapshot_appendCPU in E. cbv zeta in E. apply bind_ret_inv in E as (regs & E & Et). injection Et as <-.
  destruct (snapshot_registers_text _ _ _ _ Hf E) as (l & Hl & Hr). unfold cpu_fields. rewrite Hl, bind_Ret. eexists. split; [reflexivity|].
  pose proof (snapshot_flags_text (flags (state c)) (n + 2) false (sf_flags _ Hf)) as Hflags. destruct Hf as [_ _ _ Hpc Hsp _].
  apply object_field; [object_fields | distinct_names].
Qed.

Lemma read_bytes_fit m a n l : Forall is_i64 m -> Memory_readBytes m a n = Ret l -> Forall is_i64 l.
Proof.
  intros Hm E. unfold Memory_readBytes in E. apply bind_ret_inv in E as (u & _ & E). injection E as <-.
  apply Forall_take, Forall_drop, Hm.
Qed.

Lemma memory_text m o n comma t : Forall is_i64 m -> options_fit o -> Snapshot_appendMemory m o n comma = Ret t ->
  exists l, memory_fields m o = Ret l /\ field_text comma t "memory" (json_of l).
Proof.
  intros Hm [Ha Hs] E. unfold Snapshot_appendMemory in E. apply bind_ret_inv in E as (u & _ & E).
  apply bind_ret_inv in E as (bytes & Hbytes & Et). injection Et as <-. unfold memory_fields. rewrite Hbytes, bind_Ret.
  eexists. split; [reflexivity|].
  assert (Hb : Forall is_i64 bytes).
  { destruct (so_include_memory o); [exact (read_bytes_fit _ _ _ _ Hm Hbytes) | injection Hbytes as <-; constructor]. }
  assert (H0 : is_i64 0) by words.
  assert (Ha' : is_i64 (if so_include_memory o then so_memory_address o else 0)) by (destruct (so_include_memory o); assumption).
  assert (Hs' : is_i64 (if so_include_memory o then so_memory_size o else 0)) by (destruct (so_include_memory o); assumption).
  pose proof (number_list_field (n + 2) "bytes" bytes false Hb) as Hbf.
  apply object_field; [|distinct_names]. do 3 (apply OR_more; [one_field|]). apply OR_last, Hbf.
Qed.

Lemma executable_text md n comma : metadata_fits md ->
  field_text comma (Snapshot_appendExecutable md n comma) "executable" (json_of (executable_fields md)).
Proof.
  intros (H1 & H2 & H3 & H4 & H5 & H6 & H7 & H8 & H9). unfold Snapshot_appendExecutable.
  apply object_field; [object_fields | distinct_names].
Qed.

(** ** Stops *)

Definition conditional_fits (c : ConditionalHit) : Prop := is_i64 (ch_id c) /\ is_i64 (ch_actual_value c).
Definition watch_fits (w : WatchHit) : Prop :=
  is_i64 (wh_id w) /\ is_i64 (wh_address w) /\ is_i64 (wh_size w) /\ is_i64 (wh_access_address w).

Definition conditional_fields (hit : option ConditionalHit) : list JsonField :=
  let conditional := default no_conditional hit in
  [flag "has_conditional_breakpoint" (is_some hit); num "conditional_breakpoint_id" (ch_id conditional);
   str "conditional_expression" (ch_expression conditional); num "conditional_actual_value" (ch_actual_value conditional)].

Definition watch_fields (hit : option WatchHit) : list JsonField :=
  let watch := default no_watch hit in
  [flag "has_watchpoint" (is_some hit); num "watchpoint_id" (wh_id watch);
   str "watchpoint_mode" (memoryWatchModeToString (wh_mode watch)); num "watchpoint_address" (wh_address watch);
   num "watchpoint_size" (wh_size watch); str "access_mode" (memoryWatchModeToString (wh_access_mode watch));
   num "access_address" (wh_access_address watch)].

Definition stop_fields (stop : DebugStop) : list JsonField :=
  [str "reason" (debugStopReasonToString (stop_reason stop)); num "pc" (stop_pc stop);
   num "executed_steps" (stop_executed_steps stop); num "total_steps" (stop_total_steps stop); str "message" (stop_message stop)]
  ++ conditional_fields (stop_conditional stop) ++ watch_fields (stop_watchpoint stop).

Definition stop_fits (stop : DebugStop) : Prop :=
  is_i64 (stop_pc stop) /\ is_i64 (stop_executed_steps stop) /\ is_i64 (stop_total_steps stop) /\
  conditional_fits (default no_conditional (stop_conditional stop)) /\ watch_fits (default no_watch (stop_watchpoint stop)).

Lemma stop_text stop n comma : stop_fits stop -> field_text comma (Snapshot_appendSingleStop stop n comma) "stop" (json_of (stop_fields stop)).
Proof.
  intros (H1 & H2 & H3 & (H4 & H5) & (H6 & H7 & H8 & H9)). unfold Snapshot_appendSingleStop. cbv zeta.
  apply object_field; [object_fields | distinct_names].
Qed.

(** ** Source locations and symbols *)

Definition symbols_fit (symbols : DebugSymbols) : Prop :=
  Forall (fun y => is_i64 (dy_address y)) (sy_entries symbols) /\ Forall (fun l => is_i64 (sl_line l)) (sy_source_locations symbols).

Definition location_fields (symbols : option DebugSymbols) (address : Z) : list JsonField :=
  let '(available, path, line) := source_location symbols address in
  [flag "available" available; str "path" path; num "line" line; num "address" address].

Definition symbol_value (symbol : DebugSymbol) : JsonValue :=
  json_of [str "kind" (debugSymbolKindToString (dy_kind symbol)); str "name" (dy_name symbol); num "address" (dy_address symbol)].

Lemma line_fits symbols address : (forall y, symbols = Some y -> symbols_fit y) -> is_i64 (source_location symbols address).2.
Proof.
  intros Hs. unfold source_location. destruct symbols as [y|]; [|cbn; words]. destruct (Hs y eq_refl) as [_ Hl].
  destruct (DebugSymbols_hasSourceLocations y); [|cbn; words]. unfold DebugSymbols_sourceLineForAddress.
  destruct (list_find _ (sy_source_locations y)) as [[i l]|] eqn:E; [|cbn; words].
  apply list_find_Some in E as (E & _). rewrite Forall_lookup in Hl. exact (Hl _ _ E).
Qed.

Lemma location_text symbols address n comma : (forall y, symbols = Some y -> symbols_fit y) -> is_i64 address ->
  field_text comma (Snapshot_appendSourceLocation symbols address n comma) "source_location" (json_of (location_fields symbols address)).
Proof.
  intros Hs Ha. pose proof (line_fits symbols address Hs) as Hl. unfold Snapshot_appendSourceLocation, location_fields.
  destruct (source_location symbols address) as [[available path] line]. cbn [snd] in Hl.
  apply object_field; [object_fields | distinct_names].
Qed.

Lemma entries_text symbols n comma : symbols_fit symbols ->
  field_text comma (Snapshot_appendSymbolEntries symbols n comma) "entries" (JsonArray (symbol_value <$> sy_entries symbols)).
Proof.
  intros [Hs _]. rewrite Forall_forall in Hs. apply array_field. intros y c Hy. specialize (Hs y Hy).
  apply object_element; [object_fields | distinct_names].
Qed.

(** ** The last trace event *)

Definition last_trace_field (c : CPU) (o : DebugSnapshotOptions) : outcome JsonField :=
  if negb (so_include_last_trace o) || bool_decide (trace_logger c = []) then mret ("last_trace", JsonNull)
  else
    event ← TraceLogger_last (trace_logger c);
    a ← TraceEvent_analyze event;
    compact ← toCompactString event a;
    full ← toFullString event a;
    mret (obj "last_trace" [str "compact" compact; str "full" full]).

Lemma last_trace_text c o n comma t : Snapshot_appendLastTrace c o n comma = Ret t ->
  exists f, last_trace_field c o = Ret f /\ f.1 = "last_trace" /\ field_text comma t f.1 f.2.
Proof.
  unfold Snapshot_appendLastTrace, last_trace_field. destruct (_ || _).
  - intros [= <-]. eexists. split; [reflexivity|]. split; [reflexivity | apply null_field].
  - intros E. apply bind_ret_inv in E as (e & He & E). apply bind_ret_inv in E as (a & Ha & E).
    apply bind_ret_inv in E as (compact & Hc & E). apply bind_ret_inv in E as (full & Hf & E). injection E as <-.
    rewrite He, bind_Ret, Ha, bind_Ret, Hc, bind_Ret, Hf, bind_Ret. eexists. split; [reflexivity|]. split; [reflexivity|].
    apply object_field; [object_fields | distinct_names].
Qed.

(** ** One process *)

Section single.
Context {H : Type}.
Implicit Types (s : DebugSession H).

Definition loaded_symbols s : option DebugSymbols := if DebugSymbols_empty (ds_symbols s) then None else Some (ds_symbols s).
Definition included_symbols s (o : DebugSnapshotOptions) : option DebugSymbols :=
  if so_include_symbols o then loaded_symbols s else None.

Definition conditional_value (b : ConditionalBreakpoint) : JsonValue :=
  json_of [num "id" (cb_id b); num "address" (cb_address b); str "expression" (expression (cb_condition b))].
Definition watchpoint_value (w : MemoryWatchpoint) : JsonValue :=
  json_of [num "id" (wp_id w); str "mode" (memoryWatchModeToString (wp_mode w)); num "address" (wp_address w); num "size" (wp_size w)].
Definition symbols_fields (symbols : option DebugSymbols) : list JsonField :=
  [flag "included" (is_some symbols);
   arr "entries" (match symbols with Some y => symbol_value <$> sy_entries y | None => [] end)].

(** The document of a loaded session. *)
Definition snapshot_fields s (o : DebugSnapshotOptions) : outcome (list JsonField) :=
  let c := session_cpu s in
  cpu ← cpu_fields (state c);
  memory ← memory_fields (memory (state c)) o;
  trace ← last_trace_field c o;
  mret [str "schema" "zero_cpu_debug_snapshot"; num "schema_version" 2; str "mode" "single_process";
        str "source_name" (ds_source_name s); num "total_steps" (ds_total_steps s); obj "stop" (stop_fields (ds_last_stop s));
        obj "cpu" cpu; obj "executable" (executable_fields (ds_metadata s));
        obj "source_location" (location_fields (loaded_symbols s) (pc (state c)));
        arr "breakpoints" (numbers (merge_sort Z.le (elements (ds_breakpoints s))));
        arr "conditional_breakpoints" (conditional_value <$> ds_conditional_breakpoints s);
        arr "watchpoints" (watchpoint_value <$> ds_watchpoints s);
        obj "symbols" (symbols_fields (included_symbols s o)); obj "memory" memory; trace].

Record session_fits s : Prop := {
  ss_state : state_fits (state (session_cpu s));
  ss_total : is_i64 (ds_total_steps s);
  ss_stop : stop_fits (ds_last_stop s);
  ss_metadata : metadata_fits (ds_metadata s);
  ss_symbols_fit : symbols_fit (ds_symbols s);
  ss_breakpoints : set_Forall is_i64 (ds_breakpoints s);
  ss_conditionals : Forall (fun b => is_i64 (cb_id b) /\ is_i64 (cb_address b)) (ds_conditional_breakpoints s);
  ss_watchpoints : Forall (fun w => is_i64 (wp_id w) /\ is_i64 (wp_address w) /\ is_i64 (wp_size w)) (ds_watchpoints s);
}.

Lemma read_loaded {A} (f : DebugSession H -> outcome A) s v :
  read_session (when_loaded f) s = Ret v -> ds_loaded s = true /\ f s = Ret v.
Proof.
  unfold read_session, when_loaded. rewrite bind_run. unfold get at 1. cbv beta iota. rewrite bind_run. unfold lift, requireLoaded.
  destruct (ds_loaded s); [|discriminate]. intros E. split; [reflexivity | exact E].
Qed.

Lemma breakpoints_text s n comma t : set_Forall is_i64 (ds_breakpoints s) -> Snapshot_appendSingleBreakpoints s n comma = Ret t ->
  field_text comma t "breakpoints" (JsonArray (numbers (merge_sort Z.le (elements (ds_breakpoints s))))).
Proof.
  intros Hb E. unfold Snapshot_appendSingleBreakpoints in E. apply bind_ret_inv in E as (values & Hv & E). injection E as <-.
  apply read_loaded in Hv as [_ [= <-]]. apply number_list_field. rewrite merge_sort_Permutation.
  apply Forall_forall. intros x Hx. apply Hb, elem_of_elements, Hx.
Qed.

Lemma conditionals_text s n comma t :
  Forall (fun b => is_i64 (cb_id b) /\ is_i64 (cb_address b)) (ds_conditional_breakpoints s) ->
  Snapshot_appendSingleConditionalBreakpoints s n comma = Ret t ->
  field_text comma t "conditional_breakpoints" (JsonArray (conditional_value <$> ds_conditional_breakpoints s)).
Proof.
  intros Hb E. unfold Snapshot_appendSingleConditionalBreakpoints in E. apply bind_ret_inv in E as (values & Hv & E). injection E as <-.
  apply read_loaded in Hv as [_ [= <-]]. rewrite Forall_forall in Hb. apply array_field. intros b c Hin. destruct (Hb b Hin).
  apply object_element; [object_fields | distinct_names].
Qed.

Lemma watchpoints_text s n comma t :
  Forall (fun w => is_i64 (wp_id w) /\ is_i64 (wp_address w) /\ is_i64 (wp_size w)) (ds_watchpoints s) ->
  Snapshot_appendSingleWatchpoints s n comma = Ret t ->
  field_text comma t "watchpoints" (JsonArray (watchpoint_value <$> ds_watchpoints s)).
Proof.
  intros Hb E. unfold Snapshot_appendSingleWatchpoints in E. apply bind_ret_inv in E as (values & Hv & E). injection E as <-.
  apply read_loaded in Hv as [_ [= <-]]. rewrite Forall_forall in Hb. apply array_field. intros w c Hin. destruct (Hb w Hin) as (? & ? & ?).
  apply object_element; [object_fields | distinct_names].
Qed.

(** [session.hasSymbols() ? &session.symbols() : nullptr] *)
Lemma session_symbols s has symbols : read_session DebugSession_hasSymbols s = Ret has ->
  (if has : bool then Some <$> read_session DebugSession_symbols s else mret None) = Ret symbols -> symbols = loaded_symbols s.
Proof.
  intros Hh Hs. apply read_loaded in Hh as [Hl [= <-]]. unfold loaded_symbols. destruct (DebugSymbols_empty (ds_symbols s)); cbn [negb] in Hs.
  - injection Hs as <-. reflexivity.
  - unfold read_session, DebugSession_symbols, when_loaded in Hs. rewrite bind_run in Hs. unfold get at 1 in Hs. cbv beta iota in Hs.
    rewrite bind_run in Hs. unfold lift, requireLoaded in Hs. rewrite Hl in Hs. injection Hs as <-. reflexivity.
Qed.

Lemma no_entries_field n : field_text false (indent n +:+ field_name "entries" +:+ "[]" +:+ newline_text) "entries" (JsonArray []).
Proof. exact (plain_field n "entries" "[]" false (JsonArray []) (VT_no_elements EmptyString eq_refl)). Qed.

Lemma symbols_text s o n comma t : symbols_fit (ds_symbols s) -> Snapshot_appendSingleSymbols s o n comma = Ret t ->
  field_text comma t "symbols" (json_of (symbols_fields (included_symbols s o))).
Proof.
  intros Hfit E. unfold Snapshot_appendSingleSymbols in E. apply bind_ret_inv in E as (has & Hh & E).
  apply bind_ret_inv in E as (entries & He & E). injection E as <-. unfold included_symbols. destruct (so_include_symbols o).
  - pose proof Hh as Hh'. apply read_loaded in Hh' as [_ [= Hhas]]. unfold loaded_symbols. destruct (DebugSymbols_empty (ds_symbols s)) eqn:Hemp;
      cbn [negb] in Hhas; subst has; cbn [is_some symbols_fields].
    + injection He as <-. pose proof (no_entries_field (n + 2)) as Hf.
      apply object_field; [apply OR_more; [one_field | apply OR_last, Hf] | distinct_names].
    + apply bind_ret_inv in He as (y & Hy & He). injection He as <-. apply read_loaded in Hy as [_ [= <-]].
      pose proof (entries_text (ds_symbols s) (n + 2) false Hfit) as Hf.
      apply object_field; [apply OR_more; [one_field | apply OR_last, Hf] | distinct_names].
  - injection Hh as <-. injection He as <-. pose proof (no_entries_field (n + 2)) as Hf.
    apply object_field; [apply OR_more; [one_field | apply OR_last, Hf] | distinct_names].
Qed.

(** The last field of a document. *)
Lemma last_field tail t k v : field_text false t k v -> object_rest tail (t +:+ "}" +:+ tail) [(k, v)].
Proof. exact (OR_last tail 0 t k v). Qed.

Lemma snapshot_text s o t : session_fits s -> options_fit o -> DebugSnapshotJsonWriter_toJson s o = Ret t ->
  exists l, snapshot_fields s o = Ret l /\ document_text t (json_of l).
Proof.
  intros Hf Ho E. unfold DebugSnapshotJsonWriter_toJson in E. apply bind_ret_inv in E as (? & _ & E).
  apply bind_ret_inv in E as (c & Hc & E). apply read_loaded in Hc as [_ [= <-]]. apply bind_ret_inv in E as (? & _ & E).
  apply bind_ret_inv in E as (name & Hname & E). apply read_loaded in Hname as [_ [= <-]].
  apply bind_ret_inv in E as (total & Htotal & E). apply read_loaded in Htotal as [_ [= <-]].
  apply bind_ret_inv in E as (stop & Hstop & E). apply read_loaded in Hstop as [_ [= <-]].
  apply bind_ret_inv in E as (cpu_t & Hcpu & E). apply bind_ret_inv in E as (md & Hmd & E). apply read_loaded in Hmd as [_ [= <-]].
  apply bind_ret_inv in E as (has & Hhas & E). apply bind_ret_inv in E as (symbols & Hsym & E).
  apply (session_symbols _ _ _ Hhas) in Hsym as ->.
  apply bind_ret_inv in E as (bps & Hbps & E). apply bind_ret_inv in E as (conds & Hconds & E).
  apply bind_ret_inv in E as (wps & Hwps & E). apply bind_ret_inv in E as (syms & Hsyms & E).
  apply bind_ret_inv in E as (mem & Hmem & E). apply bind_ret_inv in E as (trace & Htrace & E). injection E as <-.
  destruct Hf as [Hstate Htot Hst Hm Hsy Hb Hcb Hwp].
  destruct (cpu_text _ _ _ _ Hstate Hcpu) as (lc & Hlc & Hcf). destruct (memory_text _ _ _ _ _ (sf_memory _ Hstate) Ho Hmem) as (lm & Hlm & Hmf).
  destruct (last_trace_text _ _ _ _ _ Htrace) as ([k v] & Hlt & Hk & Htf). cbn [fst snd] in Hk, Htf. subst k.
  unfold snapshot_fields. cbv zeta. rewrite Hlc, bind_Ret, Hlm, bind_Ret, Hlt, bind_Ret. eexists. split; [reflexivity|].
  pose proof (stop_text _ 2 true Hst). pose proof (executable_text _ 2 true Hm).
  assert (Hloc : forall y, loaded_symbols s = Some y -> symbols_fit y).
  { unfold loaded_symbols. destruct (DebugSymbols_empty _); intros y [= <-]. exact Hsy. }
  pose proof (location_text _ _ 2 true Hloc (sf_pc _ Hstate)).
  apply (breakpoints_text _ _ _ _ Hb) in Hbps. apply (conditionals_text _ _ _ _ Hcb) in Hconds.
  apply (watchpoints_text _ _ _ _ Hwp) in Hwps. apply (symbols_text _ _ _ _ _ Hsy) in Hsyms.
  assert (Hversion : is_i64 kSnapshotSchemaVersion) by (unfold kSnapshotSchemaVersion; words).
  apply document_value; [|distinct_names]. repeat (apply OR_more; [one_field|]). apply last_field, Htf.
Qed.

End single.

(** ** The state of a process *)

Definition register_texts_list : list string := ["R0"; "R1"; "R2"; "R3"; "R4"; "R5"; "R6"; "R7"].

Definition context_fields (c : ProcessContext) : list JsonField :=
  [num "pc" (ctx_pc c); num "sp" (ctx_sp c); str "privilege" (privilegeLevelToString (ctx_privilege c));
   num "kernel_stack_pointer" (ctx_kernel_stack_pointer c); flag "has_user_code_range" (ctx_has_user_code_range c);
   num "user_code_begin" (ctx_user_code_begin c); num "user_code_end_exclusive" (ctx_user_code_end_exclusive c);
   obj "registers" (zip_with num register_texts_list (ctx_registers c)); obj "flags" (flags_fields (ctx_flags c))].

Definition context_fits (c : ProcessContext) : Prop :=
  is_i64 (ctx_pc c) /\ is_i64 (ctx_sp c) /\ is_i64 (ctx_kernel_stack_pointer c) /\ is_i64 (ctx_user_code_begin c) /\
  is_i64 (ctx_user_code_end_exclusive c) /\ is_i64 (ctx_flags c) /\ Forall is_i64 (ctx_registers c) /\
  length (ctx_registers c) = kRegisterCount.

Lemma context_registers_text c n comma t : Forall is_i64 (ctx_registers c) -> length (ctx_registers c) = kRegisterCount ->
  Snapshot_appendContextRegisters c n comma = Ret t ->
  field_text comma t "registers" (json_of (zip_with num register_texts_list (ctx_registers c))).
Proof.
  unfold Snapshot_appendContextRegisters. generalize (ctx_registers c). intros l Hl Hn E.
  do 8 (destruct l as [|? l]; [discriminate Hn|]; apply Forall_cons in Hl as [? Hl]). destruct l; [|discriminate Hn].
  injection E as <-. apply object_field; [|distinct_names]. rewrite append_nil, !app_assoc_r.
  repeat (apply OR_more; [one_field|]). apply OR_last. one_field.
Qed.

Lemma context_text c n comma t : context_fits c -> Snapshot_appendProcessContext c n comma = Ret t ->
  field_text comma t "context" (json_of (context_fields c)).
Proof.
  intros (H1 & H2 & H3 & H4 & H5 & H6 & H7 & H8) E. unfold Snapshot_appendProcessContext in E.
  apply bind_ret_inv in E as (regs & E & Et). injection Et as <-.
  apply (context_registers_text _ _ _ _ H7 H8) in E. pose proof (snapshot_flags_text (ctx_flags c) (n + 2) false H6).
  apply object_field; [object_fields | distinct_names].
Qed.

Definition process_executable_fields (p : ProcessDebugSnapshot) : list JsonField :=
  [flag "available" (pd_has_executable_image p); num "code_base" (pd_code_base p);
   num "code_end_exclusive" (pd_code_end_exclusive p); num "entry_point" (pd_entry_point p); num "data_base" (pd_data_base p);
   num "data_size" (pd_data_size p)].

Definition process_fits (p : ProcessDebugSnapshot) : Prop :=
  is_i64 (pd_pid p) /\ is_i64 (pd_exit_code p) /\ context_fits (pd_context p) /\ Forall is_i64 (pd_memory p) /\
  is_i64 (pd_code_base p) /\ is_i64 (pd_code_end_exclusive p) /\ is_i64 (pd_entry_point p) /\ is_i64 (pd_data_base p) /\
  is_i64 (pd_data_size p).

Definition snapshot_process_fields (symbols : option DebugSymbols) (o : DebugSnapshotOptions) (p : ProcessDebugSnapshot)
    : outcome (list JsonField) :=
  memory ← memory_fields (pd_memory p) o;
  mret [num "pid" (pd_pid p); str "source_name" (pd_source_name p); str "state" (processStateToString (pd_state p));
        flag "running" (pd_running p); flag "terminated" (ProcessDebugSnapshot_terminated p);
        flag "faulted" (ProcessDebugSnapshot_faulted p); flag "has_exit_code" (pd_has_exit_code p);
        num "exit_code" (pd_exit_code p); str "termination_kind" (processTerminationKindToString (pd_termination_kind p));
        str "termination_message" (pd_termination_message p); obj "context" (context_fields (pd_context p));
        obj "executable" (process_executable_fields p);
        obj "source_location" (location_fields symbols (ctx_pc (pd_context p))); obj "memory" memory].

Lemma process_executable_text p n comma : process_fits p ->
  field_text comma (Snapshot_appendProcessExecutable p n comma) "executable" (json_of (process_executable_fields p)).
Proof.
  intros (_ & _ & _ & _ & H1 & H2 & H3 & H4 & H5). unfold Snapshot_appendProcessExecutable.
  apply object_field; [object_fields | distinct_names].
Qed.

Lemma snapshot_process_text p symbols o n comma t :
  process_fits p -> options_fit o -> (forall y, symbols = Some y -> symbols_fit y) ->
  Snapshot_appendProcess p symbols o n comma = Ret t ->
  exists l, snapshot_process_fields symbols o p = Ret l /\ element_text comma t (json_of l).
Proof.
  intros Hp Ho Hs E. pose proof (process_executable_text p (n + 2) true Hp) as Hexec. destruct Hp as (H1 & H2 & Hc & Hm & _).
  unfold Snapshot_appendProcess in E. apply bind_ret_inv in E as (ctx & Hctx & E). apply bind_ret_inv in E as (mem & Hmem & E). injection E as <-.
  apply (context_text _ _ _ _ Hc) in Hctx. destruct (memory_text _ _ _ _ _ Hm Ho Hmem) as (lm & Hlm & Hmf).
  pose proof (location_text symbols (ctx_pc (pd_context p)) (n + 2) true Hs (proj1 Hc)) as Hloc.
  unfold snapshot_process_fields. rewrite Hlm, bind_Ret. eexists. split; [reflexivity|].
  apply object_element; [object_fields | distinct_names].
Qed.

(** ** Several processes *)

Definition multi_stop_fields (stop : MultiProcessDebugStop) : list JsonField :=
  let detail := mstop_detail stop in
  let hit := default (0, 0) (sd_hit detail) in
  let terminated := default (false, 0) (sd_terminated detail) in
  [str "reason" (multiProcessDebugStopReasonToString (mstop_reason stop));
   str "runtime_state" (processRuntimeStateToString (mstop_runtime_state stop));
   num "executed_steps" (mstop_executed_steps stop); num "total_steps" (mstop_total_steps stop);
   num "running_pid" (mstop_running_pid stop); num "selected_pid" (mstop_selected_pid stop);
   flag "has_debug_hit" (is_some (sd_hit detail)); num "hit_pid" hit.1; num "hit_address" hit.2]
  ++ conditional_fields (sd_conditional detail) ++ watch_fields (sd_watchpoint detail)
  ++ [flag "process_terminated" (is_some (sd_terminated detail)); flag "process_faulted" terminated.1;
      num "terminated_pid" terminated.2; str "message" (mstop_message stop)].

Definition multi_stop_fits (stop : MultiProcessDebugStop) : Prop :=
  let detail := mstop_detail stop in
  is_i64 (mstop_executed_steps stop) /\ is_i64 (mstop_total_steps stop) /\ is_i64 (mstop_running_pid stop) /\
  is_i64 (mstop_selected_pid stop) /\ is_i64 (default (0, 0) (sd_hit detail)).1 /\ is_i64 (default (0, 0) (sd_hit detail)).2 /\
  conditional_fits (default no_conditional (sd_conditional detail)) /\ watch_fits (default no_watch (sd_watchpoint detail)) /\
  is_i64 (default (false, 0) (sd_terminated detail)).2.

Lemma multi_stop_text stop n comma : multi_stop_fits stop ->
  field_text comma (Snapshot_appendMultiStop stop n comma) "stop" (json_of (multi_stop_fields stop)).
Proof.
  intros (H1 & H2 & H3 & H4 & H5 & H6 & (H7 & H8) & (H9 & H10 & H11 & H12) & H13). unfold Snapshot_appendMultiStop. cbv zeta.
  apply object_field; [object_fields | distinct_names].
Qed.

Section multi.
Context {H : Type}.
Implicit Types (s : MultiProcessDebugSession H).

Definition process_symbols s (pid : ProcessId) : option DebugSymbols :=
  match ms_symbols s !! pid with Some y => if DebugSymbols_empty y then None else Some y | None => None end.

Definition process_breakpoint_value (b : ProcessBreakpoint) : JsonValue := json_of [num "pid" (pb_pid b); num "address" (pb_address b)].
Definition process_conditional_value (b : ProcessConditionalBreakpoint) : JsonValue :=
  json_of [num "id" (pc_id b); num "pid" (pc_pid b); num "address" (pc_address b); str "expression" (expression (pc_condition b))].
Definition process_watchpoint_value (w : ProcessMemoryWatchpoint) : JsonValue :=
  json_of [num "id" (pw_id w); num "pid" (pw_pid w); str "mode" (processMemoryWatchModeToString (pw_mode w));
           num "address" (pw_address w); num "size" (pw_size w)].
Definition process_symbols_value (entry : ProcessId * DebugSymbols) : JsonValue :=
  json_of [num "pid" entry.1; arr "entries" (symbol_value <$> sy_entries entry.2)].

(** The processes with symbols, with them. *)
Definition symbol_tables s (snapshots : list ProcessDebugSnapshot) : list (ProcessId * DebugSymbols) :=
  omap (fun p => pair (pd_pid p) <$> process_symbols s (pd_pid p)) snapshots.

(** The document of a started session. *)
Definition multi_snapshot_fields s (o : DebugSnapshotOptions) : outcome (list JsonField) :=
  snapshots ← Multi_processSnapshots s;
  running ← read_session Multi_runningPid s;
  processes ← values_from (fun p _ => json_of <$> snapshot_process_fields (process_symbols s (pd_pid p)) o p) 0 snapshots;
  trace ← last_trace_field (ms_cpu s) o;
  mret [str "schema" "zero_cpu_debug_snapshot"; num "schema_version" 2; str "mode" "multi_process";
        str "runtime_state" (processRuntimeStateToString (ms_runtime_state s)); num "total_steps" (ms_total_steps s);
        num "running_pid" running; num "selected_pid" (ms_selected_pid s); num "quantum" (Multi_quantum s);
        num "preemption_count" (tp_preemption_count (ms_preemptive s));
        num "scheduler_context_switch_count" (tp_context_switch_count (ms_preemptive s));
        obj "stop" (multi_stop_fields (ms_last_stop s)); arr "processes" processes;
        arr "breakpoints" (process_breakpoint_value <$> listed_breakpoints s);
        arr "conditional_breakpoints" (process_conditional_value <$> ms_conditional_breakpoints s);
        arr "watchpoints" (process_watchpoint_value <$> ms_watchpoints s);
        arr "symbols" (process_symbols_value <$> (if so_include_symbols o then symbol_tables s snapshots else []));
        arr "context_switches" ((fun record => json_of (switch_fields record)) <$> ms_context_switches s); trace].

Record multi_fits s : Prop := {
  mf_total : is_i64 (ms_total_steps s);
  mf_selected : is_i64 (ms_selected_pid s);
  mf_running : forall pid, read_session Multi_runningPid s = Ret pid -> is_i64 pid;
  mf_quantum : is_i64 (Multi_quantum s);
  mf_preemptions : is_i64 (tp_preemption_count (ms_preemptive s));
  mf_switch_count : is_i64 (tp_context_switch_count (ms_preemptive s));
  mf_stop : multi_stop_fits (ms_last_stop s);
  mf_processes : forall l, Multi_processSnapshots s = Ret l -> short l /\ Forall process_fits l;
  mf_breakpoints : Forall (fun b => is_i64 (pb_pid b) /\ is_i64 (pb_address b)) (listed_breakpoints s);
  mf_conditionals : Forall (fun b => is_i64 (pc_id b) /\ is_i64 (pc_pid b) /\ is_i64 (pc_address b)) (ms_conditional_breakpoints s);
  mf_watchpoints : Forall (fun w => is_i64 (pw_id w) /\ is_i64 (pw_pid w) /\ is_i64 (pw_address w) /\ is_i64 (pw_size w)) (ms_watchpoints s);
  mf_symbols : map_Forall (fun _ y => symbols_fit y) (ms_symbols s);
  mf_switches : Forall switch_fits (ms_context_switches s);
}.

Lemma read_started {A} (f : MultiProcessDebugSession H -> outcome A) s v :
  read_session (when_started f) s = Ret v -> ms_started s = true /\ f s = Ret v.
Proof.
  unfold read_session, when_started. rewrite bind_run. unfold get at 1. cbv beta iota. rewrite bind_run. unfold lift, requireStarted.
  destruct (ms_started s); [|discriminate]. intros E. split; [reflexivity | exact E].
Qed.

Lemma hasSymbols_process s pid has : read_session (Multi_hasSymbols pid) s = Ret has -> has = is_some (process_symbols s pid).
Proof.
  intros E. apply read_started in E as [_ E]. apply bind_ret_inv in E as (? & _ & E). injection E as <-. unfold process_symbols.
  destruct (ms_symbols s !! pid) as [y|]; [|reflexivity]. destruct (DebugSymbols_empty y); reflexivity.
Qed.

Lemma symbols_process s pid y : read_session (Multi_symbols pid) s = Ret y -> is_some (process_symbols s pid) = true ->
  process_symbols s pid = Some y.
Proof.
  intros E. apply read_started in E as [_ E]. apply bind_ret_inv in E as (? & _ & E). unfold process_symbols.
  destruct (ms_symbols s !! pid) as [y'|]; [|discriminate]. injection E as ->. destruct (DebugSymbols_empty y); [discriminate | reflexivity].
Qed.

Lemma process_symbols_fit s pid y : multi_fits s -> process_symbols s pid = Some y -> symbols_fit y.
Proof.
  intros Hf E. unfold process_symbols in E. destruct (ms_symbols s !! pid) as [y'|] eqn:El; [|discriminate E].
  destruct (DebugSymbols_empty y'); [discriminate E|]. injection E as ->. exact (mf_symbols _ Hf _ _ El).
Qed.

(** The arrays of a session. *)
Lemma started_array {A} (m : M (MultiProcessDebugSession H) (list A)) (f : MultiProcessDebugSession H -> list A) s name
    (item : nat -> A -> bool -> string) (value : A -> JsonValue) (fits : A -> Prop) n comma t :
  m = when_started (fun s => mret (f s)) -> Forall fits (f s) ->
  (forall x c, fits x -> element_text c (item n x c) (value x)) ->
  (values ← read_session m s; mret (open_array n name +:+ json_items (item n) values +:+ close_array n comma)) = Ret t ->
  field_text comma t name (JsonArray (value <$> f s)).
Proof.
  intros -> Hf Hi E. apply bind_ret_inv in E as (values & Hv & E). injection E as <-. apply read_started in Hv as [_ [= <-]].
  rewrite Forall_forall in Hf. apply array_field. intros x c Hx. apply Hi, Hf, Hx.
Qed.

Lemma multi_breakpoints_text s n comma t : multi_fits s -> Snapshot_appendMultiBreakpoints s n comma = Ret t ->
  field_text comma t "breakpoints" (JsonArray (process_breakpoint_value <$> listed_breakpoints s)).
Proof.
  intros Hf. refine (started_array Multi_breakpoints _ s _ (fun n breakpoint comma => _) _ _ n comma t eq_refl (mf_breakpoints _ Hf) _).
  intros x c (H1 & H2). apply object_element; [object_fields | distinct_names].
Qed.

Lemma multi_conditionals_text s n comma t : multi_fits s -> Snapshot_appendMultiConditionalBreakpoints s n comma = Ret t ->
  field_text comma t "conditional_breakpoints" (JsonArray (process_conditional_value <$> ms_conditional_breakpoints s)).
Proof.
  intros Hf. refine (started_array Multi_conditionalBreakpoints _ s _ (fun n breakpoint comma => _) _ _ n comma t eq_refl (mf_conditionals _ Hf) _).
  intros x c (H1 & H2 & H3). apply object_element; [object_fields | distinct_names].
Qed.

Lemma multi_watchpoints_text s n comma t : multi_fits s -> Snapshot_appendMultiWatchpoints s n comma = Ret t ->
  field_text comma t "watchpoints" (JsonArray (process_watchpoint_value <$> ms_watchpoints s)).
Proof.
  intros Hf. refine (started_array Multi_watchpoints _ s _ (fun n watchpoint comma => _) _ _ n comma t eq_refl (mf_watchpoints _ Hf) _).
  intros x c (H1 & H2 & H3 & H4). apply object_element; [object_fields | distinct_names].
Qed.

Lemma multi_switches_text s n comma t : multi_fits s -> Snapshot_appendContextSwitches s n comma = Ret t ->
  field_text comma t "context_switches" (JsonArray ((fun record => json_of (switch_fields record)) <$> ms_context_switches s)).
Proof.
  intros Hf. refine (started_array Multi_contextSwitches _ s _ (fun n record comma => _) _ _ n comma t eq_refl (mf_switches _ Hf) _).
  intros x c (H1 & H2 & H3). apply object_element; [object_fields | distinct_names].
Qed.

Lemma processes_text_multi s o n comma t l : multi_fits s -> options_fit o -> Multi_processSnapshots s = Ret l ->
  Snapshot_appendProcesses s o n comma = Ret t ->
  exists vs, values_from (fun p _ => json_of <$> snapshot_process_fields (process_symbols s (pd_pid p)) o p) 0 l = Ret vs /\
    field_text comma t "processes" (JsonArray vs).
Proof.
  intros Hf Ho Hl E. unfold Snapshot_appendProcesses in E. rewrite Hl, bind_Ret in E. apply bind_ret_inv in E as (items & E & Et).
  injection Et as <-. destruct (mf_processes _ Hf _ Hl) as [Hshort Hp].
  eapply array_field_from; [| exact Hshort | exact E].
  eapply Forall_impl; [exact Hp|]. intros p Hfp index c t _ E1. apply bind_ret_inv in E1 as (has & Hhas & E1).
  apply bind_ret_inv in E1 as (symbols & Hs & E1). apply hasSymbols_process in Hhas.
  assert (symbols = process_symbols s (pd_pid p)) as ->.
  { destruct (process_symbols s (pd_pid p)) as [y|] eqn:Ey; cbn [is_some] in Hhas; subst has.
    - destruct (read_session (Multi_symbols (pd_pid p)) s) as [y'|] eqn:Er; [|discriminate Hs]. injection Hs as <-.
      apply symbols_process in Er; [congruence | rewrite Ey; reflexivity].
    - injection Hs as <-. reflexivity. }
  destruct (snapshot_process_text p (process_symbols s (pd_pid p)) o (n + 2) c t Hfp Ho) as (lf & Hlf & Hv); [|exact E1|].
  - intros y. apply process_symbols_fit, Hf.
  - rewrite Hlf. eexists. split; [reflexivity | exact Hv].
Qed.

Lemma with_symbols_tables s snapshots : forall l, with_symbols s snapshots = Ret l -> l = symbol_tables s snapshots.
Proof.
  induction snapshots as [|p snapshots IH]; intros l E; cbn [with_symbols] in E; [injection E as <-; reflexivity|].
  apply bind_ret_inv in E as (has & Hhas & E). apply hasSymbols_process in Hhas. unfold symbol_tables in *. cbn [omap list_omap].
  destruct (process_symbols s (pd_pid p)) as [y|] eqn:Ey; cbn [is_some] in Hhas; subst has; cbn [negb] in E.
  - apply bind_ret_inv in E as (y' & Hy' & E). apply bind_ret_inv in E as (rest & Hrest & E). injection E as <-.
    apply symbols_process in Hy'; [|rewrite Ey; reflexivity]. rewrite (IH _ Hrest). cbn. congruence.
  - exact (IH _ E).
Qed.

Lemma symbols_element_text n entry : is_i64 entry.1 -> symbols_fit entry.2 ->
  forall c, element_text c (symbols_element n entry +:+ finishField c) (process_symbols_value entry).
Proof.
  intros Hp Hs c. pose proof (entries_text entry.2 (n + 4) false Hs) as He. unfold symbols_element. rewrite !app_assoc_r.
  apply (object_element (n + 2) _ [num "pid" entry.1; arr "entries" (symbol_value <$> sy_entries entry.2)]); [|distinct_names].
  apply OR_more; [one_field|]. apply (OR_last (finishField c) (n + 2) _ _ _ He).
Qed.

Lemma symbols_elements_text n entries : Forall (fun e => is_i64 e.1 /\ symbols_fit e.2) entries ->
  (String.concat ("," +:+ newline_text) (symbols_element n <$> entries) +:+ (if bool_decide (entries = []) then EmptyString else newline_text) = EmptyString /\
   process_symbols_value <$> entries = []) \/
  array_items (String.concat ("," +:+ newline_text) (symbols_element n <$> entries) +:+ (if bool_decide (entries = []) then EmptyString else newline_text))
    (process_symbols_value <$> entries).
Proof.
  induction 1 as [|e entries [Hp Hs] _ IH]; [left; split; reflexivity|]. right. rewrite bool_decide_eq_false_2 by discriminate.
  destruct entries as [|e' entries].
  - cbn [fmap list_fmap String.concat]. apply AI_last. exact (symbols_element_text n e Hp Hs false).
  - destruct IH as [[_ IH] | IH]; [discriminate IH|]. rewrite bool_decide_eq_false_2 in IH by discriminate.
    replace (String.concat ("," +:+ newline_text) (symbols_element n <$> e :: e' :: entries) +:+ newline_text) with
      ((symbols_element n e +:+ finishField true) +:+
       String.concat ("," +:+ newline_text) (symbols_element n <$> e' :: entries) +:+ newline_text)
      by (change (String.concat ("," +:+ newline_text) (symbols_element n <$> e :: e' :: entries)) with
            (symbols_element n e +:+ ("," +:+ newline_text) +:+ String.concat ("," +:+ newline_text) (symbols_element n <$> e' :: entries));
          rewrite !app_assoc_r; reflexivity).
    apply AI_more; [exact (symbols_element_text n e Hp Hs true) | exact IH].
Qed.

Lemma symbol_tables_fit s snapshots : multi_fits s -> Forall process_fits snapshots ->
  Forall (fun e => is_i64 e.1 /\ symbols_fit e.2) (symbol_tables s snapshots).
Proof.
  intros Hf Hp. apply Forall_forall. intros [pid y] Hin. unfold symbol_tables in Hin. apply list_elem_of_omap in Hin as (p & Hpin & E).
  destruct (process_symbols s (pd_pid p)) as [y'|] eqn:Ey; [|discriminate E]. injection E as <- <-. rewrite Forall_forall in Hp.
  split; [exact (proj1 (Hp p Hpin)) | exact (process_symbols_fit _ _ _ Hf Ey)].
Qed.

Lemma multi_symbols_text s o n comma t l : multi_fits s -> Multi_processSnapshots s = Ret l -> Snapshot_appendMultiSymbols s o n comma = Ret t ->
  field_text comma t "symbols" (JsonArray (process_symbols_value <$> (if so_include_symbols o then symbol_tables s l else []))).
Proof.
  intros Hf Hl E. unfold Snapshot_appendMultiSymbols in E. rewrite Hl, bind_Ret in E. apply bind_ret_inv in E as (values & Hv & E).
  injection E as <-.
  assert (Hvals : values = (if so_include_symbols o then symbol_tables s l else [])).
  { destruct (so_include_symbols o); [exact (with_symbols_tables _ _ _ Hv) | injection Hv as <-; reflexivity]. }
  assert (Hfits : Forall (fun e => is_i64 e.1 /\ symbols_fit e.2) values).
  { rewrite Hvals. destruct (so_include_symbols o); [|constructor]. apply symbol_tables_fit; [exact Hf | exact (proj2 (mf_processes _ Hf _ Hl))]. }
  rewrite <- Hvals. pose proof (symbols_elements_text n values Hfits) as Hitems.
  rewrite <- (app_assoc_r (String.concat _ _)). apply array_field_rest, Hitems.
Qed.

Lemma multi_snapshot_text s o t : multi_fits s -> options_fit o -> DebugSnapshotJsonWriter_toJson_multi s o = Ret t ->
  exists l, multi_snapshot_fields s o = Ret l /\ document_text t (json_of l).
Proof.
  intros Hf Ho E. unfold DebugSnapshotJsonWriter_toJson_multi in E. apply bind_ret_inv in E as (snapshots & Hsn & E).
  apply bind_ret_inv in E as (? & _ & E). apply bind_ret_inv in E as (rs & Hrs & E). apply read_started in Hrs as [_ [= <-]].
  apply bind_ret_inv in E as (total & Htotal & E). apply read_started in Htotal as [_ [= <-]].
  apply bind_ret_inv in E as (running & Hrunning & E).
  apply bind_ret_inv in E as (selected & Hsel & E). apply read_started in Hsel as [_ [= <-]].
  apply bind_ret_inv in E as (pre & Hpre & E). apply read_started in Hpre as [_ [= <-]].
  apply bind_ret_inv in E as (sw & Hsw & E). apply read_started in Hsw as [_ [= <-]].
  apply bind_ret_inv in E as (stop & Hstop & E). apply read_started in Hstop as [_ [= <-]].
  apply bind_ret_inv in E as (procs & Hprocs & E). apply bind_ret_inv in E as (bps & Hbps & E).
  apply bind_ret_inv in E as (conds & Hconds & E). apply bind_ret_inv in E as (wps & Hwps & E).
  apply bind_ret_inv in E as (syms & Hsyms & E). apply bind_ret_inv in E as (switches & Hswitches & E).
  apply bind_ret_inv in E as (c & Hc & E). apply read_started in Hc as [_ [= <-]].
  apply bind_ret_inv in E as (trace & Htrace & E). injection E as <-.
  destruct (processes_text_multi _ _ _ _ _ _ Hf Ho Hsn Hprocs) as (vs & Hvs & Hpf).
  destruct (last_trace_text _ _ _ _ _ Htrace) as ([k v] & Hlt & Hk & Htf). cbn [fst snd] in Hk, Htf. subst k.
  unfold multi_snapshot_fields. rewrite Hsn, bind_Ret, Hrunning, bind_Ret, Hvs, bind_Ret, Hlt, bind_Ret. eexists. split; [reflexivity|].
  apply (multi_breakpoints_text _ _ _ _ Hf) in Hbps. apply (multi_conditionals_text _ _ _ _ Hf) in Hconds.
  apply (multi_watchpoints_text _ _ _ _ Hf) in Hwps. apply (multi_symbols_text _ _ _ _ _ _ Hf Hsn) in Hsyms.
  apply (multi_switches_text _ _ _ _ Hf) in Hswitches. pose proof (multi_stop_text _ 2 true (mf_stop _ Hf)).
  pose proof (mf_running _ Hf _ Hrunning) as Hrun. destruct Hf as [Htotal Hselected _ Hquantum Hpreempt Hcount _ _ _ _ _ _ _].
  assert (Hversion : is_i64 kSnapshotSchemaVersion) by (unfold kSnapshotSchemaVersion; words).
  apply document_value; [|distinct_names]. repeat (apply OR_more; [one_field|]). apply last_field, Htf.
Qed.

End multi.

(** (C35) The text of a debug snapshot, of a session of one process or of several, is
    read back as the document of the session: its stop, CPU state, executable,
    breakpoints, watchpoints, symbols, source locations, the bytes of memory that
    were asked for, and the states of its processes. *)
Theorem debug_snapshots_are_read {H} (s : DebugSession H) (m : MultiProcessDebugSession H) (options : DebugSnapshotOptions)
    (Hoptions : options_fit options) :
  (session_fits s -> forall text, DebugSnapshotJsonWriter_toJson s options = Ret text ->
     exists l, snapshot_fields s options = Ret l /\ JsonParser_parse text = Ret (json_of l)) /\
  (multi_fits m -> forall text, DebugSnapshotJsonWriter_toJson_multi m options = Ret text ->
     exists l, multi_snapshot_fields m options = Ret l /\ JsonParser_parse text = Ret (json_of l)).
Proof.
  split.
  - intros Hf text E. destruct (snapshot_text s options text Hf Hoptions E) as (l & Hl & Hd). exists l.
    split; [exact Hl | apply parse_document_text, Hd].
  - intros Hf text E. destruct (multi_snapshot_text m options text Hf Hoptions E) as (l & Hl & Hd). exists l.
    split; [exact Hl | apply parse_document_text, Hd].
Qed.

(** ** Witnesses *)


Lemma sample_session_fits : session_fits sample_session.
Proof.
  constructor.
  - constructor; try (apply (bool_decide_unpack _); vm_compute; exact I); apply Z.ltb_lt; vm_compute; reflexivity.
  - apply (bool_decide_unpack _); vm_compute; exact I.
  - unfold stop_fits, conditional_fits, watch_fits. apply (bool_decide_unpack _); vm_compute; exact I.
  - unfold metadata_fits. apply (bool_decide_unpack _); vm_compute; exact I.
  - unfold symbols_fit. apply (bool_decide_unpack _); vm_compute; exact I.
  - apply (bool_decide_unpack _); vm_compute; exact I.
  - apply (bool_decide_unpack _); vm_compute; exact I.
  - apply (bool_decide_unpack _); vm_compute; exact I.
Qed.

(** The sample debugger of several processes, after its commands. *)
Definition result_all {A} (f : A -> bool) (o : outcome A) : bool := match o with Ret a => f a | Throw _ => true end.

Definition multi_fits_check (s : MultiProcessDebugSession unit) : bool :=
  bool_decide (is_i64 (ms_total_steps s)) && bool_decide (is_i64 (ms_selected_pid s))
  && result_all (fun pid => bool_decide (is_i64 pid)) (read_session Multi_runningPid s)
  && bool_decide (is_i64 (Multi_quantum s)) && bool_decide (is_i64 (tp_preemption_count (ms_preemptive s)))
  && bool_decide (is_i64 (tp_context_switch_count (ms_preemptive s))).

#[local] Instance short_decision {A} (l : list A) : Decision (short l).
Proof. unfold short. apply _. Defined.

Definition multi_lists_check (s : MultiProcessDebugSession unit) : bool :=
  result_all (fun l => bool_decide (short l /\ Forall (fun p =>
      is_i64 (pd_pid p) /\ is_i64 (pd_exit_code p) /\
      (is_i64 (ctx_pc (pd_context p)) /\ is_i64 (ctx_sp (pd_context p)) /\ is_i64 (ctx_kernel_stack_pointer (pd_context p)) /\ is_i64 (ctx_user_code_begin (pd_context p)) /\
       is_i64 (ctx_user_code_end_exclusive (pd_context p)) /\ is_i64 (ctx_flags (pd_context p)) /\ Forall is_i64 (ctx_registers (pd_context p)) /\
       length (ctx_registers (pd_context p)) = kRegisterCount) /\ Forall is_i64 (pd_memory p) /\
      is_i64 (pd_code_base p) /\ is_i64 (pd_code_end_exclusive p) /\ is_i64 (pd_entry_point p) /\ is_i64 (pd_data_base p) /\
      is_i64 (pd_data_size p)) l)) (Multi_processSnapshots s)
  && bool_decide (Forall (fun b => is_i64 (pb_pid b) /\ is_i64 (pb_address b)) (listed_breakpoints s))
  && bool_decide (Forall (fun b => is_i64 (pc_id b) /\ is_i64 (pc_pid b) /\ is_i64 (pc_address b)) (ms_conditional_breakpoints s))
  && bool_decide (Forall (fun w => is_i64 (pw_id w) /\ is_i64 (pw_pid w) /\ is_i64 (pw_address w) /\ is_i64 (pw_size w)) (ms_watchpoints s))
  && bool_decide (ms_symbols s = ∅)
  && bool_decide (Forall (fun r => is_i64 (cs_lifecycle_step r) /\ is_i64 (cs_from_pid r) /\ is_i64 (cs_to_pid r)) (ms_context_switches s)).

Definition multi_stop_check (stop : MultiProcessDebugStop) : bool :=
  let detail := mstop_detail stop in
  let conditional := default no_conditional (sd_conditional detail) in
  let watch := default no_watch (sd_watchpoint detail) in
  bool_decide (Forall is_i64
    [mstop_executed_steps stop; mstop_total_steps stop; mstop_running_pid stop; mstop_selected_pid stop;
     (default (0, 0) (sd_hit detail)).1; (default (0, 0) (sd_hit detail)).2; ch_id conditional; ch_actual_value conditional;
     wh_id watch; wh_address watch; wh_size watch; wh_access_address watch; (default (false, 0) (sd_terminated detail)).2]).

Lemma result_all_ret {A} (f : A -> bool) (o : outcome A) a : result_all f o = true -> o = Ret a -> f a = true.
Proof. intros Hf ->. exact Hf. Qed.

Lemma multi_stop_checked stop : multi_stop_check stop = true -> multi_stop_fits stop.
Proof.
  unfold multi_stop_check, multi_stop_fits, conditional_fits, watch_fits. cbv zeta. rewrite bool_decide_eq_true, !Forall_cons. tauto.
Qed.

Lemma multi_checked s : multi_fits_check s && multi_lists_check s && multi_stop_check (ms_last_stop s) = true -> multi_fits s.
Proof.
  unfold multi_fits_check, multi_lists_check. rewrite !andb_true_iff, !bool_decide_eq_true.
  intros [[[[[[[H1 H2] H3] H4] H5] H6] [[[[[H7 H8] H9] H10] H11] H12]] H13]. constructor; try assumption.
  - intros pid E. apply (result_all_ret _ _ _ H3), bool_decide_eq_true in E. exact E.
  - apply multi_stop_checked, H13.
  - intros l E. apply (result_all_ret _ _ _ H7), bool_decide_eq_true in E. exact E.
  - rewrite H11. apply map_Forall_empty.
Qed.

Lemma debug_snapshots_are_read_witness : exists text (m : MultiProcessDebugSession unit) text' l l',
  DebugSnapshotJsonWriter_toJson sample_session default_snapshot_options = Ret text /\ JsonParser_parse text = Ret (json_of l) /\
  DebugSnapshotJsonWriter_toJson_multi m default_snapshot_options = Ret text' /\ JsonParser_parse text' = Ret (json_of l').
Proof.
  assert (E : (fun text => bool_decide (1800 < String.length text)%nat) <$> DebugSnapshotJsonWriter_toJson sample_session default_snapshot_options = Ret true)
    by (vm_compute; reflexivity).
  assert (Hm : (fun s => (multi_fits_check s && multi_lists_check s && multi_stop_check (ms_last_stop s),
                          (fun text => bool_decide (1800 < String.length text)%nat) <$> DebugSnapshotJsonWriter_toJson_multi s default_snapshot_options)) <$> sample_debugger.1
               = Ret (true, Ret true)) by (vm_compute; reflexivity).
  apply returned_value in E as (text & E & _). destruct sample_debugger as [o wh]. cbn [fst] in Hm.
  apply returned_value in Hm as (m & -> & Hm). injection Hm as Hfits Et. apply returned_value in Et as (text' & E' & _).
  assert (Ho : options_fit default_snapshot_options) by (split; cbn; words).
  destruct (debug_snapshots_are_read sample_session m default_snapshot_options Ho) as [Hs Hm'].
  destruct (Hs sample_session_fits text E) as (l & _ & Hl). destruct (Hm' (multi_checked m Hfits) text' E') as (l' & _ & Hl').
  exists text, m, text', l, l'. auto.
Defined.
