(* ===== verification/DebugInspector.v ===== *)
(** * Looking at a debug session: [src/debug/DebugInspector.cpp]

    Registers, memory and disassembled code of a session of one process, and the
    texts the consoles print of them.  Reserving room for the result, which fails
    when the host has not enough memory, is left out. *)

From S2P Require Import Prelude Words Strings Text ALU Memory ISA Binary CPUState CPU CPUFrames CPUInv Image Process Assembler AssemblerLaws DebugSession DebugLaws Json DebugSnapshotJson.
Open Scope Z_scope.

(** ** Texts of numbers *)

(** [std::hex << std::uppercase]: up to sixteen digits. *)
Definition hex_digit (digit : Z) : ascii :=
  if digit <? 10 then ascii_of_nat (48 + Z.to_nat digit) else ascii_of_nat (55 + Z.to_nat digit).

Fixpoint hex_loop (fuel : nat) (value : Z) (text : string) : string :=
  match fuel with
  | O => text
  | S fuel =>
      let text := String (hex_digit (value mod 16)) text in
      if value <? 16 then text else hex_loop fuel (value / 16) text
  end.
Definition hex_upper (value : Z) : string := hex_loop 16 value EmptyString.

(** [std::setw(2) << std::setfill('0')] in front of it. *)
Definition hex_byte (value : Z) : string :=
  let text := hex_upper value in
  if (String.length text <? 2)%nat then String "0" text else text.

(** ** Data *)

Record RegisterInspection := {
  ri_registers : list Z;
  ri_pc : Z;
  ri_sp : Z;
  ri_flags : Z;
  ri_zero : bool;
  ri_sign : bool;
  ri_carry : bool;
  ri_overflow : bool;
  ri_privilege : PrivilegeLevel;
}.

Record MemoryInspection := { mi_address : Z; mi_bytes : list Z }.

Record DisassembledInstruction := {
  di_address : Z;
  di_opcode : Opcode;
  di_dst_type : EncodedOperandType;
  di_src_type : EncodedOperandType;
  di_dst_payload : Z;
  di_src_payload : Z;
  di_text : string;
  di_current_pc : bool;
  di_breakpoint : bool;
}.

(** ** Operands and instructions *)

Definition registerFromPayload (payload : Z) : outcome nat :=
  _ ← throw_if ((payload <? 0) || (payload >=? Z.of_nat kRegisterCount)) (RuntimeError "Disassembler register payload is out of range");
  mret (Z.to_nat payload).

Definition registerName (index : nat) : string := "R" +:+ pretty (Z.of_nat index).

Section inspector.
Context {LD : LongDouble} {H : Type} {SIH : SoftwareInterruptHandler H}.

Abbreviation Session := (DebugSession H).

Definition formatOperand (s : Session) (type : EncodedOperandType) (payload : Z) : outcome string :=
  match type with
  | Enc_None => _ ← throw_if (negb (payload =? 0)) (RuntimeError "None operand has non-zero payload"); mret EmptyString
  | Enc_Register => index ← registerFromPayload payload; mret (registerName index)
  | Enc_Immediate => mret (pretty payload)
  | Enc_MemoryAddress =>
      _ ← throw_if (payload <? 0) (RuntimeError "Disassembler memory address is negative");
      mret ("[" +:+ pretty payload +:+ "]")
  | Enc_RegisterIndirectAddress => index ← registerFromPayload payload; mret ("[" +:+ registerName index +:+ "]")
  | Enc_CodeAddress =>
      _ ← throw_if (payload <? 0) (RuntimeError "Disassembler code offset is negative");
      md ← read_session DebugSession_metadata s;
      let base := md_code_base md in
      let offset := u64 payload in
      _ ← throw_if (offset >? UINT64_MAX - base) (RuntimeError "Disassembler code address overflow");
      mret (pretty (u64 (base + offset)))
  end.

Definition formatInstruction (s : Session) (instruction : DecodedInstruction) : outcome string :=
  dst ← formatOperand s (dst_type instruction) (dst_payload instruction);
  src ← formatOperand s (src_type instruction) (src_payload instruction);
  mret (opcodeToString (dec_opcode instruction)
        +:+ (if empty dst then EmptyString else " " +:+ dst)
        +:+ (if empty src then EmptyString else ", " +:+ src)).

(** ** Inspection *)

Definition inspectRegisters (s : Session) : outcome RegisterInspection :=
  c ← read_session DebugSession_cpu s;
  let st := state c in
  values ← mapM (fun name => RegisterFile_get (registers st) name) register_names;
  mret {| ri_registers := values; ri_pc := pc st; ri_sp := sp st; ri_flags := flags st; ri_zero := Flags_zero (flags st);
          ri_sign := Flags_sign (flags st); ri_carry := Flags_carry (flags st); ri_overflow := Flags_overflow (flags st);
          ri_privilege := privilege_level st |}.

Definition inspectMemory (s : Session) (address count : Z) : outcome MemoryInspection :=
  _ ← throw_if (count =? 0) (RuntimeError "Memory inspection count must be greater than zero");
  c ← read_session DebugSession_cpu s;
  let m := memory (state c) in
  _ ← throw_if ((address >? Memory_size m) || (count >? Memory_size m - address))
        (RuntimeError "Memory inspection range is outside process memory");
  bytes ← Memory_readBytes m address count;
  mret {| mi_address := address; mi_bytes := bytes |}.

Definition inspectQword (s : Session) (address : Z) : outcome Z :=
  _ ← inspectMemory s address 8;
  c ← read_session DebugSession_cpu s;
  Memory_readI64 (memory (state c)) address Little.

(** The body of the loop of [disassemble]. *)
Definition disassemble_one (s : Session) (md : ExecutableMetadata) (m : Memory) (current : Z) : outcome DisassembledInstruction :=
  _ ← throw_if (md_code_end_exclusive md - current <? kInstructionSize)
        (RuntimeError "Executable code section ends with a partial instruction");
  bytes ← Memory_readBytes m current kInstructionSize;
  decoded ← decodeInstruction bytes;
  text ← formatInstruction s decoded;
  c ← read_session DebugSession_cpu s;
  marked ← read_session (hasBreakpoint current) s;
  mret {| di_address := current; di_opcode := dec_opcode decoded; di_dst_type := dst_type decoded; di_src_type := src_type decoded;
          di_dst_payload := dst_payload decoded; di_src_payload := src_payload decoded; di_text := text;
          di_current_pc := pc (state c) =? current; di_breakpoint := marked |}.

(** [size] is [result.size()]. *)
Fixpoint disassemble_loop (fuel : nat) (s : Session) (md : ExecutableMetadata) (m : Memory) (instructionCount size current : Z)
    : outcome (list DisassembledInstruction) :=
  match fuel with
  | O => mret []
  | S fuel =>
      if (size <? instructionCount) && (current <? md_code_end_exclusive md) then
        item ← disassemble_one s md m current;
        rest ← disassemble_loop fuel s md m instructionCount (size + 1) (u64 (current + kInstructionSize));
        mret (item :: rest)
      else mret []
  end.

(** One more than the instructions from the address to the end of the code. *)
Definition disassemble_fuel (md : ExecutableMetadata) (address : Z) : nat :=
  S (Z.to_nat ((md_code_end_exclusive md - address + kInstructionSize - 1) / kInstructionSize)).

Definition disassemble (s : Session) (address instructionCount : Z) : outcome (list DisassembledInstruction) :=
  _ ← throw_if (instructionCount =? 0) (RuntimeError "Disassembly instruction count must be greater than zero");
  md ← read_session DebugSession_metadata s;
  _ ← throw_if ((address <? md_code_base md) || (address >=? md_code_end_exclusive md))
        (RuntimeError "Disassembly address is outside the executable code section");
  _ ← throw_if (negb ((address - md_code_base md) mod kInstructionSize =? 0))
        (RuntimeError "Disassembly address is not instruction-aligned");
  c ← read_session DebugSession_cpu s;
  disassemble_loop (disassemble_fuel md address) s md (memory (state c)) instructionCount 0 address.

End inspector.

(** ** Texts *)

Definition bit_text (b : bool) : string := if b then "1" else "0".

(** The registers [R0=... R1=...]. *)
Definition register_list (values : list Z) : string :=
  String.concat " " (imap (fun index value => "R" +:+ pretty (Z.of_nat index) +:+ "=" +:+ pretty value) values).

Definition formatRegisters (i : RegisterInspection) : string :=
  register_list (ri_registers i)
  +:+ newline_text +:+ "PC=" +:+ pretty (ri_pc i) +:+ " SP=" +:+ pretty (ri_sp i) +:+ " FLAGS=0x" +:+ hex_upper (ri_flags i)
  +:+ " PRIV=" +:+ privilegeLevelToString (ri_privilege i)
  +:+ newline_text +:+ "ZF=" +:+ bit_text (ri_zero i) +:+ " SF=" +:+ bit_text (ri_sign i) +:+ " CF=" +:+ bit_text (ri_carry i)
  +:+ " OF=" +:+ bit_text (ri_overflow i).

(** [" XX"] for every byte. *)
Definition byte_list_text (bytes : list Z) : string := foldr (fun byte rest => " " +:+ hex_byte byte +:+ rest) EmptyString bytes.

Definition formatMemory (i : MemoryInspection) : string :=
  "Memory[" +:+ pretty (mi_address i) +:+ ".." +:+ pretty (u64 (mi_address i + Z.of_nat (length (mi_bytes i)))) +:+ "):"
  +:+ byte_list_text (mi_bytes i).

Definition formatDisassembly (instructions : list DisassembledInstruction) : string :=
  String.concat newline_text ((fun item =>
    (if di_current_pc item then "=>" else "  ") +:+ (if di_breakpoint item then "* " else "  ")
    +:+ pretty (di_address item) +:+ ": " +:+ di_text item) <$> instructions).

(** * Laws of the inspector: disassembly shows the program *)

(** An operand with the name of a label replaced by the address it stands for. *)
Definition resolved_operand (base : Z) (labels : LabelTable) (o : Operand) : Operand :=
  match o with
  | label name => match labels !! name with Some index => immediate (base + kInstructionSize * index) | None => o end
  | _ => o
  end.
Definition resolved (base : Z) (labels : LabelTable) (i : Instruction) : Instruction :=
  {| opcode := opcode i; dst := resolved_operand base labels (dst i); src := resolved_operand base labels (src i) |}.

Section laws.
Context {LD : LongDouble} {H : Type} {SIH : SoftwareInterruptHandler H}.
Implicit Types (s : DebugSession H).

Definition code_base s : Z := md_code_base (ds_metadata s).

(** The code section of the executable is the encoded program, and its labels are
    indices of instructions. *)
Record holds_program s (labels : LabelTable) (prog : list Instruction) : Prop := {
  hp_loaded : ds_loaded s = true;
  hp_base : 0 <= code_base s;
  hp_end : md_code_end_exclusive (ds_metadata s) = code_base s + kInstructionSize * Z.of_nat (length prog);
  hp_memory : md_code_end_exclusive (ds_metadata s) <= Memory_size (memory (session_state s)) < 2 ^ 63;
  hp_code : encodeProgram prog labels =
            Ret (take (24 * length prog) (drop (Z.to_nat (code_base s)) (memory (session_state s))));
  hp_program : Forall (instruction_ok ∅) prog;
  hp_labels : map_Forall (fun _ index => 0 <= index <= Z.of_nat (length prog)) labels;
}.

(** What the inspector gives for an instruction at an address. *)
Record shows s (labels : LabelTable) (address : Z) (i : Instruction) (item : DisassembledInstruction) : Prop := {
  sh_address : di_address item = address;
  sh_opcode : di_opcode item = opcode i;
  sh_dst : denotes labels (dst i) (di_dst_type item) (di_dst_payload item);
  sh_src : denotes labels (src i) (di_src_type item) (di_src_payload item);
  sh_text : Instruction_toString (resolved (code_base s) labels i) = Ret (di_text item);
  sh_pc : di_current_pc item = bool_decide (pc (session_state s) = address);
  sh_breakpoint : di_breakpoint item = bool_decide (address ∈ ds_breakpoints s);
}.

(** ** Texts of operands and instructions *)

Lemma pretty_nonempty (z : Z) : empty (pretty z) = false.
Proof.
  destruct z as [|p|p]; [reflexivity | | reflexivity]. destruct (read_pretty read_decimal (Npos p)) as (_ & _ & Hne).
  change (pretty (Zpos p)) with (pretty (Npos p)). destruct (pretty (Npos p)); [contradiction Hne; reflexivity | reflexivity].
Qed.

Lemma register_shown reg : reg <> Count -> exists w,
  registerNameToString reg = Ret w /\ registerFromPayload (Z.of_nat (register_raw reg)) = Ret (register_raw reg) /\
  registerName (register_raw reg) = w /\ empty w = false.
Proof. intros Hr. destruct reg; try congruence; eexists; repeat split; reflexivity. Qed.

Lemma operand_shown s labels prog o k v : holds_program s labels prog -> operand_ok ∅ o -> denotes labels o k v ->
  exists text, formatOperand s k v = Ret text /\
    (if Operand_isNone (resolved_operand (code_base s) labels o) then text = EmptyString
     else Operand_toString (resolved_operand (code_base s) labels o) = Ret text /\ empty text = false).
Proof.
  intros [Hl Hb He Hm _ _ Hlab] Ho Hd. destruct Hd as [|reg Hr|n|a|reg Hr|name index Hi]; cbn [resolved_operand formatOperand].
  - exists EmptyString. split; reflexivity.
  - destruct (register_shown reg Hr) as (w & E1 & -> & E3 & E4). exists w. rewrite bind_Ret, E3. split; [reflexivity|]. split; assumption.
  - exists (pretty n). split; [reflexivity|]. split; [reflexivity | apply pretty_nonempty].
  - cbn in Ho. rewrite i64_small by words. exists ("[" +:+ pretty a +:+ "]"). rewrite (proj2 (Z.ltb_ge a 0)) by lia.
    split; [reflexivity|]. split; reflexivity.
  - destruct (register_shown reg Hr) as (w & E1 & -> & E3 & E4). exists ("[" +:+ w +:+ "]"). rewrite bind_Ret, E3.
    split; [reflexivity|]. cbn [Operand_isNone Operand_type Operand_toString]. rewrite E1. split; reflexivity.
  - rewrite Hi. pose proof (Hlab _ _ Hi) as Hx. cbn in Hx. unfold kInstructionSize in *.
    assert (Hbig : 0 <= index * 24 < 2 ^ 63) by lia. rewrite (u64_small (index * 24)), (i64_small (index * 24)) by words.
    rewrite (proj2 (Z.ltb_ge (index * 24) 0)) by lia. cbn [throw_if]. change (mret tt ≫= ?f) with (f tt). cbv beta.
    unfold read_session, DebugSession_metadata. rewrite loaded_run by exact Hl. unfold lift. cbn [fst mret outcome_ret]. rewrite bind_Ret.
    cbv zeta. fold (code_base s). rewrite (u64_small (index * 24)) by words.
    assert (Hg : (index * 24 >? UINT64_MAX - code_base s) = false) by (bool_goal; unfold UINT64_MAX; lia). rewrite Hg. cbn [throw_if].
    change (mret tt ≫= ?f) with (f tt). cbv beta. rewrite u64_small by (unfold is_u64, UINT64_MAX; lia).
    exists (pretty (code_base s + index * 24)). split; [reflexivity|]. cbn. rewrite (Z.mul_comm index). split; [reflexivity | apply pretty_nonempty].
Qed.

Lemma instruction_shown s labels prog i d : holds_program s labels prog -> instruction_ok ∅ i -> dec_opcode d = opcode i ->
  denotes labels (dst i) (dst_type d) (dst_payload d) -> denotes labels (src i) (src_type d) (src_payload d) ->
  exists text, formatInstruction s d = Ret text /\ Instruction_toString (resolved (code_base s) labels i) = Ret text.
Proof.
  intros Hp [_ Hdst Hsrc _] Hop Hd Hs. destruct (operand_shown s labels prog _ _ _ Hp Hdst Hd) as (td & Ed & Td).
  destruct (operand_shown s labels prog _ _ _ Hp Hsrc Hs) as (ts & Es & Ts). unfold formatInstruction. rewrite Ed, bind_Ret, Es, bind_Ret, Hop.
  eexists. split; [reflexivity|]. unfold Instruction_toString, Instruction_hasDestination, Instruction_hasSource, resolved. cbn [dst src opcode].
  destruct (Operand_isNone (resolved_operand _ _ (dst i))); cbn [negb].
  - subst td. rewrite bind_Ret. destruct (Operand_isNone (resolved_operand _ _ (src i))); cbn [negb empty].
    + subst ts. cbn [empty]. change (EmptyString +:+ EmptyString) with EmptyString. rewrite append_nil. reflexivity.
    + destruct Ts as [-> ->]. reflexivity.
  - destruct Td as [-> ->]. rewrite !bind_Ret. destruct (Operand_isNone (resolved_operand _ _ (src i))); cbn [negb].
    + subst ts. cbn [empty]. rewrite append_nil. reflexivity.
    + destruct Ts as [-> ->]. rewrite bind_Ret. unfold mret, outcome_ret. f_equal. rewrite <- append_assoc. reflexivity.
Qed.

(** ** The loop *)

Lemma one_shown s labels prog k i : holds_program s labels prog -> prog !! k = Some i ->
  let address := code_base s + kInstructionSize * Z.of_nat k in
  exists item, disassemble_one s (ds_metadata s) (memory (session_state s)) address = Ret item /\ shows s labels address i item.
Proof.
  intros Hp Hk address. pose proof Hp as [Hl Hb He Hm Hc Hprog Hlab]. pose proof (lookup_lt_Some _ _ _ Hk) as Hlt.
  assert (Hfits : Forall instruction_fits prog) by (eapply Forall_impl; [exact Hprog | intros j; apply ok_fits]).
  destruct (encodeProgram_chunks prog labels _ Hfits Hc) as (Hlen & _ & Hchunk). specialize (Hchunk k i Hk).
  assert (Hok : instruction_ok ∅ i) by (rewrite Forall_lookup in Hprog; exact (Hprog _ _ Hk)). destruct (ok_fits ∅ i Hok) as [Hfd Hfs].
  destruct (encode_decodes i labels _ Hfd Hfs Hchunk) as (Hl24 & _ & d & Hdec & Hop & Hd & Hs).
  destruct (instruction_shown s labels prog i d Hp Hok Hop Hd Hs) as (text & Htext & Hspec).
  set (bytes := take 24 _) in *. unfold disassemble_one.
  assert (Hpartial : (md_code_end_exclusive (ds_metadata s) - address <? kInstructionSize) = false)
    by (rewrite He; unfold address, kInstructionSize; bool_goal; lia). rewrite Hpartial. cbn [throw_if]. change (mret tt ≫= ?f) with (f tt). cbv beta.
  assert (Hread : Memory_readBytes (memory (session_state s)) address kInstructionSize = Ret bytes).
  { change kInstructionSize with (Z.of_nat 24) at 1. rewrite <- Hl24 at 1. apply readBytes_ok.
    - rewrite Hl24. unfold in_range, address, kInstructionSize in *. lia.
    - intros j Hj. rewrite Hl24 in Hj. unfold bytes. rewrite lookup_take_lt, lookup_drop, lookup_take_lt, lookup_drop by lia.
      f_equal. unfold address, kInstructionSize. lia. }
  rewrite Hread, bind_Ret, Hdec, bind_Ret, Htext, bind_Ret. unfold read_session, DebugSession_cpu, hasBreakpoint. rewrite !loaded_run by exact Hl.
  unfold lift. cbn [fst mret outcome_ret]. rewrite !bind_Ret. eexists. split; [reflexivity|].
  constructor; cbn; try reflexivity; try assumption.
  unfold session_state. destruct (Z.eqb_spec (pc (state (session_cpu s))) address); [rewrite bool_decide_true | rewrite bool_decide_false]; auto.
Qed.

(** From instruction [k] on, [count] of them or up to the end. *)
Lemma loop_shown s labels prog count : holds_program s labels prog -> forall fuel k size, (length prog - k < fuel)%nat -> (k <= length prog)%nat ->
  0 <= size -> exists items,
  disassemble_loop fuel s (ds_metadata s) (memory (session_state s)) count size (code_base s + kInstructionSize * Z.of_nat k) = Ret items /\
  length items = (Nat.min (Z.to_nat (count - size)) (length prog - k))%nat /\
  forall j item, items !! j = Some item -> exists i, prog !! (k + j)%nat = Some i /\
    shows s labels (code_base s + kInstructionSize * Z.of_nat (k + j)) i item.
Proof.
  intros Hp. pose proof (hp_end _ _ _ Hp) as Hend. pose proof (hp_memory _ _ _ Hp) as Hm. pose proof (hp_base _ _ _ Hp) as Hb.
  induction fuel as [|fuel IH]; intros k size Hf Hk Hs; [lia|]. cbn [disassemble_loop].
  destruct (size <? count) eqn:Ec; cbn [andb]; facts.
  - destruct (_ <? md_code_end_exclusive _) eqn:El; facts.
    + assert (Hlt : (k < length prog)%nat) by (unfold kInstructionSize in *; lia). destruct (lookup_lt_is_Some_2 _ _ Hlt) as [i Hi].
      destruct (one_shown s labels prog k i Hp Hi) as (item & -> & Hitem). rewrite bind_Ret.
      assert (Hu : u64 (code_base s + kInstructionSize * Z.of_nat k + kInstructionSize) = code_base s + kInstructionSize * Z.of_nat (S k))
        by (rewrite u64_small by (unfold kInstructionSize in *; words); unfold kInstructionSize; lia). rewrite Hu.
      destruct (IH (S k) (size + 1)) as (items & -> & Hlen & Hitems); [lia|lia|lia|]. rewrite bind_Ret. exists (item :: items).
      split; [reflexivity|]. split; [cbn [length]; rewrite Hlen; lia|]. intros [|j] x Hx.
      * injection Hx as <-. exists i. rewrite Nat.add_0_r. split; assumption.
      * destruct (Hitems j x Hx) as (i' & Hi' & Hx'). exists i'. replace (k + S j)%nat with (S k + j)%nat by lia. split; assumption.
    + exists []. split; [reflexivity|]. split; [unfold kInstructionSize in *; cbn; lia | discriminate].
  - exists []. split; [reflexivity|]. split; [cbn; lia | discriminate].
Qed.

Lemma disassemble_checks s address count : ds_loaded s = true ->
  count = 0 \/ address < code_base s \/ md_code_end_exclusive (ds_metadata s) <= address \/ (address - code_base s) mod kInstructionSize <> 0 ->
  exists e, disassemble s address count = Throw e.
Proof.
  intros Hl Hbad. unfold disassemble. destruct (count =? 0) eqn:Ec; [eexists; reflexivity|]. facts. cbn [throw_if].
  change (mret tt ≫= ?f) with (f tt). cbv beta. unfold read_session, DebugSession_metadata. rewrite loaded_run by exact Hl.
  unfold lift. cbn [fst mret outcome_ret]. rewrite bind_Ret. fold (code_base s).
  destruct ((address <? code_base s) || (address >=? md_code_end_exclusive (ds_metadata s))) eqn:Er; [eexists; reflexivity|]. facts.
  cbn [throw_if]. change (mret tt ≫= ?f) with (f tt). cbv beta.
  destruct (negb _) eqn:Ea; [eexists; reflexivity|]. facts. lia.
Qed.
End laws.

(** ** Properties *)


(** ** Witnesses *)

#[local] Existing Instance extended_long_double.
#[local] Existing Instance no_handler.

Definition looping_text : string :=
  String.concat (String Text.newline EmptyString) ["start: MOV R0, 5"; "STORE [16], R0"; "CALL start"].

Definition looping_image : outcome ProcessImage :=
  p ← assembleString looping_text; b ← toBinaryProgram p; bytes ← BinaryWriter_writeToBytes b;
  ProcessImageLoader_loadFromBytes bytes "looping".

(** The program in a session, with a breakpoint at its second instruction. *)
Definition looping_session : DebugSession unit :=
  match looping_image with
  | Ret image => run_commands [C_loadImage image; C_addBreakpoint 536] (new_DebugSession empty_world tt)
  | Throw _ => new_DebugSession empty_world tt
  end.

Definition looping_program : list Instruction :=
  [Build_Instruction MOV (registerOperand R0) (immediate 5); Build_Instruction STORE (memoryAddress 16) (registerOperand R0);
   Build_Instruction CALL (label "start") none].

Lemma looping_holds : holds_program looping_session (<["start" := 0]> ∅) looping_program.
Proof.
  constructor.
  - vm_compute. reflexivity.
  - apply (bool_decide_unpack _). vm_compute. exact I.
  - apply (bool_decide_unpack _). vm_compute. exact I.
  - apply (bool_decide_unpack _). vm_compute. exact I.
  - apply (bool_decide_unpack _). vm_compute. exact I.
  - repeat constructor; cbn; try discriminate; try words; try (vm_compute; congruence).
  - apply map_Forall_insert_2; [vm_compute; split; discriminate | apply map_Forall_empty].
Qed.

