(* ===== verification/Console.v ===== *)
(** * The command loop of the debugger consoles: [src/debug/DebugConsole.cpp]

    What the consoles of one process and of several share: the streams, the
    arguments of a command, and the loop that reads commands, executes them and
    reports their errors.  [src/debug/MultiProcessDebugConsole.cpp] repeats the same
    functions; where it catches the exceptions of [std::stoull] its readers are
    modelled apart.  The streams do not fail. *)

From S2P Require Import Prelude Words Text Json.
Open Scope Z_scope.

Record DebugConsoleOptions := { default_continue_steps : Z; show_prompt : bool; print_banner : bool }.

Record DebugConsoleRunResult := {
  command_count : Z;
  command_error_count : Z;
  quit_requested : bool;
  eof_reached : bool;
}.

Definition no_commands : DebugConsoleRunResult :=
  {| command_count := 0; command_error_count := 0; quit_requested := false; eof_reached := false |}.

Definition DebugConsoleRunResult_success (r : DebugConsoleRunResult) : bool := command_error_count r =? 0.

(** A console over a session: what is left of the input, the rest of the line that
    [executeCommand] reads, what was written to both output streams, and the files
    written, in order, with their texts. *)
Record Console (S : Type) := {
  co_session : S;
  co_input : string;
  co_parser : string;
  co_output : string;
  co_error : string;
  co_files : list (string * string);
}.
Arguments Build_Console {S} _ _ _ _ _ _.
Arguments co_session {S} _.
Arguments co_input {S} _.
Arguments co_parser {S} _.
Arguments co_output {S} _.
Arguments co_error {S} _.
Arguments co_files {S} _.

(** The file system of the host: the files that can be opened for writing, and the
    texts they take. *)
Class HostFiles := {
  can_open : string -> bool;
  can_write : string -> string -> bool;
}.

(** [writeJsonFile] of DebugSnapshotJson.cpp: the file and its text.  A file that
    cannot be written to its end is left with an unknown part of the text, which is
    not kept. *)
Definition json_file {HF : HostFiles} (path json : string) : outcome (string * string) :=
  _ ← throw_if (empty path) (RuntimeError "Debug snapshot JSON path must not be empty");
  _ ← throw_if (negb (can_open path)) (RuntimeError ("Failed to open debug snapshot JSON file: " +:+ path));
  _ ← throw_if (negb (can_write path json)) (RuntimeError ("Failed to write debug snapshot JSON file: " +:+ path));
  mret (path, json).

Definition empty_arg (text : string) : bool := empty text || front_is "-" text.

(** [parsed != text.size()], and no value beyond [size_t]. *)
Definition read_unsigned (limit : Z) (positive : bool) (e : exn) (text : string) : outcome Z :=
  _ ← throw_if (empty_arg text) e;
  '(value, parsed) ← stoull read_magnitude text;
  _ ← throw_if (negb (Z.of_nat parsed =? Z.of_nat (String.length text)) || (positive && (value =? 0)) || (value >? limit)) e;
  mret value.

Definition address_error : exn := RuntimeError "address must be a non-negative integer".
Definition count_error (context : string) : exn := RuntimeError (context +:+ " count must be a positive integer").

Definition parseAddress (text : string) : outcome Z := read_unsigned UINT64_MAX false address_error text.
Definition parsePositiveCount (text context : string) : outcome Z := read_unsigned UINT64_MAX true (count_error context) text.

(** [command == a || command == b] *)
Definition is_one_of (command : string) (names : list string) : bool := existsb (String.eqb command) names.

Section console.
Context {S : Type}.

Definition set_console_session (s : S) (c : Console S) : Console S :=
  Build_Console s (co_input c) (co_parser c) (co_output c) (co_error c) (co_files c).
Definition set_console_input (input : string) (c : Console S) : Console S :=
  Build_Console (co_session c) input (co_parser c) (co_output c) (co_error c) (co_files c).
Definition set_console_parser (parser : string) (c : Console S) : Console S :=
  Build_Console (co_session c) (co_input c) parser (co_output c) (co_error c) (co_files c).
Definition set_console_output (output : string) (c : Console S) : Console S :=
  Build_Console (co_session c) (co_input c) (co_parser c) output (co_error c) (co_files c).
Definition set_console_error (error : string) (c : Console S) : Console S :=
  Build_Console (co_session c) (co_input c) (co_parser c) (co_output c) error (co_files c).
Definition set_console_files (files : list (string * string)) (c : Console S) : Console S :=
  Build_Console (co_session c) (co_input c) (co_parser c) (co_output c) (co_error c) files.

(** A call on the session, [output_ << text] and [error_ << text]. *)
Definition on_session {A} (m : M S A) : M (Console S) A := zoom co_session set_console_session m.
Definition print (text : string) : M (Console S) unit := modify (fun c => set_console_output (co_output c +:+ text) c).
Definition print_error (text : string) : M (Console S) unit := modify (fun c => set_console_error (co_error c +:+ text) c).

(** [parser >> word] *)
Definition read_word : M (Console S) (option string) :=
  c ← get;
  let '(word, rest) := next_word (co_parser c) in
  _ ← modify (set_console_parser rest);
  mret (if empty word then None else Some word).

Definition requireNoExtra (command : string) : M (Console S) unit :=
  extra ← read_word;
  match extra with
  | Some extra => throw (RuntimeError (command +:+ " received an unexpected argument: " +:+ extra))
  | None => mret tt
  end.

Definition requireArgument (command name : string) : M (Console S) string :=
  value ← read_word;
  match value with Some value => mret value | None => throw (RuntimeError (command +:+ " requires " +:+ name)) end.

(** [optionalPositiveCount] of the console of several processes does the same with
    its own [parse]. *)
Definition optional_count (parse : string -> string -> outcome Z) (command : string) (defaultValue : Z) : M (Console S) Z :=
  text ← read_word;
  match text with
  | None => mret defaultValue
  | Some text => _ ← requireNoExtra command; lift (parse text command)
  end.

Definition parseOptionalCount : string -> Z -> M (Console S) Z := optional_count parsePositiveCount.

Definition isComment (command : string) : bool := negb (empty command) && (front_is "#" command || front_is ";" command).

Definition writeJsonFile {HF : HostFiles} (path json : string) : M (Console S) unit :=
  entry ← lift (json_file path json);
  modify (fun c => set_console_files (co_files c ++ [entry]) c).

(** [std::getline(input_, line)]: nothing at the end of the input. *)
Definition getline : M (Console S) (option string) :=
  c ← get;
  match co_input c with
  | EmptyString => mret None
  | input =>
      let '(line, rest) := span (fun ch => negb (bool_decide (ch = newline))) input in
      _ ← modify (set_console_input (match rest with String _ rest => rest | EmptyString => EmptyString end));
      mret (Some line)
  end.

(** ** Choosing a command *)

(** A command without arguments that prints something. *)
Definition Console_print (printing : M (Console S) unit) (command : string) : M (Console S) unit := _ ← requireNoExtra command; printing.

Definition command_quit (closing command : string) : M (Console S) bool :=
  _ ← requireNoExtra command; _ ← print (closing +:+ newline_text); mret true.

(** The tests of [executeCommand]: the branches in their order, with the names of
    each.  No name is in two branches, so the place of [quit], which ends the
    session, is free. *)
Definition dispatch_command (closing unknown : string) (branches : list (list string * (string -> M (Console S) unit)))
    (command : string) : M (Console S) bool :=
  if is_one_of command ["quit"; "q"; "exit"] then command_quit closing command
  else
    match list_find (fun branch => is_one_of command branch.1) branches with
    | Some (_, (_, execute)) => _ ← execute command; mret false
    | None => throw (RuntimeError (unknown +:+ command))
    end.

(** ** The loop of [run] *)

Definition one_more_command (r : DebugConsoleRunResult) : DebugConsoleRunResult :=
  {| command_count := u64 (command_count r + 1); command_error_count := command_error_count r;
     quit_requested := quit_requested r; eof_reached := eof_reached r |}.
Definition one_more_error (r : DebugConsoleRunResult) : DebugConsoleRunResult :=
  {| command_count := command_count r; command_error_count := u64 (command_error_count r + 1);
     quit_requested := quit_requested r; eof_reached := eof_reached r |}.
Definition with_quit (r : DebugConsoleRunResult) : DebugConsoleRunResult :=
  {| command_count := command_count r; command_error_count := command_error_count r; quit_requested := true;
     eof_reached := eof_reached r |}.
Definition with_eof (r : DebugConsoleRunResult) : DebugConsoleRunResult :=
  {| command_count := command_count r; command_error_count := command_error_count r;
     quit_requested := quit_requested r; eof_reached := true |}.

(** [std::istringstream parser(line); parser >> command;] in front of a body. *)
Definition with_command (execute : string -> M (Console S) bool) (line : string) : M (Console S) bool :=
  let '(command, rest) := next_word line in
  _ ← modify (set_console_parser rest);
  execute command.

(** The loop takes at least one character of the input in every round, so one more
    round than the input has characters is enough. *)
Fixpoint console_loop (fuel : nat) (prompt : string) (options : DebugConsoleOptions) (executeCommand : string -> M (Console S) bool)
    (result : DebugConsoleRunResult) : M (Console S) DebugConsoleRunResult :=
  match fuel with
  | O => mret result
  | Datatypes.S fuel =>
      let again := console_loop fuel prompt options executeCommand in
      _ ← (if show_prompt options then print prompt else mret tt);
      line ← getline;
      match line with
      | None => mret (with_eof result)
      | Some line =>
          let command := (next_word line).1 in
          if empty command then again result
          else if isComment command then again result
          else
            let result := one_more_command result in
            answer ← try_catch (Ret <$> executeCommand line) (fun ex => mret (Throw ex));
            match answer with
            | Ret true => mret (with_quit result)
            | Ret false => again result
            | Throw ex => _ ← print_error ("error: " +:+ what ex +:+ newline_text); again (one_more_error result)
            end
      end
  end.

Definition run_console (prompt : string) (options : DebugConsoleOptions) (printBanner : M (Console S) unit)
    (executeCommand : string -> M (Console S) bool) : M (Console S) DebugConsoleRunResult :=
  _ ← (if print_banner options then printBanner else mret tt);
  c ← get;
  console_loop (Datatypes.S (String.length (co_input c))) prompt options executeCommand no_commands.

End console.

