(* ===== verification/DebugConsole.v ===== *)
(** * The debugger console of one process: [src/debug/DebugConsole.cpp]

    Every command of the console, as code over the session, the streams and the
    files; one definition per branch of [executeCommand]. *)

From S2P Require Import Prelude Words Text ALU CPUState Trace TraceDetail CPU Image Process DebugCondition DebugSymbols DebugSession Json DebugSnapshotJson DebugInspector Console.
Open Scope Z_scope.

Definition default_console_options : DebugConsoleOptions :=
  {| default_continue_steps := 100000; show_prompt := true; print_banner := true |}.

Definition parseWatchMode (text : string) : outcome MemoryWatchMode :=
  if is_one_of text ["read"; "r"] then mret Watch_Read
  else if is_one_of text ["write"; "w"] then mret Watch_Write
  else if is_one_of text ["access"; "a"; "rw"] then mret Watch_Access
  else throw (RuntimeError "watch mode must be read, write, or access").

(** ** Texts *)

Definition help_text : string := String.concat newline_text
  ["Commands:"; "  help"; "  status"; "  step [count]"; "  step-line [max-steps]  (alias: sl)"; "  continue [max-steps]";
   "  break <address>"; "  delete <address>"; "  clear"; "  breakpoints"; "  symbols"; "  break-label <code-label>";
   "  break-if-label <code-label> <source> <op> <value>"; "  disassemble-label <code-label> <instructions>";
   "  memory-label <data-label> <bytes>"; "  break-if <address> <source> <op> <value>"; "  delete-if <ID>"; "  conditions";
   "  clear-conditions"; "  watch <read|write|access> <address> [bytes]"; "  unwatch <ID>"; "  watchpoints"; "  clear-watchpoints";
   "  registers"; "  memory <address> <bytes>"; "  disassemble <address> <instructions>";
   "  snapshot-json <path> [memory-address bytes]"; "  trace"; "  quit"; ""].

(** [label << value << "\n"] *)
Definition text_line (label value : string) : string := label +:+ value +:+ newline_text.

Definition conditional_hit_text (hit : ConditionalHit) : string :=
  text_line "Conditional breakpoint ID: " (pretty (ch_id hit))
  +:+ text_line "Condition: " (ch_expression hit)
  +:+ text_line "Condition actual value: " (pretty (ch_actual_value hit)).

Definition watch_hit_text (hit : WatchHit) : string :=
  text_line "Watchpoint ID: " (pretty (wh_id hit))
  +:+ text_line "Watch range: [" (pretty (wh_address hit) +:+ ", " +:+ pretty (u64 (wh_address hit + wh_size hit)) +:+ ") "
                                  +:+ memoryWatchModeToString (wh_mode hit))
  +:+ text_line "Memory access: " (memoryWatchModeToString (wh_access_mode hit) +:+ " " +:+ pretty (wh_access_address hit)).

Definition message_text (message : string) : string := if empty message then EmptyString else text_line "Message: " message.

Definition status_text (stop : DebugStop) : string :=
  text_line "Stop reason: " (debugStopReasonToString (stop_reason stop))
  +:+ text_line "PC: " (pretty (stop_pc stop))
  +:+ text_line "Executed steps: " (pretty (stop_executed_steps stop))
  +:+ text_line "Total steps: " (pretty (stop_total_steps stop))
  +:+ (if stop_conditional stop is Some hit then conditional_hit_text hit else EmptyString)
  +:+ (if stop_watchpoint stop is Some hit then watch_hit_text hit else EmptyString)
  +:+ message_text (stop_message stop).

(** The texts of all elements, one after the other. *)
Definition concat_text {A} (f : A -> string) (l : list A) : string := foldr (fun x rest => f x +:+ rest) EmptyString l.

Definition symbol_text (symbol : DebugSymbol) : string :=
  text_line "  " (debugSymbolKindToString (dy_kind symbol) +:+ " " +:+ dy_name symbol +:+ " = " +:+ pretty (dy_address symbol)).

Section console.
Context {LD : LongDouble} {H : Type} {SIH : SoftwareInterruptHandler H} {HF : HostFiles}.

Abbreviation Session := (DebugSession H).
Abbreviation Shell := (M (Console Session)).

Definition printStatus (stop : DebugStop) : Shell unit := print (status_text stop).

Definition printHelp : Shell unit := print help_text.

Definition printBanner : Shell unit :=
  _ ← print (text_line "Zero-CPU Interactive Debugger" "" +:+ "Executable: ");
  name ← on_session DebugSession_sourceName;
  _ ← print (text_line name "" +:+ "Code range: [");
  md ← on_session DebugSession_metadata;
  print (pretty (md_code_base md) +:+ ", " +:+ pretty (md_code_end_exclusive md) +:+ text_line ")" ""
         +:+ text_line "Entry point: " (pretty (md_entry_point md))
         +:+ text_line "Type 'help' for commands." "").

Definition printBreakpoints : Shell unit :=
  values ← on_session DebugSession_breakpoints;
  if bool_decide (values = []) then print (text_line "No breakpoints." "")
  else print (text_line "Breakpoints:" (concat_text (fun address => " " +:+ pretty address) values)).

Definition condition_line (b : ConditionalBreakpoint) : string :=
  text_line "  " (pretty (cb_id b) +:+ " @" +:+ pretty (cb_address b) +:+ " when " +:+ expression (cb_condition b)).

Definition printConditionalBreakpoints : Shell unit :=
  values ← on_session conditionalBreakpoints;
  if bool_decide (values = []) then print (text_line "No conditional breakpoints." "")
  else print (text_line "Conditional breakpoints:" "" +:+ concat_text condition_line values).

Definition printSymbols : Shell unit :=
  has ← on_session DebugSession_hasSymbols;
  if negb has then print (text_line "No debug symbols loaded." "")
  else
    _ ← print (text_line "Debug symbols:" "");
    symbols ← on_session DebugSession_symbols;
    print (concat_text symbol_text (sy_entries symbols)).

Definition watch_line (w : MemoryWatchpoint) : string :=
  text_line "  " (pretty (wp_id w) +:+ " " +:+ memoryWatchModeToString (wp_mode w) +:+ " [" +:+ pretty (wp_address w)
                  +:+ ", " +:+ pretty (MemoryWatchpoint_endExclusive w) +:+ ")").

Definition printWatchpoints : Shell unit :=
  values ← on_session DebugSession_watchpoints;
  if bool_decide (values = []) then print (text_line "No watchpoints." "")
  else print (text_line "Watchpoints:" "" +:+ concat_text watch_line values).

(** [traceLogger().last().toCompactString()] *)
Definition last_trace_text (c : CPU) : outcome string :=
  event ← TraceLogger_last (trace_logger c);
  a ← TraceEvent_analyze event;
  toCompactString event a.

Definition printLastTrace : Shell unit :=
  c ← on_session DebugSession_cpu;
  if bool_decide (trace_logger c = []) then print (text_line "No trace events." "")
  else text ← lift (last_trace_text c); print (text_line text "").

(** ** The commands *)

(** [for (index = 0; index < count; ++index)] *)
Fixpoint step_times (count : nat) (stop : DebugStop) : Shell DebugStop :=
  match count with
  | O => mret stop
  | S count =>
      stop ← on_session DebugSession_step;
      if bool_decide (stop_reason stop = Stop_StepComplete) then step_times count stop else mret stop
  end.

Definition command_step (command : string) : Shell unit :=
  count ← parseOptionalCount command 1;
  stop ← on_session DebugSession_lastStop;
  stop ← step_times (Z.to_nat count) stop;
  printStatus stop.

Definition command_step_line (options : DebugConsoleOptions) (command : string) : Shell unit :=
  maxSteps ← parseOptionalCount command (default_continue_steps options);
  stop ← on_session (DebugSession_stepSourceLine maxSteps);
  printStatus stop.

Definition command_continue (options : DebugConsoleOptions) (command : string) : Shell unit :=
  count ← parseOptionalCount command (default_continue_steps options);
  stop ← on_session (DebugSession_continueExecution count);
  printStatus stop.

Definition command_break (command : string) : Shell unit :=
  text ← requireArgument command "an address";
  address ← lift (parseAddress text);
  _ ← requireNoExtra command;
  added ← on_session (addBreakpoint address);
  print ("Breakpoint " +:+ pretty address +:+ text_line (if (added : bool) then " added." else " already exists.") "").

Definition command_delete (command : string) : Shell unit :=
  text ← requireArgument command "an address";
  address ← lift (parseAddress text);
  _ ← requireNoExtra command;
  removed ← on_session (removeBreakpoint address);
  print (if (removed : bool) then "Breakpoint " +:+ pretty address +:+ text_line " deleted." ""
         else "No breakpoint at " +:+ pretty address +:+ text_line "." "").

Definition command_clear (command : string) : Shell unit :=
  _ ← requireNoExtra command;
  _ ← on_session clearBreakpoints;
  print (text_line "All breakpoints cleared." "").

Definition command_break_label (command : string) : Shell unit :=
  name ← requireArgument command "a code label";
  _ ← requireNoExtra command;
  address ← on_session (DebugSession_resolveCodeSymbol name);
  added ← on_session (addBreakpoint address);
  print ("Breakpoint at label " +:+ name +:+ " (" +:+ pretty address
         +:+ text_line (if (added : bool) then ") added." else ") already exists.") "").

Definition command_break_if_label (command : string) : Shell unit :=
  name ← requireArgument command "a code label";
  source ← requireArgument command "a condition source";
  operation ← requireArgument command "a comparison operator";
  value ← requireArgument command "a comparison value";
  _ ← requireNoExtra command;
  address ← on_session (DebugSession_resolveCodeSymbol name);
  condition ← lift (parseDebugCondition source operation value);
  id ← on_session (addConditionalBreakpoint address condition);
  print ("Conditional breakpoint " +:+ pretty id +:+ " added at label " +:+ name +:+ " (" +:+ pretty address +:+ "): "
         +:+ expression condition +:+ text_line "." "").

Definition command_disassemble_label (command : string) : Shell unit :=
  name ← requireArgument command "a code label";
  text ← requireArgument command "an instruction count";
  count ← lift (parsePositiveCount text command);
  _ ← requireNoExtra command;
  address ← on_session (DebugSession_resolveCodeSymbol name);
  s ← gets co_session;
  items ← lift (disassemble s address count);
  print (text_line (formatDisassembly items) "").

Definition command_memory_label (command : string) : Shell unit :=
  name ← requireArgument command "a data label";
  text ← requireArgument command "a byte count";
  count ← lift (parsePositiveCount text command);
  _ ← requireNoExtra command;
  address ← on_session (DebugSession_resolveDataSymbol name);
  s ← gets co_session;
  inspection ← lift (inspectMemory s address count);
  print (text_line (formatMemory inspection) "").

Definition command_break_if (command : string) : Shell unit :=
  text ← requireArgument command "an address";
  address ← lift (parseAddress text);
  source ← requireArgument command "a condition source";
  operation ← requireArgument command "a comparison operator";
  value ← requireArgument command "a comparison value";
  _ ← requireNoExtra command;
  condition ← lift (parseDebugCondition source operation value);
  id ← on_session (addConditionalBreakpoint address condition);
  print ("Conditional breakpoint " +:+ pretty id +:+ " added at " +:+ pretty address +:+ ": "
         +:+ expression condition +:+ text_line "." "").

Definition command_delete_if (command : string) : Shell unit :=
  text ← requireArgument command "a conditional breakpoint ID";
  id ← lift (parsePositiveCount text command);
  _ ← requireNoExtra command;
  removed ← on_session (removeConditionalBreakpoint id);
  print (if (removed : bool) then "Conditional breakpoint " +:+ pretty id +:+ text_line " deleted." ""
         else "No conditional breakpoint with ID " +:+ pretty id +:+ text_line "." "").

Definition command_clear_conditions (command : string) : Shell unit :=
  _ ← requireNoExtra command;
  _ ← on_session clearConditionalBreakpoints;
  print (text_line "All conditional breakpoints cleared." "").

Definition command_watch (command : string) : Shell unit :=
  text ← requireArgument command "read, write, or access";
  mode ← lift (parseWatchMode text);
  text ← requireArgument command "an address";
  address ← lift (parseAddress text);
  size ← parseOptionalCount command 8;
  id ← on_session (addWatchpoint address size mode);
  print ("Watchpoint " +:+ pretty id +:+ " added: " +:+ memoryWatchModeToString mode +:+ " [" +:+ pretty address +:+ ", "
         +:+ pretty (u64 (address + size)) +:+ text_line ")." "").

Definition command_unwatch (command : string) : Shell unit :=
  text ← requireArgument command "a watchpoint ID";
  id ← lift (parsePositiveCount text command);
  _ ← requireNoExtra command;
  removed ← on_session (removeWatchpoint id);
  print (if (removed : bool) then "Watchpoint " +:+ pretty id +:+ text_line " deleted." ""
         else "No watchpoint with ID " +:+ pretty id +:+ text_line "." "").

Definition command_clear_watchpoints (command : string) : Shell unit :=
  _ ← requireNoExtra command;
  _ ← on_session clearWatchpoints;
  print (text_line "All watchpoints cleared." "").

(** [options.memory_address = ...; options.memory_size = ...;] *)
Definition with_memory (address size : Z) (o : DebugSnapshotOptions) : DebugSnapshotOptions :=
  {| so_include_memory := so_include_memory o; so_memory_address := address; so_memory_size := size;
     so_include_symbols := so_include_symbols o; so_include_last_trace := so_include_last_trace o |}.

(** The arguments of [snapshot-json], the same in both consoles but for the readers
    of numbers. *)
Definition snapshot_arguments {T} (parse_address : string -> outcome Z) (parse_count : string -> string -> outcome Z)
    (command : string) : M (Console T) (string * DebugSnapshotOptions) :=
  path ← requireArgument command "an output path";
  addressText ← read_word;
  options ←
    match addressText with
    | None => mret default_snapshot_options
    | Some addressText =>
        address ← lift (parse_address addressText);
        text ← requireArgument command "a memory byte count";
        size ← lift (parse_count text command);
        _ ← requireNoExtra command;
        mret (with_memory address size default_snapshot_options)
    end;
  mret (path, options).

Definition command_snapshot (command : string) : Shell unit :=
  '(path, options) ← snapshot_arguments parseAddress parsePositiveCount command;
  s ← gets co_session;
  json ← lift (DebugSnapshotJsonWriter_toJson s options);
  _ ← writeJsonFile path json;
  print (text_line "Debug snapshot JSON written: " path).

Definition command_registers (command : string) : Shell unit :=
  _ ← requireNoExtra command;
  s ← gets co_session;
  inspection ← lift (inspectRegisters s);
  print (text_line (formatRegisters inspection) "").

Definition command_memory (command : string) : Shell unit :=
  text ← requireArgument command "an address";
  address ← lift (parseAddress text);
  text ← requireArgument command "a byte count";
  count ← lift (parsePositiveCount text command);
  _ ← requireNoExtra command;
  s ← gets co_session;
  inspection ← lift (inspectMemory s address count);
  print (text_line (formatMemory inspection) "").

Definition command_disassemble (command : string) : Shell unit :=
  text ← requireArgument command "an address";
  address ← lift (parseAddress text);
  text ← requireArgument command "an instruction count";
  count ← lift (parsePositiveCount text command);
  _ ← requireNoExtra command;
  s ← gets co_session;
  items ← lift (disassemble s address count);
  print (text_line (formatDisassembly items) "").

Definition command_status : string -> Shell unit :=
  Console_print (stop ← on_session DebugSession_lastStop; printStatus stop).

(** The commands that do not end the session, with their names, in the order of the
    tests. *)
Definition console_commands (options : DebugConsoleOptions) : list (list string * (string -> Shell unit)) :=
  [(["help"; "h"; "?"], Console_print printHelp);
   (["status"; "st"], command_status);
   (["step"; "s"], command_step);
   (["step-line"; "sl"], command_step_line options);
   (["continue"; "c"], command_continue options);
   (["break"; "b"], command_break);
   (["delete"; "d"], command_delete);
   (["clear"], command_clear);
   (["breakpoints"; "bl"], Console_print printBreakpoints);
   (["symbols"; "sym"], Console_print printSymbols);
   (["break-label"; "bs"], command_break_label);
   (["break-if-label"], command_break_if_label);
   (["disassemble-label"], command_disassemble_label);
   (["memory-label"], command_memory_label);
   (["break-if"; "bi"], command_break_if);
   (["delete-if"; "di"], command_delete_if);
   (["conditions"; "cl"], Console_print printConditionalBreakpoints);
   (["clear-conditions"], command_clear_conditions);
   (["watch"; "w"], command_watch);
   (["unwatch"; "uw"], command_unwatch);
   (["watchpoints"; "wl"], Console_print printWatchpoints);
   (["clear-watchpoints"], command_clear_watchpoints);
   (["snapshot-json"; "snapshot"], command_snapshot);
   (["registers"; "r"], command_registers);
   (["memory"; "x"], command_memory);
   (["disassemble"; "disas"], command_disassemble);
   (["trace"; "t"], Console_print printLastTrace)].

Definition execute_command (options : DebugConsoleOptions) : string -> Shell bool :=
  dispatch_command "Debugger session closed." "unknown debugger command: " (console_commands options).

Definition DebugConsole_executeCommand (options : DebugConsoleOptions) : string -> Shell bool := with_command (execute_command options).

Definition DebugConsole_run (options : DebugConsoleOptions) : Shell DebugConsoleRunResult :=
  run_console "(zdbg) " options printBanner (DebugConsole_executeCommand options).

(** The constructor, given the input. *)
Definition new_DebugConsole (session : Session) (input : string) (options : DebugConsoleOptions) : outcome (Console Session) :=
  _ ← throw_if (negb (DebugSession_loaded session)) (RuntimeError "Debug console requires a loaded session");
  _ ← throw_if (default_continue_steps options =? 0) (RuntimeError "Debug console continue limit must be greater than zero");
  mret (Build_Console session input EmptyString EmptyString EmptyString []).

End console.
