(* ===== verification/MultiProcessDebugConsole.v ===== *)
(** * The debugger console of several processes: [src/debug/MultiProcessDebugConsole.cpp]

    Every command of the console, one definition per branch of [executeCommand],
    on the streams and the loop of Console.v.  The readers of numbers differ from
    the ones of the console of one process in the exceptions they turn into their
    own. *)

From S2P Require Import Prelude Words Text ALU Memory CPUState Trace TraceDetail CPU Image Process ProcTable Preemption Lifecycle Runner DebugCondition DebugSymbols DebugSession MultiDebugSession Json DebugSnapshotJson DebugInspector Console DebugConsole.
Open Scope Z_scope.

Definition multi_default_console_options : DebugConsoleOptions :=
  {| default_continue_steps := 100000; show_prompt := true; print_banner := true |}.

(** [catch (const std::runtime_error&) { throw; } catch (const std::exception&) { throw e; }] *)
Definition or_runtime_error {A} (e : exn) (o : outcome A) : outcome A :=
  match o with
  | Throw (OutOfRange _ | LogicError _ | LengthError _ | InvalidArgument _) => Throw e
  | _ => o
  end.

Definition pid_error (command : string) : exn := RuntimeError (command +:+ " PID must be a positive integer").

Definition Multi_parseAddress (text : string) : outcome Z := or_runtime_error address_error (read_unsigned UINT64_MAX false address_error text).
Definition Multi_parsePositiveCount (text context : string) : outcome Z :=
  or_runtime_error (count_error context) (read_unsigned UINT64_MAX true (count_error context) text).
Definition parsePid (text : string) : outcome ProcessId :=
  value ← Multi_parsePositiveCount text "process";
  _ ← throw_if (value >? UINT32_MAX) (RuntimeError "PID is out of range");
  mret value.
Definition Multi_parseWatchMode (text : string) : outcome ProcessMemoryWatchMode :=
  if is_one_of text ["read"; "r"] then mret Watch_Read
  else if is_one_of text ["write"; "w"] then mret Watch_Write
  else if is_one_of text ["access"; "a"; "rw"] then mret Watch_Access
  else throw (RuntimeError "watch mode must be read, write, or access").

(** ** Texts *)

Definition multi_help_text : string := String.concat newline_text
  ["Commands:"; "  help"; "  processes"; "  process <PID>"; "  selected"; "  symbols <PID>"; "  break <PID> <address>";
   "  break-label <PID> <label>"; "  delete <PID> <address>"; "  breakpoints [PID]"; "  clear-breakpoints [PID]";
   "  break-if <PID> <address> <source> <op> <value>"; "  break-if-label <PID> <label> <source> <op> <value>";
   "  delete-if <ID>"; "  conditions [PID]"; "  clear-conditions [PID]"; "  watch <PID> <read|write|access> <address> [bytes]";
   "  unwatch <ID>"; "  watchpoints [PID]"; "  clear-watchpoints [PID]"; "  step [count]"; "  step-line [max-steps]  (alias: sl)";
   "  continue [max-steps]"; "  status"; "  syscalls [pid]"; "  scheduler"; "  registers"; "  memory <address> <bytes>";
   "  snapshot-json <path> [memory-address bytes]"; "  trace"; "  quit"; ""].

Definition truth_text (b : bool) : string := if b then "true" else "false".

Definition multi_stop_text (stop : MultiProcessDebugStop) : string :=
  let detail := mstop_detail stop in
  text_line "Stop reason: " (multiProcessDebugStopReasonToString (mstop_reason stop))
  +:+ text_line "Runtime state: " (processRuntimeStateToString (mstop_runtime_state stop))
  +:+ text_line "Running PID: " (pretty (mstop_running_pid stop))
  +:+ text_line "Selected PID: " (pretty (mstop_selected_pid stop))
  +:+ text_line "Executed steps: " (pretty (mstop_executed_steps stop))
  +:+ text_line "Total steps: " (pretty (mstop_total_steps stop))
  +:+ (if sd_hit detail is Some (pid, address) then text_line "Hit PID: " (pretty pid) +:+ text_line "Hit address: " (pretty address)
       else EmptyString)
  +:+ (if sd_conditional detail is Some hit then conditional_hit_text hit else EmptyString)
  +:+ (if sd_watchpoint detail is Some hit then watch_hit_text hit else EmptyString)
  +:+ (if sd_terminated detail is Some (faulted, pid)
       then text_line "Terminated PID: " (pretty pid) +:+ text_line "Faulted: " (truth_text faulted) else EmptyString)
  +:+ message_text (mstop_message stop).

(** A line of [printProcesses] after the mark of the running process. *)
Definition process_line (selected : ProcessId) (p : ProcessDebugSnapshot) : string :=
  (if pd_pid p =? selected then "* " else "  ") +:+ "PID " +:+ pretty (pd_pid p) +:+ " " +:+ processStateToString (pd_state p)
  +:+ " PC=" +:+ pretty (ctx_pc (pd_context p)) +:+ " SP=" +:+ pretty (ctx_sp (pd_context p))
  +:+ (if empty (pd_source_name p) then EmptyString else " " +:+ pd_source_name p)
  +:+ (if pd_has_exit_code p
       then " exit=" +:+ pretty (pd_exit_code p) +:+ " " +:+ processTerminationKindToString (pd_termination_kind p) else EmptyString)
  +:+ newline_text.

Definition snapshot_print (p : ProcessDebugSnapshot) : string :=
  text_line "PID " (pretty (pd_pid p))
  +:+ text_line "  Source: " (if empty (pd_source_name p) then "<unknown>" else pd_source_name p)
  +:+ text_line "  State: " (processStateToString (pd_state p))
  +:+ text_line "  Running: " (truth_text (pd_running p))
  +:+ text_line "  PC: " (pretty (ctx_pc (pd_context p)))
  +:+ text_line "  SP: " (pretty (ctx_sp (pd_context p)))
  +:+ (if pd_has_executable_image p
       then text_line "  Code range: [" (pretty (pd_code_base p) +:+ ", " +:+ pretty (pd_code_end_exclusive p) +:+ ")")
            +:+ text_line "  Entry point: " (pretty (pd_entry_point p))
       else EmptyString)
  +:+ (if pd_has_exit_code p
       then text_line "  Exit code: " (pretty (pd_exit_code p))
            +:+ text_line "  Termination: " (processTerminationKindToString (pd_termination_kind p))
            +:+ (if empty (pd_termination_message p) then EmptyString else text_line "  Message: " (pd_termination_message p))
       else EmptyString).

Definition process_breakpoint_line (b : ProcessBreakpoint) : string :=
  text_line "  PID " (pretty (pb_pid b) +:+ " @" +:+ pretty (pb_address b)).
Definition process_condition_line (b : ProcessConditionalBreakpoint) : string :=
  text_line "  " (pretty (pc_id b) +:+ " PID " +:+ pretty (pc_pid b) +:+ " @" +:+ pretty (pc_address b) +:+ " when "
                  +:+ expression (pc_condition b)).
Definition process_watch_line (w : ProcessMemoryWatchpoint) : string :=
  text_line "  " (pretty (pw_id w) +:+ " PID " +:+ pretty (pw_pid w) +:+ " " +:+ processMemoryWatchModeToString (pw_mode w) +:+ " ["
                  +:+ pretty (pw_address w) +:+ ", " +:+ pretty (ProcessMemoryWatchpoint_endExclusive w) +:+ ")").

(** [" name=value"], when there is one. *)
Definition optional_value (name : string) (value : option Z) : string :=
  match value with Some v => " " +:+ name +:+ "=" +:+ pretty v | None => EmptyString end.

Definition interrupt_line (record : ProcessSoftwareInterruptDebugRecord) : string :=
  let result := obs_result (si_observation record) in
  "  step=" +:+ pretty (si_lifecycle_step record) +:+ " pid=" +:+ pretty (si_pid record)
  +:+ " vector=" +:+ pretty (obs_vector (si_observation record))
  +:+ optional_value "service" (service_number result)
  +:+ optional_value "arg0" (argument0 result)
  +:+ optional_value "arg1" (argument1 result)
  +:+ optional_value "status" (status result)
  +:+ optional_value "result" (result_value result)
  +:+ " disposition=" +:+ softwareInterruptDispositionToString (disposition result)
  +:+ (if bool_decide (disposition result = TerminateProcess) then " exit=" +:+ pretty (exit_code result) else EmptyString)
  +:+ newline_text.

Definition switch_reason (r : ContextSwitchRecord) : string :=
  if cs_caused_by_termination r then "termination" else if cs_preempted r then "preemption" else "dispatch".

Definition last_switch_text (r : ContextSwitchRecord) : string :=
  text_line "  Last switch: step " (pretty (cs_lifecycle_step r) +:+ " PID " +:+ pretty (cs_from_pid r) +:+ " -> "
    +:+ pretty (cs_to_pid r) +:+ " reason=" +:+ switch_reason r).

(** An empty list has a text of its own, another one a title. *)
Definition list_text {A} (none title : string) (line : A -> string) (values : list A) : string :=
  match values with [] => text_line none "" | _ => text_line title "" +:+ concat_text line values end.

Section console.
Context {LD : LongDouble} {H : Type} {SIH : SoftwareInterruptHandler H} {HF : HostFiles}.

Abbreviation Session := (MultiProcessDebugSession H).
Abbreviation Shell := (M (Console Session)).

(** A [const] member, which the model reads in the session. *)
Definition of_session {A} (f : Session -> outcome A) : Shell A := s ← gets co_session; lift (f s).

Definition optionalPositiveCount : string -> Z -> M (Console Session) Z := optional_count Multi_parsePositiveCount.

(** [parseOptionalPid]: the process, when there is an argument. *)
Definition parseOptionalPid (command : string) : Shell (option ProcessId) :=
  text ← read_word;
  match text with
  | None => mret None
  | Some text =>
      _ ← requireNoExtra command;
      pid ← lift (or_runtime_error (pid_error command) (read_unsigned UINT32_MAX true (pid_error command) text));
      mret (Some pid)
  end.

(** ** Printing *)

Definition Multi_printHelp : Shell unit := print multi_help_text.
Definition printStop (stop : MultiProcessDebugStop) : Shell unit := print (multi_stop_text stop).

Definition Multi_printBanner : Shell unit :=
  _ ← print (text_line "Zero-CPU Multi-Process Debugger" "" +:+ "Processes: ");
  snapshots ← of_session Multi_processSnapshots;
  _ ← print (text_line (pretty (Z.of_nat (length snapshots))) "" +:+ "Quantum: ");
  s ← gets co_session;
  _ ← print (text_line (pretty (Multi_quantum s)) "" +:+ "Running PID: ");
  running ← on_session Multi_runningPid;
  print (text_line (pretty running) "" +:+ text_line "Type 'help' for commands." "").

Fixpoint print_processes (l : list ProcessDebugSnapshot) : Shell unit :=
  match l with
  | [] => mret tt
  | p :: rest =>
      _ ← print (if pd_running p then "> " else "  ");
      selected ← on_session Multi_selectedPid;
      _ ← print (process_line selected p);
      print_processes rest
  end.

Definition printProcesses : Shell unit :=
  _ ← print (text_line "Processes:" "");
  snapshots ← of_session Multi_processSnapshots;
  print_processes snapshots.

Definition printSnapshot (p : ProcessDebugSnapshot) : Shell unit := print (snapshot_print p).

Definition printSelectedProcess : Shell unit := p ← of_session Multi_selectedProcessSnapshot; printSnapshot p.

Definition Multi_printSymbols (pid : ProcessId) : Shell unit :=
  has ← on_session (Multi_hasSymbols pid);
  if negb has then print ("No debug symbols loaded for PID " +:+ pretty pid +:+ text_line "." "")
  else
    _ ← print ("Debug symbols for PID " +:+ pretty pid +:+ text_line ":" "");
    symbols ← on_session (Multi_symbols pid);
    print (concat_text symbol_text (sy_entries symbols)).

Definition Multi_printBreakpoints (values : list ProcessBreakpoint) : Shell unit :=
  print (list_text "No process breakpoints." "Process breakpoints:" process_breakpoint_line values).
Definition Multi_printConditionalBreakpoints (values : list ProcessConditionalBreakpoint) : Shell unit :=
  print (list_text "No process conditional breakpoints." "Process conditional breakpoints:" process_condition_line values).
Definition Multi_printWatchpoints (values : list ProcessMemoryWatchpoint) : Shell unit :=
  print (list_text "No process watchpoints." "Process watchpoints:" process_watch_line values).

Definition printSoftwareInterrupts (values : list ProcessSoftwareInterruptDebugRecord) : Shell unit :=
  print (list_text "No observed software interrupts." ("Software interrupts (" +:+ pretty (Z.of_nat (length values)) +:+ "):")
    interrupt_line values).

Definition printScheduler : Shell unit :=
  _ ← print (text_line "Scheduler:" "" +:+ "  Runtime state: ");
  runtime ← on_session Multi_runtimeState;
  s ← gets co_session;
  _ ← print (text_line (processRuntimeStateToString runtime) "" +:+ text_line "  Quantum: " (pretty (Multi_quantum s)) +:+ "  Running PID: ");
  running ← on_session Multi_runningPid;
  _ ← print (text_line (pretty running) "" +:+ "  Selected PID: ");
  selected ← on_session Multi_selectedPid;
  _ ← print (text_line (pretty selected) "" +:+ "  Preemptions: ");
  preemptions ← on_session Multi_preemptionCount;
  _ ← print (text_line (pretty preemptions) "" +:+ "  Scheduler context switches: ");
  switches ← on_session Multi_schedulerContextSwitchCount;
  _ ← print (text_line (pretty switches) "" +:+ "  Observed switches: ");
  records ← on_session Multi_contextSwitches;
  _ ← print (text_line (pretty (Z.of_nat (length records))) "");
  match last records with Some r => print (last_switch_text r) | None => mret tt end.

Definition printRegisters : Shell unit :=
  p ← of_session Multi_selectedProcessSnapshot;
  let context := pd_context p in
  print ("Registers for PID " +:+ pretty (pd_pid p) +:+ text_line ":" "" +:+ register_list (ctx_registers context)
         +:+ newline_text +:+ "PC=" +:+ pretty (ctx_pc context) +:+ " SP=" +:+ pretty (ctx_sp context)
         +:+ " FLAGS=0x" +:+ hex_upper (ctx_flags context) +:+ text_line " PRIV=" (privilegeLevelToString (ctx_privilege context))).

Definition printMemory (address count : Z) : Shell unit :=
  p ← of_session Multi_selectedProcessSnapshot;
  let m := pd_memory p in
  _ ← throw_if ((count =? 0) || (address >=? Memory_size m) || (count >? Memory_size m - address))
        (RuntimeError "Memory inspection range is outside selected process memory");
  bytes ← lift (Memory_readBytes m address count);
  print ("PID " +:+ pretty (pd_pid p) +:+ " Memory[" +:+ pretty address +:+ ".." +:+ pretty (u64 (address + count)) +:+ "):"
         +:+ text_line (byte_list_text bytes) "").

Definition printTrace : Shell unit :=
  c ← on_session Multi_cpu;
  if bool_decide (trace_logger c = []) then print (text_line "No trace events." "")
  else
    _ ← print "Running PID ";
    running ← on_session Multi_runningPid;
    _ ← print (pretty running +:+ text_line " last trace:" "");
    text ← lift (last_trace_text c);
    print (text_line text "").

(** ** The commands *)

(** The arguments of several commands. *)
Definition pid_argument (command : string) : Shell ProcessId := text ← requireArgument command "a PID"; lift (parsePid text).
Definition address_argument (command : string) : Shell Z := text ← requireArgument command "an address"; lift (Multi_parseAddress text).
Definition count_argument (command name : string) : Shell Z :=
  text ← requireArgument command name; lift (Multi_parsePositiveCount text command).
Definition condition_arguments (command : string) : Shell (string * string * string) :=
  source ← requireArgument command "a condition source";
  operation ← requireArgument command "a comparison operator";
  value ← requireArgument command "a comparison value";
  mret (source, operation, value).

Definition command_process (command : string) : Shell unit :=
  pid ← pid_argument command;
  _ ← requireNoExtra command;
  _ ← on_session (Multi_selectProcess pid);
  _ ← print ("Selected PID " +:+ pretty pid +:+ text_line "." "");
  printSelectedProcess.

Definition command_symbols (command : string) : Shell unit :=
  pid ← pid_argument command;
  _ ← requireNoExtra command;
  Multi_printSymbols pid.

Definition Multi_command_break (command : string) : Shell unit :=
  pid ← pid_argument command;
  address ← address_argument command;
  _ ← requireNoExtra command;
  added ← on_session (Multi_addBreakpoint pid address);
  print ("PID " +:+ pretty pid +:+ " breakpoint " +:+ pretty address
         +:+ text_line (if (added : bool) then " added." else " already exists.") "").

Definition Multi_command_break_label (command : string) : Shell unit :=
  pid ← pid_argument command;
  label ← requireArgument command "a code label";
  _ ← requireNoExtra command;
  address ← on_session (Multi_resolveCodeSymbol pid label);
  added ← on_session (Multi_addBreakpoint pid address);
  print ("PID " +:+ pretty pid +:+ " breakpoint at label " +:+ label +:+ " (" +:+ pretty address
         +:+ text_line (if (added : bool) then ") added." else ") already exists.") "").

Definition Multi_command_delete (command : string) : Shell unit :=
  pid ← pid_argument command;
  address ← address_argument command;
  _ ← requireNoExtra command;
  removed ← on_session (Multi_removeBreakpoint pid address);
  print (if (removed : bool) then "PID " +:+ pretty pid +:+ " breakpoint " +:+ pretty address +:+ text_line " deleted." ""
         else "No PID " +:+ pretty pid +:+ " breakpoint at " +:+ pretty address +:+ text_line "." "").

Definition Multi_command_break_if (command : string) : Shell unit :=
  pid ← pid_argument command;
  address ← address_argument command;
  '(source, operation, value) ← condition_arguments command;
  _ ← requireNoExtra command;
  condition ← lift (parseDebugCondition source operation value);
  id ← on_session (Multi_addConditionalBreakpoint pid address condition);
  print ("Conditional breakpoint " +:+ pretty id +:+ " added for PID " +:+ pretty pid +:+ " at " +:+ pretty address +:+ ": "
         +:+ expression condition +:+ text_line "." "").

Definition Multi_command_break_if_label (command : string) : Shell unit :=
  pid ← pid_argument command;
  label ← requireArgument command "a code label";
  '(source, operation, value) ← condition_arguments command;
  _ ← requireNoExtra command;
  address ← on_session (Multi_resolveCodeSymbol pid label);
  condition ← lift (parseDebugCondition source operation value);
  id ← on_session (Multi_addConditionalBreakpoint pid address condition);
  print ("Conditional breakpoint " +:+ pretty id +:+ " added for PID " +:+ pretty pid +:+ " at label " +:+ label +:+ " ("
         +:+ pretty address +:+ "): " +:+ expression condition +:+ text_line "." "").

Definition Multi_command_delete_if (command : string) : Shell unit :=
  id ← count_argument command "a conditional breakpoint ID";
  _ ← requireNoExtra command;
  removed ← on_session (Multi_removeConditionalBreakpoint id);
  print (if (removed : bool) then "Conditional breakpoint " +:+ pretty id +:+ text_line " deleted." ""
         else "No conditional breakpoint with ID " +:+ pretty id +:+ text_line "." "").

Definition Multi_command_watch (command : string) : Shell unit :=
  pid ← pid_argument command;
  text ← requireArgument command "read, write, or access";
  mode ← lift (Multi_parseWatchMode text);
  address ← address_argument command;
  size ← optionalPositiveCount command 8;
  id ← on_session (Multi_addWatchpoint pid address size mode);
  print ("Watchpoint " +:+ pretty id +:+ " added for PID " +:+ pretty pid +:+ ": " +:+ processMemoryWatchModeToString mode +:+ " ["
         +:+ pretty address +:+ ", " +:+ pretty (u64 (address + size)) +:+ text_line ")." "").

Definition Multi_command_unwatch (command : string) : Shell unit :=
  id ← count_argument command "a watchpoint ID";
  _ ← requireNoExtra command;
  removed ← on_session (Multi_removeWatchpoint id);
  print (if (removed : bool) then "Watchpoint " +:+ pretty id +:+ text_line " deleted." ""
         else "No watchpoint with ID " +:+ pretty id +:+ text_line "." "").

(** Listing what belongs to one process or to all. *)
Definition command_list {A} (of_pid : ProcessId -> M Session (list A)) (of_all : M Session (list A))
    (printing : list A -> Shell unit) (command : string) : Shell unit :=
  pid ← parseOptionalPid command;
  values ← on_session (match pid with Some pid => of_pid pid | None => of_all end);
  printing values.

Definition command_breakpoints : string -> Shell unit :=
  command_list Multi_breakpoints_pid Multi_breakpoints Multi_printBreakpoints.
Definition command_conditions : string -> Shell unit :=
  command_list Multi_conditionalBreakpoints_pid Multi_conditionalBreakpoints Multi_printConditionalBreakpoints.
Definition command_watchpoints : string -> Shell unit :=
  command_list Multi_watchpoints_pid Multi_watchpoints Multi_printWatchpoints.
Definition command_syscalls : string -> Shell unit :=
  command_list Multi_softwareInterrupts_pid Multi_softwareInterrupts printSoftwareInterrupts.

(** Removing what belongs to one process or to all. *)
Definition command_clear_of (of_pid : ProcessId -> M Session unit) (of_all : M Session unit) (one all command : string) : Shell unit :=
  pid ← parseOptionalPid command;
  match pid with
  | Some pid => _ ← on_session (of_pid pid); print ("PID " +:+ pretty pid +:+ text_line one "")
  | None => _ ← on_session of_all; print (text_line all "")
  end.

Definition command_clear_breakpoints : string -> Shell unit :=
  command_clear_of Multi_clearBreakpoints_pid Multi_clearBreakpoints " breakpoints cleared." "All process breakpoints cleared.".
Definition Multi_command_clear_conditions : string -> Shell unit :=
  command_clear_of Multi_clearConditionalBreakpoints_pid Multi_clearConditionalBreakpoints
    " conditional breakpoints cleared." "All process conditional breakpoints cleared.".
Definition Multi_command_clear_watchpoints : string -> Shell unit :=
  command_clear_of Multi_clearWatchpoints_pid Multi_clearWatchpoints " watchpoints cleared." "All process watchpoints cleared.".

Definition Multi_command_snapshot (command : string) : Shell unit :=
  '(path, options) ← snapshot_arguments Multi_parseAddress Multi_parsePositiveCount command;
  json ← of_session (fun s => DebugSnapshotJsonWriter_toJson_multi s options);
  _ ← writeJsonFile path json;
  print (text_line "Multi-process debug snapshot JSON written: " path).

Fixpoint Multi_step_times (count : nat) (stop : MultiProcessDebugStop) : Shell MultiProcessDebugStop :=
  match count with
  | O => mret stop
  | S count =>
      stop ← on_session Multi_step;
      if bool_decide (mstop_reason stop = MStop_StepComplete) then Multi_step_times count stop else mret stop
  end.

Definition Multi_command_step (command : string) : Shell unit :=
  count ← optionalPositiveCount command 1;
  stop ← on_session Multi_lastStop;
  stop ← Multi_step_times (Z.to_nat count) stop;
  printStop stop.

Definition Multi_command_step_line (options : DebugConsoleOptions) (command : string) : Shell unit :=
  maxSteps ← optionalPositiveCount command (default_continue_steps options);
  stop ← on_session (Multi_stepSelectedSourceLine maxSteps);
  printStop stop.

Definition Multi_command_continue (options : DebugConsoleOptions) (command : string) : Shell unit :=
  count ← optionalPositiveCount command (default_continue_steps options);
  stop ← on_session (Multi_continueExecution count);
  printStop stop.

Definition Multi_command_status : string -> Shell unit :=
  Console_print (stop ← on_session Multi_lastStop; printStop stop).

Definition Multi_command_memory (command : string) : Shell unit :=
  address ← address_argument command;
  count ← count_argument command "a byte count";
  _ ← requireNoExtra command;
  printMemory address count.

Definition multi_console_commands (options : DebugConsoleOptions) : list (list string * (string -> Shell unit)) :=
  [(["help"; "h"; "?"], Console_print Multi_printHelp);
   (["processes"; "ps"], Console_print printProcesses);
   (["process"; "p"], command_process);
   (["selected"; "sel"], Console_print printSelectedProcess);
   (["symbols"; "sym"], command_symbols);
   (["break"; "b"], Multi_command_break);
   (["break-label"; "bs"], Multi_command_break_label);
   (["delete"; "d"], Multi_command_delete);
   (["breakpoints"; "bl"], command_breakpoints);
   (["clear-breakpoints"], command_clear_breakpoints);
   (["break-if"; "bi"], Multi_command_break_if);
   (["break-if-label"], Multi_command_break_if_label);
   (["delete-if"; "di"], Multi_command_delete_if);
   (["conditions"; "cl"], command_conditions);
   (["clear-conditions"], Multi_command_clear_conditions);
   (["watch"; "w"], Multi_command_watch);
   (["unwatch"; "uw"], Multi_command_unwatch);
   (["watchpoints"; "wl"], command_watchpoints);
   (["clear-watchpoints"], Multi_command_clear_watchpoints);
   (["snapshot-json"; "snapshot"], Multi_command_snapshot);
   (["step"; "s"], Multi_command_step);
   (["step-line"; "sl"], Multi_command_step_line options);
   (["continue"; "c"], Multi_command_continue options);
   (["status"; "st"], Multi_command_status);
   (["syscalls"; "sc"], command_syscalls);
   (["scheduler"; "sched"], Console_print printScheduler);
   (["registers"; "r"], Console_print printRegisters);
   (["memory"; "x"], Multi_command_memory);
   (["trace"; "t"], Console_print printTrace)].

Definition multi_execute_command (options : DebugConsoleOptions) : string -> Shell bool :=
  dispatch_command "Multi-process debugger closed." "unknown multi-process debugger command: " (multi_console_commands options).

Definition MultiProcessDebugConsole_executeCommand (options : DebugConsoleOptions) : string -> Shell bool :=
  with_command (multi_execute_command options).

Definition MultiProcessDebugConsole_run (options : DebugConsoleOptions) : Shell DebugConsoleRunResult :=
  run_console "(zmpdbg) " options Multi_printBanner (MultiProcessDebugConsole_executeCommand options).

(** The constructor, given the input. *)
Definition new_MultiProcessDebugConsole (session : Session) (input : string) (options : DebugConsoleOptions) : outcome (Console Session) :=
  _ ← throw_if (default_continue_steps options =? 0) (RuntimeError "Debugger console continue limit must be greater than zero");
  mret (Build_Console session input EmptyString EmptyString EmptyString []).

End console.
