(* ===== verification/ConsoleLaws.v ===== *)
(** * Laws of the debugger consoles

    A command of a console depends on the session and its own line only, so a run
    is the transcript of its commands; and whatever is typed, the sessions see
    nothing but their own calls. *)

From S2P Require Import Prelude Words Strings Text ALU Memory Devices DeviceTypes CPUState Trace TraceDetail CPU CPUShape Image Process ProcTable Preemption Lifecycle Dispatcher CPUFrames CPUInv Assembler Runner RunnerVerified DebugCondition DebugSymbols DebugSession DebugLaws MultiDebugSession MultiDebugLaws Json DebugSnapshotJson DebugInspector Console DebugConsole MultiProcessDebugConsole.
Open Scope Z_scope.

(** ** Commands on their own *)

Section transcript.
Context {S : Type}.
Implicit Types (s : S) (c : Console S).

(** A console with empty streams. *)
Definition fresh s : Console S := Build_Console s EmptyString EmptyString EmptyString EmptyString [].

(** The same session and the same rest of the line, and empty streams. *)
Definition isolated c : Console S := Build_Console (co_session c) EmptyString (co_parser c) EmptyString EmptyString [].

(** What a command did in an isolated console, done in another one. *)
Definition appended c c1 : Console S :=
  Build_Console (co_session c1) (co_input c) (co_parser c1) (co_output c +:+ co_output c1) (co_error c) (co_files c ++ co_files c1).

(** Code that depends on the session and the line only, and only adds to the
    output and the files. *)
Definition local {A} (m : M (Console S) A) : Prop := forall c, m c = ((m (isolated c)).1, appended c (m (isolated c)).2).

Lemma isolated_appended c c1 : isolated (appended c c1) = isolated c1.
Proof. reflexivity. Qed.

Lemma appended_appended c c1 c2 : appended c (appended c1 c2) = appended (appended c c1) c2.
Proof. unfold appended. cbn. rewrite append_assoc, app_assoc. reflexivity. Qed.

Lemma appended_isolated c : appended c (isolated c) = c.
Proof. destruct c. unfold appended, isolated. cbn. rewrite append_nil, app_nil_r. reflexivity. Qed.

Lemma local_bind {A B} (m : M (Console S) A) (f : A -> M (Console S) B) :
  local m -> (forall a, local (f a)) -> local (m ≫= f).
Proof.
  intros Hm Hf c. rewrite !bind_run, (Hm c). destruct (m (isolated c)) as [[a|e] c1]; cbn [fst snd]; [|reflexivity].
  rewrite (Hf a (appended c c1)), (Hf a c1), isolated_appended. cbn [fst snd]. rewrite appended_appended. reflexivity.
Qed.

Lemma local_lift {A} (o : outcome A) : local (lift o).
Proof. intros c. unfold lift. cbn [fst snd]. rewrite appended_isolated. reflexivity. Qed.
Lemma local_ret {A} (a : A) : local (mret a).
Proof. apply (local_lift (Ret a)). Qed.
Lemma local_throw {A} e : local (A := A) (throw e).
Proof. apply (local_lift (Throw e)). Qed.
Lemma local_throw_if b e : local (throw_if b e).
Proof. destruct b; [apply local_throw | apply local_ret]. Qed.
Lemma local_session : local (gets co_session).
Proof. intros c. unfold gets. cbn [fst snd]. rewrite appended_isolated. reflexivity. Qed.

Lemma local_on_session {A} (m : M S A) : local (on_session m).
Proof.
  intros c. unfold on_session, zoom. cbn [isolated co_session]. destruct (m (co_session c)) as [o s]. unfold appended. cbn.
  rewrite append_nil, app_nil_r. reflexivity.
Qed.

Lemma local_print text : local (print text).
Proof. intros c. unfold print, modify, appended. cbn. rewrite app_nil_r. reflexivity. Qed.

Lemma local_read_word : local read_word.
Proof.
  intros c. unfold read_word. rewrite !bind_run. unfold get. cbv beta iota. cbn [isolated co_parser].
  destruct (next_word (co_parser c)) as [w rest]. rewrite !bind_run. unfold modify, appended, mret, M_ret. cbn.
  rewrite append_nil, app_nil_r. reflexivity.
Qed.

Lemma local_files entry : local (modify (fun c : Console S => set_console_files (co_files c ++ [entry]) c)).
Proof. intros c. unfold modify, appended. cbn. rewrite append_nil. reflexivity. Qed.
End transcript.

Create HintDb console.
#[export] Hint Resolve local_lift local_ret local_throw local_throw_if local_session local_on_session local_print local_read_word
  local_files : console.

(** Goes through the binds and branches of a command. *)
Ltac locally :=
  repeat first
    [ progress cbv zeta
    | solve [auto with console]
    | apply local_bind; [|intros ?]
    | match goal with
      | |- local (if ?b then _ else _) => destruct b
      | |- local (match ?x with _ => _ end) => destruct x
      end ].

Section shared.
Context {S : Type}.
Implicit Types (c : Console S).

Lemma local_no_extra command : local (S := S) (requireNoExtra command).
Proof. unfold requireNoExtra. locally. Qed.
Lemma local_argument command name : local (S := S) (requireArgument command name).
Proof. unfold requireArgument. locally. Qed.
Hint Resolve local_no_extra local_argument : console.
Lemma local_optional parse command n : local (S := S) (optional_count parse command n).
Proof. unfold optional_count. locally. Qed.
Lemma local_write {HF : HostFiles} path json : local (S := S) (writeJsonFile path json).
Proof. unfold writeJsonFile. locally. Qed.
Lemma local_snapshot_arguments parse count command : local (S := S) (snapshot_arguments parse count command).
Proof. unfold snapshot_arguments. locally. Qed.
Lemma local_printing printing command : local printing -> local (S := S) (Console_print printing command).
Proof. intros Hp. unfold Console_print. locally. Qed.

Lemma local_dispatch closing unknown branches command :
  Forall (fun branch => forall command, local (branch.2 command)) branches -> local (S := S) (dispatch_command closing unknown branches command).
Proof.
  intros Hb. unfold dispatch_command. destruct (is_one_of _ _); [unfold command_quit; locally|].
  destruct (list_find _ branches) as [[i [names execute]]|] eqn:E; [|locally]. apply list_find_Some in E as (Hi & _).
  apply local_bind; [|locally]. rewrite Forall_lookup in Hb. exact (Hb _ _ Hi command).
Qed.

(** A line read as a command depends on the session only. *)
Lemma local_line execute line c : (forall command, local (execute command)) ->
  with_command execute line c = ((with_command execute line (fresh (co_session c))).1,
                                 appended c (with_command execute line (fresh (co_session c))).2).
Proof.
  intros He. unfold with_command. destruct (next_word line) as [command rest]. rewrite !bind_run. unfold modify. cbv beta iota.
  rewrite (He command (set_console_parser rest c)). unfold isolated at 1 2. cbn [set_console_parser co_session co_parser fresh].
  reflexivity.
Qed.
End shared.

#[export] Hint Resolve local_no_extra local_argument local_optional local_write local_snapshot_arguments local_printing local_line : console.

(** ** Transcripts *)

Section runs.
Context {S : Type} (execute : string -> M (Console S) bool) (prompt : string).
Implicit Types (s : S) (c : Console S).

(** A command: a line whose first word exists and starts no comment. *)
Definition is_command (line : string) : bool :=
  let word := (next_word line).1 in negb (empty word) && negb (isComment word).

Abbreviation Reply := (outcome bool * Console S)%type.

(** The lines read, each command with what it does in the session that the ones
    before it left, up to the command that ends the session. *)
Fixpoint transcript (lines : list string) s : list (option Reply) :=
  match lines with
  | [] => []
  | line :: rest =>
      if is_command line then
        let reply := execute line (fresh s) in
        Some reply :: (if bool_decide (reply.1 = Ret true) then [] else transcript rest (co_session reply.2))
      else None :: transcript rest s
  end.

Definition replies (t : list (option Reply)) : list Reply := omap id t.
Definition failed (r : Reply) : bool := match r.1 with Throw _ => true | Ret _ => false end.
Definition last_session (l : list Reply) s : S := foldl (fun _ r => co_session r.2) s l.
Definition line_output (shown : bool) (entry : option Reply) : string :=
  (if shown then prompt else EmptyString) +:+ (if entry is Some r then co_output r.2 else EmptyString).
Definition error_line (r : Reply) : string :=
  match r.1 with Throw ex => "error: " +:+ what ex +:+ newline_text | Ret _ => EmptyString end.

(** A run is its transcript: the counts, the session, the prompts and the output of
    the commands, one line for every error, and the files. *)
Record transcribed (shown : bool) (t : list (option Reply)) (start : DebugConsoleRunResult) c (r : DebugConsoleRunResult) c' : Prop := {
  tr_commands : command_count r = u64 (command_count start + Z.of_nat (length (replies t)));
  tr_errors : command_error_count r = u64 (command_error_count start + Z.of_nat (length (filter failed (replies t))));
  tr_quit : quit_requested r = existsb (fun reply => bool_decide (reply.1 = Ret true)) (replies t);
  tr_eof : eof_reached r = negb (quit_requested r);
  tr_session : co_session c' = last_session (replies t) (co_session c);
  tr_output : co_output c' = co_output c +:+ concat_text (line_output shown) t
                             +:+ (if shown && eof_reached r then prompt else EmptyString);
  tr_error : co_error c' = co_error c +:+ concat_text error_line (replies t);
  tr_files : co_files c' = co_files c ++ mjoin ((fun reply => co_files reply.2) <$> replies t);
}.

Lemma getline_line c : co_input c <> EmptyString -> exists line rest,
  getline c = (Ret (Some line), set_console_input rest c) /\ splitLines (co_input c) = line :: splitLines rest /\
  (String.length rest < String.length (co_input c))%nat.
Proof.
  intros Hc. unfold getline. rewrite bind_run. unfold get. cbv beta iota.
  enough (Hs : forall input, input <> EmptyString ->
    let '(line, rest) := span (fun ch => negb (bool_decide (ch = Text.newline))) input in
    let rest := match rest with String _ rest => rest | EmptyString => EmptyString end in
    splitLines input = line :: splitLines rest /\ (String.length rest < String.length input)%nat).
  { specialize (Hs (co_input c) Hc). destruct (co_input c) as [|ch input] eqn:Ei; [contradiction|].
    destruct (span _ (String ch input)) as [line rest]. cbv zeta in Hs. eexists _, _. split; [reflexivity|]. exact Hs. }
  clear c Hc. induction input as [|ch input IH]; [congruence|]. intros _. cbn [span]. destruct (bool_decide (ch = Text.newline)) eqn:E; cbn [negb].
  - cbn [splitLines]. rewrite E. split; [reflexivity | cbn; lia].
  - destruct input as [|ch' input]; [cbn [span splitLines]; rewrite E; split; [reflexivity | cbn; lia]|].
    specialize (IH ltac:(discriminate)). destruct (span _ (String ch' input)) as [line rest]. cbv zeta in IH |- *. destruct IH as [IH Hl].
    split; [|cbn [String.length] in *; lia]. change (splitLines (String ch (String ch' input))) with
      (if bool_decide (ch = Text.newline) then EmptyString :: splitLines (String ch' input)
       else match splitLines (String ch' input) with [] => [String ch EmptyString] | line :: lines => String ch line :: lines end).
    rewrite E, IH. reflexivity.
Qed.

Lemma getline_end c : co_input c = EmptyString -> getline c = (Ret None, c).
Proof. intros Hc. unfold getline. rewrite bind_run. unfold get. cbv beta iota. rewrite Hc. reflexivity. Qed.

Context (Hlocal : forall line c, execute line c = ((execute line (fresh (co_session c))).1, appended c (execute line (fresh (co_session c))).2)).

Lemma replies_some reply t : replies (Some reply :: t) = reply :: replies t.
Proof. reflexivity. Qed.

(** The transcript of the lines after a line that was dealt with. *)
Lemma transcribed_after (shown : bool) entry t start start' c c1 r c' :
  match entry with
  | None => start' = start /\ co_session c1 = co_session c /\ co_error c1 = co_error c /\ co_files c1 = co_files c
  | Some reply =>
      start' = (if failed reply then one_more_error (one_more_command start) else one_more_command start) /\ reply.1 <> Ret true /\
      co_session c1 = co_session reply.2 /\ co_error c1 = co_error c +:+ error_line reply /\ co_files c1 = co_files c ++ co_files reply.2
  end ->
  co_output c1 = co_output c +:+ line_output shown entry -> is_u64 (command_count start) -> is_u64 (command_error_count start) ->
  transcribed shown t start' c1 r c' -> transcribed shown (entry :: t) start c r c'.
Proof.
  intros He Ho Hc Hn [T1 T2 T3 T4 T5 T6 T7 T8].
  assert (Hout : co_output c' = co_output c +:+ concat_text (line_output shown) (entry :: t)
                                +:+ (if shown && eof_reached r then prompt else EmptyString)).
  { rewrite T6, Ho. cbn [concat_text foldr]. rewrite <- !append_assoc. reflexivity. }
  destruct entry as [reply|].
  - destruct He as (-> & Hr & Hs & Her & Hf). constructor; rewrite ?replies_some; try assumption.
    + rewrite T1. replace (command_count (if failed reply then _ else _)) with (u64 (command_count start + 1)) by (destruct (failed reply); reflexivity).
      cbn [length]. unfold u64. rewrite Z.add_mod_idemp_l by (vm_compute; discriminate). f_equal. lia.
    + rewrite T2. rewrite filter_cons. destruct (failed reply); cbn [one_more_error one_more_command command_error_count Is_true].
      * rewrite decide_True by exact I. cbn [length]. unfold u64. rewrite Z.add_mod_idemp_l by (vm_compute; discriminate). f_equal. lia.
      * rewrite decide_False by (intros []). reflexivity.
    + rewrite T3. cbn [existsb]. rewrite (bool_decide_eq_false_2 _ Hr). reflexivity.
    + rewrite T5. cbn [last_session foldl]. rewrite Hs. reflexivity.
    + rewrite T7, Her. cbn [concat_text foldr]. symmetry. apply append_assoc.
    + rewrite T8, Hf. rewrite fmap_cons. cbn [mjoin list_join]. symmetry. apply app_assoc.
  - destruct He as (-> & Hs & Her & Hf). constructor; change (replies (None :: t)) with (replies t); try assumption; congruence.
Qed.


Definition go_on options fuel : DebugConsoleRunResult -> M (Console S) DebugConsoleRunResult := console_loop fuel prompt options execute.

Definition transcribes options fuel : Prop := forall result c, (String.length (co_input c) < fuel)%nat ->
  is_u64 (command_count result) -> is_u64 (command_error_count result) -> quit_requested result = false -> eof_reached result = false ->
  exists r c', go_on options fuel result c = (Ret r, c') /\
    transcribed (show_prompt options) (transcript (splitLines (co_input c)) (co_session c)) result c r c'.

(** What is left after a line. *)
Record dealt_with (shown : bool) entry start start' (rest : string) c c1 : Prop := {
  dw_input : co_input c1 = rest;
  dw_session : co_session c1 = match entry with Some reply => co_session reply.2 | None => co_session c end;
  dw_output : co_output c1 = co_output c +:+ line_output shown entry;
  dw_error : co_error c1 = co_error c +:+ match entry with Some reply => error_line reply | None => EmptyString end;
  dw_files : co_files c1 = co_files c ++ match entry with Some reply => co_files reply.2 | None => [] end;
  dw_result : start' = match entry with
                       | Some reply => if failed reply then one_more_error (one_more_command start) else one_more_command start
                       | None => start
                       end;
  dw_going : match entry with Some reply => reply.1 <> Ret true | None => True end;
}.

Lemma go_on_after options fuel entry start start' rest c c1 : transcribes options fuel ->
  dealt_with (show_prompt options) entry start start' rest c c1 -> (String.length rest < fuel)%nat ->
  is_u64 (command_count start) -> is_u64 (command_error_count start) -> quit_requested start = false -> eof_reached start = false ->
  exists r c', go_on options fuel start' c1 = (Ret r, c') /\
    transcribed (show_prompt options) (entry :: transcript (splitLines rest) (co_session c1)) start c r c'.
Proof.
  intros IH [Hi Hs Ho He Hf Hr Hg] Hlen Hc Hn Hq Heof. destruct (IH start' c1) as (r & c' & E & T).
  - rewrite Hi. exact Hlen.
  - subst start'. destruct entry as [reply|]; [|exact Hc]. destruct (failed reply); apply u64_range.
  - subst start'. destruct entry as [reply|]; [|exact Hn]. destruct (failed reply); [apply u64_range | exact Hn].
  - subst start'. destruct entry as [reply|]; [destruct (failed reply)|]; exact Hq.
  - subst start'. destruct entry as [reply|]; [destruct (failed reply)|]; exact Heof.
  - exists r, c'. split; [exact E|]. rewrite Hi in T. eapply transcribed_after, T; try assumption.
    destruct entry as [reply|]; [auto|]. rewrite append_nil in He. rewrite app_nil_r in Hf. auto.
Qed.

(** The end of the input. *)
Lemma transcribed_end (shown : bool) start c c1 : is_u64 (command_count start) -> is_u64 (command_error_count start) ->
  quit_requested start = false -> co_session c1 = co_session c -> co_error c1 = co_error c -> co_files c1 = co_files c ->
  co_output c1 = co_output c +:+ (if shown then prompt else EmptyString) -> transcribed shown [] start c (with_eof start) c1.
Proof.
  intros Hc Hn Hq Hs He Hf Ho. constructor; cbn; rewrite ?Z.add_0_r, ?u64_small, ?append_nil, ?app_nil_r, ?andb_true_r by assumption; try assumption; try reflexivity.
  rewrite Hq. reflexivity.
Qed.

(** The command that ends the session. *)
Lemma transcribed_quit (shown : bool) start reply c c1 : is_u64 (command_count start) -> is_u64 (command_error_count start) -> eof_reached start = false ->
  reply.1 = Ret true -> co_session c1 = co_session reply.2 -> co_error c1 = co_error c -> co_files c1 = co_files c ++ co_files reply.2 ->
  co_output c1 = co_output c +:+ line_output shown (Some reply) ->
  transcribed shown [Some reply] start c (with_quit (one_more_command start)) c1.
Proof.
  intros Hc Hn Heof Hr Hs He Hf Ho. assert (Hfail : failed reply = false) by (unfold failed; rewrite Hr; reflexivity).
  assert (Hone : replies [Some reply] = [reply]) by reflexivity. constructor; rewrite ?Hone.
  - reflexivity.
  - rewrite filter_cons, Hfail, decide_False by (intros []). cbn. rewrite Z.add_0_r, u64_small by assumption. reflexivity.
  - cbn [existsb]. rewrite bool_decide_true by exact Hr. reflexivity.
  - exact Heof.
  - exact Hs.
  - rewrite Ho. cbn [with_quit one_more_command eof_reached concat_text foldr]. rewrite Heof, andb_false_r, !append_nil. reflexivity.
  - rewrite He. cbn. unfold error_line. rewrite Hr, !append_nil. reflexivity.
  - rewrite Hf. cbn. rewrite app_nil_r. reflexivity.
Qed.

Lemma prompted options c : exists c1, (if show_prompt options then print prompt else mret tt) c = (Ret tt, c1) /\
  co_input c1 = co_input c /\ co_session c1 = co_session c /\ co_error c1 = co_error c /\ co_files c1 = co_files c /\
  co_output c1 = co_output c +:+ (if show_prompt options then prompt else EmptyString).
Proof. destruct (show_prompt options); eexists; (split; [reflexivity|]); repeat split; rewrite ?append_nil; reflexivity. Qed.

(** A line that is no command. *)
Lemma skipped options start rest c c1 :
  co_session c1 = co_session c -> co_error c1 = co_error c -> co_files c1 = co_files c ->
  co_output c1 = co_output c +:+ (if show_prompt options then prompt else EmptyString) ->
  dealt_with (show_prompt options) None start start rest c (set_console_input rest c1).
Proof.
  intros Hs He Hf Ho. constructor; cbn; rewrite ?append_nil, ?app_nil_r; try assumption; try reflexivity; auto.
  rewrite Ho. unfold line_output. rewrite append_nil. reflexivity.
Qed.

Lemma console_loop_transcript options fuel : transcribes options fuel.
Proof.
  induction fuel as [|fuel IH]; intros result c Hl Hc Hn Hq He; [lia|]. unfold go_on. cbn [console_loop]. cbv zeta.
  destruct (prompted options c) as (c1 & Hp & Hi & Hs & Her & Hf & Ho). rewrite bind_run, Hp, bind_run.
  destruct (decide (co_input c = EmptyString)) as [E|E].
  { rewrite getline_end by congruence. rewrite E. eexists _, c1. split; [reflexivity|]. apply transcribed_end; assumption. }
  destruct (getline_line c1) as (line & rest & -> & Hsplit & Hlen); [congruence|]. rewrite Hi in Hsplit, Hlen. rewrite Hsplit.
  cbn [transcript]. pose proof (skipped options result rest c c1 Hs Her Hf Ho) as Hskip.
  assert (Hnone : exists r c', go_on options fuel result (set_console_input rest c1) = (Ret r, c') /\
            transcribed (show_prompt options) (None :: transcript (splitLines rest) (co_session c)) result c r c').
  { rewrite <- Hs. apply (go_on_after options fuel None result result rest c (set_console_input rest c1)); auto. lia. }
  unfold is_command. destruct (empty (next_word line).1) eqn:Ee; cbn [negb andb]; [exact Hnone|].
  destruct (isComment (next_word line).1) eqn:Ec; cbn [negb]; [exact Hnone|]. clear Hnone Hskip.
  rewrite bind_run. unfold try_catch. unfold fmap at 1. unfold M_fmap. rewrite (Hlocal line (set_console_input rest c1)).
  cbn [set_console_input co_session]. rewrite Hs. set (reply := execute line (fresh (co_session c))).
  set (c2 := appended (set_console_input rest c1) reply.2).
  assert (Hafter : forall start', reply.1 <> Ret true -> start' = (if failed reply then one_more_error (one_more_command result) else one_more_command result) ->
    dealt_with (show_prompt options) (Some reply) result start' rest c (set_console_error (co_error c2 +:+ error_line reply) c2)).
  { intros start' Hr ->. subst c2. constructor; try reflexivity; try assumption; unfold appended, line_output; cbn.
    - rewrite Ho. symmetry. apply append_assoc.
    - rewrite Her. reflexivity.
    - rewrite Hf. reflexivity. }
  assert (Hquit : reply.1 = Ret true -> transcribed (show_prompt options) [Some reply] result c (with_quit (one_more_command result)) c2).
  { intros Hr. apply transcribed_quit; try assumption; subst c2; unfold appended, line_output; cbn; try reflexivity; try assumption.
    - rewrite Hf. reflexivity.
    - rewrite Ho. symmetry. apply append_assoc. }
  assert (Hnext : forall start', reply.1 <> Ret true -> start' = (if failed reply then one_more_error (one_more_command result) else one_more_command result) ->
    exists r c', go_on options fuel start' (set_console_error (co_error c2 +:+ error_line reply) c2) = (Ret r, c') /\
      transcribed (show_prompt options) (Some reply :: transcript (splitLines rest) (co_session reply.2)) result c r c').
  { intros start' Hr Hstart. apply (go_on_after options fuel (Some reply) result start' rest c (set_console_error (co_error c2 +:+ error_line reply) c2)); auto. lia. }
  clearbody c2. clearbody reply. destruct reply as [[[|]|ex] c3]; cbn [fst snd] in *.
  - eexists _, c2. rewrite bool_decide_true by reflexivity. split; [reflexivity | apply Hquit; reflexivity].
  - rewrite bool_decide_false by discriminate. specialize (Hnext (one_more_command result) ltac:(discriminate) eq_refl).
    unfold error_line in Hnext. cbn [fst] in Hnext. rewrite append_nil in Hnext. destruct c2. exact Hnext.
  - rewrite bool_decide_false by discriminate. exact (Hnext (one_more_error (one_more_command result)) ltac:(discriminate) eq_refl).
Qed.
End runs.

(** ** The banners and the commands of the two consoles *)

Section consoles.
Context {LD : LongDouble} {H : Type} {SIH : SoftwareInterruptHandler H} {HF : HostFiles}.
Implicit Types (options : DebugConsoleOptions).

Definition banner_text (s : DebugSession H) : string :=
  text_line "Zero-CPU Interactive Debugger" "" +:+ "Executable: " +:+ text_line (ds_source_name s) "" +:+ "Code range: ["
  +:+ pretty (md_code_base (ds_metadata s)) +:+ ", " +:+ pretty (md_code_end_exclusive (ds_metadata s)) +:+ text_line ")" ""
  +:+ text_line "Entry point: " (pretty (md_entry_point (ds_metadata s))) +:+ text_line "Type 'help' for commands." "".

Definition multi_banner_text (processes quantum running : Z) : string :=
  text_line "Zero-CPU Multi-Process Debugger" "" +:+ "Processes: " +:+ text_line (pretty processes) "" +:+ "Quantum: "
  +:+ text_line (pretty quantum) "" +:+ "Running PID: " +:+ text_line (pretty running) "" +:+ text_line "Type 'help' for commands." "".

Lemma on_session_run {S A} (m : M S A) (c : Console S) : on_session m c = ((m (co_session c)).1, set_console_session (m (co_session c)).2 c).
Proof. unfold on_session, zoom. destruct (m (co_session c)). reflexivity. Qed.

Lemma set_same_session {S} (c : Console S) : set_console_session (co_session c) c = c.
Proof. destruct c. reflexivity. Qed.

Lemma banner_printed (c : Console (DebugSession H)) : ds_loaded (co_session c) = true ->
  printBanner c = (Ret tt, set_console_output (co_output c +:+ banner_text (co_session c)) c).
Proof.
  intros Hl. unfold printBanner, DebugSession_sourceName, DebugSession_metadata. rewrite bind_run. unfold print at 1, modify. cbv beta iota. rewrite bind_run, on_session_run.
  cbn [set_console_output co_session]. rewrite loaded_run by exact Hl. unfold lift. cbn [fst snd mret outcome_ret].
  rewrite bind_run. unfold print at 1, modify. cbv beta iota. rewrite bind_run, on_session_run. cbn [set_console_output set_console_session co_session].
  rewrite loaded_run by exact Hl. unfold lift. cbn [fst snd mret outcome_ret]. unfold print, modify. f_equal.
  destruct c. unfold set_console_output, banner_text. cbn. rewrite <- !append_assoc. reflexivity.
Qed.

Lemma started_run {A} (f : MultiProcessDebugSession H -> outcome A) s a : read_session (when_started f) s = Ret a -> when_started f s = (Ret a, s).
Proof.
  unfold read_session, when_started. rewrite !bind_run. unfold get. cbv beta iota. rewrite bind_run. unfold lift at 1 3.
  destruct (requireStarted s); cbn; [|discriminate]. intros E. unfold lift in *. cbn in E. rewrite E. reflexivity.
Qed.

Lemma multi_banner_printed (c : Console (MultiProcessDebugSession H)) l running :
  Multi_processSnapshots (co_session c) = Ret l -> read_session Multi_runningPid (co_session c) = Ret running ->
  Multi_printBanner c =
  (Ret tt, set_console_output (co_output c +:+ multi_banner_text (Z.of_nat (length l)) (Multi_quantum (co_session c)) running) c).
Proof.
  intros Hl Hr. unfold Multi_printBanner. unfold Multi_runningPid in *. rewrite bind_run. unfold print at 1, modify. cbv beta iota. rewrite bind_run.
  unfold of_session at 1. rewrite bind_run. unfold gets at 1. cbv beta iota. cbn [set_console_output co_session]. rewrite Hl. unfold lift at 1.
  rewrite bind_run. unfold print at 1, modify. cbv beta iota. rewrite bind_run. unfold gets at 1. cbv beta iota.
  rewrite bind_run. unfold print at 1, modify. cbv beta iota. rewrite bind_run, on_session_run. cbn [set_console_output co_session].
  rewrite (started_run _ _ _ Hr). cbn [fst snd]. unfold print, modify. f_equal.
  destruct c. unfold set_console_output, multi_banner_text. cbn. rewrite <- !append_assoc. reflexivity.
Qed.

Lemma local_step_times n : forall stop, local (step_times (H := H) n stop).
Proof. induction n as [|n IH]; intros stop; cbn [step_times]; locally. Qed.
Lemma local_multi_step_times n : forall stop, local (Multi_step_times (H := H) n stop).
Proof. induction n as [|n IH]; intros stop; cbn [Multi_step_times]; locally. Qed.
Lemma local_of_session {A} (f : MultiProcessDebugSession H -> outcome A) : local (of_session f).
Proof. unfold of_session. locally. Qed.
Hint Resolve local_step_times local_multi_step_times local_of_session : console.
Lemma local_print_processes l : local (print_processes (H := H) l).
Proof. induction l as [|p l IH]; cbn [print_processes]; locally. Qed.
Hint Resolve local_print_processes : console.

Lemma console_commands_local options : Forall (fun branch => forall command, local (branch.2 command)) (console_commands (H := H) options).
Proof.
  repeat constructor; cbn [snd]; intros command.
  all: try apply local_printing.
  all: try solve [unfold printHelp, printBreakpoints, printConditionalBreakpoints, printSymbols, printWatchpoints, printLastTrace; locally].
  all: try solve [unfold command_status, command_step, command_step_line, command_continue, printStatus, parseOptionalCount; locally].
  all: unfold command_break, command_delete, command_clear, command_break_label, command_break_if_label, command_disassemble_label,
    command_memory_label, command_break_if, command_delete_if, command_clear_conditions, command_watch, command_unwatch,
    command_clear_watchpoints, command_snapshot, command_registers, command_memory, command_disassemble, parseOptionalCount; locally.
Qed.

Lemma multi_console_commands_local options : Forall (fun branch => forall command, local (branch.2 command)) (multi_console_commands (H := H) options).
Proof.
  repeat constructor; cbn [snd]; intros command.
  all: try apply local_printing.
  all: try solve [unfold Multi_printHelp, printProcesses, printSelectedProcess, printSnapshot, printScheduler, printRegisters, printTrace; locally].
  all: try solve [unfold command_breakpoints, command_conditions, command_watchpoints, command_syscalls, command_list, parseOptionalPid,
    Multi_printBreakpoints, Multi_printConditionalBreakpoints, Multi_printWatchpoints, printSoftwareInterrupts; locally].
  all: try solve [unfold command_clear_breakpoints, Multi_command_clear_conditions, Multi_command_clear_watchpoints, command_clear_of,
    parseOptionalPid; locally].
  all: try solve [unfold Multi_command_status, Multi_command_step, Multi_command_step_line, Multi_command_continue, printStop, optionalPositiveCount; locally].
  all: unfold command_process, command_symbols, Multi_printSymbols, Multi_command_break, Multi_command_break_label, Multi_command_delete, Multi_command_break_if,
    Multi_command_break_if_label, Multi_command_delete_if, Multi_command_watch, Multi_command_unwatch, Multi_command_snapshot,
    Multi_command_memory, printMemory, printSelectedProcess, printSnapshot, pid_argument, address_argument, count_argument, condition_arguments,
    optionalPositiveCount; locally.
Qed.
End consoles.

(** A run after its banner. *)
Lemma run_console_transcript {S} execute prompt options (banner : M (Console S) unit) text (s : S) input :
  (forall command, local (execute command)) ->
  (forall c, co_session c = s -> banner c = (Ret tt, set_console_output (co_output c +:+ text) c)) ->
  let c := Build_Console s input EmptyString EmptyString EmptyString [] in
  let c1 := set_console_output (if print_banner options then text else EmptyString) c in
  exists r c', run_console prompt options banner (with_command execute) c = (Ret r, c') /\
    transcribed prompt (show_prompt options) (transcript (with_command execute) (splitLines input) s) no_commands c1 r c'.
Proof.
  intros He Hb c c1. unfold run_console. rewrite bind_run.
  assert (E : (if print_banner options then banner else mret tt) c = (Ret tt, c1)).
  { subst c1. destruct (print_banner options); [rewrite Hb by reflexivity; reflexivity | reflexivity]. }
  rewrite E, bind_run. unfold get at 1. cbv beta iota.
  assert (Hline : forall line c2, with_command execute line c2 = ((with_command execute line (fresh (co_session c2))).1,
      appended c2 (with_command execute line (fresh (co_session c2))).2)) by (intros line c2; apply local_line, He).
  apply (console_loop_transcript (with_command execute) prompt Hline options (Datatypes.S (String.length (co_input c1))) no_commands c1); [apply Nat.lt_succ_diag_r|cbn; words|cbn; words|reflexivity|reflexivity].
Qed.

(** ** Sessions under a console *)

Section sessions.
Context {S : Type} (J : S -> Prop).

Definition holds (c : Console S) : Prop := J (co_session c).
Abbreviation sound m := (safe holds m (fun _ => True)).

Lemma sound_bind {A B} (m : M (Console S) A) (f : A -> M (Console S) B) : sound m -> (forall a, sound (f a)) -> sound (m ≫= f).
Proof. intros Hm Hf. eapply safe_bind; [exact Hm | auto]. Qed.
Lemma sound_lift {A} (o : outcome A) : sound (lift o).
Proof. apply safe_lift. auto. Qed.
Lemma sound_ret {A} (a : A) : sound (mret a).
Proof. apply safe_ret. exact I. Qed.
Lemma sound_throw {A} e : sound (throw (A := A) e).
Proof. apply safe_throw. Qed.
Lemma sound_throw_if b e : sound (throw_if b e).
Proof. apply safe_throw_if_any. Qed.
Lemma sound_get : sound get.
Proof. intros c Hc. split; [exact I | exact Hc]. Qed.
Lemma sound_gets {A} (f : Console S -> A) : sound (gets f).
Proof. apply safe_gets. auto. Qed.
Lemma sound_modify f : (forall c, co_session (f c) = co_session c) -> sound (modify f).
Proof. intros Hf. apply safe_modify. intros c Hc. unfold holds. rewrite Hf. exact Hc. Qed.
Lemma sound_session {A} (m : M S A) : (forall s, J s -> J (m s).2) -> sound (on_session m).
Proof.
  intros Hm c Hc. rewrite on_session_run. specialize (Hm _ Hc). destruct (m (co_session c)) as [[a|e] s]; [split; [exact I|]|]; exact Hm.
Qed.
End sessions.

Create HintDb sound.
#[export] Hint Resolve sound_lift sound_ret sound_throw sound_throw_if sound_get sound_gets : sound.

Ltac soundly :=
  repeat first
    [ progress cbv zeta
    | solve [auto with sound]
    | apply sound_modify; reflexivity
    | apply sound_bind; [|intros ?]
    | match goal with
      | |- safe _ (if ?b then _ else _) _ => destruct b
      | |- safe _ (match ?x with _ => _ end) _ => destruct x
      end ].

Section sound.
Context {S : Type} (J : S -> Prop).

Lemma sound_print text : safe (holds J) (print text) (fun _ => True).
Proof. unfold print. soundly. Qed.
Lemma sound_print_error text : safe (holds J) (print_error text) (fun _ => True).
Proof. unfold print_error. soundly. Qed.
Lemma sound_read_word : safe (holds J) read_word (fun _ => True).
Proof. unfold read_word. soundly. Qed.
Hint Resolve sound_print sound_print_error sound_read_word : sound.
Lemma sound_no_extra command : safe (holds J) (requireNoExtra command) (fun _ => True).
Proof. unfold requireNoExtra. soundly. Qed.
Lemma sound_argument command name : safe (holds J) (requireArgument command name) (fun _ => True).
Proof. unfold requireArgument. soundly. Qed.
Hint Resolve sound_no_extra sound_argument : sound.
Lemma sound_optional parse command n : safe (holds J) (optional_count parse command n) (fun _ => True).
Proof. unfold optional_count. soundly. Qed.
Lemma sound_write {HF : HostFiles} path json : safe (holds J) (writeJsonFile path json) (fun _ => True).
Proof. unfold writeJsonFile. soundly. Qed.
Lemma sound_snapshot_arguments parse count command : safe (holds J) (snapshot_arguments parse count command) (fun _ => True).
Proof. unfold snapshot_arguments. soundly. Qed.
Lemma sound_printing printing command : safe (holds J) printing (fun _ => True) -> safe (holds J) (Console_print printing command) (fun _ => True).
Proof. intros Hp. unfold Console_print. soundly. Qed.
Lemma sound_getline : safe (holds J) getline (fun _ => True).
Proof. unfold getline. soundly. Qed.
Hint Resolve sound_getline : sound.

Lemma sound_dispatch closing unknown branches command :
  Forall (fun branch => forall command, safe (holds J) (branch.2 command) (fun _ => True)) branches ->
  safe (holds J) (dispatch_command closing unknown branches command) (fun _ => True).
Proof.
  intros Hb. unfold dispatch_command. destruct (is_one_of _ _); [unfold command_quit; soundly|].
  destruct (list_find _ branches) as [[i [names execute]]|] eqn:E; [|soundly]. apply list_find_Some in E as (Hi & _).
  apply sound_bind; [|soundly]. rewrite Forall_lookup in Hb. exact (Hb _ _ Hi command).
Qed.

Lemma sound_run prompt options banner execute : safe (holds J) banner (fun _ => True) ->
  (forall command, safe (holds J) (execute command) (fun _ => True)) ->
  safe (holds J) (run_console prompt options banner (with_command execute)) (fun _ => True).
Proof.
  intros Hb He. unfold run_console. apply sound_bind; [soundly|]. intros _. apply sound_bind; [soundly|]. intros c.
  generalize (Datatypes.S (String.length (co_input c))). intros fuel. generalize no_commands. clear c.
  induction fuel as [|fuel IH]; intros result; cbn [console_loop]; [soundly|].
  assert (Hx : forall line, safe (holds J) (with_command execute line) (fun _ => True))
    by (intros line; unfold with_command; soundly; apply He).
  soundly. apply safe_try; [|soundly]. intros c Hc. specialize (Hx s c Hc). unfold fmap, M_fmap. destruct (with_command execute s c) as [[a'|e] c'].
  - split; [exact I | apply Hx].
  - exact Hx.
Qed.
End sound.

#[export] Hint Resolve sound_print sound_print_error sound_no_extra sound_argument sound_optional sound_write sound_snapshot_arguments
  sound_read_word sound_printing : sound.

Section calls.
Context {LD : LongDouble} {H : Type} {SIH : SoftwareInterruptHandler H} {HF : HostFiles}.
Implicit Types (options : DebugConsoleOptions).

(** The sessions that calls with arguments of their types lead to. *)
Definition reached (s0 s : DebugSession H) : Prop := exists calls, Forall typed_command calls /\ s = run_commands calls s0.

Lemma reached_call s0 s call : typed_command call -> reached s0 s -> reached s0 (run_command call s).
Proof.
  intros Ht (calls & Hc & ->). exists (calls ++ [call]). split; [apply Forall_app; auto|].
  unfold run_commands. rewrite foldl_app. reflexivity.
Qed.

Lemma reached_ok {QH : QuietHandler H} s0 s : session_ok s0 -> reached s0 s -> session_ok s.
Proof.
  intros Hs (calls & Hc & ->). revert s0 Hs Hc. induction calls as [|call calls IH]; intros s0 Hs Hc; [exact Hs|].
  apply Forall_cons in Hc as [Hc Hcs]. change (run_commands (call :: calls) s0) with (run_commands calls (run_command call s0)).
  apply IH; [apply command_keeps; assumption | exact Hcs].
Qed.

Lemma sound_call s0 {A} (m : M (DebugSession H) A) call : typed_command call -> (forall s, (m s).2 = run_command call s) ->
  safe (holds (reached s0)) (on_session m) (fun _ => True).
Proof. intros Ht Hm. apply sound_session. intros s Hs. rewrite Hm. apply reached_call; assumption. Qed.

Lemma sound_when s0 {A} (f : DebugSession H -> outcome A) : safe (holds (reached s0)) (on_session (when_loaded f)) (fun _ => True).
Proof.
  apply sound_session. intros s Hs. unfold when_loaded. rewrite bind_run. unfold get. cbv beta iota. rewrite bind_run. unfold lift.
  destruct (requireLoaded s); exact Hs.
Qed.

Lemma read_unsigned_range limit positive e text v : read_unsigned limit positive e text = Ret v -> 0 <= v.
Proof.
  intros E. apply bind_ret_inv in E as (? & _ & E). apply bind_ret_inv in E as ([v' n] & Hv & E). apply bind_ret_inv in E as (? & _ & E).
  injection E as <-. apply stoull_magnitude_range in Hv. words.
Qed.

Lemma safe_optional s0 parse command n : 0 <= n -> (forall text v, parse text command = Ret v -> 0 <= v) ->
  safe (holds (reached s0)) (optional_count parse command n) (fun v => 0 <= v).
Proof.
  intros Hn Hp. unfold optional_count. eapply safe_bind; [apply sound_read_word|]. intros [text|] _; [|apply safe_ret, Hn].
  eapply safe_bind; [apply sound_no_extra|]. intros _ _. apply safe_lift, Hp.
Qed.

Ltac calls :=
  repeat first
    [ progress cbv zeta
    | solve [auto with sound]
    | apply sound_when
    | match goal with
      | |- safe _ (on_session (addBreakpoint ?a)) _ => apply (sound_call _ _ (C_addBreakpoint a)); [exact I | reflexivity]
      | |- safe _ (on_session (removeBreakpoint ?a)) _ => apply (sound_call _ _ (C_removeBreakpoint a)); [exact I | reflexivity]
      | |- safe _ (on_session clearBreakpoints) _ => apply (sound_call _ _ C_clearBreakpoints); [exact I | reflexivity]
      | |- safe _ (on_session (addConditionalBreakpoint ?a ?d)) _ => apply (sound_call _ _ (C_addConditionalBreakpoint a d)); [exact I | reflexivity]
      | |- safe _ (on_session (removeConditionalBreakpoint ?a)) _ => apply (sound_call _ _ (C_removeConditionalBreakpoint a)); [exact I | reflexivity]
      | |- safe _ (on_session clearConditionalBreakpoints) _ => apply (sound_call _ _ C_clearConditionalBreakpoints); [exact I | reflexivity]
      | |- safe _ (on_session (removeWatchpoint ?a)) _ => apply (sound_call _ _ (C_removeWatchpoint a)); [exact I | reflexivity]
      | |- safe _ (on_session clearWatchpoints) _ => apply (sound_call _ _ C_clearWatchpoints); [exact I | reflexivity]
      | |- safe _ (on_session DebugSession_step) _ => apply (sound_call _ _ C_step); [exact I | reflexivity]
      | |- safe _ (on_session (DebugSession_stepSourceLine ?n)) _ => apply (sound_call _ _ (C_stepSourceLine n)); [exact I | reflexivity]
      | |- safe _ (on_session (DebugSession_continueExecution ?n)) _ => apply (sound_call _ _ (C_continueExecution n)); [exact I | reflexivity]
      | |- safe _ (if ?b then _ else _) _ => destruct b
      | |- safe _ (match ?x with _ => _ end) _ => destruct x
      end
    | apply sound_bind; [|intros ?] ].

Lemma sound_step_times s0 n : forall stop, safe (holds (reached s0)) (step_times n stop) (fun _ => True).
Proof. induction n as [|n IH]; intros stop; cbn [step_times]; calls. Qed.
Hint Resolve sound_step_times : sound.

Lemma sound_watch s0 command : safe (holds (reached s0)) (command_watch command) (fun _ => True).
Proof.
  unfold command_watch. apply sound_bind; [calls|]. intros text. apply sound_bind; [calls|]. intros mode.
  apply sound_bind; [calls|]. intros text'. eapply safe_bind; [apply safe_lift, read_unsigned_range|]. intros address Ha.
  eapply safe_bind; [apply safe_optional; [lia | intros ? ?; apply read_unsigned_range]|]. intros size Hn. apply sound_bind; [|calls].
  apply (sound_call _ _ (C_addWatchpoint address size mode)); [split; assumption | reflexivity].
Qed.
Hint Resolve sound_watch : sound.

Lemma sound_console_commands s0 options :
  Forall (fun branch => forall command, safe (holds (reached s0)) (branch.2 command) (fun _ => True)) (console_commands options).
Proof.
  repeat constructor; cbn [snd]; intros command; try apply sound_watch.
  all: try apply sound_printing.
  all: try solve [unfold printHelp, printBreakpoints, DebugSession_breakpoints, printConditionalBreakpoints, conditionalBreakpoints, printSymbols,
    DebugSession_hasSymbols, DebugSession_symbols, printWatchpoints, DebugSession_watchpoints, printLastTrace, DebugSession_cpu,
    DebugSession_lastStop, printStatus; calls].
  all: try solve [unfold command_step, command_step_line, command_continue, printStatus, parseOptionalCount, DebugSession_lastStop; calls].
  all: unfold command_break, command_delete, command_clear, command_break_label, command_break_if_label, command_disassemble_label,
    command_memory_label, command_break_if, command_delete_if, command_clear_conditions, command_unwatch,
    command_clear_watchpoints, command_snapshot, command_registers, command_memory, command_disassemble, DebugSession_resolveCodeSymbol,
    DebugSession_resolveDataSymbol; calls.
Qed.

Lemma sound_banner s0 : safe (holds (reached s0)) printBanner (fun _ => True).
Proof. unfold printBanner, DebugSession_sourceName, DebugSession_metadata. calls. Qed.

(** The same for several processes. *)
Definition multi_reached (s0 s : MultiProcessDebugSession H) : Prop := exists calls, s = run_multi_commands calls s0.

Lemma multi_reached_call s0 s call : multi_reached s0 s -> multi_reached s0 (run_multi_command call s).
Proof. intros (calls & ->). exists (calls ++ [call]). unfold run_multi_commands. rewrite foldl_app. reflexivity. Qed.

Lemma sound_multi_call s0 {A} (m : M (MultiProcessDebugSession H) A) call : (forall s, (m s).2 = run_multi_command call s) ->
  safe (holds (multi_reached s0)) (on_session m) (fun _ => True).
Proof. intros Hm. apply sound_session. intros s Hs. rewrite Hm. apply multi_reached_call, Hs. Qed.

Lemma when_started_keeps {A} (f : MultiProcessDebugSession H -> outcome A) s : (when_started f s).2 = s.
Proof. unfold when_started. rewrite bind_run. unfold get. cbv beta iota. rewrite bind_run. unfold lift. destruct (requireStarted s); reflexivity. Qed.

Lemma sound_when_started s0 {A} (f : MultiProcessDebugSession H -> outcome A) :
  safe (holds (multi_reached s0)) (on_session (when_started f)) (fun _ => True).
Proof. apply sound_session. intros s Hs. rewrite when_started_keeps. exact Hs. Qed.

Lemma sound_resolve s0 (pid : Process.ProcessId) (resolve : DebugSymbols -> outcome Z) :
  safe (holds (multi_reached s0)) (on_session (symbols ← Multi_symbols pid; lift (resolve symbols))) (fun _ => True).
Proof.
  apply sound_session. intros s Hs. rewrite bind_run. pose proof (when_started_keeps (fun s => _ ← Multi_requireProcess pid s;
    match ms_symbols s !! pid with Some symbols => mret symbols | None => throw (RuntimeError ("No debug symbols loaded for PID " +:+ pretty pid)) end) s) as Hk.
  unfold Multi_symbols, when_process. destruct (when_started _ s) as [[symbols|e] s']; cbn in Hk |- *; subst s'; exact Hs.
Qed.

Ltac multi_calls :=
  repeat first
    [ progress cbv zeta
    | solve [auto with sound]
    | apply sound_when_started
    | apply sound_resolve
    | match goal with
      | |- safe _ (on_session (Multi_selectProcess ?p)) _ => apply (sound_multi_call _ _ (MC_selectProcess p)); reflexivity
      | |- safe _ (on_session (Multi_addBreakpoint ?p ?a)) _ => apply (sound_multi_call _ _ (MC_addBreakpoint p a)); reflexivity
      | |- safe _ (on_session (Multi_removeBreakpoint ?p ?a)) _ => apply (sound_multi_call _ _ (MC_removeBreakpoint p a)); reflexivity
      | |- safe _ (on_session Multi_clearBreakpoints) _ => apply (sound_multi_call _ _ (MC_clearBreakpoints None)); reflexivity
      | |- safe _ (on_session (Multi_clearBreakpoints_pid ?p)) _ => apply (sound_multi_call _ _ (MC_clearBreakpoints (Some p))); reflexivity
      | |- safe _ (on_session (Multi_addConditionalBreakpoint ?p ?a ?d)) _ => apply (sound_multi_call _ _ (MC_addConditionalBreakpoint p a d)); reflexivity
      | |- safe _ (on_session (Multi_removeConditionalBreakpoint ?a)) _ => apply (sound_multi_call _ _ (MC_removeConditionalBreakpoint a)); reflexivity
      | |- safe _ (on_session Multi_clearConditionalBreakpoints) _ => apply (sound_multi_call _ _ (MC_clearConditionalBreakpoints None)); reflexivity
      | |- safe _ (on_session (Multi_clearConditionalBreakpoints_pid ?p)) _ => apply (sound_multi_call _ _ (MC_clearConditionalBreakpoints (Some p))); reflexivity
      | |- safe _ (on_session (Multi_addWatchpoint ?p ?a ?n ?m)) _ => apply (sound_multi_call _ _ (MC_addWatchpoint p a n m)); reflexivity
      | |- safe _ (on_session (Multi_removeWatchpoint ?a)) _ => apply (sound_multi_call _ _ (MC_removeWatchpoint a)); reflexivity
      | |- safe _ (on_session Multi_clearWatchpoints) _ => apply (sound_multi_call _ _ (MC_clearWatchpoints None)); reflexivity
      | |- safe _ (on_session (Multi_clearWatchpoints_pid ?p)) _ => apply (sound_multi_call _ _ (MC_clearWatchpoints (Some p))); reflexivity
      | |- safe _ (on_session Multi_step) _ => apply (sound_multi_call _ _ MC_step); reflexivity
      | |- safe _ (on_session (Multi_stepSelectedSourceLine ?n)) _ => apply (sound_multi_call _ _ (MC_stepSelectedSourceLine n)); reflexivity
      | |- safe _ (on_session (Multi_continueExecution ?n)) _ => apply (sound_multi_call _ _ (MC_continueExecution n)); reflexivity
      | |- safe _ (if ?b then _ else _) _ => destruct b
      | |- safe _ (match ?x with _ => _ end) _ => destruct x
      end
    | apply sound_bind; [|intros ?] ].

Lemma sound_multi_step_times s0 n : forall stop, safe (holds (multi_reached s0)) (Multi_step_times n stop) (fun _ => True).
Proof. induction n as [|n IH]; intros stop; cbn [Multi_step_times]; multi_calls. Qed.
Lemma sound_of_session s0 {A} (f : MultiProcessDebugSession H -> outcome A) : safe (holds (multi_reached s0)) (of_session f) (fun _ => True).
Proof. unfold of_session. soundly. Qed.
Hint Resolve sound_multi_step_times sound_of_session : sound.
Lemma sound_print_processes s0 l : safe (holds (multi_reached s0)) (print_processes l) (fun _ => True).
Proof. induction l as [|p l IH]; cbn [print_processes]; unfold Multi_selectedPid; multi_calls. Qed.
Hint Resolve sound_print_processes : sound.

Lemma sound_list s0 {A} (of_pid : Process.ProcessId -> M (MultiProcessDebugSession H) (list A)) of_all printing command :
  (forall pid, safe (holds (multi_reached s0)) (on_session (of_pid pid)) (fun _ => True)) ->
  safe (holds (multi_reached s0)) (on_session of_all) (fun _ => True) ->
  (forall values, safe (holds (multi_reached s0)) (printing values) (fun _ => True)) ->
  safe (holds (multi_reached s0)) (command_list of_pid of_all printing command) (fun _ => True).
Proof.
  intros Hp Ha Hv. unfold command_list, parseOptionalPid. apply sound_bind; [multi_calls|]. intros [pid|]; (apply sound_bind; [auto | exact Hv]).
Qed.

Lemma sound_multi_commands s0 options :
  Forall (fun branch => forall command, safe (holds (multi_reached s0)) (branch.2 command) (fun _ => True)) (multi_console_commands options).
Proof.
  repeat constructor; cbn [snd]; intros command.
  all: try apply sound_printing.
  all: try solve [unfold command_breakpoints, command_conditions, command_watchpoints, command_syscalls; apply sound_list; intros;
    unfold Multi_printBreakpoints, Multi_printConditionalBreakpoints, Multi_printWatchpoints, printSoftwareInterrupts, Multi_breakpoints_pid,
      Multi_breakpoints, Multi_conditionalBreakpoints_pid, Multi_conditionalBreakpoints, Multi_watchpoints_pid, Multi_watchpoints,
      Multi_softwareInterrupts_pid, Multi_softwareInterrupts, when_process; multi_calls].
  all: try solve [unfold Multi_printHelp, printProcesses, printSelectedProcess, printSnapshot, printScheduler, printRegisters, printTrace, Multi_runtimeState,
    Multi_runningPid, Multi_selectedPid, Multi_preemptionCount, Multi_schedulerContextSwitchCount, Multi_contextSwitches, Multi_cpu, Multi_lastStop,
    printStop; multi_calls].
  all: try solve [unfold command_clear_breakpoints, Multi_command_clear_conditions, Multi_command_clear_watchpoints, command_clear_of,
    parseOptionalPid; multi_calls].
  all: try solve [unfold Multi_command_step, Multi_command_step_line, Multi_command_continue, printStop, optionalPositiveCount, Multi_lastStop; multi_calls].
  all: unfold command_process, command_symbols, Multi_printSymbols, Multi_hasSymbols, Multi_symbols, Multi_command_break, Multi_command_break_label, Multi_command_delete, Multi_command_break_if,
    Multi_command_break_if_label, Multi_command_delete_if, Multi_command_watch, Multi_command_unwatch, Multi_command_snapshot,
    Multi_command_memory, printMemory, printSelectedProcess, printSnapshot, pid_argument, address_argument, count_argument, condition_arguments,
    optionalPositiveCount, Multi_resolveCodeSymbol, when_process; multi_calls.
Qed.

Lemma sound_multi_banner s0 : safe (holds (multi_reached s0)) Multi_printBanner (fun _ => True).
Proof. unfold Multi_printBanner, Multi_runningPid. multi_calls. Qed.
End calls.

(** ** Properties *)

(** (C33) A console is the transcript of its input.  On a session it accepts, a run
    of either console ends, at the end of the input or with a command that quits.
    It executes the lines that are commands, each as it would be executed alone in
    the session that the commands before it left: the counts, the session, the
    output, one line for every command that throws, and the files written are those
    of the single commands, in order, whatever the others printed or threw. *)
Theorem consoles_transcribe {LD : LongDouble} {H : Type} {SIH : SoftwareInterruptHandler H} {HF : HostFiles}
    (options : DebugConsoleOptions) (input : string) :
  (forall (s : DebugSession H) c, new_DebugConsole s input options = Ret c ->
     let execute := DebugConsole_executeCommand options in
     exists r c', DebugConsole_run options c = (Ret r, c') /\
       transcribed "(zdbg) " (show_prompt options) (transcript execute (splitLines input) s) no_commands
         (set_console_output (if print_banner options then banner_text s else EmptyString) c) r c') /\
  (forall (s : MultiProcessDebugSession H) c l running, new_MultiProcessDebugConsole s input options = Ret c ->
     Multi_processSnapshots s = Ret l -> read_session Multi_runningPid s = Ret running ->
     let execute := MultiProcessDebugConsole_executeCommand options in
     exists r c', MultiProcessDebugConsole_run options c = (Ret r, c') /\
       transcribed "(zmpdbg) " (show_prompt options) (transcript execute (splitLines input) s) no_commands
         (set_console_output (if print_banner options then multi_banner_text (Z.of_nat (length l)) (Multi_quantum s) running
                              else EmptyString) c) r c').
Proof.
  split.
  - intros s c E execute. apply bind_ret_inv in E as (? & Hl & E). apply bind_ret_inv in E as (? & _ & E). injection E as <-.
    apply (run_console_transcript (execute_command options)).
    + intros command. apply local_dispatch, console_commands_local.
    + intros c <-. apply banner_printed. unfold DebugSession_loaded in Hl. destruct (ds_loaded (co_session c)); [reflexivity | discriminate].
  - intros s c l running E Hl Hr execute. apply bind_ret_inv in E as (? & _ & E). injection E as <-.
    apply (run_console_transcript (multi_execute_command options)).
    + intros command. apply local_dispatch, multi_console_commands_local.
    + intros c <-. apply multi_banner_printed; assumption.
Qed.

(** (C32) Nothing that is typed harms a session.  Whatever the input is, the console
    of one process leaves its session by calls with arguments of their types, so it
    keeps the invariant of the session; and the console of several processes leaves
    the system calls and context switches it has seen a prefix of those of the run of
    the same executables, and, when the runtime is over, the end of that run. *)
Theorem typed_input_keeps_sessions {LD : LongDouble} {H : Type} {SIH : SoftwareInterruptHandler H} {HF : HostFiles}
    (options : DebugConsoleOptions) (input : string) :
  (forall (QH : QuietHandler H) (s : DebugSession H) c, session_ok s -> new_DebugConsole s input options = Ret c ->
     let s' := co_session (DebugConsole_run options c).2 in reached s s' /\ session_ok s') /\
  (forall read_file read_text paths (o : MultiProcessDebugOptions) limit (w : World) (h : H) (s : MultiProcessDebugSession H) c r wh wh',
     new_MultiProcessDebugSession read_file read_text paths o (w, h) = (Ret s, wh) ->
     MultiProcessRunner_runFiles read_file paths (run_options o limit) (w, h) = (Ret r, wh') -> runtime_state r <> RS_Running ->
     new_MultiProcessDebugConsole s input options = Ret c ->
     let s' := co_session (MultiProcessDebugConsole_run options c).2 in
     (ms_software_interrupts s' `prefix_of` software_interrupts r /\ ms_context_switches s' `prefix_of` context_switches r) /\
     (ms_runtime_state s' <> RS_Running ->
      ms_runtime_state s' = runtime_state r /\ ms_total_steps s' = lifecycle_steps r /\
      ms_software_interrupts s' = software_interrupts r /\ ms_context_switches s' = context_switches r /\
      summarize (ms_system s') = Ret (run_processes r) /\
      (world (s_machine (ms_system s')), handler (s_machine (ms_system s'))) = wh')).
Proof.
  split.
  - intros QH s c Hs E s'. apply bind_ret_inv in E as (? & _ & E). apply bind_ret_inv in E as (? & _ & E). injection E as <-.
    enough (Hr : reached s s').
    { split; [exact Hr | exact (reached_ok s _ Hs Hr)]. }
    subst s'. apply (safe_final (holds (reached s)) _ (fun _ => True)); [|exists []; split; [constructor | reflexivity]].
    apply sound_run; [apply sound_banner|]. intros command. apply sound_dispatch, sound_console_commands.
  - intros read_file read_text paths o limit w h s c r wh wh' Hsession Hrun Hover E s'. apply bind_ret_inv in E as (? & _ & E). injection E as <-.
    enough (Hr : multi_reached s s').
    { destruct Hr as (calls & ->). exact (commands_keep_run read_file read_text paths o limit w h s r wh wh' calls Hsession Hrun Hover). }
    subst s'. apply (safe_final (holds (multi_reached s)) _ (fun _ => True)); [|exists []; reflexivity].
    apply sound_run; [apply sound_multi_banner|]. intros command. apply sound_dispatch, sound_multi_commands.
Qed.

(** ** Witnesses *)

#[local] Existing Instance extended_long_double.

Definition sample_files_host : HostFiles := {| can_open _ := true; can_write _ _ := true |}.
#[local] Existing Instance sample_files_host.

Definition console_input : string :=
  String.concat newline_text ["status"; "; a comment"; "step 2"; "break 512"; "break x"; "watch write 16"; "c"; "memory 16 8"; "trace";
    "disas 512 9"; "snapshot run.json"; "foo"; "quit"; "step"].
Definition multi_console_input : string := String.concat newline_text ["ps"; "break 1 512"; "step 2"; "p 0"; "c"; "sched"; "c"; "c"; "sc"].

Lemma console_opens {H} (s : DebugSession H) input : ds_loaded s = true ->
  new_DebugConsole s input default_console_options = Ret (Build_Console s input EmptyString EmptyString EmptyString []).
Proof. intros Hl. unfold new_DebugConsole, DebugSession_loaded. rewrite Hl. reflexivity. Qed.

Lemma consoles_transcribe_witness : exists r c',
  DebugConsole_run (SIH := no_handler) default_console_options (Build_Console sample_session console_input EmptyString EmptyString EmptyString []) = (Ret r, c') /\
  command_count r = 12 /\ command_error_count r = 2 /\ quit_requested r = true /\
  co_error c' = text_line "error: stoull" "" +:+ text_line "error: unknown debugger command: foo" "".
Proof.
  destruct (@consoles_transcribe extended_long_double unit no_handler sample_files_host default_console_options console_input) as [T _].
  destruct (T sample_session _ (console_opens _ _ (so_loaded _ sample_session_ok))) as (r & c' & E & [T1 T2 T3 _ _ _ T7 _]). exists r, c'. split; [exact E|].
  rewrite T1, T2, T3, T7. split; [vm_compute; reflexivity|]. split; [vm_compute; reflexivity|]. split; [vm_compute; reflexivity|].
  vm_compute. reflexivity.
Defined.

Lemma typed_input_keeps_sessions_witness :
  session_ok (co_session (DebugConsole_run (SIH := no_handler) default_console_options
    (Build_Console sample_session console_input EmptyString EmptyString EmptyString [])).2) /\
  exists s r, sample_debugger.1 = Ret s /\ sample_runner.1 = Ret r /\
    let s' := co_session (MultiProcessDebugConsole_run (SIH := obliging_host) multi_default_console_options
      (Build_Console s multi_console_input EmptyString EmptyString EmptyString [])).2 in
    ms_runtime_state s' = RS_Completed /\ ms_total_steps s' = lifecycle_steps r /\ ms_context_switches s' = context_switches r.
Proof.
  destruct (@typed_input_keeps_sessions extended_long_double unit no_handler sample_files_host default_console_options console_input) as [T _].
  split; [exact (proj2 (T no_handler_quiet sample_session _ sample_session_ok (console_opens _ _ (so_loaded _ sample_session_ok))))|].
  assert (Hd : (fun s => ms_runtime_state (co_session (MultiProcessDebugConsole_run (SIH := obliging_host) multi_default_console_options
      (Build_Console s multi_console_input EmptyString EmptyString EmptyString [])).2)) <$> sample_debugger.1 = Ret RS_Completed)
    by (vm_compute; reflexivity).
  assert (Hr : runtime_state <$> sample_runner.1 = Ret RS_Completed) by (vm_compute; reflexivity).
  destruct sample_debugger as [os wh] eqn:Es, sample_runner as [or wh'] eqn:Er. cbn [fst] in *.
  apply returned_value in Hd as (s & -> & Hd). apply returned_value in Hr as (r & -> & Hr). exists s, r. split; [reflexivity|]. split; [reflexivity|].
  cbv zeta. split; [exact Hd|].
  destruct (@typed_input_keeps_sessions extended_long_double unit obliging_host sample_files_host multi_default_console_options multi_console_input) as [_ T2].
  destruct (T2 debugged_files (fun _ => None) ["loop"; "system"; "fault"] debugger_options 100000 empty_world tt s _ r wh wh' Es Er
    ltac:(rewrite Hr; discriminate) eq_refl) as [_ T3]. destruct (T3 ltac:(rewrite Hd; discriminate)) as (_ & T4 & _ & T5 & _).
  split; [exact T4 | exact T5].
Defined.
