(* ===== verification/StudioBackends.v ===== *)
(** * The back ends of the Studio: [src/studio/StudioDebugBackend.cpp],
    [src/studio/StudioMultiProcessDebugBackend.cpp]

    The debug sessions as the graphical program uses them: every call first asks
    for a loaded session, and the status is one text.  A file that is exported is
    given with its text. *)

From S2P Require Import Prelude Words Strings Text ALU Memory ISA Binary Devices DeviceTypes CPUState Trace CPU CPUFrames CPUInv Image Process ProcTable Dispatcher Preemption Lifecycle Assembler CPUShape Runner TraceDetail DebugCondition DebugSymbols DebugSession DebugLaws MultiDebugSession MultiDebugLaws Json DebugSnapshotJson Console DebugConsole MultiProcessDebugConsole ConsoleLaws.
Open Scope Z_scope.

(** ** One process *)

Section single.
Context {LD : LongDouble} {H : Type} {SIH : SoftwareInterruptHandler H} {HF : HostFiles}.

(** The only member is the session. *)
Abbreviation Backend := (DebugSession H).

Definition Studio_requireLoaded (s : Backend) : outcome unit :=
  throw_if (negb (DebugSession_loaded s)) (RuntimeError "Studio debugger has no loaded binary").

(** A member function that starts with [requireLoaded()]. *)
Definition studio {A} (m : M Backend A) : M Backend A := s ← get; _ ← lift (Studio_requireLoaded s); m.

Definition Studio_loadBinary (read_file : string -> outcome (list Z)) (read_text : string -> option string) (path : string) : M Backend unit :=
  _ ← throw_if (empty path) (RuntimeError "Studio binary path must not be empty");
  DebugSession_loadFile read_file read_text path.

Definition Studio_loadImage (image : ProcessImage) : M Backend unit := DebugSession_loadImage image.

(** [session_ = debug::DebugSession{};] next to the same objects of the host. *)
Definition Studio_reset : M Backend unit :=
  modify (fun s => new_DebugSession (world (ds_machine s)) (handler (ds_machine s))).

Definition Studio_loaded (s : Backend) : bool := DebugSession_loaded s.
Definition Studio_session : M Backend (DebugSession H) := studio get.
Definition Studio_cpu : M Backend CPU := studio DebugSession_cpu.
Definition Studio_addBreakpoint (address : Z) : M Backend bool := studio (addBreakpoint address).
Definition Studio_removeBreakpoint (address : Z) : M Backend bool := studio (removeBreakpoint address).
Definition Studio_clearBreakpoints : M Backend unit := studio clearBreakpoints.
Definition Studio_resolveCodeSymbol (name : string) : M Backend Z := studio (DebugSession_resolveCodeSymbol name).
Definition Studio_resolveDataSymbol (name : string) : M Backend Z := studio (DebugSession_resolveDataSymbol name).

Definition Studio_hasSourceMap : M Backend bool := studio (
  has ← DebugSession_hasSymbols;
  if (has : bool) then symbols ← DebugSession_symbols; mret (DebugSymbols_hasSourceLocations symbols) else mret false).

(** The functions that go on when there is a source map. *)
Definition studio_source_map {A} (m : M Backend A) : M Backend A := studio (
  has ← Studio_hasSourceMap;
  _ ← throw_if (negb (has : bool)) (RuntimeError "Studio debugger has no source map");
  m).

Definition Studio_sourcePath : M Backend string :=
  studio_source_map (symbols ← DebugSession_symbols; mret (sy_source_path symbols)).
Definition Studio_resolveSourceLine (line : Z) : M Backend Z :=
  studio_source_map (symbols ← DebugSession_symbols; lift (DebugSymbols_resolveSourceLine line symbols)).
Definition Studio_currentSourceLine : M Backend Z :=
  studio_source_map (
    symbols ← DebugSession_symbols;
    c ← DebugSession_cpu;
    lift (DebugSymbols_sourceLineForAddress (pc (state c)) symbols)).

Definition Studio_addConditionalBreakpoint (address : Z) (source operation value : string) : M Backend Z := studio (
  condition ← lift (parseDebugCondition source operation value);
  addConditionalBreakpoint address condition).
Definition Studio_clearConditionalBreakpoints : M Backend unit := studio clearConditionalBreakpoints.
Definition Studio_addWatchpoint (address size : Z) (mode : MemoryWatchMode) : M Backend Z := studio (addWatchpoint address size mode).
Definition Studio_clearWatchpoints : M Backend unit := studio clearWatchpoints.
Definition Studio_step : M Backend DebugStop := studio DebugSession_step.
Definition Studio_stepSourceLine (maxSteps : Z) : M Backend DebugStop := studio (DebugSession_stepSourceLine maxSteps).
Definition Studio_run (maxSteps : Z) : M Backend DebugStop := studio (
  _ ← throw_if (maxSteps =? 0) (RuntimeError "Studio debugger run limit must be greater than zero");
  DebugSession_continueExecution maxSteps).

Definition Studio_exportSnapshot (path : string) (options : DebugSnapshotOptions) (s : Backend) : outcome (string * string) :=
  _ ← Studio_requireLoaded s;
  json ← DebugSnapshotJsonWriter_toJson s options;
  json_file path json.

(** [try { output << label << line << "\n"; } catch (...) { output << label << "<unmapped>\n"; }]:
    the operands of [<<] are evaluated from left to right, so the label is in the
    output when [currentSourceLine()] throws. *)
Definition Studio_line_text (line : outcome Z) : string :=
  match line with
  | Ret line => text_line "Current Source Line = " (pretty line)
  | Throw _ => "Current Source Line = " +:+ text_line "Current Source Line = <unmapped>" ""
  end.

Definition Studio_statusText (s : Backend) : outcome string :=
  _ ← Studio_requireLoaded s;
  stop ← read_session DebugSession_lastStop s;
  breakpoints ← read_session DebugSession_breakpoints s;
  conditionals ← read_session conditionalBreakpoints s;
  watchpoints ← read_session DebugSession_watchpoints s;
  has ← read_session DebugSession_hasSymbols s;
  count ← (if (has : bool) then symbols ← read_session DebugSession_symbols s; mret (text_line "Symbol Count = " (pretty (Z.of_nat (DebugSymbols_size symbols))))
           else mret EmptyString);
  map ← read_session Studio_hasSourceMap s;
  source ← (if (map : bool) then path ← read_session Studio_sourcePath s;
              mret (text_line "Source Path = " path +:+ Studio_line_text (read_session Studio_currentSourceLine s))
            else mret EmptyString);
  mret (text_line "Binary Debug Session" ""
        +:+ text_line "Stop Reason = " (debugStopReasonToString (stop_reason stop))
        +:+ text_line "Stop PC = " (pretty (stop_pc stop))
        +:+ text_line "Executed Steps = " (pretty (stop_executed_steps stop))
        +:+ text_line "Total Steps = " (pretty (stop_total_steps stop))
        +:+ text_line "Breakpoints = " (pretty (Z.of_nat (length breakpoints)))
        +:+ text_line "Conditional Breakpoints = " (pretty (Z.of_nat (length conditionals)))
        +:+ text_line "Watchpoints = " (pretty (Z.of_nat (length watchpoints)))
        +:+ text_line "Symbols Loaded = " (truth_text has)
        +:+ count
        +:+ text_line "Source Map = " (truth_text map)
        +:+ source
        +:+ (if empty (stop_message stop) then EmptyString else text_line "Stop Message = " (stop_message stop))).

End single.

(** ** Several processes *)

(** The session, when there is one, and the objects of the host a session is built
    next to when there is none; a session has them in its machine. *)
Record StudioMulti (H : Type) := { sm_session : option (MultiProcessDebugSession H); sm_objects : World * H }.
Arguments Build_StudioMulti {H} _ _.
Arguments sm_session {H} _.
Arguments sm_objects {H} _.

Section several.
Context {LD : LongDouble} {H : Type} {SIH : SoftwareInterruptHandler H} {HF : HostFiles}.

Abbreviation Session := (MultiProcessDebugSession H).
Abbreviation Backend := (StudioMulti H).

Definition session_objects (s : Session) : World * H := (world (s_machine (ms_system s)), handler (s_machine (ms_system s))).

Definition set_session_objects (objects : World * H) (s : Session) : Session :=
  let y := ms_system s in
  set_multi_run ((ms_run s).1, mkSystem (mkMachine (cpu (s_machine y)) objects.1 objects.2) (s_table y) (s_scheduler y) (s_preemptive y)) s.

Definition studio_objects (b : Backend) : World * H :=
  match sm_session b with Some s => session_objects s | None => sm_objects b end.

(** [session_ = std::make_unique<MultiProcessDebugSession>(...)]: when the
    constructor throws, the old session stays. *)
Definition studio_construct (build : M (World * H) Session) : M Backend unit := fun b =>
  match build (studio_objects b) with
  | (Ret s, objects) => (Ret tt, Build_StudioMulti (Some s) objects)
  | (Throw e, objects) => (Throw e, Build_StudioMulti (set_session_objects objects <$> sm_session b) objects)
  end.

Definition StudioMulti_loadBinaries (read_file : string -> outcome (list Z)) (read_text : string -> option string) (paths : list string)
    (options : MultiProcessDebugOptions) : M Backend unit :=
  _ ← throw_if (bool_decide (paths = [])) (RuntimeError "Studio multi-process debugger requires at least one binary");
  _ ← throw_if (existsb empty paths) (RuntimeError "Studio multi-process binary path must not be empty");
  studio_construct (new_MultiProcessDebugSession read_file read_text paths options).

Definition StudioMulti_loadImages (images : list ProcessImage) (options : MultiProcessDebugOptions) : M Backend unit :=
  _ ← throw_if (bool_decide (images = [])) (RuntimeError "Studio multi-process debugger requires at least one image");
  studio_construct (new_MultiProcessDebugSession_images images options).

Definition StudioMulti_reset : M Backend unit := modify (fun b => Build_StudioMulti None (studio_objects b)).

Definition StudioMulti_loaded (b : Backend) : bool := match sm_session b with Some s => Multi_started s | None => false end.

(** [requireLoaded(); ... *session_ ...] *)
Definition StudioMulti_requireLoaded (b : Backend) : outcome Session :=
  match sm_session b with
  | Some s => if Multi_started s then Ret s else throw (RuntimeError "Studio multi-process debugger has no loaded runtime")
  | None => throw (RuntimeError "Studio multi-process debugger has no loaded runtime")
  end.

Definition studio_multi {A} (m : M Session A) : M Backend A := fun b =>
  match StudioMulti_requireLoaded b with
  | Ret s => let '(r, s') := m s in (r, Build_StudioMulti (Some s') (sm_objects b))
  | Throw e => (Throw e, b)
  end.

(** What a member function does with the selected process. *)
Definition of_selected {A} (m : Process.ProcessId -> M Session A) : M Session A := pid ← Multi_selectedPid; m pid.

Definition StudioMulti_session : M Backend Session := studio_multi get.
Definition StudioMulti_cpu : M Backend CPU := studio_multi Multi_cpu.
Definition StudioMulti_selectedPid : M Backend Process.ProcessId := studio_multi Multi_selectedPid.
Definition StudioMulti_runningPid : M Backend Process.ProcessId := studio_multi Multi_runningPid.
Definition StudioMulti_selectProcess (pid : Process.ProcessId) : M Backend unit := studio_multi (Multi_selectProcess pid).
Definition StudioMulti_resolveCodeSymbol (name : string) : M Backend Z :=
  studio_multi (of_selected (fun pid => Multi_resolveCodeSymbol pid name)).
Definition StudioMulti_resolveDataSymbol (name : string) : M Backend Z :=
  studio_multi (of_selected (fun pid => Multi_resolveDataSymbol pid name)).

Definition selected_source_map : M Session bool := of_selected (fun pid =>
  has ← Multi_hasSymbols pid;
  if (has : bool) then symbols ← Multi_symbols pid; mret (DebugSymbols_hasSourceLocations symbols) else mret false).
Definition StudioMulti_hasSourceMap : M Backend bool := studio_multi selected_source_map.

Definition with_source_map {A} (m : M Session A) : M Session A :=
  has ← selected_source_map;
  _ ← throw_if (negb (has : bool)) (RuntimeError "Selected process has no source map");
  m.

Definition selected_source_path : M Session string :=
  with_source_map (symbols ← of_selected Multi_symbols; mret (sy_source_path symbols)).
Definition StudioMulti_sourcePath : M Backend string := studio_multi selected_source_path.

Definition StudioMulti_resolveSourceLine (line : Z) : M Backend Z :=
  studio_multi (with_source_map (symbols ← of_selected Multi_symbols; lift (DebugSymbols_resolveSourceLine line symbols))).

Definition selected_source_line : M Session Z := with_source_map (
  selected ← Multi_selectedPid;
  s ← get;
  snapshots ← lift (Multi_processSnapshots s);
  match list_find (fun p => pd_pid p = selected) snapshots with
  | Some (_, p) => symbols ← Multi_symbols selected; lift (DebugSymbols_sourceLineForAddress (ctx_pc (pd_context p)) symbols)
  | None => throw (RuntimeError "Selected process snapshot was not found")
  end).
Definition StudioMulti_currentSourceLine : M Backend Z := studio_multi selected_source_line.

Definition StudioMulti_addBreakpoint (address : Z) : M Backend bool :=
  studio_multi (of_selected (fun pid => Multi_addBreakpoint pid address)).
Definition StudioMulti_clearBreakpoints : M Backend unit := studio_multi (of_selected Multi_clearBreakpoints_pid).

(** The selected process and the condition are arguments of one call, in an order
    the language leaves open; the first does not throw here. *)
Definition StudioMulti_addConditionalBreakpoint (address : Z) (source operation value : string) : M Backend Z :=
  studio_multi (of_selected (fun pid =>
    condition ← lift (parseDebugCondition source operation value);
    Multi_addConditionalBreakpoint pid address condition)).
Definition StudioMulti_clearConditionalBreakpoints : M Backend unit := studio_multi (of_selected Multi_clearConditionalBreakpoints_pid).
Definition StudioMulti_addWatchpoint (address size : Z) (mode : ProcessMemoryWatchMode) : M Backend Z :=
  studio_multi (of_selected (fun pid => Multi_addWatchpoint pid address size mode)).
Definition StudioMulti_clearWatchpoints : M Backend unit := studio_multi (of_selected Multi_clearWatchpoints_pid).
Definition StudioMulti_step : M Backend MultiProcessDebugStop := studio_multi Multi_step.
Definition StudioMulti_stepSourceLine (maxSteps : Z) : M Backend MultiProcessDebugStop := studio_multi (Multi_stepSelectedSourceLine maxSteps).
Definition StudioMulti_run (maxSteps : Z) : M Backend MultiProcessDebugStop := studio_multi (
  _ ← throw_if (maxSteps =? 0) (RuntimeError "Studio multi-process run limit must be greater than zero");
  Multi_continueExecution maxSteps).

Definition StudioMulti_exportSnapshot (path : string) (options : DebugSnapshotOptions) (b : Backend) : outcome (string * string) :=
  s ← StudioMulti_requireLoaded b;
  json ← DebugSnapshotJsonWriter_toJson_multi s options;
  json_file path json.

(** ** The status *)

Definition studio_process_line (selected : Process.ProcessId) (p : ProcessDebugSnapshot) : string :=
  "PID " +:+ pretty (pd_pid p) +:+ " | " +:+ pd_source_name p +:+ " | State=" +:+ processStateToString (pd_state p)
  +:+ " | PC=" +:+ pretty (ctx_pc (pd_context p)) +:+ " | SP=" +:+ pretty (ctx_sp (pd_context p))
  +:+ (if pd_pid p =? selected then " | <selected>" else EmptyString)
  +:+ (if pd_running p then " | <running>" else EmptyString)
  +:+ (if pd_has_exit_code p then " | Exit=" +:+ pretty (pd_exit_code p) else EmptyString)
  +:+ (if ProcessDebugSnapshot_faulted p then " | <faulted>" else EmptyString)
  +:+ newline_text.

Definition studio_interrupt_line (record : ProcessSoftwareInterruptDebugRecord) : string :=
  let result := obs_result (si_observation record) in
  "#" +:+ pretty (si_lifecycle_step record) +:+ " PID " +:+ pretty (si_pid record) +:+ " INT " +:+ pretty (obs_vector (si_observation record))
  +:+ optional_value "svc" (service_number result)
  +:+ optional_value "arg0" (argument0 result)
  +:+ optional_value "arg1" (argument1 result)
  +:+ optional_value "status" (status result)
  +:+ optional_value "result" (result_value result)
  +:+ " disposition=" +:+ softwareInterruptDispositionToString (disposition result)
  +:+ (if bool_decide (disposition result = TerminateProcess) then " exit=" +:+ pretty (exit_code result) else EmptyString)
  +:+ newline_text.

Definition studio_switch_line (r : ContextSwitchRecord) : string :=
  "#" +:+ pretty (cs_lifecycle_step r) +:+ " " +:+ pretty (cs_from_pid r) +:+ " -> " +:+ pretty (cs_to_pid r)
  +:+ (if cs_preempted r then " preempted" else EmptyString)
  +:+ (if cs_caused_by_termination r then " termination" else EmptyString)
  +:+ newline_text.

(** At most the last eight. *)
Definition recent {A} (line : A -> string) (l : list A) : string :=
  match l with [] => text_line "(none)" "" | _ => concat_text line (drop (length l - 8) l) end.

(** Here the line is asked for before anything is written. *)
Definition StudioMulti_line_text (line : outcome Z) : string :=
  match line with
  | Ret line => text_line "Current Source Line = " (pretty line)
  | Throw _ => text_line "Current Source Line = <unmapped>" ""
  end.

Definition selected_status (selected : Process.ProcessId) (s : Session) : outcome string :=
  breakpoints ← read_session (Multi_breakpoints_pid selected) s;
  conditionals ← read_session (Multi_conditionalBreakpoints_pid selected) s;
  watchpoints ← read_session (Multi_watchpoints_pid selected) s;
  has ← read_session (Multi_hasSymbols selected) s;
  count ← (if (has : bool) then symbols ← read_session (Multi_symbols selected) s; mret (text_line "Symbol Count = " (pretty (Z.of_nat (DebugSymbols_size symbols))))
           else mret EmptyString);
  map ← read_session selected_source_map s;
  source ← (if (map : bool) then path ← read_session selected_source_path s;
              mret (text_line "Source Path = " path +:+ StudioMulti_line_text (read_session selected_source_line s))
            else mret EmptyString);
  mret (newline_text +:+ text_line "Selected PID Debug Controls" ""
        +:+ text_line "Breakpoints = " (pretty (Z.of_nat (length breakpoints)))
        +:+ text_line "Conditional Breakpoints = " (pretty (Z.of_nat (length conditionals)))
        +:+ text_line "Watchpoints = " (pretty (Z.of_nat (length watchpoints)))
        +:+ text_line "Symbols Loaded = " (truth_text has)
        +:+ count
        +:+ text_line "Source Map = " (truth_text map)
        +:+ source).

Definition StudioMulti_statusText (b : Backend) : outcome string :=
  s ← StudioMulti_requireLoaded b;
  stop ← read_session Multi_lastStop s;
  selected ← read_session Multi_selectedPid s;
  runtime ← read_session Multi_runtimeState s;
  running ← read_session Multi_runningPid s;
  total ← read_session Multi_totalSteps s;
  preemptions ← read_session Multi_preemptionCount s;
  switch_count ← read_session Multi_schedulerContextSwitchCount s;
  snapshots ← Multi_processSnapshots s;
  controls ← selected_status selected s;
  interrupts ← read_session Multi_softwareInterrupts s;
  switches ← read_session Multi_contextSwitches s;
  mret (text_line "Multi-Process Debug Session" ""
        +:+ text_line "Runtime State = " (processRuntimeStateToString runtime)
        +:+ text_line "Running PID = " (pretty running)
        +:+ text_line "Selected PID = " (pretty selected)
        +:+ text_line "Total Steps = " (pretty total)
        +:+ text_line "Quantum = " (pretty (Multi_quantum s))
        +:+ text_line "Preemptions = " (pretty preemptions)
        +:+ text_line "Context Switches = " (pretty switch_count)
        +:+ text_line "Last Stop = " (multiProcessDebugStopReasonToString (mstop_reason stop))
        +:+ (if sd_hit (mstop_detail stop) is Some (pid, address)
             then text_line "Hit PID = " (pretty pid) +:+ text_line "Hit Address = " (pretty address) else EmptyString)
        +:+ (if empty (mstop_message stop) then EmptyString else text_line "Stop Message = " (mstop_message stop))
        +:+ newline_text +:+ text_line "Processes" ""
        +:+ concat_text (studio_process_line selected) snapshots
        +:+ controls
        +:+ newline_text +:+ text_line "Recent Software Interrupts" ""
        +:+ recent studio_interrupt_line interrupts
        +:+ newline_text +:+ text_line "Recent Context Switches" ""
        +:+ recent studio_switch_line switches).

End several.

(** * Laws of the back ends of the Studio *)

Section single.
Context {LD : LongDouble} {H : Type} {SIH : SoftwareInterruptHandler H} {HF : HostFiles}.
Implicit Types (s : DebugSession H).

(** The calls of the graphical program that can change the session. *)
Inductive StudioCommand :=
  | SC_loadBinary (read_file : string -> outcome (list Z)) (read_text : string -> option string) (path : string)
  | SC_loadImage (image : ProcessImage) | SC_reset
  | SC_addBreakpoint (address : Z) | SC_removeBreakpoint (address : Z) | SC_clearBreakpoints
  | SC_addConditionalBreakpoint (address : Z) (source operation value : string) | SC_clearConditionalBreakpoints
  | SC_addWatchpoint (address size : Z) (mode : MemoryWatchMode) | SC_clearWatchpoints
  | SC_step | SC_stepSourceLine (maxSteps : Z) | SC_run (maxSteps : Z).

Definition run_studio_command (command : StudioCommand) s : DebugSession H :=
  match command with
  | SC_loadBinary read_file read_text path => (Studio_loadBinary read_file read_text path s).2
  | SC_loadImage image => (Studio_loadImage image s).2
  | SC_reset => (Studio_reset s).2
  | SC_addBreakpoint address => (Studio_addBreakpoint address s).2
  | SC_removeBreakpoint address => (Studio_removeBreakpoint address s).2
  | SC_clearBreakpoints => (Studio_clearBreakpoints s).2
  | SC_addConditionalBreakpoint address source operation value => (Studio_addConditionalBreakpoint address source operation value s).2
  | SC_clearConditionalBreakpoints => (Studio_clearConditionalBreakpoints s).2
  | SC_addWatchpoint address size mode => (Studio_addWatchpoint address size mode s).2
  | SC_clearWatchpoints => (Studio_clearWatchpoints s).2
  | SC_step => (Studio_step s).2
  | SC_stepSourceLine maxSteps => (Studio_stepSourceLine maxSteps s).2
  | SC_run maxSteps => (Studio_run maxSteps s).2
  end.

Definition typed_studio_command (command : StudioCommand) : Prop :=
  match command with
  | SC_loadImage image => length (im_initial_registers image) = kRegisterCount
  | SC_addWatchpoint address size _ => 0 <= address /\ 0 <= size
  | _ => True
  end.

Definition run_studio_commands (commands : list StudioCommand) s : DebugSession H := foldl (fun s c => run_studio_command c s) s commands.

(** What the back end guarantees: nothing is loaded, or the session is sound. *)
Definition backend_ok s : Prop := ds_loaded s = true -> session_ok s.

Lemma studio_run {A} (m : M (DebugSession H) A) s :
  studio m s = if ds_loaded s then m s else (Throw (RuntimeError "Studio debugger has no loaded binary"), s).
Proof.
  unfold studio. rewrite bind_run. unfold get. cbv beta iota. rewrite bind_run. unfold lift, Studio_requireLoaded, DebugSession_loaded.
  destruct (ds_loaded s); reflexivity.
Qed.

Lemma command_ok {QH : QuietHandler H} command s : typed_command command -> backend_ok s -> backend_ok (run_command command s).
Proof.
  intros Ht Hs Hl. destruct (ds_loaded s) eqn:El; [apply command_keeps; auto|].
  destruct (command_unloaded command s Ht El) as [E|Hok]; [rewrite E in Hl; congruence | exact Hok].
Qed.

(** A guarded call is the session's own, or nothing. *)
Lemma guarded_ok {QH : QuietHandler H} {A} (m : M (DebugSession H) A) command s : typed_command command -> (m s).2 = run_command command s ->
  backend_ok s -> backend_ok (studio m s).2.
Proof. intros Ht Hm Hs. rewrite studio_run. destruct (ds_loaded s); [rewrite Hm; apply command_ok; assumption | exact Hs]. Qed.

Lemma studio_command_ok {QH : QuietHandler H} command s : typed_studio_command command -> backend_ok s -> backend_ok (run_studio_command command s).
Proof.
  intros Ht Hs. destruct command; cbn [run_studio_command].
  - unfold Studio_loadBinary. rewrite bind_run. destruct (empty path); [exact Hs|]. apply (command_ok (C_loadFile read_file read_text path)); [exact I | exact Hs].
  - apply (command_ok (C_loadImage image)); assumption.
  - intros Hl. discriminate Hl.
  - apply (guarded_ok _ (C_addBreakpoint address)); [exact I | reflexivity | exact Hs].
  - apply (guarded_ok _ (C_removeBreakpoint address)); [exact I | reflexivity | exact Hs].
  - apply (guarded_ok _ C_clearBreakpoints); [exact I | reflexivity | exact Hs].
  - unfold Studio_addConditionalBreakpoint. rewrite studio_run. destruct (ds_loaded s); [|exact Hs]. rewrite bind_run. unfold lift.
    destruct (parseDebugCondition source operation value) as [condition|e]; [|exact Hs].
    apply (command_ok (C_addConditionalBreakpoint address condition)); [exact I | exact Hs].
  - apply (guarded_ok _ C_clearConditionalBreakpoints); [exact I | reflexivity | exact Hs].
  - apply (guarded_ok _ (C_addWatchpoint address size mode)); [exact Ht | reflexivity | exact Hs].
  - apply (guarded_ok _ C_clearWatchpoints); [exact I | reflexivity | exact Hs].
  - apply (guarded_ok _ C_step); [exact I | reflexivity | exact Hs].
  - apply (guarded_ok _ (C_stepSourceLine maxSteps)); [exact I | reflexivity | exact Hs].
  - unfold Studio_run. rewrite studio_run. destruct (ds_loaded s); [|exact Hs]. rewrite bind_run. destruct (maxSteps =? 0); [exact Hs|].
    apply (command_ok (C_continueExecution maxSteps)); [exact I | exact Hs].
Qed.

Lemma studio_commands_ok {QH : QuietHandler H} commands : forall s, Forall typed_studio_command commands -> backend_ok s ->
  backend_ok (run_studio_commands commands s).
Proof.
  induction commands as [|c l IH]; intros s Ht Hs; [exact Hs|]. apply Forall_cons in Ht as [Hc Ht].
  change (run_studio_commands (c :: l) s) with (run_studio_commands l (run_studio_command c s)). apply IH; [exact Ht | apply studio_command_ok; assumption].
Qed.

End single.

(** The back end of one process keeps the invariant of its session: after any calls,
    whether they return or throw, nothing is loaded or the session is sound. *)
Theorem studio_keeps_sessions {LD : LongDouble} {H : Type} {SIH : SoftwareInterruptHandler H} {QH : QuietHandler H}
    (w : World) (h : H) (commands : list StudioCommand) (Hc : Forall typed_studio_command commands) :
  let s := run_studio_commands commands (new_DebugSession w h) in ds_loaded s = true -> session_ok s.
Proof. apply studio_commands_ok; [exact Hc | discriminate]. Qed.

Lemma regrouped a b c d : (a +:+ b) +:+ (c +:+ d) = a +:+ ((b +:+ c) +:+ d).
Proof. rewrite <- !append_assoc. reflexivity. Qed.

(** The status of a session whose program counter has no source line has the label
    of the line twice; the back end of several processes asks for the line first. *)
Theorem unmapped_status_repeats_label {LD : LongDouble} {H : Type} {SIH : SoftwareInterruptHandler H} (s : DebugSession H) text e
    (Hmap : read_session Studio_hasSourceMap s = Ret true) (Hline : read_session Studio_currentSourceLine s = Throw e)
    (Htext : Studio_statusText s = Ret text) :
  exists before after,
    text = before +:+ ("Current Source Line = " +:+ text_line "Current Source Line = <unmapped>" "") +:+ after.
Proof.
  unfold Studio_statusText in Htext. do 7 (apply bind_ret_inv in Htext as (? & _ & Htext)).
  rewrite Hmap, bind_Ret in Htext. apply bind_ret_inv in Htext as (source & Hs & Htext). cbv beta iota in Hs.
  apply bind_ret_inv in Hs as (path & _ & Hs). rewrite Hline in Hs. injection Hs as <-. injection Htext as <-.
  cbn [Studio_line_text]. rewrite !append_assoc. rewrite <- (append_assoc _ _ (if empty _ then _ else _)).
  eexists _, _. apply regrouped.
Qed.
