(* ===== verification/Disk.v ===== *)
(** * The files of the host

    The functions of the program that open files, over an interface of the host's
    file system: [Assembler::assembleFile], [BinaryReader::readFile],
    [BinaryWriter::writeFile], [ProcessImageLoader::loadFile], the [writeFile] of the
    two trace writers and [TraceJsonDiff::compareFiles].  A file is its bytes; one
    that can be opened is read to its end, and a text file reads and writes as its
    bytes.  The runs of whole programs are in [BioOSRunner] and [Showcase]. *)

From S2P Require Import Prelude Words Strings Memory ISA Binary Trace CPU Image Assembler Runner Syscalls TraceJson TraceJsonDiff.
Open Scope Z_scope.

(** ** The file system *)

(** [disk_read]: the bytes of a file that can be opened.  [disk_truncate]: what
    opening a file for writing leaves, when it can be opened.  [disk_fill]: whether
    writing into the opened file succeeds, and what it leaves.  The last two are
    functions of [std::filesystem], which throws its errors. *)
Class HostDisk (D : Type) := {
  disk_read : string -> D -> option (list Z);
  disk_truncate : string -> D -> option D;
  disk_fill : string -> list Z -> D -> bool * D;
  disk_exists : string -> D -> outcome bool;
  disk_create_directories : string -> M D unit;
}.

(** The characters of a text, as bytes. *)
Definition bytes_of_string (text : string) : list Z := (fun c => Z.of_N (Ascii.N_of_ascii c)) <$> chars text.

Lemma string_of_bytes_of_string text : string_of_bytes (bytes_of_string text) = text.
Proof.
  unfold string_of_bytes, bytes_of_string. rewrite <- list_fmap_compose.
  rewrite (list_fmap_ext _ (fun c => c)); [rewrite list_fmap_id; apply of_chars_chars|].
  intros _ c _. cbn. rewrite N2Z.id. apply Ascii.ascii_N_embedding.
Qed.

Lemma bytes_of_string_bytes text : byte_list (bytes_of_string text).
Proof.
  apply Forall_fmap, Forall_forall. intros c _. pose proof (Ascii.N_ascii_bounded c). unfold compose. words.
Qed.

Section disk.
Context {D : Type} {HD : HostDisk D}.

(** [std::ifstream file(path); if (!file) throw e; ...]: to the end of the file. *)
Definition open_and_read (path : string) (e : exn) (d : D) : outcome (list Z) :=
  match disk_read path d with Some bytes => mret bytes | None => throw e end.

(** [std::ofstream file(path); if (!file) throw e;] *)
Definition open_for_writing (path : string) (e : exn) : M D unit := fun d =>
  match disk_truncate path d with Some d' => (Ret tt, d') | None => (Throw e, d) end.

(** [file << ...]: whether the stream is good afterwards. *)
Definition write_out (path : string) (bytes : list Z) : M D bool := fun d => let '(ok, d') := disk_fill path bytes d in (Ret ok, d').

(** ** The functions that open files *)

Definition Assembler_assembleFile (path : string) (d : D) : outcome AssembledProgram :=
  bytes ← open_and_read path (RuntimeError ("Failed to open assembly file: " +:+ path)) d;
  assembleString (string_of_bytes bytes).

Definition read_binary_file (path : string) (d : D) : outcome (list Z) :=
  open_and_read path (RuntimeError ("Failed to open binary file for reading: " +:+ path)) d.

Definition BinaryReader_readFile (path : string) (d : D) : outcome BinaryProgram :=
  bytes ← read_binary_file path d; BinaryReader_readFromBytes bytes.

Definition ProcessImageLoader_loadFile (path : string) (d : D) : outcome ProcessImage :=
  program ← BinaryReader_readFile path d; ProcessImageLoader_loadProgram program path.

Definition BinaryWriter_writeFile (path : string) (program : BinaryProgram) : M D unit :=
  bytes ← lift (BinaryWriter_writeToBytes program);
  _ ← open_for_writing path (RuntimeError ("Failed to open binary file for writing: " +:+ path));
  ok ← write_out path bytes;
  throw_if (negb ok) (RuntimeError ("Failed to write binary file: " +:+ path)).

(** The file is opened, and emptied, before the text is made. *)
Definition write_json (path : string) (json : outcome string) (cannot_open cannot_write : string) : M D unit :=
  _ ← open_for_writing path (RuntimeError (cannot_open +:+ path));
  json ← lift json;
  ok ← write_out path (bytes_of_string json);
  throw_if (negb ok) (RuntimeError (cannot_write +:+ path)).

Definition TraceJsonWriter_writeFile (path : string) (events : list TraceEvent) (metadata : TraceJsonMetadata) : M D unit :=
  write_json path (TraceJsonWriter_toJson events metadata) "Failed to open trace JSON file: " "Failed to write trace JSON file: ".

Definition MultiProcessTraceJsonWriter_writeFile (path : string) (result : MultiProcessRunResult)
    (metadata : MultiProcessTraceJsonMetadata) : M D unit :=
  write_json path (MultiProcessTraceJsonWriter_toJson result metadata)
    "Failed to open multi-process trace JSON file: " "Failed to write multi-process trace JSON file: ".

Definition readFileText (path : string) (d : D) : outcome string :=
  bytes ← open_and_read path (RuntimeError ("Failed to open trace JSON file: " +:+ path)) d;
  mret (string_of_bytes bytes).

Definition compare_trace_files (expectedPath actualPath : string) (options : TraceJsonDiffOptions) (d : D) : outcome TraceJsonDiffResult :=
  TraceJsonDiff_compareFiles (fun path => readFileText path d) expectedPath actualPath options.

(** ** What a writer promises a reader *)

(** A disk that keeps what is written: opening succeeds, filling succeeds, and the
    file then reads as the bytes written, other files as before. *)
Class KeepingDisk := {
  kd_truncate : forall path d, is_Some (disk_truncate path d);
  kd_fill : forall path bytes d, (disk_fill path bytes d).1 = true;
  kd_read : forall path bytes d d', disk_truncate path d = Some d' ->
    disk_read path (disk_fill path bytes d').2 = Some bytes;
  kd_other : forall path bytes d d' other, disk_truncate path d = Some d' -> other <> path ->
    disk_read other (disk_fill path bytes d').2 = disk_read other d;
}.

End disk.

(** A disk whose paths are the names of its files. *)
#[export] Instance map_disk : HostDisk (gmap string (list Z)) := {
  disk_read path files := files !! path;
  disk_truncate path files := Some (<[path := []]> files);
  disk_fill path bytes files := (true, <[path := bytes]> files);
  disk_exists path files := mret (bool_decide (is_Some (files !! path)));
  disk_create_directories _ := mret tt;
}.

#[export] Instance map_disk_keeps : @KeepingDisk _ map_disk.
Proof.
  constructor; cbn.
  - eauto.
  - reflexivity.
  - intros path bytes d d' [= <-]. apply lookup_insert_eq.
  - intros path bytes d d' other [= <-] Hne. rewrite !lookup_insert_ne by congruence. reflexivity.
Qed.
