(* ===== verification/BioOSRunner.v ===== *)
(** * The BIO-OS runner: [src/system/BioOSRunner.cpp]

    Three source files of a directory are joined, assembled and run in Kernel mode
    on a CPU with a timer and a debug output, until the CPU halts, an error or the
    step limit.  The objects the caller passes are references into the store, where
    null is [None].  Its theorems follow. *)

From S2P Require Import Prelude Words Strings Text ALU Memory ISA Binary Interrupts Devices CPUState CPU CPUExec CPUStep CPUProtect CPURun Assembler TraceDetail Json Disk ExampleFiles.
Open Scope Z_scope.

(** ** Options and results *)

Record BioOSRunOptions := {
  opt_directory : string;
  opt_combined_source_path : string;
  opt_combined_binary_path : string;
  opt_max_steps : Z;
  write_generated_files : bool;
}.

Definition default_bio_options : BioOSRunOptions :=
  {| opt_directory := "examples\bio_os"; opt_combined_source_path := EmptyString; opt_combined_binary_path := EmptyString;
     opt_max_steps := 5000; write_generated_files := true |}.

Record BioOSRunResult := {
  os_directory : string;
  os_source_path : string;
  os_binary_path : string;
  os_source : string;
  os_instruction_count : Z;
  os_code_size : Z;
  os_syscall_handler_pc : Z;
  os_timer_handler_pc : Z;
  os_stack_base : Z;
  os_step_count : Z;
  os_halted : bool;
  os_hit_step_limit : bool;
  os_has_error : bool;
  os_error_message : string;
  os_final_pc : Z;
  os_final_sp : Z;
  os_exit_code : Z;
  os_debug_writes : list Z;
  os_debug_ascii : string;
  os_timer_tick_count : Z;
  os_timer_interval : Z;
  os_timer_vector : Z;
  os_timer_payload : Z;
  os_timer_interrupt_count : Z;
  os_timer_enabled : bool;
}.

Definition BioOSRunResult_success (r : BioOSRunResult) : bool := os_halted r && negb (os_has_error r) && negb (os_hit_step_limit r).

Definition bioOSDebugOutputAsAscii (writes : list Z) : string :=
  of_chars ((fun value =>
    if (value >=? 32) && (value <=? 126) then ascii_of_nat (Z.to_nat value)
    else if value =? 10 then Text.newline else "."%char) <$> writes).

(** ** Paths and the source *)

Definition joinPath (directory fileName : string) : string :=
  match directory with
  | EmptyString => fileName
  | _ => if bool_decide (last (chars directory) = Some "\"%char) || bool_decide (last (chars directory) = Some "/"%char)
         then directory +:+ fileName else directory +:+ "\" +:+ fileName
  end.

Definition resolveCombinedSourcePath (o : BioOSRunOptions) : string :=
  if negb (empty (opt_combined_source_path o)) then opt_combined_source_path o else joinPath (opt_directory o) "combined_boot.zasm".
Definition resolveCombinedBinaryPath (o : BioOSRunOptions) : string :=
  if negb (empty (opt_combined_binary_path o)) then opt_combined_binary_path o else joinPath (opt_directory o) "combined_boot.zbin".

Section files.
Context {D : Type} {HD : HostDisk D}.

Definition readTextFile (path : string) (d : D) : outcome string :=
  bytes ← open_and_read path (RuntimeError ("Failed to open file: " +:+ path)) d;
  mret (Syscalls.string_of_bytes bytes).

(** Whether the text could be written is not asked. *)
Definition writeTextFile (path text : string) : M D unit :=
  _ ← open_for_writing path (RuntimeError ("Failed to write file: " +:+ path));
  _ ← write_out path (bytes_of_string text);
  mret tt.

Definition makeCombinedSource (directory : string) (d : D) : outcome string :=
  boot ← readTextFile (joinPath directory "boot.zasm") d;
  kernel ← readTextFile (joinPath directory "kernel.zasm") d;
  user ← readTextFile (joinPath directory "user_program.zasm") d;
  mret ("; Generated by Zero-CPU BioOSRunner" +:+ newline_text
        +:+ "; Source directory: " +:+ directory +:+ newline_text +:+ newline_text
        +:+ "; --- boot.zasm ---" +:+ newline_text +:+ boot +:+ newline_text +:+ newline_text
        +:+ "; --- kernel.zasm ---" +:+ newline_text +:+ kernel +:+ newline_text +:+ newline_text
        +:+ "; --- user_program.zasm ---" +:+ newline_text +:+ user +:+ newline_text).

End files.

Definition labelAddress (assembled : AssembledProgram) (labelName : string) (codeBase : Z) : outcome Z :=
  match ap_labels assembled !! labelName with
  | None => throw (RuntimeError ("BIO-OS label not found: " +:+ labelName))
  | Some index => mret (u64 (codeBase + index * kInstructionSize))
  end.

(** The program of [runOn]: every entry is at 0, whatever [.entry] says, and the
    sizes are cut to 32 bits. *)
Definition bio_program (assembled : AssembledProgram) : outcome BinaryProgram :=
  code ← encodeProgram (instructions assembled) (ap_labels assembled);
  mret {| header := {| major_version := kMajorVersion; minor_version := kMinorVersion; endianness := BE_Little; entry_point := 0;
                       code_size := u32 (Z.of_nat (length code)); data_base := u32 (ap_data_base assembled);
                       data_size := u32 (Z.of_nat (length (ap_data assembled))) |};
          code := code; data := ap_data assembled |}.

(** ** Running *)

(** The pointers the caller passes. *)
Record BioOSDevices := {
  bd_controller : option nat;
  bd_bus : option nat;
  bd_debug_output : option nat;
  bd_timer : option nat;
}.

Definition required {T A} `{MRet T, MonadThrow T} (pointer : option A) (name : string) : T A :=
  match pointer with None => throw (RuntimeError ("BioOSRunner requires " +:+ name)) | Some x => mret x end.

Section running.
Context {LD : LongDouble} {H : Type} {SIH : SoftwareInterruptHandler H} {D : Type} {HD : HostDisk D}.

(** What the loop starts from: the program is loaded, the CPU has its devices, its
    stack, and the vectors of the system calls and the timer; with the addresses of
    the two handlers and the devices the report reads. *)
Definition bio_prepare (devices : BioOSDevices) (assembled : AssembledProgram) (program : BinaryProgram)
    : M (Machine H) (Z * Z * nat * nat) :=
  controller ← required (bd_controller devices) "InterruptController";
  bus ← required (bd_bus devices) "MMIOBus";
  debug ← required (bd_debug_output devices) "DebugOutputDevice";
  timer ← required (bd_timer devices) "TimerDevice";
  _ ← zoom cpu (fun c => set_cpu (fun _ => c)) (loadBinaryProgram program);
  _ ← assign (set_interrupt_controller (Some controller));
  _ ← assign (set_mmio_bus (Some bus));
  _ ← assign (set_clocked_devices []);
  _ ← update cpu (fun c => set_cpu (fun _ => c)) (addClockedDevice (Some timer));
  _ ← on_state (setSp kBioOSStackBase);
  c ← gets cpu;
  syscall_pc ← lift (labelAddress assembled "syscall_handler" (binary_code_base c));
  timer_pc ← lift (labelAddress assembled "timer_handler" (binary_code_base c));
  _ ← on_world (on_controller controller (modify (InterruptController_setVectorHandler 80 syscall_pc)));
  _ ← on_world (on_controller controller (modify (InterruptController_setVectorHandler 44 timer_pc)));
  mret (syscall_pc, timer_pc, debug, timer).

(** [while (!halted && step_count < max_steps)], with the steps left: the steps
    counted, and the message of the error it broke off with. *)
Fixpoint bio_loop (remaining : nat) (step_count : Z) : M (Machine H) (Z * option string) :=
  match remaining with
  | O => mret (step_count, None)
  | S remaining =>
      s ← gets mstate;
      if halted s then mret (step_count, None)
      else
        _ ← CPU_step;
        s ← gets mstate;
        if has_error s then mret (step_count, Some (error_message s)) else bio_loop remaining (step_count + 1)
  end.

Definition runPreparedProgram (devices : BioOSDevices) (o : BioOSRunOptions) (assembled : AssembledProgram)
    (program : BinaryProgram) (combinedSource : string) : M (Machine H) BioOSRunResult :=
  '(syscall_pc, timer_pc, debug, timer) ← bio_prepare devices assembled program;
  '(step_count, error) ← bio_loop (Z.to_nat (opt_max_steps o)) 0;
  s ← gets mstate;
  w ← gets world;
  exit_code ← lift (RegisterFile_get (registers s) R7);
  let hit := negb (halted s) && bool_decide (error = None) in
  let writes := dbg_writes (debug_outputs w !!! debug) in
  let t := timer_at w timer in
  mret {| os_directory := opt_directory o;
          os_source_path := resolveCombinedSourcePath o;
          os_binary_path := resolveCombinedBinaryPath o;
          os_source := combinedSource;
          os_instruction_count := Z.of_nat (length (instructions assembled));
          os_code_size := Z.of_nat (length (code program));
          os_syscall_handler_pc := syscall_pc;
          os_timer_handler_pc := timer_pc;
          os_stack_base := kBioOSStackBase;
          os_step_count := step_count;
          os_halted := halted s;
          os_hit_step_limit := hit;
          os_has_error := bool_decide (is_Some error);
          os_error_message := if hit then "BIO-OS step limit reached" else default EmptyString error;
          os_final_pc := pc s;
          os_final_sp := sp s;
          os_exit_code := exit_code;
          os_debug_writes := writes;
          os_debug_ascii := bioOSDebugOutputAsAscii writes;
          os_timer_tick_count := i64 (tmr_tick_count t);
          os_timer_interval := i64 (tmr_interval t);
          os_timer_vector := tmr_vector t;
          os_timer_payload := tmr_payload t;
          os_timer_interrupt_count := i64 (tmr_interrupt_count t);
          os_timer_enabled := tmr_enabled t |}.

(** ** [runOn] *)

(** The CPU and the store of the caller, and the files. *)
Abbreviation Host := (Machine H * D)%type.

Definition on_caller {A} (m : M (Machine H) A) : M Host A := zoom fst (fun machine '(_, d) => (machine, d)) m.
Definition on_disk {A} (m : M D A) : M Host A := zoom snd (fun d '(machine, _) => (machine, d)) m.

(** The result when an exception is caught. *)
Definition failed_run (o : BioOSRunOptions) (e : exn) : BioOSRunResult :=
  {| os_directory := opt_directory o; os_source_path := resolveCombinedSourcePath o; os_binary_path := resolveCombinedBinaryPath o;
     os_source := EmptyString; os_instruction_count := 0; os_code_size := 0; os_syscall_handler_pc := 0; os_timer_handler_pc := 0;
     os_stack_base := kBioOSStackBase; os_step_count := 0; os_halted := false; os_hit_step_limit := false; os_has_error := true;
     os_error_message := what e; os_final_pc := 0; os_final_sp := 0; os_exit_code := 0; os_debug_writes := [];
     os_debug_ascii := EmptyString; os_timer_tick_count := 0; os_timer_interval := 0; os_timer_vector := 0; os_timer_payload := 0;
     os_timer_interrupt_count := 0; os_timer_enabled := false |}.

(** From the three files to the program, with the generated files written. *)
Definition bio_build (o : BioOSRunOptions) : M D (string * AssembledProgram * BinaryProgram) :=
  d ← get;
  source ← lift (makeCombinedSource (opt_directory o) d);
  _ ← (if write_generated_files o then writeTextFile (resolveCombinedSourcePath o) source else mret tt);
  assembled ← lift (assembleString source);
  program ← lift (bio_program assembled);
  _ ← (if write_generated_files o then BinaryWriter_writeFile (resolveCombinedBinaryPath o) program else mret tt);
  mret (source, assembled, program).

Definition BioOSRunner_runOn (devices : BioOSDevices) (o : BioOSRunOptions) : M Host BioOSRunResult :=
  try_catch
    ('(source, assembled, program) ← on_disk (bio_build o);
     on_caller (runPreparedProgram devices o assembled program source))
    (fun e => mret (failed_run o e)).

(** [run]: a new CPU, a controller, a bus with a debug output and a timer that is
    off.  No handler is attached to the CPU, so [h] is never called. *)
Definition bio_world : outcome World :=
  let controller := InterruptController_clear in
  timer ← new_TimerDevice (Some 0%nat) 44 1000 0;
  let w := {| controllers := {[0%nat := controller]}; timers := {[0%nat := set_enabled false timer]};
              debug_outputs := {[0%nat := DebugOutputDevice_clear]}; hardware_buses := ∅; serial_buses := ∅; buses := ∅ |} in
  bus ← MMIOBus_mapDevice w kDebugOutputBase kDebugOutputSize (Some (DebugOutputRef 0)) [];
  bus ← MMIOBus_mapDevice w kTimerBase kTimerSize (Some (TimerRef 0)) bus;
  mret (set_buses {[0%nat := bus]} w).

Definition bio_devices : BioOSDevices :=
  {| bd_controller := Some 0%nat; bd_bus := Some 0%nat; bd_debug_output := Some 0%nat; bd_timer := Some 0%nat |}.

Definition BioOSRunner_run (h : H) (o : BioOSRunOptions) : M D BioOSRunResult := fun d =>
  match bio_world with
  | Throw e => (Throw e, d)
  | Ret w => let '(r, (_, d')) := BioOSRunner_runOn bio_devices o (mkMachine new_CPU w h, d) in (r, d')
  end.

End running.

(** * What the BIO-OS runner guarantees *)

Section laws.
Context {LD : LongDouble} {H : Type} {SIH : SoftwareInterruptHandler H} {D : Type} {HD : HostDisk D}.
Implicit Types (m : Machine H).

(** ** The loop *)

(** The loop takes the steps of [CPU::run]: it ends in the machine after them, with
    an error exactly when the machine has one, and without any it has counted all the
    steps unless the machine halted. *)
Lemma bio_loop_steps n : forall c m, has_error (mstate m) = false ->
  exists k error, bio_loop n c m = (Ret (c + Z.of_nat k, error), steps n m) /\ (k <= n)%nat /\
    bool_decide (is_Some error) = has_error (mstate (steps n m)) /\
    (error = None -> halted (mstate (steps n m)) = false -> k = n).
Proof.
  induction n as [|n IH]; intros c m He.
  - exists 0%nat, None. cbn [bio_loop]. rewrite Z.add_0_r. change (steps 0 m) with m. rewrite He. auto.
  - cbn [bio_loop]. rewrite bind_run. unfold gets at 1. cbv beta iota. destruct (halted (mstate m)) eqn:Eh.
    + exists 0%nat, None. rewrite Z.add_0_r, steps_stopped by (unfold stopped; rewrite Eh; reflexivity). rewrite He, Eh.
      split; [reflexivity|]. split; [lia|]. split; [reflexivity | intros _ [=]].
    + rewrite bind_run, CPU_step_unit. cbv beta iota. rewrite bind_run. unfold gets. cbv beta iota. rewrite steps_S.
      set (m1 := (CPU_step m).2). destruct (has_error (mstate m1)) eqn:E1.
      * exists 0%nat, (Some (error_message (mstate m1))). rewrite Z.add_0_r, steps_stopped by (unfold stopped; rewrite E1; apply orb_true_r).
        rewrite E1. split; [reflexivity|]. split; [lia|]. split; [reflexivity | intros [=]].
      * destruct (IH (c + 1) m1 E1) as (k & error & Hr & Hk & Herr & Hn). exists (S k), error. rewrite Hr.
        split; [replace (c + 1 + Z.of_nat k) with (c + Z.of_nat (S k)) by lia; reflexivity|]. split; [lia|]. split; [exact Herr | intros; f_equal; auto].
Qed.

(** ** The machine the loop starts from *)

Abbreviation clean := (fun m => has_error (mstate m) = false).

Lemma load_clean program : hoare (fun _ : CPU => True) (loadBinaryProgram program)
  (fun _ c => has_error (state c) = false) (fun _ _ => True).
Proof.
  unfold loadBinaryProgram. eapply (hoare_bind _ _ _ (fun _ c => has_error (state c) = false)); [intros c _; reflexivity|]. intros _.
  set (J := fun c : CPU => has_error (state c) = false).
  eapply (safe_hoare J _ (fun _ => True)); [|intros _ c _ Hc; exact Hc | auto].
  assert (Hmodify : forall f : CPU -> CPU, (forall c, J c -> J (f c)) -> safe J (modify f) (fun _ => True)) by (intros f; apply safe_modify).
  do 2 (eapply safe_bind; [apply Hmodify; intros c Hc; exact Hc | intros _ _]).
  eapply (safe_bind J _ _ (fun _ => True)).
  { intros c Hc. unfold zoom. destruct (BinaryLoader_loadIntoMemory _ _ _) as [[a|e] mem]; [split; [exact I | exact Hc] | exact Hc]. }
  intros img _. do 5 (eapply safe_bind; [apply Hmodify; intros c Hc; exact Hc | intros _ _]).
  apply Hmodify. intros c Hc. exact Hc.
Qed.

Lemma required_safe (I : Machine H -> Prop) {A} (p : option A) name : safe I (required p name) (fun _ => True).
Proof. destruct p; [apply safe_ret; exact Logic.I | apply safe_throw]. Qed.

Lemma prepare_clean devices assembled program m x m0 : bio_prepare devices assembled program m = (Ret x, m0) -> clean m0.
Proof.
  unfold bio_prepare. intros E.
  assert (Hh : hoare (fun _ : Machine H => True) (bio_prepare devices assembled program) (fun _ => clean) (fun _ _ => True)).
  { unfold bio_prepare. do 4 (eapply (safe_hoare_bind (fun _ => True)); [apply required_safe | auto|]; intros ? _).
    eapply (hoare_bind _ _ _ (fun _ => clean)).
    { intros s _. unfold zoom. pose proof (load_clean program (cpu s) Logic.I) as Hl.
      destruct (loadBinaryProgram program (cpu s)) as [[u|e] c]; exact Hl. }
    intros _. eapply (safe_hoare clean _ (fun _ => True)); [|intros ? ? _ Hc; exact Hc | auto].
    repeat (eapply safe_bind; [first [apply safe_modify; intros s Hs; exact Hs | apply safe_update; intros s c Hs Hc; injection Hc as <-; exact Hs
        | apply (safe_gets _ _ (fun _ => True)); auto | apply (safe_lift _ _ (fun _ => True)); auto
        | apply (safe_zoom _ (fun _ => True)); [apply (safe_zoom _ (fun _ => True)); [apply safe_modify; auto | auto | auto] | auto | intros s w Hs _; exact Hs] ] | intros ? _]).
    apply safe_ret. exact Logic.I. }
  specialize (Hh m Logic.I). unfold bio_prepare in Hh. rewrite E in Hh. exact Hh.
Qed.

End laws.

(** ** Runs *)

(** Exactly one of the three. *)
Definition one_of (a b c : bool) : Prop :=
  (a, b, c) = (true, false, false) \/ (a, b, c) = (false, true, false) \/ (a, b, c) = (false, false, true).

Section runs.
Context {LD : LongDouble} {H : Type} {SIH : SoftwareInterruptHandler H} {D : Type} {HD : HostDisk D}.
Implicit Types (m : Machine H).

(** What a result without an error reports of the run from [m0] to its machine. *)
Record reports (o : BioOSRunOptions) (m0 : Machine H) (debug timer : nat) (r : BioOSRunResult) : Prop := {
  rp_machine : halted (mstate (steps (Z.to_nat (opt_max_steps o)) m0)) = negb (os_hit_step_limit r);
  rp_no_error : has_error (mstate (steps (Z.to_nat (opt_max_steps o)) m0)) = false;
  rp_run : CPU_run (Z.to_nat (opt_max_steps o)) m0 =
    (Ret tt, let m := steps (Z.to_nat (opt_max_steps o)) m0 in if os_hit_step_limit r then limit_reached m else m);
  rp_steps : 0 <= os_step_count r <= Z.of_nat (Z.to_nat (opt_max_steps o));
  rp_limit : os_hit_step_limit r = true -> os_step_count r = Z.of_nat (Z.to_nat (opt_max_steps o));
  rp_exit : RegisterFile_get (registers (mstate (steps (Z.to_nat (opt_max_steps o)) m0))) R7 = Ret (os_exit_code r);
  rp_writes : os_debug_writes r = dbg_writes (debug_outputs (world (steps (Z.to_nat (opt_max_steps o)) m0)) !!! debug);
  rp_timer : os_timer_enabled r = tmr_enabled (timer_at (world (steps (Z.to_nat (opt_max_steps o)) m0)) timer);
}.

Lemma prepared_run devices o assembled program source m r m' :
  runPreparedProgram devices o assembled program source m = (Ret r, m') ->
  one_of (BioOSRunResult_success r) (os_has_error r) (os_hit_step_limit r) /\
  exists syscall_pc timer_pc debug timer m0, bio_prepare devices assembled program m = (Ret (syscall_pc, timer_pc, debug, timer), m0) /\
    m' = steps (Z.to_nat (opt_max_steps o)) m0 /\ (os_has_error r = false -> reports o m0 debug timer r).
Proof.
  intros E. unfold runPreparedProgram in E. apply M_bind_ret_inv in E as ([[[syscall_pc timer_pc] debug] timer] & m0 & Hp & E).
  pose proof (prepare_clean _ _ _ _ _ _ Hp) as Hclean. set (n := Z.to_nat (opt_max_steps o)) in *.
  destruct (bio_loop_steps n 0 m0 Hclean) as (k & error & Hloop & Hk & Herr & Hfull).
  rewrite bind_run, Hloop in E. cbv beta iota in E. set (m1 := steps n m0) in *.
  rewrite bind_run in E. unfold gets at 1 in E. cbv beta iota in E. rewrite bind_run in E. unfold gets at 1 in E. cbv beta iota in E.
  apply M_bind_ret_inv in E as (code & m2 & Hcode & E). apply M_lift_ret_inv in Hcode as [Hcode ->]. injection E as <- <-.
  split; [|exists syscall_pc, timer_pc, debug, timer, m0; split; [exact Hp | split; [reflexivity|]]].
  - unfold one_of, BioOSRunResult_success. cbn [os_halted os_has_error os_hit_step_limit].
    destruct (halted (mstate m1)), error; auto.
  - cbn [os_has_error]. intros Hnone. rewrite Herr in Hnone.
    assert (error = None) as -> by (destruct error; [rewrite Hnone in Herr; discriminate Herr | reflexivity]).
    assert (Hstopped : stopped m1 = halted (mstate m1)) by (unfold stopped; rewrite Hnone; apply orb_false_r).
    constructor; cbn [os_hit_step_limit os_step_count os_exit_code os_debug_writes os_timer_enabled];
      change (bool_decide (None = None)) with true; rewrite ?andb_true_r, ?negb_involutive; fold n m1; auto; try lia.
    + rewrite CPU_run_steps. fold m1. rewrite Hstopped. destruct (halted (mstate m1)); reflexivity.
    + intros Hh. apply negb_true_iff in Hh. rewrite (Hfull eq_refl Hh). lia.
Qed.

End runs.

(** (C12) The runner always returns a result, and with exactly one verdict: success, an
    error, or the step limit.  A result without an error reports a run of the CPU:
    from the machine the program and the devices were loaded into, the final machine
    is the one [CPU::run] leaves under the same limit (which adds its own error at
    the limit), and the exit code, the debug output and the timer are those of that
    machine. *)
Theorem bio_os_runs_the_cpu {LD : LongDouble} {H : Type} {SIH : SoftwareInterruptHandler H} {D : Type} {HD : HostDisk D}
    (devices : BioOSDevices) (o : BioOSRunOptions) (m : Machine H) (d : D) :
  exists r m' d', BioOSRunner_runOn devices o (m, d) = (Ret r, (m', d')) /\
    one_of (BioOSRunResult_success r) (os_has_error r) (os_hit_step_limit r) /\
    (os_has_error r = false ->
     exists source assembled program syscall_pc timer_pc debug timer m0,
       bio_build o d = (Ret (source, assembled, program), d') /\
       bio_prepare devices assembled program m = (Ret (syscall_pc, timer_pc, debug, timer), m0) /\
       m' = steps (Z.to_nat (opt_max_steps o)) m0 /\ reports o m0 debug timer r).
Proof.
  unfold BioOSRunner_runOn, try_catch. rewrite bind_run. unfold on_disk, zoom at 1. cbn [snd].
  destruct (bio_build o d) as [[[[source assembled] program]|e] d'] eqn:Eb.
  - unfold on_caller, zoom. cbn [fst]. destruct (runPreparedProgram devices o assembled program source m) as [[r|e] m'] eqn:Er.
    + destruct (prepared_run _ _ _ _ _ _ _ _ Er) as (Hone & syscall_pc & timer_pc & debug & timer & m0 & Hp & -> & Hr).
      eexists _, _, _. split; [reflexivity|]. split; [exact Hone|]. intros He.
      exists source, assembled, program, syscall_pc, timer_pc, debug, timer, m0. auto.
    + eexists _, _, _. split; [reflexivity|]. split; [right; left; reflexivity | intros He; discriminate He].
  - eexists _, _, _. split; [reflexivity|]. split; [right; left; reflexivity | intros He; discriminate He].
Qed.

(** ** The system of the repository *)

(** The three files of [examples/bio_os]. *)
Definition bio_os_files : gmap string (list Z) :=
  {["examples\bio_os\boot.zasm" := bytes_of_string (text_of_lines bio_boot_lines);
    "examples\bio_os\kernel.zasm" := bytes_of_string (text_of_lines bio_kernel_lines);
    "examples\bio_os\user_program.zasm" := bytes_of_string (text_of_lines bio_user_program_lines)]}.

(** What is asked of a result: the verdict, the output, the exit code, how often the
    timer interrupted, and whether it is on. *)
Definition bio_summary (r : BioOSRunResult) : bool * string * list Z * Z * Z * bool :=
  (BioOSRunResult_success r, os_debug_ascii r, os_debug_writes r, os_exit_code r, os_timer_interrupt_count r, os_timer_enabled r).

(** The system in [examples/bio_os] boots: the boot code prints, the timer interrupts
    once and turns itself off, the user program prints, and the system exits with 0;
    the binary that is written is a program the reader accepts. *)
Theorem bio_os_boots {LD : LongDouble} {H : Type} {SIH : SoftwareInterruptHandler H} (h : H) :
  exists r files program, BioOSRunner_run h default_bio_options bio_os_files = (Ret r, files) /\
    bio_summary r = (true, "BU", [66; 85], 0, 1, false) /\
    BinaryReader_readFile (os_binary_path r) files = Ret program.
Proof.
  assert (E : match BioOSRunner_run h default_bio_options bio_os_files with
              | (Ret r, files) => Some (bio_summary r, match BinaryReader_readFile (os_binary_path r) files with Ret _ => true | Throw _ => false end)
              | (Throw _, _) => None
              end = Some (true, "BU", [66; 85], 0, 1, false, true)) by (vm_compute; reflexivity).
  destruct (BioOSRunner_run h default_bio_options bio_os_files) as [[r|e] files]; [|discriminate E].
  apply (inj Some), pair_equal_spec in E as [E Hread]. destruct (BinaryReader_readFile (os_binary_path r) files) as [program|e] eqn:Er; [|discriminate Hread].
  exists r, files, program. split; [reflexivity|]. split; [exact E | exact Er].
Qed.
