(* ===== verification/Showcase.v ===== *)
(** * The end-to-end showcase: [src/system/EndToEndShowcase.cpp]

    The whole system in one run: two sources are assembled into executables, which
    run as two processes with ZeroFS behind the system calls and a mock board on the
    bus; one reads and writes a file and exits, the other writes to the board and
    faults.  The runner then checks what the run recorded, writes its trace, and
    compares it with a golden trace.  [ShowcaseLaws] has the theorems.  Paths of the
    host are joined and split as [std::filesystem] does on a POSIX system. *)

From S2P Require Import Prelude Words Strings Text ALU Memory ISA Binary Interrupts Serial Devices CPUState Trace TraceDetail Json CPU CPUExec CPUStep Image Process ProcTable Scheduler Dispatcher Preemption Lifecycle ZeroFS Syscalls Assembler Runner Verifier TraceJson TraceJsonDiff Disk.
Open Scope Z_scope.

(** ** Options and results *)

Record EndToEndShowcaseOptions := {
  so_filesystem_source_path : string;
  so_hardware_source_path : string;
  so_output_directory : string;
  so_golden_trace_path : string;
  so_write_golden : bool;
}.

Definition default_showcase_options : EndToEndShowcaseOptions :=
  {| so_filesystem_source_path := "examples/showcase_fs_worker.zasm"; so_hardware_source_path := "examples/showcase_hardware_fault.zasm";
     so_output_directory := "build/showcase"; so_golden_trace_path := "tests/golden/end_to_end_showcase.json"; so_write_golden := false |}.

Record EndToEndShowcaseResult := {
  sh_runtime : MultiProcessRunResult;
  sh_filesystem_binary_path : string;
  sh_hardware_binary_path : string;
  sh_trace_json_path : string;
  sh_golden_trace_path : string;
  sh_filesystem_before : string;
  sh_filesystem_after : string;
  sh_gpio_output : Z;
  sh_hardware_write_count : Z;
  sh_fault_handoff_step : Z;
  sh_survivor_ran_after_fault : bool;
  sh_observed_filesystem_read : bool;
  sh_observed_filesystem_write : bool;
  sh_observed_hardware_write : bool;
  sh_observed_process_exit : bool;
  sh_invariants_passed : bool;
  sh_golden_verified : bool;
  sh_golden_written : bool;
  sh_survivor_exit_code : Z;
  sh_fault_message : string;
  sh_passed : bool;
  sh_detail : string;
}.

(** Assignments to the fields. *)
Definition show_runtime (runtime : MultiProcessRunResult) (r : EndToEndShowcaseResult) : EndToEndShowcaseResult :=
  {| sh_runtime := runtime; sh_filesystem_binary_path := sh_filesystem_binary_path r; sh_hardware_binary_path :=
     sh_hardware_binary_path r; sh_trace_json_path := sh_trace_json_path r; sh_golden_trace_path :=
     sh_golden_trace_path r; sh_filesystem_before := sh_filesystem_before r; sh_filesystem_after :=
     sh_filesystem_after r; sh_gpio_output := sh_gpio_output r; sh_hardware_write_count :=
     sh_hardware_write_count r; sh_fault_handoff_step := sh_fault_handoff_step r; sh_survivor_ran_after_fault :=
     sh_survivor_ran_after_fault r; sh_observed_filesystem_read := sh_observed_filesystem_read r;
     sh_observed_filesystem_write := sh_observed_filesystem_write r; sh_observed_hardware_write :=
     sh_observed_hardware_write r; sh_observed_process_exit := sh_observed_process_exit r; sh_invariants_passed
     := sh_invariants_passed r; sh_golden_verified := sh_golden_verified r; sh_golden_written :=
     sh_golden_written r; sh_survivor_exit_code := sh_survivor_exit_code r; sh_fault_message := sh_fault_message
     r; sh_passed := sh_passed r; sh_detail := sh_detail r |}.
Definition show_survivor (survivor_exit_code : Z) (fault_message : string) (r : EndToEndShowcaseResult) : EndToEndShowcaseResult :=
  {| sh_runtime := sh_runtime r; sh_filesystem_binary_path := sh_filesystem_binary_path r;
     sh_hardware_binary_path := sh_hardware_binary_path r; sh_trace_json_path := sh_trace_json_path r;
     sh_golden_trace_path := sh_golden_trace_path r; sh_filesystem_before := sh_filesystem_before r;
     sh_filesystem_after := sh_filesystem_after r; sh_gpio_output := sh_gpio_output r; sh_hardware_write_count
     := sh_hardware_write_count r; sh_fault_handoff_step := sh_fault_handoff_step r; sh_survivor_ran_after_fault
     := sh_survivor_ran_after_fault r; sh_observed_filesystem_read := sh_observed_filesystem_read r;
     sh_observed_filesystem_write := sh_observed_filesystem_write r; sh_observed_hardware_write :=
     sh_observed_hardware_write r; sh_observed_process_exit := sh_observed_process_exit r; sh_invariants_passed
     := sh_invariants_passed r; sh_golden_verified := sh_golden_verified r; sh_golden_written :=
     sh_golden_written r; sh_survivor_exit_code := survivor_exit_code; sh_fault_message := fault_message;
     sh_passed := sh_passed r; sh_detail := sh_detail r |}.
Definition show_filesystem_after (filesystem_after : string) (r : EndToEndShowcaseResult) : EndToEndShowcaseResult :=
  {| sh_runtime := sh_runtime r; sh_filesystem_binary_path := sh_filesystem_binary_path r;
     sh_hardware_binary_path := sh_hardware_binary_path r; sh_trace_json_path := sh_trace_json_path r;
     sh_golden_trace_path := sh_golden_trace_path r; sh_filesystem_before := sh_filesystem_before r;
     sh_filesystem_after := filesystem_after; sh_gpio_output := sh_gpio_output r; sh_hardware_write_count :=
     sh_hardware_write_count r; sh_fault_handoff_step := sh_fault_handoff_step r; sh_survivor_ran_after_fault :=
     sh_survivor_ran_after_fault r; sh_observed_filesystem_read := sh_observed_filesystem_read r;
     sh_observed_filesystem_write := sh_observed_filesystem_write r; sh_observed_hardware_write :=
     sh_observed_hardware_write r; sh_observed_process_exit := sh_observed_process_exit r; sh_invariants_passed
     := sh_invariants_passed r; sh_golden_verified := sh_golden_verified r; sh_golden_written :=
     sh_golden_written r; sh_survivor_exit_code := sh_survivor_exit_code r; sh_fault_message := sh_fault_message
     r; sh_passed := sh_passed r; sh_detail := sh_detail r |}.
Definition show_hardware (gpio_output : Z) (hardware_write_count : Z) (r : EndToEndShowcaseResult) : EndToEndShowcaseResult :=
  {| sh_runtime := sh_runtime r; sh_filesystem_binary_path := sh_filesystem_binary_path r;
     sh_hardware_binary_path := sh_hardware_binary_path r; sh_trace_json_path := sh_trace_json_path r;
     sh_golden_trace_path := sh_golden_trace_path r; sh_filesystem_before := sh_filesystem_before r;
     sh_filesystem_after := sh_filesystem_after r; sh_gpio_output := gpio_output; sh_hardware_write_count :=
     hardware_write_count; sh_fault_handoff_step := sh_fault_handoff_step r; sh_survivor_ran_after_fault :=
     sh_survivor_ran_after_fault r; sh_observed_filesystem_read := sh_observed_filesystem_read r;
     sh_observed_filesystem_write := sh_observed_filesystem_write r; sh_observed_hardware_write :=
     sh_observed_hardware_write r; sh_observed_process_exit := sh_observed_process_exit r; sh_invariants_passed
     := sh_invariants_passed r; sh_golden_verified := sh_golden_verified r; sh_golden_written :=
     sh_golden_written r; sh_survivor_exit_code := sh_survivor_exit_code r; sh_fault_message := sh_fault_message
     r; sh_passed := sh_passed r; sh_detail := sh_detail r |}.
Definition show_observed (observed_filesystem_read : bool) (observed_filesystem_write : bool) (observed_hardware_write : bool) (observed_process_exit : bool) (r : EndToEndShowcaseResult) : EndToEndShowcaseResult :=
  {| sh_runtime := sh_runtime r; sh_filesystem_binary_path := sh_filesystem_binary_path r;
     sh_hardware_binary_path := sh_hardware_binary_path r; sh_trace_json_path := sh_trace_json_path r;
     sh_golden_trace_path := sh_golden_trace_path r; sh_filesystem_before := sh_filesystem_before r;
     sh_filesystem_after := sh_filesystem_after r; sh_gpio_output := sh_gpio_output r; sh_hardware_write_count
     := sh_hardware_write_count r; sh_fault_handoff_step := sh_fault_handoff_step r; sh_survivor_ran_after_fault
     := sh_survivor_ran_after_fault r; sh_observed_filesystem_read := observed_filesystem_read;
     sh_observed_filesystem_write := observed_filesystem_write; sh_observed_hardware_write :=
     observed_hardware_write; sh_observed_process_exit := observed_process_exit; sh_invariants_passed :=
     sh_invariants_passed r; sh_golden_verified := sh_golden_verified r; sh_golden_written := sh_golden_written
     r; sh_survivor_exit_code := sh_survivor_exit_code r; sh_fault_message := sh_fault_message r; sh_passed :=
     sh_passed r; sh_detail := sh_detail r |}.
Definition show_timeline (fault_handoff_step : Z) (survivor_ran_after_fault : bool) (r : EndToEndShowcaseResult) : EndToEndShowcaseResult :=
  {| sh_runtime := sh_runtime r; sh_filesystem_binary_path := sh_filesystem_binary_path r;
     sh_hardware_binary_path := sh_hardware_binary_path r; sh_trace_json_path := sh_trace_json_path r;
     sh_golden_trace_path := sh_golden_trace_path r; sh_filesystem_before := sh_filesystem_before r;
     sh_filesystem_after := sh_filesystem_after r; sh_gpio_output := sh_gpio_output r; sh_hardware_write_count
     := sh_hardware_write_count r; sh_fault_handoff_step := fault_handoff_step; sh_survivor_ran_after_fault :=
     survivor_ran_after_fault; sh_observed_filesystem_read := sh_observed_filesystem_read r;
     sh_observed_filesystem_write := sh_observed_filesystem_write r; sh_observed_hardware_write :=
     sh_observed_hardware_write r; sh_observed_process_exit := sh_observed_process_exit r; sh_invariants_passed
     := sh_invariants_passed r; sh_golden_verified := sh_golden_verified r; sh_golden_written :=
     sh_golden_written r; sh_survivor_exit_code := sh_survivor_exit_code r; sh_fault_message := sh_fault_message
     r; sh_passed := sh_passed r; sh_detail := sh_detail r |}.
Definition show_invariants (invariants_passed : bool) (r : EndToEndShowcaseResult) : EndToEndShowcaseResult :=
  {| sh_runtime := sh_runtime r; sh_filesystem_binary_path := sh_filesystem_binary_path r;
     sh_hardware_binary_path := sh_hardware_binary_path r; sh_trace_json_path := sh_trace_json_path r;
     sh_golden_trace_path := sh_golden_trace_path r; sh_filesystem_before := sh_filesystem_before r;
     sh_filesystem_after := sh_filesystem_after r; sh_gpio_output := sh_gpio_output r; sh_hardware_write_count
     := sh_hardware_write_count r; sh_fault_handoff_step := sh_fault_handoff_step r; sh_survivor_ran_after_fault
     := sh_survivor_ran_after_fault r; sh_observed_filesystem_read := sh_observed_filesystem_read r;
     sh_observed_filesystem_write := sh_observed_filesystem_write r; sh_observed_hardware_write :=
     sh_observed_hardware_write r; sh_observed_process_exit := sh_observed_process_exit r; sh_invariants_passed
     := invariants_passed; sh_golden_verified := sh_golden_verified r; sh_golden_written := sh_golden_written r;
     sh_survivor_exit_code := sh_survivor_exit_code r; sh_fault_message := sh_fault_message r; sh_passed :=
     sh_passed r; sh_detail := sh_detail r |}.
Definition show_golden (golden_written : bool) (golden_verified : bool) (r : EndToEndShowcaseResult) : EndToEndShowcaseResult :=
  {| sh_runtime := sh_runtime r; sh_filesystem_binary_path := sh_filesystem_binary_path r;
     sh_hardware_binary_path := sh_hardware_binary_path r; sh_trace_json_path := sh_trace_json_path r;
     sh_golden_trace_path := sh_golden_trace_path r; sh_filesystem_before := sh_filesystem_before r;
     sh_filesystem_after := sh_filesystem_after r; sh_gpio_output := sh_gpio_output r; sh_hardware_write_count
     := sh_hardware_write_count r; sh_fault_handoff_step := sh_fault_handoff_step r; sh_survivor_ran_after_fault
     := sh_survivor_ran_after_fault r; sh_observed_filesystem_read := sh_observed_filesystem_read r;
     sh_observed_filesystem_write := sh_observed_filesystem_write r; sh_observed_hardware_write :=
     sh_observed_hardware_write r; sh_observed_process_exit := sh_observed_process_exit r; sh_invariants_passed
     := sh_invariants_passed r; sh_golden_verified := golden_verified; sh_golden_written := golden_written;
     sh_survivor_exit_code := sh_survivor_exit_code r; sh_fault_message := sh_fault_message r; sh_passed :=
     sh_passed r; sh_detail := sh_detail r |}.
Definition show_verdict (passed : bool) (detail : string) (r : EndToEndShowcaseResult) : EndToEndShowcaseResult :=
  {| sh_runtime := sh_runtime r; sh_filesystem_binary_path := sh_filesystem_binary_path r;
     sh_hardware_binary_path := sh_hardware_binary_path r; sh_trace_json_path := sh_trace_json_path r;
     sh_golden_trace_path := sh_golden_trace_path r; sh_filesystem_before := sh_filesystem_before r;
     sh_filesystem_after := sh_filesystem_after r; sh_gpio_output := sh_gpio_output r; sh_hardware_write_count
     := sh_hardware_write_count r; sh_fault_handoff_step := sh_fault_handoff_step r; sh_survivor_ran_after_fault
     := sh_survivor_ran_after_fault r; sh_observed_filesystem_read := sh_observed_filesystem_read r;
     sh_observed_filesystem_write := sh_observed_filesystem_write r; sh_observed_hardware_write :=
     sh_observed_hardware_write r; sh_observed_process_exit := sh_observed_process_exit r; sh_invariants_passed
     := sh_invariants_passed r; sh_golden_verified := sh_golden_verified r; sh_golden_written :=
     sh_golden_written r; sh_survivor_exit_code := sh_survivor_exit_code r; sh_fault_message := sh_fault_message
     r; sh_passed := passed; sh_detail := detail |}.

Definition new_MultiProcessRunResult : MultiProcessRunResult :=
  {| runtime_state := RS_Ready; step_limit_reached := false; lifecycle_steps := 0; process_count := 0; termination_count := 0;
     fault_count := 0; preemption_count := 0; context_switch_count := 0; execution_trace := []; software_interrupts := [];
     context_switches := []; run_processes := [] |}.

(** ** Helpers *)

Definition kBuffer : Z := 80.
Definition kReadStatus : Z := 88.
Definition kReadCount : Z := 96.
Definition kWriteStatus : Z := 104.
Definition kWriteCount : Z := 112.
Definition kSurvivalMarker : Z := 120.
Definition kHardwareGpioOutputOffset : Z := 0.
Definition kHardwareGpioInputOffset : Z := 8.
Definition kHardwareStatusOffset : Z := 32.

(** [(path(directory) / filename).generic_string()], of a name that is not absolute. *)
Definition directory_child (directory filename : string) : string :=
  if empty directory || bool_decide (last (chars directory) = Some "/"%char) then directory +:+ filename
  else directory +:+ "/" +:+ filename.

(** Without the slashes at the end. *)
Fixpoint drop_slashes (l : list ascii) : list ascii :=
  match l with
  | [] => []
  | c :: l => match drop_slashes l with
              | [] => if decide (c = "/"%char) then [] else [c]
              | l => c :: l
              end
  end.

(** [path(p).parent_path()]: the path without its last name, or itself when it is
    empty or a root. *)
Definition parent_path (path : string) : string :=
  let l := chars path in
  if forallb (fun c => bool_decide (c = "/"%char)) l then path
  else match find_last "/" l with
       | None => EmptyString
       | Some n => match drop_slashes (take n l) with [] => "/" | parent => of_chars parent end
       end.

Definition findInterrupt (result : MultiProcessRunResult) (pid : ProcessId) (service : Z) : option ProcessSoftwareInterruptTraceRecord :=
  snd <$> list_find (fun record => si_pid record = pid /\ service_number (obs_result (si_observation record)) = Some service)
            (software_interrupts result).

(** [text.find(part) != npos] *)
Fixpoint contains (part text : string) : bool :=
  if String.prefix part text then true else match text with EmptyString => false | String _ text => contains part text end.

(** The first fragment the text lacks. *)
Definition missing_fragment (fragments : list string) (json : string) : option string :=
  List.find (fun fragment => negb (contains fragment json)) fragments.

Definition showcase_fragments : list string :=
  [field_name "fault_count" +:+ "1"; field_name "passed" +:+ "true"; field_name "service_number" +:+ "20";
   field_name "service_number" +:+ "31"; field_name "service_number" +:+ "32"; field_name "caused_by_termination" +:+ "true"].

(** ** The run *)

Section showcase.
Context {LD : LongDouble} {D : Type} {HD : HostDisk D}.

Definition assembleToBinary (sourcePath binaryPath : string) : M D unit :=
  d ← get;
  assembled ← lift (Assembler_assembleFile sourcePath d);
  program ← lift (toBinaryProgram assembled);
  BinaryWriter_writeFile binaryPath program.

(** The objects of the run: the board behind its bridge on a bus, and the file
    system behind the dispatcher. *)
Abbreviation ShowcaseHandler := (ProtectedSyscallDispatcher RuntimeService ZeroFS).

Definition showcase_filesystem (before : string) : outcome ZeroFS :=
  let '(r, filesystem) := ZeroFS_putFile "/data/showcase.txt" (bytes_of_string before) new_ZeroFS in _ ← r; mret filesystem.

Definition showcase_world : outcome World :=
  board ← new_MockHardwareBus "mock-hardware";
  let w := {| controllers := ∅; timers := ∅; debug_outputs := ∅; hardware_buses := {[0%nat := MockHardwareBus_connect board]}; serial_buses := ∅; buses := ∅ |} in
  bus ← MMIOBus_mapDevice w kHardwareBase kHardwareSize (Some (HardwareRef 0)) [];
  mret (set_buses {[0%nat := bus]} w).

Definition showcase_run_options : MultiProcessRunOptions :=
  {| opt_timer_vector := 240; opt_quantum := 1; opt_timer_payload := 0; max_lifecycle_steps := 200; opt_normal_exit_code := 0;
     opt_fault_exit_code := -1; opt_mmio_bus := Some 0%nat; opt_has_handler := true |}.

(** From the two executables to the result, the board and the file system. *)
Definition showcase_session (before : string) (paths : list string) (d : D) : outcome (MultiProcessRunResult * MockHardwareBus * ZeroFS) :=
  filesystem ← showcase_filesystem before;
  w ← showcase_world;
  let '(r, (w, h)) := MultiProcessRunner_runFiles (fun path => read_binary_file path d) paths showcase_run_options
                        (w, new_ProtectedSyscallDispatcher filesystem) in
  runtime ← r;
  mret (runtime, hardware_buses w !!! 0%nat, host h).

(** ** The checks

    A check returns the detail of its failure, or nothing; the result keeps what
    was assigned before. *)

Abbreviation Check := (M (D * EndToEndShowcaseResult) (option string)).

Definition on_files {A} (m : M D A) : M (D * EndToEndShowcaseResult) A := zoom fst (fun d '(_, r) => (d, r)) m.
Definition set_result (f : EndToEndShowcaseResult -> EndToEndShowcaseResult) : M (D * EndToEndShowcaseResult) unit :=
  modify (fun '(d, r) => (d, f r)).
Definition runtime_of : M (D * EndToEndShowcaseResult) MultiProcessRunResult := gets (fun '(_, r) => sh_runtime r).

(** [if (bad) return failResult(std::move(result), text);] *)
Definition fails_if (bad : bool) (text : string) : option string := if bad then Some text else None.

Definition and_then (first second : Check) : Check :=
  failure ← first; match failure with Some text => mret (Some text) | None => second end.

Definition check_summary : Check :=
  runtime ← runtime_of;
  mret (fails_if (negb (MultiProcessRunResult_completed runtime) || step_limit_reached runtime || negb (process_count runtime =? 2)
                  || negb (termination_count runtime =? 2) || negb (fault_count runtime =? 1))
          "runtime summary did not show exactly one isolated fault").

Definition check_isolation : Check :=
  runtime ← runtime_of;
  survivor ← lift (MultiProcessRunResult_process runtime 1);
  faulted ← lift (MultiProcessRunResult_process runtime 2);
  _ ← set_result (show_survivor (if rs_has_exit_code survivor then rs_exit_code survivor else 0) (rs_termination_message faulted));
  mret (fails_if (negb (ProcessRunSummary_terminated survivor) || ProcessRunSummary_faulted survivor || negb (rs_has_exit_code survivor)
                  || negb (rs_exit_code survivor =? 0) || negb (ProcessRunSummary_faulted faulted))
          "fault isolation did not preserve PID 1").

Definition check_filesystem (filesystem : ZeroFS) : Check :=
  bytes ← lift (ZeroFS_readFile "/data/showcase.txt" 0 kReadToEnd filesystem);
  let text := string_of_bytes bytes in
  _ ← set_result (show_filesystem_after text);
  mret (fails_if (negb (bool_decide (text = "HELLOHELLO"))) "survivor did not finish ZeroFS read/write").

(** The operands of [||] are evaluated up to the first that is true. *)
Fixpoint guest_words_differ (memory : Memory) (words : list (Z * Z)) : outcome bool :=
  match words with
  | [] => mret false
  | (address, value) :: words =>
      found ← Memory_readI64 memory address Little;
      if negb (found =? value) then mret true else guest_words_differ memory words
  end.

Definition showcase_words : list (Z * Z) :=
  [(kReadStatus, kStatusOk); (kReadCount, 5); (kWriteStatus, kStatusOk); (kWriteCount, 5); (kSurvivalMarker, 99)].

Definition check_guest : Check :=
  runtime ← runtime_of;
  survivor ← lift (MultiProcessRunResult_process runtime 1);
  guest ← lift (Memory_readBytes (rs_final_memory survivor) kBuffer 5);
  differ ← lift (if negb (bool_decide (string_of_bytes guest = "HELLO")) then mret true
                 else guest_words_differ (rs_final_memory survivor) showcase_words);
  mret (fails_if differ "guest buffer/status/survival markers mismatch").

Definition check_hardware (board : MockHardwareBus) : Check :=
  let output := MockHardwareBus_registerValue board kHardwareGpioOutputOffset in
  let writes := Z.of_nat (MockHardwareBus_writeCount board) in
  _ ← set_result (show_hardware output writes);
  mret (fails_if (negb (output =? 42) || negb (writes =? 1)) "protected mock GPIO write was not observed").

Definition check_preemption : Check :=
  runtime ← runtime_of;
  mret (fails_if ((preemption_count runtime =? 0) || (context_switch_count runtime =? 0))
          "timer preemption/context switching was not exercised").

Definition check_syscalls : Check :=
  runtime ← runtime_of;
  let observed pid service := bool_decide (is_Some (findInterrupt runtime pid service)) in
  let fsRead := observed 1 kFilesystemReadSyscall in
  let fsWrite := observed 1 kFilesystemWriteSyscall in
  let hwWrite := observed 2 kHardwareWriteSyscall in
  let fsExit := observed 1 kExitSyscall in
  _ ← set_result (show_observed fsRead fsWrite hwWrite fsExit);
  mret (fails_if (negb fsRead || negb fsWrite || negb hwWrite || negb fsExit) "semantic syscall trace is incomplete").

(** [fsRead->lifecycle_step]: [check_syscalls] has found the record. *)
Definition interrupt_step (runtime : MultiProcessRunResult) (pid : ProcessId) (service : Z) : Z :=
  default 0 (si_lifecycle_step <$> findInterrupt runtime pid service).

Definition handoff_step (runtime : MultiProcessRunResult) : Z :=
  match list_find (fun sw => cs_from_pid sw = 2 /\ cs_to_pid sw = 1 /\ cs_caused_by_termination sw = true) (context_switches runtime) with
  | Some (_, sw) => cs_lifecycle_step sw
  | None => 0
  end.

Definition check_showcase_timeline : Check :=
  runtime ← runtime_of;
  let handoff := handoff_step runtime in
  let ran := existsb (fun event => (et_pid event =? 1) && (et_lifecycle_step event >? handoff)) (execution_trace runtime) in
  _ ← set_result (show_timeline handoff ran);
  mret (fails_if ((handoff =? 0) || negb ran || (interrupt_step runtime 1 kFilesystemReadSyscall >=? handoff)
                  || (interrupt_step runtime 2 kHardwareWriteSyscall >=? handoff)
                  || (interrupt_step runtime 1 kFilesystemWriteSyscall <=? handoff))
          "timeline did not prove pre-fault work and post-fault continuation").

Definition check_invariants : Check :=
  runtime ← runtime_of;
  report ← lift (verify runtime);
  _ ← set_result (show_invariants (MultiProcessInvariantReport_passed report));
  mret (fails_if (negb (MultiProcessInvariantReport_passed report)) "showcase invariant verification failed").

Definition showcase_metadata : MultiProcessTraceJsonMetadata :=
  {| mj_producer := mj_producer default_multi_metadata; mj_producer_version := "v1.9-showcase";
     mj_execution_mode := mj_execution_mode default_multi_metadata |}.

Definition check_json : Check :=
  runtime ← runtime_of;
  json ← lift (MultiProcessTraceJsonWriter_toJson runtime showcase_metadata);
  mret ((fun fragment => "trace JSON missing: " +:+ fragment) <$> missing_fragment showcase_fragments json).

Definition check_golden (write_golden : bool) : Check :=
  '(_, result) ← get;
  let golden := sh_golden_trace_path result in
  let trace := sh_trace_json_path result in
  let write path := on_files (MultiProcessTraceJsonWriter_writeFile path (sh_runtime result) showcase_metadata) in
  _ ← write trace;
  if write_golden then
    _ ← (if negb (empty (parent_path golden)) then on_files (disk_create_directories (parent_path golden)) else mret tt);
    _ ← write golden;
    _ ← set_result (show_golden true true);
    mret None
  else
    '(d, _) ← get;
    present ← lift (disk_exists golden d);
    if negb (present : bool) then mret (Some "showcase golden trace is missing")
    else
      diff ← lift (compare_trace_files golden trace {| df_strict := false |} d);
      _ ← set_result (show_golden (sh_golden_written result) (df_equal diff));
      mret (fails_if (negb (df_equal diff))
              ("showcase golden trace mismatch: " +:+ df_message diff +:+ "; path=" +:+ df_first_path diff
               +:+ "; expected=" +:+ df_expected_value diff +:+ "; actual=" +:+ df_actual_value diff)).

(** The body of the [try]. *)
Definition showcase_body (o : EndToEndShowcaseOptions) : Check :=
  '(_, result) ← get;
  _ ← on_files (disk_create_directories (so_output_directory o));
  _ ← on_files (assembleToBinary (so_filesystem_source_path o) (sh_filesystem_binary_path result));
  _ ← on_files (assembleToBinary (so_hardware_source_path o) (sh_hardware_binary_path result));
  '(d, _) ← get;
  '(runtime, board, filesystem) ←
    lift (showcase_session (sh_filesystem_before result) [sh_filesystem_binary_path result; sh_hardware_binary_path result] d);
  _ ← set_result (show_runtime runtime);
  foldr and_then (check_golden (so_write_golden o))
    [check_summary; check_isolation; check_filesystem filesystem; check_guest; check_hardware board; check_preemption;
     check_syscalls; check_showcase_timeline; check_invariants; check_json].

Definition new_EndToEndShowcaseResult (o : EndToEndShowcaseOptions) : EndToEndShowcaseResult :=
  {| sh_runtime := new_MultiProcessRunResult;
     sh_filesystem_binary_path := directory_child (so_output_directory o) "showcase_fs_worker.zbin";
     sh_hardware_binary_path := directory_child (so_output_directory o) "showcase_hardware_fault.zbin";
     sh_trace_json_path := directory_child (so_output_directory o) "showcase_trace.json";
     sh_golden_trace_path := so_golden_trace_path o; sh_filesystem_before := "HELLO"; sh_filesystem_after := EmptyString;
     sh_gpio_output := 0; sh_hardware_write_count := 0; sh_fault_handoff_step := 0; sh_survivor_ran_after_fault := false;
     sh_observed_filesystem_read := false; sh_observed_filesystem_write := false; sh_observed_hardware_write := false;
     sh_observed_process_exit := false; sh_invariants_passed := false; sh_golden_verified := false; sh_golden_written := false;
     sh_survivor_exit_code := 0; sh_fault_message := EmptyString; sh_passed := false; sh_detail := EmptyString |}.

(** [failResult], for a failed check and for an exception, or the pass. *)
Definition EndToEndShowcaseRunner_run (o : EndToEndShowcaseOptions) : M D EndToEndShowcaseResult := fun d =>
  match showcase_body o (d, new_EndToEndShowcaseResult o) with
  | (Ret None, (d, result)) => (Ret (show_verdict true "protected multi-process showcase passed" result), d)
  | (Ret (Some text), (d, result)) => (Ret (show_verdict false text result), d)
  | (Throw e, (d, result)) => (Ret (show_verdict false ("showcase execution failed: " +:+ what e) result), d)
  end.

End showcase.
