(* ===== verification/DiskLaws.v ===== *)
(** * Executables through files

    What one part of the program writes another reads: the executable made of a
    source file is, for the reader and the loader of processes, the program that was
    assembled.  Stated for any disk that keeps what is written ([KeepingDisk]). *)

From S2P Require Import Prelude Words Strings Text ALU Memory ISA Binary CPUState CPU Image Assembler AssemblerLaws Runner Syscalls TraceJson TraceJsonDiff Disk Showcase ExampleFiles.
Open Scope Z_scope.

Section files.
Context {D : Type} {HD : HostDisk D} {KD : @KeepingDisk D HD}.

(** Writing a program that the format can hold succeeds and stores its bytes. *)
Lemma write_binary_run path program d : program_ok program ->
  exists d', BinaryWriter_writeFile path program d = (Ret tt, d') /\ disk_read path d' = Some (program_bytes program) /\
    forall other, other <> path -> disk_read other d' = disk_read other d.
Proof.
  intros Hok. destruct (kd_truncate path d) as [d1 Ht]. unfold BinaryWriter_writeFile. rewrite bind_run. unfold lift.
  rewrite (writeToBytes_ok program Hok). rewrite bind_run. unfold open_for_writing. rewrite Ht. rewrite bind_run. unfold write_out.
  pose proof (kd_fill path (program_bytes program) d1) as Hf. pose proof (kd_read path (program_bytes program) d d1 Ht) as Hr.
  pose proof (fun other => kd_other path (program_bytes program) d d1 other Ht) as Ho.
  destruct (disk_fill path (program_bytes program) d1) as [ok d']. cbn in Hf, Hr, Ho. subst ok. exists d'. split; [reflexivity | auto].
Qed.

Lemma written_program_reads path program (d : D) : program_ok program -> disk_read path d = Some (program_bytes program) ->
  BinaryReader_readFile path d = Ret program.
Proof.
  intros Hok Hr. unfold BinaryReader_readFile, read_binary_file, open_and_read. rewrite Hr. cbn [mret].
  change (BinaryReader_readFromBytes (program_bytes program) = Ret program). apply readFromBytes_ok, Hok.
Qed.

End files.

(** The executable of a source file.  Assembling a file into another fails without
    touching the disk, for the file, for its text or for the program; or it leaves
    every other file alone and an executable that is read back as the program
    assembled from the source, so that loading it gives the process image of that
    program. *)
Theorem assembled_file_roundtrip {D : Type} {HD : HostDisk D} (KD : @KeepingDisk D HD) (source binary : string) (d : D) :
  match assembleToBinary source binary d with
  | (Ret _, d') =>
      exists p b, Assembler_assembleFile source d = Ret p /\ toBinaryProgram p = Ret b /\ binary_of p b /\
        BinaryReader_readFile binary d' = Ret b /\
        ProcessImageLoader_loadFile binary d' = ProcessImageLoader_loadProgram b binary /\
        forall other, other <> binary -> disk_read other d' = disk_read other d
  | (Throw e, d') =>
      d' = d /\ (Assembler_assembleFile source d = Throw e \/
                 exists p, Assembler_assembleFile source d = Ret p /\ toBinaryProgram p = Throw e)
  end.
Proof.
  unfold assembleToBinary. rewrite bind_run. unfold get. cbv beta iota. rewrite bind_run. unfold lift.
  destruct (Assembler_assembleFile source d) as [p|e] eqn:Ea; [|auto]. rewrite bind_run.
  destruct (toBinaryProgram p) as [b|e] eqn:Eb; [|split; [reflexivity | right; eauto]].
  assert (Hb : binary_of p b).
  { unfold Assembler_assembleFile in Ea. apply bind_ret_inv in Ea as (bytes & _ & Ea). exact (binary_of_assembled _ p b Ea Eb). }
  destruct (write_binary_run binary b d (bo_ok _ _ Hb)) as (d' & -> & Hr & Ho).
  pose proof (written_program_reads binary b d' (bo_ok _ _ Hb) Hr) as Hread. exists p, b. repeat (split; [assumption || reflexivity|]).
  split; [unfold ProcessImageLoader_loadFile; rewrite Hread; reflexivity | exact Ho].
Qed.

(** The first program of the showcase, on a disk whose files are a map. *)
Definition one_source : gmap string (list Z) := {["worker.zasm" := bytes_of_string (text_of_lines showcase_fs_worker_lines)]}.

Lemma assembled_file_roundtrip_witness :
  exists b, BinaryReader_readFile "worker.zbin" (assembleToBinary "worker.zasm" "worker.zbin" one_source).2 = Ret b /\ length (code b) = 408%nat.
Proof.
  assert (E : (assembleToBinary "worker.zasm" "worker.zbin" one_source).1 = Ret tt) by (vm_compute; reflexivity).
  pose proof (assembled_file_roundtrip map_disk_keeps "worker.zasm" "worker.zbin" one_source) as H.
  destruct (assembleToBinary "worker.zasm" "worker.zbin" one_source) as [[u|e] d']; [|discriminate E].
  destruct H as (p & b & Ha & Hb & _ & Hr & _). exists b. split; [exact Hr|].
  assert (Hl : (p ← Assembler_assembleFile "worker.zasm" one_source; b ← toBinaryProgram p; mret (length (code b))) = Ret 408%nat) by (vm_compute; reflexivity).
  rewrite Ha, bind_Ret, Hb, bind_Ret in Hl. injection Hl as Hl. exact Hl.
Defined.
