(* ===== verification/ShowcaseLaws.v ===== *)
(** * The showcase passes, and its trace is the golden one

    The system as a whole, on the files of the repository: the two sources assembled,
    loaded and run reproduce the golden trace byte for byte.  And on any files: what
    the showcase checks last of the recorded run, the invariants, never fails. *)

From S2P Require Import Prelude Words Strings Text ALU Memory ISA Binary Interrupts Serial Devices CPUState Trace TraceDetail Json CPU CPUExec CPUStep CPUProtect CPUFrames CPUShape Image Process ProcTable Scheduler Dispatcher Preemption Lifecycle ZeroFS Syscalls SyscallLaws Assembler Runner Verifier VerifierLaws RunnerLog RunnerLaws RunnerVerified TraceJson TraceJsonDiff JsonGrammar JsonText TraceDocument TraceJsonLaws Disk Showcase ExampleFiles.
Open Scope Z_scope.

(** ** The system calls are a quiet handler

    So the theorems on runs of the multi-process runner hold with them. *)

#[export] Instance dispatcher_is_quiet {S E : Type} {PRS : ProtectedRuntimeService S E} {TS : TrustedService S E} :
  QuietHandler (ProtectedSyscallDispatcher S E).
Proof.
  intros vector bus d s w s'. pose proof (safe_final _ _ _ (d, s, w) (Dispatcher_confined s vector bus) (confined_refl s)) as Hc.
  change (handle vector bus (d, s, w)) with (Dispatcher_handle vector bus (d, s, w)) in s'.
  assert (Hs : confined s s') by (subst s'; destruct (Dispatcher_handle vector bus (d, s, w)) as [o [[d' s''] w']]; exact Hc).
  destruct Hs as [_ _ _ _ (_ & He & _) Hr _ Hm _]. auto.
Qed.

(** ** A written run, in pieces *)

(** The texts after each other. *)
Definition join (pieces : list string) : string := foldr (fun p rest => p +:+ rest) EmptyString pieces.

Lemma join_app ps qs : join (ps ++ qs) = join ps +:+ join qs.
Proof. induction ps as [|p ps IH]; [reflexivity|]. cbn [app join foldr]. rewrite <- append_assoc. f_equal. exact IH. Qed.

Fixpoint pieces_from {A} (item : A -> nat -> bool -> outcome string) (index : nat) (l : list A) : outcome (list string) :=
  match l with
  | [] => mret []
  | x :: l => text ← item x index (negb (bool_decide (l = []))); rest ← pieces_from item (S index) l; mret (text :: rest)
  end.

Lemma pieces_from_join {A} (item : A -> nat -> bool -> outcome string) l : forall index,
  json_items_from item index l = join <$> pieces_from item index l.
Proof.
  induction l as [|x l IH]; intros index; [reflexivity|]. cbn [json_items_from pieces_from]. rewrite IH.
  destruct (item x index _); [|reflexivity]. destruct (pieces_from item (S index) l); reflexivity.
Qed.

Definition record_piece (record : ProcessExecutionTraceRecord) (index : nat) (comma : bool) : outcome string :=
  event ← eventToJson (et_event record) (Z.of_nat index);
  mret (open_element 4
        +:+ sizeField 6 "lifecycle_step" (et_lifecycle_step record) true
        +:+ sizeField 6 "pid" (et_pid record) true
        +:+ nestedJsonField 6 "event" event false
        +:+ close_object 4 comma).

Definition run_pieces (result : MultiProcessRunResult) (metadata : MultiProcessTraceJsonMetadata) : outcome (list string) :=
  report ← verify result;
  records ← pieces_from record_piece 0 (execution_trace result);
  mret (["{" +:+ newline_text
         +:+ stringField 2 "schema" "zero_cpu_multiprocess_trace" true
         +:+ sizeField 2 "schema_version" kMultiSchemaVersion true
         +:+ stringField 2 "producer" (mj_producer metadata) true
         +:+ stringField 2 "producer_version" (mj_producer_version metadata) true
         +:+ stringField 2 "mode" (mj_execution_mode metadata) true
         +:+ stringField 2 "runtime_state" (processRuntimeStateToString (runtime_state result)) true
         +:+ boolField 2 "step_limit_reached" (step_limit_reached result) true
         +:+ sizeField 2 "lifecycle_steps" (lifecycle_steps result) true
         +:+ sizeField 2 "process_count" (process_count result) true
         +:+ sizeField 2 "termination_count" (termination_count result) true
         +:+ sizeField 2 "fault_count" (fault_count result) true
         +:+ sizeField 2 "preemption_count" (preemption_count result) true
         +:+ sizeField 2 "context_switch_count" (context_switch_count result) true
         +:+ appendInvariantReport report
         +:+ sizeField 2 "execution_event_count" (Z.of_nat (length (execution_trace result))) true
         +:+ open_array 2 "execution_trace"]
        ++ records
        ++ [close_array 2 true; appendSoftwareInterrupts result; appendContextSwitches result; appendProcesses result; "}" +:+ newline_text]).

Lemma run_pieces_join result metadata : MultiProcessTraceJsonWriter_toJson result metadata = join <$> run_pieces result metadata.
Proof.
  unfold MultiProcessTraceJsonWriter_toJson, appendExecutionTrace, run_pieces. rewrite pieces_from_join.
  destruct (verify result) as [report|]; [|reflexivity]. rewrite !bind_Ret. change (fun record index comma => _ ) with record_piece.
  destruct (pieces_from record_piece 0 (execution_trace result)) as [records|]; [|reflexivity].
  change (join <$> Ret records) with (Ret (join records)). rewrite !bind_Ret.
  match goal with |- _ = join <$> mret ?l => change (join <$> mret l) with (Ret (join l)) end. f_equal.
  rewrite !join_app. cbn [join foldr]. rewrite <- !append_assoc, ?append_nil. reflexivity.
Qed.

(** Whether a text starts with another, or is made of pieces; the rest. *)
Fixpoint strip (part text : string) : option string :=
  match part with
  | EmptyString => Some text
  | String a part =>
      match text with
      | EmptyString => None
      | String b text => if Ascii.eqb a b then strip part text else None
      end
  end.

Fixpoint strips (pieces : list string) (text : string) : option string :=
  match pieces with
  | [] => Some text
  | p :: pieces => match strip p text with Some text => strips pieces text | None => None end
  end.

Lemma strip_app part : forall text rest, strip part text = Some rest -> text = part +:+ rest.
Proof.
  induction part as [|a part IH]; intros text rest E; [injection E as <-; reflexivity|].
  destruct text as [|b text]; [discriminate|]. cbn in E. destruct (Ascii.eqb_spec a b) as [<-|]; [|discriminate].
  rewrite (IH text rest E). reflexivity.
Qed.

Lemma strips_join pieces : forall text rest, strips pieces text = Some rest -> text = join pieces +:+ rest.
Proof.
  induction pieces as [|p pieces IH]; intros text rest E; [injection E as <-; reflexivity|].
  cbn in E. destruct (strip p text) as [text'|] eqn:Ep; [|discriminate]. rewrite (strip_app _ _ _ Ep), (IH _ _ E).
  cbn [join foldr]. apply append_assoc.
Qed.

(** ** The checks *)

Section checks.
Context {LD : LongDouble} {D : Type} {HD : HostDisk D}.
Abbreviation Files := (D * EndToEndShowcaseResult)%type.

(** What a check leaves alone: the files, the recorded run, the paths, and whether a
    golden trace was written. *)
Record kept (s s' : Files) : Prop := {
  kp_files : s'.1 = s.1;
  kp_runtime : sh_runtime s'.2 = sh_runtime s.2;
  kp_trace : sh_trace_json_path s'.2 = sh_trace_json_path s.2;
  kp_golden : sh_golden_trace_path s'.2 = sh_golden_trace_path s.2;
  kp_written : sh_golden_written s'.2 = sh_golden_written s.2;
}.

Lemma kept_trans s s' s'' : kept s s' -> kept s' s'' -> kept s s''.
Proof. intros [] []. constructor; congruence. Qed.

Definition keeps {A} (m : M Files A) : Prop := forall s, kept s (m s).2.

Lemma keeps_bind {A B} (m : M Files A) (f : A -> M Files B) : keeps m -> (forall a, keeps (f a)) -> keeps (m ≫= f).
Proof.
  intros Hm Hf s. rewrite bind_run. specialize (Hm s). destruct (m s) as [[a|e] s']; [|exact Hm].
  eapply kept_trans; [exact Hm | apply Hf].
Qed.

Lemma keeps_ret {A} (a : A) : keeps (mret a).
Proof. intros s. constructor; reflexivity. Qed.
Lemma keeps_outcome {A} (o : outcome A) : keeps (lift o).
Proof. intros s. constructor; reflexivity. Qed.
Lemma keeps_runtime : keeps runtime_of.
Proof. intros s. constructor; reflexivity. Qed.
Lemma keeps_set f : (forall r, sh_runtime (f r) = sh_runtime r /\ sh_trace_json_path (f r) = sh_trace_json_path r /\
                               sh_golden_trace_path (f r) = sh_golden_trace_path r /\ sh_golden_written (f r) = sh_golden_written r) -> keeps (set_result f).
Proof. intros Hf [d r]. destruct (Hf r) as (H1 & H2 & H3 & H4). constructor; assumption || reflexivity. Qed.

Lemma keeps_and_then (first second : M Files (option string)) : keeps first -> keeps second -> keeps (and_then first second).
Proof. intros H1 H2. apply keeps_bind; [exact H1 | intros [text|]; [apply keeps_ret | exact H2]]. Qed.

Lemma keeps_all (l : list (M Files (option string))) : Forall keeps l -> keeps (foldr and_then (mret None) l).
Proof. induction 1; [apply keeps_ret | apply keeps_and_then; assumption]. Qed.

Lemma and_then_run (first second : M Files (option string)) s :
  and_then first second s =
    match first s with
    | (Ret None, s') => second s'
    | (Ret (Some text), s') => (Ret (Some text), s')
    | (Throw e, s') => (Throw e, s')
    end.
Proof. unfold and_then. rewrite bind_run. destruct (first s) as [[[text|]|e] s']; reflexivity. Qed.

(** The checks up to one that is set apart. *)
Lemma checks_run (l : list (M Files (option string))) last : forall s,
  foldr and_then last l s =
    match foldr and_then (mret None) l s with
    | (Ret None, s') => last s'
    | (Ret (Some text), s') => (Ret (Some text), s')
    | (Throw e, s') => (Throw e, s')
    end.
Proof.
  induction l as [|m l IH]; intros s; [reflexivity|]. cbn [foldr]. rewrite !and_then_run.
  destruct (m s) as [[[text|]|e] s']; [reflexivity | apply IH | reflexivity].
Qed.

(** The checks before the trace is written, without the last two. *)
Definition early_checks (filesystem : ZeroFS) (board : MockHardwareBus) : list (M Files (option string)) :=
  [check_summary; check_isolation; check_filesystem filesystem; check_guest; check_hardware board; check_preemption;
   check_syscalls; check_showcase_timeline].

Ltac keeps_go :=
  repeat first
    [ apply keeps_bind; [|intros ?] | apply keeps_ret | apply keeps_outcome | apply keeps_runtime
    | apply keeps_set; intros ?; repeat split; reflexivity ].

Lemma early_checks_keep filesystem board : Forall keeps (early_checks filesystem board).
Proof. repeat apply Forall_cons_2; try apply Forall_nil_2; keeps_go. Qed.

Lemma check_invariants_keeps : keeps check_invariants.
Proof. unfold check_invariants. keeps_go. Qed.

End checks.

(** ** Any files *)

Section any_files.
Context {LD : LongDouble} {D : Type} {HD : HostDisk D}.
Context (Hbytes : forall path (d : D) bytes, disk_read path d = Some bytes -> byte_list bytes).
Abbreviation Files := (D * EndToEndShowcaseResult)%type.

Definition invariant_failure : string := "showcase invariant verification failed".

(** A run within its limit that the verifier passes. *)
Definition run_verifies (r : MultiProcessRunResult) : Prop :=
  lifecycle_steps r <= 200 /\ exists report, verify r = Ret report /\ MultiProcessInvariantReport_passed report = true.

Lemma session_verifies before paths d r board filesystem :
  showcase_session before paths d = Ret (r, board, filesystem) -> run_verifies r.
Proof using Hbytes.
  unfold showcase_session. intros E. apply bind_ret_inv in E as (fs & _ & E). apply bind_ret_inv in E as (w & _ & E).
  destruct (MultiProcessRunner_runFiles _ _ _ _) as [o [w' h']] eqn:Er. apply bind_ret_inv in E as (r' & -> & E). injection E as <- _ _.
  assert (Hread : forall path bytes, read_binary_file path d = Ret bytes -> byte_list bytes).
  { intros path bytes. unfold read_binary_file, open_and_read. destruct (disk_read path d) eqn:Ed; [|discriminate].
    intros [= <-]. exact (Hbytes _ _ _ Ed). }
  assert (Hmax : 0 <= max_lifecycle_steps showcase_run_options < UINT64_MAX) by (vm_compute; split; [discriminate | reflexivity]).
  destruct (runFiles_verified _ _ _ _ _ _ _ Hread Hmax Er) as [Hs [T1 T2 T3] Hc]. split; [exact Hs|].
  destruct (verify_spec r' ltac:(lia) T2 T3) as (report & Hv & Hspec). exists report. split; [exact Hv|].
  apply bool_decide_eq_true, Hspec, Hc.
Qed.

Definition recorded (s : Files) : Prop := run_verifies (sh_runtime s.2).
Definition other_failure (failure : option string) : Prop := failure <> Some invariant_failure.

Lemma safe_set_result f (I : MultiProcessRunResult -> Prop) : (forall r, sh_runtime (f r) = sh_runtime r) ->
  safe (fun s : Files => I (sh_runtime s.2)) (set_result f) (fun _ => True).
Proof. intros Hf. apply safe_modify. intros [d r] H. cbn. rewrite Hf. exact H. Qed.

Lemma safe_on_files {A} (m : M D A) (I : MultiProcessRunResult -> Prop) : safe (fun s : Files => I (sh_runtime s.2)) (on_files m) (fun _ => True).
Proof. intros [d r] H. unfold on_files, zoom. destruct (m (fst (d, r))) as [[a|e] d']; [split; [exact Logic.I|]|]; exact H. Qed.

Lemma fails_if_other bad text : text <> invariant_failure -> other_failure (fails_if bad text).
Proof. intros Ht. destruct bad; [intros [= E]; exact (Ht E) | discriminate]. Qed.

Lemma safe_runtime : safe recorded runtime_of run_verifies.
Proof. apply safe_gets. intros [d r] H. exact H. Qed.

Lemma safe_any {A} (o : outcome A) (I : Files -> Prop) : safe I (lift o) (fun _ => True).
Proof. apply safe_lift. auto. Qed.

Ltac check_go :=
  unfold recorded;
  repeat first
    [ eapply safe_bind; [solve [ apply safe_runtime | apply safe_any | apply (safe_set_result _ run_verifies); reflexivity
                               | apply (safe_on_files _ run_verifies) | apply safe_get ] |]; intros ? ?
    | apply safe_ret, fails_if_other; discriminate ].

Lemma early_checks_safe filesystem board : Forall (fun m => safe recorded m other_failure) (early_checks filesystem board).
Proof. repeat apply Forall_cons_2; try apply Forall_nil_2; check_go. Qed.

Lemma check_invariants_safe : safe recorded check_invariants other_failure.
Proof.
  eapply safe_bind; [apply safe_runtime|]. intros r (_ & report & Hv & Hp). rewrite Hv.
  eapply safe_bind; [apply (safe_lift _ _ (fun x => x = report)); intros x [= <-]; reflexivity|]. intros x ->.
  eapply safe_bind; [apply (safe_set_result _ run_verifies); reflexivity|]. intros _ _. rewrite Hp. apply safe_ret. discriminate.
Qed.

Lemma check_json_safe : safe recorded check_json other_failure.
Proof.
  eapply safe_bind; [apply safe_runtime|]. intros r _. eapply safe_bind; [apply safe_any|]. intros json _.
  apply safe_ret. destruct (missing_fragment _ _); discriminate.
Qed.

Lemma check_golden_safe write : safe recorded (check_golden write) other_failure.
Proof.
  unfold check_golden. eapply safe_bind; [apply safe_get|]. intros [d result] _. cbv zeta.
  eapply safe_bind; [apply (safe_on_files _ run_verifies)|]. intros _ _. destruct write.
  - eapply (safe_bind _ _ _ (fun _ => True)); [destruct (negb _); [apply (safe_on_files _ run_verifies) | apply safe_ret; exact I]|]. intros _ _.
    eapply safe_bind; [apply (safe_on_files _ run_verifies)|]. intros _ _.
    eapply safe_bind; [apply (safe_set_result _ run_verifies); reflexivity|]. intros _ _. apply safe_ret. discriminate.
  - eapply safe_bind; [apply safe_get|]. intros [d' result'] _. eapply safe_bind; [apply safe_any|]. intros present _.
    destruct (negb present); [apply safe_ret; discriminate|]. eapply safe_bind; [apply safe_any|]. intros diff _.
    eapply safe_bind; [apply (safe_set_result _ run_verifies); reflexivity|]. intros _ _. apply safe_ret, fails_if_other. discriminate.
Qed.

Lemma safe_and_then (first second : M Files (option string)) : safe recorded first other_failure -> safe recorded second other_failure ->
  safe recorded (and_then first second) other_failure.
Proof. intros H1 H2. eapply safe_bind; [exact H1|]. intros [text|] Ht; [apply safe_ret, Ht | exact H2]. Qed.

Lemma checks_safe (l : list (M Files (option string))) last : Forall (fun m => safe recorded m other_failure) l ->
  safe recorded last other_failure -> safe recorded (foldr and_then last l) other_failure.
Proof. intros Hl Hlast. induction Hl; [exact Hlast | apply safe_and_then; assumption]. Qed.

(** Nothing was recorded, or the run verifies. *)
Definition reported (s : Files) : Prop := sh_runtime s.2 = new_MultiProcessRunResult \/ recorded s.

Lemma showcase_body_safe o :
  hoare (fun s => sh_runtime s.2 = new_MultiProcessRunResult) (showcase_body o) (fun v s => other_failure v /\ reported s) (fun _ s => reported s).
Proof using Hbytes.
  set (I0 := fun s : Files => sh_runtime s.2 = new_MultiProcessRunResult).
  assert (Hthrow : forall (e : exn) s, I0 s -> reported s) by (intros e s Hs; left; exact Hs).
  assert (Hfiles : forall A (m : M D A), safe I0 (on_files m) (fun _ => True)).
  { intros A m. apply (safe_on_files m (fun r => r = new_MultiProcessRunResult)). }
  unfold showcase_body. eapply (safe_hoare_bind I0); [apply safe_get | exact Hthrow|]. intros [d result] _.
  do 3 (eapply (safe_hoare_bind I0); [apply Hfiles | exact Hthrow|]; intros _ _).
  eapply (safe_hoare_bind I0); [apply safe_get | exact Hthrow|]. intros [d' result'] _.
  eapply (safe_hoare_bind I0); [apply (safe_lift _ _ (fun x => run_verifies x.1.1)); intros [[r b] f] E; exact (session_verifies _ _ _ _ _ _ E) | exact Hthrow|].
  intros [[r b] f] Hr. cbn in Hr. eapply (hoare_bind _ _ _ (fun _ => recorded)); [intros [d1 r1] _; exact Hr|]. intros _.
  eapply (safe_hoare recorded); [| intros v s Hv Hs; split; [exact Hv | right; exact Hs] | intros e s Hs; right; exact Hs].
  change (safe recorded (foldr and_then (foldr and_then (check_golden (so_write_golden o)) [check_invariants; check_json]) (early_checks f b)) other_failure).
  apply checks_safe; [apply early_checks_safe|]. apply checks_safe; [|apply check_golden_safe].
  repeat apply Forall_cons_2; [apply check_invariants_safe | apply check_json_safe | apply Forall_nil_2].
Qed.

End any_files.

(** (C11) Whatever the sources and the files of the host, the showcase returns a result,
    and the run it records, of two programs it cannot trust, takes at most 200
    lifecycle steps and passes the invariant verifier: the check that the
    invariants hold never fails. *)
Theorem showcase_runs_verify {LD : LongDouble} {D : Type} {HD : HostDisk D} (o : EndToEndShowcaseOptions) (d : D)
    (Hbytes : forall path (d : D) bytes, disk_read path d = Some bytes -> byte_list bytes) :
  exists result d', EndToEndShowcaseRunner_run o d = (Ret result, d') /\
    sh_detail result <> "showcase invariant verification failed" /\
    (sh_runtime result = new_MultiProcessRunResult \/
     lifecycle_steps (sh_runtime result) <= 200 /\
     exists report, verify (sh_runtime result) = Ret report /\ MultiProcessInvariantReport_passed report = true).
Proof.
  pose proof (showcase_body_safe Hbytes o (d, new_EndToEndShowcaseResult o) eq_refl) as H. unfold EndToEndShowcaseRunner_run.
  destruct (showcase_body o (d, new_EndToEndShowcaseResult o)) as [[[text|]|e] [d' result]];
    eexists _, _; (split; [reflexivity|]).
  - destruct H as [Hv Hr]. split; [cbn; intros ->; apply Hv; reflexivity | exact Hr].
  - destruct H as [_ Hr]. split; [discriminate | exact Hr].
  - split; [discriminate | exact H].
Qed.

(** ** Witness *)

(** A disk whose files are texts, so that what is read is bytes. *)
Definition text_disk : HostDisk (gmap string string) :=
  {| disk_read path files := bytes_of_string <$> files !! path;
     disk_truncate path files := Some (<[path := EmptyString]> files);
     disk_fill path bytes files := (true, <[path := string_of_bytes bytes]> files);
     disk_exists path files := mret (bool_decide (is_Some (files !! path)));
     disk_create_directories _ := mret tt |}.

Lemma text_disk_bytes path (d : gmap string string) bytes : @disk_read _ text_disk path d = Some bytes -> byte_list bytes.
Proof. cbn. intros E. apply fmap_Some in E as (text & _ & ->). apply bytes_of_string_bytes. Qed.

(** Both sources are the program that faults. *)
Definition two_faulting_programs : gmap string string :=
  let source := text_of_lines showcase_hardware_fault_lines in
  {["examples/showcase_fs_worker.zasm" := source; "examples/showcase_hardware_fault.zasm" := source]}.

Lemma showcase_runs_verify_witness : exists result d',
  @EndToEndShowcaseRunner_run extended_long_double _ text_disk default_showcase_options two_faulting_programs = (Ret result, d') /\
  sh_detail result <> "showcase invariant verification failed" /\
  fault_count (sh_runtime result) = 2 /\ lifecycle_steps (sh_runtime result) <= 200.
Proof.
  destruct (@showcase_runs_verify extended_long_double _ text_disk default_showcase_options two_faulting_programs text_disk_bytes)
    as (result & d' & E & Hd & Hr).
  assert (Hf : (fault_count ∘ sh_runtime) <$> (@EndToEndShowcaseRunner_run extended_long_double _ text_disk default_showcase_options two_faulting_programs).1 = Ret 2)
    by (vm_compute; reflexivity).
  rewrite E in Hf. injection Hf as Hf. exists result, d'. split; [exact E|]. split; [exact Hd|]. split; [exact Hf|].
  destruct Hr as [Hr|[Hr _]]; [rewrite Hr in Hf; discriminate Hf | exact Hr].
Defined.
