(* ===== verification/ShowcaseRun.v ===== *)
(** * The showcase on the files of the repository, computed

    The two sources of [src/examples], assembled, loaded and run, next to any golden
    trace: every check passes, and the JSON of the recorded run is the golden trace of
    [ExampleFiles].  A text as long as that is never built as a whole: the pieces the
    writer appends are stripped from it one after the other. *)

From S2P Require Import Prelude Words Strings Text ALU Memory ISA Binary Interrupts Serial Devices CPUState Trace CPU CPUExec CPUStep CPUProtect Image Process ProcTable Scheduler Dispatcher Preemption Lifecycle ZeroFS Syscalls SyscallLaws Assembler CPUShape Runner Verifier VerifierLaws RunnerLog RunnerLaws RunnerVerified TraceDetail Json TraceJson TraceJsonDiff JsonGrammar JsonText TraceDocument TraceJsonLaws Disk ExampleFiles Showcase ShowcaseLaws.
Open Scope Z_scope.

(** ** The files of the repository *)

Definition fs_source_path : string := "examples/showcase_fs_worker.zasm".
Definition hardware_source_path : string := "examples/showcase_hardware_fault.zasm".
Definition fs_binary_path : string := "build/showcase/showcase_fs_worker.zbin".
Definition hardware_binary_path : string := "build/showcase/showcase_hardware_fault.zbin".
Definition trace_path : string := "build/showcase/showcase_trace.json".
Definition golden_path : string := "tests/golden/end_to_end_showcase.json".

Definition golden_trace : string := text_of_lines golden_trace_lines.

(** The two sources, and some golden trace. *)
Definition repository_files (golden : list Z) : gmap string (list Z) :=
  <[golden_path := golden]>
    {[fs_source_path := bytes_of_string (text_of_lines showcase_fs_worker_lines);
      hardware_source_path := bytes_of_string (text_of_lines showcase_hardware_fault_lines)]}.

(** The value of a call that returns. *)
Definition returned {A} (otherwise : A) (o : outcome A) : A := match o with Ret a => a | Throw _ => otherwise end.
Definition returns_value {A} (o : outcome A) : bool := match o with Ret _ => true | Throw _ => false end.

Lemma returned_spec {A} (otherwise : A) o : returns_value o = true -> o = Ret (returned otherwise o).
Proof. destruct o; [reflexivity | discriminate]. Qed.

Lemma returned_unit {St} (m : M St unit) s : (m s).1 = Ret tt -> m s = (Ret tt, (m s).2).
Proof. destruct (m s) as [o s']. cbn. intros ->. reflexivity. Qed.

(** A text that is compared with itself at all is found equal. *)
Lemma same_text_compares text options diff : TraceJsonDiff_compareText text text options = Ret diff -> df_equal diff = true.
Proof.
  intros E. destruct (compareText_comparable _ _ _ _ E) as (x' & y' & (x & y & kind & Hx & Hy & _ & _ & Hx' & Hy') & ->).
  rewrite (document_text_functional _ _ _ Hy Hx) in Hy'. rewrite Hx' in Hy'. injection Hy' as <-.
  destruct (document_values _ _ Hx) as [Hw _]. destruct (compared_shrinks options kind _ _ Hw Hx') as [Hw' _].
  rewrite (compareValues_counts x' x' "$" no_differences ltac:(cbn; words)), (proj2 (differences_zero x' x' Hw' Hw') eq_refl).
  reflexivity.
Qed.

#[local] Instance state_fits_decision s : Decision (state_fits s).
Proof.
  refine (cast_if (decide (Forall is_i64 (registers s) /\ Forall is_i64 (memory s) /\ Z.of_nat (length (memory s)) < 2 ^ 63 /\
                           is_i64 (pc s) /\ is_i64 (sp s) /\ is_i64 (flags s))));
    [destruct_and!; constructor; assumption | intros []; auto 10].
Defined.

Section repository.
Context {LD : LongDouble}.
Context (golden : list Z).

Definition files1 : gmap string (list Z) := (assembleToBinary fs_source_path fs_binary_path (repository_files golden)).2.
Definition files2 : gmap string (list Z) := (assembleToBinary hardware_source_path hardware_binary_path files1).2.
Definition session : outcome (MultiProcessRunResult * MockHardwareBus * ZeroFS) :=
  showcase_session "HELLO" [fs_binary_path; hardware_binary_path] files2.
Definition session_value : MultiProcessRunResult * MockHardwareBus * ZeroFS :=
  returned (new_MultiProcessRunResult, inhabitant, ∅) session.
Definition the_run : MultiProcessRunResult := session_value.1.1.
Definition the_board : MockHardwareBus := session_value.1.2.
Definition the_filesystem : ZeroFS := session_value.2.
Definition start_result : EndToEndShowcaseResult := new_EndToEndShowcaseResult default_showcase_options.
Definition checks_before_writing := early_checks (D := gmap string (list Z)) the_filesystem the_board ++ [check_invariants].
Definition run_state := (files2, show_runtime the_run start_result).

Lemma first_assembled : (assembleToBinary fs_source_path fs_binary_path (repository_files golden)).1 = Ret tt.
Proof. vm_compute. reflexivity. Qed.
Lemma second_assembled : (assembleToBinary hardware_source_path hardware_binary_path files1).1 = Ret tt.
Proof. vm_compute. reflexivity. Qed.

Lemma session_returns : session = Ret (the_run, the_board, the_filesystem).
Proof.
  transitivity (Ret session_value); [apply returned_spec; vm_compute; reflexivity|].
  unfold the_run, the_board, the_filesystem. rewrite <- !surjective_pairing. reflexivity.
Qed.

Lemma run_state_fields :
  run_state.1 = files2 /\ sh_runtime run_state.2 = the_run /\ sh_trace_json_path run_state.2 = trace_path /\
  sh_golden_trace_path run_state.2 = golden_path /\ sh_golden_written run_state.2 = false.
Proof. unfold run_state. cbn [fst snd show_runtime sh_runtime sh_trace_json_path sh_golden_trace_path sh_golden_written]. repeat split; reflexivity. Qed.

Lemma checks_keep : Forall keeps checks_before_writing.
Proof. apply Forall_app. split; [apply early_checks_keep | apply Forall_singleton, check_invariants_keeps]. Qed.

Lemma checks_pass : (foldr and_then (mret None) checks_before_writing run_state).1 = Ret None.
Proof. vm_compute. reflexivity. Qed.

Definition golden_pieces : outcome (option string) :=
  pieces ← run_pieces the_run showcase_metadata; mret (strips pieces golden_trace).

Lemma golden_pieces_fit : golden_pieces = Ret (Some EmptyString).
Proof. vm_compute. reflexivity. Qed.

Lemma run_json : MultiProcessTraceJsonWriter_toJson the_run showcase_metadata = Ret golden_trace.
Proof.
  rewrite run_pieces_join. pose proof golden_pieces_fit as H. unfold golden_pieces in H.
  apply bind_ret_inv in H as (pieces & Hp & H). rewrite Hp. injection H as H. apply strips_join in H. rewrite append_nil in H.
  change (Ret (join pieces) = Ret golden_trace). f_equal. symmetry. exact H.
Qed.

Lemma golden_has_fragments : missing_fragment showcase_fragments golden_trace = None.
Proof. vm_compute. reflexivity. Qed.

(** The numbers of the run fit the JSON of its trace. *)
Lemma the_run_fits : run_fits the_run.
Proof.
  constructor; try decided.
  - intros report E. assert (Hv : violations <$> verify the_run = Ret []) by (vm_compute; reflexivity).
    rewrite E in Hv. injection Hv as ->. split; [reflexivity | apply Forall_nil_2].
  - unfold short, record_fits, event_fits. split; decided.
  - unfold short, interrupt_fits, option_fits. split; decided.
  - unfold short, switch_fits. split; decided.
Qed.

Lemma golden_compares : exists diff,
  TraceJsonDiff_compareText golden_trace golden_trace {| df_strict := false |} = Ret diff /\ df_equal diff = true.
Proof.
  destruct (run_text _ _ _ the_run_fits run_json) as (l & Hl & _ & Hd).
  assert (Hcount : process_count the_run = Z.of_nat (length (run_processes the_run))) by (vm_compute; reflexivity).
  assert (Hview : returns_value (l ← run_fields the_run showcase_metadata; architecturalView (json_of l) MultiProcess) = true)
    by (vm_compute; reflexivity).
  rewrite Hl, bind_Ret in Hview. destruct (architecturalView (json_of l) MultiProcess) as [view|] eqn:Ev; [|discriminate].
  assert (Hc : comparable {| df_strict := false |} golden_trace golden_trace view view).
  { exists (json_of l), (json_of l), MultiProcess. split; [exact Hd|]. split; [exact Hd|].
    split; [exact (run_valid _ _ _ _ the_run_fits Hcount Hl)|]. split; [exact (run_valid _ _ _ _ the_run_fits Hcount Hl)|]. split; exact Ev. }
  destruct (comparable_compareText _ _ _ _ _ Hc) as (diff & Hdiff). exists diff. split; [exact Hdiff | exact (same_text_compares _ _ _ Hdiff)].
Qed.

Lemma on_files_run {A} (m : M (gmap string (list Z)) A) d (r : EndToEndShowcaseResult) a d' : m d = (Ret a, d') -> on_files m (d, r) = (Ret a, (d', r)).
Proof. intros E. unfold on_files, zoom. cbn [fst]. rewrite E. reflexivity. Qed.

(** The last two checks, on a state that has the run. *)
Lemma json_passes s : sh_runtime s.2 = the_run -> check_json (D := gmap string (list Z)) s = (Ret None, s).
Proof.
  intros Hr. destruct s as [d result]. cbn in Hr. unfold check_json. rewrite bind_run. unfold runtime_of, gets. cbv beta iota.
  rewrite bind_run, Hr, run_json. unfold lift. cbv beta iota. rewrite golden_has_fragments. reflexivity.
Qed.

Lemma trace_written path (d : gmap string (list Z)) (result : EndToEndShowcaseResult) : sh_runtime result = the_run ->
  on_files (MultiProcessTraceJsonWriter_writeFile path (sh_runtime result) showcase_metadata) (d, result) =
    (Ret tt, (<[path := bytes_of_string golden_trace]> (<[path := []]> d), result)).
Proof.
  intros ->. unfold MultiProcessTraceJsonWriter_writeFile. rewrite run_json. unfold on_files, zoom. cbn [fst].
  unfold write_json. rewrite bind_run. unfold open_for_writing. cbn [disk_truncate map_disk]. cbv beta iota. rewrite bind_run. unfold lift. cbv beta iota.
  rewrite bind_run. unfold write_out. cbn [disk_fill map_disk]. reflexivity.
Qed.

End repository.

(** * The showcase reproduces its golden trace *)

(** With the golden trace of the repository. *)
Lemma golden_passes {LD : LongDouble} (golden := bytes_of_string golden_trace) s :
  s.1 = files2 golden -> sh_runtime s.2 = the_run golden -> sh_trace_json_path s.2 = trace_path -> sh_golden_trace_path s.2 = golden_path ->
  check_golden false s =
    (Ret None, (<[trace_path := golden]> (<[trace_path := []]> s.1), show_golden (sh_golden_written s.2) true s.2)).
Proof.
  intros Hd Hr Ht Hg. destruct s as [d result]. cbn [fst snd] in *. unfold check_golden. rewrite bind_run. unfold get at 1. cbv beta iota zeta.
  rewrite Ht, Hg. rewrite bind_run, (trace_written golden _ _ _ Hr). cbv beta iota. rewrite bind_run. unfold get. cbv beta iota.
  set (d' := <[trace_path := _]> _).
  assert (Hfound : d' !! golden_path = Some golden).
  { subst d'. rewrite !lookup_insert_ne by discriminate. rewrite Hd. generalize golden. intros g. vm_compute. reflexivity. }
  assert (Htrace : d' !! trace_path = Some golden) by apply lookup_insert_eq.
  rewrite bind_run. unfold lift at 1. cbn [disk_exists map_disk]. rewrite Hfound. cbn [mret]. cbv beta iota.
  destruct (golden_compares golden) as (diff & Hdiff & Heq).
  assert (Hfiles : compare_trace_files golden_path trace_path {| df_strict := false |} d' = Ret diff).
  { unfold compare_trace_files, TraceJsonDiff_compareFiles, readFileText, open_and_read. cbn [disk_read map_disk]. rewrite Hfound, Htrace.
    assert (Hs : string_of_bytes golden = golden_trace) by apply string_of_bytes_of_string.
    change (TraceJsonDiff_compareText (string_of_bytes golden) (string_of_bytes golden) {| df_strict := false |} = Ret diff).
    rewrite Hs. exact Hdiff. }
  change (mret (bool_decide (is_Some (Some golden)))) with (Ret true). cbn [negb]. rewrite bind_run, Hfiles. unfold lift. cbv beta iota.
  rewrite bind_run, Heq. reflexivity.
Qed.

(** The body up to its checks, when what comes before them returns. *)
Lemma showcase_body_run {LD : LongDouble} o (d d1 d2 : gmap string (list Z)) r runtime board filesystem :
  assembleToBinary (so_filesystem_source_path o) (sh_filesystem_binary_path r) d = (Ret tt, d1) ->
  assembleToBinary (so_hardware_source_path o) (sh_hardware_binary_path r) d1 = (Ret tt, d2) ->
  showcase_session (sh_filesystem_before r) [sh_filesystem_binary_path r; sh_hardware_binary_path r] d2 = Ret (runtime, board, filesystem) ->
  showcase_body o (d, r) =
    foldr and_then (foldr and_then (check_golden (so_write_golden o)) [check_json]) (early_checks filesystem board ++ [check_invariants])
      (d2, show_runtime runtime r).
Proof.
  intros H1 H2 H3. unfold showcase_body. rewrite bind_run. unfold get at 1. cbv beta iota. rewrite bind_run.
  change (on_files (disk_create_directories (so_output_directory o)) (d, r)) with (Ret tt : outcome unit, (d, r)). cbv beta iota.
  rewrite bind_run, (on_files_run _ _ _ _ _ H1). cbv beta iota. rewrite bind_run, (on_files_run _ _ _ _ _ H2). cbv beta iota.
  rewrite bind_run. unfold get at 1. cbv beta iota. rewrite bind_run. unfold lift at 1. rewrite H3. reflexivity.
Qed.

(** (C10) The showcase as the repository ships it: its two sources, assembled, loaded and
    run as two processes, pass every check, and the trace that is written is the
    golden trace of the repository, byte for byte. *)
Theorem showcase_reproduces_golden_trace {LD : LongDouble} :
  exists result files,
    EndToEndShowcaseRunner_run default_showcase_options (repository_files (bytes_of_string golden_trace)) = (Ret result, files) /\
    sh_passed result = true /\ sh_golden_verified result = true /\ sh_golden_written result = false /\
    files !! trace_path = Some (bytes_of_string golden_trace).
Proof.
  set (golden := bytes_of_string golden_trace). unfold EndToEndShowcaseRunner_run.
  set (r0 := new_EndToEndShowcaseResult default_showcase_options).
  assert (E1 : sh_filesystem_before r0 = "HELLO") by reflexivity.
  assert (E2 : sh_filesystem_binary_path r0 = fs_binary_path) by reflexivity.
  assert (E3 : sh_hardware_binary_path r0 = hardware_binary_path) by reflexivity.
  pose proof (session_returns golden) as Hs. unfold session in Hs. rewrite <- E1, <- E2, <- E3 in Hs.
  pose proof (showcase_body_run default_showcase_options (repository_files golden) (files1 golden) (files2 golden) r0 (the_run golden)
    (the_board golden) (the_filesystem golden) (returned_unit _ _ (first_assembled golden)) (returned_unit _ _ (second_assembled golden)) Hs) as Hbody.
  rewrite Hbody, checks_run. clear Hbody.
  change (early_checks (the_filesystem golden) (the_board golden) ++ [check_invariants]) with (checks_before_writing golden).
  change (files2 golden, show_runtime (the_run golden) r0) with (run_state golden).
  pose proof (keeps_all _ (checks_keep golden) (run_state golden)) as [K1 K2 K3 K4 K5]. pose proof (checks_pass golden) as Hpass.
  destruct (foldr and_then (mret None) (checks_before_writing golden) (run_state golden)) as [v s]. cbn [fst snd] in Hpass, K1, K2, K3, K4, K5. rewrite Hpass.
  destruct (run_state_fields golden) as (R1 & R2 & R3 & R4 & R5). rewrite R1 in K1. rewrite R2 in K2. rewrite R3 in K3. rewrite R4 in K4. rewrite R5 in K5.
  cbn [foldr]. rewrite and_then_run, (json_passes golden s K2). cbv beta iota.
  change (so_write_golden default_showcase_options) with false.
  rewrite (golden_passes s K1 K2 K3 K4). eexists _, _. split; [reflexivity|]. split; [reflexivity|]. split; [reflexivity|].
  split; [exact K5 | apply lookup_insert_eq].
Qed.
