(* ===== verification/CommandLine.v ===== *)
(** * The command line tool: options, and the commands on one program

    [tools/zero_cli.cpp]: the readers of option values, the texts the tool prints,
    and the commands that take one executable or source file: [dump-binary],
    [load-binary], [cpu-load-binary], [run-binary], [assemble], [debug-binary],
    [debug-shell], and running a source file.  [Commands] has the commands on several
    processes and [main].  The self-tests of the tool are not modelled. *)

From stdpp Require Import sorting.
From S2P Require Import Prelude Words Strings Text ALU Memory ISA Binary Interrupts Devices CPUState Trace TraceDetail Json CPU CPUExec CPUStep Image Process ProcTable ZeroFS Syscalls Assembler DebugCondition DebugSymbols DebugSession DebugInspector Console DebugConsole Disk.
Open Scope Z_scope.

(** ** The terminal

    What a command works on: the files of the host, what is left of the standard
    input, what went to the two output streams, and the snapshot files a debugger
    console wrote. *)

Record Terminal (D : Type) := {
  te_disk : D;
  te_input : string;
  te_output : string;
  te_error : string;
  te_snapshots : list (string * string);
}.
Arguments Build_Terminal {D} _ _ _ _ _.
Arguments te_disk {D} _.
Arguments te_input {D} _.
Arguments te_output {D} _.
Arguments te_error {D} _.
Arguments te_snapshots {D} _.

Section terminal.
Context {D : Type}.

(** [std::cout << text] and [std::cerr << text] *)
Definition say (text : string) : M (Terminal D) unit :=
  modify (fun t => Build_Terminal (te_disk t) (te_input t) (te_output t +:+ text) (te_error t) (te_snapshots t)).
Definition complain (text : string) : M (Terminal D) unit :=
  modify (fun t => Build_Terminal (te_disk t) (te_input t) (te_output t) (te_error t +:+ text) (te_snapshots t)).

(** A function that reads files, and one that writes them. *)
Definition reading {A} (f : D -> outcome A) : M (Terminal D) A := t ← get; lift (f (te_disk t)).
Definition writing {A} (m : M D A) : M (Terminal D) A :=
  zoom te_disk (fun d t => Build_Terminal d (te_input t) (te_output t) (te_error t) (te_snapshots t)) m.

(** A body over the terminal and an object of its own. *)
Definition with_object {X A} (x : X) (body : M (Terminal D * X) A) : M (Terminal D) A := fun t =>
  let '(r, (t, _)) := body (t, x) in (r, t).
Definition at_terminal {X A} (m : M (Terminal D) A) : M (Terminal D * X) A := zoom fst (fun t '(_, x) => (t, x)) m.
Definition at_object {X A} (m : M X A) : M (Terminal D * X) A := zoom snd (fun x '(t, _) => (t, x)) m.

(** The body of a loop over a container. *)
Fixpoint for_each {S A} (body : A -> M S unit) (l : list A) : M S unit :=
  match l with [] => mret tt | x :: l => _ ← body x; for_each body l end.

(** The same, with a flag that a body can clear. *)
Fixpoint all_pass {S A} (body : A -> M S bool) (l : list A) : M S bool :=
  match l with [] => mret true | x :: l => passed ← body x; rest ← all_pass body l; mret (passed && rest) end.

End terminal.

(** ** Option values *)

Record MemoryExpectation := { me_address : Z; me_expected : Z }.

Record RunBinaryOptions := {
  watchAddresses : list Z;
  memoryExpectations : list MemoryExpectation;
  enableDebugMMIO : bool;
}.

(** [parsed != text.size()] *)
Definition whole (text : string) (parsed : nat) : bool := Z.of_nat parsed =? Z.of_nat (String.length text).

Definition parseMemoryAddress (text : string) : outcome Z :=
  '(value, parsedLength) ← stoull read_magnitude text;
  _ ← throw_if (negb (whole text parsedLength)) (InvalidArgument ("Invalid memory address: " +:+ text));
  _ ← throw_if (value >? UINT64_MAX) (OutOfRange ("Memory address is too large: " +:+ text));
  mret value.

Definition isCommandOption (text : string) : bool := String.prefix "--" text.

Definition parseExpectedMemoryValue (text : string) : outcome Z :=
  '(value, parsedLength) ← stoll read_magnitude text;
  _ ← throw_if (negb (whole text parsedLength)) (InvalidArgument ("Invalid expected memory value: " +:+ text));
  mret value.

(** [text.find('=')]: the texts before and after, both of them not empty. *)
Definition split_pair (text : string) : option (string * string) :=
  match span (fun ch => negb (bool_decide (ch = "="%char))) text with
  | (first, String _ second) => if empty first || empty second then None else Some (first, second)
  | (_, EmptyString) => None
  end.

Definition parseMemoryExpectation (text : string) : outcome MemoryExpectation :=
  match split_pair text with
  | None => throw (InvalidArgument ("Invalid memory expectation. Expected format: <address>=<value>, got: " +:+ text))
  | Some (first, second) =>
      address ← parseMemoryAddress first;
      expected ← parseExpectedMemoryValue second;
      mret {| me_address := address; me_expected := expected |}
  end.

Definition parseRunProcessesPositiveU64 (text optionName : string) : outcome Z :=
  '(value, parsed) ← stoull read_magnitude text;
  _ ← throw_if (negb (whole text parsed) || (value =? 0)) (InvalidArgument (optionName +:+ " requires a positive integer"));
  mret value.

Definition parseRunProcessesPositiveSize (text optionName : string) : outcome Z :=
  value ← parseRunProcessesPositiveU64 text optionName;
  _ ← throw_if (value >? UINT64_MAX) (OutOfRange (optionName +:+ " exceeds size_t"));
  mret value.

Definition parseDebuggerAddress (text : string) : outcome Z :=
  '(value, parsed) ← stoull read_magnitude text;
  _ ← throw_if (negb (whole text parsed)) (InvalidArgument "Breakpoint address must be an integer");
  _ ← throw_if (value >? UINT64_MAX) (OutOfRange "Breakpoint address exceeds size_t");
  mret value.

(** *** The options of [run-binary]

    Two options take values up to the next option.  [Collecting missing take]: the
    values of such an option are read; [missing] is thrown when there is none, and
    is nothing after the first. *)

Inductive Collecting :=
  | Between
  | Taking (missing : option exn) (take : string -> RunBinaryOptions -> outcome RunBinaryOptions).

Definition take_watch (text : string) (o : RunBinaryOptions) : outcome RunBinaryOptions :=
  address ← parseMemoryAddress text;
  mret {| watchAddresses := watchAddresses o ++ [address]; memoryExpectations := memoryExpectations o; enableDebugMMIO := enableDebugMMIO o |}.
Definition take_expectation (text : string) (o : RunBinaryOptions) : outcome RunBinaryOptions :=
  expectation ← parseMemoryExpectation text;
  mret {| watchAddresses := watchAddresses o; memoryExpectations := memoryExpectations o ++ [expectation]; enableDebugMMIO := enableDebugMMIO o |}.
Definition take_debug_mmio (o : RunBinaryOptions) : RunBinaryOptions :=
  {| watchAddresses := watchAddresses o; memoryExpectations := memoryExpectations o; enableDebugMMIO := true |}.

Definition missing_value (mode : Collecting) : outcome unit :=
  match mode with Taking (Some e) _ => throw e | _ => mret tt end.

Fixpoint run_binary_options (args : list string) (mode : Collecting) (o : RunBinaryOptions) : outcome RunBinaryOptions :=
  match args with
  | [] => _ ← missing_value mode; mret o
  | option :: args =>
      match mode, isCommandOption option with
      | Taking _ take, false => o ← take option o; run_binary_options args (Taking None take) o
      | _, _ =>
          _ ← missing_value mode;
          if String.eqb option "--watch" then
            run_binary_options args (Taking (Some (InvalidArgument "--watch requires at least one memory address")) take_watch) o
          else if String.eqb option "--expect-memory" then
            run_binary_options args
              (Taking (Some (InvalidArgument "--expect-memory requires at least one <address>=<value> pair")) take_expectation) o
          else if String.eqb option "--debug-mmio" then run_binary_options args Between (take_debug_mmio o)
          else throw (InvalidArgument ("Unknown run-binary option: " +:+ option))
      end
  end.

Definition parseRunBinaryOptions (args : list string) : outcome RunBinaryOptions :=
  run_binary_options args Between {| watchAddresses := []; memoryExpectations := []; enableDebugMMIO := false |}.

(** *** Options with a fixed number of values

    The loops of the other commands: an option without values, with one, or with
    two; [missing] is thrown when the arguments end before them.  What is not an
    option of the command goes to [positional]. *)

Inductive OptionHandler (R : Type) :=
  | Flag (set : R -> outcome R)
  | OneValue (missing : string) (set : string -> R -> outcome R)
  | TwoValues (missing : string) (set : string -> string -> R -> outcome R).
Arguments Flag {R} _.
Arguments OneValue {R} _ _.
Arguments TwoValues {R} _ _.

Fixpoint find_option {R} (name : string) (table : list (string * OptionHandler R)) : option (OptionHandler R) :=
  match table with
  | [] => None
  | (option, handler) :: table => if String.eqb name option then Some handler else find_option name table
  end.

Fixpoint parse_options {R} (table : list (string * OptionHandler R)) (positional : string -> R -> outcome R) (args : list string) (r : R)
    : outcome R :=
  match args with
  | [] => mret r
  | argument :: args =>
      match find_option argument table with
      | None => r ← positional argument r; parse_options table positional args r
      | Some (Flag set) => r ← set r; parse_options table positional args r
      | Some (OneValue missing set) =>
          match args with
          | value :: args => r ← set value r; parse_options table positional args r
          | [] => throw (InvalidArgument missing)
          end
      | Some (TwoValues missing set) =>
          match args with
          | first :: second :: args => r ← set first second r; parse_options table positional args r
          | _ => throw (InvalidArgument missing)
          end
      end
  end.

(** ** Texts *)

Definition Memory_dumpRange (m : Memory) (start count : Z) : outcome string :=
  _ ← Memory_checkRange m start count;
  mret ("[" +:+ String.concat ", " (imap (fun i byte => pretty (start + Z.of_nat i) +:+ "=" +:+ pretty byte)
                                     (take (Z.to_nat count) (drop (Z.to_nat start) m))) +:+ "]").

(** [std::hex << std::setw(2) << std::setfill('0')] on a byte. *)
Definition hex_lower_byte (byte : Z) : string :=
  String (hex_char (Z.to_nat (byte / 16))) (String (hex_char (Z.to_nat (byte mod 16))) EmptyString).

Definition encodedOperandTypeToString (type : EncodedOperandType) : string :=
  match type with
  | Enc_None => "None" | Enc_Register => "Register" | Enc_Immediate => "Immediate" | Enc_MemoryAddress => "MemoryAddress"
  | Enc_RegisterIndirectAddress => "RegisterIndirectAddress" | Enc_CodeAddress => "CodeAddress"
  end.

Definition decodedInstructionToString (instruction : DecodedInstruction) : outcome string :=
  opcode ← encodeOpcode (dec_opcode instruction);
  mret ("opcode=0x" +:+ hex_lower_byte opcode
        +:+ " | dst_type=" +:+ encodedOperandTypeToString (dst_type instruction) +:+ " | dst_payload=" +:+ pretty (dst_payload instruction)
        +:+ " | src_type=" +:+ encodedOperandTypeToString (src_type instruction) +:+ " | src_payload=" +:+ pretty (src_payload instruction)).

Definition currentBinaryInstructionText (c : CPU) : string :=
  match (bytes ← Memory_readBytes (memory (state c)) (pc (state c)) kInstructionSize;
         decoded ← decodeInstruction bytes;
         decodedInstructionToString decoded) with
  | Ret text => text
  | Throw ex => "<decode failed: " +:+ what ex +:+ ">"
  end.

Definition kDataViewStart : Z := 96.
Definition kDataViewCount : Z := 16.
Definition kStackViewStart : Z := kDefaultStackBase.
Definition kStackViewCount : Z := 32.
Definition kLoadedMemoryPreviewCount : Z := 96.

(** The order in which an unordered map gives its entries, which C++ leaves open. *)
Class HashOrder := {
  hash_order : LabelTable -> list (string * Z);
  hash_order_entries : forall labels, hash_order labels ≡ₚ map_to_list labels;
}.

Section printing.
Context {D : Type}.

Abbreviation Command := (M (Terminal D)).

(** [std::cout << text << f()], where [f] can throw after the text is out. *)
Definition say_value (text : string) (value : outcome string) : Command unit := _ ← say text; value ← lift value; say value.

Definition nl_if (b : bool) : Command unit := if b then say newline_text else mret tt.

Definition printMemoryViews (c : CPU) : Command unit :=
  let m := memory (state c) in
  _ ← say_value "Memory[96..111]: " (Memory_dumpRange m kDataViewStart kDataViewCount);
  _ ← say (newline_text +:+ "Stack[" +:+ pretty kStackViewStart +:+ ".." +:+ pretty (kStackViewStart + kStackViewCount - 1) +:+ "]: ");
  _ ← say_value EmptyString (Memory_dumpRange m kStackViewStart kStackViewCount);
  say newline_text.

Definition memory_value (c : CPU) (address : Z) : outcome string := value ← Memory_read (memory (state c)) address; mret (pretty value +:+ newline_text).

Definition printWatchedMemory (c : CPU) (addresses : list Z) : Command unit :=
  match addresses with
  | [] => mret tt
  | _ => _ ← say (text_line "Watched Memory:" "");
         for_each (fun address => say_value ("Memory[" +:+ pretty address +:+ "] = ") (memory_value c address)) addresses
  end.

Definition check_memory (c : CPU) (expectation : MemoryExpectation) : Command bool :=
  actual ← lift (Memory_read (memory (state c)) (me_address expectation));
  if actual =? me_expected expectation then
    _ ← say ("[PASS] Memory[" +:+ pretty (me_address expectation) +:+ "] = " +:+ pretty actual +:+ newline_text); mret true
  else
    _ ← say ("[FAIL] Memory[" +:+ pretty (me_address expectation) +:+ "] expected " +:+ pretty (me_expected expectation)
             +:+ " but got " +:+ pretty actual +:+ newline_text);
    mret false.

Definition checkMemoryExpectations (c : CPU) (expectations : list MemoryExpectation) : Command bool :=
  match expectations with
  | [] => mret true
  | _ =>
      _ ← say (text_line "Memory Expectations:" "");
      passed ← all_pass (check_memory c) expectations;
      _ ← say (text_line (if (passed : bool) then "Memory expectations passed." else "Memory expectations failed.") "");
      mret passed
  end.

Definition printFinalCheck (c : CPU) : Command unit :=
  r1 ← lift (RegisterFile_get (registers (state c)) R1);
  r2 ← lift (RegisterFile_get (registers (state c)) R2);
  _ ← say (text_line "Default Final Check (function_call example):" ""
           +:+ text_line "R1 = " (pretty r1) +:+ text_line "R2 = " (pretty r2) +:+ text_line "SP = " (pretty (sp (state c))));
  _ ← say_value "Memory[100] = " (memory_value c 100);
  say_value ("Memory[" +:+ pretty kDefaultStackBase +:+ "] = ") (memory_value c kDefaultStackBase).

Definition printDebugOutputDevice (device : DebugOutputDevice) : Command unit :=
  _ ← say (text_line "Debug MMIO Output Device:" "" +:+ text_line "Write count = " (pretty (Z.of_nat (length (dbg_writes device)))));
  _ ← say (concat_text (fun '(i, value) => "  [" +:+ pretty (Z.of_nat i) +:+ "] " +:+ pretty value +:+ newline_text)
             (imap (fun i value => (i, value)) (dbg_writes device)));
  if empty (dbg_output device) then mret tt else say (text_line "Captured text:" "" +:+ dbg_output device).

Definition printHexBytes (bytes : list Z) : Command unit := say (String.concat " " (hex_lower_byte <$> bytes) +:+ newline_text).

Definition printBinaryHeader (program : BinaryProgram) : Command unit :=
  let h := header program in
  say (text_line "=== Binary Header ===" "" +:+ text_line "Magic: " "ZCPU"
       +:+ text_line "Version: " (pretty (major_version h) +:+ "." +:+ pretty (minor_version h))
       +:+ text_line "Endianness: " (if bool_decide (endianness h = BE_Little) then "Little" else "Big")
       +:+ text_line "Entry Point: " (pretty (entry_point h))
       +:+ text_line "Code Size: " (pretty (code_size h) +:+ " bytes")
       +:+ text_line "Data Base: " (pretty (data_base h))
       +:+ text_line "Data Size: " (pretty (data_size h) +:+ " bytes")
       +:+ text_line "Instruction Count: " (pretty (Z.of_nat (length (code program)) / kInstructionSize))).

Definition printDecodedInstruction (index : nat) (instruction : DecodedInstruction) : Command unit :=
  _ ← say ("[" +:+ pretty (Z.of_nat index) +:+ "] opcode=0x");
  opcode ← lift (encodeOpcode (dec_opcode instruction));
  say (hex_lower_byte opcode
       +:+ " | dst_type=" +:+ encodedOperandTypeToString (dst_type instruction) +:+ " | dst_payload=" +:+ pretty (dst_payload instruction)
       +:+ " | src_type=" +:+ encodedOperandTypeToString (src_type instruction) +:+ " | src_payload=" +:+ pretty (src_payload instruction)
       +:+ newline_text).

(** The code of a program that was read is made of whole instructions. *)
Fixpoint print_decoded (count index : nat) (code : list Z) : Command unit :=
  match count with
  | O => mret tt
  | S count =>
      decoded ← lift (decodeInstruction (take (Z.to_nat kInstructionSize) code));
      _ ← printDecodedInstruction index decoded;
      print_decoded count (S index) (drop (Z.to_nat kInstructionSize) code)
  end.

Definition printDecodedInstructions (code : list Z) : Command unit :=
  _ ← say (text_line "=== Decoded Instructions ===" "");
  print_decoded (Z.to_nat (Z.of_nat (length code) / kInstructionSize)) 0 code.

End printing.

(** ** Commands on one program

    The objects of a command: no device but the ones it makes, and, as the handler
    of software interrupts, the dispatcher over an empty file system, which only the
    commands on several processes attach to a CPU. *)

Abbreviation Handler := (ProtectedSyscallDispatcher RuntimeService ZeroFS).

(** [connect()] of a serial port, on a system other than Windows: it never returns. *)
Definition WindowsSerialTransport_connect {A} : outcome A := throw (RuntimeError "WindowsSerialTransport is available only on Windows").

Definition no_devices : World :=
  {| controllers := ∅; timers := ∅; debug_outputs := ∅; hardware_buses := ∅; serial_buses := ∅; buses := ∅ |}.
Definition new_Handler : Handler := new_ProtectedSyscallDispatcher new_ZeroFS.
Definition new_machine (w : World) : Machine Handler := mkMachine new_CPU w new_Handler.

Section commands.
Context {LD : LongDouble} {D : Type} {HD : HostDisk D}.

Abbreviation Command := (M (Terminal D)).
Abbreviation Bench := (M (Terminal D * Machine Handler)).

Definition machine_cpu : Bench CPU := at_object (gets cpu).
Definition on_bench_cpu {A} (m : M CPU A) : Bench A := at_object (zoom cpu (fun c => set_cpu (fun _ => c)) m).
Definition show {A} (m : CPU -> Command A) : Bench A := c ← machine_cpu; at_terminal (m c).

Definition input_line (inputPath : string) : string := text_line "Input binary file: " inputPath +:+ newline_text.

Definition dumpBinaryFile (inputPath : string) : Command Z :=
  loaded ← reading (BinaryReader_readFile inputPath);
  _ ← say (input_line inputPath);
  _ ← printBinaryHeader loaded;
  _ ← say (newline_text +:+ text_line "=== Code Bytes ===" "");
  _ ← printHexBytes (code loaded);
  _ ← say newline_text;
  _ ← printDecodedInstructions (code loaded);
  _ ← say (newline_text +:+ text_line "Binary dump finished successfully." "");
  mret 0.

Definition loadBinaryFile (inputPath : string) : Command Z :=
  program ← reading (BinaryReader_readFile inputPath);
  let '(image, memory) := BinaryLoader_loadIntoMemory program kDefaultBinaryCodeBase (new_memory kDefaultMemorySize) in
  image ← lift image;
  _ ← say (input_line inputPath);
  _ ← printBinaryHeader program;
  _ ← say (newline_text +:+ text_line "=== Loaded Binary Image ===" ""
           +:+ text_line "Code Base: " (pretty (img_code_base image))
           +:+ text_line "Entry Point: " (pretty (img_entry_point image))
           +:+ text_line "Code Size: " (pretty (img_code_size image) +:+ " bytes") +:+ newline_text);
  let previewCount := Z.min (img_code_size image) kLoadedMemoryPreviewCount in
  _ ← say (text_line "=== Memory Preview ===" "");
  _ ← say_value ("Memory[0.." +:+ pretty (if previewCount =? 0 then 0 else previewCount - 1) +:+ "]: ")
        (Memory_dumpRange memory 0 previewCount);
  _ ← say (newline_text +:+ newline_text);
  _ ← printDecodedInstructions (code program);
  _ ← say (newline_text +:+ text_line "Binary load test finished successfully." "");
  mret 0.

Definition cpuLoadBinaryFile (inputPath : string) : Command Z :=
  program ← reading (BinaryReader_readFile inputPath);
  let '(loaded, c) := loadBinaryProgram program new_CPU in
  _ ← lift loaded;
  _ ← say (input_line inputPath);
  _ ← printBinaryHeader program;
  _ ← say (newline_text +:+ text_line "=== CPU Binary Load State ===" ""
           +:+ text_line "Has Binary Program: " (boolToString (has_binary_program c))
           +:+ text_line "Code Base: " (pretty (binary_code_base c))
           +:+ text_line "Entry Point: " (pretty (binary_entry_point c))
           +:+ text_line "Code Size: " (pretty (binary_code_size c) +:+ " bytes")
           +:+ text_line "Current PC: " (pretty (pc (state c))) +:+ newline_text
           +:+ text_line "=== CPU State ===" "");
  _ ← say_value EmptyString (CPUState_summary (state c));
  let previewCount := Z.min (binary_code_size c) kLoadedMemoryPreviewCount in
  let base := binary_code_base c in
  _ ← say (text_line "=== CPU Memory Preview ===" "");
  _ ← say_value ("Memory[" +:+ pretty base +:+ ".." +:+ pretty (if previewCount =? 0 then base else u64 (base + previewCount - 1)) +:+ "]: ")
        (Memory_dumpRange (memory (state c)) base previewCount);
  _ ← say (newline_text +:+ newline_text);
  _ ← printDecodedInstructions (code program);
  _ ← say (newline_text +:+ text_line "CPU binary load test finished successfully." "");
  mret 0.

(** *** [run-binary] *)

(** The CPU's bus with a debug output, when it is asked for. *)
Definition debug_mmio_world : outcome World :=
  let w := set_debug_outputs {[0%nat := DebugOutputDevice_clear]} no_devices in
  bus ← MMIOBus_mapDevice w kDebugOutputBase kDebugOutputSize (Some (DebugOutputRef 0)) [];
  mret (set_buses {[0%nat := bus]} w).

Definition run_binary_machine (options : RunBinaryOptions) : outcome (Machine Handler) :=
  if enableDebugMMIO options then
    w ← debug_mmio_world;
    mret (set_cpu (set_mmio_bus (Some 0%nat)) (new_machine w))
  else mret (new_machine no_devices).

Definition expectation_text (e : MemoryExpectation) : string := " " +:+ pretty (me_address e) +:+ "=" +:+ pretty (me_expected e).

Definition has_options (options : RunBinaryOptions) : bool :=
  negb (bool_decide (watchAddresses options = [])) || negb (bool_decide (length (memoryExpectations options) = 0%nat)) || enableDebugMMIO options.

Definition run_binary_settings (options : RunBinaryOptions) : string :=
  (if bool_decide (watchAddresses options = []) then EmptyString
   else "Memory Watch Addresses:" +:+ concat_text (fun address => " " +:+ pretty address) (watchAddresses options) +:+ newline_text)
  +:+ (match memoryExpectations options with
       | [] => EmptyString
       | expectations => "Memory Expectations:" +:+ concat_text expectation_text expectations +:+ newline_text
       end)
  +:+ (if enableDebugMMIO options then text_line "Debug MMIO: enabled at 0xF000..0xF00F" "" else EmptyString)
  +:+ (if has_options options then newline_text else EmptyString).

(** Watched memory, expectations and the device: in every report of a run. *)
Definition run_binary_details (options : RunBinaryOptions) : Bench bool :=
  _ ← show (fun c => printWatchedMemory c (watchAddresses options));
  _ ← at_terminal (nl_if (negb (bool_decide (watchAddresses options = []))));
  passed ← show (fun c => checkMemoryExpectations c (memoryExpectations options));
  _ ← at_terminal (nl_if (negb (bool_decide (length (memoryExpectations options) = 0%nat))));
  w ← at_object (gets world);
  _ ← at_terminal (if enableDebugMMIO options then _ ← printDebugOutputDevice (debug_outputs w !!! 0%nat); say newline_text else mret tt);
  _ ← show printFinalCheck;
  mret passed.

Definition run_binary_stopped (options : RunBinaryOptions) (text : string) : Bench (option Z) :=
  _ ← at_terminal (say text);
  _ ← run_binary_details options;
  mret (Some 1).

(** [while (!halted)], with the steps left before [stepCount > 1000]: the exit code
    when the loop returns. *)
Fixpoint run_binary_loop (remaining : nat) (options : RunBinaryOptions) (stepCount : Z) : Bench (option Z) :=
  match remaining with
  | O => run_binary_stopped options (text_line "Step limit reached in binary execution." "" +:+ newline_text)
  | S remaining =>
      c ← machine_cpu;
      if halted (state c) then mret None
      else
        _ ← at_terminal (say ("Step " +:+ pretty stepCount +:+ " | PC=" +:+ pretty (pc (state c)) +:+ " | "
                              +:+ currentBinaryInstructionText c +:+ newline_text));
        _ ← at_object CPU_step;
        _ ← show (fun c => say_value EmptyString (CPUState_summary (state c)));
        _ ← at_terminal (say newline_text);
        c ← machine_cpu;
        if has_error (state c) then
          run_binary_stopped options (text_line "Execution failed: " (error_message (state c)) +:+ newline_text)
        else run_binary_loop remaining options (stepCount + 1)
  end.

Definition run_binary_finish (options : RunBinaryOptions) : Bench Z :=
  _ ← at_terminal (say (text_line "=== Binary Final CPU State ===" ""));
  _ ← show (fun c => _ ← say_value EmptyString (CPUState_summary (state c)); printMemoryViews c);
  _ ← at_terminal (say newline_text);
  passed ← run_binary_details options;
  _ ← at_terminal (say newline_text);
  if (passed : bool) then _ ← at_terminal (say (text_line "Binary execution finished successfully." "")); mret 0
  else _ ← at_terminal (say (text_line "Binary execution finished, but memory expectations failed." "")); mret 1.

Definition runBinaryFile (inputPath : string) (options : RunBinaryOptions) : Command Z :=
  program ← reading (BinaryReader_readFile inputPath);
  m ← lift (run_binary_machine options);
  with_object m (
    _ ← on_bench_cpu (loadBinaryProgram program);
    _ ← at_terminal (say (input_line inputPath));
    _ ← at_terminal (printBinaryHeader program);
    _ ← at_terminal (say (newline_text +:+ run_binary_settings options +:+ text_line "=== Binary Execution ===" ""));
    code ← run_binary_loop 1001 options 0;
    match code with Some code => mret code | None => run_binary_finish options end).

(** *** [assemble] *)

Definition same_program (a b : BinaryProgram) : bool :=
  let x := header a in let y := header b in
  (major_version x =? major_version y) && (minor_version x =? minor_version y) && bool_decide (endianness x = endianness y)
  && (entry_point x =? entry_point y) && (code_size x =? code_size y) && (data_base x =? data_base y) && (data_size x =? data_size y)
  && bool_decide (code a = code b) && bool_decide (data a = data b).

(** A text file that can be opened. *)
Definition text_of_file (path : string) (d : D) : option string := string_of_bytes <$> disk_read path d.

(** [DebugSymbols::writeFile]: what [writeFile] of the model leaves in the file. *)
Definition DebugSymbols_writeTo (path : string) (symbols : DebugSymbols) : M D unit :=
  _ ← open_for_writing path (RuntimeError ("Cannot write debug symbols file: " +:+ path));
  ok ← write_out path (bytes_of_string (DebugSymbols_writeFile symbols));
  throw_if (negb ok) (RuntimeError ("Failed while writing debug symbols file: " +:+ path)).

Definition assembled_report (inputPath outputPath symbolsPath : string) (assembled : AssembledProgram) (symbols : DebugSymbols)
    (verified : BinaryProgram) : string :=
  let h := header verified in
  text_line "Assemble completed successfully." "" +:+ text_line "Input: " inputPath +:+ text_line "Output: " outputPath
  +:+ text_line "Debug symbols: " (symbolsPath +:+ " (" +:+ pretty (Z.of_nat (DebugSymbols_size symbols)) +:+ ")")
  +:+ text_line "Format: " (pretty (major_version h) +:+ "." +:+ pretty (minor_version h))
  +:+ text_line "Instruction count: " (pretty (Z.of_nat (length (instructions assembled))))
  +:+ text_line "Entry label: " (if has_explicit_entry assembled then entry_label assembled else "<default:first-instruction>")
  +:+ text_line "Entry instruction: " (pretty (resolvedEntryInstruction assembled))
  +:+ text_line "Entry point: " (pretty (entry_point h))
  +:+ text_line "Code size: " (pretty (code_size h) +:+ " bytes")
  +:+ text_line "Data base: " (pretty (data_base h))
  +:+ text_line "Data size: " (pretty (data_size h) +:+ " bytes").

Definition assemble_command (inputPath outputPath : string) : Command Z :=
  assembled ← reading (Assembler_assembleFile inputPath);
  program ← lift (toBinaryProgram assembled);
  _ ← writing (BinaryWriter_writeFile outputPath program);
  verified ← reading (BinaryReader_readFile outputPath);
  _ ← throw_if (negb (same_program verified program)) (RuntimeError "Written executable failed read-back verification");
  symbols ← lift (DebugSymbols_fromAssembledProgram assembled kBinaryCodeBase EmptyString);
  let symbolsPath := debugSymbolsPathForExecutable outputPath in
  _ ← writing (DebugSymbols_writeTo symbolsPath symbols);
  verifiedSymbols ← reading (fun d => DebugSymbols_readFile symbolsPath (text_of_file symbolsPath d));
  _ ← throw_if (negb (DebugSymbols_eqb verifiedSymbols symbols)) (RuntimeError "Written debug symbols failed read-back verification");
  _ ← say (assembled_report inputPath outputPath symbolsPath assembled symbols verified);
  mret 0.

(** *** A source file *)

Context {HO : HashOrder}.

Definition labels_at (labels : LabelTable) (index : nat) : string :=
  concat_text (fun '(name, i) => if i =? Z.of_nat index then name +:+ text_line ":" "" else EmptyString) (hash_order labels).

Fixpoint print_instructions (index : nat) (labels : LabelTable) (program : list Instruction) : Command unit :=
  match program with
  | [] => mret tt
  | instruction :: program =>
      _ ← say_value (labels_at labels index +:+ "[" +:+ pretty (Z.of_nat index) +:+ "] ") (Instruction_toString instruction);
      _ ← say newline_text;
      print_instructions (S index) labels program
  end.

Definition printProgram (program : list Instruction) (labels : LabelTable) : Command unit :=
  _ ← say (text_line "=== Zero-CPU Program ===" "");
  _ ← print_instructions 0 labels program;
  say newline_text.

Definition show_trace (c : CPU) : Command unit :=
  if bool_decide (trace_logger c = []) then mret tt else _ ← say_value EmptyString (last_trace_text c); say newline_text.

Definition show_state (c : CPU) : Command unit :=
  _ ← say_value EmptyString (CPUState_summary (state c)); _ ← printMemoryViews c; say newline_text.

(** With the steps left before [stepCount > 100]. *)
Fixpoint step_by_step (remaining : nat) (stepCount : Z) : Bench unit :=
  match remaining with
  | O => at_terminal (say (text_line "Step limit reached in CLI test." ""))
  | S remaining =>
      c ← machine_cpu;
      if halted (state c) then mret tt
      else
        match program c !! Z.to_nat (pc (state c)) with
        | None => at_terminal (say (text_line "PC out of program range." ""))
        | Some instruction =>
            _ ← at_terminal (say_value ("Step " +:+ pretty stepCount +:+ " | PC=" +:+ pretty (pc (state c)) +:+ " | ")
                               (Instruction_toString instruction));
            _ ← at_terminal (say newline_text);
            _ ← at_object CPU_step;
            _ ← show show_trace;
            _ ← at_terminal (say (text_line "Current State:" ""));
            _ ← show show_state;
            step_by_step remaining (stepCount + 1)
        end
  end.

Definition runStepByStep : Bench unit :=
  _ ← at_terminal (say (text_line "=== Step Execution With Trace ===" ""));
  step_by_step 101 0.

Definition trace_line (event : TraceEvent) : outcome string :=
  a ← TraceEvent_analyze event; text ← toCompactString event a; mret (text +:+ newline_text).

Definition TraceLogger_compactString (events : TraceLogger) : outcome string := lines ← mapM trace_line events; mret (String.concat EmptyString lines).

Definition runAssemblyProgram (inputPath : string) : Command Z :=
  assembled ← reading (Assembler_assembleFile inputPath);
  with_object (new_machine no_devices) (
    _ ← at_object (assign (loadProgram (instructions assembled) (ap_labels assembled)));
    _ ← at_object (on_state (setPc (resolvedEntryInstruction assembled)));
    _ ← at_terminal (say (text_line "Input file: " inputPath +:+ newline_text));
    _ ← show (fun c => printProgram (program c) (labels c));
    _ ← at_terminal (say (text_line "=== Initial CPU State ===" ""));
    _ ← show show_state;
    _ ← runStepByStep;
    _ ← at_terminal (say (text_line "=== Final CPU State ===" ""));
    _ ← show show_state;
    c ← machine_cpu;
    if has_error (state c) then _ ← at_terminal (say (text_line "Execution failed: " (error_message (state c)))); mret 1
    else
      _ ← at_terminal (say (text_line "=== Compact Trace Log ===" ""));
      _ ← at_terminal (say_value EmptyString (TraceLogger_compactString (trace_logger c)));
      _ ← at_terminal (say newline_text);
      _ ← at_terminal (printFinalCheck c);
      _ ← at_terminal (say (newline_text +:+ text_line "Execution finished successfully." ""));
      mret 0).

(** *** [debug-binary] *)

Record DebugMemoryRequest := { mr_address : Z; mr_count : Z }.
Record DebugDisassemblyRequest := { dr_address : Z; dr_instruction_count : Z }.

Record DebugBinaryOptions := {
  db_max_steps : Z;
  db_step : option Z;
  db_show_registers : bool;
  db_breakpoints : list Z;
  db_memory : list DebugMemoryRequest;
  db_disassembly : list DebugDisassemblyRequest;
}.

Definition cli_default_steps : Z := 100000.

Definition default_debug_binary_options : DebugBinaryOptions :=
  {| db_max_steps := cli_default_steps; db_step := None; db_show_registers := false; db_breakpoints := []; db_memory := [];
     db_disassembly := [] |}.

Definition debug_binary_table : list (string * OptionHandler DebugBinaryOptions) :=
  [("--break", OneValue "--break requires an address" (fun text o =>
      address ← parseDebuggerAddress text;
      mret (Build_DebugBinaryOptions (db_max_steps o) (db_step o) (db_show_registers o) (db_breakpoints o ++ [address]) (db_memory o) (db_disassembly o))));
   ("--max-steps", OneValue "--max-steps requires a value" (fun text o =>
      value ← parseRunProcessesPositiveSize text "--max-steps";
      mret (Build_DebugBinaryOptions value (db_step o) (db_show_registers o) (db_breakpoints o) (db_memory o) (db_disassembly o))));
   ("--step", OneValue "--step requires a count" (fun text o =>
      value ← parseRunProcessesPositiveSize text "--step";
      mret (Build_DebugBinaryOptions (db_max_steps o) (Some value) (db_show_registers o) (db_breakpoints o) (db_memory o) (db_disassembly o))));
   ("--registers", Flag (fun o =>
      mret (Build_DebugBinaryOptions (db_max_steps o) (db_step o) true (db_breakpoints o) (db_memory o) (db_disassembly o))));
   ("--memory", TwoValues "--memory requires an address and byte count" (fun first second o =>
      address ← parseDebuggerAddress first;
      count ← parseRunProcessesPositiveSize second "--memory";
      mret (Build_DebugBinaryOptions (db_max_steps o) (db_step o) (db_show_registers o) (db_breakpoints o)
              (db_memory o ++ [{| mr_address := address; mr_count := count |}]) (db_disassembly o))));
   ("--disassemble", TwoValues "--disassemble requires an address and instruction count" (fun first second o =>
      address ← parseDebuggerAddress first;
      count ← parseRunProcessesPositiveSize second "--disassemble";
      mret (Build_DebugBinaryOptions (db_max_steps o) (db_step o) (db_show_registers o) (db_breakpoints o) (db_memory o)
              (db_disassembly o ++ [{| dr_address := address; dr_instruction_count := count |}]))))].

(** Every argument is an option. *)
Definition no_positional {R} (command argument : string) (_ : R) : outcome R :=
  throw (InvalidArgument ("Unknown " +:+ command +:+ " option: " +:+ argument)).

Abbreviation Session := (DebugSession Handler).
Abbreviation DebugBench := (M (Terminal D * Session)).

(** [DebugSession session(inputPath)] *)
Definition open_session (inputPath : string) : DebugBench unit :=
  d ← at_terminal (gets te_disk);
  at_object (DebugSession_loadFile (fun path => read_binary_file path d) (fun path => text_of_file path d) inputPath).

Definition show_session {A} (m : Session -> Command A) : DebugBench A := s ← at_object get; at_terminal (m s).

(** [for (stepIndex < stepCount) { stop = step(); if (not complete) break; }] *)
Fixpoint debug_steps (count : nat) (stop : DebugStop) : M Session DebugStop :=
  match count with
  | O => mret stop
  | S count =>
      stop ← DebugSession_step;
      if bool_decide (stop_reason stop = Stop_StepComplete) then debug_steps count stop else mret stop
  end.

Definition debug_header (s : Session) (breakpoints : list Z) : string :=
  let md := ds_metadata s in
  text_line "=== Zero-CPU Debug Session ===" ""
  +:+ text_line "Executable: " (ds_source_name s)
  +:+ text_line "Code range: [" (pretty (md_code_base md) +:+ ", " +:+ pretty (md_code_end_exclusive md) +:+ ")")
  +:+ text_line "Entry point: " (pretty (md_entry_point md))
  +:+ (match breakpoints with
       | [] => text_line "Breakpoints: <none>" ""
       | _ => "Breakpoints:" +:+ concat_text (fun address => " " +:+ pretty address) (merge_sort Z.le (elements (ds_breakpoints s))) +:+ newline_text
       end).

Definition debug_stop_text (stop : DebugStop) : string :=
  text_line "Stop reason: " (debugStopReasonToString (stop_reason stop)) +:+ text_line "PC: " (pretty (stop_pc stop))
  +:+ text_line "Executed steps: " (pretty (stop_executed_steps stop)) +:+ text_line "Total steps: " (pretty (stop_total_steps stop))
  +:+ message_text (stop_message stop).

(** A title, and a text that an inspector makes. *)
Definition inspected (title : string) (text : outcome string) : Command unit :=
  _ ← say (newline_text +:+ text_line title ""); _ ← say_value EmptyString text; say newline_text.

Definition debug_binary_report (o : DebugBinaryOptions) (s : Session) : Command unit :=
  _ ← (if db_show_registers o then inspected "=== Registers ===" (formatRegisters <$> inspectRegisters s) else mret tt);
  _ ← for_each (fun r => inspected "=== Memory Inspection ===" (formatMemory <$> inspectMemory s (mr_address r) (mr_count r))) (db_memory o);
  _ ← for_each (fun r => inspected "=== Disassembly ===" (formatDisassembly <$> disassemble s (dr_address r) (dr_instruction_count r)))
        (db_disassembly o);
  if bool_decide (trace_logger (session_cpu s) = []) then mret tt else inspected "Last trace:" (last_trace_text (session_cpu s)).

Definition debug_exit_code (reason : DebugStopReason) : Z :=
  match reason with
  | Stop_Breakpoint | Stop_ProgramEnd | Stop_Halted | Stop_StepComplete => 0
  | Stop_Fault => 2
  | Stop_StepLimit => 3
  | Stop_Ready => 1
  | Stop_ConditionalBreakpoint | Stop_Watchpoint => 1
  end.

Definition debugBinaryCommand (inputPath : string) (args : list string) : Command Z :=
  o ← lift (parse_options debug_binary_table (no_positional "debug-binary") args default_debug_binary_options);
  with_object (new_DebugSession no_devices new_Handler) (
    _ ← open_session inputPath;
    _ ← at_object (for_each (fun address => _ ← addBreakpoint address; mret tt) (db_breakpoints o));
    _ ← show_session (fun s => say (debug_header s (db_breakpoints o)));
    stop ← at_object (
      match db_step o with
      | Some count => stop ← DebugSession_lastStop; debug_steps (Z.to_nat count) stop
      | None => DebugSession_continueExecution (db_max_steps o)
      end);
    _ ← at_terminal (say (debug_stop_text stop +:+ newline_text));
    _ ← show_session (fun s => _ ← say_value EmptyString (CPUState_summary (state (session_cpu s))); debug_binary_report o s);
    mret (debug_exit_code (stop_reason stop))).

(** *** [debug-shell] *)

Context {HF : HostFiles}.

Record DebugShellOptions := { dsh_max_steps : Z; dsh_commands : option string }.

(** [--commands], which may be given once. *)
Definition take_commands (path : string) (known : option string) : outcome (option string) :=
  _ ← throw_if (bool_decide (is_Some known)) (InvalidArgument "--commands may be specified only once");
  mret (Some path).

Definition debug_shell_table : list (string * OptionHandler DebugShellOptions) :=
  [("--commands", OneValue "--commands requires a file path" (fun path o =>
      commands ← take_commands path (dsh_commands o);
      mret {| dsh_max_steps := dsh_max_steps o; dsh_commands := commands |}));
   ("--max-steps", OneValue "--max-steps requires a value" (fun text o =>
      value ← parseRunProcessesPositiveSize text "--max-steps";
      mret {| dsh_max_steps := value; dsh_commands := dsh_commands o |}))].

(** A console is made and run over the input of the terminal, or over a file of
    commands; its output goes to the terminal.  The input that is left stays when it
    is the terminal's. *)
Definition run_on_console {S} (commands : option string) (make : S -> string -> outcome (Console S)) (run : M (Console S) DebugConsoleRunResult)
    : M (Terminal D * S) bool := fun '(t, s) =>
  match make s (default (te_input t) commands) with
  | Throw e => (Throw e, (t, s))
  | Ret console =>
      let '(r, c) := run console in
      (match r with Ret result => Ret (DebugConsoleRunResult_success result) | Throw e => Throw e end,
       (Build_Terminal (te_disk t) (match commands with Some _ => te_input t | None => co_input c end) (te_output t +:+ co_output c)
          (te_error t +:+ co_error c) (te_snapshots t ++ co_files c), co_session c))
  end.

(** The file of commands, when there is one. *)
Definition open_commands {X} (message : string) (path : option string) : M (Terminal D * X) (option string) :=
  match path with
  | None => mret None
  | Some path =>
      bytes ← at_terminal (reading (open_and_read path (RuntimeError (message +:+ path))));
      mret (Some (string_of_bytes bytes))
  end.

(** A console that reads commands from a file shows no prompt. *)
Definition cli_console_options (maxSteps : Z) (commands : option string) : DebugConsoleOptions :=
  {| default_continue_steps := maxSteps; show_prompt := bool_decide (commands = None); print_banner := true |}.

Definition debugShellCommand (inputPath : string) (args : list string) : Command Z :=
  o ← lift (parse_options debug_shell_table (no_positional "debug-shell") args {| dsh_max_steps := cli_default_steps; dsh_commands := None |});
  with_object (new_DebugSession no_devices new_Handler) (
    _ ← open_session inputPath;
    commands ← open_commands "Cannot open debugger command file: " (dsh_commands o);
    let options := cli_console_options (dsh_max_steps o) commands in
    success ← run_on_console commands (fun s input => new_DebugConsole s input options) (DebugConsole_run options);
    mret (if success : bool then 0 else 1)).

End commands.
