(* ===== verification/Commands.v ===== *)
(** * The command line tool: commands on several processes, and [main]

    The rest of the commands of [tools/zero_cli.cpp]: [run-processes],
    [debug-processes], [trace-diff], [showcase], [run-os], [syscall-table], the usage
    text, and [main], which chooses a command and turns an exception into an exit
    code.  The tool is the one built for a system without the serial ports of
    Windows, where opening a port throws. *)

From S2P Require Import Prelude Words Strings Text ALU Memory ISA Binary Interrupts Serial Devices CPUState Trace TraceDetail Json CPU CPUExec CPUStep Image Process ProcTable Scheduler Dispatcher Preemption Lifecycle ZeroFS Syscalls Assembler Runner DebugCondition DebugSymbols DebugSession MultiDebugSession TraceJson TraceJsonDiff Console DebugConsole MultiProcessDebugConsole Disk BioOSRunner Showcase CommandLine.
Open Scope Z_scope.

(** ** Options of [run-processes] and [debug-processes] *)

Record ProcessExitExpectation := { px_pid : ProcessId; px_exit_code : Z }.
Record HardwareRegisterExpectation := { hx_offset : Z; hx_value : Z }.

Definition parseProcessExitExpectation (text : string) : outcome ProcessExitExpectation :=
  match split_pair text with
  | None => throw (InvalidArgument ("Invalid --expect-exit value. Expected PID=CODE, got: " +:+ text))
  | Some (pidText, codeText) =>
      '(rawPid, parsed) ← stoull read_magnitude pidText;
      _ ← throw_if (negb (whole pidText parsed) || (rawPid =? 0) || (rawPid >? UINT64_MAX))
            (InvalidArgument ("Invalid process ID in --expect-exit: " +:+ text));
      '(rawCode, parsed) ← stoll read_magnitude codeText;
      _ ← throw_if (negb (whole codeText parsed)) (InvalidArgument ("Invalid exit code in --expect-exit: " +:+ text));
      mret {| px_pid := rawPid; px_exit_code := rawCode |}
  end.

Definition parseHardwareRegisterExpectation (text : string) : outcome HardwareRegisterExpectation :=
  match split_pair text with
  | None => throw (InvalidArgument ("Invalid --expect-hardware value. Expected OFFSET=VALUE, got: " +:+ text))
  | Some (offsetText, valueText) =>
      '(rawOffset, parsed) ← stoull read_magnitude offsetText;
      _ ← throw_if (negb (whole offsetText parsed) || (rawOffset >=? kHardwareSize) || negb (rawOffset mod kHardwareRegisterWidth =? 0))
            (InvalidArgument ("Invalid hardware offset in --expect-hardware: " +:+ text));
      '(rawValue, parsed) ← stoll read_magnitude valueText;
      _ ← throw_if (negb (whole valueText parsed)) (InvalidArgument ("Invalid hardware value in --expect-hardware: " +:+ text));
      mret {| hx_offset := rawOffset; hx_value := rawValue |}
  end.

(** The variables the option loops of both commands fill.  [rq_steps] is
    [max_lifecycle_steps] or [default_continue_steps]; only [debug-processes] has a
    file of commands. *)
Record ProcessesRequest := {
  rq_quantum : Z;
  rq_steps : Z;
  rq_commands : option string;
  rq_protected : bool;
  rq_mock : bool;
  rq_serial_port : string;
  rq_baud : Z;
  rq_baud_specified : bool;
  rq_exits : list ProcessExitExpectation;
  rq_hardware : list HardwareRegisterExpectation;
  rq_paths : list string;
}.

Definition new_ProcessesRequest : ProcessesRequest :=
  {| rq_quantum := 2; rq_steps := 100000; rq_commands := None; rq_protected := false; rq_mock := false; rq_serial_port := EmptyString;
     rq_baud := 115200; rq_baud_specified := false; rq_exits := []; rq_hardware := []; rq_paths := [] |}.

(** Assignments. *)
Definition with_quantum (quantum : Z) (r : ProcessesRequest) : ProcessesRequest :=
  Build_ProcessesRequest quantum (rq_steps r) (rq_commands r) (rq_protected r) (rq_mock r) (rq_serial_port r) (rq_baud r)
    (rq_baud_specified r) (rq_exits r) (rq_hardware r) (rq_paths r).
Definition with_steps (steps : Z) (r : ProcessesRequest) : ProcessesRequest :=
  Build_ProcessesRequest (rq_quantum r) steps (rq_commands r) (rq_protected r) (rq_mock r) (rq_serial_port r) (rq_baud r)
    (rq_baud_specified r) (rq_exits r) (rq_hardware r) (rq_paths r).
Definition with_commands (commands : option string) (r : ProcessesRequest) : ProcessesRequest :=
  Build_ProcessesRequest (rq_quantum r) (rq_steps r) commands (rq_protected r) (rq_mock r) (rq_serial_port r) (rq_baud r)
    (rq_baud_specified r) (rq_exits r) (rq_hardware r) (rq_paths r).
Definition with_protected (r : ProcessesRequest) : ProcessesRequest :=
  Build_ProcessesRequest (rq_quantum r) (rq_steps r) (rq_commands r) true (rq_mock r) (rq_serial_port r) (rq_baud r)
    (rq_baud_specified r) (rq_exits r) (rq_hardware r) (rq_paths r).
Definition with_mock (r : ProcessesRequest) : ProcessesRequest :=
  Build_ProcessesRequest (rq_quantum r) (rq_steps r) (rq_commands r) true true (rq_serial_port r) (rq_baud r)
    (rq_baud_specified r) (rq_exits r) (rq_hardware r) (rq_paths r).
Definition with_serial (port : string) (r : ProcessesRequest) : ProcessesRequest :=
  Build_ProcessesRequest (rq_quantum r) (rq_steps r) (rq_commands r) true (rq_mock r) port (rq_baud r)
    (rq_baud_specified r) (rq_exits r) (rq_hardware r) (rq_paths r).
Definition with_baud (baud : Z) (r : ProcessesRequest) : ProcessesRequest :=
  Build_ProcessesRequest (rq_quantum r) (rq_steps r) (rq_commands r) (rq_protected r) (rq_mock r) (rq_serial_port r) baud true
    (rq_exits r) (rq_hardware r) (rq_paths r).
Definition with_exit (e : ProcessExitExpectation) (r : ProcessesRequest) : ProcessesRequest :=
  Build_ProcessesRequest (rq_quantum r) (rq_steps r) (rq_commands r) (rq_protected r) (rq_mock r) (rq_serial_port r) (rq_baud r)
    (rq_baud_specified r) (rq_exits r ++ [e]) (rq_hardware r) (rq_paths r).
Definition with_hardware (e : HardwareRegisterExpectation) (r : ProcessesRequest) : ProcessesRequest :=
  Build_ProcessesRequest (rq_quantum r) (rq_steps r) (rq_commands r) (rq_protected r) (rq_mock r) (rq_serial_port r) (rq_baud r)
    (rq_baud_specified r) (rq_exits r) (rq_hardware r ++ [e]) (rq_paths r).
Definition with_path (path : string) (r : ProcessesRequest) : ProcessesRequest :=
  Build_ProcessesRequest (rq_quantum r) (rq_steps r) (rq_commands r) (rq_protected r) (rq_mock r) (rq_serial_port r) (rq_baud r)
    (rq_baud_specified r) (rq_exits r) (rq_hardware r) (rq_paths r ++ [path]).

(** One option each. *)
Definition take_quantum (text : string) (r : ProcessesRequest) : outcome ProcessesRequest :=
  value ← parseRunProcessesPositiveU64 text "--quantum"; mret (with_quantum value r).
Definition take_debug_quantum (text : string) (r : ProcessesRequest) : outcome ProcessesRequest :=
  value ← parseRunProcessesPositiveSize text "--quantum"; mret (with_quantum value r).
Definition take_max_steps (text : string) (r : ProcessesRequest) : outcome ProcessesRequest :=
  value ← parseRunProcessesPositiveSize text "--max-steps"; mret (with_steps value r).
Definition take_command_file (path : string) (r : ProcessesRequest) : outcome ProcessesRequest :=
  commands ← take_commands path (rq_commands r); mret (with_commands commands r).
Definition take_mock (r : ProcessesRequest) : outcome ProcessesRequest :=
  _ ← throw_if (negb (empty (rq_serial_port r))) (InvalidArgument "--hardware-mock cannot be combined with --hardware-serial");
  mret (with_mock r).
Definition take_serial (port : string) (r : ProcessesRequest) : outcome ProcessesRequest :=
  _ ← throw_if (rq_mock r) (InvalidArgument "--hardware-serial cannot be combined with --hardware-mock");
  _ ← throw_if (empty port) (InvalidArgument "--hardware-serial port must not be empty");
  mret (with_serial port r).
Definition take_baud (text : string) (r : ProcessesRequest) : outcome ProcessesRequest :=
  value ← parseRunProcessesPositiveU64 text "--baud";
  _ ← throw_if (value >? 2 ^ 32 - 1) (OutOfRange "--baud is too large");
  mret (with_baud value r).
Definition take_exit (text : string) (r : ProcessesRequest) : outcome ProcessesRequest :=
  e ← parseProcessExitExpectation text; mret (with_exit e r).
Definition take_hardware (text : string) (r : ProcessesRequest) : outcome ProcessesRequest :=
  e ← parseHardwareRegisterExpectation text; mret (with_hardware e r).

(** [argument.rfind(prefix, 0) == 0] refuses what looks like an option. *)
Definition take_path (command argument : string) (r : ProcessesRequest) : outcome ProcessesRequest :=
  if isCommandOption argument then throw (InvalidArgument ("Unknown " +:+ command +:+ " option: " +:+ argument)) else mret (with_path argument r).

Definition run_processes_table : list (string * OptionHandler ProcessesRequest) :=
  [("--quantum", OneValue "--quantum requires a value" take_quantum);
   ("--max-steps", OneValue "--max-steps requires a value" take_max_steps);
   ("--protected-syscalls", Flag (fun r => mret (with_protected r)));
   ("--hardware-mock", Flag take_mock);
   ("--hardware-serial", OneValue "--hardware-serial requires a port" take_serial);
   ("--baud", OneValue "--baud requires a value" take_baud);
   ("--expect-exit", OneValue "--expect-exit requires PID=CODE" take_exit);
   ("--expect-hardware", OneValue "--expect-hardware requires OFFSET=VALUE" take_hardware)].

Definition debug_processes_table : list (string * OptionHandler ProcessesRequest) :=
  [("--quantum", OneValue "--quantum requires a value" take_debug_quantum);
   ("--max-steps", OneValue "--max-steps requires a value" take_max_steps);
   ("--commands", OneValue "--commands requires a file path" take_command_file);
   ("--protected-syscalls", Flag (fun r => mret (with_protected r)));
   ("--hardware-mock", Flag take_mock);
   ("--hardware-serial", OneValue "--hardware-serial requires a port" take_serial);
   ("--baud", OneValue "--baud requires a value" take_baud);
   ("--expect-exit", OneValue "--expect-exit requires PID=CODE" take_exit);
   ("--expect-hardware", OneValue "--expect-hardware requires OFFSET=VALUE" take_hardware)].

(** The checks behind the loops. *)
Definition check_request (r : ProcessesRequest) : outcome unit :=
  _ ← throw_if (rq_baud_specified r && empty (rq_serial_port r)) (InvalidArgument "--baud requires --hardware-serial");
  throw_if (negb (bool_decide (length (rq_hardware r) = 0%nat)) && negb (rq_mock r))
    (InvalidArgument "--expect-hardware currently requires --hardware-mock").

Definition parse_run_processes (args : list string) : outcome ProcessesRequest :=
  r ← parse_options run_processes_table (take_path "run-processes") args new_ProcessesRequest;
  _ ← throw_if (bool_decide (rq_paths r = [])) (InvalidArgument "run-processes requires at least one .zbin file");
  _ ← check_request r;
  mret r.

Definition parse_debug_processes (args : list string) : outcome ProcessesRequest :=
  r ← parse_options debug_processes_table (take_path "debug-processes") args new_ProcessesRequest;
  _ ← throw_if (length (rq_paths r) <? 2)%nat (InvalidArgument "debug-processes requires at least two executable paths");
  _ ← check_request r;
  mret r.

(** ** The hardware *)

(** A mock board behind its bridge on a bus. *)
Definition board_world (busName : string) : outcome World :=
  board ← new_MockHardwareBus busName;
  let w := set_hardware_buses {[0%nat := MockHardwareBus_connect board]} no_devices in
  bus ← MMIOBus_mapDevice w kHardwareBase kHardwareSize (Some (HardwareRef 0)) [];
  mret (set_buses {[0%nat := bus]} w).

(** The bus of the request, when there is one, and its store. *)
Definition request_world (busName : string) (r : ProcessesRequest) : outcome (option nat * World) :=
  if rq_mock r then w ← board_world busName; mret (Some 0%nat, w)
  else if negb (empty (rq_serial_port r)) then _ ← (WindowsSerialTransport_connect : outcome unit); mret (None, no_devices)
  else mret (None, no_devices).

Section commands.
Context {LD : LongDouble} {D : Type} {HD : HostDisk D}.

Abbreviation Command := (M (Terminal D)).

(** ** [run-processes] *)

(** The exit code of a process, as the expectation sees it: a process that is not
    there, or has no exit code, counts as 0. *)
Definition expect_exit (label : string) (exit_of : ProcessId -> outcome (option Z)) (e : ProcessExitExpectation) : Command bool :=
  let found := match exit_of (px_pid e) with Ret found => found | Throw _ => None end in
  let actual := default 0 found in
  if bool_decide (found = Some (px_exit_code e)) then
    _ ← say ("[PASS] " +:+ label +:+ "PID " +:+ pretty (px_pid e) +:+ " exit code = " +:+ pretty (px_exit_code e) +:+ newline_text);
    mret true
  else
    _ ← say ("[FAIL] " +:+ label +:+ "PID " +:+ pretty (px_pid e) +:+ " exit code expected " +:+ pretty (px_exit_code e)
             +:+ " but got " +:+ pretty actual +:+ newline_text);
    mret false.

Definition expect_hardware (label : string) (board : MockHardwareBus) (e : HardwareRegisterExpectation) : Command bool :=
  let actual := MockHardwareBus_registerValue board (hx_offset e) in
  if actual =? hx_value e then
    _ ← say ("[PASS] " +:+ label +:+ "Hardware[" +:+ pretty (hx_offset e) +:+ "] = " +:+ pretty actual +:+ newline_text); mret true
  else
    _ ← say ("[FAIL] " +:+ label +:+ "Hardware[" +:+ pretty (hx_offset e) +:+ "] expected " +:+ pretty (hx_value e) +:+ " but got "
             +:+ pretty actual +:+ newline_text);
    mret false.

Definition expectations (label : string) (exit_of : ProcessId -> outcome (option Z)) (board : MockHardwareBus) (r : ProcessesRequest)
    : Command bool :=
  exits ← all_pass (expect_exit label exit_of) (rq_exits r);
  hardware ← all_pass (expect_hardware label board) (rq_hardware r);
  mret (exits && hardware).

Definition run_result_report (result : MultiProcessRunResult) : string :=
  text_line "=== Zero-CPU Multi-Process Run ===" ""
  +:+ text_line "Runtime state: " (processRuntimeStateToString (runtime_state result))
  +:+ text_line "Processes: " (pretty (process_count result))
  +:+ text_line "Lifecycle steps: " (pretty (lifecycle_steps result))
  +:+ text_line "Terminations: " (pretty (termination_count result))
  +:+ text_line "Faults: " (pretty (fault_count result))
  +:+ text_line "Preemptions: " (pretty (preemption_count result))
  +:+ text_line "Context switches: " (pretty (context_switch_count result))
  +:+ text_line "Step limit reached: " (truth_text (step_limit_reached result)).

Definition process_report (process : ProcessRunSummary) : string :=
  newline_text +:+ text_line "PID " (pretty (rs_pid process) +:+ " | " +:+ rs_source_name process)
  +:+ text_line "  State: " (processStateToString (rs_state process))
  +:+ (if rs_has_exit_code process
       then text_line "  Termination: " (processTerminationKindToString (rs_termination_kind process))
            +:+ text_line "  Exit code: " (pretty (rs_exit_code process))
       else EmptyString)
  +:+ (if empty (rs_termination_message process) then EmptyString else text_line "  Message: " (rs_termination_message process))
  +:+ text_line "  PC: " (pretty (ctx_pc (rs_final_context process)))
  +:+ text_line "  SP: " (pretty (ctx_sp (rs_final_context process)))
  +:+ "  Registers:"
  +:+ concat_text (fun text => text) (imap (fun i value => " R" +:+ pretty (Z.of_nat i) +:+ "=" +:+ pretty value)
                                        (take kRegisterCount (ctx_registers (rs_final_context process))))
  +:+ newline_text.

Definition print_process (process : ProcessRunSummary) : Command unit :=
  _ ← say (process_report process);
  if rs_data_size process >=? 8 then
    say_value ("  Data[" +:+ pretty (rs_data_base process) +:+ "] qword: ")
      (value ← Memory_readI64 (rs_final_memory process) (rs_data_base process) Little; mret (pretty value +:+ newline_text))
  else mret tt.

Definition run_exit_code (result : MultiProcessRunResult) (expectationsPassed : bool) : Z :=
  if step_limit_reached result then 3
  else if bool_decide (runtime_state result = RS_Deadlocked) then 4
  else if negb expectationsPassed then 3
  else if negb (fault_count result =? 0) then 2
  else if MultiProcessRunResult_success result then 0 else 1.

(** [process.has_exit_code ? process.exit_code : nothing] *)
Definition run_exit_of (result : MultiProcessRunResult) (pid : ProcessId) : outcome (option Z) :=
  process ← MultiProcessRunResult_process result pid;
  mret (if rs_has_exit_code process then Some (rs_exit_code process) else None).

Definition run_processes_options (r : ProcessesRequest) (bus : option nat) : MultiProcessRunOptions :=
  {| opt_timer_vector := opt_timer_vector default_options; opt_quantum := rq_quantum r;
     opt_timer_payload := opt_timer_payload default_options; max_lifecycle_steps := rq_steps r;
     opt_normal_exit_code := opt_normal_exit_code default_options; opt_fault_exit_code := opt_fault_exit_code default_options;
     opt_mmio_bus := bus; opt_has_handler := rq_protected r |}.

(** The result of the run and the board, which is there when it is asked for. *)
Definition run_request (r : ProcessesRequest) (bus : option nat) (w : World) (d : D) : outcome (MultiProcessRunResult * MockHardwareBus) :=
  let '(result, (w, _)) := MultiProcessRunner_runFiles (fun path => read_binary_file path d) (rq_paths r) (run_processes_options r bus)
                             (w, new_Handler) in
  result ← result;
  mret (result, hardware_buses w !!! 0%nat).

Definition runProcessesCommand (args : list string) : Command Z :=
  r ← lift (parse_run_processes args);
  '(bus, w) ← lift (request_world "cli-protected-hardware" r);
  _ ← (if rq_protected r then say (text_line "Protected syscalls: enabled" "") else mret tt);
  '(result, board) ← reading (run_request r bus w);
  passed ← expectations "" (run_exit_of result) board r;
  _ ← say (run_result_report result);
  _ ← for_each print_process (run_processes result);
  mret (run_exit_code result passed).

(** ** [debug-processes] *)

Context {HF : HostFiles}.

Abbreviation MultiSession := (MultiProcessDebugSession Handler).

Definition debug_processes_options (r : ProcessesRequest) (bus : option nat) : MultiProcessDebugOptions :=
  {| mo_timer_vector := mo_timer_vector default_debug_options; mo_quantum := rq_quantum r;
     mo_timer_payload := mo_timer_payload default_debug_options; mo_default_continue_steps := rq_steps r;
     mo_normal_exit_code := mo_normal_exit_code default_debug_options; mo_fault_exit_code := mo_fault_exit_code default_debug_options;
     mo_mmio_bus := bus; mo_has_handler := rq_protected r |}.

Definition debug_request (r : ProcessesRequest) (bus : option nat) (w : World) (d : D) : outcome MultiSession :=
  (new_MultiProcessDebugSession (fun path => read_binary_file path d) (fun path => text_of_file path d) (rq_paths r)
     (debug_processes_options r bus) (w, new_Handler)).1.

Definition debug_exit_of (s : MultiSession) (pid : ProcessId) : outcome (option Z) :=
  snapshot ← Multi_processSnapshot pid s;
  mret (if pd_has_exit_code snapshot then Some (pd_exit_code snapshot) else None).

Definition validateExpectations (r : ProcessesRequest) : M (Terminal D * MultiSession) bool :=
  s ← at_object get;
  at_terminal (expectations "Debug " (debug_exit_of s) (hardware_buses (world (s_machine (ms_system s))) !!! 0%nat) r).

Definition debugProcessesCommand (args : list string) : Command Z :=
  r ← lift (parse_debug_processes args);
  '(bus, w) ← lift (request_world "debug-cli-protected-hardware" r);
  _ ← (if rq_protected r then say (text_line "Protected debug syscalls: enabled" "") else mret tt);
  s ← reading (debug_request r bus w);
  with_object s (
    commands ← open_commands "Cannot open multi-process debugger command file: " (rq_commands r);
    let options := cli_console_options (rq_steps r) commands in
    succeeded ← run_on_console commands (fun s input => new_MultiProcessDebugConsole s input options) (MultiProcessDebugConsole_run options);
    passed ← (if succeeded : bool then validateExpectations r else mret false);
    mret (if passed : bool then 0 else 1)).

(** ** The other commands *)

Definition runTraceDiffCommand (expectedPath actualPath : string) (strict : bool) : Command Z :=
  result ← reading (compare_trace_files expectedPath actualPath {| df_strict := strict |});
  _ ← say (text_line "=== Zero-CPU Trace Diff ===" "" +:+ text_line "Mode: " (if strict then "strict" else "architectural")
           +:+ text_line "Expected: " expectedPath +:+ text_line "Actual:   " actualPath +:+ newline_text);
  if df_equal result then _ ← say (text_line "[PASS] " (df_message result)); mret 0
  else
    _ ← say (text_line "[FAIL] " (df_message result) +:+ text_line "Path:     " (df_first_path result)
             +:+ text_line "Expected: " (df_expected_value result) +:+ text_line "Actual:   " (df_actual_value result));
    mret 2.

Definition showcase_report (result : EndToEndShowcaseResult) (faulted : ProcessRunSummary) : string :=
  let runtime := sh_runtime result in
  text_line "[PASS] .zasm -> .zbin: 2 protected programs" ""
  +:+ text_line "[PASS] Runtime completed: processes=" (pretty (process_count runtime) +:+ ", faults=" +:+ pretty (fault_count runtime))
  +:+ text_line "[PASS] Fault isolation: PID 2 faulted, PID 1 survived and exited " (pretty (sh_survivor_exit_code result))
  +:+ text_line "[PASS] ZeroFS: " (sh_filesystem_before result +:+ " -> " +:+ sh_filesystem_after result)
  +:+ text_line "[PASS] Mock GPIO[0] = " (pretty (sh_gpio_output result))
  +:+ text_line "[PASS] Scheduling: preemptions=" (pretty (preemption_count runtime) +:+ ", context-switches="
                                                   +:+ pretty (context_switch_count runtime))
  +:+ text_line "[PASS] Protected syscalls: FS_READ, HW_WRITE, FS_WRITE, EXIT" ""
  +:+ text_line "[PASS] Multi-process invariants" ""
  +:+ text_line "[PASS] Golden trace regression" "" +:+ newline_text
  +:+ text_line "Fault evidence:" "" +:+ text_line "  " (rs_termination_message faulted) +:+ newline_text
  +:+ text_line "Artifacts:" "" +:+ text_line "  " (sh_filesystem_binary_path result) +:+ text_line "  " (sh_hardware_binary_path result)
  +:+ text_line "  " (sh_trace_json_path result) +:+ newline_text
  +:+ text_line "Showcase completed successfully." "".

Definition runShowcaseCommand : Command Z :=
  _ ← say (text_line "=== Zero-CPU End-to-End Showcase ===" "" +:+ newline_text);
  result ← writing (EndToEndShowcaseRunner_run default_showcase_options);
  if negb (sh_passed result) then
    _ ← say (text_line "[FAIL] Showcase verification" "" +:+ text_line "       " (sh_detail result)); mret 1
  else
    faulted ← lift (MultiProcessRunResult_process (sh_runtime result) 2);
    _ ← say (showcase_report result faulted);
    mret 0.

Definition bio_report (r : BioOSRunResult) : string :=
  text_line "Directory: " (os_directory r)
  +:+ text_line "Generated Source: " (os_source_path r)
  +:+ text_line "Generated Binary: " (os_binary_path r)
  +:+ text_line "Instruction Count: " (pretty (os_instruction_count r))
  +:+ text_line "Code Size: " (pretty (os_code_size r) +:+ " bytes")
  +:+ text_line "Syscall Handler PC: " (pretty (os_syscall_handler_pc r))
  +:+ text_line "Timer Handler PC: " (pretty (os_timer_handler_pc r))
  +:+ text_line "BIO-OS Stack Base: " (pretty (os_stack_base r))
  +:+ text_line "Step Count: " (pretty (os_step_count r))
  +:+ text_line "Final PC: " (pretty (os_final_pc r))
  +:+ text_line "Final SP: " (pretty (os_final_sp r))
  +:+ text_line "Exit Code: " (pretty (os_exit_code r)) +:+ newline_text
  +:+ text_line "Debug Writes: " (pretty (Z.of_nat (length (os_debug_writes r))))
  +:+ (if empty (os_debug_ascii r) then text_line "ASCII view: <empty>" ""
       else text_line "ASCII view:" "" +:+ text_line (os_debug_ascii r) "")
  +:+ text_line "Timer tick count = " (pretty (os_timer_tick_count r))
  +:+ text_line "Timer interval = " (pretty (os_timer_interval r))
  +:+ text_line "Timer vector = " (pretty (os_timer_vector r))
  +:+ text_line "Timer payload = " (pretty (os_timer_payload r))
  +:+ text_line "Timer interrupt count = " (pretty (os_timer_interrupt_count r))
  +:+ text_line "Timer enabled = " (truth_text (os_timer_enabled r)) +:+ newline_text.

(** What a run of the BIO-OS is expected to show. *)
Definition bio_checks (r : BioOSRunResult) : list (string * bool) :=
  [("BIO-OS halted CPU", os_halted r);
   ("BIO-OS ASCII output is BU", bool_decide (os_debug_ascii r = "BU"));
   ("BIO-OS debug output captured at least two writes", (2 <=? length (os_debug_writes r))%nat);
   ("BIO-OS timer interrupt count is at least one", os_timer_interrupt_count r >=? 1);
   ("BIO-OS timer disabled itself", negb (os_timer_enabled r));
   ("BIO-OS exit code is zero", os_exit_code r =? 0)].

Definition expect_condition (check : string * bool) : Command bool :=
  _ ← say (text_line (if check.2 then "[PASS] " else "[FAIL] ") check.1); mret check.2.

Definition runBioOSDirectory (directory : string) : Command Z :=
  _ ← say (text_line "=== Zero-CPU BIO-OS Run ===" "" +:+ newline_text);
  result ← writing (BioOSRunner_run new_Handler
                      {| opt_directory := directory; opt_combined_source_path := opt_combined_source_path default_bio_options;
                         opt_combined_binary_path := opt_combined_binary_path default_bio_options;
                         opt_max_steps := opt_max_steps default_bio_options;
                         write_generated_files := write_generated_files default_bio_options |});
  _ ← say (bio_report result);
  if negb (BioOSRunResult_success result) then _ ← say (text_line "BIO-OS run failed: " (os_error_message result)); mret 1
  else
    passed ← all_pass expect_condition (bio_checks result);
    if (passed : bool) then _ ← say (newline_text +:+ text_line "BIO-OS run finished successfully." ""); mret 0
    else _ ← say (newline_text +:+ text_line "BIO-OS run failed checks." ""); mret 1.

(** ** The table of system calls *)

Record SyscallInfo := {
  sy_number : Z;
  sy_name : string;
  sy_inputs : string;
  sy_returns : string;
  sy_effect : string;
}.

Definition guestSyscallTable : list SyscallInfo :=
  [{| sy_number := 1; sy_name := "debug output"; sy_inputs := "R2 = value"; sy_returns := "-"; sy_effect := "write value to DebugOutputDevice" |};
   {| sy_number := 2; sy_name := "memory write"; sy_inputs := "R2 = address, R3 = value"; sy_returns := "-"; sy_effect := "write Memory[R2] = R3" |};
   {| sy_number := 3; sy_name := "exit"; sy_inputs := "R2 = exit code"; sy_returns := "R7 = exit code"; sy_effect := "halt guest CPU" |};
   {| sy_number := 4; sy_name := "timer read"; sy_inputs := "-"; sy_returns := "R2 = tick count"; sy_effect := "read TimerDevice tick count" |};
   {| sy_number := 5; sy_name := "timer enable"; sy_inputs := "R2 = interval, R3 = vector"; sy_returns := "-";
      sy_effect := "configure interval/vector and enable timer" |};
   {| sy_number := 6; sy_name := "timer disable"; sy_inputs := "-"; sy_returns := "-"; sy_effect := "disable timer" |};
   {| sy_number := 7; sy_name := "timer configure"; sy_inputs := "R2 = interval, R3 = vector, R4 = payload"; sy_returns := "-";
      sy_effect := "configure timer interval/vector/payload" |}].

Definition protectedSyscallTable : list SyscallInfo :=
  [{| sy_number := kExitSyscall; sy_name := "process exit"; sy_inputs := "R2 = exit code"; sy_returns := "R7 = exit code, R4 = status";
      sy_effect := "terminate current process" |};
   {| sy_number := kHardwareWriteSyscall; sy_name := "hardware write"; sy_inputs := "R2 = hardware offset, R3 = value";
      sy_returns := "R4 = status"; sy_effect := "write through protected hardware MMIO" |};
   {| sy_number := kHardwareReadSyscall; sy_name := "hardware read"; sy_inputs := "R2 = hardware offset"; sy_returns := "R2 = value, R4 = status";
      sy_effect := "read through protected hardware MMIO" |}].

Definition syscall_entry (prefix : string) (info : SyscallInfo) : string :=
  text_line (prefix +:+ " ") (pretty (sy_number info) +:+ " = " +:+ sy_name info) +:+ text_line "  inputs : " (sy_inputs info)
  +:+ text_line "  returns: " (sy_returns info) +:+ text_line "  effect : " (sy_effect info) +:+ newline_text.

Definition printSyscallEntries (table : list SyscallInfo) (prefix : string) : Command unit := say (concat_text (syscall_entry prefix) table).

Definition printProtectedStatusCodes : Command unit :=
  say (text_line "Protected status codes:" ""
       +:+ concat_text (fun '(status, text) => text_line "  status " (pretty status +:+ " = " +:+ text))
             [(kStatusOk, "OK"); (kStatusUnsupported, "unsupported service"); (kStatusInvalidHardwareOffset, "invalid hardware offset");
              (kStatusHardwareUnavailable, "hardware unavailable"); (kStatusHardwareError, "hardware error")]).

Definition printSyscallTable : Command unit :=
  _ ← say (text_line "=== Zero-CPU Syscall Table ===" newline_text
           +:+ text_line "Common INT " (pretty kSyscallVector +:+ " convention:")
           +:+ text_line "  R0 = interrupt vector (set by CPU)" "" +:+ text_line "  R1 = syscall / service number" ""
           +:+ text_line "  R2 = argument 0 / return value" "" +:+ text_line "  R3 = argument 1" ""
           +:+ text_line "  INT " (pretty kSyscallVector +:+ newline_text)
           +:+ text_line "=== Guest Mini-Kernel / BIO-OS Syscalls ===" "" +:+ text_line "Guest ABI:" ""
           +:+ text_line "  R4 = argument 2" "" +:+ text_line "  handler is guest .zasm Kernel code" newline_text);
  _ ← printSyscallEntries guestSyscallTable "syscall";
  _ ← say (text_line "=== Protected Host Runtime Syscalls ===" "" +:+ text_line "Protected ABI:" "" +:+ text_line "  R4 = status" ""
           +:+ text_line "  R7 = exit/status value" "" +:+ text_line "  handler = ProtectedSyscallDispatcher" newline_text);
  _ ← printSyscallEntries protectedSyscallTable "service";
  printProtectedStatusCodes.

(** ** [main] *)

Definition usage_text : string := String.concat newline_text
  ["Zero-CPU CLI";
   "";
   "Usage:";
   "  zero_cli";
   "  zero_cli <input.zasm>";
   "  zero_cli binary-test [output.zbin]";
   "  zero_cli alu-test";
   "  zero_cli signed-branch-test";
   "  zero_cli differential-test";
   "  zero_cli error-invariant-test";
   "  zero_cli trace-json-test";
   "  zero_cli trace-diff-test";
   "  zero_cli trace-diff <expected.json> <actual.json> [--strict]";
   "  zero_cli trace-golden-test";
   "  zero_cli mmio-test";
   "  zero_cli hardware-bus-test";
   "  zero_cli serial-hardware-test";
   "  zero_cli hardware-live-test <COM-port> [baud]";
   "  zero_cli interrupt-test";
   "  zero_cli cpu-interrupt-test";
   "  zero_cli timer-test";
   "  zero_cli cpu-timer-test";
   "  zero_cli cpu-ei-di-test";
   "  zero_cli software-interrupt-test";
   "  zero_cli interrupt-flags-restore-test";
   "  zero_cli register-indirect-test";
   "  zero_cli mini-kernel-syscall-test";
   "  zero_cli mini-kernel-syscall2-test";
   "  zero_cli mini-kernel-syscall3-test";
   "  zero_cli mini-kernel-syscall4-timer-read-test";
   "  zero_cli mini-kernel-syscall5-timer-enable-test";
   "  zero_cli mini-kernel-syscall6-timer-disable-test";
   "  zero_cli mini-kernel-syscall7-timer-configure-test";
   "  zero_cli mini-kernel-timer-lifecycle-test";
   "  zero_cli bio-os-combined-boot-test";
   "  zero_cli run-os <bio_os_directory>";
   "  zero_cli showcase";
   "  zero_cli bio-os-runner-test <bio_os_directory>";
   "  zero_cli syscall-table";
   "  zero_cli assemble <input.zasm> <output.zbin>";
   "  zero_cli run-processes [--quantum N] [--max-steps N] [--protected-syscalls] [--hardware-mock | --hardware-serial PORT] [--baud N] [--expect-exit PID=CODE] [--expect-hardware OFFSET=VALUE] <app1.zbin> [app2.zbin ...]";
   "  zero_cli debug-binary <input.zbin> [--break <address>...] [--max-steps N] [--step N] [--registers] [--memory <address> <bytes>...] [--disassemble <address> <instructions>...]";
   "  zero_cli debug-shell <input.zbin> [--commands <file>] [--max-steps N]";
   "  zero_cli debug-processes [--quantum N] [--max-steps N] [--commands <file>] [--protected-syscalls] [--hardware-mock | --hardware-serial PORT] [--baud N] [--expect-exit PID=CODE] [--expect-hardware OFFSET=VALUE] <app1.zbin> <app2.zbin> [more.zbin ...]";
   "  zero_cli dump-binary <input.zbin>";
   "  zero_cli load-binary <input.zbin>";
   "  zero_cli cpu-load-binary <input.zbin>";
   "  zero_cli run-binary <input.zbin> [--debug-mmio] [--watch <addr>...] [--expect-memory <addr=value>...]";
   ""].

Definition printUsage : Command unit := say usage_text.

(** A command with the wrong number of arguments. *)
Definition invalid_command (command : string) : Command Z :=
  _ ← complain ("Invalid " +:+ command +:+ " command." +:+ newline_text +:+ newline_text); _ ← printUsage; mret 1.

(** [trace-diff], with its third argument. *)
Definition trace_diff_arguments (args : list string) : Command Z :=
  match args with
  | [expected; actual] => runTraceDiffCommand expected actual false
  | [expected; actual; option] =>
      if String.eqb option "--strict" then runTraceDiffCommand expected actual true
      else _ ← complain ("Unknown trace-diff option: " +:+ option +:+ newline_text +:+ newline_text); _ ← printUsage; mret 1
  | _ => invalid_command "trace-diff"
  end.

Context {HO : HashOrder}.

(** The commands of [main] that are not self-tests, given the arguments behind the
    name. *)
Definition cli_commands : list (string * (list string -> Command Z)) :=
  [("help", fun _ => _ ← printUsage; mret 0); ("--help", fun _ => _ ← printUsage; mret 0); ("-h", fun _ => _ ← printUsage; mret 0);
   ("showcase", fun args => match args with [] => runShowcaseCommand | _ => invalid_command "showcase" end);
   ("trace-diff", trace_diff_arguments);
   ("run-os", fun args => match args with [directory] => runBioOSDirectory directory | _ => invalid_command "run-os" end);
   ("syscall-table", fun args => match args with [] => _ ← printSyscallTable; mret 0 | _ => invalid_command "syscall-table" end);
   ("assemble", fun args => match args with [input; output] => assemble_command input output | _ => invalid_command "assemble" end);
   ("debug-processes", fun args => match args with _ :: _ :: _ => debugProcessesCommand args | _ => invalid_command "debug-processes" end);
   ("debug-shell", fun args => match args with input :: args => debugShellCommand input args | [] => invalid_command "debug-shell" end);
   ("debug-binary", fun args => match args with input :: args => debugBinaryCommand input args | [] => invalid_command "debug-binary" end);
   ("run-processes", fun args => match args with _ :: _ => runProcessesCommand args | [] => invalid_command "run-processes" end);
   ("dump-binary", fun args => match args with [input] => dumpBinaryFile input | _ => invalid_command "dump-binary" end);
   ("load-binary", fun args => match args with [input] => loadBinaryFile input | _ => invalid_command "load-binary" end);
   ("cpu-load-binary", fun args => match args with [input] => cpuLoadBinaryFile input | _ => invalid_command "cpu-load-binary" end);
   ("run-binary", fun args =>
      match args with
      | input :: args => options ← lift (parseRunBinaryOptions args); runBinaryFile input options
      | [] => invalid_command "run-binary"
      end)].

(** The names of the self-tests, which are not modelled. *)
Definition self_tests : list string :=
  ["binary-test";
   "alu-test";
   "error-invariant-test";
   "differential-test";
   "signed-branch-test";
   "trace-json-test";
   "trace-diff-test";
   "trace-golden-test";
   "mmio-test";
   "hardware-bus-test";
   "hardware-live-test";
   "serial-hardware-test";
   "interrupt-test";
   "cpu-interrupt-test";
   "timer-test";
   "cpu-timer-test";
   "cpu-ei-di-test";
   "register-indirect-test";
   "software-interrupt-test";
   "mini-kernel-syscall-test";
   "mini-kernel-syscall2-test";
   "mini-kernel-syscall3-test";
   "mini-kernel-syscall4-timer-read-test";
   "mini-kernel-syscall5-timer-enable-test";
   "mini-kernel-syscall6-timer-disable-test";
   "mini-kernel-syscall7-timer-configure-test";
   "mini-kernel-timer-lifecycle-test";
   "bio-os-combined-boot-test";
   "bio-os-runner-test";
   "interrupt-flags-restore-test"].

Fixpoint find_command (name : string) (table : list (string * (list string -> Command Z))) : option (list string -> Command Z) :=
  match table with
  | [] => None
  | (command, run) :: table => if String.eqb name command then Some run else find_command name table
  end.

(** The body of the [try]: nothing for a self-test. *)
Definition cli_body (args : list string) : option (Command Z) :=
  match args with
  | [] => Some (runAssemblyProgram "examples/function_call.zasm")
  | command :: rest =>
      if is_one_of command self_tests then None
      else Some (match find_command command cli_commands with Some run => run rest | None => runAssemblyProgram command end)
  end.

(** [main], given the arguments behind the program's name: the exit code. *)
Definition cli_main (args : list string) : option (Command Z) :=
  (fun body => try_catch body (fun ex => _ ← complain ("Error: " +:+ what ex +:+ newline_text); mret 1)) <$> cli_body args.

End commands.
