(* ===== verification/CommandLaws.v ===== *)
(** * The command line tool: what its commands promise

    Exit codes and files: every call of the tool ends with an exit code, and only
    the commands that make files change them.  [assemble] succeeds whenever the
    source can be assembled.  The options of [run-processes] are read back as they
    were meant, and its exit code tells how the run ended. *)

From S2P Require Import Prelude Words Strings Text ALU Memory ISA Binary Interrupts Serial Devices CPUState Trace TraceDetail Json CPU CPUExec CPUStep CPUFrames Image Process ProcTable Scheduler Dispatcher Preemption Lifecycle ZeroFS Syscalls SyscallLaws Assembler AssemblerLaws Runner VerifierLaws RunnerLaws RunnerVerified DebugCondition DebugSymbols DebugSession MultiDebugSession TraceJson TraceJsonDiff DebugInspector Console DebugConsole MultiProcessDebugConsole ConsoleLaws Disk DiskLaws BioOSRunner Showcase ShowcaseLaws CommandLine Commands.
Open Scope Z_scope.

(** ** Commands that leave the files alone *)

Section keeps.
Context {LD : LongDouble} {D : Type} {HD : HostDisk D} {HF : HostFiles} {HO : HashOrder} (d : D).

Definition keeps_disk (t : Terminal D) : Prop := te_disk t = d.
Definition bench_keeps {X} (tx : Terminal D * X) : Prop := te_disk tx.1 = d.
Definition an_exit_code (code : Z) : Prop := 0 <= code <= 4.

Lemma say_keeps text : safe keeps_disk (say text) (fun _ => True).
Proof. apply safe_modify. trivial. Qed.
Lemma complain_keeps text : safe keeps_disk (complain text) (fun _ => True).
Proof. apply safe_modify. trivial. Qed.
Lemma lift_keeps {St A} (I : St -> Prop) (o : outcome A) : safe I (lift o) (fun _ => True).
Proof. apply safe_lift. trivial. Qed.
Lemma reading_keeps {A} (f : D -> outcome A) : safe keeps_disk (reading f) (fun _ => True).
Proof. unfold reading. eapply safe_bind; [apply safe_get | intros t _; apply lift_keeps]. Qed.
Lemma object_keeps {X A} (m : M X A) : safe bench_keeps (at_object m : M (Terminal D * X) A) (fun _ => True).
Proof.
  intros [t x] Ht. unfold at_object, zoom. cbn. destruct (m x) as [[a|e] x']; cbn; auto.
Qed.
Lemma terminal_keeps {X A} (m : M (Terminal D) A) Q : safe keeps_disk m Q -> safe bench_keeps (at_terminal m : M (Terminal D * X) A) Q.
Proof. intros H. apply (safe_zoom bench_keeps keeps_disk); [exact H | intros [t x] Ht; exact Ht | intros [t x] t' _ Ht; exact Ht]. Qed.
Lemma with_object_keeps {X A} (x : X) (m : M (Terminal D * X) A) Q : safe bench_keeps m Q -> safe keeps_disk (with_object x m) Q.
Proof. intros H t Ht. specialize (H (t, x) Ht). unfold with_object. destruct (m (t, x)) as [[a|e] [t' x']]; exact H. Qed.
Lemma for_each_keeps {St A} (I : St -> Prop) (body : A -> M St unit) l :
  (forall x, safe I (body x) (fun _ => True)) -> safe I (for_each body l) (fun _ => True).
Proof. intros H. induction l as [|x l IH]; cbn; [apply safe_ret; trivial | eapply safe_bind; [apply H | intros _ _; exact IH]]. Qed.
Lemma all_pass_keeps {St A} (I : St -> Prop) (body : A -> M St bool) l :
  (forall x, safe I (body x) (fun _ => True)) -> safe I (all_pass body l) (fun _ => True).
Proof.
  intros H. induction l as [|x l IH]; cbn; [apply safe_ret; trivial|]. eapply safe_bind; [apply H|]. intros p _.
  eapply safe_bind; [exact IH|]. intros q _. apply safe_ret. trivial.
Qed.
Lemma say_value_keeps text (value : outcome string) : safe keeps_disk (say_value text value) (fun _ => True).
Proof. unfold say_value. eapply safe_bind; [apply say_keeps|]. intros _ _. eapply safe_bind; [apply lift_keeps|]. intros s _. apply say_keeps. Qed.
Lemma console_keeps {S} commands (make : S -> string -> outcome (Console S)) run :
  safe bench_keeps (run_on_console commands make run : M (Terminal D * S) bool) (fun _ => True).
Proof.
  intros [t s] Ht. unfold run_on_console. destruct (make s _) as [console|e]; [|exact Ht].
  destruct (run console) as [[r|e] c]; [split; [trivial | exact Ht] | exact Ht].
Qed.

Lemma show_keeps {A} (m : CPU -> M (Terminal D) A) Q : (forall c, safe keeps_disk (m c) Q) -> safe bench_keeps (show m) Q.
Proof. intros H. unfold show, machine_cpu. eapply safe_bind; [apply object_keeps | intros c _; apply terminal_keeps, H]. Qed.
Lemma show_session_keeps {A} (m : DebugSession Handler -> M (Terminal D) A) Q :
  (forall s, safe keeps_disk (m s) Q) -> safe bench_keeps (show_session m) Q.
Proof. intros H. unfold show_session. eapply safe_bind; [apply object_keeps | intros s _; apply terminal_keeps, H]. Qed.

End keeps.

#[export] Hint Resolve say_keeps complain_keeps lift_keeps reading_keeps object_keeps terminal_keeps with_object_keeps for_each_keeps all_pass_keeps
  say_value_keeps console_keeps : safe_default.

(** Follow a command to its end; the end is an exit code. *)
Ltac command_step :=
  match goal with
  | |- forall _, _ => intros ?
  | |- safe _ (mbind _ _) _ => eapply safe_bind; [solve [command_go] | intros ? _]
  | |- safe _ (mret _) _ => apply safe_ret; first [exact Logic.I | unfold an_exit_code; repeat case_match; lia]
  | |- safe _ (throw _) _ => apply safe_throw
  | |- safe _ (throw_if _ _) _ => apply safe_throw_if_any
  | |- safe _ (at_terminal _) _ => apply terminal_keeps
  | |- safe _ (with_object _ _) _ => apply with_object_keeps
  | |- safe _ (show _) _ => apply show_keeps
  | |- safe _ (show_session _) _ => apply show_session_keeps
  | |- safe _ (for_each _ _) _ => apply for_each_keeps
  | |- safe _ (all_pass _ _) _ => apply all_pass_keeps
  | |- safe _ (gets _) _ => apply (safe_gets _ _ (fun _ => True)); trivial
  | |- safe _ (match ?x with _ => _ end) _ => destruct x
  | |- safe _ _ _ => solve [eauto with safe_default nocore]
  end
with command_go := repeat command_step.

Section commands_keep.
Context {LD : LongDouble} {D : Type} {HD : HostDisk D} {HF : HostFiles} {HO : HashOrder} (d : D).

Local Abbreviation quiet m := (safe (keeps_disk d) m (fun _ => True)).
Local Abbreviation quiet_bench m := (safe (bench_keeps d) m (fun _ => True)).
Local Abbreviation exits m := (safe (keeps_disk d) m an_exit_code).

Lemma nl_if_keeps b : quiet (nl_if b).
Proof. unfold nl_if. command_go. Qed.
Lemma printMemoryViews_keeps c : quiet (printMemoryViews c).
Proof. unfold printMemoryViews. command_go. Qed.
Lemma printWatchedMemory_keeps c l : quiet (printWatchedMemory c l).
Proof. unfold printWatchedMemory. command_go. Qed.
Lemma check_memory_keeps c e : quiet (check_memory c e).
Proof. unfold check_memory. command_go. Qed.
Hint Resolve nl_if_keeps printMemoryViews_keeps printWatchedMemory_keeps check_memory_keeps : safe_default.
Lemma checkMemoryExpectations_keeps c l : quiet (checkMemoryExpectations c l).
Proof. unfold checkMemoryExpectations. command_go. Qed.
Lemma printFinalCheck_keeps c : quiet (printFinalCheck c).
Proof. unfold printFinalCheck. command_go. Qed.
Lemma printDebugOutputDevice_keeps device : quiet (printDebugOutputDevice device).
Proof. unfold printDebugOutputDevice. command_go. Qed.
Lemma printHexBytes_keeps bytes : quiet (printHexBytes bytes).
Proof. apply say_keeps. Qed.
Lemma printBinaryHeader_keeps p : quiet (printBinaryHeader p).
Proof. apply say_keeps. Qed.
Lemma print_decoded_keeps count : forall i bytes, quiet (print_decoded count i bytes).
Proof. induction count; intros; cbn [print_decoded]; unfold printDecodedInstruction; command_go. Qed.
Hint Resolve checkMemoryExpectations_keeps printFinalCheck_keeps printDebugOutputDevice_keeps printHexBytes_keeps
  printBinaryHeader_keeps print_decoded_keeps : safe_default.
Lemma printDecodedInstructions_keeps bytes : quiet (printDecodedInstructions bytes).
Proof. unfold printDecodedInstructions. command_go. Qed.
Hint Resolve printDecodedInstructions_keeps : safe_default.

Lemma dumpBinaryFile_exits path : exits (dumpBinaryFile path).
Proof. unfold dumpBinaryFile. command_go. Qed.
Lemma loadBinaryFile_exits path : exits (loadBinaryFile path).
Proof. unfold loadBinaryFile. command_go. Qed.
Lemma cpuLoadBinaryFile_exits path : exits (cpuLoadBinaryFile path).
Proof. unfold cpuLoadBinaryFile. command_go. Qed.

Lemma run_binary_details_keeps o : quiet_bench (run_binary_details o).
Proof. unfold run_binary_details. command_go. Qed.
Hint Resolve run_binary_details_keeps : safe_default.
Definition loop_code (code : option Z) : Prop := from_option an_exit_code True code.
Lemma run_binary_stopped_keeps o text : safe (bench_keeps d) (run_binary_stopped o text) loop_code.
Proof. unfold run_binary_stopped. command_go. apply safe_ret. unfold loop_code, an_exit_code. cbn. lia. Qed.

Lemma run_binary_loop_keeps o n : forall k, safe (bench_keeps d) (run_binary_loop n o k) loop_code.
Proof.
  induction n as [|n IH]; intros k; cbn [run_binary_loop]; [apply run_binary_stopped_keeps|]. unfold machine_cpu.
  eapply safe_bind; [solve [command_go]|]. intros c _. destruct (halted (state c)); [apply safe_ret; exact Logic.I|].
  do 4 (eapply safe_bind; [solve [command_go]|]; intros ? _). eapply safe_bind; [solve [command_go]|]. intros c' _.
  destruct (has_error (state c')); [apply run_binary_stopped_keeps | apply IH].
Qed.

Lemma run_binary_finish_exits o : safe (bench_keeps d) (run_binary_finish o) an_exit_code.
Proof. unfold run_binary_finish. command_go. Qed.

Lemma runBinaryFile_exits path o : exits (runBinaryFile path o).
Proof.
  unfold runBinaryFile. eapply safe_bind; [solve [command_go]|]. intros program _. eapply safe_bind; [solve [command_go]|].
  intros m _. apply with_object_keeps. unfold on_bench_cpu. do 4 (eapply safe_bind; [solve [command_go]|]; intros ? _).
  eapply safe_bind; [apply run_binary_loop_keeps|]. intros [c|] Hc; [apply safe_ret; exact Hc | apply run_binary_finish_exits].
Qed.

Lemma print_instructions_keeps labels l : forall i, quiet (print_instructions i labels l).
Proof. induction l; intros; cbn [print_instructions]; command_go. Qed.
Hint Resolve print_instructions_keeps : safe_default.
Lemma printProgram_keeps l labels : quiet (printProgram l labels).
Proof. unfold printProgram. command_go. Qed.
Lemma show_trace_keeps c : quiet (show_trace c).
Proof. unfold show_trace. command_go. Qed.
Lemma show_state_keeps c : quiet (show_state c).
Proof. unfold show_state. command_go. Qed.
Hint Resolve printProgram_keeps show_trace_keeps show_state_keeps : safe_default.
Lemma step_by_step_keeps n : forall k, quiet_bench (step_by_step n k).
Proof.
  induction n as [|n IH]; intros k; cbn [step_by_step]; [command_go|]. unfold machine_cpu.
  eapply safe_bind; [solve [command_go]|]. intros c _. destruct (halted (state c)); [command_go|].
  destruct (program c !! _); [|command_go]. do 6 (eapply safe_bind; [solve [command_go]|]; intros ? _). apply IH.
Qed.
Hint Resolve step_by_step_keeps : safe_default.

Lemma runAssemblyProgram_exits path : exits (runAssemblyProgram path).
Proof. unfold runAssemblyProgram, runStepByStep, machine_cpu. command_go. Qed.

Lemma open_session_keeps path : quiet_bench (open_session path).
Proof. unfold open_session. command_go. Qed.
Lemma inspected_keeps title text : quiet (inspected title text).
Proof. unfold inspected. command_go. Qed.
Hint Resolve open_session_keeps inspected_keeps : safe_default.
Lemma debug_binary_report_keeps o s : quiet (debug_binary_report o s).
Proof. unfold debug_binary_report. command_go. Qed.
Hint Resolve debug_binary_report_keeps : safe_default.

Lemma debugBinaryCommand_exits path args : exits (debugBinaryCommand path args).
Proof.
  unfold debugBinaryCommand. eapply safe_bind; [solve [command_go]|]. intros o _. apply with_object_keeps.
  do 5 (eapply safe_bind; [solve [command_go]|]; intros ? _).
  eapply safe_bind; [apply show_session_keeps; command_go|]. intros _ _. apply safe_ret. unfold an_exit_code.
  match goal with |- context [debug_exit_code ?r] => destruct r; cbn; lia end.
Qed.

Lemma open_commands_keeps {X} message path : safe (bench_keeps d) (open_commands message path : M (Terminal D * X) (option string)) (fun _ => True).
Proof. unfold open_commands. command_go. Qed.
Hint Resolve open_commands_keeps : safe_default.

Lemma debugShellCommand_exits path args : exits (debugShellCommand path args).
Proof. unfold debugShellCommand. command_go. Qed.

Lemma expectations_keeps label exit_of board r : quiet (expectations label exit_of board r).
Proof. unfold expectations, expect_exit, expect_hardware. command_go. Qed.
Lemma print_process_keeps p : quiet (print_process p).
Proof. unfold print_process. command_go. Qed.
Hint Resolve expectations_keeps print_process_keeps : safe_default.

Lemma run_exit_code_range result passed : an_exit_code (run_exit_code result passed).
Proof. unfold an_exit_code, run_exit_code. repeat case_match; lia. Qed.

Lemma runProcessesCommand_exits args : exits (runProcessesCommand args).
Proof.
  unfold runProcessesCommand. eapply safe_bind; [solve [command_go]|]. intros r _. eapply safe_bind; [solve [command_go]|]. intros [bus w] _.
  eapply safe_bind; [solve [command_go]|]. intros _ _. eapply safe_bind; [solve [command_go]|]. intros [result board] _.
  do 3 (eapply safe_bind; [solve [command_go]|]; intros ? _). apply safe_ret, run_exit_code_range.
Qed.

Lemma validateExpectations_keeps r : quiet_bench (validateExpectations r).
Proof. unfold validateExpectations. command_go. Qed.
Hint Resolve validateExpectations_keeps : safe_default.

Lemma debugProcessesCommand_exits args : exits (debugProcessesCommand args).
Proof. unfold debugProcessesCommand. command_go. Qed.

Lemma printUsage_keeps : quiet printUsage.
Proof. apply say_keeps. Qed.
Hint Resolve printUsage_keeps : safe_default.
Lemma invalid_command_exits command : exits (invalid_command command).
Proof. unfold invalid_command. command_go. Qed.
Lemma trace_diff_exits args : exits (trace_diff_arguments args).
Proof.
  unfold trace_diff_arguments. destruct args as [|expected [|actual [|option [|]]]]; try apply invalid_command_exits.
  1: unfold runTraceDiffCommand; command_go. destruct (String.eqb option "--strict"); [unfold runTraceDiffCommand; command_go | command_go].
Qed.
Lemma printSyscallTable_keeps : quiet printSyscallTable.
Proof. unfold printSyscallTable, printSyscallEntries, printProtectedStatusCodes. command_go. Qed.

End commands_keep.

(** ** [main] *)

Lemma anything {St A} (m : M St A) : safe (fun _ => True) m (fun _ => True).
Proof. intros s _. destruct (m s) as [[a|e] s']; cbn; auto. Qed.

(** The commands that make files. *)
Definition writing_commands : list string := ["showcase"; "run-os"; "assemble"].

Section main.
Context {LD : LongDouble} {D : Type} {HD : HostDisk D} {HF : HostFiles} {HO : HashOrder}.

Local Abbreviation codes m := (safe (fun _ => True) m an_exit_code).

Ltac codes_go := repeat first [eapply safe_bind; [apply anything | intros ? _] | case_match | apply safe_ret; unfold an_exit_code; lia].

Lemma forget_disk (m : M (Terminal D) Z) : (forall d, safe (keeps_disk d) m an_exit_code) -> codes m.
Proof. intros H t _. specialize (H (te_disk t) t eq_refl). destruct (m t) as [[c|e] t']; cbn in *; [split; [apply H | trivial] | trivial]. Qed.

Lemma assemble_codes input output : codes (assemble_command input output : M (Terminal D) Z).
Proof. unfold assemble_command. codes_go. Qed.
Lemma showcase_codes : codes (runShowcaseCommand : M (Terminal D) Z).
Proof. unfold runShowcaseCommand. codes_go. Qed.
Lemma run_os_codes directory : codes (runBioOSDirectory directory : M (Terminal D) Z).
Proof. unfold runBioOSDirectory. codes_go. Qed.

(** A command of the table, given its name. *)
Definition command_ok (command : string) (m : M (Terminal D) Z) : Prop :=
  codes m /\ (command ∉ writing_commands -> forall d, safe (keeps_disk d) m an_exit_code).

Lemma keeping_ok command (m : M (Terminal D) Z) : (forall d, safe (keeps_disk d) m an_exit_code) -> command_ok command m.
Proof. intros H. split; [apply forget_disk, H | auto]. Qed.
Lemma writing_ok command (m : M (Terminal D) Z) : codes m -> command ∈ writing_commands -> command_ok command m.
Proof. intros H Hin. split; [exact H | contradiction]. Qed.

Lemma cli_commands_ok : Forall (fun c => forall args, command_ok c.1 (c.2 args)) (cli_commands : list (string * (list string -> M (Terminal D) Z))).
Proof.
  unfold cli_commands.
  repeat apply Forall_cons_2; try apply Forall_nil_2; cbn [fst snd]; intros args.
  - apply keeping_ok. intros d. pose proof (printUsage_keeps d). command_go.
  - apply keeping_ok. intros d. pose proof (printUsage_keeps d). command_go.
  - apply keeping_ok. intros d. pose proof (printUsage_keeps d). command_go.
  - destruct args; [|apply keeping_ok; intros; apply invalid_command_exits]. apply writing_ok; [apply showcase_codes | unfold writing_commands; set_solver].
  - apply keeping_ok. intros. apply trace_diff_exits.
  - destruct args as [|x [|]]; try (apply keeping_ok; intros; apply invalid_command_exits).
    apply writing_ok; [apply run_os_codes | unfold writing_commands; set_solver].
  - apply keeping_ok. intros d. destruct args; [|apply invalid_command_exits]. pose proof (printSyscallTable_keeps d). command_go.
  - destruct args as [|x [|y [|]]]; try (apply keeping_ok; intros; apply invalid_command_exits).
    apply writing_ok; [apply assemble_codes | unfold writing_commands; set_solver].
  - apply keeping_ok. intros d. destruct args as [|x [|y args]]; try apply invalid_command_exits. apply debugProcessesCommand_exits.
  - apply keeping_ok. intros d. destruct args; [apply invalid_command_exits | apply debugShellCommand_exits].
  - apply keeping_ok. intros d. destruct args; [apply invalid_command_exits | apply debugBinaryCommand_exits].
  - apply keeping_ok. intros d. destruct args; [apply invalid_command_exits | apply runProcessesCommand_exits].
  - apply keeping_ok. intros d. destruct args as [|x [|]]; try apply invalid_command_exits. apply dumpBinaryFile_exits.
  - apply keeping_ok. intros d. destruct args as [|x [|]]; try apply invalid_command_exits. apply loadBinaryFile_exits.
  - apply keeping_ok. intros d. destruct args as [|x [|]]; try apply invalid_command_exits. apply cpuLoadBinaryFile_exits.
  - apply keeping_ok. intros d. destruct args; [apply invalid_command_exits|]. eapply safe_bind; [apply lift_keeps | intros; apply runBinaryFile_exits].
Qed.

Lemma find_command_ok (table : list (string * (list string -> M (Terminal D) Z))) name run :
  Forall (fun c => forall args, command_ok c.1 (c.2 args)) table -> find_command name table = Some run -> forall args, command_ok name (run args).
Proof.
  intros H. induction H as [|[command f] table Hc _ IH]; cbn; [discriminate|].
  destruct (String.eqb_spec name command) as [->|_]; [intros [= <-]; exact Hc | exact IH].
Qed.

Lemma cli_body_ok args m : cli_body args = Some m -> command_ok (default EmptyString (head args)) (m : M (Terminal D) Z).
Proof.
  destruct args as [|command rest]; cbn [cli_body head].
  - intros [= <-]. apply keeping_ok. intros. apply runAssemblyProgram_exits.
  - destruct (is_one_of command self_tests); [discriminate|]. intros E0. apply (inj Some) in E0. subst m. cbn [default from_option].
    destruct (find_command command cli_commands) eqn:E; [|apply keeping_ok; intros; apply runAssemblyProgram_exits].
    exact (find_command_ok _ _ _ cli_commands_ok E rest).
Qed.

(** The error report of [main]. *)
Lemma caught_ok (m : M (Terminal D) Z) (t : Terminal D) (I : Terminal D -> Prop) :
  (forall text, safe I (complain text) (fun _ => True)) -> safe I m an_exit_code -> I t ->
  exists code t', try_catch m (fun ex => _ ← complain ("Error: " +:+ what ex +:+ newline_text); mret 1) t = (Ret code, t') /\
    an_exit_code code /\ I t'.
Proof.
  intros Hc Hm Ht. specialize (Hm t Ht). unfold try_catch. destruct (m t) as [[code|e] t1].
  - exists code, t1. split; [reflexivity | exact Hm].
  - specialize (Hc ("Error: " +:+ what e +:+ newline_text) t1 Hm). rewrite bind_run.
    unfold complain, modify in *. cbn in *. eexists 1, _. split; [reflexivity|]. split; [unfold an_exit_code; lia | apply Hc].
Qed.

End main.


(** ** [assemble] *)

Section assembling.
Context {D : Type} {HD : HostDisk D} {KD : @KeepingDisk D HD}.

Lemma write_symbols_run path symbols d :
  exists d', DebugSymbols_writeTo path symbols d = (Ret tt, d') /\ text_of_file path d' = Some (DebugSymbols_writeFile symbols) /\
    forall other, other <> path -> disk_read other d' = disk_read other d.
Proof.
  destruct (kd_truncate path d) as [d1 Ht]. unfold DebugSymbols_writeTo. rewrite bind_run. unfold open_for_writing. rewrite Ht.
  rewrite bind_run. unfold write_out. set (bytes := bytes_of_string _).
  pose proof (kd_fill path bytes d1) as Hf. pose proof (kd_read path bytes d d1 Ht) as Hr.
  pose proof (fun other => kd_other path bytes d d1 other Ht) as Ho.
  destruct (disk_fill path bytes d1) as [ok d']. cbn in Hf, Hr, Ho. subst ok. exists d'. split; [reflexivity|].
  split; [|auto]. unfold text_of_file. rewrite Hr. unfold bytes. cbn [fmap option_fmap option_map]. f_equal. apply string_of_bytes_of_string.
Qed.

Lemma symbols_path_differs path : path <> debugSymbolsPathForExecutable path.
Proof.
  unfold debugSymbolsPathForExecutable. intros E. apply (f_equal String.length) in E. rewrite string_length_app in E. cbn in E. lia.
Qed.

Lemma same_program_refl b : same_program b b = true.
Proof. unfold same_program. rewrite !Z.eqb_refl, !bool_decide_eq_true_2 by reflexivity. reflexivity. Qed.

Lemma symbols_eqb_refl s : DebugSymbols_eqb s s = true.
Proof. unfold DebugSymbols_eqb. rewrite !bool_decide_eq_true_2 by reflexivity. reflexivity. Qed.

Definition set_disk (d : D) (t : Terminal D) : Terminal D := Build_Terminal d (te_input t) (te_output t) (te_error t) (te_snapshots t).

Lemma writing_run {A} (m : M D A) r d' t : m (te_disk t) = (r, d') -> writing m t = (r, set_disk d' t).
Proof. intros E. unfold writing, zoom. rewrite E. reflexivity. Qed.
Lemma reading_run {A} (f : D -> outcome A) t : reading f t = (f (te_disk t), t).
Proof. reflexivity. Qed.

(** What [assemble] leaves behind. *)
Record assembled_files (input output : string) (p : AssembledProgram) (b : BinaryProgram) (symbols : DebugSymbols) (d d' : D) : Prop := {
  af_source : Assembler_assembleFile input d = Ret p;
  af_program : toBinaryProgram p = Ret b;
  af_binary : BinaryReader_readFile output d' = Ret b;
  af_symbols : DebugSymbols_fromAssembledProgram p kBinaryCodeBase EmptyString = Ret symbols;
  af_text : text_of_file (debugSymbolsPathForExecutable output) d' = Some (DebugSymbols_writeFile symbols);
  af_read : DebugSymbols_readFile (debugSymbolsPathForExecutable output) (Some (DebugSymbols_writeFile symbols)) = Ret symbols;
  af_other : forall other, other <> output -> other <> debugSymbolsPathForExecutable output -> disk_read other d' = disk_read other d;
}.

Lemma assembled_symbols source p b : assembleString source = Ret p -> toBinaryProgram p = Ret b ->
  Z.of_nat (length (splitLines source)) <= UINT64_MAX ->
  exists symbols, DebugSymbols_fromAssembledProgram p kBinaryCodeBase EmptyString = Ret symbols /\ symbols_ok symbols /\
    sy_source_path symbols = EmptyString.
Proof.
  intros Hp Hb Hl. pose proof (assembled source p Hp) as Hok. pose proof (binary_of_assembled source p b Hp Hb) as [Hb1 _ _ _ Hsize _].
  assert (Hfit : kBinaryCodeBase + kInstructionSize * Z.of_nat (length (instructions p)) <= UINT64_MAX).
  { pose proof (ok_code _ Hb1) as Hc. pose proof (ok_header _ Hb1) as Hh. assert (is_u32 (code_size (header b))) by (destruct Hh; assumption).
    rewrite Hsize in Hc. unfold kInstructionSize, kBinaryCodeBase. words. }
  assert (H0 : 0 <= kBinaryCodeBase) by (vm_compute; discriminate).
  exists (program_symbols p kBinaryCodeBase EmptyString).
  split; [apply (fromAssembledProgram_run (splitLines source)); assumption|].
  split; [apply (program_symbols_ok (splitLines source)); assumption | reflexivity].
Qed.

End assembling.

(** (C14) Assembling a file.  On a disk that keeps what is written, [assemble] fails only
    when the source file cannot be opened or assembled, or the program cannot be
    encoded, with that error and without touching a file; it never fails one of its
    two read-backs.  Otherwise it exits with 0: the output file reads as the program
    assembled, the symbols file beside it reads as the program's debug symbols, and
    no other file has changed. *)
Theorem assemble_succeeds {D : Type} {HD : HostDisk D} (KD : @KeepingDisk D HD) (input output : string) (t : Terminal D)
    (Hlines : forall bytes, disk_read input (te_disk t) = Some bytes -> Z.of_nat (length (splitLines (string_of_bytes bytes))) <= UINT64_MAX) :
  match assemble_command input output t with
  | (Ret code, t') => code = 0 /\ exists p b symbols, assembled_files input output p b symbols (te_disk t) (te_disk t')
  | (Throw e, t') =>
      t' = t /\ (Assembler_assembleFile input (te_disk t) = Throw e \/
                 exists p, Assembler_assembleFile input (te_disk t) = Ret p /\ toBinaryProgram p = Throw e)
  end.
Proof.
  unfold assemble_command. rewrite bind_run, reading_run.
  destruct (Assembler_assembleFile input (te_disk t)) as [p|e] eqn:Ea; [|auto]. rewrite bind_run. unfold lift.
  destruct (toBinaryProgram p) as [b|e] eqn:Eb; [|split; [reflexivity | right; eauto]].
  assert (Hsource : exists source, assembleString source = Ret p /\ Z.of_nat (length (splitLines source)) <= UINT64_MAX).
  { unfold Assembler_assembleFile, open_and_read in Ea. destruct (disk_read input (te_disk t)) as [bytes|]; [|discriminate Ea].
    exists (string_of_bytes bytes). split; [exact Ea | apply Hlines; reflexivity]. }
  destruct Hsource as (source & Hs & Hl). pose proof (binary_of_assembled source p b Hs Eb) as Hb. pose proof (bo_ok _ _ Hb) as Hok.
  destruct (write_binary_run output b (te_disk t) Hok) as (d1 & E1 & Hr1 & Ho1). rewrite bind_run, (writing_run _ _ _ t E1).
  pose proof (written_program_reads output b d1 Hok Hr1) as Hread. rewrite bind_run, reading_run. cbn [te_disk set_disk]. rewrite Hread.
  rewrite bind_run, same_program_refl. cbn [negb throw_if].
  destruct (assembled_symbols source p b Hs Eb Hl) as (symbols & Hsym & Hsok & Hpath).
  change ((mret () : M (Terminal D) unit) (set_disk d1 t)) with (Ret (), set_disk d1 t). cbv iota beta. rewrite bind_run, Hsym.
  set (path := debugSymbolsPathForExecutable output).
  destruct (write_symbols_run path symbols d1) as (d2 & E2 & Hr2 & Ho2). rewrite bind_run, (writing_run _ _ _ (set_disk d1 t) E2).
  pose proof (write_read symbols path Hsok ltac:(rewrite Hpath; reflexivity)) as Hback.
  rewrite bind_run, reading_run. cbn [te_disk set_disk]. rewrite Hr2, Hback. rewrite bind_run, symbols_eqb_refl. cbn [negb throw_if].
  split; [reflexivity|]. exists p, b, symbols. constructor; try assumption.
  - change (BinaryReader_readFile output d2 = Ret b). apply written_program_reads; [exact Hok|].
    rewrite Ho2 by apply symbols_path_differs. exact Hr1.
  - intros other H1 H2. change (disk_read other d2 = disk_read other (te_disk t)). rewrite Ho2, Ho1 by assumption. reflexivity.
Qed.

(** A worker of the showcase. *)
Definition on_terminal {D : Type} (d : D) : Terminal D := Build_Terminal d EmptyString EmptyString EmptyString [].

Lemma assemble_succeeds_witness :
  exists p b symbols t', assemble_command "worker.zasm" "worker.zbin" (on_terminal one_source) = (Ret 0, t') /\
    assembled_files "worker.zasm" "worker.zbin" p b symbols one_source (te_disk t').
Proof.
  assert (E : (assemble_command "worker.zasm" "worker.zbin" (on_terminal one_source)).1 = Ret 0) by (vm_compute; reflexivity).
  assert (Hl : forall bytes, disk_read "worker.zasm" (te_disk (on_terminal one_source)) = Some bytes ->
                Z.of_nat (length (splitLines (string_of_bytes bytes))) <= UINT64_MAX).
  { intros bytes H. assert (Hb : match disk_read "worker.zasm" (te_disk (on_terminal one_source)) with
                          | Some bytes => Z.of_nat (length (splitLines (string_of_bytes bytes))) <=? UINT64_MAX | None => true end = true)
      by (vm_compute; reflexivity).
    rewrite H in Hb. apply Z.leb_le, Hb. }
  pose proof (assemble_succeeds map_disk_keeps "worker.zasm" "worker.zbin" (on_terminal one_source) Hl) as H.
  destruct (assemble_command "worker.zasm" "worker.zbin" (on_terminal one_source)) as [[code|e] t']; [|discriminate E].
  destruct H as [-> (p & b & symbols & H)]. exists p, b, symbols, t'. split; [reflexivity | exact H].
Defined.

(** ** The options of [run-processes] *)

Definition exit_args (e : ProcessExitExpectation) : list string := ["--expect-exit"; pretty (px_pid e) +:+ "=" +:+ pretty (px_exit_code e)].
Definition hardware_args (e : HardwareRegisterExpectation) : list string := ["--expect-hardware"; pretty (hx_offset e) +:+ "=" +:+ pretty (hx_value e)].

(** A request, as arguments. *)
Definition request_args (r : ProcessesRequest) : list string :=
  ["--quantum"; pretty (rq_quantum r); "--max-steps"; pretty (rq_steps r)]
  ++ (if rq_mock r then ["--hardware-mock"]
      else if negb (empty (rq_serial_port r)) then
        ["--hardware-serial"; rq_serial_port r] ++ (if rq_baud_specified r then ["--baud"; pretty (rq_baud r)] else [])
      else if rq_protected r then ["--protected-syscalls"] else [])
  ++ concat (exit_args <$> rq_exits r) ++ concat (hardware_args <$> rq_hardware r) ++ rq_paths r.

(** A request the options can express. *)
Record request_ok (r : ProcessesRequest) : Prop := {
  ro_quantum : 1 <= rq_quantum r <= UINT64_MAX;
  ro_steps : 1 <= rq_steps r <= UINT64_MAX;
  ro_commands : rq_commands r = None;
  ro_mock : rq_mock r = true -> rq_serial_port r = EmptyString /\ rq_protected r = true;
  ro_serial : rq_serial_port r <> EmptyString -> rq_protected r = true;
  ro_baud : if rq_baud_specified r then rq_serial_port r <> EmptyString /\ 1 <= rq_baud r <= 2 ^ 32 - 1 else rq_baud r = 115200;
  ro_exits : Forall (fun e => 1 <= px_pid e <= UINT64_MAX /\ is_i64 (px_exit_code e)) (rq_exits r);
  ro_hardware : Forall (fun e => 0 <= hx_offset e < kHardwareSize /\ hx_offset e mod kHardwareRegisterWidth = 0 /\ is_i64 (hx_value e)) (rq_hardware r);
  ro_board : rq_hardware r <> [] -> rq_mock r = true;
  ro_paths : rq_paths r <> [] /\ Forall (fun path => isCommandOption path = false) (rq_paths r);
}.

Lemma whole_pretty (z : Z) : whole (pretty z) (String.length (pretty z)) = true.
Proof. apply Z.eqb_refl. Qed.

Lemma positive_pretty z name : 1 <= z <= UINT64_MAX -> parseRunProcessesPositiveU64 (pretty z) name = Ret z.
Proof.
  intros Hz. unfold parseRunProcessesPositiveU64. rewrite (stoull_pretty read_magnitude) by words. rewrite bind_Ret. cbv iota beta. rewrite whole_pretty.
  replace (z =? 0) with false by (symmetry; bool_goal; lia). reflexivity.
Qed.

Lemma positive_size_pretty z name : 1 <= z <= UINT64_MAX -> parseRunProcessesPositiveSize (pretty z) name = Ret z.
Proof.
  intros Hz. unfold parseRunProcessesPositiveSize. rewrite positive_pretty by assumption. rewrite bind_Ret.
  replace (z >? UINT64_MAX) with false by (symmetry; bool_goal; lia). reflexivity.
Qed.

Lemma split_pair_pretty (a b : Z) : 0 <= a -> split_pair (pretty a +:+ "=" +:+ pretty b) = Some (pretty a, pretty b).
Proof.
  intros Ha. destruct (decimal_word a Ha) as (Hd & _ & Hne). unfold split_pair. rewrite span_append.
  - change (span (fun ch => negb (bool_decide (ch = "="%char))) ("=" +:+ pretty b)) with (EmptyString, "=" +:+ pretty b).
    cbn [fst snd]. rewrite append_nil. change ("=" +:+ pretty b) with (String "=" (pretty b)). cbv iota beta.
    rewrite !pretty_nonempty. reflexivity.
  - eapply all_chars_impl; [|exact Hd]. intros c Hc. destruct (decide (c = "="%char)) as [->|Hn]; [discriminate Hc|].
    rewrite bool_decide_eq_false_2 by exact Hn. reflexivity.
Qed.

Lemma exit_pretty e : 1 <= px_pid e <= UINT64_MAX -> is_i64 (px_exit_code e) ->
  parseProcessExitExpectation (pretty (px_pid e) +:+ "=" +:+ pretty (px_exit_code e)) = Ret e.
Proof.
  intros Hp Hc. unfold parseProcessExitExpectation. rewrite split_pair_pretty by lia. rewrite (stoull_pretty read_magnitude) by words. rewrite bind_Ret.
  cbv iota beta. rewrite whole_pretty. replace (px_pid e =? 0) with false by (symmetry; bool_goal; lia).
  replace (px_pid e >? UINT64_MAX) with false by (symmetry; bool_goal; lia). cbn [negb orb throw_if]. rewrite bind_Ret.
  rewrite (stoll_pretty read_magnitude) by exact Hc. rewrite bind_Ret. cbv iota beta. rewrite whole_pretty. destruct e; reflexivity.
Qed.

Lemma hardware_pretty e : 0 <= hx_offset e < kHardwareSize -> hx_offset e mod kHardwareRegisterWidth = 0 -> is_i64 (hx_value e) ->
  parseHardwareRegisterExpectation (pretty (hx_offset e) +:+ "=" +:+ pretty (hx_value e)) = Ret e.
Proof.
  intros Ho Hm Hc. unfold parseHardwareRegisterExpectation. rewrite split_pair_pretty by lia.
  rewrite (stoull_pretty read_magnitude) by (unfold kHardwareSize in Ho; words). rewrite bind_Ret. cbv iota beta. rewrite whole_pretty, Hm.
  replace (hx_offset e >=? kHardwareSize) with false by (symmetry; bool_goal; lia). cbn [negb orb throw_if Z.eqb]. rewrite bind_Ret.
  rewrite (stoll_pretty read_magnitude) by exact Hc. rewrite bind_Ret. cbv iota beta. rewrite whole_pretty. destruct e; reflexivity.
Qed.

Lemma option_with_value {R} table positional name value missing set (args : list string) (r r' : R) :
  find_option name table = Some (OneValue missing set) -> set value r = Ret r' ->
  parse_options table positional (name :: value :: args) r = parse_options table positional args r'.
Proof. intros Hf Hs. cbn [parse_options]. rewrite Hf, Hs. apply bind_Ret. Qed.

Lemma option_flag {R} table positional name set (args : list string) (r r' : R) :
  find_option name table = Some (Flag set) -> set r = Ret r' ->
  parse_options table positional (name :: args) r = parse_options table positional args r'.
Proof. intros Hf Hs. cbn [parse_options]. rewrite Hf, Hs. apply bind_Ret. Qed.

Local Abbreviation parsing := (parse_options run_processes_table (take_path "run-processes")).

(** Lists of options add to what is there. *)
Definition add_exits (l : list ProcessExitExpectation) (r : ProcessesRequest) : ProcessesRequest :=
  Build_ProcessesRequest (rq_quantum r) (rq_steps r) (rq_commands r) (rq_protected r) (rq_mock r) (rq_serial_port r) (rq_baud r)
    (rq_baud_specified r) (rq_exits r ++ l) (rq_hardware r) (rq_paths r).
Definition add_hardware (l : list HardwareRegisterExpectation) (r : ProcessesRequest) : ProcessesRequest :=
  Build_ProcessesRequest (rq_quantum r) (rq_steps r) (rq_commands r) (rq_protected r) (rq_mock r) (rq_serial_port r) (rq_baud r)
    (rq_baud_specified r) (rq_exits r) (rq_hardware r ++ l) (rq_paths r).
Definition add_paths (l : list string) (r : ProcessesRequest) : ProcessesRequest :=
  Build_ProcessesRequest (rq_quantum r) (rq_steps r) (rq_commands r) (rq_protected r) (rq_mock r) (rq_serial_port r) (rq_baud r)
    (rq_baud_specified r) (rq_exits r) (rq_hardware r) (rq_paths r ++ l).

Lemma parse_exits l rest : Forall (fun e => 1 <= px_pid e <= UINT64_MAX /\ is_i64 (px_exit_code e)) l -> forall r,
  parsing (concat (exit_args <$> l) ++ rest) r = parsing rest (add_exits l r).
Proof.
  induction 1 as [|e l [Hp Hc] _ IH]; intros r; cbn [fmap list_fmap concat app exit_args].
  - unfold add_exits. rewrite app_nil_r. destruct r; reflexivity.
  - erewrite (option_with_value _ _ _ _ _ take_exit _ _ (with_exit e r)); [|reflexivity | unfold take_exit; rewrite exit_pretty by assumption; reflexivity].
    rewrite IH. unfold add_exits, with_exit. cbn. rewrite <- app_assoc. reflexivity.
Qed.

Lemma parse_hardware l rest :
  Forall (fun e => 0 <= hx_offset e < kHardwareSize /\ hx_offset e mod kHardwareRegisterWidth = 0 /\ is_i64 (hx_value e)) l -> forall r,
  parsing (concat (hardware_args <$> l) ++ rest) r = parsing rest (add_hardware l r).
Proof.
  induction 1 as [|e l (Ho & Hm & Hc) _ IH]; intros r; cbn [fmap list_fmap concat app hardware_args].
  - unfold add_hardware. rewrite app_nil_r. destruct r; reflexivity.
  - erewrite (option_with_value _ _ _ _ _ take_hardware _ _ (with_hardware e r));
      [|reflexivity | unfold take_hardware; rewrite hardware_pretty by assumption; reflexivity].
    rewrite IH. unfold add_hardware, with_hardware. cbn. rewrite <- app_assoc. reflexivity.
Qed.

(** What does not look like an option is none. *)
Lemma not_an_option path : isCommandOption path = false -> find_option path run_processes_table = None.
Proof.
  intros H. unfold run_processes_table. cbn [find_option].
  repeat match goal with |- context [String.eqb path ?name] => destruct (String.eqb_spec path name) as [->|_]; [discriminate H|] end. reflexivity.
Qed.

Lemma parse_paths l : Forall (fun path => isCommandOption path = false) l -> forall r, parsing l r = Ret (add_paths l r).
Proof.
  induction 1 as [|path l Hp _ IH]; intros r; cbn [parse_options].
  - unfold add_paths. rewrite app_nil_r. destruct r; reflexivity.
  - assert (Ht : take_path "run-processes" path r = Ret (with_path path r)) by (unfold take_path; rewrite Hp; reflexivity).
    rewrite not_an_option, Ht, bind_Ret, IH by exact Hp. unfold add_paths, with_path. cbn.
    rewrite <- app_assoc. reflexivity.
Qed.

(** The options of [run-processes] say what they mean.  Any request the options can
    express (a quantum, a step limit, a baud rate and expectations in their ranges,
    a board or a serial port but not both, at least one path, none of which looks
    like an option) is read back from its arguments, every value in its place. *)
Theorem run_processes_options_read (r : ProcessesRequest) (Hr : request_ok r) : parse_run_processes (request_args r) = Ret r.
Proof.
  destruct Hr as [Hq Hs Hc Hm Hser Hb He Hh Hbd [Hp0 Hp]]. unfold parse_run_processes, request_args. cbn [app].
  erewrite (option_with_value _ _ _ _ _ take_quantum _ _ (with_quantum (rq_quantum r) new_ProcessesRequest));
    [|reflexivity | unfold take_quantum; rewrite positive_pretty by exact Hq; reflexivity].
  erewrite (option_with_value _ _ _ _ _ take_max_steps _ _ (with_steps (rq_steps r) (with_quantum (rq_quantum r) new_ProcessesRequest)));
    [|reflexivity | unfold take_max_steps; rewrite positive_size_pretty by exact Hs; reflexivity].
  set (r0 := with_steps _ _).
  assert (E : forall rest, parsing ((if rq_mock r then ["--hardware-mock"]
      else if negb (empty (rq_serial_port r)) then
        ["--hardware-serial"; rq_serial_port r] ++ (if rq_baud_specified r then ["--baud"; pretty (rq_baud r)] else [])
      else if rq_protected r then ["--protected-syscalls"] else []) ++ rest) r0 =
    parsing rest (Build_ProcessesRequest (rq_quantum r) (rq_steps r) None (rq_protected r) (rq_mock r) (rq_serial_port r) (rq_baud r)
                    (rq_baud_specified r) [] [] [])).
  { intros rest. destruct (rq_mock r) eqn:Em.
    - destruct (Hm eq_refl) as [Hport Hprot]. cbn [app]. erewrite (option_flag _ _ _ take_mock _ _ (with_mock r0)); [|reflexivity | reflexivity].
      rewrite Hport, Hprot. destruct (rq_baud_specified r); [destruct Hb; contradiction|]. rewrite Hb. reflexivity.
    - destruct (rq_serial_port r) as [|ch port] eqn:Eport; cbn [empty negb].
      + destruct (rq_baud_specified r); [destruct Hb; contradiction|]. rewrite Hb. destruct (rq_protected r); cbn [app]; [|reflexivity].
        erewrite (option_flag _ _ _ (fun r => mret (with_protected r)) _ _ (with_protected r0)); reflexivity.
      + rewrite Hser by discriminate. cbn [app].
        erewrite (option_with_value _ _ _ _ _ take_serial _ _ (with_serial (String ch port) r0)); [|reflexivity | reflexivity].
        destruct (rq_baud_specified r); [|rewrite Hb; reflexivity]. destruct Hb as [_ Hb]. cbn [app].
        erewrite (option_with_value _ _ _ _ _ take_baud _ _ (with_baud (rq_baud r) (with_serial (String ch port) r0))); [reflexivity | reflexivity|].
        unfold take_baud. rewrite positive_pretty by words. rewrite bind_Ret.
        replace (rq_baud r >? 2 ^ 32 - 1) with false by (symmetry; bool_goal; lia). reflexivity. }
  rewrite E, parse_exits, parse_hardware, parse_paths by assumption. rewrite bind_Ret. unfold add_exits, add_hardware, add_paths.
  cbn [app rq_quantum rq_steps rq_commands rq_protected rq_mock rq_serial_port rq_baud rq_baud_specified rq_exits rq_hardware rq_paths].
  assert (Hbaud : rq_baud_specified r && empty (rq_serial_port r) = false).
  { destruct (rq_baud_specified r); [|reflexivity]. destruct Hb as [Hb _]. destruct (rq_serial_port r); [contradiction | reflexivity]. }
  assert (Hboard : negb (bool_decide (length (rq_hardware r) = 0%nat)) && negb (rq_mock r) = false).
  { destruct (rq_hardware r); [reflexivity|]. rewrite (Hbd ltac:(discriminate)). reflexivity. }
  rewrite bool_decide_eq_false_2 by exact Hp0. unfold check_request. cbn [throw_if rq_baud_specified rq_serial_port rq_hardware rq_mock].
  rewrite bind_Ret, Hbaud, Hboard. rewrite <- Hc. destruct r; reflexivity.
Qed.

Definition sample_request : ProcessesRequest :=
  {| rq_quantum := 7; rq_steps := 500; rq_commands := None; rq_protected := true; rq_mock := true; rq_serial_port := EmptyString;
     rq_baud := 115200; rq_baud_specified := false; rq_exits := [{| px_pid := 1; px_exit_code := -3 |}];
     rq_hardware := [{| hx_offset := 8; hx_value := 42 |}]; rq_paths := ["a.zbin"; "b.zbin"] |}.

Lemma run_processes_options_read_witness :
  parse_run_processes ["--quantum"; "7"; "--max-steps"; "500"; "--hardware-mock"; "--expect-exit"; "1=-3"; "--expect-hardware"; "8=42"; "a.zbin"; "b.zbin"]
  = Ret sample_request.
Proof.
  apply (run_processes_options_read sample_request). constructor; cbn; try (words || reflexivity || congruence).
  - intros _. split; reflexivity.
  - repeat constructor; cbn; words.
  - repeat constructor; cbn; unfold kHardwareSize; words || lia.
  - split; [discriminate | repeat constructor].
Defined.

(** ** The exit code of [run-processes] *)

Definition exit_met (result : MultiProcessRunResult) (e : ProcessExitExpectation) : Prop :=
  exists process, MultiProcessRunResult_process result (px_pid e) = Ret process /\ rs_has_exit_code process = true /\
    rs_exit_code process = px_exit_code e.
Definition register_met (board : MockHardwareBus) (e : HardwareRegisterExpectation) : Prop :=
  MockHardwareBus_registerValue board (hx_offset e) = hx_value e.

Lemma all_pass_run {St A} (body : A -> M St bool) (f : A -> bool) l :
  (forall x s, exists s', body x s = (Ret (f x), s')) -> forall s, exists s', all_pass body l s = (Ret (forallb f l), s').
Proof.
  intros H. induction l as [|x l IH]; intros s; cbn [all_pass forallb]; [eexists; reflexivity|].
  rewrite bind_run. destruct (H x s) as [s1 ->]. rewrite bind_run. destruct (IH s1) as [s2 ->]. eexists. reflexivity.
Qed.

Lemma none_counted {A} (f : A -> bool) l : countb f l = 0 -> Forall (fun x => f x = false) l.
Proof.
  induction l as [|x l IH]; intros H; [constructor|]. rewrite countb_cons in H. pose proof (countb_bounds f l).
  destruct (f x) eqn:E; [lia | constructor; [exact E | apply IH; lia]].
Qed.

Section running.
Context {LD : LongDouble} {D : Type} {HD : HostDisk D}.

Definition found_exit (result : MultiProcessRunResult) (pid : ProcessId) : option Z :=
  match run_exit_of result pid with Ret found => found | Throw _ => None end.

Lemma exit_met_found result e : exit_met result e <-> found_exit result (px_pid e) = Some (px_exit_code e).
Proof.
  unfold exit_met, found_exit, run_exit_of. destruct (MultiProcessRunResult_process result (px_pid e)) as [process|ex].
  - rewrite bind_Ret. cbn [mret outcome_ret]. destruct (rs_has_exit_code process) eqn:Eh.
    + split; [intros (p & [= <-] & _ & ->); reflexivity | intros [= E]; exists process; auto].
    + split; [intros (p & [= <-] & Ep & _); congruence | discriminate].
  - split; [intros (p & Ep & _); discriminate | discriminate].
Qed.

Lemma expectations_run label result board r (t : Terminal D) :
  exists passed t', expectations label (run_exit_of result) board r t = (Ret passed, t') /\
    (passed = true <-> Forall (exit_met result) (rq_exits r) /\ Forall (register_met board) (rq_hardware r)).
Proof.
  unfold expectations. rewrite bind_run.
  destruct (@all_pass_run (Terminal D) _ (expect_exit label (run_exit_of result))
              (fun e => bool_decide (found_exit result (px_pid e) = Some (px_exit_code e))) (rq_exits r)) with (s := t) as [t1 ->].
  { intros e s. unfold expect_exit. fold (found_exit result (px_pid e)). cbv zeta. case_match; eexists; reflexivity. }
  rewrite bind_run.
  destruct (@all_pass_run (Terminal D) _ (expect_hardware label board) (fun e => MockHardwareBus_registerValue board (hx_offset e) =? hx_value e) (rq_hardware r))
    with (s := t1) as [t2 ->].
  { intros e s. unfold expect_hardware. cbv zeta. case_match; eexists; reflexivity. }
  eexists _, t2. split; [reflexivity|]. rewrite andb_true_iff, !forallb_forall, !Forall_forall. split; intros [H1 H2]; split; intros e He.
  - apply exit_met_found, (bool_decide_eq_true_1 _ (H1 e (proj1 (list_elem_of_In _ _) He))).
  - apply Z.eqb_eq, (H2 e (proj1 (list_elem_of_In _ _) He)).
  - apply bool_decide_eq_true_2, exit_met_found, H1, list_elem_of_In, He.
  - apply Z.eqb_eq, H2, list_elem_of_In, He.
Qed.

(** A run that ended: the result the command reports on, with the code it gives. *)
Lemma run_command_inv args (t : Terminal D) code t' : runProcessesCommand args t = (Ret code, t') ->
  exists r bus w result board passed, parse_run_processes args = Ret r /\ request_world "cli-protected-hardware" r = Ret (bus, w) /\
    run_request r bus w (te_disk t) = Ret (result, board) /\ code = run_exit_code result passed /\
    (passed = true <-> Forall (exit_met result) (rq_exits r) /\ Forall (register_met board) (rq_hardware r)).
Proof.
  unfold runProcessesCommand. intros E. apply M_bind_ret_inv in E as (r & t1 & E1 & E). apply M_lift_ret_inv in E1 as [Er ->].
  apply M_bind_ret_inv in E as ([bus w] & t1 & E1 & E). apply M_lift_ret_inv in E1 as [Ew ->].
  apply M_bind_ret_inv in E as (u & t1 & E1 & E). assert (Hd : te_disk t1 = te_disk t).
  { destruct (rq_protected r); [unfold say, modify in E1|]; injection E1 as _ <-; reflexivity. }
  apply M_bind_ret_inv in E as ([result board] & t2 & E2 & E). rewrite reading_run, Hd in E2. injection E2 as E2 <-.
  rewrite bind_run in E. destruct (expectations_run "" result board r t1) as (passed & t3 & Ee & Hp). rewrite Ee in E.
  apply M_bind_ret_inv in E as (u1 & t4 & _ & E). apply M_bind_ret_inv in E as (u2 & t5 & _ & E). injection E as <- <-.
  exists r, bus, w, result, board, passed. auto.
Qed.

End running.

Ltac exit_code_cases :=
  unfold run_exit_code, MultiProcessRunResult_success, MultiProcessRunResult_completed;
  repeat first [case_bool_decide | case_match]; facts; try discriminate; try congruence; intuition (congruence || lia).

(** (C15) What the exit code of [run-processes] means.  When the command returns, it has
    run the files of its request to a result, and its code is 0 exactly when the run
    completed within its limit, no process faulted, and every expected exit code and
    hardware register has the expected value; 2 exactly when the expectations hold
    and a process faulted; and 4 exactly when the processes deadlocked.  After the
    code 0 no process of the result is a faulted one. *)
Theorem run_processes_exit_code {LD : LongDouble} {D : Type} {HD : HostDisk D} (args : list string) (t t' : Terminal D) (code : Z)
    (Hread : forall path bytes, disk_read path (te_disk t) = Some bytes -> byte_list bytes)
    (Hrun : runProcessesCommand args t = (Ret code, t')) :
  exists r bus w result board,
    parse_run_processes args = Ret r /\ request_world "cli-protected-hardware" r = Ret (bus, w) /\
    run_request r bus w (te_disk t) = Ret (result, board) /\
    let met := Forall (exit_met result) (rq_exits r) /\ Forall (register_met board) (rq_hardware r) in
    (code = 0 <-> step_limit_reached result = false /\ runtime_state result = RS_Completed /\ fault_count result = 0 /\ met) /\
    (code = 2 <-> step_limit_reached result = false /\ runtime_state result <> RS_Deadlocked /\ fault_count result <> 0 /\ met) /\
    (code = 4 <-> step_limit_reached result = false /\ runtime_state result = RS_Deadlocked) /\
    (code = 0 -> 0 <= rq_steps r < UINT64_MAX -> Z.of_nat (length (run_processes result)) < 2 ^ 64 ->
       Forall (fun process => ProcessRunSummary_faulted process = false) (run_processes result)).
Proof.
  destruct (run_command_inv args t code t' Hrun) as (r & bus & w & result & board & passed & Hr & Hw & Hq & -> & Hp).
  exists r, bus, w, result, board. do 3 (split; [assumption|]). cbv zeta. rewrite <- Hp.
  assert (H0 : run_exit_code result passed = 0 <-> step_limit_reached result = false /\ runtime_state result = RS_Completed /\ fault_count result = 0 /\ passed = true).
  { exit_code_cases. }
  split; [exact H0|]. split; [|split].
  - exit_code_cases.
  - exit_code_cases.
  - intros Hc Hs Hl. apply H0 in Hc as (_ & _ & Hf & _). unfold run_request in Hq.
    destruct (MultiProcessRunner_runFiles _ _ _ _) as [o wh] eqn:Ef. destruct wh as [w2 h2].
    destruct o as [result'|e]; [|discriminate Hq]. injection Hq as -> _.
    assert (Hbytes : forall path bytes, read_binary_file path (te_disk t) = Ret bytes -> byte_list bytes).
    { intros path bytes Hb. unfold read_binary_file, open_and_read in Hb. destruct (disk_read path (te_disk t)) eqn:Ed; [|discriminate Hb].
      injection Hb as <-. exact (Hread _ _ Ed). }
    pose proof (ve_consistent _ _ (runFiles_verified _ _ (run_processes_options r bus) _ _ _ _ Hbytes Hs Ef)) as Hcon. rewrite (con_faulted _ Hcon) in Hf.
    apply none_counted. pose proof (countb_bounds ProcessRunSummary_faulted (run_processes result)). unfold u64 in Hf.
    rewrite Z.mod_small in Hf by lia. exact Hf.
Qed.

(** A program that ends, on a disk. *)
Definition ending_program : list Z :=
  match compiled ("MOV R0, 3" +:+ newline_text +:+ "ADD R0, 4" +:+ newline_text) with Ret bytes => bytes | Throw _ => [] end.
Definition one_executable : gmap string (list Z) := {["end.zbin" := ending_program]}.


Lemma one_executable_bytes path bytes : disk_read path one_executable = Some bytes -> byte_list bytes.
Proof.
  assert (Hb : returns_bytes (Ret ending_program) = true) by (vm_compute; reflexivity).
  cbn [disk_read map_disk]. unfold one_executable. intros H. apply lookup_singleton_Some in H as [_ <-].
  exact (returns_bytes_spec _ _ Hb eq_refl).
Qed.

Lemma run_processes_exit_code_witness :
  exists r bus w result board, parse_run_processes ["--expect-exit"; "1=0"; "end.zbin"] = Ret r /\
    run_request (LD := extended_long_double) r bus w one_executable = Ret (result, board) /\ runtime_state result = RS_Completed /\
    Forall (exit_met result) [{| px_pid := 1; px_exit_code := 0 |}].
Proof.
  assert (E : (runProcessesCommand (LD := extended_long_double) ["--expect-exit"; "1=0"; "end.zbin"] (on_terminal one_executable)).1 = Ret 0)
    by (vm_compute; reflexivity).
  pose proof (run_processes_exit_code (LD := extended_long_double) ["--expect-exit"; "1=0"; "end.zbin"] (on_terminal one_executable)) as H.
  destruct (runProcessesCommand _ _) as [[code|e] t']; [|discriminate E]. injection E as ->.
  destruct (H t' 0 one_executable_bytes eq_refl) as (r & bus & w & result & board & Hr & _ & Hq & H0 & _).
  destruct (proj1 H0 eq_refl) as (_ & Hc & _ & He & _).
  exists r, bus, w, result, board. split; [exact Hr|]. split; [exact Hq|]. split; [exact Hc|].
  assert (Hx : match parse_run_processes ["--expect-exit"; "1=0"; "end.zbin"] with
               | Ret r => rq_exits r = [{| px_pid := 1; px_exit_code := 0 |}] | Throw _ => False end) by (vm_compute; reflexivity).
  rewrite Hr in Hx. rewrite Hx in He. exact He.
Defined.
